(* ===== verification/_CoqProject ===== *)
-Q . S2P
Prelude.v
Bytes.v
MediaDefinitions.v
RtpHeaders.v
StringUtils.v
ByteBuffer.v
Cipher.v
Framing.v
Packetizer.v
Messages.v
Receiver.v
ClientHandle.v
HandleFacts.v
ServerSession.v
Authenticator.v
ConnectionClient.v
ClientSession.v
Login.v
Doubles.v
RtpPacketQueue.v
RtpVP8.v
MediaPackager.v
Rtcp.v
RtcpForwarder.v
RtcpAggregator.v
Stats.v
Text.v
SdpInfo.v
SdpRoundtrip.v
NiceConnection.v
Asio.v
Dtls.v
DtlsTransport.v
RtpExtensions.v
Connection.v
ConnectionFacts.v
Ordered.v
OneToMany.v
Peer.v
Channel.v
ChannelFacts.v
Conductor.v
ConductorFacts.v
HandleIdentity.v
Server.v
ServerFacts.v
Hub.v
WorkerQueue.v
Md5.v
Sha1.v
Settings.v
IniFile.v
IniFacts.v
IniRoundtrip.v
MemorySettings.v
OverridesSettings.v
Startup.v
TcpLinks.v
TcpFacts.v
NameLookups.v
Ssl.v
SlideShow.v
