(* ===== verification/Prelude.v ===== *)
(** * licode-windows: a verification development

    The program is a selective forwarding unit for WebRTC: clients log in over a TCP
    signalling protocol, join channels, publish one audio and video stream each and
    subscribe to those of others.  Its media library (src/Src/media) is a port of Licode's
    erizo; its server (src/Src/Server) and shared code (src/Src/Common, src/Include) come
    from a Minecraft server.  This library models the parts below as executable
    definitions and proves the theorems named in them.

    ** Files

    Foundations:
    - [Prelude]: fixed-width integers, record updates, the option monad, list lemmas.
    - [Bytes]: little-endian memory, bit-fields of packed structures, byte order.
    - [Doubles]: the IEEE doubles of the ring buffer and of the reordering queue's depth.
    - [MediaDefinitions]: the data packet that queues carry (MediaDefinitions.h).

    Shared code (src/Src/Common, src/Include):
    - [ByteBuffer]: cByteBuffer, the ring buffer of the protocol, refines a bounded queue.
    - [StringUtils]: splitting, trimming, UTF-8 to UTF-16, Base64, URLs.

    Signalling (src/Src/Server/Protocol, ClientHandle.cpp, src/Src/Client):
    - [Cipher], [Framing], [Packetizer], [Messages], [Receiver]: the stream cipher, packets in
      a byte stream, composing and reading them, the packets of the protocol, one packet
      in pieces through a cipher.
    - [ClientHandle], [HandleFacts], [ServerSession]: the server's end, what holds whatever a
      client sends, what every well-formed packet does.
    - [Authenticator]: its queue and its verdicts.
    - [ConnectionClient], [ClientSession]: the client's end.
    - [Login]: both ends together over a connection that cuts the bytes anywhere.

    RTP and RTCP (src/Src/media/rtp):
    - [RtpHeaders]: every header class with its accessors, as bit-fields.
    - [RtpPacketQueue], [RtpVP8], [MediaPackager]: reordering, the VP8 payload descriptor
      and fragmenter, packaging of encoded frames (media/MediaProcessor.cpp).
    - [RtpExtensions]: the header extension processor.
    - [Rtcp], [RtcpForwarder], [RtcpAggregator]: the shared state of the RTCP processors,
      compound packets, and the two processors.
    - [Stats]: counters per source (Stats.cpp).

    Sessions (src/Src/media):
    - [Text], [SdpInfo], [SdpRoundtrip]: session descriptions, parsed and printed.
    - [NiceConnection]: the ICE connection over libnice.
    - [Asio]: the timer of boost.asio and its service, as an interface.
    - [Dtls], [DtlsTransport]: DTLS sockets, SRTP channels, the transport and its resenders.
    - [Connection], [ConnectionFacts], [SlideShow]: the WebRTC connection, its life cycle
      and the sequence numbers it sends.
    - [OneToMany]: one publisher and its subscribers (OneToManyProcessor.cpp).

    The server (src/Src/Server):
    - [Ordered]: std::map as a list in the order of its iteration.
    - [Peer], [Channel], [ChannelFacts]: members of channels, rooms and the channel manager
      (Channel/Peer.cpp, Room.cpp, Manager.cpp), and what the members know of each other.
    - [Conductor], [ConductorFacts]: the client's peer connections (src/Src/Client/conductor.cpp,
      PCObserver.cpp) and what the channel manager's notices make of them.
    - [HandleIdentity]: requests are made in the name of the handle that makes them.
    - [Server], [ServerFacts]: Server.cpp, with the client handles, the authenticator, the
      channels and the media put together; every thread is a kind of step.  [Hub]: what
      the server promises to the parts it joins, and that it keeps the promise.
    - [WorkerQueue]: the loop with a locked queue and an event that the authenticator, the
      channel manager and the worker threads run, access by access; the thread pool.
    - [Md5], [Sha1]: the message digests the server carries (md5.cpp, Sha1Checksum.cpp).
    - [Settings]: the interface of a settings repository with the laws its clients rely on,
      and the clients that read settings.  [IniFile], [IniFacts], [IniRoundtrip]:
      IniFile.cpp, that it keeps the laws, that a file written is read back.
      [MemorySettings], [OverridesSettings]: the other two repositories.  [Startup]: the
      settings of a server from start to start.
    - [TcpLinks], [TcpFacts]: links, listening servers and the network singleton over
      libevent (OSSupport), who owns whom, and what the callbacks of [Server] are told.
    - [NameLookups]: the lookups of names and addresses.
    - [Ssl]: the TLS contexts and the blocking TLS socket (PolarSSL++).

    ** How state and operations correspond

    A class is a [Record] with the names of its members, an operation a [Definition] with
    the name of the method that takes the object last and returns it with the result.
    Memory is [list Z], one number per byte, and pointers into it are offsets.  [None] is
    behaviour the C++ standard leaves undefined, an exception that escapes or, where said
    so, a loop that does not end.  What a constructor leaves uninitialised is an argument
    of the model.  The release build is modelled: ASSERT (Common.h) does nothing in it, while
    VERIFY ends the process.  Where a theorem covers inputs that fail an ASSERT, a debug
    build ends there: an overlong or short packet (cProtocol_impl.cpp:470), a second
    encryption response (AesCfb128Encryptor.cpp:35), a secret shorter than the key
    (RsaPrivateKey.cpp:117), an empty message to a peer (Peer.cpp:219), and the one of
    CreatePeerConnection (conductor.cpp:115), which [Conductor] records as an effect.
    [MemorySettings] gives [None] where one of its assertions fails.  Calls that leave a component come back as a list of effects, and the
    component above folds its own operations over them: libnice's calls and the listener's
    notifications of [NiceConnection] become [transport_effect]s of [DtlsTransport], these
    become [conn_effect]s of [Connection], these are relayed to a [OneToManyProcessor] or
    told to the listener of a [cPeer], whose [peer_out]s a room turns into [server_call]s,
    which [Server] delivers to its handles; the handles' [request]s go the other way.
    Objects that several others point to (connections, listeners) live in a store and are
    known by their addresses.

    Threads are modelled as the order of operations: every theorem about a sequence of
    operations holds for each interleaving at the granularity of the methods, which is
    that of the locks the code takes.  That a round of a thread with a queue is such an
    operation is the subject of [WorkerQueue], where the accesses of the worker, of the
    producers and of the one who stops it interleave freely.

    Libraries the code calls are arguments: [CryptoLib] and [CryptoLaws] of [Dtls] stand
    for OpenSSL and libsrtp, [Asio] with [AsioLaws] for boost.asio, [JsonCpp] of [Peer] and
    [ClientJson] of [Conductor] for JsonCpp, [SdpParsers] of [Conductor] for the parsers of
    libwebrtc, [PolarSSL], [BlockCipher] and [RsaKeyPair] of [Cipher] and [Login] and the context of [Sha1] for PolarSSL,
    [PolarSslTls] of [Ssl] for its TLS functions, [LibEvent] with [LibEventLaws] of [TcpLinks]
    for libevent and the sockets, [UnorderedMultimap] of [MemorySettings] for the order of equal keys in the standard
    container, the parsed command line of [Startup] for TCLAP, the text of a double for printf, the answers of libnice and the packets the vendored FEC
    receiver recovers are arguments of the operations that use them, and so are clocks and
    random numbers.  [Sample] instantiates the laws.  Text files are the list of their
    bytes: the end-of-file character that text mode knows on Windows is not modelled.

    ** Theorems

    - The server: [server_refines_hub], [gone_client_leaves], [calls_delivered],
      [tick_speaks_for_itself], [ids_never_shared]; [roster], [offline_leaves],
      [offline_ghost] for the channel manager; [connections_to_members] for the clients it
      tells, [announced_twice], [null_connection_used]; [queue_served], [stopped_soon] for the threads.
    - Settings: [restart_keeps_settings], [server_settings], [ini_roundtrip], [port_choice],
      and the laws of the three repositories.
    - The network: [link_life], [shutdown_after_data], [hostname_lookup_concludes],
      [ssl_buffers_are_pipes], [tls_bytes_in_order], [send_restarts].
    - Digests: [md5_streaming], [md5_resumes], [digest_to_java].
    - Forwarding: [audio_reaches_subscribers], [feedback_reaches_publisher], [closeAll_destroys].
    - Signalling: [login_completes], [message_reaches_server], [message_reaches_client],
      [packets_received], [cipher_roundtrip], [tick_survives], [disconnect_is_last],
      [silent_client], [packet_fits_or_exits].
    - Life cycle: [connection_becomes_ready], [failure_final], [nice_states_told],
      [handshake_mirrored], [resend_schedule], [nice_closed_twice].
    - Media path: [packet_delivered], [slide_show_exit_continues],
      [slide_show_entry_repeats], [feedback_shifted], [extensions_stamped],
      [queue_reorders], [queue_in_order], [video_frame_roundtrip], [parse_vp8_safe].
    - Feedback: [forward_compound], [report_sent], [nack_passed_on], [sender_reports],
      [rtcp_accounting], and the laws of the header accessors.
    - Descriptions: [sdp_roundtrip], [parsed_sdp_ok], [payload_types_translate].
    - Buffers and text: [byte_buffer_refines] and its companions, Base64, UTF-16, splitting.

    ** Bounds and fuel

    Loops whose measure is not structural take fuel.  Received bytes: one round more than
    there are bytes ([packet_loop]); chunks: the length of the data ([chunk_loop]).  Compound packets: the length in
    bytes, since each round advances by four at least ([compound_fuel]).  Loops that count
    with a [uint8_t] ([u8_loop]): 256 rounds, after which the counter repeats, so running
    out of them is divergence.  String searches: the length of the text.  The recursion of
    recovered FEC packets: a depth given by the caller, [None] when it is exceeded.

    ** Not modelled

    ffmpeg and the mixers around it (ExternalInput, ExternalOutput, codecs, mixers,
    OneToManyTranscoder); the vendored FEC code (rtp/webrtc) and DES code (dtls/bf_dwrap.c);
    logging, stack walking and leak finding; plain and datagram sockets, files and the
    creation of threads (OSSupport) and the remaining PolarSSL wrappers, which only call the
    system and the library; cQueue, a template that nothing instantiates; StringCompression, one call of zlib each; FastRandom, whose numbers come from the
    clock and an engine of the standard library; LinearUpscale, a template of floats that
    nothing instantiates; the console and the process around the server; the desktop client's
    windows, capturers and renderers; src/ThirdParty. *)

From stdpp Require Export prelude gmap strings.
From Stdlib Require Export ZArith Lia.
From Stdlib Require Import Sorting.Sorted.
#[global] Open Scope Z_scope.

(** ** Fixed-width integers *)

(** [wrap w x] is the value a [w]-bit unsigned object holds after [x] is stored in it. *)
Definition wrap (w x : Z) : Z := x mod 2 ^ w.
Abbreviation u8 := (wrap 8).
Abbreviation u16 := (wrap 16).
Abbreviation u32 := (wrap 32).
Abbreviation u64 := (wrap 64).

(** The two's complement reading of a [w]-bit pattern. *)
Definition to_signed (w x : Z) : Z :=
  let y := wrap w x in if y <? 2 ^ (w - 1) then y else y - 2 ^ w.

(** [in_width w x]: the value fits an unsigned [w]-bit object. *)
Definition in_width (w x : Z) : Prop := 0 <= x < 2 ^ w.

Lemma wrap_bound w x : 0 <= w -> in_width w (wrap w x).
Proof. intros. unfold in_width, wrap. apply Z.mod_pos_bound. lia. Qed.

Lemma wrap_small w x : in_width w x -> wrap w x = x.
Proof. intros. apply Z.mod_small. assumption. Qed.

Lemma wrap_wrap w x : 0 <= w -> wrap w (wrap w x) = wrap w x.
Proof. intros. apply wrap_small, wrap_bound. assumption. Qed.

Lemma to_signed_small w x : 0 < w -> 0 <= x < 2 ^ (w - 1) -> to_signed w x = x.
Proof.
  intros Hw Hx.
  assert (E : 2 ^ w = 2 * 2 ^ (w - 1)) by (rewrite <- Z.pow_succ_r by lia; f_equal; lia).
  unfold to_signed. cbv zeta. rewrite wrap_small by (unfold in_width; lia).
  case (Z.ltb_spec x (2 ^ (w - 1))); lia.
Qed.

(** Reading back a negative [w]-bit integer from its unsigned pattern. *)
Lemma to_signed_wrap w x :
  0 < w -> - 2 ^ (w - 1) <= x < 2 ^ (w - 1) -> to_signed w (wrap w x) = x.
Proof.
  intros Hw Hx.
  assert (E : 2 ^ w = 2 * 2 ^ (w - 1)) by (rewrite <- Z.pow_succ_r by lia; f_equal; lia).
  unfold to_signed. cbv zeta. rewrite wrap_wrap by lia.
  destruct (Z.leb_spec 0 x).
  - rewrite wrap_small by (unfold in_width; lia).
    case (Z.ltb_spec x (2 ^ (w - 1))); lia.
  - assert (Ew : wrap w x = x + 2 ^ w).
    { unfold wrap. symmetry. apply Z.mod_unique with (-1); lia. }
    rewrite Ew. case (Z.ltb_spec (x + 2 ^ w) (2 ^ (w - 1))); lia.
Qed.

Lemma to_signed_range w x : 0 < w -> - 2 ^ (w - 1) <= to_signed w x < 2 ^ (w - 1).
Proof.
  intros Hw. assert (E : 2 ^ w = 2 * 2 ^ (w - 1)) by (rewrite <- Z.pow_succ_r by lia; f_equal; lia).
  pose proof (wrap_bound w x ltac:(lia)) as [H1 H2]. unfold to_signed. cbv zeta.
  destruct (Z.ltb_spec (wrap w x) (2 ^ (w - 1))); lia.
Qed.

Lemma to_signed_mod w x : 0 <= w -> to_signed w x mod 2 ^ w = x mod 2 ^ w.
Proof.
  intros Hw. unfold to_signed, wrap. cbv zeta.
  assert (Hp : 0 < 2 ^ w) by (apply Z.pow_pos_nonneg; lia).
  destruct (_ <? _).
  - apply Z.mod_mod. lia.
  - rewrite <- (Z.mod_add _ 1) by lia. rewrite Z.mul_1_l, Z.sub_add. apply Z.mod_mod. lia.
Qed.

(** ** Bit tests *)

Lemma testbit_above w x i : in_width w x -> 0 <= w <= i -> Z.testbit x i = false.
Proof.
  intros Hx Hi. rewrite <- (wrap_small w x Hx). apply Z.mod_pow2_bits_high. lia.
Qed.

Lemma in_width_bits w x :
  0 <= w -> (forall i, w <= i -> Z.testbit x i = false) -> in_width w x.
Proof.
  intros Hw Hb.
  assert (E : x = wrap w x); [| rewrite E; apply wrap_bound; assumption].
  apply Z.bits_inj'. intros i Hi. unfold wrap.
  destruct (Z.ltb_spec i w).
  - symmetry. apply Z.mod_pow2_bits_low. assumption.
  - rewrite Hb, Z.mod_pow2_bits_high by lia. reflexivity.
Qed.

Lemma testbit_wrap w x i :
  0 <= w -> 0 <= i -> Z.testbit (wrap w x) i = (i <? w) && Z.testbit x i.
Proof.
  intros Hw Hi. unfold wrap. case (Z.ltb_spec i w); intros.
  - rewrite Z.mod_pow2_bits_low by assumption. reflexivity.
  - rewrite Z.mod_pow2_bits_high by lia. reflexivity.
Qed.

Lemma testbit_ones w i : 0 <= w -> 0 <= i -> Z.testbit (Z.ones w) i = (i <? w).
Proof.
  intros Hw Hi. case (Z.ltb_spec i w); intros.
  - apply Z.ones_spec_low. lia.
  - apply Z.ones_spec_high. lia.
Qed.

(** ** Lists and strings *)

Lemma StronglySorted_app_l {A} (R : A -> A -> Prop) l k : StronglySorted R (l ++ k) -> StronglySorted R l.
Proof.
  induction l as [|x l IH]; intros H; [constructor|]. simpl in H.
  apply StronglySorted_inv in H as [H Hx]. apply Forall_app in Hx as [Hx _].
  constructor; auto.
Qed.

Lemma string_app_assoc (a b c : string) : (a +:+ b) +:+ c = a +:+ (b +:+ c).
Proof. induction a as [|x a IH]; [reflexivity|]. exact (f_equal (String x) IH). Qed.

Lemma string_app_nil (a : string) : a +:+ EmptyString = a.
Proof. induction a as [|x a IH]; [reflexivity|]. exact (f_equal (String x) IH). Qed.

(** ** Tactics *)

(** Opens a chain of option binds in a hypothesis, naming nothing. *)
Ltac bind_inv H :=
  repeat (first
    [ apply bind_Some in H as (? & ? & H)
    | apply fmap_Some in H as (? & ? & H) ]); simplify_eq/=.

(** Splits the boolean comparisons of the goal. *)
Ltac split_ltb :=
  repeat match goal with
  | |- context [Z.ltb ?a ?b] => destruct (Z.ltb_spec a b)
  | |- context [Z.leb ?a ?b] => destruct (Z.leb_spec a b)
  | |- context [Z.eqb ?a ?b] => destruct (Z.eqb_spec a b)
  end.

(** ** Assignments to the members of a record

    [r <| member := v |>] is the record after [r.member = v].  A record type takes part
    by an instance of [Eta], its identity spelled out; the setters are derived from it. *)
Class Eta (R : Type) := eta : R -> R.
Class Setter {R E : Type} (member : R -> E) := set_member : (E -> E) -> R -> R.
Arguments set_member {R E} member {_} f r.

Ltac derive_setter :=
  lazymatch goal with
  | |- @Setter ?R ?E ?member =>
    let i := constr:(@eta R _) in
    let e := eval hnf in i in
    lazymatch eval pattern member in e with
    | ?F member =>
      let s := eval cbv beta in (fun (f : E -> E) (r : R) => F (fun r => f (member r)) r) in
      exact s
    end
  end.
#[export] Hint Extern 1 (Setter _) => derive_setter : typeclass_instances.

Notation "r <| member := v |>" := (set_member member (fun _ => v) r)
  (at level 1, left associativity).
Notation "r <| member ::= f |>" := (set_member member f r)
  (at level 1, left associativity).

Create HintDb licode discriminated.
#[export] Hint Resolve wrap_bound : licode.
