(* ===== verification/Bytes.v ===== *)
(** * Bytes: memory as lists of bytes

    Network packets and ring buffers are C character arrays.  This file holds the
    little-endian representation of machine words, the byte swaps behind
    [htons]/[ntohs]/[htonl]/[ntohl] on the little-endian targets of the project,
    bounds-checked loads and stores ([None] is an access outside the array, which
    C++ leaves undefined), and the bit-fields of 32-bit units that the packet
    header classes overlay on buffers. *)

From S2P Require Import Prelude.

Definition byte_ok (b : Z) : Prop := 0 <= b < 256.
Abbreviation bytes_ok := (Forall byte_ok).

#[export] Instance byte_ok_dec b : Decision (byte_ok b).
Proof. unfold byte_ok. apply _. Defined.

(** ** Little-endian words *)

Fixpoint le_val (bs : list Z) : Z :=
  match bs with
  | [] => 0
  | b :: bs => b + 256 * le_val bs
  end.

Fixpoint le_bytes (n : nat) (x : Z) : list Z :=
  match n with
  | O => []
  | S n => x mod 256 :: le_bytes n (x / 256)
  end.

Lemma length_le_bytes n x : length (le_bytes n x) = n.
Proof. revert x. induction n; intros; simpl; auto. Qed.

Lemma le_bytes_ok n x : bytes_ok (le_bytes n x).
Proof.
  revert x. induction n as [|n IH]; intros x; simpl; constructor; auto.
  unfold byte_ok. apply Z.mod_pos_bound. lia.
Qed.

Lemma pow256_S n : 256 ^ Z.of_nat (S n) = 256 * 256 ^ Z.of_nat n.
Proof. rewrite Nat2Z.inj_succ, Z.pow_succ_r by lia. reflexivity. Qed.

Lemma pow256_pos n : 0 < 256 ^ Z.of_nat n.
Proof. apply Z.pow_pos_nonneg; lia. Qed.

Lemma le_val_bound bs : bytes_ok bs -> 0 <= le_val bs < 256 ^ Z.of_nat (length bs).
Proof.
  induction 1 as [|b bs Hb _ IH]; simpl length; [simpl; lia|].
  rewrite pow256_S. cbn [le_val]. unfold byte_ok in Hb. lia.
Qed.

Lemma le_val_le_bytes n x : le_val (le_bytes n x) = x mod 256 ^ Z.of_nat n.
Proof.
  revert x. induction n as [|n IH]; intros x.
  - simpl. rewrite Z.mod_1_r. reflexivity.
  - cbn [le_bytes le_val]. rewrite IH, pow256_S.
    pose proof (pow256_pos n). rewrite Z.rem_mul_r by lia. lia.
Qed.

Lemma le_bytes_le_val bs : bytes_ok bs -> le_bytes (length bs) (le_val bs) = bs.
Proof.
  induction 1 as [|b bs Hb _ IH]; [reflexivity|].
  cbn [length le_bytes le_val]. unfold byte_ok in Hb.
  replace ((b + 256 * le_val bs) mod 256) with b by (apply Z.mod_unique with (le_val bs); lia).
  replace ((b + 256 * le_val bs) / 256) with (le_val bs) by (apply Z.div_unique with b; lia).
  rewrite IH. reflexivity.
Qed.

Lemma le_val_app a b : le_val (a ++ b) = le_val a + 256 ^ Z.of_nat (length a) * le_val b.
Proof.
  induction a as [|x a IH]; [simpl; lia|].
  simpl length. rewrite pow256_S. cbn [le_val app]. rewrite IH. lia.
Qed.

(** ** Byte order *)

(** [bswap n] reverses the [n] bytes of a word: [ntohs]/[htons] are [bswap 2] and
    [ntohl]/[htonl] are [bswap 4] on a little-endian machine. *)
Definition bswap (n : nat) (x : Z) : Z := le_val (rev (le_bytes n x)).
Abbreviation htons := (bswap 2).
Abbreviation ntohs := (bswap 2).
Abbreviation htonl := (bswap 4).
Abbreviation ntohl := (bswap 4).

Lemma bytes_ok_rev bs : bytes_ok bs -> bytes_ok (rev bs).
Proof. apply List.Forall_rev. Qed.

Lemma bswap_bound n x : 0 <= bswap n x < 256 ^ Z.of_nat n.
Proof.
  unfold bswap.
  pose proof (le_val_bound _ (bytes_ok_rev _ (le_bytes_ok n x))) as H.
  rewrite length_rev, length_le_bytes in H. exact H.
Qed.

Lemma le_bytes_bswap n x : le_bytes n (bswap n x) = rev (le_bytes n x).
Proof.
  unfold bswap.
  rewrite <- (length_le_bytes n x) at 1. rewrite <- length_rev.
  apply le_bytes_le_val, bytes_ok_rev, le_bytes_ok.
Qed.

Lemma bswap_bswap n x : bswap n (bswap n x) = x mod 256 ^ Z.of_nat n.
Proof.
  unfold bswap at 1. rewrite le_bytes_bswap, rev_involutive. apply le_val_le_bytes.
Qed.

Lemma bswap_involutive n x : 0 <= x < 256 ^ Z.of_nat n -> bswap n (bswap n x) = x.
Proof. intros. rewrite bswap_bswap. apply Z.mod_small. assumption. Qed.

Lemma ntohs_htons x : in_width 16 x -> ntohs (htons x) = x.
Proof. apply (bswap_involutive 2). Qed.

Lemma ntohl_htonl x : in_width 32 x -> ntohl (htonl x) = x.
Proof. apply (bswap_involutive 4). Qed.

Lemma htons_width x : in_width 16 (htons x).
Proof. apply (bswap_bound 2). Qed.

Lemma htonl_width x : in_width 32 (htonl x).
Proof. apply (bswap_bound 4). Qed.

#[export] Hint Resolve htons_width htonl_width : licode.

Lemma le_bytes_mod n x : le_bytes n (x mod 256 ^ Z.of_nat n) = le_bytes n x.
Proof.
  rewrite <- le_val_le_bytes. rewrite <- (length_le_bytes n x) at 1.
  apply le_bytes_le_val, le_bytes_ok.
Qed.

Lemma bswap_mod n x y :
  x mod 256 ^ Z.of_nat n = y mod 256 ^ Z.of_nat n -> bswap n x = bswap n y.
Proof.
  intros H. unfold bswap. rewrite <- (le_bytes_mod n x), <- (le_bytes_mod n y), H. reflexivity.
Qed.

Lemma le_bytes_snoc n x : le_bytes (S n) x = le_bytes n x ++ [x / 256 ^ Z.of_nat n mod 256].
Proof.
  revert x. induction n as [|n IH]; intros x.
  - simpl. rewrite Z.div_1_r. reflexivity.
  - change (le_bytes (S (S n)) x) with (x mod 256 :: le_bytes (S n) (x / 256)).
    rewrite IH. cbn [le_bytes app]. rewrite Z.div_div by (pose proof (pow256_pos n); lia).
    rewrite <- pow256_S. reflexivity.
Qed.

(** [ntohl(x) >> 8] is the byte swap of the low three bytes of [x]: how the header
    classes read and write a 24-bit big-endian quantity. *)
Lemma shiftr_bswap n x : Z.shiftr (bswap (S n) x) 8 = bswap n x.
Proof.
  unfold bswap. rewrite le_bytes_snoc, rev_app_distr. cbn [rev app le_val].
  rewrite Z.shiftr_div_pow2 by lia. change (2 ^ 8) with 256.
  symmetry. apply Z.div_unique with (x / 256 ^ Z.of_nat n mod 256);
    [left; apply Z.mod_pos_bound |]; lia.
Qed.

Lemma swap24_width x : in_width 24 (Z.shiftr (htonl x) 8).
Proof. rewrite shiftr_bswap. apply (bswap_bound 3). Qed.

Lemma swap24 x : in_width 24 x -> Z.shiftr (htonl (Z.shiftr (htonl x) 8)) 8 = x.
Proof. rewrite !shiftr_bswap. apply (bswap_involutive 3). Qed.

(** ** Bounds-checked memory *)

(** The [n] bytes at [off]; [None] when they are not all inside the buffer. *)
Definition read_at (n : nat) (buf : list Z) (off : Z) : option (list Z) :=
  if (0 <=? off) && (off + Z.of_nat n <=? Z.of_nat (length buf))
  then Some (take n (drop (Z.to_nat off) buf)) else None.

(** [memcpy (buf + off, src, length src)]. *)
Definition write_at (buf : list Z) (off : Z) (src : list Z) : option (list Z) :=
  if (0 <=? off) && (off + Z.of_nat (length src) <=? Z.of_nat (length buf))
  then Some (take (Z.to_nat off) buf ++ src ++ drop (Z.to_nat off + length src) buf)
  else None.

Definition load (n : nat) (buf : list Z) (off : Z) : option Z :=
  le_val <$> read_at n buf off.

Definition store (n : nat) (buf : list Z) (off v : Z) : option (list Z) :=
  write_at buf off (le_bytes n v).

(** The access is inside the buffer. *)
Definition in_bounds (n : nat) (buf : list Z) (off : Z) : Prop :=
  0 <= off /\ off + Z.of_nat n <= Z.of_nat (length buf).

Lemma read_at_Some n buf off :
  in_bounds n buf off -> read_at n buf off = Some (take n (drop (Z.to_nat off) buf)).
Proof.
  intros [H1 H2]. unfold read_at.
  destruct (Z.leb_spec 0 off), (Z.leb_spec (off + Z.of_nat n) (Z.of_nat (length buf)));
    try lia. reflexivity.
Qed.

Lemma read_at_inv n buf off bs : read_at n buf off = Some bs -> in_bounds n buf off.
Proof.
  unfold read_at, in_bounds.
  destruct (Z.leb_spec 0 off), (Z.leb_spec (off + Z.of_nat n) (Z.of_nat (length buf)));
    simpl; intros; simplify_eq; lia.
Qed.

Lemma read_at_length n buf off bs : read_at n buf off = Some bs -> length bs = n.
Proof.
  intros H. pose proof (read_at_inv _ _ _ _ H) as Hb. rewrite (read_at_Some _ _ _ Hb) in H.
  simplify_eq. rewrite length_take, length_drop. destruct Hb. lia.
Qed.

Lemma read_at_lookup n buf off bs i :
  read_at n buf off = Some bs -> (i < n)%nat -> bs !! i = buf !! (Z.to_nat off + i)%nat.
Proof.
  intros H Hi. rewrite (read_at_Some _ _ _ (read_at_inv _ _ _ _ H)) in H. simplify_eq.
  rewrite lookup_take_lt, lookup_drop by assumption. reflexivity.
Qed.

Lemma read_at_ok n buf off bs : bytes_ok buf -> read_at n buf off = Some bs -> bytes_ok bs.
Proof.
  intros Hok H. rewrite (read_at_Some _ _ _ (read_at_inv _ _ _ _ H)) in H. simplify_eq.
  apply Forall_take, Forall_drop. assumption.
Qed.

Lemma load_inv n buf off v : load n buf off = Some v -> in_bounds n buf off.
Proof.
  unfold load. intros H. apply fmap_Some in H as (bs & H & _).
  eauto using read_at_inv.
Qed.

Lemma load_is_Some n buf off : in_bounds n buf off -> is_Some (load n buf off).
Proof. intros H. unfold load. rewrite (read_at_Some _ _ _ H). simpl. eauto. Qed.

Lemma load_bound n buf off v :
  bytes_ok buf -> load n buf off = Some v -> 0 <= v < 256 ^ Z.of_nat n.
Proof.
  unfold load. intros Hok H. apply fmap_Some in H as (bs & H & ->).
  rewrite <- (read_at_length _ _ _ _ H). eauto using le_val_bound, read_at_ok.
Qed.

Lemma write_at_Some buf off src :
  in_bounds (length src) buf off ->
  write_at buf off src =
    Some (take (Z.to_nat off) buf ++ src ++ drop (Z.to_nat off + length src) buf).
Proof.
  intros [H1 H2]. unfold write_at.
  destruct (Z.leb_spec 0 off),
    (Z.leb_spec (off + Z.of_nat (length src)) (Z.of_nat (length buf))); try lia.
  reflexivity.
Qed.

Lemma write_at_inv buf off src buf' :
  write_at buf off src = Some buf' -> in_bounds (length src) buf off.
Proof.
  unfold write_at, in_bounds.
  destruct (Z.leb_spec 0 off),
    (Z.leb_spec (off + Z.of_nat (length src)) (Z.of_nat (length buf)));
    simpl; intros; simplify_eq; lia.
Qed.

Lemma write_at_length buf off src buf' :
  write_at buf off src = Some buf' -> length buf' = length buf.
Proof.
  intros H. pose proof (write_at_inv _ _ _ _ H) as Hb. rewrite (write_at_Some _ _ _ Hb) in H.
  destruct Hb. simplify_eq. rewrite !length_app, length_take, length_drop. lia.
Qed.

Lemma write_at_ok buf off src buf' :
  bytes_ok buf -> bytes_ok src -> write_at buf off src = Some buf' -> bytes_ok buf'.
Proof.
  intros Hok Hs H. rewrite (write_at_Some _ _ _ (write_at_inv _ _ _ _ H)) in H. simplify_eq.
  rewrite !Forall_app. auto using Forall_take, Forall_drop.
Qed.

(** What a byte is after a copy into the buffer. *)
Lemma write_at_lookup buf off src buf' i :
  write_at buf off src = Some buf' ->
  buf' !! i = if decide (Z.to_nat off <= i < Z.to_nat off + length src)%nat
              then src !! (i - Z.to_nat off)%nat else buf !! i.
Proof.
  intros H. pose proof (write_at_inv _ _ _ _ H) as [Hb1 Hb2].
  rewrite (write_at_Some _ _ _ (conj Hb1 Hb2)) in H. simplify_eq.
  assert (Hlen : length (take (Z.to_nat off) buf) = Z.to_nat off)
    by (rewrite length_take; lia).
  case_decide as Hd.
  - rewrite lookup_app_r, lookup_app_l by lia. rewrite Hlen. reflexivity.
  - destruct (decide (i < Z.to_nat off)%nat).
    + rewrite lookup_app_l, lookup_take_lt by lia. reflexivity.
    + rewrite !lookup_app_r by lia. rewrite Hlen, lookup_drop. f_equal. lia.
Qed.

Lemma read_write_same buf off src buf' :
  write_at buf off src = Some buf' -> read_at (length src) buf' off = Some src.
Proof.
  intros H. pose proof (write_at_inv _ _ _ _ H) as [Hb1 Hb2].
  rewrite read_at_Some by (split; [|rewrite (write_at_length _ _ _ _ H)]; assumption).
  f_equal. apply list_eq. intros i. destruct (decide (i < length src)%nat).
  - rewrite lookup_take_lt, lookup_drop, (write_at_lookup _ _ _ _ _ H) by assumption.
    case_decide; [f_equal; lia | lia].
  - rewrite lookup_take_ge, (lookup_ge_None_2 src) by lia. reflexivity.
Qed.

(** A read that does not meet the copied range is unchanged. *)
Lemma read_write_disjoint buf off src buf' n o :
  write_at buf off src = Some buf' ->
  o + Z.of_nat n <= off \/ off + Z.of_nat (length src) <= o ->
  read_at n buf' o = read_at n buf o.
Proof.
  intros H Hd. unfold read_at. rewrite (write_at_length _ _ _ _ H).
  destruct (Z.leb_spec 0 o), (Z.leb_spec (o + Z.of_nat n) (Z.of_nat (length buf)));
    try reflexivity. simpl. f_equal. apply list_eq. intros i.
  destruct (decide (i < n)%nat).
  - rewrite !lookup_take_lt, !lookup_drop, (write_at_lookup _ _ _ _ _ H) by assumption.
    pose proof (write_at_inv _ _ _ _ H) as [? _]. case_decide; [lia | reflexivity].
  - rewrite !lookup_take_ge by lia. reflexivity.
Qed.

Lemma store_is_Some n buf off v : in_bounds n buf off -> is_Some (store n buf off v).
Proof.
  intros H. unfold store. rewrite write_at_Some by (rewrite length_le_bytes; exact H). eauto.
Qed.

Lemma store_inv n buf off v buf' : store n buf off v = Some buf' -> in_bounds n buf off.
Proof. intros H. apply write_at_inv in H. rewrite length_le_bytes in H. exact H. Qed.

Lemma store_length n buf off v buf' :
  store n buf off v = Some buf' -> length buf' = length buf.
Proof. apply write_at_length. Qed.

Lemma store_ok n buf off v buf' :
  bytes_ok buf -> store n buf off v = Some buf' -> bytes_ok buf'.
Proof. intros Hok. apply write_at_ok; [assumption | apply le_bytes_ok]. Qed.

Lemma load_store_same n buf off v buf' :
  store n buf off v = Some buf' -> load n buf' off = Some (v mod 256 ^ Z.of_nat n).
Proof.
  unfold store, load. intros H. apply read_write_same in H.
  rewrite length_le_bytes in H. rewrite H. simpl. rewrite le_val_le_bytes. reflexivity.
Qed.

Lemma load_store_disjoint n buf off v buf' m o :
  store n buf off v = Some buf' ->
  o + Z.of_nat m <= off \/ off + Z.of_nat n <= o ->
  load m buf' o = load m buf o.
Proof.
  unfold store, load. intros H Hd. f_equal.
  apply (read_write_disjoint _ _ _ _ _ _ H). rewrite length_le_bytes. assumption.
Qed.

(** ** Bit-fields of a 32-bit unit *)

(** A C bit-field [uint32_t name : bf_width] stored [bf_shift] bits up the 32-bit
    unit at byte offset [bf_off] of its class. *)
Record bitfield := BF { bf_off : Z; bf_shift : Z; bf_width : Z }.

Definition bf_ok (f : bitfield) : Prop :=
  0 <= bf_off f /\ 0 <= bf_shift f /\ 0 < bf_width f /\ bf_shift f + bf_width f <= 32.

#[export] Instance bf_ok_dec f : Decision (bf_ok f).
Proof. unfold bf_ok. apply _. Defined.

Definition extract (s wd w : Z) : Z := Z.land (Z.shiftr w s) (Z.ones wd).

Definition insert_bits (s wd v w : Z) : Z :=
  Z.lor (Z.ldiff w (Z.shiftl (Z.ones wd) s)) (Z.shiftl (Z.land v (Z.ones wd)) s).

(** The field of the object at [base]. *)
Definition get_bf (f : bitfield) (buf : list Z) (base : Z) : option Z :=
  w ← load 4 buf (base + bf_off f);
  Some (extract (bf_shift f) (bf_width f) w).

(** Storing into a bit-field reads the unit, replaces the field's bits and writes it back. *)
Definition set_bf (f : bitfield) (v : Z) (buf : list Z) (base : Z) : option (list Z) :=
  w ← load 4 buf (base + bf_off f);
  store 4 buf (base + bf_off f) (insert_bits (bf_shift f) (bf_width f) v w).

(** Two fields of a class that share no bit: they sit in units that do not overlap,
    or in the same unit at ranges that do not. *)
Definition bf_disjoint (f g : bitfield) : Prop :=
  bf_off f + 4 <= bf_off g \/ bf_off g + 4 <= bf_off f \/
  (bf_off f = bf_off g /\
   (bf_shift f + bf_width f <= bf_shift g \/ bf_shift g + bf_width g <= bf_shift f)).

#[export] Instance bf_disjoint_dec f g : Decision (bf_disjoint f g).
Proof. unfold bf_disjoint. apply _. Defined.

Lemma testbit_extract s wd w i :
  0 <= s -> 0 <= wd -> 0 <= i ->
  Z.testbit (extract s wd w) i = (i <? wd) && Z.testbit w (i + s).
Proof.
  intros. unfold extract. rewrite Z.land_spec, testbit_ones, Z.shiftr_spec by lia.
  apply andb_comm.
Qed.

Lemma testbit_insert s wd v w i :
  0 <= s -> 0 <= wd -> 0 <= i ->
  Z.testbit (insert_bits s wd v w) i =
    if (s <=? i) && (i <? s + wd) then Z.testbit v (i - s) else Z.testbit w i.
Proof.
  intros Hs Hwd Hi. unfold insert_bits.
  rewrite Z.lor_spec, Z.ldiff_spec, !Z.shiftl_spec by lia.
  destruct (Z.leb_spec s i).
  - rewrite Z.land_spec, testbit_ones by lia.
    destruct (Z.ltb_spec (i - s) wd), (Z.ltb_spec i (s + wd)); try lia; simpl;
      rewrite ?andb_false_r, ?andb_true_r, ?orb_false_r; reflexivity.
  - rewrite !(Z.testbit_neg_r _ (i - s)) by lia. simpl. rewrite andb_true_r, orb_false_r. reflexivity.
Qed.

Lemma extract_width s wd w : 0 <= s -> 0 <= wd -> in_width wd (extract s wd w).
Proof.
  intros. apply in_width_bits; [assumption|]. intros i Hi.
  rewrite testbit_extract by lia. destruct (Z.ltb_spec i wd); [lia | reflexivity].
Qed.

Lemma insert_width s wd v w :
  0 <= s -> 0 <= wd -> s + wd <= 32 -> in_width 32 w -> in_width 32 (insert_bits s wd v w).
Proof.
  intros Hs Hwd Hle Hw. apply in_width_bits; [lia|]. intros i Hi.
  rewrite testbit_insert by lia. destruct (Z.ltb_spec i (s + wd)); [lia|].
  rewrite andb_false_r. apply (testbit_above 32); [assumption | lia].
Qed.

Lemma extract_insert_same s wd v w :
  0 <= s -> 0 <= wd -> extract s wd (insert_bits s wd v w) = wrap wd v.
Proof.
  intros Hs Hwd. apply Z.bits_inj'. intros i Hi.
  rewrite testbit_extract, testbit_wrap by lia.
  destruct (Z.ltb_spec i wd); [simpl | reflexivity].
  rewrite testbit_insert by lia.
  destruct (Z.leb_spec s (i + s)), (Z.ltb_spec (i + s) (s + wd)); try lia.
  simpl. f_equal. lia.
Qed.

Lemma extract_insert_other s wd s' wd' v w :
  0 <= s -> 0 <= wd -> 0 <= s' -> 0 <= wd' ->
  s + wd <= s' \/ s' + wd' <= s ->
  extract s' wd' (insert_bits s wd v w) = extract s' wd' w.
Proof.
  intros Hs Hwd Hs' Hwd' Hd. apply Z.bits_inj'. intros i Hi.
  rewrite !testbit_extract by lia.
  destruct (Z.ltb_spec i wd'); [simpl | reflexivity].
  rewrite testbit_insert by lia.
  destruct (Z.leb_spec s (i + s')), (Z.ltb_spec (i + s') (s + wd)); try lia; reflexivity.
Qed.

(** ** The laws of field access *)

Lemma get_bf_is_Some f buf base :
  in_bounds 4 buf (base + bf_off f) -> is_Some (get_bf f buf base).
Proof.
  intros H. destruct (load_is_Some _ _ _ H) as [w Hw]. unfold get_bf. rewrite Hw. simpl. eauto.
Qed.

Lemma get_bf_inv f buf base v : get_bf f buf base = Some v -> in_bounds 4 buf (base + bf_off f).
Proof. unfold get_bf. intros H. apply bind_Some in H as (w & Hw & _). eauto using load_inv. Qed.

Lemma get_bf_width f buf base v :
  bf_ok f -> get_bf f buf base = Some v -> in_width (bf_width f) v.
Proof.
  intros (Ho1 & Hs1 & Hw1 & Hl1). unfold get_bf. intros H. apply bind_Some in H as (w & _ & H).
  simplify_eq. apply extract_width; lia.
Qed.

Lemma set_bf_is_Some f v buf base :
  in_bounds 4 buf (base + bf_off f) -> is_Some (set_bf f v buf base).
Proof.
  intros H. destruct (load_is_Some _ _ _ H) as [w Hw]. unfold set_bf. rewrite Hw. simpl.
  apply store_is_Some. assumption.
Qed.

Lemma set_bf_inv f v buf base buf' :
  set_bf f v buf base = Some buf' -> in_bounds 4 buf (base + bf_off f).
Proof. unfold set_bf. intros H. apply bind_Some in H as (w & Hw & _). eauto using load_inv. Qed.

Lemma set_bf_length f v buf base buf' :
  set_bf f v buf base = Some buf' -> length buf' = length buf.
Proof. unfold set_bf. intros H. apply bind_Some in H as (w & _ & H). eauto using store_length. Qed.

Lemma set_bf_ok f v buf base buf' :
  bytes_ok buf -> set_bf f v buf base = Some buf' -> bytes_ok buf'.
Proof. unfold set_bf. intros Hok H. apply bind_Some in H as (w & _ & H). eauto using store_ok. Qed.

Lemma get_set_same f v buf base buf' :
  bf_ok f -> bytes_ok buf -> set_bf f v buf base = Some buf' ->
  get_bf f buf' base = Some (wrap (bf_width f) v).
Proof.
  intros (Ho1 & Hs1 & Hw1 & Hl1) Hok H. unfold set_bf in H. apply bind_Some in H as (w & Hw & H).
  unfold get_bf. rewrite (load_store_same _ _ _ _ _ H). simpl.
  rewrite Z.mod_small; [rewrite extract_insert_same by lia; reflexivity|].
  apply (insert_width _ _ _ w); try lia. exact (load_bound _ _ _ _ Hok Hw).
Qed.

Lemma get_set_other f g v buf base buf' :
  bf_ok f -> bf_ok g -> bytes_ok buf -> bf_disjoint f g ->
  set_bf f v buf base = Some buf' ->
  get_bf g buf' base = get_bf g buf base.
Proof.
  intros (Ho1 & Hs1 & Hw1 & Hl1) (Ho2 & Hs2 & Hw2 & Hl2) Hok Hd H.
  unfold set_bf in H. apply bind_Some in H as (w & Hw & H). unfold get_bf.
  destruct Hd as [Hd | [Hd | [Ho Hd]]];
    [rewrite (load_store_disjoint _ _ _ _ _ 4 (base + bf_off g) H) by lia; reflexivity ..|].
  rewrite <- Ho, (load_store_same _ _ _ _ _ H), Hw. simpl.
  rewrite Z.mod_small; [rewrite extract_insert_other by lia; reflexivity|].
  apply (insert_width _ _ _ w); try lia. exact (load_bound _ _ _ _ Hok Hw).
Qed.

#[export] Hint Resolve get_bf_is_Some set_bf_is_Some : licode.

(** ** Single-bit masks *)

(** Testing the top bit of a [w + 1]-bit value compares it. *)
Lemma land_top_bit w x : 0 <= w -> in_width (w + 1) x -> (Z.land x (2 ^ w) =? 0) = (x <? 2 ^ w).
Proof.
  intros Hw Hx. unfold in_width in Hx. rewrite Z.pow_add_r, Z.pow_1_r in Hx by lia.
  case (Z.ltb_spec x (2 ^ w)); intros H.
  - apply Z.eqb_eq, Z.bits_inj'. intros i Hi. rewrite Z.land_spec, Z.bits_0.
    rewrite Z.pow2_bits_eqb by assumption. case (Z.eqb_spec w i); intros.
    + rewrite (testbit_above w x) by (unfold in_width; lia). reflexivity.
    + apply andb_false_r.
  - apply Z.eqb_neq. intros E. assert (Hb : Z.testbit (Z.land x (2 ^ w)) w = true).
    { rewrite Z.land_spec, Z.pow2_bits_true, andb_true_r by assumption.
      apply Z.testbit_true; [assumption|].
      replace (x / 2 ^ w) with 1; [reflexivity|]. apply Z.div_unique with (x - 2 ^ w); lia. }
    rewrite E, Z.bits_0 in Hb. discriminate.
Qed.

(** The signed reading of a word differs from it by a multiple of [2 ^ n]. *)
Lemma to_signed_cong n x : 0 <= n -> exists k, to_signed n x = x + k * 2 ^ n.
Proof.
  intros Hn. pose proof (to_signed_mod n x Hn) as Hm.
  exists (to_signed n x / 2 ^ n - x / 2 ^ n).
  assert (2 ^ n <> 0) by (apply Z.pow_nonzero; lia).
  pose proof (Z.div_mod (to_signed n x) (2 ^ n)) as E1. pose proof (Z.div_mod x (2 ^ n)) as E2.
  rewrite Hm in E1. lia.
Qed.

(** A field of [w] bits at [s] does not depend on the sign of the word. *)
Lemma signed_field n s w x :
  0 <= s -> 0 <= w -> s + w <= n ->
  (to_signed n x / 2 ^ s) mod 2 ^ w = (x / 2 ^ s) mod 2 ^ w.
Proof.
  intros Hs Hw Hn. destruct (to_signed_cong n x) as (k & ->); [lia|].
  replace (k * 2 ^ n) with (k * 2 ^ (n - s - w) * 2 ^ w * 2 ^ s).
  - rewrite Z.div_add by (apply Z.pow_nonzero; lia).
    apply Z.mod_add. apply Z.pow_nonzero; lia.
  - rewrite <- !Z.mul_assoc, <- !Z.pow_add_r by lia. do 2 f_equal. lia.
Qed.

Lemma to_signed_ext w x y : x mod 2 ^ w = y mod 2 ^ w -> to_signed w x = to_signed w y.
Proof. intros E. unfold to_signed, wrap. rewrite E. reflexivity. Qed.

(** Or-ing in a field above the bits of [a] adds it. *)
Lemma lor_shift_add a b s : 0 <= s -> 0 <= a < 2 ^ s -> 0 <= b -> Z.lor a (Z.shiftl b s) = a + Z.shiftl b s.
Proof.
  intros Hs Ha Hb.
  assert (L : Z.land a (Z.shiftl b s) = 0).
  { apply Z.bits_inj'. intros i Hi. rewrite Z.land_spec, Z.bits_0.
    destruct (Z.ltb_spec i s).
    - rewrite Z.shiftl_spec_low by assumption. apply andb_false_r.
    - rewrite (testbit_above s) by (unfold in_width; lia). reflexivity. }
  pose proof (Z.add_lor_land a (Z.shiftl b s)) as E. rewrite L in E. lia.
Qed.

(** Bit-by-bit equality of bytes built from bytes by masks and shifts. *)
Ltac norm_bits :=
  repeat match goal with
  | |- context [Z.testbit ?x ?k] =>
    let v := eval vm_compute in k in
    first [constr_eq k v; fail 1 | change (Z.testbit x k) with (Z.testbit x v)]
  end.
Ltac byte_bits :=
  unfold byte_ok in *; apply Z.bits_inj'; intros i Hi;
  destruct (Z.ltb_spec i 8);
  [ assert (i = 0 \/ i = 1 \/ i = 2 \/ i = 3 \/ i = 4 \/ i = 5 \/ i = 6 \/ i = 7) as Hcases by lia;
    repeat match goal with H : _ \/ _ |- _ => destruct H as [H|H] end; subst i;
    repeat first
      [ progress norm_bits
      | rewrite testbit_wrap by lia
      | rewrite Z.lor_spec | rewrite Z.land_spec | rewrite Z.bits_0
      | match goal with
        | |- context [Z.testbit ?x (Zneg ?k)] => rewrite (Z.testbit_neg_r x (Zneg k)) by lia
        end
      | rewrite Z.shiftr_spec by lia | rewrite Z.shiftl_spec by lia ];
    repeat match goal with
    | |- context [Z.testbit 63 ?k] => let v := eval vm_compute in (Z.testbit 63 k) in
                                      change (Z.testbit 63 k) with v
    | H : 0 <= ?x < 256 |- context [Z.testbit ?x ?k] =>
        rewrite (testbit_above 8 x k) by (unfold in_width; lia)
    | H : 0 <= ?x < 64 |- context [Z.testbit ?x ?k] =>
        rewrite (testbit_above 6 x k) by (unfold in_width; lia)
    end;
    cbn [Z.ltb Z.compare Pos.compare Pos.compare_cont andb];
    rewrite ?andb_true_r, ?andb_false_r, ?orb_false_r, ?orb_false_l; try reflexivity
  | rewrite ?testbit_wrap by lia; rewrite ?(proj2 (Z.ltb_ge i 8)) by lia;
    try (symmetry; apply (testbit_above 8); unfold in_width; lia) ].

(** ** Reading a prefix *)

Lemma read_at_app_l n a b off : in_bounds n a off -> read_at n (a ++ b) off = read_at n a off.
Proof.
  intros [H1 H2]. rewrite !read_at_Some by (unfold in_bounds; rewrite ?length_app; lia).
  f_equal. rewrite drop_app_le, take_app_le by (rewrite ?length_drop; lia). reflexivity.
Qed.

Lemma get_bf_app_l f a b base :
  in_bounds 4 a (base + bf_off f) -> get_bf f (a ++ b) base = get_bf f a base.
Proof. intros H. unfold get_bf, load. rewrite read_at_app_l by assumption. reflexivity. Qed.

(** ** Building a packet by copies *)

Lemma write_at_start buf src :
  (length src <= length buf)%nat -> write_at buf 0 src = Some (src ++ drop (length src) buf).
Proof.
  intros H. rewrite write_at_Some by (unfold in_bounds; lia). reflexivity.
Qed.

Lemma write_at_after a r src off :
  off = Z.of_nat (length a) -> (length src <= length r)%nat ->
  write_at (a ++ r) off src = Some (a ++ src ++ drop (length src) r).
Proof.
  intros -> H. rewrite write_at_Some by (unfold in_bounds; rewrite length_app; lia).
  rewrite Nat2Z.id, take_app_length, drop_app_add. reflexivity.
Qed.

Lemma read_at_start n a r : n = length a -> read_at n (a ++ r) 0 = Some a.
Proof.
  intros ->. rewrite read_at_Some by (unfold in_bounds; rewrite length_app; lia).
  change (Z.to_nat 0) with 0%nat. rewrite drop_0, take_app_length. reflexivity.
Qed.

Lemma read_at_after n a b r off :
  n = length b -> off = Z.of_nat (length a) -> read_at n (a ++ b ++ r) off = Some b.
Proof.
  intros -> ->. rewrite read_at_Some by (unfold in_bounds; rewrite !length_app; lia).
  rewrite Nat2Z.id, drop_app_length, take_app_length. reflexivity.
Qed.

Lemma read_at_all n a : n = length a -> read_at n a 0 = Some a.
Proof. intros H. pose proof (read_at_start n a [] H) as E. rewrite app_nil_r in E. exact E. Qed.

Lemma read_at_tail n a b off :
  n = length b -> off = Z.of_nat (length a) -> read_at n (a ++ b) off = Some b.
Proof. intros H1 H2. pose proof (read_at_after n a b [] off H1 H2) as E. rewrite app_nil_r in E. exact E. Qed.

(** ** Working inside a larger buffer *)

Lemma read_at_middle n pre b post off :
  in_bounds n b off -> read_at n (pre ++ b ++ post) (Z.of_nat (length pre) + off) = read_at n b off.
Proof.
  intros [H1 H2]. rewrite !read_at_Some by (unfold in_bounds; rewrite ?length_app; lia).
  f_equal. rewrite Z2Nat.inj_add, Nat2Z.id by lia. rewrite drop_app_add.
  rewrite drop_app_le, take_app_le by (rewrite ?length_drop; lia). reflexivity.
Qed.

Lemma write_at_middle pre b post off src :
  in_bounds (length src) b off ->
  write_at (pre ++ b ++ post) (Z.of_nat (length pre) + off) src =
    b' ← write_at b off src; Some (pre ++ b' ++ post).
Proof.
  intros [H1 H2]. rewrite !write_at_Some by (unfold in_bounds; rewrite ?length_app; lia).
  cbn [option_bind mbind]. f_equal. rewrite Z2Nat.inj_add, Nat2Z.id by lia.
  rewrite take_app_add, <- Nat.add_assoc, drop_app_add.
  rewrite take_app_le, drop_app_le by lia. rewrite <- !app_assoc. reflexivity.
Qed.

Lemma get_bf_middle f pre b post :
  in_bounds 4 b (0 + bf_off f) ->
  get_bf f (pre ++ b ++ post) (Z.of_nat (length pre)) = get_bf f b 0.
Proof. intros H. unfold get_bf, load. rewrite read_at_middle by exact H. reflexivity. Qed.

Lemma set_bf_middle f v pre b post :
  in_bounds 4 b (0 + bf_off f) ->
  set_bf f v (pre ++ b ++ post) (Z.of_nat (length pre)) =
    b' ← set_bf f v b 0; Some (pre ++ b' ++ post).
Proof.
  intros H. unfold set_bf, load, store. change (0 + bf_off f) with (bf_off f) in *.
  rewrite read_at_middle by exact H. destruct (read_at 4 b (bf_off f)) as [bs|]; [|reflexivity].
  cbn [fmap option_fmap option_map option_bind mbind].
  apply write_at_middle. rewrite length_le_bytes. exact H.
Qed.

(** ** The bytes of a word *)

Lemma read_at_join n m buf off x y off' :
  read_at n buf off = Some x -> off' = off + Z.of_nat n -> read_at m buf off' = Some y ->
  read_at (n + m) buf off = Some (x ++ y).
Proof.
  intros H1 -> H2. pose proof (read_at_inv _ _ _ _ H1) as [B1 B2].
  pose proof (read_at_inv _ _ _ _ H2) as [B3 B4].
  rewrite read_at_Some in H1, H2 |- * by (unfold in_bounds; lia). simplify_eq.
  rewrite Z2Nat.inj_add, Nat2Z.id by lia. rewrite <- drop_drop, take_take_drop. reflexivity.
Qed.

Lemma load_bytes n buf off v :
  bytes_ok buf -> load n buf off = Some v -> read_at n buf off = Some (le_bytes n v).
Proof.
  unfold load. intros Hok H. apply fmap_Some in H as (bs & H & ->). rewrite H. f_equal.
  rewrite <- (read_at_length _ _ _ _ H) at 1. symmetry. apply le_bytes_le_val.
  eauto using read_at_ok.
Qed.

(** A field that is a whole word. *)
Lemma word_bytes f buf base v :
  bytes_ok buf -> bf_shift f = 0 -> bf_width f = 32 -> get_bf f buf base = Some v ->
  read_at 4 buf (base + bf_off f) = Some (le_bytes 4 v).
Proof.
  intros Hok Hs Hw H. unfold get_bf in H. apply bind_Some in H as (w & Hl & H).
  rewrite Hs, Hw in H. unfold extract in H. rewrite Z.shiftr_0_r, Z.land_ones in H by lia.
  pose proof (load_bound _ _ _ _ Hok Hl) as Hb. change (256 ^ Z.of_nat 4) with (2 ^ 32) in Hb.
  rewrite Z.mod_small in H by lia. simplify_eq. apply load_bytes; assumption.
Qed.

Lemma extract_div s wd w : 0 <= s -> 0 <= wd -> extract s wd w = w / 2 ^ s mod 2 ^ wd.
Proof. intros. unfold extract. rewrite Z.land_ones, Z.shiftr_div_pow2 by lia. reflexivity. Qed.

(** Two fields that share the word between them, the second from bit [s] on. *)
Lemma two_fields_bytes f g buf base x y s :
  bytes_ok buf -> bf_off f = bf_off g -> bf_shift f = 0 -> bf_width f = s -> bf_shift g = s ->
  bf_width g = 32 - s -> 0 <= s <= 32 ->
  get_bf f buf base = Some x -> get_bf g buf base = Some y ->
  read_at 4 buf (base + bf_off f) = Some (le_bytes 4 (x + y * 2 ^ s)).
Proof.
  intros Hok Ho Hf1 Hf2 Hg1 Hg2 Hs Hx Hy. unfold get_bf in *. rewrite <- Ho in Hy.
  apply bind_Some in Hx as (w & Hl & Hx). rewrite Hl in Hy. cbn [option_bind mbind] in Hy.
  pose proof (load_bound _ _ _ _ Hok Hl) as Hb. change (256 ^ Z.of_nat 4) with (2 ^ 32) in Hb.
  rewrite Hf1, Hf2, extract_div in Hx by lia. rewrite Hg1, Hg2, extract_div in Hy by lia.
  injection Hx as <-. injection Hy as <-. rewrite (load_bytes _ _ _ _ Hok Hl). do 2 f_equal.
  rewrite Z.pow_0_r, Z.div_1_r, (Z.mod_small (w / 2 ^ s)).
  - pose proof (Z.div_mod w (2 ^ s) ltac:(apply Z.pow_nonzero; lia)). lia.
  - assert (0 < 2 ^ s) by (apply Z.pow_pos_nonneg; lia).
    split; [apply Z.div_pos; lia|]. apply Z.div_lt_upper_bound; [lia|].
    rewrite <- Z.pow_add_r by lia. replace (s + (32 - s)) with 32 by lia. lia.
Qed.

(** A word put together from two parts. *)
Lemma le_bytes_join n m x y :
  0 <= x < 256 ^ Z.of_nat n -> le_bytes (n + m) (x + y * 256 ^ Z.of_nat n) = le_bytes n x ++ le_bytes m y.
Proof.
  revert x. induction n as [|n IH]; intros x Hx; cbn [le_bytes Nat.add app].
  - change (256 ^ Z.of_nat 0) with 1 in *. do 2 f_equal. lia.
  - rewrite pow256_S in *. pose proof (pow256_pos n).
    f_equal; [|rewrite <- IH]; [| |].
    + replace (x + y * (256 * 256 ^ Z.of_nat n)) with (x + y * 256 ^ Z.of_nat n * 256) by lia.
      apply Z.mod_add. lia.
    + f_equal. replace (x + y * (256 * 256 ^ Z.of_nat n)) with (x + y * 256 ^ Z.of_nat n * 256) by lia.
      apply Z.div_add. lia.
    + split; [apply Z.div_pos; lia | apply Z.div_lt_upper_bound; lia].
Qed.
