(* ===== verification/MediaDefinitions.v ===== *)
(** * MediaDefinitions: the packets of the media pipeline (src/Src/media/MediaDefinitions.h)

    [dataPacket] is what the reordering queue, the ICE connection and the connection put
    into their queues; its array has 1500 bytes, and [copy_in] is the [memcpy] that fills
    it.  [None] is a copy outside an array. *)

From S2P Require Import Prelude Bytes.

Inductive packetType := VIDEO_PACKET | AUDIO_PACKET | OTHER_PACKET.

#[export] Instance packetType_eq_dec : EqDecision packetType.
Proof. solve_decision. Defined.

Record dataPacket := {
  comp : Z;
  data : list Z;
  length_ : Z;
  type_ : packetType
}.

#[export] Instance eta_dataPacket : Eta dataPacket := fun p =>
  {| comp := comp p; data := data p; length_ := length_ p; type_ := type_ p |}.

(** [new dataPacket()] is value-initialised. *)
Definition new_dataPacket : dataPacket :=
  {| comp := 0; data := repeat 0 1500; length_ := 0; type_ := VIDEO_PACKET |}.

(** [memcpy(p.data, buf, len)]; a negative [len] converts to a size beyond any buffer. *)
Definition copy_in (buf : list Z) (len : Z) (p : dataPacket) : option dataPacket :=
  if len <? 0 then None else
  src ← read_at (Z.to_nat len) buf 0;
  d ← write_at (data p) 0 src;
  Some (p <| data := d |>).

Lemma copy_in_spec buf len p :
  length (data p) = 1500%nat -> len = Z.of_nat (length buf) ->
  copy_in buf len p = if len <=? 1500
    then Some (p <| data := buf ++ drop (length buf) (data p) |>) else None.
Proof.
  intros Hp ->. unfold copy_in.
  destruct (Z.ltb_spec (Z.of_nat (length buf)) 0); [lia|]. rewrite Nat2Z.id.
  rewrite read_at_Some by (unfold in_bounds; lia). rewrite drop_0, take_ge by lia.
  cbn [option_bind mbind]. unfold write_at. simpl. rewrite Hp.
  destruct (Z.leb_spec (Z.of_nat (length buf)) 1500).
  - rewrite (proj2 (Z.leb_le _ _)) by lia. reflexivity.
  - rewrite (proj2 (Z.leb_gt _ _)) by lia. reflexivity.
Qed.

(** The packet for the bytes [buf]. *)
Definition packet_of (component_id : Z) (buf : list Z) : dataPacket :=
  {| comp := component_id; data := buf ++ replicate (1500 - length buf) 0;
     length_ := Z.of_nat (length buf); type_ := VIDEO_PACKET |}.
