(* ===== verification/RtpHeaders.v ===== *)
(** * RtpHeaders: the packet headers of src/Src/media/rtp/RtpHeaders.h

    The header classes are overlays: the code casts a [char*] into the packet to
    [RtpHeader*] or [RtcpHeader*] and reads bit-fields.  Here an object is a buffer
    with a base offset, a data member is a [bitfield] of a 32-bit unit, and every
    getter and setter is the code's composition of the byte swap with the field
    access.  The anonymous union of [RtcpHeader] needs no special treatment: its
    members are fields at overlapping offsets.  [None] is an access outside the
    buffer. *)

From S2P Require Import Prelude Bytes.

(** ** Payload types and RTCP packet types *)

Definition RTCP_Sender_PT : Z := 200.
Definition RTCP_Receiver_PT : Z := 201.
Definition RTCP_SDES_PT : Z := 202.
Definition RTCP_BYE : Z := 203.
Definition RTCP_APP : Z := 204.
Definition RTCP_RTP_Feedback_PT : Z := 205.
Definition RTCP_PS_Feedback_PT : Z := 206.

Definition RTCP_PLI_FMT : Z := 1.
Definition RTCP_SLI_FMT : Z := 2.
Definition RTCP_FIR_FMT : Z := 4.
Definition RTCP_AFB : Z := 15.

Definition VP8_90000_PT : Z := 100.
Definition RED_90000_PT : Z := 116.
Definition RTX_90000_PT : Z := 96.
Definition ULP_90000_PT : Z := 117.
Definition ISAC_16000_PT : Z := 103.
Definition ISAC_32000_PT : Z := 104.
Definition PCMU_8000_PT : Z := 0.
Definition OPUS_48000_PT : Z := 111.
Definition PCMA_8000_PT : Z := 8.
Definition CN_8000_PT : Z := 13.
Definition CN_16000_PT : Z := 105.
Definition CN_32000_PT : Z := 106.
Definition CN_48000_PT : Z := 107.
Definition TEL_8000_PT : Z := 126.

(** ** Accessor pairs

    A getter and a setter of one bit-field, with the conversion each applies to the
    stored bits.  [acc_ok] is the contract a pair has with the clients of a header:
    a value that fits the field is read back as it was written. *)
Record accessor := Accessor {
  acc_bf : bitfield;
  acc_get : list Z -> Z -> option Z;
  acc_set : Z -> list Z -> Z -> option (list Z);
  acc_dec : Z -> Z;
  acc_enc : Z -> Z
}.

Class acc_ok (a : accessor) : Prop := {
  acc_bf_ok : bf_ok (acc_bf a);
  acc_get_def buf base : acc_get a buf base = acc_dec a <$> get_bf (acc_bf a) buf base;
  acc_set_def v buf base : acc_set a v buf base = set_bf (acc_bf a) (acc_enc a v) buf base;
  acc_dec_enc v : in_width (bf_width (acc_bf a)) v ->
    acc_dec a (wrap (bf_width (acc_bf a)) (acc_enc a v)) = v
}.

Section accessor_laws.
Context (a : accessor) `{!acc_ok a}.

Lemma acc_get_is_Some buf base :
  in_bounds 4 buf (base + bf_off (acc_bf a)) -> is_Some (acc_get a buf base).
Proof. intros H. rewrite acc_get_def. apply fmap_is_Some, get_bf_is_Some. assumption. Qed.

Lemma acc_set_is_Some v buf base :
  in_bounds 4 buf (base + bf_off (acc_bf a)) -> is_Some (acc_set a v buf base).
Proof. intros H. rewrite acc_set_def. apply set_bf_is_Some. assumption. Qed.

Lemma acc_set_length v buf base buf' :
  acc_set a v buf base = Some buf' -> length buf' = length buf.
Proof. rewrite acc_set_def. apply set_bf_length. Qed.

Lemma acc_set_bytes_ok v buf base buf' :
  bytes_ok buf -> acc_set a v buf base = Some buf' -> bytes_ok buf'.
Proof. rewrite acc_set_def. apply set_bf_ok. Qed.

Lemma acc_get_set v buf base buf' :
  bytes_ok buf -> in_width (bf_width (acc_bf a)) v ->
  acc_set a v buf base = Some buf' -> acc_get a buf' base = Some v.
Proof.
  intros Hok Hv. rewrite acc_set_def, acc_get_def. intros H.
  rewrite (get_set_same _ _ _ _ _ acc_bf_ok Hok H). simpl.
  rewrite acc_dec_enc by assumption. reflexivity.
Qed.

Lemma acc_get_set_other b v buf base buf' :
  acc_ok b -> bytes_ok buf -> bf_disjoint (acc_bf a) (acc_bf b) ->
  acc_set a v buf base = Some buf' -> acc_get b buf' base = acc_get b buf base.
Proof.
  intros Hb Hok Hd. rewrite acc_set_def, !acc_get_def. intros H. f_equal.
  apply (get_set_other _ _ _ _ _ _ acc_bf_ok acc_bf_ok Hok Hd H).
Qed.
End accessor_laws.

(** The fields of one view of a class share no bit. *)
Fixpoint all_disjoint (l : list accessor) : Prop :=
  match l with
  | [] => True
  | a :: l => Forall (fun b => bf_disjoint (acc_bf a) (acc_bf b)) l /\ all_disjoint l
  end.

Definition bf_disjointb (f g : bitfield) : bool :=
  (bf_off f + 4 <=? bf_off g) || (bf_off g + 4 <=? bf_off f) ||
  ((bf_off f =? bf_off g) &&
   ((bf_shift f + bf_width f <=? bf_shift g) || (bf_shift g + bf_width g <=? bf_shift f))).

Lemma bf_disjointb_spec f g : bf_disjointb f g = true -> bf_disjoint f g.
Proof. unfold bf_disjointb, bf_disjoint. lia. Qed.

Fixpoint all_disjointb (l : list accessor) : bool :=
  match l with
  | [] => true
  | a :: l => forallb (fun b => bf_disjointb (acc_bf a) (acc_bf b)) l && all_disjointb l
  end.

Lemma all_disjointb_spec l : all_disjointb l = true -> all_disjoint l.
Proof.
  induction l as [|a l IH]; simpl; [done|]. intros [H1 H2]%andb_true_iff. split; [|auto].
  apply Forall_forall. intros b Hb. apply bf_disjointb_spec.
  rewrite forallb_forall in H1. apply H1, list_elem_of_In, Hb.
Qed.

Lemma bf_disjoint_sym f g : bf_disjoint f g -> bf_disjoint g f.
Proof. unfold bf_disjoint. lia. Qed.

Lemma all_disjoint_lookup l i j a b :
  all_disjoint l -> l !! i = Some a -> l !! j = Some b -> i <> j ->
  bf_disjoint (acc_bf a) (acc_bf b).
Proof.
  revert i j. induction l as [|c l IH]; intros i j Hd Ha Hb Hij; [done|].
  destruct Hd as [Hc Hd]. rewrite Forall_lookup in Hc.
  destruct i as [|i], j as [|j]; simplify_eq/=; eauto using bf_disjoint_sym.
Qed.

(** The three conversions of the plain accessors: none, and the two swaps. *)
Definition plain f get set : accessor := Accessor f get set id id.
Definition net16 f get set : accessor := Accessor f get set ntohs htons.
Definition net32 f get set : accessor := Accessor f get set ntohl htonl.

(** ** Building a header field by field *)

(** Stores the field in the goal and carries the known fields of the object over. *)
Ltac carry_field E :=
  lazymatch type of E with
  | set_bf ?f ?v ?b ?base = Some ?b' =>
    lazymatch goal with
    | Hok : bytes_ok b, Hl : length b = _ |- _ =>
      repeat match goal with
        | H : get_bf ?g b base = Some ?x |- _ =>
          first [ assert (get_bf g b' base = Some x)
                    by (rewrite <- H; apply (get_set_other f g v b base b');
                        [by vm_compute | by vm_compute | exact Hok | | exact E];
                        apply bf_disjointb_spec; vm_compute; reflexivity)
                | idtac ]; clear H
        end;
      pose proof (get_set_same f v b base b' ltac:(by vm_compute) Hok E);
      let Hn := fresh "Hl" in pose proof (set_bf_length f v b base b' E) as Hn; rewrite Hl in Hn;
      pose proof (set_bf_ok f v b base b' Hok E); clear E Hl Hok
    end
  end.

Ltac set_field :=
  lazymatch goal with
  | |- context [set_bf ?f ?v ?b ?base] =>
    let b' := fresh "h" in let E := fresh "E" in
    destruct (set_bf_is_Some f v b base) as [b' E]; [unfold in_bounds; simpl; lia|];
    rewrite E; cbn [option_bind mbind]; carry_field E
  end.

(** ** class RtpHeader *)

Module RtpHeader.
Definition MIN_SIZE : Z := 12.

Definition cc := BF 0 0 4.
Definition hasextension := BF 0 4 1.
Definition padding := BF 0 5 1.
Definition version := BF 0 6 2.
Definition payloadtype := BF 0 8 7.
Definition marker := BF 0 15 1.
Definition seqnum := BF 0 16 16.
Definition timestamp := BF 4 0 32.
Definition ssrc := BF 8 0 32.
Definition extensionpayload := BF 12 0 16.
Definition extensionlength := BF 12 16 16.
(** The offset of the member [extensions], the first word of the extension data. *)
Definition extensions : Z := 16.

Definition hasPadding buf base := get_bf padding buf base.
Definition getVersion buf base := get_bf version buf base.
Definition setVersion v buf base := set_bf version v buf base.
Definition getMarker buf base := get_bf marker buf base.
Definition setMarker v buf base := set_bf marker v buf base.
Definition getExtension buf base := get_bf hasextension buf base.
Definition setExtension v buf base := set_bf hasextension v buf base.
Definition getCc buf base := get_bf cc buf base.
Definition setCc v buf base := set_bf cc v buf base.
Definition getPayloadType buf base := get_bf payloadtype buf base.
Definition setPayloadType v buf base := set_bf payloadtype v buf base.
Definition getSeqNumber buf base := ntohs <$> get_bf seqnum buf base.
Definition setSeqNumber v buf base := set_bf seqnum (htons v) buf base.
Definition getTimestamp buf base := ntohl <$> get_bf timestamp buf base.
Definition setTimestamp v buf base := set_bf timestamp (htonl v) buf base.
Definition getSSRC buf base := ntohl <$> get_bf ssrc buf base.
Definition setSSRC v buf base := set_bf ssrc (htonl v) buf base.
Definition getExtId buf base := ntohs <$> get_bf extensionpayload buf base.
Definition setExtId v buf base := set_bf extensionpayload (htons v) buf base.
Definition getExtLength buf base := ntohs <$> get_bf extensionlength buf base.
Definition setExtLength v buf base := set_bf extensionlength (htons v) buf base.

(** The header length counts the CSRC list, and the extension header with its words
    when the X bit is set. *)
Definition getHeaderLength buf base : option Z :=
  c ← get_bf cc buf base;
  x ← get_bf hasextension buf base;
  l ← get_bf extensionlength buf base;
  Some (MIN_SIZE + c * 4 + x * (4 + ntohs l * 4)).

(** The constructor: every member but [extensions] is initialised. *)
Definition RtpHeader_ctor (mem : list Z) (base : Z) : option (list Z) :=
  m ← set_bf cc 0 mem base;
  m ← set_bf hasextension 0 m base;
  m ← set_bf padding 0 m base;
  m ← set_bf version 2 m base;
  m ← set_bf payloadtype 0 m base;
  m ← set_bf marker 0 m base;
  m ← set_bf seqnum 0 m base;
  m ← set_bf timestamp 0 m base;
  m ← set_bf ssrc 0 m base;
  m ← set_bf extensionpayload 0 m base;
  set_bf extensionlength 0 m base.

(** The getter and setter pairs of the class. *)
Definition accessors : list accessor := [
  plain version getVersion setVersion; plain marker getMarker setMarker;
  plain hasextension getExtension setExtension; plain cc getCc setCc;
  plain payloadtype getPayloadType setPayloadType;
  net16 seqnum getSeqNumber setSeqNumber; net32 timestamp getTimestamp setTimestamp;
  net32 ssrc getSSRC setSSRC; net16 extensionpayload getExtId setExtId;
  net16 extensionlength getExtLength setExtLength ].
End RtpHeader.

Lemma option_fmap_id {A} (o : option A) : o = id <$> o.
Proof. destruct o; reflexivity. Qed.

Lemma acc_ok_plain f get set :
  bf_ok f -> (forall buf base, get buf base = get_bf f buf base) ->
  (forall v buf base, set v buf base = set_bf f v buf base) ->
  acc_ok (plain f get set).
Proof.
  intros Hf Hg Hs. split; simpl; auto.
  - intros. rewrite Hg. apply option_fmap_id.
  - intros v Hv. apply wrap_small. assumption.
Qed.

Lemma acc_ok_net16 f get set :
  bf_ok f -> bf_width f = 16 -> (forall buf base, get buf base = ntohs <$> get_bf f buf base) ->
  (forall v buf base, set v buf base = set_bf f (htons v) buf base) ->
  acc_ok (net16 f get set).
Proof.
  intros Hf Hw Hg Hs. split; simpl; auto. intros v. rewrite Hw. intros Hv.
  rewrite wrap_small by apply htons_width. apply ntohs_htons. assumption.
Qed.

Lemma acc_ok_net32 f get set :
  bf_ok f -> bf_width f = 32 -> (forall buf base, get buf base = ntohl <$> get_bf f buf base) ->
  (forall v buf base, set v buf base = set_bf f (htonl v) buf base) ->
  acc_ok (net32 f get set).
Proof.
  intros Hf Hw Hg Hs. split; simpl; auto. intros v. rewrite Hw. intros Hv.
  rewrite wrap_small by apply htonl_width. apply ntohl_htonl. assumption.
Qed.

Ltac solve_forall :=
  repeat lazymatch goal with
  | |- Forall _ (_ :: _) => apply Forall_cons_2
  | |- Forall _ [] => apply Forall_nil_2
  end.

Ltac solve_acc_ok :=
  lazymatch goal with
  | |- acc_ok (plain _ _ _) =>
    apply acc_ok_plain; [unfold bf_ok; simpl; lia | reflexivity | reflexivity]
  | |- acc_ok (net16 _ _ _) =>
    apply acc_ok_net16; [unfold bf_ok; simpl; lia | reflexivity | reflexivity | reflexivity]
  | |- acc_ok (net32 _ _ _) =>
    apply acc_ok_net32; [unfold bf_ok; simpl; lia | reflexivity | reflexivity | reflexivity]
  end.

Lemma rtp_accessors_ok : Forall acc_ok RtpHeader.accessors.
Proof. cbv [RtpHeader.accessors]. solve_forall; solve_acc_ok. Qed.

Lemma rtp_accessors_disjoint : all_disjoint RtpHeader.accessors.
Proof. apply all_disjointb_spec. vm_compute. reflexivity. Qed.

(** ** classes AbsSendTimeExtension and RtpRtxHeader *)

Module AbsSendTimeExtension.
Definition ext_info := BF 0 0 8.
Definition abs_data := BF 0 8 24.

Definition getId buf base : option Z :=
  e ← get_bf ext_info buf base; Some (Z.shiftr e 4).
Definition getLength buf base : option Z :=
  e ← get_bf ext_info buf base; Some (Z.land e 0x0F).
Definition getAbsSendTime buf base : option Z :=
  d ← get_bf abs_data buf base; Some (Z.shiftr (ntohl d) 8).
Definition setAbsSendTime (aTime : Z) buf base : option (list Z) :=
  set_bf abs_data (Z.shiftr (htonl aTime) 8) buf base.
End AbsSendTimeExtension.

Module RtpRtxHeader.
(** [osn] follows the 20 bytes of the embedded [RtpHeader]. *)
Definition osn := BF 20 0 16.
Definition getOsn buf base := ntohs <$> get_bf osn buf base.
Definition setOs v buf base := set_bf osn (htons v) buf base.
End RtpRtxHeader.

(** ** class RtcpHeader *)

Module RtcpHeader.
(** The size of the class: eight header bytes and a 48-byte union. *)
Definition size : nat := 56.

Definition blockcount := BF 0 0 5.
Definition padding := BF 0 5 1.
Definition version := BF 0 6 2.
Definition packettype := BF 0 8 8.
Definition length := BF 0 16 16.
Definition ssrc := BF 4 0 32.

(** struct receiverReport_t *)
Definition ssrcsource := BF 8 0 32.
Definition fractionlost := BF 12 0 8.
Definition lost := BF 12 8 24.
Definition seqnumcycles := BF 16 0 16.
Definition highestseqnum := BF 16 16 16.
Definition jitter := BF 20 0 32.
Definition lastsr := BF 24 0 32.
Definition delaysincelast := BF 28 0 32.

(** struct senderReport_t: the two words of the 64-bit NTP timestamp, then counters *)
Definition ntptimestamp_lo := BF 8 0 32.
Definition ntptimestamp_hi := BF 12 0 32.
Definition rtprts := BF 16 0 32.
Definition packetsent := BF 20 0 32.
Definition octetssent := BF 24 0 32.

(** struct genericNack_t *)
Definition pid := BF 12 0 16.
Definition blp := BF 12 16 16.

(** struct remb_t *)
Definition uniqueid := BF 12 0 32.
Definition numssrc := BF 16 0 8.
Definition brLength := BF 16 8 24.
Definition ssrcfeedb := BF 20 0 32.

(** struct pli_t *)
Definition fci := BF 12 0 32.

Definition RtcpHeader_ctor (mem : list Z) (base : Z) : option (list Z) :=
  m ← set_bf blockcount 0 mem base;
  m ← set_bf padding 0 m base;
  m ← set_bf version 2 m base;
  m ← set_bf packettype 0 m base;
  m ← set_bf length 0 m base;
  set_bf ssrc 0 m base.

Definition isFeedback buf base : option bool :=
  pt ← get_bf packettype buf base;
  Some ((pt =? RTCP_Receiver_PT) || (pt =? RTCP_PS_Feedback_PT) || (pt =? RTCP_RTP_Feedback_PT)).

Definition isRtcp buf base : option bool :=
  pt ← get_bf packettype buf base;
  fb ← isFeedback buf base;
  Some ((pt =? RTCP_Sender_PT) || (pt =? RTCP_APP) || fb).

Definition getPacketType buf base := get_bf packettype buf base.
Definition setPacketType v buf base := set_bf packettype v buf base.
Definition getBlockCount buf base := get_bf blockcount buf base.
Definition setBlockCount v buf base := set_bf blockcount v buf base.
Definition getLength buf base := ntohs <$> get_bf length buf base.
Definition setLength v buf base := set_bf length (htons v) buf base.
Definition getSSRC buf base := ntohl <$> get_bf ssrc buf base.
Definition setSSRC v buf base := set_bf ssrc (htonl v) buf base.
Definition getSourceSSRC buf base := ntohl <$> get_bf ssrcsource buf base.
Definition setSourceSSRC v buf base := set_bf ssrcsource (htonl v) buf base.
Definition getFractionLost buf base := get_bf fractionlost buf base.
Definition setFractionLost v buf base := set_bf fractionlost v buf base.
(** [lost] is a signed 24-bit field: reading it sign-extends, and [ntohl] takes the
    32-bit pattern of the result. *)
Definition getLostPackets buf base : option Z :=
  l ← get_bf lost buf base; Some (Z.shiftr (ntohl (u32 (to_signed 24 l))) 8).
Definition setLostPackets v buf base := set_bf lost (Z.shiftr (htonl v) 8) buf base.
Definition getSeqnumCycles buf base := ntohs <$> get_bf seqnumcycles buf base.
Definition setSeqnumCycles v buf base := set_bf seqnumcycles (htons v) buf base.
Definition getHighestSeqnum buf base := ntohs <$> get_bf highestseqnum buf base.
Definition setHighestSeqnum v buf base := set_bf highestseqnum (htons v) buf base.
Definition getJitter buf base := ntohl <$> get_bf jitter buf base.
Definition setJitter v buf base := set_bf jitter (htonl v) buf base.
Definition getLastSr buf base := ntohl <$> get_bf lastsr buf base.
Definition setLastSr v buf base := set_bf lastsr (htonl v) buf base.
Definition getDelaySinceLastSr buf base := ntohl <$> get_bf delaysincelast buf base.
Definition setDelaySinceLastSr v buf base := set_bf delaysincelast (htonl v) buf base.
Definition getPacketsSent buf base := ntohl <$> get_bf packetsent buf base.
Definition setPacketsSent v buf base := set_bf packetsent (htonl v) buf base.
Definition getOctetsSent buf base := ntohl <$> get_bf octetssent buf base.
(** [((uint64_t)htonl(ntp)) << 32) + htonl(ntp >> 32)], [ntp] the 64-bit member. *)
Definition getNtpTimestamp buf base : option Z :=
  lo ← get_bf ntptimestamp_lo buf base;
  hi ← get_bf ntptimestamp_hi buf base;
  let ntp := lo + hi * 2 ^ 32 in
  Some (u64 (Z.shiftl (htonl ntp) 32 + htonl (Z.shiftr ntp 32))).
Definition getNackPid buf base := ntohs <$> get_bf pid buf base.
Definition setNackPid v buf base := set_bf pid (htons v) buf base.
Definition getNackBlp buf base := get_bf blp buf base.
Definition setNackBlp v buf base := set_bf blp v buf base.

(** The loop of [setREMBBitRate]; its guard [exp < 64] bounds it by the fuel 64. *)
Fixpoint remb_exp (fuel : nat) (bitRate max exp : Z) : Z :=
  match fuel with
  | O => exp
  | S fuel =>
    if (max <=? bitRate) && (exp <? 64)
    then remb_exp fuel bitRate (u64 (Z.shiftl max 1)) (exp + 1) else exp
  end.

(** The 24-bit exponent and mantissa word; shifting by the full width of the 64-bit
    operand is undefined. *)
Definition remb_line (bitRate : Z) : option Z :=
  let exp := remb_exp 64 bitRate 0x3FFFF 0 in
  if 64 <=? exp then None else
  let mantissa := Z.land (Z.shiftr bitRate exp) 0x3FFFF in
  Some (u32 (mantissa + Z.shiftl (Z.land exp 0x3F) 18)).

Definition setREMBBitRate bitRate buf base : option (list Z) :=
  line ← remb_line bitRate;
  set_bf brLength (Z.shiftr (htonl line) 8) buf base.
Definition getBrExp buf base : option Z :=
  b ← get_bf brLength buf base; Some (Z.shiftr (ntohl b) 26).
Definition getBrMantis buf base : option Z :=
  b ← get_bf brLength buf base; Some (Z.land (Z.shiftr (ntohl b) 8) 0x3ffff).
Definition getREMBNumSSRC buf base := get_bf numssrc buf base.
Definition setREMBNumSSRC v buf base := set_bf numssrc v buf base.
Definition getREMBFeedSSRC buf base := ntohl <$> get_bf ssrcfeedb buf base.
Definition setREMBFeedSSRC v buf base := set_bf ssrcfeedb (htonl v) buf base.
Definition getFCI buf base := ntohl <$> get_bf fci buf base.
Definition setFCI v buf base := set_bf fci (htonl v) buf base.

(** The bit rate as the receivers compute it, [getBrMantis() << getBrExp()]: both
    operands are 32-bit, so the result is, and a count of 32 or more is undefined. *)
Definition remb_bitrate buf base : option Z :=
  m ← getBrMantis buf base;
  e ← getBrExp buf base;
  if 32 <=? e then None else Some (u32 (Z.shiftl m e)).

(** [strncmp(uniqueId, "REMB", 4)] is zero: the four bytes at [uniqueid] are R E M B
    (none of them is the terminator, so the comparison looks at all four). *)
Definition REMB_bytes : list Z := [82; 69; 77; 66].
Fixpoint strncmp_eq (want : list Z) (buf : list Z) (off : Z) : option bool :=
  match want with
  | [] => Some true
  | w :: want =>
    b ← load 1 buf off;
    if b =? w then strncmp_eq want buf (off + 1) else Some false
  end.
Definition isREMB buf base := strncmp_eq REMB_bytes buf (base + bf_off uniqueid).

Definition net24 f get set : accessor :=
  Accessor f get set (fun l => Z.shiftr (ntohl (u32 (to_signed 24 l))) 8)
    (fun v => Z.shiftr (htonl v) 8).

(** The pairs every RTCP packet has, then the views of the union. *)
Definition common : list accessor := [
  plain packettype getPacketType setPacketType; plain blockcount getBlockCount setBlockCount;
  net16 length getLength setLength; net32 ssrc getSSRC setSSRC;
  net32 ssrcsource getSourceSSRC setSourceSSRC ].
Definition rr_view : list accessor := common ++ [
  plain fractionlost getFractionLost setFractionLost; net24 lost getLostPackets setLostPackets;
  net16 seqnumcycles getSeqnumCycles setSeqnumCycles;
  net16 highestseqnum getHighestSeqnum setHighestSeqnum;
  net32 jitter getJitter setJitter; net32 lastsr getLastSr setLastSr;
  net32 delaysincelast getDelaySinceLastSr setDelaySinceLastSr ].
Definition nack_view : list accessor := common ++ [
  net16 pid getNackPid setNackPid; plain blp getNackBlp setNackBlp ].
Definition remb_view : list accessor := common ++ [
  plain numssrc getREMBNumSSRC setREMBNumSSRC; net32 ssrcfeedb getREMBFeedSSRC setREMBFeedSSRC ].
Definition pli_view : list accessor := common ++ [ net32 fci getFCI setFCI ].
Definition views : list (list accessor) := [rr_view; nack_view; remb_view; pli_view].
End RtcpHeader.

(** ** classes FirHeader and RedHeader *)

Module FirHeader.
Definition fmt := BF 0 0 5.
Definition padding := BF 0 5 1.
Definition version := BF 0 6 2.
Definition packettype := BF 0 8 8.
Definition length := BF 0 16 16.
Definition ssrc := BF 4 0 32.
Definition ssrcofmediasource := BF 8 0 32.
Definition ssrc_fir := BF 12 0 32.
End FirHeader.

Module RedHeader.
Definition payloadtype := BF 0 0 7.
Definition follow := BF 0 7 1.
Definition tsLength := BF 0 8 24.
Definition getTS buf base : option Z :=
  t ← get_bf tsLength buf base; Some (Z.shiftr (Z.land (ntohl t) 0xfffc0000) 18).
Definition getLength buf base : option Z :=
  t ← get_bf tsLength buf base; Some (Z.land (ntohl t) 0x3ff00).
End RedHeader.

(** ** Laws of the header classes *)

Lemma acc_ok_net24 f get set :
  bf_ok f -> bf_width f = 24 ->
  (forall buf base, get buf base =
     l ← get_bf f buf base; Some (Z.shiftr (ntohl (u32 (to_signed 24 l))) 8)) ->
  (forall v buf base, set v buf base = set_bf f (Z.shiftr (htonl v) 8) buf base) ->
  acc_ok (RtcpHeader.net24 f get set).
Proof.
  intros Hf Hw Hg Hs. split; simpl; auto. intros v. rewrite Hw. intros Hv.
  rewrite (wrap_small 24) by apply swap24_width.
  rewrite <- (swap24 v Hv) at 2. rewrite (shiftr_bswap 3 (u32 _)), (shiftr_bswap 3 (Z.shiftr _ _)).
  apply bswap_mod. change (256 ^ Z.of_nat 3) with (2 ^ 24).
  unfold wrap. rewrite Z.mod_mod_divide by (exists (2 ^ 8); reflexivity).
  apply to_signed_mod. lia.
Qed.

Lemma rtcp_views_ok : Forall (Forall acc_ok) RtcpHeader.views.
Proof.
  cbv [RtcpHeader.views RtcpHeader.rr_view RtcpHeader.nack_view RtcpHeader.remb_view
    RtcpHeader.pli_view RtcpHeader.common app].
  solve_forall; first
    [ solve_acc_ok
    | apply acc_ok_net24; [unfold bf_ok; simpl; lia | reflexivity | reflexivity | reflexivity] ].
Qed.

Lemma rtcp_views_disjoint : Forall all_disjoint RtcpHeader.views.
Proof.
  unfold RtcpHeader.views.
  solve_forall; apply all_disjointb_spec; vm_compute; reflexivity.
Qed.

(** What holds of any two accessors of a view whose fields share no bit. *)
Lemma view_get_set l i j a b v buf base buf' :
  Forall acc_ok l -> all_disjoint l ->
  l !! i = Some a -> l !! j = Some b ->
  bytes_ok buf -> in_width (bf_width (acc_bf a)) v ->
  acc_set a v buf base = Some buf' ->
  acc_get b buf' base = if decide (i = j) then Some v else acc_get b buf base.
Proof.
  intros Hok Hd Ha Hb Hbuf Hv H. rewrite Forall_lookup in Hok.
  pose proof (Hok _ _ Ha). pose proof (Hok _ _ Hb). case_decide as Hij; simplify_eq.
  - eauto using acc_get_set.
  - eauto using acc_get_set_other, all_disjoint_lookup.
Qed.


(** ** The REMB bit rate *)

Definition remb_limit : Z := 0x3FFFF * 2 ^ 46.

Lemma remb_exp_spec fuel br exp :
  0 <= exp <= 46 -> 46 - exp <= Z.of_nat fuel -> br < remb_limit ->
  (exp = 0 \/ 0x3FFFF * 2 ^ (exp - 1) <= br) ->
  let e := RtcpHeader.remb_exp fuel br (0x3FFFF * 2 ^ exp) exp in
  exp <= e <= 46 /\ br < 0x3FFFF * 2 ^ e /\ (e = 0 \/ 0x3FFFF * 2 ^ (e - 1) <= br).
Proof.
  unfold remb_limit. revert exp. induction fuel as [|fuel IH]; intros exp Hexp Hf Hbr Hlo.
  - cbn [RtcpHeader.remb_exp]. cbv zeta. assert (exp = 46) as -> by lia. split; [lia | auto].
  - cbn [RtcpHeader.remb_exp].
    destruct (Z.leb_spec (0x3FFFF * 2 ^ exp) br) as [Hle | Hgt]; cbv zeta; cbn [andb]; [|split; [lia | auto]].
    assert (exp < 46).
    { destruct (Z.lt_trichotomy exp 46) as [|[->|]]; lia. }
    destruct (Z.ltb_spec exp 64); [|lia]. cbn [andb].
    assert (E : u64 (Z.shiftl (0x3FFFF * 2 ^ exp) 1) = 0x3FFFF * 2 ^ (exp + 1)).
    { rewrite Z.shiftl_mul_pow2, Z.pow_add_r by lia. rewrite Z.mul_assoc. apply wrap_small.
      assert (2 ^ exp <= 2 ^ 45) by (apply Z.pow_le_mono_r; lia).
      assert (0 < 2 ^ exp) by (apply Z.pow_pos_nonneg; lia).
      unfold in_width. lia. }
    rewrite E.
    destruct (IH (exp + 1)) as (H1 & H2 & H3);
      [lia | lia | assumption | right; rewrite Z.add_simpl_r; assumption |].
    split; [lia | auto].
Qed.

(** The exponent and mantissa words [setREMBBitRate] chooses. *)
Lemma remb_line_spec br :
  0 <= br < remb_limit ->
  exists e, 0 <= e <= 46 /\ (e = 0 \/ 0x3FFFF * 2 ^ (e - 1) <= br) /\
    0 <= Z.shiftr br e < 0x3FFFF /\
    RtcpHeader.remb_line br = Some (Z.shiftr br e + e * 2 ^ 18).
Proof.
  intros Hbr. pose proof (remb_exp_spec 64 br 0) as H. cbv zeta in H.
  rewrite Z.pow_0_r, Z.mul_1_r in H.
  destruct H as (He & Hhi & Hlo); try lia. unfold RtcpHeader.remb_line.
  remember (RtcpHeader.remb_exp 64 br 0x3FFFF 0) as e eqn:Ee. clear Ee.
  exists e. split; [lia|]. split; [assumption|].
  assert (Hm : 0 <= Z.shiftr br e < 0x3FFFF).
  { rewrite Z.shiftr_div_pow2 by lia. assert (0 < 2 ^ e) by (apply Z.pow_pos_nonneg; lia).
    split; [apply Z.div_pos; lia | apply Z.div_lt_upper_bound; lia]. }
  split; [assumption|]. cbv zeta. destruct (Z.leb_spec 64 e); [lia|]. f_equal.
  change 0x3FFFF with (Z.ones 18). change 0x3F with (Z.ones 6).
  rewrite !Z.land_ones, Z.shiftl_mul_pow2 by lia.
  rewrite (Z.mod_small (Z.shiftr br e)), (Z.mod_small e) by lia.
  apply wrap_small. unfold in_width. lia.
Qed.

Lemma remb_line_small br : 0 <= br < 2 ^ 32 -> is_Some (RtcpHeader.remb_line br).
Proof.
  intros H. destruct (remb_line_spec br) as (x & _ & _ & _ & ->); [unfold remb_limit; lia | eauto].
Qed.

Lemma getBr_set_brLength line buf base buf' :
  bytes_ok buf -> in_width 24 line ->
  set_bf RtcpHeader.brLength (Z.shiftr (htonl line) 8) buf base = Some buf' ->
  RtcpHeader.getBrExp buf' base = Some (Z.shiftr line 18) /\
  RtcpHeader.getBrMantis buf' base = Some (Z.land line 0x3ffff).
Proof.
  intros Hok Hl H. unfold RtcpHeader.getBrExp, RtcpHeader.getBrMantis.
  assert (Hf : bf_ok RtcpHeader.brLength) by (unfold bf_ok; simpl; lia).
  rewrite (get_set_same _ _ _ _ _ Hf Hok H). change (bf_width RtcpHeader.brLength) with 24.
  rewrite (wrap_small 24) by apply swap24_width. cbn [mbind option_bind].
  change 26 with (8 + 18). rewrite <- Z.shiftr_shiftr by lia. rewrite swap24 by assumption.
  auto.
Qed.

Lemma getBr_setREMBBitRate br buf base buf' :
  0 <= br < remb_limit -> bytes_ok buf ->
  RtcpHeader.setREMBBitRate br buf base = Some buf' ->
  exists e, 0 <= e <= 46 /\ (e = 0 \/ 0x3FFFF * 2 ^ (e - 1) <= br) /\
    Z.shiftr br e < 0x3FFFF /\
    RtcpHeader.getBrExp buf' base = Some e /\
    RtcpHeader.getBrMantis buf' base = Some (Z.shiftr br e).
Proof.
  intros Hbr Hok H. destruct (remb_line_spec br Hbr) as (e & He & Hlo & Hm & Hl).
  unfold RtcpHeader.setREMBBitRate in H. rewrite Hl in H. cbn [mbind option_bind] in H.
  apply getBr_set_brLength in H as [H1 H2]; [| assumption | unfold in_width; lia].
  exists e. repeat split; try assumption; try lia.
  - rewrite H1. f_equal. rewrite Z.shiftr_div_pow2 by lia.
    symmetry. apply Z.div_unique with (Z.shiftr br e); lia.
  - rewrite H2. f_equal. change 0x3ffff with (Z.ones 18). rewrite Z.land_ones by lia.
    symmetry. apply Z.mod_unique with e; lia.
Qed.

(** ** Properties *)

(** Over every view of an RTCP packet (receiver report, generic NACK, REMB, PLI), and for
    every setter and getter of the view: a value that fits the field is read back exactly,
    and every other getter of the view returns what it returned before.  In particular the
    24-bit big-endian loss counter survives its signed field. *)
Theorem rtcp_set_get view i j a b v buf base buf' :
  view ∈ RtcpHeader.views -> view !! i = Some a -> view !! j = Some b ->
  bytes_ok buf -> in_width (bf_width (acc_bf a)) v ->
  acc_set a v buf base = Some buf' ->
  acc_get b buf' base = if decide (i = j) then Some v else acc_get b buf base.
Proof.
  intros Hv. pose proof rtcp_views_ok as Hok. pose proof rtcp_views_disjoint as Hd.
  rewrite Forall_forall in Hok, Hd. eauto using view_get_set.
Qed.

Lemma rtcp_set_get_witness :
  RtcpHeader.getLostPackets
    (default [] (RtcpHeader.setLostPackets 0x812345 (replicate 56 0) 0)) 0 = Some 0x812345.
Proof.
  assert (H : acc_get (RtcpHeader.net24 RtcpHeader.lost RtcpHeader.getLostPackets
      RtcpHeader.setLostPackets)
    (default [] (RtcpHeader.setLostPackets 0x812345 (replicate 56 0) 0)) 0 =
    if decide (6 = 6)%nat then Some 0x812345 else None); [|exact H].
  eapply (rtcp_set_get RtcpHeader.rr_view 6 6) with (buf := replicate 56 0).
  - apply list_elem_of_here.
  - reflexivity.
  - reflexivity.
  - apply Forall_replicate. unfold byte_ok. lia.
  - unfold in_width. simpl. lia.
  - vm_compute. reflexivity.
Defined.

(** The same for the RTP header: each of its ten setters is seen by its getter and by no
    other. *)
Theorem rtp_set_get i j a b v buf base buf' :
  RtpHeader.accessors !! i = Some a -> RtpHeader.accessors !! j = Some b ->
  bytes_ok buf -> in_width (bf_width (acc_bf a)) v ->
  acc_set a v buf base = Some buf' ->
  acc_get b buf' base = if decide (i = j) then Some v else acc_get b buf base.
Proof. apply view_get_set; [apply rtp_accessors_ok | apply rtp_accessors_disjoint]. Qed.

Lemma rtp_set_get_witness :
  acc_get (net32 RtpHeader.ssrc RtpHeader.getSSRC RtpHeader.setSSRC)
    (default [] (RtpHeader.setSeqNumber 65534 (replicate 20 7) 0)) 0 = Some 0x07070707.
Proof.
  rewrite (rtp_set_get 5 7 (net16 RtpHeader.seqnum RtpHeader.getSeqNumber RtpHeader.setSeqNumber)
    _ 65534 (replicate 20 7)).
  - vm_compute. reflexivity.
  - reflexivity.
  - reflexivity.
  - apply Forall_replicate. unfold byte_ok. lia.
  - unfold in_width. simpl. lia.
  - vm_compute. reflexivity.
Defined.

(** Announcing a bit rate below 0x3FFFF * 2^46 stores the smallest exponent with which
    the mantissa fits, and a mantissa that rounds the rate down by less than one unit of
    that exponent; below 0x3FFFF the announcement is exact. *)
Theorem remb_set_get br buf base buf' :
  0 <= br < remb_limit -> bytes_ok buf ->
  RtcpHeader.setREMBBitRate br buf base = Some buf' ->
  exists e m, RtcpHeader.getBrExp buf' base = Some e /\
    RtcpHeader.getBrMantis buf' base = Some m /\
    0 <= m < 2 ^ 18 /\ m * 2 ^ e <= br < (m + 1) * 2 ^ e /\
    (e = 0 \/ 0x3FFFF * 2 ^ (e - 1) <= br) /\ (br < 0x3FFFF -> e = 0 /\ m = br).
Proof.
  intros Hbr Hok H. destruct (getBr_setREMBBitRate _ _ _ _ Hbr Hok H)
    as (e & He & Hlo & Hm & H1 & H2).
  exists e, (Z.shiftr br e). split; [assumption|]. split; [assumption|].
  assert (Hp : 0 < 2 ^ e) by (apply Z.pow_pos_nonneg; lia).
  rewrite Z.shiftr_div_pow2 in * by lia.
  pose proof (Z.mul_div_le br (2 ^ e) Hp). pose proof (Z.mul_succ_div_gt br (2 ^ e) Hp).
  assert (0 <= br / 2 ^ e) by (apply Z.div_pos; lia).
  split; [lia|]. split; [nia|]. split; [assumption|]. intros Hs.
  assert (e = 0) as ->.
  { destruct Hlo as [|Hlo]; [assumption|]. destruct (Z.eq_dec e 0); [assumption|].
    assert (0 < 2 ^ (e - 1)) by (apply Z.pow_pos_nonneg; lia). lia. }
  rewrite Z.pow_0_r, Z.div_1_r. auto.
Qed.

Lemma remb_set_get_witness :
  exists buf' e m, RtcpHeader.setREMBBitRate 2000001 (replicate 56 0) 0 = Some buf' /\
    RtcpHeader.getBrExp buf' 0 = Some e /\ RtcpHeader.getBrMantis buf' 0 = Some m /\
    m * 2 ^ e <= 2000001 < (m + 1) * 2 ^ e.
Proof.
  eexists. destruct (remb_set_get 2000001 (replicate 56 0) 0
    (default [] (RtcpHeader.setREMBBitRate 2000001 (replicate 56 0) 0)))
    as (e & m & H1 & H2 & _ & H3 & _).
  - unfold remb_limit. lia.
  - apply Forall_replicate. unfold byte_ok. lia.
  - vm_compute. reflexivity.
  - exists e, m. split; [vm_compute; reflexivity|]. auto.
Defined.

(** What a receiver computes from an announcement, [getBrMantis() << getBrExp()] on 32-bit
    operands, is the announced rate rounded down only while the rate is below 2^32: from
    there the product is reduced modulo 2^32 (undefined from an exponent of 32 on). *)
Theorem remb_bitrate_32bit br buf base buf' :
  0 <= br < 2 ^ 48 -> bytes_ok buf ->
  RtcpHeader.setREMBBitRate br buf base = Some buf' ->
  exists e, RtcpHeader.getBrExp buf' base = Some e /\
    RtcpHeader.remb_bitrate buf' base = Some ((br - br mod 2 ^ e) mod 2 ^ 32) /\
    (br < 0x3FFFF * 2 ^ 14 -> RtcpHeader.remb_bitrate buf' base = Some (br - br mod 2 ^ e)).
Proof.
  intros Hbr Hok H. destruct (getBr_setREMBBitRate br buf base buf') as (e & He & Hlo & Hm & H1 & H2);
    [unfold remb_limit; lia | assumption | assumption |].
  exists e. split; [assumption|].
  assert (He' : e < 32).
  { destruct (Z.lt_ge_cases e 32); [assumption|]. destruct Hlo as [|Hlo]; [lia|].
    assert (2 ^ 31 <= 2 ^ (e - 1)) by (apply Z.pow_le_mono_r; lia). lia. }
  assert (Hp : 0 < 2 ^ e) by (apply Z.pow_pos_nonneg; lia).
  assert (E : Z.shiftl (Z.shiftr br e) e = br - br mod 2 ^ e).
  { rewrite Z.shiftl_mul_pow2, Z.shiftr_div_pow2 by lia.
    pose proof (Z.div_mod br (2 ^ e)). lia. }
  unfold RtcpHeader.remb_bitrate. rewrite H1, H2. cbn [mbind option_bind].
  destruct (Z.leb_spec 32 e); [lia|]. rewrite E. split; [reflexivity|]. intros Hs.
  f_equal. apply wrap_small. pose proof (Z.mod_pos_bound br (2 ^ e) Hp).
  pose proof (Z.mod_le br (2 ^ e)). unfold in_width. lia.
Qed.

Lemma remb_bitrate_32bit_witness :
  let buf := default [] (RtcpHeader.setREMBBitRate (2 ^ 33) (replicate 56 0) 0) in
  RtcpHeader.remb_bitrate buf 0 = Some 0 /\
  exists e, RtcpHeader.getBrExp buf 0 = Some e /\
    RtcpHeader.remb_bitrate buf 0 = Some ((2 ^ 33 - 2 ^ 33 mod 2 ^ e) mod 2 ^ 32).
Proof.
  split; [vm_compute; reflexivity|].
  destruct (remb_bitrate_32bit (2 ^ 33) (replicate 56 0) 0
    (default [] (RtcpHeader.setREMBBitRate (2 ^ 33) (replicate 56 0) 0))) as (e & H1 & H2 & _).
  - lia.
  - apply Forall_replicate. unfold byte_ok. lia.
  - vm_compute. reflexivity.
  - exists e. split; [exact H1 | exact H2].
Defined.

(** The 24-bit big-endian number in the upper three bytes of a unit, as [ntohl] of the
    bit-field holding it sees it: eight zero bits below the number. *)
Lemma ntohl_upper24 b0 b1 b2 b3 :
  bytes_ok [b0; b1; b2; b3] ->
  ntohl (extract 8 24 (le_val [b0; b1; b2; b3])) = 256 * (65536 * b1 + 256 * b2 + b3).
Proof.
  unfold byte_ok. intros H. rewrite !Forall_cons in H. destruct H as (H0 & H1 & H2 & H3 & _).
  unfold extract. rewrite Z.land_ones, Z.shiftr_div_pow2 by lia.
  replace ((le_val [b0; b1; b2; b3] / 2 ^ 8) mod 2 ^ 24) with (le_val [b1; b2; b3; 0]).
  - unfold bswap. change 4%nat with (length [b1; b2; b3; 0]). rewrite le_bytes_le_val.
    + cbn [rev app le_val]. lia.
    + repeat apply Forall_cons_2; try apply Forall_nil_2; unfold byte_ok; lia.
  - cbn [le_val]. change (2 ^ 8) with 256. change (2 ^ 24) with 16777216.
    Z.div_mod_to_equations. lia.
Qed.

(** A RED block header (RFC 2198) has a 14-bit timestamp offset and a 10-bit block
    length.  [getTS] returns the offset; [getLength] masks the length and does not shift
    it down, so it returns 256 times the length of the block. *)
Theorem red_header_fields b0 b1 b2 b3 :
  bytes_ok [b0; b1; b2; b3] ->
  RedHeader.getTS [b0; b1; b2; b3] 0 = Some (64 * b1 + b2 / 4) /\
  RedHeader.getLength [b0; b1; b2; b3] 0 = Some (256 * (256 * (b2 mod 4) + b3)).
Proof.
  intros Hok. unfold RedHeader.getTS, RedHeader.getLength, get_bf.
  change (load 4 [b0; b1; b2; b3] (0 + bf_off RedHeader.tsLength))
    with (Some (le_val [b0; b1; b2; b3])).
  cbn [mbind option_bind bf_shift bf_width RedHeader.tsLength].
  rewrite ntohl_upper24 by assumption.
  unfold byte_ok in Hok. rewrite !Forall_cons in Hok. destruct Hok as (H0 & H1 & H2 & H3 & _).
  replace 0xfffc0000 with (Z.shiftl (Z.ones 14) 18) by reflexivity.
  replace 0x3ff00 with (Z.shiftl (Z.ones 10) 8) by reflexivity.
  set (v := 256 * (65536 * b1 + 256 * b2 + b3)).
  rewrite Z.shiftr_land, Z.shiftr_shiftl_l, Z.sub_diag, Z.shiftl_0_r by lia.
  assert (E : Z.land v (Z.shiftl (Z.ones 10) 8) =
              Z.shiftl (Z.land (Z.shiftr v 8) (Z.ones 10)) 8).
  { apply Z.bits_inj'. intros i Hi. rewrite Z.land_spec, !Z.shiftl_spec by lia.
    destruct (Z.ltb_spec i 8).
    - rewrite !(Z.testbit_neg_r _ (i - 8)) by lia. apply andb_false_r.
    - rewrite Z.land_spec, Z.shiftr_spec, Z.sub_add by lia. reflexivity. }
  rewrite E, !Z.land_ones, Z.shiftl_mul_pow2, !Z.shiftr_div_pow2 by lia.
  change (2 ^ 14) with 16384. change (2 ^ 10) with 1024. change (2 ^ 8) with 256.
  change (2 ^ 18) with 262144. subst v.
  split; f_equal; Z.div_mod_to_equations; lia.
Qed.

Lemma red_header_fields_witness :
  RedHeader.getLength [127; 0; 2; 3] 0 = Some (256 * (256 * (2 mod 4) + 3)) /\
  RedHeader.getTS [127; 1; 2; 3] 0 = Some (64 * 1 + 2 / 4).
Proof.
  assert (Hok : forall b, byte_ok b -> bytes_ok [127; b; 2; 3])
    by (intros; repeat constructor; unfold byte_ok in *; lia).
  split.
  - apply (red_header_fields 127 0 2 3), Hok. unfold byte_ok. lia.
  - apply (red_header_fields 127 1 2 3), Hok. unfold byte_ok. lia.
Defined.

(** The offset of the payload (RFC 3550): after the CSRC list comes the extension header,
    with its own length, when the X bit is set. *)
Definition payload_offset (buf : list Z) (base : Z) : option Z :=
  c ← RtpHeader.getCc buf base;
  x ← RtpHeader.getExtension buf base;
  if x =? 0 then Some (12 + 4 * c) else
  l ← load 2 buf (base + 12 + 4 * c + 2);
  Some (12 + 4 * c + 4 + 4 * ntohs l).

Lemma load_upper_half buf off w :
  bytes_ok buf -> load 4 buf off = Some w -> load 2 buf (off + 2) = Some (extract 16 16 w).
Proof.
  intros Hok H. pose proof (load_inv _ _ _ _ H) as [Hb1 Hb2]. unfold load in *.
  apply fmap_Some in H as (bs & H & ->).
  assert (Hbs : bytes_ok bs) by eauto using read_at_ok.
  rewrite read_at_Some by (unfold in_bounds; lia).
  rewrite read_at_Some in H by (unfold in_bounds; lia). simplify_eq.
  remember (drop (Z.to_nat off) buf) as l eqn:El.
  replace (drop (Z.to_nat (off + 2)) buf) with (drop 2 l)
    by (subst l; rewrite drop_drop; f_equal; lia).
  assert (Hl : (4 <= length l)%nat) by (subst l; rewrite length_drop; lia).
  destruct l as [|a [|b [|c [|d l]]]]; simpl in Hl; try lia. simpl fmap. f_equal.
  simpl take in *. rewrite !Forall_cons in Hbs. unfold byte_ok in Hbs.
  unfold extract. rewrite Z.land_ones, Z.shiftr_div_pow2 by lia. cbn [le_val].
  change (2 ^ 16) with 65536. Z.div_mod_to_equations. lia.
Qed.

(** [getHeaderLength] is the offset of the payload for a packet without CSRCs.  With
    CSRCs and an extension it is not: it takes the extension length from the middle of
    the CSRC list, so it can answer 28 for a payload at offset 20. *)
Theorem header_length_spec :
  (forall buf base, bytes_ok buf -> in_bounds 4 buf (base + 12) ->
     0 <= base -> RtpHeader.getCc buf base = Some 0 ->
     RtpHeader.getHeaderLength buf base = payload_offset buf base) /\
  (exists buf, RtpHeader.getCc buf 0 = Some 1 /\
     RtpHeader.getHeaderLength buf 0 = Some 28 /\ payload_offset buf 0 = Some 20).
Proof.
  split.
  - intros buf base Hok [Hb1 Hb2] Hbase Hcc. unfold RtpHeader.getHeaderLength, payload_offset.
    rewrite Hcc. unfold RtpHeader.getCc in Hcc. rewrite Hcc. cbn [mbind option_bind].
    unfold RtpHeader.getExtension.
    destruct (get_bf RtpHeader.hasextension buf base) as [x|] eqn:Ex; [|reflexivity].
    assert (Hx : in_width 1 x) by (apply (get_bf_width RtpHeader.hasextension buf base);
      [unfold bf_ok; simpl; lia | assumption]). unfold in_width in Hx.
    cbn [mbind option_bind]. unfold get_bf. simpl bf_off. simpl bf_shift. simpl bf_width.
    destruct (load_is_Some 4 buf (base + 12)) as [w Hw]; [split; assumption|].
    rewrite Hw. cbn [mbind option_bind]. destruct (Z.eqb_spec x 0).
    + f_equal. unfold RtpHeader.MIN_SIZE. lia.
    + replace (base + 12 + 4 * 0 + 2) with (base + 12 + 2) by lia.
      rewrite (load_upper_half _ _ _ Hok Hw). cbn [mbind option_bind].
      f_equal. unfold RtpHeader.MIN_SIZE. assert (x = 1) as -> by lia. lia.
  - exists [0x91; 0; 0; 0;  0; 0; 0; 0;  0; 0; 0; 0;  9; 9; 0; 2;  0; 0; 0; 0]. vm_compute. auto.
Qed.
