(* ===== verification/StringUtils.v ===== *)
(** * StringUtils: the string helpers of src/Src/Common/StringUtils.cpp

    A [std::string] is the list of its bytes (0..255); [s[i]] at [i = size()] is the
    terminating zero, beyond it is undefined ([None]).  A [char] compared with a number
    is signed, as on the compilers of the project ([schar]).  Loops whose termination
    is not structural have fuel and return [None] without any left; the theorems give
    the fuel that is enough.

    First the translations in the order of the file, then: splitting and joining
    strings, trimming, escaping, URL decoding, Base64, UTF-8 and UTF-16. *)

From S2P Require Import Prelude Bytes.

(** ** std::string *)

Definition schar (c : Z) : Z := to_signed 8 c.

(** [s[i]]. *)
Definition char_at (s : list Z) (i : nat) : option Z :=
  if (i =? length s)%nat then Some 0 else s !! i.

(** [s.substr(pos, n)] and [s.substr(pos)] at a position inside the string. *)
Definition substr (s : list Z) (pos n : nat) : list Z := take n (drop pos s).
Definition substr_from (s : list Z) (pos : nat) : list Z := drop pos s.

Fixpoint index_of (p : Z -> bool) (s : list Z) : option nat :=
  match s with
  | [] => None
  | c :: s => if p c then Some O else S <$> index_of p s
  end.

Definition char_in (delim : list Z) (c : Z) : bool := existsb (Z.eqb c) delim.

Definition find_first_of (s delim : list Z) (pos : nat) : option nat :=
  Nat.add pos <$> index_of (char_in delim) (drop pos s).

Fixpoint is_prefix (needle s : list Z) : bool :=
  match needle, s with
  | [], _ => true
  | x :: needle, y :: s => (x =? y) && is_prefix needle s
  | _ :: _, [] => false
  end.

Fixpoint find_here (needle s : list Z) : option nat :=
  if is_prefix needle s then Some O else
  match s with
  | [] => None
  | _ :: s => S <$> find_here needle s
  end.

(** [s.find(needle, pos)]. *)
Definition str_find (s needle : list Z) (pos : nat) : option nat :=
  if (length s <? pos)%nat then None else Nat.add pos <$> find_here needle (drop pos s).

(** ** Splitting *)

Fixpoint StringSplit_loop (fuel : nat) (str delim : list Z) (results : list (list Z)) (Prev : nat)
    : option (list (list Z)) :=
  match fuel with
  | O => None
  | S fuel =>
    match find_first_of str delim Prev with
    | Some cutAt =>
        StringSplit_loop fuel str delim (results ++ [substr str Prev (cutAt - Prev)]) (cutAt + 1)
    | None =>
        if (Prev <? length str)%nat then Some (results ++ [substr_from str Prev]) else Some results
    end
  end.

Definition StringSplit (str delim : list Z) : option (list (list Z)) :=
  StringSplit_loop (S (length str)) str delim [] 0.

Definition is_quote (c : Z) : bool := (c =? 34) || (c =? 39).

Fixpoint StringSplitWithQuotes_loop (fuel : nat) (str delim : list Z) (results : list (list Z))
    (Prev : nat) : option (list (list Z)) :=
  match fuel with
  | O => None
  | S fuel =>
    match find_first_of str delim Prev with
    | Some cutAt =>
        if (cutAt =? Prev)%nat then StringSplitWithQuotes_loop fuel str delim results (Prev + 1) else
        let current := substr str Prev (cutAt - Prev) in
        let front := default 0 (head current) in
        let '(current, cutAt) :=
          if is_quote front then
            let Prev := (Prev + 1)%nat in
            match find_first_of str [front] Prev with
            | Some cutAtQuote => (substr str Prev (cutAtQuote - Prev), (cutAtQuote + 1)%nat)
            | None => (current, cutAt)
            end
          else (current, cutAt) in
        StringSplitWithQuotes_loop fuel str delim (results ++ [current]) (cutAt + 1)
    | None =>
        if (Prev <? length str)%nat then
          let current := substr_from str Prev in
          let front := default 0 (head current) in
          let current :=
            if (2 <=? length current)%nat && is_quote front &&
               (front =? default 0 (last current))
            then substr current 1 (length current - 2) else current in
          Some (results ++ [current])
        else Some results
    end
  end.

(** The position grows in every round. *)
Definition StringSplitWithQuotes (str delim : list Z) : option (list (list Z)) :=
  StringSplitWithQuotes_loop (S (length str)) str delim [] 0.

(** The two scans of [TrimString]; [end] starts at the terminating zero. *)
Fixpoint TrimString_start (fuel : nat) (str : list Z) (start : nat) : nat :=
  match fuel with
  | O => start
  | S fuel =>
    if (start <? length str)%nat then
      if 32 <? schar (default 0 (str !! start)) then start
      else TrimString_start fuel str (start + 1)
    else start
  end.

Fixpoint TrimString_end (fuel : nat) (str : list Z) (start end_ : nat) : nat :=
  match fuel with
  | O => end_
  | S fuel =>
    if (start <=? end_)%nat then
      if 32 <? schar (default 0 (char_at str end_)) then end_
      else TrimString_end fuel str start (end_ - 1)
    else end_
  end.

Definition TrimString (str : list Z) : list Z :=
  let len := length str in
  let start := TrimString_start (S len) str 0 in
  if (start =? len)%nat then [] else
  let end_ := TrimString_end (S len) str start len in
  substr str start (end_ - start + 1).

Fixpoint StringSplitAndTrim_loop (fuel : nat) (str delim : list Z) (results : list (list Z))
    (Prev : nat) : option (list (list Z)) :=
  match fuel with
  | O => None
  | S fuel =>
    match find_first_of str delim Prev with
    | Some cutAt =>
        StringSplitAndTrim_loop fuel str delim
          (results ++ [TrimString (substr str Prev (cutAt - Prev))]) (cutAt + 1)
    | None =>
        if (Prev <? length str)%nat then Some (results ++ [TrimString (substr_from str Prev)])
        else Some results
    end
  end.

Definition StringSplitAndTrim (str delim : list Z) : option (list (list Z)) :=
  StringSplitAndTrim_loop (S (length str)) str delim [] 0.

Fixpoint SplitOneOf_loop (fuel : nat) (delims : list Z) (maxSplits : nat)
    (remaining : list Z) (results : list (list Z)) (splits : nat) : option (list (list Z)) :=
  match fuel with
  | O => None
  | S fuel =>
    match (if (maxSplits =? 0)%nat || (splits <? maxSplits)%nat
           then find_first_of remaining delims 0 else None) with
    | Some pos =>
        SplitOneOf_loop fuel delims maxSplits (substr_from remaining (pos + 1))
          (results ++ [substr remaining 0 pos]) (splits + 1)
    | None =>
        if (0 <? length remaining)%nat then Some (results ++ [remaining]) else Some results
    end
  end.

Definition SplitOneOf (str delims : list Z) (maxSplits : nat) : option (list (list Z)) :=
  SplitOneOf_loop (S (length str)) delims maxSplits str [] 0.

(** ** Case *)

(** [tolower]/[toupper] of the C locale on a [char]: a negative argument other than EOF
    is undefined. *)
Definition ctype_ok (c : Z) : bool := (c <? 128) || (c =? 255).
Definition tolower (c : Z) : option Z :=
  if ctype_ok c then Some (if (65 <=? c) && (c <=? 90) then c + 32 else c) else None.
Definition toupper (c : Z) : option Z :=
  if ctype_ok c then Some (if (97 <=? c) && (c <=? 122) then c - 32 else c) else None.

Definition InPlaceLowercase (s : list Z) : option (list Z) := mapM tolower s.
Definition InPlaceUppercase (s : list Z) : option (list Z) := mapM toupper s.
Definition StrToLower (s : list Z) : option (list Z) := mapM tolower s.
Definition StrToUpper (s : list Z) : option (list Z) := mapM toupper s.

Fixpoint RateCompareString_loop (s1 s2 : list Z) (MatchedLetters : nat) : option nat :=
  match s1, s2 with
  | c1 :: s1, c2 :: s2 =>
      c1 ← toupper c1; c2 ← toupper c2;
      if c1 =? c2 then RateCompareString_loop s1 s2 (S MatchedLetters) else Some MatchedLetters
  | _, _ => Some MatchedLetters
  end.

Definition RateCompareString (s1 s2 : list Z) : option nat :=
  if (length s2 <? length s1)%nat then Some O else RateCompareString_loop s1 s2 O.

(** ** Replacing *)

Fixpoint ReplaceString_loop (fuel : nat) (iHayStack iNeedle iReplaceWith : list Z)
    (pos1 : option nat) : option (list Z) :=
  match pos1 with
  | None => Some iHayStack
  | Some pos =>
    match fuel with
    | O => None
    | S fuel =>
      let iHayStack := take pos iHayStack ++ iReplaceWith ++ drop (pos + length iNeedle) iHayStack in
      ReplaceString_loop fuel iHayStack iNeedle iReplaceWith (str_find iHayStack iNeedle pos)
    end
  end.

(** [fuel] replacements. *)
Definition ReplaceString (fuel : nat) (iHayStack iNeedle iReplaceWith : list Z) : option (list Z) :=
  ReplaceString_loop fuel iHayStack iNeedle iReplaceWith (str_find iHayStack iNeedle 0).

(** ** Numbers *)

Definition GetBEShort (a_Mem : list Z) : option Z :=
  b0 ← a_Mem !! 0%nat; b1 ← a_Mem !! 1%nat;
  Some (to_signed 16 (Z.lor (Z.shiftl b0 8) b1)).

Definition GetBEInt (a_Mem : list Z) : option Z :=
  b0 ← a_Mem !! 0%nat; b1 ← a_Mem !! 1%nat; b2 ← a_Mem !! 2%nat; b3 ← a_Mem !! 3%nat;
  Some (to_signed 32 (Z.lor (Z.lor (Z.lor (Z.shiftl b0 24) (Z.shiftl b1 16)) (Z.shiftl b2 8)) b3)).

Definition SetBEInt (a_Mem : list Z) (a_Value : Z) : option (list Z) :=
  write_at a_Mem 0
    [u8 (Z.shiftr a_Value 24); u8 (Z.land (Z.shiftr a_Value 16) 0xff);
     u8 (Z.land (Z.shiftr a_Value 8) 0xff); u8 (Z.land a_Value 0xff)].

(** ** UTF *)

(** What the loop of [RawBEToUTF8] appends for one unit. *)
Definition RawBEToUTF8_char (c : Z) : list Z :=
  if c <? 0x80 then [u8 c]
  else if c <? 0x800 then [u8 (192 + Z.quot c 64); u8 (128 + Z.rem c 64)]
  else if c - 0xd800 <? 0x800 then []
  else if c <? 0x10000 then
    [u8 (224 + Z.quot c 4096); u8 (128 + Z.rem (Z.quot c 64) 64); u8 (128 + Z.rem c 64)]
  else if c <? 0x110000 then
    [u8 (240 + Z.quot c 262144); u8 (128 + Z.rem (Z.quot c 4096) 64);
     u8 (128 + Z.rem (Z.quot c 64) 64); u8 (128 + Z.rem c 64)]
  else [].

Fixpoint RawBEToUTF8 (a_RawData : list Z) (a_NumShorts : nat) (a_UTF8 : list Z) : option (list Z) :=
  match a_NumShorts with
  | O => Some a_UTF8
  | S n => c ← GetBEShort a_RawData;
           RawBEToUTF8 (drop 2 a_RawData) n (a_UTF8 ++ RawBEToUTF8_char c)
  end.

Definition UNI_MAX_BMP : Z := 0x0000FFFF.
Definition UNI_MAX_UTF16 : Z := 0x0010FFFF.
Definition UNI_SUR_HIGH_START : Z := 0xD800.
Definition UNI_SUR_LOW_START : Z := 0xDC00.
Definition UNI_SUR_LOW_END : Z := 0xDFFF.

Definition trailingBytesForUTF8 : list Z :=
  repeat 0 192 ++ repeat 1 32 ++ repeat 2 16 ++ repeat 3 8 ++ repeat 4 4 ++ repeat 5 4.

Definition offsetsFromUTF8 : list Z :=
  [0x00000000; 0x00003080; 0x000E2080; 0x03C82080; 0xFA082080; 0x82082080].

(** The [length] bytes at [source], which the caller has checked to be there. *)
Definition isLegalUTF8 (source : list Z) (len : nat) : bool :=
  let at_ i := default 0 (source !! i) in
  let s0 := at_ 0%nat in
  let trail a := negb ((a <? 0x80) || (0xbf <? a)) in
  let case1 := negb ((0x80 <=? s0) && (s0 <? 0xc2)) in
  let case2 :=
    let a := at_ 1%nat in
    negb (0xbf <? a) &&
    (if s0 =? 0xe0 then negb (a <? 0xa0)
     else if s0 =? 0xed then negb (0x9f <? a)
     else if s0 =? 0xf0 then negb (a <? 0x90)
     else if s0 =? 0xf4 then negb (0x8f <? a)
     else negb (a <? 0x80)) && case1 in
  match len with
  | 4%nat => trail (at_ 3%nat) && trail (at_ 2%nat) && case2
  | 3%nat => trail (at_ 2%nat) && case2
  | 2%nat => case2
  | 1%nat => case1
  | _ => false
  end && negb (0xf4 <? s0).

(** The fall-through switch: [ch += *source++] for each byte, shifted left in between. *)
Fixpoint utf8_sum (ch : Z) (bs : list Z) : Z :=
  match bs with
  | [] => ch
  | [b] => u32 (ch + b)
  | b :: bs => utf8_sum (u32 (Z.shiftl (u32 (ch + b)) 6)) bs
  end.

(** The units appended for the decoded character. *)
Definition utf16_units (ch : Z) : list Z :=
  if ch <=? UNI_MAX_BMP then
    let ch := if (UNI_SUR_HIGH_START <=? ch) && (ch <=? UNI_SUR_LOW_END) then 32 else ch in
    [htons (u16 ch)]
  else if UNI_MAX_UTF16 <? ch then [htons 32]
  else
    let ch := ch - 0x0010000 in
    [htons (u16 (Z.shiftr ch 10 + UNI_SUR_HIGH_START));
     htons (u16 (Z.land ch 0x3ff + UNI_SUR_LOW_START))].

Fixpoint UTF8ToRawBEUTF16_loop (fuel : nat) (source : list Z) (UTF16 : list Z) : option (list Z) :=
  match source with
  | [] => Some UTF16
  | c :: _ =>
    match fuel with
    | O => None
    | S fuel =>
      let extraBytesToRead := Z.to_nat (default 0 (trailingBytesForUTF8 !! Z.to_nat c)) in
      if (length source <=? extraBytesToRead)%nat then Some UTF16 else
      if negb (isLegalUTF8 source (extraBytesToRead + 1)) then Some UTF16 else
      let ch := utf8_sum 0 (take (extraBytesToRead + 1) source) in
      let ch := u32 (ch - default 0 (offsetsFromUTF8 !! extraBytesToRead)) in
      UTF8ToRawBEUTF16_loop fuel (drop (extraBytesToRead + 1) source) (UTF16 ++ utf16_units ch)
    end
  end.

(** Every round consumes a byte. *)
Definition UTF8ToRawBEUTF16 (a_UTF8 : list Z) : option (list Z) :=
  UTF8ToRawBEUTF16_loop (length a_UTF8) a_UTF8 [].

(** ** Escaping and decoding *)

Definition must_escape (ch : Z) : bool := (ch =? 39) || (ch =? 34) || (ch =? 92).

(** [rest] is the message from position [i] on. *)
Fixpoint EscapeString_loop (a_Message rest : list Z) (i last : nat) (EscapedMsg : list Z) : list Z :=
  match rest with
  | [] => if (last <? length a_Message)%nat
          then EscapedMsg ++ substr a_Message last (length a_Message - last) else EscapedMsg
  | ch :: rest =>
    if must_escape ch then
      let EscapedMsg := if (last <? i)%nat then EscapedMsg ++ substr a_Message last (i - last)
                        else EscapedMsg in
      EscapeString_loop a_Message rest (i + 1) (i + 1) (EscapedMsg ++ [92; ch])
    else EscapeString_loop a_Message rest (i + 1) last EscapedMsg
  end.

Definition EscapeString (a_Message : list Z) : list Z :=
  EscapeString_loop a_Message a_Message 0 0 [].

Fixpoint StripColorCodes_loop (fuel : nat) (res : list Z) (idx : nat) : option (list Z) :=
  match fuel with
  | O => None
  | S fuel =>
    match str_find res [0xc2; 0xa7] idx with
    | None => Some res
    | Some idx => StripColorCodes_loop fuel (take idx res ++ drop (idx + 3) res) idx
    end
  end.

(** Every round erases at least the two bytes it found. *)
Definition StripColorCodes (a_Message : list Z) : option (list Z) :=
  StripColorCodes_loop (S (length a_Message)) a_Message 0.

Definition url_hi (hi : Z) : option Z :=
  if (48 <=? hi) && (hi <=? 57) then Some (hi - 48)
  else if (97 <=? hi) && (hi <=? 102) then Some (hi - 97 + 10)
  else if (65 <=? hi) && (hi <=? 70) then Some (hi - 70 + 10)
  else None.

Definition url_lo (lo : Z) : option Z :=
  if (48 <=? lo) && (lo <=? 57) then Some (lo - 48)
  else if (97 <=? lo) && (lo <=? 102) then Some (lo - 97 + 10)
  else if (65 <=? lo) && (lo <=? 70) then Some (lo - 65 + 10)
  else None.

(** [len - 3] is computed on a 64-bit size_t; [fuel] is the number of bytes left. *)
Fixpoint URLDecode_loop (fuel : nat) (a_String : list Z) (i : nat) (res : list Z) : option (list Z) :=
  match fuel with
  | O => Some res
  | S fuel =>
    if negb (i <? length a_String)%nat then Some res else
    ch ← a_String !! i;
    if negb (ch =? 37) || (u64 (Z.of_nat (length a_String) - 3) <? Z.of_nat i)
    then URLDecode_loop fuel a_String (i + 1) (res ++ [ch]) else
    hi ← char_at a_String (i + 1);
    lo ← char_at a_String (i + 2);
    match url_hi hi, url_lo lo with
    | Some hi, Some lo =>
        URLDecode_loop fuel a_String (i + 3) (res ++ [u8 (Z.lor (Z.shiftl hi 4) lo)])
    | _, _ => URLDecode_loop fuel a_String (i + 1) (res ++ [ch])
    end
  end.

Definition URLDecode (a_String : list Z) : option (list Z) :=
  URLDecode_loop (length a_String) a_String 0 [].

Definition ReplaceAllCharOccurrences (a_String : list Z) (a_From a_To : Z) : list Z :=
  map (fun c => if c =? a_From then a_To else c) a_String.

(** ** Base64 *)

Definition UnBase64 (c : Z) : Z :=
  if (65 <=? c) && (c <=? 90) then c - 65
  else if (97 <=? c) && (c <=? 122) then c - 97 + 26
  else if (48 <=? c) && (c <=? 57) then c - 48 + 52
  else if c =? 43 then 62
  else if c =? 47 then 63
  else if c =? 61 then -1
  else -2.

(** [res[i] |= x]. *)
Definition or_at (res : list Z) (i : nat) (x : Z) : option (list Z) :=
  b ← res !! i; Some (<[i := u8 (Z.lor b x)]> res).

Fixpoint Base64Decode_loop (s : list Z) (o : Z) (res : list Z) : option (list Z) :=
  match s with
  | [] => Some (take (Z.to_nat (Z.shiftr o 3)) res)
  | ch :: s =>
    let c := UnBase64 ch in
    let k := Z.to_nat (Z.shiftr o 3) in
    '(o, res) ←
      (if 0 <=? c then
         res ← (match Z.land o 7 with
                | 0 => or_at res k (Z.shiftl c 2)
                | 6 => res ← or_at res k (Z.shiftr c 4); or_at res (k + 1) (Z.shiftl c 4)
                | 4 => res ← or_at res k (Z.shiftr c 2); or_at res (k + 1) (Z.shiftl c 6)
                | 2 => or_at res k c
                | _ => Some res
                end);
         Some (o + 6, res)
       else Some (o, res));
    if c =? -1 then Some (take (Z.to_nat (Z.shiftr o 3)) res)
    else Base64Decode_loop s o res
  end.

Definition Base64Decode (a_Base64String : list Z) : option (list Z) :=
  Base64Decode_loop a_Base64String 0
    (repeat 0 ((length a_Base64String * 4) / 3 + 5)).

Definition BASE64 : list Z :=
  map Z.of_nat (seq 65 26 ++ seq 97 26 ++ seq 48 10) ++ [43; 47].

Definition b64 (x : Z) : Z := default 0 (BASE64 !! Z.to_nat x).

(** Three input bytes at a time, then the one or two that are left. *)
Fixpoint Base64Encode (a_Input : list Z) : list Z :=
  match a_Input with
  | a :: b :: c :: rest =>
      b64 (Z.shiftr a 2) ::
      b64 (Z.land (Z.lor (Z.shiftl a 4) (Z.shiftr b 4)) 63) ::
      b64 (Z.land (Z.lor (Z.shiftl b 2) (Z.shiftr c 6)) 63) ::
      b64 (Z.land c 63) :: Base64Encode rest
  | [a] => [b64 (Z.shiftr a 2); b64 (Z.land (Z.shiftl a 4) 63); 61; 61]
  | [a; b] =>
      [b64 (Z.shiftr a 2); b64 (Z.land (Z.lor (Z.shiftl a 4) (Z.shiftr b 4)) 63);
       b64 (Z.land (Z.shiftl b 2) 63); 61]
  | [] => []
  end.

(** ** Vectors of strings *)

Fixpoint SplitZeroTerminatedStrings_loop (a_Strings rest : list Z) (start i : nat)
    (a_Output : list (list Z)) (res : bool) : list (list Z) * bool :=
  match rest with
  | [] =>
      if (start <? length a_Strings)%nat
      then (a_Output ++ [substr a_Strings start (length a_Strings - start)], true)
      else (a_Output, res)
  | c :: rest =>
      if c =? 0
      then SplitZeroTerminatedStrings_loop a_Strings rest (i + 1) (i + 1)
             (a_Output ++ [substr a_Strings start (i - start)]) true
      else SplitZeroTerminatedStrings_loop a_Strings rest start (i + 1) a_Output res
  end.

Definition SplitZeroTerminatedStrings (a_Strings : list Z) : list (list Z) * bool :=
  SplitZeroTerminatedStrings_loop a_Strings a_Strings 0 0 [] false.

Definition MergeStringVectors (a_Strings1 a_Strings2 : list (list Z)) : list (list Z) :=
  fold_left (fun res item => if decide (item ∈ res) then res else res ++ [item])
    a_Strings2 a_Strings1.

Definition StringsConcat (a_Strings : list (list Z)) (a_Separator : Z) : list Z :=
  match a_Strings with
  | [] => []
  | s :: rest => fold_left (fun res item => res ++ [a_Separator] ++ item) rest s
  end.

(** ** Splitting: the fields between delimiters *)

(** Every field, the empty ones and the last one included. *)
Fixpoint fields (d : Z -> bool) (s : list Z) : list (list Z) :=
  match s with
  | [] => [[]]
  | c :: s =>
    if d c then [] :: fields d s
    else match fields d s with f :: fs => (c :: f) :: fs | [] => [[c]] end
  end.

(** An empty last field is not reported. *)
Fixpoint drop_empty_last (fs : list (list Z)) : list (list Z) :=
  match fs with
  | [] => []
  | [f] => if decide (f = []) then [] else [f]
  | f :: fs => f :: drop_empty_last fs
  end.

Lemma fields_nonempty d s : fields d s <> [].
Proof. destruct s; simpl; [congruence|]. destruct (d z); [congruence|]. destruct (fields d s); congruence. Qed.

Lemma drop_empty_last_cons f fs :
  fs <> [] -> drop_empty_last (f :: fs) = f :: drop_empty_last fs.
Proof. destruct fs; [congruence | reflexivity]. Qed.

Lemma fields_index d s :
  match index_of d s with
  | Some k => (k < length s)%nat /\ fields d s = take k s :: fields d (drop (S k) s)
  | None => fields d s = [s]
  end.
Proof.
  induction s as [|c s IH]; [reflexivity|]. cbn [index_of fields]. destruct (d c) eqn:Ec.
  - split; [simpl; lia|]. simpl. rewrite drop_0. reflexivity.
  - destruct (index_of d s) as [k|]; simpl.
    + destruct IH as [Hk IH]. split; [lia|]. rewrite IH. reflexivity.
    + rewrite IH. reflexivity.
Qed.

(** What one round of the three splitting loops finds. *)
Lemma find_first_of_fields str delim Prev :
  match find_first_of str delim Prev with
  | Some cutAt => (Prev <= cutAt < length str)%nat /\
      fields (char_in delim) (drop Prev str) =
        substr str Prev (cutAt - Prev) :: fields (char_in delim) (drop (cutAt + 1) str)
  | None => fields (char_in delim) (drop Prev str) = [drop Prev str]
  end.
Proof.
  unfold find_first_of, substr. pose proof (fields_index (char_in delim) (drop Prev str)) as H.
  destruct (index_of _ _) as [k|]; simpl; [|exact H]. destruct H as [Hk H].
  rewrite length_drop in Hk. split; [lia|]. rewrite H, drop_drop. do 3 f_equal; lia.
Qed.

Lemma drop_empty_last_one f : f <> [] -> drop_empty_last [f] = [f].
Proof. intros H. simpl. destruct (decide (f = [])); [contradiction | reflexivity]. Qed.

Lemma StringSplit_loop_spec fuel str delim results Prev :
  (length str - Prev < fuel)%nat ->
  StringSplit_loop fuel str delim results Prev =
    Some (results ++ drop_empty_last (fields (char_in delim) (drop Prev str))).
Proof.
  revert results Prev. induction fuel as [|fuel IH]; intros results Prev Hf; [lia|].
  cbn [StringSplit_loop]. pose proof (find_first_of_fields str delim Prev) as H.
  destruct (find_first_of str delim Prev) as [cutAt|].
  - destruct H as [Hc ->]. rewrite IH by lia.
    rewrite drop_empty_last_cons by apply fields_nonempty. rewrite <- app_assoc. reflexivity.
  - rewrite H. destruct (Nat.ltb_spec Prev (length str)) as [Hlt|Hge].
    + rewrite drop_empty_last_one; [reflexivity|].
      intros E%(f_equal length). rewrite length_drop in E. simpl in E. lia.
    + rewrite drop_ge by lia. simpl. rewrite app_nil_r. reflexivity.
Qed.

Lemma StringSplitAndTrim_loop_spec fuel str delim results Prev :
  (length str - Prev < fuel)%nat ->
  StringSplitAndTrim_loop fuel str delim results Prev =
    Some (results ++ map TrimString (drop_empty_last (fields (char_in delim) (drop Prev str)))).
Proof.
  revert results Prev. induction fuel as [|fuel IH]; intros results Prev Hf; [lia|].
  cbn [StringSplitAndTrim_loop]. pose proof (find_first_of_fields str delim Prev) as H.
  destruct (find_first_of str delim Prev) as [cutAt|].
  - destruct H as [Hc ->]. rewrite IH by lia.
    rewrite drop_empty_last_cons by apply fields_nonempty. rewrite <- app_assoc. reflexivity.
  - rewrite H. destruct (Nat.ltb_spec Prev (length str)) as [Hlt|Hge].
    + rewrite drop_empty_last_one; [reflexivity|].
      intros E%(f_equal length). rewrite length_drop in E. simpl in E. lia.
    + rewrite drop_ge by lia. simpl. rewrite app_nil_r. reflexivity.
Qed.

(** At most [n] cuts, when [n] is given. *)
Fixpoint fields_upto (n : nat) (d : Z -> bool) (s : list Z) : list (list Z) :=
  match n with
  | O => [s]
  | S n => match index_of d s with
           | Some k => take k s :: fields_upto n d (drop (S k) s)
           | None => [s]
           end
  end.

Lemma fields_upto_nonempty n d s : fields_upto n d s <> [].
Proof. destruct n; simpl; [|destruct (index_of d s)]; congruence. Qed.

Lemma fields_upto_all n d s : (length s <= n)%nat -> fields_upto n d s = fields d s.
Proof.
  revert s. induction n as [|n IH]; intros s Hn.
  - destruct s; [reflexivity | simpl in Hn; lia].
  - cbn [fields_upto]. pose proof (fields_index d s) as H.
    destruct (index_of d s) as [k|]; [|congruence]. destruct H as [Hk ->].
    rewrite IH by (rewrite length_drop; lia). reflexivity.
Qed.

Lemma drop_empty_last_remaining s :
  (if (0 <? length s)%nat then [s] else []) = drop_empty_last [s].
Proof.
  destruct s as [|c s]; [reflexivity|]. rewrite drop_empty_last_one by discriminate. reflexivity.
Qed.

Lemma SplitOneOf_loop_spec fuel delims maxSplits remaining results splits :
  (length remaining < fuel)%nat -> (splits <= maxSplits \/ maxSplits = 0)%nat ->
  SplitOneOf_loop fuel delims maxSplits remaining results splits =
    Some (results ++ drop_empty_last
      (fields_upto (if decide (maxSplits = 0)%nat then length remaining else maxSplits - splits)
         (char_in delims) remaining)).
Proof.
  revert remaining results splits.
  induction fuel as [|fuel IH]; intros remaining results splits Hf Hs; [lia|].
  cbn [SplitOneOf_loop].
  assert (E : (if (maxSplits =? 0)%nat || (splits <? maxSplits)%nat
               then find_first_of remaining delims 0 else None) =
    if decide (maxSplits <> 0 /\ splits = maxSplits)%nat then None
    else index_of (char_in delims) remaining).
  { unfold find_first_of. rewrite drop_0.
    destruct (Nat.eqb_spec maxSplits 0), (Nat.ltb_spec splits maxSplits); cbn [orb]; try lia;
      destruct (decide (maxSplits <> 0 /\ splits = maxSplits)%nat); try lia;
      try destruct (index_of (char_in delims) remaining); reflexivity. }
  rewrite E. case_decide as Hd.
  - destruct Hd as [Hd ->]. rewrite decide_False, Nat.sub_diag by assumption. cbn [fields_upto].
    rewrite <- drop_empty_last_remaining. destruct (0 <? _)%nat; [reflexivity|].
    rewrite app_nil_r. reflexivity.
  - pose proof (fields_index (char_in delims) remaining) as H.
    set (n := if decide (maxSplits = 0%nat) then _ else _).
    destruct (index_of (char_in delims) remaining) as [pos|] eqn:Ei.
    + destruct H as [Hk _]. rewrite IH; [|unfold substr_from; rewrite length_drop; lia|lia].
      assert (Hn : exists m, n = S m).
      { unfold n. case_decide; [exists (length remaining - 1)%nat | exists (maxSplits - splits - 1)%nat]; lia. }
      destruct Hn as [m Hm]. rewrite Hm. cbn [fields_upto]. rewrite Ei.
      rewrite drop_empty_last_cons by apply fields_upto_nonempty. rewrite <- app_assoc.
      unfold substr, substr_from. rewrite drop_0, Nat.add_1_r. do 4 f_equal.
      unfold n in Hm. case_decide as Hz.
      * rewrite !fields_upto_all; [reflexivity | rewrite length_drop; lia | lia].
      * f_equal. lia.
    + assert (Hr : fields_upto n (char_in delims) remaining = [remaining]).
      { destruct n; [reflexivity|]. cbn [fields_upto]. rewrite Ei. reflexivity. }
      rewrite Hr, <- drop_empty_last_remaining. destruct (0 <? _)%nat; [reflexivity|].
      rewrite app_nil_r. reflexivity.
Qed.

Lemma fields_no_delim d s : Forall (fun f => forallb (fun c => negb (d c)) f = true) (fields d s).
Proof.
  induction s as [|c s IH]; [repeat constructor|]. cbn [fields].
  destruct (d c) eqn:Ec; [constructor; [reflexivity | assumption]|].
  destruct (fields d s) as [|f fs]; inversion IH; subst; constructor; auto;
    cbn [forallb]; rewrite Ec; auto.
Qed.

Lemma drop_empty_last_incl (P : list Z -> Prop) fs : Forall P fs -> Forall P (drop_empty_last fs).
Proof.
  induction 1 as [|f fs Hf Hfs IH]; [constructor|].
  destruct fs as [|g fs]; [simpl; case_decide; auto|].
  rewrite drop_empty_last_cons by discriminate. constructor; assumption.
Qed.

(** Splitting: [StringSplit] terminates and returns the fields between delimiter characters,
    none containing a delimiter, empty fields included except an empty last one;
    [SplitOneOf] without a limit returns the same, with a limit it stops cutting after
    that many fields; [StringSplitAndTrim] trims the same fields. *)
Theorem string_split_spec (str delim : list Z) (maxSplits : nat) :
  let result := drop_empty_last (fields (char_in delim) str) in
  StringSplit str delim = Some result /\
  SplitOneOf str delim 0 = Some result /\
  StringSplitAndTrim str delim = Some (map TrimString result) /\
  Forall (fun f => forallb (fun c => negb (char_in delim c)) f = true) result /\
  ((0 < maxSplits)%nat ->
   SplitOneOf str delim maxSplits =
     Some (drop_empty_last (fields_upto maxSplits (char_in delim) str))).
Proof.
  cbv zeta. split_and!.
  - unfold StringSplit. rewrite StringSplit_loop_spec by lia. reflexivity.
  - unfold SplitOneOf. rewrite SplitOneOf_loop_spec by lia. rewrite decide_True by reflexivity.
    rewrite fields_upto_all by lia. reflexivity.
  - unfold StringSplitAndTrim. rewrite StringSplitAndTrim_loop_spec by lia. reflexivity.
  - apply drop_empty_last_incl, fields_no_delim.
  - intros Hm. unfold SplitOneOf. rewrite SplitOneOf_loop_spec by lia.
    rewrite decide_False, Nat.sub_0_r by lia. reflexivity.
Qed.

Lemma string_split_spec_witness :
  SplitOneOf [49; 44; 50; 44; 51] [44] 1 = Some [[49]; [50; 44; 51]].
Proof. apply (string_split_spec [49; 44; 50; 44; 51] [44] 1). lia. Defined.

(** ** Joining *)

Lemma StringsConcat_cons sep f fs :
  fs <> [] -> StringsConcat (f :: fs) sep = f ++ [sep] ++ StringsConcat fs sep.
Proof.
  destruct fs as [|g fs]; [congruence|]. intros _. cbn [StringsConcat fold_left].
  assert (H : forall a b, fold_left (fun res item => res ++ [sep] ++ item) fs (a ++ b) =
                          a ++ fold_left (fun res item => res ++ [sep] ++ item) fs b).
  { induction fs as [|h fs IH]; intros a b; cbn [fold_left]; [reflexivity|].
    rewrite <- app_assoc, IH. reflexivity. }
  rewrite !H. reflexivity.
Qed.

Lemma StringsConcat_fields sep s : StringsConcat (fields (char_in [sep]) s) sep = s.
Proof.
  induction s as [|c s IH]; [reflexivity|]. cbn [fields]. unfold char_in at 1. cbn [existsb].
  rewrite orb_false_r. destruct (Z.eqb_spec c sep) as [->|Hne].
  - rewrite StringsConcat_cons, IH by apply fields_nonempty. reflexivity.
  - destruct (fields (char_in [sep]) s) as [|f fs] eqn:E; [destruct (fields_nonempty _ _ E)|].
    destruct fs as [|g fs].
    + simpl in *. congruence.
    + rewrite StringsConcat_cons in IH |- * by discriminate. simpl in *. congruence.
Qed.

Lemma StringsConcat_drop_last sep fs :
  fs <> [] ->
  StringsConcat (drop_empty_last fs) sep = StringsConcat fs sep \/
  StringsConcat (drop_empty_last fs) sep ++ [sep] = StringsConcat fs sep \/
  fs = [[]].
Proof.
  induction fs as [|f fs IH]; [congruence|]. intros _. destruct fs as [|g fs].
  - simpl. case_decide; subst; auto.
  - rewrite drop_empty_last_cons, (StringsConcat_cons _ f (g :: fs)) by discriminate.
    specialize (IH ltac:(discriminate)).
    destruct (drop_empty_last (g :: fs)) as [|h hs] eqn:E.
    + assert (g :: fs = [[]]) as ->.
      { destruct fs; [|rewrite drop_empty_last_cons in E by discriminate; discriminate].
        simpl in E. case_decide; [congruence | discriminate]. }
      right. left. reflexivity.
    + rewrite StringsConcat_cons by discriminate.
      destruct IH as [-> | [<- | [= -> ->]]].
      * left. reflexivity.
      * right. left. simpl. rewrite <- app_assoc. reflexivity.
      * simpl in E. discriminate.
Qed.

(** Joining undoes splitting: [StringsConcat] of the fields [StringSplit] cut at a separator
    is the string again, or the string without its last separator. *)
Theorem split_concat (str : list Z) (sep : Z) :
  exists l, StringSplit str [sep] = Some l /\
    (StringsConcat l sep = str \/ StringsConcat l sep ++ [sep] = str).
Proof.
  exists (drop_empty_last (fields (char_in [sep]) str)).
  split; [apply (string_split_spec str [sep] 0)|].
  pose proof (StringsConcat_drop_last sep _ (fields_nonempty (char_in [sep]) str)) as H.
  rewrite StringsConcat_fields in H. destruct H as [H | [H | H]]; auto.
  left. rewrite H. pose proof (StringsConcat_fields sep str) as E. rewrite H in E. exact E.
Qed.

Lemma split_concat_witness : exists l,
  StringSplit [49; 44; 44; 50; 44] [44] = Some l /\
  (StringsConcat l 44 = [49; 44; 44; 50; 44] \/ StringsConcat l 44 ++ [44] = [49; 44; 44; 50; 44]).
Proof. apply split_concat. Defined.

(** ** Trimming *)

Definition blank (c : Z) : bool := negb (32 <? schar c).

Fixpoint skip_while (p : Z -> bool) (s : list Z) : list Z :=
  match s with
  | c :: s' => if p c then skip_while p s' else s
  | [] => []
  end.

Lemma skip_while_suffix p s : exists pre, s = pre ++ skip_while p s /\ forallb p pre = true.
Proof.
  induction s as [|c s (pre & E & Hp)]; [exists []; auto|]. cbn [skip_while].
  destruct (p c) eqn:Ec; [|exists []; auto].
  exists (c :: pre). split; [simpl; congruence|]. cbn [forallb]. rewrite Ec. exact Hp.
Qed.

Lemma TrimString_start_spec fuel str start :
  (length str - start < fuel)%nat -> (start <= length str)%nat ->
  let r := TrimString_start fuel str start in
  (start <= r <= length str)%nat /\ drop r str = skip_while blank (drop start str).
Proof.
  revert start. induction fuel as [|fuel IH]; intros start Hf Hs; [lia|].
  cbn [TrimString_start]. destruct (Nat.ltb_spec start (length str)) as [Hlt|Hge].
  - destruct (lookup_lt_is_Some_2 str start Hlt) as [c Hc]. rewrite Hc. cbn [default from_option].
    rewrite (drop_S _ _ _ Hc). cbn [skip_while]. unfold blank. change (id c) with c.
    destruct (32 <? schar c).
    + split; [lia|]. apply drop_S. assumption.
    + destruct (IH (start + 1)%nat ltac:(lia) ltac:(lia)) as [Hr ->].
      split; [lia|]. rewrite Nat.add_1_r. reflexivity.
  - split; [lia|]. rewrite drop_ge by lia. reflexivity.
Qed.

(** The backward scan stops at the last character that is not blank. *)
Lemma TrimString_end_spec fuel str start end_ k c :
  (end_ - start < fuel)%nat -> (start <= k <= end_)%nat -> str !! k = Some c ->
  blank c = false -> (end_ <= length str)%nat ->
  let r := TrimString_end fuel str start end_ in
  (k <= r <= end_)%nat /\ (r < length str)%nat /\
  (exists c, str !! r = Some c /\ blank c = false) /\
  (forall i x, (r < i <= end_)%nat -> str !! i = Some x -> blank x = true).
Proof.
  revert end_. induction fuel as [|fuel IH]; intros end_ Hf Hk Hc Hb He; [lia|].
  cbn [TrimString_end]. destruct (Nat.leb_spec start end_); [|lia].
  pose proof (lookup_lt_Some _ _ _ Hc) as Hlk.
  assert (Hstep : forall b, char_at str end_ = Some b -> blank b = true -> end_ <> k ->
    let r := TrimString_end fuel str start (end_ - 1) in
    (k <= r <= end_)%nat /\ (r < length str)%nat /\
    (exists c, str !! r = Some c /\ blank c = false) /\
    (forall i x, (r < i <= end_)%nat -> str !! i = Some x -> blank x = true)).
  { intros b Hb1 Hb2 Hne. destruct (IH (end_ - 1)%nat) as (H1 & H2 & H3 & H4); try lia; auto.
    split_and!; try assumption; try lia. intros i x Hi Hx.
    destruct (decide (i = end_)) as [->|]; [|apply (H4 i x); [lia | assumption]].
    unfold char_at in Hb1. pose proof (lookup_lt_Some _ _ _ Hx).
    destruct (Nat.eqb_spec end_ (length str)); [lia | congruence]. }
  destruct (char_at str end_) as [b|] eqn:Eb.
  - change (default 0 (Some b)) with b. destruct (32 <? schar b) eqn:Hb'.
    + unfold char_at in Eb. destruct (Nat.eqb_spec end_ (length str)) as [E|E].
      * simplify_eq.
      * pose proof (lookup_lt_Some _ _ _ Eb). split_and!; try lia.
        exists b. unfold blank. rewrite Hb'. auto.
    + apply (Hstep b); auto; [unfold blank; rewrite Hb'; reflexivity|].
      intros ->. unfold char_at in Eb. destruct (Nat.eqb_spec k (length str)); [lia|].
      rewrite Hc in Eb. simplify_eq. unfold blank in Hb. rewrite Hb' in Hb. discriminate.
  - unfold char_at in Eb. destruct (Nat.eqb_spec end_ (length str)); [discriminate|].
    apply lookup_ge_None in Eb. lia.
Qed.

Lemma skip_while_head p s : match skip_while p s with [] => True | c :: _ => p c = false end.
Proof. induction s as [|c s IH]; simpl; [exact I|]. destruct (p c) eqn:E; auto. Qed.

Lemma forallb_blank_drop str r :
  (forall i x, (r <= i)%nat -> str !! i = Some x -> blank x = true) ->
  forallb blank (drop r str) = true.
Proof.
  intros H. apply List.forallb_forall. intros x Hx%list_elem_of_In.
  apply list_elem_of_lookup in Hx as [i Hi]. rewrite lookup_drop in Hi. eapply H; [|exact Hi]; lia.
Qed.

(** [TrimString] removes exactly the blank prefix and the blank suffix: what is left starts
    and ends with a character that is not blank, or nothing is left of a blank string.
    Blank is [<= 32] on a signed [char]: control characters, the space and every byte
    from 0x80 on, so also the bytes of non-ASCII UTF-8 characters. *)
Theorem trim_spec (str : list Z) :
  exists pre post, str = pre ++ TrimString str ++ post /\
    forallb blank pre = true /\ forallb blank post = true /\
    match TrimString str with
    | [] => True
    | c :: _ => blank c = false /\ blank (default 32 (last (TrimString str))) = false
    end.
Proof.
  pose proof (TrimString_start_spec (S (length str)) str 0 ltac:(lia) ltac:(lia)) as H.
  cbv zeta in H. rewrite drop_0 in H. destruct H as [Hs Es]. unfold TrimString.
  set (start := TrimString_start _ _ _) in *.
  destruct (skip_while_suffix blank str) as (pre & Epre & Hpre). rewrite <- Es in Epre.
  assert (Hpre' : pre = take start str).
  { pose proof (f_equal length Epre) as L. rewrite length_app, length_drop in L.
    apply (f_equal (take start)) in Epre. rewrite take_app_length' in Epre by lia. congruence. }
  destruct (Nat.eqb_spec start (length str)) as [E|E].
  - exists str, []. rewrite drop_ge, app_nil_r in Epre by lia. rewrite app_nil_r.
    split_and!; auto. rewrite Epre. exact Hpre.
  - pose proof (skip_while_head blank str) as Hh. rewrite <- Es in Hh.
    destruct (lookup_lt_is_Some_2 str start ltac:(lia)) as [c Hc].
    rewrite (drop_S _ _ _ Hc) in Hh.
    destruct (TrimString_end_spec (S (length str)) str start (length str) start c)
      as (H1 & H2 & (d & Hd & Hdb) & H4); try lia; auto.
    set (end_ := TrimString_end _ _ _ _) in *.
    exists (take start str), (drop (end_ + 1) str). unfold substr.
    assert (Hsplit : drop start str = take (end_ - start + 1) (drop start str) ++ drop (end_ + 1) str).
    { rewrite <- (take_drop (end_ - start + 1) (drop start str)) at 1. rewrite drop_drop.
      do 2 f_equal. lia. }
    split_and!.
    + rewrite <- Hsplit, take_drop. reflexivity.
    + rewrite <- Hpre'. exact Hpre.
    + apply forallb_blank_drop. intros i x Hi Hx. apply (H4 i x); [|assumption].
      pose proof (lookup_lt_Some _ _ _ Hx). lia.
    + rewrite (drop_S _ _ _ Hc). rewrite Nat.add_1_r. cbn [firstn].
      split; [exact Hh|]. change (c :: take (end_ - start) (drop (S start) str)) with
        (take (S (end_ - start)) (c :: drop (S start) str)).
      rewrite <- (drop_S _ _ _ Hc), last_lookup, length_take, length_drop.
      rewrite lookup_take_lt, lookup_drop by lia.
      replace (start + _)%nat with end_ by lia. rewrite Hd. exact Hdb.
Qed.

(** ** Escaping *)

Definition escape_char (c : Z) : list Z := if must_escape c then [92; c] else [c].

Fixpoint unescape (s : list Z) : list Z :=
  match s with
  | 92 :: c :: s => c :: unescape s
  | c :: s => c :: unescape s
  | [] => []
  end.

Lemma EscapeString_loop_spec a_Message rest i last acc :
  (last <= i)%nat -> drop i a_Message = rest ->
  EscapeString_loop a_Message rest i last acc =
    acc ++ substr a_Message last (i - last) ++ concat (map escape_char rest).
Proof.
  revert i last acc. induction rest as [|ch rest IH]; intros i last acc Hl Hd;
    cbn [EscapeString_loop map concat].
  - assert (Hlen : (length a_Message <= i)%nat).
    { apply (f_equal length) in Hd. rewrite length_drop in Hd. simpl in Hd. lia. }
    rewrite app_nil_r. unfold substr.
    destruct (Nat.ltb_spec last (length a_Message)).
    + f_equal. rewrite !take_ge; [reflexivity | rewrite length_drop; lia..].
    + rewrite drop_ge, take_nil, app_nil_r by lia. reflexivity.
  - assert (Hc : a_Message !! i = Some ch).
    { rewrite <- (Nat.add_0_r i), <- lookup_drop, Hd. reflexivity. }
    assert (Hd' : drop (i + 1) a_Message = rest) by (rewrite <- drop_drop, Hd; reflexivity).
    unfold escape_char at 1. destruct (must_escape ch).
    + rewrite IH by (lia || assumption). rewrite Nat.sub_diag. unfold substr at 2.
      cbn [take app]. destruct (Nat.ltb_spec last i).
      * rewrite <- !app_assoc. reflexivity.
      * replace (i - last)%nat with 0%nat by lia. unfold substr. cbn [take app].
        rewrite <- app_assoc. reflexivity.
    + rewrite IH by (lia || assumption). f_equal. rewrite (app_assoc _ [ch]). f_equal.
      unfold substr. replace (i + 1 - last)%nat with (S (i - last)) by lia.
      apply take_S_r. rewrite lookup_drop. rewrite <- Hc. f_equal. lia.
Qed.

(** [EscapeString] puts a backslash before each quote, double quote and backslash and
    changes nothing else, so removing the backslashes gives the message back. *)
Theorem escape_spec (a_Message : list Z) :
  EscapeString a_Message = concat (map escape_char a_Message) /\
  unescape (EscapeString a_Message) = a_Message.
Proof.
  assert (E : EscapeString a_Message = concat (map escape_char a_Message))
    by (unfold EscapeString; rewrite EscapeString_loop_spec; auto).
  split; [exact E|]. rewrite E. clear E.
  induction a_Message as [|c s IH]; [reflexivity|]. cbn [map concat]. unfold escape_char at 1.
  destruct (must_escape c) eqn:Hc; cbn [app]; [cbn [unescape]; rewrite IH; reflexivity|].
  assert (Hne : c <> 92) by (intros ->; discriminate Hc).
  assert (Hu : forall l, unescape (c :: l) = c :: unescape l).
  { intros l. destruct (decide (c = 92)); [contradiction|].
    destruct c as [|p|p]; [destruct l; reflexivity| |destruct l; reflexivity].
    do 7 (destruct p as [p|p|]; try (destruct l; reflexivity)). congruence. }
  rewrite Hu, IH. reflexivity.
Qed.

(** ** Integers in memory *)

Lemma byte_lor4 b0 b1 b2 b3 :
  byte_ok b0 -> byte_ok b1 -> byte_ok b2 -> byte_ok b3 ->
  Z.lor (Z.lor (Z.lor (Z.shiftl b0 24) (Z.shiftl b1 16)) (Z.shiftl b2 8)) b3 =
  b0 * 2 ^ 24 + b1 * 2 ^ 16 + b2 * 2 ^ 8 + b3.
Proof.
  unfold byte_ok. intros. rewrite Z.lor_comm, (Z.lor_comm _ (Z.shiftl b2 8)), Z.lor_assoc.
  rewrite (lor_shift_add b3 b2 8), (Z.shiftl_mul_pow2 b2) by lia.
  rewrite (Z.lor_comm (Z.shiftl b0 24)), Z.lor_assoc.
  rewrite (lor_shift_add _ b1 16), (Z.shiftl_mul_pow2 b1) by lia.
  rewrite (lor_shift_add _ b0 24), Z.shiftl_mul_pow2 by lia. lia.
Qed.

Lemma GetBEInt_bytes b0 b1 b2 b3 m :
  byte_ok b0 -> byte_ok b1 -> byte_ok b2 -> byte_ok b3 ->
  GetBEInt (b0 :: b1 :: b2 :: b3 :: m) =
    Some (to_signed 32 (b0 * 2 ^ 24 + b1 * 2 ^ 16 + b2 * 2 ^ 8 + b3)).
Proof. intros. rewrite <- byte_lor4 by assumption. reflexivity. Qed.

(** [SetBEInt] stores a 32-bit integer that [GetBEInt] reads back, negative ones included,
    and leaves the rest of the buffer alone. *)
Theorem be_int_roundtrip (a_Mem : list Z) (a_Value : Z) :
  - 2 ^ 31 <= a_Value < 2 ^ 31 -> (4 <= length a_Mem)%nat ->
  exists m, SetBEInt a_Mem a_Value = Some m /\ GetBEInt m = Some a_Value /\
    length m = length a_Mem /\ drop 4 m = drop 4 a_Mem.
Proof.
  intros Hv Hl. destruct a_Mem as [|m0 [|m1 [|m2 [|m3 m]]]]; simpl in Hl; try lia.
  set (l := [u8 (Z.shiftr a_Value 24); u8 (Z.land (Z.shiftr a_Value 16) 0xff);
     u8 (Z.land (Z.shiftr a_Value 8) 0xff); u8 (Z.land a_Value 0xff)]).
  exists (l ++ m). split; [|split; [|split; reflexivity]].
  { unfold SetBEInt. rewrite write_at_Some by (unfold in_bounds; simpl; lia). reflexivity. }
  unfold l. cbn [app]. rewrite GetBEInt_bytes by (apply wrap_bound; lia).
  change 0xff with (Z.ones 8). rewrite !Z.land_ones, !Z.shiftr_div_pow2 by lia.
  f_equal. transitivity (to_signed 32 (wrap 32 a_Value)); [|apply to_signed_wrap; lia]. f_equal.
  unfold wrap. rewrite !Z.mod_mod by lia.
  pose proof (le_val_le_bytes 4 a_Value) as E. cbn [le_bytes le_val] in E.
  rewrite !Z.div_div in E by lia.
  change (2 ^ 8) with 256. change (2 ^ 16) with 65536. change (2 ^ 24) with 16777216.
  change (256 ^ Z.of_nat 4) with (2 ^ 32) in E.
  change (256 * 256 * 256) with 16777216 in E. change (256 * 256) with 65536 in E. lia.
Qed.

Lemma be_int_roundtrip_witness :
  exists m, SetBEInt [0; 0; 0; 0; 9] (-2) = Some m /\ GetBEInt m = Some (-2) /\
    length m = 5%nat /\ drop 4 m = [9].
Proof. apply (be_int_roundtrip [0; 0; 0; 0; 9] (-2)); simpl; lia. Defined.

(** ** Base64 *)

Lemma UnBase64_b64 x : 0 <= x < 64 -> UnBase64 (b64 x) = x.
Proof.
  intros Hx. assert (H : forallb (fun n => UnBase64 (b64 (Z.of_nat n)) =? Z.of_nat n) (seq 0 64) = true)
    by (vm_compute; reflexivity).
  rewrite List.forallb_forall in H. specialize (H (Z.to_nat x)). rewrite Z2Nat.id in H by lia.
  apply Z.eqb_eq, H, in_seq. lia.
Qed.

Lemma or_at_app l b rest i x :
  i = length l -> or_at (l ++ b :: rest) i x = Some (l ++ u8 (Z.lor b x) :: rest).
Proof.
  intros ->. unfold or_at. rewrite list_lookup_middle by reflexivity. cbn [option_bind mbind].
  rewrite insert_app_r_alt, Nat.sub_diag by lia. reflexivity.
Qed.

(** One character: the four positions of a group of three bytes that starts at [done]. *)
Lemma decode_char x o s res :
  0 <= x < 64 ->
  Base64Decode_loop (b64 x :: s) o res =
    (res ← (let k := Z.to_nat (Z.shiftr o 3) in
            match Z.land o 7 with
            | 0 => or_at res k (Z.shiftl x 2)
            | 6 => res ← or_at res k (Z.shiftr x 4); or_at res (k + 1) (Z.shiftl x 4)
            | 4 => res ← or_at res k (Z.shiftr x 2); or_at res (k + 1) (Z.shiftl x 6)
            | 2 => or_at res k x
            | _ => Some res
            end);
     Base64Decode_loop s (o + 6) res).
Proof.
  intros Hx. cbn [Base64Decode_loop]. rewrite UnBase64_b64 by assumption.
  destruct (Z.leb_spec 0 x); [|lia]. destruct (Z.eqb_spec x (-1)); [lia|]. cbv zeta.
  destruct (match Z.land o 7 with 0 => _ | _ => _ end); reflexivity.
Qed.

Lemma offset_split P r m k :
  0 <= r -> r mod 8 = m -> Z.to_nat (r / 8) = k ->
  Z.land (8 * Z.of_nat P + r) 7 = m /\
  Z.to_nat (Z.shiftr (8 * Z.of_nat P + r) 3) = (P + k)%nat.
Proof.
  intros Hr <- <-. change 7 with (Z.ones 3). rewrite Z.land_ones, Z.shiftr_div_pow2 by lia.
  change (2 ^ 3) with 8. replace (8 * Z.of_nat P + r) with (r + Z.of_nat P * 8) by lia.
  rewrite Z.mod_add, Z.div_add by lia.
  split; [reflexivity|]. pose proof (Z.div_pos r 8). lia.
Qed.

Lemma decode_0 l b rest x s :
  0 <= x < 64 ->
  Base64Decode_loop (b64 x :: s) (8 * Z.of_nat (length l)) (l ++ b :: rest) =
  Base64Decode_loop s (8 * Z.of_nat (length l) + 6) (l ++ u8 (Z.lor b (Z.shiftl x 2)) :: rest).
Proof.
  intros Hx. rewrite decode_char by assumption.
  destruct (offset_split (length l) 0 0 0) as [E1 E2]; [lia | reflexivity..|]. rewrite Z.add_0_r in E1, E2.
  cbv zeta. rewrite E1, E2. cbv iota. rewrite or_at_app by lia. reflexivity.
Qed.

Lemma decode_6 l b0 b1 rest x s :
  0 <= x < 64 ->
  Base64Decode_loop (b64 x :: s) (8 * Z.of_nat (length l) + 6) (l ++ b0 :: b1 :: rest) =
  Base64Decode_loop s (8 * Z.of_nat (length l) + 12)
    (l ++ u8 (Z.lor b0 (Z.shiftr x 4)) :: u8 (Z.lor b1 (Z.shiftl x 4)) :: rest).
Proof.
  intros Hx. rewrite decode_char by assumption.
  destruct (offset_split (length l) 6 6 0) as [E1 E2]; [lia | reflexivity..|].
  cbv zeta. rewrite E1, E2. cbv iota.
  rewrite or_at_app by lia. cbn [option_bind mbind].
  rewrite (cons_middle _ l), app_assoc, or_at_app by (rewrite length_app; simpl; lia).
  rewrite <- app_assoc, <- Z.add_assoc. reflexivity.
Qed.

Lemma decode_12 l b0 b1 b2 rest x s :
  0 <= x < 64 ->
  Base64Decode_loop (b64 x :: s) (8 * Z.of_nat (length l) + 12) (l ++ b0 :: b1 :: b2 :: rest) =
  Base64Decode_loop s (8 * Z.of_nat (length l) + 18)
    (l ++ b0 :: u8 (Z.lor b1 (Z.shiftr x 2)) :: u8 (Z.lor b2 (Z.shiftl x 6)) :: rest).
Proof.
  intros Hx. rewrite decode_char by assumption.
  destruct (offset_split (length l) 12 4 1) as [E1 E2]; [lia | reflexivity..|].
  cbv zeta. rewrite E1, E2. cbv iota.
  rewrite (cons_middle b0 l), app_assoc, or_at_app by (rewrite length_app; simpl; lia).
  cbn [option_bind mbind].
  rewrite (cons_middle _ (l ++ [b0])), app_assoc, or_at_app by (rewrite !length_app; simpl; lia).
  rewrite <- !app_assoc, <- Z.add_assoc. reflexivity.
Qed.

Lemma decode_18 l b0 b1 b2 rest x s :
  0 <= x < 64 ->
  Base64Decode_loop (b64 x :: s) (8 * Z.of_nat (length l) + 18) (l ++ b0 :: b1 :: b2 :: rest) =
  Base64Decode_loop s (8 * Z.of_nat (length l) + 24) (l ++ b0 :: b1 :: u8 (Z.lor b2 x) :: rest).
Proof.
  intros Hx. rewrite decode_char by assumption.
  destruct (offset_split (length l) 18 2 2) as [E1 E2]; [lia | reflexivity..|].
  cbv zeta. rewrite E1, E2. cbv iota.
  rewrite (cons_middle b0 l), app_assoc, (cons_middle b1), app_assoc,
    or_at_app by (rewrite !length_app; simpl; lia).
  rewrite <- !app_assoc, <- Z.add_assoc. reflexivity.
Qed.

Lemma base64_byte0 a b :
  byte_ok a -> byte_ok b ->
  u8 (Z.lor (u8 (Z.lor 0 (Z.shiftl (Z.shiftr a 2) 2)))
    (Z.shiftr (Z.land (Z.lor (Z.shiftl a 4) (Z.shiftr b 4)) 63) 4)) = a.
Proof. intros Ha Hb. byte_bits. Qed.

Lemma base64_byte1 a b c :
  byte_ok a -> byte_ok b -> byte_ok c ->
  u8 (Z.lor (u8 (Z.lor 0 (Z.shiftl (Z.land (Z.lor (Z.shiftl a 4) (Z.shiftr b 4)) 63) 4)))
    (Z.shiftr (Z.land (Z.lor (Z.shiftl b 2) (Z.shiftr c 6)) 63) 2)) = b.
Proof. intros Ha Hb Hc. byte_bits. Qed.

Lemma base64_byte2 b c :
  byte_ok b -> byte_ok c ->
  u8 (Z.lor (u8 (Z.lor 0 (Z.shiftl (Z.land (Z.lor (Z.shiftl b 2) (Z.shiftr c 6)) 63) 6)))
    (Z.land c 63)) = c.
Proof. intros Hb Hc. byte_bits. Qed.

Lemma base64_last1 a :
  byte_ok a ->
  u8 (Z.lor (u8 (Z.lor 0 (Z.shiftl (Z.shiftr a 2) 2)))
    (Z.shiftr (Z.land (Z.shiftl a 4) 63) 4)) = a.
Proof. intros Ha. byte_bits. Qed.

Lemma base64_last2 a b :
  byte_ok a -> byte_ok b ->
  u8 (Z.lor (u8 (Z.lor 0 (Z.shiftl (Z.land (Z.lor (Z.shiftl a 4) (Z.shiftr b 4)) 63) 4)))
    (Z.shiftr (Z.land (Z.shiftl b 2) 63) 2)) = b.
Proof. intros Ha Hb. byte_bits. Qed.

Lemma sextet x : 0 <= Z.land x 63 < 64.
Proof. change 63 with (Z.ones 6). rewrite Z.land_ones by lia. apply Z.mod_pos_bound. lia. Qed.

Lemma top_sextet a : byte_ok a -> 0 <= Z.shiftr a 2 < 64.
Proof.
  unfold byte_ok. intros. rewrite Z.shiftr_div_pow2 by lia. change (2 ^ 2) with 4.
  split; [apply Z.div_pos; lia | apply Z.div_lt_upper_bound; lia].
Qed.

(** [=] ends the decoding. *)
Lemma decode_pad s o res :
  Base64Decode_loop (61 :: s) o res = Some (take (Z.to_nat (Z.shiftr o 3)) res).
Proof. reflexivity. Qed.

Lemma Base64Decode_Encode_loop n : forall input done zeros,
  (length input <= n)%nat -> bytes_ok input -> (length input + 3 <= zeros)%nat ->
  Base64Decode_loop (Base64Encode input) (8 * Z.of_nat (length done)) (done ++ repeat 0 zeros) =
    Some (done ++ input).
Proof.
  induction n as [|n IH]; intros input done zeros Hn Hok Hz.
  - destruct input; [|simpl in Hn; lia]. cbn [Base64Encode Base64Decode_loop].
    destruct (offset_split (length done) 0 0 0) as [_ E]; [lia | reflexivity..|].
    rewrite Z.add_0_r in E. rewrite E, Nat.add_0_r, take_app_length, app_nil_r. reflexivity.
  - do 3 (destruct zeros as [|zeros]; [lia|]). cbn [repeat].
    destruct input as [|a [|b [|c input]]].
    + apply (IH [] done (S (S (S zeros)))); simpl; auto; lia.
    + rewrite Forall_cons in Hok. destruct Hok as [Ha _]. cbn [Base64Encode].
      rewrite decode_0, decode_6, base64_last1, decode_pad
        by auto using sextet, top_sextet.
      destruct (offset_split (length done) 12 4 1) as [_ ->]; [lia | reflexivity..|].
      rewrite (cons_middle a done), app_assoc, take_app_length'
        by (rewrite length_app; simpl; lia). reflexivity.
    + rewrite !Forall_cons in Hok. destruct Hok as (Ha & Hb & _). cbn [Base64Encode].
      rewrite decode_0, decode_6, base64_byte0, decode_12, base64_last2, decode_pad
        by auto using sextet, top_sextet.
      destruct (offset_split (length done) 18 2 2) as [_ ->]; [lia | reflexivity..|].
      rewrite (cons_middle a done), app_assoc, (cons_middle b), app_assoc, take_app_length'
        by (rewrite !length_app; simpl; lia). rewrite <- app_assoc. reflexivity.
    + rewrite !Forall_cons in Hok. destruct Hok as (Ha & Hb & Hc & Hok). cbn [Base64Encode].
      rewrite decode_0, decode_6, base64_byte0, decode_12, base64_byte1, decode_18, base64_byte2
        by auto using sextet, top_sextet.
      specialize (IH input (done ++ [a; b; c]) zeros ltac:(simpl in Hn; lia) Hok
        ltac:(simpl in Hz; lia)).
      rewrite length_app, <- !app_assoc in IH. cbn [length app] in IH.
      replace (8 * Z.of_nat (length done + 3)) with (8 * Z.of_nat (length done) + 24) in IH by lia.
      exact IH.
Qed.

(** Base64: decoding an encoded string gives it back, for any bytes and any length (with no,
    one or two padding characters); every write of the decoder is inside its result. *)
Theorem base64_roundtrip (a_Input : list Z) :
  bytes_ok a_Input -> Base64Decode (Base64Encode a_Input) = Some a_Input.
Proof.
  intros Hok. unfold Base64Decode.
  assert (Hl : forall n l, (length l <= n)%nat ->
    (length l <= length (Base64Encode l) * 3 / 4)%nat).
  { induction n as [|n IHn]; intros l Hn.
    - destruct l; [simpl; lia | simpl in Hn; lia].
    - destruct l as [|x [|y [|z l]]]; try (simpl; lia).
      cbn [Base64Encode length]. specialize (IHn l ltac:(simpl in Hn; lia)).
      apply Nat.div_le_lower_bound; [lia|].
      pose proof (Nat.Div0.mul_div_le (length (Base64Encode l) * 3) 4). lia. }
  specialize (Hl _ _ (le_n (length a_Input))).
  apply (Base64Decode_Encode_loop (length a_Input) a_Input []); auto.
  set (m := length (Base64Encode a_Input)) in *. clearbody m.
  pose proof (Nat.Div0.mul_div_le (m * 3) 4). 
  pose proof (Nat.div_mod (m * 4) 3). pose proof (Nat.mod_upper_bound (m * 4) 3). lia.
Qed.

Lemma base64_roundtrip_witness : Base64Decode (Base64Encode [0; 255; 128; 7]) = Some [0; 255; 128; 7].
Proof. apply base64_roundtrip. repeat constructor; vm_compute; congruence. Defined.

(** ** UTF-8 to UTF-16 *)

(** The Unicode encodings, as the standard defines them. *)
Definition utf8_encode (c : Z) : list Z :=
  if c <? 0x80 then [c]
  else if c <? 0x800 then [192 + c / 64; 128 + c mod 64]
  else if c <? 0x10000 then [224 + c / 4096; 128 + (c / 64) mod 64; 128 + c mod 64]
  else [240 + c / 262144; 128 + (c / 4096) mod 64; 128 + (c / 64) mod 64; 128 + c mod 64].

Definition utf16be (c : Z) : list Z :=
  if c <? 0x10000 then [htons c]
  else [htons (0xD800 + (c - 0x10000) / 1024); htons (0xDC00 + (c - 0x10000) mod 1024)].

Definition scalar (c : Z) : Prop := 0 <= c < 0xD800 \/ 0xE000 <= c < 0x110000.

Definition utf8_extra (c : Z) : nat :=
  if c <? 192 then 0%nat else if c <? 224 then 1%nat else if c <? 240 then 2%nat
  else if c <? 248 then 3%nat else if c <? 252 then 4%nat else 5%nat.

Lemma trailing_lookup c :
  0 <= c < 256 -> Z.to_nat (default 0 (trailingBytesForUTF8 !! Z.to_nat c)) = utf8_extra c.
Proof.
  intros Hc.
  assert (H : forallb (fun n => Nat.eqb (Z.to_nat (default 0 (trailingBytesForUTF8 !! n)))
     (utf8_extra (Z.of_nat n))) (seq 0 256) = true) by (vm_compute; reflexivity).
  rewrite List.forallb_forall in H. specialize (H (Z.to_nat c)). rewrite Z2Nat.id in H by lia.
  apply Nat.eqb_eq, H, in_seq. lia.
Qed.

Lemma div_range a b lo hi : 0 < b -> lo * b <= a < hi * b -> lo <= a / b < hi.
Proof.
  intros Hb Ha. split; [apply Z.div_le_lower_bound | apply Z.div_lt_upper_bound]; lia.
Qed.

(** The decoder's sum of the bytes of a character, for each length. *)
Ltac utf8_sum_tac :=
  cbn [utf8_sum take default from_option lookup list_lookup offsetsFromUTF8];
  rewrite ?Z.shiftl_mul_pow2 by lia; unfold wrap; change (2 ^ 32) with 4294967296;
  change (2 ^ 6) with 64; cbn [Z.add];
  repeat match goal with
  | |- context [?x mod 4294967296] =>
    lazymatch x with
    | context [_ mod 4294967296] => fail
    | _ => rewrite (Z.mod_small x 4294967296) by lia
    end
  end; lia.

Lemma utf8_sum_1 c : 0 <= c < 0x80 -> u32 (utf8_sum 0 [c] - 0) = c.
Proof. intros. utf8_sum_tac. Qed.

Lemma utf8_sum_2 c :
  0x80 <= c < 0x800 -> u32 (utf8_sum 0 [192 + c / 64; 128 + c mod 64] - 0x3080) = c.
Proof.
  intros. pose proof (div_range c 64 2 32 ltac:(lia) ltac:(lia)).
  pose proof (Z.mod_pos_bound c 64 ltac:(lia)). pose proof (Z.div_mod c 64 ltac:(lia)).
  utf8_sum_tac.
Qed.

Lemma utf8_sum_3 c :
  0x800 <= c < 0x10000 ->
  u32 (utf8_sum 0 [224 + c / 4096; 128 + (c / 64) mod 64; 128 + c mod 64] - 0xE2080) = c.
Proof.
  intros. pose proof (div_range c 4096 0 16 ltac:(lia) ltac:(lia)).
  pose proof (Z.mod_pos_bound c 64 ltac:(lia)). pose proof (Z.div_mod c 64 ltac:(lia)).
  pose proof (Z.mod_pos_bound (c / 64) 64 ltac:(lia)).
  pose proof (Z.div_mod (c / 64) 64 ltac:(lia)) as E. rewrite Z.div_div in E by lia.
  change (64 * 64) with 4096 in E. utf8_sum_tac.
Qed.

Lemma utf8_sum_4 c :
  0x10000 <= c < 0x110000 ->
  u32 (utf8_sum 0 [240 + c / 262144; 128 + (c / 4096) mod 64; 128 + (c / 64) mod 64;
                   128 + c mod 64] - 0x3C82080) = c.
Proof.
  intros. pose proof (div_range c 262144 0 5 ltac:(lia) ltac:(lia)).
  pose proof (Z.mod_pos_bound c 64 ltac:(lia)). pose proof (Z.div_mod c 64 ltac:(lia)).
  pose proof (Z.mod_pos_bound (c / 64) 64 ltac:(lia)).
  pose proof (Z.div_mod (c / 64) 64 ltac:(lia)) as E. rewrite Z.div_div in E by lia.
  change (64 * 64) with 4096 in E. pose proof (Z.mod_pos_bound (c / 4096) 64 ltac:(lia)).
  pose proof (Z.div_mod (c / 4096) 64 ltac:(lia)) as E2. rewrite Z.div_div in E2 by lia.
  change (4096 * 64) with 262144 in E2. utf8_sum_tac.
Qed.

Lemma utf16_units_scalar c : scalar c -> utf16_units c = utf16be c.
Proof.
  intros Hc. unfold utf16_units, utf16be, UNI_MAX_BMP, UNI_MAX_UTF16, UNI_SUR_HIGH_START,
    UNI_SUR_LOW_END, UNI_SUR_LOW_START, scalar in *.
  destruct (Z.leb_spec c 0xFFFF), (Z.ltb_spec c 0x10000); try lia.
  - destruct (Z.leb_spec 0xD800 c), (Z.leb_spec c 0xDFFF); try lia; cbn [andb];
      rewrite wrap_small by (unfold in_width; lia); reflexivity.
  - destruct (Z.ltb_spec 0x10FFFF c); [lia|]. change 0x3ff with (Z.ones 10).
    rewrite Z.land_ones, Z.shiftr_div_pow2 by lia. change (2 ^ 10) with 1024.
    pose proof (div_range (c - 0x10000) 1024 0 1024 ltac:(lia) ltac:(lia)).
    pose proof (Z.mod_pos_bound (c - 0x10000) 1024 ltac:(lia)).
    rewrite !wrap_small by (unfold in_width; lia).
    rewrite (Z.add_comm _ 0xD800), (Z.add_comm _ 0xDC00). reflexivity.
Qed.

(** Which lead and second bytes are legal; the others must be continuation bytes. *)
Lemma legal_2 s0 a r :
  194 <= s0 <= 244 -> 128 <= a < 192 ->
  (s0 = 0xe0 -> 0xa0 <= a) -> (s0 = 0xed -> a <= 0x9f) ->
  (s0 = 0xf0 -> 0x90 <= a) -> (s0 = 0xf4 -> a <= 0x8f) ->
  isLegalUTF8 (s0 :: a :: r) 2 = true.
Proof.
  intros Hs Ha H1 H2 H3 H4. unfold isLegalUTF8. cbn [lookup list_lookup default from_option id].
  rewrite (proj2 (Z.ltb_ge 0xbf a)), (proj2 (Z.ltb_ge s0 0xc2)), (proj2 (Z.ltb_ge 0xf4 s0)) by lia.
  rewrite andb_false_r, !andb_true_r, andb_true_l.
  destruct (Z.eqb_spec s0 0xe0); [apply negb_true_iff, Z.ltb_ge; lia|].
  destruct (Z.eqb_spec s0 0xed); [apply negb_true_iff, Z.ltb_ge; lia|].
  destruct (Z.eqb_spec s0 0xf0); [apply negb_true_iff, Z.ltb_ge; lia|].
  destruct (Z.eqb_spec s0 0xf4); apply negb_true_iff, Z.ltb_ge; lia.
Qed.

Lemma legal_3 s0 a b r :
  128 <= b < 192 -> isLegalUTF8 (s0 :: a :: b :: r) 3 = isLegalUTF8 (s0 :: a :: b :: r) 2.
Proof.
  intros Hb. unfold isLegalUTF8. cbn [lookup list_lookup default from_option id].
  rewrite (proj2 (Z.ltb_ge b 0x80)), (proj2 (Z.ltb_ge 0xbf b)) by lia. reflexivity.
Qed.

Lemma legal_4 s0 a b c r :
  128 <= c < 192 ->
  isLegalUTF8 (s0 :: a :: b :: c :: r) 4 = isLegalUTF8 (s0 :: a :: b :: c :: r) 3.
Proof.
  intros Hc. unfold isLegalUTF8. cbn [lookup list_lookup default from_option id].
  rewrite (proj2 (Z.ltb_ge c 0x80)), (proj2 (Z.ltb_ge 0xbf c)) by lia. reflexivity.
Qed.

(** One character of well-formed input. *)
Lemma UTF8ToRawBEUTF16_char fuel c rest acc :
  scalar c ->
  UTF8ToRawBEUTF16_loop (S fuel) (utf8_encode c ++ rest) acc =
  UTF8ToRawBEUTF16_loop fuel rest (acc ++ utf16be c).
Proof.
  intros Hs. rewrite <- utf16_units_scalar by assumption. unfold scalar in Hs. unfold utf8_encode.
  destruct (Z.ltb_spec c 0x80); [|destruct (Z.ltb_spec c 0x800); [|destruct (Z.ltb_spec c 0x10000)]].
  - cbn [app UTF8ToRawBEUTF16_loop]. rewrite trailing_lookup by lia. unfold utf8_extra.
    rewrite (proj2 (Z.ltb_lt c 192)) by lia. cbn [length Nat.leb Nat.add].
    assert (L : isLegalUTF8 (c :: rest) 1 = true).
    { unfold isLegalUTF8. cbn [lookup list_lookup default from_option]. change (id c) with c.
      destruct (Z.leb_spec 0x80 c), (Z.ltb_spec 0xf4 c); (reflexivity || lia). }
    rewrite L. cbn [negb take drop]. change (take 0 rest) with (@nil Z). rewrite drop_0.
    change (default 0 (offsetsFromUTF8 !! 0%nat)) with 0.
    rewrite (utf8_sum_1 c) by lia. reflexivity.
  - pose proof (div_range c 64 2 32 ltac:(lia) ltac:(lia)).
    pose proof (Z.mod_pos_bound c 64 ltac:(lia)).
    cbn [app UTF8ToRawBEUTF16_loop]. rewrite trailing_lookup by lia. unfold utf8_extra.
    rewrite (proj2 (Z.ltb_ge _ 192)), (proj2 (Z.ltb_lt _ 224)) by lia.
    cbn [length Nat.leb Nat.add].
    match goal with |- context [isLegalUTF8 ?s 2] => assert (L : isLegalUTF8 s 2 = true) end.
    { apply legal_2; lia. }
    rewrite L. cbn [negb take drop]. change (take 0 rest) with (@nil Z). rewrite drop_0.
    change (default 0 (offsetsFromUTF8 !! 1%nat)) with 0x3080.
    rewrite (utf8_sum_2 c) by lia. reflexivity.
  - pose proof (div_range c 4096 0 16 ltac:(lia) ltac:(lia)).
    pose proof (Z.mod_pos_bound c 64 ltac:(lia)).
    pose proof (Z.mod_pos_bound (c / 64) 64 ltac:(lia)).
    pose proof (Z.div_mod (c / 64) 64 ltac:(lia)) as E. rewrite Z.div_div in E by lia.
    change (64 * 64) with 4096 in E. pose proof (Z.div_mod c 64 ltac:(lia)).
    cbn [app UTF8ToRawBEUTF16_loop]. rewrite trailing_lookup by lia. unfold utf8_extra.
    rewrite (proj2 (Z.ltb_ge _ 192)), (proj2 (Z.ltb_ge _ 224)), (proj2 (Z.ltb_lt _ 240)) by lia.
    cbn [length Nat.leb Nat.add].
    match goal with |- context [isLegalUTF8 ?s 3] => assert (L : isLegalUTF8 s 3 = true) end.
    { rewrite legal_3 by lia. apply legal_2; lia. }
    rewrite L. cbn [negb take drop]. change (take 0 rest) with (@nil Z). rewrite drop_0.
    change (default 0 (offsetsFromUTF8 !! 2%nat)) with 0xE2080.
    rewrite (utf8_sum_3 c) by lia. reflexivity.
  - pose proof (div_range c 262144 0 5 ltac:(lia) ltac:(lia)).
    pose proof (Z.mod_pos_bound c 64 ltac:(lia)).
    pose proof (Z.mod_pos_bound (c / 64) 64 ltac:(lia)).
    pose proof (Z.mod_pos_bound (c / 4096) 64 ltac:(lia)).
    pose proof (Z.div_mod (c / 4096) 64 ltac:(lia)) as E. rewrite Z.div_div in E by lia.
    change (4096 * 64) with 262144 in E. pose proof (Z.div_mod c 4096 ltac:(lia)).
    pose proof (Z.mod_pos_bound c 4096 ltac:(lia)).
    cbn [app UTF8ToRawBEUTF16_loop]. rewrite trailing_lookup by lia. unfold utf8_extra.
    rewrite (proj2 (Z.ltb_ge _ 192)), (proj2 (Z.ltb_ge _ 224)), (proj2 (Z.ltb_ge _ 240)),
      (proj2 (Z.ltb_lt _ 248)) by lia.
    cbn [length Nat.leb Nat.add].
    match goal with |- context [isLegalUTF8 ?s 4] => assert (L : isLegalUTF8 s 4 = true) end.
    { rewrite legal_4, legal_3 by lia. apply legal_2; lia. }
    rewrite L. cbn [negb take drop]. change (take 0 rest) with (@nil Z). rewrite drop_0.
    change (default 0 (offsetsFromUTF8 !! 3%nat)) with 0x3C82080.
    rewrite (utf8_sum_4 c) by lia. reflexivity.
Qed.

(** UTF-8 to UTF-16: on the UTF-8 encoding of any sequence of Unicode scalar values the
    converter returns its big-endian UTF-16 encoding, surrogate pairs included. *)
Theorem utf8_to_utf16 (cs : list Z) :
  Forall scalar cs ->
  UTF8ToRawBEUTF16 (concat (map utf8_encode cs)) = Some (concat (map utf16be cs)).
Proof.
  intros Hcs. unfold UTF8ToRawBEUTF16.
  assert (H : forall cs fuel acc, Forall scalar cs -> (length cs <= fuel)%nat ->
    UTF8ToRawBEUTF16_loop fuel (concat (map utf8_encode cs)) acc =
      Some (acc ++ concat (map utf16be cs))).
  { clear. intros cs. induction cs as [|c cs IH]; intros fuel acc Hcs Hf.
    - destruct fuel; simpl; rewrite app_nil_r; reflexivity.
    - inversion Hcs; subst. destruct fuel as [|fuel]; [simpl in Hf; lia|]. cbn [map concat].
      rewrite UTF8ToRawBEUTF16_char, IH by (assumption || simpl in Hf; lia).
      rewrite <- app_assoc. reflexivity. }
  apply H; [assumption|]. clear. induction cs as [|c cs IH]; [reflexivity|].
  cbn [map concat]. rewrite length_app. unfold utf8_encode at 1.
  repeat case_match; simpl; lia.
Qed.

Lemma utf8_to_utf16_witness :
  UTF8ToRawBEUTF16 (concat (map utf8_encode [65; 0xE9; 0x20AC; 0x1F600])) =
    Some (concat (map utf16be [65; 0xE9; 0x20AC; 0x1F600])).
Proof. apply utf8_to_utf16. repeat constructor; unfold scalar; lia. Defined.

(** [RawBEToUTF8] is a UTF-8 encoder only below U+0800: the unit is read as a signed short and
    the surrogate test is done on signed numbers, so it drops every unit from 0x0800 to
    0x7FFF and reduces every unit from 0x8000 on to its low byte. *)
Theorem raw_be_to_utf8_units (hi lo : Z) (rest out : list Z) (n : nat) :
  byte_ok hi -> byte_ok lo ->
  RawBEToUTF8 (hi :: lo :: rest) (S n) out =
    RawBEToUTF8 rest n (out ++
      let u := 256 * hi + lo in
      if u <? 0x800 then utf8_encode u else if u <? 0x8000 then [] else [lo]).
Proof.
  intros Hh Hl. cbn [RawBEToUTF8]. unfold GetBEShort. cbn [lookup list_lookup option_bind mbind].
  unfold byte_ok in *.
  rewrite Z.lor_comm, lor_shift_add, Z.shiftl_mul_pow2 by lia. change (2 ^ 8) with 256.
  cbv zeta. set (u := 256 * hi + lo). replace (lo + hi * 256) with u by (unfold u; lia).
  assert (Hu : 0 <= u < 65536) by (unfold u; lia).
  cbn [drop skipn]. rewrite drop_0. f_equal. f_equal. unfold RawBEToUTF8_char, utf8_encode.
  destruct (Z.ltb_spec u 0x8000).
  - rewrite to_signed_small by lia.
    destruct (Z.ltb_spec u 0x80), (Z.ltb_spec u 0x800); try lia.
    + rewrite wrap_small by (unfold in_width; lia). reflexivity.
    + pose proof (div_range u 64 2 32 ltac:(lia) ltac:(lia)).
      pose proof (Z.mod_pos_bound u 64 ltac:(lia)).
      rewrite Z.quot_div_nonneg, Z.rem_mod_nonneg by lia.
      rewrite !wrap_small by (unfold in_width; lia). reflexivity.
    + destruct (Z.ltb_spec (u - 0xd800) 0x800); [reflexivity | lia].
  - assert (Hs : to_signed 16 u = u - 65536).
    { unfold to_signed. rewrite wrap_small by (unfold in_width; lia). cbv zeta.
      destruct (Z.ltb_spec u (2 ^ (16 - 1))); lia. }
    rewrite Hs, (proj2 (Z.ltb_lt (u - 65536) 0x80)), (proj2 (Z.ltb_ge u 0x800)) by lia.
    f_equal. unfold wrap. symmetry. apply Z.mod_unique with (hi - 256); unfold u; lia.
Qed.

Lemma raw_be_to_utf8_units_witness : RawBEToUTF8 [0x20; 0xAC] 1 [] = Some [].
Proof. rewrite (raw_be_to_utf8_units 0x20 0xAC [] [] 0); [reflexivity | vm_compute; intuition congruence..]. Defined.

(** ** URL decoding *)

Definition hex_lower (d : Z) : Z := if d <? 10 then 48 + d else 87 + d.
Definition percent_encode (c : Z) : list Z := [37; hex_lower (c / 16); hex_lower (c mod 16)].

Lemma url_hex_lower d : 0 <= d < 16 -> url_hi (hex_lower d) = Some d /\ url_lo (hex_lower d) = Some d.
Proof.
  intros Hd. unfold url_hi, url_lo, hex_lower.
  destruct (Z.ltb_spec d 10); split_ltb; try lia; cbn [andb]; split; f_equal; lia.
Qed.

Lemma byte_of_nibbles c : byte_ok c -> u8 (Z.lor (Z.shiftl (c / 16) 4) (c mod 16)) = c.
Proof.
  unfold byte_ok. intros Hc. pose proof (Z.div_mod c 16 ltac:(lia)).
  pose proof (Z.mod_pos_bound c 16 ltac:(lia)). pose proof (div_range c 16 0 16 ltac:(lia) ltac:(lia)).
  rewrite Z.lor_comm, lor_shift_add, Z.shiftl_mul_pow2 by lia. change (2 ^ 4) with 16.
  rewrite wrap_small by (unfold in_width; lia). lia.
Qed.

(** One encoded byte. *)
Lemma URLDecode_char pre c tl out fuel :
  byte_ok c -> Z.of_nat (length (pre ++ percent_encode c ++ tl)) < 2 ^ 64 ->
  URLDecode_loop (S fuel) (pre ++ percent_encode c ++ tl) (length pre) out =
  URLDecode_loop fuel (pre ++ percent_encode c ++ tl) (length pre + 3) (out ++ [c]).
Proof.
  intros Hc Hlen. set (str := pre ++ percent_encode c ++ tl) in *.
  assert (Ls : (length str = length pre + 3 + length tl)%nat)
    by (unfold str; rewrite !length_app; simpl; lia).
  assert (Hat : forall k, (k < 3)%nat -> str !! (length pre + k)%nat = percent_encode c !! k).
  { intros k Hk. unfold str. rewrite lookup_app_r, Nat.add_sub' by lia.
    apply lookup_app_l. simpl. lia. }
  cbn [URLDecode_loop]. rewrite (proj2 (Nat.ltb_lt _ _)) by lia. cbn [negb].
  rewrite <- (Nat.add_0_r (length pre)) at 1. rewrite (Hat 0%nat) by lia.
  cbn [percent_encode lookup list_lookup option_bind mbind].
  rewrite wrap_small by (unfold in_width; lia). rewrite (proj2 (Z.ltb_ge _ _)) by lia.
  change (37 =? 37) with true. cbn [negb orb]. unfold char_at.
  rewrite (proj2 (Nat.eqb_neq (length pre + 1) _)), (proj2 (Nat.eqb_neq (length pre + 2) _)) by lia.
  rewrite (Hat 1%nat), (Hat 2%nat) by lia.
  cbn [percent_encode lookup list_lookup option_bind mbind].
  pose proof (Z.mod_pos_bound c 16 ltac:(lia)). unfold byte_ok in Hc.
  pose proof (div_range c 16 0 16 ltac:(lia) ltac:(lia)).
  rewrite (proj1 (url_hex_lower (c / 16) ltac:(lia))), (proj2 (url_hex_lower (c mod 16) ltac:(lia))).
  rewrite byte_of_nibbles by assumption. reflexivity.
Qed.

Lemma URLDecode_encoded s : forall pre out fuel, bytes_ok s ->
  Z.of_nat (length (pre ++ concat (map percent_encode s))) < 2 ^ 64 -> (length s <= fuel)%nat ->
  URLDecode_loop fuel (pre ++ concat (map percent_encode s)) (length pre) out = Some (out ++ s).
Proof.
  induction s as [|c s IH]; intros pre out fuel Hok Hlen Hf.
  - cbn [map concat]. rewrite !app_nil_r. destruct fuel; [reflexivity|].
    cbn [URLDecode_loop]. rewrite Nat.ltb_irrefl. reflexivity.
  - inversion Hok as [|? ? Hc Hs]; subst. cbn [map concat] in *. simpl in Hf.
    destruct fuel as [|fuel]; [lia|]. rewrite URLDecode_char by assumption.
    specialize (IH (pre ++ percent_encode c) (out ++ [c]) fuel Hs).
    rewrite <- !app_assoc in IH. replace (length pre + 3)%nat with (length (pre ++ percent_encode c))
      by (rewrite length_app; reflexivity). apply IH; [assumption | lia].
Qed.

Lemma length_percent_encoded s : length (concat (map percent_encode s)) = (3 * length s)%nat.
Proof. induction s as [|c s IH]; [reflexivity|]. cbn [map concat]. rewrite length_app, IH. simpl. lia. Qed.

(** [URLDecode] undoes percent encoding with lower-case digits, of any bytes; but an
    upper-case high digit A to E counts 5 too few, so that [%C3] decodes to 0x73, and a
    string shorter than three characters that ends right after a percent sign is read
    past its terminator. *)
Theorem url_decode_spec (s : list Z) :
  bytes_ok s -> 3 * Z.of_nat (length s) < 2 ^ 64 ->
  URLDecode (concat (map percent_encode s)) = Some s /\
  (forall h d, 10 <= h < 15 -> 0 <= d < 16 ->
     URLDecode [37; 55 + h; hex_lower d] = Some [16 * (h - 5) + d]) /\
  URLDecode [37] = None /\ (forall c, c <> 37 -> URLDecode [c; 37] = None).
Proof.
  intros Hok Hlen. split_and!.
  - apply (URLDecode_encoded s [] []); [assumption|..]; cbn [app];
      rewrite length_percent_encoded; lia.
  - intros h d Hh Hd. unfold URLDecode. cbn [length URLDecode_loop].
    change (0 <? 3)%nat with true. cbn [negb lookup list_lookup option_bind mbind].
    change (u64 (Z.of_nat 3 - 3) <? Z.of_nat 0) with false.
    change (37 =? 37) with true. cbn [negb orb].
    change (char_at [37; 55 + h; hex_lower d] (0 + 1)) with (Some (55 + h)).
    change (char_at [37; 55 + h; hex_lower d] (0 + 2)) with (Some (hex_lower d)).
    cbn [option_bind mbind]. rewrite (proj2 (url_hex_lower d ltac:(lia))).
    assert (E : url_hi (55 + h) = Some (h - 5)).
    { unfold url_hi. split_ltb; try lia; cbn [andb]; f_equal; lia. }
    rewrite E. change (0 + 3 <? 3)%nat with false. cbn [negb].
    rewrite Z.lor_comm, lor_shift_add, Z.shiftl_mul_pow2 by lia. change (2 ^ 4) with 16.
    rewrite wrap_small by (unfold in_width; lia). replace (d + (h - 5) * 16) with (16 * (h - 5) + d) by lia. reflexivity.
  - vm_compute. reflexivity.
  - intros c Hc. unfold URLDecode. cbn [length URLDecode_loop].
    change (0 <? 2)%nat with true. cbn [negb lookup list_lookup option_bind mbind].
    rewrite (proj2 (Z.eqb_neq c 37) Hc). reflexivity.
Qed.

Lemma url_decode_spec_witness : URLDecode (concat (map percent_encode [32; 195; 169])) = Some [32; 195; 169].
Proof.
  refine (proj1 (url_decode_spec [32; 195; 169] _ _));
    [repeat constructor; vm_compute; congruence | simpl; lia].
Defined.

(** ** Replacing *)

Lemma is_prefix_app n s : is_prefix n (n ++ s) = true.
Proof. induction n as [|x n IH]; [reflexivity|]. simpl. rewrite Z.eqb_refl. exact IH. Qed.

Lemma find_here_infix pre n s : exists k, find_here n (pre ++ n ++ s) = Some k.
Proof.
  induction pre as [|x pre [k IH]].
  - exists 0%nat. cbn [app].
    destruct (n ++ s) eqn:E; cbn [find_here]; rewrite <- E, is_prefix_app; reflexivity.
  - cbn [app find_here]. destruct (is_prefix n (x :: pre ++ n ++ s)); [eauto|].
    rewrite IH. simpl. eauto.
Qed.

(** [ReplaceString] does not terminate when the replacement contains the needle (the search
    resumes at the text just inserted): if the needle occurs at all, no number of
    replacements is enough. *)
Theorem replace_diverges (iHayStack iNeedle x y : list Z) (fuel : nat) :
  str_find iHayStack iNeedle 0 <> None ->
  ReplaceString fuel iHayStack iNeedle (x ++ iNeedle ++ y) = None.
Proof.
  unfold ReplaceString. generalize 0%nat. revert iHayStack.
  induction fuel as [|fuel IH]; intros hay pos0 Hf;
    destruct (str_find hay iNeedle pos0) as [pos|] eqn:E; try congruence;
    cbn [ReplaceString_loop]; [reflexivity|].
  apply IH. unfold str_find in *.
  destruct (Nat.ltb_spec (length hay) pos0); [discriminate|].
  apply fmap_Some in E as (k & Ek & ->).
  assert (Hk : (k <= length (drop pos0 hay))%nat).
  { clear - Ek. revert k Ek. generalize (drop pos0 hay). intros l.
    induction l as [|c l IHl]; intros k Ek; cbn [find_here] in Ek.
    - destruct (is_prefix iNeedle []); simplify_eq. simpl. lia.
    - destruct (is_prefix iNeedle (c :: l)); simplify_eq; [lia|].
      apply fmap_Some in Ek as (k' & Ek & ->). apply IHl in Ek. simpl. lia. }
  rewrite length_drop in Hk.
  rewrite (proj2 (Nat.ltb_ge _ _)) by (rewrite length_app, length_take; lia).
  rewrite drop_app_length' by (rewrite length_take; lia).
  rewrite <- !app_assoc. destruct (find_here_infix x iNeedle (y ++ drop (pos0 + k + length iNeedle) hay))
    as [j ->]. simpl. congruence.
Qed.

Lemma replace_diverges_witness : ReplaceString 50 [97] [97] [97; 97] = None.
Proof. apply (replace_diverges [97] [97] [] [97]). vm_compute. congruence. Defined.

Lemma find_here_char c l r :
  c ∉ l -> find_here [c] (l ++ c :: r) = Some (length l).
Proof.
  induction l as [|x l IH]; intros Hc; cbn [app find_here is_prefix].
  - rewrite Z.eqb_refl. destruct r; reflexivity.
  - apply not_elem_of_cons in Hc as [Hne Hc]. rewrite (proj2 (Z.eqb_neq c x) Hne). cbn [andb].
    rewrite IH by assumption. reflexivity.
Qed.

Lemma find_here_none c l : c ∉ l -> find_here [c] l = None.
Proof.
  induction l as [|x l IH]; intros Hc; [reflexivity|]. cbn [find_here is_prefix].
  apply not_elem_of_cons in Hc as [Hne Hc]. rewrite (proj2 (Z.eqb_neq c x) Hne). cbn [andb].
  rewrite IH by assumption. reflexivity.
Qed.

Lemma ReplaceString_loop_char c r : c ∉ r -> forall rest done pos fuel,
  (pos <= length done)%nat -> c ∉ drop pos done -> (length rest <= fuel)%nat ->
  ReplaceString_loop fuel (done ++ rest) [c] r (str_find (done ++ rest) [c] pos) =
    Some (done ++ concat (map (fun x => if x =? c then r else [x]) rest)).
Proof.
  intros Hr. induction rest as [|x rest IH]; intros done pos fuel Hpos Hd Hf.
  - rewrite !app_nil_r. unfold str_find. rewrite (proj2 (Nat.ltb_ge _ _)) by assumption.
    rewrite find_here_none by assumption. destruct fuel; reflexivity.
  - simpl in Hf. cbn [map concat]. destruct (Z.eqb_spec x c) as [->|Hne].
    + assert (E : str_find (done ++ c :: rest) [c] pos = Some (length done)).
      { unfold str_find. rewrite (proj2 (Nat.ltb_ge _ _)) by (rewrite length_app; lia).
        rewrite drop_app_le, find_here_char by assumption. cbn. f_equal. rewrite length_drop. lia. }
      rewrite E. destruct fuel as [|fuel]; [lia|]. cbn [ReplaceString_loop length].
      rewrite take_app_length, <- drop_drop, drop_app_length.
      cbn [drop skipn]. rewrite drop_0, (app_assoc done r rest). rewrite IH.
      * rewrite <- app_assoc. reflexivity.
      * rewrite length_app. lia.
      * rewrite drop_app_length. assumption.
      * lia.
    + replace (done ++ x :: rest) with ((done ++ [x]) ++ rest) by (rewrite <- app_assoc; reflexivity).
      rewrite IH.
      * rewrite <- app_assoc. reflexivity.
      * rewrite length_app. lia.
      * rewrite drop_app_le by assumption. rewrite elem_of_app. intros [H|H]; [contradiction|].
        apply list_elem_of_singleton in H. congruence.
      * lia.
Qed.

(** A character is replaced everywhere, in one pass, when the replacement does not contain it. *)
Theorem replace_char (iHayStack iReplaceWith : list Z) (c : Z) :
  c ∉ iReplaceWith ->
  ReplaceString (length iHayStack) iHayStack [c] iReplaceWith =
    Some (concat (map (fun x => if x =? c then iReplaceWith else [x]) iHayStack)).
Proof.
  intros Hc. apply (ReplaceString_loop_char c iReplaceWith Hc iHayStack [] 0); simpl; auto.
  apply not_elem_of_nil.
Qed.
