(* ===== verification/ByteBuffer.v ===== *)
(** * ByteBuffer: the ring buffer of src/Src/Common/ByteBuffer.cpp

    [cByteBuffer] is a ring of [m_BufferSize] bytes with three positions: the data
    starts at [m_DataStart], the next read is at [m_ReadPos], the next write at
    [m_WritePos]; one cell stays free so that full and empty differ.  The methods are
    in a monad with two failures: a method that returns false ([Some (None, b)]: the
    buffer keeps whatever the calls before it did) and undefined behaviour ([None]: a
    copy outside the array, a shift by the width of its operand).

    The second half proves that the methods implement a queue of bytes with a part
    already read ([spec]), that no ASSERT of the class can fail and no copy leaves the
    array, and that what the class writes it reads back. *)

From S2P Require Import Prelude Bytes StringUtils.

(** ** Byte order of 64-bit values (src/Include/Endianness.h) *)

Definition ntohll (x : Z) : Z := u64 (Z.shiftl (ntohl (u32 x)) 32 + ntohl (Z.shiftr x 32)).
Definition HostToNetwork8 (x : Z) : Z := u64 (Z.shiftl (htonl (u32 x)) 32 + htonl (Z.shiftr x 32)).
Definition HostToNetwork4 (x : Z) : Z := ntohl x.
(** The floating-point values are their IEEE bit patterns. *)
Definition NetworkToHostDouble8 (x : Z) : Z := ntohll x.
Definition NetworkToHostLong8 (x : Z) : Z := to_signed 64 (ntohll x).
Definition NetworkToHostULong8 (x : Z) : Z := ntohll x.
Definition NetworkToHostFloat4 (x : Z) : Z := ntohl x.

(** ** The class *)

Record cByteBuffer := {
  m_Buffer : list Z;
  m_BufferSize : nat;
  m_DataStart : nat;
  m_WritePos : nat;
  m_ReadPos : nat
}.

Definition set_Buffer (l : list Z) (b : cByteBuffer) : cByteBuffer :=
  {| m_Buffer := l; m_BufferSize := m_BufferSize b; m_DataStart := m_DataStart b;
     m_WritePos := m_WritePos b; m_ReadPos := m_ReadPos b |}.
Definition set_DataStart (n : nat) (b : cByteBuffer) : cByteBuffer :=
  {| m_Buffer := m_Buffer b; m_BufferSize := m_BufferSize b; m_DataStart := n;
     m_WritePos := m_WritePos b; m_ReadPos := m_ReadPos b |}.
Definition set_WritePos (n : nat) (b : cByteBuffer) : cByteBuffer :=
  {| m_Buffer := m_Buffer b; m_BufferSize := m_BufferSize b; m_DataStart := m_DataStart b;
     m_WritePos := n; m_ReadPos := m_ReadPos b |}.
Definition set_ReadPos (n : nat) (b : cByteBuffer) : cByteBuffer :=
  {| m_Buffer := m_Buffer b; m_BufferSize := m_BufferSize b; m_DataStart := m_DataStart b;
     m_WritePos := m_WritePos b; m_ReadPos := n |}.

(** [mem] is what the fresh array of [a_BufferSize + 1] bytes happens to hold. *)
Definition cByteBuffer_ctor (a_BufferSize : nat) (mem : list Z) : cByteBuffer :=
  {| m_Buffer := mem; m_BufferSize := a_BufferSize + 1; m_DataStart := 0;
     m_WritePos := 0; m_ReadPos := 0 |}.

Definition GetFreeSpace (b : cByteBuffer) : nat :=
  if (m_DataStart b <=? m_WritePos b)%nat
  then m_BufferSize b - m_WritePos b + m_DataStart b - 1
  else m_DataStart b - m_WritePos b - 1.

Definition GetUsedSpace (b : cByteBuffer) : nat := m_BufferSize b - GetFreeSpace b - 1.

Definition GetReadableSpace (b : cByteBuffer) : nat :=
  if (m_WritePos b <? m_ReadPos b)%nat
  then m_BufferSize b - m_ReadPos b + m_WritePos b
  else m_WritePos b - m_ReadPos b.

Definition CanReadBytes (b : cByteBuffer) (a_Count : nat) : bool :=
  (a_Count <=? GetReadableSpace b)%nat.

Definition CanWriteBytes (b : cByteBuffer) (a_Count : nat) : bool :=
  (a_Count <=? GetFreeSpace b)%nat.

(** The ASSERTs of [CheckValid], as a test. *)
Definition CheckValid (b : cByteBuffer) : bool :=
  (m_ReadPos b <? m_BufferSize b)%nat && (m_WritePos b <? m_BufferSize b)%nat.

(** ** The monad of the methods *)

Definition BB (A : Type) : Type := cByteBuffer -> option (option A * cByteBuffer).

Definition ret {A} (x : A) : BB A := fun b => Some (Some x, b).
Definition fail {A} : BB A := fun b => Some (None, b).
Definition undefined {A} : BB A := fun _ => None.
Definition bind {A B} (m : BB A) (f : A -> BB B) : BB B := fun b =>
  match m b with
  | Some (Some x, b) => f x b
  | Some (None, b) => Some (None, b)
  | None => None
  end.

Declare Scope bb_scope.
Delimit Scope bb_scope with bb.
Notation "x <- m ;; k" := (bind m (fun x => k))
  (at level 100, m at next level, right associativity) : bb_scope.
Notation "m ;; k" := (bind m (fun _ => k)) (at level 100, right associativity) : bb_scope.
#[local] Open Scope bb_scope.

(** The macros NEEDBYTES and PUTBYTES. *)
Definition NEEDBYTES (n : nat) : BB unit := fun b =>
  if CanReadBytes b n then Some (Some tt, b) else Some (None, b).
Definition PUTBYTES (n : nat) : BB unit := fun b =>
  if CanWriteBytes b n then Some (Some tt, b) else Some (None, b).

(** ** Raw reads and writes *)

(** Bounds-checked copies out of and into [m_Buffer]. *)
Definition copy_out (b : cByteBuffer) (pos n : nat) : option (list Z) :=
  read_at n (m_Buffer b) (Z.of_nat pos).
Definition copy_in (b : cByteBuffer) (pos : nat) (bytes : list Z) : option cByteBuffer :=
  buf ← write_at (m_Buffer b) (Z.of_nat pos) bytes; Some (set_Buffer buf b).

Definition Write (Bytes : list Z) : BB unit := fun b =>
  if (GetFreeSpace b <? length Bytes)%nat then Some (None, b) else
  let TillEnd := (m_BufferSize b - m_WritePos b)%nat in
  '(b, Bytes) ←
    (if (TillEnd <=? length Bytes)%nat then
       '(b, Bytes) ← (if (0 <? TillEnd)%nat
         then b ← copy_in b (m_WritePos b) (take TillEnd Bytes); Some (b, drop TillEnd Bytes)
         else Some (b, Bytes));
       Some (set_WritePos 0 b, Bytes)
     else Some (b, Bytes));
  if (0 <? length Bytes)%nat then
    b ← copy_in b (m_WritePos b) Bytes;
    Some (Some tt, set_WritePos (m_WritePos b + length Bytes) b)
  else Some (Some tt, b).

Definition WriteBuf (Src : list Z) : BB unit :=
  PUTBYTES (length Src);;
  fun b =>
  let BytesToEndOfBuffer := (m_BufferSize b - m_WritePos b)%nat in
  '(b, Src) ←
    (if (BytesToEndOfBuffer <=? length Src)%nat then
       b ← copy_in b (m_WritePos b) (take BytesToEndOfBuffer Src);
       Some (set_WritePos 0 b, drop BytesToEndOfBuffer Src)
     else Some (b, Src));
  if (0 <? length Src)%nat then
    b ← copy_in b (m_WritePos b) Src;
    Some (Some tt, set_WritePos (m_WritePos b + length Src) b)
  else Some (Some tt, b).

Definition ReadBuf (a_Count : nat) : BB (list Z) :=
  NEEDBYTES a_Count;;
  fun b =>
  let BytesToEndOfBuffer := (m_BufferSize b - m_ReadPos b)%nat in
  '(b, a_Count, Dst) ←
    (if (BytesToEndOfBuffer <=? a_Count)%nat then
       '(a_Count, Dst) ← (if (0 <? BytesToEndOfBuffer)%nat
         then d ← copy_out b (m_ReadPos b) BytesToEndOfBuffer;
              Some ((a_Count - BytesToEndOfBuffer)%nat, d)
         else Some (a_Count, []));
       Some (set_ReadPos 0 b, a_Count, Dst)
     else Some (b, a_Count, []));
  if (0 <? a_Count)%nat then
    d ← copy_out b (m_ReadPos b) a_Count;
    Some (Some (Dst ++ d), set_ReadPos (m_ReadPos b + a_Count) b)
  else Some (Some Dst, b).

Definition ReadString (a_Count : nat) : BB (list Z) :=
  NEEDBYTES a_Count;;
  fun b =>
  let a_String := [] in
  let BytesToEndOfBuffer := (m_BufferSize b - m_ReadPos b)%nat in
  '(b, a_Count, a_String) ←
    (if (BytesToEndOfBuffer <=? a_Count)%nat then
       '(a_Count, a_String) ← (if (0 <? BytesToEndOfBuffer)%nat
         then d ← copy_out b (m_ReadPos b) BytesToEndOfBuffer;
              Some ((a_Count - BytesToEndOfBuffer)%nat, d)
         else Some (a_Count, a_String));
       Some (set_ReadPos 0 b, a_Count, a_String)
     else Some (b, a_Count, a_String));
  if (0 <? a_Count)%nat then
    d ← copy_out b (m_ReadPos b) a_Count;
    Some (Some (a_String ++ d), set_ReadPos (m_ReadPos b + a_Count) b)
  else Some (Some a_String, b).

Definition AdvanceReadPos (a_Count : nat) (b : cByteBuffer) : cByteBuffer :=
  let b := set_ReadPos (m_ReadPos b + a_Count) b in
  if (m_BufferSize b <=? m_ReadPos b)%nat
  then set_ReadPos (m_ReadPos b - m_BufferSize b) b else b.

Definition SkipRead (a_Count : nat) : BB unit := fun b =>
  if CanReadBytes b a_Count then Some (Some tt, AdvanceReadPos a_Count b) else Some (None, b).

Definition ReadAll : BB (list Z) := fun b => ReadString (GetReadableSpace b) b.

Definition CommitRead (b : cByteBuffer) : cByteBuffer := set_DataStart (m_ReadPos b) b.
Definition ResetRead (b : cByteBuffer) : cByteBuffer := set_ReadPos (m_DataStart b) b.

(** Appends to [a_Out] what was read since the last commit. *)
Definition ReadAgain (b : cByteBuffer) (a_Out : list Z) : option (list Z) :=
  '(a_Out, DataStart) ←
    (if (m_ReadPos b <? m_DataStart b)%nat then
       d ← copy_out b (m_DataStart b) (m_BufferSize b - m_DataStart b);
       Some (a_Out ++ d, 0%nat)
     else Some (a_Out, m_DataStart b));
  d ← copy_out b DataStart (m_ReadPos b - DataStart);
  Some (a_Out ++ d).

(** Moves [a_NumBytes] bytes to another buffer, 1024 at a time; every chunk takes at
    least one byte, so [a_NumBytes] rounds are enough. *)
Fixpoint ReadToByteBuffer_loop (fuel : nat) (src dst : cByteBuffer) (a_NumBytes : nat)
    : option (cByteBuffer * cByteBuffer) :=
  match fuel with
  | O => Some (src, dst)
  | S fuel =>
    if (a_NumBytes =? 0)%nat then Some (src, dst) else
    let num := if (1024 <? a_NumBytes)%nat then 1024%nat else a_NumBytes in
    match ReadBuf num src with
    | Some (Some buf, src) =>
      match Write buf dst with
      | Some (Some tt, dst) => ReadToByteBuffer_loop fuel src dst (a_NumBytes - num)
      | _ => None
      end
    | _ => None
    end
  end.

Definition ReadToByteBuffer (src dst : cByteBuffer) (a_NumBytes : nat)
    : option (bool * cByteBuffer * cByteBuffer) :=
  if negb (CanWriteBytes dst a_NumBytes) || negb (CanReadBytes src a_NumBytes)
  then Some (false, src, dst) else
  '(src, dst) ← ReadToByteBuffer_loop a_NumBytes src dst a_NumBytes;
  Some (true, src, dst).

(** ** Typed reads *)

Definition ReadBEInt8 : BB Z := NEEDBYTES 1;; l <- ReadBuf 1;; ret (to_signed 8 (le_val l)).
Definition ReadBEUInt8 : BB Z := NEEDBYTES 1;; l <- ReadBuf 1;; ret (le_val l).
Definition ReadBEInt16 : BB Z :=
  NEEDBYTES 2;; l <- ReadBuf 2;; ret (to_signed 16 (ntohs (le_val l))).
Definition ReadBEUInt16 : BB Z := NEEDBYTES 2;; l <- ReadBuf 2;; ret (ntohs (le_val l)).
Definition ReadBEInt32 : BB Z :=
  NEEDBYTES 4;; l <- ReadBuf 4;; ret (to_signed 32 (ntohl (le_val l))).
Definition ReadBEUInt32 : BB Z := NEEDBYTES 4;; l <- ReadBuf 4;; ret (ntohl (le_val l)).
Definition ReadBEInt64 : BB Z :=
  NEEDBYTES 8;; l <- ReadBuf 8;; ret (NetworkToHostLong8 (le_val l)).
Definition ReadBEUInt64 : BB Z :=
  NEEDBYTES 8;; l <- ReadBuf 8;; ret (NetworkToHostULong8 (le_val l)).
Definition ReadBEFloat : BB Z :=
  NEEDBYTES 4;; l <- ReadBuf 4;; ret (NetworkToHostFloat4 (le_val l)).
Definition ReadBEDouble : BB Z :=
  NEEDBYTES 8;; l <- ReadBuf 8;; ret (NetworkToHostDouble8 (le_val l)).
Definition ReadBool : BB bool :=
  NEEDBYTES 1;; Value <- ReadBuf 1;; ret (negb (le_val Value =? 0)).

(** The do-while loop of [ReadVarInt32]/[ReadVarInt64] on a [w]-bit [Value]: the shift
    is undefined from [Shift >= w] on, which bounds the rounds. *)
Fixpoint ReadVarInt_loop (w : Z) (fuel : nat) (Value Shift : Z) : BB Z :=
  match fuel with
  | O => undefined
  | S fuel =>
    NEEDBYTES 1;;
    l <- ReadBuf 1;;
    let b := le_val l in
    if w <=? Shift then undefined else
    let Value := Z.lor Value (wrap w (Z.shiftl (Z.land b 0x7f) Shift)) in
    let Shift := Shift + 7 in
    if negb (Z.land b 0x80 =? 0) then ReadVarInt_loop w fuel Value Shift else ret Value
  end.

Definition ReadVarInt32 : BB Z := ReadVarInt_loop 32 6 0 0.
Definition ReadVarInt64 : BB Z := ReadVarInt_loop 64 11 0 0.

(** The template [ReadVarInt<T>] at [T = UInt32]. *)
Definition ReadVarInt : BB Z := v <- ReadVarInt64;; ret (u32 v).

Definition ReadVarUTF8String : BB (list Z) :=
  Size <- ReadVarInt;; ReadString (Z.to_nat Size).

Definition ReadLEInt : BB Z := NEEDBYTES 4;; l <- ReadBuf 4;; ret (to_signed 32 (le_val l)).

Definition ReadPosition64 : BB (Z * Z * Z) :=
  Value <- ReadBEInt64;;
  let BlockXRaw := Z.land (Z.shiftr Value 38) 0x03ffffff in
  let BlockYRaw := Z.land (Z.shiftr Value 26) 0x0fff in
  let BlockZRaw := Z.land Value 0x03ffffff in
  let a_BlockX := if Z.land BlockXRaw 0x02000000 =? 0 then BlockXRaw
                  else - (0x04000000 - BlockXRaw) in
  let a_BlockY := if Z.land BlockYRaw 0x0800 =? 0 then BlockYRaw
                  else - (0x0800 - BlockYRaw) in
  let a_BlockZ := if Z.land BlockZRaw 0x02000000 =? 0 then BlockZRaw
                  else - (0x04000000 - BlockZRaw) in
  ret (a_BlockX, a_BlockY, a_BlockZ).

Definition ReadUTF16String (a_NumChars : nat) : BB (list Z) :=
  RawData <- ReadString (a_NumChars * 2);;
  match RawBEToUTF8 RawData a_NumChars [] with Some s => ret s | None => undefined end.

Definition ReadBEUTF16String16 : BB (list Z) :=
  Length <- ReadBEUInt16;; ReadUTF16String (Z.to_nat Length).

(** ** Typed writes: an argument is a value of its C type *)

Definition WriteBEInt8 (a_Value : Z) : BB unit := PUTBYTES 1;; WriteBuf (le_bytes 1 a_Value).
Definition WriteBEUInt8 (a_Value : Z) : BB unit := PUTBYTES 1;; WriteBuf (le_bytes 1 a_Value).
Definition WriteBEInt16 (a_Value : Z) : BB unit :=
  PUTBYTES 2;; WriteBuf (le_bytes 2 (htons (u16 a_Value))).
Definition WriteBEUInt16 (a_Value : Z) : BB unit :=
  PUTBYTES 2;; WriteBuf (le_bytes 2 (htons a_Value)).
Definition WriteBEInt32 (a_Value : Z) : BB unit :=
  PUTBYTES 4;; WriteBuf (le_bytes 4 (HostToNetwork4 (u32 a_Value))).
Definition WriteBEUInt32 (a_Value : Z) : BB unit :=
  PUTBYTES 4;; WriteBuf (le_bytes 4 (HostToNetwork4 a_Value)).
Definition WriteBEInt64 (a_Value : Z) : BB unit :=
  PUTBYTES 8;; WriteBuf (le_bytes 8 (HostToNetwork8 (u64 a_Value))).
Definition WriteBEUInt64 (a_Value : Z) : BB unit :=
  PUTBYTES 8;; WriteBuf (le_bytes 8 (HostToNetwork8 a_Value)).
Definition WriteBEFloat (a_Value : Z) : BB unit :=
  PUTBYTES 4;; WriteBuf (le_bytes 4 (HostToNetwork4 a_Value)).
Definition WriteBEDouble (a_Value : Z) : BB unit :=
  PUTBYTES 8;; WriteBuf (le_bytes 8 (HostToNetwork8 a_Value)).
Definition WriteBool (a_Value : bool) : BB unit := Write [if a_Value then 1 else 0].

(** The loop that fills [b[size]]; [None] is a write past the end of [b]. *)
Fixpoint varint_bytes (size : nat) (a_Value : Z) : option (list Z) :=
  match size with
  | O => None
  | S size =>
    let c := Z.lor (Z.land a_Value 0x7f) (if 0x7f <? a_Value then 0x80 else 0x00) in
    let a_Value := Z.shiftr a_Value 7 in
    if 0 <? a_Value then rest ← varint_bytes size a_Value; Some (c :: rest) else Some [c]
  end.

Definition write_varint (size : nat) (a_Value : Z) : BB unit :=
  match varint_bytes size a_Value with Some b => WriteBuf b | None => undefined end.

Definition WriteVarInt32 (a_Value : Z) : BB unit := write_varint 5 a_Value.
Definition WriteVarInt64 (a_Value : Z) : BB unit := write_varint 10 a_Value.

Definition WriteVarUTF8String (a_Value : list Z) : BB unit :=
  PUTBYTES (length a_Value + 1);;
  WriteVarInt32 (u32 (Z.of_nat (length a_Value)));;
  WriteBuf a_Value.

Definition WriteLEInt32 (a_Value : Z) : BB unit := WriteBuf (le_bytes 4 (u32 a_Value)).

Definition WritePosition64 (a_BlockX a_BlockY a_BlockZ : Z) : BB unit :=
  WriteBEInt64 (to_signed 64
    (Z.lor (Z.lor (Z.shiftl (Z.land a_BlockX 0x3FFFFFF) 38)
                  (Z.shiftl (Z.land a_BlockY 0xFFF) 26))
           (Z.land a_BlockZ 0x3FFFFFF))).

(** ** The specification: a byte queue with a part already read *)

Record queue := {
  consumed : list Z;       (* read since the last commit *)
  pending : list Z;        (* written, not read *)
  capacity : nat
}.

Definition used (q : queue) : nat := length (consumed q) + length (pending q).

Definition SQ (A : Type) : Type := queue -> option (option A * queue).
Definition sret {A} (x : A) : SQ A := fun q => Some (Some x, q).
Definition sundef {A} : SQ A := fun _ => None.
Definition sbind {A B} (m : SQ A) (f : A -> SQ B) : SQ B := fun q =>
  match m q with
  | Some (Some x, q) => f x q
  | Some (None, q) => Some (None, q)
  | None => None
  end.

Definition q_need (n : nat) : SQ unit := fun q =>
  if (n <=? length (pending q))%nat then Some (Some tt, q) else Some (None, q).
Definition q_put (n : nat) : SQ unit := fun q =>
  if (n <=? capacity q - used q)%nat then Some (Some tt, q) else Some (None, q).

Definition q_push (bs : list Z) (q : queue) : queue :=
  {| consumed := consumed q; pending := pending q ++ bs; capacity := capacity q |}.
Definition q_pop (n : nat) (q : queue) : queue :=
  {| consumed := consumed q ++ take n (pending q); pending := drop n (pending q);
     capacity := capacity q |}.
Definition q_commit (q : queue) : queue :=
  {| consumed := []; pending := pending q; capacity := capacity q |}.
Definition q_reset (q : queue) : queue :=
  {| consumed := []; pending := consumed q ++ pending q; capacity := capacity q |}.

Definition q_write (bs : list Z) : SQ unit := fun q =>
  if (used q + length bs <=? capacity q)%nat then Some (Some tt, q_push bs q)
  else Some (None, q).
Definition q_read (n : nat) : SQ (list Z) := fun q =>
  if (n <=? length (pending q))%nat then Some (Some (take n (pending q)), q_pop n q)
  else Some (None, q).

(** ** The representation of a queue *)

(** The cell [i] places after [a] in a ring of [size] cells. *)
Definition ring_pos (size a i : nat) : nat :=
  if (a + i <? size)%nat then (a + i)%nat else (a + i - size)%nat.

Record represents (b : cByteBuffer) (q : queue) : Prop := {
  rep_length : length (m_Buffer b) = m_BufferSize b;
  rep_size : m_BufferSize b = S (capacity q);
  rep_start : (m_DataStart b < m_BufferSize b)%nat;
  rep_used : (used q <= capacity q)%nat;
  rep_read : m_ReadPos b = ring_pos (m_BufferSize b) (m_DataStart b) (length (consumed q));
  rep_write : m_WritePos b = ring_pos (m_BufferSize b) (m_DataStart b) (used q);
  rep_cells : forall i, (i < used q)%nat ->
    m_Buffer b !! ring_pos (m_BufferSize b) (m_DataStart b) i = (consumed q ++ pending q) !! i;
  rep_bytes : bytes_ok (consumed q) /\ bytes_ok (pending q)
}.

(** A method simulates an operation of the queue. *)
Definition simulates {A} (m : BB A) (s : SQ A) : Prop :=
  forall b q, represents b q ->
  match s q with
  | Some (r, q') => exists b', m b = Some (r, b') /\ represents b' q'
  | None => m b = None
  end.

(** ** The ring *)

#[local] Ltac ring_cases :=
  unfold ring_pos in *;
  repeat match goal with
  | |- context [Nat.ltb ?a ?b] => destruct (Nat.ltb_spec a b)
  | H : context [Nat.ltb ?a ?b] |- _ => destruct (Nat.ltb_spec a b)
  | |- context [Nat.leb ?a ?b] => destruct (Nat.leb_spec a b)
  | H : context [Nat.leb ?a ?b] |- _ => destruct (Nat.leb_spec a b)
  end.

#[local] Ltac open_rep R :=
  destruct R as [Rlen Rsize Rstart Rused Rread Rwrite Rcells Rbytes].

Lemma rep_free_space b q : represents b q -> GetFreeSpace b = (capacity q - used q)%nat.
Proof.
  intros R. open_rep R. unfold GetFreeSpace. rewrite Rwrite, Rsize. rewrite Rsize in Rstart.
  ring_cases; lia.
Qed.

Lemma rep_used_space b q : represents b q -> GetUsedSpace b = used q.
Proof.
  intros R. unfold GetUsedSpace. rewrite (rep_free_space _ _ R).
  open_rep R. lia.
Qed.

Lemma rep_readable b q : represents b q -> GetReadableSpace b = length (pending q).
Proof.
  intros R. open_rep R. unfold GetReadableSpace. rewrite Rwrite, Rread, Rsize.
  rewrite Rsize in Rstart. unfold used in *. ring_cases; lia.
Qed.

Lemma rep_valid b q : represents b q -> CheckValid b = true.
Proof.
  intros R. open_rep R. unfold CheckValid. rewrite Rwrite, Rread, Rsize.
  rewrite Rsize in Rstart. unfold used in *. ring_cases; simpl; lia.
Qed.

(** A buffer whose array holds the old cells and then [bytes] represents the push. *)
Lemma rep_push b q bytes buf' pos' :
  represents b q -> bytes_ok bytes -> (used q + length bytes <= capacity q)%nat ->
  length buf' = length (m_Buffer b) ->
  pos' = ring_pos (m_BufferSize b) (m_DataStart b) (used q + length bytes) ->
  (forall i, (i < used q)%nat ->
     buf' !! ring_pos (m_BufferSize b) (m_DataStart b) i =
     m_Buffer b !! ring_pos (m_BufferSize b) (m_DataStart b) i) ->
  (forall j, (j < length bytes)%nat ->
     buf' !! ring_pos (m_BufferSize b) (m_DataStart b) (used q + j) = bytes !! j) ->
  represents (set_WritePos pos' (set_Buffer buf' b)) (q_push bytes q).
Proof.
  intros R Hok Hfit Hlen -> Hold Hnew. open_rep R. unfold used in *.
  split; simpl; unfold used; simpl; rewrite ?length_app, ?Nat.add_assoc; auto; [congruence| |];
    [|destruct Rbytes; rewrite Forall_app; auto].
  intros i Hi. rewrite app_assoc.
  destruct (decide (i < length (consumed q) + length (pending q))%nat).
  - rewrite lookup_app_l by (rewrite length_app; lia). rewrite Hold by lia. auto.
  - rewrite lookup_app_r by (rewrite length_app; lia). rewrite length_app.
    rewrite <- Hnew by lia. do 2 f_equal. lia.
Qed.

Lemma rep_write_lt b q : represents b q -> (m_WritePos b < m_BufferSize b)%nat.
Proof. intros R. apply rep_valid in R. unfold CheckValid in R. apply andb_prop in R as [_ R].
  apply Nat.ltb_lt. exact R. Qed.

Lemma write_at_fits buf pos bytes :
  (pos + length bytes <= length buf)%nat ->
  exists buf', write_at buf (Z.of_nat pos) bytes = Some buf' /\ length buf' = length buf /\
  forall j, buf' !! j = if decide (pos <= j < pos + length bytes)%nat
                        then bytes !! (j - pos)%nat else buf !! j.
Proof.
  intros H. eexists. split; [apply write_at_Some; unfold in_bounds; lia|].
  pose proof (write_at_Some buf (Z.of_nat pos) bytes ltac:(unfold in_bounds; lia)) as E.
  split; [eapply write_at_length; exact E|].
  intros j. rewrite (write_at_lookup _ _ _ _ j E), Nat2Z.id. reflexivity.
Qed.

(** The two copies of [Write] and [WriteBuf], as one function. *)
Definition ring_copy_in (b : cByteBuffer) (bytes : list Z) : option cByteBuffer :=
  let n := (m_BufferSize b - m_WritePos b)%nat in
  if (n <=? length bytes)%nat then
    b1 ← copy_in b (m_WritePos b) (take n bytes);
    b2 ← copy_in b1 0 (drop n bytes);
    Some (set_WritePos (length bytes - n) b2)
  else
    b1 ← copy_in b (m_WritePos b) bytes;
    Some (set_WritePos (m_WritePos b + length bytes) b1).

Lemma copy_in_nil b pos :
  (pos <= length (m_Buffer b))%nat -> copy_in b pos [] = Some (set_Buffer (m_Buffer b) b).
Proof.
  intros H. unfold copy_in. rewrite write_at_Some by (unfold in_bounds; simpl; lia).
  simpl. rewrite Nat.add_0_r, take_drop. reflexivity.
Qed.

Lemma set_Buffer_id b : set_Buffer (m_Buffer b) b = b.
Proof. destruct b; reflexivity. Qed.

Lemma set_WritePos_id b : set_WritePos (m_WritePos b) b = b.
Proof. destruct b; reflexivity. Qed.

Lemma ring_copy_in_spec b q bytes :
  represents b q -> bytes_ok bytes -> (used q + length bytes <= capacity q)%nat ->
  exists b', ring_copy_in b bytes = Some b' /\ represents b' (q_push bytes q).
Proof.
  intros R Hok Hfit. pose proof (rep_write_lt _ _ R) as Hw. pose proof R as R0. open_rep R.
  unfold ring_copy_in, copy_in.
  set (n := (m_BufferSize b - m_WritePos b)%nat).
  destruct (Nat.leb_spec n (length bytes)) as [Hle|Hlt].
  - destruct (write_at_fits (m_Buffer b) (m_WritePos b) (take n bytes)) as (l1 & -> & L1 & E1);
      [rewrite length_take; lia|].
    cbn [option_bind mbind m_Buffer set_Buffer].
    destruct (write_at_fits l1 0 (drop n bytes)) as (l2 & -> & L2 & E2);
      [rewrite length_drop; unfold used in *; lia|].
    cbn [option_bind mbind]. eexists. split; [reflexivity|].
    refine (rep_push _ _ _ l2 _ R0 Hok Hfit _ _ _ _); [congruence | | |].
    + rewrite Rsize in *. unfold n. ring_cases; lia.
    + intros i Hi. rewrite E2, E1, length_drop, length_take. rewrite Rsize in *.
      unfold n in *. repeat case_decide; try reflexivity; ring_cases; lia.
    + intros j Hj. rewrite E2, E1, length_drop, length_take, lookup_drop.
      rewrite Rsize in *. unfold n in *.
      repeat case_decide; rewrite ?lookup_take_lt by (ring_cases; lia);
        try (f_equal; ring_cases; lia); ring_cases; lia.
  - destruct (write_at_fits (m_Buffer b) (m_WritePos b) bytes) as (l1 & -> & L1 & E1); [lia|].
    cbn [option_bind mbind]. eexists. split; [reflexivity|].
    refine (rep_push _ _ _ l1 _ R0 Hok Hfit L1 _ _ _).
    + cbn [set_Buffer m_WritePos]. rewrite Rsize in *. unfold n in *. ring_cases; lia.
    + intros i Hi. rewrite E1. rewrite Rsize in *. unfold n in *.
      case_decide; [ring_cases; lia | reflexivity].
    + intros j Hj. rewrite E1. rewrite Rsize in *. unfold n in *.
      case_decide; [f_equal; ring_cases; lia | ring_cases; lia].
Qed.

Lemma set_write_copy p b l : set_WritePos p (set_Buffer l b) = set_Buffer l (set_WritePos p b).
Proof. reflexivity. Qed.

Lemma copy_in_0 b bytes p :
  copy_in (set_WritePos p b) 0 bytes = (set_WritePos p <$> copy_in b 0 bytes).
Proof. unfold copy_in. simpl. destruct (write_at _ _ _); reflexivity. Qed.

(** [Write] and [WriteBuf] differ in their tests, not in what they do. *)
Lemma Write_copies b q bytes :
  represents b q ->
  Write bytes b =
    (if (used q + length bytes <=? capacity q)%nat
     then b' ← ring_copy_in b bytes; Some (Some tt, b') else Some (None, b)).
Proof.
  intros R. pose proof (rep_write_lt _ _ R) as Hw. unfold Write, ring_copy_in.
  rewrite (rep_free_space _ _ R). open_rep R.
  destruct (Nat.ltb_spec (capacity q - used q) (length bytes)),
    (Nat.leb_spec (used q + length bytes) (capacity q)); try lia; [reflexivity|].
  destruct (Nat.leb_spec (m_BufferSize b - m_WritePos b) (length bytes)).
  - destruct (Nat.ltb_spec 0 (m_BufferSize b - m_WritePos b)); [|lia].
    unfold copy_in. destruct (write_at (m_Buffer b) _ _) as [l|] eqn:E; [|reflexivity].
    apply write_at_length in E. cbn [option_bind mbind set_Buffer m_Buffer set_WritePos m_WritePos].
    rewrite length_drop.
    destruct (Nat.ltb_spec 0 (length bytes - (m_BufferSize b - m_WritePos b))).
    + destruct (write_at l _ _); reflexivity.
    + rewrite (nil_length_inv (drop _ bytes)) by (rewrite length_drop; lia).
      rewrite write_at_Some by (unfold in_bounds; simpl; lia). simpl.
      replace (length bytes - _)%nat with 0%nat by lia. rewrite drop_0. reflexivity.
  - cbn [option_bind mbind]. destruct (Nat.ltb_spec 0 (length bytes)).
    + unfold copy_in. destruct (write_at _ _ _); reflexivity.
    + rewrite (nil_length_inv bytes) by lia. rewrite copy_in_nil by lia.
      simpl. rewrite Nat.add_0_r, set_Buffer_id, set_WritePos_id. reflexivity.
Qed.

Lemma WriteBuf_copies b q bytes :
  represents b q ->
  WriteBuf bytes b =
    (if (used q + length bytes <=? capacity q)%nat
     then b' ← ring_copy_in b bytes; Some (Some tt, b') else Some (None, b)).
Proof.
  intros R. pose proof (rep_write_lt _ _ R) as Hw.
  unfold WriteBuf, ring_copy_in, bind, PUTBYTES, CanWriteBytes.
  rewrite (rep_free_space _ _ R). open_rep R.
  destruct (Nat.leb_spec (length bytes) (capacity q - used q)),
    (Nat.leb_spec (used q + length bytes) (capacity q)); try lia; [|reflexivity].
  destruct (Nat.leb_spec (m_BufferSize b - m_WritePos b) (length bytes)).
  - unfold copy_in. destruct (write_at (m_Buffer b) _ _) as [l|] eqn:E; [|reflexivity].
    apply write_at_length in E. cbn [option_bind mbind set_Buffer m_Buffer set_WritePos m_WritePos].
    rewrite length_drop.
    destruct (Nat.ltb_spec 0 (length bytes - (m_BufferSize b - m_WritePos b))).
    + destruct (write_at l _ _); reflexivity.
    + rewrite (nil_length_inv (drop _ bytes)) by (rewrite length_drop; lia).
      rewrite write_at_Some by (unfold in_bounds; simpl; lia). simpl.
      replace (length bytes - _)%nat with 0%nat by lia. rewrite drop_0. reflexivity.
  - cbn [option_bind mbind]. destruct (Nat.ltb_spec 0 (length bytes)).
    + unfold copy_in. destruct (write_at _ _ _); reflexivity.
    + rewrite (nil_length_inv bytes) by lia. rewrite copy_in_nil by lia.
      simpl. rewrite Nat.add_0_r, set_Buffer_id, set_WritePos_id. reflexivity.
Qed.

Lemma sim_Write bytes : bytes_ok bytes -> simulates (Write bytes) (q_write bytes).
Proof.
  intros Hok b q R. rewrite (Write_copies _ _ _ R). unfold q_write.
  destruct (Nat.leb_spec (used q + length bytes) (capacity q)); [|eauto].
  destruct (ring_copy_in_spec _ _ _ R Hok ltac:(eassumption)) as (b' & -> & R'). simpl. eauto.
Qed.

Lemma sim_WriteBuf bytes : bytes_ok bytes -> simulates (WriteBuf bytes) (q_write bytes).
Proof.
  intros Hok b q R. rewrite (WriteBuf_copies _ _ _ R). unfold q_write.
  destruct (Nat.leb_spec (used q + length bytes) (capacity q)); [|eauto].
  destruct (ring_copy_in_spec _ _ _ R Hok ltac:(eassumption)) as (b' & -> & R'). simpl. eauto.
Qed.

(** Moving the read position. *)
Lemma rep_pop n b q :
  represents b q -> (n <= length (pending q))%nat ->
  represents (set_ReadPos (ring_pos (m_BufferSize b) (m_DataStart b) (length (consumed q) + n)) b)
    (q_pop n q).
Proof.
  intros R Hn. open_rep R. unfold used in *.
  assert (E : (length (consumed q) + length (take n (pending q)) + length (drop n (pending q))
               = length (consumed q) + length (pending q))%nat)
    by (rewrite length_take, length_drop; lia).
  split; simpl; unfold used; simpl; rewrite ?length_app, ?E; auto.
  - rewrite length_take. do 2 f_equal. lia.
  - intros i Hi. rewrite <- app_assoc, take_drop. auto.
  - rewrite Forall_app. destruct Rbytes. auto using Forall_take, Forall_drop.
Qed.

(** The cells from the [k]-th one hold the data from its [k]-th byte. *)
Lemma rep_copy_out b q k n :
  represents b q -> (k + n <= used q)%nat ->
  (ring_pos (m_BufferSize b) (m_DataStart b) k + n <= m_BufferSize b)%nat ->
  copy_out b (ring_pos (m_BufferSize b) (m_DataStart b) k) n =
    Some (take n (drop k (consumed q ++ pending q))).
Proof.
  intros R Hn Hfit. open_rep R. unfold copy_out.
  rewrite read_at_Some by (unfold in_bounds; lia). rewrite Nat2Z.id. f_equal.
  apply list_eq. intros i. destruct (decide (i < n)%nat).
  - rewrite !lookup_take_lt, !lookup_drop by assumption. rewrite <- Rcells by lia.
    f_equal. ring_cases; lia.
  - rewrite !lookup_take_ge by lia. reflexivity.
Qed.

(** A read that stays before the end of the array, and one that wraps. *)
Lemma read_straight b q n :
  represents b q -> (n <= length (pending q))%nat ->
  (n < m_BufferSize b - m_ReadPos b)%nat ->
  copy_out b (m_ReadPos b) n = Some (take n (pending q)) /\
  ring_pos (m_BufferSize b) (m_DataStart b) (length (consumed q) + n) = (m_ReadPos b + n)%nat.
Proof.
  intros R Hn Hlt. pose proof R as R0. open_rep R. split.
  - rewrite Rread, (rep_copy_out _ _ _ _ R0), drop_app_length; unfold used; auto; lia.
  - unfold used in *. rewrite Rread, Rsize in *. ring_cases; lia.
Qed.

Lemma read_wraps b q n :
  represents b q -> (n <= length (pending q))%nat ->
  let t := (m_BufferSize b - m_ReadPos b)%nat in
  (t <= n)%nat ->
  (0 < t)%nat /\
  copy_out b (m_ReadPos b) t = Some (take t (pending q)) /\
  copy_out b 0 (n - t) = Some (take (n - t) (drop t (pending q))) /\
  ring_pos (m_BufferSize b) (m_DataStart b) (length (consumed q) + n) = (n - t)%nat.
Proof.
  intros R Hn t Ht. pose proof R as R0. open_rep R.
  assert (Hr : (m_ReadPos b < m_BufferSize b)%nat)
    by (rewrite Rread, Rsize in *; unfold used in *; ring_cases; lia).
  split; [unfold t; lia | split; [|split]].
  - rewrite Rread, (rep_copy_out _ _ _ _ R0), drop_app_length; unfold used; auto; lia.
  - assert (E0 : ring_pos (m_BufferSize b) (m_DataStart b) (length (consumed q) + t) = 0%nat)
      by (unfold t, used in *; rewrite Rread, Rsize in *; ring_cases; lia).
    rewrite <- E0, (rep_copy_out _ _ _ _ R0); [|unfold used in *; lia|rewrite E0; unfold used in *; lia].
    rewrite <- drop_drop, drop_app_length. reflexivity.
  - unfold t, used in *. rewrite Rread, Rsize in *. ring_cases; lia.
Qed.

Lemma sim_ReadString n : simulates (ReadString n) (q_read n).
Proof.
  intros b q R. unfold ReadString, bind, NEEDBYTES, CanReadBytes, q_read.
  rewrite (rep_readable _ _ R).
  destruct (Nat.leb_spec n (length (pending q))) as [Hn|]; [|eauto].
  pose proof (rep_pop n _ _ R Hn) as Rp.
  destruct (Nat.leb_spec (m_BufferSize b - m_ReadPos b) n) as [Ht|Ht].
  - destruct (read_wraps _ _ _ R Hn Ht) as (Hpos & C1 & C2 & Ep). rewrite Ep in Rp.
    destruct (Nat.ltb_spec 0 (m_BufferSize b - m_ReadPos b)); [|lia].
    rewrite C1. cbn [option_bind mbind].
    destruct (Nat.ltb_spec 0 (n - (m_BufferSize b - m_ReadPos b))) as [Hrest|Hrest].
    + cbn [m_ReadPos set_ReadPos]. unfold copy_out in *. cbn [m_Buffer set_ReadPos].
      rewrite C2. cbn [option_bind mbind]. eexists. split; [|exact Rp].
      rewrite take_take_drop, Nat.add_sub_assoc, Nat.add_comm, Nat.add_sub by lia. reflexivity.
    + eexists. split; [repeat f_equal; lia|].
      replace (n - _)%nat with 0%nat in Rp by lia. exact Rp.
  - destruct (read_straight _ _ _ R Hn Ht) as (C & Ep). rewrite Ep in Rp.
    cbn [option_bind mbind]. destruct (Nat.ltb_spec 0 n) as [Hpos|Hzero].
    + rewrite C. cbn [option_bind mbind]. eauto.
    + assert (n = 0%nat) as -> by lia. eexists. split; [reflexivity|].
      rewrite Nat.add_0_r in Rp. destruct b; exact Rp.
Qed.

Lemma ReadBuf_ReadString n : ReadBuf n = ReadString n.
Proof. reflexivity. Qed.

Lemma sim_ReadBuf n : simulates (ReadBuf n) (q_read n).
Proof. rewrite ReadBuf_ReadString. apply sim_ReadString. Qed.

(** ** The other methods *)

Lemma sim_ret {A} (x : A) : simulates (ret x) (sret x).
Proof. intros b q R. simpl. unfold ret. eauto. Qed.

Lemma sim_undefined {A} : simulates (A := A) undefined sundef.
Proof. intros b q R. reflexivity. Qed.

Lemma sim_bind {A B} (m : BB A) s (f : A -> BB B) g :
  simulates m s -> (forall x, simulates (f x) (g x)) -> simulates (bind m f) (sbind s g).
Proof.
  intros Hm Hf b q R. specialize (Hm b q R). unfold bind, sbind.
  destruct (s q) as [[[x|] q']|]; [| |rewrite Hm; reflexivity].
  - destruct Hm as (b' & -> & R'). apply Hf. assumption.
  - destruct Hm as (b' & -> & R'). eauto.
Qed.

Lemma sim_PUTBYTES n : simulates (PUTBYTES n) (q_put n).
Proof.
  intros b q R. unfold PUTBYTES, CanWriteBytes, q_put. rewrite (rep_free_space _ _ R).
  destruct (_ <=? _)%nat; eauto.
Qed.

(** What the check and the read of a typed reader do. *)
Lemma sim_need_read {A} n (f : list Z -> BB A) g :
  (forall l, length l = n -> bytes_ok l -> simulates (f l) (g l)) ->
  simulates (NEEDBYTES n;; l <- ReadBuf n;; f l) (sbind (q_read n) g).
Proof.
  intros Hf b q R. pose proof (sim_ReadBuf n b q R) as Hm.
  assert (En : NEEDBYTES n b =
    if (n <=? length (pending q))%nat then Some (Some tt, b) else Some (None, b))
    by (unfold NEEDBYTES, CanReadBytes; rewrite (rep_readable _ _ R); reflexivity).
  unfold bind, sbind. rewrite En. unfold q_read in *.
  destruct (Nat.leb_spec n (length (pending q))); [|eauto].
  destruct Hm as (b' & -> & R'). apply Hf; [|..|assumption].
  - rewrite length_take. lia.
  - apply Forall_take. apply R.
Qed.

Lemma sim_put_write n bytes :
  length bytes = n -> bytes_ok bytes -> simulates (PUTBYTES n;; WriteBuf bytes) (q_write bytes).
Proof.
  intros Hn Hok b q R. pose proof (sim_WriteBuf _ Hok b q R) as Hm.
  assert (En : PUTBYTES n b =
    if (n <=? capacity q - used q)%nat then Some (Some tt, b) else Some (None, b))
    by (unfold PUTBYTES, CanWriteBytes; rewrite (rep_free_space _ _ R); reflexivity).
  pose proof (rep_used _ _ R). unfold bind. rewrite En. unfold q_write in *.
  destruct (Nat.leb_spec n (capacity q - used q)),
    (Nat.leb_spec (used q + length bytes) (capacity q)); try lia; eauto.
Qed.

Definition q_skip (n : nat) : SQ unit := fun q =>
  if (n <=? length (pending q))%nat then Some (Some tt, q_pop n q) else Some (None, q).

Lemma sim_SkipRead n : simulates (SkipRead n) (q_skip n).
Proof.
  intros b q R. unfold SkipRead, CanReadBytes, q_skip. rewrite (rep_readable _ _ R).
  destruct (Nat.leb_spec n (length (pending q))) as [Hn|]; [|eauto].
  eexists. split; [reflexivity|]. pose proof (rep_pop _ _ _ R Hn) as Rp.
  unfold AdvanceReadPos. cbn [m_ReadPos m_BufferSize set_ReadPos].
  destruct (Nat.leb_spec (m_BufferSize b) (m_ReadPos b + n)) as [Ht|Ht].
  - destruct (read_wraps _ _ _ R Hn ltac:(lia)) as (Hpos & _ & _ & Ep). rewrite Ep in Rp.
    replace (n - (m_BufferSize b - m_ReadPos b))%nat
      with (m_ReadPos b + n - m_BufferSize b)%nat in Rp by lia. exact Rp.
  - destruct (read_straight _ _ _ R Hn ltac:(lia)) as (_ & Ep). rewrite Ep in Rp. exact Rp.
Qed.

Lemma sim_ReadAll :
  simulates ReadAll (fun q => Some (Some (pending q), q_pop (length (pending q)) q)).
Proof.
  intros b q R. unfold ReadAll. rewrite (rep_readable _ _ R).
  pose proof (sim_ReadString (length (pending q)) b q R) as H. unfold q_read in H.
  rewrite Nat.leb_refl, firstn_all in H. exact H.
Qed.

Lemma rep_commit b q : represents b q -> represents (CommitRead b) (q_commit q).
Proof.
  intros R. open_rep R. unfold used in *. split; simpl; unfold used; simpl; auto.
  - rewrite Rread, Rsize in *. ring_cases; lia.
  - lia.
  - rewrite Rread, Rsize in *. ring_cases; lia.
  - rewrite Rread, Rsize in *. ring_cases; lia.
  - intros i Hi. specialize (Rcells (length (consumed q) + i)%nat ltac:(lia)).
    rewrite lookup_app_r in Rcells by lia. rewrite Nat.add_sub' in Rcells. rewrite <- Rcells.
    f_equal. rewrite Rread, Rsize in *. ring_cases; lia.
  - destruct Rbytes. auto.
Qed.

Lemma rep_reset b q : represents b q -> represents (ResetRead b) (q_reset q).
Proof.
  intros R. open_rep R. unfold used in *.
  split; simpl; unfold used; simpl; rewrite ?length_app; auto.
  - ring_cases; lia.
  - destruct Rbytes. rewrite Forall_app. auto.
Qed.

Lemma rep_again b q out : represents b q -> ReadAgain b out = Some (out ++ consumed q).
Proof.
  intros R. pose proof (rep_commit _ _ R) as _. pose proof R as R0. open_rep R.
  assert (H0 : ring_pos (m_BufferSize b) (m_DataStart b) 0 = m_DataStart b)
    by (ring_cases; lia).
  assert (Htake : forall n, take (length (consumed q) - n) (drop n (consumed q ++ pending q))
                            = drop n (consumed q)).
  { intros n. destruct (decide (n <= length (consumed q))%nat).
    - rewrite drop_app_le by lia. rewrite <- length_drop. apply take_app_length.
    - rewrite (drop_ge (consumed q)) by lia.
      replace (length (consumed q) - n)%nat with 0%nat by lia. reflexivity. }
  unfold ReadAgain. destruct (Nat.ltb_spec (m_ReadPos b) (m_DataStart b)) as [Hw|Hw].
  - set (t := (m_BufferSize b - m_DataStart b)%nat).
    rewrite <- H0 at 1. rewrite (rep_copy_out _ _ _ _ R0); unfold used in *;
      [|rewrite Rread, Rsize in *; unfold t; ring_cases; lia|rewrite H0; unfold t; lia].
    cbn [option_bind mbind].
    assert (Ht : ring_pos (m_BufferSize b) (m_DataStart b) t = 0%nat)
      by (unfold t; ring_cases; lia).
    assert (Ep : (m_ReadPos b = length (consumed q) - t)%nat)
      by (rewrite Rread, Rsize in *; unfold t; ring_cases; lia).
    assert (Hp : (t <= length (consumed q))%nat)
      by (rewrite Rread, Rsize in *; unfold t; ring_cases; lia).
    rewrite Nat.sub_0_r, Ep, <- Ht at 1.
    rewrite (rep_copy_out _ _ _ _ R0), Htake; unfold used in *; [|lia|rewrite Ht; lia].
    cbn [option_bind mbind]. rewrite drop_0, take_app_le, <- app_assoc, take_drop by lia.
    reflexivity.
  - cbn [option_bind mbind].
    assert (Ep : (m_ReadPos b - m_DataStart b = length (consumed q))%nat)
      by (unfold used in *; rewrite Rread, Rsize in *; ring_cases; lia).
    rewrite Ep. rewrite <- H0 at 1.
    rewrite (rep_copy_out _ _ _ _ R0), drop_0, take_app_length; unfold used in *;
      [reflexivity | lia | rewrite H0].
    rewrite Rread, Rsize in *. ring_cases; lia.
Qed.

(** ** Byte order *)

Definition be_val (bs : list Z) : Z := le_val (rev bs).
Definition be_bytes (n : nat) (x : Z) : list Z := rev (le_bytes n x).

Lemma length_be_bytes n x : length (be_bytes n x) = n.
Proof. unfold be_bytes. rewrite length_rev. apply length_le_bytes. Qed.

Lemma be_bytes_ok n x : bytes_ok (be_bytes n x).
Proof. apply bytes_ok_rev, le_bytes_ok. Qed.

Lemma be_val_be_bytes n x : be_val (be_bytes n x) = x mod 256 ^ Z.of_nat n.
Proof. unfold be_val, be_bytes. rewrite rev_involutive. apply le_val_le_bytes. Qed.

Lemma bswap_le_val n bs : bytes_ok bs -> length bs = n -> bswap n (le_val bs) = be_val bs.
Proof. intros Hok <-. unfold bswap. rewrite le_bytes_le_val by assumption. reflexivity. Qed.

Lemma le_bytes_add n m x : le_bytes (n + m) x = le_bytes n x ++ le_bytes m (x / 256 ^ Z.of_nat n).
Proof.
  revert x. induction n as [|n IH]; intros x.
  - simpl. rewrite Z.div_1_r. reflexivity.
  - cbn [Nat.add le_bytes app]. rewrite IH, Z.div_div, <- pow256_S
      by (pose proof (pow256_pos n); lia). reflexivity.
Qed.

(** The 64-bit swap out of two 32-bit ones. *)
Lemma swap64 x : u64 (Z.shiftl (htonl (u32 x)) 32 + htonl (Z.shiftr x 32)) = bswap 8 x.
Proof.
  assert (E : htonl (u32 x) = htonl x) by (apply bswap_mod; apply Z.mod_mod; lia).
  assert (E8 : bswap 8 x = Z.shiftl (htonl x) 32 + htonl (Z.shiftr x 32)).
  { rewrite Z.shiftl_mul_pow2, Z.shiftr_div_pow2 by lia.
    unfold bswap. rewrite (le_bytes_add 4 4), rev_app_distr, le_val_app.
    rewrite length_rev, length_le_bytes. change (256 ^ Z.of_nat 4) with (2 ^ 32). lia. }
  rewrite E, <- E8. apply wrap_small. apply (bswap_bound 8).
Qed.

Lemma HostToNetwork8_bytes x : le_bytes 8 (HostToNetwork8 x) = be_bytes 8 x.
Proof. unfold HostToNetwork8. rewrite swap64. apply le_bytes_bswap. Qed.

Lemma ntohll_val bs : bytes_ok bs -> length bs = 8%nat -> ntohll (le_val bs) = be_val bs.
Proof. intros. unfold ntohll. rewrite swap64. apply bswap_le_val; assumption. Qed.

Lemma le_bytes_wrap n w x : w = 8 * Z.of_nat n -> le_bytes n (wrap w x) = le_bytes n x.
Proof.
  intros ->. unfold wrap. rewrite Z.pow_mul_r by lia. change (2 ^ 8) with 256. apply le_bytes_mod.
Qed.

(** ** Variable-length integers *)

(** Groups of seven bits, the low ones first; bit 7 marks that more follow. *)
Fixpoint leb_val (bs : list Z) : Z :=
  match bs with
  | [] => 0
  | b :: bs => b mod 128 + 128 * leb_val bs
  end.

Fixpoint continuations (bs : list Z) : nat :=
  match bs with
  | b :: bs => if 128 <=? b then S (continuations bs) else O
  | [] => O
  end.

(** A reader of at most [max] bytes, of a [w]-bit value: one byte more is the undefined
    shift. *)
Definition q_varint (w : Z) (max : nat) : SQ Z := fun q =>
  let c := continuations (pending q) in
  if (max <? length (pending q))%nat && (max <=? c)%nat then None
  else if (c <? length (pending q))%nat
  then Some (Some (wrap w (leb_val (take (S c) (pending q)))), q_pop (S c) q)
  else Some (None, q_pop (length (pending q)) q).

Lemma land_7f b : Z.land b 0x7f = b mod 128.
Proof. change 0x7f with (Z.ones 7). apply Z.land_ones. lia. Qed.

Lemma land_80 b : byte_ok b -> (Z.land b 0x80 =? 0) = (b <? 128).
Proof.
  apply (land_top_bit 7). lia.
Qed.

Lemma wrap_lor w a b : 0 <= w -> wrap w (Z.lor a b) = Z.lor (wrap w a) (wrap w b).
Proof.
  intros Hw. apply Z.bits_inj'. intros i Hi.
  rewrite Z.lor_spec, !testbit_wrap, Z.lor_spec by assumption. apply andb_orb_distrib_r.
Qed.

Lemma leb_val_bound bs : 0 <= leb_val bs < 2 ^ (7 * Z.of_nat (length bs)).
Proof.
  induction bs as [|b bs IH]; [simpl; lia|]. cbn [leb_val length].
  rewrite Nat2Z.inj_succ, Z.mul_succ_r, Z.pow_add_r by lia. change (2 ^ 7) with 128.
  pose proof (Z.mod_pos_bound b 128). lia.
Qed.

Lemma leb_val_snoc bs b :
  leb_val (bs ++ [b]) = leb_val bs + Z.shiftl (b mod 128) (7 * Z.of_nat (length bs)).
Proof.
  rewrite Z.shiftl_mul_pow2 by lia.
  induction bs as [|x bs IH]; [cbn [leb_val app length]; rewrite Z.mul_1_r; lia|].
  cbn [leb_val app length]. rewrite IH.
  rewrite Nat2Z.inj_succ, Z.mul_succ_r, Z.pow_add_r by lia. change (2 ^ 7) with 128. lia.
Qed.

(** One round of the loop adds a group. *)
Lemma varint_round w bs b :
  7 * Z.of_nat (length bs) < w ->
  Z.lor (wrap w (leb_val bs)) (wrap w (Z.shiftl (Z.land b 0x7f) (7 * Z.of_nat (length bs)))) =
  wrap w (leb_val (bs ++ [b])).
Proof.
  intros Hw. rewrite leb_val_snoc, land_7f, <- wrap_lor by lia. f_equal.
  apply lor_shift_add; [lia | apply leb_val_bound | apply Z.mod_pos_bound; lia].
Qed.

Definition q_varint_from (w : Z) (max : nat) (pre : list Z) : SQ Z := fun q =>
  let c := continuations (pending q) in
  if (max <? length (pending q))%nat && (max <=? c)%nat then None
  else if (c <? length (pending q))%nat
  then Some (Some (wrap w (leb_val (pre ++ take (S c) (pending q)))), q_pop (S c) q)
  else Some (None, q_pop (length (pending q)) q).

Lemma q_pop_0 q : q_pop 0 q = q.
Proof. destruct q. unfold q_pop. simpl. rewrite app_nil_r. reflexivity. Qed.

Lemma q_pop_pop n m q : q_pop m (q_pop n q) = q_pop (n + m) q.
Proof.
  unfold q_pop. simpl. rewrite <- app_assoc, drop_drop. f_equal. f_equal.
  apply take_take_drop.
Qed.

(** One byte of the specification. *)
Lemma q_varint_step w n pre q :
  q_varint_from w n pre q =
  sbind (q_read 1) (fun l => if (n =? 0)%nat then sundef else
    if 128 <=? default 0 (head l) then q_varint_from w (n - 1) (pre ++ l)
    else sret (wrap w (leb_val (pre ++ l)))) q.
Proof.
  unfold q_varint_from, sbind, q_read. destruct (pending q) as [|b p] eqn:Ep.
  - simpl. rewrite q_pop_0. reflexivity.
  - cbn [length continuations take head default].
    change (1 <=? S (length p))%nat with true. cbn iota.
    replace (take 0 p) with (@nil Z) by reflexivity. change (default 0 (head [b])) with b.
    destruct (Nat.eqb_spec n 0) as [->|Hn]; [reflexivity|].
    assert (Epop : pending (q_pop 1 q) = p) by (simpl; rewrite Ep; apply drop_0).
    destruct (128 <=? b).
    + cbv beta zeta. rewrite Epop. destruct n as [|n]; [lia|]. cbn [Nat.sub]. rewrite Nat.sub_0_r.
      change (S n <? S (length p))%nat with (n <? length p)%nat.
      change (S n <=? S (continuations p))%nat with (n <=? continuations p)%nat.
      change (S (continuations p) <? S (length p))%nat with (continuations p <? length p)%nat.
      rewrite <- app_assoc, !q_pop_pop. reflexivity.
    + destruct n as [|n]; [lia|]. rewrite andb_false_r. reflexivity.
Qed.

Lemma sim_varint_loop w max :
  (forall k, (w <=? 7 * Z.of_nat k) = (max <=? k)%nat) ->
  forall n pre, (n + length pre = max)%nat ->
  simulates (ReadVarInt_loop w (S n) (wrap w (leb_val pre)) (7 * Z.of_nat (length pre)))
    (q_varint_from w n pre).
Proof.
  intros Hmax. induction n as [|n IH]; intros pre Hpre b q R; rewrite q_varint_step.
  - revert b q R. apply sim_need_read. intros l Hl Hok. cbv zeta. rewrite Hmax.
    destruct (Nat.leb_spec max (length pre)); [apply sim_undefined | lia].
  - revert b q R. change (ReadVarInt_loop w (S (S n))) with
      (fun Value Shift => NEEDBYTES 1;; l <- ReadBuf 1;;
        let b := le_val l in
        if w <=? Shift then undefined else
        let Value := Z.lor Value (wrap w (Z.shiftl (Z.land b 0x7f) Shift)) in
        let Shift := Shift + 7 in
        if negb (Z.land b 0x80 =? 0) then ReadVarInt_loop w (S n) Value Shift else ret Value).
    cbv beta. apply sim_need_read. intros l Hl Hok. cbv zeta. rewrite Hmax.
    destruct (Nat.leb_spec max (length pre)); [lia|].
    destruct l as [|c [|? ?]]; try discriminate Hl.
    replace (le_val [c]) with c by (simpl; lia). inversion Hok; subst.
    change (default 0 (head [c])) with c. change (S n =? 0)%nat with false. cbv iota.
    rewrite land_80, Z.leb_antisym by assumption.
    rewrite varint_round by (apply Z.leb_gt; rewrite Hmax; apply Nat.leb_gt; assumption).
    destruct (negb (c <? 128)); [|apply sim_ret].
    replace (S n - 1)%nat with n by lia.
    replace (7 * Z.of_nat (length pre) + 7) with (7 * Z.of_nat (length (pre ++ [c])))
      by (rewrite length_app; simpl; lia).
    apply IH. rewrite length_app. simpl. lia.
Qed.

Lemma sim_ReadVarInt32 : simulates ReadVarInt32 (q_varint 32 5).
Proof.
  refine (sim_varint_loop 32 5 _ 5 [] eq_refl).
  intros k. destruct (Z.leb_spec 32 (7 * Z.of_nat k)), (Nat.leb_spec 5 k); lia.
Qed.

Lemma sim_ReadVarInt64 : simulates ReadVarInt64 (q_varint 64 10).
Proof.
  refine (sim_varint_loop 64 10 _ 10 [] eq_refl).
  intros k. destruct (Z.leb_spec 64 (7 * Z.of_nat k)), (Nat.leb_spec 10 k); lia.
Qed.

(** The bytes written for a value that fits [size] groups. *)
Lemma varint_bytes_spec size v :
  0 <= v < 2 ^ (7 * Z.of_nat size) -> (0 < size)%nat ->
  exists l, varint_bytes size v = Some l /\ bytes_ok l /\
    (S (continuations l) = length l)%nat /\ (length l <= size)%nat /\ leb_val l = v.
Proof.
  revert v. induction size as [|size IH]; intros v Hv Hs; [lia|].
  cbn [varint_bytes]. cbv zeta. rewrite land_7f, Z.shiftr_div_pow2 by lia. change (2 ^ 7) with 128.
  pose proof (Z.mod_pos_bound v 128 ltac:(lia)) as Hm.
  pose proof (Z.div_mod v 128 ltac:(lia)) as Hdiv.
  destruct (Z.ltb_spec 0 (v / 128)) as [Hq|Hq].
  - destruct (Z.ltb_spec 0x7f v) as [_|]; [|rewrite Z.div_small in Hq; lia].
    assert (Hlor : Z.lor (v mod 128) 0x80 = v mod 128 + 128)
      by (apply (lor_shift_add (v mod 128) 1 7); lia).
    rewrite Nat2Z.inj_succ, Z.mul_succ_r, Z.pow_add_r in Hv by lia. change (2 ^ 7) with 128 in Hv.
    destruct size as [|size]; [simpl in Hv; lia|].
    destruct (IH (v / 128)) as (l & -> & Hok & Hc & Hlen & Hval); [|lia|].
    { split; [lia|]. apply Z.div_lt_upper_bound; lia. }
    cbn [option_bind mbind]. eexists. split; [reflexivity|]. rewrite Hlor.
    split; [constructor; [unfold byte_ok; lia | assumption]|].
    cbn [continuations leb_val length]. rewrite Hval.
    destruct (Z.leb_spec 128 (v mod 128 + 128)); [|lia].
    replace (v mod 128 + 128) with (v mod 128 + 1 * 128) by lia.
    rewrite Z.mod_add, Z.mod_mod by lia. split_and!; lia.
  - assert (v / 128 = 0) by (pose proof (Z.div_pos v 128); lia).
    eexists. split; [reflexivity|].
    destruct (Z.ltb_spec 0x7f v); [lia|]. rewrite Z.lor_0_r.
    split; [constructor; [unfold byte_ok; lia | constructor]|].
    cbn [continuations leb_val length].
    destruct (Z.leb_spec 128 (v mod 128)); [lia|]. rewrite Z.mod_mod by lia. split_and!; lia.
Qed.

(** ** The values a buffer carries *)

Inductive num := Int8 | UInt8 | Int16 | UInt16 | Int32 | UInt32 | Int64 | UInt64
  | Float | Double | LEInt.

#[export] Instance num_eq_dec : EqDecision num.
Proof. solve_decision. Defined.

Definition num_size (n : num) : nat :=
  match n with
  | Int8 | UInt8 => 1
  | Int16 | UInt16 => 2
  | Int32 | UInt32 | Float | LEInt => 4
  | Int64 | UInt64 | Double => 8
  end.

Definition num_signed (n : num) : bool :=
  match n with Int8 | Int16 | Int32 | Int64 | LEInt => true | _ => false end.

Definition num_encode (n : num) (z : Z) : list Z :=
  match n with LEInt => le_bytes 4 z | _ => be_bytes (num_size n) z end.

Definition num_decode (n : num) (bs : list Z) : Z :=
  let x := match n with LEInt => le_val bs | _ => be_val bs end in
  if num_signed n then to_signed (8 * Z.of_nat (num_size n)) x else x.

Definition num_range (n : num) (z : Z) : Prop :=
  let w := 8 * Z.of_nat (num_size n) in
  if num_signed n then - 2 ^ (w - 1) <= z < 2 ^ (w - 1) else in_width w z.

Inductive value :=
  | VNum (n : num) (z : Z)
  | VBool (x : bool)
  | VVarInt32 (z : Z)
  | VVarInt64 (z : Z)
  | VString (s : list Z)
  | VPosition (x y z : Z).

Inductive kind := KNum (n : num) | KBool | KVarInt32 | KVarInt64 | KString | KPosition.

Definition kind_of (v : value) : kind :=
  match v with
  | VNum n _ => KNum n
  | VBool _ => KBool
  | VVarInt32 _ => KVarInt32
  | VVarInt64 _ => KVarInt64
  | VString _ => KString
  | VPosition _ _ _ => KPosition
  end.

(** The arguments have the C type of the parameters. *)
Definition value_typed (v : value) : Prop :=
  match v with
  | VNum n z => num_range n z
  | VBool _ => True
  | VVarInt32 z => in_width 32 z
  | VVarInt64 z => in_width 64 z
  | VString s => bytes_ok s /\ Z.of_nat (length s) < 2 ^ 32
  | VPosition x y z => True
  end.

(** The method that writes a value and the one that reads a kind. *)
Definition write_value (v : value) : BB unit :=
  match v with
  | VNum Int8 z => WriteBEInt8 z
  | VNum UInt8 z => WriteBEUInt8 z
  | VNum Int16 z => WriteBEInt16 z
  | VNum UInt16 z => WriteBEUInt16 z
  | VNum Int32 z => WriteBEInt32 z
  | VNum UInt32 z => WriteBEUInt32 z
  | VNum Int64 z => WriteBEInt64 z
  | VNum UInt64 z => WriteBEUInt64 z
  | VNum Float z => WriteBEFloat z
  | VNum Double z => WriteBEDouble z
  | VNum LEInt z => WriteLEInt32 z
  | VBool x => WriteBool x
  | VVarInt32 z => WriteVarInt32 z
  | VVarInt64 z => WriteVarInt64 z
  | VString s => WriteVarUTF8String s
  | VPosition x y z => WritePosition64 x y z
  end.

Definition read_num (n : num) : BB Z :=
  match n with
  | Int8 => ReadBEInt8
  | UInt8 => ReadBEUInt8
  | Int16 => ReadBEInt16
  | UInt16 => ReadBEUInt16
  | Int32 => ReadBEInt32
  | UInt32 => ReadBEUInt32
  | Int64 => ReadBEInt64
  | UInt64 => ReadBEUInt64
  | Float => ReadBEFloat
  | Double => ReadBEDouble
  | LEInt => ReadLEInt
  end.

Definition read_value (k : kind) : BB value :=
  match k with
  | KNum n => z <- read_num n;; ret (VNum n z)
  | KBool => x <- ReadBool;; ret (VBool x)
  | KVarInt32 => z <- ReadVarInt32;; ret (VVarInt32 z)
  | KVarInt64 => z <- ReadVarInt64;; ret (VVarInt64 z)
  | KString => s <- ReadVarUTF8String;; ret (VString s)
  | KPosition => p <- ReadPosition64;; ret (VPosition p.1.1 p.1.2 p.2)
  end.

(** ** What the typed methods do to the queue *)

Definition position_word (x y z : Z) : Z :=
  Z.lor (Z.lor (Z.shiftl (Z.land x 0x3FFFFFF) 38) (Z.shiftl (Z.land y 0xFFF) 26))
    (Z.land z 0x3FFFFFF).

Definition encode (v : value) : list Z :=
  match v with
  | VNum n z => num_encode n z
  | VBool x => [if x then 1 else 0]
  | VVarInt32 z => default [] (varint_bytes 5 z)
  | VVarInt64 z => default [] (varint_bytes 10 z)
  | VString s => default [] (varint_bytes 5 (u32 (Z.of_nat (length s)))) ++ s
  | VPosition x y z => be_bytes 8 (position_word x y z)
  end.

(** A string is written in two parts: the first can succeed and the second fail. *)
Definition q_write_value (v : value) : SQ unit :=
  match v with
  | VString s =>
      sbind (q_put (length s + 1)) (fun _ =>
      sbind (q_write (default [] (varint_bytes 5 (u32 (Z.of_nat (length s)))))) (fun _ =>
      q_write s))
  | _ => q_write (encode v)
  end.

Definition q_read_value (k : kind) : SQ value :=
  match k with
  | KNum n => sbind (q_read (num_size n)) (fun bs => sret (VNum n (num_decode n bs)))
  | KBool => sbind (q_read 1) (fun bs => sret (VBool (negb (be_val bs =? 0))))
  | KVarInt32 => sbind (q_varint 32 5) (fun z => sret (VVarInt32 z))
  | KVarInt64 => sbind (q_varint 64 10) (fun z => sret (VVarInt64 z))
  | KString => sbind (q_varint 64 10) (fun n =>
      sbind (q_read (Z.to_nat (u32 n))) (fun s => sret (VString s)))
  | KPosition => sbind (q_read 8) (fun bs =>
      let w := be_val bs in
      sret (VPosition (to_signed 26 (w / 2 ^ 38)) (w / 2 ^ 26 mod 2 ^ 11) (to_signed 26 w)))
  end.

#[local] Hint Resolve sim_ret le_bytes_ok be_bytes_ok length_le_bytes length_be_bytes : licode.

(** A typed reader: a check, a read and a decoder. *)
Lemma sim_reader {A} n (f g : list Z -> A) :
  (forall l, length l = n -> bytes_ok l -> f l = g l) ->
  simulates (NEEDBYTES n;; l <- ReadBuf n;; ret (f l)) (sbind (q_read n) (fun l => sret (g l))).
Proof. intros E. apply sim_need_read. intros l Hl Hok. rewrite E by assumption. apply sim_ret. Qed.

Lemma sbind_assoc_ret {A B C} (m : SQ A) (f : A -> B) (g : B -> C) q :
  sbind (sbind m (fun x => sret (f x))) (fun y => sret (g y)) q =
  sbind m (fun x => sret (g (f x))) q.
Proof. unfold sbind, sret. destruct (m q) as [[[x|] q']|]; reflexivity. Qed.

Lemma sim_ext {A} (m : BB A) s s' : simulates m s -> (forall q, s q = s' q) -> simulates m s'.
Proof. intros H E b q R. rewrite <- E. apply H. assumption. Qed.

Lemma be_val_1 l : length l = 1%nat -> be_val l = le_val l.
Proof. destruct l as [|? [|? ?]]; try discriminate. reflexivity. Qed.

Lemma sim_read_num n : simulates (read_num n) (sbind (q_read (num_size n)) (fun l => sret (num_decode n l))).
Proof.
  destruct n; apply sim_reader; intros l Hl Hok; unfold num_decode; cbn [num_signed num_size];
    rewrite ?be_val_1 by assumption; try reflexivity;
    unfold NetworkToHostLong8, NetworkToHostULong8, NetworkToHostFloat4, NetworkToHostDouble8;
    rewrite ?ntohll_val by assumption; try reflexivity.
  all: rewrite bswap_le_val by assumption; reflexivity.
Qed.

(** The sign extension of [ReadPosition64]. *)
Lemma position_sign x :
  (if Z.land (x mod 2 ^ 26) 0x02000000 =? 0 then x mod 2 ^ 26
   else - (0x04000000 - x mod 2 ^ 26)) = to_signed 26 x.
Proof.
  change 0x02000000 with (2 ^ 25).
  rewrite (land_top_bit 25) by (try apply Z.mod_pos_bound; lia).
  unfold to_signed, wrap. change (26 - 1) with 25. destruct (_ <? _); lia.
Qed.

Lemma position_sign_y x :
  (if Z.land (x mod 2 ^ 12) 0x0800 =? 0 then x mod 2 ^ 12 else - (0x0800 - x mod 2 ^ 12)) =
  x mod 2 ^ 11.
Proof.
  pose proof (Z.mod_pos_bound x (2 ^ 12) ltac:(lia)).
  rewrite (land_top_bit 11) by (unfold in_width; lia).
  pose proof (Z.div_mod x (2 ^ 12) ltac:(lia)) as E.
  case (Z.ltb_spec (x mod 2 ^ 12) (2 ^ 11)); intros.
  - apply Z.mod_unique with (2 * (x / 2 ^ 12)); lia.
  - apply Z.mod_unique with (2 * (x / 2 ^ 12) + 1); lia.
Qed.

Lemma sim_ReadPosition64 : simulates ReadPosition64
  (sbind (q_read 8) (fun bs => let w := be_val bs in
     sret (to_signed 26 (w / 2 ^ 38), w / 2 ^ 26 mod 2 ^ 11, to_signed 26 w))).
Proof.
  apply (sim_ext _ (sbind (sbind (q_read 8) (fun l => sret (num_decode Int64 l)))
    (fun Value => sret
      (to_signed 26 (Value / 2 ^ 38), Value / 2 ^ 26 mod 2 ^ 11, to_signed 26 Value)))).
  - apply sim_bind; [apply (sim_read_num Int64)|]. intros Value. cbv zeta.
    change 0x03ffffff with (Z.ones 26). change 0x0fff with (Z.ones 12).
    rewrite !Z.land_ones, !Z.shiftr_div_pow2 by lia.
    rewrite (position_sign_y (Value / 2 ^ 26)).
    rewrite (position_sign (Value / 2 ^ 38)), (position_sign Value).
    apply sim_ret.
  - intros q. rewrite sbind_assoc_ret. unfold sbind.
    destruct (q_read 8 q) as [[[l|] q']|]; try reflexivity. cbv zeta. unfold sret, num_decode.
    cbn [num_signed num_size]. change (8 * Z.of_nat 8) with 64. set (x := be_val l).
    assert (E0 : to_signed 64 x mod 2 ^ 26 = x mod 2 ^ 26).
    { rewrite <- (Z.div_1_r x) at 2. rewrite <- (Z.div_1_r (to_signed 64 x)).
      apply (signed_field 64 0 26); lia. }
    rewrite (to_signed_ext 26 _ _ E0), (signed_field 64 26 11) by lia.
    rewrite (to_signed_ext 26 (to_signed 64 x / 2 ^ 38) (x / 2 ^ 38)); [reflexivity|].
    apply (signed_field 64 38 26); lia.
Qed.

Lemma sim_ReadBool :
  simulates ReadBool (sbind (q_read 1) (fun bs => sret (negb (be_val bs =? 0)))).
Proof. apply sim_reader. intros l Hl Hok. rewrite be_val_1 by assumption. reflexivity. Qed.

Lemma sim_ReadVarUTF8String : simulates ReadVarUTF8String
  (sbind (q_varint 64 10) (fun n => q_read (Z.to_nat (u32 n)))).
Proof.
  apply (sim_ext _ (sbind (sbind (q_varint 64 10) (fun n => sret (u32 n)))
    (fun n => q_read (Z.to_nat n)))).
  - apply sim_bind; [|intros; apply sim_ReadString].
    apply sim_bind; [apply sim_ReadVarInt64 | intros; apply sim_ret].
  - intros q. unfold sbind, sret. destruct (q_varint 64 10 q) as [[[?|] ?]|]; reflexivity.
Qed.

Lemma sim_read_value k : simulates (read_value k) (q_read_value k).
Proof.
  destruct k; cbn [read_value q_read_value].
  - eapply sim_ext; [|intros q; apply (sbind_assoc_ret (q_read _) (num_decode n) (VNum n))].
    apply sim_bind; [apply sim_read_num | intros; apply sim_ret].
  - eapply sim_ext; [|intros q; apply (sbind_assoc_ret (q_read 1) _ VBool)].
    apply sim_bind; [apply sim_ReadBool | intros; apply sim_ret].
  - apply sim_bind; [apply sim_ReadVarInt32 | intros; apply sim_ret].
  - apply sim_bind; [apply sim_ReadVarInt64 | intros; apply sim_ret].
  - eapply (sim_ext _ (sbind (sbind (q_varint 64 10) (fun n => q_read (Z.to_nat (u32 n))))
      (fun s => sret (VString s)))).
    + apply sim_bind; [apply sim_ReadVarUTF8String | intros; apply sim_ret].
    + intros q. unfold sbind. destruct (q_varint 64 10 q) as [[[?|] ?]|]; reflexivity.
  - eapply sim_ext; [|intros q; apply (sbind_assoc_ret (q_read 8)
      (fun bs => let w := be_val bs in
        (to_signed 26 (w / 2 ^ 38), w / 2 ^ 26 mod 2 ^ 11, to_signed 26 w))
      (fun p => VPosition p.1.1 p.1.2 p.2))].
    apply sim_bind; [apply sim_ReadPosition64 | intros; apply sim_ret].
Qed.

Lemma num_encode_ok n z : bytes_ok (num_encode n z).
Proof. destruct n; cbn [num_encode num_size]; auto with licode. Qed.

Lemma length_num_encode n z : length (num_encode n z) = num_size n.
Proof. destruct n; cbn [num_encode num_size]; auto with licode. Qed.

Lemma be_bytes_1 z : be_bytes 1 z = le_bytes 1 z.
Proof. reflexivity. Qed.

Lemma be_bytes_wrap n w x : w = 8 * Z.of_nat n -> be_bytes n (wrap w x) = be_bytes n x.
Proof. intros H. unfold be_bytes. rewrite (le_bytes_wrap _ _ _ H). reflexivity. Qed.

Lemma sim_write_num n z : simulates (write_value (VNum n z)) (q_write (num_encode n z)).
Proof.
  assert (E : write_value (VNum n z) =
    match n with
    | LEInt => WriteBuf (num_encode n z)
    | _ => PUTBYTES (num_size n);; WriteBuf (num_encode n z)
    end).
  { destruct n; cbn [write_value num_encode num_size]; try reflexivity;
      unfold WriteBEInt16, WriteBEUInt16, WriteBEInt32, WriteBEUInt32, WriteBEInt64,
        WriteBEUInt64, WriteBEFloat, WriteBEDouble, WriteLEInt32, HostToNetwork4;
      rewrite ?HostToNetwork8_bytes, ?le_bytes_bswap; fold (be_bytes 2 z);
      rewrite ?(le_bytes_wrap 4 32), ?(le_bytes_wrap 2 16) by reflexivity;
      rewrite ?(be_bytes_wrap 8 64) by reflexivity; reflexivity. }
  rewrite E. destruct n; auto using sim_WriteBuf, sim_put_write, num_encode_ok, length_num_encode.
Qed.

Lemma varint_ok size w v :
  w <= 7 * Z.of_nat size -> (0 < size)%nat -> 0 <= w -> in_width w v ->
  exists l, varint_bytes size v = Some l /\ bytes_ok l /\
    (S (continuations l) = length l)%nat /\ (length l <= size)%nat /\ leb_val l = v.
Proof.
  intros Hw Hs H0 Hv. apply varint_bytes_spec; [|assumption].
  unfold in_width in Hv. pose proof (Z.pow_le_mono_r 2 w (7 * Z.of_nat size)). lia.
Qed.

Lemma sim_write_varint size w v :
  w <= 7 * Z.of_nat size -> (0 < size)%nat -> 0 <= w -> in_width w v ->
  simulates (write_varint size v) (q_write (default [] (varint_bytes size v))).
Proof.
  intros Hw Hs H0 Hv. destruct (varint_ok size w v) as (l & E & Hok & _); try assumption.
  unfold write_varint. rewrite E. apply sim_WriteBuf. assumption.
Qed.

Lemma sim_write_value v : value_typed v -> simulates (write_value v) (q_write_value v).
Proof.
  destruct v; intros Ht; cbn [q_write_value encode].
  - apply sim_write_num.
  - apply sim_Write. destruct x; repeat constructor; lia.
  - refine (sim_write_varint 5 32 z _ _ _ Ht); lia.
  - refine (sim_write_varint 10 64 z _ _ _ Ht); lia.
  - cbn [write_value]. unfold WriteVarUTF8String, WriteVarInt32. destruct Ht as [Hok Hlen].
    apply sim_bind; [apply sim_PUTBYTES | intros _].
    apply sim_bind; [|intros _; apply sim_WriteBuf; assumption].
    refine (sim_write_varint 5 32 _ _ _ _ (wrap_bound 32 _ _)); lia.
  - pose proof (sim_write_num Int64 (to_signed 64 (position_word x y z))) as H.
    cbn [num_encode num_size] in H.
    replace (be_bytes 8 (to_signed 64 _)) with (be_bytes 8 (position_word x y z)) in H;
      [exact H|].
    rewrite <- (be_bytes_wrap 8 64 (to_signed 64 _)) by reflexivity.
    unfold wrap. rewrite to_signed_mod by lia. symmetry. apply (be_bytes_wrap 8 64). reflexivity.
Qed.

(** ** Sequences of calls *)

Inductive op :=
  | OWrite (bytes : list Z)
  | OReadString (n : nat)
  | OReadAll
  | OSkipRead (n : nat)
  | OCommitRead
  | OResetRead
  | OReadAgain (out : list Z)
  | OWriteValue (v : value)
  | OReadValue (k : kind).

Inductive result := RUnit | RBytes (l : list Z) | RValue (v : value).

Definition op_typed (o : op) : Prop :=
  match o with
  | OWrite bytes => bytes_ok bytes
  | OWriteValue v => value_typed v
  | _ => True
  end.

(** A call of the class, and what it means for the queue. *)
Definition call (o : op) : BB result :=
  match o with
  | OWrite bytes => Write bytes;; ret RUnit
  | OReadString n => l <- ReadString n;; ret (RBytes l)
  | OReadAll => l <- ReadAll;; ret (RBytes l)
  | OSkipRead n => SkipRead n;; ret RUnit
  | OCommitRead => fun b => Some (Some RUnit, CommitRead b)
  | OResetRead => fun b => Some (Some RUnit, ResetRead b)
  | OReadAgain out => fun b => out' ← ReadAgain b out; Some (Some (RBytes out'), b)
  | OWriteValue v => write_value v;; ret RUnit
  | OReadValue k => v <- read_value k;; ret (RValue v)
  end.

Definition q_call (o : op) : SQ result :=
  match o with
  | OWrite bytes => sbind (q_write bytes) (fun _ => sret RUnit)
  | OReadString n => sbind (q_read n) (fun l => sret (RBytes l))
  | OReadAll => fun q => Some (Some (RBytes (pending q)), q_pop (length (pending q)) q)
  | OSkipRead n => sbind (q_skip n) (fun _ => sret RUnit)
  | OCommitRead => fun q => Some (Some RUnit, q_commit q)
  | OResetRead => fun q => Some (Some RUnit, q_reset q)
  | OReadAgain out => fun q => Some (Some (RBytes (out ++ consumed q)), q)
  | OWriteValue v => sbind (q_write_value v) (fun _ => sret RUnit)
  | OReadValue k => sbind (q_read_value k) (fun v => sret (RValue v))
  end.

(** The results of a sequence of calls; a call that returns false does not stop it. *)
Fixpoint calls (os : list op) (b : cByteBuffer) : option (list (option result) * cByteBuffer) :=
  match os with
  | [] => Some ([], b)
  | o :: os => '(r, b) ← call o b; '(rs, b) ← calls os b; Some (r :: rs, b)
  end.

Fixpoint q_calls (os : list op) (q : queue) : option (list (option result) * queue) :=
  match os with
  | [] => Some ([], q)
  | o :: os => '(r, q) ← q_call o q; '(rs, q) ← q_calls os q; Some (r :: rs, q)
  end.

Lemma sim_call o : op_typed o -> simulates (call o) (q_call o).
Proof.
  destruct o; intros Ht; cbn [call q_call];
    try (apply sim_bind; [|intros; apply sim_ret]);
    auto using sim_Write, sim_ReadString, sim_SkipRead, sim_write_value, sim_read_value.
  - intros b q R. destruct (sim_ReadAll b q R) as (b' & E & R').
    unfold bind. rewrite E. unfold ret. eauto.
  - intros b q R. eauto using rep_commit.
  - intros b q R. eauto using rep_reset.
  - intros b q R. rewrite (rep_again _ _ _ R). simpl. eauto.
Qed.

Definition q_empty (n : nat) : queue := {| consumed := []; pending := []; capacity := n |}.

Lemma rep_ctor n mem : length mem = S n -> represents (cByteBuffer_ctor n mem) (q_empty n).
Proof.
  intros Hm. unfold cByteBuffer_ctor.
  split; simpl; unfold used; simpl; rewrite ?Nat.add_1_r; auto; try lia.
Qed.

Lemma sim_calls os : Forall op_typed os -> forall b q, represents b q ->
  match q_calls os q with
  | Some (rs, q') => exists b', calls os b = Some (rs, b') /\ represents b' q'
  | None => calls os b = None
  end.
Proof.
  induction 1 as [|o os Ho _ IH]; intros b q R; cbn [calls q_calls]; [eauto|].
  pose proof (sim_call o Ho b q R) as Hs.
  destruct (q_call o q) as [[r q']|]; [|rewrite Hs; reflexivity].
  destruct Hs as (b' & -> & R'). cbn [option_bind mbind]. specialize (IH b' q' R').
  destruct (q_calls os q') as [[rs q'']|]; [|rewrite IH; reflexivity].
  destruct IH as (b'' & -> & R''). cbn [option_bind mbind]. eauto.
Qed.

Lemma used_q_pop n q : used (q_pop n q) = used q.
Proof. unfold used, q_pop. simpl. rewrite length_app, length_take, length_drop. lia. Qed.

(** No operation of the queue changes its capacity. *)
Definition keeps {A} (s : SQ A) : Prop :=
  forall q r q', s q = Some (r, q') -> capacity q' = capacity q.

Lemma keeps_bind {A B} (s : SQ A) (g : A -> SQ B) :
  keeps s -> (forall x, keeps (g x)) -> keeps (sbind s g).
Proof.
  intros Hs Hg q r q' H. unfold sbind in H.
  destruct (s q) as [[[x|] q1]|] eqn:E; simplify_eq; apply Hs in E; [|assumption].
  apply Hg in H. congruence.
Qed.

Lemma keeps_q_call o : keeps (q_call o).
Proof.
  assert (Hret : forall A (x : A), keeps (sret x)) by (intros A x q r q' H; injection H as <- <-; reflexivity).
  assert (Hput : forall n, keeps (q_put n))
    by (intros n q r q' H; unfold q_put in H; case_match; simplify_eq; reflexivity).
  assert (Hwrite : forall l, keeps (q_write l))
    by (intros l q r q' H; unfold q_write in H; case_match; simplify_eq; reflexivity).
  assert (Hread : forall n, keeps (q_read n))
    by (intros n q r q' H; unfold q_read in H; case_match; simplify_eq; reflexivity).
  assert (Hvar : forall w n, keeps (q_varint w n))
    by (intros w n q r q' H; unfold q_varint in H; repeat case_match; simplify_eq; reflexivity).
  destruct o; cbn [q_call]; try (apply keeps_bind; [|intros; apply Hret]).
  - apply Hwrite.
  - apply Hread.
  - intros q r q' H. simplify_eq. reflexivity.
  - intros q r q' H. unfold q_skip in H. case_match; simplify_eq; reflexivity.
  - intros q r q' H. simplify_eq. reflexivity.
  - intros q r q' H. simplify_eq. reflexivity.
  - intros q r q' H. simplify_eq. reflexivity.
  - destruct v; cbn [q_write_value]; try apply Hwrite.
    repeat (apply keeps_bind; [|intros]); auto.
  - destruct k; cbn [q_read_value]; repeat (apply keeps_bind; [|intros]); auto.
Qed.

Lemma keeps_q_calls os q rs q' : q_calls os q = Some (rs, q') -> capacity q' = capacity q.
Proof.
  revert q rs q'. induction os as [|o os IH]; intros q rs q' H; cbn [q_calls] in H.
  - simplify_eq. reflexivity.
  - bind_inv H. destruct x as [r q1]. bind_inv H. destruct x as [rs1 q2]. simplify_eq/=.
    rewrite <- (keeps_q_call o q r q1) by assumption. eauto.
Qed.

(** C10. Refinement: a [cByteBuffer] of [n] bytes behaves as a bounded queue of [n] bytes of which a
    prefix has been read but not committed.  For every sequence of calls (raw and typed
    reads and writes, skip, commit, reset, read again) from the constructor on, the
    class returns exactly the results of the queue - the same values, and false exactly
    when the queue has no room or not enough data - and has undefined behaviour exactly
    where the queue model says so (a variable-length integer of more than 5 or 10 bytes). *)
Theorem byte_buffer_refines (os : list op) (n : nat) (mem : list Z) :
  length mem = S n -> Forall op_typed os ->
  fst <$> calls os (cByteBuffer_ctor n mem) = fst <$> q_calls os (q_empty n).
Proof.
  intros Hm Ho. pose proof (sim_calls os Ho _ _ (rep_ctor n mem Hm)) as H.
  destruct (q_calls os (q_empty n)) as [[rs q]|]; [|rewrite H; reflexivity].
  destruct H as (b' & -> & _). reflexivity.
Qed.

Lemma byte_buffer_refines_witness :
  fst <$> calls [OWriteValue (VNum UInt16 258); OWrite [7; 8; 9]; OReadString 3; OReadAgain [];
                 OCommitRead; OWrite [4; 5; 6; 7]; OReadString 7]
                (cByteBuffer_ctor 5 (repeat 255 6)) =
  Some [Some RUnit; Some RUnit; Some (RBytes [1; 2; 7]); Some (RBytes [1; 2; 7]); Some RUnit;
        None; None].
Proof.
  rewrite (byte_buffer_refines _ 5); [vm_compute; reflexivity | reflexivity |].
  repeat constructor; vm_compute; congruence.
Defined.

(** Every ASSERT of the class holds in every reachable state: the positions stay inside
    the array ([CheckValid]), the subtractions of the space functions do not underflow,
    free and used space add up to the capacity, and the readable part is within the
    used part. *)
Theorem byte_buffer_asserts (os : list op) (n : nat) (mem : list Z) rs b :
  length mem = S n -> Forall op_typed os ->
  calls os (cByteBuffer_ctor n mem) = Some (rs, b) ->
  CheckValid b = true /\ m_BufferSize b = S n /\ (m_DataStart b < m_BufferSize b)%nat /\
  (GetFreeSpace b + GetUsedSpace b)%nat = n /\ (GetReadableSpace b <= GetUsedSpace b)%nat.
Proof.
  intros Hm Ho E. pose proof (sim_calls os Ho _ _ (rep_ctor n mem Hm)) as H.
  destruct (q_calls os (q_empty n)) as [[rs' q]|] eqn:Eq; [|congruence].
  destruct H as (b' & E' & R). rewrite E in E'. simplify_eq.
  apply keeps_q_calls in Eq. cbn [q_empty capacity] in Eq.
  pose proof (rep_used _ _ R). pose proof (rep_start _ _ R) as Hst.
  rewrite (rep_valid _ _ R), (rep_free_space _ _ R), (rep_used_space _ _ R),
    (rep_readable _ _ R).
  rewrite (rep_size _ _ R) in Hst |- *. unfold used in *. split_and!; (reflexivity || lia).
Qed.

Lemma byte_buffer_asserts_witness :
  CheckValid (default (cByteBuffer_ctor 4 (repeat 255 5)) (snd <$>
    calls [OWrite [1; 2; 3]; OReadString 2; OCommitRead; OWrite [4; 5; 6]]
      (cByteBuffer_ctor 4 (repeat 255 5)))) = true.
Proof.
  eapply (byte_buffer_asserts [OWrite [1; 2; 3]; OReadString 2; OCommitRead; OWrite [4; 5; 6]]
    4 (repeat 255 5)); [reflexivity | repeat constructor; vm_compute; congruence |].
  vm_compute. reflexivity.
Defined.

(** Calls that can meet an overlong integer. *)
Definition reads_varint (o : op) : bool :=
  match o with OReadValue (KVarInt32 | KVarInt64 | KString) => true | _ => false end.

Definition total {A} (s : SQ A) : Prop := forall q, is_Some (s q).

Lemma total_bind {A B} (s : SQ A) (g : A -> SQ B) :
  total s -> (forall x, total (g x)) -> total (sbind s g).
Proof.
  intros Hs Hg q. unfold sbind. destruct (Hs q) as ([[x|] q'] & ->); [apply Hg | eauto].
Qed.

Lemma total_q_call o : reads_varint o = false -> total (q_call o).
Proof.
  assert (Hret : forall A (x : A), total (sret x)) by (intros A x q; unfold sret; eauto).
  assert (Hput : forall n, total (q_put n)) by (intros n q; unfold q_put; case_match; eauto).
  assert (Hwrite : forall l, total (q_write l))
    by (intros l q; unfold q_write; case_match; eauto).
  assert (Hread : forall n, total (q_read n)) by (intros n q; unfold q_read; case_match; eauto).
  assert (Hskip : forall n, total (q_skip n)) by (intros n q; unfold q_skip; case_match; eauto).
  destruct o; intros Hv; cbn [q_call]; try (apply total_bind; [|intros; apply Hret]);
    try (intros q; eauto; fail); auto.
  - destruct v; cbn [q_write_value]; repeat (apply total_bind; [|intros]); auto.
  - destruct k; try discriminate Hv; cbn [q_read_value]; apply total_bind; auto.
Qed.

(** No sequence of calls without a variable-length integer read copies outside the array
    or shifts by too much, whatever the arguments. *)
Theorem byte_buffer_no_undefined (os : list op) (n : nat) (mem : list Z) :
  length mem = S n -> Forall op_typed os -> forallb (fun o => negb (reads_varint o)) os = true ->
  is_Some (calls os (cByteBuffer_ctor n mem)).
Proof.
  intros Hm Ho Hv. pose proof (sim_calls os Ho _ _ (rep_ctor n mem Hm)) as H.
  assert (Hq : forall q, is_Some (q_calls os q)).
  { clear Ho H. induction os as [|o os IH]; intros q; cbn [q_calls]; [eauto|].
    cbn [forallb] in Hv. apply andb_prop in Hv as [Ho%negb_true_iff Hv].
    destruct (total_q_call o Ho q) as ([r q1] & ->). cbn [option_bind mbind].
    destruct (IH Hv q1) as ([rs q2] & ->). cbn. eauto. }
  destruct (Hq (q_empty n)) as ([rs q] & E). rewrite E in H. destruct H as (b & -> & _). eauto.
Qed.

Lemma byte_buffer_no_undefined_witness :
  is_Some (calls [OWriteValue (VVarInt32 300); OReadValue KBool; OSkipRead 2; OReadAll]
    (cByteBuffer_ctor 2 [0; 0; 0])).
Proof.
  apply byte_buffer_no_undefined; [reflexivity | | reflexivity].
  repeat constructor; vm_compute; congruence.
Defined.

(** ** Round trips *)

(** A value whose coordinates fit the packed position and whose height is not negative. *)
Definition readable_back (v : value) : Prop :=
  value_typed v /\
  match v with
  | VPosition x y z => - 2 ^ 25 <= x < 2 ^ 25 /\ 0 <= y < 2 ^ 11 /\ - 2 ^ 25 <= z < 2 ^ 25
  | _ => True
  end.

Lemma num_decode_encode n z : num_range n z -> num_decode n (num_encode n z) = z.
Proof.
  intros H.
  assert (E : (match n with LEInt => le_val | _ => be_val end) (num_encode n z) =
              wrap (8 * Z.of_nat (num_size n)) z).
  { unfold wrap. rewrite Z.pow_mul_r by lia.
    destruct n; cbn [num_encode num_size];
      rewrite ?le_val_le_bytes, ?be_val_be_bytes; reflexivity. }
  assert (D : num_decode n (num_encode n z) =
              if num_signed n then to_signed (8 * Z.of_nat (num_size n)) (wrap (8 * Z.of_nat (num_size n)) z)
              else wrap (8 * Z.of_nat (num_size n)) z)
    by (rewrite <- E; destruct n; reflexivity).
  rewrite D. unfold num_range in H. destruct (num_signed n) eqn:Es.
  - apply to_signed_wrap; [destruct n; simpl; lia | exact H].
  - apply wrap_small. exact H.
Qed.

Lemma continuations_app l rest :
  S (continuations l) = length l -> continuations (l ++ rest) = continuations l.
Proof.
  induction l as [|b l IH]; intros H; [discriminate|].
  cbn [continuations app length] in *. destruct (128 <=? b); [|reflexivity].
  rewrite IH by lia. reflexivity.
Qed.

Lemma q_varint_encoded w max l rest q :
  bytes_ok l -> S (continuations l) = length l -> (length l <= max)%nat ->
  pending q = l ++ rest ->
  q_varint w max q = Some (Some (wrap w (leb_val l)), q_pop (length l) q).
Proof.
  intros Hok Hc Hmax Ep. unfold q_varint. rewrite Ep, continuations_app, Hc by assumption.
  rewrite (proj2 (Nat.leb_gt max (continuations l))) by lia. rewrite andb_false_r.
  rewrite (proj2 (Nat.ltb_lt _ _)) by (rewrite length_app; lia).
  rewrite take_app_length. reflexivity.
Qed.

Lemma q_read_encoded l rest q :
  pending q = l ++ rest -> q_read (length l) q = Some (Some l, q_pop (length l) q).
Proof.
  intros Ep. unfold q_read. rewrite Ep, take_app_length.
  rewrite (proj2 (Nat.leb_le _ _)) by (rewrite length_app; lia). reflexivity.
Qed.

(** Cutting the packed position word: its three fields do not overlap. *)
Lemma position_word_fields x y z :
  position_word x y z = (x mod 2 ^ 26) * 2 ^ 38 + (y mod 2 ^ 12) * 2 ^ 26 + z mod 2 ^ 26.
Proof.
  unfold position_word. change 0x3FFFFFF with (Z.ones 26). change 0xFFF with (Z.ones 12).
  rewrite !Z.land_ones by lia.
  pose proof (Z.mod_pos_bound x (2 ^ 26) ltac:(lia)).
  pose proof (Z.mod_pos_bound y (2 ^ 12) ltac:(lia)).
  pose proof (Z.mod_pos_bound z (2 ^ 26) ltac:(lia)).
  rewrite Z.lor_comm, (Z.lor_comm (Z.shiftl _ 38)).
  rewrite (Z.lor_assoc (z mod _)), (lor_shift_add (z mod _)) by lia.
  rewrite (Z.shiftl_mul_pow2 (y mod _)) by lia.
  rewrite lor_shift_add by lia. rewrite Z.shiftl_mul_pow2 by lia. lia.
Qed.

Lemma position_decode x y z :
  - 2 ^ 25 <= x < 2 ^ 25 -> - 2 ^ 25 <= z < 2 ^ 25 ->
  let w := be_val (be_bytes 8 (position_word x y z)) in
  to_signed 26 (w / 2 ^ 38) = x /\ w / 2 ^ 26 mod 2 ^ 11 = y mod 2 ^ 11 /\ to_signed 26 w = z.
Proof.
  intros Hx Hz. rewrite be_val_be_bytes. cbv zeta.
  pose proof (Z.mod_pos_bound x (2 ^ 26) ltac:(lia)).
  pose proof (Z.mod_pos_bound y (2 ^ 12) ltac:(lia)).
  pose proof (Z.mod_pos_bound z (2 ^ 26) ltac:(lia)).
  rewrite position_word_fields. rewrite Z.mod_small by lia.
  set (w := _ + _ + z mod 2 ^ 26).
  assert (E1 : w / 2 ^ 38 = x mod 2 ^ 26)
    by (symmetry; apply Z.div_unique with (y mod 2 ^ 12 * 2 ^ 26 + z mod 2 ^ 26); unfold w; lia).
  assert (E2 : w / 2 ^ 26 = x mod 2 ^ 26 * 2 ^ 12 + y mod 2 ^ 12)
    by (symmetry; apply Z.div_unique with (z mod 2 ^ 26); unfold w; lia).
  assert (E3 : w mod 2 ^ 26 = z mod 2 ^ 26)
    by (symmetry; apply Z.mod_unique with (x mod 2 ^ 26 * 2 ^ 12 + y mod 2 ^ 12); unfold w; lia).
  rewrite E1, E2. split_and!.
  - rewrite <- (to_signed_wrap 26 x) at 2 by lia. reflexivity.
  - pose proof (Z.div_mod y (2 ^ 12) ltac:(lia)) as Ey.
    replace (x mod 2 ^ 26 * 2 ^ 12 + y mod 2 ^ 12)
      with (y + (x mod 2 ^ 26 * 2 - 2 * (y / 2 ^ 12)) * 2 ^ 11) by lia.
    apply Z.mod_add. lia.
  - rewrite <- (to_signed_wrap 26 z) by lia. apply to_signed_ext. rewrite E3. unfold wrap.
    rewrite Z.mod_mod by lia. reflexivity.
Qed.

Lemma q_write_value_fits v q :
  value_typed v -> (used q + length (encode v) <= capacity q)%nat ->
  q_write_value v q = Some (Some tt, q_push (encode v) q).
Proof.
  intros Ht Hfit.
  assert (Hw : forall l q, (used q + length l <= capacity q)%nat ->
                 q_write l q = Some (Some tt, q_push l q)).
  { intros l q0 Hl. unfold q_write. rewrite (proj2 (Nat.leb_le _ _)) by assumption. reflexivity. }
  destruct v; cbn [q_write_value]; try (apply Hw; assumption).
  cbn [encode] in *. rewrite length_app in Hfit. destruct Ht as [Hok Hlen].
  destruct (varint_ok 5 32 (u32 (Z.of_nat (length s)))) as (l & E & _ & Hc & _ & _);
    [lia..|apply wrap_bound; lia|].
  rewrite E in *. change (default [] (Some l)) with l in *. unfold sbind, q_put.
  rewrite (proj2 (Nat.leb_le _ _)) by lia. rewrite Hw by lia.
  unfold q_push at 2. rewrite Hw.
  - unfold q_push. simpl. rewrite app_assoc. reflexivity.
  - unfold q_push, used in *. simpl. rewrite length_app. lia.
Qed.

Lemma q_read_value_encoded v rest q :
  readable_back v -> pending q = encode v ++ rest ->
  q_read_value (kind_of v) q = Some (Some v, q_pop (length (encode v)) q).
Proof.
  intros [Ht Hr] Ep. destruct v; cbn [kind_of q_read_value encode] in *; unfold sbind.
  - rewrite <- (length_num_encode n z), (q_read_encoded _ _ _ Ep).
    unfold sret. rewrite num_decode_encode by assumption. reflexivity.
  - rewrite (q_read_encoded _ _ _ Ep : q_read 1 q = _). destruct x; reflexivity.
  - destruct (varint_ok 5 32 z) as (l & E & Hok & Hc & Hl & Hv); [lia..|exact Ht|].
    rewrite E in *. change (default [] (Some l)) with l in *.
    rewrite (q_varint_encoded _ _ _ _ _ Hok Hc Hl Ep), Hv. unfold sret.
    rewrite wrap_small by exact Ht. reflexivity.
  - destruct (varint_ok 10 64 z) as (l & E & Hok & Hc & Hl & Hv); [lia..|exact Ht|].
    rewrite E in *. change (default [] (Some l)) with l in *.
    rewrite (q_varint_encoded _ _ _ _ _ Hok Hc Hl Ep), Hv. unfold sret.
    rewrite wrap_small by exact Ht. reflexivity.
  - destruct Ht as [Hs Hlen].
    rewrite (wrap_small 32) in * by (unfold in_width; lia).
    destruct (varint_ok 5 32 (Z.of_nat (length s))) as (l & E & Hok & Hc & Hl & Hv);
      [lia..|unfold in_width; lia|].
    rewrite E in *. change (default [] (Some l)) with l in *. rewrite <- app_assoc in Ep.
    rewrite (q_varint_encoded 64 10 _ _ _ Hok Hc ltac:(lia) Ep), Hv.
    rewrite (wrap_small 64), (wrap_small 32), Nat2Z.id by (unfold in_width; lia).
    rewrite (q_read_encoded s rest) by (simpl; rewrite Ep; apply drop_app_length).
    rewrite q_pop_pop, length_app. reflexivity.
  - rewrite <- (length_be_bytes 8 (position_word x y z)).
    rewrite (q_read_encoded _ _ _ Ep). cbv zeta. unfold sret.
    destruct Hr as (Hx & Hy & Hz). destruct (position_decode x y z Hx Hz) as (-> & -> & ->).
    rewrite Z.mod_small by assumption. reflexivity.
Qed.

Fixpoint write_all (vs : list value) : BB unit :=
  match vs with [] => ret tt | v :: vs => write_value v;; write_all vs end.

Fixpoint read_all (ks : list kind) : BB (list value) :=
  match ks with
  | [] => ret []
  | k :: ks => v <- read_value k;; vs <- read_all ks;; ret (v :: vs)
  end.

Lemma write_all_spec vs : Forall value_typed vs -> forall b q, represents b q ->
  (used q + length (concat (map encode vs)) <= capacity q)%nat ->
  exists b', write_all vs b = Some (Some tt, b') /\
             represents b' (q_push (concat (map encode vs)) q).
Proof.
  induction 1 as [|v vs Hv _ IH]; intros b q R Hfit; cbn [write_all map concat] in *.
  - eexists. split; [reflexivity|]. unfold q_push. rewrite app_nil_r. destruct q; exact R.
  - rewrite length_app in Hfit.
    pose proof (sim_write_value v Hv b q R) as Hs.
    rewrite q_write_value_fits in Hs by (assumption || lia). destruct Hs as (b1 & E1 & R1).
    unfold bind. rewrite E1. destruct (IH _ _ R1) as (b2 & E2 & R2).
    { unfold q_push, used in *. simpl. rewrite length_app. lia. }
    exists b2. split; [exact E2|]. unfold q_push in *. simpl in *.
    rewrite <- app_assoc in R2. exact R2.
Qed.

Lemma read_all_spec vs : Forall readable_back vs -> forall b q rest, represents b q ->
  pending q = concat (map encode vs) ++ rest ->
  exists b', read_all (map kind_of vs) b = Some (Some vs, b') /\
             represents b' (q_pop (length (concat (map encode vs))) q).
Proof.
  induction 1 as [|v vs Hv _ IH]; intros b q rest R Ep; cbn [read_all map concat] in *.
  - eexists. split; [reflexivity|]. simpl. rewrite q_pop_0. exact R.
  - rewrite <- app_assoc in Ep. pose proof (sim_read_value (kind_of v) b q R) as Hs.
    rewrite (q_read_value_encoded v _ q Hv Ep) in Hs. destruct Hs as (b1 & E1 & R1).
    unfold bind at 1. rewrite E1.
    destruct (IH b1 _ rest R1) as (b2 & E2 & R2).
    { simpl. rewrite Ep. apply drop_app_length. }
    unfold bind. rewrite E2. rewrite length_app, <- q_pop_pop. eauto.
Qed.

(** Round trip: into a buffer from which everything has been read, with enough free space,
    any sequence of values (integers of all widths and both signs, floating-point
    patterns, booleans, variable-length integers, length-prefixed strings, packed
    positions of non-negative height) is written successfully and read back as it was
    written by the matching reads, which leave nothing behind - wherever in the ring the
    data falls. *)
Theorem byte_buffer_roundtrip (vs : list value) (b : cByteBuffer) (q : queue) :
  represents b q -> pending q = [] -> Forall readable_back vs ->
  (length (concat (map encode vs)) <= GetFreeSpace b)%nat ->
  exists b1 b2,
    write_all vs b = Some (Some tt, b1) /\
    read_all (map kind_of vs) b1 = Some (Some vs, b2) /\
    GetReadableSpace b2 = 0%nat /\ GetFreeSpace b2 = GetFreeSpace b1.
Proof.
  intros R Ep Hv Hfit. rewrite (rep_free_space _ _ R) in Hfit. pose proof (rep_used _ _ R).
  destruct (write_all_spec vs) with (b := b) (q := q) as (b1 & E1 & R1); try assumption; [|lia|].
  { eapply Forall_impl; [exact Hv|]. intros v [Ht _]. exact Ht. }
  destruct (read_all_spec vs Hv b1 _ [] R1) as (b2 & E2 & R2).
  { simpl. rewrite Ep, app_nil_r. reflexivity. }
  exists b1, b2. split_and!; [exact E1 | exact E2 | |].
  - rewrite (rep_readable _ _ R2). simpl. rewrite Ep, length_drop. simpl. lia.
  - rewrite (rep_free_space _ _ R1), (rep_free_space _ _ R2), used_q_pop. reflexivity.
Qed.

Lemma byte_buffer_roundtrip_witness :
  exists b1 b2,
    write_all [VNum Int32 (-5); VVarInt64 (2 ^ 40); VString [104; 105]; VPosition (-7) 64 9]
      (cByteBuffer_ctor 40 (repeat 255 41)) = Some (Some tt, b1) /\
    read_all [KNum Int32; KVarInt64; KString; KPosition] b1 =
      Some (Some [VNum Int32 (-5); VVarInt64 (2 ^ 40); VString [104; 105]; VPosition (-7) 64 9], b2) /\
    GetReadableSpace b2 = 0%nat /\ GetFreeSpace b2 = GetFreeSpace b1.
Proof.
  apply (byte_buffer_roundtrip
    [VNum Int32 (-5); VVarInt64 (2 ^ 40); VString [104; 105]; VPosition (-7) 64 9]
    (cByteBuffer_ctor 40 (repeat 255 41)) (q_empty 40)).
  - apply rep_ctor. reflexivity.
  - reflexivity.
  - repeat constructor; vm_compute; intuition congruence.
  - vm_compute. lia.
Defined.

(** A string write is not atomic: when the free space is one byte more than the string and
    the string is at least 128 bytes long, [WriteVarUTF8String] returns false although
    it has already appended the length prefix, so the reader meets a prefix without its
    string. *)
Theorem string_write_partial (s : list Z) (b : cByteBuffer) (q : queue) :
  represents b q -> bytes_ok s -> 128 <= Z.of_nat (length s) < 2 ^ 32 ->
  GetFreeSpace b = (length s + 1)%nat ->
  exists prefix b',
    varint_bytes 5 (Z.of_nat (length s)) = Some prefix /\ (2 <= length prefix)%nat /\
    WriteVarUTF8String s b = Some (None, b') /\
    GetReadableSpace b' = (GetReadableSpace b + length prefix)%nat.
Proof.
  intros R Hok Hlen Hfree. pose proof (rep_used _ _ R) as Hu.
  pose proof (rep_free_space _ _ R) as Hf. rewrite Hfree in Hf.
  pose proof (sim_write_value (VString s) (conj Hok (proj2 Hlen)) b q R) as Hs.
  destruct (varint_ok 5 32 (Z.of_nat (length s))) as (l & E & _ & Hc & Hl & Hv);
    [lia..|unfold in_width; lia|].
  assert (H2 : (2 <= length l)%nat).
  { destruct l as [|x [|y l]]; simpl in Hc |- *; try lia.
    cbn [leb_val] in Hv. pose proof (Z.mod_pos_bound x 128 ltac:(lia)). lia. }
  cbn [q_write_value write_value] in Hs.
  rewrite (wrap_small 32), E in Hs by (unfold in_width; lia).
  change (default [] (Some l)) with l in Hs. unfold sbind, q_put, q_write in Hs.
  rewrite (proj2 (Nat.leb_le (length s + 1) _)) in Hs by lia.
  rewrite (proj2 (Nat.leb_le (used q + length l) _)) in Hs by lia.
  unfold q_push at 2 3 in Hs. unfold used in *. simpl in Hs. rewrite length_app in Hs.
  rewrite (proj2 (Nat.leb_gt _ _)) in Hs by lia. destruct Hs as (b' & Ew & R').
  exists l, b'. split_and!; try assumption.
  rewrite (rep_readable _ _ R), (rep_readable _ _ R'). simpl. rewrite length_app. reflexivity.
Qed.

Lemma string_write_partial_witness :
  exists prefix b',
    varint_bytes 5 (Z.of_nat (length (repeat 65 128))) = Some prefix /\ (2 <= length prefix)%nat /\
    WriteVarUTF8String (repeat 65 128) (cByteBuffer_ctor 129 (repeat 255 130)) = Some (None, b') /\
    GetReadableSpace b' =
      (GetReadableSpace (cByteBuffer_ctor 129 (repeat 255%Z 130)) + length prefix)%nat.
Proof.
  apply (string_write_partial (repeat 65 128) _ (q_empty 129)).
  - apply rep_ctor. reflexivity.
  - apply List.Forall_forall. intros x ->%repeat_spec. vm_compute. intuition congruence.
  - vm_compute. intuition congruence.
  - reflexivity.
Defined.

(** What the readers do with bytes the class did not write: a 32-bit variable-length integer
    whose first five bytes all announce another one makes the reader shift by 35. *)
Theorem overlong_varint (b : cByteBuffer) (q : queue) :
  represents b q -> (5 < length (pending q))%nat ->
  Forall (fun c => 128 <= c) (take 5 (pending q)) -> ReadVarInt32 b = None.
Proof.
  intros R Hlen Hc. pose proof (sim_ReadVarInt32 b q R) as H. unfold q_varint in H.
  assert (Hcont : (5 <= continuations (pending q))%nat).
  { destruct (pending q) as [|c1 [|c2 [|c3 [|c4 [|c5 l]]]]]; simpl in Hlen; try lia.
    simpl in Hc. rewrite !Forall_cons in Hc. destruct Hc as (H1 & H2 & H3 & H4 & H5 & _).
    cbn [continuations].
    rewrite (proj2 (Z.leb_le 128 c1) H1), (proj2 (Z.leb_le 128 c2) H2),
      (proj2 (Z.leb_le 128 c3) H3), (proj2 (Z.leb_le 128 c4) H4),
      (proj2 (Z.leb_le 128 c5) H5). lia. }
  rewrite (proj2 (Nat.ltb_lt _ _) Hlen), (proj2 (Nat.leb_le _ _) Hcont) in H. exact H.
Qed.

(** A packed position of negative height comes back 2048 higher. *)
Theorem position_negative_height (x y z : Z) (b : cByteBuffer) (q : queue) :
  represents b q -> pending q = [] -> (8 <= GetFreeSpace b)%nat ->
  - 2 ^ 25 <= x < 2 ^ 25 -> - 2 ^ 11 <= y < 0 -> - 2 ^ 25 <= z < 2 ^ 25 ->
  exists b1 b2, WritePosition64 x y z b = Some (Some tt, b1) /\
    ReadPosition64 b1 = Some (Some (x, y + 2048, z), b2).
Proof.
  intros R Ep Hfree Hx Hy Hz. rewrite (rep_free_space _ _ R) in Hfree.
  pose proof (rep_used _ _ R).
  pose proof (sim_write_value (VPosition x y z) I b q R) as Hs.
  rewrite q_write_value_fits in Hs; [|exact I|cbn [encode]; rewrite length_be_bytes; lia].
  destruct Hs as (b1 & E1 & R1). pose proof (sim_ReadPosition64 b1 _ R1) as Hr.
  pose proof (q_read_encoded (be_bytes 8 (position_word x y z)) []
    (q_push (encode (VPosition x y z)) q)) as Er.
  rewrite length_be_bytes in Er. unfold sbind in Hr.
  rewrite Er in Hr by (cbn [q_push pending encode]; rewrite Ep, app_nil_r; reflexivity).
  cbv zeta in Hr. destruct (position_decode x y z Hx Hz) as (Ex & Ey & Ez).
  rewrite Ex, Ey, Ez in Hr. destruct Hr as (b2 & E2 & _). exists b1, b2. split; [exact E1|].
  rewrite E2. replace (y mod 2 ^ 11) with (y + 2048); [reflexivity|].
  apply Z.mod_unique with (-1); lia.
Qed.

(** [ReadToByteBuffer] moves the bytes it was asked for, or nothing. *)
Lemma ReadToByteBuffer_loop_spec fuel : forall src dst qs qd n,
  represents src qs -> represents dst qd -> (n <= fuel)%nat ->
  (n <= length (pending qs))%nat -> (used qd + n <= capacity qd)%nat ->
  exists src' dst',
    ReadToByteBuffer_loop fuel src dst n = Some (src', dst') /\
    represents src' (q_pop n qs) /\ represents dst' (q_push (take n (pending qs)) qd).
Proof.
  induction fuel as [|fuel IH]; intros src dst qs qd n Rs Rd Hf Hn Hd; cbn [ReadToByteBuffer_loop].
  - assert (n = 0%nat) as -> by lia. do 2 eexists. split; [reflexivity|].
    rewrite q_pop_0. unfold q_push. simpl. rewrite app_nil_r. destruct qd; auto.
  - destruct (Nat.eqb_spec n 0) as [->|Hn0].
    { do 2 eexists. split; [reflexivity|].
      rewrite q_pop_0. unfold q_push. simpl. rewrite app_nil_r. destruct qd; auto. }
    set (num := if (1024 <? n)%nat then 1024%nat else n).
    assert (Hnum : (0 < num <= n)%nat) by (unfold num; destruct (Nat.ltb_spec 1024 n); lia).
    pose proof (sim_ReadBuf num src qs Rs) as Hr. unfold q_read in Hr.
    rewrite (proj2 (Nat.leb_le _ _)) in Hr by lia. destruct Hr as (src1 & -> & Rs1).
    assert (Hok : bytes_ok (take num (pending qs))) by (apply Forall_take, Rs).
    pose proof (sim_Write _ Hok dst qd Rd) as Hw. unfold q_write in Hw.
    rewrite length_take in Hw.
    rewrite (proj2 (Nat.leb_le _ _)) in Hw by lia. destruct Hw as (dst1 & -> & Rd1).
    destruct (IH src1 dst1 _ _ (n - num)%nat Rs1 Rd1) as (src2 & dst2 & -> & Rs2 & Rd2).
    + lia.
    + simpl. rewrite length_drop. lia.
    + unfold used, q_push in *. simpl. rewrite length_app, length_take. lia.
    + do 2 eexists. split; [reflexivity|]. split.
      * rewrite q_pop_pop in Rs2. replace (num + (n - num))%nat with n in Rs2 by lia. exact Rs2.
      * unfold q_push in *. simpl in *. rewrite <- app_assoc, take_take_drop in Rd2.
        replace (num + (n - num))%nat with n in Rd2 by lia. exact Rd2.
Qed.

(** [ReadToByteBuffer] is all or nothing: when the source has [n] readable bytes and the
    destination room for them, it returns true, the destination gains exactly the next
    [n] bytes of the source, in order, and the source loses them, whatever the number of
    1024-byte chunks; otherwise it returns false and neither buffer changes.  Its
    VERIFYs never fail. *)
Theorem read_to_byte_buffer (src dst : cByteBuffer) (qs qd : queue) (n : nat) :
  represents src qs -> represents dst qd ->
  exists src' dst',
    ReadToByteBuffer src dst n =
      Some ((n <=? length (pending qs))%nat && (used qd + n <=? capacity qd)%nat, src', dst') /\
    (if (n <=? length (pending qs))%nat && (used qd + n <=? capacity qd)%nat
     then represents src' (q_pop n qs) /\ represents dst' (q_push (take n (pending qs)) qd)
     else src' = src /\ dst' = dst).
Proof.
  intros Rs Rd. unfold ReadToByteBuffer, CanWriteBytes, CanReadBytes.
  rewrite (rep_free_space _ _ Rd), (rep_readable _ _ Rs). pose proof (rep_used _ _ Rd).
  destruct (Nat.leb_spec n (length (pending qs))) as [Hn|Hn].
  2:{ rewrite orb_true_r. simpl. eauto. }
  destruct (Nat.leb_spec n (capacity qd - used qd)),
    (Nat.leb_spec (used qd + n) (capacity qd)); try lia; simpl; [|eauto].
  destruct (ReadToByteBuffer_loop_spec n src dst qs qd n) as (src' & dst' & -> & ?);
    try assumption; simpl; eauto.
Qed.

Lemma read_to_byte_buffer_witness :
  exists src' dst',
    ReadToByteBuffer
      (default (cByteBuffer_ctor 4 (repeat 255 5)) (snd <$>
        calls [OWrite [1; 2; 3]] (cByteBuffer_ctor 4 (repeat 255 5))))
      (cByteBuffer_ctor 2 (repeat 255 3)) 2 = Some (true, src', dst') /\
    GetReadableSpace src' = 1%nat /\ GetReadableSpace dst' = 2%nat.
Proof.
  pose proof (sim_Write [1; 2; 3] ltac:(repeat constructor; vm_compute; congruence) _ _
    (rep_ctor 4 (repeat 255 5) eq_refl)) as (b' & Eb & R).
  replace (default _ _) with b' by (cbn [calls call]; unfold bind; rewrite Eb; reflexivity).
  destruct (read_to_byte_buffer b' (cByteBuffer_ctor 2 (repeat 255 3)) _ (q_empty 2) 2 R
    (rep_ctor 2 (repeat 255 3) eq_refl)) as (src' & dst' & E & Rs & Rd).
  exists src', dst'. split; [exact E|].
  rewrite (rep_readable _ _ Rs), (rep_readable _ _ Rd). split; reflexivity.
Defined.
