(* ===== verification/Cipher.v ===== *)
(** * Cipher: the stream cipher of the signalling connection
    (src/Src/Server/PolarSSL++/AesCfb128Encryptor.cpp, AesCfb128Decryptor.cpp)

    The wrappers implement AES-CFB8 by hand on top of PolarSSL's block function, one byte
    at a time.  PolarSSL's [aes_setkey_enc] and [aes_crypt_ecb] are an argument: the block
    function of a key.  A decryptor that was initialised like the encryptor gives back
    the plain text, however either side cuts the stream into calls. *)

From S2P Require Import Prelude Bytes.

(** PolarSSL: the encryption of one block of 16 bytes with a key of 16 bytes; RSA with
    PKCS#1 padding: decryption with the server's key, encryption with a public key in DER
    form into a buffer of 128 bytes, and the length of the server's modulus. *)
Class PolarSSL := {
  aes_crypt_ecb : list Z -> list Z -> list Z;
  rsa_pkcs1_decrypt : list Z -> option (list Z);
  rsa_encrypt : list Z -> list Z -> option (list Z);
  rsa_len : Z
}.

(** A cipher object: the key schedule stands for the key. *)
Record cAesCfb128 := {
  m_Aes : list Z;
  m_IV : list Z;
  m_IsValid : bool
}.

Section Cipher.
Context `{PolarSSL}.

(** [mem] holds what the constructor leaves uninitialised. *)
Definition cAesCfb128_ctor (mem : cAesCfb128) : cAesCfb128 :=
  {| m_Aes := m_Aes mem; m_IV := m_IV mem; m_IsValid := false |}.

Definition cAesCfb128_Init (a_Key a_IV : list Z) (c : cAesCfb128) : cAesCfb128 :=
  {| m_Aes := a_Key; m_IV := a_IV; m_IsValid := true |}.

(** The IV shifted by one place, with the cipher text byte at its end. *)
Definition shift_IV (b : Z) (c : cAesCfb128) : cAesCfb128 :=
  {| m_Aes := m_Aes c; m_IV := tail (m_IV c) ++ [b]; m_IsValid := m_IsValid c |}.

(** The first byte of the encrypted IV. *)
Definition key_byte (c : cAesCfb128) : option Z := head (aes_crypt_ecb (m_Aes c) (m_IV c)).

Fixpoint Encryptor_ProcessData (a_PlainIn : list Z) (c : cAesCfb128) : option (list Z * cAesCfb128) :=
  match a_PlainIn with
  | [] => Some ([], c)
  | p :: a_PlainIn =>
    k ← key_byte c;
    let e := Z.lxor p k in
    '(es, c) ← Encryptor_ProcessData a_PlainIn (shift_IV e c);
    Some (e :: es, c)
  end.

Fixpoint Decryptor_ProcessData (a_EncryptedIn : list Z) (c : cAesCfb128) : option (list Z * cAesCfb128) :=
  match a_EncryptedIn with
  | [] => Some ([], c)
  | e :: a_EncryptedIn =>
    k ← key_byte c;
    '(ps, c) ← Decryptor_ProcessData a_EncryptedIn (shift_IV e c);
    Some (Z.lxor e k :: ps, c)
  end.

(** ** Streams *)

Lemma Encryptor_app a b c :
  Encryptor_ProcessData (a ++ b) c
  = ('(x, c) ← Encryptor_ProcessData a c; '(y, c) ← Encryptor_ProcessData b c; Some (x ++ y, c)).
Proof.
  revert c. induction a as [|p a IH]; intros c; simpl.
  - destruct (Encryptor_ProcessData b c) as [[y c']|]; reflexivity.
  - destruct (key_byte c) as [k|]; [|reflexivity]. cbn [option_bind mbind]. rewrite IH.
    destruct (Encryptor_ProcessData a _) as [[x c']|]; [|reflexivity]. cbn [option_bind mbind].
    destruct (Encryptor_ProcessData b c') as [[y c'']|]; reflexivity.
Qed.

Lemma Decryptor_app a b c :
  Decryptor_ProcessData (a ++ b) c
  = ('(x, c) ← Decryptor_ProcessData a c; '(y, c) ← Decryptor_ProcessData b c; Some (x ++ y, c)).
Proof.
  revert c. induction a as [|p a IH]; intros c; simpl.
  - destruct (Decryptor_ProcessData b c) as [[y c']|]; reflexivity.
  - destruct (key_byte c) as [k|]; [|reflexivity]. cbn [option_bind mbind]. rewrite IH.
    destruct (Decryptor_ProcessData a _) as [[x c']|]; [|reflexivity]. cbn [option_bind mbind].
    destruct (Decryptor_ProcessData b c') as [[y c'']|]; reflexivity.
Qed.

(** The block function yields a byte, of 16 of them, whatever it is given. *)
Class BlockCipher : Prop := {
  block_bytes key iv : exists b rest, aes_crypt_ecb key iv = b :: rest /\ byte_ok b
}.

Context `{!BlockCipher}.

Lemma key_byte_ok c : exists k, key_byte c = Some k /\ byte_ok k.
Proof. unfold key_byte. destruct (block_bytes (m_Aes c) (m_IV c)) as (b & rest & -> & Hb). eauto. Qed.

Lemma lxor_byte a b : byte_ok a -> byte_ok b -> byte_ok (Z.lxor a b).
Proof.
  unfold byte_ok. intros Ha Hb. split; [apply Z.lxor_nonneg; lia|].
  assert (E : Z.lxor a b = wrap 8 (Z.lxor a b)); [|rewrite E; apply (wrap_bound 8); lia].
  apply Z.bits_inj'. intros i Hi. rewrite testbit_wrap by lia. destruct (Z.ltb_spec i 8); [reflexivity|].
  rewrite Z.lxor_spec, !(testbit_above 8) by (lia || (unfold in_width; lia)). reflexivity.
Qed.

(** Both sides stay in step. *)
Lemma cipher_inverse ps c :
  bytes_ok ps ->
  exists es c', Encryptor_ProcessData ps c = Some (es, c') /\ Decryptor_ProcessData es c = Some (ps, c')
    /\ List.length es = List.length ps /\ bytes_ok es.
Proof.
  revert c. induction ps as [|p ps IH]; intros c Hok; [exists [], c; split_and!; [reflexivity..| constructor]|].
  apply Forall_cons in Hok as [Hp Hok]. destruct (key_byte_ok c) as (k & Ek & Hk).
  destruct (IH (shift_IV (Z.lxor p k) c) Hok) as (es & c' & E1 & E2 & Hl & He).
  exists (Z.lxor p k :: es), c'. simpl. rewrite Ek. cbn [option_bind mbind]. rewrite E1, E2. cbn [option_bind mbind].
  rewrite Z.lxor_assoc, Z.lxor_nilpotent, Z.lxor_0_r.
  split_and!; [reflexivity | reflexivity | congruence | constructor; [apply lxor_byte; assumption | exact He]].
Qed.

(** The pieces of a stream, each in a call of its own. *)
Fixpoint process_pieces (process : list Z -> cAesCfb128 -> option (list Z * cAesCfb128))
    (pieces : list (list Z)) (c : cAesCfb128) : option (list Z * cAesCfb128) :=
  match pieces with
  | [] => Some ([], c)
  | x :: pieces =>
    '(y, c) ← process x c;
    '(ys, c) ← process_pieces process pieces c;
    Some (y ++ ys, c)
  end.

Lemma pieces_Encryptor pieces c : process_pieces Encryptor_ProcessData pieces c = Encryptor_ProcessData (concat pieces) c.
Proof.
  revert c. induction pieces as [|x pieces IH]; intros c; [reflexivity|]. simpl. rewrite Encryptor_app.
  destruct (Encryptor_ProcessData x c) as [[y c']|]; [|reflexivity]. cbn [option_bind mbind]. rewrite IH. reflexivity.
Qed.

Lemma pieces_Decryptor pieces c : process_pieces Decryptor_ProcessData pieces c = Decryptor_ProcessData (concat pieces) c.
Proof.
  revert c. induction pieces as [|x pieces IH]; intros c; [reflexivity|]. simpl. rewrite Decryptor_app.
  destruct (Decryptor_ProcessData x c) as [[y c']|]; [|reflexivity]. cbn [option_bind mbind]. rewrite IH. reflexivity.
Qed.

(** What one side encrypts the other decrypts to the same bytes, whatever pieces the text
    is encrypted in and whatever pieces the cipher text arrives in. *)
Theorem cipher_roundtrip key iv mem mem' pieces pieces' es c :
  Forall bytes_ok pieces ->
  process_pieces Encryptor_ProcessData pieces (cAesCfb128_Init key iv mem) = Some (es, c) ->
  concat pieces' = es ->
  process_pieces Decryptor_ProcessData pieces' (cAesCfb128_Init key iv mem') = Some (concat pieces, c).
Proof.
  intros Hok E Hp. rewrite pieces_Encryptor in E. rewrite pieces_Decryptor, Hp.
  destruct (cipher_inverse (concat pieces) (cAesCfb128_Init key iv mem)) as (es' & c' & E1 & E2 & _).
  - clear -Hok. induction Hok; [constructor|]. apply Forall_app. auto.
  - replace (cAesCfb128_Init key iv mem') with (cAesCfb128_Init key iv mem) by reflexivity. congruence.
Qed.
End Cipher.

(** ** A sample library *)

(** A block function that only mixes its arguments, and RSA that only pads. *)
Module Toy.
Definition block (key iv : list Z) : list Z :=
  [(foldr Z.add 7 key + 3 * foldr Z.add 0 iv) mod 256].

Definition pad (l : list Z) : list Z := take 128 (Z.of_nat (List.length l) :: l ++ repeat 0 128).
Definition unpad (l : list Z) : option (list Z) :=
  match l with n :: l => Some (take (Z.to_nat n) l) | [] => None end.

Definition lib : PolarSSL := {|
  aes_crypt_ecb := block;
  rsa_pkcs1_decrypt := unpad;
  rsa_encrypt := fun _ l => Some (pad l);
  rsa_len := 128
|}.

Definition laws : @BlockCipher lib.
Proof. split. intros key iv. eexists _, []. split; [reflexivity|]. apply Z.mod_pos_bound. lia. Qed.
End Toy.

Example cipher_roundtrip_witness :
  let mem := {| m_Aes := []; m_IV := []; m_IsValid := false |} in
  let key := map Z.of_nat (seq 1 16) in
  exists es c, process_pieces (@Encryptor_ProcessData Toy.lib) [[1; 2]; [3]; [200]] (cAesCfb128_Init key key mem) = Some (es, c)
    /\ process_pieces (@Decryptor_ProcessData Toy.lib) [take 1 es; drop 1 es] (cAesCfb128_Init key key mem)
       = Some ([1; 2; 3; 200], c).
Proof.
  intros mem key. eexists _, _. split; [vm_compute; reflexivity|].
  refine (cipher_roundtrip (H := Toy.lib) (H0 := Toy.laws) key key mem mem [[1; 2]; [3]; [200]] _ _ _ _ _ _).
  - repeat constructor; vm_compute; congruence.
  - vm_compute. reflexivity.
  - cbn [concat]. rewrite app_nil_r. reflexivity.
Defined.
