(* ===== verification/Framing.v ===== *)
(** * Framing: packets cut out of a byte stream
    (cProtocol_impl::AddReceivedData in src/Src/Server/Protocol/cProtocol_impl.cpp, and its
    copy in src/Src/Client/ConnectionClient.cpp)

    Both ends of the signalling connection collect what TCP delivers in a [cByteBuffer]
    and hand every complete packet, in a buffer of its own, to a handler.  The loop is
    defined for any handler; [packets_received] says that the way TCP cuts the stream does
    not matter. *)

From S2P Require Import Prelude Bytes ByteBuffer.
#[local] Open Scope nat_scope.

(** A packet in the stream: its length as a variable-length integer and its bytes. *)
Definition varint (n : Z) : list Z := default [] (varint_bytes 5 n).
Definition frame (payload : list Z) : list Z := varint (Z.of_nat (length payload)) ++ payload.

(** No more than four bytes in a row have their top bit set: then every variable-length
    integer in the stream is one that the buffer reads without undefined behaviour. *)
Definition short_runs (l : list Z) : Prop := forall k, continuations (drop k l) < 5.

Lemma continuations_take_le k l : continuations (take k l) <= continuations l.
Proof.
  revert k. induction l as [|b l IH]; intros [|k]; simpl; try lia.
  destruct (128 <=? b)%Z; [|lia]. specialize (IH k). lia.
Qed.

Lemma continuations_snoc l : continuations (l ++ [0%Z]) = continuations l.
Proof. induction l as [|b l IH]; [reflexivity|]. simpl. rewrite IH. reflexivity. Qed.

Lemma short_head l : short_runs l -> continuations l < 5.
Proof. intros H. exact (H 0). Qed.

Lemma short_drop n l : short_runs l -> short_runs (drop n l).
Proof. intros H k. rewrite drop_drop. apply H. Qed.

Lemma short_take n l : short_runs l -> short_runs (take n l).
Proof.
  intros H k. rewrite skipn_firstn_comm. pose proof (continuations_take_le (n - k) (drop k l)) as Hl.
  specialize (H k). lia.
Qed.

Lemma short_snoc l : short_runs l -> short_runs (l ++ [0%Z]).
Proof.
  intros H k. destruct (decide (k <= length l)) as [Hk|Hk].
  - rewrite drop_app_le, continuations_snoc by exact Hk. apply H.
  - rewrite drop_ge by (rewrite length_app; simpl; lia). simpl. lia.
Qed.

(** cByteBuffer::ClearAll of the client's copy; its memset has length 0. *)
Definition ClearAll (b : cByteBuffer) : cByteBuffer := set_ReadPos 0 (set_WritePos 0 (set_DataStart 0 b)).

Lemma rep_clear b q : represents b q -> represents (ClearAll b) (q_empty (capacity q)).
Proof.
  intros R. destruct b, R. simpl in *. split; simpl; unfold used, ring_pos; simpl; try assumption;
    try (rewrite rep_size; reflexivity); try lia.
  split; constructor.
Qed.

Section Framing.
Context {S Out : Type}.

(** The contents of the fresh array of a new [cByteBuffer] of the given size. *)
Context (fresh : nat -> list Z).

(** [HandlePacket], with the buffer it leaves, and the report of a packet that was not read
    to its end. *)
Context (handle : cByteBuffer -> Z -> S -> option (bool * cByteBuffer * S * list Out)).
Context (packet_error : Z -> S -> option (S * list Out)).

(** Whether the handler has called [ClearAll] on the receive buffer (only the client's can,
    by signing out in a callback). *)
Context (cleared : S -> bool).

Definition after_handler (s : S) (rcv : cByteBuffer) : cByteBuffer := if cleared s then ClearAll rcv else rcv.

Definition new_buffer (n : nat) : cByteBuffer := cByteBuffer_ctor n (fresh (n + 1)).

(** One packet in its buffer: whether the loop goes on.  The NUL behind the packet tells
    reading too much from reading all. *)
Definition handle_buffer (bb : cByteBuffer) (s : S) : option (bool * S * list Out) :=
  '(PacketType, bb) ← ReadVarInt bb;
  match PacketType with
  | None => Some (false, s, [])
  | Some PacketType =>
    '(_, bb) ← Write [0%Z] bb;
    '(handled, bb, s, out) ← handle bb PacketType s;
    if negb handled then Some (false, s, out)
    else if GetReadableSpace bb =? 1 then Some (true, s, out)
    else '(s, out') ← packet_error PacketType s; Some (true, s, out ++ out')
  end.

(** The loop over the complete packets.  Each takes at least one byte out of [rcv], so one
    round more than there are bytes is enough fuel. *)
Fixpoint packet_loop (fuel : nat) (rcv : cByteBuffer) (s : S) : option (cByteBuffer * S * list Out) :=
  match fuel with
  | O => None
  | Datatypes.S fuel =>
    '(PacketLen, rcv) ← ReadVarInt rcv;
    match PacketLen with
    | None => Some (ResetRead rcv, s, [])
    | Some PacketLen =>
      let len := Z.to_nat PacketLen in
      if negb (CanReadBytes rcv len) then Some (ResetRead rcv, s, []) else
      '(copied, rcv, bb) ← ReadToByteBuffer rcv (new_buffer (len + 1)) len;
      if negb copied then None else
      let rcv := CommitRead rcv in
      '(go, s, out) ← handle_buffer bb s;
      let rcv := after_handler s rcv in
      if go : bool then
        '(rcv, s, out') ← packet_loop fuel rcv s; Some (rcv, s, out ++ out')
      else Some (rcv, s, out)
    end
  end.

(** [AddReceivedData]; [full] is the report that the data does not fit. *)
Definition AddReceivedData (full : S -> option (S * list Out)) (a_Data : list Z) (rcv : cByteBuffer) (s : S)
    : option (cByteBuffer * S * list Out) :=
  '(fits, rcv) ← Write a_Data rcv;
  match fits with
  | None => '(s, out) ← full s; Some (rcv, s, out)
  | Some _ => packet_loop (Datatypes.S (GetUsedSpace rcv)) rcv s
  end.

(** ** What the loop does to the bytes *)

Hypothesis fresh_length : forall n, length (fresh n) = n.

(** The buffer a packet is handed over in: filled 1024 bytes at a time. *)
Fixpoint fill (fuel : nat) (bytes : list Z) (dst : cByteBuffer) : option cByteBuffer :=
  match fuel with
  | O => Some dst
  | Datatypes.S fuel =>
    if length bytes =? 0 then Some dst else
    match Write (take 1024 bytes) dst with
    | Some (Some tt, dst) => fill fuel (drop 1024 bytes) dst
    | _ => None
    end
  end.

Definition deliver (payload : list Z) (s : S) : option (bool * S * list Out) :=
  bb ← fill (length payload) payload (new_buffer (length payload + 1)); handle_buffer bb s.

(** The packets one after the other, as long as the handler takes them. *)
Fixpoint deliver_all (payloads : list (list Z)) (s : S) : option (S * list Out) :=
  match payloads with
  | [] => Some (s, [])
  | p :: payloads =>
    '(go, s, out) ← deliver p s;
    if go && negb (cleared s) then '(s, out') ← deliver_all payloads s; Some (s, out ++ out') else None
  end.

Lemma deliver_all_app ps1 ps2 s :
  deliver_all (ps1 ++ ps2) s
  = ('(s, out) ← deliver_all ps1 s; '(s, out') ← deliver_all ps2 s; Some (s, out ++ out')).
Proof.
  revert s. induction ps1 as [|p ps1 IH]; intros s; simpl.
  - destruct (deliver_all ps2 s) as [[? ?]|]; reflexivity.
  - destruct (deliver p s) as [[[go s1] out1]|]; [|reflexivity]. cbn [option_bind mbind].
    destruct (go && negb (cleared s1)); [|reflexivity]. rewrite IH.
    destruct (deliver_all ps1 s1) as [[s2 out2]|]; [|reflexivity]. cbn [option_bind mbind].
    destruct (deliver_all ps2 s2) as [[s3 out3]|]; [|reflexivity]. cbn [option_bind mbind].
    rewrite app_assoc. reflexivity.
Qed.

Lemma fill_loop fuel : forall src qs dst qd n,
  represents src qs -> represents dst qd -> n <= fuel -> n <= length (pending qs) -> used qd + n <= capacity qd ->
  exists src' dst', ReadToByteBuffer_loop fuel src dst n = Some (src', dst')
    /\ represents src' (q_pop n qs) /\ fill fuel (take n (pending qs)) dst = Some dst'.
Proof.
  induction fuel as [|fuel IH]; intros src qs dst qd n Rs Rd Hf Hn Hd; cbn [ReadToByteBuffer_loop fill].
  { assert (n = 0) as -> by lia. exists src, dst. split_and!; [reflexivity | rewrite q_pop_0; exact Rs | reflexivity]. }
  rewrite length_take, Nat.min_l by lia. destruct (Nat.eqb_spec n 0) as [->|Hn0].
  { exists src, dst. split_and!; [reflexivity | rewrite q_pop_0; exact Rs | reflexivity]. }
  set (num := if (1024 <? n)%nat then 1024%nat else n).
  assert (Hnum : num = Nat.min 1024 n) by (unfold num; destruct (Nat.ltb_spec 1024 n); lia).
  pose proof (sim_ReadBuf num src qs Rs) as Hr. unfold q_read in Hr.
  rewrite (proj2 (Nat.leb_le _ _)) in Hr by lia. destruct Hr as (src1 & -> & Rs1).
  assert (Hok : bytes_ok (take num (pending qs))) by (apply Forall_take, Rs).
  pose proof (sim_Write _ Hok dst qd Rd) as Hw. unfold q_write in Hw. rewrite length_take in Hw.
  rewrite (proj2 (Nat.leb_le _ _)) in Hw by lia. destruct Hw as (dst1 & Ew & Rd1).
  rewrite take_take. rewrite <- Hnum. rewrite Ew.
  destruct (IH src1 _ dst1 _ (n - num) Rs1 Rd1) as (src2 & dst2 & -> & Rs2 & Ef).
  - lia.
  - simpl. rewrite length_drop. lia.
  - unfold used, q_push in *. simpl. rewrite length_app, length_take. lia.
  - exists src2, dst2. split_and!; [reflexivity | |].
    + rewrite q_pop_pop in Rs2. replace (num + (n - num)) with n in Rs2 by lia. exact Rs2.
    + rewrite <- Ef. f_equal. simpl. rewrite take_drop_commute.
      destruct (Nat.ltb_spec 1024 n).
      * replace num with 1024 by lia. f_equal. f_equal. lia.
      * rewrite !drop_ge by (rewrite length_take; lia). reflexivity.
Qed.

Lemma fill_ok fuel : forall bytes dst qd,
  represents dst qd -> bytes_ok bytes -> length bytes <= fuel -> used qd + length bytes <= capacity qd ->
  exists dst', fill fuel bytes dst = Some dst' /\ represents dst' (q_push bytes qd).
Proof.
  assert (Hnil : forall dst qd, represents dst qd -> represents dst (q_push [] qd)).
  { intros dst qd R. unfold q_push. rewrite app_nil_r. destruct qd; exact R. }
  induction fuel as [|fuel IH]; intros bytes dst qd R Hok Hf Hfit; cbn [fill].
  { destruct bytes; [|simpl in Hf; lia]. eauto. }
  destruct (Nat.eqb_spec (length bytes) 0) as [Hn|Hn].
  { destruct bytes; [|discriminate]. eauto. }
  pose proof (sim_Write (take 1024 bytes) (Forall_take _ _ _ Hok) dst qd R) as Hw. unfold q_write in Hw.
  rewrite (proj2 (Nat.leb_le _ _)) in Hw by (rewrite length_take; lia). destruct Hw as (dst1 & -> & R1).
  destruct (IH (drop 1024 bytes) dst1 _ R1) as (dst2 & E2 & R2).
  - apply Forall_drop. exact Hok.
  - rewrite length_drop. lia.
  - unfold used, q_push in *. simpl. rewrite length_app, length_take, length_drop. lia.
  - exists dst2. split; [exact E2|]. unfold q_push in *. cbn [consumed pending capacity] in R2.
    rewrite <- app_assoc, take_drop in R2. exact R2.
Qed.

(** The buffer of a delivered packet holds exactly the packet, with room for the NUL. *)
Lemma deliver_buffer payload s :
  bytes_ok payload ->
  exists bb, represents bb {| consumed := []; pending := payload; capacity := length payload + 1 |}
    /\ deliver payload s = handle_buffer bb s.
Proof.
  intros Hok. assert (R : represents (new_buffer (length payload + 1)) (q_empty (length payload + 1))).
  { apply rep_ctor. rewrite fresh_length. lia. }
  destruct (fill_ok (length payload) payload _ _ R Hok (le_n _)) as (bb & E & Rb); [unfold used; simpl; lia|].
  exists bb. split; [exact Rb|]. unfold deliver. rewrite E. reflexivity.
Qed.

(** A packet at the head of the bytes, and what is left. *)
Definition parse (pend : list Z) : option (option (list Z * list Z)) :=
  let c := continuations pend in
  if (10 <? length pend) && (10 <=? c) then None
  else if c <? length pend then
    let n := Z.to_nat (u32 (wrap 64 (leb_val (take (Datatypes.S c) pend)))) in
    let rest := drop (Datatypes.S c) pend in
    if n <=? length rest then Some (Some (take n rest, drop n rest)) else Some None
  else Some None.

(** One round of the loop. *)
Lemma packet_loop_round fuel rcv q s :
  represents rcv q -> consumed q = [] ->
  match parse (pending q) with
  | None => packet_loop (Datatypes.S fuel) rcv s = None
  | Some None => exists rcv', packet_loop (Datatypes.S fuel) rcv s = Some (rcv', s, []) /\ represents rcv' q
  | Some (Some (payload, rest)) =>
    exists rcv', represents rcv' {| consumed := []; pending := rest; capacity := capacity q |}
      /\ packet_loop (Datatypes.S fuel) rcv s
         = ('(go, s, out) ← deliver payload s;
            let rcv := after_handler s rcv' in
            if go : bool then '(rcv, s, out') ← packet_loop fuel rcv s; Some (rcv, s, out ++ out')
            else Some (rcv, s, out))
  end.
Proof.
  intros R Hc. cbn [packet_loop]. unfold parse.
  assert (Hback : forall n rcv', n <= length (pending q) -> represents rcv' (q_pop n q) -> represents (ResetRead rcv') q).
  { intros n rcv' _ R'. apply rep_reset in R'. unfold q_reset, q_pop in R'. cbn [consumed pending capacity] in R'.
    rewrite Hc, app_nil_l, take_drop in R'.
    destruct q. simpl in *. subst. exact R'. }
  pose proof (sim_ReadVarInt64 rcv q R) as Hv. unfold q_varint in Hv. unfold ReadVarInt, bind.
  destruct ((10 <? length (pending q)) && (10 <=? continuations (pending q))); [rewrite Hv; reflexivity|].
  destruct (Nat.ltb_spec (continuations (pending q)) (length (pending q))) as [Hlt|Hge].
  2:{ destruct Hv as (rcv' & -> & R'). cbn [option_bind mbind]. exists (ResetRead rcv').
      split; [reflexivity|]. exact (Hback _ _ (le_n _) R'). }
  set (c := Datatypes.S (continuations (pending q))) in *.
  destruct Hv as (rcv1 & -> & R1). cbn [option_bind mbind ret]. unfold CanReadBytes. rewrite (rep_readable _ _ R1).
  cbn [q_pop pending]. set (n := Z.to_nat _).
  destruct (Nat.leb_spec n (length (drop c (pending q)))) as [Hn|Hn]; cbn [negb].
  2:{ exists (ResetRead rcv1). split; [reflexivity|]. apply (Hback c); [lia | exact R1]. }
  assert (Rn : represents (new_buffer (n + 1)) (q_empty (n + 1))).
  { apply rep_ctor. rewrite fresh_length. lia. }
  destruct (fill_loop n rcv1 _ _ _ n R1 Rn (le_n _) Hn) as (rcv2 & bb & E & R2 & Ef); [simpl; lia|].
  unfold ReadToByteBuffer, CanWriteBytes, CanReadBytes. rewrite (rep_free_space _ _ Rn), (rep_readable _ _ R1).
  change (capacity (q_empty (n + 1)) - used (q_empty (n + 1))) with (n + 1 - 0). cbn [q_pop pending].
  rewrite (proj2 (Nat.leb_le n (length _)) Hn), (proj2 (Nat.leb_le n (n + 1 - 0))) by lia.
  cbn [negb orb]. rewrite E. cbn [option_bind mbind negb].
  exists (CommitRead rcv2). split.
  - apply rep_commit in R2. unfold q_commit, q_pop in R2. simpl in R2. exact R2.
  - unfold deliver. rewrite length_take, Nat.min_l by exact Hn. cbn [q_pop pending] in Ef. rewrite Ef. reflexivity.
Qed.

(** ** What holds whatever arrives *)

Section Whatever.
(** An invariant of the state, and what a run may do to it. *)
Context (P : S -> Prop) (G : S -> S -> list Out -> Prop).
Hypothesis G_refl : forall s, G s s [].
Hypothesis G_trans : forall s1 s2 s3 o1 o2, G s1 s2 o1 -> G s2 s3 o2 -> G s1 s3 (o1 ++ o2).

Hypothesis deliver_total : forall payload s, P s -> bytes_ok payload ->
  match deliver payload s with
  | Some (_, s', out) => P s' /\ G s s' out
  | None => ~ short_runs payload
  end.

Lemma parse_some q payload rest :
  parse q = Some (Some (payload, rest)) ->
  exists k, payload = take (length payload) (drop k q) /\ rest = drop (k + length payload) q /\ 0 < k /\ k <= length q.
Proof.
  unfold parse. destruct (_ && _); [discriminate|].
  destruct (Nat.ltb_spec (continuations q) (length q)); [|discriminate].
  set (n := Z.to_nat _). set (c := Datatypes.S (continuations q)) in *.
  destruct (Nat.leb_spec n (length (drop c q))) as [Hn|]; [|discriminate].
  intros [= <- <-]. exists c. rewrite length_take, Nat.min_l by exact Hn. rewrite drop_drop.
  split_and!; [reflexivity | reflexivity | lia | lia].
Qed.

Lemma parse_none q : parse q = None -> ~ short_runs q.
Proof.
  unfold parse. destruct ((10 <? length q) && (10 <=? continuations q)) eqn:E.
  - apply andb_true_iff in E as [_ E%Nat.leb_le]. intros _ Hs. apply short_head in Hs. lia.
  - cbv zeta. intros Hn. repeat case_match; discriminate.
Qed.

Lemma packet_loop_total fuel : forall rcv q s,
  represents rcv q -> consumed q = [] -> length (pending q) < fuel -> P s ->
  match packet_loop fuel rcv s with
  | Some (rcv', s', out) =>
      (exists k, represents rcv' {| consumed := []; pending := drop k (pending q); capacity := capacity q |})
      /\ P s' /\ G s s' out
  | None => ~ short_runs (pending q)
  end.
Proof.
  induction fuel as [|fuel IH]; intros rcv q s R Hc Hf HP; [lia|].
  pose proof (packet_loop_round fuel rcv q s R Hc) as Hr.
  destruct (parse (pending q)) as [[[payload rest]|]|] eqn:Ep.
  2:{ destruct Hr as (rcv' & -> & R'). split_and!; [|exact HP|apply G_refl].
      exists 0. destruct q; simpl in *; subst; exact R'. }
  2:{ rewrite Hr. apply parse_none. exact Ep. }
  apply parse_some in Ep as (k & Epay & -> & Hk & Hkq). destruct Hr as (rcv' & R' & ->).
  assert (Hok : bytes_ok payload).
  { rewrite Epay. apply Forall_take, Forall_drop, R. }
  pose proof (deliver_total payload s HP Hok) as Hd. destruct (deliver payload s) as [[[go s1] out1]|].
  2:{ cbn. intros Hs. apply Hd. rewrite Epay. apply short_take, short_drop, Hs. }
  destruct Hd as [HP1 HG1]. cbn [option_bind mbind]. cbv zeta.
  assert (R1 : exists k1, represents (after_handler s1 rcv')
            {| consumed := []; pending := drop k1 (drop (k + length payload) (pending q)); capacity := capacity q |}
            /\ (k1 = 0 \/ k1 = length (drop (k + length payload) (pending q)))).
  { unfold after_handler. destruct (cleared s1).
    - exists (length (drop (k + length payload) (pending q))). rewrite drop_all. split; [|auto]. exact (rep_clear _ _ R').
    - exists 0. split; [exact R' | auto]. }
  destruct R1 as (k1 & R1 & _).
  destruct go; [|split_and!; [rewrite drop_drop in R1; eauto | exact HP1 | exact HG1]].
  specialize (IH _ _ s1 R1 eq_refl). cbn [pending capacity] in IH. rewrite !length_drop in IH.
  specialize (IH ltac:(lia) HP1).
  destruct (packet_loop fuel (after_handler s1 rcv') s1) as [[[rcv2 s2] out2]|]; cbn [option_bind mbind].
  - destruct IH as ([k2 R2] & HP2 & HG2). split_and!; [|exact HP2|eapply G_trans; eassumption].
    rewrite !drop_drop in R2. eauto.
  - intros Hs. apply IH. apply short_drop, short_drop, Hs.
Qed.

Lemma AddReceivedData_total full a_Data rcv l n s :
  (P s -> match full s with Some (s', out) => P s' /\ G s s' out | None => False end) ->
  represents rcv {| consumed := []; pending := l; capacity := n |} -> bytes_ok a_Data -> P s ->
  match AddReceivedData full a_Data rcv s with
  | Some (rcv', s', out) =>
      (exists l', represents rcv' {| consumed := []; pending := l'; capacity := n |}
         /\ (length (l ++ a_Data) <= n -> exists k, l' = drop k (l ++ a_Data)))
      /\ P s' /\ G s s' out
  | None => ~ short_runs (l ++ a_Data)
  end.
Proof.
  intros Hfull R Hok HP. unfold AddReceivedData. rewrite length_app.
  pose proof (sim_Write a_Data Hok rcv _ R) as Hw. unfold q_write, used in Hw. cbn [consumed pending capacity] in Hw.
  change (length ([] : list Z)) with 0 in Hw. rewrite Nat.add_0_l in Hw.
  destruct (Nat.leb_spec (length l + length a_Data) n).
  - destruct Hw as (rcv1 & -> & R1). cbn [option_bind mbind].
    pose proof (packet_loop_total (Datatypes.S (GetUsedSpace rcv1)) rcv1 _ s R1 eq_refl) as Hl.
    rewrite (rep_used_space _ _ R1) in *. unfold used in Hl. cbn [consumed pending q_push capacity] in Hl.
    specialize (Hl ltac:(simpl; lia) HP).
    change (used (q_push a_Data {| consumed := []; pending := l; capacity := n |}))
      with (length ([] : list Z) + length (l ++ a_Data)).
    destruct (packet_loop _ rcv1 s) as [[[rcv2 s2] out2]|]; [|exact Hl].
    destruct Hl as ([k R2] & HP2 & HG2). split_and!; [|assumption..]. exists (drop k (l ++ a_Data)). eauto.
  - destruct Hw as (rcv1 & -> & R1). cbn [option_bind mbind]. specialize (Hfull HP).
    destruct (full s) as [[s1 out1]|]; [|contradiction]. cbn [option_bind mbind]. destruct Hfull as [HP1 HG1].
    split_and!; [|assumption..]. exists l. split; [exact R1 | lia].
Qed.
End Whatever.

(** ** Frames *)

Lemma varint_spec n :
  (0 <= n < 2 ^ 32)%Z -> let l := varint n in
  bytes_ok l /\ Datatypes.S (continuations l) = length l /\ length l <= 5 /\ leb_val l = n.
Proof.
  intros Hn. destruct (varint_ok 5 32 n) as (l & E & Hok & Hc & Hl & Hv); [lia..|exact Hn|].
  unfold varint. rewrite E. auto.
Qed.

Definition framable (payload : list Z) : Prop := bytes_ok payload /\ (Z.of_nat (length payload) < 2 ^ 32)%Z.

Lemma parse_frame p rest : framable p -> parse (frame p ++ rest) = Some (Some (p, rest)).
Proof.
  intros [Hok Hp]. unfold frame. rewrite <- app_assoc.
  destruct (varint_spec (Z.of_nat (length p)) ltac:(lia)) as (Hl & Hc & H5 & Hv).
  set (l := varint _) in *. unfold parse. rewrite (continuations_app l _ Hc), !length_app.
  rewrite (proj2 (Nat.leb_gt 10 (continuations l))) by lia. rewrite andb_false_r.
  rewrite (proj2 (Nat.ltb_lt _ _)) by lia. rewrite Hc, take_app_length, drop_app_length, Hv.
  rewrite !wrap_small, Nat2Z.id by (unfold in_width; try rewrite wrap_small; unfold in_width; lia).
  rewrite length_app, (proj2 (Nat.leb_le _ _)) by lia. rewrite take_app_length, drop_app_length. reflexivity.
Qed.

Lemma continuations_take l k :
  Datatypes.S (continuations l) = length l -> k < length l -> continuations (take k l) = k.
Proof.
  revert k. induction l as [|b l IH]; intros k Hc Hk; simpl in *; [lia|].
  destruct k as [|k]; [reflexivity|]. simpl. destruct (128 <=? b)%Z; [|lia].
  rewrite IH; lia.
Qed.

(** A frame that is not complete. *)
Lemma parse_prefix p w v : framable p -> frame p = w ++ v -> v <> [] -> parse w = Some None.
Proof.
  intros [Hok Hp] E Hv. unfold frame in E.
  destruct (varint_spec (Z.of_nat (length p)) ltac:(lia)) as (Hl & Hc & H5 & Hval).
  set (l := varint _) in *. unfold parse.
  assert (Hlen : length l + length p = length w + length v) by (rewrite <- !length_app, E; reflexivity).
  destruct (decide (length w < length l)) as [Hs|Hs].
  - assert (Ew : w = take (length w) l).
    { rewrite <- (take_app_length w v), <- E, take_app_le by lia. rewrite length_take, Nat.min_l by lia. reflexivity. }
    rewrite (proj2 (Nat.ltb_ge 10 _)) by lia. cbn [andb].
    rewrite (proj2 (Nat.ltb_ge (continuations w) _)); [reflexivity|].
    rewrite Ew at 2. rewrite continuations_take by lia. lia.
  - assert (Ew : w = l ++ take (length w - length l) p).
    { rewrite <- (take_app_length w v), <- E, take_app_ge by lia. rewrite length_app, length_take, Nat.min_l; [|lia].
      do 2 f_equal. lia. }
    assert (Ht : length (take (length w - length l) p) < length p).
    { rewrite length_take. destruct v; [congruence|]. simpl in Hlen. lia. }
    rewrite Ew. set (t := take _ p) in *. rewrite (continuations_app l _ Hc), !length_app.
    rewrite (proj2 (Nat.leb_gt 10 (continuations l))) by lia. rewrite andb_false_r.
    rewrite (proj2 (Nat.ltb_lt _ _)) by lia. rewrite Hc, take_app_length, drop_app_length, Hval.
    rewrite !wrap_small, Nat2Z.id by (unfold in_width; try rewrite wrap_small; unfold in_width; lia).
    rewrite (proj2 (Nat.leb_gt _ _)) by lia. reflexivity.
Qed.

Lemma frame_not_empty p : framable p -> 0 < length (frame p).
Proof.
  intros [_ Hp]. destruct (varint_spec (Z.of_nat (length p)) ltac:(lia)) as (_ & Hc & _).
  unfold frame. rewrite length_app. lia.
Qed.

Lemma frame_bytes p : framable p -> bytes_ok (frame p).
Proof.
  intros [Hok Hp]. destruct (varint_spec (Z.of_nat (length p)) ltac:(lia)) as (Hl & _). apply Forall_app. auto.
Qed.

(** *** One packet, cut in two *)

(** The beginning of a packet is kept, and nothing else happens. *)
Lemma hears_part full p l x v rcv n s :
  framable p -> frame p = (l ++ x) ++ v -> v <> [] -> length (l ++ x) <= n ->
  represents rcv {| consumed := []; pending := l; capacity := n |} ->
  exists rcv', AddReceivedData full x rcv s = Some (rcv', s, [])
    /\ represents rcv' {| consumed := []; pending := l ++ x; capacity := n |}.
Proof.
  intros Hp E Hv Hn R. rewrite length_app in Hn.
  assert (Hx : bytes_ok x).
  { pose proof (frame_bytes p Hp) as Hf. rewrite E in Hf. apply Forall_app in Hf as [Hf _].
    apply Forall_app in Hf as [_ Hf]. exact Hf. }
  unfold AddReceivedData. pose proof (sim_Write x Hx rcv _ R) as Hw. unfold q_write, used in Hw.
  cbn [consumed pending capacity length] in Hw. rewrite (proj2 (Nat.leb_le _ _)) in Hw by (simpl; lia).
  destruct Hw as (rcv1 & -> & R1). cbn [option_bind mbind].
  pose proof (packet_loop_round (GetUsedSpace rcv1) rcv1 _ s R1 eq_refl) as Hr. cbn [q_push pending] in Hr.
  rewrite (parse_prefix p (l ++ x) v Hp E Hv) in Hr. destruct Hr as (rcv2 & E2 & R2). eauto.
Qed.

(** Its end makes the handler take it. *)
Lemma hears_all full p l x rcv n s go s' out :
  framable p -> l ++ x = frame p -> length (frame p) <= n ->
  represents rcv {| consumed := []; pending := l; capacity := n |} ->
  deliver p s = Some (go, s', out) -> cleared s' = false ->
  exists rcv', AddReceivedData full x rcv s = Some (rcv', s', out)
    /\ represents rcv' {| consumed := []; pending := []; capacity := n |}.
Proof.
  intros Hp E Hn R Ed Hcl. rewrite <- E, length_app in Hn.
  assert (Hx : bytes_ok x).
  { pose proof (frame_bytes p Hp) as Hf. rewrite <- E in Hf. apply Forall_app in Hf as [_ Hf]. exact Hf. }
  unfold AddReceivedData. pose proof (sim_Write x Hx rcv _ R) as Hw. unfold q_write, used in Hw.
  cbn [consumed pending capacity length] in Hw. rewrite (proj2 (Nat.leb_le _ _)) in Hw by (simpl; lia).
  destruct Hw as (rcv1 & -> & R1). cbn [option_bind mbind].
  pose proof (packet_loop_round (GetUsedSpace rcv1) rcv1 _ s R1 eq_refl) as Hr. cbn [q_push pending] in Hr.
  rewrite E in Hr. rewrite <- (app_nil_r (frame p)) in Hr. rewrite (parse_frame p [] Hp) in Hr.
  destruct Hr as (rcv2 & R2 & ->). rewrite Ed. cbn [option_bind mbind]. cbv zeta. unfold after_handler. rewrite Hcl.
  cbn [q_push capacity] in R2. destruct go; [|eauto].
  rewrite (rep_used_space _ _ R1). unfold used. cbn [q_push consumed pending length].
  rewrite E. pose proof (frame_not_empty p Hp). destruct (length (frame p)) as [|m]; [lia|]. cbn [Nat.add].
  pose proof (packet_loop_round m rcv2 _ s' R2 eq_refl) as Hr. cbn [pending] in Hr.
  change (parse []) with (Some (@None (list Z * list Z))) in Hr. destruct Hr as (rcv3 & -> & R3).
  cbn [option_bind mbind]. rewrite app_nil_r. eauto.
Qed.

(** The loop over the beginning [w] of a stream of frames: the complete ones are delivered,
    the beginning of the next one stays. *)
Lemma packet_loop_stream ps : forall fuel rcv q s w v s' out,
  Forall framable ps -> represents rcv q -> consumed q = [] -> pending q = w ->
  w ++ v = concat (map frame ps) -> length w < fuel -> deliver_all ps s = Some (s', out) ->
  exists ps1 ps2 l rcv' s1 out1,
    ps = ps1 ++ ps2 /\ l ++ v = concat (map frame ps2)
    /\ (l = [] \/ exists p ps3, ps2 = p :: ps3 /\ length l < length (frame p))
    /\ packet_loop fuel rcv s = Some (rcv', s1, out1) /\ deliver_all ps1 s = Some (s1, out1)
    /\ represents rcv' {| consumed := []; pending := l; capacity := capacity q |}.
Proof.
  induction ps as [|p ps IH]; intros fuel rcv q s w v s' out Hps R Hc Hw E Hf Ed.
  - apply app_eq_nil in E as [-> ->]. destruct fuel as [|fuel]; [lia|].
    pose proof (packet_loop_round fuel rcv q s R Hc) as Hr. rewrite Hw in Hr. destruct Hr as (rcv' & Er & R').
    exists [], [], [], rcv', s, []. split_and!; try reflexivity; [left; reflexivity | exact Er|].
    destruct q; simpl in *; subst; exact R'.
  - apply Forall_cons in Hps as [Hp Hps]. destruct fuel as [|fuel]; [lia|].
    pose proof (packet_loop_round fuel rcv q s R Hc) as Hr. rewrite Hw in Hr. cbn [map concat] in E.
    cbn [deliver_all] in Ed. destruct (deliver p s) as [[[go s1] out1]|] eqn:Edel; [|discriminate].
    cbn [option_bind mbind] in Ed. destruct (go && negb (cleared s1)) eqn:Ego; [|discriminate].
    apply andb_true_iff in Ego as [-> Ecl]. apply negb_true_iff in Ecl.
    destruct (deliver_all ps s1) as [[s2 out2]|] eqn:Eall; [|discriminate]. injection Ed as <- <-.
    destruct (decide (length (frame p) <= length w)) as [Hle|Hlt].
    + assert (Ew : exists w', w = frame p ++ w' /\ w' ++ v = concat (map frame ps)).
      { exists (drop (length (frame p)) w). assert (Et : take (length (frame p)) w = frame p).
        { rewrite <- (take_app_le w v) by exact Hle. rewrite E. apply take_app_length. }
        split; [rewrite <- Et at 1; symmetry; apply take_drop|].
        rewrite <- (drop_app_le w v) by exact Hle. rewrite E. apply drop_app_length. }
      destruct Ew as (w' & -> & Ew'). rewrite (parse_frame p w' Hp) in Hr. destruct Hr as (rcv1 & R1 & El).
      rewrite Edel in El. cbn [option_bind mbind] in El. cbv zeta in El. unfold after_handler in El. rewrite Ecl in El.
      pose proof (frame_not_empty p Hp). rewrite length_app in Hf.
      destruct (IH fuel rcv1 _ s1 w' v s2 out2 Hps R1 eq_refl eq_refl Ew' ltac:(lia) Eall)
        as (ps1 & ps2 & l & rcv' & s3 & out3 & -> & El2 & Hl & Er & Ed1 & R').
      exists (p :: ps1), ps2, l, rcv', s3, (out1 ++ out3). rewrite Er in El. cbn [option_bind mbind] in El.
      split_and!; [reflexivity | exact El2 | exact Hl | exact El | | exact R'].
      cbn [deliver_all]. rewrite Edel. cbn [option_bind mbind]. rewrite Ecl. cbn [negb andb]. rewrite Ed1. reflexivity.
    + assert (Ef : exists v', frame p = w ++ v' /\ v' <> []).
      { exists (drop (length w) (frame p)). assert (Et : take (length w) (frame p) = w).
        { rewrite <- (take_app_le (frame p) (concat (map frame ps))) by lia. rewrite <- E. apply take_app_length. }
        split; [rewrite <- Et at 1; symmetry; apply take_drop|].
        intros En. apply (f_equal length) in En. rewrite length_drop in En. simpl in En. lia. }
      destruct Ef as (v' & Ef & Hv'). rewrite (parse_prefix p w v' Hp Ef Hv') in Hr.
      destruct Hr as (rcv' & Er & R').
      exists [], (p :: ps), w, rcv', s, []. split_and!; try reflexivity; [exact E | right; exists p, ps; split; [reflexivity|lia] | exact Er|].
      destruct q; simpl in *; subst; exact R'.
Qed.

(** The pieces TCP delivers, one call for each. *)
Fixpoint receive_pieces (full : S -> option (S * list Out)) (pieces : list (list Z)) (rcv : cByteBuffer) (s : S)
    : option (cByteBuffer * S * list Out) :=
  match pieces with
  | [] => Some (rcv, s, [])
  | x :: pieces =>
    '(rcv, s, out) ← AddReceivedData full x rcv s;
    '(rcv, s, out') ← receive_pieces full pieces rcv s;
    Some (rcv, s, out ++ out')
  end.

Lemma packets_received_from full payloads : forall pieces rcv q l s s' out,
  Forall framable payloads -> Forall bytes_ok pieces ->
  represents rcv q -> consumed q = [] -> pending q = l ->
  l ++ concat pieces = concat (map frame payloads) ->
  (l = [] \/ exists p ps, payloads = p :: ps /\ length l < length (frame p)) ->
  (forall p x, p ∈ payloads -> x ∈ pieces -> length (frame p) + length x <= capacity q) ->
  deliver_all payloads s = Some (s', out) ->
  exists rcv', receive_pieces full pieces rcv s = Some (rcv', s', out)
    /\ represents rcv' {| consumed := []; pending := []; capacity := capacity q |}.
Proof.
  intros pieces. revert payloads. induction pieces as [|x pieces IH]; intros payloads rcv q l s s' out Hps Hok R Hc Hl E Hpre Hcap Ed.
  - rewrite app_nil_r in E. assert (Hnil : payloads = [] /\ l = []).
    { destruct payloads as [|p ps]; [split; [reflexivity | exact E]|]. exfalso. apply (f_equal length) in E.
      cbn [map concat] in E. rewrite length_app in E. apply Forall_cons in Hps as [Hp _].
      pose proof (frame_not_empty p Hp). destruct Hpre as [->|(p' & ps' & [= -> ->] & Hlt)]; simpl in *; lia. }
    destruct Hnil as [-> ->]. injection Ed as <- <-. exists rcv. split; [reflexivity|]. destruct q; simpl in *; subst; exact R.
  - apply Forall_cons in Hok as [Hx Hok]. cbn [concat] in E. rewrite app_assoc in E.
    assert (Hfit : used q + length x <= capacity q).
    { unfold used. rewrite Hc, Hl. simpl. pose proof (rep_used _ _ R) as Hu. unfold used in Hu. rewrite Hc, Hl in Hu. simpl in Hu.
      destruct payloads as [|p ps].
      - apply (f_equal length) in E. cbn [map concat] in E. rewrite !length_app in E. simpl in E. lia.
      - specialize (Hcap p x ltac:(left) ltac:(left)).
        destruct Hpre as [->|(p' & ps' & [= -> ->] & Hlt)]; simpl; lia. }
    pose proof (sim_Write x Hx rcv q R) as Hw. unfold q_write in Hw. rewrite (proj2 (Nat.leb_le _ _) Hfit) in Hw.
    destruct Hw as (rcv1 & Ew & R1). cbn [receive_pieces]. unfold AddReceivedData. rewrite Ew. cbn [option_bind mbind].
    destruct (packet_loop_stream payloads (Datatypes.S (GetUsedSpace rcv1)) rcv1 _ s (l ++ x) (concat pieces) s' out
                Hps R1 Hc ltac:(simpl; rewrite Hl; reflexivity) E) as (ps1 & ps2 & l2 & rcv2 & s1 & out1 & -> & El & Hl2 & Er & Ed1 & R2);
      [rewrite (rep_used_space _ _ R1); unfold used; simpl; rewrite Hc, Hl; simpl; lia | exact Ed |].
    rewrite Er. cbn [option_bind mbind].
    rewrite deliver_all_app, Ed1 in Ed. cbn [option_bind mbind] in Ed.
    destruct (deliver_all ps2 s1) as [[s2 out2]|] eqn:Ed2; [|discriminate]. injection Ed as <- <-.
    apply Forall_app in Hps as [_ Hps2].
    destruct (IH ps2 rcv2 _ l2 s1 s2 out2 Hps2 Hok R2 eq_refl eq_refl El Hl2) as (rcv' & -> & R'); [|exact Ed2|].
    { intros p y Hp Hy. simpl. apply Hcap; set_solver. }
    exists rcv'. split; [reflexivity | exact R'].
Qed.

(** However TCP cuts a stream of packets into pieces, each packet is handed to the handler
    exactly once, complete, alone and in order, and at the end nothing is left over;
    provided the handler takes every packet and no piece overfills the buffer behind an
    incomplete packet. *)
Theorem packets_received full payloads pieces rcv q s s' out :
  Forall framable payloads -> Forall bytes_ok pieces ->
  represents rcv q -> consumed q = [] -> pending q = [] ->
  concat pieces = concat (map frame payloads) ->
  (forall p x, p ∈ payloads -> x ∈ pieces -> length (frame p) + length x <= capacity q) ->
  deliver_all payloads s = Some (s', out) ->
  exists rcv', receive_pieces full pieces rcv s = Some (rcv', s', out)
    /\ represents rcv' {| consumed := []; pending := []; capacity := capacity q |}.
Proof. intros. eapply packets_received_from; eauto. Qed.
End Framing.

(** A handler that takes every packet and reports its type and contents. *)
Definition echo (bb : cByteBuffer) (PacketType : Z) (s : unit) : option (bool * cByteBuffer * unit * list (Z * list Z)) :=
  match ReadString (GetReadableSpace bb - 1) bb with
  | Some (Some body, bb) => Some (true, bb, s, [(PacketType, body)])
  | _ => None
  end.

Example packets_received_witness :
  let fresh n := repeat 0%Z n in
  let no_report := fun s : unit => Some (s, []) in
  exists rcv', receive_pieces fresh echo (fun _ => no_report) (fun _ => false) no_report [[3; 5]; [1; 2; 1]; [7]]%Z (new_buffer fresh 8) tt
      = Some (rcv', tt, [(5, [1; 2]); (7, [])]%Z)
    /\ represents rcv' {| consumed := []; pending := []; capacity := 8 |}.
Proof.
  intros fresh no_report.
  refine (packets_received fresh echo (fun _ => no_report) (fun _ => false) _ no_report [[5; 1; 2]; [7]]%Z [[3; 5]; [1; 2; 1]; [7]]%Z
            (new_buffer fresh 8) (q_empty 8) tt tt _ _ _ _ eq_refl eq_refl eq_refl _ _).
  - intros n. apply repeat_length.
  - repeat (constructor; [split; [repeat constructor; lia | reflexivity]|]). constructor.
  - repeat constructor; lia.
  - apply rep_ctor. reflexivity.
  - intros p x Hp Hx. cbn [capacity q_empty].
    repeat (apply elem_of_cons in Hp as [->|Hp]; [|]); [| |inversion Hp];
      repeat (apply elem_of_cons in Hx as [->|Hx]; [vm_compute; lia|]); inversion Hx.
  - vm_compute. reflexivity.
Defined.
