(* ===== verification/Packetizer.v ===== *)
(** * Packetizer: composing a packet and taking it out of the buffer
    (cPacketizer in src/Src/Server/Protocol/Packetizer.h and Packetizer.cpp,
    cProtocol_impl::SendPacket, and the client's copies of both)

    A packet is its type, a variable-length integer, and a list of fields.  The packetizer
    writes them to the connection's out buffer and, when it is destroyed, takes the whole
    packet out again with its length in front.  A write that fails ends the process
    ([VERIFY]); here that is [None], like undefined behaviour.

    The second part is what both ends share to handle a packet: actions that change a state
    and report something, and the macro HANDLE_READ, which returns from a handler when a
    field cannot be read. *)

From Stdlib Require Import Ascii String.
From S2P Require Import Prelude Bytes StringUtils ByteBuffer Framing.

Definition AString : Type := list Z.

(** The bytes of a string literal. *)
Definition chars (s : string) : AString := map (fun c => Z.of_nat (nat_of_ascii c)) (list_ascii_of_string s).

(** ** Writing a packet *)

(** A call of one of the [Write] methods of cPacketizer. *)
Inductive field := FValue (v : value) | FBuf (a_Data : list Z).

Definition write_field (f : field) : BB unit :=
  match f with FValue v => write_value v | FBuf a_Data => Write a_Data end.

(** The macro: it ends the process in a release build, too. *)
Definition VERIFY (m : BB unit) (b : cByteBuffer) : option cByteBuffer :=
  match m b with Some (Some _, b) => Some b | _ => None end.

Fixpoint write_fields (fs : list field) (m_Out : cByteBuffer) : option cByteBuffer :=
  match fs with
  | [] => Some m_Out
  | f :: fs => m_Out ← VERIFY (write_field f) m_Out; write_fields fs m_Out
  end.

(** The constructor ignores whether the type could be written. *)
Definition cPacketizer_ctor (a_PacketType : Z) (m_Out : cByteBuffer) : option cByteBuffer :=
  '(_, m_Out) ← WriteVarInt32 a_PacketType m_Out; Some m_Out.

Definition HexDigitValue (a_Character : Z) : Z :=
  if (48 <=? a_Character) && (a_Character <=? 57) then a_Character - 48
  else if (97 <=? a_Character) && (a_Character <=? 102) then a_Character - 87
  else if (65 <=? a_Character) && (a_Character <=? 70) then a_Character - 55
  else 0.

(** The 16 bytes of [WriteUUID], from 32 digits; any other string is ignored. *)
Fixpoint uuid_fields (a_UUID : AString) : list field :=
  match a_UUID with
  | h :: l :: a_UUID =>
    FValue (VNum UInt8 (wrap 8 (Z.lor (Z.shiftl (HexDigitValue h) 4) (HexDigitValue l)))) :: uuid_fields a_UUID
  | _ => []
  end.

Definition WriteUUID (a_UUID : AString) : list field :=
  if (List.length a_UUID =? 32)%nat then uuid_fields a_UUID else [].

(** What SendPacket does to the two buffers; the bytes it sends. *)
Definition SendPacket_data (m_OutPacketLenBuffer m_OutPacketBuffer : cByteBuffer)
    : option (list Z * cByteBuffer * cByteBuffer) :=
  let PacketLen := u32 (Z.of_nat (GetUsedSpace m_OutPacketBuffer)) in
  '(_, m_OutPacketLenBuffer) ← WriteVarInt32 PacketLen m_OutPacketLenBuffer;
  '(LenToSend, m_OutPacketLenBuffer) ← ReadAll m_OutPacketLenBuffer;
  '(DataToSend, m_OutPacketBuffer) ← ReadAll m_OutPacketBuffer;
  Some (default [] LenToSend ++ default [] DataToSend, CommitRead m_OutPacketLenBuffer, CommitRead m_OutPacketBuffer).

(** ** The packet that is written *)

Definition field_bytes (f : field) : list Z :=
  match f with FValue v => encode v | FBuf a_Data => a_Data end.

Definition field_ok (f : field) : Prop :=
  match f with FValue v => value_typed v | FBuf a_Data => bytes_ok a_Data end.

Definition body (fs : list field) : list Z := concat (map field_bytes fs).
Definition payload (a_PacketType : Z) (fs : list field) : list Z := varint a_PacketType ++ body fs.

Lemma encode_ok v : value_typed v -> bytes_ok (encode v).
Proof.
  destruct v; cbn [encode value_typed]; intros H.
  - apply num_encode_ok.
  - destruct x; repeat constructor; lia.
  - destruct (varint_ok 5 32 z) as (l & -> & Hok & _); [lia..|exact H|exact Hok].
  - destruct (varint_ok 10 64 z) as (l & -> & Hok & _); [lia..|exact H|exact Hok].
  - destruct H as [Hs Hl].
    destruct (varint_ok 5 32 (u32 (Z.of_nat (List.length s)))) as (l & -> & Hok & _);
      [lia..|apply wrap_bound; lia|]. apply Forall_app. split; assumption.
  - apply be_bytes_ok.
Qed.

Lemma field_bytes_ok f : field_ok f -> bytes_ok (field_bytes f).
Proof. destruct f; simpl; [apply encode_ok | trivial]. Qed.

Lemma body_ok fs : Forall field_ok fs -> bytes_ok (body fs).
Proof. induction 1 as [|f fs Hf _ IH]; [constructor|]. apply Forall_app. split; [apply field_bytes_ok; exact Hf | exact IH]. Qed.

Lemma payload_ok t fs : in_width 32 t -> Forall field_ok fs -> bytes_ok (payload t fs).
Proof. intros Ht Hfs. destruct (varint_spec t Ht) as (Hok & _). apply Forall_app. split; [exact Hok | apply body_ok, Hfs]. Qed.

(** The room a field takes. *)
Definition field_size (f : field) : nat :=
  match f with
  | FValue (VNum _ _) | FValue (VPosition _ _ _) => 8
  | FValue (VBool _) => 1
  | FValue (VVarInt32 _) => 5
  | FValue (VVarInt64 _) => 10
  | FValue (VString s) => List.length s + 5
  | FBuf l => List.length l
  end.

Lemma field_length f : field_ok f -> (List.length (field_bytes f) <= field_size f)%nat.
Proof.
  destruct f as [[n z|x|z|z|s|x y z]|l]; cbn [field_ok field_bytes encode field_size value_typed]; intros Hf.
  - rewrite length_num_encode. destruct n; simpl; lia.
  - simpl. lia.
  - destruct (varint_ok 5 32 z) as (l & -> & _ & _ & Hl & _); [lia..|exact Hf|exact Hl].
  - destruct (varint_ok 10 64 z) as (l & -> & _ & _ & Hl & _); [lia..|exact Hf|exact Hl].
  - rewrite length_app. destruct (varint_ok 5 32 (u32 (Z.of_nat (List.length s)))) as (l & -> & _ & _ & Hl & _);
      [lia..|apply wrap_bound; lia|]. simpl. lia.
  - rewrite length_be_bytes. lia.
  - lia.
Qed.

Lemma payload_length t fs :
  in_width 32 t -> Forall field_ok fs ->
  (List.length (payload t fs) <= 5 + foldr Nat.add 0 (map field_size fs))%nat.
Proof.
  intros Ht Hfs. unfold payload. rewrite length_app. destruct (varint_spec t Ht) as (_ & _ & H5 & _).
  enough (List.length (body fs) <= foldr Nat.add 0 (map field_size fs))%nat by lia.
  induction Hfs as [|f fs Hf _ IH]; [simpl; lia|].
  change (body (f :: fs)) with (field_bytes f ++ body fs). rewrite length_app. apply field_length in Hf. simpl. lia.
Qed.

Lemma write_field_fits f b q :
  field_ok f -> represents b q -> (used q + List.length (field_bytes f) <= capacity q)%nat ->
  exists b', VERIFY (write_field f) b = Some b' /\ represents b' (q_push (field_bytes f) q).
Proof.
  intros Hf R Hfit. unfold VERIFY. destruct f as [v|l]; simpl in *.
  - pose proof (sim_write_value v Hf b q R) as H. rewrite q_write_value_fits in H by assumption.
    destruct H as (b' & -> & R'). eauto.
  - pose proof (sim_Write l Hf b q R) as H. unfold q_write in H. rewrite (proj2 (Nat.leb_le _ _) Hfit) in H.
    destruct H as (b' & -> & R'). eauto.
Qed.

Lemma q_push_push a b q : q_push b (q_push a q) = q_push (a ++ b) q.
Proof. unfold q_push. simpl. rewrite app_assoc. reflexivity. Qed.

Lemma write_fields_fit fs : forall b q,
  Forall field_ok fs -> represents b q -> (used q + List.length (body fs) <= capacity q)%nat ->
  exists b', write_fields fs b = Some b' /\ represents b' (q_push (body fs) q).
Proof.
  induction fs as [|f fs IH]; intros b q Hfs R Hfit.
  - exists b. split; [reflexivity|]. unfold q_push, body. simpl. rewrite app_nil_r. destruct q; exact R.
  - apply Forall_cons in Hfs as [Hf Hfs]. change (body (f :: fs)) with (field_bytes f ++ body fs) in *.
    rewrite length_app in Hfit.
    destruct (write_field_fits f b q Hf R) as (b1 & E1 & R1); [lia|].
    destruct (IH b1 _ Hfs R1) as (b2 & E2 & R2).
    { unfold used, q_push in *. simpl. rewrite length_app. lia. }
    exists b2. simpl. rewrite E1. cbn [option_bind mbind]. rewrite q_push_push in R2. auto.
Qed.

(** A packet that fits an empty buffer is written as it should be. *)
Lemma packet_written t fs out n :
  in_width 32 t -> Forall field_ok fs -> represents out (q_empty n) -> (List.length (payload t fs) <= n)%nat ->
  exists out', (b ← cPacketizer_ctor t out; write_fields fs b) = Some out'
    /\ represents out' {| consumed := []; pending := payload t fs; capacity := n |}.
Proof.
  intros Ht Hfs R Hfit. unfold payload in *. rewrite length_app in Hfit.
  pose proof (sim_write_varint 5 32 t ltac:(lia) ltac:(lia) ltac:(lia) Ht out _ R) as H.
  unfold q_write in H. fold (varint t) in H.
  destruct (Nat.leb_spec (used (q_empty n) + List.length (varint t)) (capacity (q_empty n))) as [Hle|Hlt];
    [|unfold used, q_empty in Hlt; simpl in Hlt; lia].
  destruct H as (b1 & E1 & R1). unfold cPacketizer_ctor, WriteVarInt32. rewrite E1. cbn [option_bind mbind].
  destruct (write_fields_fit fs b1 _ Hfs R1) as (b2 & E2 & R2); [unfold used; simpl; lia|].
  exists b2. split; [exact E2|]. rewrite q_push_push in R2. exact R2.
Qed.

(** What was written is what should be, or the process has ended. *)
Lemma q_write_value_inv v q q' : q_write_value v q = Some (Some tt, q') -> value_typed v -> q' = q_push (encode v) q.
Proof.
  assert (Hw : forall l q q', q_write l q = Some (Some tt, q') -> q' = q_push l q).
  { intros l q0 q0' E. unfold q_write in E. destruct (_ <=? _)%nat; [|discriminate]. injection E as <-. reflexivity. }
  destruct v; cbn [q_write_value]; intros E Ht; try (apply Hw; exact E).
  unfold sbind, q_put in E. destruct (_ <=? _)%nat; [|discriminate].
  destruct (q_write _ q) as [[[[]|] q1]|] eqn:E1; [|discriminate..]. apply Hw in E1, E. subst.
  apply q_push_push.
Qed.

Lemma write_field_inv f b q b' :
  field_ok f -> represents b q -> VERIFY (write_field f) b = Some b' -> represents b' (q_push (field_bytes f) q).
Proof.
  unfold VERIFY. intros Hf R E. destruct f as [v|l]; simpl in *.
  - pose proof (sim_write_value v Hf b q R) as Hs. destruct (q_write_value v q) as [[r q1]|] eqn:Eq;
      [|rewrite Hs in E; discriminate].
    destruct Hs as (b1 & Es & R1). rewrite Es in E. destruct r as [[]|]; [|discriminate]. injection E as <-.
    rewrite <- (q_write_value_inv v q q1 Eq Hf). exact R1.
  - pose proof (sim_Write l Hf b q R) as Hs. unfold q_write in Hs. destruct (_ <=? _)%nat;
      destruct Hs as (b1 & Es & R1); rewrite Es in E; [injection E as <-; exact R1 | discriminate].
Qed.

Lemma write_fields_inv fs : forall b q b',
  Forall field_ok fs -> represents b q -> write_fields fs b = Some b' -> represents b' (q_push (body fs) q).
Proof.
  induction fs as [|f fs IH]; intros b q b' Hfs R E; cbn [write_fields] in E.
  - injection E as <-. unfold q_push, body. simpl. rewrite app_nil_r. destruct q; exact R.
  - apply Forall_cons in Hfs as [Hf Hfs]. apply bind_Some in E as (b1 & E1 & E).
    pose proof (write_field_inv f b q b1 Hf R E1) as R1. specialize (IH b1 _ b' Hfs R1 E).
    rewrite q_push_push in IH. exact IH.
Qed.

(** A packet that does not fit ends the process. *)
Lemma packet_too_long t fs out n :
  in_width 32 t -> Forall field_ok fs -> represents out (q_empty n) ->
  (5 <= n)%nat -> (n < List.length (payload t fs))%nat ->
  (b ← cPacketizer_ctor t out; write_fields fs b) = None.
Proof.
  intros Ht Hfs R Hn Hlen. destruct (varint_spec t Ht) as (_ & _ & H5 & _).
  destruct (b ← cPacketizer_ctor t out; write_fields fs b) as [b|] eqn:E; [exfalso | reflexivity].
  apply bind_Some in E as (b0 & E0 & E).
  pose proof (sim_write_varint 5 32 t ltac:(lia) ltac:(lia) ltac:(lia) Ht out _ R) as H.
  unfold q_write in H. fold (varint t) in H.
  destruct (Nat.leb_spec (used (q_empty n) + List.length (varint t)) (capacity (q_empty n))) as [Hle|Hlt];
    [|unfold used, q_empty in Hlt; simpl in Hlt; lia].
  destruct H as (b1 & E1 & R1). unfold cPacketizer_ctor, WriteVarInt32 in E0. rewrite E1 in E0. injection E0 as <-.
  pose proof (write_fields_inv fs b1 _ b Hfs R1 E) as R2. apply rep_used in R2. rewrite q_push_push in R2.
  unfold payload in Hlen. unfold used, q_push in R2. cbn [consumed pending capacity q_empty app] in R2. simpl in R2. lia.
Qed.

Lemma read_all_pending b l n :
  represents b {| consumed := []; pending := l; capacity := n |} ->
  exists b', ReadAll b = Some (Some l, b') /\ represents (CommitRead b') (q_empty n).
Proof.
  intros R. destruct (sim_ReadAll b _ R) as (b' & E & R'). exists b'. split; [exact E|].
  apply rep_commit in R'. unfold q_commit, q_pop in R'. cbn [pending capacity] in R'.
  rewrite drop_all in R'. exact R'.
Qed.

(** The length is written to its buffer and read from there. *)
Lemma length_taken len_buf out p n :
  represents len_buf (q_empty 20) -> represents out {| consumed := []; pending := p; capacity := n |} ->
  Z.of_nat (List.length p) < 2 ^ 32 ->
  exists l1 l2, WriteVarInt32 (u32 (Z.of_nat (GetUsedSpace out))) len_buf = Some (Some tt, l1)
    /\ ReadAll l1 = Some (Some (varint (Z.of_nat (List.length p))), l2)
    /\ represents (CommitRead l2) (q_empty 20).
Proof.
  intros Rl Ro Hp. rewrite (rep_used_space _ _ Ro). unfold used. cbn [consumed pending].
  change (List.length ([] : list Z)) with 0%nat. rewrite Nat.add_0_l, (wrap_small 32) by (split; lia).
  set (k := Z.of_nat (List.length p)) in *.
  pose proof (sim_write_varint 5 32 k ltac:(lia) ltac:(lia) ltac:(lia) ltac:(split; lia) len_buf _ Rl) as H.
  unfold q_write in H. fold (varint k) in H.
  destruct (varint_spec k ltac:(lia)) as (Hok & _ & H5 & _).
  destruct (Nat.leb_spec (used (q_empty 20) + List.length (varint k)) (capacity (q_empty 20))) as [Hle|Hlt];
    [|unfold used, q_empty in Hlt; simpl in Hlt; lia].
  destruct H as (l1 & E1 & R1).
  change (q_push (varint k) (q_empty 20)) with {| consumed := []; pending := varint k; capacity := 20 |} in R1.
  destruct (read_all_pending _ _ _ R1) as (l2 & E2 & R2). exists l1, l2. auto.
Qed.

(** SendPacket empties both buffers and sends the packet with its length in front. *)
Lemma packet_taken len_buf out p n :
  represents len_buf (q_empty 20) -> represents out {| consumed := []; pending := p; capacity := n |} ->
  Z.of_nat (List.length p) < 2 ^ 32 ->
  exists len_buf' out', SendPacket_data len_buf out = Some (frame p, len_buf', out')
    /\ represents len_buf' (q_empty 20) /\ represents out' (q_empty n).
Proof.
  intros Rl Ro Hp. unfold SendPacket_data.
  destruct (length_taken _ _ _ _ Rl Ro Hp) as (l1 & l2 & E1 & E2 & R2). rewrite E1. cbn [option_bind mbind]. rewrite E2. cbn [option_bind mbind].
  destruct (read_all_pending _ _ _ Ro) as (o2 & -> & Ro2). cbn [option_bind mbind default]. eauto.
Qed.

(** ** Reading a packet *)

(** The buffer still holds [l]. *)
Definition holds (bb : cByteBuffer) (l : list Z) : Prop := exists q, represents bb q /\ pending q = l.

(** The reader takes [bytes] and yields [x]. *)
Definition yields {A} (Proc : BB A) (bytes : list Z) (x : A) : Prop := forall bb rest,
  holds bb (bytes ++ rest) -> exists bb', Proc bb = Some (Some x, bb') /\ holds bb' rest.

Lemma yields_simulated {A} (Proc : BB A) s bytes x :
  simulates Proc s ->
  (forall q rest, pending q = bytes ++ rest -> s q = Some (Some x, q_pop (List.length bytes) q)) ->
  yields Proc bytes x.
Proof.
  intros Hs Hq bb rest (q & R & E). specialize (Hs bb q R). rewrite (Hq q rest E) in Hs.
  destruct Hs as (bb' & -> & R'). exists bb'. split; [reflexivity|]. exists (q_pop (List.length bytes) q).
  split; [exact R'|]. cbn [q_pop pending]. rewrite E. apply drop_app_length.
Qed.

Lemma yields_value v : readable_back v -> yields (read_value (kind_of v)) (encode v) v.
Proof.
  intros Hv. eapply yields_simulated; [apply sim_read_value|]. intros q rest E. apply (q_read_value_encoded v rest q Hv E).
Qed.

(** A typed reader is [read_value] without the constructor. *)
Lemma yields_inj {A} (Proc : BB A) (C : A -> value) bytes x :
  (forall y z, C y = C z -> y = z) ->
  yields (y <- Proc;; ret (C y))%bb bytes (C x) -> yields Proc bytes x.
Proof.
  intros HC Hy bb rest Hb. destruct (Hy bb rest Hb) as (bb' & E & Hb'). exists bb'. split; [|exact Hb'].
  unfold bind, ret in E. destruct (Proc bb) as [[[y|] bb1]|]; [|discriminate..]. injection E as Ec ->.
  apply HC in Ec. subst. reflexivity.
Qed.

Lemma yields_string s : value_typed (VString s) -> yields ReadVarUTF8String (encode (VString s)) s.
Proof.
  intros Hs. apply (yields_inj _ VString); [congruence|]. apply (yields_value (VString s)). split; [exact Hs | exact I].
Qed.

Lemma yields_num n z : num_range n z -> yields (read_num n) (encode (VNum n z)) z.
Proof.
  intros Hz. apply (yields_inj _ (VNum n)); [congruence|]. apply (yields_value (VNum n z)). split; [exact Hz | exact I].
Qed.

Lemma yields_bool x : yields ReadBool (encode (VBool x)) x.
Proof. apply (yields_inj _ VBool); [congruence|]. apply (yields_value (VBool x)). split; exact I. Qed.

Lemma yields_varint32 z : in_width 32 z -> yields ReadVarInt32 (encode (VVarInt32 z)) z.
Proof.
  intros Hz. apply (yields_inj _ VVarInt32); [congruence|]. apply (yields_value (VVarInt32 z)). split; [exact Hz | exact I].
Qed.

Lemma yields_raw l : yields (ReadString (List.length l)) l l.
Proof.
  eapply yields_simulated; [apply sim_ReadString|]. intros q rest E. apply (q_read_encoded l rest q E).
Qed.

Lemma yields_ReadBuf l : yields (ReadBuf (List.length l)) l l.
Proof.
  eapply yields_simulated; [apply sim_ReadBuf|]. intros q rest E. apply (q_read_encoded l rest q E).
Qed.

Lemma read_type t bb q rest : in_width 32 t -> represents bb q -> pending q = varint t ++ rest ->
  exists bb', ReadVarInt bb = Some (Some t, bb') /\ represents bb' (q_pop (List.length (varint t)) q).
Proof.
  intros Ht R E. destruct (varint_spec t Ht) as (Hok & Hc & H5 & Hv).
  assert (Hsim : simulates ReadVarInt (sbind (q_varint 64 10) (fun v => sret (u32 v)))).
  { apply sim_bind; [apply sim_ReadVarInt64 | intros; apply sim_ret]. }
  specialize (Hsim bb q R). unfold sbind in Hsim. rewrite (q_varint_encoded 64 10 _ rest q Hok Hc ltac:(lia) E), Hv in Hsim.
  unfold sret in Hsim. rewrite (wrap_small 64), (wrap_small 32) in Hsim by (unfold in_width in *; lia). exact Hsim.
Qed.

(** ** Actions: a change of the state, with reports *)

Section Actions.
Context {S Out : Type}.

Definition Act : Type := S -> option (S * list Out).

Definition skip : Act := fun s => Some (s, []).
Definition tell (o : Out) : Act := fun s => Some (s, [o]).
Definition modify (f : S -> S) : Act := fun s => Some (f s, []).
Definition on_state (k : S -> Act) : Act := fun s => k s s.
Definition andThen (m k : Act) : Act := fun s =>
  '(s, out) ← m s; '(s, out') ← k s; Some (s, out ++ out').

(** The loop [while (a_Size > 0)] of SendData and DataReceived: [a_Data] is processed in
    chunks of at most [size] bytes.  Every round takes at least one, which bounds the rounds. *)
Fixpoint chunk_loop (size : nat) (process : list Z -> Act) (fuel : nat) (a_Data : list Z) : Act :=
  match fuel with
  | O => skip
  | Datatypes.S fuel =>
    if (List.length a_Data =? 0)%nat then skip else
    let NumBytes := if (size <? List.length a_Data)%nat then size else List.length a_Data in
    andThen (process (take NumBytes a_Data)) (chunk_loop size process fuel (drop NumBytes a_Data))
  end.

Definition in_chunks (size : nat) (process : list Z -> Act) (a_Data : list Z) : Act :=
  chunk_loop size process (List.length a_Data) a_Data.

(** The handler of one packet: the buffer is read as it goes, and kept. *)
Definition Handler : Type := cByteBuffer -> S -> option (cByteBuffer * S * list Out).

Definition finish (m : Act) : Handler := fun bb s => '(s, out) ← m s; Some (bb, s, out).

(** The macro: the handler returns when the read fails. *)
Definition HANDLE_READ {A} (Proc : BB A) (k : A -> Handler) : Handler := fun bb s =>
  '(x, bb) ← Proc bb;
  match x with
  | Some x => k x bb s
  | None => Some (bb, s, [])
  end.

Lemma andThen_inv (m k : Act) s s' out :
  andThen m k s = Some (s', out) ->
  exists s1 o1 o2, m s = Some (s1, o1) /\ k s1 = Some (s', o2) /\ out = o1 ++ o2.
Proof.
  unfold andThen. intros E. apply bind_Some in E as ([s1 o1] & E1 & E). apply bind_Some in E as ([s2 o2] & E2 & [= <- <-]).
  eauto 6.
Qed.

(** Processing a list of pieces one after the other. *)
Fixpoint process_all {T} (process : T -> Act) (pieces : list T) : Act :=
  match pieces with
  | [] => skip
  | x :: pieces => andThen (process x) (process_all process pieces)
  end.

(** The chunks are pieces of the data, none of them empty or longer than [size]. *)
Lemma chunk_loop_pieces size process fuel : forall a_Data,
  (0 < size)%nat -> (List.length a_Data <= fuel)%nat ->
  exists pieces, concat pieces = a_Data /\ Forall (fun x => (0 < List.length x <= size)%nat) pieces
    /\ chunk_loop size process fuel a_Data = process_all process pieces.
Proof.
  induction fuel as [|fuel IH]; intros a_Data Hs Hf; cbn [chunk_loop].
  { exists []. destruct a_Data; [|simpl in Hf; lia]. auto. }
  destruct (Nat.eqb_spec (List.length a_Data) 0) as [Hn|Hn].
  { exists []. destruct a_Data; [auto | discriminate]. }
  set (n := if (size <? List.length a_Data)%nat then size else List.length a_Data).
  assert (Hn1 : (0 < n <= size)%nat /\ (n <= List.length a_Data)%nat).
  { unfold n. destruct (Nat.ltb_spec size (List.length a_Data)); lia. }
  destruct (IH (drop n a_Data) Hs) as (pieces & E1 & E2 & E3); [rewrite length_drop; lia|].
  exists (take n a_Data :: pieces). split_and!.
  - cbn [concat]. rewrite E1. apply take_drop.
  - constructor; [rewrite length_take; lia | exact E2].
  - cbn [process_all]. rewrite E3. reflexivity.
Qed.

Lemma in_chunks_pieces size process a_Data :
  (0 < size)%nat ->
  exists pieces, concat pieces = a_Data /\ Forall (fun x => (0 < List.length x <= size)%nat) pieces
    /\ in_chunks size process a_Data = process_all process pieces.
Proof. intros Hs. apply chunk_loop_pieces; [exact Hs | lia]. Qed.

(** Data that fits one chunk is one piece. *)
Lemma in_chunks_one size process a_Data s :
  (0 < List.length a_Data <= size)%nat ->
  in_chunks size process a_Data s = process a_Data s.
Proof.
  intros [H0 Hs]. unfold in_chunks. destruct (List.length a_Data) as [|n] eqn:E; [lia|].
  cbn [chunk_loop]. rewrite E, (proj2 (Nat.ltb_ge size _)) by exact Hs. cbn [Nat.eqb].
  rewrite <- E, firstn_all, drop_all. unfold andThen.
  destruct (process a_Data s) as [[s' out]|]; [|reflexivity]. cbn [option_bind mbind].
  destruct n; cbn [chunk_loop]; cbn; rewrite app_nil_r; reflexivity.
Qed.

Lemma finish_inv (m : Act) bb s bb' s' out :
  finish m bb s = Some (bb', s', out) -> bb' = bb /\ m s = Some (s', out).
Proof. unfold finish. intros E. apply bind_Some in E as ([s1 o1] & E1 & [= <- <- <-]). auto. Qed.

Lemma HANDLE_READ_inv {A} (Proc : BB A) (k : A -> Handler) bb s bb' s' out :
  HANDLE_READ Proc k bb s = Some (bb', s', out) ->
  (exists bb1, Proc bb = Some (None, bb1) /\ bb' = bb1 /\ s' = s /\ out = [])
  \/ exists x bb1, Proc bb = Some (Some x, bb1) /\ k x bb1 s = Some (bb', s', out).
Proof.
  unfold HANDLE_READ. intros E. apply bind_Some in E as ([[x|] bb1] & E1 & E); [right; eauto|].
  injection E as <- <- <-. left. eauto.
Qed.
(** ** What a handler does with a well-formed packet *)

(** On a buffer with [bytes] and the NUL the handler reads everything but the NUL. *)
Definition handler_spec (h : Handler) (bytes : list Z) (s s' : S) (out : list Out) : Prop := forall bb,
  holds bb (bytes ++ [0]) -> exists bb', h bb s = Some (bb', s', out) /\ holds bb' [0].

Lemma spec_read {A} (Proc : BB A) k bytes x rest s s' out :
  yields Proc bytes x -> handler_spec (k x) rest s s' out -> handler_spec (HANDLE_READ Proc k) (bytes ++ rest) s s' out.
Proof.
  intros Hy Hk bb Hb. rewrite <- app_assoc in Hb. destruct (Hy bb _ Hb) as (bb1 & E & Hb1).
  unfold HANDLE_READ. rewrite E. cbn [option_bind mbind]. apply Hk. exact Hb1.
Qed.

Lemma spec_finish m s s' out : m s = Some (s', out) -> handler_spec (finish m) [] s s' out.
Proof. intros E bb Hb. exists bb. unfold finish. rewrite E. auto. Qed.

(** Such a packet is delivered without a complaint. *)
Lemma deliver_packet fresh handle packet_error h t fs s s' out :
  (forall n, List.length (fresh n) = n) -> in_width 32 t -> Forall field_ok fs ->
  (forall bb, handle bb t s = ('(bb, s, out) ← h bb s; Some (true, bb, s, out))) ->
  handler_spec h (body fs) s s' out ->
  deliver fresh handle packet_error (payload t fs) s = Some (true, s', out).
Proof.
  intros Hf Ht Hfs Hh Hs.
  destruct (deliver_buffer fresh handle packet_error Hf (payload t fs) s (payload_ok t fs Ht Hfs)) as (bb & R & ->).
  unfold handle_buffer, payload in *.
  destruct (read_type t bb _ (body fs) Ht R eq_refl) as (bb1 & -> & R1). cbn [option_bind mbind].
  assert (Hnul : bytes_ok [0]) by (repeat constructor; lia).
  pose proof (sim_Write [0] Hnul bb1 _ R1) as Hw. unfold q_write in Hw.
  rewrite (proj2 (Nat.leb_le _ _)) in Hw.
  2:{ unfold used. cbn [q_pop consumed pending capacity]. rewrite take_app_length, drop_app_length, !length_app. simpl. lia. }
  destruct Hw as (bb2 & -> & R2). cbn [option_bind mbind]. rewrite Hh.
  destruct (Hs bb2) as (bb3 & -> & (q3 & R3 & E3)).
  { eexists. split; [exact R2|]. cbn [q_push q_pop pending]. rewrite drop_app_length. reflexivity. }
  cbn [option_bind mbind negb]. rewrite (rep_readable _ _ R3), E3. reflexivity.
Qed.
End Actions.

Arguments Act : clear implicits.
Arguments Handler : clear implicits.

Declare Scope act_scope.
Delimit Scope act_scope with act.
Notation "m ;; k" := (andThen m k) (at level 100, right associativity) : act_scope.
