(* ===== verification/Messages.v ===== *)
(** * Messages: the packets of the signalling protocol

    Each as the bytes its sender composes (the handlers in ConnectionClient.cpp and
    cProtocol_impl.cpp; the state of the protocol it belongs to tells equal types apart). *)

From Stdlib Require Import Ascii String.
From S2P Require Import Prelude Bytes ByteBuffer Framing Packetizer.

(** ** The packets of a client *)

Definition StatusRequest_packet (server : AString) (port state : Z) : list Z :=
  payload 0 [FValue (VString (chars "mcu")); FValue (VString server); FValue (VNum Int32 port); FValue (VNum Int32 state)].
Definition LoginStart_packet : list Z := payload 0 [].
Definition EncryptionResponse_packet (EncKey EncNonce : list Z) : list Z :=
  payload 1 [FValue (VNum UInt16 (Z.of_nat (List.length EncKey))); FBuf EncKey;
             FValue (VNum UInt16 (Z.of_nat (List.length EncNonce))); FBuf EncNonce].
Definition LoginInfo_packet (username : AString) : list Z := payload 2 [FValue (VString username)].
Definition KeepAlive_packet (KeepAliveID : Z) : list Z := payload 0 [FValue (VVarInt32 KeepAliveID)].
Definition JoinRoom_packet (channel : AString) : list Z := payload 1 [FValue (VString channel)].
Definition LeftRoom_packet (channel : AString) : list Z := payload 9 [FValue (VString channel)].
Definition MsgRoom_packet (channel : AString) (target : Z) (msg : AString) : list Z :=
  payload 2 [FValue (VString channel); FValue (VVarInt32 target); FValue (VString msg)].

(** The packets of the server. *)
Definition StatusReply_packet (state : Z) (ip : AString) : list Z :=
  payload 0 [FValue (VNum Int32 state); FValue (VBool true); FValue (VBool true); FValue (VString ip)].
Definition EncryptionRequest_packet (ServerID : AString) (PublicKey : list Z) (addr : Z) : list Z :=
  payload 1 [FValue (VString ServerID);
             FValue (VNum Int16 (to_signed 16 (u16 (Z.of_nat (List.length PublicKey)))));
             FBuf PublicKey; FValue (VNum Int16 4); FValue (VNum Int32 (to_signed 32 addr))].
Definition LoginAllow_packet : list Z := payload 2 [].
Definition LoginSuccess_packet (id : Z) : list Z := payload 3 [FValue (VVarInt32 (u32 id))].
Definition ChannelMsg_packet (from : Z) (channel msg : AString) : list Z :=
  payload 2 [FValue (VVarInt32 (u32 from)); FValue (VString channel); FValue (VString msg)].
Definition JoinResult_packet (channel : AString) (result : Z) : list Z :=
  payload 1 [FValue (VString channel); FValue (VVarInt32 (u32 result))].
