(* ===== verification/Receiver.v ===== *)
(** * Receiver: one packet through a cipher, in pieces

    What the two ends of the signalling connection have in common when one packet arrives
    cut into pieces, each of them maybe decrypted in chunks: nothing happens until the
    last piece, and then what the packet makes the handler do.  [feed_all] is
    proved once, for any operation [one] that takes a piece, and used for chunks and for
    pieces of both ends. *)

From S2P Require Import Prelude Bytes ByteBuffer Cipher Framing Packetizer.
#[local] Open Scope act_scope.

Lemma nonempty_pieces size (pieces : list (list Z)) :
  Forall (fun x => (0 < List.length x <= size)%nat) pieces -> Forall (fun x => x <> []) pieces.
Proof. intros Hp. eapply Forall_impl; [exact Hp|]. intros x Hx ->. simpl in Hx. lia. Qed.

Section Streams.
Context `{PolarSSL}.

(** One direction of a connection: plain, or with the state of its cipher. *)
Definition stream : Type := option cAesCfb128.

(** A cipher that starts with a key, which is also the initial vector. *)
Definition keyed (key : list Z) : stream := Some {| m_Aes := key; m_IV := key; m_IsValid := true |}.

Definition encrypt (s : stream) (data : list Z) : option (list Z * stream) :=
  match s with
  | None => Some (data, None)
  | Some e => '(es, e) ← Encryptor_ProcessData data e; Some (es, Some e)
  end.

Definition decrypt (s : stream) (data : list Z) : option (list Z * stream) :=
  match s with
  | None => Some (data, None)
  | Some d => '(ps, d) ← Decryptor_ProcessData data d; Some (ps, Some d)
  end.

Lemma decrypt_app s a b :
  decrypt s (a ++ b) = ('(x, s) ← decrypt s a; '(y, s) ← decrypt s b; Some (x ++ y, s)).
Proof.
  destruct s as [d|]; [|reflexivity]. cbn [decrypt]. rewrite Decryptor_app.
  destruct (Decryptor_ProcessData a d) as [[x d1]|]; [|reflexivity]. cbn [option_bind mbind decrypt].
  destruct (Decryptor_ProcessData b d1) as [[y d2]|]; reflexivity.
Qed.

Context `{!BlockCipher}.

Lemma decrypt_encrypt s data es s' : bytes_ok data -> encrypt s data = Some (es, s') -> decrypt s es = Some (data, s').
Proof.
  intros Hok. destruct s as [e|]; cbn [encrypt decrypt]; [|intros [= <- <-]; reflexivity].
  destruct (cipher_inverse data e Hok) as (es1 & c & E1 & E2 & _). rewrite E1. cbn [option_bind mbind].
  intros [= <- <-]. rewrite E2. reflexivity.
Qed.

Lemma encrypt_total s data : bytes_ok data -> exists es s', encrypt s data = Some (es, s') /\ bytes_ok es /\ List.length es = List.length data.
Proof.
  intros Hok. destruct s as [e|]; [|exists data, None; auto].
  destruct (cipher_inverse data e Hok) as (es & c & E & _ & Hl & Hes). exists es, (Some c). cbn [encrypt]. rewrite E. auto.
Qed.

Lemma encrypt_app s a b :
  encrypt s (a ++ b) = ('(x, s) ← encrypt s a; '(y, s) ← encrypt s b; Some (x ++ y, s)).
Proof.
  destruct s as [d|]; [|reflexivity]. cbn [encrypt]. rewrite Encryptor_app.
  destruct (Encryptor_ProcessData a d) as [[x d1]|]; [|reflexivity]. cbn [option_bind mbind encrypt].
  destruct (Encryptor_ProcessData b d1) as [[y d2]|]; reflexivity.
Qed.

(** Decryption keeps the length, and succeeds on part of what it succeeds on. *)
Lemma decrypt_length s a x s' : decrypt s a = Some (x, s') -> List.length x = List.length a.
Proof.
  destruct s as [d|]; cbn [decrypt]; [|congruence]. intros E. apply bind_Some in E as ([y d1] & E & [= <- <-]).
  revert d y d1 E. induction a as [|e a IH]; intros d y d1 E; simpl in E; [injection E as <- <-; reflexivity|].
  apply bind_Some in E as (k & _ & E). apply bind_Some in E as ([ps d2] & E & [= <- <-]). simpl. f_equal. eapply IH, E.
Qed.

(** ** One packet in pieces *)

Section Pieces.
Context {S Out T : Type} (one : T -> Act S Out) (bytes : T -> list Z) (piece_ok : T -> Prop) (p : list Z).
Hypothesis piece_bytes : forall t, piece_ok t -> bytes t <> [].

(** [At_ ds l s]: [l] of the packet has arrived, the rest is decrypted from [ds] on.
    [Q ds s]: the packet has been handled, what follows is decrypted from [ds] on unless the
    packet changed that.  [N]: what is reported before the end of the packet; [F]: what is
    reported in all. *)
Context (At_ : stream -> list Z -> S -> Prop) (Q : stream -> S -> Prop).
Context (N F : list Out -> Prop).
Hypothesis N_nil : N [].
Hypothesis N_app : forall a b, N a -> N b -> N (a ++ b).
Hypothesis F_app : forall a b, N a -> F b -> F (a ++ b).

Hypothesis one_part : forall ds l t px ds' v s,
  At_ ds l s -> piece_ok t -> decrypt ds (bytes t) = Some (px, ds') -> frame p = (l ++ px) ++ v -> v <> [] ->
  exists s' o, one t s = Some (s', o) /\ N o /\ At_ ds' (l ++ px) s'.
Hypothesis one_all : forall ds l t px ds' s,
  At_ ds l s -> piece_ok t -> decrypt ds (bytes t) = Some (px, ds') -> l ++ px = frame p ->
  exists s' o, one t s = Some (s', o) /\ F o /\ Q ds' s'.

Lemma feed_part ts : forall ds l px ds' v s,
  At_ ds l s -> Forall piece_ok ts -> decrypt ds (concat (map bytes ts)) = Some (px, ds') ->
  frame p = (l ++ px) ++ v -> v <> [] ->
  exists s' o, process_all one ts s = Some (s', o) /\ N o /\ At_ ds' (l ++ px) s'.
Proof.
  induction ts as [|t ts IH]; intros ds l px ds' v s Ha Hts Hd E Hv.
  - exists s, []. split; [reflexivity|]. split; [exact N_nil|]. simpl in Hd.
    assert (Hn : px = [] /\ ds' = ds) by (destruct ds; cbn in Hd; injection Hd as <- <-; auto).
    destruct Hn as [-> ->]. rewrite app_nil_r. exact Ha.
  - apply Forall_cons in Hts as [Ht Hts]. cbn [map concat] in Hd. rewrite decrypt_app in Hd.
    apply bind_Some in Hd as ([x d1] & Hd1 & Hd). apply bind_Some in Hd as ([y d2] & Hd2 & [= <- <-]).
    destruct (one_part ds l t x d1 (y ++ v) s Ha Ht Hd1) as (s1 & o1 & E1 & HN1 & Ha1).
    { rewrite E, !app_assoc. reflexivity. }
    { intros En. apply app_eq_nil in En as [_ En]. contradiction. }
    destruct (IH d1 (l ++ x) y d2 v s1 Ha1 Hts Hd2) as (s2 & o2 & E2 & HN2 & Ha2).
    { rewrite E, !app_assoc. reflexivity. }
    { exact Hv. }
    exists s2, (o1 ++ o2). cbn [process_all]. unfold andThen. rewrite E1. cbn [option_bind mbind]. rewrite E2.
    rewrite <- app_assoc in Ha2. auto.
Qed.

Lemma feed_all ts : forall ds l px ds' s,
  At_ ds l s -> Forall piece_ok ts -> ts <> [] -> decrypt ds (concat (map bytes ts)) = Some (px, ds') ->
  l ++ px = frame p -> exists s' o, process_all one ts s = Some (s', o) /\ F o /\ Q ds' s'.
Proof.
  induction ts as [|t ts IH]; intros ds l px ds' s Ha Hts Hne Hd E; [contradiction|].
  apply Forall_cons in Hts as [Ht Hts]. cbn [map concat] in Hd.
  rewrite decrypt_app in Hd. apply bind_Some in Hd as ([x d1] & Hd1 & Hd). apply bind_Some in Hd as ([y d2] & Hd2 & [= <- <-]).
  destruct ts as [|t' ts].
  - assert (Hn : y = [] /\ d2 = d1) by (destruct d1; cbn in Hd2; injection Hd2 as <- <-; auto).
    destruct Hn as [-> ->]. rewrite app_nil_r in E.
    destruct (one_all ds l t x d1 s Ha Ht Hd1 E) as (s1 & o1 & E1 & HF & HQ).
    exists s1, o1. cbn [process_all]. unfold andThen. rewrite E1. cbn. rewrite app_nil_r. auto.
  - assert (Hy : y <> []).
    { apply decrypt_length in Hd2. cbn [map concat] in Hd2. rewrite length_app in Hd2. apply Forall_cons in Hts as [Ht'%piece_bytes _].
      destruct (bytes t'); [contradiction|]. destruct y; [simpl in Hd2; lia | discriminate]. }
    destruct (one_part ds l t x d1 y s Ha Ht Hd1) as (s1 & o1 & E1 & HN1 & Ha1); [rewrite <- app_assoc; auto | exact Hy|].
    destruct (IH d1 (l ++ x) y d2 s1 Ha1 Hts ltac:(discriminate) Hd2) as (s2 & o2 & E2 & HF & HQ); [rewrite <- app_assoc; exact E|].
    exists s2, (o1 ++ o2). split; [|auto]. cbn [process_all]. unfold andThen at 1. rewrite E1. cbn [option_bind mbind].
    change (andThen (one t') (process_all one ts)) with (process_all one (t' :: ts)). rewrite E2. reflexivity.
Qed.
End Pieces.
End Streams.
