(* ===== verification/ClientHandle.v ===== *)
(** * ClientHandle: the server's side of one signalling connection
    (src/Src/Server/ClientHandle.cpp, Protocol/cProtocol_impl.cpp)

    A cClientHandle owns a cProtocol_impl and the two call each other, so both are one
    state here.  Data from the network thread is queued by [OnReceivedData] and handled in
    the next [ServerTick], which also sends what was queued for the client.  Calls to the
    other parts of the server only append to a queue there; they are reported as
    [request]s in the order they are made.  Every method is atomic.

    [None] is undefined behaviour (an overlong variable-length integer) or the end of the
    process (VERIFY).  The address of the object, which is the nonce of the handshake, is
    the member [this]; [now] is the steady clock, in nanoseconds, during one call. *)

From Stdlib Require Import Ascii String.
From S2P Require Import Prelude Bytes StringUtils ByteBuffer Cipher Framing Packetizer.
#[local] Open Scope act_scope.

(** ** Error codes (src/Src/Include/ErrorCode.h) *)

Definition ERROR_CODE_ACCOUNT_AUTH_OK : Z := 1.
Definition ERROR_CODE_ACCOUNT_ALREADY_LOGIN : Z := -2.
Definition ERROR_CODE_PACKET_ERROR : Z := -4.
Definition ERROR_CODE_PACKET_UNKONWN : Z := -5.
Definition ERROR_CODE_SERVER_BUSY : Z := -6.
Definition ERROR_CODE_SERVER_SHUTDOWN : Z := -7.
Definition ERROR_CODE_CLIENT_TIMEOUT : Z := -8.
Definition ERROR_CODE_BAD_APP : Z := -11.
Definition ERROR_CODE_INVALID_ENCKEYLENGTH : Z := -12.
Definition ERROR_CODE_INVALID_ENCNONCELENGTH : Z := -13.
Definition ERROR_CODE_HACKED_CLIENT : Z := -14.

(** ** The state *)

Inductive eState := csConnected | csAuthenticating | csAuthenticated | csWorking | csDestroying | csDestroyed.

#[export] Instance eState_eq_dec : EqDecision eState.
Proof. solve_decision. Defined.

(** The value of the enumeration, for [>=]. *)
Definition eState_num (s : eState) : Z :=
  match s with
  | csConnected => 0 | csAuthenticating => 1 | csAuthenticated => 2
  | csWorking => 3 | csDestroying => 4 | csDestroyed => 5
  end.

(** The members of cProtocol and cProtocol_impl. *)
Record cProtocol_impl := {
  m_OutPacketBuffer : cByteBuffer;
  m_OutPacketLenBuffer : cByteBuffer;
  p_State : Z;                       (* m_State: 1 = status, 2 = login, 3 = work *)
  m_ReceivedData : cByteBuffer;
  m_IsEncrypted : bool;
  m_Decryptor : cAesCfb128;
  m_Encryptor : cAesCfb128
}.

#[export] Instance eta_cProtocol_impl : Eta cProtocol_impl := fun p =>
  {| m_OutPacketBuffer := m_OutPacketBuffer p; m_OutPacketLenBuffer := m_OutPacketLenBuffer p;
     p_State := p_State p; m_ReceivedData := m_ReceivedData p; m_IsEncrypted := m_IsEncrypted p;
     m_Decryptor := m_Decryptor p; m_Encryptor := m_Encryptor p |}.

Record cClientHandle := {
  m_IPString : AString;
  m_Username : AString;
  m_Protocol : cProtocol_impl;
  m_IncomingData : list Z;
  m_OutgoingData : list Z;
  m_HasSentDC : bool;
  m_TicksSinceLastPacket : Z;
  m_Ping : Z;
  m_PingID : Z;
  m_PingStartTime : Z;
  m_State : eState;
  m_UniqueID : Z;
  m_UUID : AString;
  m_Link : bool;                     (* the link is set *)
  this : Z                           (* the low 32 bits of the protocol object's address *)
}.

#[export] Instance eta_cClientHandle : Eta cClientHandle := fun c =>
  {| m_IPString := m_IPString c; m_Username := m_Username c; m_Protocol := m_Protocol c;
     m_IncomingData := m_IncomingData c; m_OutgoingData := m_OutgoingData c; m_HasSentDC := m_HasSentDC c;
     m_TicksSinceLastPacket := m_TicksSinceLastPacket c; m_Ping := m_Ping c; m_PingID := m_PingID c;
     m_PingStartTime := m_PingStartTime c; m_State := m_State c; m_UniqueID := m_UniqueID c;
     m_UUID := m_UUID c; m_Link := m_Link c; this := this c |}.

(** The calls a client handle makes to the authenticator, the channel manager and its link. *)
Inductive request :=
  | Authenticator_Authenticate (a_ClientID : Z) (a_UserName a_PassWord : AString)
  | Manager_doUserJoinChannel (a_ClientID : Z) (a_Channel : AString)
  | Manager_doUserLeftChannel (a_ClientID : Z) (a_Channel : AString)
  | Manager_doUserOffline (a_ClientID : Z)
  | Manager_OnMsgFromPeer (a_Channel : AString) (a_FromID a_TargetID : Z) (a_Msg : AString)
  | Link_Send (a_Data : list Z).

(** What the server's configuration gives the protocol. *)
Class ServerKeys := { GetServerID : AString; GetPublicKeyDER : AString }.

Definition MAX_ENC_LEN : Z := 512.
Definition PING_TIME_MS : Z := 15000 * 1000000.

Section ClientHandle.
Context `{PolarSSL, ServerKeys}.

(** The contents of a fresh array of the given size. *)
Context (fresh : nat -> list Z).

#[local] Notation Action := (Act cClientHandle request).
#[local] Notation Handle := (Handler cClientHandle request).

Definition on_protocol (f : cProtocol_impl -> cProtocol_impl) (c : cClientHandle) : cClientHandle :=
  c <| m_Protocol ::= f |>.

(** ** Sending *)

Definition cClientHandle_SendData (a_Data : list Z) : Action :=
  modify (fun c => if m_HasSentDC c then c else c <| m_OutgoingData ::= fun l => l ++ a_Data |>).

(** A chunk is encrypted and queued. *)
Definition send_chunk (a_Data : list Z) : Action := fun c =>
  '(Encrypted, e) ← Encryptor_ProcessData a_Data (m_Encryptor (m_Protocol c));
  (modify (on_protocol (fun p => p <| m_Encryptor := e |>));; cClientHandle_SendData Encrypted) c.

Definition SendData (a_Data : list Z) : Action := fun c =>
  if m_IsEncrypted (m_Protocol c) then in_chunks (8 * 1024) send_chunk a_Data c
  else cClientHandle_SendData a_Data c.

Definition SendPacket : Action := fun c =>
  let p := m_Protocol c in
  '(DataToSend, len_buf, out) ← SendPacket_data (m_OutPacketLenBuffer p) (m_OutPacketBuffer p);
  (modify (on_protocol (fun p => p <| m_OutPacketLenBuffer := len_buf |> <| m_OutPacketBuffer := out |>));;
   SendData DataToSend) c.

(** A packetizer from its construction to its destruction. *)
Definition cPacketizer (a_PacketType : Z) (fs : list field) : Action := fun c =>
  out ← cPacketizer_ctor a_PacketType (m_OutPacketBuffer (m_Protocol c));
  out ← write_fields fs out;
  (modify (on_protocol (fun p => p <| m_OutPacketBuffer := out |>));; SendPacket) c.

Definition protocol_SendDisconnect (a_Reason : Z) : Action := fun c =>
  match p_State (m_Protocol c) with
  | 2 => cPacketizer 0 [FValue (VNum Int32 a_Reason)] c
  | 3 => cPacketizer 0x40 [FValue (VNum UInt32 (u32 a_Reason))] c
  | _ => skip c
  end.

Definition SendKeepAlive (a_PingID : Z) : Action := fun c =>
  if negb (p_State (m_Protocol c) =? 3) then skip c
  else cPacketizer 0x00 [FValue (VVarInt32 (u32 a_PingID))] c.

Definition SendLoginSuccess : Action := fun c =>
  (cPacketizer 0x03 [FValue (VVarInt32 (u32 (m_UniqueID c)))];;
   modify (on_protocol (fun p => p <| p_State := 3 |>))) c.

Definition onJoinChannelResult (a_Channel : AString) (a_Result : Z) : Action :=
  cPacketizer 0x01 [FValue (VString a_Channel); FValue (VVarInt32 (u32 a_Result))].
Definition onLeaveChannelResult (a_Channel : AString) (a_Result : Z) : Action :=
  cPacketizer 0x09 [FValue (VString a_Channel); FValue (VVarInt32 (u32 a_Result))].
Definition onChannelMsg (a_FromID : Z) (a_Channel a_Msg : AString) : Action :=
  cPacketizer 0x02 [FValue (VVarInt32 (u32 a_FromID)); FValue (VString a_Channel); FValue (VString a_Msg)].

(** ** The handle's reports of errors *)

Definition SendDisconnect (a_Reason : Z) : Action := fun c =>
  if m_HasSentDC c then skip c
  else (protocol_SendDisconnect a_Reason;; modify (fun c => c <| m_HasSentDC := true |>)) c.

Definition Kick (a_Reason : Z) : Action := SendDisconnect a_Reason.
Definition PacketBufferFull : Action := SendDisconnect ERROR_CODE_SERVER_BUSY.
Definition PacketUnknown (a_PacketType : Z) : Action := SendDisconnect ERROR_CODE_PACKET_UNKONWN.
Definition PacketError (a_PacketType : Z) : Action := SendDisconnect ERROR_CODE_PACKET_ERROR.

(** ** Handlers of packets *)

Definition request_id (r : Z -> request) : Action := on_state (fun c => tell (r (m_UniqueID c))).

Definition HandleLogin (a_Username a_Password : AString) : Action :=
  modify (fun c => c <| m_State := csAuthenticating |>);;
  request_id (fun id => Authenticator_Authenticate id a_Username a_Password).

Definition HandleKeepAlive (now a_KeepAliveID : Z) : Action :=
  modify (fun c => if a_KeepAliveID =? m_PingID c then c <| m_Ping := now - m_PingStartTime c |> else c).

Definition HandlePacketStatusRequest : Handle :=
  HANDLE_READ ReadVarUTF8String (fun appName =>
  HANDLE_READ ReadVarUTF8String (fun server =>
  HANDLE_READ ReadBEInt32 (fun port =>
  HANDLE_READ ReadBEInt32 (fun state => finish
    (if negb (bool_decide (appName = chars "mcu")) || (state <? 1) || (2 <? state) then Kick ERROR_CODE_BAD_APP
     else
       modify (on_protocol (fun p => p <| p_State := state |>));;
       on_state (fun c => cPacketizer 0x00
         [FValue (VNum Int32 (p_State (m_Protocol c))); FValue (VBool true); FValue (VBool true);
          FValue (VString (m_IPString c))])))))).

Definition HandlePacketStatusPing : Handle :=
  HANDLE_READ ReadBEInt64 (fun Timestamp => finish (cPacketizer 0x01 [FValue (VNum Int64 Timestamp)])).

Definition HandlePacketLoginStart : Handle := finish (on_state (fun c =>
  cPacketizer 0x01
    [FValue (VString GetServerID);
     FValue (VNum Int16 (to_signed 16 (u16 (Z.of_nat (List.length GetPublicKeyDER)))));
     FBuf GetPublicKeyDER;
     FValue (VNum Int16 4);
     FValue (VNum Int32 (to_signed 32 (this c)))])).

(** cRsaPrivateKey::Decrypt: the plain text, or -1. *)
Definition RsaPrivateKey_Decrypt (a_EncryptedData : list Z) (a_DecryptedMaxLength : Z) : option (list Z) :=
  if Z.of_nat (List.length a_EncryptedData) <? rsa_len then None
  else if a_DecryptedMaxLength <? rsa_len then None
  else rsa_pkcs1_decrypt (take (Z.to_nat rsa_len) a_EncryptedData).

(** [ReadString] with a signed count: as a size_t a negative one is more than any buffer holds. *)
Definition ReadString_count (a_Count : Z) : BB AString :=
  if a_Count <? 0 then fail else ReadString (Z.to_nat a_Count).

Definition StartEncryption (a_Key : list Z) : Action :=
  modify (on_protocol (fun p => p
    <| m_Encryptor ::= cAesCfb128_Init a_Key a_Key |>
    <| m_Decryptor ::= cAesCfb128_Init a_Key a_Key |>
    <| m_IsEncrypted := true |>)).

(** What is done with the two cipher texts. *)
Definition check_keys (EncKey EncNonce : list Z) : Action := fun c =>
  match RsaPrivateKey_Decrypt EncNonce MAX_ENC_LEN with
  | None => Kick ERROR_CODE_HACKED_CLIENT c
  | Some DecryptedNonce =>
    if negb (List.length DecryptedNonce =? 4)%nat then Kick ERROR_CODE_HACKED_CLIENT c
    else if negb (le_val DecryptedNonce =? this c) then Kick ERROR_CODE_HACKED_CLIENT c
    else
      match RsaPrivateKey_Decrypt EncKey MAX_ENC_LEN with
      | None => Kick ERROR_CODE_HACKED_CLIENT c
      | Some DecryptedKey =>
        if negb (List.length DecryptedKey =? 16)%nat then Kick ERROR_CODE_HACKED_CLIENT c
        else (StartEncryption DecryptedKey;; cPacketizer 0x02 []) c
      end
  end.

Definition HandlePacketLoginEncryptionResponse : Handle :=
  HANDLE_READ ReadBEInt16 (fun EncKeyLength =>
  if MAX_ENC_LEN <? EncKeyLength then finish (Kick ERROR_CODE_INVALID_ENCKEYLENGTH) else
  HANDLE_READ (ReadString_count EncKeyLength) (fun EncKey =>
  HANDLE_READ ReadBEInt16 (fun EncNonceLength =>
  if MAX_ENC_LEN <? EncNonceLength then finish (Kick ERROR_CODE_INVALID_ENCNONCELENGTH) else
  HANDLE_READ (ReadString_count EncNonceLength) (fun EncNonce =>
  finish (check_keys EncKey EncNonce))))).

Definition HandlePacketLoginInfo : Handle :=
  HANDLE_READ ReadVarUTF8String (fun username => finish (HandleLogin username username)).

Definition HandlePacketKeepAlive (now : Z) : Handle :=
  HANDLE_READ ReadVarInt32 (fun KeepAliveID => finish (HandleKeepAlive now (to_signed 32 KeepAliveID))).

Definition HandlePacketJoinRoom : Handle :=
  HANDLE_READ ReadVarUTF8String (fun channelName => finish
    (request_id (fun id => Manager_doUserJoinChannel id channelName))).

Definition HandlePacketLeftRoom : Handle :=
  HANDLE_READ ReadVarUTF8String (fun channelName => finish
    (request_id (fun id => Manager_doUserLeftChannel id channelName))).

(** [OnMsgFromPeer] takes the target as an int. *)
Definition HandlePacketMsgRoom : Handle :=
  HANDLE_READ ReadVarUTF8String (fun channelName =>
  HANDLE_READ ReadVarInt32 (fun TargetID =>
  HANDLE_READ ReadVarUTF8String (fun msg => finish
    (request_id (fun id => Manager_OnMsgFromPeer channelName id (to_signed 32 TargetID) msg))))).

(** Whether the packet was understood, the buffer and the effect of its handler. *)
Definition understood (h : Handle) (bb : cByteBuffer) (c : cClientHandle)
    : option (bool * cByteBuffer * cClientHandle * list request) :=
  '(bb, c, out) ← h bb c; Some (true, bb, c, out).
Definition rejected (m : Action) (bb : cByteBuffer) (c : cClientHandle)
    : option (bool * cByteBuffer * cClientHandle * list request) :=
  '(c, out) ← m c; Some (false, bb, c, out).

(** A packet type that no case of the state handles falls out of the switch. *)
Definition HandlePacket (now : Z) (a_ByteBuffer : cByteBuffer) (a_PacketType : Z) (c : cClientHandle)
    : option (bool * cByteBuffer * cClientHandle * list request) :=
  match p_State (m_Protocol c) with
  | 1 =>
    match a_PacketType with
    | 0x00 => understood HandlePacketStatusRequest a_ByteBuffer c
    | 0x01 => understood HandlePacketStatusPing a_ByteBuffer c
    | _ => rejected (PacketUnknown a_PacketType) a_ByteBuffer c
    end
  | 2 =>
    match a_PacketType with
    | 0x00 => understood HandlePacketLoginStart a_ByteBuffer c
    | 0x01 => understood HandlePacketLoginEncryptionResponse a_ByteBuffer c
    | 0x02 => understood HandlePacketLoginInfo a_ByteBuffer c
    | _ => rejected (PacketUnknown a_PacketType) a_ByteBuffer c
    end
  | 3 =>
    match a_PacketType with
    | 0x00 => understood (HandlePacketKeepAlive now) a_ByteBuffer c
    | 0x01 => understood HandlePacketJoinRoom a_ByteBuffer c
    | 0x02 => understood HandlePacketMsgRoom a_ByteBuffer c
    | 0x09 => understood HandlePacketLeftRoom a_ByteBuffer c
    | _ => rejected (PacketUnknown a_PacketType) a_ByteBuffer c
    end
  | 255 => rejected skip a_ByteBuffer c
  | _ => rejected (modify (on_protocol (fun p => p <| p_State := 255 |>))) a_ByteBuffer c
  end.

(** ** Receiving *)

(** The loop of Framing.v on [m_ReceivedData], which the handlers do not touch. *)
Definition protocol_AddReceivedData (now : Z) (a_Data : list Z) : Action := fun c =>
  '(rcv, c, out) ← AddReceivedData fresh (HandlePacket now) PacketError (fun _ => false) PacketBufferFull a_Data
                     (m_ReceivedData (m_Protocol c)) c;
  Some (on_protocol (fun p => p <| m_ReceivedData := rcv |>) c, out).

(** A chunk is decrypted and added. *)
Definition receive_chunk (now : Z) (a_Data : list Z) : Action := fun c =>
  '(Decrypted, d) ← Decryptor_ProcessData a_Data (m_Decryptor (m_Protocol c));
  (modify (on_protocol (fun p => p <| m_Decryptor := d |>));; protocol_AddReceivedData now Decrypted) c.

Definition DataReceived (now : Z) (a_Data : list Z) : Action := fun c =>
  if m_IsEncrypted (m_Protocol c) then in_chunks 512 (receive_chunk now) a_Data c
  else protocol_AddReceivedData now a_Data c.

(** ** The handle *)

Definition cProtocol_impl_ctor (mem : cAesCfb128) : cProtocol_impl := {|
  m_OutPacketBuffer := new_buffer fresh (64 * 1024);
  m_OutPacketLenBuffer := new_buffer fresh 20;
  p_State := 1;
  m_ReceivedData := new_buffer fresh (64 * 1024);
  m_IsEncrypted := false;
  m_Decryptor := cAesCfb128_ctor mem;
  m_Encryptor := cAesCfb128_ctor mem
|}.

(** [s_ClientCount] has been incremented to [id]. *)
Definition cClientHandle_ctor (a_IPString : AString) (now id address : Z) (mem : cAesCfb128) : cClientHandle := {|
  m_IPString := a_IPString;
  m_Username := [];
  m_Protocol := cProtocol_impl_ctor mem;
  m_IncomingData := [];
  m_OutgoingData := [];
  m_HasSentDC := false;
  m_TicksSinceLastPacket := 0;
  m_Ping := 1000;
  m_PingID := 1;
  m_PingStartTime := now;
  m_State := csConnected;
  m_UniqueID := id;
  m_UUID := [];
  m_Link := false;
  this := address
|}.

Definition OnLinkCreated : Action := modify (fun c => c <| m_Link := true |>).

Definition OnReceivedData (a_Data : list Z) : Action :=
  modify (fun c => c <| m_TicksSinceLastPacket := 0 |> <| m_IncomingData ::= fun l => l ++ a_Data |>).

Definition Destroy : Action := modify (fun c =>
  let c := c <| m_Link := false |> in
  if eState_num csDestroying <=? eState_num (m_State c) then c
  else c <| m_State := csDestroying |> <| m_State := csDestroyed |>).

Definition SocketClosed : Action := Destroy.
Definition OnRemoteClosed : Action := modify (fun c => c <| m_Link := false |>);; SocketClosed.
Definition OnError : Action := modify (fun c => c <| m_Link := false |>);; SocketClosed.

Definition IsDestroyed (c : cClientHandle) : bool := bool_decide (m_State c = csDestroyed).

Definition Authenticate (now : Z) (a_Name a_PassWord : AString) : Action := fun c =>
  if bool_decide (m_State c <> csAuthenticating) then skip c
  else
    (modify (fun c => c <| m_Username := a_Name |> <| m_UUID ::= fun u => if u is [] then a_PassWord else u |>);;
     SendLoginSuccess;;
     modify (fun c => c <| m_State := csAuthenticated |> <| m_PingStartTime := now + 3 * 1000000000 |>)) c.

(** The ping of a working client. *)
Definition send_ping (now : Z) : Action := fun c =>
  if bool_decide (m_State c = csWorking) && (m_PingStartTime c + PING_TIME_MS <=? now) then
    let c := c <| m_PingID ::= Z.succ |> <| m_PingStartTime := now |> in
    SendKeepAlive (m_PingID c) c
  else skip c.

Definition receive_queued (now : Z) : Action := fun c =>
  let IncomingData := m_IncomingData c in
  let c := c <| m_IncomingData := [] |> in
  if (List.length IncomingData =? 0)%nat then skip c else DataReceived now IncomingData c.

Definition send_queued : Action := fun c =>
  let OutgoingData := m_OutgoingData c in
  let c := c <| m_OutgoingData := [] |> in
  if m_Link c && negb (List.length OutgoingData =? 0)%nat then tell (Link_Send OutgoingData) c else skip c.

Definition count_tick : Action := fun c =>
  let c := c <| m_TicksSinceLastPacket ::= Z.succ |> in
  if 600 <? m_TicksSinceLastPacket c then SendDisconnect ERROR_CODE_CLIENT_TIMEOUT c else skip c.

Definition ServerTick (now : Z) : Action :=
  receive_queued now;;
  send_queued;;
  modify (fun c => if bool_decide (m_State c = csAuthenticated) then c <| m_State := csWorking |> else c);;
  send_ping now;;
  count_tick.

(** The destructors of the handle and of its protocol. *)
Definition cClientHandle_dtor : Action :=
  (on_state (fun c => if m_HasSentDC c then skip else SendDisconnect ERROR_CODE_SERVER_SHUTDOWN));;
  request_id Manager_doUserOffline.

(** ** Sending, without the buffers and the chunks *)

(** What leaves the protocol for [data], and the encryptor after it. *)
Definition encoded (data : list Z) (p : cProtocol_impl) : option (list Z * cAesCfb128) :=
  if m_IsEncrypted p then Encryptor_ProcessData data (m_Encryptor p) else Some (data, m_Encryptor p).

(** The handle after the bytes [es] have been queued for the client. *)
Definition queued (es : list Z) (e : cAesCfb128) (c : cClientHandle) : cClientHandle :=
  let c := on_protocol (fun p => p <| m_Encryptor := e |>) c in
  if m_HasSentDC c then c else c <| m_OutgoingData ::= fun l => l ++ es |>.

Lemma queued_nil c : queued [] (m_Encryptor (m_Protocol c)) c = c.
Proof.
  unfold queued, on_protocol. destruct c as [? ? [] ? out dc]. destruct dc; [reflexivity|].
  cbv -[app]. rewrite app_nil_r. reflexivity.
Qed.

Lemma queued_queued a b e e' c : queued b e' (queued a e c) = queued (a ++ b) e' c.
Proof.
  unfold queued, on_protocol. destruct c as [? ? [] ? out dc]. destruct dc; [reflexivity|].
  cbv -[app]. rewrite app_assoc. reflexivity.
Qed.

Lemma queued_encryptor es e c : m_Encryptor (m_Protocol (queued es e c)) = e.
Proof. unfold queued. destruct c as [? ? [] ? out dc]. destruct dc; reflexivity. Qed.

Lemma send_pieces_spec pieces : forall c,
  process_all send_chunk pieces c
  = ('(es, e) ← Encryptor_ProcessData (concat pieces) (m_Encryptor (m_Protocol c)); Some (queued es e c, [])).
Proof.
  induction pieces as [|x pieces IH]; intros c; cbn [process_all concat].
  { cbn. rewrite queued_nil. reflexivity. }
  rewrite Encryptor_app. unfold andThen at 1, send_chunk.
  destruct (Encryptor_ProcessData x _) as [[es e]|]; [|reflexivity]. cbn [option_bind mbind].
  unfold andThen, modify, cClientHandle_SendData, modify. cbn [option_bind mbind app].
  match goal with |- context [process_all _ _ ?x] => change x with (queued es e c) end.
  rewrite IH, queued_encryptor.
  destruct (Encryptor_ProcessData (concat pieces) e) as [[es2 e2]|]; [|reflexivity]. cbn [option_bind mbind].
  rewrite queued_queued. reflexivity.
Qed.

Lemma SendData_spec a_Data c :
  SendData a_Data c = ('(es, e) ← encoded a_Data (m_Protocol c); Some (queued es e c, [])).
Proof.
  unfold SendData, encoded. destruct (m_IsEncrypted (m_Protocol c)) eqn:E.
  - destruct (in_chunks_pieces (8 * 1024) send_chunk a_Data ltac:(lia)) as (pieces & <- & _ & ->). apply send_pieces_spec.
  - cbn [option_bind mbind]. unfold cClientHandle_SendData, modify, queued, on_protocol.
    destruct c as [? ? [] ? out dc]. reflexivity.
Qed.

(** ** The invariant of a handle *)

Record handle_ok (c : cClientHandle) : Prop := {
  ok_out : represents (m_OutPacketBuffer (m_Protocol c)) (q_empty (64 * 1024));
  ok_len : represents (m_OutPacketLenBuffer (m_Protocol c)) (q_empty 20);
  ok_rcv : exists l, represents (m_ReceivedData (m_Protocol c))
                       {| consumed := []; pending := l; capacity := 64 * 1024 |};
  ok_incoming : bytes_ok (m_IncomingData c);
  ok_ip : bytes_ok (m_IPString c) /\ (List.length (m_IPString c) <= 1000)%nat
}.

(** The handle with other packet buffers. *)
Definition rebuffered (len_buf out : cByteBuffer) (c : cClientHandle) : cClientHandle :=
  on_protocol (fun p => p <| m_OutPacketLenBuffer := len_buf |> <| m_OutPacketBuffer := out |>) c.

(** [data] has been queued: the packet buffers are empty again, the rest follows. *)
Definition sent (data : list Z) (c c' : cClientHandle) : Prop :=
  exists len_buf out es e,
    encoded data (m_Protocol c) = Some (es, e)
    /\ c' = queued es e (rebuffered len_buf out c)
    /\ represents out (q_empty (64 * 1024)) /\ represents len_buf (q_empty 20).

Lemma sent_ok data c c' : handle_ok c -> sent data c c' -> handle_ok c'.
Proof.
  intros [Ho Hl Hr Hi Hip] (len_buf & out & es & e & _ & -> & Ro & Rl).
  destruct c as [? ? [] ? ? dc]. destruct dc; split; assumption.
Qed.

Context `{!BlockCipher}.

Lemma encoded_total data p : bytes_ok data -> exists es e, encoded data p = Some (es, e) /\ bytes_ok es.
Proof.
  intros Hok. unfold encoded. destruct (m_IsEncrypted p); [|eauto].
  destruct (cipher_inverse data (m_Encryptor p) Hok) as (es & e & E & _ & _ & Hes). eauto.
Qed.

Lemma cPacketizer_spec t fs c :
  handle_ok c -> in_width 32 t -> Forall field_ok fs -> (List.length (payload t fs) <= 64 * 1024)%nat ->
  exists c', cPacketizer t fs c = Some (c', []) /\ sent (frame (payload t fs)) c c'.
Proof.
  intros Hc Ht Hfs Hlen. unfold cPacketizer.
  destruct (packet_written t fs _ _ Ht Hfs (ok_out c Hc) Hlen) as (out1 & E1 & R1).
  destruct (cPacketizer_ctor t _) as [b|]; [|discriminate]. cbn [option_bind mbind] in *. rewrite E1. cbn [option_bind mbind].
  destruct (packet_taken _ _ _ _ (ok_len c Hc) R1) as (len2 & out2 & E2 & Rl & Ro).
  { apply (Z.le_lt_trans _ (64 * 1024)); lia. }
  unfold andThen, modify, SendPacket. cbn [option_bind mbind app].
  change (SendPacket_data (m_OutPacketLenBuffer (m_Protocol (on_protocol _ c))) _)
    with (SendPacket_data (m_OutPacketLenBuffer (m_Protocol c)) out1).
  rewrite E2. cbn [option_bind mbind app].
  unfold andThen, modify. cbn [option_bind mbind app].
  match goal with |- context [SendData _ ?x] => change x with (rebuffered len2 out2 c) end.
  rewrite SendData_spec. change (encoded (frame (payload t fs)) (m_Protocol (rebuffered len2 out2 c)))
    with (encoded (frame (payload t fs)) (m_Protocol c)).
  destruct (encoded_total (frame (payload t fs)) (m_Protocol c)) as (es & e & E & _).
  { apply frame_bytes. split; [apply payload_ok; assumption | lia]. }
  rewrite E. cbn [option_bind mbind app].
  eexists. split; [reflexivity|]. exists len2, out2, es, e. auto.
Qed.

(** A packet that fits is sent, one that does not ends the process. *)
Lemma cPacketizer_None t fs c :
  handle_ok c -> in_width 32 t -> Forall field_ok fs -> (64 * 1024 < List.length (payload t fs))%nat ->
  cPacketizer t fs c = None.
Proof.
  intros Hc Ht Hfs Hlen. unfold cPacketizer.
  pose proof (packet_too_long t fs _ _ Ht Hfs (ok_out c Hc) ltac:(lia) Hlen) as E.
  destruct (cPacketizer_ctor t _) as [b|]; [|reflexivity]. cbn [option_bind mbind] in *. rewrite E. reflexivity.
Qed.

Lemma cPacketizer_inv t fs c c' out :
  handle_ok c -> in_width 32 t -> Forall field_ok fs -> cPacketizer t fs c = Some (c', out) ->
  out = [] /\ sent (frame (payload t fs)) c c'.
Proof.
  intros Hc Ht Hfs E. destruct (decide (List.length (payload t fs) <= 64 * 1024)%nat) as [Hle|Hgt].
  - destruct (cPacketizer_spec t fs c Hc Ht Hfs Hle) as (c1 & E1 & Hs). rewrite E1 in E. injection E as <- <-. auto.
  - rewrite cPacketizer_None in E by (assumption || lia). discriminate.
Qed.

End ClientHandle.
