(* ===== verification/HandleFacts.v ===== *)
(** * HandleFacts: what a client handle does whatever its client sends

    Every handler keeps the invariant of the handle and succeeds, unless the client sends
    more than four bytes in a row with their top bit set, which may be an overlong
    variable-length integer; this is the release build, where ASSERT does nothing.  Once a
    disconnect packet has been queued nothing else is.  A client that sends nothing is sent
    the timeout that tick 601 queues, and is never removed. *)

From Stdlib Require Import Ascii String.
From S2P Require Import Prelude Bytes StringUtils ByteBuffer Cipher Framing Packetizer ClientHandle.
#[local] Open Scope act_scope.

(** ** Reading a field *)

(** A reader that takes bytes out of the buffer and yields values with [P], and whose only
    undefined behaviour is an overlong integer. *)
Definition reads {A} (Proc : BB A) (P : A -> Prop) : Prop := forall bb q, represents bb q ->
  match Proc bb with
  | Some (Some x, bb') => P x /\ exists n, represents bb' (q_pop n q)
  | Some (None, bb') => exists n, represents bb' (q_pop n q)
  | None => ~ short_runs (pending q)
  end.

Lemma q_pop_more q n b : (exists k, represents b (q_pop k (q_pop n q))) -> exists k, represents b (q_pop k q).
Proof. intros [k R]. rewrite q_pop_pop in R. eauto. Qed.

Lemma reads_weaken {A} (Proc : BB A) (P Q : A -> Prop) : reads Proc P -> (forall x, P x -> Q x) -> reads Proc Q.
Proof.
  intros H HPQ bb q R. specialize (H bb q R). destruct (Proc bb) as [[[x|] bb']|]; [|exact H..].
  destruct H as [Hx Hn]. auto.
Qed.

Lemma reads_bind {A B} (m : BB A) (f : A -> BB B) P Q :
  reads m P -> (forall x, P x -> reads (f x) Q) -> reads (bind m f) Q.
Proof.
  intros Hm Hf bb q R. unfold bind. specialize (Hm bb q R). destruct (m bb) as [[[x|] bb1]|]; [|exact Hm..].
  destruct Hm as [Hx [n R1]]. specialize (Hf x Hx bb1 _ R1). destruct (f x bb1) as [[[y|] bb2]|].
  - destruct Hf as [Hy Hn]. split; [exact Hy | eapply q_pop_more, Hn].
  - eapply q_pop_more, Hf.
  - intros Hs. apply Hf. cbn [q_pop pending]. apply short_drop, Hs.
Qed.

Lemma reads_ret {A} (x : A) (P : A -> Prop) : P x -> reads (ret x) P.
Proof. intros Hx bb q R. split; [exact Hx|]. exists 0%nat. rewrite q_pop_0. exact R. Qed.

Lemma reads_simulated {A} n (Proc : BB A) (f : list Z -> A) (P : A -> Prop) :
  simulates Proc (sbind (q_read n) (fun l => sret (f l))) ->
  (forall l, bytes_ok l -> List.length l = n -> P (f l)) -> reads Proc P.
Proof.
  intros Hs HP bb q R. specialize (Hs bb q R). unfold sbind, sret, q_read in Hs.
  destruct (Nat.leb_spec n (List.length (pending q))) as [Hn|Hn].
  - destruct Hs as (bb' & -> & R'). split; [|eauto].
    apply HP; [apply Forall_take, R | rewrite length_take; lia].
  - destruct Hs as (bb' & -> & R'). exists 0%nat. rewrite q_pop_0. exact R'.
Qed.

Lemma reads_ReadString n : reads (ReadString n) (fun s => bytes_ok s /\ List.length s = n).
Proof.
  apply (reads_simulated n _ (fun l => l)); [|auto].
  eapply sim_ext; [apply sim_ReadString|]. intros q. unfold sbind, sret.
  destruct (q_read n q) as [[[?|] ?]|]; reflexivity.
Qed.

Lemma reads_varint w max (Proc : BB Z) :
  simulates Proc (q_varint w max) -> 0 <= w -> (5 <= max)%nat -> reads Proc (in_width w).
Proof.
  intros Hs Hw Hmax bb q R. specialize (Hs bb q R). unfold q_varint in Hs.
  destruct (_ && _) eqn:E.
  - apply andb_true_iff in E as [_ E%Nat.leb_le]. rewrite Hs. intros Hsh. apply short_head in Hsh. lia.
  - destruct (Nat.ltb_spec (continuations (pending q)) (List.length (pending q))).
    + destruct Hs as (bb' & -> & R'). split; [apply wrap_bound; lia | eauto].
    + destruct Hs as (bb' & -> & R'). eauto.
Qed.

Lemma reads_ReadVarInt32 : reads ReadVarInt32 (in_width 32).
Proof. apply (reads_varint 32 5); [apply sim_ReadVarInt32 | lia | lia]. Qed.

Lemma reads_ReadVarInt64 : reads ReadVarInt64 (in_width 64).
Proof. apply (reads_varint 64 10); [apply sim_ReadVarInt64 | lia | lia]. Qed.

Lemma reads_ReadVarInt : reads ReadVarInt (in_width 32).
Proof.
  apply (reads_bind _ _ (in_width 64)); [apply reads_ReadVarInt64|]. intros x _. apply reads_ret, wrap_bound. lia.
Qed.

Lemma reads_ReadVarUTF8String : reads ReadVarUTF8String bytes_ok.
Proof.
  apply (reads_bind _ _ (in_width 32)); [apply reads_ReadVarInt|]. intros x _.
  eapply reads_weaken; [apply reads_ReadString|]. intros s [Hs _]. exact Hs.
Qed.

Lemma reads_num n : reads (read_num n) (num_range n).
Proof.
  apply (reads_simulated (num_size n) _ (num_decode n)); [apply sim_read_num|].
  intros l Hok Hl. unfold num_decode, num_range.
  set (x := match n with LEInt => le_val l | _ => be_val l end).
  assert (Hx : 0 <= x < 2 ^ (8 * Z.of_nat (num_size n))).
  { rewrite <- Hl, Z.mul_comm, (Z.mul_comm _ 8), Z.pow_mul_r by lia. change (2 ^ 8) with 256.
    unfold x, be_val. destruct n; try (rewrite <- (length_rev l); apply le_val_bound, bytes_ok_rev, Hok).
    apply le_val_bound, Hok. }
  destruct (num_signed n); [|exact Hx]. apply to_signed_range. destruct n; simpl; lia.
Qed.

Lemma reads_ReadString_count n : reads (ReadString_count n) (fun s => bytes_ok s /\ Z.of_nat (List.length s) = n).
Proof.
  unfold ReadString_count. destruct (Z.ltb_spec n 0).
  - intros bb q R. exists 0%nat. rewrite q_pop_0. exact R.
  - eapply reads_weaken; [apply reads_ReadString|]. intros s [Hs Hl]. split; [exact Hs | lia].
Qed.

(** ** Actions *)

Definition no_link (r : request) : Prop := match r with Link_Send _ => False | _ => True end.

(** What a handler may do to the handle. *)
Record calm (c c' : cClientHandle) (out : list request) : Prop := {
  calm_dc : m_HasSentDC c = true -> m_HasSentDC c' = true /\ m_OutgoingData c' = m_OutgoingData c;
  calm_id : m_UniqueID c' = m_UniqueID c;
  calm_link : m_Link c' = m_Link c;
  calm_incoming : m_IncomingData c' = m_IncomingData c;
  calm_ticks : m_TicksSinceLastPacket c' = m_TicksSinceLastPacket c;
  calm_ping : m_PingStartTime c <= m_PingStartTime c';
  calm_user : m_Username c' = m_Username c;
  calm_out : Forall no_link out
}.

#[local] Hint Resolve Z.le_refl : core.

Lemma calm_refl c : calm c c [].
Proof. split; auto. Qed.

Lemma calm_trans c1 c2 c3 o1 o2 : calm c1 c2 o1 -> calm c2 c3 o2 -> calm c1 c3 (o1 ++ o2).
Proof.
  intros [D1 I1 L1 N1 T1 P1 U1 O1] [D2 I2 L2 N2 T2 P2 U2 O2]. split; [|congruence..|lia|congruence|apply Forall_app; auto].
  intros H. destruct (D1 H) as [H1 E1]. destruct (D2 H1) as [H2 E2]. split; congruence.
Qed.

Section Facts.
Context `{PolarSSL, ServerKeys, !BlockCipher}.
Context (fresh : nat -> list Z) (fresh_length : forall n, List.length (fresh n) = n).

(** The DER key is written to a buffer of 3000 bytes. *)
Class KeysOk : Prop := {
  server_id_ok : bytes_ok GetServerID /\ (List.length GetServerID <= 1000)%nat;
  public_key_ok : bytes_ok GetPublicKeyDER /\ (List.length GetPublicKeyDER <= 3000)%nat
}.
Context `{!KeysOk}.

#[local] Notation Action := (Act cClientHandle request).
#[local] Notation Handle := (Handler cClientHandle request).

(** The action succeeds and keeps the invariant. *)
Definition fine (c : cClientHandle) (r : option (cClientHandle * list request)) : Prop :=
  match r with Some (c', out) => handle_ok c' /\ calm c c' out | None => False end.
Definition well (m : Action) : Prop := forall c, handle_ok c -> fine c (m c).

Lemma well_Some m c : well m -> handle_ok c -> exists c' out, m c = Some (c', out) /\ handle_ok c' /\ calm c c' out.
Proof. intros Hm Hc. specialize (Hm c Hc). destruct (m c) as [[c' out]|]; [exists c', out; auto | contradiction]. Qed.

Lemma well_skip : well skip.
Proof. intros c Hc. split; [exact Hc | apply calm_refl]. Qed.

Lemma well_tell r : no_link r -> well (tell r).
Proof. intros Hr c Hc. split; [exact Hc|]. split; auto. Qed.

Lemma well_modify f : (forall c, handle_ok c -> handle_ok (f c) /\ calm c (f c) []) -> well (modify f).
Proof. intros Hf c Hc. exact (Hf c Hc). Qed.

Lemma well_on_state k : (forall c, well (k c)) -> well (on_state k).
Proof. intros Hk c Hc. apply Hk, Hc. Qed.

Lemma well_andThen m k : well m -> well k -> well (m ;; k).
Proof.
  intros Hm Hk c Hc. unfold andThen. specialize (Hm c Hc). destruct (m c) as [[c1 o1]|]; [|exact Hm].
  destruct Hm as [Hc1 R1]. cbn [option_bind mbind]. specialize (Hk c1 Hc1).
  destruct (k c1) as [[c2 o2]|]; [|exact Hk]. destruct Hk as [Hc2 R2]. split; [exact Hc2 | eapply calm_trans; eassumption].
Qed.

Lemma sent_calm data c c' : sent data c c' -> calm c c' [].
Proof.
  intros (len_buf & out & es & e & _ & -> & _ & _). unfold queued.
  destruct c as [? ? [] ? ? dc]. destruct dc; split; auto; try discriminate; cbn; lia.
Qed.

Lemma well_packet t fs :
  in_width 32 t -> Forall field_ok fs -> (List.length (payload t fs) <= 64 * 1024)%nat -> well (cPacketizer t fs).
Proof.
  intros Ht Hfs Hlen c Hc. destruct (cPacketizer_spec t fs c Hc Ht Hfs Hlen) as (c' & -> & Hs).
  split; [eapply sent_ok; eassumption | eapply sent_calm; eassumption].
Qed.

Lemma well_small_packet t fs :
  in_width 32 t -> Forall field_ok fs -> (5 + foldr Nat.add 0 (map field_size fs) <= 64 * 1024)%nat ->
  well (cPacketizer t fs).
Proof. intros Ht Hfs Hl. apply well_packet; [assumption..|]. etransitivity; [apply payload_length; assumption | exact Hl]. Qed.

Lemma well_SendDisconnect r : num_range Int32 r -> well (SendDisconnect r).
Proof.
  intros Hr c Hc. unfold SendDisconnect. destruct (m_HasSentDC c) eqn:E; [apply well_skip, Hc|].
  assert (Hp : well (protocol_SendDisconnect r)).
  { intros c0 Hc0. unfold protocol_SendDisconnect.
    destruct (p_State (m_Protocol c0)) as [|[[]|[]|]|]; try (apply well_skip; exact Hc0);
      (apply well_small_packet; [split; lia | | cbn [foldr map field_size]; lia | exact Hc0]);
      apply Forall_singleton; [apply (wrap_bound 32); lia | exact Hr]. }
  apply well_andThen; [exact Hp| |exact Hc]. apply well_modify. clear. intros c [H1 H2 H3 H4 H5].
  split; [split; assumption|]. split; auto.
Qed.

(** ** Handlers *)

Definition fine_handler (q : queue) (c : cClientHandle) (r : option (cByteBuffer * cClientHandle * list request)) : Prop :=
  match r with
  | Some (bb', c', out) => (exists n, represents bb' (q_pop n q)) /\ handle_ok c' /\ calm c c' out
  | None => ~ short_runs (pending q)
  end.
Definition well_handler (h : Handle) : Prop := forall bb q c, represents bb q -> handle_ok c -> fine_handler q c (h bb c).

Lemma well_finish m : well m -> well_handler (finish m).
Proof.
  intros Hm bb q c R Hc. unfold finish. specialize (Hm c Hc). destruct (m c) as [[c' out]|]; [|contradiction].
  destruct Hm as [Hc' Hcalm]. split_and!; [|assumption..]. exists 0%nat. rewrite q_pop_0. exact R.
Qed.

Lemma well_HANDLE_READ {A} (Proc : BB A) (P : A -> Prop) k :
  reads Proc P -> (forall x, P x -> well_handler (k x)) -> well_handler (HANDLE_READ Proc k).
Proof.
  intros Hr Hk bb q c R Hc. unfold HANDLE_READ. specialize (Hr bb q R).
  destruct (Proc bb) as [[[x|] bb1]|]; cbn [option_bind mbind]; [|..|exact Hr].
  - destruct Hr as [Hx [n R1]]. specialize (Hk x Hx bb1 _ c R1 Hc). unfold fine_handler in *.
    destruct (k x bb1 c) as [[[bb2 c2] o2]|].
    + destruct Hk as (Hn & Hc2 & Hcalm). split_and!; [eapply q_pop_more, Hn | assumption..].
    + intros Hs. apply Hk. apply short_drop, Hs.
  - split_and!; [exact Hr | exact Hc | apply calm_refl].
Qed.

Lemma well_request r : (forall id, no_link (r id)) -> well (request_id r).
Proof. intros Hr. apply well_on_state. intros c. apply well_tell, Hr. Qed.

(** A change of the protocol that leaves its buffers alone. *)
Lemma well_on_protocol f :
  (forall p, m_OutPacketBuffer (f p) = m_OutPacketBuffer p) ->
  (forall p, m_OutPacketLenBuffer (f p) = m_OutPacketLenBuffer p) ->
  (forall p, m_ReceivedData (f p) = m_ReceivedData p) -> well (modify (on_protocol f)).
Proof.
  intros E1 E2 E3. apply well_modify. intros c [Ho Hl Hr Hi Hip]. split; [|split; auto].
  split; try assumption; unfold on_protocol;
    change (m_Protocol (c <| m_Protocol ::= f |>)) with (f (m_Protocol c)); rewrite ?E1, ?E2, ?E3; assumption.
Qed.

Lemma well_Kick r : num_range Int32 r -> well (Kick r).
Proof. apply well_SendDisconnect. Qed.

Ltac well_kick := apply well_Kick; split; [discriminate | reflexivity].

Lemma well_StatusRequest : well_handler HandlePacketStatusRequest.
Proof.
  unfold HandlePacketStatusRequest.
  apply (well_HANDLE_READ _ _ _ reads_ReadVarUTF8String). intros appName _.
  apply (well_HANDLE_READ _ _ _ reads_ReadVarUTF8String). intros server _.
  apply (well_HANDLE_READ _ _ _ (reads_num Int32)). intros port _.
  apply (well_HANDLE_READ _ _ _ (reads_num Int32)). intros state Hstate. apply well_finish.
  destruct (negb _ || _ || _) eqn:E; [well_kick|].
  intros c Hc.
  assert (Hp : forall c, handle_ok c -> num_range Int32 (p_State (m_Protocol c)) ->
    fine c (on_state (fun c => cPacketizer 0x00
         [FValue (VNum Int32 (p_State (m_Protocol c))); FValue (VBool true); FValue (VBool true);
          FValue (VString (m_IPString c))]) c)).
  { clear c Hc. intros c Hc Hs. unfold on_state. destruct (ok_ip c Hc) as [Hip Hlen].
    apply well_small_packet; [split; lia | | cbn [foldr map field_size]; lia | exact Hc].
    repeat (constructor; [first [exact Hs | exact I | split; [exact Hip | lia]]|]). constructor. }
  assert (Hf : well (modify (on_protocol (fun p => p <| p_State := state |>)))) by (apply well_on_protocol; reflexivity).
  destruct (Hf c Hc) as [Hc1 Hcalm1]. unfold andThen. unfold modify at 1. cbn [option_bind mbind].
  specialize (Hp _ Hc1 Hstate). unfold fine in *.
  destruct (on_state _ _) as [[c2 o2]|]; [|exact Hp]. cbn [option_bind mbind].
  destruct Hp as [Hc2 Hcalm2]. split; [exact Hc2 | eapply calm_trans; eassumption].
Qed.

Lemma well_StatusPing : well_handler HandlePacketStatusPing.
Proof.
  apply (well_HANDLE_READ _ _ _ (reads_num Int64)). intros t Ht. apply well_finish.
  apply well_small_packet; [split; lia | apply Forall_singleton; exact Ht | cbn [foldr map field_size]; lia].
Qed.

Lemma well_LoginStart : well_handler HandlePacketLoginStart.
Proof.
  apply well_finish, well_on_state. intros c. destruct server_id_ok as [Hs Hsl]. destruct public_key_ok as [Hk Hkl].
  apply well_small_packet; [split; lia | | cbn [foldr map field_size]; lia].
  repeat (constructor; [first [exact Hk | split; [exact Hs | lia] | apply (to_signed_range 16); lia
    | apply (to_signed_range 32); lia | split; [discriminate | reflexivity]]|]). constructor.
Qed.

Lemma well_check_keys EncKey EncNonce : well (check_keys EncKey EncNonce).
Proof.
  intros c Hc. unfold check_keys.
  destruct (RsaPrivateKey_Decrypt EncNonce MAX_ENC_LEN) as [nonce|]; [|revert c Hc; well_kick].
  destruct (negb _); [revert c Hc; well_kick|]. destruct (negb _); [revert c Hc; well_kick|].
  destruct (RsaPrivateKey_Decrypt EncKey MAX_ENC_LEN) as [key|]; [|revert c Hc; well_kick].
  destruct (negb _); [revert c Hc; well_kick|]. revert c Hc. apply well_andThen.
  - apply well_on_protocol; reflexivity.
  - apply well_small_packet; [split; lia | constructor | cbn [foldr map field_size]; lia].
Qed.

Lemma well_EncryptionResponse : well_handler HandlePacketLoginEncryptionResponse.
Proof.
  apply (well_HANDLE_READ _ _ _ (reads_num Int16)). intros kl _. destruct (_ <? _); [apply well_finish; well_kick|].
  apply (well_HANDLE_READ _ _ _ (reads_ReadString_count kl)). intros key _.
  apply (well_HANDLE_READ _ _ _ (reads_num Int16)). intros nl _. destruct (_ <? _); [apply well_finish; well_kick|].
  apply (well_HANDLE_READ _ _ _ (reads_ReadString_count nl)). intros nonce _. apply well_finish, well_check_keys.
Qed.

(** A change of the members that the invariant is not about. *)
Ltac well_member :=
  apply well_modify; let c := fresh "c" in intros c [? ? ? ? ?]; split; [split; assumption | split; auto].

Lemma well_LoginInfo : well_handler HandlePacketLoginInfo.
Proof.
  apply (well_HANDLE_READ _ _ _ reads_ReadVarUTF8String). intros u _. apply well_finish, well_andThen.
  - well_member.
  - apply well_request. exact (fun _ => I).
Qed.

Lemma well_KeepAlive now : well_handler (HandlePacketKeepAlive now).
Proof.
  apply (well_HANDLE_READ _ _ _ reads_ReadVarInt32). intros k _. apply well_finish, well_modify.
  intros c Hc. destruct (_ =? _); [|split; [exact Hc | apply calm_refl]].
  destruct Hc. split; [split; assumption | split; auto].
Qed.

Lemma well_room (r : AString -> Z -> request) :
  (forall ch id, no_link (r ch id)) ->
  well_handler (HANDLE_READ ReadVarUTF8String (fun channelName => finish (request_id (r channelName)))).
Proof.
  intros Hr. apply (well_HANDLE_READ _ _ _ reads_ReadVarUTF8String). intros ch _. apply well_finish, well_request, Hr.
Qed.

Lemma well_MsgRoom : well_handler HandlePacketMsgRoom.
Proof.
  apply (well_HANDLE_READ _ _ _ reads_ReadVarUTF8String). intros ch _.
  apply (well_HANDLE_READ _ _ _ reads_ReadVarInt32). intros target _.
  apply (well_HANDLE_READ _ _ _ reads_ReadVarUTF8String). intros msg _.
  apply well_finish, well_request. exact (fun _ => I).
Qed.

(** ** Packets and streams *)

Definition fine_packet {R} (q : queue) (c : cClientHandle) (r : option (R * cClientHandle * list request)) : Prop :=
  match r with
  | Some (_, c', out) => handle_ok c' /\ calm c c' out
  | None => ~ short_runs (pending q)
  end.

Lemma fine_understood h bb q c : well_handler h -> represents bb q -> handle_ok c -> fine_packet q c (understood h bb c).
Proof.
  intros Hh R Hc. unfold understood. specialize (Hh bb q c R Hc). destruct (h bb c) as [[[bb' c'] out]|]; [|exact Hh].
  destruct Hh as (_ & Hc' & Hcalm). split; assumption.
Qed.

Lemma fine_rejected m bb q c : well m -> handle_ok c -> fine_packet q c (rejected m bb c).
Proof.
  intros Hm Hc. unfold rejected. specialize (Hm c Hc). destruct (m c) as [[c' out]|]; [exact Hm | contradiction].
Qed.

Lemma well_protocol_state n : well (modify (on_protocol (fun p => p <| p_State := n |>))).
Proof. apply well_on_protocol; reflexivity. Qed.

Lemma well_Unknown t : well (PacketUnknown t).
Proof. unfold PacketUnknown. well_kick. Qed.

#[local] Hint Resolve well_StatusRequest well_StatusPing well_LoginStart well_EncryptionResponse well_LoginInfo
  well_KeepAlive well_MsgRoom well_Unknown well_skip well_protocol_state fine_understood fine_rejected : handle.

Lemma HandlePacket_fine now bb q t c :
  represents bb q -> handle_ok c -> fine_packet q c (HandlePacket now bb t c).
Proof.
  intros R Hc. unfold HandlePacket.
  assert (Hj : well_handler HandlePacketJoinRoom) by (apply (well_room (fun ch id => Manager_doUserJoinChannel id ch)); exact (fun _ _ => I)).
  assert (Hl : well_handler HandlePacketLeftRoom) by (apply (well_room (fun ch id => Manager_doUserLeftChannel id ch)); exact (fun _ _ => I)).
  repeat case_match; eauto with handle.
Qed.

Lemma reads_packet_type bb q :
  represents bb q ->
  match ReadVarInt bb with
  | Some (_, bb') => exists n, represents bb' (q_pop n q)
  | None => ~ short_runs (pending q)
  end.
Proof.
  intros R. pose proof (reads_ReadVarInt bb q R) as Hr. destruct (ReadVarInt bb) as [[[x|] bb']|]; [apply Hr | exact Hr..].
Qed.

Lemma deliver_fine now payload c :
  handle_ok c -> bytes_ok payload ->
  match deliver fresh (HandlePacket now) PacketError payload c with
  | Some (_, c', out) => handle_ok c' /\ calm c c' out
  | None => ~ short_runs payload
  end.
Proof.
  intros Hc Hok. destruct (deliver_buffer fresh (HandlePacket now) PacketError fresh_length payload c Hok) as (bb & R & ->).
  unfold handle_buffer. pose proof (reads_packet_type bb _ R) as Hr. cbn [pending] in Hr.
  destruct (ReadVarInt bb) as [[[t|] bb1]|]; cbn [option_bind mbind]; [..|exact Hr].
  2:{ split; [exact Hc | apply calm_refl]. }
  destruct Hr as [n R1].
  assert (Hnul : bytes_ok [0]) by (repeat constructor; lia).
  pose proof (sim_Write [0] Hnul bb1 _ R1) as Hw.
  assert (Hb : exists r bb2 q2, Write [0] bb1 = Some (r, bb2) /\ represents bb2 q2
            /\ (short_runs payload -> short_runs (pending q2))).
  { unfold q_write in Hw. destruct (_ <=? _)%nat; destruct Hw as (bb2 & -> & R2).
    - do 3 eexists. split_and!; [reflexivity | exact R2|]. cbn [q_push q_pop pending].
      intros Hs. apply short_snoc, short_drop, Hs.
    - do 3 eexists. split_and!; [reflexivity | exact R2|]. cbn [q_pop pending]. apply short_drop. }
  destruct Hb as (r & bb2 & q2 & -> & R2 & Hs2). cbn [option_bind mbind].
  pose proof (HandlePacket_fine now bb2 q2 t c R2 Hc) as Hf. unfold fine_packet in Hf.
  destruct (HandlePacket now bb2 t c) as [[[[handled bb3] c1] o1]|]; cbn [option_bind mbind]; [|tauto].
  destruct Hf as [Hc1 Hcalm1]. destruct handled; cbn [negb]; [|split; assumption].
  destruct (_ =? 1)%nat; [split; assumption|].
  assert (He : fine c1 (PacketError t c1)) by (revert c1 Hc1 Hcalm1; unfold PacketError; intros c1 Hc1 _; revert c1 Hc1; well_kick).
  unfold fine in He. destruct (PacketError t c1) as [[c2 o2]|]; [|contradiction]. cbn [option_bind mbind].
  destruct He as [Hc2 Hcalm2]. split; [exact Hc2 | eapply calm_trans; eassumption].
Qed.

Lemma with_received rcv l c :
  handle_ok c -> represents rcv {| consumed := []; pending := l; capacity := 64 * 1024 |} ->
  handle_ok (on_protocol (fun p => p <| m_ReceivedData := rcv |>) c).
Proof. intros [? ? ? ? ?] R. split; try assumption. exists l. exact R. Qed.

(** The bytes that wait for the rest of a packet. *)
Definition waiting (c : cClientHandle) (l : list Z) : Prop :=
  represents (m_ReceivedData (m_Protocol c)) {| consumed := []; pending := l; capacity := 64 * 1024 |}.

Lemma AddReceivedData_fine now a_Data c l :
  handle_ok c -> waiting c l -> bytes_ok a_Data ->
  match protocol_AddReceivedData fresh now a_Data c with
  | Some (c', out) =>
      handle_ok c' /\ calm c c' out
      /\ exists l', waiting c' l' /\ (Z.of_nat (List.length (l ++ a_Data)) <= 64 * 1024 -> exists k, l' = drop k (l ++ a_Data))
  | None => ~ short_runs (l ++ a_Data)
  end.
Proof.
  intros Hc Hl Hok. unfold protocol_AddReceivedData.
  pose proof (AddReceivedData_total fresh (HandlePacket now) PacketError (fun _ => false) fresh_length handle_ok calm calm_refl calm_trans
    (deliver_fine now) PacketBufferFull a_Data (m_ReceivedData (m_Protocol c)) l (64 * 1024) c) as Ht.
  specialize (Ht ltac:(intros Hc0; revert c Hc0 Hc Hl Ht; intros c Hc0 _ _ _; revert c Hc0; unfold PacketBufferFull; well_kick) Hl Hok Hc).
  destruct (AddReceivedData _ _ _ _ _ _ _ c) as [[[rcv c1] o1]|]; [|exact Ht]. cbn [option_bind mbind].
  destruct Ht as ((l' & R' & Hk) & Hc1 & Hcalm). split_and!.
  - eapply with_received; eassumption.
  - destruct Hcalm. split; assumption.
  - exists l'. split; [exact R'|]. intros Hle. apply Hk. lia.
Qed.

Lemma Decryptor_ok data d : bytes_ok data ->
  exists ps d', Decryptor_ProcessData data d = Some (ps, d') /\ bytes_ok ps /\ List.length ps = List.length data.
Proof.
  revert d. induction data as [|e data IH]; intros d Hok; [exists [], d; split_and!; [reflexivity | constructor | reflexivity]|].
  apply Forall_cons in Hok as [He Hok]. destruct (key_byte_ok d) as (k & Ek & Hk).
  destruct (IH (shift_IV e d) Hok) as (ps & d' & E & Hps & Hl). exists (Z.lxor e k :: ps), d'.
  cbn [Decryptor_ProcessData]. rewrite Ek. cbn [option_bind mbind]. rewrite E.
  split_and!; [reflexivity | constructor; [apply lxor_byte; assumption | exact Hps] | simpl; congruence].
Qed.

Lemma well_decryptor d : well (modify (on_protocol (fun p => p <| m_Decryptor := d |>))).
Proof. apply well_on_protocol; reflexivity. Qed.

Lemma AddReceivedData_calm now a_Data c c' out :
  handle_ok c -> bytes_ok a_Data -> protocol_AddReceivedData fresh now a_Data c = Some (c', out) ->
  handle_ok c' /\ calm c c' out.
Proof.
  intros Hc Hok E. destruct (ok_rcv c Hc) as [l Hl]. pose proof (AddReceivedData_fine now a_Data c l Hc Hl Hok) as Hf.
  rewrite E in Hf. destruct Hf as (Hc' & Hcalm & _). auto.
Qed.

Lemma receive_chunk_calm now a_Data c c' out :
  handle_ok c -> bytes_ok a_Data -> receive_chunk fresh now a_Data c = Some (c', out) ->
  handle_ok c' /\ calm c c' out.
Proof.
  intros Hc Hok E. unfold receive_chunk in E.
  destruct (Decryptor_ok a_Data (m_Decryptor (m_Protocol c)) Hok) as (ps & d & Ed & Hps & _).
  rewrite Ed in E. cbn [option_bind mbind] in E. apply andThen_inv in E as (c1 & o1 & o2 & E1 & E & ->).
  pose proof (well_decryptor d c Hc) as Hd. unfold fine in Hd. rewrite E1 in Hd. destruct Hd as [Hc1 Hcalm1].
  apply AddReceivedData_calm in E as [Hc2 Hcalm2]; [|assumption..].
  split; [exact Hc2 | eapply calm_trans; eassumption].
Qed.

Lemma receive_pieces_calm now pieces : forall c c' out,
  handle_ok c -> bytes_ok (concat pieces) -> process_all (receive_chunk fresh now) pieces c = Some (c', out) ->
  handle_ok c' /\ calm c c' out.
Proof.
  induction pieces as [|x pieces IH]; intros c c' out Hc Hok E; cbn [process_all concat] in *.
  { injection E as <- <-. split; [exact Hc | apply calm_refl]. }
  apply Forall_app in Hok as [Hx Hok]. apply andThen_inv in E as (c1 & o1 & o2 & E1 & E & ->).
  apply receive_chunk_calm in E1 as [Hc1 Hcalm1]; [|assumption..]. apply IH in E as [Hc2 Hcalm2]; [|assumption..].
  split; [exact Hc2 | eapply calm_trans; eassumption].
Qed.

Lemma DataReceived_calm now a_Data c c' out :
  handle_ok c -> bytes_ok a_Data -> DataReceived fresh now a_Data c = Some (c', out) -> handle_ok c' /\ calm c c' out.
Proof.
  intros Hc Hok. unfold DataReceived. destruct (m_IsEncrypted _).
  - destruct (in_chunks_pieces 512 (receive_chunk fresh now) a_Data ltac:(lia)) as (pieces & E & _ & ->).
    rewrite <- E in Hok. apply receive_pieces_calm; assumption.
  - apply AddReceivedData_calm; assumption.
Qed.

(** ** Ticks *)

(** What goes out on the link. *)
Definition link_data (out : list request) : list Z :=
  concat (map (fun r => match r with Link_Send l => l | _ => [] end) out).

Lemma link_data_app a b : link_data (a ++ b) = link_data a ++ link_data b.
Proof. unfold link_data. rewrite map_app, concat_app. reflexivity. Qed.

Lemma link_data_calm out : Forall no_link out -> link_data out = [].
Proof. induction 1 as [|[] out Hr _ IH]; try contradiction; try reflexivity; exact IH. Qed.

Lemma well_send_ping now : well (send_ping now).
Proof.
  intros c Hc. unfold send_ping. destruct (_ && _) eqn:Eb; [|apply well_skip, Hc].
  apply andb_true_iff in Eb as [_ Eb%Z.leb_le]. unfold PING_TIME_MS in Eb.
  set (c1 := (c <| m_PingID ::= Z.succ |>) <| m_PingStartTime := now |>).
  assert (Hc1 : handle_ok c1) by (destruct Hc; split; assumption).
  assert (Hk : well (SendKeepAlive (m_PingID c1))).
  { intros c0 Hc0. unfold SendKeepAlive. destruct (negb _); [apply well_skip, Hc0|].
    apply well_small_packet; [split; lia | | cbn [foldr map field_size]; lia | exact Hc0].
    apply Forall_singleton. apply (wrap_bound 32). lia. }
  specialize (Hk c1 Hc1). unfold fine in *. destruct (SendKeepAlive _ c1) as [[c2 o2]|]; [|exact Hk].
  destruct Hk as [Hc2 Hcalm]. split; [exact Hc2|]. destruct Hcalm as [? ? ? ? ? Hp ? ?]. split; try assumption.
  change (now <= m_PingStartTime c2) in Hp. lia.
Qed.

(** The members that no tick changes, and what it sends when a disconnect packet has been queued. *)
Record ticked (c c' : cClientHandle) (out : list request) : Prop := {
  tick_ok : handle_ok c';
  tick_dc : m_HasSentDC c = true ->
    m_HasSentDC c' = true /\ m_OutgoingData c' = [] /\ (link_data out = [] \/ link_data out = m_OutgoingData c);
  tick_id : m_UniqueID c' = m_UniqueID c;
  tick_user : m_Username c' = m_Username c;
  tick_link : m_Link c' = m_Link c
}.

Lemma receive_queued_calm now c c1 o1 :
  handle_ok c -> receive_queued fresh now c = Some (c1, o1) ->
  handle_ok c1 /\ calm (c <| m_IncomingData := [] |>) c1 o1.
Proof.
  intros Hc E. unfold receive_queued in E. assert (Hc0 : handle_ok (c <| m_IncomingData := [] |>)).
  { destruct Hc. split; try assumption. constructor. }
  destruct (_ =? 0)%nat.
  - injection E as <- <-. split; [exact Hc0 | apply calm_refl].
  - exact (DataReceived_calm now _ _ _ _ Hc0 (ok_incoming c Hc) E).
Qed.

Lemma well_count_tick c : handle_ok c ->
  match count_tick c with Some (c', out) => handle_ok c' /\ calm (c <| m_TicksSinceLastPacket ::= Z.succ |>) c' out | None => False end.
Proof.
  intros Hc. unfold count_tick. assert (Hc1 : handle_ok (c <| m_TicksSinceLastPacket ::= Z.succ |>)) by (destruct Hc; split; assumption).
  destruct (_ <? _); [|exact (well_skip _ Hc1)]. revert Hc1. generalize (c <| m_TicksSinceLastPacket ::= Z.succ |>). clear c Hc.
  intros c Hc. apply (well_SendDisconnect ERROR_CODE_CLIENT_TIMEOUT); [split; [discriminate | reflexivity] | exact Hc].
Qed.

(** What a tick does after the data has been received, on any handle. *)
Lemma tick_rest now c c' out :
  handle_ok c ->
  (send_queued;; modify (fun c => if bool_decide (m_State c = csAuthenticated) then c <| m_State := csWorking |> else c);;
   send_ping now;; count_tick) c = Some (c', out) -> ticked c c' out.
Proof.
  intros Hc E. apply andThen_inv in E as (c1 & o1 & o2 & E1 & E & ->). apply andThen_inv in E as (c2 & o3 & o4 & E2 & E & ->).
  apply andThen_inv in E as (c3 & o5 & o6 & E3 & E4 & ->).
  assert (D1 : handle_ok c1 /\ m_HasSentDC c1 = m_HasSentDC c /\ m_OutgoingData c1 = [] /\ m_UniqueID c1 = m_UniqueID c
            /\ m_Username c1 = m_Username c /\ m_Link c1 = m_Link c /\ (link_data o1 = [] \/ link_data o1 = m_OutgoingData c)).
  { unfold send_queued in E1. destruct (_ && _); injection E1 as <- <-;
      (split_and!; [destruct Hc; split; assumption | reflexivity..|]); [right | left]; [|reflexivity].
    unfold link_data. simpl. apply app_nil_r. }
  destruct D1 as (Hc1 & Edc1 & Eo1 & Ei1 & Eu1 & Ek1 & Hlink).
  assert (Hw2 : well (modify (fun c => if bool_decide (m_State c = csAuthenticated) then c <| m_State := csWorking |> else c))).
  { apply well_modify. intros c0 Hc0. destruct (bool_decide _); [|split; [exact Hc0 | apply calm_refl]].
    destruct Hc0. split; [split; assumption | split; auto]. }
  specialize (Hw2 c1 Hc1). unfold fine in Hw2. rewrite E2 in Hw2. destruct Hw2 as [Hc2 R2].
  pose proof (well_send_ping now c2 Hc2) as Hw3. unfold fine in Hw3. rewrite E3 in Hw3. destruct Hw3 as [Hc3 R3].
  pose proof (well_count_tick c3 Hc3) as Hw4. rewrite E4 in Hw4. destruct Hw4 as [Hc4 R4].
  split; [exact Hc4 | | rewrite (calm_id _ _ _ R4), <- Ei1, <- (calm_id _ _ _ R2), <- (calm_id _ _ _ R3); reflexivity
    | rewrite (calm_user _ _ _ R4), <- Eu1, <- (calm_user _ _ _ R2), <- (calm_user _ _ _ R3); reflexivity
    | rewrite (calm_link _ _ _ R4), <- Ek1, <- (calm_link _ _ _ R2), <- (calm_link _ _ _ R3); reflexivity].
  intros Hdc. rewrite <- Edc1 in Hdc. destruct (calm_dc _ _ _ R2 Hdc) as [D2 E2o]. destruct (calm_dc _ _ _ R3 D2) as [D3 E3o].
  destruct (calm_dc _ _ _ R4 D3) as [D4 E4o]. rewrite !link_data_app.
  rewrite (link_data_calm o3), (link_data_calm o5), (link_data_calm o6) by (eapply calm_out; eassumption). rewrite !app_nil_r.
  split_and!; [exact D4 | | exact Hlink]. rewrite E4o. change (m_OutgoingData c3 = []). congruence.
Qed.

Lemma ServerTick_ticked now c c' out : handle_ok c -> ServerTick fresh now c = Some (c', out) -> ticked c c' out.
Proof.
  intros Hc E. unfold ServerTick in E. apply andThen_inv in E as (c1 & o1 & o2 & E1 & E & ->).
  apply receive_queued_calm in E1 as [Hc1 R1]; [|exact Hc]. apply tick_rest in E; [|exact Hc1].
  destruct E as [Hok Hdc Hid Hus Hlink]. split; [exact Hok | | rewrite Hid; apply R1 | rewrite Hus; apply R1 | rewrite Hlink; apply R1].
  intros D1. destruct (calm_dc _ _ _ R1 D1) as [D2 E2]. destruct (Hdc D2) as (D3 & E3 & Hl).
  rewrite link_data_app, (link_data_calm o1) by apply R1. rewrite E2 in Hl. auto.
Qed.

(** ** Sequences of calls *)

(** The calls other parts make on a handle: the link, the tick thread, the server. *)
Inductive handle_op :=
  | OpLinkCreated
  | OpReceivedData (a_Data : list Z)
  | OpTick (now : Z)
  | OpKick (a_Reason : Z)
  | OpAuthenticate (now : Z) (a_Name a_PassWord : AString)
  | OpJoinResult (a_Channel : AString) (a_Result : Z)
  | OpLeaveResult (a_Channel : AString) (a_Result : Z)
  | OpChannelMsg (a_FromID : Z) (a_Channel a_Msg : AString)
  | OpRemoteClosed
  | OpError.

Definition run_handle_op (o : handle_op) : Action :=
  match o with
  | OpLinkCreated => OnLinkCreated
  | OpReceivedData a_Data => OnReceivedData a_Data
  | OpTick now => ServerTick fresh now
  | OpKick a_Reason => Kick a_Reason
  | OpAuthenticate now a_Name a_PassWord => Authenticate now a_Name a_PassWord
  | OpJoinResult a_Channel a_Result => onJoinChannelResult a_Channel a_Result
  | OpLeaveResult a_Channel a_Result => onLeaveChannelResult a_Channel a_Result
  | OpChannelMsg a_FromID a_Channel a_Msg => onChannelMsg a_FromID a_Channel a_Msg
  | OpRemoteClosed => OnRemoteClosed
  | OpError => OnError
  end.

Fixpoint run_handle (ops : list handle_op) : Action :=
  match ops with [] => skip | o :: ops => run_handle_op o;; run_handle ops end.

Definition string_ok (s : AString) : Prop := bytes_ok s /\ Z.of_nat (List.length s) < 2 ^ 32.

(** The arguments have their C types. *)
Definition handle_op_ok (o : handle_op) : Prop :=
  match o with
  | OpReceivedData a_Data => bytes_ok a_Data
  | OpKick a_Reason => num_range Int32 a_Reason
  | OpJoinResult a_Channel _ | OpLeaveResult a_Channel _ => string_ok a_Channel
  | OpChannelMsg _ a_Channel a_Msg => string_ok a_Channel /\ string_ok a_Msg
  | _ => True
  end.

(** The invariant goes on, and after a disconnect packet the queue only empties. *)
Record stepped (c c' : cClientHandle) (out : list request) : Prop := {
  step_ok : handle_ok c';
  step_dc : m_HasSentDC c = true -> m_HasSentDC c' = true
    /\ (m_OutgoingData c' = m_OutgoingData c /\ link_data out = []
        \/ m_OutgoingData c' = [] /\ (link_data out = [] \/ link_data out = m_OutgoingData c));
  step_id : m_UniqueID c' = m_UniqueID c
}.

Lemma stepped_calm c c' out : handle_ok c' -> calm c c' out -> stepped c c' out.
Proof.
  intros Hc' R. split; [exact Hc' | | apply R]. intros Hdc. destruct (calm_dc _ _ _ R Hdc) as [D1 D2].
  split; [exact D1|]. left. split; [exact D2 | apply link_data_calm, R].
Qed.

Lemma stepped_trans c1 c2 c3 o1 o2 : stepped c1 c2 o1 -> stepped c2 c3 o2 -> stepped c1 c3 (o1 ++ o2).
Proof.
  intros [Ok1 D1 I1] [Ok2 D2 I2]. split; [exact Ok2 | | congruence]. intros Hdc. destruct (D1 Hdc) as [Hdc1 E1].
  destruct (D2 Hdc1) as [Hdc2 E2]. split; [exact Hdc2|]. rewrite link_data_app.
  destruct E1 as [[E1 L1]|[E1 [L1|L1]]], E2 as [[E2 L2]|[E2 [L2|L2]]]; rewrite ?E1 in *; rewrite ?L1, ?L2, ?app_nil_r; auto.
Qed.

Lemma stepped_fine c m c' out : handle_ok c -> well m -> m c = Some (c', out) -> stepped c c' out.
Proof. intros Hc Hm E. specialize (Hm c Hc). unfold fine in Hm. rewrite E in Hm. apply stepped_calm; apply Hm. Qed.

Lemma stepped_packet t fs c c' out :
  handle_ok c -> in_width 32 t -> Forall field_ok fs -> cPacketizer t fs c = Some (c', out) -> stepped c c' out.
Proof.
  intros Hc Ht Hfs E. destruct (cPacketizer_inv t fs c c' out Hc Ht Hfs E) as [-> Hs].
  apply stepped_calm; [eapply sent_ok; eassumption | eapply sent_calm; eassumption].
Qed.

Lemma well_SendLoginSuccess : well SendLoginSuccess.
Proof.
  intros c Hc. unfold SendLoginSuccess. revert Hc. set (p := [FValue (VVarInt32 (u32 (m_UniqueID c)))]). revert c p.
  enough (Hw : forall id, well (cPacketizer 3 [FValue (VVarInt32 (u32 id))];; modify (on_protocol (fun p => p <| p_State := 3 |>)))).
  { intros c p Hc. exact (Hw (m_UniqueID c) c Hc). }
  intros id. apply well_andThen; [|apply well_protocol_state].
  apply well_small_packet; [split; lia | | cbn [foldr map field_size]; lia].
  apply Forall_singleton, (wrap_bound 32). lia.
Qed.

(** It starts the clock of the pings anew, so it is not among the calm ones. *)
Lemma stepped_Authenticate now name pw c c' out :
  handle_ok c -> Authenticate now name pw c = Some (c', out) -> stepped c c' out.
Proof.
  intros Hc E. unfold Authenticate in E. destruct (bool_decide _); [exact (stepped_fine c _ c' out Hc well_skip E)|].
  apply andThen_inv in E as (c1 & o1 & o2 & E1 & E & ->). apply andThen_inv in E as (c2 & o3 & o4 & E2 & E3 & ->).
  assert (S1 : stepped c c1 o1).
  { injection E1 as <- <-. split; [destruct Hc; split; assumption | auto | reflexivity]. }
  pose proof (stepped_fine c1 _ c2 o3 (step_ok _ _ _ S1) well_SendLoginSuccess E2) as S2.
  injection E3 as <- <-. eapply stepped_trans; [exact S1|]. eapply stepped_trans; [exact S2|].
  split; [destruct S2 as [[] _ _]; split; assumption | auto | reflexivity].
Qed.

Lemma stepped_op o c c' out : handle_ok c -> handle_op_ok o -> run_handle_op o c = Some (c', out) -> stepped c c' out.
Proof.
  intros Hc Ho E.
  assert (Hr : forall r, field_ok (FValue (VVarInt32 (u32 r)))) by (intros r; apply (wrap_bound 32); lia).
  destruct o; simpl in E, Ho.
  - injection E as <- <-. split; [destruct Hc; split; assumption | auto | reflexivity].
  - injection E as <- <-. split; [|auto|reflexivity]. destruct Hc. split; try assumption. apply Forall_app. auto.
  - destruct (ServerTick_ticked _ _ _ _ Hc E) as [Hok Hdc Hid _ _]. split; [exact Hok | | exact Hid].
    intros D. destruct (Hdc D) as (D1 & D2 & D3). auto.
  - exact (stepped_fine c _ c' out Hc (well_Kick _ Ho) E).
  - exact (stepped_Authenticate _ _ _ c c' out Hc E).
  - apply (stepped_packet 1 _ c c' out Hc ltac:(split; lia)) in E; [exact E|]. repeat (constructor; [first [exact Ho | apply Hr]|]). constructor.
  - apply (stepped_packet 9 _ c c' out Hc ltac:(split; lia)) in E; [exact E|]. repeat (constructor; [first [exact Ho | apply Hr]|]). constructor.
  - apply (stepped_packet 2 _ c c' out Hc ltac:(split; lia)) in E; [exact E|].
    repeat (constructor; [first [exact (proj1 Ho) | exact (proj2 Ho) | apply Hr]|]). constructor.
  - injection E as <- <-. split; [|auto|]; simpl; destruct (_ <=? _); (reflexivity || (destruct Hc; split; assumption) || auto).
  - injection E as <- <-. split; [|auto|]; simpl; destruct (_ <=? _); (reflexivity || (destruct Hc; split; assumption) || auto).
Qed.

Lemma stepped_run ops : forall c c' out,
  handle_ok c -> Forall handle_op_ok ops -> run_handle ops c = Some (c', out) -> stepped c c' out.
Proof.
  induction ops as [|o ops IH]; intros c c' out Hc Hops E.
  - injection E as <- <-. apply stepped_calm; [exact Hc | apply calm_refl].
  - apply Forall_cons in Hops as [Ho Hops]. apply andThen_inv in E as (c1 & o1 & o2 & E1 & E2 & ->).
    pose proof (stepped_op o c c1 o1 Hc Ho E1) as R1.
    eapply stepped_trans; [exact R1|]. eapply IH; [apply R1 | exact Hops | exact E2].
Qed.

(** The packet that says why the client is disconnected; in the status state there is none. *)
Definition disconnect_bytes (state reason : Z) : list Z :=
  match state with
  | 2 => frame (payload 0 [FValue (VNum Int32 reason)])
  | 3 => frame (payload 0x40 [FValue (VNum UInt32 (u32 reason))])
  | _ => []
  end.

(** [data] has been queued behind what was queued before; nothing else has changed that a
    packet could show. *)
Record emits (data : list Z) (c c' : cClientHandle) : Prop := {
  emits_bytes : exists es, encoded data (m_Protocol c) = Some (es, m_Encryptor (m_Protocol c'))
    /\ m_OutgoingData c' = m_OutgoingData c ++ es;
  emits_encrypted : m_IsEncrypted (m_Protocol c') = m_IsEncrypted (m_Protocol c);
  emits_p_State : p_State (m_Protocol c') = p_State (m_Protocol c);
  emits_state : m_State c' = m_State c
}.

Lemma emits_nothing c c' :
  m_Protocol c' = m_Protocol c -> m_OutgoingData c' = m_OutgoingData c -> m_State c' = m_State c -> emits [] c c'.
Proof.
  intros Ep Eo Es. split; [|congruence..]. exists []. rewrite Ep, Eo, app_nil_r. split; [|reflexivity].
  unfold encoded. destruct (m_IsEncrypted _); reflexivity.
Qed.

Lemma emits_trans a b c1 c2 c3 : emits a c1 c2 -> emits b c2 c3 -> emits (a ++ b) c1 c3.
Proof.
  intros [(x & Ex & Ox) He Hp Hs] [(y & Ey & Oy) He2 Hp2 Hs2]. split; [|congruence..]. exists (x ++ y).
  split; [|rewrite Oy, Ox, app_assoc; reflexivity]. unfold encoded in *. rewrite He in Ey. destruct (m_IsEncrypted (m_Protocol c1)).
  - rewrite Encryptor_app, Ex. cbn [option_bind mbind]. rewrite Ey. reflexivity.
  - congruence.
Qed.

Lemma sent_emits data c c' : m_HasSentDC c = false -> sent data c c' -> emits data c c' /\ m_HasSentDC c' = false.
Proof.
  intros Hdc (lb & ob & es & e & Ee & -> & _). unfold queued. destruct c as [? ? [] ? ? dc]. simpl in Hdc. subst.
  split; [|reflexivity]. split; [exists es; split; [exact Ee | reflexivity] | reflexivity..].
Qed.

Lemma packet_emits t fs c c' out :
  handle_ok c -> in_width 32 t -> Forall field_ok fs -> m_HasSentDC c = false -> cPacketizer t fs c = Some (c', out) ->
  emits (frame (payload t fs)) c c' /\ m_HasSentDC c' = false /\ out = [].
Proof.
  intros Hc Ht Hfs Hdc E. destruct (cPacketizer_inv t fs c c' out Hc Ht Hfs E) as [-> Hs].
  destruct (sent_emits _ _ _ Hdc Hs). auto.
Qed.

Lemma SendDisconnect_emits r c c' out :
  handle_ok c -> num_range Int32 r -> m_HasSentDC c = false -> SendDisconnect r c = Some (c', out) ->
  emits (disconnect_bytes (p_State (m_Protocol c)) r) c c' /\ m_HasSentDC c' = true /\ out = [].
Proof.
  intros Hc Hr Hdc E. unfold SendDisconnect in E. rewrite Hdc in E.
  apply andThen_inv in E as (c1 & o1 & o2 & E1 & E & ->). injection E as <- <-.
  enough (Hall : emits (disconnect_bytes (p_State (m_Protocol c)) r) c c1 /\ o1 = []).
  { destruct Hall as [[] ->]. split_and!; [split; assumption | reflexivity..]. }
  unfold protocol_SendDisconnect in E1. unfold disconnect_bytes.
  destruct (p_State (m_Protocol c)) as [|[[]|[]|]|];
    try (injection E1 as <- <-; split; [apply emits_nothing; reflexivity | reflexivity]);
    (eapply packet_emits in E1; [destruct E1 as (He & _ & Ho); split; [exact He | exact Ho] | exact Hc | split; lia
       | apply Forall_singleton; first [exact Hr | apply (wrap_bound 32); lia] | exact Hdc]).
Qed.

Lemma SendDisconnect_spec r c c' out :
  handle_ok c -> num_range Int32 r -> m_HasSentDC c = false -> SendDisconnect r c = Some (c', out) ->
  exists es e, encoded (disconnect_bytes (p_State (m_Protocol c)) r) (m_Protocol c) = Some (es, e)
    /\ m_OutgoingData c' = m_OutgoingData c ++ es /\ m_HasSentDC c' = true /\ handle_ok c' /\ out = [].
Proof.
  intros Hc Hr Hdc E. destruct (SendDisconnect_emits r c c' out Hc Hr Hdc E) as ([(es & Ee & Eo) _ _ _] & Hd & ->).
  pose proof (well_SendDisconnect r Hr c Hc) as Hw. unfold fine in Hw. rewrite E in Hw. destruct Hw as [Hc' _].
  exists es, (m_Encryptor (m_Protocol c')). auto.
Qed.

(** C37. The disconnect packet is the last thing a client is sent: of what is queued when
    the packet is, and of the packet, everything or nothing goes out on the link, and
    whatever is called afterwards nothing else does. *)
Theorem disconnect_is_last r ops c c1 c' out1 out :
  handle_ok c -> num_range Int32 r -> m_HasSentDC c = false -> Forall handle_op_ok ops ->
  SendDisconnect r c = Some (c1, out1) -> run_handle ops c1 = Some (c', out) ->
  exists es e, encoded (disconnect_bytes (p_State (m_Protocol c)) r) (m_Protocol c) = Some (es, e)
    /\ out1 = [] /\ (link_data out = [] \/ link_data out = m_OutgoingData c ++ es) /\ m_HasSentDC c' = true.
Proof.
  intros Hc Hr Hdc Hops E1 E2. destruct (SendDisconnect_spec r c c1 out1 Hc Hr Hdc E1) as (es & e & Ee & Eo & Edc & Hc1 & ->).
  exists es, e. destruct (stepped_run ops c1 c' out Hc1 Hops E2) as [_ Hd _]. destruct (Hd Edc) as [Hdc' Hout].
  rewrite Eo in Hout. split_and!; [exact Ee | reflexivity | tauto | exact Hdc'].
Qed.

(** C39. A packet goes out exactly if it is no longer than the out buffer: the type and the
    fields have room for 64 KiB, and one byte more ends the process. *)
Theorem packet_fits_or_exits t fs c :
  handle_ok c -> in_width 32 t -> Forall field_ok fs ->
  (cPacketizer t fs c = None <-> (64 * 1024 < List.length (payload t fs))%nat)
  /\ forall c' out, cPacketizer t fs c = Some (c', out) ->
       out = [] /\ calm c c' out /\ exists es e, encoded (frame (payload t fs)) (m_Protocol c) = Some (es, e)
         /\ m_OutgoingData c' = (if m_HasSentDC c then m_OutgoingData c else m_OutgoingData c ++ es).
Proof.
  intros Hc Ht Hfs. split; [split|].
  - intros E. destruct (decide (List.length (payload t fs) <= 64 * 1024)%nat) as [Hle|Hgt]; [|lia].
    destruct (cPacketizer_spec t fs c Hc Ht Hfs Hle) as (c' & E' & _). congruence.
  - intros Hlen. apply cPacketizer_None; assumption.
  - intros c' out E. destruct (cPacketizer_inv t fs c c' out Hc Ht Hfs E) as [-> Hs].
    split; [reflexivity|]. split; [eapply sent_calm; exact Hs|].
    destruct Hs as (lb & ob & es & e & Ee & -> & _). exists es, e. split; [exact Ee|]. unfold queued. destruct c as [? ? [] ? ? dc]. destruct dc; reflexivity.
Qed.

(** *** Silence *)

Definition working (c : cClientHandle) : cClientHandle :=
  if bool_decide (m_State c = csAuthenticated) then c <| m_State := csWorking |> else c.

(** The ping that is due at the time [now]. *)
Definition ping_bytes (now : Z) (c : cClientHandle) : list Z :=
  if bool_decide (m_State c = csWorking) && (m_PingStartTime c + PING_TIME_MS <=? now) && (p_State (m_Protocol c) =? 3)
  then frame (payload 0x00 [FValue (VVarInt32 (u32 (Z.succ (m_PingID c))))]) else [].

Lemma send_ping_emits now c c' out :
  handle_ok c -> m_HasSentDC c = false -> send_ping now c = Some (c', out) ->
  emits (ping_bytes now c) c c' /\ m_HasSentDC c' = false.
Proof.
  intros Hc Hdc E. unfold send_ping, ping_bytes in *. destruct (_ && _); cbn [andb];
    [|injection E as <- <-; split; [apply emits_nothing; reflexivity | exact Hdc]].
  set (c1 := (c <| m_PingID ::= Z.succ |>) <| m_PingStartTime := now |>) in *.
  assert (Hc1 : handle_ok c1) by (destruct Hc; split; assumption).
  unfold SendKeepAlive in E. change (p_State (m_Protocol c1)) with (p_State (m_Protocol c)) in E.
  destruct (_ =? 3); cbn [negb] in E; [|injection E as <- <-; split; [apply emits_nothing; reflexivity | exact Hdc]].
  apply packet_emits in E as ([] & Hd & _); [|exact Hc1 | split; lia | apply Forall_singleton, (wrap_bound 32); lia | exact Hdc].
  split; [|exact Hd]. split; assumption.
Qed.

(** The members a sent packet leaves alone. *)
Lemma sent_same data c c' : sent data c c' ->
  m_HasSentDC c' = m_HasSentDC c /\ m_State c' = m_State c /\ p_State (m_Protocol c') = p_State (m_Protocol c).
Proof.
  intros (lb & ob & es & e & _ & -> & _). unfold queued. destruct c as [? ? [] ? ? dc]. destruct dc; auto.
Qed.

Lemma SendDisconnect_state r c c' out : handle_ok c -> num_range Int32 r -> SendDisconnect r c = Some (c', out) -> m_State c' = m_State c.
Proof.
  intros Hc Hr E. destruct (m_HasSentDC c) eqn:Hdc.
  - unfold SendDisconnect in E. rewrite Hdc in E. injection E as <- <-. reflexivity.
  - apply (SendDisconnect_emits r c c' out Hc Hr Hdc E).
Qed.

Lemma ping_state now c c' out : handle_ok c -> send_ping now c = Some (c', out) -> m_State c' = m_State c.
Proof.
  intros Hc E. unfold send_ping in E. destruct (_ && _); [|injection E as <- <-; reflexivity].
  set (c1 := (c <| m_PingID ::= Z.succ |>) <| m_PingStartTime := now |>) in *.
  assert (Hc1 : handle_ok c1) by (destruct Hc; split; assumption).
  unfold SendKeepAlive in E. destruct (negb _); [injection E as <- <-; reflexivity|].
  apply cPacketizer_inv in E as [_ Hs]; [|exact Hc1 | split; lia | apply Forall_singleton, (wrap_bound 32); lia].
  destruct (sent_same _ _ _ Hs) as (_ & -> & _). reflexivity.
Qed.

Lemma count_state c c' out : handle_ok c -> count_tick c = Some (c', out) -> m_State c' = m_State c.
Proof.
  intros Hc E. unfold count_tick in E. destruct (_ <? _); [|injection E as <- <-; reflexivity].
  apply SendDisconnect_state in E; [exact E | destruct Hc; split; assumption | split; [discriminate | reflexivity]].
Qed.

(** A handle whose client has been silent for [k] ticks. *)
Record silent (k : Z) (link : bool) (c : cClientHandle) : Prop := {
  silent_ok : handle_ok c;
  silent_incoming : m_IncomingData c = [];
  silent_ticks : m_TicksSinceLastPacket c = k;
  silent_link : m_Link c = link;
  silent_alive : IsDestroyed c = false
}.

(** A silent tick first sends what is queued. *)
Lemma silent_head now c :
  m_IncomingData c = [] ->
  exists o1, link_data o1 = (if m_Link c then m_OutgoingData c else [])
    /\ ServerTick fresh now c = ('(c', o) ← (send_ping now;; count_tick) (working (c <| m_OutgoingData := [] |>)); Some (c', o1 ++ o)).
Proof.
  intros Hi. exists (if m_Link c && negb (List.length (m_OutgoingData c) =? 0)%nat then [Link_Send (m_OutgoingData c)] else []). split.
  { destruct (m_Link c); [|reflexivity]. destruct (m_OutgoingData c); [reflexivity|]. cbn. rewrite app_nil_r. reflexivity. }
  unfold ServerTick, receive_queued, send_queued, andThen, modify. rewrite Hi. cbn [List.length Nat.eqb skip option_bind mbind].
  assert (Ec : c <| m_IncomingData := [] |> <| m_OutgoingData := [] |> = c <| m_OutgoingData := [] |>)
    by (destruct c; simpl in Hi; subst; reflexivity).
  change (m_Link (c <| m_IncomingData := [] |> <| m_OutgoingData := [] |>)) with (m_Link c).
  change (m_OutgoingData (c <| m_IncomingData := [] |>)) with (m_OutgoingData c). rewrite Ec.
  destruct (_ && _); cbn [tell skip option_bind mbind app];
    fold (working (c <| m_OutgoingData := [] |>)); destruct (send_ping now _) as [[c2 o2]|]; try reflexivity;
    cbn [option_bind mbind]; destruct (count_tick c2) as [[c3 o3]|]; reflexivity.
Qed.

Lemma working_silent k link c : silent k link c -> silent k link (working (c <| m_OutgoingData := [] |>)).
Proof.
  intros [Hc Hi Hk Hl Ha]. assert (Hc' : handle_ok (c <| m_OutgoingData := [] |>)) by (destruct Hc; split; assumption).
  unfold working. destruct (bool_decide _); split; try assumption; [destruct Hc'; split; assumption | reflexivity].
Qed.

Lemma count_tick_emits k link c c' out :
  silent k link c -> m_HasSentDC c = false -> count_tick c = Some (c', out) ->
  emits (if 600 <? k + 1 then disconnect_bytes (p_State (m_Protocol c)) ERROR_CODE_CLIENT_TIMEOUT else []) c c'
  /\ m_HasSentDC c' = (600 <? k + 1).
Proof.
  intros [Hc Hi Hk Hl Ha] Hdc E. unfold count_tick in E.
  replace (m_TicksSinceLastPacket _) with (k + 1) in E by (simpl; lia). destruct (600 <? k + 1).
  - apply SendDisconnect_emits in E as ([] & Hd & _); [|destruct Hc; split; assumption | split; [discriminate | reflexivity] | exact Hdc].
    split; [split; assumption | exact Hd].
  - injection E as <- <-. split; [apply emits_nothing; reflexivity | exact Hdc].
Qed.

Lemma SendDisconnect_again r c : m_HasSentDC c = true -> SendDisconnect r c = Some (c, []).
Proof. intros Hdc. unfold SendDisconnect. rewrite Hdc. reflexivity. Qed.

(** What the rest of a silent tick does. *)
Lemma silent_rest now k link c :
  silent k link c -> exists c' o, (send_ping now;; count_tick) c = Some (c', o) /\ silent (k + 1) link c' /\ link_data o = []
    /\ if m_HasSentDC c then m_HasSentDC c' = true /\ m_OutgoingData c' = m_OutgoingData c
       else m_HasSentDC c' = (600 <? k + 1)
         /\ emits (ping_bytes now c ++ if 600 <? k + 1 then disconnect_bytes (p_State (m_Protocol c)) ERROR_CODE_CLIENT_TIMEOUT else []) c c'.
Proof.
  intros Hs. pose proof Hs as [Hc Hi Hk Hl Ha].
  pose proof (well_send_ping now c Hc) as Hw. unfold fine in Hw.
  destruct (send_ping now c) as [[c1 o1]|] eqn:E1; [|contradiction]. destruct Hw as [Hc1 R1].
  pose proof (well_count_tick c1 Hc1) as Hw2. destruct (count_tick c1) as [[c2 o2]|] eqn:E2; [|contradiction]. destruct Hw2 as [Hc2 R2].
  exists c2, (o1 ++ o2). split; [unfold andThen; rewrite E1; cbn [option_bind mbind]; rewrite E2; reflexivity|].
  rewrite link_data_app, (link_data_calm o1), (link_data_calm o2) by (eapply calm_out; eassumption).
  assert (Hst : m_State c2 = m_State c).
  { apply (ping_state now c c1 o1 Hc) in E1. apply (count_state c1 c2 o2 Hc1) in E2. congruence. }
  split; [|split; [reflexivity|]].
  { split; [exact Hc2 | rewrite (calm_incoming _ _ _ R2); simpl; rewrite (calm_incoming _ _ _ R1); exact Hi
      | rewrite (calm_ticks _ _ _ R2); simpl; rewrite (calm_ticks _ _ _ R1); lia
      | rewrite (calm_link _ _ _ R2); simpl; rewrite (calm_link _ _ _ R1); exact Hl
      | unfold IsDestroyed in *; rewrite Hst; exact Ha]. }
  destruct (m_HasSentDC c) eqn:Hdc.
  { destruct (calm_dc _ _ _ R1 Hdc) as [D1 O1]. destruct (calm_dc _ _ _ R2 D1) as [D2 O2]. split; [exact D2 | simpl in O2; congruence]. }
  destruct (send_ping_emits now c c1 o1 Hc Hdc E1) as [Em1 D1].
  assert (Hs1 : silent k link c1).
  { split; [exact Hc1 | rewrite (calm_incoming _ _ _ R1); exact Hi | rewrite (calm_ticks _ _ _ R1); exact Hk
      | rewrite (calm_link _ _ _ R1); exact Hl | unfold IsDestroyed in *; rewrite (emits_state _ _ _ Em1); exact Ha]. }
  destruct (count_tick_emits k link c1 c2 o2 Hs1 D1 E2) as [Em2 D2]. rewrite (emits_p_State _ _ _ Em1) in Em2.
  split; [exact D2 | eapply emits_trans; eassumption].
Qed.

(** What a silent tick puts on the link and into the queue. *)
Lemma tick_silent now k link c :
  silent k link c -> exists c' out, ServerTick fresh now c = Some (c', out) /\ silent (k + 1) link c'
    /\ link_data out = (if link then m_OutgoingData c else [])
    /\ if m_HasSentDC c then m_HasSentDC c' = true /\ m_OutgoingData c' = []
       else m_HasSentDC c' = (600 <? k + 1) /\ p_State (m_Protocol c') = p_State (m_Protocol c)
         /\ encoded (ping_bytes now (working c) ++
                     if 600 <? k + 1 then disconnect_bytes (p_State (m_Protocol c)) ERROR_CODE_CLIENT_TIMEOUT else [])
              (m_Protocol c) = Some (m_OutgoingData c', m_Encryptor (m_Protocol c')).
Proof.
  intros Hs. destruct (silent_head now c (silent_incoming _ _ _ Hs)) as (o1 & Ho1 & ->).
  destruct (silent_rest now k link _ (working_silent _ _ _ Hs)) as (c' & o & E & Hs' & Ho & Hq).
  rewrite E. cbn [option_bind mbind]. exists c', (o1 ++ o). split; [reflexivity|]. split; [exact Hs'|].
  rewrite link_data_app, Ho, Ho1, app_nil_r, (silent_link _ _ _ Hs). split; [reflexivity|].
  assert (Hw : let w := working (c <| m_OutgoingData := [] |>) in m_HasSentDC w = m_HasSentDC c /\ m_OutgoingData w = []
    /\ m_Protocol w = m_Protocol c /\ ping_bytes now w = ping_bytes now (working c)).
  { unfold working, ping_bytes. simpl. destruct (bool_decide (m_State c = csAuthenticated)); auto. }
  destruct Hw as (Ed & Eo & Ep & Eb). rewrite Ed in Hq. rewrite Eo, Ep, Eb in Hq.
  destruct (m_HasSentDC c); [exact Hq|]. destruct Hq as [Hd [(es & Ee & Eq) _ Hst _]].
  rewrite Ep in Ee, Hst. rewrite Eo in Eq. cbn [app] in Eq. subst es. auto.
Qed.

(** As long as no disconnect packet has been queued. *)
Lemma silent_before nows : forall k link c,
  silent k link c -> m_HasSentDC c = false -> k + Z.of_nat (List.length nows) <= 600 ->
  exists c' out, run_handle (map OpTick nows) c = Some (c', out) /\ silent (k + Z.of_nat (List.length nows)) link c'
    /\ m_HasSentDC c' = false /\ p_State (m_Protocol c') = p_State (m_Protocol c).
Proof.
  induction nows as [|now nows IH]; intros k link c Hs Hdc Hk.
  { exists c, []. simpl. rewrite Z.add_0_r. auto. }
  cbn [List.length] in *. rewrite Nat2Z.inj_succ in *.
  destruct (tick_silent now k link c Hs) as (c1 & o1 & E1 & Hs1 & _ & Hq). rewrite Hdc in Hq. destruct Hq as (Hd1 & Hp1 & _).
  rewrite (proj2 (Z.ltb_ge 600 (k + 1))) in Hd1 by lia.
  destruct (IH (k + 1) link c1 Hs1 Hd1 ltac:(lia)) as (c2 & o2 & E2 & Hs2 & Hd2 & Hp2). exists c2, (o1 ++ o2).
  cbn [map run_handle run_handle_op]. unfold andThen. rewrite E1. cbn [option_bind mbind]. rewrite E2.
  replace (k + Z.succ _) with (k + 1 + Z.of_nat (List.length nows)) by lia. split_and!; [reflexivity | assumption.. | congruence].
Qed.

(** After the last packet has gone out. *)
Lemma silent_after nows : forall k link c,
  silent k link c -> m_HasSentDC c = true -> m_OutgoingData c = [] ->
  exists c' out, run_handle (map OpTick nows) c = Some (c', out) /\ link_data out = []
    /\ m_HasSentDC c' = true /\ m_Link c' = link /\ IsDestroyed c' = false.
Proof.
  induction nows as [|now nows IH]; intros k link c Hs Hdc Ho.
  { exists c, []. destruct Hs. auto. }
  destruct (tick_silent now k link c Hs) as (c1 & o1 & E1 & Hs1 & Hl & Hq). rewrite Hdc in Hq. destruct Hq as (Hd1 & Ho1).
  destruct (IH (k + 1) link c1 Hs1 Hd1 Ho1) as (c2 & o2 & E2 & Hl2 & Hrest). exists c2, (o1 ++ o2).
  cbn [map run_handle run_handle_op]. unfold andThen. rewrite E1. cbn [option_bind mbind]. rewrite E2.
  split; [reflexivity|]. split; [|exact Hrest]. rewrite link_data_app, Hl, Hl2, Ho, app_nil_r. destruct link; reflexivity.
Qed.

(** C38. A client that sends nothing is not disconnected in its first 600 silent ticks,
    whatever the clock shows.  Tick 601 queues the packet with the timeout that the state
    of its login has, behind a ping if one is due; tick 602 puts exactly that on the link;
    then nothing more is ever sent, and neither the link nor the handle is given up. *)
Theorem silent_client before now now' after c :
  handle_ok c -> m_IncomingData c = [] -> m_TicksSinceLastPacket c = 0 -> m_HasSentDC c = false -> IsDestroyed c = false ->
  (List.length before <= 600)%nat ->
  exists c1 out1, run_handle (map OpTick before) c = Some (c1, out1)
    /\ m_HasSentDC c1 = false /\ m_Link c1 = m_Link c /\ IsDestroyed c1 = false
    /\ (List.length before = 600%nat ->
        exists c2 out2, ServerTick fresh now c1 = Some (c2, out2)
          /\ encoded (ping_bytes now (working c1) ++ disconnect_bytes (p_State (m_Protocol c)) ERROR_CODE_CLIENT_TIMEOUT)
               (m_Protocol c1) = Some (m_OutgoingData c2, m_Encryptor (m_Protocol c2))
        /\ exists c3 out3, ServerTick fresh now' c2 = Some (c3, out3)
          /\ link_data out3 = (if m_Link c then m_OutgoingData c2 else [])
        /\ exists c4 out4, run_handle (map OpTick after) c3 = Some (c4, out4)
          /\ link_data out4 = [] /\ m_HasSentDC c4 = true /\ m_Link c4 = m_Link c /\ IsDestroyed c4 = false).
Proof.
  intros Hc Hi Hk Hdc Ha Hn. assert (Hs : silent 0 (m_Link c) c) by (split; auto).
  destruct (silent_before before 0 _ c Hs Hdc ltac:(lia)) as (c1 & o1 & E1 & Hs1 & Hd1 & Hp1). exists c1, o1.
  split; [exact E1|]. split; [exact Hd1|]. split; [apply Hs1|]. split; [apply Hs1|]. intros E600. rewrite E600 in Hs1.
  destruct (tick_silent now _ _ c1 Hs1) as (c2 & o2 & E2 & Hs2 & _ & Hq). rewrite Hd1 in Hq. destruct Hq as (Hd2 & _ & Ee).
  rewrite Hp1 in Ee. exists c2, o2. split; [exact E2|]. split; [exact Ee|].
  destruct (tick_silent now' _ _ c2 Hs2) as (c3 & o3 & E3 & Hs3 & Hl3 & Hq). replace (m_HasSentDC c2) with true in Hq.
  destruct Hq as [Hd3 Ho3]. exists c3, o3. split; [exact E3|]. split; [exact Hl3|].
  exact (silent_after after _ _ c3 Hs3 Hd3 Ho3).
Qed.

(** *** Whatever arrives *)

(** The chunks in which encrypted data is decrypted. *)
Fixpoint chunk_list (fuel : nat) (data : list Z) : list (list Z) :=
  match fuel with
  | O => []
  | S fuel => if (List.length data =? 0)%nat then [] else take 512 data :: chunk_list fuel (drop 512 data)
  end.

Definition chunks (data : list Z) : list (list Z) := chunk_list (List.length data) data.

Lemma chunk_list_loop now fuel : forall data,
  chunk_loop 512 (receive_chunk fresh now) fuel data = process_all (receive_chunk fresh now) (chunk_list fuel data).
Proof.
  induction fuel as [|fuel IH]; intros data; [reflexivity|]. cbn [chunk_loop chunk_list].
  destruct (_ =? 0)%nat; [reflexivity|]. cbn [process_all]. destruct (Nat.ltb_spec 512 (List.length data)).
  - rewrite IH. reflexivity.
  - rewrite (take_ge data), (drop_ge data), (take_ge data 512), (drop_ge data 512), IH by lia. reflexivity.
Qed.

Lemma chunk_list_concat fuel : forall data, (List.length data <= fuel)%nat -> concat (chunk_list fuel data) = data.
Proof.
  induction fuel as [|fuel IH]; intros data Hl; cbn [chunk_list]; [destruct data; [reflexivity | simpl in Hl; lia]|].
  destruct (Nat.eqb_spec (List.length data) 0) as [E|E]; [destruct data; [reflexivity | discriminate]|].
  cbn [concat]. rewrite IH by (rewrite length_drop; lia). apply take_drop.
Qed.

(** Each time the handle adds plain bytes to those that wait for the rest of a packet, no
    five bytes in a row of the two together have the top bit set. *)
Fixpoint short_chunks (now : Z) (pieces : list (list Z)) (c : cClientHandle) : Prop :=
  match pieces with
  | [] => True
  | x :: pieces =>
    (exists l plain d, waiting c l /\ Decryptor_ProcessData x (m_Decryptor (m_Protocol c)) = Some (plain, d)
       /\ short_runs (l ++ plain))
    /\ (forall c' out, receive_chunk fresh now x c = Some (c', out) -> short_chunks now pieces c')
  end.

Definition short_input (now : Z) (c : cClientHandle) : Prop :=
  let data := m_IncomingData c in
  let c := c <| m_IncomingData := [] |> in
  if m_IsEncrypted (m_Protocol c) then short_chunks now (chunks data) c
  else exists l, waiting c l /\ short_runs (l ++ data).

Definition low (b : Z) : bool := b <? 128.

Lemma low_short l : forallb low l = true -> short_runs l.
Proof.
  unfold low. intros Hl k. revert l Hl. induction k as [|k IH]; intros [|b l] Hl; simpl in *; try lia.
  - apply andb_true_iff in Hl as [Hb%Z.ltb_lt _]. rewrite (proj2 (Z.leb_gt 128 b)) by exact Hb. lia.
  - apply andb_true_iff in Hl as [_ Hl]. apply IH, Hl.
Qed.

Lemma forallb_drop {A} (f : A -> bool) k l : forallb f l = true -> forallb f (drop k l) = true.
Proof. rewrite <- (take_drop k l) at 1. rewrite forallb_app, andb_true_iff. tauto. Qed.

Lemma forallb_bytes l : forallb (fun b => (0 <=? b) && (b <? 256)) l = true -> bytes_ok l.
Proof.
  intros Hl. apply Forall_forall. intros b Hb%list_elem_of_In. rewrite forallb_forall in Hl.
  specialize (Hl b Hb). unfold byte_ok. lia.
Qed.

Lemma receive_pieces_total now pieces : forall c,
  handle_ok c -> bytes_ok (concat pieces) -> short_chunks now pieces c ->
  exists c' out, process_all (receive_chunk fresh now) pieces c = Some (c', out).
Proof.
  induction pieces as [|x pieces IH]; intros c Hc Hok Hs; cbn [process_all concat] in *; [do 2 eexists; reflexivity|].
  apply Forall_app in Hok as [Hx Hok]. destruct Hs as [(l & ps & d & Hl & Ed & Hs) Hrest].
  assert (E : exists c1 o1, receive_chunk fresh now x c = Some (c1, o1)).
  { unfold receive_chunk. rewrite Ed. cbn [option_bind mbind]. unfold andThen. cbn [modify option_bind mbind].
    destruct (Decryptor_ok x (m_Decryptor (m_Protocol c)) Hx) as (ps' & d' & Ed' & Hps & _). rewrite Ed in Ed'. injection Ed' as <- <-.
    set (c1 := on_protocol (fun p => p <| m_Decryptor := d |>) c).
    destruct (well_decryptor d c Hc) as [Hc1 _]. fold c1 in Hc1.
    pose proof (AddReceivedData_fine now ps c1 l Hc1 Hl Hps) as Hf.
    destruct (protocol_AddReceivedData fresh now ps c1) as [[c2 o2]|]; [cbn; eauto | elim (Hf Hs)]. }
  destruct E as (c1 & o1 & E1). destruct (receive_chunk_calm now x c c1 o1 Hc Hx E1) as [Hc1 _].
  destruct (IH c1 Hc1 Hok (Hrest _ _ E1)) as (c2 & o2 & E2). exists c2, (o1 ++ o2).
  unfold andThen. rewrite E1. cbn [option_bind mbind]. rewrite E2. reflexivity.
Qed.

(** Two chunks of bytes without the top bit. *)
Lemma short_two now x y c :
  handle_ok c -> waiting c [] -> bytes_ok x ->
  match Decryptor_ProcessData x (m_Decryptor (m_Protocol c)) with
  | Some (ps, _) => forallb low ps && (List.length ps <=? 512)%nat
  | None => false
  end = true ->
  match receive_chunk fresh now x c with
  | Some (c', _) => match Decryptor_ProcessData y (m_Decryptor (m_Protocol c')) with Some (ps, _) => forallb low ps | None => false end
  | None => false
  end = true ->
  short_chunks now [x; y] c.
Proof.
  intros Hc Hl Hx E1 E2. cbn [short_chunks].
  destruct (Decryptor_ok x (m_Decryptor (m_Protocol c)) Hx) as (ps & d & Ed & Hps & _). rewrite Ed in E1.
  apply andb_true_iff in E1 as [Hlow H512%Nat.leb_le]. split.
  { exists [], ps, d. split_and!; [exact Hl | exact Ed | apply low_short, Hlow]. }
  intros c' out E. split; [|intros; exact I]. rewrite E in E2.
  destruct (Decryptor_ProcessData y _) as [[ps2 d2]|]; [|discriminate].
  unfold receive_chunk in E. rewrite Ed in E. cbn [option_bind mbind] in E.
  apply andThen_inv in E as (c1 & o1 & o2 & [= <- <-] & E & ->).
  destruct (well_decryptor d c Hc) as [Hc1 _].
  pose proof (AddReceivedData_fine now ps _ [] Hc1 Hl Hps) as Hf. rewrite E in Hf. destruct Hf as (_ & _ & l' & Hl' & Hk).
  destruct (Hk ltac:(cbn [app]; lia)) as [k ->]. exists (drop k ps), ps2, d2.
  split_and!; [exact Hl' | reflexivity|]. apply low_short. unfold low in *. rewrite forallb_app, E2, andb_true_r.
  apply forallb_drop, Hlow.
Qed.

Lemma receive_queued_total now c :
  handle_ok c -> short_input now c -> exists c' out, receive_queued fresh now c = Some (c', out) /\ handle_ok c'.
Proof.
  intros Hc Hs. enough (E : exists c' out, receive_queued fresh now c = Some (c', out)).
  { destruct E as (c' & out & E). exists c', out. split; [exact E|]. apply receive_queued_calm in E; [apply E | exact Hc]. }
  unfold receive_queued, short_input in *. destruct (_ =? 0)%nat eqn:E0; [do 2 eexists; reflexivity|].
  pose proof (ok_incoming c Hc) as Hok. set (data := m_IncomingData c) in *.
  assert (Hc0 : handle_ok (c <| m_IncomingData := [] |>)) by (destruct Hc; split; try assumption; constructor).
  unfold DataReceived. destruct (m_IsEncrypted _).
  - unfold in_chunks. rewrite chunk_list_loop. apply receive_pieces_total; [exact Hc0 | | exact Hs].
    rewrite chunk_list_concat by lia. exact Hok.
  - destruct Hs as (l & Hl & Hs). pose proof (AddReceivedData_fine now data _ l Hc0 Hl Hok) as Hf.
    destruct (protocol_AddReceivedData fresh now data _) as [[c2 o2]|]; [eauto | elim (Hf Hs)].
Qed.

Lemma tick_rest_total now c :
  handle_ok c ->
  exists c' out, (send_queued;; modify (fun c => if bool_decide (m_State c = csAuthenticated) then c <| m_State := csWorking |> else c);;
   send_ping now;; count_tick) c = Some (c', out) /\ handle_ok c'.
Proof.
  intros Hc.
  assert (E1 : exists c1 o1, send_queued c = Some (c1, o1) /\ handle_ok c1).
  { unfold send_queued. destruct (_ && _); do 2 eexists; (split; [reflexivity|]); destruct Hc; split; assumption. }
  destruct E1 as (c1 & o1 & E1 & Hc1).
  set (f := fun c => if bool_decide (m_State c = csAuthenticated) then c <| m_State := csWorking |> else c).
  assert (Hf : handle_ok (f c1)) by (unfold f; destruct (bool_decide _); [destruct Hc1; split; assumption | exact Hc1]).
  pose proof (well_send_ping now _ Hf) as Hw. unfold fine in Hw. destruct (send_ping now (f c1)) as [[c3 o3]|] eqn:E3; [|contradiction].
  destruct Hw as [Hc3 _]. pose proof (well_count_tick c3 Hc3) as Hw. destruct (count_tick c3) as [[c4 o4]|] eqn:E4; [|contradiction].
  exists c4. unfold andThen, modify. rewrite E1. cbn [option_bind mbind]. rewrite E3. cbn [option_bind mbind]. rewrite E4.
  eexists. split; [reflexivity | apply Hw].
Qed.

(** C36. In a release build, where ASSERT does nothing, no bytes a client can send stop the
    server, crash it or break the handle, as long as no five plain bytes in a row, of those
    that wait and those added to them at once, have the top bit set.  The bytes may be any
    and as many as came since the last tick, in any state of the login, encrypted or not,
    and need not be packets. *)
Theorem tick_survives now c :
  handle_ok c -> short_input now c ->
  exists c' out, ServerTick fresh now c = Some (c', out) /\ handle_ok c'.
Proof.
  intros Hc Hs. destruct (receive_queued_total now c Hc Hs) as (c1 & o1 & E1 & Hc1).
  destruct (tick_rest_total now c1 Hc1) as (c2 & o2 & E2 & Hc2).
  exists c2, (o1 ++ o2). split; [|exact Hc2]. unfold ServerTick. unfold andThen at 1. rewrite E1. cbn [option_bind mbind].
  rewrite E2. reflexivity.
Qed.

Lemma handle_ctor_ok ip now id address mem :
  bytes_ok ip -> (List.length ip <= 1000)%nat -> handle_ok (cClientHandle_ctor fresh ip now id address mem).
Proof.
  intros Hip Hl.
  assert (Hb : forall n, represents (new_buffer fresh n) (q_empty n)) by (intros n; apply rep_ctor; rewrite fresh_length; lia).
  split; [apply Hb | apply Hb | exists []; apply Hb | constructor | auto].
Qed.
End Facts.

(** ** Samples *)

Module Sample.
Definition keys : ServerKeys := {| GetServerID := chars "-"; GetPublicKeyDER := [48; 1; 2] |}.
Definition keys_ok : @KeysOk keys.
Proof. split; (split; [repeat constructor; lia | simpl; lia]). Qed.

Definition fresh (n : nat) : list Z := repeat 0 n.
Definition fresh_length n : List.length (fresh n) = n.
Proof. apply repeat_length. Qed.

Definition cipher : cAesCfb128 := {| m_Aes := []; m_IV := []; m_IsValid := false |}.
Definition handle : cClientHandle := cClientHandle_ctor fresh (chars "10.0.0.7") 0 1 77 cipher.

(** A handle in the login state, with its link. *)
Definition login : cClientHandle :=
  (on_protocol (fun p => p <| p_State := 2 |>) handle) <| m_Link := true |>.

Lemma handle_is_ok : handle_ok handle.
Proof. apply handle_ctor_ok; [exact fresh_length | repeat constructor; lia | simpl; lia]. Qed.

Lemma login_ok : handle_ok login.
Proof. destruct handle_is_ok. split; assumption. Qed.
End Sample.

Definition sample_ops : list handle_op :=
  [OpReceivedData [1; 2]; OpTick 5; OpKick 0; OpChannelMsg 1 (chars "room") (chars "hi"); OpTick 6].

Lemma sample_reason_ok : num_range Int32 ERROR_CODE_HACKED_CLIENT.
Proof. split; [discriminate | reflexivity]. Qed.

Lemma sample_ops_ok : Forall handle_op_ok sample_ops.
Proof.
  repeat (constructor; [first [exact I | repeat constructor; lia | split; (discriminate || reflexivity)
      | split; (split; [repeat constructor; lia | reflexivity])]|]). constructor.
Qed.

Lemma sample_disconnect :
  exists c1 c' out, @SendDisconnect Toy.lib ERROR_CODE_HACKED_CLIENT Sample.login = Some (c1, [])
    /\ @run_handle Toy.lib Sample.keys Sample.fresh sample_ops c1 = Some (c', out).
Proof.
  destruct (well_Some _ _ (well_SendDisconnect (H := Toy.lib) (H1 := Toy.laws) _ sample_reason_ok) Sample.login_ok) as (c1 & o1 & E1 & _).
  destruct (SendDisconnect_spec (H := Toy.lib) (H1 := Toy.laws) _ _ _ _ Sample.login_ok sample_reason_ok eq_refl E1) as (_ & _ & _ & _ & _ & _ & ->).
  assert (Es : match @SendDisconnect Toy.lib ERROR_CODE_HACKED_CLIENT Sample.login with
               | Some (c1, _) => if @run_handle Toy.lib Sample.keys Sample.fresh sample_ops c1 is Some _ then true else false
               | None => false
               end = true) by (vm_compute; reflexivity).
  rewrite E1 in Es. exists c1. destruct (run_handle Sample.fresh sample_ops c1) as [[c' out]|]; [eauto | discriminate].
Qed.

Example disconnect_is_last_witness :
  exists c1 c' out, @SendDisconnect Toy.lib ERROR_CODE_HACKED_CLIENT Sample.login = Some (c1, [])
    /\ @run_handle Toy.lib Sample.keys Sample.fresh sample_ops c1 = Some (c', out)
    /\ exists es e, @encoded Toy.lib (disconnect_bytes 2 ERROR_CODE_HACKED_CLIENT) (m_Protocol Sample.login) = Some (es, e)
    /\ [] = [] :> list request
    /\ (link_data out = [] \/ link_data out = m_OutgoingData Sample.login ++ es) /\ m_HasSentDC c' = true.
Proof.
  destruct sample_disconnect as (c1 & c' & out & E1 & E2). exists c1, c', out. split; [exact E1|]. split; [exact E2|].
  exact (disconnect_is_last (H := Toy.lib) (H1 := Toy.laws) (H2 := Sample.keys_ok) Sample.fresh Sample.fresh_length
    ERROR_CODE_HACKED_CLIENT sample_ops Sample.login c1 c' [] out Sample.login_ok sample_reason_ok eq_refl sample_ops_ok E1 E2).
Defined.

Example packet_fits_or_exits_witness :
  let _ := Toy.lib in
  cPacketizer 0x02 [FValue (VString (chars "hello"))] Sample.handle <> None
  /\ cPacketizer 0x02 [FBuf (repeat 7 (64 * 1024))] Sample.handle = None.
Proof.
  intros lib. split.
  - intros E. refine (Nat.lt_irrefl 0 _).
    apply (packet_fits_or_exits (H := lib) (H1 := Toy.laws) 0x02 [FValue (VString (chars "hello"))] Sample.handle) in E.
    + change (List.length (payload _ _)) with 7%nat in E. lia.
    + exact Sample.handle_is_ok.
    + split; [discriminate | reflexivity].
    + apply Forall_singleton. split; [repeat constructor; lia | reflexivity].
  - apply (packet_fits_or_exits (H := lib) (H1 := Toy.laws)).
    + exact Sample.handle_is_ok.
    + split; [discriminate | reflexivity].
    + apply Forall_singleton. apply Forall_forall. intros x Hx. apply list_elem_of_In, repeat_spec in Hx. subst. split; [discriminate | reflexivity].
    + unfold payload, body. rewrite length_app. cbn [map concat field_bytes]. rewrite app_nil_r, repeat_length.
      change (List.length (varint 2)) with 1%nat. lia.
Defined.

Example silent_client_witness :
  let _ := Toy.lib in let _ := Sample.keys in
  exists c1 out1, run_handle Sample.fresh (map OpTick (repeat 7 600)) Sample.login = Some (c1, out1)
    /\ m_HasSentDC c1 = false
    /\ exists c2 out2, ServerTick Sample.fresh 8 c1 = Some (c2, out2)
    /\ exists c3 out3, ServerTick Sample.fresh 9 c2 = Some (c3, out3) /\ link_data out3 = m_OutgoingData c2
    /\ exists c4 out4, run_handle Sample.fresh (map OpTick [10; 11]) c3 = Some (c4, out4)
      /\ link_data out4 = [] /\ m_HasSentDC c4 = true /\ m_Link c4 = true /\ IsDestroyed c4 = false.
Proof.
  intros lib keys.
  destruct (silent_client (H := lib) (H1 := Toy.laws) Sample.fresh (repeat 7 600) 8 9 [10; 11] Sample.login
    Sample.login_ok eq_refl eq_refl eq_refl eq_refl (Nat.le_refl 600)) as (c1 & o1 & E1 & Hd1 & _ & _ & Hrest).
  destruct (Hrest eq_refl) as (c2 & o2 & E2 & _ & c3 & o3 & E3 & Hl3 & c4 & o4 & E4 & H4).
  exists c1, o1. split; [exact E1|]. split; [exact Hd1|]. exists c2, o2. split; [exact E2|].
  exists c3, o3. split; [exact E3|]. split; [exact Hl3|]. exists c4, o4. split; [exact E4 | exact H4].
Defined.

(** 600 encrypted bytes, which are received in two chunks: four packets of the login state
    with wrong contents, and the beginning of a fifth. *)
Module Encrypted.
Definition plain_bytes : list Z := take 600 (concat (repeat (127 :: repeat 1 127) 5)).
Definition bytes : list Z :=
  match @Encryptor_ProcessData Toy.lib plain_bytes Sample.cipher with Some (es, _) => es | None => [] end.

Definition start : cClientHandle :=
  (on_protocol (fun p => p <| m_IsEncrypted := true |>) Sample.login) <| m_IncomingData := bytes |>.

Lemma start_ok : handle_ok start.
Proof.
  destruct Sample.login_ok. split; try assumption. apply forallb_bytes. vm_compute. reflexivity.
Qed.

Lemma start_short : let _ := Toy.lib in let _ := Sample.keys in short_input Sample.fresh 9 start.
Proof.
  intros lib keys. unfold short_input. change (m_IsEncrypted _) with true. cbv iota.
  assert (Ec : chunks (m_IncomingData start) = [take 512 bytes; drop 512 bytes]) by (vm_compute; reflexivity).
  rewrite Ec. apply (short_two (H := lib) (H0 := keys) (H1 := Toy.laws) (H2 := Sample.keys_ok) Sample.fresh Sample.fresh_length).
  - destruct start_ok. split; assumption || constructor.
  - apply rep_ctor, Sample.fresh_length.
  - apply forallb_bytes. vm_compute. reflexivity.
  - vm_compute. reflexivity.
  - vm_compute. reflexivity.
Qed.
End Encrypted.

Example tick_survives_witness :
  let _ := Toy.lib in let _ := Sample.keys in
  (exists c' out, ServerTick Sample.fresh 9 (Sample.login <| m_IncomingData := [3; 1; 200; 5; 0; 9; 255] |>) = Some (c', out)
    /\ handle_ok c')
  /\ exists c' out, ServerTick Sample.fresh 9 Encrypted.start = Some (c', out) /\ handle_ok c'.
Proof.
  intros lib keys. split.
  - refine (tick_survives (H := lib) (H1 := Toy.laws) (H2 := Sample.keys_ok) Sample.fresh Sample.fresh_length 9
      (Sample.login <| m_IncomingData := [3; 1; 200; 5; 0; 9; 255] |>) _ _).
    + destruct Sample.login_ok. split; try assumption. repeat constructor; lia.
    + exists []. split; [apply rep_ctor; apply Sample.fresh_length|].
      intros k. do 8 (destruct k as [|k]; [simpl; lia|]). simpl. lia.
  - refine (tick_survives (H := lib) (H1 := Toy.laws) (H2 := Sample.keys_ok) Sample.fresh Sample.fresh_length 9
      Encrypted.start Encrypted.start_ok Encrypted.start_short).
Defined.
