(* ===== verification/ServerSession.v ===== *)
(** * ServerSession: what a client handle does with well-formed packets

    For every packet of the protocol: delivered in any pieces, over a plain or an encrypted
    connection, with a tick after every piece, it makes the handle do exactly what the
    packet says.  The states of the handle that matter are described by [at_server]: all
    members but the buffers, the clock of pings and what is queued to be sent. *)

From Stdlib Require Import Ascii String.
From S2P Require Import Prelude Bytes StringUtils ByteBuffer Cipher Framing Packetizer Messages Receiver ClientHandle HandleFacts.
#[local] Open Scope act_scope.

Definition decryptor (c : cClientHandle) : stream :=
  if m_IsEncrypted (m_Protocol c) then Some (m_Decryptor (m_Protocol c)) else None.
Definition encryptor (c : cClientHandle) : stream :=
  if m_IsEncrypted (m_Protocol c) then Some (m_Encryptor (m_Protocol c)) else None.

Record at_server (id addr : Z) (ip : AString) (ps : Z) (ds : stream) (st : eState) (c : cClientHandle) : Prop := {
  as_ok : handle_ok c;
  as_id : m_UniqueID c = id;
  as_this : this c = addr;
  as_ip : m_IPString c = ip;
  as_ps : p_State (m_Protocol c) = ps;
  as_ds : decryptor c = ds;
  as_st : m_State c = st;
  as_dc : m_HasSentDC c = false;
  as_link : m_Link c = true;
  as_incoming : m_IncomingData c = []
}.

(** What is queued to be sent, where it matters. *)
Definition sends (w : option (stream * list Z)) (c : cClientHandle) : Prop :=
  match w with
  | Some (es, out) => encryptor c = es /\ m_OutgoingData c = out
  | None => True
  end.

Section Session.
Context `{PolarSSL, ServerKeys, !BlockCipher, !KeysOk}.
Context (fresh : nat -> list Z) (fresh_length : forall n, List.length (fresh n) = n).

Definition pushed (data : list Z) (w : option (stream * list Z)) : option (stream * list Z) :=
  '(es, out) ← w; '(b, es) ← encrypt es data; Some (es, out ++ b).

(** ** Sending *)

Lemma sent_at data id addr ip ps ds st w c c' :
  sent data c c' -> at_server id addr ip ps ds st c -> sends w c ->
  at_server id addr ip ps ds st c' /\ sends (pushed data w) c'.
Proof.
  intros Hs [Hok Hid Hthis Hip Hps Hds Hst Hdc Hlink Hin] Hw. pose proof (sent_ok _ _ _ Hok Hs) as Hok'.
  destruct Hs as (lb & ob & es & e & Ee & -> & _). unfold queued in *. unfold encoded, decryptor, encryptor in *.
  destruct c as [ip0 un0 [ob0 lb0 s0 rc0 enc0 d0 e0] in0 out0 dc]. cbn in Hdc. subst dc.
  split; [split; first [assumption | reflexivity]|].
  unfold pushed. destruct w as [[es1 out1]|]; [|exact I]. destruct Hw as [<- <-]. cbn [option_bind mbind] in *.
  unfold encryptor at 1. cbn [m_Protocol m_IsEncrypted m_Encryptor] in *. destruct enc0; cbn [encrypt].
  - rewrite Ee. split; reflexivity.
  - injection Ee as <- <-. split; reflexivity.
Qed.

Lemma packet_at t fs id addr ip ps ds st w c :
  at_server id addr ip ps ds st c -> sends w c ->
  in_width 32 t -> Forall field_ok fs -> (5 + foldr Nat.add 0 (map field_size fs) <= 64 * 1024)%nat ->
  exists c', cPacketizer t fs c = Some (c', []) /\ at_server id addr ip ps ds st c' /\ sends (pushed (frame (payload t fs)) w) c'.
Proof.
  intros Ha Hw Ht Hfs Hl. destruct (cPacketizer_spec t fs c) as (c' & E & Hs); try assumption.
  - apply Ha.
  - etransitivity; [apply payload_length; assumption | exact Hl].
  - exists c'. split; [exact E|]. eapply sent_at; eassumption.
Qed.

(** ** The packets of a client *)

(** What delivering [p] to a handle at (id, addr, ip, ps, st) with [w] to send does. *)
Definition served (now : Z) (p : list Z) (id addr : Z) (ip : AString) (ps : Z) (st : eState) (w : option (stream * list Z))
    (reqs : list request) (ps' : Z) (key : option (list Z)) (st' : eState) (w' : option (stream * list Z)) : Prop :=
  forall ds c, at_server id addr ip ps ds st c -> sends w c ->
  exists c' ds', deliver fresh (HandlePacket now) PacketError p c = Some (true, c', reqs)
    /\ ds' = match key with None => ds | Some k => keyed k end
    /\ at_server id addr ip ps' ds' st' c' /\ sends w' c'.

Lemma served_by h now t fs id addr ip ps st w reqs ps' key st' w' :
  in_width 32 t -> Forall field_ok fs ->
  (forall c bb, p_State (m_Protocol c) = ps -> HandlePacket now bb t c = understood h bb c) ->
  (forall ds c, at_server id addr ip ps ds st c -> sends w c ->
   exists c' ds', handler_spec h (body fs) c c' reqs
    /\ ds' = match key with None => ds | Some k => keyed k end
    /\ at_server id addr ip ps' ds' st' c' /\ sends w' c') ->
  served now (payload t fs) id addr ip ps st w reqs ps' key st' w'.
Proof.
  intros Ht Hfs Hh Hs ds c Ha Hw. destruct (Hs ds c Ha Hw) as (c' & ds' & Hspec & Hrest). exists c', ds'. split; [|exact Hrest].
  eapply deliver_packet; try eassumption. intros bb. apply Hh, Ha.
Qed.

Lemma at_protocol_state n id addr ip ps ds st c :
  at_server id addr ip ps ds st c -> at_server id addr ip n ds st (on_protocol (fun p => p <| p_State := n |>) c).
Proof. intros [[] ? ? ? ? ? ? ? ? ?]. split; try assumption; [split; assumption | reflexivity]. Qed.

Lemma mcu_ok : value_typed (VString (chars "mcu")).
Proof. split; [repeat constructor; lia | reflexivity]. Qed.

Lemma served_StatusRequest now server port id addr ip st w :
  value_typed (VString server) -> num_range Int32 port -> bytes_ok ip -> (List.length ip <= 1000)%nat ->
  served now (StatusRequest_packet server port 2) id addr ip 1 st w [] 2 None st
    (pushed (frame (StatusReply_packet 2 ip)) w).
Proof.
  intros Hs Hport Hip Hl. assert (Hstate : num_range Int32 2) by (split; [discriminate | reflexivity]). assert (Hm := mcu_ok).
  apply (served_by HandlePacketStatusRequest); [split; lia | repeat (constructor; [assumption|]); constructor | |].
  { intros c bb E. unfold HandlePacket. rewrite E. reflexivity. }
  intros ds c Ha Hw.
  pose proof (at_protocol_state 2 _ _ _ _ _ _ _ Ha) as Ha2.
  set (c2 := on_protocol (fun p => p <| p_State := 2 |>) c) in *.
  destruct (packet_at 0 [FValue (VNum Int32 2); FValue (VBool true); FValue (VBool true); FValue (VString ip)]
    _ _ _ _ _ _ w c2 Ha2 Hw) as (c3 & E & Ha3 & Hw3).
  { split; lia. }
  { repeat (constructor; [first [assumption | exact I | split; [assumption | lia]]|]). constructor. }
  { cbn [foldr map field_size]. lia. }
  exists c3, ds. split; [|auto].
  unfold body. cbn [map concat field_bytes].
  apply (spec_read _ _ _ (chars "mcu")); [apply yields_string, Hm|].
  apply (spec_read _ _ _ server); [apply yields_string, Hs|].
  apply (spec_read _ _ _ port); [apply (yields_num Int32), Hport|].
  apply (spec_read _ _ _ 2); [apply (yields_num Int32), Hstate|].
  apply spec_finish. rewrite bool_decide_eq_true_2 by reflexivity. cbn [negb orb Z.ltb Z.compare].
  change (2 <? 1) with false. change (2 <? 2) with false. cbn [orb].
  unfold andThen, modify. cbn [option_bind mbind]. fold c2. unfold on_state.
  rewrite (as_ip _ _ _ _ _ _ _ Ha2), (as_ps _ _ _ _ _ _ _ Ha2), E. reflexivity.
Qed.

Lemma served_LoginStart now id addr ip st w :
  served now LoginStart_packet id addr ip 2 st w [] 2 None st (pushed (frame (EncryptionRequest_packet GetServerID GetPublicKeyDER addr)) w).
Proof.
  apply (served_by HandlePacketLoginStart); [split; lia | constructor | |].
  { intros c bb E. unfold HandlePacket. rewrite E. reflexivity. }
  intros ds c Ha Hw. destruct server_id_ok as [Hs Hsl]. destruct public_key_ok as [Hk Hkl].
  destruct (packet_at 1 [FValue (VString GetServerID);
             FValue (VNum Int16 (to_signed 16 (u16 (Z.of_nat (List.length GetPublicKeyDER)))));
             FBuf GetPublicKeyDER; FValue (VNum Int16 4); FValue (VNum Int32 (to_signed 32 addr))]
    _ _ _ _ _ _ w c Ha Hw) as (c3 & E & Ha3 & Hw3).
  { split; lia. }
  { repeat (constructor; [first [exact Hk | split; [exact Hs | lia] | apply (to_signed_range 16); lia
    | apply (to_signed_range 32); lia | split; [discriminate | reflexivity]]|]). constructor. }
  { cbn [foldr map field_size]. lia. }
  exists c3, ds. split; [|auto]. unfold body. cbn [map concat field_bytes]. apply spec_finish. unfold on_state.
  rewrite (as_this _ _ _ _ _ _ _ Ha), E. reflexivity.
Qed.

Lemma served_LoginInfo now user id addr ip st w :
  value_typed (VString user) ->
  served now (LoginInfo_packet user) id addr ip 2 st w [Authenticator_Authenticate id user user] 2 None csAuthenticating w.
Proof.
  intros Hu. apply (served_by HandlePacketLoginInfo); [split; lia | apply Forall_singleton; exact Hu | |].
  { intros c bb E. unfold HandlePacket. rewrite E. reflexivity. }
  intros ds c Ha Hw. exists (c <| m_State := csAuthenticating |>), ds. split_and!.
  - unfold body. cbn [map concat field_bytes]. apply (spec_read _ _ _ user); [apply yields_string, Hu|].
    apply spec_finish. rewrite <- (as_id _ _ _ _ _ _ _ Ha). reflexivity.
  - reflexivity.
  - destruct Ha as [[] ? ? ? ? ? ? ? ? ?]. split; try assumption; [split; assumption | reflexivity].
  - destruct w as [[es out]|]; exact Hw.
Qed.

Lemma served_request (r : AString -> Z -> request) h now t ch id addr ip st w :
  (forall c bb, p_State (m_Protocol c) = 3 -> HandlePacket now bb t c = understood h bb c) -> in_width 32 t ->
  h = HANDLE_READ ReadVarUTF8String (fun channelName => finish (request_id (r channelName))) ->
  value_typed (VString ch) ->
  served now (payload t [FValue (VString ch)]) id addr ip 3 st w [r ch id] 3 None st w.
Proof.
  intros Hh Ht -> Hch. eapply served_by; [exact Ht | apply Forall_singleton; exact Hch | exact Hh |].
  intros ds c Ha Hw. exists c, ds. split_and!; [|reflexivity|exact Ha|exact Hw].
  unfold body. cbn [map concat field_bytes]. apply (spec_read _ _ _ ch); [apply yields_string, Hch|].
  apply spec_finish. rewrite <- (as_id _ _ _ _ _ _ _ Ha). reflexivity.
Qed.

Lemma served_JoinRoom now ch id addr ip st w :
  value_typed (VString ch) ->
  served now (JoinRoom_packet ch) id addr ip 3 st w [Manager_doUserJoinChannel id ch] 3 None st w.
Proof.
  apply (served_request (fun ch id => Manager_doUserJoinChannel id ch) HandlePacketJoinRoom); [|split; lia | reflexivity].
  intros c bb E. unfold HandlePacket. rewrite E. reflexivity.
Qed.

Lemma served_LeftRoom now ch id addr ip st w :
  value_typed (VString ch) ->
  served now (LeftRoom_packet ch) id addr ip 3 st w [Manager_doUserLeftChannel id ch] 3 None st w.
Proof.
  apply (served_request (fun ch id => Manager_doUserLeftChannel id ch) HandlePacketLeftRoom); [|split; lia | reflexivity].
  intros c bb E. unfold HandlePacket. rewrite E. reflexivity.
Qed.

Lemma served_MsgRoom now ch target msg id addr ip st w :
  value_typed (VString ch) -> in_width 32 target -> value_typed (VString msg) ->
  served now (MsgRoom_packet ch target msg) id addr ip 3 st w [Manager_OnMsgFromPeer ch id (to_signed 32 target) msg] 3 None st w.
Proof.
  intros Hch Ht Hmsg. apply (served_by HandlePacketMsgRoom); [split; lia | repeat (constructor; [assumption|]); constructor | |].
  { intros c bb E. unfold HandlePacket. rewrite E. reflexivity. }
  intros ds c Ha Hw. exists c, ds. split_and!; [|reflexivity|exact Ha|exact Hw].
  unfold body. cbn [map concat field_bytes]. apply (spec_read _ _ _ ch); [apply yields_string, Hch|].
  apply (spec_read _ _ _ target); [apply yields_varint32, Ht|].
  apply (spec_read _ _ _ msg); [apply yields_string, Hmsg|].
  apply spec_finish. rewrite <- (as_id _ _ _ _ _ _ _ Ha). reflexivity.
Qed.

Lemma at_encrypted k id addr ip ps ds st es out c :
  at_server id addr ip ps ds st c -> sends (Some (es, out)) c ->
  exists c', StartEncryption k c = Some (c', []) /\ at_server id addr ip ps (keyed k) st c' /\ sends (Some (keyed k, out)) c'.
Proof.
  intros [[] ? ? ? ? ? ? ? ? ?] [_ Ho]. eexists. split; [reflexivity|].
  split; [split; try assumption; [split; assumption | reflexivity] | split; [reflexivity | exact Ho]].
Qed.

Lemma served_EncryptionResponse now EncKey EncNonce key id addr ip st es out :
  bytes_ok EncKey -> Z.of_nat (List.length EncKey) <= MAX_ENC_LEN ->
  bytes_ok EncNonce -> Z.of_nat (List.length EncNonce) <= MAX_ENC_LEN ->
  in_width 32 addr ->
  RsaPrivateKey_Decrypt EncNonce MAX_ENC_LEN = Some (le_bytes 4 addr) ->
  RsaPrivateKey_Decrypt EncKey MAX_ENC_LEN = Some key -> List.length key = 16%nat ->
  served now (EncryptionResponse_packet EncKey EncNonce) id addr ip 2 st (Some (es, out)) [] 2 (Some key) st
    (pushed (frame LoginAllow_packet) (Some (keyed key, out))).
Proof.
  unfold MAX_ENC_LEN. intros Hk Hkl Hn Hnl Haddr En Ek Hlen.
  apply (served_by HandlePacketLoginEncryptionResponse); [split; lia | | |].
  { repeat (constructor; [first [assumption | split; simpl; lia]|]). constructor. }
  { intros c bb E. unfold HandlePacket. rewrite E. reflexivity. }
  intros ds c Ha Hw. destruct (at_encrypted key _ _ _ _ _ _ _ _ c Ha Hw) as (c1 & E1 & Ha1 & Hw1).
  destruct (packet_at 2 [] _ _ _ _ _ _ _ c1 Ha1 Hw1) as (c2 & E2 & Ha2 & Hw2);
    [split; lia | constructor | cbn [foldr map]; lia|].
  exists c2, (keyed key). split; [|auto]. unfold body. cbn [map concat field_bytes].
  apply (spec_read _ _ _ (Z.of_nat (List.length EncKey))); [apply (yields_num Int16); split; simpl; lia|].
  unfold MAX_ENC_LEN. rewrite (proj2 (Z.ltb_ge 512 _)) by exact Hkl.
  apply (spec_read _ _ _ EncKey).
  { unfold ReadString_count. rewrite (proj2 (Z.ltb_ge _ 0)), Nat2Z.id by lia. apply yields_raw. }
  apply (spec_read _ _ _ (Z.of_nat (List.length EncNonce))); [apply (yields_num Int16); split; simpl; lia|].
  rewrite (proj2 (Z.ltb_ge 512 _)) by exact Hnl.
  apply (spec_read _ _ _ EncNonce).
  { unfold ReadString_count. rewrite (proj2 (Z.ltb_ge _ 0)), Nat2Z.id by lia. apply yields_raw. }
  apply spec_finish. unfold check_keys, MAX_ENC_LEN. rewrite En, Ek.
  rewrite length_le_bytes, Hlen, (as_this _ _ _ _ _ _ _ Ha), le_val_le_bytes.
  change (256 ^ Z.of_nat 4) with (2 ^ 32). rewrite Z.mod_small, Z.eqb_refl by exact Haddr. cbn [Nat.eqb negb].
  unfold andThen. rewrite E1. cbn [option_bind mbind]. rewrite E2. reflexivity.
Qed.

(** ** One packet in pieces *)

Lemma at_received rcv l id addr ip ps ds st c :
  represents rcv {| consumed := []; pending := l; capacity := 64 * 1024 |} ->
  at_server id addr ip ps ds st c ->
  at_server id addr ip ps ds st (on_protocol (fun p => p <| m_ReceivedData := rcv |>) c).
Proof.
  intros R [Hok ? ? ? ? ? ? ? ? ?]. split; try assumption. eapply with_received; eassumption.
Qed.

Lemma at_decryptor d d' id addr ip ps st c :
  at_server id addr ip ps (Some d) st c -> at_server id addr ip ps (Some d') st (on_protocol (fun p => p <| m_Decryptor := d' |>) c).
Proof.
  intros [[] ? ? ? ? Hds ? ? ? ?]. split; try assumption; [split; assumption|]. unfold decryptor in *.
  destruct c as [ip0 un0 [ob0 lb0 s0 rc0 enc0 d0 e0] in0 out0 dc]. cbn [m_Protocol m_IsEncrypted m_Decryptor] in Hds.
  destruct enc0; [reflexivity | discriminate].
Qed.

(** ** A tick *)

Definition is_call (r : request) : bool := match r with Link_Send _ => false | _ => true end.

(** The requests to the other parts of the server. *)
Definition calls (out : list request) : list request := List.filter is_call out.

Lemma calls_app a b : calls (a ++ b) = calls a ++ calls b.
Proof. apply List.filter_app. Qed.

Definition after_tick (st : eState) : eState := if bool_decide (st = csAuthenticated) then csWorking else st.

Lemma queued_received es e c : m_ReceivedData (m_Protocol (queued es e c)) = m_ReceivedData (m_Protocol c).
Proof. unfold queued. destruct (m_HasSentDC _); reflexivity. Qed.

Lemma sent_waiting data c c' l : sent data c c' -> waiting c l -> waiting c' l.
Proof. intros (lb & ob & es & e & _ & -> & _) Hl. unfold waiting. rewrite queued_received. exact Hl. Qed.

(** A ping changes nothing but the encryptor and the queue. *)
Lemma send_ping_at now id addr ip ps ds st l c :
  at_server id addr ip ps ds st c -> waiting c l ->
  exists c', send_ping now c = Some (c', []) /\ at_server id addr ip ps ds st c' /\ waiting c' l
    /\ m_TicksSinceLastPacket c' = m_TicksSinceLastPacket c /\ m_PingStartTime c <= m_PingStartTime c'
    /\ (st <> csWorking \/ now < m_PingStartTime c + PING_TIME_MS -> c' = c).
Proof.
  intros Ha Hl. unfold send_ping. destruct (bool_decide (m_State c = csWorking) && _) eqn:Eb.
  2:{ exists c. split_and!; auto. lia. }
  apply andb_true_iff in Eb as [Eb%bool_decide_eq_true Ed%Z.leb_le]. rewrite (as_st _ _ _ _ _ _ _ Ha) in Eb.
  set (c1 := (c <| m_PingID ::= Z.succ |>) <| m_PingStartTime := now |>).
  assert (Ha1 : at_server id addr ip ps ds st c1) by (destruct Ha as [[] ? ? ? ? ? ? ? ? ?]; split; try assumption; split; assumption).
  unfold SendKeepAlive. assert (Hp : m_PingStartTime c <= now) by (unfold PING_TIME_MS in Ed; lia).
  assert (Hno : st <> csWorking \/ now < m_PingStartTime c + PING_TIME_MS -> forall x : cClientHandle, x = c) by (intros [Hn|Hn]; [contradiction | lia]).
  destruct (negb _); [exists c1; split_and!; auto|].
  destruct (cPacketizer_spec 0 [FValue (VVarInt32 (u32 (m_PingID c1)))] c1) as (c2 & E2 & Hs); [apply Ha1 | split; lia | | |].
  { apply Forall_singleton, (wrap_bound 32). lia. }
  { etransitivity; [apply payload_length; [split; lia | apply Forall_singleton, (wrap_bound 32); lia] | cbn [foldr map field_size]; lia]. }
  exists c2. destruct (sent_at _ _ _ _ _ _ _ None _ _ Hs Ha1 I) as [Ha2 _].
  split_and!; [exact E2 | exact Ha2 | eapply sent_waiting; [exact Hs | exact Hl] | | | auto].
  - rewrite (calm_ticks _ _ _ (sent_calm _ _ _ Hs)). reflexivity.
  - pose proof (calm_ping _ _ _ (sent_calm _ _ _ Hs)) as Hp2. change (now <= m_PingStartTime c2) in Hp2. lia.
Qed.

Lemma tick_rest_at now id addr ip ps ds st l w c :
  at_server id addr ip ps ds st c -> waiting c l -> sends w c -> m_TicksSinceLastPacket c < 600 ->
  exists c' out, (send_queued;; modify (fun c => if bool_decide (m_State c = csAuthenticated) then c <| m_State := csWorking |> else c);;
      send_ping now;; count_tick) c = Some (c', out)
    /\ at_server id addr ip ps ds (after_tick st) c' /\ waiting c' l /\ calls out = []
    /\ m_TicksSinceLastPacket c' = m_TicksSinceLastPacket c + 1 /\ m_PingStartTime c <= m_PingStartTime c'
    /\ match w with
       | Some (es, o) => out = (if (List.length o =? 0)%nat then [] else [Link_Send o])
           /\ (after_tick st <> csWorking \/ now < m_PingStartTime c + PING_TIME_MS -> sends (Some (es, [])) c')
       | None => True
       end.
Proof.
  intros Ha Hl Hw Ht.
  set (c0 := c <| m_OutgoingData := [] |>).
  set (o1 := if (List.length (m_OutgoingData c) =? 0)%nat then [] else [Link_Send (m_OutgoingData c)]).
  assert (E1 : send_queued c = Some (c0, o1)).
  { unfold send_queued, o1. fold c0. change (m_Link c0) with (m_Link c). rewrite (as_link _ _ _ _ _ _ _ Ha). cbn [andb].
    destruct (_ =? 0)%nat; reflexivity. }
  set (c1 := if bool_decide (m_State c0 = csAuthenticated) then c0 <| m_State := csWorking |> else c0).
  assert (Ha1 : at_server id addr ip ps ds (after_tick st) c1 /\ waiting c1 l /\ m_TicksSinceLastPacket c1 = m_TicksSinceLastPacket c
            /\ m_OutgoingData c1 = [] /\ encryptor c1 = encryptor c /\ m_PingStartTime c1 = m_PingStartTime c).
  { unfold c1, after_tick. change (m_State c0) with (m_State c). rewrite (as_st _ _ _ _ _ _ _ Ha).
    destruct (bool_decide (st = csAuthenticated)); (split; [|split_and!; first [exact Hl | reflexivity]]);
      destruct Ha as [[] ? ? ? ? ? ? ? ? ?]; split; first [assumption | reflexivity | split; assumption]. }
  destruct Ha1 as (Ha1 & Hl1 & Ht1 & Ho1 & He1 & Hp1).
  destruct (send_ping_at now _ _ _ _ _ _ l c1 Ha1 Hl1) as (c2 & E2 & Ha2 & Hl2 & Ht2 & Hp2 & Hsame).
  set (c3 := c2 <| m_TicksSinceLastPacket ::= Z.succ |>).
  assert (E3 : count_tick c2 = Some (c3, [])).
  { unfold count_tick. fold c3. rewrite (proj2 (Z.ltb_ge 600 _)); [reflexivity|].
    unfold c3. change (Z.succ (m_TicksSinceLastPacket c2) <= 600). lia. }
  exists c3, o1. split_and!.
  - unfold andThen, modify. rewrite E1. cbn [option_bind mbind]. fold c1. rewrite E2. cbn [option_bind mbind]. rewrite E3.
    cbn [option_bind mbind]. rewrite !app_nil_r. reflexivity.
  - destruct Ha2 as [[] ? ? ? ? ? ? ? ? ?]. split; first [assumption | split; assumption].
  - exact Hl2.
  - unfold o1. destruct (_ =? 0)%nat; reflexivity.
  - unfold c3. change (Z.succ (m_TicksSinceLastPacket c2) = m_TicksSinceLastPacket c + 1). lia.
  - unfold c3. change (m_PingStartTime c <= m_PingStartTime c2). lia.
  - destruct w as [[es o]|]; [|exact I]. destruct Hw as [Hes <-]. split; [reflexivity|]. intros Hst.
    rewrite <- Hp1 in Hst. specialize (Hsame Hst). subst c2. split; [change (encryptor c1 = es); congruence | exact Ho1].
Qed.

Section Packet.
Context (p : list Z) (id addr : Z) (ip : AString) (ps ps' : Z) (st st' : eState) (key : option (list Z)).
Context (w w' : option (stream * list Z)) (reqs : list request) (T : Z).
Hypothesis packet_framable : framable p.
Hypothesis packet_fits : (List.length (frame p) <= 64 * 1024)%nat.
Hypothesis packet_served : forall now, served now p id addr ip ps st w reqs ps' key st' w'.

(** No ping is due before [T], unless it does not matter. *)
Definition still (c : cClientHandle) : Prop := w = None \/ st <> csWorking \/ T <= m_PingStartTime c + PING_TIME_MS.
Definition early (now : Z) : Prop := w = None \/ st <> csWorking \/ now < T.

Definition attentive (c : cClientHandle) : Prop := m_TicksSinceLastPacket c = 0 /\ still c.

Definition next_stream (ds : stream) : stream := match key with None => ds | Some k => keyed k end.

(** While the packet arrives, and after it; during a tick. *)
Definition At_part (ds : stream) (l : list Z) (c : cClientHandle) : Prop :=
  at_server id addr ip ps ds st c /\ waiting c l /\ sends w c /\ attentive c.
Definition At_end (ds : stream) (c : cClientHandle) : Prop :=
  at_server id addr ip ps' (next_stream ds) st' c /\ waiting c [] /\ sends w' c /\ attentive c.

Lemma still_attentive now p0 c c' out b :
  handle_ok c -> bytes_ok p0 -> deliver fresh (HandlePacket now) PacketError p0 c = Some (b, c', out) ->
  attentive c -> attentive c'.
Proof.
  intros Hc Hok E. pose proof (deliver_fine fresh fresh_length now p0 c Hc Hok) as Hd. rewrite E in Hd.
  destruct Hd as [_ Hd]. intros [Ht Hs]. split; [rewrite (calm_ticks _ _ _ Hd); exact Ht|].
  pose proof (calm_ping _ _ _ Hd). unfold still in *. destruct Hs as [Hs|[Hs|Hs]]; auto. right; right. lia.
Qed.

Lemma add_part now ds l x v c :
  At_part ds l c -> frame p = (l ++ x) ++ v -> v <> [] ->
  exists c', protocol_AddReceivedData fresh now x c = Some (c', []) /\ At_part ds (l ++ x) c'.
Proof.
  intros (Ha & Hl & Hw & Ht) E Hv.
  assert (Hn : (List.length (l ++ x) <= 64 * 1024)%nat).
  { rewrite E in packet_fits. rewrite length_app in packet_fits. lia. }
  destruct (hears_part fresh (HandlePacket now) PacketError (fun _ => false) fresh_length PacketBufferFull p l x v
    (m_ReceivedData (m_Protocol c)) (64 * 1024) c packet_framable E Hv Hn Hl) as (rcv' & E' & R').
  eexists. unfold protocol_AddReceivedData. rewrite E'. cbn [option_bind mbind]. split; [reflexivity|].
  split_and!; [eapply at_received; eassumption | exact R' | destruct w as [[es out]|]; exact Hw | exact Ht].
Qed.

Lemma add_all now ds l x c :
  At_part ds l c -> l ++ x = frame p ->
  exists c', protocol_AddReceivedData fresh now x c = Some (c', reqs) /\ At_end ds c'.
Proof.
  intros (Ha & Hl & Hw & Ht) E. destruct (packet_served now ds c Ha Hw) as (c1 & ds' & Ed & -> & Ha1 & Hw1).
  pose proof (still_attentive now p c c1 reqs true (as_ok _ _ _ _ _ _ _ Ha) (proj1 packet_framable) Ed Ht) as Ht1.
  destruct (hears_all fresh (HandlePacket now) PacketError (fun _ => false) fresh_length PacketBufferFull p l x
    (m_ReceivedData (m_Protocol c)) (64 * 1024) c true c1 reqs packet_framable E packet_fits Hl Ed eq_refl) as (rcv' & E' & R').
  eexists. unfold protocol_AddReceivedData. rewrite E'. cbn [option_bind mbind]. split; [reflexivity|].
  split_and!; [eapply at_received; eassumption | exact R' | destruct w' as [[es out]|]; exact Hw1 | exact Ht1].
Qed.

(** A chunk is added as its plain text. *)
Lemma server_chunk_decrypted now ds l x px ds' c :
  At_part ds l c -> is_Some ds -> decrypt ds x = Some (px, ds') ->
  is_Some ds' /\ exists c1, At_part ds' l c1 /\ receive_chunk fresh now x c = protocol_AddReceivedData fresh now px c1.
Proof.
  intros (Ha & Hl & Hw & Ht) [d ->] Hd. pose proof (as_ds _ _ _ _ _ _ _ Ha) as Hds. unfold decryptor in Hds.
  destruct (m_IsEncrypted (m_Protocol c)) eqn:Ee; [|discriminate]. injection Hds as Hds. cbn [decrypt] in Hd.
  apply bind_Some in Hd as ([y d1] & Hd & [= <- <-]). split; [eauto|].
  exists (on_protocol (fun p => p <| m_Decryptor := d1 |>) c). split.
  - split_and!; [eapply at_decryptor; exact Ha | exact Hl | destruct w as [[es out]|]; exact Hw | exact Ht].
  - unfold receive_chunk. rewrite Hds, Hd. cbn [option_bind mbind]. unfold andThen, modify. cbn [option_bind mbind app].
    destruct (protocol_AddReceivedData fresh now y _) as [[? ?]|]; reflexivity.
Qed.

Lemma chunk_part now ds l x px ds' v c :
  At_part ds l c /\ is_Some ds -> decrypt ds x = Some (px, ds') -> frame p = (l ++ px) ++ v -> v <> [] ->
  exists c' o, receive_chunk fresh now x c = Some (c', o) /\ o = [] /\ At_part ds' (l ++ px) c' /\ is_Some ds'.
Proof.
  intros [Ha Hs] Hd E Hv. destruct (server_chunk_decrypted now _ _ _ _ _ _ Ha Hs Hd) as (Hs' & c1 & Ha1 & ->).
  destruct (add_part now ds' l px v c1 Ha1 E Hv) as (c2 & E2 & Ha2). eauto 6.
Qed.

Lemma chunk_all now ds l x px ds' c :
  At_part ds l c /\ is_Some ds -> decrypt ds x = Some (px, ds') -> l ++ px = frame p ->
  exists c' o, receive_chunk fresh now x c = Some (c', o) /\ o = reqs /\ At_end ds' c'.
Proof.
  intros [Ha Hs] Hd E. destruct (server_chunk_decrypted now _ _ _ _ _ _ Ha Hs Hd) as (Hs' & c1 & Ha1 & ->).
  destruct (add_all now ds' l px c1 Ha1 E) as (c2 & E2 & Ha2). eauto 6.
Qed.

Lemma data_part now ds l x px ds' v c :
  At_part ds l c -> decrypt ds x = Some (px, ds') -> frame p = (l ++ px) ++ v -> v <> [] ->
  exists c', DataReceived fresh now x c = Some (c', []) /\ At_part ds' (l ++ px) c'.
Proof.
  intros Hat Hd E Hv. pose proof (as_ds _ _ _ _ _ _ _ (proj1 Hat)) as Hds. unfold DataReceived, decryptor in *.
  destruct (m_IsEncrypted (m_Protocol c)) eqn:Ee.
  - destruct (in_chunks_pieces 512 (receive_chunk fresh now) x ltac:(lia)) as (pieces & Ex & Hp & ->).
    destruct (feed_part (receive_chunk fresh now) (fun x => x) (fun x => x <> []) p (fun ds l c => At_part ds l c /\ is_Some ds) (fun o => o = [])
      eq_refl ltac:(intros ? ? -> ->; reflexivity)
      (fun ds l t px ds' v s Ha _ Hd E Hv => chunk_part now ds l t px ds' v s Ha Hd E Hv)
      pieces ds l px ds' v c) as (c' & o & E' & -> & [Ha' _]); try assumption.
    + split; [exact Hat | rewrite <- Hds; eauto].
    + eapply nonempty_pieces, Hp.
    + rewrite map_id, Ex. exact Hd.
    + eauto.
  - subst ds. cbn in Hd. injection Hd as <- <-. eapply add_part; eassumption.
Qed.

Lemma data_all now ds l x px ds' c :
  At_part ds l c -> x <> [] -> decrypt ds x = Some (px, ds') -> l ++ px = frame p ->
  exists c', DataReceived fresh now x c = Some (c', reqs) /\ At_end ds' c'.
Proof.
  intros Hat Hx Hd E. pose proof (as_ds _ _ _ _ _ _ _ (proj1 Hat)) as Hds. unfold DataReceived, decryptor in *.
  destruct (m_IsEncrypted (m_Protocol c)) eqn:Ee.
  - destruct (in_chunks_pieces 512 (receive_chunk fresh now) x ltac:(lia)) as (pieces & Ex & Hp & ->).
    destruct (feed_all (receive_chunk fresh now) (fun x => x) (fun x => x <> []) p (fun _ Hx => Hx) (fun ds l c => At_part ds l c /\ is_Some ds) At_end
      (fun o => o = []) (fun o => o = reqs) ltac:(intros ? ? -> ->; reflexivity)
      (fun ds l t px ds' v s Ha _ Hd E Hv => chunk_part now ds l t px ds' v s Ha Hd E Hv) (fun ds l t px ds' s Ha _ Hd E => chunk_all now ds l t px ds' s Ha Hd E)
      pieces ds l px ds' c) as (c' & o & E' & -> & Ha'); try assumption.
    + split; [exact Hat | rewrite <- Hds; eauto].
    + eapply nonempty_pieces, Hp.
    + intros ->. simpl in Ex. congruence.
    + rewrite map_id, Ex. exact Hd.
    + eauto.
  - subst ds. cbn in Hd. injection Hd as <- <-. eapply add_all; eassumption.
Qed.

(** *** A piece and the tick that handles it *)

Definition piece : Type := Z * list Z.
Definition hear (t : piece) : Act cClientHandle request := OnReceivedData t.2;; ServerTick fresh t.1.

Definition Between (ds : stream) (l : list Z) (c : cClientHandle) : Prop :=
  at_server id addr ip ps ds st c /\ waiting c l /\ sends w c /\ still c.

Lemma received_at ds l c :
  Between ds l c -> At_part ds l ((c <| m_TicksSinceLastPacket := 0 |>) <| m_IncomingData := [] |>).
Proof.
  intros (Ha & Hl & Hw & Hs). destruct Ha as [[] ? ? ? ? ? ? ? ? ?].
  split_and!; [split; first [assumption | split; first [assumption | constructor] | reflexivity] | exact Hl
    | destruct w as [[es out]|]; exact Hw | split; [reflexivity | exact Hs]].
Qed.

(** The tick before the data is handled. *)
Lemma hear_unfold t c ds l :
  Between ds l c -> t.2 <> [] ->
  hear t c = (DataReceived fresh t.1 t.2;; send_queued;;
    modify (fun c => if bool_decide (m_State c = csAuthenticated) then c <| m_State := csWorking |> else c);;
    send_ping t.1;; count_tick) ((c <| m_TicksSinceLastPacket := 0 |>) <| m_IncomingData := [] |>).
Proof.
  intros (Ha & _ & _ & _) Hx. destruct t as [now x]. cbn [fst snd] in *. unfold hear, ServerTick. cbn [fst snd].
  set (c0 := (c <| m_TicksSinceLastPacket := 0 |>) <| m_IncomingData ::= fun l => l ++ x |>).
  assert (Ei : m_IncomingData c0 = x).
  { change (m_IncomingData c ++ x = x). rewrite (as_incoming _ _ _ _ _ _ _ Ha). reflexivity. }
  assert (Er : receive_queued fresh now c0 = DataReceived fresh now x ((c <| m_TicksSinceLastPacket := 0 |>) <| m_IncomingData := [] |>)).
  { unfold receive_queued. rewrite Ei. destruct x; [contradiction|]. reflexivity. }
  assert (Ht : forall m : Act cClientHandle request, (OnReceivedData x;; m) c = m c0).
  { intros m. unfold andThen, OnReceivedData, modify. cbn [option_bind mbind]. fold c0.
    destruct (m c0) as [[c1 o1]|]; reflexivity. }
  rewrite Ht. unfold andThen. rewrite Er. reflexivity.
Qed.

(** Nothing that is received changes the name. *)
Lemma hear_user ts : forall c c' o,
  handle_ok c -> Forall (fun t => bytes_ok t.2) ts -> process_all hear ts c = Some (c', o) -> m_Username c' = m_Username c.
Proof.
  induction ts as [|t ts IH]; intros c c' o Hc Hts E; [injection E as <- _; reflexivity|].
  apply Forall_cons in Hts as [Ht Hts]. apply andThen_inv in E as (c1 & o1 & o2 & E1 & E & _).
  apply andThen_inv in E1 as (c0 & o3 & o4 & E0 & E1 & _). injection E0 as <- _.
  apply (ServerTick_ticked fresh fresh_length) in E1.
  - rewrite (IH c1 c' o2 (tick_ok _ _ _ E1) Hts E), (tick_user _ _ _ E1). reflexivity.
  - destruct Hc. split; try assumption. apply Forall_app. auto.
Qed.

Hypothesis steady : st <> csAuthenticated.
Hypothesis quiet : match w with Some (_, o) => o = [] | None => True end.
Hypothesis watched : is_Some w' -> is_Some w.
Hypothesis reqs_calls : Forall no_link reqs.

Definition heard_part (o : list request) : Prop := calls o = [] /\ (is_Some w' -> link_data o = []).
Definition heard_all (o : list request) : Prop :=
  calls o = reqs /\ match w' with Some (_, out) => link_data o = out | None => True end.

(** After the tick that handled the packet. *)
Definition Done (ds : stream) (c : cClientHandle) : Prop :=
  at_server id addr ip ps' (next_stream ds) (after_tick st') c /\ waiting c [] /\ m_TicksSinceLastPacket c = 1 /\ still c
  /\ match w' with
     | Some (es, _) => after_tick st' <> csWorking \/ st = csWorking -> sends (Some (es, [])) c
     | None => True
     end.

Lemma calls_calm out : Forall no_link out -> calls out = out.
Proof. induction 1 as [|[] out Hr _ IH]; try contradiction; simpl; f_equal; assumption. Qed.

Lemma after_steady : after_tick st = st.
Proof. unfold after_tick. rewrite bool_decide_eq_false_2 by exact steady. reflexivity. Qed.

Lemma still_later c c' : still c -> m_PingStartTime c <= m_PingStartTime c' -> still c'.
Proof. unfold still. intros [Hs|[Hs|Hs]] Hp; auto. right; right. lia. Qed.

Lemma hear_part t ds l px ds' v c :
  Between ds l c -> t.2 <> [] /\ early t.1 -> decrypt ds t.2 = Some (px, ds') -> frame p = (l ++ px) ++ v -> v <> [] ->
  exists c' o, hear t c = Some (c', o) /\ heard_part o /\ Between ds' (l ++ px) c'.
Proof.
  intros Hb [Hx He] Hd E Hv. rewrite (hear_unfold t c ds l Hb Hx).
  destruct (data_part t.1 ds l t.2 px ds' v _ (received_at ds l c Hb) Hd E Hv) as (c1 & E1 & (Ha1 & Hl1 & Hw1 & Ht1 & Hs1)).
  destruct (tick_rest_at t.1 _ _ _ _ _ _ _ w c1 Ha1 Hl1 Hw1 ltac:(lia)) as (c2 & o2 & E2 & Ha2 & Hl2 & Hc2 & Ht2 & Hp2 & Hw2).
  exists c2, o2. rewrite after_steady in Ha2, Hw2. unfold andThen in *. rewrite E1. cbn [option_bind mbind app]. rewrite E2.
  split; [reflexivity|]. split; [split; [exact Hc2|]|split_and!; [exact Ha2 | exact Hl2| |eapply still_later; eassumption]].
  - intros Hs. apply watched in Hs as [[es o] Ew]. rewrite Ew in quiet, Hw2. subst o. destruct Hw2 as [-> _]. reflexivity.
  - destruct w as [[es o]|] eqn:Ew; [|exact I]. rewrite quiet in *. apply Hw2.
    destruct Hs1 as [Hs1|[Hs1|Hs1]], He as [He|[He|He]]; try (rewrite Ew in *; discriminate); auto. right. lia.
Qed.

Lemma hear_all t ds l px ds' c :
  Between ds l c -> t.2 <> [] /\ early t.1 -> decrypt ds t.2 = Some (px, ds') -> l ++ px = frame p ->
  exists c' o, hear t c = Some (c', o) /\ heard_all o /\ Done ds' c'.
Proof.
  intros Hb [Hx He] Hd E. rewrite (hear_unfold t c ds l Hb Hx).
  destruct (data_all t.1 ds l t.2 px ds' _ (received_at ds l c Hb) Hx Hd E) as (c1 & E1 & (Ha1 & Hl1 & Hw1 & Ht1 & Hs1)).
  destruct (tick_rest_at t.1 _ _ _ _ _ _ _ w' c1 Ha1 Hl1 Hw1 ltac:(lia)) as (c2 & o2 & E2 & Ha2 & Hl2 & Hc2 & Ht2 & Hp2 & Hw2).
  exists c2, (reqs ++ o2). unfold andThen in *. rewrite E1. cbn [option_bind mbind]. rewrite E2.
  split; [reflexivity|]. split; [split|split_and!; [exact Ha2 | exact Hl2 | lia | eapply still_later; eassumption|]].
  - rewrite calls_app, Hc2, app_nil_r. apply calls_calm, reqs_calls.
  - destruct w' as [[es o]|]; [|exact I]. destruct Hw2 as [-> _]. rewrite link_data_app, (link_data_calm reqs reqs_calls).
    destruct (Nat.eqb_spec (List.length o) 0) as [Hn|Hn]; [destruct o; [reflexivity | discriminate]|].
    unfold link_data. simpl. apply app_nil_r.
  - destruct w' as [[es o]|]; [|exact I]. intros Hst. apply Hw2. destruct Hst as [Hst|Hst]; [left; exact Hst|right].
    destruct (watched ltac:(eauto)) as [w0 Ew]. rewrite Hst in *.
    destruct Hs1 as [Hs1|[Hs1|Hs1]], He as [He|[He|He]]; try congruence; try contradiction. lia.
Qed.

(** However the packet is cut into pieces, and with a tick after each. *)
Lemma packet_heard ts ds ds' c :
  Between ds [] c -> Forall (fun t => t.2 <> [] /\ early t.1) ts -> decrypt ds (concat (map snd ts)) = Some (frame p, ds') ->
  exists c' o, process_all hear ts c = Some (c', o) /\ heard_all o /\ Done ds' c'.
Proof.
  intros Hb Hts Hd.
  apply (feed_all hear snd (fun t => t.2 <> [] /\ early t.1) p (fun _ Ht => proj1 Ht) Between Done heard_part heard_all) with (ds := ds) (l := []) (px := frame p); try assumption.
  - intros a b [Ha1 Ha2] [Hb1 Hb2]. split; [rewrite calls_app, Ha1; exact Hb1|].
    destruct w' as [[es o]|]; [|exact I]. rewrite link_data_app, Ha2 by eauto. exact Hb2.
  - intros d l t. apply (hear_part t d l).
  - intros d l t. apply (hear_all t d l).
  - intros ->. apply decrypt_length in Hd. pose proof (frame_not_empty p packet_framable). simpl in Hd. lia.
  - reflexivity.
Qed.
End Packet.

(** ** What the server tells the client *)

Lemma sent_quietly c c' l data : sent data c c' -> waiting c l -> m_TicksSinceLastPacket c' = m_TicksSinceLastPacket c /\ waiting c' l.
Proof. intros Hs Hl. split; [apply (calm_ticks _ _ _ (sent_calm _ _ _ Hs)) | eapply sent_waiting; eassumption]. Qed.

(** A packet while nothing arrives. *)
Lemma told t fs id addr ip ps ds st l w c :
  at_server id addr ip ps ds st c -> waiting c l -> sends w c ->
  in_width 32 t -> Forall field_ok fs -> (5 + foldr Nat.add 0 (map field_size fs) <= 64 * 1024)%nat ->
  exists c', cPacketizer t fs c = Some (c', []) /\ at_server id addr ip ps ds st c' /\ waiting c' l
    /\ m_TicksSinceLastPacket c' = m_TicksSinceLastPacket c /\ m_Username c' = m_Username c
    /\ m_PingStartTime c <= m_PingStartTime c'
    /\ sends (pushed (frame (payload t fs)) w) c'.
Proof.
  intros Ha Hl Hw Ht Hfs Hlen. destruct (cPacketizer_spec t fs c) as (c' & E & Hs); try assumption.
  - apply Ha.
  - etransitivity; [apply payload_length; assumption | exact Hlen].
  - exists c'. destruct (sent_at _ _ _ _ _ _ _ w _ _ Hs Ha Hw) as [Ha' Hw'].
    destruct (sent_quietly _ _ _ _ Hs Hl) as [Ht' Hl']. split_and!; try assumption.
    + destruct Hs as (lb & ob & es & e & _ & -> & _). unfold queued. destruct (m_HasSentDC _); reflexivity.
    + apply (calm_ping _ _ _ (sent_calm _ _ _ Hs)).
Qed.

Lemma authenticated now name pw id addr ip ds l w c :
  at_server id addr ip 2 ds csAuthenticating c -> waiting c l -> sends w c ->
  exists c', Authenticate now name pw c = Some (c', []) /\ at_server id addr ip 3 ds csAuthenticated c' /\ waiting c' l
    /\ m_TicksSinceLastPacket c' = m_TicksSinceLastPacket c /\ m_Username c' = name
    /\ m_PingStartTime c' = now + 3 * 1000000000
    /\ sends (pushed (frame (LoginSuccess_packet id)) w) c'.
Proof.
  intros Ha Hl Hw. unfold Authenticate. rewrite (as_st _ _ _ _ _ _ _ Ha).
  rewrite bool_decide_eq_false_2 by (intros Hn; apply Hn; reflexivity).
  set (c1 := (c <| m_Username := name |>) <| m_UUID ::= fun u => if u is [] then pw else u |>).
  assert (Ha1 : at_server id addr ip 2 ds csAuthenticating c1) by (destruct Ha as [[] ? ? ? ? ? ? ? ? ?]; split; first [assumption | split; assumption]).
  assert (Hw1 : sends w c1) by (destruct w as [[es out]|]; exact Hw).
  assert (Hp : Forall field_ok [FValue (VVarInt32 (u32 id))]) by (apply Forall_singleton, (wrap_bound 32); lia).
  destruct (told 3 [FValue (VVarInt32 (u32 id))] _ _ _ _ _ _ l w c1 Ha1 Hl Hw1 ltac:(split; lia) Hp ltac:(cbn [foldr map field_size]; lia))
    as (c2 & E2 & Ha2 & Hl2 & Ht2 & Hn2 & _ & Hw2).
  unfold andThen, modify. cbn [option_bind mbind app]. fold c1. unfold SendLoginSuccess.
  rewrite (as_id _ _ _ _ _ _ _ Ha1). unfold andThen, modify. rewrite E2. cbn [option_bind mbind app].
  eexists. split; [reflexivity|]. split_and!.
  - destruct (at_protocol_state 3 _ _ _ _ _ _ _ Ha2) as [[] ? ? ? ? ? ? ? ? ?]. split; first [assumption | reflexivity | split; assumption].
  - exact Hl2.
  - exact Ht2.
  - exact Hn2.
  - reflexivity.
  - unfold pushed in *. destruct w as [[es out]|]; [|exact I]. cbn [option_bind mbind] in *.
    destruct (encrypt es _) as [[b es']|]; [|exact I]. exact Hw2.
Qed.

(** A tick in which nothing has arrived. *)
Lemma idle_tick now id addr ip ps ds st l w c :
  at_server id addr ip ps ds st c -> waiting c l -> sends w c -> m_TicksSinceLastPacket c < 600 ->
  exists c' out, ServerTick fresh now c = Some (c', out)
    /\ at_server id addr ip ps ds (after_tick st) c' /\ waiting c' l /\ calls out = []
    /\ m_PingStartTime c <= m_PingStartTime c'
    /\ match w with
       | Some (es, o) => link_data out = o
           /\ (after_tick st <> csWorking \/ now < m_PingStartTime c + PING_TIME_MS -> sends (Some (es, [])) c')
       | None => True
       end.
Proof.
  intros Ha Hl Hw Ht.
  assert (Hc : c <| m_IncomingData := [] |> = c).
  { pose proof (as_incoming _ _ _ _ _ _ _ Ha). destruct c. simpl in *. subst. reflexivity. }
  destruct (tick_rest_at now _ _ _ _ _ _ l w c Ha Hl Hw Ht) as (c' & out & E & Ha' & Hl' & Hc' & _ & Hp & Hw').
  exists c', out. split_and!; [|exact Ha' | exact Hl' | exact Hc' | exact Hp |].
  - unfold ServerTick. unfold andThen at 1, receive_queued. rewrite (as_incoming _ _ _ _ _ _ _ Ha), Hc. cbn [List.length Nat.eqb skip option_bind mbind].
    rewrite E. reflexivity.
  - destruct w as [[es o]|]; [|exact I]. destruct Hw' as [Ho Hs]. split; [|exact Hs]. rewrite Ho.
    destruct (Nat.eqb_spec (List.length o) 0) as [Hn|Hn]; [destruct o; [reflexivity | discriminate]|].
    unfold link_data. simpl. apply app_nil_r.
Qed.
End Session.
