(* ===== verification/Authenticator.v ===== *)
(** * Authenticator: the queue of users to authenticate
    (src/Src/Server/Protocol/Authenticator.cpp)

    Client handles append to the queue; the authenticator's thread takes one user at a time
    and tells the server what came of it.  What it tells the server is a [verdict]. *)

From S2P Require Import Prelude Bytes ByteBuffer Framing Packetizer ClientHandle.

Record cUser := { m_ClientID : Z; m_Username : AString; m_Password : AString }.

(** The calls of cRoot it makes: [AuthenticateUser] and [KickUser]. *)
Inductive verdict :=
  | AuthenticateUser (a_ClientID : Z) (a_Name a_UUID : AString)
  | KickUser (a_ClientID : Z) (a_Reason : Z).

Definition cAuthenticator_Authenticate (a_ClientID : Z) (a_UserName a_PassWord : AString) (m_Queue : list cUser) : list cUser :=
  m_Queue ++ [{| m_ClientID := a_ClientID; m_Username := a_UserName; m_Password := a_PassWord |}].

(** The result of the comparison, as an int; the UUID stays empty. *)
Definition AuthFromDBPoll (a_UserName a_PassWord : AString) : Z :=
  if bool_decide (a_UserName = a_PassWord) then 1 else 0.

Definition judge (User : cUser) : verdict :=
  let ret := AuthFromDBPoll (m_Username User) (m_Password User) in
  if ret =? ERROR_CODE_ACCOUNT_AUTH_OK then AuthenticateUser (m_ClientID User) (m_Username User) []
  else KickUser (m_ClientID User) ret.

(** One round of the thread's loop; on an empty queue it waits. *)
Definition Execute_round (m_Queue : list cUser) : option (verdict * list cUser) :=
  match m_Queue with
  | [] => None
  | User :: m_Queue => Some (judge User, m_Queue)
  end.

(** What the protocol asks for, the user's name as its password, is always granted. *)
Lemma judge_same_name id name :
  judge {| m_ClientID := id; m_Username := name; m_Password := name |} = AuthenticateUser id name [].
Proof. unfold judge, AuthFromDBPoll. cbn. rewrite bool_decide_eq_true_2 by reflexivity. reflexivity. Qed.
