(* ===== verification/ConnectionClient.v ===== *)
(** * ConnectionClient: the client's side of the signalling connection
    (src/Src/Client/ConnectionClient.cpp, its observer in src/Src/Client/conductor.cpp)

    The client answers the server's packets until it is logged in, joins its channel and
    hands what it is told to its observer.  What it does to the socket and tells the
    observer is reported as [event]s.  The observer is the Conductor: when it is told of a
    login error or that the channel is left it calls [SignOut] back, from inside the packet
    handler.  [None] is undefined behaviour, an exception that nobody catches, or the end
    of the process (VERIFY). *)

From Stdlib Require Import Ascii String.
From S2P Require Import Prelude Bytes StringUtils ByteBuffer Cipher Framing Packetizer.
#[local] Open Scope act_scope.

Inductive event :=
  | Socket_connect (server : AString)
  | Socket_send (data : list Z)
  | Socket_close
  | Observer_OnSignedIn
  | Observer_OnLoginError
  | Observer_OnDisconnected
  | Observer_OnJoinedChannel (room : AString)
  | Observer_OnLeaveChannel (room : AString)
  | Observer_OnMessageFromChannel (room : AString) (a_FromID : Z) (a_Msg : AString)
  | Observer_PacketBufferFull
  | Observer_PacketUnknown (a_PacketType : Z)
  | Observer_PacketError (a_PacketType : Z)
  | Observer_PostNotification (a_Code : Z).     (* the text for an error code *)

Record ConnectionClient := {
  server_ : AString;
  m_rUserName : AString;
  m_rChannel : AString;
  m_ClientID : Z;
  m_State : Z;                             (* 1 = status, 2 = login, 3 = work *)
  m_ReceivedData : cByteBuffer;
  m_OutPacketBuffer : cByteBuffer;
  m_IsEncrypted : bool;
  m_bConnect : bool;
  m_Decryptor : option cAesCfb128;         (* the pointers *)
  m_Encryptor : option cAesCfb128;
  m_Cleared : bool                         (* a handler has cleared the receive buffer *)
}.

#[export] Instance eta_ConnectionClient : Eta ConnectionClient := fun k =>
  {| server_ := server_ k; m_rUserName := m_rUserName k; m_rChannel := m_rChannel k; m_ClientID := m_ClientID k;
     m_State := m_State k; m_ReceivedData := m_ReceivedData k; m_OutPacketBuffer := m_OutPacketBuffer k;
     m_IsEncrypted := m_IsEncrypted k; m_bConnect := m_bConnect k; m_Decryptor := m_Decryptor k;
     m_Encryptor := m_Encryptor k; m_Cleared := m_Cleared k |}.

(** defaults.cpp *)
Definition SERVER : AString := chars "127.0.0.1".
Definition PORT : Z := 6666.

Section ConnectionClient.
Context `{PolarSSL}.

(** The contents of a fresh array, of an uninitialised array on the stack and of a new
    cipher object; the numbers [rand] yields after [srand] with the window handle. *)
Context (fresh : nat -> list Z) (stack : nat -> list Z) (mem : cAesCfb128) (rand : nat -> Z).

#[local] Notation Action := (Act ConnectionClient event).
#[local] Notation Handle := (Handler ConnectionClient event).

Definition ConnectionClient_ctor : ConnectionClient := {|
  server_ := []; m_rUserName := []; m_rChannel := []; m_ClientID := 0; m_State := 1;
  m_ReceivedData := new_buffer fresh (16 * 1024); m_OutPacketBuffer := new_buffer fresh (16 * 1024);
  m_IsEncrypted := false; m_bConnect := false; m_Decryptor := None; m_Encryptor := None; m_Cleared := false
|}.

(** [Init]; starting WinSock succeeds. *)
Definition Init (a_Server a_UserName : AString) : Action :=
  modify (fun k => k <| server_ := a_Server |> <| m_rUserName := a_UserName |>).

Definition SignOut : Action :=
  tell Socket_close;;
  modify (fun k => k
    <| m_ClientID := 0 |> <| m_rChannel := [] |>
    <| m_ReceivedData ::= ClearAll |> <| m_Cleared := true |> <| m_OutPacketBuffer ::= ClearAll |>
    <| m_Encryptor := None |> <| m_Decryptor := None |>
    <| m_State := 1 |> <| m_IsEncrypted := false |> <| m_bConnect := false |>).

(** ** Sending *)

(** A chunk is encrypted and sent. *)
Definition send_chunk (a_Data : list Z) : Action := fun k =>
  encryptor ← m_Encryptor k;
  '(Encrypted, e) ← Encryptor_ProcessData a_Data encryptor;
  (modify (fun k => k <| m_Encryptor := Some e |>);; tell (Socket_send Encrypted)) k.

Definition SendData (a_Data : list Z) : Action := fun k =>
  if m_IsEncrypted k then in_chunks (8 * 1024) send_chunk a_Data k
  else tell (Socket_send a_Data) k.

(** The destructor of the packetizer: the length is sent on its own, from a buffer of its
    own, and then the packet. *)
Definition cPacketizer_dtor : Action := fun k =>
  let PacketLen := u32 (Z.of_nat (GetUsedSpace (m_OutPacketBuffer k))) in
  '(_, OutPacketLenBuffer) ← WriteVarInt32 PacketLen (new_buffer fresh 20);
  '(DataToSend, _) ← ReadAll OutPacketLenBuffer;
  (SendData (default [] DataToSend);;
   (fun k =>
     '(DataToSend, out) ← ReadAll (m_OutPacketBuffer k);
     (modify (fun k => k <| m_OutPacketBuffer := out |>);;
      SendData (default [] DataToSend);;
      modify (fun k => k <| m_OutPacketBuffer ::= CommitRead |>)) k)) k.

Definition cPacketizer (a_PacketType : Z) (fs : list field) : Action := fun k =>
  out ← cPacketizer_ctor a_PacketType (m_OutPacketBuffer k);
  out ← write_fields fs out;
  (modify (fun k => k <| m_OutPacketBuffer := out |>);; cPacketizer_dtor) k.

Definition SendToChannel (room : AString) (a_ClientID : Z) (a_Msg : AString) : Action :=
  cPacketizer 0x02 [FValue (VString room); FValue (VVarInt32 a_ClientID); FValue (VString a_Msg)].

Definition JoinChannel (server room : AString) : Action :=
  modify (fun k => k <| m_rChannel := room |>);;
  on_state (fun k =>
    if negb (m_bConnect k) then modify (fun k => k <| server_ := server |>);; tell (Socket_connect server) else skip).

Definition LeaveChannel (room : AString) : Action := cPacketizer 0x09 [FValue (VString room)].

Definition OnConnect : Action :=
  modify (fun k => k <| m_bConnect := true |>);;
  cPacketizer 0x00
    [FValue (VString (chars "mcu")); FValue (VString SERVER); FValue (VNum Int32 PORT); FValue (VNum Int32 2)].

Definition OnClose : Action :=
  modify (fun k => k <| m_bConnect := false |>);; tell Observer_OnDisconnected.

(** ** Handlers of packets *)

Definition HandlePacketStatusRequest : Handle :=
  HANDLE_READ ReadBEInt32 (fun state =>
  HANDLE_READ ReadBool (fun zip =>
  HANDLE_READ ReadBool (fun encrypt =>
  HANDLE_READ ReadVarUTF8String (fun strIP => finish
    (if (3 <? state) || (state <? 1) then skip
     else modify (fun k => k <| m_State := state |>);; cPacketizer 0x00 []))))).

(** The Conductor's reaction is to sign out. *)
Definition HandleErrorCode (a_Code : Z) : Action :=
  tell Observer_OnLoginError;; SignOut;; tell (Observer_PostNotification a_Code).

Definition HandlePacketLoginDisconnect : Handle :=
  HANDLE_READ ReadBEInt32 (fun a_Reason => finish (HandleErrorCode a_Reason)).

(** The bytes of an array of which the first ones have been written. *)
Definition array_of (written array : list Z) : list Z := written ++ drop (List.length written) array.

Definition SharedSecret : list Z := map (fun i => rand i mod 255) (seq 0 16).

Definition SendEncryptionKeyResponse (a_PublicKey : list Z) (a_Nonce : Z) : Action := fun k =>
  match rsa_encrypt a_PublicKey SharedSecret with
  | None => skip k
  | Some secret =>
    let EncryptedSecret := array_of secret (stack 128%nat) in
    let k := k
      <| m_Encryptor := Some (cAesCfb128_Init SharedSecret SharedSecret (cAesCfb128_ctor mem)) |>
      <| m_Decryptor := Some (cAesCfb128_Init SharedSecret SharedSecret (cAesCfb128_ctor mem)) |> in
    match rsa_encrypt a_PublicKey (le_bytes 4 a_Nonce) with
    | None => skip k
    | Some nonce =>
      let EncryptedNonce := array_of nonce (stack 128%nat) in
      (cPacketizer 0x01
        [FValue (VNum UInt16 128); FBuf EncryptedSecret; FValue (VNum UInt16 128); FBuf EncryptedNonce];;
       modify (fun k => k <| m_IsEncrypted := true |>)) k
    end
  end.

(** [ReadBuf] into the zeroed array: what cannot be read stays zero. *)
Definition read_key (keyLen : Z) : BB (list Z) := fun bb =>
  if keyLen <? 0 then None          (* new char[keyLen] throws *)
  else
    '(key, bb) ← ReadBuf (Z.to_nat keyLen) bb;
    Some (Some (default (repeat 0 (Z.to_nat keyLen)) key), bb).

Definition HandlePacketLoginEncryptionKeyRequest : Handle :=
  HANDLE_READ ReadVarUTF8String (fun serverID =>
  HANDLE_READ ReadBEInt16 (fun keyLen =>
  HANDLE_READ (read_key keyLen) (fun PublicKey =>
  HANDLE_READ ReadBEInt16 (fun NonceLen =>
  HANDLE_READ ReadBEInt32 (fun Nonce => finish
    (if negb (NonceLen =? 4) then skip else SendEncryptionKeyResponse PublicKey (u32 Nonce))))))).

Definition HandlePacketLoginAllow : Handle := finish (on_state (fun k =>
  cPacketizer 0x02 [FValue (VString (m_rUserName k))])).

Definition HandlePacketLoginSuccess : Handle :=
  HANDLE_READ ReadVarInt32 (fun clientID => finish
    (modify (fun k => k <| m_ClientID := clientID |> <| m_State := 3 |>);;
     tell Observer_OnSignedIn;;
     on_state (fun k => cPacketizer 0x01 [FValue (VString (m_rChannel k))]))).

Definition HandlePacketKeepAlive : Handle :=
  HANDLE_READ ReadVarInt32 (fun KeepAliveID => finish (cPacketizer 0x00 [FValue (VVarInt32 KeepAliveID)])).

Definition HandlePacketRoomJoin : Handle :=
  HANDLE_READ ReadVarUTF8String (fun channel =>
  HANDLE_READ ReadVarInt32 (fun ret => finish
    (if negb (ret =? 0) then tell (Observer_OnJoinedChannel channel) else skip))).

Definition HandlePacketChannelMsg : Handle :=
  HANDLE_READ ReadVarInt32 (fun fromID =>
  HANDLE_READ ReadVarUTF8String (fun channel =>
  HANDLE_READ ReadVarUTF8String (fun msg => finish
    (tell (Observer_OnMessageFromChannel channel fromID msg))))).

(** Here, too, the Conductor signs out. *)
Definition HandlePacketRoomLeft : Handle :=
  HANDLE_READ ReadVarUTF8String (fun channel =>
  HANDLE_READ ReadVarInt32 (fun ret => finish
    ((if negb (ret =? 0) then tell (Observer_OnLeaveChannel channel);; SignOut else skip);;
     modify (fun k => k <| m_rChannel := [] |>)))).

Definition HandlePacketErrorCode : Handle :=
  HANDLE_READ ReadBEInt32 (fun a_Reason => finish (HandleErrorCode a_Reason)).

Definition understood (h : Handle) (bb : cByteBuffer) (k : ConnectionClient)
    : option (bool * cByteBuffer * ConnectionClient * list event) :=
  '(bb, k, out) ← h bb k; Some (true, bb, k, out).
Definition rejected (m : Action) (bb : cByteBuffer) (k : ConnectionClient)
    : option (bool * cByteBuffer * ConnectionClient * list event) :=
  '(k, out) ← m k; Some (false, bb, k, out).

Definition HandlePacket (a_ByteBuffer : cByteBuffer) (a_PacketType : Z) (k : ConnectionClient)
    : option (bool * cByteBuffer * ConnectionClient * list event) :=
  match m_State k with
  | 1 =>
    match a_PacketType with
    | 0x00 => understood HandlePacketStatusRequest a_ByteBuffer k
    | _ => rejected (tell (Observer_PacketUnknown a_PacketType)) a_ByteBuffer k
    end
  | 2 =>
    match a_PacketType with
    | 0x00 => understood HandlePacketLoginDisconnect a_ByteBuffer k
    | 0x01 => understood HandlePacketLoginEncryptionKeyRequest a_ByteBuffer k
    | 0x02 => understood HandlePacketLoginAllow a_ByteBuffer k
    | 0x03 => understood HandlePacketLoginSuccess a_ByteBuffer k
    | _ => rejected (tell (Observer_PacketUnknown a_PacketType)) a_ByteBuffer k
    end
  | 3 =>
    match a_PacketType with
    | 0x00 => understood HandlePacketKeepAlive a_ByteBuffer k
    | 0x01 => understood HandlePacketRoomJoin a_ByteBuffer k
    | 0x02 => understood HandlePacketChannelMsg a_ByteBuffer k
    | 0x09 => understood HandlePacketRoomLeft a_ByteBuffer k
    | 0x40 => understood HandlePacketErrorCode a_ByteBuffer k
    | _ => rejected (tell (Observer_PacketUnknown a_PacketType)) a_ByteBuffer k
    end
  | 255 => rejected skip a_ByteBuffer k
  | _ => rejected (modify (fun k => k <| m_State := 255 |>)) a_ByteBuffer k
  end.

(** ** Receiving *)

Definition client_AddReceivedData (a_Data : list Z) : Action := fun k =>
  '(rcv, k, out) ← AddReceivedData fresh HandlePacket (fun t => tell (Observer_PacketError t)) m_Cleared
                     (tell Observer_PacketBufferFull) a_Data (m_ReceivedData k) (k <| m_Cleared := false |>);
  Some (k <| m_ReceivedData := rcv |>, out).

(** A chunk is decrypted and added. *)
Definition receive_chunk (a_Data : list Z) : Action := fun k =>
  decryptor ← m_Decryptor k;
  '(Decrypted, d) ← Decryptor_ProcessData a_Data decryptor;
  (modify (fun k => k <| m_Decryptor := Some d |>);; client_AddReceivedData Decrypted) k.

Definition DataReceived (a_Data : list Z) : Action := fun k =>
  if m_IsEncrypted k then in_chunks 512 receive_chunk a_Data k
  else client_AddReceivedData a_Data k.

(** One read of what [recv] returned, at most 64 KiB; nothing when it failed. *)
Definition OnRead (received : option (list Z)) : Action :=
  match received with
  | Some ((_ :: _) as Buffer) => DataReceived Buffer
  | _ => skip
  end.

(** The messages of the socket. *)
Inductive net_event := FD_CONNECT | FD_READ (received : option (list Z)) | FD_CLOSE.
Inductive net_error := WSAECONNREFUSED | WSAETIMEDOUT | WSAEHOSTUNREACH | other_error.

Definition OnNetwork (error : option net_error) (netEvent : net_event) : Action :=
  match error with
  | Some other_error => skip
  | Some _ => OnClose;; tell (Observer_PostNotification 0)
  | None =>
    match netEvent with
    | FD_CONNECT => OnConnect
    | FD_READ received => OnRead received
    | FD_CLOSE => OnClose
    end
  end.
End ConnectionClient.
