(* ===== verification/ClientSession.v ===== *)
(** * ClientSession: what the client does with the packets of the server

    The client's counterpart of ServerSession.v: every packet, in any pieces, over a plain
    or an encrypted connection, makes it answer with exactly the packet and tell its
    observer exactly what the protocol says. *)

From Stdlib Require Import Ascii String.
From S2P Require Import Prelude Bytes StringUtils ByteBuffer Cipher Framing Packetizer Messages Receiver ConnectionClient.
#[local] Open Scope act_scope.

Definition secured (s : stream) : bool := if s is Some _ then true else false.

Record at_client (st : Z) (es ds : stream) (user ch : AString) (cid : Z) (k : ConnectionClient) : Prop := {
  ak_out : represents (m_OutPacketBuffer k) (q_empty (16 * 1024));
  ak_enc : m_IsEncrypted k = secured es;
  ak_dec : m_IsEncrypted k = secured ds;
  ak_es : m_IsEncrypted k = true -> m_Encryptor k = es;
  ak_ds : m_IsEncrypted k = true -> m_Decryptor k = ds;
  ak_state : m_State k = st;
  ak_user : m_rUserName k = user;
  ak_channel : m_rChannel k = ch;
  ak_id : m_ClientID k = cid;
  ak_connect : m_bConnect k = true;
  ak_cleared : m_Cleared k = false
}.

Definition kwaiting (k : ConnectionClient) (l : list Z) : Prop :=
  represents (m_ReceivedData k) {| consumed := []; pending := l; capacity := 16 * 1024 |}.

(** What goes out on the socket, and what the observer is told. *)
Definition socket_data (out : list event) : list Z :=
  concat (map (fun r => match r with Socket_send l => l | _ => [] end) out).
Definition is_told (r : event) : bool := match r with Socket_send _ => false | _ => true end.
Definition told_events (out : list event) : list event := List.filter is_told out.

Lemma socket_data_app a b : socket_data (a ++ b) = socket_data a ++ socket_data b.
Proof. unfold socket_data. rewrite map_app, concat_app. reflexivity. Qed.
Lemma told_events_app a b : told_events (a ++ b) = told_events a ++ told_events b.
Proof. apply List.filter_app. Qed.

Section Session.
Context `{PolarSSL, !BlockCipher}.
Context (fresh : nat -> list Z) (fresh_length : forall n, List.length (fresh n) = n).
Context (stack : nat -> list Z) (mem : cAesCfb128) (rand : nat -> Z).

#[local] Notation HandlePacket := (HandlePacket fresh stack mem rand).
#[local] Notation errors := (fun t => tell (Observer_PacketError t)).

(** ** Sending *)

Definition with_encryptor (es : stream) (k : ConnectionClient) : ConnectionClient :=
  match es with Some e => k <| m_Encryptor := Some e |> | None => k end.

Lemma send_chunks pieces : forall e k,
  m_Encryptor k = Some e ->
  match Encryptor_ProcessData (concat pieces) e with
  | Some (es, e') => exists out, process_all send_chunk pieces k = Some (k <| m_Encryptor := Some e' |>, out)
      /\ socket_data out = es /\ told_events out = []
  | None => process_all send_chunk pieces k = None
  end.
Proof.
  induction pieces as [|x pieces IH]; intros e k He; cbn [process_all concat].
  { exists []. split_and!; [|reflexivity..]. destruct k. simpl in He. subst. reflexivity. }
  assert (Ec : send_chunk x k = ('(es, e1) ← Encryptor_ProcessData x e; Some (k <| m_Encryptor := Some e1 |>, [Socket_send es]))).
  { unfold send_chunk. rewrite He. reflexivity. }
  unfold andThen. rewrite Encryptor_app, Ec. destruct (Encryptor_ProcessData x e) as [[es e1]|]; [|reflexivity].
  cbn [option_bind mbind]. specialize (IH e1 (k <| m_Encryptor := Some e1 |>) eq_refl).
  destruct (Encryptor_ProcessData (concat pieces) e1) as [[es2 e2]|]; cbn [option_bind mbind].
  - destruct IH as (out & -> & Hs & Ht). cbn [option_bind mbind]. exists (Socket_send es :: out).
    split_and!; [reflexivity | unfold socket_data in *; simpl; congruence | exact Ht].
  - rewrite IH. reflexivity.
Qed.

(** What is sent goes through [es]. *)
Definition sends_through (es : stream) (k : ConnectionClient) : Prop :=
  m_IsEncrypted k = secured es /\ (m_IsEncrypted k = true -> m_Encryptor k = es).

Lemma data_sent data es k :
  bytes_ok data -> sends_through es k ->
  exists b es' out, encrypt es data = Some (b, es') /\ secured es' = secured es
    /\ SendData data k = Some (with_encryptor es' k, out) /\ socket_data out = b /\ told_events out = [].
Proof.
  intros Hok [He Hes]. unfold SendData. rewrite He in *. destruct es as [e|]; cbn [secured] in *.
  - destruct (in_chunks_pieces (8 * 1024) send_chunk data ltac:(lia)) as (pieces & <- & _ & ->).
    pose proof (send_chunks pieces e k (Hes eq_refl)) as Hs.
    destruct (cipher_inverse (concat pieces) e Hok) as (b & e' & E & _ & _). rewrite E in Hs.
    destruct Hs as (out & E' & Hs & Ht). exists b, (Some e'), out. cbn [encrypt]. rewrite E. auto.
  - exists data, None, [Socket_send data]. split_and!; try reflexivity. unfold socket_data. simpl. apply app_nil_r.
Qed.

Lemma sends_with_encryptor es es' k : sends_through es k -> secured es' = secured es -> sends_through es' (with_encryptor es' k).
Proof. intros [He Hes] Hs. destruct es' as [e|]; split; cbn in *; congruence. Qed.

Lemma at_after_sending st es es' ds user ch cid k out :
  at_client st es ds user ch cid k -> secured es' = secured es -> represents out (q_empty (16 * 1024)) ->
  at_client st es' ds user ch cid ((with_encryptor es' k) <| m_OutPacketBuffer := out |>).
Proof. intros [] Hs R. destruct es' as [e|]; split; try assumption; try (cbn in *; congruence). Qed.

(** A packet is sent with its length in front, in two calls, and nothing else changes. *)
Lemma packet_sent t fs st es ds user ch cid k :
  at_client st es ds user ch cid k ->
  in_width 32 t -> Forall field_ok fs -> (5 + foldr Nat.add 0 (map field_size fs) <= 16 * 1024)%nat ->
  exists k' out b es', cPacketizer fresh t fs k = Some (k', out)
    /\ encrypt es (frame (payload t fs)) = Some (b, es') /\ socket_data out = b /\ told_events out = []
    /\ at_client st es' ds user ch cid k' /\ k' = (with_encryptor es' k) <| m_OutPacketBuffer := m_OutPacketBuffer k' |>.
Proof.
  intros Ha Ht Hfs Hsize. pose proof (Nat.le_trans _ _ _ (payload_length t fs Ht Hfs) Hsize) as Hlen. unfold cPacketizer.
  destruct (packet_written t fs _ _ Ht Hfs (ak_out _ _ _ _ _ _ _ Ha) Hlen) as (out1 & E1 & R1).
  destruct (cPacketizer_ctor t _) as [b0|]; [|discriminate]. cbn [option_bind mbind] in *. rewrite E1. cbn [option_bind mbind].
  set (k1 := k <| m_OutPacketBuffer := out1 |>).
  unfold andThen at 1, modify at 1. cbn [option_bind mbind app]. fold k1.
  assert (S1 : sends_through es k1) by (destruct Ha; split; assumption).
  assert (Rl : represents (new_buffer fresh 20) (q_empty 20)) by (apply rep_ctor; rewrite fresh_length; lia).
  destruct (length_taken _ _ (payload t fs) (16 * 1024) Rl R1 ltac:(lia)) as (lb & lb2 & El & El2 & _).
  unfold cPacketizer_dtor. change (m_OutPacketBuffer k1) with out1.
  rewrite El. cbn [option_bind mbind]. rewrite El2. cbn [option_bind mbind default].
  destruct (varint_spec (Z.of_nat (List.length (payload t fs))) ltac:(lia)) as (Hok & _ & _ & _).
  destruct (data_sent _ es k1 Hok S1) as (b1 & es1 & o1 & Ee1 & Hs1 & E2 & Hd1 & Ht1).
  unfold andThen at 1. unfold id. rewrite E2. cbn [option_bind mbind].
  destruct (read_all_pending _ _ _ R1) as (out2 & Er & Rr).
  assert (Eo : m_OutPacketBuffer (with_encryptor es1 k1) = out1) by (destruct es1; reflexivity).
  rewrite Eo, Er. cbn [option_bind mbind default]. unfold id.
  set (k2 := (with_encryptor es1 k1) <| m_OutPacketBuffer := out2 |>).
  assert (S2 : sends_through es1 k2).
  { pose proof (sends_with_encryptor es es1 k1 S1 Hs1) as S2. exact S2. }
  destruct (data_sent _ es1 k2 (payload_ok t fs Ht Hfs) S2) as (b2 & es2 & o2 & Ee2 & Hs2 & E3 & Hd2 & Ht2).
  unfold andThen, modify. cbn [option_bind mbind app]. fold k2. rewrite E3.
  cbn [option_bind mbind]. unfold modify. eexists _, _, (b1 ++ b2), es2. split; [reflexivity|]. split_and!.
  - unfold frame. rewrite encrypt_app, Ee1. cbn [option_bind mbind]. rewrite Ee2. reflexivity.
  - rewrite app_nil_r, socket_data_app. congruence.
  - rewrite app_nil_r, told_events_app, Ht1, Ht2. reflexivity.
  - pose proof (at_after_sending st es es2 ds user ch cid k _ Ha ltac:(congruence) Rr) as Ha'.
    destruct es as [e|], es1 as [e1|], es2 as [e2|]; try discriminate; exact Ha'.
  - destruct es as [e|], es1 as [e1|], es2 as [e2|]; try discriminate; reflexivity.
Qed.

(** ** The packets of the server *)

Lemma yields_default {A} (m : BB A) bytes x d :
  yields m bytes x -> yields (fun bb => '(y, bb) ← m bb; Some (Some (default d y), bb)) bytes x.
Proof. intros Hy bb rest Hb. destruct (Hy bb rest Hb) as (bb' & E & Hb'). exists bb'. rewrite E. auto. Qed.


Definition rekey (key : option (list Z)) (s : stream) : stream := match key with None => s | Some k => keyed k end.

(** The bytes of an answer, if there is one. *)
Definition flight (es : stream) (reply : option (list Z)) (b : list Z) (es' : stream) : Prop :=
  match reply with
  | None => b = [] /\ es' = es
  | Some p => encrypt es (frame p) = Some (b, es')
  end.

(** What delivering [p] to a client does: its answer, what the observer is told, the state
    it is in afterwards. *)
Definition answered (p : list Z) (st : Z) (es ds : stream) (user ch : AString) (cid : Z)
    (reply : option (list Z)) (told : list event) (key : option (list Z)) (st' cid' : Z) : Prop :=
  forall k, at_client st es ds user ch cid k ->
  exists k' out b es', deliver fresh HandlePacket errors p k = Some (true, k', out)
    /\ flight es reply b es' /\ socket_data out = b /\ told_events out = told
    /\ at_client st' (rekey key es') (rekey key ds) user ch cid' k'.

Lemma answered_by h t fs st es ds user ch cid reply told key st' cid' :
  in_width 32 t -> Forall field_ok fs ->
  (forall k bb, m_State k = st -> HandlePacket bb t k = understood h bb k) ->
  (forall k, at_client st es ds user ch cid k ->
   exists k' out b es', handler_spec h (body fs) k k' out
    /\ flight es reply b es' /\ socket_data out = b /\ told_events out = told
    /\ at_client st' (rekey key es') (rekey key ds) user ch cid' k') ->
  answered (payload t fs) st es ds user ch cid reply told key st' cid'.
Proof.
  intros Ht Hfs Hh Hs k Ha. destruct (Hs k Ha) as (k' & out & b & es' & Hspec & Hrest).
  exists k', out, b, es'. split; [|exact Hrest].
  eapply deliver_packet; try eassumption. intros bb. apply Hh, Ha.
Qed.

Lemma at_state n st es ds user ch cid k :
  at_client st es ds user ch cid k -> at_client n es ds user ch cid (k <| m_State := n |>).
Proof. intros []. split; first [assumption | reflexivity]. Qed.

Lemma answered_StatusReply ip es ds user ch cid :
  value_typed (VString ip) ->
  answered (StatusReply_packet 2 ip) 1 es ds user ch cid (Some LoginStart_packet) [] None 2 cid.
Proof.
  intros Hip. assert (Hstate : num_range Int32 2) by (split; [discriminate | reflexivity]).
  apply (answered_by (HandlePacketStatusRequest fresh));
    [split; lia | repeat (apply Forall_cons; split; [first [assumption | exact I]|]); constructor | |].
  { intros k bb E. unfold ConnectionClient.HandlePacket. rewrite E. reflexivity. }
  intros k Ha. pose proof (at_state 2 _ _ _ _ _ _ _ Ha) as Ha2.
  destruct (packet_sent 0 [] _ _ _ _ _ _ _ Ha2) as (k' & out & b & es' & E & Ee & Hs & Ht & Ha' & _);
    [split; lia | constructor | cbn [foldr map]; lia |].
  exists k', out, b, es'. split_and!; [|exact Ee | exact Hs | exact Ht | exact Ha'].
  unfold body. cbn [map concat field_bytes].
  apply (spec_read _ _ _ 2); [apply (yields_num Int32), Hstate|].
  apply (spec_read _ _ _ true); [apply yields_bool|].
  apply (spec_read _ _ _ true); [apply yields_bool|].
  apply (spec_read _ _ _ ip); [apply yields_string, Hip|].
  apply spec_finish. change (3 <? 2) with false. change (2 <? 1) with false. cbn [orb].
  unfold andThen, modify. cbn [option_bind mbind]. rewrite E. reflexivity.
Qed.

Lemma answered_LoginAllow es ds user ch cid :
  value_typed (VString user) -> (List.length user <= 1000)%nat ->
  answered LoginAllow_packet 2 es ds user ch cid (Some (LoginInfo_packet user)) [] None 2 cid.
Proof.
  intros Hu Hl. apply (answered_by (HandlePacketLoginAllow fresh)); [split; lia | constructor | |].
  { intros k bb E. unfold ConnectionClient.HandlePacket. rewrite E. reflexivity. }
  intros k Ha.
  assert (Hf : Forall field_ok [FValue (VString user)]) by (apply Forall_singleton; exact Hu).
  destruct (packet_sent 2 [FValue (VString user)] _ _ _ _ _ _ _ Ha) as (k' & out & b & es' & E & Ee & Hs & Ht & Ha' & _);
    [split; lia | exact Hf | cbn [foldr map field_size]; lia |].
  exists k', out, b, es'. split_and!; [|exact Ee | exact Hs | exact Ht | exact Ha'].
  unfold body. cbn [map concat field_bytes]. apply spec_finish. unfold on_state. rewrite (ak_user _ _ _ _ _ _ _ Ha). exact E.
Qed.

Lemma answered_LoginSuccess id es ds user ch cid :
  value_typed (VString ch) -> (List.length ch <= 1000)%nat ->
  answered (LoginSuccess_packet id) 2 es ds user ch cid (Some (JoinRoom_packet ch)) [Observer_OnSignedIn] None 3 (u32 id).
Proof.
  intros Hc Hl. assert (Hid : in_width 32 (u32 id)) by (apply (wrap_bound 32); lia).
  apply (answered_by (HandlePacketLoginSuccess fresh)); [split; lia | apply Forall_singleton; exact Hid | |].
  { intros k bb E. unfold ConnectionClient.HandlePacket. rewrite E. reflexivity. }
  intros k Ha. set (k1 := (k <| m_ClientID := u32 id |>) <| m_State := 3 |>).
  assert (Ha1 : at_client 3 es ds user ch (u32 id) k1) by (destruct Ha; split; first [assumption | reflexivity]).
  assert (Hf : Forall field_ok [FValue (VString ch)]) by (apply Forall_singleton; exact Hc).
  destruct (packet_sent 1 [FValue (VString ch)] _ _ _ _ _ _ _ Ha1) as (k' & out & b & es' & E & Ee & Hs & Ht & Ha' & _);
    [split; lia | exact Hf | cbn [foldr map field_size]; lia |].
  exists k', (Observer_OnSignedIn :: out), b, es'. split_and!; [|exact Ee | exact Hs | cbn; f_equal; exact Ht | exact Ha'].
  unfold body. cbn [map concat field_bytes]. apply (spec_read _ _ _ (u32 id)); [apply yields_varint32, Hid|].
  apply spec_finish. unfold andThen, modify, tell. cbn [option_bind mbind]. fold k1. unfold on_state.
  rewrite (ak_channel _ _ _ _ _ _ _ Ha1), E. reflexivity.
Qed.

Lemma answered_JoinResult channel ret es ds user ch cid :
  value_typed (VString channel) ->
  answered (JoinResult_packet channel ret) 3 es ds user ch cid None
    (if negb (u32 ret =? 0) then [Observer_OnJoinedChannel channel] else []) None 3 cid.
Proof.
  intros Hc. assert (Hr : in_width 32 (u32 ret)) by (apply (wrap_bound 32); lia).
  apply (answered_by HandlePacketRoomJoin); [split; lia | repeat (apply Forall_cons; split; [assumption|]); constructor | |].
  { intros k bb E. unfold ConnectionClient.HandlePacket. rewrite E. reflexivity. }
  intros k Ha. eexists k, _, [], es. split_and!; [| split; reflexivity | | | exact Ha].
  - unfold body. cbn [map concat field_bytes]. apply (spec_read _ _ _ channel); [apply yields_string, Hc|].
    apply (spec_read _ _ _ (u32 ret)); [apply yields_varint32, Hr|].
    apply (spec_finish _ _ _ (if negb (u32 ret =? 0) then [Observer_OnJoinedChannel channel] else [])).
    destruct (negb _); reflexivity.
  - destruct (negb _); reflexivity.
  - destruct (negb _); reflexivity.
Qed.

Lemma answered_ChannelMsg from channel msg es ds user ch cid :
  value_typed (VString channel) -> value_typed (VString msg) ->
  answered (ChannelMsg_packet from channel msg) 3 es ds user ch cid None
    [Observer_OnMessageFromChannel channel (u32 from) msg] None 3 cid.
Proof.
  intros Hc Hm. assert (Hr : in_width 32 (u32 from)) by (apply (wrap_bound 32); lia).
  apply (answered_by HandlePacketChannelMsg); [split; lia | repeat (apply Forall_cons; split; [assumption|]); constructor | |].
  { intros k bb E. unfold ConnectionClient.HandlePacket. rewrite E. reflexivity. }
  intros k Ha. eexists k, _, [], es. split_and!; [| split; reflexivity | | | exact Ha].
  - unfold body. cbn [map concat field_bytes]. apply (spec_read _ _ _ (u32 from)); [apply yields_varint32, Hr|].
    apply (spec_read _ _ _ channel); [apply yields_string, Hc|].
    apply (spec_read _ _ _ msg); [apply yields_string, Hm|]. apply spec_finish. reflexivity.
  - reflexivity.
  - reflexivity.
Qed.

Lemma answered_KeepAlive id es ds user ch cid :
  in_width 32 id ->
  answered (KeepAlive_packet id) 3 es ds user ch cid (Some (KeepAlive_packet id)) [] None 3 cid.
Proof.
  intros Hid. assert (Hf : Forall field_ok [FValue (VVarInt32 id)]) by (apply Forall_singleton; exact Hid).
  apply (answered_by (HandlePacketKeepAlive fresh)); [split; lia | exact Hf | |].
  { intros k bb E. unfold ConnectionClient.HandlePacket. rewrite E. reflexivity. }
  intros k Ha.
  destruct (packet_sent 0 [FValue (VVarInt32 id)] _ _ _ _ _ _ _ Ha) as (k' & out & b & es' & E & Ee & Hs & Ht & Ha' & _);
    [split; lia | exact Hf | cbn [foldr map field_size]; lia |].
  exists k', out, b, es'. split_and!; [|exact Ee | exact Hs | exact Ht | exact Ha'].
  unfold body. cbn [map concat field_bytes]. apply (spec_read _ _ _ id); [apply yields_varint32, Hid|].
  apply spec_finish. exact E.
Qed.

(** The key is chosen, sent encrypted with the server's key, and used from then on. *)
Lemma answered_EncryptionRequest ServerID PublicKey addr EncKey EncNonce ds user ch cid :
  value_typed (VString ServerID) -> bytes_ok PublicKey -> (List.length PublicKey <= 3000)%nat -> in_width 32 addr ->
  (forall n, List.length (stack n) = n) ->
  rsa_encrypt PublicKey (SharedSecret rand) = Some EncKey -> bytes_ok EncKey -> List.length EncKey = 128%nat ->
  rsa_encrypt PublicKey (le_bytes 4 addr) = Some EncNonce -> bytes_ok EncNonce -> List.length EncNonce = 128%nat ->
  answered (EncryptionRequest_packet ServerID PublicKey addr) 2 None ds user ch cid
    (Some (EncryptionResponse_packet EncKey EncNonce)) [] (Some (SharedSecret rand)) 2 cid.
Proof.
  intros Hid Hpk Hpl Haddr Hstack Ek Hek Hkl En Hen Hnl.
  assert (Hlen : to_signed 16 (u16 (Z.of_nat (List.length PublicKey))) = Z.of_nat (List.length PublicKey)).
  { rewrite (wrap_small 16), to_signed_small by (split; lia) || lia. reflexivity. }
  apply (answered_by (HandlePacketLoginEncryptionKeyRequest fresh stack mem rand)).
  { split; lia. }
  { repeat (apply Forall_cons; split; [first [assumption | apply (to_signed_range 16); lia
    | apply (to_signed_range 32); lia | split; [discriminate | reflexivity]]|]). constructor. }
  { intros k bb E. unfold ConnectionClient.HandlePacket. rewrite E. reflexivity. }
  intros k Ha.
  assert (ds = None) as ->.
  { pose proof (ak_enc _ _ _ _ _ _ _ Ha) as He. rewrite (ak_dec _ _ _ _ _ _ _ Ha) in He. destruct ds; [discriminate | reflexivity]. }
  set (c0 := cAesCfb128_Init (SharedSecret rand) (SharedSecret rand) (cAesCfb128_ctor mem)).
  set (k1 := (k <| m_Encryptor := Some c0 |>) <| m_Decryptor := Some c0 |>).
  assert (Ha1 : at_client 2 None None user ch cid k1).
  { destruct Ha as [? He Hd]. cbn in He. split; try assumption; cbn; congruence. }
  destruct (packet_sent 1 [FValue (VNum UInt16 (Z.of_nat (List.length EncKey))); FBuf EncKey;
             FValue (VNum UInt16 (Z.of_nat (List.length EncNonce))); FBuf EncNonce] _ _ _ _ _ _ _ Ha1)
    as (k2 & out & b & es' & E & Ee & Hs & Ht & Ha2 & Hk2).
  { split; lia. }
  { repeat (apply Forall_cons; split; [first [assumption | split; simpl; lia]|]). constructor. }
  { cbn [foldr map field_size]. lia. }
  cbn [encrypt] in Ee. injection Ee as <- <-. cbn [with_encryptor] in Hk2.
  exists (k2 <| m_IsEncrypted := true |>), out, (frame (EncryptionResponse_packet EncKey EncNonce)), None.
  split_and!; [|reflexivity | exact Hs | exact Ht |].
  - unfold body. cbn [map concat field_bytes]. rewrite Hlen.
    apply (spec_read _ _ _ ServerID); [apply yields_string, Hid|].
    apply (spec_read _ _ _ (Z.of_nat (List.length PublicKey))); [apply (yields_num Int16); split; simpl; lia|].
    apply (spec_read _ _ _ PublicKey).
    { unfold read_key. rewrite (proj2 (Z.ltb_ge _ 0)), Nat2Z.id by lia. apply yields_default, yields_ReadBuf. }
    apply (spec_read _ _ _ 4); [apply (yields_num Int16); split; [discriminate | reflexivity]|].
    apply (spec_read _ _ _ (to_signed 32 addr)); [apply (yields_num Int32), (to_signed_range 32); lia|].
    apply spec_finish. change (negb (4 =? 4)) with false. cbv iota.
    assert (Eu : u32 (to_signed 32 addr) = addr).
    { unfold wrap. rewrite to_signed_mod by lia. apply Z.mod_small. exact Haddr. }
    unfold SendEncryptionKeyResponse, array_of. rewrite Eu, Ek. cbv zeta. fold c0 k1. rewrite En.
    rewrite Hkl, Hnl, drop_ge, !app_nil_r by (rewrite Hstack; lia). rewrite Hkl, Hnl in E.
    change (Z.of_nat 128) with 128 in E. unfold andThen, modify. rewrite E. cbn [option_bind mbind]. rewrite app_nil_r. reflexivity.
  - assert (He : m_Encryptor k2 = Some c0) by (rewrite Hk2; reflexivity).
    assert (Hd : m_Decryptor k2 = Some c0) by (rewrite Hk2; reflexivity).
    destruct Ha2. split; first [assumption | reflexivity | intros _; assumption].
Qed.

(** ** One packet in pieces *)

Section Packet.
Context (p : list Z) (st st' : Z) (es es' : stream) (user ch : AString) (cid cid' : Z).
Context (reply : option (list Z)) (told : list event) (key : option (list Z)) (b : list Z).
Hypothesis packet_framable : framable p.
Hypothesis packet_fits : (List.length (frame p) <= 16 * 1024)%nat.
Hypothesis packet_answered : forall ds, answered p st es ds user ch cid reply told key st' cid'.
Hypothesis packet_flight : flight es reply b es'.

#[local] Notation client_AddReceivedData := (client_AddReceivedData fresh stack mem rand).
#[local] Notation receive_chunk := (receive_chunk fresh stack mem rand).
#[local] Notation DataReceived := (DataReceived fresh stack mem rand).
#[local] Notation OnRead := (OnRead fresh stack mem rand).

(** While the packet arrives, and after it. *)
Definition Part (ds : stream) (l : list Z) (k : ConnectionClient) : Prop :=
  at_client st es ds user ch cid k /\ kwaiting k l.
Definition End_ (ds : stream) (k : ConnectionClient) : Prop :=
  at_client st' (rekey key es') (rekey key ds) user ch cid' k /\ kwaiting k [].
Definition told_all (o : list event) : Prop := socket_data o = b /\ told_events o = told.

Lemma flight_unique b1 es1 : flight es reply b1 es1 -> b1 = b /\ es1 = es'.
Proof.
  unfold flight in *. destruct reply; [|destruct packet_flight as [-> ->]; exact (fun H => H)].
  rewrite packet_flight. intros [= -> ->]. auto.
Qed.

Lemma at_flag ds k : at_client st es ds user ch cid k -> at_client st es ds user ch cid (k <| m_Cleared := false |>).
Proof. intros []. split; first [assumption | reflexivity]. Qed.

Lemma at_received_data rcv st0 es0 ds user0 ch0 cid0 k :
  at_client st0 es0 ds user0 ch0 cid0 k -> at_client st0 es0 ds user0 ch0 cid0 (k <| m_ReceivedData := rcv |>).
Proof. intros []. split; assumption. Qed.

Lemma added_part ds l x v k :
  Part ds l k -> frame p = (l ++ x) ++ v -> v <> [] ->
  exists k', client_AddReceivedData x k = Some (k', []) /\ Part ds (l ++ x) k'.
Proof.
  intros [Ha Hl] E Hv.
  assert (Hn : (List.length (l ++ x) <= 16 * 1024)%nat).
  { rewrite E in packet_fits. rewrite length_app in packet_fits. lia. }
  destruct (hears_part fresh HandlePacket errors m_Cleared fresh_length (tell Observer_PacketBufferFull) p l x v
    (m_ReceivedData k) (16 * 1024) (k <| m_Cleared := false |>) packet_framable E Hv Hn Hl) as (rcv' & E' & R').
  eexists. unfold ConnectionClient.client_AddReceivedData. rewrite E'. cbn [option_bind mbind]. split; [reflexivity|].
  split; [apply at_received_data, at_flag, Ha | exact R'].
Qed.

Lemma added_all ds l x k :
  Part ds l k -> l ++ x = frame p ->
  exists k' o, client_AddReceivedData x k = Some (k', o) /\ told_all o /\ End_ ds k'.
Proof.
  intros [Ha Hl] E. destruct (packet_answered ds _ (at_flag ds k Ha)) as (k1 & out & b1 & es1 & Ed & Hf & Hs & Ht & Ha1).
  apply flight_unique in Hf as [-> ->].
  destruct (hears_all fresh HandlePacket errors m_Cleared fresh_length (tell Observer_PacketBufferFull) p l x
    (m_ReceivedData k) (16 * 1024) (k <| m_Cleared := false |>) true k1 out packet_framable E packet_fits Hl Ed
    (ak_cleared _ _ _ _ _ _ _ Ha1)) as (rcv' & E' & R').
  eexists _, out. unfold ConnectionClient.client_AddReceivedData. rewrite E'. cbn [option_bind mbind]. split; [reflexivity|].
  split; [split; assumption | split; [apply at_received_data, Ha1 | exact R']].
Qed.

Lemma at_client_decryptor d d' k :
  at_client st es (Some d) user ch cid k -> at_client st es (Some d') user ch cid (k <| m_Decryptor := Some d' |>).
Proof. intros []. split; first [assumption | reflexivity]. Qed.

(** A chunk is added as its plain text. *)
Lemma chunk_decrypted ds l x px ds' k :
  Part ds l k -> is_Some ds -> decrypt ds x = Some (px, ds') ->
  is_Some ds' /\ exists k1, Part ds' l k1 /\ receive_chunk x k = client_AddReceivedData px k1.
Proof.
  intros [Ha Hl] [d ->] Hd. cbn [decrypt] in Hd. apply bind_Some in Hd as ([y d1] & Hd & [= <- <-]). split; [eauto|].
  exists (k <| m_Decryptor := Some d1 |>). split; [split; [eapply at_client_decryptor, Ha | exact Hl]|].
  unfold ConnectionClient.receive_chunk. rewrite (ak_ds _ _ _ _ _ _ _ Ha (ak_dec _ _ _ _ _ _ _ Ha)). cbn [option_bind mbind].
  rewrite Hd. cbn [option_bind mbind]. unfold andThen, modify. cbn [option_bind mbind app].
  destruct (client_AddReceivedData y _) as [[? ?]|]; reflexivity.
Qed.

Lemma chunk_heard_part ds l x px ds' v k :
  Part ds l k /\ is_Some ds -> decrypt ds x = Some (px, ds') -> frame p = (l ++ px) ++ v -> v <> [] ->
  exists k' o, receive_chunk x k = Some (k', o) /\ o = [] /\ Part ds' (l ++ px) k' /\ is_Some ds'.
Proof.
  intros [Ha Hs] Hd E Hv. destruct (chunk_decrypted _ _ _ _ _ _ Ha Hs Hd) as (Hs' & k1 & Ha1 & ->).
  destruct (added_part ds' l px v k1 Ha1 E Hv) as (k2 & E2 & Ha2). eauto 6.
Qed.

Lemma chunk_heard_all ds l x px ds' k :
  Part ds l k /\ is_Some ds -> decrypt ds x = Some (px, ds') -> l ++ px = frame p ->
  exists k' o, receive_chunk x k = Some (k', o) /\ told_all o /\ End_ ds' k'.
Proof.
  intros [Ha Hs] Hd E. destruct (chunk_decrypted _ _ _ _ _ _ Ha Hs Hd) as (Hs' & k1 & Ha1 & ->).
  apply added_all with (l := l); assumption.
Qed.

Lemma told_all_after a o : a = [] -> told_all o -> told_all (a ++ o).
Proof. intros -> Ho. exact Ho. Qed.

Lemma read_part ds l x px ds' v k :
  Part ds l k -> x <> [] -> decrypt ds x = Some (px, ds') -> frame p = (l ++ px) ++ v -> v <> [] ->
  exists k' o, OnRead (Some x) k = Some (k', o) /\ o = [] /\ Part ds' (l ++ px) k'.
Proof.
  intros Ha Hx Hd E Hv. destruct x as [|z x]; [contradiction|]. unfold ConnectionClient.OnRead, ConnectionClient.DataReceived.
  rewrite (ak_dec _ _ _ _ _ _ _ (proj1 Ha)). destruct ds as [d|]; cbn [secured].
  - destruct (in_chunks_pieces 512 receive_chunk (z :: x) ltac:(lia)) as (pieces & Ex & Hp & ->).
    destruct (feed_part receive_chunk (fun x => x) (fun x => x <> []) p (fun ds l k => Part ds l k /\ is_Some ds) (fun o => o = [])
      eq_refl ltac:(intros ? ? -> ->; reflexivity)
      (fun ds l t px ds' v s Ha _ Hd E Hv => chunk_heard_part ds l t px ds' v s Ha Hd E Hv)
      pieces (Some d) l px ds' v k) as (k' & o & E' & -> & [Ha' _]); try assumption.
    + split; [exact Ha | eauto].
    + eapply nonempty_pieces, Hp.
    + rewrite map_id, Ex. exact Hd.
    + eauto.
  - cbn in Hd. injection Hd as <- <-. destruct (added_part None l (z :: x) v k Ha E Hv) as (k' & -> & Ha'). eauto.
Qed.

Lemma read_all ds l x px ds' k :
  Part ds l k -> x <> [] -> decrypt ds x = Some (px, ds') -> l ++ px = frame p ->
  exists k' o, OnRead (Some x) k = Some (k', o) /\ told_all o /\ End_ ds' k'.
Proof.
  intros Ha Hx Hd E. destruct x as [|z x]; [contradiction|]. unfold ConnectionClient.OnRead, ConnectionClient.DataReceived.
  rewrite (ak_dec _ _ _ _ _ _ _ (proj1 Ha)). destruct ds as [d|]; cbn [secured].
  - destruct (in_chunks_pieces 512 receive_chunk (z :: x) ltac:(lia)) as (pieces & Ex & Hp & ->).
    apply (feed_all receive_chunk (fun x => x) (fun x => x <> []) p (fun _ Hx => Hx) (fun ds l k => Part ds l k /\ is_Some ds) End_
      (fun o => o = []) told_all told_all_after
      (fun ds l t px ds' v s Ha _ Hd E Hv => chunk_heard_part ds l t px ds' v s Ha Hd E Hv)
      (fun ds l t px ds' s Ha _ Hd E => chunk_heard_all ds l t px ds' s Ha Hd E)
      pieces (Some d) l px ds' k); try assumption.
    + split; [exact Ha | eauto].
    + eapply nonempty_pieces, Hp.
    + intros ->. discriminate.
    + rewrite map_id, Ex. exact Hd.
  - cbn in Hd. injection Hd as <- <-. apply added_all with (l := l); assumption.
Qed.

(** However the packet is cut into pieces. *)
Lemma packet_read xs ds ds' k :
  Part ds [] k -> Forall (fun x => x <> []) xs -> decrypt ds (concat xs) = Some (frame p, ds') ->
  exists k' o, process_all (fun x => OnRead (Some x)) xs k = Some (k', o) /\ told_all o /\ End_ ds' k'.
Proof.
  intros Ha Hxs Hd.
  apply (feed_all (fun x => OnRead (Some x)) (fun x => x) (fun x => x <> []) p (fun _ Hx => Hx) Part End_ (fun o => o = []) told_all told_all_after)
    with (ds := ds) (l := []) (px := frame p); try assumption.
  - intros d l x. apply (read_part d l x).
  - intros d l x. apply (read_all d l x).
  - intros ->. apply decrypt_length in Hd. pose proof (frame_not_empty p packet_framable). simpl in Hd. lia.
  - rewrite map_id. exact Hd.
  - reflexivity.
Qed.
End Packet.
End Session.
