(* ===== verification/Login.v ===== *)
(** * Login: the two ends of the signalling connection together

    The client's definitions of ConnectionClient.v and the server's of ClientHandle.v and
    Authenticator.v talk over a TCP connection that cuts what it carries anywhere.  The
    login completes, with the same key at both ends, and from then on messages arrive as
    they were sent. *)

From Stdlib Require Import Ascii String.
From S2P Require Import Prelude Bytes StringUtils ByteBuffer Cipher Framing Packetizer Messages Receiver ClientHandle HandleFacts ServerSession Authenticator ConnectionClient ClientSession.
#[local] Open Scope act_scope.

(** The members of the two ends that have the same name are the client's here. *)
#[local] Notation h_State := ClientHandle.m_State.
#[local] Notation PingStart := ClientHandle.m_PingStartTime.

Section Login.
Context `{PolarSSL, ServerKeys, !BlockCipher, !KeysOk}.

(** What PolarSSL promises of the server's key of 1024 bits: what is encrypted with the
    public key, in its DER form, is decrypted with the private one. *)
Class RsaKeyPair : Prop := {
  modulus : rsa_len = 128;
  rsa_decrypts m : bytes_ok m -> (List.length m <= 16)%nat ->
    exists e, rsa_encrypt GetPublicKeyDER m = Some e /\ List.length e = 128%nat /\ bytes_ok e
      /\ rsa_pkcs1_decrypt e = Some m
}.
Context `{!RsaKeyPair}.

(** Memory of the two processes, the client's random numbers. *)
Context (fresh : nat -> list Z) (fresh_length : forall n, List.length (fresh n) = n).
Context (client_fresh : nat -> list Z) (client_fresh_length : forall n, List.length (client_fresh n) = n).
Context (stack : nat -> list Z) (stack_length : forall n, List.length (stack n) = n).
Context (mem : cAesCfb128) (rand : nat -> Z).

#[local] Notation hear := (hear fresh).
#[local] Notation read := (fun x => OnRead client_fresh stack mem rand (Some x)).

(** ** A conversation *)

(** How TCP cuts what the client and the server send in each round, when the tick that
    handles a piece of the client's data is, and when the authenticator answers and the next
    tick is. *)
Context (cut_up : nat -> list Z -> list piece) (cut_down : nat -> list Z -> list (list Z)).
Context (auth_time tick_time : Z).

Definition verdict_given (v : verdict) : Act cClientHandle request := fun c =>
  match v with
  | AuthenticateUser a_ClientID a_Name a_UUID =>
    if m_UniqueID c =? a_ClientID then Authenticate auth_time a_Name a_UUID c else skip c
  | KickUser a_ClientID a_Reason =>
    if m_UniqueID c =? a_ClientID then Kick a_Reason c else skip c
  end.

(** The authenticator's answer to the requests of the handle, and the tick after it. *)
Fixpoint authenticator (rs : list request) : Act cClientHandle request :=
  match rs with
  | [] => skip
  | Authenticator_Authenticate id name pw :: rs =>
    match Execute_round (cAuthenticator_Authenticate id name pw []) with
    | Some (v, _) => verdict_given v;; ServerTick fresh tick_time;; authenticator rs
    | None => authenticator rs
    end
  | _ :: rs => authenticator rs
  end.

(** A round: the server hears the client out, then the client reads what the server has
    sent.  The new data from the client, the server's requests to its other parts and what
    the client's observer is told. *)
Definition round (n : nat) (up : list Z) (c : cClientHandle) (k : ConnectionClient)
    : option (cClientHandle * ConnectionClient * list Z * list request * list event) :=
  '(c, out) ← process_all hear (cut_up n up) c;
  '(c, out') ← authenticator (calls out) c;
  '(k, evs) ← process_all read (cut_down n (link_data (out ++ out'))) k;
  Some (c, k, socket_data evs, calls (out ++ out'), told_events evs).

Fixpoint converse (n : nat) (up : list Z) (c : cClientHandle) (k : ConnectionClient)
    : option (cClientHandle * ConnectionClient * list Z * list request * list event) :=
  match n with
  | O => Some (c, k, up, [], [])
  | S n =>
    '(c, k, up, reqs, told) ← round n up c k;
    '(c, k, up, reqs', told') ← converse n up c k;
    Some (c, k, up, reqs ++ reqs', told ++ told')
  end.

(** The client as it is when the connection is made: it was told to join a channel. *)
Definition connecting (server user room : AString) : option (ConnectionClient * list event) :=
  (Init server user;; JoinChannel server room;; OnConnect client_fresh) (ConnectionClient_ctor client_fresh).

(** The server's handle of the connection. *)
Definition accepted (ip : AString) (now id addr : Z) (mem : cAesCfb128) : option (cClientHandle * list request) :=
  OnLinkCreated (cClientHandle_ctor fresh ip now id addr mem).

(** When the first ping is due. *)
Definition first_ping : Z := auth_time + 3 * 1000000000 + PING_TIME_MS.

Hypothesis cut_up_all : forall n l, concat (map snd (cut_up n l)) = l /\ Forall (fun t => t.2 <> []) (cut_up n l).
Hypothesis cut_down_all : forall n l, concat (cut_down n l) = l /\ Forall (fun x => x <> []) (cut_down n l).

Context (id addr : Z) (ip user room : AString).
Hypothesis addr_ok : in_width 32 addr.
Hypothesis ip_ok : bytes_ok ip /\ (List.length ip <= 1000)%nat.
Hypothesis user_ok : bytes_ok user /\ (List.length user <= 1000)%nat.
Hypothesis room_ok : bytes_ok room /\ (List.length room <= 1000)%nat.

(** Both ends wait, and [data] is on its way to the server: the packet [p], encrypted.  The
    client may already use the [key] that the packet is about to tell the server. *)
Definition stage (ps : Z) (st : eState) (cst cid : Z) (key : option (list Z)) (up down : stream)
    (p data : list Z) (c : cClientHandle) (k : ConnectionClient) : Prop :=
  (exists up0, at_server id addr ip ps up0 st c /\ decrypt up0 data = Some (frame p, up)) /\ waiting c []
  /\ sends (Some (down, [])) c /\ at_client cst (rekey key up) (rekey key down) user room cid k /\ kwaiting k []
  /\ bytes_ok data.

Lemma concat_ok (ls : list (list Z)) : bytes_ok (concat ls) -> Forall bytes_ok ls.
Proof.
  induction ls as [|l ls IH]; intros Hl; [constructor|]. cbn [concat] in Hl. apply Forall_app in Hl as [Hl Hls].
  constructor; auto.
Qed.

(** The server hears a packet out. *)
Lemma server_half n ps st cst cid key up down p data c k reqs ps' st' down1 out T :
  stage ps st cst cid key up down p data c k ->
  framable p -> (List.length (frame p) <= 64 * 1024)%nat -> st <> csAuthenticated -> after_tick st' = st' -> Forall no_link reqs ->
  (forall now, served fresh now p id addr ip ps st (Some (down, [])) reqs ps' key st' (Some (down1, out))) ->
  st <> csWorking \/ T <= PingStart c + PING_TIME_MS /\ Forall (fun t => t.1 < T) (cut_up n data) ->
  st' <> csWorking \/ st = csWorking ->
  exists c' o, process_all hear (cut_up n data) c = Some (c', o) /\ calls o = reqs /\ link_data o = out
    /\ at_server id addr ip ps' (rekey key up) st' c' /\ waiting c' [] /\ sends (Some (down1, [])) c'
    /\ m_TicksSinceLastPacket c' = 1 /\ ClientHandle.m_Username c' = ClientHandle.m_Username c
    /\ (st = csWorking -> T <= PingStart c' + PING_TIME_MS).
Proof.
  intros ((up0 & Ha & Hd) & Hl & Hw & Hk & Hkl & Hok) Hp Hfit Hst Hst' Hreqs Hserved HT Hquiet.
  destruct (cut_up_all n data) as [Hcut Hne].
  destruct (packet_heard fresh fresh_length p id addr ip ps ps' st st' key (Some (down, [])) (Some (down1, out)) reqs T
    Hp Hfit Hserved Hst eq_refl ltac:(eauto) Hreqs (cut_up n data) up0 up c) as (c' & o & E & [Hc Ho] & Ha' & Hl' & Ht & Hs & Hw').
  - split_and!; try assumption. right. destruct HT as [HT|[HT _]]; auto.
  - destruct HT as [HT|[_ HT]].
    + eapply Forall_impl; [exact Hne|]. intros t Hx. split; [exact Hx|]. right. left. exact HT.
    + apply Forall_forall. intros t Hin. rewrite Forall_forall in Hne, HT. split; [apply Hne, Hin|]. right. right. apply HT, Hin.
  - rewrite Hcut. exact Hd.
  - exists c', o. rewrite Hst' in Ha', Hw'. split_and!; try assumption.
    + apply Hw'. destruct Hquiet; auto.
    + eapply (hear_user fresh fresh_length); [apply Ha | | exact E]. rewrite <- Hcut in Hok. apply concat_ok in Hok.
      apply (Forall_map snd) in Hok. exact Hok.
    + intros Hworking. destruct Hs as [Hs|[Hs|Hs]]; [discriminate | contradiction | exact Hs].
Qed.

(** The client reads one. *)
Lemma client_half n cst cid es ds ds' q data k reply told key cst' cid' b es' :
  at_client cst es ds user room cid k -> kwaiting k [] -> decrypt ds data = Some (frame q, ds') ->
  framable q -> (List.length (frame q) <= 16 * 1024)%nat ->
  (forall ds, answered client_fresh stack mem rand q cst es ds user room cid reply told key cst' cid') ->
  flight es reply b es' ->
  exists k' evs, process_all read (cut_down n data) k = Some (k', evs) /\ socket_data evs = b /\ told_events evs = told
    /\ at_client cst' (rekey key es') (rekey key ds') user room cid' k' /\ kwaiting k' [].
Proof.
  intros Ha Hl Hd Hq Hfit Hans Hf. destruct (cut_down_all n data) as [Hcut Hne].
  destruct (packet_read client_fresh client_fresh_length stack mem rand q cst cst' es es' user room cid cid' reply told key b
    Hq Hfit Hans Hf (cut_down n data) ds ds' k) as (k' & evs & E & [Hs Ht] & Ha' & Hl').
  - split; assumption.
  - exact Hne.
  - rewrite Hcut. exact Hd.
  - exists k', evs. auto.
Qed.

(** The server's answer is the client's next packet. *)
Lemma plain_round n ps st cst cid key up down p data c k q r told key' ps' st' cst' cid' :
  stage ps st cst cid key up down p data c k ->
  framable p -> (List.length (frame p) <= 64 * 1024)%nat -> st <> csAuthenticated -> st <> csWorking ->
  after_tick st' = st' -> st' <> csWorking ->
  framable q -> (List.length (frame q) <= 16 * 1024)%nat -> framable r ->
  (forall now, served fresh now p id addr ip ps st (Some (down, [])) [] ps' key st' (pushed (frame q) (Some (rekey key down, [])))) ->
  (forall ds, answered client_fresh stack mem rand q cst (rekey key up) ds user room cid (Some r) told key' cst' cid') ->
  exists c' k' data' up' down', round n data c k = Some (c', k', data', [], told)
    /\ stage ps' st' cst' cid' key' up' down' r data' c' k'
    /\ encrypt (rekey key up) (frame r) = Some (data', up') /\ option_map snd (encrypt (rekey key down) (frame q)) = Some down'.
Proof.
  intros Hs Hp Hpl Hst1 Hst2 Hst3 Hst4 Hq Hql Hr Hserved Hans.
  destruct (encrypt_total (rekey key down) (frame q) (frame_bytes q Hq)) as (out & down1 & Eq & _ & _).
  destruct (encrypt_total (rekey key up) (frame r) (frame_bytes r Hr)) as (b & es' & Er & Hb & _).
  unfold pushed in Hserved. cbn [option_bind mbind] in Hserved. rewrite Eq in Hserved. cbn [option_bind mbind app] in Hserved.
  destruct (server_half n _ _ _ _ _ _ _ _ _ _ _ [] ps' st' down1 out 0 Hs Hp Hpl Hst1 Hst3 ltac:(constructor) Hserved ltac:(auto) ltac:(auto))
    as (c' & o & E1 & Hc & Ho & Ha & Hl & Hw & _).
  destruct Hs as (_ & _ & _ & Hk & Hkl & _).
  destruct (client_half n cst cid (rekey key up) (rekey key down) down1 q out k (Some r) told key' cst' cid' b es') as
    (k' & evs & E2 & Hsd & Ht & Hk' & Hkl'); try assumption.
  { apply (decrypt_encrypt _ _ _ _ (frame_bytes q Hq) Eq). }
  exists c', k', b, es', down1. split_and!; [| |exact Er | rewrite Eq; reflexivity].
  - unfold round. rewrite E1. cbn [option_bind mbind]. rewrite Hc. cbn [authenticator skip option_bind mbind].
    rewrite app_nil_r, Hc, Ho, E2. cbn [option_bind mbind]. congruence.
  - split_and!; try assumption. exists (rekey key up). split; [exact Ha|].
    apply (decrypt_encrypt _ _ _ _ (frame_bytes r Hr) Er).
Qed.

(** ** The packets are small *)

Lemma small_packet t fs :
  in_width 32 t -> Forall field_ok fs -> (5 + foldr Nat.add 0 (map field_size fs) <= 8 * 1024)%nat ->
  framable (payload t fs) /\ (List.length (frame (payload t fs)) <= 16 * 1024)%nat.
Proof.
  intros Ht Hfs Hs. pose proof (payload_length t fs Ht Hfs) as Hl.
  assert (Hn : Z.of_nat (List.length (payload t fs)) < 2 ^ 32) by lia.
  destruct (varint_spec (Z.of_nat (List.length (payload t fs))) ltac:(lia)) as (_ & _ & H5 & _).
  split; [split; [apply payload_ok; assumption | exact Hn]|]. unfold frame. rewrite length_app. lia.
Qed.

Lemma as_string s : bytes_ok s /\ (List.length s <= 1000)%nat -> value_typed (VString s).
Proof. intros [Hs Hl]. split; [exact Hs | lia]. Qed.

#[local] Ltac fields := repeat (apply Forall_cons; split;
  [first [assumption | exact I | apply as_string; assumption | apply (wrap_bound 32); lia
         | split; [first [discriminate | lia] | first [reflexivity | lia]]
         | apply (to_signed_range 16); lia | apply (to_signed_range 32); lia | split; simpl; lia]|]); apply Forall_nil; exact I.
#[local] Ltac small := apply small_packet; [split; lia | fields | cbn [foldr map field_size]; lia].

Lemma small_StatusRequest : framable (StatusRequest_packet SERVER PORT 2) /\ (List.length (frame (StatusRequest_packet SERVER PORT 2)) <= 16 * 1024)%nat.
Proof.
  apply small_packet; [split; lia | | cbn [foldr map field_size]; change (List.length SERVER) with 9%nat; change (List.length (chars "mcu")) with 3%nat; lia].
  assert (Hs : value_typed (VString SERVER)) by (split; [repeat constructor; lia | reflexivity]). pose proof mcu_ok as Hm. fields.
Qed.
Lemma small_StatusReply : framable (StatusReply_packet 2 ip) /\ (List.length (frame (StatusReply_packet 2 ip)) <= 16 * 1024)%nat.
Proof. small. Qed.
Lemma small_LoginStart : framable LoginStart_packet /\ (List.length (frame LoginStart_packet) <= 16 * 1024)%nat.
Proof. small. Qed.
Lemma small_EncryptionRequest :
  framable (EncryptionRequest_packet GetServerID GetPublicKeyDER addr)
  /\ (List.length (frame (EncryptionRequest_packet GetServerID GetPublicKeyDER addr)) <= 16 * 1024)%nat.
Proof. destruct public_key_ok as [Hk Hkl], server_id_ok as [Hs Hsl]. pose proof (as_string _ (conj Hs Hsl)) as Hid.
  apply small_packet; [split; lia | fields | cbn [foldr map field_size]; lia]. Qed.
Lemma small_EncryptionResponse EncKey EncNonce :
  bytes_ok EncKey -> List.length EncKey = 128%nat -> bytes_ok EncNonce -> List.length EncNonce = 128%nat ->
  framable (EncryptionResponse_packet EncKey EncNonce) /\ (List.length (frame (EncryptionResponse_packet EncKey EncNonce)) <= 16 * 1024)%nat.
Proof. intros Hk Hkl Hn Hnl. small. Qed.
Lemma small_LoginAllow : framable LoginAllow_packet /\ (List.length (frame LoginAllow_packet) <= 16 * 1024)%nat.
Proof. small. Qed.
Lemma small_LoginInfo : framable (LoginInfo_packet user) /\ (List.length (frame (LoginInfo_packet user)) <= 16 * 1024)%nat.
Proof. small. Qed.
Lemma small_LoginSuccess : framable (LoginSuccess_packet id) /\ (List.length (frame (LoginSuccess_packet id)) <= 16 * 1024)%nat.
Proof. small. Qed.
Lemma small_JoinRoom : framable (JoinRoom_packet room) /\ (List.length (frame (JoinRoom_packet room)) <= 16 * 1024)%nat.
Proof. small. Qed.

#[local] Ltac sizes := lazymatch goal with
  | |- context [StatusRequest_packet] => apply small_StatusRequest
  | |- context [StatusReply_packet] => apply small_StatusReply
  | |- context [LoginStart_packet] => apply small_LoginStart
  | |- context [EncryptionRequest_packet] => apply small_EncryptionRequest
  | |- context [EncryptionResponse_packet] => apply small_EncryptionResponse; assumption
  | |- context [LoginAllow_packet] => apply small_LoginAllow
  | |- context [LoginInfo_packet] => apply small_LoginInfo
  | |- context [LoginSuccess_packet] => apply small_LoginSuccess
  | |- context [JoinRoom_packet] => apply small_JoinRoom
  end.
#[local] Ltac sizes_64 := eapply Nat.le_trans; [sizes | lia].

#[local] Ltac side := lazymatch goal with
  | |- _ <> _ => discriminate
  | |- framable _ => sizes
  | |- (_ <= 16 * 1024)%nat => sizes
  | |- (_ <= 64 * 1024)%nat => sizes_64
  | |- after_tick _ = _ => reflexivity
  | |- _ => idtac
  end.

(** ** The rounds of the login *)

Lemma accepted_at now mem0 : exists c, accepted ip now id addr mem0 = Some (c, [])
  /\ at_server id addr ip 1 None csConnected c /\ waiting c [] /\ sends (Some (None, [])) c.
Proof.
  eexists. split; [reflexivity|]. split_and!; [|apply rep_ctor; rewrite fresh_length; lia | split; reflexivity].
  split; try reflexivity. destruct (handle_ctor_ok fresh fresh_length ip now id addr mem0 (proj1 ip_ok) (proj2 ip_ok)) as [].
  split; assumption.
Qed.

(** A client that has never been connected. *)
Record unconnected (k : ConnectionClient) : Prop := {
  un_out : represents (m_OutPacketBuffer k) (q_empty (16 * 1024));
  un_received : kwaiting k [];
  un_state : m_State k = 1;
  un_plain : m_IsEncrypted k = false;
  un_id : m_ClientID k = 0;
  un_connect : m_bConnect k = false;
  un_cleared : m_Cleared k = false
}.

Lemma unconnected_ctor : unconnected (ConnectionClient_ctor client_fresh).
Proof.
  assert (R : represents (new_buffer client_fresh (16 * 1024)) (q_empty (16 * 1024))) by (apply rep_ctor; rewrite client_fresh_length; lia).
  split; first [exact R | reflexivity].
Qed.

Lemma connecting_from server k0 : unconnected k0 ->
  exists k evs, (Init server user;; JoinChannel server room;; OnConnect client_fresh) k0 = Some (k, Socket_connect server :: evs)
  /\ socket_data evs = frame (StatusRequest_packet SERVER PORT 2) /\ told_events evs = []
  /\ at_client 1 None None user room 0 k /\ kwaiting k [].
Proof.
  intros [R Hl Hst He Hid Hc Hcl].
  set (k1 := ((((k0 <| server_ := server |>) <| m_rUserName := user |>) <| m_rChannel := room |>)
                <| server_ := server |>) <| m_bConnect := true |>).
  assert (Ha : at_client 1 None None user room 0 k1).
  { split; first [assumption | reflexivity | change (m_IsEncrypted k1) with (m_IsEncrypted k0); rewrite He; discriminate]. }
  assert (Hf : Forall field_ok [FValue (VString (chars "mcu")); FValue (VString SERVER); FValue (VNum Int32 PORT); FValue (VNum Int32 2)]).
  { assert (Hs : value_typed (VString SERVER)) by (split; [repeat constructor; lia | reflexivity]). pose proof mcu_ok as Hm. fields. }
  destruct (packet_sent client_fresh client_fresh_length 0 _ _ _ _ _ _ _ _ Ha ltac:(split; lia) Hf) as (k & evs & b & es' & E & Ee & Hs & Ht & Ha' & Hk).
  { cbn [foldr map field_size]. change (List.length SERVER) with 9%nat. change (List.length (chars "mcu")) with 3%nat. lia. }
  injection Ee as <- <-. exists k, evs. split_and!; try assumption; [|rewrite Hk; exact Hl].
  unfold JoinChannel, OnConnect, on_state, andThen. unfold Init, modify, tell. cbn [option_bind mbind].
  match goal with |- context [negb (m_bConnect ?x)] => change (m_bConnect x) with (m_bConnect k0) end.
  rewrite Hc. cbn [negb option_bind mbind].
  match goal with |- context [cPacketizer client_fresh 0 _ ?x] => change x with k1 end.
  rewrite E. reflexivity.
Qed.

Lemma secret_ok : bytes_ok (SharedSecret rand) /\ List.length (SharedSecret rand) = 16%nat.
Proof.
  unfold SharedSecret. split; [|rewrite length_map, length_seq; reflexivity].
  apply Forall_map, Forall_forall. intros i _. unfold byte_ok. pose proof (Z.mod_pos_bound (rand i) 255 ltac:(lia)). lia.
Qed.

Lemma round1 data c k : stage 1 csConnected 1 0 None None None (StatusRequest_packet SERVER PORT 2) data c k ->
  exists c' k' data', round 4 data c k = Some (c', k', data', [], [])
    /\ stage 2 csConnected 2 0 None None None LoginStart_packet data' c' k'.
Proof.
  intros Hs. destruct (plain_round 4 _ _ _ _ _ None None _ data c k (StatusReply_packet 2 ip) LoginStart_packet [] None 2 csConnected 2 0 Hs)
    as (c' & k' & data' & up' & down' & E & Hs' & Eu & Ed); side.
  - intros now. assert (Hsv : value_typed (VString SERVER)) by (split; [repeat constructor; lia | reflexivity]).
    apply (served_StatusRequest fresh fresh_length); [exact Hsv | split; [discriminate | reflexivity] | apply ip_ok | apply ip_ok].
  - intros ds. apply answered_StatusReply; [exact client_fresh_length | apply as_string, ip_ok].
  - injection Eu as <- <-. injection Ed as <-. eauto.
Qed.

Lemma round2 data c k : stage 2 csConnected 2 0 None None None LoginStart_packet data c k ->
  exists c' k' data' EncKey EncNonce, round 3 data c k = Some (c', k', data', [], [])
    /\ stage 2 csConnected 2 0 (Some (SharedSecret rand)) None None (EncryptionResponse_packet EncKey EncNonce) data' c' k'
    /\ (List.length EncKey = 128%nat /\ bytes_ok EncKey /\ rsa_pkcs1_decrypt EncKey = Some (SharedSecret rand))
    /\ (List.length EncNonce = 128%nat /\ bytes_ok EncNonce /\ rsa_pkcs1_decrypt EncNonce = Some (le_bytes 4 addr)).
Proof.
  intros Hs. destruct secret_ok as [Hsec Hsl].
  destruct (rsa_decrypts (SharedSecret rand) Hsec ltac:(lia)) as (EncKey & Ek & Hkl & Hk & Dk).
  destruct (rsa_decrypts (le_bytes 4 addr) (le_bytes_ok 4 addr) ltac:(rewrite length_le_bytes; lia)) as (EncNonce & En & Hnl & Hn & Dn).
  destruct public_key_ok as [Hpk Hpl]. destruct server_id_ok as [Hid Hidl].
  destruct (plain_round 3 _ _ _ _ _ None None _ data c k (EncryptionRequest_packet GetServerID GetPublicKeyDER addr)
    (EncryptionResponse_packet EncKey EncNonce) [] (Some (SharedSecret rand)) 2 csConnected 2 0 Hs)
    as (c' & k' & data' & up' & down' & E & Hs' & Eu & Ed); side.
  - intros now. apply (served_LoginStart fresh fresh_length).
  - intros ds. apply answered_EncryptionRequest; try assumption. apply as_string. split; assumption.
  - injection Eu as <- <-. injection Ed as <-. exists c', k', (frame (EncryptionResponse_packet EncKey EncNonce)), EncKey, EncNonce.
    split; [exact E|]. split; [exact Hs'|]. auto.
Qed.

Lemma round3 EncKey EncNonce data c k :
  List.length EncKey = 128%nat /\ bytes_ok EncKey /\ rsa_pkcs1_decrypt EncKey = Some (SharedSecret rand) ->
  List.length EncNonce = 128%nat /\ bytes_ok EncNonce /\ rsa_pkcs1_decrypt EncNonce = Some (le_bytes 4 addr) ->
  stage 2 csConnected 2 0 (Some (SharedSecret rand)) None None (EncryptionResponse_packet EncKey EncNonce) data c k ->
  exists c' k' data' up down, round 2 data c k = Some (c', k', data', [], [])
    /\ stage 2 csConnected 2 0 None up down (LoginInfo_packet user) data' c' k'.
Proof.
  intros (Hkl & Hk & Dk) (Hnl & Hn & Dn) Hs. destruct secret_ok as [Hsec Hsl].
  assert (Hdec : forall e m, List.length e = 128%nat -> rsa_pkcs1_decrypt e = Some m -> RsaPrivateKey_Decrypt e MAX_ENC_LEN = Some m).
  { intros e m He Hm. unfold RsaPrivateKey_Decrypt. rewrite modulus, He. change (Z.of_nat 128 <? 128) with false.
    change (MAX_ENC_LEN <? 128) with false. cbv iota. rewrite take_ge by (rewrite He; lia). exact Hm. }
  destruct (plain_round 2 _ _ _ _ _ None None _ data c k LoginAllow_packet (LoginInfo_packet user) [] None 2 csConnected 2 0 Hs)
    as (c' & k' & data' & up' & down' & E & Hs' & Eu & Ed); side.
  - intros now. apply (served_EncryptionResponse fresh fresh_length); try assumption; try (rewrite ?Hkl, ?Hnl; discriminate); apply Hdec; assumption.
  - intros ds. apply answered_LoginAllow; [exact client_fresh_length | apply as_string, user_ok | apply user_ok].
  - eauto 8.
Qed.

(** Both ends are logged in, and wait; no ping is due before [T]. *)
Definition session (T : Z) (c : cClientHandle) (k : ConnectionClient) : Prop := exists up down,
  at_server id addr ip 3 up csWorking c /\ waiting c [] /\ sends (Some (down, [])) c
  /\ at_client 3 up down user room (u32 id) k /\ kwaiting k []
  /\ ClientHandle.m_Username c = user /\ T <= PingStart c + PING_TIME_MS.

(** The authenticator answers, and the answer is sent in the next tick. *)
Lemma authenticator_answers up down c :
  at_server id addr ip 2 up csAuthenticating c -> waiting c [] -> sends (Some (down, [])) c -> m_TicksSinceLastPacket c = 1 ->
  tick_time < first_ping ->
  exists c' o down' out, authenticator [Authenticator_Authenticate id user user] c = Some (c', o) /\ calls o = []
    /\ link_data o = out /\ encrypt down (frame (LoginSuccess_packet id)) = Some (out, down')
    /\ at_server id addr ip 3 up csWorking c' /\ waiting c' [] /\ sends (Some (down', [])) c'
    /\ ClientHandle.m_Username c' = user /\ first_ping <= PingStart c' + PING_TIME_MS.
Proof.
  intros Ha Hl Hw Ht Htick.
  destruct (authenticated auth_time user [] _ _ _ _ _ _ c Ha Hl Hw) as (c1 & E1 & Ha1 & Hl1 & Ht1 & Hn1 & Hp1 & Hw1).
  destruct (encrypt_total down (frame (LoginSuccess_packet id)) (frame_bytes _ (proj1 small_LoginSuccess))) as (out & down' & Ee & _ & _).
  unfold pushed in Hw1. cbn [option_bind mbind] in Hw1. rewrite Ee in Hw1. cbn [option_bind mbind app] in Hw1.
  assert (Ht2 : m_TicksSinceLastPacket c1 < 600) by lia.
  destruct (idle_tick fresh tick_time _ _ _ _ _ _ _ _ c1 Ha1 Hl1 Hw1 Ht2) as (c2 & o & E2 & Ha2 & Hl2 & Hc2 & Hp2 & Hlink & Hw2).
  assert (Hn2 : ClientHandle.m_Username c2 = user).
  { rewrite <- Hn1. apply (tick_user _ _ _ (ServerTick_ticked fresh fresh_length _ _ _ _ (as_ok _ _ _ _ _ _ _ Ha1) E2)). }
  exists c2, o, down', out. split_and!; try assumption.
  - cbn [authenticator]. unfold cAuthenticator_Authenticate. cbn [app Execute_round].
    rewrite judge_same_name. unfold andThen, verdict_given. rewrite (as_id _ _ _ _ _ _ _ Ha), Z.eqb_refl, E1.
    cbn [option_bind mbind]. rewrite E2. cbn [option_bind mbind skip app]. rewrite app_nil_r. reflexivity.
  - apply Hw2. right. rewrite Hp1. exact Htick.
  - unfold first_ping. lia.
Qed.

Lemma round4 up down data c k :
  tick_time < first_ping -> stage 2 csConnected 2 0 None up down (LoginInfo_packet user) data c k ->
  exists c' k' data' up' down',
    round 1 data c k = Some (c', k', data', [Authenticator_Authenticate id user user], [Observer_OnSignedIn])
    /\ stage 3 csWorking 3 (u32 id) None up' down' (JoinRoom_packet room) data' c' k'
    /\ ClientHandle.m_Username c' = user /\ first_ping <= PingStart c' + PING_TIME_MS.
Proof.
  intros Htick Hs.
  destruct (server_half 1 _ _ _ _ _ _ _ _ _ _ _ [Authenticator_Authenticate id user user] 2 csAuthenticating down [] 0 Hs)
    as (c1 & o1 & E1 & Hc1 & Ho1 & Ha1 & Hl1 & Hw1 & Ht1 & _ & _); side.
  { repeat constructor. }
  { intros now. apply (served_LoginInfo fresh fresh_length), as_string, user_ok. }
  { left. discriminate. }
  { left. discriminate. }
  destruct (authenticator_answers _ _ c1 Ha1 Hl1 Hw1 Ht1 Htick) as (c2 & o2 & down' & out & E2 & Hc2 & Ho2 & Ee & Ha2 & Hl2 & Hw2 & Hn2 & Hp2).
  destruct Hs as (_ & _ & _ & Hk & Hkl & _).
  destruct (encrypt_total up (frame (JoinRoom_packet room)) (frame_bytes _ (proj1 small_JoinRoom))) as (b & up' & Er & Hb & _).
  destruct (client_half 1 2 0 up down down' (LoginSuccess_packet id) out k (Some (JoinRoom_packet room)) [Observer_OnSignedIn] None 3 (u32 id) b up')
    as (k' & evs & E3 & Hsd & Ht & Hk' & Hkl').
  { exact Hk. }
  { exact Hkl. }
  { apply (decrypt_encrypt _ _ _ _ (frame_bytes _ (proj1 small_LoginSuccess)) Ee). }
  { apply small_LoginSuccess. }
  { apply small_LoginSuccess. }
  { intros ds. apply (answered_LoginSuccess client_fresh client_fresh_length); [apply as_string, room_ok | apply room_ok]. }
  { exact Er. }
  exists c2, k', b, up', down'. split; [|split; [|auto]].
  - unfold round. rewrite E1. cbn [option_bind mbind]. rewrite Hc1, E2. cbn [option_bind mbind].
    rewrite link_data_app, calls_app, Hc1, Hc2, Ho1, Ho2. cbn [app]. rewrite E3. cbn [option_bind mbind]. congruence.
  - split_and!; try assumption. exists up. split; [exact Ha2|].
    apply (decrypt_encrypt _ _ _ _ (frame_bytes _ (proj1 small_JoinRoom)) Er).
Qed.

Lemma nothing_cut n : cut_down n [] = [].
Proof.
  destruct (cut_down_all n []) as [Hc Hn]. destruct (cut_down n []) as [|x l]; [reflexivity|].
  apply Forall_cons in Hn as [Hx _]. apply app_eq_nil in Hc as [Hc _]. contradiction.
Qed.

(** A packet that only makes a request. *)
Lemma request_round n T up down p r data c k :
  stage 3 csWorking 3 (u32 id) None up down p data c k -> ClientHandle.m_Username c = user ->
  T <= PingStart c + PING_TIME_MS -> Forall (fun t => t.1 < T) (cut_up n data) ->
  framable p -> (List.length (frame p) <= 64 * 1024)%nat -> no_link r -> authenticator [r] = skip ->
  (forall now, served fresh now p id addr ip 3 csWorking (Some (down, [])) [r] 3 None csWorking (Some (down, []))) ->
  exists c', round n data c k = Some (c', k, [], [r], []) /\ session T c' k.
Proof.
  intros Hs Hn HT Hearly Hp Hpl Hr Hauth Hserved.
  destruct (server_half n _ _ _ _ _ _ _ _ _ _ _ [r] 3 csWorking down [] T Hs)
    as (c1 & o1 & E1 & Hc1 & Ho1 & Ha1 & Hl1 & Hw1 & _ & Hn1 & Hp1).
  { exact Hp. }
  { exact Hpl. }
  { discriminate. }
  { reflexivity. }
  { apply Forall_singleton, Hr. }
  { exact Hserved. }
  { right. split; assumption. }
  { right. reflexivity. }
  destruct Hs as (_ & _ & _ & Hk & Hkl & _).
  exists c1. split.
  - unfold round. rewrite E1. cbn [option_bind mbind]. rewrite Hc1, Hauth. cbn [skip option_bind mbind].
    rewrite app_nil_r, Hc1, Ho1, nothing_cut. reflexivity.
  - exists up, down. split_and!; try assumption; [congruence | auto].
Qed.

(** ** What the two ends achieve *)

(** C1. However TCP cuts the ten flights, the login completes: after five rounds the server
    has asked the authenticator for the user and the channel manager for the channel, both
    once and in this order; the client has been told that it is signed in, once; and both
    ends are in their working states, with the user's name and the server's id for the
    client, the same cipher states at both ends and nothing left in any buffer. *)
Theorem login_completes server now mem0 :
  tick_time < first_ping -> (forall data, Forall (fun t => t.1 < first_ping) (cut_up 0 data)) ->
  exists c0 k0 evs c k, accepted ip now id addr mem0 = Some (c0, [])
    /\ connecting server user room = Some (k0, evs)
    /\ converse 5 (socket_data evs) c0 k0
       = Some (c, k, [], [Authenticator_Authenticate id user user; Manager_doUserJoinChannel id room], [Observer_OnSignedIn])
    /\ session first_ping c k.
Proof.
  intros Htick Hearly.
  destruct (accepted_at now mem0) as (c0 & E0 & Ha0 & Hl0 & Hw0).
  destruct (connecting_from server _ unconnected_ctor) as (k0 & evs & Ek & Hs0 & _ & Hk0 & Hkl0).
  assert (S0 : stage 1 csConnected 1 0 None None None (StatusRequest_packet SERVER PORT 2) (socket_data evs) c0 k0).
  { rewrite Hs0. split_and!; try assumption; [|apply frame_bytes, small_StatusRequest].
    exists None. split; [exact Ha0 | reflexivity]. }
  destruct (round1 _ _ _ S0) as (c1 & k1 & d1 & E1 & S1). destruct (round2 _ _ _ S1) as (c2 & k2 & d2 & EK & EN & E2 & S2 & HK & HN).
  destruct (round3 _ _ _ _ _ HK HN S2) as (c3 & k3 & d3 & up3 & down3 & E3 & S3).
  destruct (round4 _ _ _ _ _ Htick S3) as (c4 & k4 & d4 & up4 & down4 & E4 & S4 & Hn4 & Hp4).
  destruct (request_round 0 first_ping _ _ _ (Manager_doUserJoinChannel id room) _ _ _ S4 Hn4 Hp4 (Hearly d4)) as (c5 & E5 & S5).
  - apply small_JoinRoom.
  - sizes_64.
  - exact I.
  - reflexivity.
  - intros tm. apply (served_JoinRoom fresh fresh_length), as_string, room_ok.
  - exists c0, k0, (Socket_connect server :: evs), c5, k4. split; [exact E0|]. split; [exact Ek|]. split; [|exact S5].
    change (socket_data (Socket_connect server :: evs)) with (socket_data evs). cbn [converse].
    rewrite E1. cbn [option_bind mbind]. rewrite E2. cbn [option_bind mbind]. rewrite E3. cbn [option_bind mbind].
    rewrite E4. cbn [option_bind mbind]. rewrite E5. reflexivity.
Qed.

Lemma packet_bounds n t fs :
  in_width 32 t -> Forall field_ok fs -> (10 + foldr Nat.add 0 (map field_size fs) <= n)%nat -> Z.of_nat n < 2 ^ 32 ->
  framable (payload t fs) /\ (List.length (frame (payload t fs)) <= n)%nat.
Proof.
  intros Ht Hfs Hs Hn. pose proof (payload_length t fs Ht Hfs) as Hl.
  destruct (varint_spec (Z.of_nat (List.length (payload t fs))) ltac:(lia)) as (_ & _ & H5 & _).
  split; [split; [apply payload_ok; assumption | lia]|]. unfold frame. rewrite length_app. lia.
Qed.

Lemma client_sends t fs T c k :
  session T c k -> in_width 32 t -> Forall field_ok fs -> (5 + foldr Nat.add 0 (map field_size fs) <= 16 * 1024)%nat ->
  exists k' evs up down, cPacketizer client_fresh t fs k = Some (k', evs) /\ told_events evs = []
    /\ stage 3 csWorking 3 (u32 id) None up down (payload t fs) (socket_data evs) c k'.
Proof.
  intros (up & down & Ha & Hl & Hw & Hk & Hkl & _ & _) Ht Hfs Hs.
  destruct (packet_sent client_fresh client_fresh_length t fs _ _ _ _ _ _ _ Hk Ht Hfs Hs) as (k' & evs & b & up' & E & Ee & Hsd & Htold & Hk' & Ek).
  assert (Hp : framable (payload t fs)).
  { split; [apply payload_ok; assumption|]. pose proof (payload_length t fs Ht Hfs). lia. }
  exists k', evs, up', down. split; [exact E|]. split; [exact Htold|]. rewrite Hsd. split_and!; try assumption.
  - exists up. split; [exact Ha | apply (decrypt_encrypt _ _ _ _ (frame_bytes _ Hp) Ee)].
  - rewrite Ek. destruct up'; exact Hkl.
  - destruct (encrypt_total up (frame (payload t fs)) (frame_bytes _ Hp)) as (b' & up'' & Ee' & Hb & _).
    rewrite Ee' in Ee. injection Ee as <- <-. exact Hb.
Qed.

(** C18. In a session, a message that the client sends to a channel reaches the channel manager
    once, with the client's id, unchanged, however it is cut; nothing else happens and the
    session goes on. *)
Theorem message_reaches_server n T c k ch target msg :
  session T c k -> (forall data, Forall (fun t => t.1 < T) (cut_up n data)) ->
  bytes_ok ch -> bytes_ok msg -> in_width 32 target -> (List.length ch + List.length msg + 20 <= 16 * 1024)%nat ->
  exists k' evs c', SendToChannel client_fresh ch target msg k = Some (k', evs) /\ told_events evs = []
    /\ round n (socket_data evs) c k' = Some (c', k', [], [Manager_OnMsgFromPeer ch id (to_signed 32 target) msg], [])
    /\ session T c' k'.
Proof.
  intros Hses Hearly Hch Hmsg Htarget Hlen.
  assert (Hs : value_typed (VString ch)) by (split; [exact Hch | lia]).
  assert (Hm : value_typed (VString msg)) by (split; [exact Hmsg | lia]).
  assert (Hf : Forall field_ok [FValue (VString ch); FValue (VVarInt32 target); FValue (VString msg)]) by fields.
  destruct (client_sends 2 _ T c k Hses ltac:(split; lia) Hf ltac:(cbn [foldr map field_size]; lia))
    as (k' & evs & up & down & E & Htold & Hst).
  destruct Hses as (_ & _ & _ & _ & _ & _ & _ & Hn & Hp).
  destruct (packet_bounds (64 * 1024) 2 _ ltac:(split; lia) Hf ltac:(cbn [foldr map field_size]; lia) ltac:(lia)) as [Hpf Hpl].
  destruct (request_round n T _ _ _ (Manager_OnMsgFromPeer ch id (to_signed 32 target) msg) _ _ _ Hst Hn Hp (Hearly _) Hpf Hpl I eq_refl)
    as (c' & E' & Hses').
  - intros tm. apply (served_MsgRoom fresh fresh_length); assumption.
  - exists k', evs, c'. auto.
Qed.

(** C17. In a session, a message the server passes to the client is sent in the next tick and its
    observer is told of it once, with the sender and the text unchanged; nothing else
    happens and the session goes on. *)
Theorem message_reaches_client n T c k now from ch msg :
  session T c k -> m_TicksSinceLastPacket c < 600 -> now < T ->
  bytes_ok ch -> bytes_ok msg -> (List.length ch + List.length msg + 25 <= 16 * 1024)%nat ->
  exists c' out k' evs, (onChannelMsg from ch msg;; ServerTick fresh now) c = Some (c', out) /\ calls out = []
    /\ process_all read (cut_down n (link_data out)) k = Some (k', evs)
    /\ told_events evs = [Observer_OnMessageFromChannel ch (u32 from) msg] /\ socket_data evs = []
    /\ session T c' k'.
Proof.
  intros (up & down & Ha & Hl & Hw & Hk & Hkl & Hn & Hp) Hticks Hnow Hch Hmsg Hlen.
  assert (Hs : value_typed (VString ch)) by (split; [exact Hch | lia]).
  assert (Hm : value_typed (VString msg)) by (split; [exact Hmsg | lia]).
  assert (Hf : Forall field_ok [FValue (VVarInt32 (u32 from)); FValue (VString ch); FValue (VString msg)]) by fields.
  destruct (packet_bounds (16 * 1024) 2 _ ltac:(split; lia) Hf ltac:(cbn [foldr map field_size]; lia) ltac:(lia)) as [Hpf Hpl].
  destruct (told 2 _ _ _ _ _ _ _ _ _ c Ha Hl Hw ltac:(split; lia) Hf ltac:(cbn [foldr map field_size]; lia))
    as (c1 & E1 & Ha1 & Hl1 & Ht1 & Hn1 & Hp1 & Hw1).
  destruct (encrypt_total down _ (frame_bytes _ Hpf)) as (out & down' & Ee & _ & _).
  unfold pushed in Hw1. cbn [option_bind mbind] in Hw1. rewrite Ee in Hw1. cbn [option_bind mbind app] in Hw1.
  destruct (idle_tick fresh now _ _ _ _ _ _ _ _ c1 Ha1 Hl1 Hw1 ltac:(lia)) as (c2 & o2 & E2 & Ha2 & Hl2 & Hc2 & Hp2 & Ho2 & Hw2).
  destruct (client_half n 3 (u32 id) up down down' (ChannelMsg_packet from ch msg) out k None
    [Observer_OnMessageFromChannel ch (u32 from) msg] None 3 (u32 id) [] up) as (k' & evs & E3 & Hsd & Ht & Hk' & Hkl').
  { exact Hk. }
  { exact Hkl. }
  { apply (decrypt_encrypt _ _ _ _ (frame_bytes _ Hpf) Ee). }
  { exact Hpf. }
  { exact Hpl. }
  { intros ds. apply (answered_ChannelMsg client_fresh client_fresh_length); assumption. }
  { split; reflexivity. }
  exists c2, o2, k', evs. split; [|split; [exact Hc2|]; split; [rewrite Ho2; exact E3|]; split; [exact Ht|]; split; [exact Hsd|]].
  - unfold andThen, onChannelMsg. rewrite E1. cbn [option_bind mbind]. rewrite E2. reflexivity.
  - exists up, down'. split_and!; try assumption.
    + apply Hw2. right. lia.
    + rewrite <- Hn, <- Hn1. apply (tick_user _ _ _ (ServerTick_ticked fresh fresh_length _ _ _ _ (as_ok _ _ _ _ _ _ _ Ha1) E2)).
    + lia.
Qed.

(** There are sessions, with any key. *)
Lemma session_exists (key : list Z) T : exists c k, session T c k /\ m_TicksSinceLastPacket c = 0.
Proof.
  destruct (accepted_at 0 {| m_Aes := key; m_IV := key; m_IsValid := true |}) as (c & E & Ha & Hl & Hw).
  pose proof unconnected_ctor as Hk. revert Hk. generalize (ConnectionClient_ctor client_fresh). intros k Hk.
  set (e := {| m_Aes := key; m_IV := key; m_IsValid := true |}).
  exists (((((on_protocol (fun p => (((p <| p_State := 3 |>) <| ClientHandle.m_IsEncrypted := true |>) <| ClientHandle.m_Decryptor := e |>) <| ClientHandle.m_Encryptor := e |>) c)
             <| ClientHandle.m_State := csWorking |>) <| ClientHandle.m_Username := user |>) <| m_PingStartTime := T |>) <| m_TicksSinceLastPacket := 0 |>).
  exists ((((((((k <| ConnectionClient.m_State := 3 |>) <| ConnectionClient.m_IsEncrypted := true |>) <| ConnectionClient.m_Encryptor := Some e |>) <| ConnectionClient.m_Decryptor := Some e |>)
             <| m_rUserName := user |>) <| m_rChannel := room |>) <| ConnectionClient.m_ClientID := u32 id |>) <| m_bConnect := true |>).
  split; [|reflexivity]. exists (Some e), (Some e). destruct Ha as [[] ? ? ? ? ? ? ? ? ?], Hw as [_ Hw], Hk.
  split_and!; first [assumption | reflexivity | split; first [assumption | reflexivity | intros _; reflexivity | split; assumption] | idtac].
  change (T <= T + PING_TIME_MS). unfold PING_TIME_MS. lia.
Qed.
End Login.

(** ** A sample *)

(** The first byte on its own. *)
Definition sample_cut_down (n : nat) (l : list Z) : list (list Z) :=
  match l with [] => [] | [x] => [[x]] | x :: l => [[x]; l] end.
Definition sample_cut_up (n : nat) (l : list Z) : list piece := map (fun x => (7, x)) (sample_cut_down n l).

Lemma sample_cut_down_all n l : concat (sample_cut_down n l) = l /\ Forall (fun x => x <> []) (sample_cut_down n l).
Proof. destruct l as [|x [|y l]]; (split; [simpl; rewrite ?app_nil_r; reflexivity | repeat constructor; discriminate]). Qed.

Lemma sample_cut_up_all n l : concat (map snd (sample_cut_up n l)) = l /\ Forall (fun t => t.2 <> []) (sample_cut_up n l).
Proof.
  destruct (sample_cut_down_all n l) as [Hc Hn]. unfold sample_cut_up. rewrite map_map, Forall_map. split; [|exact Hn].
  rewrite map_id. exact Hc.
Qed.

Lemma sample_early T n l : 7 < T -> Forall (fun t => t.1 < T) (sample_cut_up n l).
Proof. intros HT. unfold sample_cut_up. apply Forall_map, Forall_forall. intros x _. exact HT. Qed.

Lemma toy_rsa : @RsaKeyPair Toy.lib Sample.keys.
Proof.
  split; [reflexivity|]. intros m Hok Hl. exists (Toy.pad m). split; [reflexivity|].
  assert (Hp : List.length (Toy.pad m) = 128%nat).
  { unfold Toy.pad. rewrite length_take. cbn [List.length]. rewrite length_app, repeat_length. lia. }
  split; [exact Hp|]. split.
  - unfold Toy.pad. apply Forall_take. constructor; [unfold byte_ok; lia|]. apply Forall_app. split; [exact Hok|].
    apply Forall_forall. intros x Hx%list_elem_of_In%repeat_spec. subst. unfold byte_ok. lia.
  - unfold Toy.pad. cbn [take rsa_pkcs1_decrypt Toy.lib Toy.unpad]. f_equal. rewrite Nat2Z.id, take_take, Nat.min_l by lia.
    apply take_app_length.
Qed.

#[local] Existing Instance Toy.lib.
#[local] Existing Instance Sample.keys.

(** Strings of the sample. *)
Definition ann : AString := chars "ann".
Definition lobby : AString := chars "lobby".
Definition sample_ip : AString := chars "10.0.0.7".

Lemma sample_string s : forallb (fun x => (0 <=? x) && (x <? 256)) s = true -> (List.length s <=? 1000)%nat = true ->
  bytes_ok s /\ (List.length s <= 1000)%nat.
Proof.
  intros Hs Hl. split; [|apply Nat.leb_le, Hl]. apply Forall_forall. intros x Hx. rewrite forallb_forall in Hs.
  apply list_elem_of_In in Hx. specialize (Hs x Hx). unfold byte_ok. lia.
Qed.

Lemma ann_ok : bytes_ok ann /\ (List.length ann <= 1000)%nat.
Proof. apply sample_string; reflexivity. Qed.
Lemma lobby_ok : bytes_ok lobby /\ (List.length lobby <= 1000)%nat.
Proof. apply sample_string; reflexivity. Qed.
Lemma sample_ip_ok : bytes_ok sample_ip /\ (List.length sample_ip <= 1000)%nat.
Proof. apply sample_string; reflexivity. Qed.

Example login_completes_witness :
  exists c0 k0 evs c k, accepted Sample.fresh sample_ip 0 1 77 Sample.cipher = Some (c0, [])
    /\ connecting Sample.fresh (chars "example") ann lobby = Some (k0, evs)
    /\ converse Sample.fresh Sample.fresh Sample.fresh Sample.cipher (fun i => Z.of_nat i)
         sample_cut_up sample_cut_down 5 9 5 (socket_data evs) c0 k0
       = Some (c, k, [], [Authenticator_Authenticate 1 ann ann; Manager_doUserJoinChannel 1 lobby], [Observer_OnSignedIn])
    /\ session 1 77 sample_ip ann lobby (first_ping 5) c k.
Proof.
  apply (login_completes (H := Toy.lib) (H0 := Sample.keys) (H1 := Toy.laws) (H2 := Sample.keys_ok) (H3 := toy_rsa)
    Sample.fresh Sample.fresh_length Sample.fresh Sample.fresh_length Sample.fresh Sample.fresh_length
    Sample.cipher (fun i => Z.of_nat i) sample_cut_up sample_cut_down 5 9 sample_cut_up_all sample_cut_down_all
    1 77 sample_ip ann lobby).
  - split; [discriminate | reflexivity].
  - exact sample_ip_ok.
  - exact ann_ok.
  - exact lobby_ok.
  - reflexivity.
  - intros data. apply sample_early. reflexivity.
Defined.

Example message_reaches_server_witness :
  exists c k k' evs c', session 1 77 sample_ip ann lobby 100 c k
    /\ SendToChannel Sample.fresh lobby 3 ann k = Some (k', evs) /\ told_events evs = []
    /\ round Sample.fresh Sample.fresh Sample.fresh Sample.cipher (fun i => Z.of_nat i)
         sample_cut_up sample_cut_down 5 9 0 (socket_data evs) c k'
       = Some (c', k', [], [Manager_OnMsgFromPeer lobby 1 3 ann], [])
    /\ session 1 77 sample_ip ann lobby 100 c' k'.
Proof.
  destruct (session_exists Sample.fresh Sample.fresh_length Sample.fresh Sample.fresh_length 1 77 sample_ip ann lobby
    sample_ip_ok ann_ok lobby_ok [1; 2; 3] 100) as (c & k & Hs & _).
  destruct (message_reaches_server (H := Toy.lib) (H0 := Sample.keys) (H1 := Toy.laws) (H2 := Sample.keys_ok)
    Sample.fresh Sample.fresh_length Sample.fresh Sample.fresh_length Sample.fresh
    Sample.cipher (fun i => Z.of_nat i) sample_cut_up sample_cut_down 5 9 sample_cut_up_all sample_cut_down_all
    1 77 sample_ip ann lobby sample_ip_ok ann_ok lobby_ok 0 100 c k lobby 3 ann) as (k' & evs & c' & Hrest).
  - exact Hs.
  - intros data. apply sample_early. reflexivity.
  - apply lobby_ok.
  - apply ann_ok.
  - split; [discriminate | reflexivity].
  - apply Nat.leb_le. reflexivity.
  - exists c, k, k', evs, c'. split; [exact Hs | exact Hrest].
Defined.

Example message_reaches_client_witness :
  exists c k c' out k' evs, session 1 77 sample_ip ann lobby 100 c k
    /\ (onChannelMsg 2 lobby ann;; ServerTick Sample.fresh 50) c = Some (c', out) /\ calls out = []
    /\ process_all (fun x => OnRead Sample.fresh Sample.fresh Sample.cipher (fun i => Z.of_nat i) (Some x))
         (sample_cut_down 0 (link_data out)) k = Some (k', evs)
    /\ told_events evs = [Observer_OnMessageFromChannel lobby 2 ann] /\ socket_data evs = []
    /\ session 1 77 sample_ip ann lobby 100 c' k'.
Proof.
  destruct (session_exists Sample.fresh Sample.fresh_length Sample.fresh Sample.fresh_length 1 77 sample_ip ann lobby
    sample_ip_ok ann_ok lobby_ok [1; 2; 3] 100) as (c & k & Hs & Ht).
  destruct (message_reaches_client (H := Toy.lib) (H0 := Sample.keys) (H1 := Toy.laws) (H2 := Sample.keys_ok)
    Sample.fresh Sample.fresh_length Sample.fresh Sample.fresh_length Sample.fresh
    Sample.cipher (fun i => Z.of_nat i) sample_cut_down sample_cut_down_all
    1 77 sample_ip ann lobby sample_ip_ok ann_ok lobby_ok 0 100 c k 50 2 lobby ann) as (c' & out & k' & evs & Hrest).
  - exact Hs.
  - rewrite Ht. reflexivity.
  - reflexivity.
  - apply lobby_ok.
  - apply ann_ok.
  - apply Nat.leb_le. reflexivity.
  - exists c, k, c', out, k', evs. split; [exact Hs | exact Hrest].
Defined.
