(* ===== verification/Doubles.v ===== *)
(** * Doubles: floating-point numbers

    [double] and [float] of the C++ code are IEEE binary64 and binary32, computed exactly
    with the Standard Library's [SpecFloat].  A conversion to an integer type truncates;
    [None] when the value does not fit the type, which is undefined. *)

From Stdlib Require Export Floats.SpecFloat.
From S2P Require Import Prelude.

Definition double : Type := spec_float.
Definition double_of_Z (z : Z) : double := binary_normalize 53 1024 z 0 false.
Definition double_div (x y : double) : double := SFdiv 53 1024 x y.
Definition double_mul (x y : double) : double := SFmul 53 1024 x y.
Definition double_lt (x y : double) : bool := SFltb x y.
Definition double_zero : double := double_of_Z 0.

(** A decimal literal [n / d], rounded once. *)
Definition double_lit (n d : Z) : double := double_div (double_of_Z n) (double_of_Z d).

Definition float : Type := spec_float.
Definition float_of_Z (z : Z) : float := binary_normalize 24 128 z 0 false.
Definition float_mul (x y : float) : float := SFmul 24 128 x y.
Definition float_of_double (x : double) : float :=
  match x with
  | S754_finite s m e => binary_normalize 24 128 (cond_Zopp s (Zpos m)) e s
  | _ => x
  end.

(** The integral part. *)
Definition trunc (x : spec_float) : option Z :=
  match x with
  | S754_zero _ => Some 0
  | S754_finite s m e =>
      Some (cond_Zopp s (if 0 <=? e then Zpos m * 2 ^ e else Zpos m / 2 ^ (- e)))
  | _ => None
  end.

(** Conversion to a [w]-bit unsigned type. *)
Definition to_uint (w : Z) (x : spec_float) : option Z :=
  z ← trunc x; if (0 <=? z) && (z <? 2 ^ w) then Some z else None.
