(* ===== verification/RtpPacketQueue.v ===== *)
(** * RtpPacketQueue: the reordering queue of src/Src/media/rtp/RtpPacketQueue.cpp

    The list [queue_] holds the packets from the newest (front) to the oldest (back) in
    sequence-number order; [pushPacket] inserts, [popPacket] takes the oldest.  Doubles
    are the IEEE binary64 numbers of [SpecFloat], computed exactly.  [None] is undefined
    behaviour: a read or copy outside a buffer, [pop_back] of an empty list.

    The theorems: the 16-bit comparison is the order of the unwrapped numbers as long as
    two packets are less than half the number space apart, and while what is pushed is that
    near to what is queued, every sequence of pushes and pops hands the packets out in
    strictly increasing order; nothing is lost when no depth
    limit is configured; a push leaves the depth within the limit. *)

From Stdlib Require Import Sorting.Sorted.
From S2P Require Import Prelude Bytes RtpHeaders Doubles MediaDefinitions.

(** ** The class *)

Record RtpPacketQueue := {
  queue_ : list dataPacket;
  lastSequenceNumberGiven_ : Z;
  timebase_ : Z;
  depthInSeconds_ : double;
  maxDepthInSeconds_ : double
}.

Definition DEFAULT_DEPTH : double := double_of_Z 3.
Definition DEFAULT_MAX : double := double_of_Z 5.

Definition RtpPacketQueue_ctor (depthInSeconds maxDepthInSeconds : double) : RtpPacketQueue :=
  if negb (SFleb maxDepthInSeconds depthInSeconds) then
    {| queue_ := []; lastSequenceNumberGiven_ := -1; timebase_ := 0;
       depthInSeconds_ := depthInSeconds; maxDepthInSeconds_ := maxDepthInSeconds |}
  else
    {| queue_ := []; lastSequenceNumberGiven_ := -1; timebase_ := 0;
       depthInSeconds_ := DEFAULT_DEPTH; maxDepthInSeconds_ := DEFAULT_MAX |}.

Definition set_queue (l : list dataPacket) (q : RtpPacketQueue) : RtpPacketQueue :=
  {| queue_ := l; lastSequenceNumberGiven_ := lastSequenceNumberGiven_ q;
     timebase_ := timebase_ q; depthInSeconds_ := depthInSeconds_ q;
     maxDepthInSeconds_ := maxDepthInSeconds_ q |}.

Definition rtpSequenceLessThan (x y : Z) : bool :=
  let diff := y - x in
  if 0 <? diff then diff <? 0x8000
  else if diff <? 0 then diff <? -0x8000
  else false.

(** The depth of the data in seconds; zero without a timebase or with fewer than two packets. *)
Definition getDepthInSeconds (q : RtpPacketQueue) : option double :=
  match head (queue_ q), last (queue_ q) with
  | Some newest, Some oldest =>
      if (0 <? timebase_ q) && (1 <? length (queue_ q))%nat then
        n ← RtpHeader.getTimestamp (data newest) 0;
        o ← RtpHeader.getTimestamp (data oldest) 0;
        Some (double_div (double_of_Z (u32 (n - o))) (double_of_Z (timebase_ q)))
      else Some double_zero
  | _, _ => Some double_zero
  end.

(** The search loop of [pushPacket] and the [push_back] after it. *)
Fixpoint insert_packet (packet : dataPacket) (currentSequenceNumber : Z) (queue : list dataPacket)
    : option (list dataPacket) :=
  match queue with
  | [] => Some [packet]
  | it :: rest =>
      sequenceNumber ← RtpHeader.getSeqNumber (data it) 0;
      if sequenceNumber =? currentSequenceNumber then Some queue
      else if rtpSequenceLessThan sequenceNumber currentSequenceNumber then Some (packet :: queue)
      else rest ← insert_packet packet currentSequenceNumber rest; Some (it :: rest)
  end.

(** The loop that enforces the maximal depth; every round removes a packet. *)
Fixpoint discard_excess (fuel : nat) (q : RtpPacketQueue) : option RtpPacketQueue :=
  match fuel with
  | O => None
  | S fuel =>
    depth ← getDepthInSeconds q;
    if double_lt (maxDepthInSeconds_ q) depth then
      match queue_ q with
      | [] => None
      | l => discard_excess fuel (set_queue (removelast l) q)
      end
    else Some q
  end.

(** [memcpy (packet->data, data, length)] with a negative [length] copies far too much. *)
Definition copy_packet (buf : list Z) (length : Z) : option dataPacket :=
  if length <? 0 then None else
  bytes ← read_at (Z.to_nat length) buf 0;
  d ← write_at (data new_dataPacket) 0 bytes;
  Some {| comp := comp new_dataPacket; data := d; length_ := length;
          type_ := type_ new_dataPacket |}.

Definition pushPacket (buf : list Z) (length : Z) (q : RtpPacketQueue) : option RtpPacketQueue :=
  currentSequenceNumber ← RtpHeader.getSeqNumber buf 0;
  let last := lastSequenceNumberGiven_ q in
  if (0 <=? last) &&
     (rtpSequenceLessThan currentSequenceNumber (u16 last) || (currentSequenceNumber =? last))
  then Some q else
  packet ← copy_packet buf length;
  queue ← insert_packet packet currentSequenceNumber (queue_ q);
  discard_excess (S (base.length queue)) (set_queue queue q).

Definition popPacket (ignore_depth : bool) (q : RtpPacketQueue)
    : option (option dataPacket * RtpPacketQueue) :=
  match last (queue_ q) with
  | None => Some (None, q)
  | Some packet =>
      depth ← getDepthInSeconds q;
      if ignore_depth || double_lt (depthInSeconds_ q) depth then
        seq ← RtpHeader.getSeqNumber (data packet) 0;
        Some (Some packet,
          {| queue_ := removelast (queue_ q); lastSequenceNumberGiven_ := seq;
             timebase_ := timebase_ q; depthInSeconds_ := depthInSeconds_ q;
             maxDepthInSeconds_ := maxDepthInSeconds_ q |})
      else Some (None, q)
  end.

Definition setTimebase (timebase : Z) (q : RtpPacketQueue) : RtpPacketQueue :=
  {| queue_ := queue_ q; lastSequenceNumberGiven_ := lastSequenceNumberGiven_ q;
     timebase_ := timebase; depthInSeconds_ := depthInSeconds_ q;
     maxDepthInSeconds_ := maxDepthInSeconds_ q |}.

Definition getSize (q : RtpPacketQueue) : Z := to_signed 32 (Z.of_nat (length (queue_ q))).

Definition hasData (q : RtpPacketQueue) : option bool :=
  currentDepth ← getDepthInSeconds q; Some (double_lt (depthInSeconds_ q) currentDepth).

(** ** Sequence numbers *)

Lemma rtpSequenceLessThan_spec x y :
  in_width 16 x -> in_width 16 y ->
  rtpSequenceLessThan x y = true <-> 0 < (y - x) mod 2 ^ 16 < 2 ^ 15.
Proof.
  unfold in_width, rtpSequenceLessThan. intros Hx Hy. cbv zeta.
  assert (Hm : (y - x) mod 2 ^ 16 = if x <=? y then y - x else y - x + 2 ^ 16).
  { destruct (Z.leb_spec x y); symmetry.
    - apply Z.mod_unique with 0; lia.
    - apply Z.mod_unique with (-1); lia. }
  rewrite Hm. destruct (Z.leb_spec x y), (Z.ltb_spec 0 (y - x)); try lia.
  - destruct (Z.ltb_spec (y - x) 0); [lia|]. split; [discriminate | lia].
  - destruct (Z.ltb_spec (y - x) 0); lia.
Qed.

(** The position of a sequence number in the window that starts at [base]. *)
Definition seq_offset (base s : Z) : Z := (s - base) mod 2 ^ 16.

Lemma seq_offset_range base s : 0 <= seq_offset base s < 2 ^ 16.
Proof. apply Z.mod_pos_bound. lia. Qed.

Lemma seq_offset_inj base x y :
  in_width 16 x -> in_width 16 y -> seq_offset base x = seq_offset base y -> x = y.
Proof.
  unfold in_width, seq_offset. intros Hx Hy E.
  pose proof (Z.div_mod (x - base) (2 ^ 16) ltac:(lia)).
  pose proof (Z.div_mod (y - base) (2 ^ 16) ltac:(lia)). nia.
Qed.

Lemma lt_in_window base x y :
  in_width 16 x -> in_width 16 y ->
  seq_offset base x < 2 ^ 15 -> seq_offset base y < 2 ^ 15 ->
  rtpSequenceLessThan x y = (seq_offset base x <? seq_offset base y).
Proof.
  intros Hx Hy Ox Oy. pose proof (seq_offset_range base x). pose proof (seq_offset_range base y).
  assert (Hd : (y - x) mod 2 ^ 16 = (seq_offset base y - seq_offset base x) mod 2 ^ 16).
  { unfold seq_offset. rewrite Zminus_mod_idemp_l, Zminus_mod_idemp_r. f_equal. lia. }
  apply eq_true_iff_eq. rewrite rtpSequenceLessThan_spec, Hd, Z.ltb_lt by assumption.
  destruct (Z.leb_spec (seq_offset base x) (seq_offset base y)).
  - rewrite Z.mod_small by lia. lia.
  - rewrite <- (Z.mod_unique _ (2 ^ 16) (-1) (seq_offset base y - seq_offset base x + 2 ^ 16))
      by lia. lia.
Qed.

(** The wrap-around comparison of sequence numbers: [x] is less than [y] exactly when [y] is
    1 to 0x7FFF ahead of [x] modulo 2^16, so it is irreflexive and asymmetric; of two
    different numbers one is less than the other unless they are exactly 0x8000 apart,
    when neither is; and in any window of half the number space it is the order of the
    unwrapped numbers. *)
Theorem sequence_order (base x y : Z) :
  in_width 16 x -> in_width 16 y ->
  rtpSequenceLessThan x x = false /\
  (rtpSequenceLessThan x y = true -> rtpSequenceLessThan y x = false) /\
  (x <> y -> rtpSequenceLessThan x y = false -> rtpSequenceLessThan y x = false ->
   (y - x) mod 2 ^ 16 = 2 ^ 15) /\
  (seq_offset base x < 2 ^ 15 -> seq_offset base y < 2 ^ 15 ->
   rtpSequenceLessThan x y = (seq_offset base x <? seq_offset base y)).
Proof.
  intros Hx Hy.
  pose proof (rtpSequenceLessThan_spec x y Hx Hy) as Sxy.
  pose proof (rtpSequenceLessThan_spec y x Hy Hx) as Syx.
  pose proof (rtpSequenceLessThan_spec x x Hx Hx) as Sxx.
  assert (Hsum : x <> y -> (y - x) mod 2 ^ 16 + (x - y) mod 2 ^ 16 = 2 ^ 16).
  { intros Hne. unfold in_width in *. destruct (Z.ltb_spec x y).
    - rewrite <- (Z.mod_unique (y - x) (2 ^ 16) 0 (y - x)) by lia.
      rewrite <- (Z.mod_unique (x - y) (2 ^ 16) (-1) (x - y + 2 ^ 16)) by lia. lia.
    - rewrite <- (Z.mod_unique (x - y) (2 ^ 16) 0 (x - y)) by lia.
      rewrite <- (Z.mod_unique (y - x) (2 ^ 16) (-1) (y - x + 2 ^ 16)) by lia. lia. }
  assert (Hself : (y - x) mod 2 ^ 16 = 0 -> x = y).
  { unfold in_width in *. intros E. pose proof (Z.div_mod (y - x) (2 ^ 16) ltac:(lia)). nia. }
  split_and!.
  - apply not_true_iff_false. rewrite Sxx, Z.sub_diag. rewrite Z.mod_0_l by lia. lia.
  - intros H. apply not_true_iff_false. rewrite Syx. apply Sxy in H.
    destruct (decide (x = y)) as [->|Hne]; [rewrite Z.sub_diag, Z.mod_0_l in H by lia; lia|]. specialize (Hsum Hne). lia.
  - intros Hne H1 H2. specialize (Hsum Hne).
    assert (~ 0 < (y - x) mod 2 ^ 16 < 2 ^ 15) by (rewrite <- Sxy; congruence).
    assert (~ 0 < (x - y) mod 2 ^ 16 < 2 ^ 15) by (rewrite <- Syx; congruence).
    pose proof (Z.mod_pos_bound (y - x) (2 ^ 16) ltac:(lia)).
    pose proof (Z.mod_pos_bound (x - y) (2 ^ 16) ltac:(lia)).
    assert ((y - x) mod 2 ^ 16 <> 0) by (intros E; apply Hne, Hself, E). lia.
  - apply lt_in_window; assumption.
Qed.

Lemma sequence_order_witness : rtpSequenceLessThan 65535 1 = (seq_offset 65530 65535 <? seq_offset 65530 1).
Proof.
  apply (sequence_order 65530 65535 1); unfold in_width; try lia; vm_compute; reflexivity.
Defined.

(** ** Packets in a queue *)

Definition packet_ok (p : dataPacket) : Prop := length (data p) = 1500%nat /\ bytes_ok (data p).
Definition seq_of (p : dataPacket) : Z := default 0 (RtpHeader.getSeqNumber (data p) 0).
Definition off (base : Z) (p : dataPacket) : Z := seq_offset base (seq_of p).

Lemma getSeqNumber_width buf s : RtpHeader.getSeqNumber buf 0 = Some s -> in_width 16 s.
Proof.
  unfold RtpHeader.getSeqNumber. intros H. apply fmap_Some in H as (x & _ & ->). apply htons_width.
Qed.

Lemma getSeqNumber_packet p : packet_ok p -> RtpHeader.getSeqNumber (data p) 0 = Some (seq_of p).
Proof.
  intros [Hl _]. unfold seq_of.
  destruct (get_bf_is_Some RtpHeader.seqnum (data p) 0) as [x Hx].
  { unfold in_bounds. simpl. rewrite Hl. lia. }
  unfold RtpHeader.getSeqNumber. rewrite Hx. reflexivity.
Qed.

Lemma getTimestamp_packet p : packet_ok p -> is_Some (RtpHeader.getTimestamp (data p) 0).
Proof.
  intros [Hl _].
  destruct (get_bf_is_Some RtpHeader.timestamp (data p) 0) as [x Hx].
  { unfold in_bounds. simpl. rewrite Hl. lia. }
  unfold RtpHeader.getTimestamp. rewrite Hx. eauto.
Qed.

Lemma seq_of_width p : packet_ok p -> in_width 16 (seq_of p).
Proof. intros H. eapply getSeqNumber_width, getSeqNumber_packet, H. Qed.

(** The queue from the newest to the oldest packet: strictly decreasing positions in the
    window, all above the last one handed out. *)
Record queue_ok (base : Z) (q : RtpPacketQueue) : Prop := {
  qok_packets : Forall packet_ok (queue_ q);
  qok_window : Forall (fun p => off base p < 2 ^ 15) (queue_ q);
  qok_sorted : StronglySorted (fun p p' => off base p' < off base p) (queue_ q);
  qok_last : lastSequenceNumberGiven_ q = -1 \/
             in_width 16 (lastSequenceNumberGiven_ q) /\
             seq_offset base (lastSequenceNumberGiven_ q) < 2 ^ 15 /\
             Forall (fun p => seq_offset base (lastSequenceNumberGiven_ q) < off base p) (queue_ q);
  qok_max : double_lt (maxDepthInSeconds_ q) double_zero = false
}.

Lemma depth_is_Some q : Forall packet_ok (queue_ q) -> is_Some (getDepthInSeconds q).
Proof.
  intros H. unfold getDepthInSeconds.
  destruct (head (queue_ q)) as [n|] eqn:En, (last (queue_ q)) as [o|] eqn:Eo; eauto.
  destruct (_ && _); [|eauto].
  assert (Hn : packet_ok n). { destruct (queue_ q); simplify_eq/=. inversion H. assumption. }
  assert (Ho : packet_ok o).
  { rewrite last_lookup in Eo. apply (Forall_lookup_1 _ _ _ _ H Eo). }
  destruct (getTimestamp_packet n Hn) as [x ->], (getTimestamp_packet o Ho) as [y ->].
  cbn. eauto.
Qed.

Lemma depth_short q : (length (queue_ q) <= 1)%nat -> getDepthInSeconds q = Some double_zero.
Proof.
  intros H. unfold getDepthInSeconds.
  destruct (head (queue_ q)), (last (queue_ q)); try reflexivity.
  rewrite (proj2 (Nat.ltb_ge 1 (length (queue_ q)))) by lia. rewrite andb_false_r. reflexivity.
Qed.

(** Without a timebase the depth is always zero. *)
Lemma depth_no_timebase q : timebase_ q = 0 -> getDepthInSeconds q = Some double_zero.
Proof.
  intros H. unfold getDepthInSeconds. rewrite H.
  destruct (head (queue_ q)), (last (queue_ q)); reflexivity.
Qed.

(** ** Inserting *)

(** A packet that may enter the queue. *)
Record arrival_ok (base : Z) (buf : list Z) (len : Z) : Prop := {
  arr_bytes : bytes_ok buf;
  arr_header : 12 <= len;
  arr_fits : len <= 1500;
  arr_inside : len <= Z.of_nat (length buf);
  arr_window : seq_offset base (default 0 (RtpHeader.getSeqNumber buf 0)) < 2 ^ 15
}.

(** The copy of a packet carries its bytes and its sequence number. *)
Lemma copy_packet_spec base buf len :
  arrival_ok base buf len ->
  exists p, copy_packet buf len = Some p /\ packet_ok p /\
    RtpHeader.getSeqNumber buf 0 = Some (seq_of p) /\
    take (Z.to_nat len) (data p) = take (Z.to_nat len) buf /\ length_ p = len.
Proof.
  intros [Hok H12 H1500 Hin _]. unfold copy_packet. rewrite (proj2 (Z.ltb_ge len 0)) by lia.
  set (n := Z.to_nat len). set (bytes := take n buf).
  assert (Lb : length bytes = n) by (unfold bytes, n; rewrite length_take; lia).
  rewrite read_at_Some by (unfold in_bounds, n; lia). cbn [option_bind mbind].
  change (take n (drop (Z.to_nat 0) buf)) with bytes.
  rewrite write_at_Some by (unfold in_bounds, n in *; rewrite Lb; simpl; lia).
  cbn [option_bind mbind]. set (d := take _ _ ++ bytes ++ _).
  assert (Ed : d = bytes ++ drop n (repeat 0 1500)) by (unfold d; rewrite Lb; reflexivity).
  assert (Hp : length d = 1500%nat)
    by (rewrite Ed, length_app, Lb, length_drop; simpl length; unfold n; lia).
  assert (Hseq : RtpHeader.getSeqNumber buf 0 = RtpHeader.getSeqNumber d 0).
  { unfold RtpHeader.getSeqNumber. rewrite Ed, get_bf_app_l by (unfold in_bounds, n in *; simpl; lia).
    rewrite <- (take_drop n buf) at 1.
    rewrite get_bf_app_l by (fold bytes; unfold in_bounds, n in *; simpl; lia). reflexivity. }
  eexists. split; [reflexivity|].
  assert (Hpk : packet_ok {| comp := comp new_dataPacket; data := d; length_ := len;
                            type_ := type_ new_dataPacket |}).
  { split; [exact Hp|]. cbn [data]. rewrite Ed. apply Forall_app. split.
    - apply Forall_take. assumption.
    - apply Forall_drop. apply List.Forall_forall. intros x ->%repeat_spec. unfold byte_ok. lia. }
  split; [exact Hpk|]. split; [|split; [|reflexivity]].
  - rewrite Hseq. apply (getSeqNumber_packet _ Hpk).
  - cbn [data]. rewrite Ed, take_app_length' by lia. reflexivity.
Qed.

(** Insertion keeps the order, adds the packet unless its number is already there, and
    touches nothing else. *)
Lemma insert_packet_spec base p l :
  packet_ok p -> off base p < 2 ^ 15 ->
  Forall packet_ok l -> Forall (fun p => off base p < 2 ^ 15) l ->
  StronglySorted (fun p p' => off base p' < off base p) l ->
  exists l', insert_packet p (seq_of p) l = Some l' /\
    StronglySorted (fun p p' => off base p' < off base p) l' /\
    (length l' <= S (length l))%nat /\
    (forall x, x ∈ l' <-> x ∈ l \/ x = p /\ ~ (exists y, y ∈ l /\ seq_of y = seq_of p)).
Proof.
  intros Hp Wp Hl Wl Hs. induction l as [|it l IH]; cbn [insert_packet].
  - eexists. split; [reflexivity|]. split; [repeat constructor|]. split; [simpl; lia|].
    intros x. rewrite list_elem_of_singleton, elem_of_nil.
    split; [|intros [[]|[H _]]; exact H]. intros ->. right. split; [reflexivity|]. intros (y & Hy & _). inversion Hy.
  - apply Forall_cons in Hl as [Hit Hl]. apply Forall_cons in Wl as [Wit Wl].
    apply StronglySorted_inv in Hs as [Hs Hit'].
    rewrite (getSeqNumber_packet _ Hit). cbn [option_bind mbind].
    destruct (Z.eqb_spec (seq_of it) (seq_of p)) as [Eq|Ne].
    + eexists. split; [reflexivity|]. split; [constructor; assumption|]. split; [simpl; lia|].
      intros x. split; [auto|]. intros [?|[-> Hno]]; [assumption|]. exfalso. apply Hno.
      exists it. split; [constructor | assumption].
    + rewrite (lt_in_window base) by (auto using seq_of_width).
      destruct (Z.ltb_spec (seq_offset base (seq_of it)) (seq_offset base (seq_of p))) as [Hlt|Hge].
      * eexists. split; [reflexivity|]. split; [|split; [simpl; lia|]].
        -- constructor; [constructor; assumption|]. constructor; [exact Hlt|].
           eapply Forall_impl; [exact Hit'|]. intros y Hy. simpl in Hy. unfold off in *. lia.
        -- intros x. rewrite elem_of_cons. split.
           ++ intros [->|Hx]; [|auto]. right. split; [reflexivity|].
              intros (y & Hy & Ey). apply elem_of_cons in Hy as [->|Hy]; [congruence|].
              rewrite Forall_forall in Hit'. specialize (Hit' y Hy). simpl in Hit'.
              unfold off in Hit'. rewrite Ey in Hit'. lia.
           ++ intros [Hx|[Hx _]]; auto.
      * destruct (IH Hl Wl Hs) as (l' & -> & Hs' & Hlen & Hin). cbn [option_bind mbind].
        eexists. split; [reflexivity|]. split; [|split; [simpl; lia|]].
        -- constructor; [assumption|]. apply Forall_forall. intros y Hy. apply Hin in Hy.
           destruct Hy as [Hy|[-> _]].
           ++ rewrite Forall_forall in Hit'. apply (Hit' y Hy).
           ++ unfold off. assert (seq_offset base (seq_of it) <> seq_offset base (seq_of p)); [|lia].
              intros E. apply Ne. eapply seq_offset_inj; [..|exact E]; auto using seq_of_width.
        -- intros x. rewrite !elem_of_cons, Hin. split.
           ++ intros [->|[Hx|[-> Hno]]]; auto. right. split; [reflexivity|].
              intros (y & Hy & Ey). apply elem_of_cons in Hy as [->|Hy]; [congruence|]. eauto.
           ++ intros [[Hx|Hx]|[Hx Hno]]; auto. right. right. split; [exact Hx|].
              intros (y & Hy & Ey). apply Hno. exists y. split; [constructor|]; assumption.
Qed.

(** ** The depth limit *)

Lemma StronglySorted_snoc {A} (R : A -> A -> Prop) l x :
  StronglySorted R (l ++ [x]) -> Forall (fun y => R y x) l.
Proof.
  induction l as [|y l IH]; intros H; [constructor|]. simpl in H.
  apply StronglySorted_inv in H as [H Hy]. apply Forall_app in Hy as [_ Hy].
  constructor; [inversion Hy; assumption | auto].
Qed.

(** A prefix of the queue is a good queue. *)
Lemma queue_ok_prefix base q l k :
  queue_ok base q -> queue_ q = l ++ k -> queue_ok base (set_queue l q).
Proof.
  intros [Hp Hw Hs Hl Hm] E. rewrite E in *. apply Forall_app in Hp as [Hp _].
  apply Forall_app in Hw as [Hw _]. apply StronglySorted_app_l in Hs.
  split; simpl; auto. destruct Hl as [Hl|(? & ? & Hl)]; [auto|].
  apply Forall_app in Hl as [Hl _]. auto.
Qed.

Lemma removelast_snoc {A} (l : list A) x : removelast (l ++ [x]) = l.
Proof. apply removelast_last. Qed.

Lemma discard_excess_spec fuel q :
  Forall packet_ok (queue_ q) -> double_lt (maxDepthInSeconds_ q) double_zero = false ->
  (length (queue_ q) < fuel)%nat ->
  exists l k depth, discard_excess fuel q = Some (set_queue l q) /\ queue_ q = l ++ k /\
    getDepthInSeconds (set_queue l q) = Some depth /\
    double_lt (maxDepthInSeconds_ q) depth = false.
Proof.
  revert q. induction fuel as [|fuel IH]; intros q Hq Hmax Hf; [lia|]. cbn [discard_excess].
  destruct (depth_is_Some q Hq) as [depth Ed]. rewrite Ed.
  cbn [option_bind mbind]. assert (Eid : set_queue (queue_ q) q = q) by (destruct q; reflexivity).
  destruct (double_lt (maxDepthInSeconds_ q) depth) eqn:Hd.
  - destruct (queue_ q) as [|x l0] eqn:Eq.
    + rewrite depth_short in Ed by (rewrite Eq; simpl; lia). injection Ed as <-. congruence.
    + destruct (exists_last (l := x :: l0)) as (l & y & El); [discriminate|].
      rewrite El, removelast_snoc. rewrite El in Hq. apply Forall_app in Hq as [Hq _].
      destruct (IH (set_queue l q) Hq Hmax) as (l' & k & d' & E1 & E2 & E3 & E4).
      { apply (f_equal (@length _)) in El. rewrite length_app in El. simpl in *. lia. }
      exists l', (k ++ [y]), d'. simpl in E2.
      split_and!; [exact E1 | rewrite app_assoc, <- E2; reflexivity | exact E3 | exact E4].
  - exists (queue_ q), [], depth. rewrite app_nil_r, Eid. auto.
Qed.

(** ** Pushing and popping *)

(** The numbers that the queue is past. *)
Definition is_late (base : Z) (q : RtpPacketQueue) (s : Z) : Prop :=
  0 <= lastSequenceNumberGiven_ q /\
  seq_offset base s <= seq_offset base (lastSequenceNumberGiven_ q).

Lemma late_test base q s :
  queue_ok base q -> in_width 16 s -> seq_offset base s < 2 ^ 15 ->
  (0 <=? lastSequenceNumberGiven_ q) &&
  (rtpSequenceLessThan s (u16 (lastSequenceNumberGiven_ q)) || (s =? lastSequenceNumberGiven_ q))
  = true <-> is_late base q s.
Proof.
  intros Hq Hs Ws. unfold is_late. destruct (qok_last _ _ Hq) as [->|(Hl & Wl & _)].
  - split; [discriminate | lia].
  - rewrite wrap_small by assumption. rewrite (lt_in_window base) by assumption.
    destruct (Z.leb_spec 0 (lastSequenceNumberGiven_ q)); [|unfold in_width in Hl; lia].
    cbn [andb]. rewrite orb_true_iff, Z.ltb_lt, Z.eqb_eq. split.
    + intros [H0 | ->]; split; lia.
    + intros [_ Hle]. destruct (decide (s = lastSequenceNumberGiven_ q)); [auto|]. left.
      assert (seq_offset base s <> seq_offset base (lastSequenceNumberGiven_ q)); [|lia].
      intros E. apply (seq_offset_inj base) in E; auto.
Qed.

Lemma pushPacket_spec base buf len q :
  queue_ok base q -> arrival_ok base buf len ->
  exists p, copy_packet buf len = Some p /\ packet_ok p /\
    RtpHeader.getSeqNumber buf 0 = Some (seq_of p) /\
    ( is_late base q (seq_of p) /\ pushPacket buf len q = Some q \/
      ~ is_late base q (seq_of p) /\
      exists l l' k depth, insert_packet p (seq_of p) (queue_ q) = Some l /\ l = l' ++ k /\
        pushPacket buf len q = Some (set_queue l' q) /\ queue_ok base (set_queue l' q) /\
        discard_excess (S (length l)) (set_queue l q) = Some (set_queue l' q) /\
        getDepthInSeconds (set_queue l' q) = Some depth /\
        double_lt (maxDepthInSeconds_ q) depth = false ).
Proof.
  intros Hq Ha. destruct (copy_packet_spec base buf len Ha) as (p & Ec & Hp & Eseq & _ & _).
  exists p. split; [exact Ec|]. split; [exact Hp|]. split; [exact Eseq|].
  pose proof (arr_window _ _ _ Ha) as Wp. rewrite Eseq in Wp. change (default 0 (Some ?x)) with x in Wp.
  pose proof (late_test base q (seq_of p) Hq (seq_of_width _ Hp) Wp) as Hlate.
  unfold pushPacket. rewrite Eseq. cbn [option_bind mbind].
  destruct (_ && _) eqn:Et.
  - left. split; [apply Hlate; reflexivity | reflexivity].
  - right. assert (Hnl : ~ is_late base q (seq_of p)) by (rewrite <- Hlate; congruence).
    split; [exact Hnl|]. rewrite Ec. cbn [option_bind mbind].
    destruct (insert_packet_spec base p (queue_ q) Hp Wp (qok_packets _ _ Hq) (qok_window _ _ Hq)
      (qok_sorted _ _ Hq)) as (l & El & Hs & _ & Hin). rewrite El. cbn [option_bind mbind].
    assert (Hl : queue_ok base (set_queue l q)).
    { destruct Hq as [Qp Qw Qs Ql Qm]. rewrite Forall_forall in Qp, Qw.
      split; simpl; [apply Forall_forall; intros x Hx; apply Hin in Hx as [?|[-> _]]; auto..
                    | exact Hs | | exact Qm].
      destruct Ql as [Ql|(Hl & Wl & Ql)]; [auto|]. right. split; [exact Hl|]. split; [exact Wl|].
      apply Forall_forall. intros x Hx. apply Hin in Hx as [Hx|[-> _]].
      - rewrite Forall_forall in Ql. auto.
      - unfold is_late in Hnl. unfold off, in_width in *. lia. }
    destruct (discard_excess_spec (S (length l)) (set_queue l q) (qok_packets _ _ Hl) (qok_max _ _ Hl))
      as (l' & k & d & E1 & E2 & E3 & E4); [simpl; lia|]. exists l, l', k, d. simpl in E2.
    assert (Ess : set_queue l' (set_queue l q) = set_queue l' q) by reflexivity.
    rewrite Ess in *. split_and!; auto.
    rewrite <- Ess. eapply queue_ok_prefix; [exact Hl | exact E2].
Qed.

Lemma popPacket_spec base ignore q :
  queue_ok base q ->
  (queue_ q = [] /\ popPacket ignore q = Some (None, q)) \/
  (ignore = false /\ popPacket ignore q = Some (None, q)) \/
  exists l p q', queue_ q = l ++ [p] /\ popPacket ignore q = Some (Some p, q') /\
    queue_ q' = l /\ lastSequenceNumberGiven_ q' = seq_of p /\ queue_ok base q' /\
    in_width 16 (seq_of p) /\
    (lastSequenceNumberGiven_ q = -1 \/ seq_offset base (lastSequenceNumberGiven_ q) < off base p).
Proof.
  intros Hq. unfold popPacket. destruct (queue_ q) as [|x l0] eqn:Eq; [left; auto|]. right.
  destruct (exists_last (l := x :: l0)) as (l & p & El); [discriminate|]. rewrite El in *.
  rewrite last_snoc.
  destruct (depth_is_Some q (qok_packets _ _ Hq)) as [depth ->]. cbn [option_bind mbind].
  destruct (ignore || _) eqn:Ei; [|left; destruct ignore; [discriminate | auto]].
  right. destruct Hq as [Qp Qw Qs Ql Qm]. rewrite Eq in *.
  apply Forall_app in Qp as [Qp Hp]. apply Forall_app in Qw as [Qw Wp].
  inversion Hp as [|? ? Hp' _]; subst. inversion Wp as [|? ? Wp' _]; subst.
  rewrite (getSeqNumber_packet _ Hp'). cbn [option_bind mbind].
  exists l, p. eexists. split; [reflexivity|]. split; [reflexivity|].
  rewrite removelast_snoc. cbn [queue_ lastSequenceNumberGiven_].
  split; [reflexivity|]. split; [reflexivity|]. split; [|split; [apply seq_of_width, Hp'|]].
  - split; simpl; auto.
    + eapply StronglySorted_app_l, Qs.
    + right. split; [apply seq_of_width, Hp'|]. split; [exact Wp'|].
      apply (StronglySorted_snoc _ _ _ Qs).
  - destruct Ql as [Ql|(_ & _ & Ql)]; [auto|]. right. apply Forall_app in Ql as [_ Ql].
    inversion Ql. assumption.
Qed.

(** ** Sequences of calls *)

Inductive queue_op := QPush (buf : list Z) (len : Z) | QPop (ignore_depth : bool) | QTimebase (t : Z).

(** The packets handed out, in order. *)
Fixpoint run (ops : list queue_op) (q : RtpPacketQueue) : option (list dataPacket * RtpPacketQueue) :=
  match ops with
  | [] => Some ([], q)
  | QPush buf len :: ops => q ← pushPacket buf len q; run ops q
  | QTimebase t :: ops => run ops (setTimebase t q)
  | QPop ignore :: ops =>
      '(p, q) ← popPacket ignore q;
      '(outs, q) ← run ops q;
      Some ((match p with Some p => [p] | None => [] end) ++ outs, q)
  end.

Lemma queue_ok_setTimebase base t q : queue_ok base q -> queue_ok base (setTimebase t q).
Proof. intros [Hp Hw Hs Hl Hm]. split; assumption. Qed.

Lemma queue_ok_ctor base d m :
  double_lt m double_zero = false -> queue_ok base (RtpPacketQueue_ctor d m).
Proof.
  intros Hm. unfold RtpPacketQueue_ctor. destruct (negb _);
    split; simpl; auto; try constructor.
Qed.

Lemma discard_excess_none fuel q :
  timebase_ q = 0 -> double_lt (maxDepthInSeconds_ q) double_zero = false ->
  discard_excess (S fuel) q = Some q.
Proof.
  intros Ht Hm. cbn [discard_excess]. rewrite depth_no_timebase by assumption.
  cbn [option_bind mbind]. rewrite Hm. reflexivity.
Qed.

Lemma run_app ops1 ops2 q :
  run (ops1 ++ ops2) q =
    ('(o1, q1) ← run ops1 q; '(o2, q2) ← run ops2 q1; Some (o1 ++ o2, q2)).
Proof.
  revert q. induction ops1 as [|o ops1 IH]; intros q; cbn [app run option_bind mbind].
  - destruct (run ops2 q) as [[? ?]|]; reflexivity.
  - destruct o.
    + destruct (pushPacket buf len q); [apply IH | reflexivity].
    + destruct (popPacket ignore_depth q) as [[p q1]|]; [|reflexivity]. cbn [option_bind mbind].
      rewrite IH. destruct (run ops1 q1) as [[o1 q2]|]; [|reflexivity]. cbn [option_bind mbind].
      destruct (run ops2 q2) as [[o2 q3]|]; [|reflexivity]. cbn [option_bind mbind].
      rewrite app_assoc. reflexivity.
    + apply IH.
Qed.

(** ** In order *)

Lemma unwrapped_order x y : Z.abs (x - y) < 2 ^ 15 ->
  rtpSequenceLessThan (u16 x) (u16 y) = (x <? y) /\ (u16 x =? u16 y) = (x =? y).
Proof.
  intros Hn. assert (Hd : (u16 y - u16 x) mod 2 ^ 16 = (y - x) mod 2 ^ 16).
  { unfold wrap. rewrite Zminus_mod_idemp_l, Zminus_mod_idemp_r. reflexivity. }
  assert (Hm : (y - x) mod 2 ^ 16 = if x <=? y then y - x else y - x + 2 ^ 16).
  { destruct (Z.leb_spec x y); symmetry; [apply Z.mod_unique with 0 | apply Z.mod_unique with (-1)]; lia. }
  rewrite Hm in Hd. split; apply eq_true_iff_eq.
  - rewrite rtpSequenceLessThan_spec, Hd, Z.ltb_lt by (apply wrap_bound; lia).
    destruct (Z.leb_spec x y); lia.
  - rewrite !Z.eqb_eq. split; [|intros ->; reflexivity]. intros E. rewrite E, Z.sub_diag in Hd.
    rewrite Z.mod_0_l in Hd by lia. destruct (Z.leb_spec x y); lia.
Qed.

Section Numbers.
(** The unwrapped number of a packet: the counter of its sender, of which the packet carries
    the low 16 bits. *)
Variable number : dataPacket -> Z.

Definition before_ (p p' : dataPacket) : Prop := number p < number p'.

(** A packet that may be pushed. *)
Record pushable (buf : list Z) (len : Z) : Prop := {
  push_bytes : bytes_ok buf;
  push_size : 12 <= len <= 1500;
  push_inside : len <= Z.of_nat (length buf);
  push_number p : copy_packet buf len = Some p -> seq_of p = u16 (number p)
}.

(** Each packet is pushed within half the number space of the packets then in the queue and
    of the one handed out last; the window slides with them. *)
Definition in_reach (ops : list queue_op) (q0 : RtpPacketQueue) : Prop :=
  forall before buf len after outs q p p',
    ops = before ++ QPush buf len :: after -> run before q0 = Some (outs, q) -> copy_packet buf len = Some p ->
    p' ∈ queue_ q \/ last outs = Some p' -> Z.abs (number p - number p') < 2 ^ 15.

(** What was handed out and what is in the queue, from the oldest to the newest. *)
Record ordered (outs : list dataPacket) (q : RtpPacketQueue) : Prop := {
  ord_packets : Forall packet_ok (queue_ q);
  ord_numbers : Forall (fun p => seq_of p = u16 (number p)) (queue_ q);
  ord_sorted : StronglySorted before_ (outs ++ rev (queue_ q));
  ord_last : match last outs with
             | None => lastSequenceNumberGiven_ q = -1
             | Some p => lastSequenceNumberGiven_ q = u16 (number p)
             end;
  ord_max : double_lt (maxDepthInSeconds_ q) double_zero = false
}.

Lemma pushable_spec buf len : pushable buf len ->
  exists p, copy_packet buf len = Some p /\ packet_ok p /\ RtpHeader.getSeqNumber buf 0 = Some (seq_of p)
    /\ seq_of p = u16 (number p).
Proof.
  intros [Hok [H12 H15] Hin Hn].
  destruct (copy_packet_spec (default 0 (RtpHeader.getSeqNumber buf 0)) buf len) as (p & E & Hp & Es & _).
  - split; auto. unfold seq_offset. rewrite Z.sub_diag. vm_compute. reflexivity.
  - exists p. auto.
Qed.

Lemma StronglySorted_app {A} (R : A -> A -> Prop) l l' :
  StronglySorted R (l ++ l') <->
  StronglySorted R l /\ StronglySorted R l' /\ forall x y, x ∈ l -> y ∈ l' -> R x y.
Proof.
  induction l as [|a l IH]; cbn [app].
  - split; [intros H; split_and!; [constructor | exact H | intros x y Hx; inversion Hx] | tauto].
  - split.
    + intros [H Ha]%StronglySorted_inv. apply IH in H as (H1 & H2 & H3). apply Forall_app in Ha as [Ha1 Ha2].
      split_and!; [constructor; assumption | exact H2|]. intros x y Hx Hy.
      apply elem_of_cons in Hx as [->|Hx]; [|auto]. rewrite Forall_forall in Ha2. auto.
    + intros ([H1 Ha]%StronglySorted_inv & H2 & H3). constructor.
      * apply IH. split_and!; auto. intros x y Hx. apply H3. right. exact Hx.
      * apply Forall_app. split; [exact Ha|]. apply Forall_forall. intros y Hy. apply H3; [left | exact Hy].
Qed.

(** The search loop puts the packet where its number belongs. *)
Lemma insert_in_order p l : seq_of p = u16 (number p) ->
  Forall packet_ok l -> Forall (fun x => seq_of x = u16 (number x)) l ->
  (forall x, x ∈ l -> Z.abs (number p - number x) < 2 ^ 15) -> StronglySorted before_ (rev l) ->
  exists l', insert_packet p (seq_of p) l = Some l' /\ StronglySorted before_ (rev l')
    /\ (forall x, x ∈ l' -> x ∈ l \/ x = p)
    /\ (forall x, x ∈ l -> x ∈ l') /\ exists x, x ∈ l' /\ number x = number p.
Proof.
  intros Hp. induction l as [|it l IH]; intros Hok Hn Hr Hs; cbn [insert_packet].
  { exists [p]. split; [reflexivity|]. split; [repeat constructor|]. set_solver. }
  apply Forall_cons in Hok as [Hit Hok]. apply Forall_cons in Hn as [Nit Hn].
  cbn [rev] in Hs. apply StronglySorted_app in Hs as (Hs & _ & Hlt).
  rewrite (getSeqNumber_packet _ Hit). cbn [option_bind mbind]. rewrite Hp, Nit.
  destruct (unwrapped_order (number it) (number p)) as [Elt Eeq]; [specialize (Hr it); set_solver by lia|].
  rewrite Elt, Eeq. destruct (Z.eqb_spec (number it) (number p)) as [E|Ne]; [|destruct (Z.ltb_spec (number it) (number p))].
  - exists (it :: l). split; [reflexivity|]. split; [|set_solver].
    cbn [rev]. apply StronglySorted_app. split_and!; [exact Hs | repeat constructor | exact Hlt].
  - exists (p :: it :: l). split; [reflexivity|]. split; [|set_solver].
    cbn [rev]. apply StronglySorted_app. split_and!; [| repeat constructor |].
    + apply StronglySorted_app. split_and!; [exact Hs | repeat constructor | exact Hlt].
    + intros x y Hx Hy. apply list_elem_of_singleton in Hy as ->. unfold before_ in *.
      apply elem_of_app in Hx as [Hx|Hx]; [|apply list_elem_of_singleton in Hx as ->; assumption].
      specialize (Hlt x it Hx ltac:(left)). lia.
  - rewrite <- Hp. destruct IH as (l' & -> & Hs' & Hin & Hin' & x0 & Hx0 & En); [exact Hok | exact Hn | set_solver | exact Hs |].
    cbn [option_bind mbind]. exists (it :: l'). split; [reflexivity|]. split; [|set_solver].
    cbn [rev]. apply StronglySorted_app. split_and!; [exact Hs' | repeat constructor |].
    intros x y Hx Hy. apply list_elem_of_singleton in Hy as ->. apply list_elem_of_In, in_rev, list_elem_of_In in Hx.
    destruct (Hin x Hx) as [Hl| ->]; [|unfold before_; lia].
    apply Hlt; [|left]. apply list_elem_of_In, in_rev. rewrite rev_involutive. apply list_elem_of_In, Hl.
Qed.

Lemma ordered_queue outs q l : ordered outs q ->
  Forall packet_ok l -> Forall (fun p => seq_of p = u16 (number p)) l ->
  StronglySorted before_ (outs ++ rev l) -> ordered outs (set_queue l q).
Proof. intros [_ _ _ Hl Hm]. split; assumption. Qed.

(** What was handed out before is below what was handed out last. *)
Lemma last_is_greatest outs v x : StronglySorted before_ outs -> last outs = Some v -> x ∈ outs -> number x <= number v.
Proof.
  intros Hs (l & ->)%last_Some Hx. apply StronglySorted_app in Hs as (_ & _ & Hlt).
  apply elem_of_app in Hx as [Hx|Hx]; [|apply list_elem_of_singleton in Hx as ->; lia].
  specialize (Hlt x v Hx ltac:(left)). unfold before_ in Hlt. lia.
Qed.

Lemma ordered_push outs q buf len : ordered outs q -> pushable buf len ->
  (forall p p', copy_packet buf len = Some p -> p' ∈ queue_ q \/ last outs = Some p' ->
     Z.abs (number p - number p') < 2 ^ 15) ->
  exists q', pushPacket buf len q = Some q' /\ ordered outs q'
    /\ (timebase_ q = 0 -> timebase_ q' = 0 /\ (forall x, x ∈ queue_ q -> x ∈ queue_ q')
        /\ forall p, copy_packet buf len = Some p ->
             (exists v, last outs = Some v /\ number p <= number v) \/ exists x, x ∈ queue_ q' /\ number x = number p).
Proof.
  intros Ho Hpush Hr. destruct (pushable_spec _ _ Hpush) as (p & Ec & Hp & Eseq & Hn).
  specialize (Hr p). pose proof (fun p' => Hr p' Ec) as Hr'. clear Hr. pose proof Ho as [Qp Qn Qs Ql Qm].
  apply StronglySorted_app in Qs as (Qo & Qq & Qlt).
  unfold pushPacket. rewrite Eseq, Ec. cbn [option_bind mbind].
  assert (Late : (0 <=? lastSequenceNumberGiven_ q) &&
      (rtpSequenceLessThan (seq_of p) (u16 (lastSequenceNumberGiven_ q)) || (seq_of p =? lastSequenceNumberGiven_ q))
    = match last outs with Some v => number p <=? number v | None => false end).
  { destruct (last outs) as [v|]; rewrite Ql; [|reflexivity].
    pose proof (wrap_bound 16 (number v) ltac:(lia)) as Hv. rewrite (wrap_small 16 (u16 _)) by exact Hv.
    destruct (unwrapped_order (number p) (number v)) as [E1 E2]; [auto|]. rewrite Hn, E1, E2.
    rewrite (proj2 (Z.leb_le _ _)) by (unfold in_width in Hv; lia). cbn [andb].
    apply eq_true_iff_eq. rewrite orb_true_iff, Z.ltb_lt, Z.eqb_eq, Z.leb_le. lia. }
  rewrite Late. destruct (match last outs with Some v => _ | None => _ end) eqn:El.
  { exists q. split_and!; auto. intros Ht. split_and!; auto. intros p' [= <-].
    left. destruct (last outs) as [v|]; [|discriminate]. exists v. split; [reflexivity | apply Z.leb_le, El]. }
  destruct (insert_in_order p (queue_ q) Hn Qp Qn) as (l & Ei & Hs & Hin & Hin' & Hnew); [auto | exact Qq |].
  rewrite Ei. cbn [option_bind mbind].
  assert (Hl : ordered outs (set_queue l q)).
  { rewrite Forall_forall in Qp, Qn. apply ordered_queue; [exact Ho | | |].
    - apply Forall_forall. intros x [?| ->]%Hin; auto.
    - apply Forall_forall. intros x [?| ->]%Hin; auto.
    - apply StronglySorted_app. split_and!; [exact Qo | exact Hs |]. intros x y Hx Hy.
      apply list_elem_of_In, in_rev, list_elem_of_In, Hin in Hy as [Hy| ->].
      + apply Qlt; [exact Hx|]. apply list_elem_of_In, in_rev. rewrite rev_involutive. apply list_elem_of_In, Hy.
      + unfold before_. destruct (last outs) as [v|] eqn:Ev; [|apply last_None in Ev as ->; inversion Hx].
        pose proof (last_is_greatest _ _ _ Qo Ev Hx). apply Z.leb_gt in El. lia. }
  destruct (discard_excess_spec (S (length l)) (set_queue l q) (ord_packets _ _ Hl) (ord_max _ _ Hl))
    as (l' & k & d & E1 & E2 & _); [simpl; lia|]. simpl in E2. rewrite E1. eexists. split; [reflexivity|].
  split; cycle 1.
  { intros Ht. rewrite discard_excess_none in E1 by assumption. assert (l' = l) as -> by (apply (f_equal (fmap queue_)) in E1; simpl in E1; congruence).
    split_and!; [exact Ht | exact Hin' |]. intros p' [= <-]. right. exact Hnew. }
  change (set_queue l' (set_queue l q)) with (set_queue l' q). pose proof Hl as [Lp Ln Ls _ _]. simpl in Lp, Ln, Ls.
  rewrite E2 in Lp, Ln, Ls. apply Forall_app in Lp as [Lp _], Ln as [Ln _].
  apply ordered_queue; [exact Ho | exact Lp | exact Ln |].
  rewrite rev_app_distr in Ls. apply StronglySorted_app in Ls as (L1 & L2 & L3).
  apply StronglySorted_app in L2 as (_ & L2 & _). apply StronglySorted_app. split_and!; [exact L1 | exact L2 |].
  intros x y Hx Hy. apply L3; [exact Hx | apply elem_of_app; auto].
Qed.

Lemma ordered_pop outs q ignore : ordered outs q ->
  exists o q', popPacket ignore q = Some (o, q')
    /\ ordered (outs ++ match o with Some p => [p] | None => [] end) q'
    /\ timebase_ q' = timebase_ q /\ (forall x, x ∈ queue_ q -> x ∈ queue_ q' \/ o = Some x)
    /\ (ignore = true -> o = last (queue_ q)).
Proof.
  intros Ho. unfold popPacket. destruct (queue_ q) as [|x l0] eqn:Eq.
  { exists None, q. rewrite app_nil_r, Eq. auto 10. }
  destruct (exists_last (l := x :: l0)) as (l & p & El); [discriminate|]. rewrite El in *. rewrite last_snoc.
  destruct (depth_is_Some q (ord_packets _ _ Ho)) as [depth ->]. cbn [option_bind mbind].
  destruct (_ || _) eqn:Ei.
  2:{ exists None, q. rewrite app_nil_r, Eq. split_and!; auto. intros ->. discriminate. }
  destruct Ho as [Qp Qn Qs Ql Qm]. rewrite Eq in Qp, Qn, Qs.
  apply Forall_app in Qp as [Qp Hp]. apply Forall_app in Qn as [Qn Np].
  apply Forall_cons in Hp as [Hp _], Np as [Np _].
  rewrite (getSeqNumber_packet _ Hp). cbn [option_bind mbind]. eexists _, _. split; [reflexivity|].
  rewrite removelast_snoc. rewrite rev_app_distr in Qs. cbn [rev app] in Qs.
  split; [|split; [reflexivity|]; split; [|reflexivity]].
  - split; simpl; auto; [rewrite <- app_assoc; exact Qs | rewrite last_snoc; exact Np].
  - simpl. intros y Hy. apply elem_of_app in Hy as [Hy|Hy]; [auto|]. apply list_elem_of_singleton in Hy as ->. auto.
Qed.

Lemma ordered_ctor d m : double_lt m double_zero = false -> ordered [] (RtpPacketQueue_ctor d m).
Proof.
  intros Hm. unfold RtpPacketQueue_ctor. destruct (negb _); split; simpl; auto; try constructor.
Qed.

(** Nothing handed out or queued is lost, as long as there is no timebase. *)
Definition held (n : Z) (outs : list dataPacket) (q : RtpPacketQueue) : Prop :=
  exists x, (x ∈ outs \/ x ∈ queue_ q) /\ number x = n.

Definition no_timebase (ops : list queue_op) : Prop := forall t, QTimebase t ∉ ops.

(** One call keeps what was held, and adds a packet that is pushed in time. *)
Lemma op_ordered outs q o : ordered outs q ->
  (forall buf len, o = QPush buf len -> pushable buf len) ->
  (forall buf len p p', o = QPush buf len -> copy_packet buf len = Some p ->
     p' ∈ queue_ q \/ last outs = Some p' -> Z.abs (number p - number p') < 2 ^ 15) ->
  exists new q', run [o] q = Some (new, q') /\ ordered (outs ++ new) q'
    /\ (timebase_ q = 0 -> no_timebase [o] -> timebase_ q' = 0
        /\ (forall n, held n outs q -> held n (outs ++ new) q')
        /\ forall buf len p, o = QPush buf len -> copy_packet buf len = Some p ->
             (exists v, last outs = Some v /\ number p <= number v) \/ held (number p) (outs ++ new) q').
Proof.
  intros Ho Hpush Hr. destruct o as [buf len|ignore|t]; cbn [run].
  - destruct (ordered_push outs q buf len Ho) as (q' & E' & Ho' & Hk); [auto | eauto |].
    rewrite E'. cbn [option_bind mbind]. exists [], q'. rewrite app_nil_r. split_and!; auto.
    intros Htq _. destruct (Hk Htq) as (Htq' & Hin & Hnew). split_and!; [exact Htq' | |].
    + intros n (x & [?|?] & Ex); exists x; auto.
    + intros buf' len' p [= <- <-] Ep. destruct (Hnew p Ep) as [Hl|(x & Hx & Ex)]; [auto|]. right. exists x. auto.
  - destruct (ordered_pop outs q ignore Ho) as (o & q' & E' & Ho' & Htq & Hin & _). rewrite E'. cbn [option_bind mbind].
    rewrite app_nil_r. eexists _, q'. split_and!; [reflexivity | exact Ho' |]. intros Htq0 _. split_and!; [congruence | |discriminate].
    intros n (x & Hx & Ex). exists x. split; [|exact Ex]. rewrite elem_of_app.
    destruct Hx as [?|[?| ->]%Hin]; [auto | auto | left; right; left].
  - exists [], (setTimebase t q). rewrite app_nil_r. split_and!; [reflexivity | destruct Ho; split; assumption |].
    intros _ Hno. exfalso. apply (Hno t). left.
Qed.

Lemma run_ordered ops q0 : ordered [] q0 -> timebase_ q0 = 0 ->
  (forall buf len, QPush buf len ∈ ops -> pushable buf len) -> in_reach ops q0 ->
  exists outs q, run ops q0 = Some (outs, q) /\ ordered outs q
    /\ (no_timebase ops -> timebase_ q = 0 /\
        forall before buf len after outs1 q1 p,
          ops = before ++ QPush buf len :: after -> run before q0 = Some (outs1, q1) -> copy_packet buf len = Some p ->
          (exists v, last outs1 = Some v /\ number p <= number v) \/ held (number p) outs q).
Proof.
  intros H0 Ht. induction ops as [|o ops IH] using rev_ind; intros Hpush Hr.
  { exists [], q0. split_and!; auto. intros _. split; [exact Ht|]. intros [|? ?]; discriminate. }
  destruct IH as (outs & q & E & Ho & Hheld).
  { intros buf len Hin. apply Hpush, elem_of_app. auto. }
  { intros before buf len after outs q p p' Eo. apply (Hr before buf len (after ++ [o])). rewrite Eo, <- app_assoc. reflexivity. }
  rewrite run_app, E. cbn [option_bind mbind].
  destruct (op_ordered outs q o Ho) as (new & q' & E' & Ho' & Hk).
  { intros buf len ->. apply Hpush, elem_of_app. right. left. }
  { intros buf len p p' ->. exact (Hr ops buf len [] outs q p p' eq_refl E). }
  rewrite E'. cbn [option_bind mbind].
  exists (outs ++ new), q'. split; [reflexivity|]. split; [exact Ho'|]. intros Hno.
  destruct Hheld as [Htq Hheld]; [intros t Hin; apply (Hno t), elem_of_app; auto|].
  destruct (Hk Htq) as (Htq' & Hmono & Hnew); [intros t Hin; apply (Hno t), elem_of_app; auto|].
  split; [exact Htq'|]. intros before buf len after outs1 q1 p Eo Hrun Ep.
  destruct after as [|o' after _] using rev_ind.
  - apply app_inj_tail in Eo as [-> ->]. rewrite E in Hrun. injection Hrun as <- <-. exact (Hnew buf len p eq_refl Ep).
  - rewrite app_comm_cons, app_assoc in Eo. apply app_inj_tail in Eo as [-> ->].
    destruct (Hheld before buf len after outs1 q1 p eq_refl Hrun Ep) as [?|?]; auto.
Qed.

(** C21. Packets of 12 to 1500 bytes are pushed with numbers of which they carry the low 16
    bits, out of order, repeated or late, and without bound: the numbers may wrap around any
    number of times, as long as each packet, when it is pushed, is less than half the number
    space from the packets in the queue at that moment and from the one handed out last.
    Then, whatever the interleaving of pushes, pops and timebase changes and whatever the
    depths (the maximum not negative), no call fails, and the packets handed out followed by
    those in the queue, the oldest first, are strictly increasing in their numbers: never
    backwards, never twice.  A pop that ignores the depth hands out the oldest packet there
    is; and while there is no timebase, hence no depth limit, every number pushed has been
    handed out or is in the queue, unless one not below it had been handed out before. *)
Theorem queue_in_order (ops : list queue_op) (depth max_depth : double) :
  let q0 := RtpPacketQueue_ctor depth max_depth in
  double_lt max_depth double_zero = false ->
  (forall buf len, QPush buf len ∈ ops -> pushable buf len) ->
  in_reach ops q0 ->
  exists outs q, run ops q0 = Some (outs, q)
    /\ StronglySorted (fun p p' => number p < number p') (outs ++ rev (queue_ q))
    /\ (exists q', popPacket true q = Some (last (queue_ q), q'))
    /\ ((forall t, QTimebase t ∉ ops) -> forall before buf len after outs1 q1 p,
          ops = before ++ QPush buf len :: after -> run before q0 = Some (outs1, q1) -> copy_packet buf len = Some p ->
          (exists v, last outs1 = Some v /\ number p <= number v)
          \/ exists x, (x ∈ outs \/ x ∈ queue_ q) /\ number x = number p).
Proof.
  intros q0 Hm Hpush Hr. destruct (run_ordered ops q0 (ordered_ctor depth max_depth Hm)) as (outs & q & E & Ho & Hk);
    [unfold q0, RtpPacketQueue_ctor; destruct (negb _); reflexivity | exact Hpush | exact Hr |].
  exists outs, q. split; [exact E|]. split; [exact (ord_sorted _ _ Ho)|]. split.
  - destruct (ordered_pop outs q true Ho) as (o & q' & E' & _ & _ & _ & El). rewrite El in E' by reflexivity. eauto.
  - intros Hno. exact (proj2 (Hk Hno)).
Qed.
End Numbers.

(** A packet of sequence number [256 * hi + lo]: twelve header bytes. *)
Definition test_packet (hi lo : Z) : list Z := [128; 100; hi; lo; 0; 0; 0; 1; 0; 0; 0; 5].

Lemma test_packet_ok base hi lo :
  byte_ok hi -> byte_ok lo ->
  seq_offset base (default 0 (RtpHeader.getSeqNumber (test_packet hi lo) 0)) < 2 ^ 15 ->
  arrival_ok base (test_packet hi lo) 12.
Proof.
  intros Hh Hl Hw. split; [|lia|lia|simpl; lia|exact Hw].
  unfold test_packet, byte_ok in *. repeat (apply Forall_cons_2; [lia|]). apply Forall_nil_2.
Qed.

(** Whether [in_reach] holds, by running. *)
Fixpoint reach (number : dataPacket -> Z) (ops : list queue_op) (given : list dataPacket) (q : RtpPacketQueue) : bool :=
  match ops with
  | [] => true
  | QPush buf len :: ops =>
      match copy_packet buf len with
      | Some p => forallb (fun p' => Z.abs (number p - number p') <? 2 ^ 15)
                    (queue_ q ++ match last given with Some p' => [p'] | None => [] end)
      | None => true
      end && match pushPacket buf len q with Some q => reach number ops given q | None => true end
  | QPop ignore :: ops =>
      match popPacket ignore q with
      | Some (o, q) => reach number ops (given ++ match o with Some p => [p] | None => [] end) q
      | None => true
      end
  | QTimebase t :: ops => reach number ops given (setTimebase t q)
  end.

Lemma reach_after number buf len after p p' before : forall q0 outs given q,
  reach number (before ++ QPush buf len :: after) given q0 = true ->
  run before q0 = Some (outs, q) -> copy_packet buf len = Some p ->
  p' ∈ queue_ q \/ last (given ++ outs) = Some p' -> Z.abs (number p - number p') < 2 ^ 15.
Proof.
  induction before as [|o before IH]; intros q0 outs given q H Hrun Ec Hp'; cbn [app reach run] in *.
  - injection Hrun as <- <-. rewrite Ec in H. rewrite app_nil_r in Hp'. apply andb_true_iff in H as [H _].
    rewrite forallb_forall in H. apply Z.ltb_lt, H, list_elem_of_In, elem_of_app.
    destruct Hp' as [Hp'| ->]; [auto | right; left].
  - destruct o as [b l|ignore|t].
    + apply bind_Some in Hrun as (q1 & E & Hrun). rewrite E in H. apply andb_true_iff in H as [_ H].
      exact (IH _ _ _ _ H Hrun Ec Hp').
    + apply bind_Some in Hrun as ([o q1] & E & Hrun). rewrite E in H.
      apply bind_Some in Hrun as ([outs1 q2] & Hrun & [= <- <-]).
      rewrite app_assoc in Hp'. exact (IH _ _ _ _ H Hrun Ec Hp').
    + exact (IH _ _ _ _ H Hrun Ec Hp').
Qed.

Lemma reach_spec number ops q0 : reach number ops [] q0 = true -> in_reach number ops q0.
Proof.
  intros H before buf len after outs q p p' -> Hrun Ec Hp'. exact (reach_after _ _ _ _ _ _ _ _ _ _ _ H Hrun Ec Hp').
Qed.

(** The number of a packet whose eighth byte counts the times the 16 bits wrapped around. *)
Definition counted_packet (cycle hi lo : Z) : list Z := [128; 100; hi; lo; 0; 0; 0; cycle; 0; 0; 0; 5].
Definition counted (p : dataPacket) : Z := 65536 * nth 7 (data p) 0 + seq_of p.

Lemma counted_pushable cycle hi lo : byte_ok cycle -> byte_ok hi -> byte_ok lo -> pushable counted (counted_packet cycle hi lo) 12.
Proof.
  intros Hc Hh Hl. assert (Hok : bytes_ok (counted_packet cycle hi lo)).
  { unfold counted_packet, byte_ok in *. repeat (apply Forall_cons_2; [lia|]). apply Forall_nil_2. }
  split; [exact Hok | lia | simpl; lia |]. intros p E.
  destruct (copy_packet_spec (default 0 (RtpHeader.getSeqNumber (counted_packet cycle hi lo) 0))
              (counted_packet cycle hi lo) 12) as (p' & E' & Hp & _).
  { split; [exact Hok | lia | lia | simpl; lia |]. unfold seq_offset. rewrite Z.sub_diag. vm_compute. reflexivity. }
  assert (p' = p) as -> by congruence. unfold counted.
  pose proof (seq_of_width _ Hp) as Hs. unfold wrap. rewrite Z.add_comm, Z.mul_comm.
  change (2 ^ 16) with 65536. rewrite Z.mod_add by lia. symmetry. apply Z.mod_small. exact Hs.
Qed.

(** Twice around: 0, 0x7000 before 0x6FFF, 0xE000, then 0x5000 and 0xC000 of the second cycle,
    and 0 of the third. *)
Definition counted_ops : list queue_op :=
  [QPush (counted_packet 0 0 0) 12; QPop true; QPush (counted_packet 0 0x70 0) 12;
   QPush (counted_packet 0 0x6F 0xFF) 12; QPop true; QPush (counted_packet 0 0xE0 0) 12; QPop true; QPop true;
   QPush (counted_packet 1 0x50 0) 12; QPop true; QPush (counted_packet 1 0xC0 0) 12; QPop true;
   QPush (counted_packet 2 0 0) 12].

Lemma queue_in_order_witness : exists outs q,
  run counted_ops (RtpPacketQueue_ctor DEFAULT_DEPTH DEFAULT_MAX) = Some (outs, q) /\
  StronglySorted (fun p p' => counted p < counted p') (outs ++ rev (queue_ q)) /\
  map counted (outs ++ rev (queue_ q)) = [0; 0x6FFF; 0x7000; 0xE000; 0x15000; 0x1C000; 0x20000].
Proof.
  destruct (queue_in_order counted counted_ops DEFAULT_DEPTH DEFAULT_MAX) as (outs & q & E & Hs & _).
  - vm_compute. reflexivity.
  - intros buf len Hin. repeat (apply elem_of_cons in Hin as [[= -> ->]|Hin] || apply elem_of_cons in Hin as [Hin|Hin]);
      try discriminate; [..|inversion Hin]; apply counted_pushable; unfold byte_ok; lia.
  - apply reach_spec. vm_compute. reflexivity.
  - exists outs, q. split; [exact E|]. split; [exact Hs|].
    apply (f_equal (fun r => match r with Some (outs, q) => map counted (outs ++ rev (queue_ q)) | None => [] end)) in E.
    cbv beta iota in E. rewrite <- E. vm_compute. reflexivity.
Defined.

(** ** Nothing is lost *)

Lemma run_pops base q n :
  queue_ok base q -> (length (queue_ q) <= n)%nat ->
  exists q', run (repeat (QPop true) n) q = Some (rev (queue_ q), q') /\ queue_ q' = [].
Proof.
  revert q. induction n as [|n IH]; intros q Hq Hn; cbn [repeat run].
  - destruct (queue_ q) as [|x l] eqn:E; [|simpl in Hn; lia]. eauto.
  - destruct (popPacket_spec base true q Hq)
      as [(E & ->) | [(? & _) | (l & p & q' & E & -> & El & _ & Hq' & _)]]; [|discriminate|];
      cbn [option_bind mbind].
    + destruct (IH q Hq) as (q' & -> & Eq'); [rewrite E; simpl; lia|].
      rewrite E. simpl. eauto.
    + destruct (IH q' Hq') as (q2 & -> & E2).
      { rewrite El. rewrite E, length_app in Hn. simpl in Hn. lia. }
      rewrite E, rev_app_distr, El. simpl. eauto.
Qed.

Definition arrival_seq (a : list Z * Z) : Z := default 0 (RtpHeader.getSeqNumber a.1 0).

(** Pushing onto a queue that has handed nothing out and has no timebase. *)
Lemma run_pushes base arrivals : Forall (fun a => arrival_ok base a.1 a.2) arrivals ->
  forall q, queue_ok base q -> lastSequenceNumberGiven_ q = -1 -> timebase_ q = 0 ->
  exists q', run (map (fun a => QPush a.1 a.2) arrivals) q = Some ([], q') /\ queue_ok base q' /\
    (length (queue_ q') <= length (queue_ q) + length arrivals)%nat /\
    (forall s, s ∈ map seq_of (queue_ q') <-> s ∈ map seq_of (queue_ q) \/ s ∈ map arrival_seq arrivals).
Proof.
  induction 1 as [|[buf len] arrivals Ha _ IH]; intros q Hq Hl Ht; cbn [map run fst snd] in *.
  - exists q. split_and!; auto; [simpl; lia|]. intros s. rewrite elem_of_nil. tauto.
  - destruct (pushPacket_spec base buf len q Hq Ha)
      as (p & _ & Hp & Es & [([H0 _] & _) | (_ & l & l' & k & d & El & Ek & Ep & Hq' & Hd & _)]);
      [lia|].
    rewrite discard_excess_none in Hd by (simpl; assumption || apply (qok_max _ _ Hq)).
    injection Hd as <-. rewrite Ep. cbn [option_bind mbind].
    destruct (IH (set_queue l q) Hq' Hl Ht) as (q' & E & H' & Hlen & Hin).
    exists q'. split; [exact E|]. split; [exact H'|].
    pose proof (arr_window _ _ _ Ha) as Wp. rewrite Es in Wp.
    destruct (insert_packet_spec base p (queue_ q) Hp Wp (qok_packets _ _ Hq) (qok_window _ _ Hq)
      (qok_sorted _ _ Hq)) as (l2 & El2 & _ & Hlen2 & Hins). rewrite El in El2. injection El2 as <-.
    split; [simpl in Hlen |- *; lia|].
    intros s. rewrite Hin, elem_of_cons. unfold arrival_seq at 2. cbn [fst].
    rewrite Es. change (default 0 (Some ?x)) with x. cbn [queue_ set_queue].
    assert (Hl' : s ∈ map seq_of l <-> s ∈ map seq_of (queue_ q) \/ s = seq_of p).
    { rewrite !list_elem_of_fmap. split.
      - intros (x & -> & Hx). apply Hins in Hx as [Hx|[-> _]]; eauto.
      - intros [(x & -> & Hx) | ->].
        + exists x. split; [reflexivity|]. apply Hins. auto.
        + destruct (decide (Exists (fun y => seq_of y = seq_of p) (queue_ q))) as [Hd|Hd].
          * apply Exists_exists in Hd as (y & Hy & Ey). exists y. split; [auto|]. apply Hins. auto.
          * exists p. split; [reflexivity|]. apply Hins. right. split; [reflexivity|].
            intros (y & Hy & Ey). apply Hd, Exists_exists. eauto. }
    rewrite Hl'. tauto.
Qed.

Lemma StronglySorted_rev {A} (R : A -> A -> Prop) l :
  StronglySorted R l -> StronglySorted (fun x y => R y x) (rev l).
Proof.
  induction 1 as [|x l Hs IH Hx]; [constructor|]. simpl.
  assert (Hr : Forall (R x) (rev l)) by (apply List.Forall_rev; assumption).
  clear Hs Hx. induction (rev l) as [|y k IHk]; [repeat constructor|]. simpl.
  apply StronglySorted_inv in IH as [IH Hy]. inversion Hr; subst.
  constructor; [auto|]. apply Forall_app. auto.
Qed.

(** C20. Nothing is lost and everything is sorted: without a timebase, pushing any packets whose
    sequence numbers are within half the number space, then popping with [ignore_depth]
    until the queue is empty, hands out exactly the sequence numbers that arrived, each
    once, in increasing order. *)
Theorem queue_reorders (base : Z) (arrivals : list (list Z * Z)) (depth max_depth : double) (n : nat) :
  double_lt max_depth double_zero = false ->
  Forall (fun a => arrival_ok base a.1 a.2) arrivals -> (length arrivals <= n)%nat ->
  exists outs q,
    run (map (fun a => QPush a.1 a.2) arrivals ++ repeat (QPop true) n)
      (RtpPacketQueue_ctor depth max_depth) = Some (outs, q) /\
    queue_ q = [] /\
    StronglySorted (fun p p' => off base p < off base p') outs /\
    (forall s, s ∈ map seq_of outs <-> s ∈ map arrival_seq arrivals).
Proof.
  intros Hm Ha Hn. set (q0 := RtpPacketQueue_ctor depth max_depth).
  assert (Hq0 : queue_ok base q0) by (apply queue_ok_ctor, Hm).
  assert (E0 : lastSequenceNumberGiven_ q0 = -1 /\ timebase_ q0 = 0 /\ queue_ q0 = [])
    by (unfold q0, RtpPacketQueue_ctor; destruct (negb _); auto).
  destruct E0 as (El & Et & Eq).
  destruct (run_pushes base arrivals Ha q0 Hq0 El Et) as (q1 & E1 & Hq1 & Hlen & Hin).
  rewrite Eq in Hin, Hlen.
  destruct (run_pops base q1 n Hq1 ltac:(simpl in Hlen; lia)) as (q2 & E2 & Eq2).
  exists (rev (queue_ q1)), q2. rewrite run_app, E1. cbn [option_bind mbind]. rewrite E2.
  cbn [option_bind mbind app]. split_and!; auto.
  - apply StronglySorted_rev, (qok_sorted _ _ Hq1).
  - intros s. rewrite map_rev, list_elem_of_In, <- List.in_rev, <- list_elem_of_In, Hin. simpl.
    rewrite elem_of_nil. tauto.
Qed.

Lemma queue_reorders_witness : exists outs q,
  run (map (fun a => QPush a.1 a.2)
         [(test_packet 0 2, 12); (test_packet 255 255, 12); (test_packet 0 2, 12); (test_packet 0 0, 12)]
       ++ repeat (QPop true) 4)
    (RtpPacketQueue_ctor DEFAULT_DEPTH DEFAULT_MAX) = Some (outs, q) /\
  queue_ q = [] /\ StronglySorted (fun p p' => off 65530 p < off 65530 p') outs /\
  (forall s, s ∈ map seq_of outs <->
     s ∈ map arrival_seq [(test_packet 0 2, 12); (test_packet 255 255, 12); (test_packet 0 2, 12);
                          (test_packet 0 0, 12)]).
Proof.
  apply queue_reorders; [vm_compute; reflexivity | | simpl; lia].
  repeat (apply Forall_cons_2;
    [first [exact I | apply test_packet_ok; vm_compute; intuition congruence]|]).
  apply Forall_nil_2.
Defined.

(** A push that is accepted leaves the depth within the configured maximum. *)
Theorem push_depth_bound (base : Z) (buf : list Z) (len : Z) (q : RtpPacketQueue) :
  queue_ok base q -> arrival_ok base buf len ->
  exists q' depth, pushPacket buf len q = Some q' /\ getDepthInSeconds q' = Some depth /\
    (q' = q \/ double_lt (maxDepthInSeconds_ q') depth = false).
Proof.
  intros Hq Ha.
  destruct (pushPacket_spec base buf len q Hq Ha)
    as (p & _ & _ & _ & [(_ & ->) | (_ & l & l' & k & d & _ & _ & -> & _ & _ & Ed & Hd)]).
  - destruct (depth_is_Some q (qok_packets _ _ Hq)) as [d Ed]. eauto 10.
  - eauto 10.
Qed.

(** A negative maximum depth, which the constructor accepts together with a smaller depth, makes
    the first push empty the list and go on. *)
Theorem negative_depth_undefined :
  pushPacket (test_packet 0 1) 12 (RtpPacketQueue_ctor (double_of_Z (-2)) (double_of_Z (-1))) = None.
Proof. vm_compute. reflexivity. Qed.
