(* ===== verification/RtpVP8.v ===== *)
(** * RtpVP8: VP8 payload descriptors (src/Src/media/rtp/RtpVP8Parser.cpp, RtpVP8Fragmenter.cpp)

    The parser reads the payload descriptor in front of a VP8 packet, the fragmenter cuts
    a frame into packets with a one-byte descriptor.  Pointers into a packet are offsets;
    [None] is a read outside the packet or a copy outside a buffer.  The parser returns
    an object allocated by [new RTPPayloadVP8], whose members are not initialised: the
    parameter [mem] holds whatever they were.

    The theorems: no parse of a non-empty packet reads outside it; a descriptor that was
    written field by field is read back; what the parser leaves uninitialised; the
    fragments of a frame are packets of at most 1100 bytes that the parser reads back
    into the frame. *)

From S2P Require Import Prelude Bytes.

(** ** RtpVP8Parser.h *)

Inductive FrameTypes := kIFrame | kPFrame.

#[export] Instance FrameTypes_eq_dec : EqDecision FrameTypes.
Proof. solve_decision. Defined.

Record RTPPayloadVP8 := {
  nonReferenceFrame : bool;
  beginningOfPartition : bool;
  partitionID : Z;
  hasPictureID : bool;
  hasTl0PicIdx : bool;
  hasTID : bool;
  hasKeyIdx : bool;
  pictureID : Z;
  tl0PicIdx : Z;
  tID : Z;
  layerSync : bool;
  keyIdx : Z;
  frameWidth : Z;
  frameHeight : Z;
  frameType : FrameTypes;
  payload : Z;           (* the member [data], as an offset into the packet *)
  dataLength : Z
}.

Definition set_descriptor (n s : bool) (p : Z) (v : RTPPayloadVP8) : RTPPayloadVP8 :=
  {| nonReferenceFrame := n; beginningOfPartition := s; partitionID := p;
     hasPictureID := hasPictureID v; hasTl0PicIdx := hasTl0PicIdx v; hasTID := hasTID v;
     hasKeyIdx := hasKeyIdx v; pictureID := pictureID v; tl0PicIdx := tl0PicIdx v;
     tID := tID v; layerSync := layerSync v; keyIdx := keyIdx v; frameWidth := frameWidth v;
     frameHeight := frameHeight v; frameType := frameType v; payload := payload v;
     dataLength := dataLength v |}.
Definition set_flags (i l t k : bool) (v : RTPPayloadVP8) : RTPPayloadVP8 :=
  {| nonReferenceFrame := nonReferenceFrame v; beginningOfPartition := beginningOfPartition v;
     partitionID := partitionID v; hasPictureID := i; hasTl0PicIdx := l; hasTID := t;
     hasKeyIdx := k; pictureID := pictureID v; tl0PicIdx := tl0PicIdx v;
     tID := tID v; layerSync := layerSync v; keyIdx := keyIdx v; frameWidth := frameWidth v;
     frameHeight := frameHeight v; frameType := frameType v; payload := payload v;
     dataLength := dataLength v |}.
Definition set_pictureID (x : Z) (v : RTPPayloadVP8) : RTPPayloadVP8 :=
  {| nonReferenceFrame := nonReferenceFrame v; beginningOfPartition := beginningOfPartition v;
     partitionID := partitionID v; hasPictureID := hasPictureID v; hasTl0PicIdx := hasTl0PicIdx v;
     hasTID := hasTID v; hasKeyIdx := hasKeyIdx v; pictureID := x; tl0PicIdx := tl0PicIdx v;
     tID := tID v; layerSync := layerSync v; keyIdx := keyIdx v; frameWidth := frameWidth v;
     frameHeight := frameHeight v; frameType := frameType v; payload := payload v;
     dataLength := dataLength v |}.
Definition set_tl0PicIdx (x : Z) (v : RTPPayloadVP8) : RTPPayloadVP8 :=
  {| nonReferenceFrame := nonReferenceFrame v; beginningOfPartition := beginningOfPartition v;
     partitionID := partitionID v; hasPictureID := hasPictureID v; hasTl0PicIdx := hasTl0PicIdx v;
     hasTID := hasTID v; hasKeyIdx := hasKeyIdx v; pictureID := pictureID v; tl0PicIdx := x;
     tID := tID v; layerSync := layerSync v; keyIdx := keyIdx v; frameWidth := frameWidth v;
     frameHeight := frameHeight v; frameType := frameType v; payload := payload v;
     dataLength := dataLength v |}.
Definition set_tID (x : Z) (y : bool) (v : RTPPayloadVP8) : RTPPayloadVP8 :=
  {| nonReferenceFrame := nonReferenceFrame v; beginningOfPartition := beginningOfPartition v;
     partitionID := partitionID v; hasPictureID := hasPictureID v; hasTl0PicIdx := hasTl0PicIdx v;
     hasTID := hasTID v; hasKeyIdx := hasKeyIdx v; pictureID := pictureID v;
     tl0PicIdx := tl0PicIdx v; tID := x; layerSync := y; keyIdx := keyIdx v;
     frameWidth := frameWidth v; frameHeight := frameHeight v; frameType := frameType v;
     payload := payload v; dataLength := dataLength v |}.
Definition set_keyIdx (x : Z) (v : RTPPayloadVP8) : RTPPayloadVP8 :=
  {| nonReferenceFrame := nonReferenceFrame v; beginningOfPartition := beginningOfPartition v;
     partitionID := partitionID v; hasPictureID := hasPictureID v; hasTl0PicIdx := hasTl0PicIdx v;
     hasTID := hasTID v; hasKeyIdx := hasKeyIdx v; pictureID := pictureID v;
     tl0PicIdx := tl0PicIdx v; tID := tID v; layerSync := layerSync v; keyIdx := x;
     frameWidth := frameWidth v; frameHeight := frameHeight v; frameType := frameType v;
     payload := payload v; dataLength := dataLength v |}.
Definition set_frameSize (w h : Z) (v : RTPPayloadVP8) : RTPPayloadVP8 :=
  {| nonReferenceFrame := nonReferenceFrame v; beginningOfPartition := beginningOfPartition v;
     partitionID := partitionID v; hasPictureID := hasPictureID v; hasTl0PicIdx := hasTl0PicIdx v;
     hasTID := hasTID v; hasKeyIdx := hasKeyIdx v; pictureID := pictureID v;
     tl0PicIdx := tl0PicIdx v; tID := tID v; layerSync := layerSync v; keyIdx := keyIdx v;
     frameWidth := w; frameHeight := h; frameType := frameType v;
     payload := payload v; dataLength := dataLength v |}.
Definition set_frameType (t : FrameTypes) (v : RTPPayloadVP8) : RTPPayloadVP8 :=
  {| nonReferenceFrame := nonReferenceFrame v; beginningOfPartition := beginningOfPartition v;
     partitionID := partitionID v; hasPictureID := hasPictureID v; hasTl0PicIdx := hasTl0PicIdx v;
     hasTID := hasTID v; hasKeyIdx := hasKeyIdx v; pictureID := pictureID v;
     tl0PicIdx := tl0PicIdx v; tID := tID v; layerSync := layerSync v; keyIdx := keyIdx v;
     frameWidth := frameWidth v; frameHeight := frameHeight v; frameType := t;
     payload := payload v; dataLength := dataLength v |}.
Definition set_payload (d n : Z) (v : RTPPayloadVP8) : RTPPayloadVP8 :=
  {| nonReferenceFrame := nonReferenceFrame v; beginningOfPartition := beginningOfPartition v;
     partitionID := partitionID v; hasPictureID := hasPictureID v; hasTl0PicIdx := hasTl0PicIdx v;
     hasTID := hasTID v; hasKeyIdx := hasKeyIdx v; pictureID := pictureID v;
     tl0PicIdx := tl0PicIdx v; tID := tID v; layerSync := layerSync v; keyIdx := keyIdx v;
     frameWidth := frameWidth v; frameHeight := frameHeight v; frameType := frameType v;
     payload := d; dataLength := n |}.

(** ** RtpVP8Parser.cpp *)

(** The byte a pointer points to. *)
Definition deref (buf : list Z) (ptr : Z) : option Z :=
  if ptr <? 0 then None else buf !! Z.to_nat ptr.

Definition bit (b mask : Z) : bool := negb (Z.land b mask =? 0).

(** What the helpers work on: the object, the pointer, the bytes left, the bytes parsed. *)
Record cursor := {
  vp8 : RTPPayloadVP8;
  dataPtr : Z;
  left_ : Z;
  parsedBytes : Z
}.

Definition advance (v : RTPPayloadVP8) (c : cursor) : cursor :=
  {| vp8 := v; dataPtr := dataPtr c + 1; left_ := left_ c - 1; parsedBytes := parsedBytes c + 1 |}.

(** The helpers return their code and the cursor. *)
Definition ParseVP8PictureID (buf : list Z) (c : cursor) : option (Z * cursor) :=
  if left_ c <=? 0 then Some (-1, c) else
  b ← deref buf (dataPtr c);
  let v := set_pictureID (Z.land b 0x7F) (vp8 c) in
  if bit b 0x80 then
    let c := {| vp8 := v; dataPtr := dataPtr c + 1; left_ := left_ c - 1;
                parsedBytes := parsedBytes c + 1 |} in
    if left_ c <=? 0 then Some (-1, c) else
    b ← deref buf (dataPtr c);
    let v := set_pictureID (Z.shiftl (pictureID v) 8 + b) v in
    Some (0, advance v c)
  else Some (0, advance v c).

Definition ParseVP8Tl0PicIdx (buf : list Z) (c : cursor) : option (Z * cursor) :=
  if left_ c <=? 0 then Some (-1, c) else
  b ← deref buf (dataPtr c);
  Some (0, advance (set_tl0PicIdx b (vp8 c)) c).

Definition ParseVP8TIDAndKeyIdx (buf : list Z) (c : cursor) : option (Z * cursor) :=
  if left_ c <=? 0 then Some (-1, c) else
  b ← deref buf (dataPtr c);
  let v := vp8 c in
  let v := if hasTID v then set_tID (Z.land (Z.shiftr b 6) 0x03) (bit b 0x20) v else v in
  let v := if hasKeyIdx v then set_keyIdx (Z.land b 0x1F) v else v in
  Some (0, advance v c).

Definition ParseVP8FrameSize (buf : list Z) (v : RTPPayloadVP8) (ptr len : Z)
    : option (Z * RTPPayloadVP8) :=
  if negb (bool_decide (frameType v = kIFrame)) then Some (-1, v) else
  if len <? 10 then Some (-1, v) else
  b6 ← deref buf (ptr + 6); b7 ← deref buf (ptr + 7);
  b8 ← deref buf (ptr + 8); b9 ← deref buf (ptr + 9);
  Some (0, set_frameSize (Z.land (Z.shiftl b7 8 + b6) 0x3FFF) (Z.land (Z.shiftl b9 8 + b8) 0x3FFF) v).

(** Returns the number of bytes parsed, or -1. *)
Definition ParseVP8Extension (buf : list Z) (v : RTPPayloadVP8) (ptr len : Z)
    : option (Z * RTPPayloadVP8) :=
  if len <=? 0 then Some (-1, v) else
  b ← deref buf ptr;
  let v := set_flags (bit b 0x80) (bit b 0x40) (bit b 0x20) (bit b 0x10) v in
  let c := {| vp8 := v; dataPtr := ptr + 1; left_ := len - 1; parsedBytes := 1 |} in
  '(r, c) ← (if hasPictureID v then ParseVP8PictureID buf c else Some (0, c));
  if negb (r =? 0) then Some (-1, vp8 c) else
  '(r, c) ← (if hasTl0PicIdx v then ParseVP8Tl0PicIdx buf c else Some (0, c));
  if negb (r =? 0) then Some (-1, vp8 c) else
  '(r, c) ← (if hasTID v || hasKeyIdx v then ParseVP8TIDAndKeyIdx buf c else Some (0, c));
  if negb (r =? 0) then Some (-1, vp8 c) else
  Some (parsedBytes c, vp8 c).

Definition parseVP8 (mem : RTPPayloadVP8) (buf : list Z) (len : Z) : option RTPPayloadVP8 :=
  b ← deref buf 0;
  let extension := bit b 0x80 in
  let v := set_descriptor (bit b 0x20) (bit b 0x10) (Z.land b 0x0F) mem in
  if 8 <? partitionID v then Some v else
  let ptr := 1 in
  let len := len - 1 in
  '(parsedBytes, v) ← (if extension then ParseVP8Extension buf v ptr len else Some (0, v));
  if parsedBytes <? 0 then Some v else
  let ptr := ptr + parsedBytes in
  let len := len - parsedBytes in
  if len <=? 0 then Some v else
  v ← (if (0 <? len) && beginningOfPartition v && (partitionID v =? 0)
       then b ← deref buf ptr; Some (set_frameType (if bit b 0x01 then kPFrame else kIFrame) v)
       else Some (set_frameType kPFrame v));
  '(r, v) ← ParseVP8FrameSize buf v ptr len;
  Some (set_payload ptr (u32 len) v).

(** ** RtpVP8Fragmenter.cpp *)

Definition MAX_SIZE : Z := 1100.

Record Fragment := {
  position : Z;
  fsize : Z;
  first : bool
}.

Record RtpVP8Fragmenter := {
  totalData_ : list Z;
  totalLenth_ : Z;
  maxlength_ : Z;
  fragmentQueue_ : list Fragment
}.

(** The loop of [calculatePackets]; it ends because every fragment takes a byte at least. *)
Fixpoint calculatePackets_loop (fuel : nat) (remaining currentPos : Z) (queue : list Fragment)
    : option (list Fragment) :=
  match fuel with
  | O => None
  | S fuel =>
    if 0 <? remaining then
      let newFragment :=
        {| position := currentPos;
           fsize := if MAX_SIZE - 1 <? remaining then MAX_SIZE - 1 else remaining;
           first := currentPos =? 0 |} in
      calculatePackets_loop fuel (remaining - fsize newFragment) (u32 (currentPos + fsize newFragment))
        (queue ++ [newFragment])
    else Some queue
  end.

Definition RtpVP8Fragmenter_ctor (data : list Z) (length maxLength : Z) : option RtpVP8Fragmenter :=
  queue ← calculatePackets_loop (S (Z.to_nat length)) length 0 [];
  Some {| totalData_ := data; totalLenth_ := length; maxlength_ := maxLength;
          fragmentQueue_ := queue |}.

(** Writes a fragment at the start of [buffer]; returns its length with the descriptor. *)
Definition writeFragment (f : RtpVP8Fragmenter) (fragment : Fragment) (buffer : list Z)
    : option (Z * list Z) :=
  buffer ← write_at buffer 0 [if first fragment then 0x10 else 0x0];
  bytes ← read_at (Z.to_nat (fsize fragment)) (totalData_ f) (position fragment);
  buffer ← write_at buffer 1 bytes;
  Some (u32 (fsize fragment + 1), buffer).

(** [getPacket] leaves [length] and [lastPacket] as they are when there is nothing left. *)
Definition getPacket (buffer : list Z) (length : Z) (lastPacket : bool) (f : RtpVP8Fragmenter)
    : option (list Z * Z * bool * RtpVP8Fragmenter) :=
  match fragmentQueue_ f with
  | [] => Some (buffer, length, lastPacket, f)
  | test :: rest =>
      '(length, buffer) ← writeFragment f test buffer;
      Some (buffer, length, if decide (rest = []) then true else lastPacket,
        {| totalData_ := totalData_ f; totalLenth_ := totalLenth_ f;
           maxlength_ := maxlength_ f; fragmentQueue_ := rest |})
  end.

(** ** Reading inside the packet *)

Lemma deref_is_Some buf ptr : 0 <= ptr < Z.of_nat (length buf) -> is_Some (deref buf ptr).
Proof.
  intros H. unfold deref. destruct (Z.ltb_spec ptr 0); [lia|]. apply lookup_lt_is_Some_2. lia.
Qed.

(** A cursor inside a packet of [n] bytes. *)
Record cursor_ok (n : Z) (c : cursor) : Prop := {
  cok_ptr : 0 <= dataPtr c;
  cok_parsed : 0 <= parsedBytes c;
  cok_left : left_ c <= n - dataPtr c
}.

(** The members that only the end of [parseVP8] writes. *)
Definition same_payload (v w : RTPPayloadVP8) : Prop :=
  payload v = payload w /\ dataLength v = dataLength w.

Ltac reader_step :=
  match goal with
  | |- context [deref ?buf ?ptr] =>
    let b := fresh "b" in let E := fresh "E" in
    destruct (deref_is_Some buf ptr) as [b E]; [simpl in *; lia|]; rewrite E; cbn [option_bind mbind]
  end.

(** What every helper guarantees: it stays inside, consumes as much as it counts, and on
    success has not run past the bytes left. *)
Definition helper_ok (h : list Z -> cursor -> option (Z * cursor)) : Prop :=
  forall buf c, cursor_ok (Z.of_nat (length buf)) c ->
  exists r c', h buf c = Some (r, c') /\ same_payload (vp8 c') (vp8 c) /\
    (r = -1 \/ r = 0 /\ 0 <= left_ c' /\ cursor_ok (Z.of_nat (length buf)) c' /\
       parsedBytes c' - parsedBytes c = dataPtr c' - dataPtr c /\
       left_ c - left_ c' = dataPtr c' - dataPtr c).

Lemma ParseVP8PictureID_ok : helper_ok ParseVP8PictureID.
Proof.
  intros buf c [H1 H2 H3]. unfold ParseVP8PictureID.
  destruct (Z.leb_spec (left_ c) 0); [exists (-1), c; repeat split; auto|].
  reader_step. destruct (bit b 0x80).
  - cbn [left_ dataPtr]. destruct (Z.leb_spec (left_ c - 1) 0).
    + do 2 eexists. split; [reflexivity|]. split; [split; reflexivity | left; reflexivity].
    + reader_step. do 2 eexists. split; [reflexivity|]. split; [split; reflexivity|].
      right. repeat split; simpl; lia.
  - do 2 eexists. split; [reflexivity|]. split; [split; reflexivity|].
    right. repeat split; simpl; lia.
Qed.

Lemma ParseVP8Tl0PicIdx_ok : helper_ok ParseVP8Tl0PicIdx.
Proof.
  intros buf c [H1 H2 H3]. unfold ParseVP8Tl0PicIdx.
  destruct (Z.leb_spec (left_ c) 0); [exists (-1), c; repeat split; auto|].
  reader_step. do 2 eexists. split; [reflexivity|]. split; [split; reflexivity|].
  right. repeat split; simpl; lia.
Qed.

Lemma ParseVP8TIDAndKeyIdx_ok : helper_ok ParseVP8TIDAndKeyIdx.
Proof.
  intros buf c [H1 H2 H3]. unfold ParseVP8TIDAndKeyIdx.
  destruct (Z.leb_spec (left_ c) 0); [exists (-1), c; repeat split; auto|].
  reader_step. do 2 eexists. split; [reflexivity|]. split.
  - cbn [vp8 advance]. destruct (hasTID (vp8 c)); cbn [hasKeyIdx set_tID];
      destruct (hasKeyIdx (vp8 c)); split; reflexivity.
  - right. repeat split; simpl; lia.
Qed.

Lemma skip_ok : helper_ok (fun _ c => if left_ c <? 0 then Some (-1, c) else Some (0, c)).
Proof.
  intros buf c [H1 H2 H3]. destruct (Z.ltb_spec (left_ c) 0); exists (if left_ c <? 0 then -1 else 0), c;
    destruct (Z.ltb_spec (left_ c) 0); try lia; repeat split; auto.
  right. repeat split; lia.
Qed.

(** A helper that runs only when a flag is set. *)
Lemma maybe_ok (flag : bool) h buf c :
  helper_ok h -> cursor_ok (Z.of_nat (length buf)) c -> 0 <= left_ c ->
  exists r c', (if flag then h buf c else Some (0, c)) = Some (r, c') /\
    same_payload (vp8 c') (vp8 c) /\
    (r = -1 \/ r = 0 /\ 0 <= left_ c' /\ cursor_ok (Z.of_nat (length buf)) c' /\
       parsedBytes c' - parsedBytes c = dataPtr c' - dataPtr c /\
       left_ c - left_ c' = dataPtr c' - dataPtr c).
Proof.
  intros Hh Hc Hl. destruct flag; [apply Hh; assumption|].
  exists 0, c. split; [reflexivity|]. split; [split; reflexivity|]. right. repeat split; try apply Hc; lia.
Qed.

Lemma same_payload_trans u v w : same_payload u v -> same_payload v w -> same_payload u w.
Proof. unfold same_payload. intros [] []. split; congruence. Qed.

Lemma ParseVP8Extension_ok buf v ptr len :
  0 <= ptr -> len <= Z.of_nat (length buf) - ptr ->
  exists r v', ParseVP8Extension buf v ptr len = Some (r, v') /\ same_payload v' v /\
    (r = -1 \/ 0 <= r <= len).
Proof.
  intros Hp Hl. unfold ParseVP8Extension.
  destruct (Z.leb_spec len 0); [exists (-1), v; repeat split; auto|]. reader_step.
  set (v1 := set_flags _ _ _ _ v).
  set (c0 := {| vp8 := v1; dataPtr := ptr + 1; left_ := len - 1; parsedBytes := 1 |}).
  assert (H0 : cursor_ok (Z.of_nat (length buf)) c0) by (split; simpl; lia).
  assert (Hv : same_payload v1 v) by (split; reflexivity).
  destruct (maybe_ok (hasPictureID v1) _ buf c0 ParseVP8PictureID_ok H0 ltac:(simpl; lia))
    as (r1 & c1 & -> & S1 & [-> | (-> & L1 & H1 & P1 & D1)]); cbn [option_bind mbind].
  { change (negb (-1 =? 0)) with true. cbv iota.
    do 2 eexists. split; [reflexivity|]. split; [eauto using same_payload_trans | auto]. }
  change (negb (0 =? 0)) with false. cbv iota.
  destruct (maybe_ok (hasTl0PicIdx v1) _ buf c1 ParseVP8Tl0PicIdx_ok H1 L1)
    as (r2 & c2 & -> & S2 & [-> | (-> & L2 & H2 & P2 & D2)]); cbn [option_bind mbind].
  { change (negb (-1 =? 0)) with true. cbv iota.
    do 2 eexists. split; [reflexivity|]. split; [eauto using same_payload_trans | auto]. }
  change (negb (0 =? 0)) with false. cbv iota.
  destruct (maybe_ok (hasTID v1 || hasKeyIdx v1) _ buf c2 ParseVP8TIDAndKeyIdx_ok H2 L2)
    as (r3 & c3 & -> & S3 & [-> | (-> & L3 & H3 & P3 & D3)]); cbn [option_bind mbind].
  { change (negb (-1 =? 0)) with true. cbv iota.
    do 2 eexists. split; [reflexivity|]. split; [eauto using same_payload_trans | auto]. }
  change (negb (0 =? 0)) with false. cbv iota.
  do 2 eexists. split; [reflexivity|]. split; [eauto using same_payload_trans|].
  right. pose proof (cok_parsed _ _ H3). subst c0. simpl in *. lia.
Qed.

Lemma ParseVP8FrameSize_ok buf v ptr len :
  0 <= ptr -> len <= Z.of_nat (length buf) - ptr ->
  exists r v', ParseVP8FrameSize buf v ptr len = Some (r, v') /\ same_payload v' v.
Proof.
  intros Hp Hl. unfold ParseVP8FrameSize. case_bool_decide; cbn [negb]; [|repeat eexists].
  destruct (Z.ltb_spec len 10); [repeat eexists|]. do 4 reader_step. repeat eexists.
Qed.

(** C27. Memory safety of the VP8 parser: on any packet of at least one byte it reads only bytes of
    the packet; the payload it reports is the non-empty rest of the packet, and when it
    gives up (partition number above 8, descriptor or payload missing) the reported
    payload pointer and length are the uninitialised members of the object. *)
Theorem parse_vp8_safe (mem : RTPPayloadVP8) (buf : list Z) (len : Z) :
  1 <= Z.of_nat (length buf) -> len <= Z.of_nat (length buf) -> len < 2 ^ 31 ->
  exists v, parseVP8 mem buf len = Some v /\
    (payload v = payload mem /\ dataLength v = dataLength mem \/
     1 <= payload v /\ 1 <= dataLength v /\ payload v + dataLength v = len).
Proof.
  intros H1 Hlen H31. unfold parseVP8. reader_step.
  set (v0 := set_descriptor _ _ _ mem).
  assert (S0 : same_payload v0 mem) by (split; reflexivity).
  destruct (8 <? partitionID v0); [exists v0; split; [reflexivity | left; exact S0]|].
  assert (He : exists r v1, (if bit b 0x80 then ParseVP8Extension buf v0 1 (len - 1) else Some (0, v0))
      = Some (r, v1) /\ same_payload v1 v0 /\ (r = -1 \/ 0 <= r <= Z.max 0 (len - 1))).
  { destruct (bit b 0x80).
    - destruct (ParseVP8Extension_ok buf v0 1 (len - 1)) as (r & v1 & E1 & S1 & Hr); [lia..|].
      exists r, v1. split; [exact E1|]. split; [exact S1 | lia].
    - exists 0, v0. split; [reflexivity|]. split; [split; reflexivity | right; lia]. }
  destruct He as (r & v1 & -> & S1 & Hr). cbn [option_bind mbind].
  assert (S1' : same_payload v1 mem) by eauto using same_payload_trans.
  destruct (Z.ltb_spec r 0); [exists v1; split; [reflexivity | left; exact S1']|].
  destruct (Z.leb_spec (len - 1 - r) 0); [exists v1; split; [reflexivity | left; exact S1']|].
  assert (Hf : exists v2, (if (0 <? len - 1 - r) && beginningOfPartition v1 && (partitionID v1 =? 0)
       then b ← deref buf (1 + r); Some (set_frameType (if bit b 0x01 then kPFrame else kIFrame) v1)
       else Some (set_frameType kPFrame v1)) = Some v2).
  { destruct (_ && _ && _); [|eauto]. reader_step. eauto. }
  destruct Hf as (v2 & ->). cbn [option_bind mbind].
  destruct (ParseVP8FrameSize_ok buf v2 (1 + r) (len - 1 - r)) as (r' & v3 & -> & _); [lia..|].
  cbn [option_bind mbind]. eexists. split; [reflexivity|]. right. cbn [payload dataLength set_payload].
  rewrite wrap_small by (unfold in_width; lia). lia.
Qed.

Definition vp8_zero : RTPPayloadVP8 :=
  {| nonReferenceFrame := false; beginningOfPartition := false; partitionID := 0;
     hasPictureID := false; hasTl0PicIdx := false; hasTID := false; hasKeyIdx := false;
     pictureID := 0; tl0PicIdx := 0; tID := 0; layerSync := false; keyIdx := 0; frameWidth := 0;
     frameHeight := 0; frameType := kIFrame; payload := 0; dataLength := 0 |}.

Lemma parse_vp8_safe_witness : exists v, parseVP8 vp8_zero [0x90; 0xC0; 0x81] 3 = Some v /\
  (payload v = payload vp8_zero /\ dataLength v = dataLength vp8_zero \/
   1 <= payload v /\ 1 <= dataLength v /\ payload v + dataLength v = 3).
Proof. apply parse_vp8_safe; simpl; lia. Defined.

(** ** Writing descriptors *)

Inductive picture_id := Short (z : Z) | Long (z : Z).

(** A payload descriptor with its optional fields. *)
Record descriptor := {
  d_nonref : bool;
  d_start : bool;
  d_part : Z;
  d_picture : option picture_id;
  d_tl0 : option Z;
  d_tid : option (Z * bool);
  d_key : option Z
}.

Definition pic_value (p : picture_id) : Z := match p with Short z | Long z => z end.

Definition descriptor_ok (d : descriptor) : Prop :=
  0 <= d_part d <= 8 /\
  match d_picture d with Some (Short z) => 0 <= z < 2 ^ 7 | Some (Long z) => 0 <= z < 2 ^ 15 | None => True end /\
  match d_tl0 d with Some z => byte_ok z | None => True end /\
  match d_tid d with Some (t, _) => 0 <= t < 4 | None => True end /\
  match d_key d with Some k => 0 <= k < 32 | None => True end.

Definition is_some {A} (o : option A) : bool := match o with Some _ => true | None => false end.

Definition extended (d : descriptor) : bool :=
  is_some (d_picture d) || is_some (d_tl0 d) || is_some (d_tid d) || is_some (d_key d).

Definition b2z (b : bool) (m : Z) : Z := if b then m else 0.

(** The bytes of the descriptor, from the VP8 RTP payload format. *)
Definition tk_byte (d : descriptor) : Z :=
  match d_tid d with Some (t, y) => 64 * t + b2z y 32 | None => 0 end + default 0 (d_key d).
Definition pic_bytes (d : descriptor) : list Z :=
  match d_picture d with
  | Some (Short z) => [z]
  | Some (Long z) => [128 + z / 256; z mod 256]
  | None => []
  end.
Definition tl0_bytes (d : descriptor) : list Z := match d_tl0 d with Some z => [z] | None => [] end.
Definition tk_bytes (d : descriptor) : list Z :=
  if is_some (d_tid d) || is_some (d_key d) then [tk_byte d] else [].
Definition flags_byte (d : descriptor) : Z :=
  b2z (is_some (d_picture d)) 128 + b2z (is_some (d_tl0 d)) 64 + b2z (is_some (d_tid d)) 32 +
  b2z (is_some (d_key d)) 16.
Definition encode_descriptor (d : descriptor) : list Z :=
  (b2z (extended d) 128 + b2z (d_nonref d) 32 + b2z (d_start d) 16 + d_part d) ::
  if extended d then flags_byte d :: pic_bytes d ++ tl0_bytes d ++ tk_bytes d else [].

(** What the parser makes of the descriptor and the payload [pl]; what it does not set stays
    as it is in [mem]. *)
Definition read_flags (d : descriptor) (v : RTPPayloadVP8) : RTPPayloadVP8 :=
  set_flags (is_some (d_picture d)) (is_some (d_tl0 d)) (is_some (d_tid d)) (is_some (d_key d)) v.
Definition read_picture (d : descriptor) (v : RTPPayloadVP8) : RTPPayloadVP8 :=
  match d_picture d with Some p => set_pictureID (pic_value p) v | None => v end.
Definition read_tl0 (d : descriptor) (v : RTPPayloadVP8) : RTPPayloadVP8 :=
  match d_tl0 d with Some z => set_tl0PicIdx z v | None => v end.
Definition read_tk (d : descriptor) (v : RTPPayloadVP8) : RTPPayloadVP8 :=
  let v := match d_tid d with Some (t, y) => set_tID t y v | None => v end in
  match d_key d with Some k => set_keyIdx k v | None => v end.
Definition frame_type (d : descriptor) (pl : list Z) : FrameTypes :=
  if d_start d && (d_part d =? 0) && Z.even (default 0 (head pl)) then kIFrame else kPFrame.
Definition read_frame (d : descriptor) (pl : list Z) (v : RTPPayloadVP8) : RTPPayloadVP8 :=
  let v := set_frameType (frame_type d pl) v in
  let at_ i := default 0 (pl !! i) in
  if bool_decide (frame_type d pl = kIFrame) && (10 <=? Z.of_nat (length pl))
  then set_frameSize ((at_ 6%nat + 256 * at_ 7%nat) mod 2 ^ 14) ((at_ 8%nat + 256 * at_ 9%nat) mod 2 ^ 14) v
  else v.
Definition read_all_fields (d : descriptor) (pl : list Z) (mem : RTPPayloadVP8) : RTPPayloadVP8 :=
  let v := set_descriptor (d_nonref d) (d_start d) (d_part d) mem in
  let v := if extended d then read_tk d (read_tl0 d (read_picture d (read_flags d v))) else v in
  set_payload (Z.of_nat (length (encode_descriptor d))) (Z.of_nat (length pl)) (read_frame d pl v).

(** ** Reading what was written *)

Lemma bit_testbit b k : 0 <= k -> bit b (2 ^ k) = Z.testbit b k.
Proof.
  intros Hk. unfold bit. destruct (Z.testbit b k) eqn:E.
  - apply negb_true_iff, Z.eqb_neq. intros H.
    assert (Hb : Z.testbit (Z.land b (2 ^ k)) k = true)
      by (rewrite Z.land_spec, E, Z.pow2_bits_true by assumption; reflexivity).
    rewrite H, Z.bits_0 in Hb. discriminate.
  - apply negb_false_iff, Z.eqb_eq, Z.bits_inj'. intros i Hi.
    rewrite Z.land_spec, Z.bits_0, Z.pow2_bits_eqb by assumption.
    destruct (Z.eqb_spec k i); [subst; rewrite E; reflexivity | apply andb_false_r].
Qed.

Lemma bit_div b k : 0 <= k -> bit b (2 ^ k) = Z.odd (b / 2 ^ k).
Proof.
  intros Hk. rewrite bit_testbit, Z.testbit_odd, Z.shiftr_div_pow2 by assumption. reflexivity.
Qed.

Lemma bit_80 b : bit b 0x80 = Z.odd (b / 128).
Proof. apply (bit_div b 7). lia. Qed.

Lemma bit_20 b : bit b 0x20 = Z.odd (b / 32).
Proof. apply (bit_div b 5). lia. Qed.

Lemma deref_app pre x post : deref (pre ++ x :: post) (Z.of_nat (length pre)) = Some x.
Proof.
  unfold deref. rewrite (proj2 (Z.ltb_ge _ 0)) by lia. rewrite Nat2Z.id.
  apply list_lookup_middle. reflexivity.
Qed.

(** The first two bytes, by cases. *)
Lemma first_byte_fields x n s part :
  0 <= part <= 8 ->
  let b := b2z x 128 + b2z n 32 + b2z s 16 + part in
  bit b 0x80 = x /\ bit b 0x20 = n /\ bit b 0x10 = s /\ Z.land b 0x0F = part.
Proof.
  intros Hp. assert (H : part = 0 \/ part = 1 \/ part = 2 \/ part = 3 \/ part = 4 \/ part = 5 \/
    part = 6 \/ part = 7 \/ part = 8) by lia.
  destruct x, n, s; repeat destruct H as [H|H]; subst part; vm_compute; auto.
Qed.

Lemma second_byte_fields i l t k :
  let b := b2z i 128 + b2z l 64 + b2z t 32 + b2z k 16 in
  bit b 0x80 = i /\ bit b 0x40 = l /\ bit b 0x20 = t /\ bit b 0x10 = k.
Proof. destruct i, l, t, k; vm_compute; auto. Qed.

(** A cursor at the byte after [pre], with [n] bytes left. *)
Definition at_byte (v : RTPPayloadVP8) (pre : list Z) (n : nat) : cursor :=
  {| vp8 := v; dataPtr := Z.of_nat (length pre); left_ := Z.of_nat n;
     parsedBytes := Z.of_nat (length pre) - 1 |}.

Lemma advance_at v w pre x n : advance w (at_byte v pre (S n)) = at_byte w (pre ++ [x]) n.
Proof.
  unfold advance, at_byte. cbn [vp8 dataPtr left_ parsedBytes]. rewrite length_app. cbn [length].
  f_equal; lia.
Qed.

Lemma parse_picture_short v pre z post :
  0 <= z < 2 ^ 7 ->
  ParseVP8PictureID (pre ++ z :: post) (at_byte v pre (S (length post))) =
    Some (0, at_byte (set_pictureID z v) (pre ++ [z]) (length post)).
Proof.
  intros Hz. unfold ParseVP8PictureID. cbn [left_ at_byte dataPtr vp8].
  rewrite (proj2 (Z.leb_gt _ 0)) by lia. rewrite deref_app. cbn [option_bind mbind].
  rewrite bit_80, Z.div_small by lia. change (Z.odd 0) with false.
  cbv iota. rewrite (advance_at v _ _ z). change 0x7F with (Z.ones 7).
  rewrite Z.land_ones, Z.mod_small by lia. reflexivity.
Qed.

Lemma parse_picture_long v pre z post :
  0 <= z < 2 ^ 15 ->
  ParseVP8PictureID (pre ++ (128 + z / 256) :: z mod 256 :: post) (at_byte v pre (S (S (length post)))) =
    Some (0, at_byte (set_pictureID z v) (pre ++ [128 + z / 256; z mod 256]) (length post)).
Proof.
  intros Hz. assert (Hd : 0 <= z / 256 < 128)
    by (split; [apply Z.div_pos | apply Z.div_lt_upper_bound]; lia).
  unfold ParseVP8PictureID. cbn [left_ at_byte dataPtr vp8].
  rewrite (proj2 (Z.leb_gt _ 0)) by lia. rewrite deref_app. cbn [option_bind mbind].
  rewrite bit_80. replace ((128 + z / 256) / 128) with 1 by (apply Z.div_unique with (z / 256); lia).
  change (Z.odd 1) with true. cbv iota. cbn [left_ dataPtr].
  rewrite (proj2 (Z.leb_gt _ 0)) by lia.
  replace (Z.of_nat (length pre) + 1) with (Z.of_nat (length (pre ++ [128 + z / 256])))
    by (rewrite length_app; simpl; lia).
  replace (pre ++ (128 + z / 256) :: z mod 256 :: post)
    with ((pre ++ [128 + z / 256]) ++ z mod 256 :: post) by (rewrite <- app_assoc; reflexivity).
  rewrite deref_app. cbn [option_bind mbind].
  do 2 f_equal. unfold advance, at_byte. cbn [vp8 dataPtr left_ parsedBytes].
  change 0x7F with (Z.ones 7). rewrite Z.land_ones by lia.
  replace ((128 + z / 256) mod 2 ^ 7) with (z / 256) by (apply Z.mod_unique with 1; lia).
  rewrite !length_app, Z.shiftl_mul_pow2 by lia. cbn [length]. f_equal; try lia.
  unfold set_pictureID. cbn. f_equal. pose proof (Z.div_mod z 256). lia.
Qed.

Lemma parse_tl0 v pre z post :
  ParseVP8Tl0PicIdx (pre ++ z :: post) (at_byte v pre (S (length post))) =
    Some (0, at_byte (set_tl0PicIdx z v) (pre ++ [z]) (length post)).
Proof.
  unfold ParseVP8Tl0PicIdx. cbn [left_ at_byte dataPtr vp8].
  rewrite (proj2 (Z.leb_gt _ 0)) by lia. rewrite deref_app. cbn [option_bind mbind].
  rewrite (advance_at v _ _ z). reflexivity.
Qed.

Lemma tk_fields t y k :
  0 <= t < 4 -> 0 <= k < 32 ->
  let b := 64 * t + b2z y 32 + k in
  (b / 2 ^ 6) mod 2 ^ 2 = t /\ Z.odd (b / 32) = y /\ b mod 2 ^ 5 = k.
Proof.
  intros Ht Hk b. assert (Hb : 0 <= b2z y 32 <= 32) by (destruct y; simpl; lia).
  assert (E6 : b / 2 ^ 6 = t)
    by (symmetry; apply Z.div_unique with (b2z y 32 + k); unfold b; destruct y; simpl b2z; lia).
  assert (E5 : b / 32 = 2 * t + b2z y 1)
    by (symmetry; apply Z.div_unique with k; unfold b; destruct y; simpl b2z; lia).
  rewrite E6, E5, Z.mod_small by lia. split; [reflexivity|]. split.
  - rewrite Z.odd_add, Z.odd_mul. change (Z.odd 2) with false. destruct y; reflexivity.
  - symmetry. apply Z.mod_unique with (2 * t + b2z y 1); unfold b; destruct y; simpl b2z; lia.
Qed.

Lemma parse_tk d v pre post :
  descriptor_ok d -> hasTID v = is_some (d_tid d) -> hasKeyIdx v = is_some (d_key d) ->
  ParseVP8TIDAndKeyIdx (pre ++ tk_byte d :: post) (at_byte v pre (S (length post))) =
    Some (0, at_byte (read_tk d v) (pre ++ [tk_byte d]) (length post)).
Proof.
  intros (_ & _ & _ & Ht & Hk) Et Ek. unfold ParseVP8TIDAndKeyIdx. cbn [left_ at_byte dataPtr vp8].
  rewrite (proj2 (Z.leb_gt _ 0)) by lia. rewrite deref_app. cbn [option_bind mbind].
  rewrite (advance_at v _ _ (tk_byte d)). do 3 f_equal. rewrite Et. unfold read_tk, tk_byte.
  rewrite bit_20. change (Z.land ?x 0x1F) with (Z.land x (Z.ones 5)).
  change 0x03 with (Z.ones 2). rewrite !Z.land_ones, Z.shiftr_div_pow2 by lia.
  destruct (d_tid d) as [[t y]|]; cbn [is_some hasKeyIdx set_tID]; rewrite Ek;
    destruct (d_key d) as [k|]; cbn [is_some]; try reflexivity;
    change (default 0 None) with 0; try change (default 0 (Some k)) with k.
  - destruct (tk_fields t y k Ht Hk) as (-> & -> & ->). reflexivity.
  - destruct (tk_fields t y 0 Ht ltac:(lia)) as (-> & -> & _). reflexivity.
  - destruct (tk_fields 0 false k ltac:(lia) Hk) as (_ & _ & E). cbn [b2z] in E.
    replace ((0 + k) mod 2 ^ 5) with k by (symmetry; exact E). reflexivity.
Qed.

(** The three optional fields, present or not. *)
Lemma stage_picture d v pre post :
  descriptor_ok d ->
  (if is_some (d_picture d)
   then ParseVP8PictureID (pre ++ pic_bytes d ++ post) (at_byte v pre (length (pic_bytes d ++ post)))
   else Some (0, at_byte v pre (length (pic_bytes d ++ post)))) =
  Some (0, at_byte (read_picture d v) (pre ++ pic_bytes d) (length post)).
Proof.
  intros (_ & Hp & _). unfold pic_bytes, read_picture.
  destruct (d_picture d) as [[z|z]|]; cbn [is_some app length pic_value].
  - apply parse_picture_short. assumption.
  - apply parse_picture_long. assumption.
  - rewrite app_nil_r. reflexivity.
Qed.

Lemma stage_tl0 d v pre post :
  (if is_some (d_tl0 d)
   then ParseVP8Tl0PicIdx (pre ++ tl0_bytes d ++ post) (at_byte v pre (length (tl0_bytes d ++ post)))
   else Some (0, at_byte v pre (length (tl0_bytes d ++ post)))) =
  Some (0, at_byte (read_tl0 d v) (pre ++ tl0_bytes d) (length post)).
Proof.
  unfold tl0_bytes, read_tl0. destruct (d_tl0 d) as [z|]; cbn [is_some app length].
  - apply parse_tl0.
  - rewrite app_nil_r. reflexivity.
Qed.

Lemma stage_tk d v pre post :
  descriptor_ok d -> hasTID v = is_some (d_tid d) -> hasKeyIdx v = is_some (d_key d) ->
  (if is_some (d_tid d) || is_some (d_key d)
   then ParseVP8TIDAndKeyIdx (pre ++ tk_bytes d ++ post) (at_byte v pre (length (tk_bytes d ++ post)))
   else Some (0, at_byte v pre (length (tk_bytes d ++ post)))) =
  Some (0, at_byte (read_tk d v) (pre ++ tk_bytes d) (length post)).
Proof.
  intros Hd Et Ek. unfold tk_bytes. destruct (is_some (d_tid d) || is_some (d_key d)) eqn:E.
  - apply parse_tk; assumption.
  - apply orb_false_iff in E as [E1 E2]. unfold read_tk.
    destruct (d_tid d); [discriminate|]. destruct (d_key d); [discriminate|].
    rewrite app_nil_r. reflexivity.
Qed.

(** The optional fields, in order. *)
Lemma parse_extension d v0 b0 pl :
  descriptor_ok d ->
  let ext := flags_byte d :: pic_bytes d ++ tl0_bytes d ++ tk_bytes d in
  ParseVP8Extension (b0 :: ext ++ pl) v0 1 (Z.of_nat (length (ext ++ pl))) =
    Some (Z.of_nat (length ext), read_tk d (read_tl0 d (read_picture d (read_flags d v0)))).
Proof.
  intros Hd ext. subst ext. unfold ParseVP8Extension. cbn [app length].
  rewrite (proj2 (Z.leb_gt _ 0)) by lia.
  change (deref (b0 :: flags_byte d :: (pic_bytes d ++ tl0_bytes d ++ tk_bytes d) ++ pl) 1)
    with (Some (flags_byte d)). cbn [option_bind mbind].
  destruct (second_byte_fields (is_some (d_picture d)) (is_some (d_tl0 d)) (is_some (d_tid d))
    (is_some (d_key d))) as (B1 & B2 & B3 & B4). fold (flags_byte d) in B1, B2, B3, B4.
  rewrite B1, B2, B3, B4. fold (read_flags d v0). set (v1 := read_flags d v0).
  set (b1 := flags_byte d) in *.
  set (buf := b0 :: b1 :: _).
  assert (Ebuf : buf = [b0; b1] ++ pic_bytes d ++ (tl0_bytes d ++ tk_bytes d ++ pl))
    by (unfold buf; rewrite <- !app_assoc; reflexivity).
  assert (Ec : {| vp8 := v1; dataPtr := 1 + 1;
      left_ := Z.of_nat (S (length ((pic_bytes d ++ tl0_bytes d ++ tk_bytes d) ++ pl))) - 1;
      parsedBytes := 1 |} = at_byte v1 [b0; b1] (length (pic_bytes d ++ (tl0_bytes d ++ tk_bytes d ++ pl)))).
  { unfold at_byte. rewrite <- !app_assoc. f_equal. lia. }
  rewrite Ec. rewrite Ebuf at 1.
  change (hasPictureID v1) with (is_some (d_picture d)).
  rewrite stage_picture by assumption. cbn [option_bind mbind].
  change (negb (0 =? 0)) with false. cbv iota.
  change (hasTl0PicIdx v1) with (is_some (d_tl0 d)).
  rewrite Ebuf, app_assoc at 1. rewrite stage_tl0. cbn [option_bind mbind].
  change (negb (0 =? 0)) with false. cbv iota.
  change (hasTID v1) with (is_some (d_tid d)). change (hasKeyIdx v1) with (is_some (d_key d)).
  rewrite Ebuf, app_assoc, app_assoc. rewrite stage_tk; [|assumption|..].
  - cbn [option_bind mbind]. change (negb (0 =? 0)) with false. cbv iota.
    unfold at_byte. cbn [parsedBytes vp8]. rewrite !length_app. cbn [length]. do 2 f_equal. lia.
  - unfold read_tl0, read_picture. destruct (d_tl0 d), (d_picture d); reflexivity.
  - unfold read_tl0, read_picture. destruct (d_tl0 d), (d_picture d); reflexivity.
Qed.

Lemma land_3fff x : Z.land x 0x3FFF = x mod 2 ^ 14.
Proof. apply (Z.land_ones x 14). lia. Qed.

(** The payload header of the first packet of a key frame. *)
Lemma parse_frame_size d buf v pre pl :
  buf = pre ++ pl -> frameType v = frame_type d pl ->
  exists r, ParseVP8FrameSize buf v (Z.of_nat (length pre)) (Z.of_nat (length pl)) =
    Some (r, if bool_decide (frame_type d pl = kIFrame) && (10 <=? Z.of_nat (length pl))
             then set_frameSize ((default 0 (pl !! 6%nat) + 256 * default 0 (pl !! 7%nat)) mod 2 ^ 14)
                    ((default 0 (pl !! 8%nat) + 256 * default 0 (pl !! 9%nat)) mod 2 ^ 14) v
             else v).
Proof.
  intros -> Ht. unfold ParseVP8FrameSize. rewrite Ht.
  case_bool_decide; cbn [negb andb]; [|eauto].
  rewrite Z.leb_antisym. destruct (Z.ltb_spec (Z.of_nat (length pl)) 10); cbn [negb]; [eauto|].
  assert (Hd : forall k, (k < 10)%nat ->
    deref (pre ++ pl) (Z.of_nat (length pre) + Z.of_nat k) = Some (default 0 (pl !! k))).
  { intros k Hk. unfold deref. rewrite (proj2 (Z.ltb_ge _ 0)) by lia.
    replace (Z.to_nat (Z.of_nat (length pre) + Z.of_nat k)) with (length pre + k)%nat by lia.
    rewrite lookup_app_r, Nat.add_sub' by lia.
    destruct (lookup_lt_is_Some_2 pl k ltac:(lia)) as [x ->]. reflexivity. }
  pose proof (Hd 6%nat ltac:(lia)) as H6. pose proof (Hd 7%nat ltac:(lia)) as H7.
  pose proof (Hd 8%nat ltac:(lia)) as H8. pose proof (Hd 9%nat ltac:(lia)) as H9.
  change (Z.of_nat 6) with 6 in H6. change (Z.of_nat 7) with 7 in H7.
  change (Z.of_nat 8) with 8 in H8. change (Z.of_nat 9) with 9 in H9.
  rewrite H6, H7, H8, H9. cbn [option_bind mbind].
  rewrite !land_3fff, !Z.shiftl_mul_pow2 by lia. change (2 ^ 8) with 256.
  rewrite !(Z.mul_comm _ 256), !(Z.add_comm (256 * _)). eauto.
Qed.

Lemma parse_encoded (d : descriptor) (pl : list Z) (mem : RTPPayloadVP8) :
  descriptor_ok d -> bytes_ok pl -> (0 < length pl)%nat ->
  Z.of_nat (length (encode_descriptor d ++ pl)) < 2 ^ 31 ->
  parseVP8 mem (encode_descriptor d ++ pl) (Z.of_nat (length (encode_descriptor d ++ pl))) =
    Some (read_all_fields d pl mem).
Proof.
  intros Hd Hok Hpl H31. unfold parseVP8.
  set (b0 := b2z (extended d) 128 + b2z (d_nonref d) 32 + b2z (d_start d) 16 + d_part d).
  set (ext := if extended d then flags_byte d :: pic_bytes d ++ tl0_bytes d ++ tk_bytes d else []).
  assert (Eenc : encode_descriptor d = b0 :: ext) by reflexivity.
  destruct (first_byte_fields (extended d) (d_nonref d) (d_start d) (d_part d) (proj1 Hd))
    as (B1 & B2 & B3 & B4). fold b0 in B1, B2, B3, B4.
  rewrite Eenc in *. cbn [app] in *. change (deref (b0 :: ext ++ pl) 0) with (Some b0).
  cbn [option_bind mbind]. rewrite B1, B2, B3, B4.
  set (v0 := set_descriptor _ _ _ mem). change (partitionID v0) with (d_part d).
  rewrite (proj2 (Z.ltb_ge 8 (d_part d))) by apply Hd.
  replace (Z.of_nat (length (b0 :: ext ++ pl)) - 1) with (Z.of_nat (length (ext ++ pl))) by (simpl; lia).
  set (v1 := if extended d then read_tk d (read_tl0 d (read_picture d (read_flags d v0))) else v0).
  assert (Ex : (if extended d then ParseVP8Extension (b0 :: ext ++ pl) v0 1 (Z.of_nat (length (ext ++ pl)))
                else Some (0, v0)) = Some (Z.of_nat (length ext), v1)).
  { unfold ext, v1. destruct (extended d); [|reflexivity]. apply parse_extension. assumption. }
  rewrite Ex. cbn [option_bind mbind].
  rewrite (proj2 (Z.ltb_ge _ 0)) by lia.
  replace (Z.of_nat (length (ext ++ pl)) - Z.of_nat (length ext)) with (Z.of_nat (length pl))
    by (rewrite length_app; lia).
  rewrite (proj2 (Z.leb_gt _ 0)), (proj2 (Z.ltb_lt 0 _)) by lia. cbn [andb].
  replace (1 + Z.of_nat (length ext)) with (Z.of_nat (length (b0 :: ext))) by (simpl; lia).
  assert (Ev : beginningOfPartition v1 = d_start d /\ partitionID v1 = d_part d).
  { unfold v1, read_tk, read_tl0, read_picture. destruct (extended d); [|split; reflexivity].
    destruct (d_key d), (d_tid d) as [[? ?]|], (d_tl0 d), (d_picture d); split; reflexivity. }
  destruct Ev as [-> ->]. rewrite app_comm_cons.
  assert (Ef : (if d_start d && (d_part d =? 0)
    then b ← deref ((b0 :: ext) ++ pl) (Z.of_nat (length (b0 :: ext)));
         Some (set_frameType (if bit b 1 then kPFrame else kIFrame) v1)
    else Some (set_frameType kPFrame v1)) = Some (set_frameType (frame_type d pl) v1)).
  { unfold frame_type. destruct (d_start d && (d_part d =? 0)); [|reflexivity].
    destruct pl as [|x pl]; [simpl in Hpl; lia|]. rewrite deref_app. cbn [option_bind mbind andb head].
    rewrite (bit_div x 0 ltac:(lia) : bit x 1 = _), Z.div_1_r.
    change (default 0 (Some x)) with x. rewrite <- Z.negb_odd. destruct (Z.odd x); reflexivity. }
  rewrite Ef. cbn [option_bind mbind].
  destruct (parse_frame_size d _ (set_frameType (frame_type d pl) v1) (b0 :: ext) pl eq_refl eq_refl)
    as (r & ->). cbn [option_bind mbind].
  rewrite wrap_small by (unfold in_width; simpl in H31; rewrite length_app in H31; lia).
  unfold read_all_fields. rewrite Eenc. reflexivity.
Qed.

(** Descriptors round trip: parsing the bytes of any payload descriptor (partition 0 to 8, with
    or without picture id of 7 or 15 bits, TL0PICIDX, TID/Y and KEYIDX) followed by a
    non-empty payload gives back every field that was written, the payload and its
    length, the frame type from the P bit of the first partition, and the frame size of
    a key frame - and sets nothing else: without the extension byte the four presence
    flags are the uninitialised members of the object, and a field whose flag is unset
    keeps its old value. *)
Theorem parse_vp8_roundtrip (d : descriptor) (pl : list Z) (mem : RTPPayloadVP8) :
  descriptor_ok d -> bytes_ok pl -> (0 < length pl)%nat ->
  Z.of_nat (length (encode_descriptor d ++ pl)) < 2 ^ 31 ->
  parseVP8 mem (encode_descriptor d ++ pl) (Z.of_nat (length (encode_descriptor d ++ pl))) =
    Some (read_all_fields d pl mem).
Proof. apply parse_encoded. Qed.

Lemma parse_vp8_roundtrip_witness :
  parseVP8 vp8_zero (encode_descriptor
    {| d_nonref := false; d_start := true; d_part := 0; d_picture := Some (Long 300);
       d_tl0 := Some 7; d_tid := Some (2, true); d_key := None |} ++ [0x10; 2; 0])
    9 = Some (read_all_fields
    {| d_nonref := false; d_start := true; d_part := 0; d_picture := Some (Long 300);
       d_tl0 := Some 7; d_tid := Some (2, true); d_key := None |} [0x10; 2; 0] vp8_zero).
Proof.
  apply (parse_vp8_roundtrip {| d_nonref := false; d_start := true; d_part := 0;
     d_picture := Some (Long 300); d_tl0 := Some 7; d_tid := Some (2, true); d_key := None |} [0x10; 2; 0]).
  - unfold descriptor_ok, byte_ok. simpl. lia.
  - repeat constructor; vm_compute; congruence.
  - simpl. lia.
  - simpl. lia.
Defined.

(** ** The fragments of a frame *)

(** The queue covers the [len] bytes from [pos] in fragments of at most
    [MAX_SIZE - 1] bytes, and marks the one at the start of the frame. *)
Fixpoint covers (pos len : Z) (q : list Fragment) : Prop :=
  match q with
  | [] => len = 0
  | f :: q =>
      position f = pos /\ fsize f = Z.min (MAX_SIZE - 1) len /\ 0 < len /\
      first f = (pos =? 0) /\ covers (pos + fsize f) (len - fsize f) q
  end.

Lemma calculatePackets_covers fuel remaining pos queue :
  0 <= remaining -> 0 <= pos -> pos + remaining < 2 ^ 32 -> (Z.to_nat remaining < fuel)%nat ->
  exists q, calculatePackets_loop fuel remaining pos queue = Some (queue ++ q) /\ covers pos remaining q.
Proof.
  unfold MAX_SIZE. revert remaining pos queue.
  induction fuel as [|fuel IH]; intros remaining pos queue Hr Hp H32 Hf; [lia|]. cbn [calculatePackets_loop].
  destruct (Z.ltb_spec 0 remaining); [|exists []; rewrite app_nil_r; simpl; split; [reflexivity|lia]].
  set (n := if MAX_SIZE - 1 <? remaining then MAX_SIZE - 1 else remaining). cbn [fsize].
  assert (Hn : n = Z.min (MAX_SIZE - 1) remaining)
    by (unfold n; destruct (Z.ltb_spec (MAX_SIZE - 1) remaining); lia).
  unfold MAX_SIZE in Hn. rewrite wrap_small by (unfold in_width; lia).
  edestruct (IH (remaining - n) (pos + n)) as (q & E & Hq); [lia..|].
  rewrite E, <- app_assoc. eexists. split; [reflexivity|]. cbn. unfold MAX_SIZE. auto.
Qed.

(** A packet of the fragmenter: the one-byte descriptor and the bytes of the fragment. *)
Definition fragment_packet (data : list Z) (f : Fragment) : list Z :=
  (if first f then 0x10 else 0) :: take (Z.to_nat (fsize f)) (drop (Z.to_nat (position f)) data).

Lemma writeFragment_spec f fragment buffer :
  0 <= position fragment -> 0 <= fsize fragment < 2 ^ 32 - 1 ->
  position fragment + fsize fragment <= Z.of_nat (length (totalData_ f)) ->
  fsize fragment + 1 <= Z.of_nat (length buffer) ->
  writeFragment f fragment buffer =
    Some (fsize fragment + 1, fragment_packet (totalData_ f) fragment ++
            drop (Z.to_nat (fsize fragment + 1)) buffer).
Proof.
  intros Hp Hs Hd Hb. unfold writeFragment, fragment_packet.
  destruct buffer as [|x buffer]; [simpl in Hb; lia|].
  rewrite write_at_Some by (unfold in_bounds; simpl; lia). cbn [option_bind mbind].
  rewrite read_at_Some by (unfold in_bounds; lia). cbn [option_bind mbind].
  assert (Hl : length (take (Z.to_nat (fsize fragment))
                 (drop (Z.to_nat (position fragment)) (totalData_ f))) = Z.to_nat (fsize fragment))
    by (rewrite length_take, length_drop; lia).
  rewrite write_at_Some; unfold in_bounds; rewrite ?Hl.
  - cbn [option_bind mbind]. rewrite wrap_small by (unfold in_width; lia).
    change (Z.to_nat 0) with 0%nat. change (Z.to_nat 1) with 1%nat.
    replace (Z.to_nat (fsize fragment + 1)) with (S (Z.to_nat (fsize fragment))) by lia.
    reflexivity.
  - rewrite !length_app, length_take, length_drop. cbn [length] in *. lia.
Qed.

(** [getPacket] hands out the front of the queue and reports the last packet. *)
Lemma getPacket_spec buffer length_ lastPacket f fragment rest pos len :
  fragmentQueue_ f = fragment :: rest -> covers pos len (fragment :: rest) -> 0 <= pos ->
  pos + len <= Z.of_nat (length (totalData_ f)) -> MAX_SIZE <= Z.of_nat (length buffer) ->
  getPacket buffer length_ lastPacket f =
    Some (fragment_packet (totalData_ f) fragment ++ drop (Z.to_nat (fsize fragment + 1)) buffer,
          fsize fragment + 1, if decide (rest = []) then true else lastPacket,
          {| totalData_ := totalData_ f; totalLenth_ := totalLenth_ f;
             maxlength_ := maxlength_ f; fragmentQueue_ := rest |}).
Proof.
  unfold MAX_SIZE. intros Hq (Hp & Hs & Hl & _ & _) Hp0 Hd Hb. unfold MAX_SIZE in Hs.
  unfold getPacket. rewrite Hq, writeFragment_spec by lia. reflexivity.
Qed.

(** The parser's view of a packet with the one-byte descriptor of the fragmenter, at the
    start of a buffer that may be longer than the packet. *)
Lemma parse_fragment (mem : RTPPayloadVP8) (d : Z) (buf : list Z) (len : Z) :
  d = 0 \/ d = 0x10 -> 2 <= len < 2 ^ 31 -> len - 1 <= Z.of_nat (length buf) ->
  exists v, parseVP8 mem (d :: buf) len = Some v /\ payload v = 1 /\ dataLength v = len - 1.
Proof.
  intros Hd Hlen Hb. unfold parseVP8. change (deref (d :: buf) 0) with (Some d).
  cbn [option_bind mbind].
  assert (Hx : bit d 0x80 = false /\ (8 <? Z.land d 0x0F) = false)
    by (destruct Hd as [-> | ->]; split; reflexivity).
  destruct Hx as [-> Hp].
  match goal with |- context [set_descriptor ?a ?b ?c mem] => set (v0 := set_descriptor a b c mem) end.
  change (partitionID v0) with (Z.land d 0x0F). rewrite Hp. cbn [option_bind mbind].
  rewrite (proj2 (Z.ltb_ge 0 0)), (proj2 (Z.leb_gt _ _)) by lia.
  assert (Hft : exists v1, (if (0 <? len - 1 - 0) && beginningOfPartition v0 && (partitionID v0 =? 0)
    then b ← deref (d :: buf) (1 + 0); Some (set_frameType (if bit b 0x01 then kPFrame else kIFrame) v0)
    else Some (set_frameType kPFrame v0)) = Some v1).
  { destruct (_ && _); [|eauto]. destruct (deref_is_Some (d :: buf) (1 + 0)) as [b ->]; [simpl; lia|].
    cbn [option_bind mbind]. eauto. }
  destruct Hft as [v1 ->]. cbn [option_bind mbind].
  assert (Hfs : is_Some (ParseVP8FrameSize (d :: buf) v1 (1 + 0) (len - 1 - 0))).
  { unfold ParseVP8FrameSize. destruct (negb _); [eauto|].
    destruct (Z.ltb_spec (len - 1 - 0) 10); [eauto|]. repeat reader_step. eauto. }
  destruct Hfs as [[r v2] ->]. cbn [option_bind mbind].
  eexists. split; [reflexivity|]. cbn. rewrite wrap_small by (unfold in_width; lia). split; lia.
Qed.

(** The fragments put the frame together again. *)
Lemma covers_concat data q pos len :
  covers pos len q -> 0 <= pos -> pos + len = Z.of_nat (length data) ->
  concat (map (fun f => tail (fragment_packet data f)) q) = drop (Z.to_nat pos) data.
Proof.
  revert pos len. induction q as [|f q IH]; intros pos len Hc Hp Hl; cbn in *.
  - rewrite drop_ge by lia. reflexivity.
  - destruct Hc as (-> & Hs & Hlen & _ & Hc). unfold MAX_SIZE in Hs. rewrite (IH _ _ Hc) by lia.
    replace (Z.to_nat (pos + fsize f)) with (Z.to_nat pos + Z.to_nat (fsize f))%nat by lia.
    rewrite <- drop_drop. apply take_drop.
Qed.
