(* ===== verification/MediaPackager.v ===== *)
(** * MediaPackager: frames to RTP packets and back (src/Src/media/media/MediaProcessor.cpp)

    [OutputProcessor.packageVideo] cuts an encoded frame with the fragmenter of [RtpVP8],
    puts an RTP header in front of every fragment and hands the packets to its receiver;
    [InputProcessor.deliverVideoData_] takes such packets apart and gathers the frame for
    the decoder.  [packageAudio] and [unpackageAudio] do the same for one audio packet.
    Parameters: ffmpeg's [av_rescale], the clock, the video decoder, and the memory of
    objects the code allocates without initialising them ([RtpHeader::extensions], all of
    [RTPPayloadVP8]).  [None] is an access outside a buffer. *)

From S2P Require Import Prelude Bytes RtpHeaders RtpVP8.

Definition UNPACKAGED_BUFFER_SIZE : Z := 150000.
Definition PACKAGED_BUFFER_SIZE : Z := 2000.

(** ** class OutputProcessor *)

Record OutputProcessor := {
  audioPackager : bool;
  videoPackager : bool;
  seqnum_ : Z;
  audioSeqnum_ : Z;
  rtpBuffer_ : list Z
}.

Definition initVideoPackager (p : OutputProcessor) : bool * OutputProcessor :=
  (true, {| audioPackager := audioPackager p; videoPackager := true; seqnum_ := 0;
            audioSeqnum_ := audioSeqnum_ p; rtpBuffer_ := rtpBuffer_ p |}).

Definition initAudioPackager (p : OutputProcessor) : bool * OutputProcessor :=
  (true, {| audioPackager := true; videoPackager := videoPackager p; seqnum_ := seqnum_ p;
            audioSeqnum_ := 0; rtpBuffer_ := rtpBuffer_ p |}).

Section packaging.
Context (av_rescale : Z -> Z -> Z -> Z).

(** The RTP header of one video packet; the object has 20 bytes at [mem]. *)
Definition video_header (mem : list Z) (lastFrame : bool) (seq ts : Z) : option (list Z) :=
  h ← RtpHeader.RtpHeader_ctor mem 0;
  h ← RtpHeader.setMarker (if lastFrame then 1 else 0) h 0;
  h ← RtpHeader.setSeqNumber seq h 0;
  h ← RtpHeader.setTimestamp ts h 0;
  h ← RtpHeader.setSSRC 55543 h 0;
  RtpHeader.setPayloadType 100 h 0.

Definition video_timestamp (pts millis : Z) : Z :=
  if pts =? 0 then u32 (av_rescale millis 90000 1000) else u32 (av_rescale pts 90000 1000).

(** The [do]-[while] of [packageVideo]: [out] are the packets given to [receiveRtpData]. *)
Fixpoint packageVideo_loop (fuel : nat) (mem : list Z) (pts millis : Z) (lastFrame : bool)
    (frag : RtpVP8Fragmenter) (outBuff rtpBuffer : list Z) (seq : Z) (out : list (list Z))
    : option (list Z * Z * list (list Z)) :=
  match fuel with
  | O => None
  | S fuel =>
    '(outBuff, outlen, lastFrame, frag) ← getPacket outBuff 0 lastFrame frag;
    rtpHeader ← video_header mem lastFrame seq (video_timestamp pts millis);
    n ← RtpHeader.getHeaderLength rtpHeader 0;
    head ← read_at (Z.to_nat n) rtpHeader 0;
    rtpBuffer ← write_at rtpBuffer 0 head;
    payload ← read_at (Z.to_nat outlen) outBuff 0;
    rtpBuffer ← write_at rtpBuffer n payload;
    packet ← read_at (Z.to_nat (outlen + n)) rtpBuffer 0;
    let seq := u32 (seq + 1) in
    let out := out ++ [packet] in
    if lastFrame : bool then Some (rtpBuffer, seq, out)
    else packageVideo_loop fuel mem pts millis lastFrame frag outBuff rtpBuffer seq out
  end.

Definition packageVideo (mem inBuff : list Z) (buffSize : Z) (outBuff : list Z) (pts millis : Z)
    (p : OutputProcessor) : option (Z * OutputProcessor * list (list Z)) :=
  if negb (videoPackager p) then Some (-1, p, []) else
  if buffSize <=? 0 then Some (-1, p, []) else
  frag ← RtpVP8Fragmenter_ctor inBuff buffSize 1100;
  '(rtpBuffer, seq, out) ← packageVideo_loop (S (Z.to_nat buffSize)) mem pts millis false frag
    outBuff (rtpBuffer_ p) (seqnum_ p) [];
  Some (0, {| audioPackager := audioPackager p; videoPackager := videoPackager p; seqnum_ := seq;
              audioSeqnum_ := audioSeqnum_ p; rtpBuffer_ := rtpBuffer |}, out).

(** [sampleRate] and [PT] come from the [MediaInfo] the processor was initialised with.
    Returns the length of the packet written to [outBuff]. *)
Definition packageAudio (sampleRate PT : Z) (mem inBuff : list Z) (inBuffLen : Z)
    (outBuff : list Z) (pts : Z) (p : OutputProcessor) : option (Z * list Z * OutputProcessor) :=
  if negb (audioPackager p) then Some (-1, outBuff, p) else
  head ← RtpHeader.RtpHeader_ctor mem 0;
  head ← RtpHeader.setSeqNumber (audioSeqnum_ p) head 0;
  let seq := u32 (audioSeqnum_ p + 1) in
  head ← RtpHeader.setMarker 1 head 0;
  head ← RtpHeader.setTimestamp
    (if pts =? 0 then u32 (av_rescale seq (Z.quot sampleRate 1000) 1)
     else u32 (av_rescale pts sampleRate 1000)) head 0;
  head ← RtpHeader.setSSRC 44444 head 0;
  head ← RtpHeader.setPayloadType PT head 0;
  n ← RtpHeader.getHeaderLength head 0;
  bytes ← read_at (Z.to_nat n) head 0;
  outBuff ← write_at outBuff 0 bytes;
  payload ← read_at (Z.to_nat inBuffLen) inBuff 0;
  outBuff ← write_at outBuff n payload;
  Some (inBuffLen + n, outBuff,
    {| audioPackager := audioPackager p; videoPackager := videoPackager p;
       seqnum_ := seqnum_ p; audioSeqnum_ := seq;
       rtpBuffer_ := rtpBuffer_ p |}).
End packaging.

(** ** class InputProcessor *)

Record InputProcessor := {
  videoUnpackager : bool;
  videoDecoder : bool;
  gotUnpackagedFrame_ : bool;
  upackagedSize_ : Z;
  unpackagedBuffer_ : list Z;
  unpackagedBufferPtr_ : Z     (* an offset into [unpackagedBuffer_] *)
}.

(** What the processor hands on: frames to the decoder, decoded frames to the receiver. *)
Inductive video_event :=
  | DecodeVideo (frame : list Z)
  | ReceiveRawData (length : Z).

(** Returns the bytes written at [outBuff], an offset into [buffer]. *)
Definition unpackageAudio (inBuff : list Z) (inBuffLen : Z) (buffer : list Z) (outBuff : Z)
    : option (Z * list Z) :=
  let l := inBuffLen - RtpHeader.MIN_SIZE in
  if l <? 0 then Some (0, buffer) else
  bytes ← read_at (Z.to_nat l) inBuff RtpHeader.MIN_SIZE;
  buffer ← write_at buffer outBuff bytes;
  Some (l, buffer).

(** Returns the length, the new contents of the buffer and the new [*gotFrame].  A packet
    the parser rejects leaves [data] and [dataLength] as they were in [mem]. *)
Definition unpackageVideo (mem : RTPPayloadVP8) (videoUnpackager : bool) (inBuff : list Z)
    (inBuffLen : Z) (buffer : list Z) (outBuff : Z) (gotFrame : bool)
    : option (Z * list Z * bool) :=
  if negb videoUnpackager then Some (-1, buffer, gotFrame) else
  pt ← RtpHeader.getPayloadType inBuff 0;
  if negb (pt =? 100) then Some (-1, buffer, false) else
  n ← RtpHeader.getHeaderLength inBuff 0;
  let l := inBuffLen - n in
  let inBuffOffset := n in
  parsed ← parseVP8 mem (drop (Z.to_nat inBuffOffset) inBuff) l;
  bytes ← read_at (Z.to_nat (dataLength parsed)) inBuff (inBuffOffset + payload parsed);
  buffer ← write_at buffer outBuff bytes;
  m ← RtpHeader.getMarker inBuff 0;
  Some (dataLength parsed, buffer, negb (m =? 0)).

Section unpackaging.
(** [VideoDecoder::decodeVideo]: its result and whether it produced a picture. *)
Context (decodeVideo : list Z -> Z * bool).

Definition deliverVideoData_ (mem : RTPPayloadVP8) (buf : list Z) (len : Z) (p : InputProcessor)
    : option (Z * InputProcessor * list video_event) :=
  if videoUnpackager p && videoDecoder p then
    '(ret, buffer, got) ← unpackageVideo mem (videoUnpackager p) buf len (unpackagedBuffer_ p)
      (unpackagedBufferPtr_ p) (gotUnpackagedFrame_ p);
    let upd got size ptr :=
      {| videoUnpackager := videoUnpackager p; videoDecoder := videoDecoder p;
         gotUnpackagedFrame_ := got; upackagedSize_ := size;
         unpackagedBuffer_ := buffer; unpackagedBufferPtr_ := ptr |} in
    if ret <? 0 then Some (0, upd got (upackagedSize_ p) (unpackagedBufferPtr_ p), []) else
    let size := upackagedSize_ p + ret in
    let ptr := unpackagedBufferPtr_ p + ret in
    if got : bool then
      let ptr := ptr - size in
      frame ← read_at (Z.to_nat size) buffer ptr;
      let (c, gotDecodedFrame) := decodeVideo frame in
      Some (c, upd false 0 ptr,
        DecodeVideo frame :: if gotDecodedFrame && (0 <? c) then [ReceiveRawData c] else [])
    else Some (0, upd got size ptr, [])
  else Some (0, p, []).

(** The packets of a stream one after the other, each in its receive buffer with its
    length, and with what the parser's object held before. *)
Fixpoint deliver_all (packets : list (RTPPayloadVP8 * list Z * Z)) (p : InputProcessor)
    : option (InputProcessor * list video_event) :=
  match packets with
  | [] => Some (p, [])
  | (mem, buf, len) :: packets =>
      '(_, p, ev) ← deliverVideoData_ mem buf len p;
      '(p, evs) ← deliver_all packets p;
      Some (p, ev ++ evs)
  end.
End unpackaging.

(** ** The header of a packet *)

(** The fields a receiver looks at, and the twelve bytes that go on the wire. *)
Record header_is (h : list Z) (mk seq ts src pt : Z) : Prop := {
  hi_version : RtpHeader.getVersion h 0 = Some 2;
  hi_cc : RtpHeader.getCc h 0 = Some 0;
  hi_ext : RtpHeader.getExtension h 0 = Some 0;
  hi_marker : RtpHeader.getMarker h 0 = Some mk;
  hi_seq : RtpHeader.getSeqNumber h 0 = Some seq;
  hi_ts : RtpHeader.getTimestamp h 0 = Some ts;
  hi_ssrc : RtpHeader.getSSRC h 0 = Some src;
  hi_pt : RtpHeader.getPayloadType h 0 = Some pt
}.

(** The stored fields of a header, as the getters read them. *)
Lemma header_is_fields h mk mk' seq ts src pt pt' :
  wrap 1 mk = mk' -> wrap 7 pt = pt' -> in_width 32 ts ->
  get_bf RtpHeader.version h 0 = Some (wrap (bf_width RtpHeader.version) 2) ->
  get_bf RtpHeader.cc h 0 = Some (wrap (bf_width RtpHeader.cc) 0) ->
  get_bf RtpHeader.hasextension h 0 = Some (wrap (bf_width RtpHeader.hasextension) 0) ->
  get_bf RtpHeader.marker h 0 = Some (wrap (bf_width RtpHeader.marker) mk) ->
  get_bf RtpHeader.seqnum h 0 = Some (wrap (bf_width RtpHeader.seqnum) (htons seq)) ->
  get_bf RtpHeader.timestamp h 0 = Some (wrap (bf_width RtpHeader.timestamp) (htonl ts)) ->
  get_bf RtpHeader.ssrc h 0 = Some (wrap (bf_width RtpHeader.ssrc) (htonl src)) ->
  get_bf RtpHeader.payloadtype h 0 = Some (wrap (bf_width RtpHeader.payloadtype) pt) ->
  header_is h mk' (u16 seq) ts (u32 src) pt'.
Proof.
  intros <- <- Hts Hv Hc Hx Hm Hs Ht Hr Hp.
  split; unfold RtpHeader.getVersion, RtpHeader.getCc, RtpHeader.getExtension, RtpHeader.getMarker,
    RtpHeader.getSeqNumber, RtpHeader.getTimestamp, RtpHeader.getSSRC, RtpHeader.getPayloadType;
    [rewrite Hv | rewrite Hc | rewrite Hx | rewrite Hm | rewrite Hs | rewrite Ht | rewrite Hr | rewrite Hp];
    try reflexivity; cbn [fmap option_fmap option_map]; f_equal.
  - change (bf_width RtpHeader.seqnum) with 16. rewrite wrap_small by apply htons_width.
    rewrite bswap_bswap. reflexivity.
  - change (bf_width RtpHeader.timestamp) with 32. rewrite wrap_small by apply htonl_width.
    apply ntohl_htonl. assumption.
  - change (bf_width RtpHeader.ssrc) with 32. rewrite wrap_small by apply htonl_width.
    rewrite bswap_bswap. reflexivity.
Qed.

Lemma video_header_spec mem lastFrame seq ts :
  length mem = 20%nat -> bytes_ok mem -> in_width 32 ts ->
  exists h, video_header mem lastFrame seq ts = Some h /\ length h = 20%nat /\ bytes_ok h /\
    header_is h (if lastFrame then 1 else 0) (u16 seq) ts 55543 100.
Proof.
  intros Hl Hok Hts. unfold video_header, RtpHeader.RtpHeader_ctor, RtpHeader.setMarker,
    RtpHeader.setSeqNumber, RtpHeader.setTimestamp, RtpHeader.setSSRC, RtpHeader.setPayloadType.
  repeat set_field.
  eexists. split; [reflexivity|]. split; [assumption|]. split; [assumption|].
  change 55543 with (u32 55543). eapply header_is_fields; try eassumption;
    [destruct lastFrame; reflexivity|reflexivity].
Qed.

(** The fields up to the SSRC sit in the first twelve bytes. *)
Lemma header_is_prefix h rest mk seq ts src pt :
  header_is h mk seq ts src pt -> (12 <= length h)%nat ->
  header_is (take 12 h ++ rest) mk seq ts src pt.
Proof.
  intros H Hl.
  assert (Hf : forall f, bf_off f = 0 \/ bf_off f = 4 \/ bf_off f = 8 ->
    get_bf f (take 12 h ++ rest) 0 = get_bf f h 0).
  { intros f Hf. rewrite <- (take_drop 12 h) at 2.
    rewrite !get_bf_app_l; [reflexivity|..]; unfold in_bounds; rewrite length_take; lia. }
  destruct H. split;
    unfold RtpHeader.getVersion, RtpHeader.getCc, RtpHeader.getExtension, RtpHeader.getMarker,
      RtpHeader.getSeqNumber, RtpHeader.getTimestamp, RtpHeader.getSSRC, RtpHeader.getPayloadType in *;
    rewrite Hf by (vm_compute; auto); assumption.
Qed.

(** [getHeaderLength] reads the extension length, whether there is one or not: the packet
    needs four bytes behind the header. *)
Lemma header_length_12 h mk seq ts src pt :
  header_is h mk seq ts src pt -> (16 <= length h)%nat -> RtpHeader.getHeaderLength h 0 = Some 12.
Proof.
  intros H Hl. pose proof (hi_cc _ _ _ _ _ _ H) as Hc. pose proof (hi_ext _ _ _ _ _ _ H) as Hx.
  unfold RtpHeader.getCc, RtpHeader.getExtension, RtpHeader.getHeaderLength in *.
  rewrite Hc, Hx. destruct (get_bf_is_Some RtpHeader.extensionlength h 0) as [l ->];
    [unfold in_bounds; simpl; lia|]. reflexivity.
Qed.

(** ** The packets of a frame *)

(** [packet] carries the fragment [f]: twelve header bytes, then the fragment's packet;
    the header reads the same whatever follows the packet in memory. *)
Definition packet_is (data : list Z) (f : Fragment) (last : bool) (seq ts : Z) (packet : list Z) : Prop :=
  exists hd, length hd = 12%nat /\ packet = hd ++ fragment_packet data f /\
    forall rest, header_is (packet ++ rest) (if last then 1 else 0) (u16 seq) ts 55543 100.

Fixpoint packets_are (data : list Z) (ts seq : Z) (q : list Fragment) (packets : list (list Z)) : Prop :=
  match q, packets with
  | [], [] => True
  | f :: q, p :: packets =>
      packet_is data f (bool_decide (q = [])) seq ts p /\ packets_are data ts (seq + 1) q packets
  | _, _ => False
  end.

Lemma wrap_narrow a b x : 0 <= a <= b -> wrap a (wrap b x) = wrap a x.
Proof.
  intros H. unfold wrap. replace b with (a + (b - a)) by lia.
  rewrite Z.pow_add_r, Z.rem_mul_r by lia.
  rewrite Z.mul_comm, Z.mod_add by lia. apply Z.mod_mod. lia.
Qed.

Lemma u32_succ s : u32 (u32 s + 1) = u32 (s + 1).
Proof. unfold wrap. apply Zplus_mod_idemp_l. Qed.

Lemma length_fragment_packet data f pos len q :
  covers pos len (f :: q) -> 0 <= pos -> pos + len <= Z.of_nat (length data) ->
  length (fragment_packet data f) = S (Z.to_nat (fsize f)) /\ 0 < fsize f <= 1099.
Proof.
  intros (Hpos & Hs & Hl & _) Hp Hd. unfold MAX_SIZE in Hs. unfold fragment_packet. cbn [length].
  rewrite Hpos, length_take, length_drop. split; [f_equal|]; lia.
Qed.

Section loop.
Context (av_rescale : Z -> Z -> Z -> Z) (mem : list Z) (pts millis : Z).
Context (Hmem : length mem = 20%nat) (Hmok : bytes_ok mem).
Notation ts := (video_timestamp av_rescale pts millis).

Lemma video_timestamp_width : in_width 32 ts.
Proof. unfold video_timestamp. destruct (pts =? 0); apply wrap_bound; lia. Qed.

(** One turn of the loop. *)
Lemma packageVideo_step fuel frag outBuff rtpBuffer s out f q pos len :
  fragmentQueue_ frag = f :: q -> covers pos len (f :: q) -> 0 <= pos ->
  pos + len <= Z.of_nat (length (totalData_ frag)) ->
  1100 <= Z.of_nat (length outBuff) -> 1112 <= Z.of_nat (length rtpBuffer) ->
  exists packet outBuff' rtpBuffer',
    packageVideo_loop av_rescale (S fuel) mem pts millis false frag outBuff rtpBuffer (u32 s) out =
      (if bool_decide (q = []) then Some (rtpBuffer', u32 (s + 1), out ++ [packet])
       else packageVideo_loop av_rescale fuel mem pts millis false
              {| totalData_ := totalData_ frag; totalLenth_ := totalLenth_ frag;
                 maxlength_ := maxlength_ frag; fragmentQueue_ := q |}
              outBuff' rtpBuffer' (u32 (s + 1)) (out ++ [packet])) /\
    packet_is (totalData_ frag) f (bool_decide (q = [])) s ts packet /\
    length outBuff' = length outBuff /\ length rtpBuffer' = length rtpBuffer.
Proof.
  intros Hq Hc Hp Hd Ho Hr. cbn [packageVideo_loop].
  rewrite (getPacket_spec _ _ _ _ _ _ _ _ Hq Hc Hp Hd) by (unfold MAX_SIZE; lia).
  cbn [option_bind mbind].
  destruct (length_fragment_packet _ _ _ _ _ Hc Hp Hd) as [Hfl Hfs].
  set (last := if decide (q = []) then true else false).
  destruct (video_header_spec mem last (u32 s) ts Hmem Hmok video_timestamp_width)
    as (h & -> & Hhl & Hhok & Hh). cbn [option_bind mbind].
  rewrite (header_length_12 _ _ _ _ _ _ Hh) by lia. cbn [option_bind mbind].
  assert (Eh : h = take 12 h ++ drop 12 h) by (symmetry; apply take_drop).
  assert (Hl12 : length (take 12 h) = 12%nat) by (rewrite length_take; lia).
  set (hd := take 12 h) in *. set (fp := fragment_packet (totalData_ frag) f) in *.
  rewrite Eh, (read_at_start _ hd) by (rewrite Hl12; reflexivity). cbn [option_bind mbind].
  rewrite write_at_start by lia. cbn [option_bind mbind].
  rewrite (read_at_start _ fp) by lia. cbn [option_bind mbind].
  rewrite write_at_after by (rewrite ?length_drop; lia). cbn [option_bind mbind].
  rewrite app_assoc, (read_at_start _ (hd ++ fp)) by (rewrite length_app; lia). cbn [option_bind mbind].
  rewrite u32_succ.
  exists (hd ++ fp). do 2 eexists. split; [|split; [|split]].
  - unfold last. destruct (decide (q = [])) as [Eq|Nq].
    + rewrite (bool_decide_true _ Eq). reflexivity.
    + rewrite (bool_decide_false _ Nq). reflexivity.
  - exists hd. split; [assumption|]. split; [reflexivity|]. intros rest.
    rewrite <- app_assoc. rewrite <- (wrap_narrow 16 32) by lia.
    rewrite bool_decide_decide. apply header_is_prefix; [exact Hh | lia].
  - rewrite length_app, length_drop. lia.
  - rewrite !length_app, !length_drop. lia.
Qed.

Lemma packageVideo_loop_spec q : forall fuel frag outBuff rtpBuffer s out f pos len,
  fragmentQueue_ frag = f :: q -> covers pos len (f :: q) -> 0 <= pos ->
  pos + len = Z.of_nat (length (totalData_ frag)) ->
  1100 <= Z.of_nat (length outBuff) -> 1112 <= Z.of_nat (length rtpBuffer) ->
  (length q < fuel)%nat ->
  exists rtpBuffer' packets,
    packageVideo_loop av_rescale fuel mem pts millis false frag outBuff rtpBuffer (u32 s) out =
      Some (rtpBuffer', u32 (s + Z.of_nat (length (f :: q))), out ++ packets) /\
    length rtpBuffer' = length rtpBuffer /\ packets_are (totalData_ frag) ts s (f :: q) packets.
Proof.
  induction q as [|g q IH]; intros fuel frag outBuff rtpBuffer s out f pos len Hq Hc Hp Hd Ho Hr Hf;
    (destruct fuel as [|fuel]; [simpl in Hf; lia|]);
    destruct (packageVideo_step fuel frag outBuff rtpBuffer s out f _ pos len Hq Hc Hp ltac:(lia) Ho Hr)
      as (packet & outBuff' & rtpBuffer' & -> & Hpk & Ho' & Hr').
  - exists rtpBuffer', [packet]. split; [reflexivity|]. split; [assumption|]. split; [exact Hpk | exact I].
  - pose proof Hc as (Hpos & Hs & Hlen & _ & Hc').
    edestruct (IH fuel {| totalData_ := totalData_ frag; totalLenth_ := totalLenth_ frag;
       maxlength_ := maxlength_ frag; fragmentQueue_ := g :: q |} outBuff' rtpBuffer' (s + 1)
       (out ++ [packet]) g) as (r & packets & E & Hrl & Hps); try exact Hc';
      cbn [totalData_ fragmentQueue_ length] in *; try reflexivity; unfold MAX_SIZE in Hs; try lia.
    change (bool_decide (g :: q = [])) with false in *. cbv iota.
    exists r, (packet :: packets). rewrite E. split; [|split; [congruence|split; [exact Hpk|exact Hps]]].
    rewrite <- app_assoc. do 3 f_equal. f_equal. lia.
Qed.
End loop.

(** [packageVideo] sends the fragments of the frame in packets with consecutive sequence
    numbers, the marker on the last one. *)
Lemma packageVideo_spec av_rescale mem data outBuff pts millis p :
  length mem = 20%nat -> bytes_ok mem -> videoPackager p = true -> in_width 32 (seqnum_ p) ->
  (0 < length data)%nat -> Z.of_nat (length data) < 2 ^ 31 ->
  1100 <= Z.of_nat (length outBuff) -> 1112 <= Z.of_nat (length (rtpBuffer_ p)) ->
  exists q packets p',
    packageVideo av_rescale mem data (Z.of_nat (length data)) outBuff pts millis p =
      Some (0, p', packets) /\
    covers 0 (Z.of_nat (length data)) q /\
    packets_are data (video_timestamp av_rescale pts millis) (seqnum_ p) q packets /\
    seqnum_ p' = u32 (seqnum_ p + Z.of_nat (length packets)) /\
    videoPackager p' = true /\ length (rtpBuffer_ p') = length (rtpBuffer_ p).
Proof.
  intros Hm Hok Hv Hs Hd H31 Ho Hr. unfold packageVideo. rewrite Hv. cbn [negb].
  rewrite (proj2 (Z.leb_gt _ 0)) by lia. unfold RtpVP8Fragmenter_ctor.
  destruct (calculatePackets_covers (S (Z.to_nat (Z.of_nat (length data)))) (Z.of_nat (length data)) 0 [])
    as (q & Eq & Hc); [lia..|].
  cbn [app] in Eq. rewrite Eq. cbn [option_bind mbind].
  destruct q as [|f q]; [simpl in Hc; lia|].
  assert (Hlen : forall q pos n, covers pos n q -> (length q <= Z.to_nat n)%nat).
  { clear. induction q as [|f q IH]; intros pos n Hc; cbn [length]; [lia|].
    destruct Hc as (_ & Hs & Hn & _ & Hc). unfold MAX_SIZE in Hs. specialize (IH _ _ Hc). lia. }
  pose proof (Hlen _ _ _ Hc) as Hql. cbn [length] in Hql.
  edestruct (packageVideo_loop_spec av_rescale mem pts millis Hm Hok q
    (S (Z.to_nat (Z.of_nat (length data)))) {| totalData_ := data; totalLenth_ := Z.of_nat (length data);
       maxlength_ := 1100; fragmentQueue_ := f :: q |} outBuff (rtpBuffer_ p) (seqnum_ p) [] f 0)
    as (r & packets & E & Hrl & Hps); try exact Hc; cbn [totalData_ fragmentQueue_];
    try reflexivity; try lia.
  rewrite (wrap_small _ _ Hs) in E. rewrite E. cbn [option_bind mbind app].
  exists (f :: q), packets. eexists. split; [reflexivity|]. split; [exact Hc|]. split; [exact Hps|].
  split; [|split; [reflexivity|exact Hrl]]. cbn [seqnum_]. do 2 f_equal.
  assert (Hl2 : forall q ps s, packets_are data (video_timestamp av_rescale pts millis) s q ps ->
    length q = length ps).
  { clear. induction q as [|f q IH]; intros [|x ps] s H; try done. destruct H as [_ H].
    cbn [length]. f_equal. eauto. }
  rewrite (Hl2 _ _ _ Hps). reflexivity.
Qed.

(** ** Receiving the packets *)

(** The unpackager copies the fragment of a packet behind the part of the frame it has. *)
Lemma unpackageVideo_spec pmem data f q pos len last s ts packet slack r got :
  covers pos len (f :: q) -> 0 <= pos -> pos + len = Z.of_nat (length data) ->
  packet_is data f last s ts packet -> (4 <= length slack)%nat ->
  fsize f <= Z.of_nat (length r) ->
  exists r',
    unpackageVideo pmem true (packet ++ slack) (Z.of_nat (length packet))
      (take (Z.to_nat pos) data ++ r) pos got =
    Some (fsize f, take (Z.to_nat (pos + fsize f)) data ++ r', last) /\
    length r' = (length r - Z.to_nat (fsize f))%nat.
Proof.
  intros Hc Hp Hd (hd & Hhl & Epk & Hh) Hsl Hr. unfold unpackageVideo. cbn [negb].
  destruct (length_fragment_packet data _ _ _ _ Hc Hp ltac:(lia)) as [Hfl Hfs].
  pose proof Hc as (Hpos & Hfs' & Hlen & _ & _). unfold MAX_SIZE in Hfs'.
  specialize (Hh slack). rewrite (hi_pt _ _ _ _ _ _ Hh). cbn [option_bind mbind].
  change (negb (100 =? 100)) with false. cbv iota.
  rewrite (header_length_12 _ _ _ _ _ _ Hh) by (rewrite Epk, !length_app; lia).
  cbn [option_bind mbind]. change (Z.to_nat 12) with 12%nat.
  replace (drop 12 (packet ++ slack)) with (fragment_packet data f ++ slack)
    by (rewrite Epk, <- app_assoc, <- Hhl, drop_app_length; reflexivity).
  assert (Efp : exists d chunk, fragment_packet data f = d :: chunk /\ (d = 0 \/ d = 0x10) /\
    chunk = take (Z.to_nat (fsize f)) (drop (Z.to_nat pos) data)).
  { unfold fragment_packet. rewrite Hpos. do 2 eexists. split; [reflexivity|].
    split; [destruct (first f); auto | reflexivity]. }
  destruct Efp as (d & chunk & Efp & Hdd & Echunk). rewrite Efp in *. cbn [length] in Hfl.
  assert (Hpl : Z.of_nat (length packet) - 12 = fsize f + 1)
    by (rewrite Epk, length_app, Hhl; cbn [length]; lia).
  rewrite Hpl. cbn [app].
  destruct (parse_fragment pmem d (chunk ++ slack) (fsize f + 1) Hdd) as (v & -> & Hpay & Hdl);
    [lia | rewrite length_app; lia |].
  cbn [option_bind mbind]. rewrite Hpay, Hdl.
  replace (fsize f + 1 - 1) with (fsize f) by lia.
  replace (packet ++ slack) with ((hd ++ [d]) ++ chunk ++ slack)
    by (rewrite Epk, <- !app_assoc; reflexivity).
  rewrite read_at_after; [|lia|rewrite length_app, Hhl; reflexivity]. cbn [option_bind mbind].
  rewrite write_at_after; [|rewrite length_take; lia|lia]. cbn [option_bind mbind].
  replace ((hd ++ [d]) ++ chunk ++ slack) with (packet ++ slack)
    by (rewrite Epk, <- !app_assoc; reflexivity).
  rewrite (hi_marker _ _ _ _ _ _ Hh). cbn [option_bind mbind].
  exists (drop (length chunk) r). split; [|rewrite length_drop; lia].
  replace (take (Z.to_nat (pos + fsize f)) data) with (take (Z.to_nat pos) data ++ chunk).
  - rewrite <- app_assoc. destruct last; reflexivity.
  - rewrite Echunk. replace (Z.to_nat (pos + fsize f)) with (Z.to_nat pos + Z.to_nat (fsize f))%nat by lia.
    apply take_take_drop.
Qed.

(** An input processor that has gathered the first [pos] bytes of the frame. *)
Record gathering (data : list Z) (pos : Z) (p : InputProcessor) : Prop := {
  ga_on : videoUnpackager p = true /\ videoDecoder p = true;
  ga_size : upackagedSize_ p = pos;
  ga_ptr : unpackagedBufferPtr_ p = pos;
  ga_buffer : exists r, unpackagedBuffer_ p = take (Z.to_nat pos) data ++ r /\
    Z.of_nat (length data) - pos <= Z.of_nat (length r)
}.

(** What one packet in its receive buffer is delivered as. *)
Definition receive (pmem : RTPPayloadVP8) (slack packet : list Z) : RTPPayloadVP8 * list Z * Z :=
  (pmem, packet ++ slack, Z.of_nat (length packet)).

Lemma deliver_all_spec decode data ts pmem slack q : forall f pos len s packets p,
  covers pos len (f :: q) -> 0 <= pos -> pos + len = Z.of_nat (length data) ->
  packets_are data ts s (f :: q) packets -> (4 <= length slack)%nat -> gathering data pos p ->
  exists p' rest,
    deliver_all decode (map (receive pmem slack) packets) p = Some (p', DecodeVideo data :: rest) /\
    rest = (if (decode data).2 && (0 <? (decode data).1) then [ReceiveRawData (decode data).1] else []) /\
    upackagedSize_ p' = 0 /\ unpackagedBufferPtr_ p' = 0 /\
    videoUnpackager p' = true /\ videoDecoder p' = true /\
    length (unpackagedBuffer_ p') = length (unpackagedBuffer_ p).
Proof.
  induction q as [|g q IH]; intros f pos len s packets p Hc Hp Hd Hps Hsl [[Hv1 Hv2] Hsz Hptr (r & Hb & Hr)];
    (destruct packets as [|x packets]; [done|]); destruct Hps as [Hpk Hps];
    pose proof Hc as (Hpos & Hfs & Hlen & _ & Hc'); unfold MAX_SIZE in Hfs;
    cbn [map deliver_all receive]; unfold deliverVideoData_; rewrite Hv1, Hv2; cbn [andb];
    rewrite Hb, Hptr, Hsz;
    destruct (unpackageVideo_spec pmem data f _ pos len _ s ts x slack r (gotUnpackagedFrame_ p)
      Hc Hp Hd Hpk Hsl ltac:(lia)) as (r' & -> & Hr'); cbn [option_bind mbind];
    rewrite (proj2 (Z.ltb_ge _ 0)) by lia.
  - destruct packets; [|done]. cbn in Hc'.
    change (bool_decide ([] = [])) with true. cbv iota. rewrite Z.sub_diag.
    replace (pos + fsize f) with (Z.of_nat (length data)) by lia. rewrite Nat2Z.id, firstn_all.
    rewrite read_at_start by reflexivity. cbn [option_bind mbind map deliver_all].
    destruct (decode data) as [c gd] eqn:Edec. cbn [option_bind mbind]. rewrite app_nil_r.
    do 2 eexists. split; [reflexivity|]. cbn. repeat split.
    rewrite !length_app, length_take. lia.
  - change (bool_decide (g :: q = [])) with false. cbv iota. cbn [option_bind mbind].
    edestruct (IH g (pos + fsize f) (len - fsize f) (s + 1) packets) as (p' & rest & E & HH);
      [exact Hc' | lia | lia | exact Hps | exact Hsl | |].
    2:{ rewrite E. exists p', rest. cbn. split; [reflexivity|].
        destruct HH as (? & ? & ? & ? & ? & HHl). repeat split; try assumption.
        rewrite HHl. cbn. rewrite !length_app, !length_take. lia. }
    split; cbn; auto. exists r'. split; [reflexivity | lia].
Qed.

(** Every packet of a frame by its index. *)
Lemma packets_lookup data ts q : forall pos len s packets slack,
  packets_are data ts s q packets -> covers pos len q -> 0 <= pos ->
  pos + len <= Z.of_nat (length data) ->
  forall i packet, packets !! i = Some packet ->
    (length packet <= 1112)%nat /\
    header_is (packet ++ slack) (if decide (S i = length packets) then 1 else 0)
      (u16 (s + Z.of_nat i)) ts 55543 100.
Proof.
  induction q as [|f q IH]; intros pos len s [|x packets] slack Hps Hc Hp Hd i packet Hi; try done.
  destruct Hps as [(hd & Hhl & Epk & Hh) Hps].
  destruct (length_fragment_packet data _ _ _ _ Hc Hp Hd) as [Hfl Hfs].
  destruct Hc as (_ & _ & _ & _ & Hc).
  destruct i as [|i].
  - injection Hi as <-. split; [rewrite Epk, length_app; lia|]. rewrite Z.add_0_r.
    specialize (Hh slack). destruct q, packets; try done; exact Hh.
  - destruct (IH _ _ _ _ slack Hps Hc ltac:(lia) ltac:(lia) i packet Hi) as [H1 H2].
    split; [assumption|]. replace (s + Z.of_nat (S i)) with (s + 1 + Z.of_nat i) by lia.
    cbn [length]. destruct (decide (S (S i) = S (length packets))), (decide (S i = length packets));
      try lia; exact H2.
Qed.

(** C22. A frame survives the trip: [packageVideo] cuts any frame that fits the receiver's
    buffer into RTP packets of at most 1112 bytes - version 2, payload type 100, one
    timestamp and SSRC, consecutive sequence numbers modulo 2^16 that continue in the next
    frame, the marker on exactly the last one - and [deliverVideoData_], given these
    packets in order in receive buffers with four bytes to spare, hands the decoder
    exactly that frame once, and starts the next frame at the beginning of its buffer. *)
Theorem video_frame_roundtrip (av_rescale : Z -> Z -> Z -> Z) (decode : list Z -> Z * bool)
    (mem data outBuff slack : list Z) (pts millis : Z) (pmem : RTPPayloadVP8)
    (op : OutputProcessor) (ip : InputProcessor) :
  length mem = 20%nat -> bytes_ok mem -> videoPackager op = true -> in_width 32 (seqnum_ op) ->
  0 < Z.of_nat (length data) <= Z.of_nat (length (unpackagedBuffer_ ip)) ->
  Z.of_nat (length data) < 2 ^ 31 ->
  1100 <= Z.of_nat (length outBuff) -> 1112 <= Z.of_nat (length (rtpBuffer_ op)) ->
  (4 <= length slack)%nat -> videoUnpackager ip = true -> videoDecoder ip = true ->
  upackagedSize_ ip = 0 -> unpackagedBufferPtr_ ip = 0 ->
  exists packets op' ip' rest,
    packageVideo av_rescale mem data (Z.of_nat (length data)) outBuff pts millis op =
      Some (0, op', packets) /\
    seqnum_ op' = u32 (seqnum_ op + Z.of_nat (length packets)) /\
    (forall i packet, packets !! i = Some packet ->
       (length packet <= 1112)%nat /\
       header_is (packet ++ slack) (if decide (S i = length packets) then 1 else 0)
         (u16 (seqnum_ op + Z.of_nat i)) (video_timestamp av_rescale pts millis) 55543 100) /\
    deliver_all decode (map (receive pmem slack) packets) ip = Some (ip', DecodeVideo data :: rest) /\
    (forall frame, DecodeVideo frame ∉ rest) /\
    upackagedSize_ ip' = 0 /\ unpackagedBufferPtr_ ip' = 0 /\
    length (unpackagedBuffer_ ip') = length (unpackagedBuffer_ ip).
Proof.
  intros Hm Hok Hv Hs [Hd Hdb] H31 Ho Hr Hsl Hu Hde Hsz Hptr.
  destruct (packageVideo_spec av_rescale mem data outBuff pts millis op Hm Hok Hv Hs
    ltac:(lia) H31 Ho Hr) as (q & packets & op' & E & Hc & Hps & Hseq & _ & _).
  destruct q as [|f q]; [simpl in Hc; lia|].
  destruct (deliver_all_spec decode data _ pmem slack q f 0 (Z.of_nat (length data)) _ packets ip
    Hc ltac:(lia) ltac:(lia) Hps Hsl) as (ip' & rest & E2 & Hrest & H1 & H2 & _ & _ & H3).
  { split; auto. exists (unpackagedBuffer_ ip). split; [reflexivity | lia]. }
  exists packets, op', ip', rest. split; [exact E|]. split; [exact Hseq|].
  split; [exact (packets_lookup _ _ _ _ _ _ _ slack Hps Hc ltac:(lia) ltac:(lia))|].
  split; [exact E2|]. split; [|auto].
  intros frame. rewrite Hrest. destruct (_ && _); set_solver.
Qed.

Lemma video_frame_roundtrip_witness :
  exists packets op' ip' rest,
    packageVideo (fun x _ _ => x) (replicate 20 255) [1; 2; 3] 3 (replicate 2000 0) 77 5
      {| audioPackager := false; videoPackager := true; seqnum_ := 65535; audioSeqnum_ := 0; rtpBuffer_ := replicate 2000 0 |} =
      Some (0, op', packets) /\
    deliver_all (fun _ => (0, false)) (map (receive vp8_zero [0; 0; 0; 0]) packets)
      {| videoUnpackager := true; videoDecoder := true; gotUnpackagedFrame_ := false;
         upackagedSize_ := 0; unpackagedBuffer_ := [0; 0; 0; 0]; unpackagedBufferPtr_ := 0 |} =
      Some (ip', DecodeVideo [1; 2; 3] :: rest).
Proof.
  edestruct (video_frame_roundtrip (fun x _ _ => x) (fun _ => (0, false)) (replicate 20 255) [1; 2; 3]
    (replicate 2000 0) [0; 0; 0; 0] 77 5 vp8_zero
    {| audioPackager := false; videoPackager := true; seqnum_ := 65535; audioSeqnum_ := 0; rtpBuffer_ := replicate 2000 0 |}
    {| videoUnpackager := true; videoDecoder := true; gotUnpackagedFrame_ := false;
       upackagedSize_ := 0; unpackagedBuffer_ := [0; 0; 0; 0]; unpackagedBufferPtr_ := 0 |})
    as (packets & op' & ip' & rest & E & _ & _ & D & _);
    cbn [videoPackager seqnum_ rtpBuffer_ unpackagedBuffer_ videoUnpackager videoDecoder
         upackagedSize_ unpackagedBufferPtr_]; rewrite ?length_replicate; try reflexivity.
  - apply Forall_replicate. unfold byte_ok. lia.
  - unfold in_width. lia.
  - simpl. lia.
  - simpl. lia.
  - simpl. lia.
  - exists packets, op', ip', rest. split; assumption.
Defined.

(** Nothing bounds the frame the unpackager gathers: a packet of a stream that never
    sets the marker is copied behind the last one without a look at the size of the
    buffer, and the copy leaves the buffer as soon as the packet does not fit. *)
Theorem gather_overflow (decode : list Z -> Z * bool) (pmem : RTPPayloadVP8)
    (hd slack : list Z) (d : Z) (chunk : list Z) (ip : InputProcessor) (mk seq ts src : Z) :
  length hd = 12%nat -> (forall rest, header_is (hd ++ rest) mk seq ts src 100) ->
  d = 0 \/ d = 0x10 -> 0 < Z.of_nat (length chunk) < 2 ^ 30 -> (4 <= length slack)%nat ->
  videoUnpackager ip = true -> videoDecoder ip = true ->
  Z.of_nat (length (unpackagedBuffer_ ip)) < unpackagedBufferPtr_ ip + Z.of_nat (length chunk) ->
  deliverVideoData_ decode pmem (hd ++ d :: chunk ++ slack)
    (Z.of_nat (length (hd ++ d :: chunk))) ip = None.
Proof.
  intros Hhl Hh Hd Hcl Hsl Hu Hv Hover. unfold deliverVideoData_. rewrite Hu, Hv. cbn [andb].
  specialize (Hh (d :: chunk ++ slack)). unfold unpackageVideo. cbn [negb].
  rewrite (hi_pt _ _ _ _ _ _ Hh). cbn [option_bind mbind].
  change (negb (100 =? 100)) with false. cbv iota.
  rewrite (header_length_12 _ _ _ _ _ _ Hh) by (rewrite length_app; cbn [length]; rewrite length_app; lia).
  cbn [option_bind mbind]. change (Z.to_nat 12) with 12%nat. rewrite <- Hhl at 1.
  rewrite drop_app_length.
  destruct (parse_fragment pmem d (chunk ++ slack)
    (Z.of_nat (length (hd ++ d :: chunk)) - 12) Hd) as (v & -> & Hpay & Hdl);
    [rewrite length_app; cbn [length]; lia | rewrite !length_app; cbn [length]; lia |].
  cbn [option_bind mbind]. rewrite Hpay, Hdl.
  replace (Z.of_nat (length (hd ++ d :: chunk)) - 12 - 1) with (Z.of_nat (length chunk))
    by (rewrite length_app; cbn [length]; lia).
  rewrite Nat2Z.id. replace (hd ++ d :: chunk ++ slack) with ((hd ++ [d]) ++ chunk ++ slack)
    by (rewrite <- app_assoc; reflexivity).
  rewrite read_at_after; [|reflexivity|rewrite length_app, Hhl; reflexivity]. cbn [option_bind mbind].
  replace (write_at _ _ _) with (@None (list Z)); [reflexivity|].
  unfold write_at. destruct (Z.leb_spec (unpackagedBufferPtr_ ip + Z.of_nat (length chunk))
    (Z.of_nat (length (unpackagedBuffer_ ip)))); [lia|]. rewrite andb_false_r. reflexivity.
Qed.

Lemma gather_overflow_witness :
  deliverVideoData_ (fun _ => (0, false)) vp8_zero
    ([0x80; 100; 0; 1; 0; 0; 0; 0; 0; 0; 0; 1] ++ 0 :: [1; 2; 3] ++ [0; 0; 0; 0]) 16
    {| videoUnpackager := true; videoDecoder := true; gotUnpackagedFrame_ := false;
       upackagedSize_ := 3; unpackagedBuffer_ := [9; 9; 9; 0; 0]; unpackagedBufferPtr_ := 3 |} = None.
Proof.
  apply (gather_overflow (fun _ => (0, false)) vp8_zero [0x80; 100; 0; 1; 0; 0; 0; 0; 0; 0; 0; 1]
    [0; 0; 0; 0] 0 [1; 2; 3] _ 0 1 0 1); try reflexivity; simpl; auto; try lia.
  intros rest.
  assert (Hf : forall f, bf_off f = 0 \/ bf_off f = 4 \/ bf_off f = 8 ->
    get_bf f ([0x80; 100; 0; 1; 0; 0; 0; 0; 0; 0; 0; 1] ++ rest) 0 =
    get_bf f [0x80; 100; 0; 1; 0; 0; 0; 0; 0; 0; 0; 1] 0)
    by (intros f Hf; apply get_bf_app_l; unfold in_bounds; simpl; lia).
  split; unfold RtpHeader.getVersion, RtpHeader.getCc, RtpHeader.getExtension, RtpHeader.getMarker,
    RtpHeader.getSeqNumber, RtpHeader.getTimestamp, RtpHeader.getSSRC, RtpHeader.getPayloadType;
    rewrite Hf by (vm_compute; auto); vm_compute; reflexivity.
Defined.

(** One audio packet: version 2, the marker set, the sequence number of the processor,
    which then counts one up modulo 2^32, SSRC 44444 and the payload type of the media
    information; [unpackageAudio] finds the samples behind the twelve header bytes. *)
Theorem audio_packet_roundtrip (av_rescale : Z -> Z -> Z -> Z) (rate PT : Z) (mem data outBuff : list Z)
    (pts : Z) (p : OutputProcessor) (buffer : list Z) :
  audioPackager p = true -> length mem = 20%nat -> bytes_ok mem -> (4 <= length data)%nat ->
  (length data + 12 <= length outBuff)%nat -> (length data <= length buffer)%nat ->
  exists hd rest p' ts,
    packageAudio av_rescale rate PT mem data (Z.of_nat (length data)) outBuff pts p =
      Some (Z.of_nat (length data) + 12, (hd ++ data) ++ rest, p') /\
    header_is (hd ++ data) 1 (u16 (audioSeqnum_ p)) ts 44444 (wrap 7 PT) /\
    audioSeqnum_ p' = u32 (audioSeqnum_ p + 1) /\
    unpackageAudio (hd ++ data) (Z.of_nat (length (hd ++ data))) buffer 0 =
      Some (Z.of_nat (length data), data ++ drop (length data) buffer).
Proof.
  intros Hpk Hm Hok Hd Ho Hb. unfold packageAudio. rewrite Hpk. cbn [negb]. unfold RtpHeader.RtpHeader_ctor, RtpHeader.setMarker,
    RtpHeader.setSeqNumber, RtpHeader.setTimestamp, RtpHeader.setSSRC, RtpHeader.setPayloadType.
  set (ts := if pts =? 0 then _ else _).
  assert (Hts : in_width 32 ts) by (unfold ts; destruct (pts =? 0); apply wrap_bound; lia).
  clearbody ts. repeat set_field.
  match goal with |- context [RtpHeader.getHeaderLength ?h 0] =>
    assert (Hh : header_is h 1 (u16 (audioSeqnum_ p)) ts (u32 44444) (wrap 7 PT))
      by (eapply header_is_fields; try eassumption; reflexivity);
    rewrite (header_length_12 _ _ _ _ _ _ Hh) by lia; cbn [option_bind mbind];
    assert (Eh : h = take 12 h ++ drop 12 h) by (symmetry; apply take_drop);
    assert (Hl12 : length (take 12 h) = 12%nat) by (rewrite length_take; lia);
    set (hd := take 12 h) in *; rewrite Eh
  end.
  rewrite (read_at_start _ hd) by (rewrite Hl12; reflexivity). cbn [option_bind mbind].
  rewrite write_at_start by lia. cbn [option_bind mbind].
  rewrite Nat2Z.id, read_at_all by reflexivity. cbn [option_bind mbind].
  rewrite write_at_after by (rewrite ?length_drop; lia). cbn [option_bind mbind].
  exists hd. do 3 eexists. split; [rewrite app_assoc; reflexivity|].
  split; [apply header_is_prefix; [exact Hh|lia]|]. split; [reflexivity|].
  unfold unpackageAudio. change RtpHeader.MIN_SIZE with 12.
  rewrite length_app, Hl12. replace (Z.of_nat (12 + length data) - 12) with (Z.of_nat (length data)) by lia.
  rewrite (proj2 (Z.ltb_ge _ 0)) by lia. rewrite Nat2Z.id.
  rewrite read_at_tail by lia. cbn [option_bind mbind].
  rewrite write_at_start by lia. reflexivity.
Qed.
