(* ===== verification/Rtcp.v ===== *)
(** * Rtcp: what the RTCP processors share (src/Src/media/rtp/RtcpProcessor.h)

    The record kept per source, the bookkeeping of sender reports, the REMB and NACK
    packets that both processors can append, and the loop over the blocks of a compound
    packet that [RtcpForwarder], [RtcpAggregator] and [Stats] each have.  A clock value
    is an argument; members the constructors leave uninitialised come from an argument
    too.  [None] is undefined behaviour.

    The theorems: the compound loop ends, and on a sequence of well-formed blocks it is
    the fold of the block handler, each of which sees its own bytes only; the appended
    packets parse back and do not depend on uninitialised memory; a source keeps its
    last twenty sender reports. *)

From S2P Require Import Prelude Bytes RtpHeaders.

(** ** Times *)

Record timeval := { tv_sec : Z; tv_usec : Z }.

Definition timeval0 : timeval := {| tv_sec := 0; tv_usec := 0 |}.

(** [(tv_sec * 1000) + (tv_usec / 1000)] in a [uint64_t]. *)
Definition to_ms (t : timeval) : Z := u64 (tv_sec t * 1000 + Z.quot (tv_usec t) 1000).

(** The milliseconds from [t] to [now] in an [unsigned int], as the code subtracts them. *)
Definition ms_since (now t : timeval) : Z :=
  u32 ((tv_sec now - tv_sec t) * 1000 + Z.quot (tv_usec now - tv_usec t) 1000).

(** ** The data of a source *)

Inductive MediaType := VIDEO_TYPE | AUDIO_TYPE | OTHER.

Record SrData := { srNtp : Z; timestamp : timeval }.

Record RtcpData := {
  rrsReceivedInPeriod : Z;
  ssrc : Z;
  totalPacketsLost : Z;
  prevTotalPacketsLost : Z;
  ratioLost : Z;
  highestSeqNumReceived : Z;
  seqNumCycles : Z;
  extendedSeqNo : Z;
  prevExtendedSeqNo : Z;
  lastSr : Z;
  reportedBandwidth : Z;
  maxBandwidth : Z;
  delaySinceLastSr : Z;
  nextPacketInMs : Z;
  lastDelay : Z;
  jitter : Z;
  lastSrTimestamp : Z;
  nackSeqnum : Z;
  nackBlp : Z;
  lastSrUpdated : timeval;
  lastREMBSent : timeval;
  lastSrReception : timeval;
  lastRrWasScheduled : timeval;
  lastRrSent : timeval;
  shouldSendPli : bool;
  shouldSendREMB : bool;
  shouldSendNACK : bool;
  requestRr : bool;
  shouldReset : bool;
  mediaType : MediaType;
  senderReports : list SrData;
  nackedPackets_ : list Z
}.

(** The constructor; [mem] holds what it leaves uninitialised. *)
Definition RtcpData_ctor (mem : RtcpData) : RtcpData :=
  {| rrsReceivedInPeriod := 0;
     ssrc := ssrc mem;
     totalPacketsLost := 0;
     prevTotalPacketsLost := 0;
     ratioLost := 0;
     highestSeqNumReceived := 0;
     seqNumCycles := 0;
     extendedSeqNo := 0;
     prevExtendedSeqNo := 0;
     lastSr := 0;
     reportedBandwidth := 0;
     maxBandwidth := maxBandwidth mem;
     delaySinceLastSr := 0;
     nextPacketInMs := 0;
     lastDelay := 0;
     jitter := 0;
     lastSrTimestamp := 0;
     nackSeqnum := 0;
     nackBlp := 0;
     lastSrUpdated := lastSrUpdated mem;
     lastREMBSent := timeval0;
     lastSrReception := timeval0;
     lastRrWasScheduled := timeval0;
     lastRrSent := timeval0;
     shouldSendPli := false;
     shouldSendREMB := false;
     shouldSendNACK := false;
     requestRr := false;
     shouldReset := false;
     mediaType := mediaType mem;
     senderReports := [];
     nackedPackets_ := [] |}.

#[export] Instance eta_RtcpData : Eta RtcpData := fun d =>
  {| rrsReceivedInPeriod := rrsReceivedInPeriod d; ssrc := ssrc d; totalPacketsLost :=
     totalPacketsLost d; prevTotalPacketsLost := prevTotalPacketsLost d; ratioLost := ratioLost
     d; highestSeqNumReceived := highestSeqNumReceived d; seqNumCycles := seqNumCycles d;
     extendedSeqNo := extendedSeqNo d; prevExtendedSeqNo := prevExtendedSeqNo d; lastSr :=
     lastSr d; reportedBandwidth := reportedBandwidth d; maxBandwidth := maxBandwidth d;
     delaySinceLastSr := delaySinceLastSr d; nextPacketInMs := nextPacketInMs d; lastDelay :=
     lastDelay d; jitter := jitter d; lastSrTimestamp := lastSrTimestamp d; nackSeqnum :=
     nackSeqnum d; nackBlp := nackBlp d; lastSrUpdated := lastSrUpdated d; lastREMBSent :=
     lastREMBSent d; lastSrReception := lastSrReception d; lastRrWasScheduled :=
     lastRrWasScheduled d; lastRrSent := lastRrSent d; shouldSendPli := shouldSendPli d;
     shouldSendREMB := shouldSendREMB d; shouldSendNACK := shouldSendNACK d; requestRr :=
     requestRr d; shouldReset := shouldReset d; mediaType := mediaType d; senderReports :=
     senderReports d; nackedPackets_ := nackedPackets_ d |}.

(** A record of zeros: memory for the examples. *)
Definition RtcpData_zero : RtcpData :=
  {| rrsReceivedInPeriod := 0; ssrc := 0; totalPacketsLost := 0; prevTotalPacketsLost := 0; ratioLost
     := 0; highestSeqNumReceived := 0; seqNumCycles := 0; extendedSeqNo := 0; prevExtendedSeqNo
     := 0; lastSr := 0; reportedBandwidth := 0; maxBandwidth := 0; delaySinceLastSr := 0;
     nextPacketInMs := 0; lastDelay := 0; jitter := 0; lastSrTimestamp := 0; nackSeqnum := 0;
     nackBlp := 0; lastSrUpdated := timeval0; lastREMBSent := timeval0; lastSrReception :=
     timeval0; lastRrWasScheduled := timeval0; lastRrSent := timeval0; shouldSendPli := false;
     shouldSendREMB := false; shouldSendNACK := false; requestRr := false; shouldReset := false;
     mediaType := OTHER; senderReports := []; nackedPackets_ := [] |}.

(** ** The two ends of a processor

    [rtcpSink_] and [rtcpSource_] as far as the processors read them: the SSRCs. *)
Record ssrcs := {
  videoSinkSSRC_ : Z;
  audioSinkSSRC_ : Z;
  videoSourceSSRC_ : Z;
  audioSourceSSRC_ : Z
}.

Abbreviation source_map := (gmap Z RtcpData).

(** [mem] is the memory of a new [RtcpData]. *)
Definition addSourceSsrc (e : ssrcs) (mem : RtcpData) (ssrc : Z) (m : source_map) : source_map :=
  match m !! ssrc with
  | Some _ => m
  | None =>
      <[ssrc := (RtcpData_ctor mem)
                  <| mediaType := if ssrc =? audioSourceSSRC_ e then AUDIO_TYPE else VIDEO_TYPE |>]> m
  end.

(** [rtcpData_[ssrc]] after [addSourceSsrc]; the operator [] of the map would make a null
    pointer for an SSRC that is not there. *)
Definition analyzeSr (e : ssrcs) (mem : RtcpData) (now : timeval) (buf : list Z) (chead : Z)
    (m : source_map) : option source_map :=
  recvSSRC ← RtcpHeader.getSSRC buf chead;
  let m := addSourceSsrc e mem recvSSRC m in
  theData ← m !! recvSSRC;
  theNTP ← RtcpHeader.getNtpTimestamp buf chead;
  let ntp := u32 (Z.shiftr (Z.land theNTP 0xFFFFFFFF0000) 16) in
  let reports := senderReports theData ++ [{| srNtp := ntp; timestamp := now |}] in
  let reports := if (20 <? length reports)%nat then tail reports else reports in
  Some (<[recvSSRC := theData <| senderReports := reports |>]> m).

(** ** Appended packets *)

(** Both write a block of [RtcpHeader] type behind the [len] bytes of [buf] and return
    the new length; [mem] is the memory of the local header. *)
Definition remb_header (e : ssrcs) (mem : list Z) (bitrate : Z) : option (list Z) :=
  h ← RtcpHeader.RtcpHeader_ctor mem 0;
  h ← RtcpHeader.setPacketType RTCP_PS_Feedback_PT h 0;
  h ← RtcpHeader.setBlockCount RTCP_AFB h 0;
  h ← write_at h (bf_off RtcpHeader.uniqueid) RtcpHeader.REMB_bytes;
  h ← RtcpHeader.setSSRC (videoSinkSSRC_ e) h 0;
  h ← RtcpHeader.setSourceSSRC (videoSourceSSRC_ e) h 0;
  h ← RtcpHeader.setLength 5 h 0;
  h ← RtcpHeader.setREMBBitRate bitrate h 0;
  h ← RtcpHeader.setREMBNumSSRC 1 h 0;
  RtcpHeader.setREMBFeedSSRC (videoSourceSSRC_ e) h 0.

Definition append_header (h buf : list Z) (len : Z) : option (list Z * Z) :=
  l ← RtcpHeader.getLength h 0;
  let n := (l + 1) * 4 in
  bytes ← read_at (Z.to_nat n) h 0;
  buf ← write_at buf len bytes;
  Some (buf, len + n).

Definition addREMB (e : ssrcs) (mem buf : list Z) (len bitrate : Z) : option (list Z * Z) :=
  theREMB ← remb_header e mem bitrate;
  append_header theREMB buf len.

Definition nack_header (mem : list Z) (seqNum blp sourceSsrc sinkSsrc : Z) : option (list Z) :=
  h ← RtcpHeader.RtcpHeader_ctor mem 0;
  h ← RtcpHeader.setPacketType RTCP_RTP_Feedback_PT h 0;
  h ← RtcpHeader.setBlockCount 1 h 0;
  h ← RtcpHeader.setNackPid seqNum h 0;
  h ← RtcpHeader.setNackBlp blp h 0;
  h ← RtcpHeader.setSSRC sinkSsrc h 0;
  h ← RtcpHeader.setSourceSSRC sourceSsrc h 0;
  RtcpHeader.setLength 3 h 0.

Definition addNACK (mem buf : list Z) (len seqNum blp sourceSsrc sinkSsrc : Z)
    : option (list Z * Z) :=
  theNACK ← nack_header mem seqNum blp sourceSsrc sinkSsrc;
  append_header theNACK buf len.

(** ** The blocks of a compound packet *)

(** The first test of [analyzeFeedback]: a packet that is one block with no reports. *)
Definition empty_report (buf : list Z) (len : Z) : option bool :=
  c ← RtcpHeader.getBlockCount buf 0;
  l ← RtcpHeader.getLength buf 0;
  Some ((c =? 0) && ((l + 1) * 4 =? len)).

(** A source that was added has a record. *)
Lemma addSourceSsrc_is_Some e mem ssrc m : is_Some (addSourceSsrc e mem ssrc m !! ssrc).
Proof.
  unfold addSourceSsrc. destruct (m !! ssrc) eqn:E; [rewrite E; eauto|].
  rewrite lookup_insert_eq. eauto.
Qed.

(** The REMB identifier of a block inside a packet. *)
Lemma load_middle n pre b post off :
  in_bounds n b off -> load n (pre ++ b ++ post) (Z.of_nat (length pre) + off) = load n b off.
Proof. intros H. unfold load. rewrite read_at_middle by exact H. reflexivity. Qed.

Lemma isREMB_middle pre b post :
  (16 <= length b)%nat ->
  RtcpHeader.isREMB (pre ++ b ++ post) (Z.of_nat (length pre)) = RtcpHeader.isREMB b 0.
Proof.
  intros H. unfold RtcpHeader.isREMB. change (bf_off RtcpHeader.uniqueid) with 12.
  cbn [RtcpHeader.strncmp_eq RtcpHeader.REMB_bytes]. rewrite <- !Z.add_assoc.
  rewrite !load_middle by (unfold in_bounds; lia). reflexivity.
Qed.

Lemma isREMB_is_Some b : (16 <= length b)%nat -> is_Some (RtcpHeader.isREMB b 0).
Proof.
  intros H. unfold RtcpHeader.isREMB. change (bf_off RtcpHeader.uniqueid) with 12.
  cbn [RtcpHeader.strncmp_eq RtcpHeader.REMB_bytes].
  repeat (match goal with |- context [load 1 b ?o] =>
      let v := fresh "v" in destruct (load_is_Some 1 b o) as [v ->]; [unfold in_bounds; lia|] end;
    cbn [option_bind mbind];
    match goal with |- context [if ?c then _ else _] => destruct c end).
  all: eauto.
Qed.

Section compound.
Context {A : Type} (block : list Z -> Z -> A -> option (list Z * A)).

(** The [do]-[while] over [movingBuf]; [block] is the loop's body behind the length. *)
Fixpoint compound_loop (fuel : nat) (buf : list Z) (movingBuf totalLength len : Z) (a : A)
    : option (list Z * A) :=
  match fuel with
  | O => None
  | S fuel =>
    l ← get_bf RtcpHeader.length buf movingBuf;
    let rtcpLength := (ntohs l + 1) * 4 in
    let totalLength := totalLength + rtcpLength in
    '(buf, a) ← block buf movingBuf a;
    if totalLength <? len
    then compound_loop fuel buf (movingBuf + rtcpLength) totalLength len a
    else Some (buf, a)
  end.

Definition compound (buf : list Z) (len : Z) (a : A) : option (list Z * A) :=
  compound_loop (S (Z.to_nat len)) buf 0 0 len a.

(** Every round takes four bytes at least, so more fuel changes nothing. *)
Lemma compound_fuel fuel extra buf movingBuf totalLength len a :
  (Z.to_nat (len - totalLength) < fuel)%nat ->
  compound_loop (fuel + extra) buf movingBuf totalLength len a =
  compound_loop fuel buf movingBuf totalLength len a.
Proof.
  revert buf movingBuf totalLength a. induction fuel as [|fuel IH]; intros buf mb tl a Hf; [lia|].
  cbn [Nat.add compound_loop]. destruct (get_bf RtcpHeader.length buf mb) as [l|] eqn:El; [|reflexivity].
  cbn [option_bind mbind]. destruct (block buf mb a) as [[buf' a']|]; [|reflexivity].
  cbn [option_bind mbind]. destruct (Z.ltb_spec (tl + (ntohs l + 1) * 4) len); [|reflexivity].
  apply IH. pose proof (bswap_bound 2 l). lia.
Qed.

(** One after the other over separate blocks. *)
Fixpoint run_blocks (bs : list (list Z)) (a : A) : option (list (list Z) * A) :=
  match bs with
  | [] => Some ([], a)
  | b :: bs =>
      '(b, a) ← block b 0 a;
      '(bs, a) ← run_blocks bs a;
      Some (b :: bs, a)
  end.

(** A block that says how long it is. *)
Definition framed (b : list Z) : Prop :=
  exists l, get_bf RtcpHeader.length b 0 = Some l /\ Z.of_nat (length b) = (ntohs l + 1) * 4.

(** On the blocks of [ok], the handler looks at and changes the bytes of its own block
    only, and not their number. *)
Class block_local (ok : list Z -> Prop) : Prop := {
  bl_frame pre b post a : ok b ->
    block (pre ++ b ++ post) (Z.of_nat (length pre)) a =
    '(b', a') ← block b 0 a; Some (pre ++ b' ++ post, a');
  bl_length b a b' a' : ok b -> block b 0 a = Some (b', a') -> length b' = length b
}.

(** Blocks are not empty, so there are no more of them than bytes. *)
Lemma framed_count P bs :
  Forall (fun b => framed b /\ P b) bs ->
  (length bs <= S (Z.to_nat (Z.of_nat (length (concat bs)))))%nat.
Proof.
  intros H. assert (length bs <= length (concat bs))%nat; [|lia].
  induction H as [|b bs [(l & _ & Hl) _] _ IH]; [done|]. cbn [concat length]. rewrite length_app.
  pose proof (bswap_bound 2 l). lia.
Qed.

Lemma framed_in_context pre b post l :
  get_bf RtcpHeader.length b 0 = Some l ->
  get_bf RtcpHeader.length (pre ++ b ++ post) (Z.of_nat (length pre)) = Some l.
Proof.
  intros H. rewrite <- H. apply get_bf_middle. exact (get_bf_inv _ _ _ _ H).
Qed.

Lemma compound_loop_blocks ok `{!block_local ok} bs : forall fuel pre total len a,
  bs <> [] -> Forall (fun b => framed b /\ ok b) bs -> (length bs <= fuel)%nat ->
  total = Z.of_nat (length pre) -> len = Z.of_nat (length (pre ++ concat bs)) ->
  compound_loop fuel (pre ++ concat bs) (Z.of_nat (length pre)) total len a =
    '(bs', a') ← run_blocks bs a; Some (pre ++ concat bs', a').
Proof.
  induction bs as [|b bs IH]; intros fuel pre total len a Hne Hall Hf -> ->; [done|].
  apply Forall_cons in Hall as [[(l & El & Hl) Hok] Hall].
  destruct fuel as [|fuel]; [simpl in Hf; lia|]. cbn [concat compound_loop run_blocks].
  rewrite (framed_in_context _ _ _ _ El). cbn [option_bind mbind]. rewrite (bl_frame _ _ _ _ Hok).
  destruct (block b 0 a) as [[b' a']|] eqn:Eb; [|reflexivity]. cbn [option_bind mbind].
  pose proof (bl_length _ _ _ _ Hok Eb) as Hb'. rewrite !length_app.
  destruct bs as [|c bs].
  - cbn [concat length run_blocks]. rewrite (proj2 (Z.ltb_ge _ _)) by lia. reflexivity.
  - assert (Hc : (0 < length c)%nat).
    { apply Forall_cons in Hall as [[(l' & El' & Hl') _] _]. pose proof (bswap_bound 2 l'). lia. }
    rewrite (proj2 (Z.ltb_lt _ _)) by (cbn [concat]; rewrite length_app; lia).
    assert (E : Z.of_nat (length pre) + (ntohs l + 1) * 4 = Z.of_nat (length (pre ++ b')))
      by (rewrite length_app; lia).
    rewrite E, app_assoc. rewrite (IH fuel (pre ++ b')); try done; [|simpl in *; lia|].
    + destruct (run_blocks (c :: bs) a') as [[bs' a'']|]; [|reflexivity].
      cbn [option_bind mbind concat]. rewrite app_assoc. reflexivity.
    + rewrite !length_app. lia.
Qed.

Lemma compound_blocks ok `{!block_local ok} bs a :
  bs <> [] -> Forall (fun b => framed b /\ ok b) bs ->
  compound (concat bs) (Z.of_nat (length (concat bs))) a =
    '(bs', a') ← run_blocks bs a; Some (concat bs', a').
Proof.
  intros Hne Hall. unfold compound. apply (compound_loop_blocks ok bs _ []); try done.
  apply (framed_count ok). assumption.
Qed.
End compound.

(** ** The appended packets on the wire *)

Definition be32 (x : Z) : list Z := rev (le_bytes 4 x).

Lemma le_bytes_htonl x : le_bytes 4 (htonl x) = be32 x.
Proof. apply le_bytes_bswap. Qed.

(** The first word: version 2, no padding, the count or format, the type and the length. *)
Lemma first_word h count pt l :
  bytes_ok h -> get_bf RtcpHeader.blockcount h 0 = Some count ->
  get_bf RtcpHeader.padding h 0 = Some 0 -> get_bf RtcpHeader.version h 0 = Some 2 ->
  get_bf RtcpHeader.packettype h 0 = Some pt -> get_bf RtcpHeader.length h 0 = Some l ->
  read_at 4 h 0 = Some (le_bytes 4 (count + 128 + pt * 256 + l * 65536)).
Proof.
  intros Hok Hc Hp Hv Ht Hl. unfold get_bf in *. cbn [bf_off bf_shift bf_width RtcpHeader.blockcount
    RtcpHeader.padding RtcpHeader.version RtcpHeader.packettype RtcpHeader.length] in *.
  change (0 + 0) with 0 in *. apply bind_Some in Hc as (w & Hw & Hc). rewrite Hw in *. cbn [option_bind mbind] in *.
  rewrite (load_bytes _ _ _ _ Hok Hw). do 2 f_equal.
  pose proof (load_bound _ _ _ _ Hok Hw) as Hb. change (256 ^ Z.of_nat 4) with (2 ^ 32) in Hb.
  rewrite !extract_div in * by lia. simplify_eq.
  rewrite Z.pow_0_r, Z.div_1_r in *. change (2 ^ 1) with 2 in *. change (2 ^ 2) with 4 in *.
  change (2 ^ 5) with 32 in *. change (2 ^ 6) with 64 in *. change (2 ^ 8) with 256 in *.
  change (2 ^ 16) with 65536 in *. change (2 ^ 32) with 4294967296 in *.
  Z.to_euclidean_division_equations. lia.
Qed.

Lemma be_word f h v :
  bytes_ok h -> bf_shift f = 0 -> bf_width f = 32 ->
  get_bf f h 0 = Some (wrap (bf_width f) (htonl v)) ->
  read_at 4 h (bf_off f) = Some (be32 v).
Proof.
  intros Hok Hs Hw H. rewrite Hw, (wrap_small 32) in H by apply htonl_width.
  rewrite <- le_bytes_htonl. exact (word_bytes f h 0 _ Hok Hs Hw H).
Qed.

(** The blocks of the two packets: every byte, whatever the header held before. *)
Definition remb_block (e : ssrcs) (line : Z) : list Z :=
  [0x8F; 206; 0; 5] ++ be32 (videoSinkSSRC_ e) ++ be32 (videoSourceSSRC_ e) ++
  RtcpHeader.REMB_bytes ++ 1 :: rev (le_bytes 3 line) ++ be32 (videoSourceSSRC_ e).
Definition nack_block (seqNum blp sourceSsrc sinkSsrc : Z) : list Z :=
  [0x81; 205; 0; 3] ++ be32 sinkSsrc ++ be32 sourceSsrc ++
  rev (le_bytes 2 seqNum) ++ le_bytes 2 blp.

(** The [memcpy] of the identifier is a store into the member [uniqueid]. *)
Lemma write_REMB h :
  length h = RtcpHeader.size -> bytes_ok h ->
  write_at h (bf_off RtcpHeader.uniqueid) RtcpHeader.REMB_bytes =
  set_bf RtcpHeader.uniqueid (le_val RtcpHeader.REMB_bytes) h 0.
Proof.
  intros Hl Hok. unfold set_bf. change (0 + bf_off RtcpHeader.uniqueid) with 12.
  destruct (load_is_Some 4 h 12) as [w Hw]; [unfold in_bounds; rewrite Hl; vm_compute; intuition congruence|].
  rewrite Hw. cbn [option_bind mbind]. unfold store. f_equal.
  pose proof (load_bound _ _ _ _ Hok Hw) as Hb.
  assert (E : insert_bits (bf_shift RtcpHeader.uniqueid) (bf_width RtcpHeader.uniqueid)
                (le_val RtcpHeader.REMB_bytes) w = le_val RtcpHeader.REMB_bytes).
  { unfold insert_bits. change (Z.shiftl (Z.ones (bf_width RtcpHeader.uniqueid)) (bf_shift RtcpHeader.uniqueid))
      with (Z.ones 32).
    rewrite Z.ldiff_ones_r_low; [reflexivity|lia|].
    destruct (Z.eq_dec w 0) as [->|]; [reflexivity|]. apply Z.log2_lt_pow2; lia. }
  rewrite E. reflexivity.
Qed.

Lemma nack_header_spec mem seqNum blp sourceSsrc sinkSsrc :
  length mem = RtcpHeader.size -> bytes_ok mem -> in_width 16 blp ->
  exists h, nack_header mem seqNum blp sourceSsrc sinkSsrc = Some h /\
    RtcpHeader.getLength h 0 = Some 3 /\ length h = RtcpHeader.size /\
    read_at 16 h 0 = Some (nack_block seqNum blp sourceSsrc sinkSsrc).
Proof.
  intros Hl Hok Hb. change RtcpHeader.size with 56%nat in *.
  unfold nack_header, RtcpHeader.RtcpHeader_ctor, RtcpHeader.setPacketType, RtcpHeader.setBlockCount,
    RtcpHeader.setNackPid, RtcpHeader.setNackBlp, RtcpHeader.setSSRC, RtcpHeader.setSourceSSRC,
    RtcpHeader.setLength.
  repeat set_field. eexists. split; [reflexivity|].
  split; [unfold RtcpHeader.getLength; rewrite H5; reflexivity|]. split; [assumption|].
  change (bf_width RtcpHeader.blockcount) with 5 in H4. change (bf_width RtcpHeader.length) with 16 in H5.
  apply (read_at_join 4 12 _ 0 _ _ 4); [rewrite (first_word _ _ _ _ H8 H4 H0 H H1 H5); reflexivity|reflexivity|].
  apply (read_at_join 4 8 _ 4 _ _ 8); [|reflexivity|apply (read_at_join 4 4 _ 8 _ _ 12); [|reflexivity|]].
  - exact (be_word RtcpHeader.ssrc _ _ H8 eq_refl eq_refl H3).
  - exact (be_word RtcpHeader.ssrcsource _ _ H8 eq_refl eq_refl H6).
  - change 12 with (0 + bf_off RtcpHeader.pid).
    rewrite (two_fields_bytes RtcpHeader.pid RtcpHeader.blp _ 0 _ _ 16 H8 eq_refl eq_refl eq_refl
      eq_refl eq_refl ltac:(lia) H2 H7).
    change (bf_width RtcpHeader.pid) with 16. change (bf_width RtcpHeader.blp) with 16.
    rewrite !wrap_small by (try assumption; apply htons_width).
    f_equal. rewrite <- le_bytes_bswap. apply (le_bytes_join 2 2). apply htons_width.
Qed.

Lemma remb_header_spec e mem bitrate :
  length mem = RtcpHeader.size -> bytes_ok mem -> 0 <= bitrate < 2 ^ 32 ->
  exists h line, remb_header e mem bitrate = Some h /\ RtcpHeader.remb_line bitrate = Some line /\
    RtcpHeader.getLength h 0 = Some 5 /\ length h = RtcpHeader.size /\
    read_at 24 h 0 = Some (remb_block e line).
Proof.
  intros Hl Hok Hb. destruct (remb_line_spec bitrate) as (x & Hx & _ & Hm & El); [unfold remb_limit; lia|].
  set (line := Z.shiftr bitrate x + x * 2 ^ 18) in *.
  assert (Hline : in_width 24 line) by (unfold in_width, line; lia).
  change RtcpHeader.size with 56%nat in *.
  unfold remb_header, RtcpHeader.RtcpHeader_ctor, RtcpHeader.setPacketType, RtcpHeader.setBlockCount,
    RtcpHeader.setREMBBitRate, RtcpHeader.setREMBNumSSRC, RtcpHeader.setREMBFeedSSRC,
    RtcpHeader.setSSRC, RtcpHeader.setSourceSSRC, RtcpHeader.setLength.
  rewrite El. cbn [option_bind mbind]. clearbody line.
  repeat set_field. rewrite write_REMB by assumption. repeat set_field.
  eexists _, line. split; [reflexivity|]. split; [reflexivity|].
  split; [unfold RtcpHeader.getLength; rewrite H8; reflexivity|]. split; [assumption|].
  change (bf_width RtcpHeader.blockcount) with 5 in H1. change (bf_width RtcpHeader.length) with 16 in H8.
  apply (read_at_join 4 20 _ 0 _ _ 4); [rewrite (first_word _ _ _ _ H11 H1 H0 H H2 H8); reflexivity|reflexivity|].
  apply (read_at_join 4 16 _ 4 _ _ 8); [|reflexivity|].
  { exact (be_word RtcpHeader.ssrc _ _ H11 eq_refl eq_refl H3). }
  apply (read_at_join 4 12 _ 8 _ _ 12); [|reflexivity|].
  { exact (be_word RtcpHeader.ssrcsource _ _ H11 eq_refl eq_refl H5). }
  apply (read_at_join 4 8 _ 12 _ _ 16); [|reflexivity|].
  { exact (word_bytes RtcpHeader.uniqueid _ 0 _ H11 eq_refl eq_refl H6). }
  apply (read_at_join 4 4 _ 16 (1 :: rev (le_bytes 3 line)) _ 20); [|reflexivity|].
  2:{ exact (be_word RtcpHeader.ssrcfeedb _ _ H11 eq_refl eq_refl H7). }
  change 16 with (0 + bf_off RtcpHeader.numssrc).
  rewrite (two_fields_bytes RtcpHeader.numssrc RtcpHeader.brLength _ 0 _ _ 8 H11 eq_refl eq_refl eq_refl
    eq_refl eq_refl ltac:(lia) H9 H4).
  f_equal. change (bf_width RtcpHeader.numssrc) with 8. change (bf_width RtcpHeader.brLength) with 24.
  rewrite (wrap_small 24) by apply swap24_width. rewrite (shiftr_bswap 3).
  rewrite <- le_bytes_bswap. apply (le_bytes_join 1 3 1). vm_compute. intuition congruence.
Qed.

Lemma append_header_spec h buf len l bytes n :
  RtcpHeader.getLength h 0 = Some l -> n = Z.to_nat ((l + 1) * 4) -> 0 <= l ->
  read_at n h 0 = Some bytes -> in_bounds n buf len ->
  append_header h buf len =
    Some (take (Z.to_nat len) buf ++ bytes ++ drop (Z.to_nat len + n) buf, len + Z.of_nat n).
Proof.
  intros Hl -> H0 Hr Hb. unfold append_header. rewrite Hl. cbn [option_bind mbind].
  rewrite Hr. cbn [option_bind mbind]. pose proof (read_at_length _ _ _ _ Hr) as Hlen.
  rewrite write_at_Some by (rewrite Hlen; exact Hb). cbn [option_bind mbind].
  rewrite Hlen. do 2 f_equal. lia.
Qed.

Lemma addREMB_spec e mem buf len bitrate :
  length mem = RtcpHeader.size -> bytes_ok mem -> 0 <= bitrate < 2 ^ 32 ->
  0 <= len -> len + 24 <= Z.of_nat (length buf) ->
  exists line, RtcpHeader.remb_line bitrate = Some line /\
    addREMB e mem buf len bitrate =
      Some (take (Z.to_nat len) buf ++ remb_block e line ++ drop (Z.to_nat len + 24) buf, len + 24).
Proof.
  intros Hl Hok Hr Hp Hbuf.
  destruct (remb_header_spec e mem bitrate Hl Hok Hr) as (h & line & E & El & Hlen & _ & Hrd).
  exists line. split; [exact El|]. unfold addREMB. rewrite E. cbn [option_bind mbind].
  apply (append_header_spec _ _ _ _ _ 24 Hlen); [reflexivity|lia|exact Hrd|unfold in_bounds; lia].
Qed.

Lemma addNACK_spec mem buf len seqNum blp src sink :
  length mem = RtcpHeader.size -> bytes_ok mem -> in_width 16 blp ->
  0 <= len -> len + 16 <= Z.of_nat (length buf) ->
  addNACK mem buf len seqNum blp src sink =
    Some (take (Z.to_nat len) buf ++ nack_block seqNum blp src sink ++ drop (Z.to_nat len + 16) buf,
          len + 16).
Proof.
  intros Hl Hok Hb Hp Hbuf.
  destruct (nack_header_spec mem seqNum blp src sink Hl Hok Hb) as (h & E & Hlen & _ & Hrd).
  unfold addNACK. rewrite E. cbn [option_bind mbind].
  apply (append_header_spec _ _ _ _ _ 16 Hlen); [reflexivity|lia|exact Hrd|unfold in_bounds; lia].
Qed.

(** The packets a processor appends are well-formed and independent of the uninitialised
    rest of the local header they are built in: [addREMB] writes the 24 bytes of a REMB
    with the identifier, one SSRC and the mantissa and exponent word of the rate,
    [addNACK] the 16 bytes of a generic NACK - with the bitmask in little-endian byte
    order, because [setNackBlp] does not convert it - and nothing else in the buffer
    changes. *)
Theorem appended_packets (e : ssrcs) (mem buf : list Z) (len bitrate seqNum blp src sink : Z) :
  length mem = RtcpHeader.size -> bytes_ok mem -> 0 <= bitrate < 2 ^ 32 -> in_width 16 blp ->
  0 <= len -> len + 24 <= Z.of_nat (length buf) ->
  (exists line, RtcpHeader.remb_line bitrate = Some line /\
     addREMB e mem buf len bitrate =
       Some (take (Z.to_nat len) buf ++ remb_block e line ++ drop (Z.to_nat len + 24) buf, len + 24)) /\
  addNACK mem buf len seqNum blp src sink =
    Some (take (Z.to_nat len) buf ++ nack_block seqNum blp src sink ++ drop (Z.to_nat len + 16) buf,
          len + 16).
Proof.
  intros Hl Hok Hr Hb Hp Hbuf. split; [apply addREMB_spec | apply addNACK_spec]; try assumption; lia.
Qed.

Lemma appended_packets_witness :
  addNACK (replicate 56 255) (replicate 16 0) 0 7 0x0100 5 9 =
    Some ([0x81; 205; 0; 3] ++ [0; 0; 0; 9] ++ [0; 0; 0; 5] ++ [0; 7; 0; 1], 16) /\
  addNACK (replicate 56 255) (replicate 32 0) 4 7 0x0100 5 9 =
    Some (take 4 (replicate 32 0) ++ nack_block 7 0x0100 5 9 ++ drop 20 (replicate 32 0), 20).
Proof.
  split; [vm_compute; reflexivity|].
  refine (proj2 (appended_packets {| videoSinkSSRC_ := 9; audioSinkSSRC_ := 0; videoSourceSSRC_ := 5;
    audioSourceSSRC_ := 0 |} (replicate 56 255) (replicate 32 0) 4 1000 7 0x0100 5 9 _ _ _ _ _ _)).
  - reflexivity.
  - apply Forall_replicate. unfold byte_ok. lia.
  - lia.
  - unfold in_width. lia.
  - lia.
  - simpl. lia.
Defined.

(** ** Sender reports *)

Lemma tail_length {A} (l : list A) : length (tail l) = (length l - 1)%nat.
Proof. destruct l; simpl; lia. Qed.

Lemma keep_twenty {A} (l : list A) (x : A) :
  (length l <= 20)%nat ->
  let r := if (20 <? length (l ++ [x]))%nat then tail (l ++ [x]) else l ++ [x] in
  (length r <= 20)%nat /\ last r = Some x.
Proof.
  intros Hl r. assert (Hr : length (l ++ [x]) = S (length l)) by (rewrite length_app; simpl; lia).
  unfold r. clear r. destruct (Nat.ltb_spec 20 (length (l ++ [x]))).
  - rewrite tail_length. split; [lia|]. destruct l as [|y l]; [simpl in *; lia|].
    cbn [app tail]. apply last_snoc.
  - split; [lia | apply last_snoc].
Qed.

(** A sender report is recorded behind the earlier ones of its source under the middle 32
    bits of its NTP timestamp, creating the source when it is new; no source ever keeps
    more than twenty, and no other source changes. *)
Theorem sender_reports (e : ssrcs) (mem : RtcpData) (now : timeval) (buf : list Z) (chead : Z)
    (m : source_map) :
  in_bounds 20 buf chead ->
  map_Forall (fun _ d => length (senderReports d) <= 20)%nat m ->
  exists m' ssrc ntp d,
    analyzeSr e mem now buf chead m = Some m' /\
    RtcpHeader.getSSRC buf chead = Some ssrc /\ RtcpHeader.getNtpTimestamp buf chead = Some ntp /\
    map_Forall (fun _ d => length (senderReports d) <= 20)%nat m' /\
    m' !! ssrc = Some d /\
    last (senderReports d) = Some {| srNtp := ntp / 2 ^ 16 mod 2 ^ 32; timestamp := now |} /\
    (forall s, s <> ssrc -> m' !! s = m !! s).
Proof.
  intros [B1 B2] Hm. unfold analyzeSr, RtcpHeader.getSSRC, RtcpHeader.getNtpTimestamp.
  destruct (get_bf_is_Some RtcpHeader.ssrc buf chead) as [s ->]; [unfold in_bounds; simpl; lia|].
  destruct (get_bf_is_Some RtcpHeader.ntptimestamp_lo buf chead) as [lo ->]; [unfold in_bounds; simpl; lia|].
  destruct (get_bf_is_Some RtcpHeader.ntptimestamp_hi buf chead) as [hi ->]; [unfold in_bounds; simpl; lia|].
  cbn [fmap option_fmap option_map option_bind mbind].
  set (ntp := u64 _). set (m1 := addSourceSsrc e mem (ntohl s) m).
  destruct (addSourceSsrc_is_Some e mem (ntohl s) m) as [d0 Ed]. fold m1 in Ed. rewrite Ed.
  assert (Hm1 : map_Forall (fun _ d => length (senderReports d) <= 20)%nat m1).
  { unfold m1, addSourceSsrc. destruct (m !! ntohl s); [assumption|].
    apply map_Forall_insert_2; [simpl; lia | assumption]. }
  pose proof (Hm1 _ _ Ed) as Hd0. cbn [option_bind mbind].
  assert (E : u32 (Z.shiftr (Z.land ntp 0xFFFFFFFF0000) 16) = ntp / 2 ^ 16 mod 2 ^ 32).
  { rewrite Z.shiftr_land. change (Z.shiftr 0xFFFFFFFF0000 16) with (Z.ones 32).
    rewrite Z.land_ones, Z.shiftr_div_pow2 by lia. apply Z.mod_mod. lia. }
  rewrite E. set (r := _ ++ [_]).
  destruct (keep_twenty (senderReports d0) {| srNtp := ntp / 2 ^ 16 mod 2 ^ 32; timestamp := now |} Hd0)
    as [Hr1 Hr2]. fold r in Hr1, Hr2. set (r' := if (20 <? length r)%nat then _ else _) in *. clearbody r'.
  do 4 eexists. split; [reflexivity|]. split; [reflexivity|]. split; [reflexivity|].
  split; [|split; [apply lookup_insert_eq|split]].
  - apply map_Forall_insert_2; assumption.
  - exact Hr2.
  - intros s' Hs'. rewrite lookup_insert_ne by congruence. unfold m1, addSourceSsrc.
    destruct (m !! ntohl s); [reflexivity|]. apply lookup_insert_ne. congruence.
Qed.

Lemma sender_reports_witness :
  let sr := [0x80; 200; 0; 6; 0; 0; 0; 5; 1; 2; 3; 4; 5; 6; 7; 8] ++ replicate 12 0 in
  exists m' d,
    analyzeSr {| videoSinkSSRC_ := 1; audioSinkSSRC_ := 2; videoSourceSSRC_ := 5; audioSourceSSRC_ := 6 |}
      RtcpData_zero {| tv_sec := 9; tv_usec := 0 |} sr 0 ∅ = Some m' /\ m' !! 5 = Some d /\
    last (senderReports d) = Some {| srNtp := 0x03040506; timestamp := {| tv_sec := 9; tv_usec := 0 |} |}.
Proof.
  intros sr.
  destruct (sender_reports {| videoSinkSSRC_ := 1; audioSinkSSRC_ := 2; videoSourceSSRC_ := 5;
    audioSourceSSRC_ := 6 |} RtcpData_zero {| tv_sec := 9; tv_usec := 0 |} sr 0 ∅)
    as (m' & ssrc & ntp & d & E & Es & En & _ & Hd & Hl & _).
  - unfold in_bounds. simpl. lia.
  - apply map_Forall_empty.
  - vm_compute in Es. injection Es as <-. vm_compute in En. injection En as <-.
    exists m', d. split; [exact E|]. split; [exact Hd|]. exact Hl.
Defined.
