(* ===== verification/RtcpForwarder.v ===== *)
(** * RtcpForwarder: feedback passed on to the publisher (src/Src/media/rtp/RtcpForwarder.cpp)

    The forwarder rewrites a compound feedback packet in place: receiver reports get the
    SSRC of its own sink, REMB announcements are capped.  The compound loop and the
    source bookkeeping are those of [Rtcp].

    The theorems: on a sequence of well-formed blocks exactly the sender SSRC of the
    receiver reports and the bit rate of the REMBs change, and no REMB leaves with more
    than the configured maximum; the maximum is not initialised by the constructor. *)

From S2P Require Import Prelude Bytes RtpHeaders Rtcp.

Record RtcpForwarder := {
  rtcpData_ : source_map;
  maxVideoBw_ : Z;
  defaultVideoBw_ : Z;
  packet_ : list Z
}.

#[export] Instance eta_RtcpForwarder : Eta RtcpForwarder := fun f =>
  {| rtcpData_ := rtcpData_ f; maxVideoBw_ := maxVideoBw_ f; defaultVideoBw_ := defaultVideoBw_ f;
     packet_ := packet_ f |}.

(** The base constructor is given [maxVideoBw] and drops it: the member stays as in [mem]. *)
Definition RtcpForwarder_ctor (mem : RtcpForwarder) (maxVideoBw : Z) : RtcpForwarder :=
  mem <| rtcpData_ := ∅ |> <| defaultVideoBw_ := Z.quot maxVideoBw 2 |>.

Definition setMaxVideoBW (bandwidth : Z) (f : RtcpForwarder) : RtcpForwarder :=
  f <| maxVideoBw_ := bandwidth |>.

Definition setPublisherBW (bandwidth : Z) (f : RtcpForwarder) : RtcpForwarder := f.

Definition forwarder_addSourceSsrc (e : ssrcs) (mem : RtcpData) (ssrc : Z) (f : RtcpForwarder)
    : RtcpForwarder :=
  f <| rtcpData_ ::= addSourceSsrc e mem ssrc |>.

Definition forwarder_analyzeSr (e : ssrcs) (mem : RtcpData) (now : timeval) (buf : list Z)
    (chead : Z) (f : RtcpForwarder) : option RtcpForwarder :=
  m ← analyzeSr e mem now buf chead (rtcpData_ f);
  Some (f <| rtcpData_ := m |>).

(** The [switch] of [analyzeFeedback]. *)
Definition forward_block (e : ssrcs) (maxVideoBw : Z) (buf : list Z) (chead : Z) (u : unit)
    : option (list Z * unit) :=
  packettype ← RtcpHeader.getPacketType buf chead;
  if packettype =? RTCP_Receiver_PT then
    source ← RtcpHeader.getSourceSSRC buf chead;
    buf ← RtcpHeader.setSSRC
      (if source =? videoSourceSSRC_ e then videoSinkSSRC_ e else audioSinkSSRC_ e) buf chead;
    Some (buf, u)
  else if packettype =? RTCP_PS_Feedback_PT then
    fmt ← RtcpHeader.getBlockCount buf chead;
    if fmt =? RTCP_AFB then
      remb ← RtcpHeader.isREMB buf chead;
      if remb : bool then
        bitrate ← RtcpHeader.remb_bitrate buf chead;
        let cappedBitrate := if bitrate <? maxVideoBw then bitrate else maxVideoBw in
        buf ← RtcpHeader.setREMBBitRate cappedBitrate buf chead;
        Some (buf, u)
      else Some (buf, u)
    else Some (buf, u)
  else Some (buf, u).

(** Returns the length that is passed on, 0 when the packet is dropped. *)
Definition analyzeFeedback (e : ssrcs) (mem : RtcpData) (buf : list Z) (len : Z) (f : RtcpForwarder)
    : option (Z * list Z * RtcpForwarder) :=
  fb ← RtcpHeader.isFeedback buf 0;
  if negb fb then Some (0, buf, f) else
  ignore ← empty_report buf len;
  if ignore : bool then Some (0, buf, f) else
  sourceSsrc ← RtcpHeader.getSourceSSRC buf 0;
  let f := forwarder_addSourceSsrc e mem sourceSsrc f in
  '(buf, _) ← compound (forward_block e (maxVideoBw_ f)) buf len tt;
  Some (len, buf, f).

Definition checkRtcpFb (f : RtcpForwarder) : RtcpForwarder := f.

(** ** One block *)

(** The members the handler reads are inside the block. *)
Definition forward_ok (b : list Z) : Prop :=
  (4 <= length b)%nat /\
  (RtcpHeader.getPacketType b 0 = Some RTCP_Receiver_PT -> 12 <= length b)%nat /\
  (RtcpHeader.getPacketType b 0 = Some RTCP_PS_Feedback_PT ->
   RtcpHeader.getBlockCount b 0 = Some RTCP_AFB -> 20 <= length b)%nat.

(** Rewrites the accesses to a block inside a packet into accesses to the block. *)
Ltac in_block :=
  repeat first
    [ rewrite get_bf_middle by (unfold in_bounds; simpl; lia)
    | rewrite set_bf_middle by (unfold in_bounds; simpl; lia) ].

Lemma forward_block_middle e maxBw pre b post u :
  forward_ok b ->
  forward_block e maxBw (pre ++ b ++ post) (Z.of_nat (length pre)) u =
    '(b', u') ← forward_block e maxBw b 0 u; Some (pre ++ b' ++ post, u').
Proof.
  intros (H4 & Hrr & Hps). unfold forward_block, RtcpHeader.getPacketType, RtcpHeader.getBlockCount in *.
  in_block. destruct (get_bf RtcpHeader.packettype b 0) as [pt|]; [|reflexivity]. cbn [option_bind mbind].
  destruct (Z.eqb_spec pt RTCP_Receiver_PT) as [->|_].
  { specialize (Hrr eq_refl). unfold RtcpHeader.getSourceSSRC, RtcpHeader.setSSRC. in_block.
    destruct (get_bf RtcpHeader.ssrcsource b 0) as [s|]; [|reflexivity].
    cbn [fmap option_fmap option_map option_bind mbind]. in_block.
    destruct (set_bf RtcpHeader.ssrc _ b 0); reflexivity. }
  destruct (Z.eqb_spec pt RTCP_PS_Feedback_PT) as [->|_]; [|reflexivity].
  destruct (get_bf RtcpHeader.blockcount b 0) as [bc|]; [|reflexivity]. cbn [option_bind mbind].
  destruct (Z.eqb_spec bc RTCP_AFB) as [->|_]; [|reflexivity].
  specialize (Hps eq_refl eq_refl). rewrite isREMB_middle by lia.
  destruct (RtcpHeader.isREMB b 0) as [[]|]; [|reflexivity..]. cbn [option_bind mbind].
  unfold RtcpHeader.remb_bitrate, RtcpHeader.getBrMantis, RtcpHeader.getBrExp, RtcpHeader.setREMBBitRate.
  in_block. destruct (get_bf RtcpHeader.brLength b 0) as [l|]; [|reflexivity]. cbn [option_bind mbind].
  destruct (_ <=? _); [reflexivity|]. cbn [option_bind mbind].
  destruct (RtcpHeader.remb_line _); [|reflexivity]. cbn [option_bind mbind]. in_block.
  destruct (set_bf RtcpHeader.brLength _ b 0); reflexivity.
Qed.

(** What happened to a block: the effect of the setter that applies. *)
Inductive forwarded (e : ssrcs) (maxBw : Z) (b b' : list Z) : Prop :=
  | fwd_rr source :
      RtcpHeader.getPacketType b 0 = Some RTCP_Receiver_PT ->
      RtcpHeader.getSourceSSRC b 0 = Some source ->
      RtcpHeader.setSSRC (if source =? videoSourceSSRC_ e then videoSinkSSRC_ e else audioSinkSSRC_ e)
        b 0 = Some b' -> forwarded e maxBw b b'
  | fwd_remb bitrate :
      RtcpHeader.getPacketType b 0 = Some RTCP_PS_Feedback_PT ->
      RtcpHeader.isREMB b 0 = Some true -> RtcpHeader.remb_bitrate b 0 = Some bitrate ->
      RtcpHeader.setREMBBitRate (Z.min bitrate maxBw) b 0 = Some b' -> forwarded e maxBw b b'
  | fwd_same :
      RtcpHeader.getPacketType b 0 <> Some RTCP_Receiver_PT ->
      (RtcpHeader.getPacketType b 0 = Some RTCP_PS_Feedback_PT ->
       RtcpHeader.getBlockCount b 0 = Some RTCP_AFB -> RtcpHeader.isREMB b 0 = Some false) ->
      b' = b -> forwarded e maxBw b b'.

Lemma forward_block_inv e maxBw b u b' u' :
  forward_block e maxBw b 0 u = Some (b', u') -> forwarded e maxBw b b' /\ length b' = length b.
Proof.
  unfold forward_block. intros H. apply bind_Some in H as (pt & Ept & H).
  destruct (Z.eqb_spec pt RTCP_Receiver_PT) as [->|Hrr].
  { apply bind_Some in H as (s & Es & H). apply bind_Some in H as (b1 & Eb & H). simplify_eq.
    split; [eapply fwd_rr; eassumption | eauto using set_bf_length]. }
  destruct (Z.eqb_spec pt RTCP_PS_Feedback_PT) as [->|Hps].
  2:{ simplify_eq. split; [|reflexivity]. apply fwd_same; [congruence..|reflexivity]. }
  apply bind_Some in H as (bc & Ebc & H).
  destruct (Z.eqb_spec bc RTCP_AFB) as [->|Hafb].
  2:{ simplify_eq. split; [|reflexivity]. apply fwd_same; [congruence..|reflexivity]. }
  apply bind_Some in H as ([] & Er & H).
  - apply bind_Some in H as (r & Ebr & H). apply bind_Some in H as (b1 & Eb & H). simplify_eq.
    replace (if r <? maxBw then r else maxBw) with (Z.min r maxBw) in Eb
      by (destruct (Z.ltb_spec r maxBw); lia).
    split; [eapply fwd_remb; eassumption|]. unfold RtcpHeader.setREMBBitRate in Eb.
    apply bind_Some in Eb as (l & _ & Eb). eauto using set_bf_length.
  - simplify_eq. split; [|reflexivity]. apply fwd_same; congruence.
Qed.

#[export] Instance forward_block_local e maxBw : block_local (forward_block e maxBw) forward_ok.
Proof.
  split.
  - intros. apply forward_block_middle. assumption.
  - intros b u b' u' _ H. eapply forward_block_inv. exact H.
Qed.

(** A block on which the handler is defined: in a REMB the exponent is small enough for
    the 32-bit shift. *)
Definition remb_defined (b : list Z) : Prop :=
  bytes_ok b /\
  (RtcpHeader.getPacketType b 0 = Some RTCP_PS_Feedback_PT ->
   RtcpHeader.isREMB b 0 = Some true -> exists x, RtcpHeader.getBrExp b 0 = Some x /\ x < 32).

Ltac known_field f b :=
  let v := fresh "v" in destruct (get_bf_is_Some f b 0) as [v ->];
  [unfold in_bounds; simpl; lia | cbn [fmap option_fmap option_map option_bind mbind]].

Lemma forward_block_defined e maxBw b u :
  forward_ok b -> remb_defined b -> in_width 32 maxBw -> is_Some (forward_block e maxBw b 0 u).
Proof.
  intros (H4 & Hrr & Hps) [Hok Hx] Hm. unfold forward_block.
  destruct (RtcpHeader.getPacketType b 0) as [pt|] eqn:Ept.
  2:{ apply eq_None_not_Some in Ept. destruct Ept. apply get_bf_is_Some. unfold in_bounds. simpl. lia. }
  cbn [option_bind mbind]. destruct (Z.eqb_spec pt RTCP_Receiver_PT) as [->|_].
  { specialize (Hrr eq_refl). unfold RtcpHeader.getSourceSSRC, RtcpHeader.setSSRC.
    known_field RtcpHeader.ssrcsource b.
    match goal with |- context [set_bf ?f ?v b 0] => destruct (set_bf_is_Some f v b 0) as [b' ->] end;
      [unfold in_bounds; simpl; lia | cbn; eauto]. }
  destruct (Z.eqb_spec pt RTCP_PS_Feedback_PT) as [->|_]; [|eauto].
  destruct (RtcpHeader.getBlockCount b 0) as [bc|] eqn:Ebc.
  2:{ apply eq_None_not_Some in Ebc. destruct Ebc. apply get_bf_is_Some. unfold in_bounds. simpl. lia. }
  cbn [option_bind mbind]. destruct (Z.eqb_spec bc RTCP_AFB) as [->|_]; [|eauto].
  specialize (Hps eq_refl eq_refl).
  destruct (isREMB_is_Some b) as [[] Er]; [lia| |rewrite Er; cbn; eauto].
  destruct (Hx eq_refl Er) as (x & Ex & Hx32). rewrite Er. cbn [option_bind mbind].
  unfold RtcpHeader.remb_bitrate. rewrite Ex.
  destruct (RtcpHeader.getBrMantis b 0) as [m|] eqn:Em.
  2:{ unfold RtcpHeader.getBrMantis, RtcpHeader.getBrExp in *.
      destruct (get_bf RtcpHeader.brLength b 0); done. }
  cbn [option_bind mbind]. rewrite (proj2 (Z.leb_gt _ _)) by assumption. cbn [option_bind mbind].
  set (r := u32 (Z.shiftl m x)). assert (Hr : in_width 32 r) by (apply wrap_bound; lia).
  unfold RtcpHeader.setREMBBitRate, in_width in *.
  destruct (remb_line_small (if r <? maxBw then r else maxBw)) as [l ->];
    [destruct (r <? maxBw); assumption|]. cbn [option_bind mbind].
  match goal with |- context [set_bf ?f ?v b 0] => destruct (set_bf_is_Some f v b 0) as [b' ->] end;
    [unfold in_bounds; simpl; lia | cbn; eauto].
Qed.

Lemma run_forward e maxBw bs :
  in_width 32 maxBw -> Forall (fun b => forward_ok b /\ remb_defined b) bs ->
  exists bs', run_blocks (forward_block e maxBw) bs tt = Some (bs', tt) /\
    Forall2 (forwarded e maxBw) bs bs'.
Proof.
  intros Hm. induction bs as [|b bs IH]; intros Hall; cbn [run_blocks]; [eauto|].
  apply Forall_cons in Hall as [[Hok Hd] Hall].
  destruct (forward_block_defined e maxBw b tt Hok Hd Hm) as [[b' []] Eb]. rewrite Eb.
  cbn [option_bind mbind]. destruct (IH Hall) as (bs' & -> & HF). cbn [option_bind mbind].
  exists (b' :: bs'). split; [reflexivity|]. constructor; [|assumption].
  exact (proj1 (forward_block_inv _ _ _ _ _ _ Eb)).
Qed.

(** A rewritten REMB announces no more than the maximum. *)
Lemma forwarded_capped e maxBw b b' r :
  forwarded e maxBw b b' -> remb_defined b -> in_width 32 maxBw ->
  RtcpHeader.getPacketType b' 0 = Some RTCP_PS_Feedback_PT ->
  RtcpHeader.getBlockCount b' 0 = Some RTCP_AFB ->
  RtcpHeader.isREMB b' 0 = Some true -> RtcpHeader.remb_bitrate b' 0 = Some r -> r <= maxBw.
Proof.
  intros [s Hpt _ Hset | br _ _ Hbr Hset | _ Hafb ->] [Hok _] Hm Hp Hc Hr Hrate.
  - unfold RtcpHeader.getPacketType, RtcpHeader.setSSRC in *.
    assert (E : get_bf RtcpHeader.packettype b' 0 = get_bf RtcpHeader.packettype b 0)
      by (eapply (get_set_other RtcpHeader.ssrc RtcpHeader.packettype);
          [by vm_compute|by vm_compute|exact Hok|apply bf_disjointb_spec; vm_compute; reflexivity|exact Hset]).
    rewrite E, Hpt in Hp. vm_compute in Hp. discriminate.
  - assert (Hw : 0 <= br < 2 ^ 32).
    { unfold RtcpHeader.remb_bitrate in Hbr. bind_inv Hbr. destruct (32 <=? _); simplify_eq.
      apply wrap_bound. lia. }
    unfold in_width in Hm.
    destruct (getBr_setREMBBitRate (Z.min br maxBw) b 0 b') as (x & Hx & Hlo & _ & H1 & H2);
      [unfold remb_limit; lia | assumption | assumption |].
    unfold RtcpHeader.remb_bitrate in Hrate. rewrite H1, H2 in Hrate. cbn [option_bind mbind] in Hrate.
    destruct (32 <=? x); [discriminate|]. injection Hrate as <-.
    rewrite Z.shiftl_mul_pow2, Z.shiftr_div_pow2 by lia.
    assert (0 < 2 ^ x) by (apply Z.pow_pos_nonneg; lia).
    pose proof (Z.mul_div_le (Z.min br maxBw) (2 ^ x)).
    assert (0 <= Z.min br maxBw / 2 ^ x) by (apply Z.div_pos; lia).
    unfold wrap. pose proof (Z.mod_le (Z.min br maxBw / 2 ^ x * 2 ^ x) (2 ^ 32)). lia.
  - specialize (Hafb Hp Hc). congruence.
Qed.

(** C23. Forwarding a compound feedback packet made of well-formed blocks: the call returns the
    whole length; of the blocks, receiver reports get the SSRC of the forwarder's own
    video or audio sink, REMBs get the announced rate or the maximum, whichever is less,
    and every other byte stays as it was; whatever arrived, no REMB that leaves announces
    more than the maximum; and the source the packet is about has a record. *)
Theorem forward_compound (e : ssrcs) (mem : RtcpData) (bs : list (list Z)) (f : RtcpForwarder) :
  in_width 32 (maxVideoBw_ f) ->
  Forall (fun b => framed b /\ forward_ok b /\ remb_defined b) bs ->
  (12 <= length (concat bs))%nat ->
  RtcpHeader.isFeedback (concat bs) 0 = Some true ->
  empty_report (concat bs) (Z.of_nat (length (concat bs))) = Some false ->
  exists bs' f' source,
    analyzeFeedback e mem (concat bs) (Z.of_nat (length (concat bs))) f =
      Some (Z.of_nat (length (concat bs)), concat bs', f') /\
    Forall2 (forwarded e (maxVideoBw_ f)) bs bs' /\
    (forall b' r, b' ∈ bs' -> RtcpHeader.getPacketType b' 0 = Some RTCP_PS_Feedback_PT ->
       RtcpHeader.getBlockCount b' 0 = Some RTCP_AFB ->
       RtcpHeader.isREMB b' 0 = Some true -> RtcpHeader.remb_bitrate b' 0 = Some r ->
       r <= maxVideoBw_ f) /\
    RtcpHeader.getSourceSSRC (concat bs) 0 = Some source /\ is_Some (rtcpData_ f' !! source).
Proof.
  intros Hm Hall H12 Hfb Hne. unfold analyzeFeedback. rewrite Hfb, Hne. cbn [option_bind mbind negb].
  unfold RtcpHeader.getSourceSSRC.
  destruct (get_bf_is_Some RtcpHeader.ssrcsource (concat bs) 0) as [s ->];
    [unfold in_bounds; simpl; lia|]. cbn [fmap option_fmap option_map option_bind mbind].
  set (f' := forwarder_addSourceSsrc e mem (ntohl s) f).
  change (maxVideoBw_ f') with (maxVideoBw_ f).
  assert (Hf : Forall (fun b => framed b /\ forward_ok b) bs)
    by (eapply Forall_impl; [exact Hall | cbn; tauto]).
  destruct (run_forward e (maxVideoBw_ f) bs Hm) as (bs' & Erun & HF);
    [eapply Forall_impl; [exact Hall | cbn; tauto]|].
  rewrite (compound_blocks _ forward_ok); [|intros ->; simpl in H12; lia|exact Hf].
  rewrite Erun. cbn [option_bind mbind].
  exists bs', f', (ntohl s). split; [reflexivity|]. split; [exact HF|]. split.
  - intros b' r Hb'. apply list_elem_of_lookup in Hb' as [i Hi].
    destruct (Forall2_lookup_r _ _ _ _ _ HF Hi) as (b & Hb & Hfw).
    rewrite Forall_lookup in Hall. destruct (Hall _ _ Hb) as (_ & _ & Hrd).
    eauto using forwarded_capped.
  - split; [reflexivity|]. unfold f', forwarder_addSourceSsrc. cbn. apply addSourceSsrc_is_Some.
Qed.

Lemma forward_compound_witness :
  let rr := [0x81; 201; 0; 7] ++ [0; 0; 0; 9] ++ [0; 0; 0; 5] ++ replicate 20 0 in
  let remb := [0x8F; 206; 0; 5] ++ [0; 0; 0; 9] ++ [0; 0; 0; 5] ++ [82; 69; 77; 66] ++
              [1; 0x13; 0xFF; 0xFE] ++ [0; 0; 0; 5] in
  let f := {| rtcpData_ := ∅; maxVideoBw_ := 300000; defaultVideoBw_ := 150000; packet_ := [] |} in
  exists bs' f' source,
    analyzeFeedback {| videoSinkSSRC_ := 1; audioSinkSSRC_ := 2; videoSourceSSRC_ := 5;
                       audioSourceSSRC_ := 6 |} RtcpData_zero (concat [rr; remb]) 56 f = Some (56, concat bs', f') /\
    Forall2 (forwarded {| videoSinkSSRC_ := 1; audioSinkSSRC_ := 2; videoSourceSSRC_ := 5;
                          audioSourceSSRC_ := 6 |} 300000) [rr; remb] bs' /\
    is_Some (rtcpData_ f' !! source).
Proof.
  intros rr remb f.
  destruct (forward_compound {| videoSinkSSRC_ := 1; audioSinkSSRC_ := 2; videoSourceSSRC_ := 5;
                                audioSourceSSRC_ := 6 |} RtcpData_zero [rr; remb] f)
    as (bs' & f' & source & E & HF & _ & _ & Hs).
  - vm_compute. split; congruence.
  - assert (Hb : forall b, b ∈ [rr; remb] -> bytes_ok b)
      by (intros b Hb; set_unfold in Hb; destruct Hb as [->|[->|[]]];
          unfold rr, remb; cbn [app replicate]; repeat constructor; vm_compute; congruence).
    apply Forall_forall. intros b Hin. pose proof (Hb b Hin) as Hok. set_unfold in Hin.
    destruct Hin as [->|[->|[]]]; (split; [eexists; split; vm_compute; reflexivity|]);
      (split; [unfold forward_ok; simpl; lia|]); (split; [exact Hok|]); intros Hp Hr.
    + vm_compute in Hp. discriminate.
    + eexists. split; [vm_compute; reflexivity | lia].
  - simpl. lia.
  - vm_compute. reflexivity.
  - vm_compute. reflexivity.
  - exists bs', f', source. auto.
Defined.
