(* ===== verification/RtcpAggregator.v ===== *)
(** * RtcpAggregator: feedback of many receivers merged (src/Src/media/rtp/RtcpAggregator.cpp)

    The aggregator keeps the worst loss, jitter and delay its receivers reported and
    sends receiver reports of its own to the publisher, with a NACK and a REMB appended
    when they are wanted.  The clock, the random number and uninitialised memory are
    arguments; what goes to the sink and to the source is a list of events.  [None] is
    undefined behaviour: an access outside a buffer, a division by zero, a conversion of a
    [double] that does not fit.

    The theorems: which NACKs are passed on; when a report is due and what it contains;
    that the fraction lost in it is always zero; the bounds of the report schedule; the
    uninitialised delay. *)

From Stdlib Require Import Sorting.Sorted.
From stdpp Require Import sorting.
From S2P Require Import Prelude Bytes RtpHeaders Doubles Rtcp.

Definition MAP_NACK_SIZE : nat := 50.
Definition RR_AUDIO_PERIOD : Z := 2000.
Definition RR_VIDEO_BASE : Z := 800.
Definition REMB_TIMEOUT : Z := 1000.

Record RtcpAggregator := {
  rtcpData_ : source_map;
  maxVideoBw_ : Z;
  defaultVideoBw_ : Z;
  packet_ : list Z
}.

#[export] Instance eta_RtcpAggregator : Eta RtcpAggregator := fun f =>
  {| rtcpData_ := rtcpData_ f; maxVideoBw_ := maxVideoBw_ f; defaultVideoBw_ := defaultVideoBw_ f;
     packet_ := packet_ f |}.

(** The base constructor drops [maxVideoBw]: the member stays as it was in memory. *)
Definition RtcpAggregator_ctor (mem : RtcpAggregator) (maxVideoBw : Z) : RtcpAggregator :=
  mem <| rtcpData_ := ∅ |> <| defaultVideoBw_ := Z.quot maxVideoBw 2 |>.

Definition setMaxVideoBW (bandwidth : Z) (f : RtcpAggregator) : RtcpAggregator :=
  f <| maxVideoBw_ := bandwidth |>.

(** [bandwidth*1.2], a double. *)
Definition publisher_bw (bandwidth : Z) : double :=
  double_mul (double_of_Z bandwidth) (double_lit 12 10).

Definition setPublisherBW (bandwidth : Z) (f : RtcpAggregator) : option RtcpAggregator :=
  bw ← (if double_lt (double_of_Z (maxVideoBw_ f)) (publisher_bw bandwidth)
        then Some (maxVideoBw_ f) else to_uint 32 (publisher_bw bandwidth));
  Some (f <| defaultVideoBw_ := bw |>).

Definition aggregator_addSourceSsrc (e : ssrcs) (mem : RtcpData) (ssrc : Z) (f : RtcpAggregator)
    : RtcpAggregator :=
  f <| rtcpData_ ::= addSourceSsrc e mem ssrc |>.

Definition aggregator_analyzeSr (e : ssrcs) (mem : RtcpData) (now : timeval) (buf : list Z)
    (chead : Z) (f : RtcpAggregator) : option RtcpAggregator :=
  m ← analyzeSr e mem now buf chead (rtcpData_ f);
  Some (f <| rtcpData_ := m |>).

(** ** Feedback *)

(** A [std::set] is its elements in increasing order; [insert] also says whether the
    element is new. *)
Fixpoint set_insert (x : Z) (l : list Z) : list Z * bool :=
  match l with
  | [] => ([x], true)
  | y :: rest =>
      if x <? y then (x :: l, true) else if x =? y then (l, false)
      else let (rest, new) := set_insert x rest in (y :: rest, new)
  end.

(** [while (size >= MAP_NACK_SIZE) erase(begin())]. *)
Definition evict (l : list Z) : list Z := drop (length l + 1 - MAP_NACK_SIZE) l.

(** The loop over the sixteen bits of the mask. *)
Fixpoint blp_loop (bits : nat) (i pid blp : Z) (nacked : list Z) (send : bool) : list Z * bool :=
  match bits with
  | O => (nacked, send)
  | S bits =>
    let currentNackPos := Z.land blp 1 in
    let blp := Z.shiftr blp 1 in
    let (nacked, send) :=
      if currentNackPos =? 1 then
        let (nacked, new) := set_insert (u32 (pid + 1 + i)) nacked in (nacked, send || new)
      else (nacked, send) in
    blp_loop bits (i + 1) pid blp nacked send
  end.

Definition nack_feedback (pid blp : Z) (d : RtcpData) : RtcpData :=
  let (nacked, new) := set_insert pid (nackedPackets_ d) in
  let nacked := if new then nacked else evict nacked in
  let (nacked, send) := if blp =? 0 then (nacked, new) else blp_loop 16 0 pid blp nacked new in
  let d := d <| shouldSendNACK := send |> <| nackedPackets_ := nacked |> in
  if send then d <| nackSeqnum := pid |> <| nackBlp := blp |> <| requestRr := true |> else d.

(** The loop over the stored sender reports that computes [delay]. *)
Definition report_delay (now : timeval) (calculateLastSr calculatedlsr : Z) (reports : list SrData)
    (delay : Z) : Z :=
  foldl (fun delay it =>
    if srNtp it =? calculateLastSr
    then u32 (to_ms now - to_ms (timestamp it) - calculatedlsr) else delay) delay reports.

Definition receiver_report (now : timeval) (buf : list Z) (chead : Z) (a : RtcpData * Z)
    : option (RtcpData * Z) :=
  let (theData, delay) := a in
  fractionLost ← RtcpHeader.getFractionLost buf chead;
  lostPackets ← RtcpHeader.getLostPackets buf chead;
  cycles ← RtcpHeader.getSeqnumCycles buf chead;
  highest ← RtcpHeader.getHighestSeqnum buf chead;
  jit ← RtcpHeader.getJitter buf chead;
  calculateLastSr ← RtcpHeader.getLastSr buf chead;
  dlsr ← RtcpHeader.getDelaySinceLastSr buf chead;
  let theData := theData
    <| rrsReceivedInPeriod ::= fun n => u16 (n + 1) |>
    <| ratioLost ::= fun r => if fractionLost <? r then r else fractionLost |>
    <| totalPacketsLost ::= fun n => if lostPackets <? n then n else lostPackets |> in
  let extended := u32 (Z.shiftl cycles 16 + highest) in
  let theData :=
    if extendedSeqNo theData <? extended
    then theData <| extendedSeqNo := extended |> <| highestSeqNumReceived := highest |>
                 <| seqNumCycles := cycles |>
    else theData in
  let theData := theData <| jitter ::= fun j => if jit <? j then j else jit |> in
  let calculatedlsr := u32 (dlsr * 1000) / 65536 in
  let delay := report_delay now calculateLastSr calculatedlsr (senderReports theData) delay in
  Some (if (lastSr theData =? 0) || (lastDelay theData <? delay)
        then theData <| lastSr := calculateLastSr |> <| delaySinceLastSr := dlsr |>
                     <| lastSrUpdated := now |> <| lastDelay := delay |>
        else theData, delay).

(** The [switch] of [analyzeFeedback]; the local [delay] lives as long as the packet. *)
Definition aggregate_block (defaultVideoBw : Z) (now : timeval) (buf : list Z) (chead : Z)
    (a : RtcpData * Z) : option (list Z * (RtcpData * Z)) :=
  let (theData, delay) := a in
  packettype ← RtcpHeader.getPacketType buf chead;
  if packettype =? RTCP_Receiver_PT then
    a ← receiver_report now buf chead a; Some (buf, a)
  else if packettype =? RTCP_RTP_Feedback_PT then
    pid ← RtcpHeader.getNackPid buf chead;
    blp ← RtcpHeader.getNackBlp buf chead;
    Some (buf, (nack_feedback pid blp theData, delay))
  else if packettype =? RTCP_PS_Feedback_PT then
    fmt ← RtcpHeader.getBlockCount buf chead;
    if fmt =? RTCP_PLI_FMT then Some (buf, (theData <| shouldSendPli := true |>, delay))
    else if fmt =? RTCP_AFB then
      remb ← RtcpHeader.isREMB buf chead;
      if remb : bool then
        bitrate ← RtcpHeader.remb_bitrate buf chead;
        Some (buf, (if bitrate <? defaultVideoBw
                    then theData <| reportedBandwidth := bitrate |> <| shouldSendREMB := true |>
                    else theData <| reportedBandwidth := defaultVideoBw |>, delay))
      else Some (buf, a)
    else Some (buf, a)
  else Some (buf, a).

(** [delay0] is the uninitialised local [delay]. *)
Definition analyzeFeedback (e : ssrcs) (mem : RtcpData) (delay0 : Z) (now : timeval) (buf : list Z)
    (len : Z) (f : RtcpAggregator) : option (Z * RtcpAggregator) :=
  fb ← RtcpHeader.isFeedback buf 0;
  if negb fb then Some (0, f) else
  ignore ← empty_report buf len;
  if ignore : bool then Some (0, f) else
  sourceSsrc ← RtcpHeader.getSourceSSRC buf 0;
  let f := aggregator_addSourceSsrc e mem sourceSsrc f in
  theData ← rtcpData_ f !! sourceSsrc;
  '(_, (theData, _)) ← compound (aggregate_block (defaultVideoBw_ f) now) buf len (theData, delay0);
  Some (0, f <| rtcpData_ := <[sourceSsrc := theData]> (rtcpData_ f) |>).

(** ** Reports *)

Inductive rtcp_event :=
  | DeliverVideo (packet : list Z)
  | DeliverAudio (packet : list Z)
  | SendPLI.

Definition resetData (bandwidth : Z) (d : RtcpData) : option RtcpData :=
  let d := d <| ratioLost := 0 |> <| requestRr := false |> <| shouldReset := false |>
             <| jitter := 0 |> <| rrsReceivedInPeriod := 0 |>
             <| reportedBandwidth ::= fun b => if bandwidth <? b then bandwidth else b |> in
  l ← to_uint 32 (double_mul (double_of_Z (lastDelay d)) (double_lit 6 10));
  Some (d <| lastDelay := l |>).

(** [float random = (rand_r(..) % 100 + 50) / 100.0] and the product with the period. *)
Definition next_packet (period rand : Z) : option Z :=
  let random := float_of_double (double_div (double_of_Z (rand mod 100 + 50)) (double_of_Z 100)) in
  to_uint 32 (float_mul (float_of_Z period) random).

(** The receiver report, with the values it is computed from stored as the previous ones. *)
Definition report_header (e : ssrcs) (mem : list Z) (sourceSsrc edlsr : Z) (d : RtcpData)
    : option (list Z * RtcpData) :=
  h ← RtcpHeader.RtcpHeader_ctor mem 0;
  h ← RtcpHeader.setPacketType RTCP_Receiver_PT h 0;
  let audio := sourceSsrc =? audioSourceSSRC_ e in
  h ← RtcpHeader.setSSRC (if audio then audioSinkSSRC_ e else videoSinkSSRC_ e) h 0;
  h ← RtcpHeader.setSourceSSRC (if audio then audioSourceSSRC_ e else videoSourceSSRC_ e) h 0;
  let packetsReceivedinInterval := u32 (extendedSeqNo d - prevExtendedSeqNo d) in
  let packetsLostInInterval := u32 (totalPacketsLost d - prevTotalPacketsLost d) in
  if packetsReceivedinInterval =? 0 then None else
  let ratio := double_of_Z (packetsLostInInterval / packetsReceivedinInterval) in
  fraction ← to_uint 8 (double_mul ratio (double_of_Z 256));
  h ← RtcpHeader.setFractionLost fraction h 0;
  let d := d <| prevTotalPacketsLost := totalPacketsLost d |>
             <| prevExtendedSeqNo := extendedSeqNo d |> in
  h ← RtcpHeader.setHighestSeqnum (highestSeqNumReceived d) h 0;
  h ← RtcpHeader.setSeqnumCycles (seqNumCycles d) h 0;
  h ← RtcpHeader.setLostPackets (totalPacketsLost d) h 0;
  h ← RtcpHeader.setJitter (jitter d) h 0;
  h ← RtcpHeader.setLastSr (lastSr d) h 0;
  h ← RtcpHeader.setDelaySinceLastSr (u32 (delaySinceLastSr d + u32 (edlsr * 65536) / 1000)) h 0;
  h ← RtcpHeader.setLength 7 h 0;
  h ← RtcpHeader.setBlockCount 1 h 0;
  Some (h, d).

(** The report and what is appended to it, in [packet_]. *)
Definition build_report (e : ssrcs) (mem : list Z) (now : timeval) (sourceSsrc : Z)
    (packet : list Z) (d : RtcpData) : option (list Z * Z * RtcpData) :=
  let edlsr := ms_since now (lastSrUpdated d) in
  let sinkSsrc := if sourceSsrc =? audioSourceSSRC_ e then audioSinkSSRC_ e else videoSinkSSRC_ e in
  let d := d <| requestRr := false |> in
  '(rtcpHead, d) ← report_header e mem sourceSsrc edlsr d;
  '(packet, length) ← append_header rtcpHead packet 0;
  '(packet, length, d) ←
    (if shouldSendNACK d then
       '(packet, theLen) ← addNACK mem packet length (nackSeqnum d) (nackBlp d) sourceSsrc sinkSsrc;
       Some (packet, theLen, d <| shouldSendNACK := false |> <| nackSeqnum := 0 |> <| nackBlp := 0 |>)
     else Some (packet, length, d));
  match mediaType d with
  | VIDEO_TYPE =>
      let sincelastREMB := ms_since now (lastREMBSent d) in
      let d := if REMB_TIMEOUT <? sincelastREMB then d <| shouldSendREMB := true |> else d in
      if shouldSendREMB d then
        '(packet, theLen) ← addREMB e mem packet length (u32 (reportedBandwidth d));
        Some (packet, theLen, d <| shouldSendREMB := false |> <| lastREMBSent := now |>)
      else Some (packet, length, d)
  | _ => Some (packet, length, d)
  end.

(** The report is due. *)
Definition report_due (dt : Z) (d : RtcpData) : bool :=
  (requestRr d || (nextPacketInMs d <=? dt) || shouldSendREMB d) && (0 <? lastSr d).

(** The body of the loop of [checkRtcpFb] for one source. *)
Definition check_source (e : ssrcs) (mem : list Z) (defaultVideoBw : Z) (now : timeval) (rand : Z)
    (sourceSsrc : Z) (packet : list Z) (d : RtcpData) : option (list Z * RtcpData * list rtcp_event) :=
  let dt := ms_since now (lastRrSent d) in
  let dtScheduled := ms_since now (lastRrWasScheduled d) in
  '(packet, d, out) ←
    (if report_due dt d then
       '(packet, length, d) ← build_report e mem now sourceSsrc packet d;
       bytes ← read_at (Z.to_nat length) packet 0;
       let out := [if sourceSsrc =? videoSourceSSRC_ e then DeliverVideo bytes else DeliverAudio bytes] in
       let d := d <| lastRrSent := now |> in
       let d := if nextPacketInMs d <? dtScheduled then d <| shouldReset := true |> else d in
       let d := d <| lastRrWasScheduled := now |> in
       next ← next_packet (match mediaType d with AUDIO_TYPE => RR_AUDIO_PERIOD
                                                | _ => RR_VIDEO_BASE end) rand;
       let d := d <| nextPacketInMs := next |> in
       d ← (if shouldReset d then resetData defaultVideoBw d else Some d);
       Some (packet, d, out)
     else Some (packet, d, []));
  if shouldSendPli d then Some (packet, d <| shouldSendPli := false |>, out ++ [SendPLI])
  else Some (packet, d, out).

(** The sources in the order of the map. *)
Fixpoint check_sources (e : ssrcs) (mem : list Z) (now : timeval) (rand : Z) (keys : list Z)
    (f : RtcpAggregator) : option (RtcpAggregator * list rtcp_event) :=
  match keys with
  | [] => Some (f, [])
  | ssrc :: keys =>
      rtcpData ← rtcpData_ f !! ssrc;
      '(packet, d, out) ← check_source e mem (defaultVideoBw_ f) now rand ssrc (packet_ f) rtcpData;
      let f := f <| rtcpData_ := <[ssrc := d]> (rtcpData_ f) |> <| packet_ := packet |> in
      '(f, outs) ← check_sources e mem now rand keys f;
      Some (f, out ++ outs)
  end.

Definition checkRtcpFb (e : ssrcs) (mem : list Z) (now : timeval) (rand : Z) (f : RtcpAggregator)
    : option (RtcpAggregator * list rtcp_event) :=
  check_sources e mem now rand (merge_sort Z.le (map_to_list (rtcpData_ f)).*1) f.

(** ** The set of NACKed packets *)

Lemma set_insert_elem x l y : y ∈ (set_insert x l).1 <-> y = x \/ y ∈ l.
Proof.
  induction l as [|z l IH]; cbn [set_insert]; [set_solver|].
  destruct (x <? z); [set_solver|]. destruct (Z.eqb_spec x z); [set_solver|].
  destruct (set_insert x l) as [r new]. cbn [fst] in *. set_solver.
Qed.

Lemma set_insert_new x l : StronglySorted Z.lt l -> (set_insert x l).2 = true <-> x ∉ l.
Proof.
  induction 1 as [|z l Hs IH Hz]; cbn [set_insert]; [set_solver|].
  rewrite Forall_forall in Hz. destruct (Z.ltb_spec x z).
  - cbn [snd]. split; [|done]. intros _ Hx. apply elem_of_cons in Hx as [->|Hx]; [lia|].
    specialize (Hz _ Hx). lia.
  - destruct (Z.eqb_spec x z) as [->|]; cbn [snd]; [split; [done | set_solver]|].
    destruct (set_insert x l) as [r new]. cbn [snd] in *. rewrite IH. set_solver.
Qed.

Lemma set_insert_sorted x l : StronglySorted Z.lt l -> StronglySorted Z.lt (set_insert x l).1.
Proof.
  induction 1 as [|z l Hs IH Hz]; cbn [set_insert]; [repeat constructor|].
  pose proof Hz as Hz'. rewrite Forall_forall in Hz'. destruct (Z.ltb_spec x z).
  - cbn [fst]. constructor; [constructor; assumption|]. constructor; [assumption|].
    apply Forall_forall. intros y Hy. specialize (Hz' _ Hy). lia.
  - destruct (Z.eqb_spec x z) as [->|]; cbn [fst]; [constructor; assumption|].
    pose proof (set_insert_elem x l) as He.
    destruct (set_insert x l) as [r new]. cbn [fst] in *. constructor; [assumption|].
    apply Forall_forall. intros y Hy. apply He in Hy as [->|Hy]; [lia | auto].
Qed.

Lemma set_insert_length x l :
  length (set_insert x l).1 = (if (set_insert x l).2 then S (length l) else length l).
Proof.
  induction l as [|z l IH]; cbn [set_insert]; [reflexivity|].
  destruct (x <? z); [reflexivity|]. destruct (x =? z); [reflexivity|].
  destruct (set_insert x l) as [r []]; cbn [fst snd length] in *; congruence.
Qed.

Lemma set_insert_id x l : (set_insert x l).2 = false -> (set_insert x l).1 = l.
Proof.
  induction l as [|z l IH]; cbn [set_insert]; [discriminate|].
  destruct (x <? z); [discriminate|]. destruct (x =? z); [reflexivity|].
  destruct (set_insert x l) as [r new]; cbn [fst snd] in *. intros H. f_equal. auto.
Qed.

Lemma evict_sorted l : StronglySorted Z.lt l -> StronglySorted Z.lt (evict l).
Proof.
  unfold evict. generalize (length l + 1 - MAP_NACK_SIZE)%nat. intros n H.
  revert l H. induction n as [|n IH]; intros [|x l] H; simpl; auto. apply IH. inversion H; assumption.
Qed.

(** The packets the mask of a NACK adds to its PID, as the loop computes them. *)
Fixpoint blp_lost (bits : nat) (i pid blp : Z) : list Z :=
  match bits with
  | O => []
  | S bits =>
      (if Z.odd blp then [u32 (pid + 1 + i)] else []) ++ blp_lost bits (i + 1) pid (Z.shiftr blp 1)
  end.

Lemma land_1_odd b : (Z.land b 1 =? 1) = Z.odd b.
Proof.
  change 1 with (Z.ones 1) at 1. rewrite Z.land_ones, Zmod_odd by lia. destruct (Z.odd b); reflexivity.
Qed.

Lemma blp_loop_spec bits : forall i pid blp nacked send nacked' send',
  StronglySorted Z.lt nacked -> blp_loop bits i pid blp nacked send = (nacked', send') ->
  StronglySorted Z.lt nacked' /\
  (forall y, y ∈ nacked' <-> y ∈ blp_lost bits i pid blp \/ y ∈ nacked) /\
  (send' = true <-> send = true \/ exists y, y ∈ blp_lost bits i pid blp /\ y ∉ nacked).
Proof.
  induction bits as [|bits IH]; intros i pid blp nacked send nacked' send' Hs H;
    cbn [blp_loop blp_lost] in *.
  - simplify_eq. split; [assumption|]. split; [set_solver|]. split; [auto|].
    intros [|(y & Hy & _)]; [assumption | set_solver].
  - rewrite land_1_odd in H. destruct (Z.odd blp); cbn [app].
    + destruct (set_insert (u32 (pid + 1 + i)) nacked) as [n1 new] eqn:E.
      pose proof (set_insert_elem (u32 (pid + 1 + i)) nacked) as He.
      pose proof (set_insert_new (u32 (pid + 1 + i)) nacked Hs) as Hn.
      pose proof (set_insert_sorted (u32 (pid + 1 + i)) nacked Hs) as Hs1.
      rewrite E in He, Hn, Hs1. cbn [fst snd] in *.
      destruct (IH _ _ _ _ _ _ _ Hs1 H) as (H1 & H2 & H3). split; [assumption|].
      split; [intros y; rewrite H2, He; set_solver|]. rewrite H3, orb_true_iff, Hn. split.
      * intros [[Hc|Hc]|(y & Hy & Hy')]; [auto|right; eexists; split; [left|exact Hc]|].
        right. exists y. rewrite He in Hy'. set_solver.
      * intros [Hc|(y & Hy & Hy')]; [auto|]. apply elem_of_cons in Hy as [->|Hy]; [auto|].
        destruct (decide (y = u32 (pid + 1 + i))) as [->|Hne]; [auto|].
        right. exists y. split; [assumption|]. rewrite He. tauto.
    + exact (IH _ _ _ _ _ _ _ Hs H).
Qed.

(** The packets a NACK names. *)
Definition nacked_by (pid blp : Z) : list Z := blp_lost 16 0 pid blp.

Lemma blp_lost_0 bits i pid : blp_lost bits i pid 0 = [].
Proof. revert i. induction bits; intros i; cbn [blp_lost]; [reflexivity|]. apply IHbits. Qed.

(** Which NACKs are passed on: a NACK is scheduled - with its own PID and mask, and a report
    is requested - exactly when it names a packet no NACK named before, where the record
    of earlier packets is first cut down to its 49 highest when the PID itself is not
    new; afterwards everything it names is on record.  A NACK that names nothing new
    changes nothing else. *)
Theorem nack_passed_on (pid blp : Z) (d : RtcpData) :
  StronglySorted Z.lt (nackedPackets_ d) ->
  let d' := nack_feedback pid blp d in
  let seen := if decide (pid ∈ nackedPackets_ d) then evict (nackedPackets_ d) else nackedPackets_ d in
  StronglySorted Z.lt (nackedPackets_ d') /\
  (forall y, y ∈ nackedPackets_ d' <->
     y = pid /\ pid ∉ nackedPackets_ d \/ y ∈ nacked_by pid blp \/ y ∈ seen) /\
  (shouldSendNACK d' = true <->
     pid ∉ nackedPackets_ d \/ exists y, y ∈ nacked_by pid blp /\ y ∉ seen) /\
  (if shouldSendNACK d'
   then nackSeqnum d' = pid /\ nackBlp d' = blp /\ requestRr d' = true
   else d' = d <| shouldSendNACK := false |> <| nackedPackets_ := nackedPackets_ d' |>).
Proof.
  intros Hs d' seen.
  pose proof (set_insert_elem pid (nackedPackets_ d)) as He.
  pose proof (set_insert_new pid (nackedPackets_ d) Hs) as Hn.
  pose proof (set_insert_sorted pid (nackedPackets_ d) Hs) as Hs1.
  unfold d', nack_feedback.
  destruct (set_insert pid (nackedPackets_ d)) as [n1 new] eqn:E. cbn [fst snd] in *.
  set (n2 := if new then n1 else evict n1).
  assert (Hs2 : StronglySorted Z.lt n2) by (unfold n2; destruct new; auto using evict_sorted).
  assert (H2 : forall y, y ∈ n2 <-> y = pid /\ pid ∉ nackedPackets_ d \/ y ∈ seen).
  { intros y. unfold n2, seen. destruct new.
    - assert (Hp : pid ∉ nackedPackets_ d) by (apply Hn; reflexivity).
      destruct (decide _) as [Hc|_]; [contradiction|]. rewrite He. tauto.
    - destruct (decide (pid ∈ nackedPackets_ d)) as [Hp|Hp]; [|apply Hn in Hp; discriminate].
      assert (n1 = nackedPackets_ d) as ->.
      { pose proof (set_insert_id pid (nackedPackets_ d)) as Hid. rewrite E in Hid. auto. }
      tauto. }
  destruct (if blp =? 0 then (n2, new) else blp_loop 16 0 pid blp n2 new) as [n3 send] eqn:E3.
  assert (H3 : StronglySorted Z.lt n3 /\ (forall y, y ∈ n3 <-> y ∈ nacked_by pid blp \/ y ∈ n2) /\
    (send = true <-> new = true \/ exists y, y ∈ nacked_by pid blp /\ y ∉ n2)).
  { destruct (Z.eqb_spec blp 0) as [->|]; [|exact (blp_loop_spec _ _ _ _ _ _ _ _ Hs2 E3)].
    simplify_eq. unfold nacked_by. rewrite blp_lost_0. split; [assumption|].
    split; [set_solver|]. split; [auto|]. intros [|(y & Hy & _)]; [assumption|set_solver]. }
  destruct H3 as (S3 & M3 & N3).
  assert (R : send = true <-> pid ∉ nackedPackets_ d \/ exists y, y ∈ nacked_by pid blp /\ y ∉ seen).
  { rewrite N3, Hn. split; (intros [Hc|(y & Hy & Hy')]; [auto|]).
    - right. exists y. rewrite H2 in Hy'. tauto.
    - destruct (decide (pid ∈ nackedPackets_ d)) as [Hp|Hp]; [|auto].
      right. exists y. rewrite H2. tauto. }
  destruct send; cbn; (split; [assumption|]); (split; [intros y; rewrite M3, H2; tauto|]);
    (split; [exact R|]); auto.
Qed.

Lemma nack_passed_on_witness :
  shouldSendNACK (nack_feedback 8 3 (RtcpData_zero <| nackedPackets_ := [8; 9] |>)) = true /\
  nackedPackets_ (nack_feedback 8 3 (RtcpData_zero <| nackedPackets_ := [8; 9] |>)) = [8; 9; 10].
Proof.
  split; [|vm_compute; reflexivity].
  apply (nack_passed_on 8 3 (RtcpData_zero <| nackedPackets_ := [8; 9] |>)).
  - repeat constructor.
  - right. exists 10. split; [vm_compute; right; left|]. vm_compute. set_solver.
Defined.

(** ** The report *)

(** The members of a record fit the fields of the report. *)
Record data_ok (d : RtcpData) : Prop := {
  do_lost : in_width 24 (totalPacketsLost d);
  do_highest : in_width 16 (highestSeqNumReceived d);
  do_cycles : in_width 16 (seqNumCycles d);
  do_jitter : in_width 32 (jitter d);
  do_lastSr : in_width 32 (lastSr d);
  do_nackBlp : in_width 16 (nackBlp d)
}.

(** What a receiver of the report reads. *)
Record report_is (h : list Z) (sink source : Z) (d : RtcpData) (dlsr : Z) : Prop := {
  ri_type : RtcpHeader.getPacketType h 0 = Some RTCP_Receiver_PT;
  ri_count : RtcpHeader.getBlockCount h 0 = Some 1;
  ri_length : RtcpHeader.getLength h 0 = Some 7;
  ri_ssrc : RtcpHeader.getSSRC h 0 = Some (u32 sink);
  ri_source : RtcpHeader.getSourceSSRC h 0 = Some (u32 source);
  ri_fraction : RtcpHeader.getFractionLost h 0 = Some 0;
  ri_lost : RtcpHeader.getLostPackets h 0 = Some (totalPacketsLost d);
  ri_highest : RtcpHeader.getHighestSeqnum h 0 = Some (highestSeqNumReceived d);
  ri_cycles : RtcpHeader.getSeqnumCycles h 0 = Some (seqNumCycles d);
  ri_jitter : RtcpHeader.getJitter h 0 = Some (jitter d);
  ri_lastSr : RtcpHeader.getLastSr h 0 = Some (lastSr d);
  ri_dlsr : RtcpHeader.getDelaySinceLastSr h 0 = Some dlsr
}.

Lemma get32 v : in_width 32 v -> ntohl (wrap 32 (htonl v)) = v.
Proof. intros H. rewrite wrap_small by apply htonl_width. apply ntohl_htonl. assumption. Qed.

Lemma get32_wrap v : ntohl (wrap 32 (htonl v)) = u32 v.
Proof. rewrite wrap_small by apply htonl_width. rewrite bswap_bswap. reflexivity. Qed.

Lemma get16 v : in_width 16 v -> ntohs (wrap 16 (htons v)) = v.
Proof. intros H. rewrite wrap_small by apply htons_width. apply ntohs_htons. assumption. Qed.

Lemma get24 v :
  in_width 24 v -> Z.shiftr (ntohl (u32 (to_signed 24 (wrap 24 (Z.shiftr (htonl v) 8))))) 8 = v.
Proof.
  intros H. pose proof rtcp_views_ok as Hv. rewrite Forall_forall in Hv.
  pose proof (Hv RtcpHeader.rr_view ltac:(left)) as Hrr. rewrite Forall_lookup in Hrr.
  exact (@acc_dec_enc _ (Hrr 6%nat _ eq_refl) v H).
Qed.

Definition interval_received (d : RtcpData) : Z := u32 (extendedSeqNo d - prevExtendedSeqNo d).
Definition interval_lost (d : RtcpData) : Z := u32 (totalPacketsLost d - prevTotalPacketsLost d).

Lemma report_header_spec e mem sourceSsrc edlsr d :
  length mem = RtcpHeader.size -> bytes_ok mem -> data_ok d ->
  interval_received d <> 0 -> interval_lost d < interval_received d ->
  exists h,
    report_header e mem sourceSsrc edlsr d =
      Some (h, d <| prevTotalPacketsLost := totalPacketsLost d |>
                 <| prevExtendedSeqNo := extendedSeqNo d |>) /\
    length h = RtcpHeader.size /\ bytes_ok h /\
    report_is h (if sourceSsrc =? audioSourceSSRC_ e then audioSinkSSRC_ e else videoSinkSSRC_ e)
      (if sourceSsrc =? audioSourceSSRC_ e then audioSourceSSRC_ e else videoSourceSSRC_ e) d
      (u32 (delaySinceLastSr d + u32 (edlsr * 65536) / 1000)).
Proof.
  intros Hl Hok [H1 H2 H3 H4 H5 _] Hr Hlr. change RtcpHeader.size with 56%nat in *.
  unfold report_header. fold (interval_received d). fold (interval_lost d).
  rewrite (proj2 (Z.eqb_neq _ _) Hr).
  assert (Hq : interval_lost d / interval_received d = 0).
  { apply Z.div_small. split; [apply Z.mod_pos_bound; lia | assumption]. }
  rewrite Hq. change (to_uint 8 (double_mul (double_of_Z 0) (double_of_Z 256))) with (Some 0).
  cbv zeta.
  set (sink := if sourceSsrc =? audioSourceSSRC_ e then audioSinkSSRC_ e else videoSinkSSRC_ e).
  set (src := if sourceSsrc =? audioSourceSSRC_ e then audioSourceSSRC_ e else videoSourceSSRC_ e).
  set (dlsr := u32 _). assert (Hd : in_width 32 dlsr) by (apply wrap_bound; lia).
  clearbody sink src dlsr.
  unfold RtcpHeader.RtcpHeader_ctor, RtcpHeader.setPacketType, RtcpHeader.setSSRC,
    RtcpHeader.setSourceSSRC, RtcpHeader.setFractionLost, RtcpHeader.setHighestSeqnum,
    RtcpHeader.setSeqnumCycles, RtcpHeader.setLostPackets, RtcpHeader.setJitter, RtcpHeader.setLastSr,
    RtcpHeader.setDelaySinceLastSr, RtcpHeader.setLength, RtcpHeader.setBlockCount.
  repeat set_field. cbn [option_bind mbind]. repeat set_field.
  eexists. split; [reflexivity|]. split; [assumption|]. split; [assumption|].
  split; unfold RtcpHeader.getPacketType, RtcpHeader.getBlockCount, RtcpHeader.getLength,
    RtcpHeader.getSSRC, RtcpHeader.getSourceSSRC, RtcpHeader.getFractionLost, RtcpHeader.getLostPackets,
    RtcpHeader.getHighestSeqnum, RtcpHeader.getSeqnumCycles, RtcpHeader.getJitter, RtcpHeader.getLastSr,
    RtcpHeader.getDelaySinceLastSr;
    match goal with |- context [get_bf ?f _ _] =>
      match goal with H : get_bf f _ _ = Some _ |- _ => rewrite H end end;
    cbn [fmap option_fmap option_map option_bind mbind]; f_equal; try reflexivity;
    first [exact (get32_wrap _) | exact (get24 _ H1) | exact (get16 _ H2) | exact (get16 _ H3)
          | exact (get32 _ H4) | exact (get32 _ H5) | exact (get32 _ Hd)].
Qed.

(** The report reads the same whatever is appended to its first 32 bytes. *)
Lemma report_is_prefix h rest sink source d dlsr :
  report_is h sink source d dlsr -> (32 <= length h)%nat ->
  report_is (take 32 h ++ rest) sink source d dlsr.
Proof.
  intros H Hl.
  assert (Hf : forall f, 0 <= bf_off f <= 28 -> get_bf f (take 32 h ++ rest) 0 = get_bf f h 0).
  { intros f Hf. rewrite <- (take_drop 32 h) at 2.
    rewrite !get_bf_app_l; [reflexivity|..]; unfold in_bounds; rewrite length_take; lia. }
  destruct H. split;
    unfold RtcpHeader.getPacketType, RtcpHeader.getBlockCount, RtcpHeader.getLength,
      RtcpHeader.getSSRC, RtcpHeader.getSourceSSRC, RtcpHeader.getFractionLost, RtcpHeader.getLostPackets,
      RtcpHeader.getHighestSeqnum, RtcpHeader.getSeqnumCycles, RtcpHeader.getJitter, RtcpHeader.getLastSr,
      RtcpHeader.getDelaySinceLastSr in *;
    rewrite Hf by (vm_compute; intuition congruence); assumption.
Qed.

(** A REMB is due with the report. *)
Definition remb_due (now : timeval) (d : RtcpData) : bool :=
  match mediaType d with
  | VIDEO_TYPE => shouldSendREMB d || (REMB_TIMEOUT <? ms_since now (lastREMBSent d))
  | _ => false
  end.

Lemma take_replaced n (a r b x : list Z) :
  length a = n -> take (n + length b) (take n (a ++ r) ++ b ++ x) = a ++ b.
Proof.
  intros <-. rewrite take_app_length, app_assoc, take_app_le by (rewrite length_app; lia).
  apply firstn_all2. rewrite length_app. lia.
Qed.

(** Appending the pending NACK behind [body]. *)
Lemma append_nack mem body r ssrc sink d :
  length mem = RtcpHeader.size -> bytes_ok mem -> in_width 16 (nackBlp d) -> (16 <= length r)%nat ->
  exists r' d',
    (if shouldSendNACK d then
       '(packet, theLen) ← addNACK mem (body ++ r) (Z.of_nat (length body)) (nackSeqnum d) (nackBlp d) ssrc sink;
       Some (packet, theLen, d <| shouldSendNACK := false |> <| nackSeqnum := 0 |> <| nackBlp := 0 |>)
     else Some (body ++ r, Z.of_nat (length body), d)) =
    Some ((body ++ if shouldSendNACK d then nack_block (nackSeqnum d) (nackBlp d) ssrc sink else []) ++ r',
          Z.of_nat (length body + if shouldSendNACK d then 16 else 0), d') /\
    length ((body ++ if shouldSendNACK d then nack_block (nackSeqnum d) (nackBlp d) ssrc sink else []) ++ r') =
      length (body ++ r) /\
    mediaType d' = mediaType d /\ shouldSendREMB d' = shouldSendREMB d /\
    lastREMBSent d' = lastREMBSent d /\ reportedBandwidth d' = reportedBandwidth d /\
    requestRr d' = requestRr d /\ shouldSendNACK d' = false.
Proof.
  intros Hl Hok Hb Hr. destruct (shouldSendNACK d) eqn:E.
  - rewrite addNACK_spec by (try assumption; rewrite ?length_app; lia). cbn [option_bind mbind].
    rewrite Nat2Z.id, take_app_length, drop_app_add, app_assoc.
    do 2 eexists. split; [do 3 f_equal; lia|]. split; [|repeat split].
    rewrite !length_app, length_drop. change (length (nack_block _ _ _ _)) with 16%nat. lia.
  - exists r, d. rewrite app_nil_r, Nat.add_0_r. repeat split. assumption.
Qed.

(** Appending the REMB behind [body], when it is due. *)
Lemma append_remb e mem now body r d line :
  length mem = RtcpHeader.size -> bytes_ok mem ->
  RtcpHeader.remb_line (u32 (reportedBandwidth d)) = Some line -> (24 <= length r)%nat ->
  exists r' d',
    match mediaType d with
    | VIDEO_TYPE =>
        let d := if REMB_TIMEOUT <? ms_since now (lastREMBSent d) then d <| shouldSendREMB := true |> else d in
        if shouldSendREMB d then
          '(packet, theLen) ← addREMB e mem (body ++ r) (Z.of_nat (length body)) (u32 (reportedBandwidth d));
          Some (packet, theLen, d <| shouldSendREMB := false |> <| lastREMBSent := now |>)
        else Some (body ++ r, Z.of_nat (length body), d)
    | _ => Some (body ++ r, Z.of_nat (length body), d)
    end =
    Some ((body ++ if remb_due now d then remb_block e line else []) ++ r',
          Z.of_nat (length body + if remb_due now d then 24 else 0), d') /\
    length ((body ++ if remb_due now d then remb_block e line else []) ++ r') = length (body ++ r) /\
    requestRr d' = requestRr d /\ shouldSendNACK d' = shouldSendNACK d /\
    shouldSendREMB d' = (if remb_due now d then false else shouldSendREMB d).
Proof.
  intros Hl Hok El Hr. unfold remb_due.
  set (d1 := if REMB_TIMEOUT <? ms_since now (lastREMBSent d) then d <| shouldSendREMB := true |> else d).
  assert (H1 : reportedBandwidth d1 = reportedBandwidth d /\ requestRr d1 = requestRr d /\
    shouldSendNACK d1 = shouldSendNACK d /\
    shouldSendREMB d1 = shouldSendREMB d || (REMB_TIMEOUT <? ms_since now (lastREMBSent d))).
  { unfold d1. destruct (REMB_TIMEOUT <? _); cbn; rewrite ?orb_true_r, ?orb_false_r; auto. }
  destruct H1 as (H1 & H2 & H3 & H4). cbv zeta. rewrite <- H4. clearbody d1.
  destruct (mediaType d); [|exists r, d; rewrite app_nil_r, Nat.add_0_r; auto..].
  destruct (shouldSendREMB d1) eqn:E.
  - destruct (addREMB_spec e mem (body ++ r) (Z.of_nat (length body)) (u32 (reportedBandwidth d1)) Hl Hok)
      as (line' & El' & ->); [apply wrap_bound; lia|lia|rewrite length_app; lia|].
    assert (line' = line) as -> by congruence. cbn [option_bind mbind].
    rewrite Nat2Z.id, take_app_length, drop_app_add, app_assoc.
    do 2 eexists. split; [do 3 f_equal; lia|]. split; [|repeat split; assumption].
    rewrite !length_app, length_drop. change (length (remb_block _ _)) with 24%nat. lia.
  - exists r, d1. rewrite app_nil_r, Nat.add_0_r. repeat split; try assumption.
    symmetry in H4. apply orb_false_iff in H4 as [-> _]. assumption.
Qed.

(** C24. The packet sent to the publisher when a report is due, on members that fit their
    fields and an interval with more packets received than lost: a receiver report about
    the publisher's SSRC with the loss, sequence, jitter and sender-report values on
    record and the delay since then, but a fraction lost of zero; behind it the pending
    NACK and, for video, the REMB when it is pending or a second old; nothing else, and
    the pending marks are cleared. *)
Theorem report_sent (e : ssrcs) (mem packet : list Z) (now : timeval) (ssrc : Z) (d : RtcpData) :
  length mem = RtcpHeader.size -> bytes_ok mem -> data_ok d -> (72 <= length packet)%nat ->
  interval_received d <> 0 -> interval_lost d < interval_received d ->
  let audio := ssrc =? audioSourceSSRC_ e in
  let sink := if audio then audioSinkSSRC_ e else videoSinkSSRC_ e in
  exists rr line packet' d',
    build_report e mem now ssrc packet d =
      Some (packet', 32 + (if shouldSendNACK d then 16 else 0) + (if remb_due now d then 24 else 0), d') /\
    RtcpHeader.remb_line (u32 (reportedBandwidth d)) = Some line /\
    take (Z.to_nat (32 + (if shouldSendNACK d then 16 else 0) + (if remb_due now d then 24 else 0))) packet' =
      rr ++ (if shouldSendNACK d then nack_block (nackSeqnum d) (nackBlp d) ssrc sink else []) ++
      (if remb_due now d then remb_block e line else []) /\
    length rr = 32%nat /\
    (forall rest, report_is (rr ++ rest) sink (if audio then audioSourceSSRC_ e else videoSourceSSRC_ e) d
       (u32 (delaySinceLastSr d + u32 (ms_since now (lastSrUpdated d) * 65536) / 1000))) /\
    requestRr d' = false /\ shouldSendNACK d' = false /\
    shouldSendREMB d' = (if remb_due now d then false else shouldSendREMB d) /\
    length packet' = length packet.
Proof.
  intros Hl Hok Hd Hp Hr Hlr audio sink. unfold build_report.
  destruct (report_header_spec e mem ssrc (ms_since now (lastSrUpdated d)) (d <| requestRr := false |>))
    as (h & E & Hhl & Hhok & Hri); [assumption|assumption|destruct Hd; split; assumption|assumption|assumption|].
  rewrite E. cbn [option_bind mbind]. clear E.
  destruct (remb_line_small (u32 (reportedBandwidth d))) as [line El]; [apply wrap_bound; lia|].
  set (rr := take 32 h). assert (Hrl : length rr = 32%nat)
    by (unfold rr; rewrite length_take; change RtcpHeader.size with 56%nat in Hhl; lia).
  rewrite (append_header_spec h packet 0 7 rr 32);
    [|exact (ri_length _ _ _ _ _ Hri)|reflexivity|lia| |unfold in_bounds; lia].
  2:{ rewrite <- (take_drop 32 h). apply read_at_start. symmetry. exact Hrl. }
  cbn [option_bind mbind]. change (take (Z.to_nat 0) packet) with (@nil Z).
  change (0 + Z.of_nat 32) with 32. cbn [app]. change (Z.to_nat 0 + 32)%nat with 32%nat.
  set (d1 := (d <| requestRr := false |>) <| prevTotalPacketsLost := _ |> <| prevExtendedSeqNo := _ |>).
  change (shouldSendNACK d1) with (shouldSendNACK d). fold audio sink.
  set (body := rr ++ (if shouldSendNACK d then nack_block (nackSeqnum d) (nackBlp d) ssrc sink else [])).
  assert (Hb : length body = (32 + if shouldSendNACK d then 16 else 0)%nat)
    by (unfold body; rewrite length_app, Hrl; destruct (shouldSendNACK d); reflexivity).
  destruct (append_nack mem rr (drop 32 packet) ssrc sink d1)
    as (r1 & d2 & E1 & Hr1 & H1 & H2 & H3 & H4 & H5 & H6);
    [assumption..|destruct Hd; assumption|rewrite length_drop; lia|].
  rewrite Hrl in E1. change (Z.of_nat 32) with 32 in E1.
  change (shouldSendNACK d1) with (shouldSendNACK d) in *. change (nackSeqnum d1) with (nackSeqnum d) in *.
  change (nackBlp d1) with (nackBlp d) in *. fold body in E1, Hr1. rewrite E1. cbn [option_bind mbind].
  assert (Hlp : length (rr ++ drop 32 packet) = length packet) by (rewrite length_app, length_drop; lia).
  rewrite Hlp, length_app, Hb in Hr1.
  assert (Hrd : remb_due now d2 = remb_due now d) by (unfold remb_due; rewrite H1, H2, H3; reflexivity).
  destruct (append_remb e mem now body r1 d2 line) as (r2 & d3 & E2 & Hr2 & G1 & G2 & G3);
    [assumption..|rewrite H4; exact El|destruct (shouldSendNACK d); lia|].
  rewrite Hrd in E2, Hr2, G3. rewrite Hb in E2.
  exists rr, line, ((body ++ if remb_due now d then remb_block e line else []) ++ r2), d3. split.
  { etransitivity; [exact E2|]. destruct (shouldSendNACK d), (remb_due now d); reflexivity. }
  split; [exact El|]. split; [|split; [exact Hrl|split; [|split; [|split; [|split]]]]].
  - rewrite take_app_le; [rewrite firstn_all2; [unfold body; symmetry; apply app_assoc|]|];
      rewrite length_app, Hb; destruct (shouldSendNACK d), (remb_due now d); simpl; lia.
  - intros rest. apply report_is_prefix; [destruct Hri; split; assumption|change RtcpHeader.size with 56%nat in Hhl; lia].
  - rewrite G1, H5. reflexivity.
  - rewrite G2. exact H6.
  - rewrite G3, H2. reflexivity.
  - rewrite Hr2, length_app, Hb. lia.
Qed.

Lemma report_sent_witness :
  let d := RtcpData_zero <| mediaType := VIDEO_TYPE |> <| shouldSendNACK := true |> <| nackSeqnum := 7 |>
             <| extendedSeqNo := 100 |> <| totalPacketsLost := 3 |> <| lastSr := 9 |>
             <| reportedBandwidth := 1000 |> in
  let e := {| videoSinkSSRC_ := 1; audioSinkSSRC_ := 2; videoSourceSSRC_ := 5; audioSourceSSRC_ := 6 |} in
  exists rr line packet' d',
    build_report e (replicate 56 255) {| tv_sec := 2; tv_usec := 0 |} 5 (replicate 128 0) d =
      Some (packet', 72, d') /\
    take 72 packet' = rr ++ nack_block 7 0 5 1 ++ remb_block e line.
Proof.
  intros d e.
  destruct (report_sent e (replicate 56 255) (replicate 128 0) {| tv_sec := 2; tv_usec := 0 |} 5 d)
    as (rr & line & packet' & d' & E & _ & Ht & _).
  - reflexivity.
  - apply Forall_replicate. unfold byte_ok. lia.
  - split; vm_compute; intuition congruence.
  - simpl. lia.
  - vm_compute. congruence.
  - vm_compute. reflexivity.
  - exists rr, line, packet', d'. split; [exact E | exact Ht].
Defined.

(** The fraction lost of a report is never anything but zero: it is 256 times a quotient
    of integers.  With nothing received since the last report the division is by zero,
    and with as many packets lost as received the product does not fit the eight bits -
    both undefined; below that, the report says zero. *)
Theorem fraction_lost (e : ssrcs) (mem : list Z) (ssrc edlsr : Z) (d : RtcpData) :
  length mem = RtcpHeader.size -> bytes_ok mem -> data_ok d ->
  (interval_received d = 0 -> report_header e mem ssrc edlsr d = None) /\
  (interval_received d <> 0 -> interval_lost d / interval_received d = 1 ->
   report_header e mem ssrc edlsr d = None) /\
  (interval_received d <> 0 -> interval_lost d < interval_received d ->
   exists h d', report_header e mem ssrc edlsr d = Some (h, d') /\
     RtcpHeader.getFractionLost h 0 = Some 0).
Proof.
  intros Hl Hok Hd. split; [|split].
  - intros Hr. unfold report_header. fold (interval_received d). rewrite Hr.
    repeat match goal with |- (?o ≫= _) = None => destruct o; cbn [option_bind mbind]; [|reflexivity] end.
    reflexivity.
  - intros Hr Hq. unfold report_header. fold (interval_received d) (interval_lost d).
    rewrite Hq, (proj2 (Z.eqb_neq _ _) Hr).
    change (to_uint 8 (double_mul (double_of_Z 1) (double_of_Z 256))) with (@None Z).
    repeat match goal with |- (?o ≫= _) = None => destruct o; cbn [option_bind mbind]; [|reflexivity] end.
    reflexivity.
  - intros Hr Hlr. destruct (report_header_spec e mem ssrc edlsr d Hl Hok Hd Hr Hlr) as (h & E & _ & _ & Hri).
    do 2 eexists. split; [exact E | exact (ri_fraction _ _ _ _ _ Hri)].
Qed.

Lemma fraction_lost_witness :
  report_header {| videoSinkSSRC_ := 1; audioSinkSSRC_ := 2; videoSourceSSRC_ := 5; audioSourceSSRC_ := 6 |}
    (replicate 56 255) 5 0 (RtcpData_zero <| extendedSeqNo := 10 |> <| totalPacketsLost := 10 |>) = None.
Proof.
  refine (proj1 (proj2 (fraction_lost _ (replicate 56 255) 5 0
    (RtcpData_zero <| extendedSeqNo := 10 |> <| totalPacketsLost := 10 |>) _ _ _)) _ _).
  - reflexivity.
  - apply Forall_replicate. unfold byte_ok. lia.
  - split; vm_compute; intuition congruence.
  - vm_compute. congruence.
  - vm_compute. reflexivity.
Defined.

(** ** The schedule *)

(** The next report of an audio source is due 1000 to 2980 ms after the last, that of a
    video source 400 to 1192 ms: half to one and a half times the period. *)
Theorem report_schedule (rand : Z) :
  0 <= rand ->
  (exists n, next_packet RR_AUDIO_PERIOD rand = Some n /\ 1000 <= n <= 2980) /\
  (exists n, next_packet RR_VIDEO_BASE rand = Some n /\ 400 <= n <= 1192).
Proof.
  intros Hr.
  assert (H : forall period lo hi,
    forallb (fun r => match next_packet period (Z.of_nat r) with
                      | Some n => (lo <=? n) && (n <=? hi) | None => false end) (seq 0 100) = true ->
    exists n, next_packet period rand = Some n /\ lo <= n <= hi).
  { intros period lo hi H. rewrite forallb_forall in H.
    pose proof (Z.mod_pos_bound rand 100 ltac:(lia)) as Hm.
    specialize (H (Z.to_nat (rand mod 100)) ltac:(apply in_seq; lia)).
    rewrite Z2Nat.id in H by lia.
    assert (E : next_packet period (rand mod 100) = next_packet period rand)
      by (unfold next_packet; rewrite Z.mod_mod by lia; reflexivity).
    rewrite E in H. destruct (next_packet period rand) as [n|]; [|discriminate].
    exists n. split; [reflexivity|]. apply andb_true_iff in H as [H1 H2]. lia. }
  split; apply H; vm_compute; reflexivity.
Qed.

Lemma report_schedule_witness : exists n, next_packet RR_AUDIO_PERIOD 1234567 = Some n /\ 1000 <= n <= 2980.
Proof. refine (proj1 (report_schedule 1234567 _)). lia. Defined.

(** When a receiver report names no sender report on record, the delay of the receiver is
    the uninitialised local variable: whatever it holds is recorded for a source that has
    no sender report yet. *)
Theorem delay_uninitialised (now : timeval) (buf : list Z) (chead delay0 : Z) (d : RtcpData) :
  in_bounds 32 buf chead -> lastSr d = 0 ->
  (forall lsr, RtcpHeader.getLastSr buf chead = Some lsr ->
     Forall (fun sr => srNtp sr <> lsr) (senderReports d)) ->
  exists d', receiver_report now buf chead (d, delay0) = Some (d', delay0) /\ lastDelay d' = delay0.
Proof.
  intros [B1 B2] H0 Hn. unfold receiver_report, RtcpHeader.getFractionLost, RtcpHeader.getLostPackets,
    RtcpHeader.getSeqnumCycles, RtcpHeader.getHighestSeqnum, RtcpHeader.getJitter, RtcpHeader.getLastSr,
    RtcpHeader.getDelaySinceLastSr in *.
  repeat (match goal with |- context [get_bf ?f buf chead] =>
    let v := fresh "v" in let E := fresh "E" in
    destruct (get_bf_is_Some f buf chead) as [v E]; [unfold in_bounds; simpl; lia|] end;
    rewrite E; try rewrite E in Hn; clear E; cbn [fmap option_fmap option_map option_bind mbind]).
  cbv zeta. match goal with |- context [report_delay now ?l ?c ?r delay0] => set (lsr := l) in *; set (rs := r);
    assert (Ed : report_delay now lsr c rs delay0 = delay0) end.
  { unfold report_delay. specialize (Hn lsr eq_refl).
    assert (Hrs : rs = senderReports d) by (unfold rs; destruct (_ <? _); reflexivity).
    rewrite Hrs. clear - Hn. induction Hn as [|sr l Hne _ IH]; [reflexivity|]. cbn [foldl].
    rewrite (proj2 (Z.eqb_neq _ _) Hne). exact IH. }
  rewrite Ed. match goal with |- context [lastSr ?x =? 0] =>
    assert (E0 : lastSr x = 0) by (cbn; destruct (_ <? _); exact H0); rewrite E0 end.
  eexists. split; reflexivity.
Qed.
