(* ===== verification/Stats.v ===== *)
(** * Stats: per-source statistics (src/Src/media/Stats.cpp, Stats.h)

    [statsPacket_] maps an SSRC to named counters.  [processRtcpPacket] walks a compound
    packet with the loop of [Rtcp] and records what the blocks say; [getStats] prints the
    maps in their order as a JSON text.  The clock is an argument, the listener a flag:
    what it is told is returned.  [None] is an access outside the packet.

    The theorems: over a compound packet every counter moves by the number of blocks of
    its kind and source and the other sources stay; the printed text is the list of the
    entries, comma-separated; the bit rate over a period. *)

From stdpp Require Import sorting pretty.
From S2P Require Import Prelude Bytes RtpHeaders Rtcp.
Local Open Scope string_scope.
Local Open Scope Z_scope.

Abbreviation singleSSRCstatsMap_t := (gmap string Z).
Abbreviation fullStatsMap_t := (gmap Z singleSSRCstatsMap_t).

Record Stats := {
  rtpBytesReceived_ : Z;
  bitRateCalculationStart_ : timeval;
  statsPacket_ : fullStatsMap_t;
  theListener_ : bool;
  videoSSRC_ : Z;
  audioSSRC_ : Z
}.

#[export] Instance eta_Stats : Eta Stats := fun s =>
  {| rtpBytesReceived_ := rtpBytesReceived_ s; bitRateCalculationStart_ := bitRateCalculationStart_ s;
     statsPacket_ := statsPacket_ s; theListener_ := theListener_ s; videoSSRC_ := videoSSRC_ s;
     audioSSRC_ := audioSSRC_ s |}.

(** The SSRCs are not initialised: they stay as in [mem]. *)
Definition Stats_ctor (mem : Stats) (now : timeval) : Stats :=
  mem <| theListener_ := false |> <| rtpBytesReceived_ := 0 |> <| bitRateCalculationStart_ := now |>
      <| statsPacket_ := ∅ |>.

Definition setVideoSourceSSRC (ssrc : Z) (s : Stats) : Stats := s <| videoSSRC_ := ssrc |>.
Definition setAudioSourceSSRC (ssrc : Z) (s : Stats) : Stats := s <| audioSSRC_ := ssrc |>.
Definition setStatsListener (listener : bool) (s : Stats) : Stats := s <| theListener_ := listener |>.

(** [now2] is the second reading of the clock. *)
Definition processRtpPacket (len : Z) (now now2 : timeval) (s : Stats) : Z * Stats :=
  let bytes := u64 (rtpBytesReceived_ s + len) in
  let s := s <| rtpBytesReceived_ := bytes |> in
  let delay := u64 (to_ms now - to_ms (bitRateCalculationStart_ s)) in
  if 2000 <? delay then
    (u32 (u64 (8 * bytes * 1000) / delay),
     s <| rtpBytesReceived_ := 0 |> <| bitRateCalculationStart_ := now2 |>)
  else (0, s).

(** ** The counters *)

(** [statsPacket_[ssrc]]: an SSRC that is not there gets an empty map. *)
Definition of_ssrc (m : fullStatsMap_t) (ssrc : Z) : singleSSRCstatsMap_t := default ∅ (m !! ssrc).

Definition set_stat (name : string) (v ssrc : Z) (m : fullStatsMap_t) : fullStatsMap_t :=
  <[ssrc := <[name := v]> (of_ssrc m ssrc)]> m.

Definition get_stat (name : string) (m : fullStatsMap_t) (ssrc : Z) : Z :=
  default 0 (of_ssrc m ssrc !! name).

Definition setPacketsLost := set_stat "packetsLost".
Definition setFractionLost := set_stat "fractionLost".
Definition setRtcpPacketSent := set_stat "rtcpPacketSent".
Definition setRtcpBytesSent := set_stat "rtcpBytesSent".
Definition setJitter := set_stat "jitter".
Definition setBandwidth := set_stat "bandwidth".
Definition setSourceSSRC := set_stat "sourceSsrc".

(** The [accountXMessage] methods: [if (count(name)) [name]++; else [name] = 1]. *)
Definition account (name : string) (ssrc : Z) (m : fullStatsMap_t) : fullStatsMap_t :=
  match of_ssrc m ssrc !! name with
  | Some n => set_stat name (u64 (n + 1)) ssrc m
  | None => set_stat name 1 ssrc m
  end.

Definition accountPLIMessage := account "PLI".
Definition accountSLIMessage := account "SLI".
Definition accountFIRMessage := account "FIR".
Definition accountNACKMessage := account "NACK".
Definition accountRTPPacket := account "receivedRTPPackets".

(** The second [processRtcpPacket], for one block. *)
Definition process_block (buf : list Z) (chead : Z) (m : fullStatsMap_t)
    : option (list Z * fullStatsMap_t) :=
  ssrc ← RtcpHeader.getSSRC buf chead;
  packettype ← RtcpHeader.getPacketType buf chead;
  if packettype =? RTCP_Receiver_PT then
    f ← RtcpHeader.getFractionLost buf chead;
    l ← RtcpHeader.getLostPackets buf chead;
    j ← RtcpHeader.getJitter buf chead;
    s ← RtcpHeader.getSourceSSRC buf chead;
    Some (buf, setSourceSSRC s ssrc (setJitter j ssrc (setPacketsLost l ssrc (setFractionLost f ssrc m))))
  else if packettype =? RTCP_Sender_PT then
    p ← RtcpHeader.getPacketsSent buf chead;
    o ← RtcpHeader.getOctetsSent buf chead;
    Some (buf, setRtcpBytesSent o ssrc (setRtcpPacketSent p ssrc m))
  else if packettype =? RTCP_RTP_Feedback_PT then Some (buf, accountNACKMessage ssrc m)
  else if packettype =? RTCP_PS_Feedback_PT then
    fmt ← RtcpHeader.getBlockCount buf chead;
    if fmt =? RTCP_PLI_FMT then Some (buf, accountPLIMessage ssrc m)
    else if fmt =? RTCP_SLI_FMT then Some (buf, accountSLIMessage ssrc m)
    else if fmt =? RTCP_FIR_FMT then Some (buf, accountFIRMessage ssrc m)
    else if fmt =? RTCP_AFB then
      remb ← RtcpHeader.isREMB buf chead;
      if remb : bool then
        bitrate ← RtcpHeader.remb_bitrate buf chead; Some (buf, setBandwidth bitrate ssrc m)
      else Some (buf, m)
    else Some (buf, m)
  else Some (buf, m).

(** ** Printing *)

Definition quote : string := String (Ascii.ascii_of_nat 34) EmptyString.
Definition newline : string := String (Ascii.ascii_of_nat 10) EmptyString.

(** The order of [std::string]. *)
Definition string_le (a b : string) : Prop := String.leb a b = true.
#[export] Instance string_le_dec : RelDecision string_le.
Proof. intros a b. unfold string_le. apply _. Defined.

(** The keys of a [std::map], in its order. *)
Definition ssrcs_of (m : fullStatsMap_t) : list Z := merge_sort Z.le (map_to_list m).*1.
Definition names_of (m : singleSSRCstatsMap_t) : list string :=
  merge_sort string_le (map_to_list m).*1.

(** The inner loop: [if (++it != end) theString << ...] after every entry. *)
Fixpoint print_stats (m : singleSSRCstatsMap_t) (names : list string) : string :=
  match names with
  | [] => EmptyString
  | name :: rest =>
      quote ++ name ++ quote ++ ":" ++ quote ++ pretty (default 0 (m !! name)) ++ quote ++
      (match rest with [] => EmptyString | _ => "," ++ newline end) ++ print_stats m rest
  end.

Fixpoint print_ssrcs (s : Stats) (ssrcs : list Z) : string :=
  match ssrcs with
  | [] => EmptyString
  | ssrc :: rest =>
      "{" ++ quote ++ "ssrc" ++ quote ++ ":" ++ quote ++ pretty ssrc ++ quote ++ "," ++ newline ++
      (if ssrc =? videoSSRC_ s then quote ++ "type" ++ quote ++ ":" ++ quote ++ "video" ++ quote ++ "," ++ newline
       else if ssrc =? audioSSRC_ s
       then quote ++ "type" ++ quote ++ ":" ++ quote ++ "audio" ++ quote ++ "," ++ newline
       else EmptyString) ++
      print_stats (of_ssrc (statsPacket_ s) ssrc) (names_of (of_ssrc (statsPacket_ s) ssrc)) ++ "}" ++
      (match rest with [] => EmptyString | _ => "," end) ++ print_ssrcs s rest
  end.

Definition getStats (s : Stats) : string := "[" ++ print_ssrcs s (ssrcs_of (statsPacket_ s)) ++ "]".

Definition sendStats (s : Stats) : option string := if theListener_ s then Some (getStats s) else None.

(** The first [processRtcpPacket]: the new state, and what the listener is told. *)
Definition processRtcpPacket (buf : list Z) (length : Z) (s : Stats) : option (Stats * option string) :=
  '(_, m) ← compound process_block buf length (statsPacket_ s);
  let s := s <| statsPacket_ := m |> in
  Some (s, sendStats s).

(** ** The counters over a compound packet *)

Local Open Scope list_scope.

Definition stats_ok (b : list Z) : Prop :=
  (8 <= length b)%nat /\
  (RtcpHeader.getPacketType b 0 = Some RTCP_Receiver_PT -> 24 <= length b)%nat /\
  (RtcpHeader.getPacketType b 0 = Some RTCP_Sender_PT -> 28 <= length b)%nat /\
  (RtcpHeader.getPacketType b 0 = Some RTCP_PS_Feedback_PT ->
   RtcpHeader.getBlockCount b 0 = Some RTCP_AFB -> 20 <= length b)%nat.

(** Two fields' values in every case, to compare an access in context with one alone. *)
Ltac same_fields :=
  repeat (first
    [ rewrite get_bf_middle by (unfold in_bounds; simpl; lia)
    | match goal with |- context [get_bf ?f ?b 0] => destruct (get_bf f b 0); [|reflexivity] end ];
    cbn [fmap option_fmap option_map option_bind mbind]).

Lemma process_block_middle pre b post m :
  stats_ok b ->
  process_block (pre ++ b ++ post) (Z.of_nat (length pre)) m =
    '(b', m') ← process_block b 0 m; Some (pre ++ b' ++ post, m').
Proof.
  intros (H8 & Hrr & Hsr & Hps). unfold process_block, RtcpHeader.getPacketType, RtcpHeader.getBlockCount,
    RtcpHeader.getSSRC in *.
  rewrite !get_bf_middle by (unfold in_bounds; simpl; lia).
  destruct (get_bf RtcpHeader.ssrc b 0) as [ssrc|]; [|reflexivity].
  cbn [fmap option_fmap option_map option_bind mbind].
  destruct (get_bf RtcpHeader.packettype b 0) as [pt|]; [|reflexivity]. cbn [option_bind mbind].
  destruct (Z.eqb_spec pt RTCP_Receiver_PT) as [->|_].
  { specialize (Hrr eq_refl). unfold RtcpHeader.getFractionLost, RtcpHeader.getLostPackets,
      RtcpHeader.getJitter, RtcpHeader.getSourceSSRC. same_fields. reflexivity. }
  destruct (Z.eqb_spec pt RTCP_Sender_PT) as [->|_].
  { specialize (Hsr eq_refl). unfold RtcpHeader.getPacketsSent, RtcpHeader.getOctetsSent.
    same_fields. reflexivity. }
  destruct (Z.eqb_spec pt RTCP_RTP_Feedback_PT) as [->|_]; [reflexivity|].
  destruct (Z.eqb_spec pt RTCP_PS_Feedback_PT) as [->|_]; [|reflexivity].
  destruct (get_bf RtcpHeader.blockcount b 0) as [bc|]; [|reflexivity]. cbn [option_bind mbind].
  destruct (bc =? RTCP_PLI_FMT); [reflexivity|]. destruct (bc =? RTCP_SLI_FMT); [reflexivity|].
  destruct (bc =? RTCP_FIR_FMT); [reflexivity|].
  destruct (Z.eqb_spec bc RTCP_AFB) as [->|_]; [|reflexivity]. specialize (Hps eq_refl eq_refl).
  rewrite isREMB_middle by lia. destruct (RtcpHeader.isREMB b 0) as [[]|]; [|reflexivity..].
  cbn [option_bind mbind]. unfold RtcpHeader.remb_bitrate, RtcpHeader.getBrMantis, RtcpHeader.getBrExp.
  same_fields. destruct (_ <=? _); reflexivity.
Qed.

Lemma get_set_stat name name' v ssrc ssrc' m :
  get_stat name (set_stat name' v ssrc' m) ssrc =
  if bool_decide (name = name' /\ ssrc = ssrc') then v else get_stat name m ssrc.
Proof.
  unfold get_stat, set_stat, of_ssrc. case_bool_decide as H.
  - destruct H as [-> ->]. rewrite lookup_insert_eq. cbn [default from_option id].
    rewrite lookup_insert_eq. reflexivity.
  - destruct (decide (ssrc = ssrc')) as [->|]; [|rewrite lookup_insert_ne by congruence; reflexivity].
    rewrite lookup_insert_eq. cbn [default from_option id]. rewrite lookup_insert_ne; [reflexivity|].
    intros ->. tauto.
Qed.

Lemma get_account name name' ssrc ssrc' m :
  in_width 64 (get_stat name m ssrc) ->
  get_stat name (account name' ssrc' m) ssrc =
  u64 (get_stat name m ssrc + if bool_decide (name = name' /\ ssrc = ssrc') then 1 else 0).
Proof.
  intros Hw. unfold account.
  assert (E : get_stat name' m ssrc' = default 0 (of_ssrc m ssrc' !! name')) by reflexivity.
  destruct (of_ssrc m ssrc' !! name') as [n|]; rewrite get_set_stat; case_bool_decide as H;
    rewrite ?Z.add_0_r; try (symmetry; apply wrap_small; assumption); destruct H as [-> ->]; rewrite E;
    reflexivity.
Qed.

(** The counter a block moves. *)
Definition kind (b : list Z) : option string :=
  packettype ← RtcpHeader.getPacketType b 0;
  fmt ← RtcpHeader.getBlockCount b 0;
  if packettype =? RTCP_RTP_Feedback_PT then Some "NACK"%string
  else if packettype =? RTCP_PS_Feedback_PT then
    if fmt =? RTCP_PLI_FMT then Some "PLI"%string
    else if fmt =? RTCP_SLI_FMT then Some "SLI"%string
    else if fmt =? RTCP_FIR_FMT then Some "FIR"%string else None
  else None.

Definition counted (name : string) (ssrc : Z) (b : list Z) : bool :=
  bool_decide (kind b = Some name /\ RtcpHeader.getSSRC b 0 = Some ssrc).

Definition counters : list string := ["NACK"; "PLI"; "SLI"; "FIR"]%string.

(** A value that is not one of the counters. *)
Lemma set_other name name' v ssrc ssrc' m :
  name ∈ counters -> name' ∉ counters -> get_stat name (set_stat name' v ssrc' m) ssrc = get_stat name m ssrc.
Proof.
  intros H H'. rewrite get_set_stat, bool_decide_false; [reflexivity|]. intros [-> _]. contradiction.
Qed.

Lemma set_stat_other name v ssrc ssrc' m :
  ssrc <> ssrc' -> set_stat name v ssrc' m !! ssrc = m !! ssrc.
Proof. intros. apply lookup_insert_ne. congruence. Qed.

Lemma account_other name ssrc ssrc' m : ssrc <> ssrc' -> account name ssrc' m !! ssrc = m !! ssrc.
Proof. intros. unfold account. destruct (of_ssrc m ssrc' !! name); apply set_stat_other; assumption. Qed.

Ltac not_counter := by (vm_compute; set_solver).

Lemma process_block_effect b m b' m' name ssrc :
  process_block b 0 m = Some (b', m') -> name ∈ counters -> in_width 64 (get_stat name m ssrc) ->
  b' = b /\
  get_stat name m' ssrc = u64 (get_stat name m ssrc + if counted name ssrc b then 1 else 0) /\
  (RtcpHeader.getSSRC b 0 <> Some ssrc -> m' !! ssrc = m !! ssrc).
Proof.
  intros H Hn Hw. unfold process_block in H.
  apply bind_Some in H as (s & Es & H). apply bind_Some in H as (pt & Ept & H).
  assert (Hk : forall n, kind b = Some n -> get_stat name (account n s m) ssrc =
    u64 (get_stat name m ssrc + if counted name ssrc b then 1 else 0)).
  { intros n Ek. rewrite get_account by assumption. do 2 f_equal. unfold counted. rewrite Ek, Es.
    case_bool_decide as H1; case_bool_decide as H2; try reflexivity; exfalso.
    - destruct H1 as [-> ->]. tauto.
    - destruct H2 as [? ?]. apply H1. split; congruence. }
  assert (Hno : kind b = None -> u64 (get_stat name m ssrc + if counted name ssrc b then 1 else 0) =
                get_stat name m ssrc).
  { intros Ek. unfold counted. rewrite Ek, bool_decide_false by (intros [? _]; discriminate).
    rewrite Z.add_0_r. apply wrap_small. assumption. }
  assert (Hc : is_Some (RtcpHeader.getBlockCount b 0)).
  { unfold RtcpHeader.getPacketType, RtcpHeader.getBlockCount in *. apply get_bf_is_Some.
    exact (get_bf_inv _ _ _ _ Ept). }
  destruct Hc as [bc Ebc].
  assert (Hkind : kind b = (if pt =? RTCP_RTP_Feedback_PT then Some "NACK"%string
    else if pt =? RTCP_PS_Feedback_PT then
      if bc =? RTCP_PLI_FMT then Some "PLI"%string else if bc =? RTCP_SLI_FMT then Some "SLI"%string
      else if bc =? RTCP_FIR_FMT then Some "FIR"%string else None else None))
    by (unfold kind; rewrite Ept, Ebc; reflexivity).
  assert (Hs : RtcpHeader.getSSRC b 0 <> Some ssrc -> ssrc <> s) by congruence.
  destruct (Z.eqb_spec pt RTCP_Receiver_PT) as [->|_].
  { apply bind_Some in H as (f & _ & H). apply bind_Some in H as (l & _ & H).
    apply bind_Some in H as (j & _ & H). apply bind_Some in H as (src & _ & H). injection H as <- <-.
    split; [reflexivity|]. rewrite (Hno Hkind). unfold setSourceSSRC, setJitter, setPacketsLost, setFractionLost.
    split; [rewrite !set_other by (assumption || not_counter); reflexivity|].
    intros Hne. rewrite !set_stat_other by auto. reflexivity. }
  destruct (Z.eqb_spec pt RTCP_Sender_PT) as [->|_].
  { apply bind_Some in H as (f & _ & H). apply bind_Some in H as (l & _ & H). injection H as <- <-.
    split; [reflexivity|]. rewrite (Hno Hkind). unfold setRtcpBytesSent, setRtcpPacketSent.
    split; [rewrite !set_other by (assumption || not_counter); reflexivity|].
    intros Hne. rewrite !set_stat_other by auto. reflexivity. }
  destruct (Z.eqb_spec pt RTCP_RTP_Feedback_PT) as [->|_].
  { injection H as <- <-. split; [reflexivity|]. split; [exact (Hk _ Hkind)|].
    intros Hne. apply account_other. auto. }
  destruct (Z.eqb_spec pt RTCP_PS_Feedback_PT) as [->|_].
  2:{ injection H as <- <-. split; [reflexivity|]. split; [symmetry; exact (Hno Hkind)|reflexivity]. }
  rewrite Ebc in H. cbn [option_bind mbind] in H.
  destruct (bc =? RTCP_PLI_FMT).
  { injection H as <- <-. split; [reflexivity|]. split; [exact (Hk _ Hkind)|].
    intros Hne. apply account_other. auto. }
  destruct (bc =? RTCP_SLI_FMT).
  { injection H as <- <-. split; [reflexivity|]. split; [exact (Hk _ Hkind)|].
    intros Hne. apply account_other. auto. }
  destruct (bc =? RTCP_FIR_FMT).
  { injection H as <- <-. split; [reflexivity|]. split; [exact (Hk _ Hkind)|].
    intros Hne. apply account_other. auto. }
  rewrite (Hno Hkind).
  destruct (bc =? RTCP_AFB); [|injection H as <- <-; auto].
  apply bind_Some in H as ([] & _ & H); [|injection H as <- <-; auto].
  apply bind_Some in H as (r & _ & H). injection H as <- <-. split; [reflexivity|].
  split; [apply set_other; [assumption | not_counter]|]. intros Hne. apply set_stat_other. auto.
Qed.

Lemma process_block_same b m b' m' : process_block b 0 m = Some (b', m') -> b' = b.
Proof.
  unfold process_block. intros H.
  repeat first [ apply bind_Some in H as (? & _ & H)
               | match type of H with (if ?c then _ else _) = _ => destruct c end ]; congruence.
Qed.

#[export] Instance process_block_local : block_local process_block stats_ok.
Proof.
  split.
  - intros. apply process_block_middle. assumption.
  - intros b m b' m' _ H. apply process_block_same in H as ->. reflexivity.
Qed.

Definition count (name : string) (ssrc : Z) (bs : list (list Z)) : Z :=
  Z.of_nat (length (List.filter (counted name ssrc) bs)).

Lemma run_blocks_effect bs : forall m bs' m' name ssrc,
  run_blocks process_block bs m = Some (bs', m') -> name ∈ counters -> in_width 64 (get_stat name m ssrc) ->
  get_stat name m' ssrc = u64 (get_stat name m ssrc + count name ssrc bs) /\
  (Forall (fun b => RtcpHeader.getSSRC b 0 <> Some ssrc) bs -> m' !! ssrc = m !! ssrc).
Proof.
  induction bs as [|b bs IH]; intros m bs' m' name ssrc H Hn Hw; cbn [run_blocks] in H.
  - injection H as _ <-. unfold count. cbn. rewrite Z.add_0_r, wrap_small by assumption. auto.
  - apply bind_Some in H as ([b1 m1] & E1 & H). apply bind_Some in H as ([bs1 m2] & E2 & H).
    injection H as _ <-.
    destruct (process_block_effect _ _ _ _ name ssrc E1 Hn Hw) as (_ & Hg & Hs).
    destruct (IH _ _ _ name ssrc E2 Hn) as [Hg2 Hs2]; [rewrite Hg; apply wrap_bound; lia|].
    split.
    + rewrite Hg2, Hg. unfold wrap. rewrite Z.add_mod_idemp_l by lia. f_equal.
      unfold count. cbn [List.filter]. destruct (counted name ssrc b); cbn [length]; lia.
    + intros Hall. apply Forall_cons in Hall as [Hb Hall]. rewrite Hs2 by assumption. auto.
Qed.

(** C25. Accounting of a compound packet of well-formed blocks that are read completely: for
    every source, each of the counters NACK, PLI, SLI and FIR moves by exactly the number
    of blocks of that kind the source sent, modulo 2^64; a source that sent no block
    keeps all its statistics; and the listener, if there is one, is told the result. *)
Theorem rtcp_accounting (bs : list (list Z)) (s : Stats) :
  bs <> [] -> Forall (fun b => framed b /\ stats_ok b /\ forall m, is_Some (process_block b 0 m)) bs ->
  exists s',
    processRtcpPacket (concat bs) (Z.of_nat (length (concat bs))) s = Some (s', sendStats s') /\
    (forall name ssrc, name ∈ counters -> in_width 64 (get_stat name (statsPacket_ s) ssrc) ->
       get_stat name (statsPacket_ s') ssrc =
       u64 (get_stat name (statsPacket_ s) ssrc + count name ssrc bs)) /\
    (forall ssrc, Forall (fun b => RtcpHeader.getSSRC b 0 <> Some ssrc) bs ->
       in_width 64 (get_stat "PLI" (statsPacket_ s) ssrc) ->
       statsPacket_ s' !! ssrc = statsPacket_ s !! ssrc) /\
    theListener_ s' = theListener_ s.
Proof.
  intros Hne Hall. unfold processRtcpPacket.
  assert (Hok : Forall (fun b => framed b /\ stats_ok b) bs)
    by (apply (Forall_impl _ _ _ Hall); cbn; tauto).
  rewrite (compound_blocks _ stats_ok _ _ Hne Hok).
  assert (Hrun : forall m, exists bs' m', run_blocks process_block bs m = Some (bs', m')).
  { clear Hne Hok. induction Hall as [|b bs (_ & _ & Hd) _ IH]; intros m; cbn [run_blocks]; [eauto|].
    destruct (Hd m) as [[b1 m1] ->]. cbn [option_bind mbind].
    destruct (IH m1) as (bs' & m' & ->). cbn. eauto. }
  destruct (Hrun (statsPacket_ s)) as (bs' & m' & E). rewrite E. cbn [option_bind mbind].
  eexists. split; [reflexivity|]. cbn. split; [|split; [|reflexivity]].
  - intros name ssrc Hn Hw. exact (proj1 (run_blocks_effect _ _ _ _ _ _ E Hn Hw)).
  - intros ssrc Hs Hw. refine (proj2 (run_blocks_effect _ _ _ _ "PLI" ssrc E _ Hw) Hs).
    right. left.
Qed.

Lemma rtcp_accounting_witness :
  exists s', processRtcpPacket (concat [[0x81; 206; 0; 2; 0; 0; 0; 7; 0; 0; 0; 5];
                                        [0x81; 206; 0; 2; 0; 0; 0; 7; 0; 0; 0; 6]]) 24
      {| rtpBytesReceived_ := 0; bitRateCalculationStart_ := timeval0; statsPacket_ := ∅;
         theListener_ := false; videoSSRC_ := 5; audioSSRC_ := 6 |} = Some (s', None) /\
    get_stat "PLI" (statsPacket_ s') 7 = 2.
Proof.
  edestruct (rtcp_accounting [[0x81; 206; 0; 2; 0; 0; 0; 7; 0; 0; 0; 5];
      [0x81; 206; 0; 2; 0; 0; 0; 7; 0; 0; 0; 6]]
    {| rtpBytesReceived_ := 0; bitRateCalculationStart_ := timeval0; statsPacket_ := ∅;
       theListener_ := false; videoSSRC_ := 5; audioSSRC_ := 6 |}) as (s' & E & Hc & _ & Hl).
  - discriminate.
  - apply Forall_forall. intros b Hb. set_unfold in Hb. destruct Hb as [->|[->|[]]];
      (split; [eexists; split; vm_compute; reflexivity|]);
      (split; [|intros m; eexists; reflexivity]);
      (split; [simpl; lia|]); (split; [intros Hp; vm_compute in Hp; discriminate|]);
      (split; [intros Hp; vm_compute in Hp; discriminate|]);
      intros _ Hp; vm_compute in Hp; discriminate.
  - exists s'. unfold sendStats in E. rewrite Hl in E. split; [exact E|].
    rewrite (Hc "PLI"%string 7); [reflexivity | right; left | split; vm_compute; congruence].
Defined.

(** ** The printed text *)

Local Open Scope string_scope.

Definition stat_entry (m : singleSSRCstatsMap_t) (name : string) : string :=
  quote ++ name ++ quote ++ ":" ++ quote ++ pretty (default 0 (m !! name)) ++ quote.
Definition type_entry (s : Stats) (ssrc : Z) : string :=
  if (ssrc =? videoSSRC_ s)%Z then quote ++ "type" ++ quote ++ ":" ++ quote ++ "video" ++ quote ++ "," ++ newline
  else if (ssrc =? audioSSRC_ s)%Z
  then quote ++ "type" ++ quote ++ ":" ++ quote ++ "audio" ++ quote ++ "," ++ newline
  else EmptyString.
Definition ssrc_entry (s : Stats) (ssrc : Z) : string :=
  "{" ++ quote ++ "ssrc" ++ quote ++ ":" ++ quote ++ pretty ssrc ++ quote ++ "," ++ newline ++
  type_entry s ssrc ++
  String.concat ("," ++ newline) (map (stat_entry (of_ssrc (statsPacket_ s) ssrc))
    (names_of (of_ssrc (statsPacket_ s) ssrc))) ++ "}".

Lemma print_stats_concat m names :
  print_stats m names = String.concat ("," ++ newline) (map (stat_entry m) names).
Proof.
  induction names as [|n names IH]; cbn [print_stats map]; [reflexivity|]. rewrite IH.
  assert (E : stat_entry m n = quote ++ n ++ quote ++ ":" ++ quote ++ pretty (default 0%Z (m !! n)) ++ quote)
    by reflexivity.
  destruct names as [|n' names].
  - cbn [map String.concat]. rewrite E, !string_app_nil. reflexivity.
  - change (String.concat ("," ++ newline) (stat_entry m n :: map (stat_entry m) (n' :: names)))
      with (stat_entry m n ++ ("," ++ newline) ++
            String.concat ("," ++ newline) (map (stat_entry m) (n' :: names))).
    rewrite E, !string_app_assoc. reflexivity.
Qed.

Lemma print_ssrcs_concat s l : print_ssrcs s l = String.concat "," (map (ssrc_entry s) l).
Proof.
  induction l as [|x l IH]; cbn [print_ssrcs map]; [reflexivity|]. rewrite IH, print_stats_concat.
  fold (type_entry s x). destruct l as [|x' l].
  - cbn [map String.concat]. rewrite !string_app_nil. reflexivity.
  - change (String.concat "," (ssrc_entry s x :: map (ssrc_entry s) (x' :: l)))
      with (ssrc_entry s x ++ "," ++ String.concat "," (map (ssrc_entry s) (x' :: l))).
    assert (E : ssrc_entry s x = "{" ++ quote ++ "ssrc" ++ quote ++ ":" ++ quote ++ pretty x ++ quote ++
      "," ++ newline ++ type_entry s x ++ String.concat ("," ++ newline)
      (map (stat_entry (of_ssrc (statsPacket_ s) x)) (names_of (of_ssrc (statsPacket_ s) x))) ++ "}")
      by reflexivity.
    rewrite E, !string_app_assoc. reflexivity.
Qed.

(** The statistics are printed as a JSON array of one object per source, in increasing
    order of the SSRCs and without a trailing comma; an object holds the SSRC, the type of
    the two known sources, and the entries of the source in the order of their names.  A
    source without entries leaves a comma before the closing brace. *)
Theorem stats_text (s : Stats) :
  getStats s = "[" ++ String.concat "," (map (ssrc_entry s) (ssrcs_of (statsPacket_ s))) ++ "]" /\
  Sorted.Sorted Z.le (ssrcs_of (statsPacket_ s)) /\
  (forall ssrc, (ssrc ∈ ssrcs_of (statsPacket_ s))%stdpp <-> is_Some (statsPacket_ s !! ssrc)).
Proof.
  split; [unfold getStats; rewrite print_ssrcs_concat; reflexivity|]. split.
  - apply Sorted_merge_sort. intros x y. lia.
  - intros ssrc. unfold ssrcs_of. rewrite merge_sort_Permutation. rewrite list_elem_of_fmap. split.
    + intros ([k v] & -> & H). apply elem_of_map_to_list in H. eauto.
    + intros [v H]. exists (ssrc, v). split; [reflexivity|]. apply elem_of_map_to_list. assumption.
Qed.

(** ** The bit rate *)

(** Packets are counted until more than two seconds have passed since the period began;
    then the average rate in bit/s is returned, rounded down, and a new period begins. *)
Theorem rtp_bitrate (len : Z) (now now2 : timeval) (s : Stats) :
  0 <= len -> 0 <= rtpBytesReceived_ s -> (8000 * (rtpBytesReceived_ s + len) < 2 ^ 64)%Z ->
  let delay := u64 (to_ms now - to_ms (bitRateCalculationStart_ s)) in
  processRtpPacket len now now2 s =
    if (delay <=? 2000)%Z then (0%Z, s <| rtpBytesReceived_ := (rtpBytesReceived_ s + len)%Z |>)
    else (u32 (8000 * (rtpBytesReceived_ s + len) / delay),
          s <| rtpBytesReceived_ := 0%Z |> <| bitRateCalculationStart_ := now2 |>).
Proof.
  intros Hl Hr Hb delay. unfold processRtpPacket.
  rewrite (wrap_small 64 (rtpBytesReceived_ s + len)) by (unfold in_width; lia).
  cbv zeta. change (bitRateCalculationStart_ (s <| rtpBytesReceived_ := _ |>)) with (bitRateCalculationStart_ s).
  fold delay. rewrite Z.leb_antisym. destruct (Z.ltb_spec 2000 delay); cbn [negb]; [|reflexivity].
  rewrite (wrap_small 64 (8 * (rtpBytesReceived_ s + len) * 1000)) by (unfold in_width; lia).
  replace (8 * (rtpBytesReceived_ s + len) * 1000)%Z with (8000 * (rtpBytesReceived_ s + len))%Z by lia.
  reflexivity.
Qed.

Lemma rtp_bitrate_witness :
  processRtpPacket 1000 {| tv_sec := 13; tv_usec := 0 |} {| tv_sec := 13; tv_usec := 5 |}
    {| rtpBytesReceived_ := 2000; bitRateCalculationStart_ := {| tv_sec := 10; tv_usec := 0 |};
       statsPacket_ := ∅; theListener_ := false; videoSSRC_ := 0; audioSSRC_ := 0 |} =
  (8000%Z, {| rtpBytesReceived_ := 0; bitRateCalculationStart_ := {| tv_sec := 13; tv_usec := 5 |};
       statsPacket_ := ∅; theListener_ := false; videoSSRC_ := 0; audioSSRC_ := 0 |}).
Proof.
  rewrite (rtp_bitrate 1000); [reflexivity | lia | cbn [rtpBytesReceived_]; lia | cbn [rtpBytesReceived_]; lia].
Defined.
