(* ===== verification/Text.v ===== *)
(** * Text: the string primitives of the SDP parser

    [std::string] as [String.string]: [find] for a substring, [splitOneOf]
    (src/Src/media/StringUtil.cpp), [std::getline] on an [istringstream], [strtoul] with
    the 32-bit [unsigned long] of the Windows targets, and the decimal output of
    [operator<<] (stdpp's [pretty]).

    The lemmas say how they act on a text put together from fixed parts and tokens: which
    tags occur in it, where it is split, what [strtoul] reads of a printed number. *)

From Stdlib Require Import Ascii String.
From stdpp Require Import pretty.
From S2P Require Import Prelude.
Local Open Scope string_scope.
Local Open Scope Z_scope.

(** ** Characters *)

(** The character is one of [chars]: what [find_first_of] looks for. *)
Fixpoint among (chars : string) (c : ascii) : bool :=
  match chars with
  | EmptyString => false
  | String d chars => Ascii.eqb c d || among chars c
  end.

(** None of [chars] occurs in the string. *)
Fixpoint lacks (chars s : string) : bool :=
  match s with
  | EmptyString => true
  | String c s => negb (among chars c) && lacks chars s
  end.

Definition newline : string := String "010" EmptyString.
Definition carriage_return : string := String "013" EmptyString.

(** What is left of a [std::string] that goes through [c_str()]. *)
Fixpoint c_str (s : string) : string :=
  match s with
  | EmptyString => EmptyString
  | String c s => if Ascii.eqb c "000" then EmptyString else String c (c_str s)
  end.

(** ** Searching and splitting *)

(** [s.find(tag) != std::string::npos]. *)
Fixpoint has (tag s : string) : bool :=
  String.prefix tag s || match s with EmptyString => false | String _ s => has tag s end.

(** The string up to the first delimiter, and what follows the delimiter. *)
Fixpoint split_at (delims s : string) : option (string * string) :=
  match s with
  | EmptyString => None
  | String c s =>
    if among delims c then Some (EmptyString, s)
    else '(piece, rest) ← split_at delims s; Some (String c piece, rest)
  end.

(** Every round but the last drops a character: the length of the string is enough fuel. *)
Fixpoint splitOneOf_loop (fuel : nat) (remaining delims : string) (maxSplits splits : nat) : list string :=
  let last := match remaining with EmptyString => [] | _ => [remaining] end in
  match fuel with
  | O => last
  | S fuel =>
    if (maxSplits =? 0)%nat || (splits <? maxSplits)%nat then
      match split_at delims remaining with
      | Some (piece, rest) => piece :: splitOneOf_loop fuel rest delims maxSplits (S splits)
      | None => last
      end
    else last
  end.

Definition splitOneOf (str delims : string) (maxSplits : nat) : list string :=
  splitOneOf_loop (String.length str) str delims maxSplits 0.

(** The lines [std::getline] reads until it fails. *)
Fixpoint getlines (s : string) : list string :=
  match s with
  | EmptyString => []
  | String c s =>
    if Ascii.eqb c "010" then EmptyString :: getlines s else
    match getlines s with
    | [] => [String c EmptyString]
    | line :: lines => String c line :: lines
    end
  end.

(** ** Numbers *)

Definition is_space (c : ascii) : bool :=
  let n := Z.of_N (N_of_ascii c) in (n =? 32) || ((9 <=? n) && (n <=? 13)).

Definition digit (c : ascii) : option Z :=
  let n := Z.of_N (N_of_ascii c) in if (48 <=? n) && (n <=? 57) then Some (n - 48) else None.

Fixpoint skip_spaces (s : string) : string :=
  match s with
  | String c s' => if is_space c then skip_spaces s' else s
  | EmptyString => EmptyString
  end.

Fixpoint digits (acc : Z) (s : string) : Z :=
  match s with
  | EmptyString => acc
  | String c s => match digit c with Some d => digits (10 * acc + d) s | None => acc end
  end.

(** [strtoul(s, NULL, 10)]: out-of-range values give [ULONG_MAX]; a minus sign negates
    in the unsigned type. *)
Definition strtoul (s : string) : Z :=
  let s := skip_spaces s in
  let (negative, s) :=
    match s with
    | String "-" s => (true, s)
    | String "+" s => (false, s)
    | _ => (false, s)
    end in
  let v := digits 0 s in
  if 2 ^ 32 <=? v then 2 ^ 32 - 1 else if negative : bool then u32 (- v) else v.

(** ** Characters that do not occur *)

Lemma lacks_app chars a b : lacks chars (a +:+ b) = lacks chars a && lacks chars b.
Proof.
  induction a as [|c a IH]; [reflexivity|]. change (String c a +:+ b) with (String c (a +:+ b)).
  cbn [lacks]. rewrite IH. apply andb_assoc.
Qed.

(** A string lacks fewer characters. *)
Lemma lacks_weaken chars chars' s :
  forallb (among chars) (list_ascii_of_string chars') = true ->
  lacks chars s = true -> lacks chars' s = true.
Proof.
  intros Hsub. assert (Ha : forall c, among chars' c = true -> among chars c = true).
  { intros c. induction chars' as [|d chars' IH]; [discriminate|].
    cbn [list_ascii_of_string forallb] in Hsub. apply andb_true_iff in Hsub as [Hd Hsub].
    cbn [among]. intros [E | H]%orb_true_iff; [|auto].
    apply Ascii.eqb_eq in E as ->. assumption. }
  induction s as [|c s IH]; [reflexivity|]. cbn [lacks]. intros [H1 H2]%andb_true_iff.
  apply negb_true_iff in H1. rewrite IH, andb_true_r by assumption.
  apply negb_true_iff. destruct (among chars' c) eqn:E; [|reflexivity].
  apply Ha in E. congruence.
Qed.

(** ** Splitting a text of tokens *)

Lemma split_at_app delims a d b :
  lacks delims a = true -> among delims d = true ->
  split_at delims (a +:+ String d b) = Some (a, b).
Proof.
  intros Ha Hd. induction a as [|c a IH].
  { change ("" +:+ String d b) with (String d b). cbn [split_at]. rewrite Hd. reflexivity. }
  cbn [lacks] in Ha. apply andb_true_iff in Ha as [Hc Ha]. apply negb_true_iff in Hc.
  change (String c a +:+ String d b) with (String c (a +:+ String d b)).
  cbn [split_at]. rewrite Hc, (IH Ha). reflexivity.
Qed.

Lemma split_at_none delims a : lacks delims a = true -> split_at delims a = None.
Proof.
  induction a as [|c a IH]; [reflexivity|]. cbn [lacks split_at].
  intros [Hc Ha]%andb_true_iff. apply negb_true_iff in Hc. rewrite Hc, (IH Ha). reflexivity.
Qed.

(** [splitOneOf] after [n] splits, whatever the fuel beyond the length. *)
Definition pieces (max n : nat) (delims s : string) : list string :=
  splitOneOf_loop (String.length s) s delims max n.

Lemma split_at_length delims s a b :
  split_at delims s = Some (a, b) -> (String.length b < String.length s)%nat.
Proof.
  revert a b. induction s as [|c s IH]; intros a b; [discriminate|]. cbn [split_at String.length].
  destruct (among delims c); [intros [= <- <-]; lia|].
  destruct (split_at delims s) as [[a' b']|] eqn:E; [|discriminate].
  cbn. intros [= <- <-]. specialize (IH _ _ eq_refl). lia.
Qed.

Lemma splitOneOf_loop_fuel fuel s delims max n :
  (String.length s <= fuel)%nat -> splitOneOf_loop fuel s delims max n = pieces max n delims s.
Proof.
  unfold pieces. remember (String.length s) as k eqn:Hk.
  assert (Hk' : (String.length s <= k)%nat) by lia. clear Hk.
  revert k s n Hk'. induction fuel as [|fuel IH]; intros k s n Hk Hf.
  - assert (s = EmptyString) as ->. { destruct s; [reflexivity | cbn in Hk; lia]. }
    destruct k; [reflexivity|]. cbn. destruct (_ || _)%bool; reflexivity.
  - cbn [splitOneOf_loop]. destruct k as [|k].
    { assert (s = EmptyString) as ->. { destruct s; [reflexivity | cbn in Hk; lia]. }
      cbn. destruct (_ || _)%bool; reflexivity. }
    cbn [splitOneOf_loop]. destruct (_ || _)%bool; [|reflexivity].
    destruct (split_at delims s) as [[a b]|] eqn:E; [|reflexivity].
    apply split_at_length in E. f_equal. apply IH; lia.
Qed.

Lemma pieces_cons max n delims a d b :
  lacks delims a = true -> among delims d = true ->
  ((max =? 0)%nat || (n <? max)%nat) = true ->
  pieces max n delims (a +:+ String d b) = a :: pieces max (S n) delims b.
Proof.
  intros Ha Hd Hn. unfold pieces at 1.
  assert (Hl : (String.length (a +:+ String d b) = S (String.length a + String.length b))%nat).
  { clear. induction a as [|c a IH]; [reflexivity|].
    change (String c a +:+ String d b) with (String c (a +:+ String d b)).
    cbn [String.length]. rewrite IH. reflexivity. }
  rewrite Hl. cbn [splitOneOf_loop]. rewrite Hn, (split_at_app _ _ _ _ Ha Hd).
  rewrite splitOneOf_loop_fuel by lia. reflexivity.
Qed.

Lemma pieces_last max n delims a :
  lacks delims a = true -> a <> EmptyString -> pieces max n delims a = [a].
Proof.
  intros Ha Hne. unfold pieces. destruct a as [|c a]; [congruence|].
  cbn [String.length splitOneOf_loop]. rewrite (split_at_none _ _ Ha).
  destruct (_ || _)%bool; reflexivity.
Qed.

(** Once the splits are used up the rest is one piece. *)
Lemma pieces_rest max n delims a :
  ((max =? 0)%nat || (n <? max)%nat) = false -> a <> EmptyString -> pieces max n delims a = [a].
Proof.
  intros Hn Hne. unfold pieces. destruct a as [|c a]; [congruence|].
  cbn [String.length splitOneOf_loop]. rewrite Hn. reflexivity.
Qed.

(** ** Lines *)

Lemma getlines_line line s :
  lacks newline line = true -> getlines (line +:+ newline +:+ s) = line :: getlines s.
Proof.
  induction line as [|c line IH]; [reflexivity|]. cbn [lacks among newline].
  rewrite orb_false_r. intros [Hc Hl]%andb_true_iff. apply negb_true_iff in Hc.
  change (String c line +:+ newline +:+ s) with (String c (line +:+ newline +:+ s)).
  cbn [getlines]. rewrite Hc, (IH Hl). reflexivity.
Qed.

(** The text of a list of lines. *)
Definition unlines (lines : list string) : string :=
  foldr (fun line s => line +:+ newline +:+ s) EmptyString lines.

Lemma getlines_unlines lines :
  Forall (fun line => lacks newline line = true) lines -> getlines (unlines lines) = lines.
Proof.
  induction 1 as [|line lines Hl _ IH]; [reflexivity|].
  cbn [unlines foldr]. fold (unlines lines). rewrite getlines_line by assumption.
  f_equal. exact IH.
Qed.

Lemma unlines_app l k : unlines (l ++ k)%list = unlines l +:+ unlines k.
Proof.
  induction l as [|line l IH]; [reflexivity|].
  cbn [unlines foldr app]. fold (unlines (l ++ k)). fold (unlines l). rewrite IH.
  rewrite !string_app_assoc. reflexivity.
Qed.

(** ** Tags in a text of tokens *)

(** No proper suffix of [lit] starts [tag]: an occurrence of the tag in [lit ++ tok] lies
    in one of the two. *)
Fixpoint clean (tag lit : string) : bool :=
  match lit with
  | EmptyString => true
  | String _ rest => (String.prefix tag lit || negb (String.prefix lit tag)) && clean tag rest
  end.

Lemma prefix_app_l tag lit tok :
  String.prefix tag lit || negb (String.prefix lit tag) = true ->
  String.prefix tag (lit +:+ tok) = String.prefix tag lit.
Proof.
  revert lit. induction tag as [|t tag IH]; intros lit H.
  { destruct lit as [|c lit]; [destruct tok|]; reflexivity. }
  destruct lit as [|c lit]; [discriminate H|].
  change (String c lit +:+ tok) with (String c (lit +:+ tok)). cbn [String.prefix] in *.
  destruct (ascii_dec t c) as [->|]; [|reflexivity].
  destruct (ascii_dec c c); [|congruence]. apply IH. assumption.
Qed.

Lemma has_app tag lit tok :
  clean tag lit = true -> has tag tok = false -> has tag (lit +:+ tok) = has tag lit.
Proof.
  intros Hc Ht. induction lit as [|c lit IH].
  - change ("" +:+ tok) with tok. rewrite Ht. destruct tag; [destruct tok; discriminate Ht | reflexivity].
  - cbn [clean] in Hc. apply andb_true_iff in Hc as [H1 H2].
    change (String c lit +:+ tok) with (String c (lit +:+ tok)) at 1. cbn [has].
    rewrite (IH H2). change (String c (lit +:+ tok)) with (String c lit +:+ tok).
    rewrite prefix_app_l by assumption. reflexivity.
Qed.

Lemma prefix_among x d s : String.prefix (x +:+ String d EmptyString) s = true -> among s d = true.
Proof.
  revert s. induction x as [|c x IH]; intros [|e s] H; try discriminate H.
  - change ("" +:+ String d "") with (String d "") in H. cbn [String.prefix] in H.
    cbn [among]. destruct (ascii_dec d e) as [->|]; [|discriminate H]. rewrite Ascii.eqb_refl. reflexivity.
  - change (String c x +:+ String d "") with (String c (x +:+ String d "")) in H. cbn [String.prefix] in H.
    destruct (ascii_dec c e); [|discriminate H]. cbn [among]. rewrite (IH _ H). apply orb_true_r.
Qed.

(** A fixed part that ends in a character the tag does not have. *)
Lemma clean_end tag lit d : among tag d = false -> clean tag (lit +:+ String d EmptyString) = true.
Proof.
  intros H. induction lit as [|c lit IH].
  - change ("" +:+ String d "") with (String d ""). cbn [clean]. rewrite andb_true_r.
    apply orb_true_iff. right. apply negb_true_iff.
    destruct (String.prefix (String d "") tag) eqn:E; [|reflexivity].
    apply (prefix_among "") in E. congruence.
  - change (String c lit +:+ String d "") with (String c (lit +:+ String d "")). cbn [clean].
    rewrite IH, andb_true_r. apply orb_true_iff. right. apply negb_true_iff.
    destruct (String.prefix (String c (lit +:+ String d "")) tag) eqn:E; [|reflexivity].
    apply (prefix_among (String c lit)) in E. congruence.
Qed.

(** A tag with a character the text lacks does not occur. *)
Lemma has_lacks chars tag s :
  existsb (among chars) (list_ascii_of_string tag) = true -> lacks chars s = true -> has tag s = false.
Proof.
  intros Ht. assert (Hp : forall s, lacks chars s = true -> String.prefix tag s = false).
  { clear s. induction tag as [|t tag IH]; [discriminate|]. intros [|c s]; [reflexivity|].
    cbn [lacks String.prefix]. intros [Hc Hs]%andb_true_iff. apply negb_true_iff in Hc.
    destruct (ascii_dec t c) as [->|]; [|reflexivity].
    cbn [list_ascii_of_string existsb] in Ht. rewrite Hc in Ht. apply IH; assumption. }
  induction s as [|c s IH]; intros Hs.
  - cbn [has]. rewrite Hp by reflexivity. reflexivity.
  - cbn [has]. rewrite Hp by assumption. cbn [lacks] in Hs. apply andb_true_iff in Hs as [_ Hs].
    rewrite IH by assumption. reflexivity.
Qed.

(** ** Printed numbers *)

Lemma pretty_char_digit (x : N) :
  (x < 10)%N -> digit (pretty_N_char x) = Some (Z.of_N x).
Proof.
  intros H. assert (x = 0 \/ x = 1 \/ x = 2 \/ x = 3 \/ x = 4 \/ x = 5 \/ x = 6 \/ x = 7 \/ x = 8 \/ x = 9)%N
    as Hx by lia. repeat destruct Hx as [->|Hx]; try reflexivity. subst. reflexivity.
Qed.

Lemma pretty_go_length (x : N) (s : string) :
  String.length (pretty_N_go x s) = (String.length (pretty_N_go x "") + String.length s)%nat.
Proof.
  revert s. induction (N.lt_wf_0 x) as [x _ IH]; intros s.
  destruct (decide (x = 0)%N) as [->|Hx]; [rewrite !pretty_N_go_0; reflexivity|].
  assert (Hdiv : (x `div` 10 < x)%N) by (apply N.div_lt; lia).
  rewrite !(pretty_N_go_step x) by lia.
  rewrite (IH _ Hdiv (String _ s)), (IH _ Hdiv (String _ "")). cbn [String.length]. lia.
Qed.

Lemma digits_pretty_go (x : N) (s : string) (acc : Z) :
  digits acc (pretty_N_go x s) =
    digits (acc * 10 ^ Z.of_nat (String.length (pretty_N_go x "")) + Z.of_N x) s.
Proof.
  revert s acc. induction (N.lt_wf_0 x) as [x _ IH]; intros s acc.
  destruct (decide (x = 0)%N) as [->|Hx].
  { rewrite !pretty_N_go_0. cbn. f_equal. lia. }
  assert (Hdiv : (x `div` 10 < x)%N) by (apply N.div_lt; lia).
  assert (Hmod : (x `mod` 10 < 10)%N) by (apply N.mod_lt; lia).
  rewrite !(pretty_N_go_step x) by lia. rewrite IH by assumption.
  cbn [digits]. rewrite pretty_char_digit by assumption. f_equal.
  rewrite (pretty_go_length _ (String _ _)). cbn [String.length]. rewrite Nat2Z.inj_add, Z.pow_add_r by lia.
  change (10 ^ Z.of_nat 1) with 10.
  assert (Z.of_N x = 10 * Z.of_N (x `div` 10) + Z.of_N (x `mod` 10))%Z.
  { rewrite <- (N2Z.inj_mul 10), <- N2Z.inj_add. f_equal. apply N.div_mod'. }
  lia.
Qed.

Lemma digits_pretty (n : Z) : 0 <= n -> digits 0 (pretty n) = n.
Proof.
  intros Hn. destruct n as [|p|p]; [reflexivity | | lia].
  change (pretty (Z.pos p)) with (pretty_N_go (N.pos p) "").
  rewrite digits_pretty_go. reflexivity.
Qed.

(** A printed number is made of digits. *)
Fixpoint all_digits (s : string) : bool :=
  match s with
  | EmptyString => true
  | String c s => (match digit c with Some _ => true | None => false end) && all_digits s
  end.

Lemma all_digits_go (x : N) (s : string) : all_digits s = true -> all_digits (pretty_N_go x s) = true.
Proof.
  revert s. induction (N.lt_wf_0 x) as [x _ IH]; intros s Hs.
  destruct (decide (x = 0)%N) as [->|Hx]; [rewrite pretty_N_go_0; assumption|].
  rewrite pretty_N_go_step by lia. apply IH; [apply N.div_lt; lia|].
  cbn [all_digits]. rewrite pretty_char_digit by (apply N.mod_lt; lia). assumption.
Qed.

Lemma all_digits_pretty (n : Z) : 0 <= n -> all_digits (pretty n) = true.
Proof.
  intros Hn. destruct n as [|p|p]; [reflexivity | | lia].
  apply (all_digits_go (N.pos p)). reflexivity.
Qed.

Lemma pretty_nonempty (n : Z) : 0 <= n -> pretty n <> EmptyString.
Proof.
  intros Hn E. destruct n as [|p|p]; [discriminate E | | lia].
  change (pretty (Z.pos p)) with (pretty_N_go (N.pos p) "") in E.
  pose proof (digits_pretty_go (N.pos p) "" 0) as H. rewrite E in H. cbn in H. lia.
Qed.

Lemma digit_range c : digit c <> None -> 48 <= Z.of_N (N_of_ascii c) <= 57.
Proof.
  unfold digit. destruct (Z.leb_spec 48 (Z.of_N (N_of_ascii c))); [|intros []; reflexivity].
  destruct (Z.leb_spec (Z.of_N (N_of_ascii c)) 57); [lia | intros []; reflexivity].
Qed.

(** Digits differ from every character that is not one. *)
Lemma all_digits_lacks chars s :
  forallb (fun c => match digit c with Some _ => false | None => true end) (list_ascii_of_string chars) = true ->
  all_digits s = true -> lacks chars s = true.
Proof.
  intros Hc. induction s as [|c s IH]; [reflexivity|]. cbn [all_digits lacks].
  intros [Hd Hs]%andb_true_iff. rewrite (IH Hs), andb_true_r. apply negb_true_iff.
  clear IH Hs. induction chars as [|d chars IH]; [reflexivity|].
  cbn [list_ascii_of_string forallb] in Hc. apply andb_true_iff in Hc as [Hd' Hc].
  cbn [among]. rewrite (IH Hc), orb_false_r. apply Ascii.eqb_neq. intros ->.
  destruct (digit d); discriminate.
Qed.

Lemma strtoul_pretty (n : Z) : in_width 32 n -> strtoul (pretty n) = n.
Proof.
  intros [H0 H32]. pose proof (digits_pretty n H0) as Hd. pose proof (all_digits_pretty n H0) as Ha.
  pose proof (pretty_nonempty n H0) as Hne. unfold strtoul.
  destruct (pretty n) as [|c s]; [congruence|].
  cbn [all_digits] in Ha. apply andb_true_iff in Ha as [Hc _].
  assert (Hr : 48 <= Z.of_N (N_of_ascii c) <= 57)
    by (apply digit_range; destruct (digit c); [discriminate | discriminate Hc]).
  assert (E : skip_spaces (String c s) = String c s).
  { cbn [skip_spaces]. unfold is_space. cbv zeta.
    destruct (Z.eqb_spec (Z.of_N (N_of_ascii c)) 32); [lia|].
    destruct (Z.leb_spec (Z.of_N (N_of_ascii c)) 13); [lia|]. rewrite andb_false_r. reflexivity. }
  rewrite E. cbv zeta.
  assert (Hs : (match String c s with String "-" s => (true, s) | String "+" s => (false, s)
                | _ => (false, String c s) end) = (false, String c s)).
  { clear -Hr. destruct c as [[] [] [] [] [] [] [] []]; try reflexivity; cbn in Hr; lia. }
  rewrite Hs, Hd. destruct (Z.leb_spec (2 ^ 32) n); [lia | reflexivity].
Qed.
