(* ===== verification/SdpInfo.v ===== *)
(** * SdpInfo: parsing and printing session descriptions (src/Src/media/SdpInfo.cpp, SdpInfo.h)

    The data classes are a Module each, so that the members keep their names.  The parser
    [processSdp] is a sequence of steps, one per [if] of its loop, over the object and the
    locals ([Scan]); the printer [getSdp] builds the text with the loops of the source.
    [std::map] is a [gmap] where only lookups matter and a sorted association list where it
    is iterated; [unsigned long] has 32 bits.  [mem] stands for members the constructors
    leave uninitialised, [rnd] for the values of [rand()].  [None] is undefined behaviour
    (an index past the end of a vector) or a loop that does not end.

    The theorems: what the parser guarantees for every text, that it reads back the texts
    the printer writes, the payload type maps, and where parser and printer fail. *)

From Stdlib Require Import Ascii String.
From stdpp Require Import pretty.
From S2P Require Import Prelude RtpHeaders Rtcp Text.
Local Open Scope string_scope.
Local Open Scope list_scope.
Local Open Scope Z_scope.

Inductive HostType := HOST | SRFLX | PRFLX | RELAY.
Inductive StreamDirection := SENDRECV | SENDONLY | RECVONLY.
Inductive Profile := AVPF | SAVPF.

#[export] Instance MediaType_eq_dec : EqDecision MediaType.
Proof. solve_decision. Defined.

Module CryptoInfo.
Record CryptoInfo := {
  tag : Z;
  cipherSuite : string;
  keyParams : string;
  mediaType : MediaType
}.
End CryptoInfo.

Module CandidateInfo.
Record CandidateInfo := {
  isBundle : bool;
  tag : Z;
  priority : Z;
  componentId : Z;
  foundation : string;
  hostAddress : string;
  rAddress : string;
  hostPort : Z;
  rPort : Z;
  netProtocol : string;
  hostType : HostType;
  transProtocol : string;
  username : string;
  password : string;
  mediaType : MediaType
}.

#[global] Instance eta_CandidateInfo : Eta CandidateInfo := fun c =>
  {| isBundle := isBundle c; tag := tag c; priority := priority c; componentId := componentId c;
     foundation := foundation c; hostAddress := hostAddress c; rAddress := rAddress c;
     hostPort := hostPort c; rPort := rPort c; netProtocol := netProtocol c; hostType := hostType c;
     transProtocol := transProtocol c; username := username c; password := password c;
     mediaType := mediaType c |}.
End CandidateInfo.

Module BundleTag.
Record BundleTag := { id : string; mediaType : MediaType }.
End BundleTag.

Module RtpMap.
Record RtpMap := {
  payloadType : Z;
  encodingName : string;
  clockRate : Z;
  mediaType : MediaType;
  channels : Z;
  feedbackTypes : list string;
  formatParameters : list (string * string)
}.

#[global] Instance eta_RtpMap : Eta RtpMap := fun r =>
  {| payloadType := payloadType r; encodingName := encodingName r; clockRate := clockRate r;
     mediaType := mediaType r; channels := channels r; feedbackTypes := feedbackTypes r;
     formatParameters := formatParameters r |}.
End RtpMap.

Module ExtMap.
Record ExtMap := {
  value : Z;
  uri : string;
  direction : StreamDirection;
  parameters : string;
  mediaType : MediaType
}.
End ExtMap.

Import CryptoInfo (CryptoInfo).
Import CandidateInfo (CandidateInfo).
Import BundleTag (BundleTag).
Import RtpMap (RtpMap).
Import ExtMap (ExtMap).

Record SdpInfo := {
  audioSsrc : Z; videoSsrc : Z; videoRtxSsrc : Z;
  isBundle : bool; hasAudio : bool; hasVideo : bool; isRtcpMux : bool;
  videoDirection : StreamDirection; audioDirection : StreamDirection;
  profile : Profile;
  isFingerprint : bool; fingerprint : string;
  inOutPTMap : gmap Z Z; outInPTMap : gmap Z Z;
  payloadVector : list RtpMap;
  bundleTags : list BundleTag;
  extMapVector : list ExtMap;
  videoSdpMLine : Z; audioSdpMLine : Z;
  videoCodecs : Z; audioCodecs : Z;
  videoBandwidth : Z;
  candidateVector_ : list CandidateInfo;
  cryptoVector_ : list CryptoInfo;
  internalPayloadVector_ : list RtpMap;
  iceVideoUsername_ : string; iceAudioUsername_ : string;
  iceVideoPassword_ : string; iceAudioPassword_ : string
}.

#[export] Instance eta_SdpInfo : Eta SdpInfo := fun s =>
  {| audioSsrc := audioSsrc s; videoSsrc := videoSsrc s; videoRtxSsrc := videoRtxSsrc s;
     isBundle := isBundle s; hasAudio := hasAudio s; hasVideo := hasVideo s; isRtcpMux := isRtcpMux s;
     videoDirection := videoDirection s; audioDirection := audioDirection s; profile := profile s;
     isFingerprint := isFingerprint s; fingerprint := fingerprint s; inOutPTMap := inOutPTMap s;
     outInPTMap := outInPTMap s; payloadVector := payloadVector s; bundleTags := bundleTags s;
     extMapVector := extMapVector s; videoSdpMLine := videoSdpMLine s; audioSdpMLine := audioSdpMLine s;
     videoCodecs := videoCodecs s; audioCodecs := audioCodecs s; videoBandwidth := videoBandwidth s;
     candidateVector_ := candidateVector_ s; cryptoVector_ := cryptoVector_ s;
     internalPayloadVector_ := internalPayloadVector_ s; iceVideoUsername_ := iceVideoUsername_ s;
     iceAudioUsername_ := iceAudioUsername_ s; iceVideoPassword_ := iceVideoPassword_ s;
     iceAudioPassword_ := iceAudioPassword_ s |}.

(** What the constructors do not initialise. *)
Record uninitialised := { cand_mem : CandidateInfo; direction_mem : StreamDirection }.

Definition internal_codec (pt : Z) (name : string) (clock : Z) (m : MediaType) : RtpMap :=
  {| RtpMap.payloadType := pt; RtpMap.encodingName := name; RtpMap.clockRate := clock;
     RtpMap.mediaType := m; RtpMap.channels := 1; RtpMap.feedbackTypes := [];
     RtpMap.formatParameters := [] |}.

Definition internal_codecs : list RtpMap :=
  [internal_codec VP8_90000_PT "VP8" 90000 VIDEO_TYPE;
   internal_codec RED_90000_PT "red" 90000 VIDEO_TYPE;
   internal_codec ULP_90000_PT "ulpfec" 90000 VIDEO_TYPE;
   internal_codec PCMU_8000_PT "PCMU" 8000 AUDIO_TYPE;
   internal_codec TEL_8000_PT "telephone-event" 8000 AUDIO_TYPE].

Definition SdpInfo_ctor (mem : uninitialised) : SdpInfo :=
  {| isBundle := false; isRtcpMux := false; isFingerprint := false; hasAudio := false;
     hasVideo := false; profile := SAVPF; audioSsrc := 0; videoSsrc := 0; videoRtxSsrc := 0;
     videoCodecs := 0; audioCodecs := 0; videoSdpMLine := -1; audioSdpMLine := -1;
     videoBandwidth := 0; internalPayloadVector_ := internal_codecs;
     videoDirection := direction_mem mem; audioDirection := direction_mem mem;
     fingerprint := ""; inOutPTMap := ∅; outInPTMap := ∅; payloadVector := []; bundleTags := [];
     extMapVector := []; candidateVector_ := []; cryptoVector_ := [];
     iceVideoUsername_ := ""; iceAudioUsername_ := ""; iceVideoPassword_ := "";
     iceAudioPassword_ := "" |}.

(** ** Accessors *)

Definition addCrypto (c : CryptoInfo) (s : SdpInfo) : SdpInfo :=
  s <| cryptoVector_ ::= fun v => v ++ [c] |>.
Definition getCandidateInfos := candidateVector_.
Definition getCryptoInfos := cryptoVector_.
Definition getPayloadInfos := payloadVector.

Definition setCredentials (username password : string) (media : MediaType) (s : SdpInfo) : SdpInfo :=
  match media with
  | VIDEO_TYPE => s <| iceVideoUsername_ := username |> <| iceVideoPassword_ := password |>
  | AUDIO_TYPE => s <| iceAudioUsername_ := username |> <| iceAudioPassword_ := password |>
  | OTHER => s <| iceVideoUsername_ := username |> <| iceVideoPassword_ := password |>
               <| iceAudioUsername_ := username |> <| iceAudioPassword_ := password |>
  end.

Definition getUsername (media : MediaType) (s : SdpInfo) : string :=
  match media with AUDIO_TYPE => iceAudioUsername_ s | _ => iceVideoUsername_ s end.
Definition getPassword (media : MediaType) (s : SdpInfo) : string :=
  match media with AUDIO_TYPE => iceAudioPassword_ s | _ => iceVideoPassword_ s end.

(** ** Codecs and payload types *)

Abbreviation int := (to_signed 32).

Definition same_codec (name : string) (clock : Z) (rtp : RtpMap) : bool :=
  String.eqb (RtpMap.encodingName rtp) name && (RtpMap.clockRate rtp =? clock).

Definition getCodecByName (codecName : string) (clockRate : Z) (s : SdpInfo) : option RtpMap :=
  List.find (same_codec codecName clockRate) (internalPayloadVector_ s).

(** [inOutPTMap[k]] inserts 0 for a key that is missing. *)
Definition at_or_insert (m : gmap Z Z) (k : Z) : Z * gmap Z Z :=
  match m !! k with Some v => (v, m) | None => (0, <[k := 0]> m) end.

Fixpoint support_loop (payloadType : Z) (v : list RtpMap) (m : gmap Z Z) : bool * gmap Z Z :=
  match v with
  | [] => (false, m)
  | rtp :: v =>
    let (pt, m) := at_or_insert m (int (RtpMap.payloadType rtp)) in
    if pt =? payloadType then (true, m) else support_loop payloadType v m
  end.

Definition supportPayloadType (payloadType : Z) (s : SdpInfo) : bool * SdpInfo :=
  match inOutPTMap s !! payloadType with
  | Some _ =>
    let (b, m) := support_loop payloadType (payloadVector s) (inOutPTMap s) in
    (b, s <| inOutPTMap := m |>)
  | None => (false, s)
  end.

Definition supportCodecByName (codecName : string) (clockRate : Z) (s : SdpInfo) : bool * SdpInfo :=
  match getCodecByName codecName clockRate s with
  | Some rtp => supportPayloadType (int (RtpMap.payloadType rtp)) s
  | None => (false, s)
  end.

Definition getAudioInternalPT (externalPT : Z) (s : SdpInfo) : Z :=
  match outInPTMap s !! externalPT with Some pt => pt | None => externalPT end.
Definition getVideoInternalPT (externalPT : Z) (s : SdpInfo) : Z := getAudioInternalPT externalPT s.
Definition getAudioExternalPT (internalPT : Z) (s : SdpInfo) : Z :=
  match inOutPTMap s !! internalPT with Some pt => pt | None => internalPT end.
Definition getVideoExternalPT (internalPT : Z) (s : SdpInfo) : Z := getAudioExternalPT internalPT s.

(** ** Offers *)

Definition count_codec (s : SdpInfo) (rtp : RtpMap) : SdpInfo :=
  match RtpMap.mediaType rtp with
  | VIDEO_TYPE => s <| videoCodecs ::= Z.succ |>
  | AUDIO_TYPE => s <| audioCodecs ::= Z.succ |>
  | OTHER => s
  end.

Definition createOfferSdp (videoEnabled audioEnabled : bool) (s : SdpInfo) : SdpInfo :=
  let s := s <| payloadVector := internalPayloadVector_ s |> <| isBundle := true |>
             <| profile := SAVPF |> <| isRtcpMux := true |> in
  let s := if videoEnabled then s <| videoSdpMLine := 0 |> else s in
  let s := if audioEnabled then s <| audioSdpMLine := 0 |> else s in
  let s := foldl count_codec s (internalPayloadVector_ s) in
  s <| hasVideo := videoEnabled |> <| hasAudio := audioEnabled |>
    <| videoDirection := SENDRECV |> <| audioDirection := SENDRECV |>.

Definition reverse_direction (d : StreamDirection) : StreamDirection :=
  match d with SENDONLY => RECVONLY | RECVONLY => SENDONLY | SENDRECV => SENDRECV end.

Definition setOfferSdp (offerSdp s : SdpInfo) : SdpInfo :=
  s <| videoCodecs := videoCodecs offerSdp |> <| audioCodecs := audioCodecs offerSdp |>
    <| payloadVector := payloadVector offerSdp |> <| isBundle := isBundle offerSdp |>
    <| profile := profile offerSdp |> <| isRtcpMux := isRtcpMux offerSdp |>
    <| videoSdpMLine := videoSdpMLine offerSdp |> <| audioSdpMLine := audioSdpMLine offerSdp |>
    <| inOutPTMap := inOutPTMap offerSdp |> <| outInPTMap := outInPTMap offerSdp |>
    <| hasVideo := hasVideo offerSdp |> <| hasAudio := hasAudio offerSdp |>
    <| bundleTags := bundleTags offerSdp |> <| extMapVector := extMapVector offerSdp |>
    <| videoDirection := reverse_direction (videoDirection offerSdp) |>
    <| audioDirection := reverse_direction (audioDirection offerSdp) |>.

(** ** Printing *)

Section Printing.
Local Open Scope string_scope.
Local Open Scope Z_scope.

Definition endl : string := newline.

(** [for (uint8_t i = 0; i < size; i++)]: the counter wraps at 256, so 256 rounds either
    end the loop or show that it does not end. *)
Fixpoint u8_loop {S} (fuel : nat) (i : Z) (size : nat) (body : nat -> S -> S) (s : S) : option S :=
  match fuel with
  | O => None
  | Datatypes.S fuel =>
    if i <? Z.of_nat size
    then u8_loop fuel (u8 (i + 1)) size body (body (Z.to_nat i) s)
    else Some s
  end.

(** A counter loop that appends [line x] for the elements of a vector. *)
Definition u8_print {A} (line : A -> string) (v : list A) : option string :=
  u8_loop 256 0 (length v)
    (fun i s => match v !! i with Some x => s ++ line x | None => s end) "".

Definition alphanum : string := "0123456789ABCDEFGHIJKLMNOPQRSTUVWXYZabcdefghijklmnopqrstuvwxyz".

(** [rnd] holds the values of [rand()], as many as the text is long. *)
Definition gen_random (rnd : list Z) : string :=
  foldr (fun r s => match String.get (Z.to_nat (r mod 62)) alphanum with
                    | Some c => String c s | None => s end) "" rnd.

Definition hostType_str (h : HostType) : string :=
  match h with HOST => "host" | SRFLX => "srflx" | PRFLX => "prflx" | RELAY => "relay" end.

Definition stringifyCandidate (c : CandidateInfo) : string :=
  "a=candidate:" ++ CandidateInfo.foundation c ++ " " ++ pretty (CandidateInfo.componentId c) ++
  " " ++ CandidateInfo.netProtocol c ++ " " ++ pretty (CandidateInfo.priority c) ++ " " ++
  CandidateInfo.hostAddress c ++ " " ++ pretty (CandidateInfo.hostPort c) ++ " typ " ++
  hostType_str (CandidateInfo.hostType c) ++
  (match CandidateInfo.hostType c with
   | SRFLX | RELAY => " raddr " ++ CandidateInfo.rAddress c ++ " rport " ++ pretty (CandidateInfo.rPort c)
   | _ => ""
   end) ++ " generation 0".

Definition addCandidate (info : CandidateInfo) (s : SdpInfo) : string * SdpInfo :=
  (stringifyCandidate info, s <| candidateVector_ ::= fun v => app v [info] |>).

Definition print_all {A} (line : A -> string) (v : list A) : string :=
  foldr (fun x s => line x ++ s) "" v.

Definition is_audio (m : MediaType) : bool := match m with AUDIO_TYPE => true | _ => false end.
Definition is_video (m : MediaType) : bool := match m with VIDEO_TYPE => true | _ => false end.

(** The payload types of the m-line: a space after each but the [codecs]-th. *)
Fixpoint print_payload_types (of_media : MediaType -> bool) (codecs counter : Z) (v : list RtpMap) : string :=
  match v with
  | [] => ""
  | p :: v =>
    if of_media (RtpMap.mediaType p) then
      let counter := counter + 1 in
      pretty (RtpMap.payloadType p) ++ (if counter <? codecs then " " else "") ++
      print_payload_types of_media codecs counter v
    else print_payload_types of_media codecs counter v
  end.

Definition print_direction (d : StreamDirection) : string :=
  match d with
  | SENDONLY => "a=sendonly" ++ endl
  | SENDRECV => "a=sendrecv" ++ endl
  | RECVONLY => "a=recvonly" ++ endl
  end.

Definition print_extmap (of_media : MediaType -> bool) (e : ExtMap) : string :=
  if of_media (ExtMap.mediaType e)
  then "a=extmap:" ++ pretty (ExtMap.value e) ++ " " ++ ExtMap.uri e ++ endl else "".

Definition print_mid (of_media : MediaType -> bool) (b : BundleTag) : string :=
  if of_media (BundleTag.mediaType b) then "a=mid:" ++ BundleTag.id b ++ endl else "".

Definition print_crypto (of_media : MediaType -> bool) (c : CryptoInfo) : string :=
  if of_media (CryptoInfo.mediaType c)
  then "a=crypto:" ++ pretty (CryptoInfo.tag c) ++ " " ++ CryptoInfo.cipherSuite c ++ " " ++
       "inline:" ++ CryptoInfo.keyParams c ++ endl else "".

Definition print_fmtp (payloadType : Z) (p : string * string) : string :=
  if String.eqb (fst p) "none"
  then "a=fmtp:" ++ pretty payloadType ++ " " ++ snd p ++ endl
  else "a=fmtp:" ++ pretty payloadType ++ " " ++ fst p ++ "=" ++ snd p ++ endl.

Definition print_audio_codec (rtp : RtpMap) : string :=
  if is_audio (RtpMap.mediaType rtp) then
    let payloadType := int (RtpMap.payloadType rtp) in
    "a=rtpmap:" ++ pretty payloadType ++ " " ++ RtpMap.encodingName rtp ++ "/" ++
    pretty (RtpMap.clockRate rtp) ++
    (if 1 <? RtpMap.channels rtp then "/" ++ pretty (RtpMap.channels rtp) else "") ++ endl ++
    print_all (print_fmtp payloadType) (RtpMap.formatParameters rtp)
  else "".

Definition print_video_codec (rtp : RtpMap) : string :=
  if is_video (RtpMap.mediaType rtp) then
    let payloadType := int (RtpMap.payloadType rtp) in
    "a=rtpmap:" ++ pretty payloadType ++ " " ++ RtpMap.encodingName rtp ++ "/" ++
    pretty (RtpMap.clockRate rtp) ++ endl ++
    print_all (fun fb => "a=rtcp-fb:" ++ pretty payloadType ++ " " ++ fb ++ endl) (RtpMap.feedbackTypes rtp) ++
    print_all (print_fmtp payloadType) (RtpMap.formatParameters rtp)
  else "".

(** The four lines of a stream; [label] is "a0" or "v0". *)
Definition print_ssrc (ssrc : Z) (msidtemp label : string) : string :=
  "a=ssrc:" ++ pretty ssrc ++ " cname:o/i14u9pJrxRKAsu" ++ endl ++
  "a=ssrc:" ++ pretty ssrc ++ " msid:" ++ msidtemp ++ " " ++ label ++ endl ++
  "a=ssrc:" ++ pretty ssrc ++ " mslabel:" ++ msidtemp ++ endl ++
  "a=ssrc:" ++ pretty ssrc ++ " label:" ++ msidtemp ++ label ++ endl.

Definition print_session (msidtemp : string) (s : SdpInfo) : option string :=
  let head := "v=0" ++ newline ++ "o=- 0 0 IN IP4 127.0.0.1" ++ newline ++ "s=LicodeMCU" ++ newline ++
              "t=0 0" ++ newline in
  if isBundle s then
    tags ← u8_print (fun b => " " ++ BundleTag.id b) (bundleTags s);
    Some (head ++ "a=group:BUNDLE" ++ tags ++ newline ++ "a=msid-semantic: WMS " ++ msidtemp ++ endl)
  else Some head.

Definition print_profile (p : Profile) : string :=
  match p with SAVPF => " UDP/TLS/RTP/SAVPF " | AVPF => " RTP/AVPF " end.

Definition print_fingerprint (s : SdpInfo) : string :=
  if isFingerprint s then "a=fingerprint:sha-256 " ++ fingerprint s ++ endl else "".

Definition print_audio (msidtemp : string) (s : SdpInfo) : option (string * SdpInfo) :=
  extmaps ← u8_print (print_extmap is_audio) (extMapVector s);
  mids ← u8_print (print_mid is_audio) (bundleTags s);
  let ssrc := if audioSsrc s =? 0 then 44444 else audioSsrc s in
  Some ("m=audio 1" ++ print_profile (profile s) ++
        print_payload_types is_audio (audioCodecs s) 0 (payloadVector s) ++
        newline ++ "c=IN IP4 0.0.0.0" ++ endl ++
        (if isRtcpMux s then "a=rtcp:1 IN IP4 0.0.0.0" ++ endl else "") ++
        print_all (fun c => if is_audio (CandidateInfo.mediaType c) || isBundle s
                            then stringifyCandidate c ++ endl else "") (candidateVector_ s) ++
        (if String.eqb (iceAudioUsername_ s) ""
         then "a=ice-ufrag:" ++ iceVideoUsername_ s ++ endl ++ "a=ice-pwd:" ++ iceVideoPassword_ s ++ endl
         else "a=ice-ufrag:" ++ iceAudioUsername_ s ++ endl ++ "a=ice-pwd:" ++ iceAudioPassword_ s ++ endl) ++
        print_fingerprint s ++ print_direction (audioDirection s) ++ extmaps ++ mids ++
        (if isRtcpMux s then "a=rtcp-mux" ++ newline else "") ++
        print_all (print_crypto is_audio) (cryptoVector_ s) ++
        print_all print_audio_codec (payloadVector s) ++
        "a=maxptime:60" ++ endl ++ print_ssrc ssrc msidtemp "a0",
        s <| audioSsrc := ssrc |>).

Definition print_video (msidtemp : string) (s : SdpInfo) : option (string * SdpInfo) :=
  extmaps ← u8_print (print_extmap is_video) (extMapVector s);
  mids ← u8_print (print_mid is_video) (bundleTags s);
  let ssrc := if videoSsrc s =? 0 then 55543 else videoSsrc s in
  Some ("m=video 1" ++ print_profile (profile s) ++
        print_payload_types is_video (videoCodecs s) 0 (payloadVector s) ++
        newline ++ "c=IN IP4 0.0.0.0" ++ endl ++
        (if isRtcpMux s then "a=rtcp:1 IN IP4 0.0.0.0" ++ endl else "") ++
        print_all (fun c => if is_video (CandidateInfo.mediaType c)
                            then stringifyCandidate c ++ endl else "") (candidateVector_ s) ++
        "a=ice-ufrag:" ++ iceVideoUsername_ s ++ endl ++ "a=ice-pwd:" ++ iceVideoPassword_ s ++ endl ++
        extmaps ++ print_fingerprint s ++ print_direction (videoDirection s) ++ mids ++
        (if isRtcpMux s then "a=rtcp-mux" ++ newline else "") ++
        print_all (print_crypto is_video) (cryptoVector_ s) ++
        print_all print_video_codec (payloadVector s) ++
        print_ssrc ssrc msidtemp "v0" ++
        (if videoRtxSsrc s =? 0 then "" else print_ssrc (videoRtxSsrc s) msidtemp "v0"),
        s <| videoSsrc := ssrc |>).

Definition getSdp (rnd : list Z) (s : SdpInfo) : option (string * SdpInfo) :=
  let msidtemp := gen_random rnd in
  head ← print_session msidtemp s;
  '(audio, s) ← (if hasAudio s then print_audio msidtemp s else Some ("", s));
  '(video, s) ← (if hasVideo s then print_video msidtemp s else Some ("", s));
  Some (head ++ audio ++ video, s).

End Printing.

(** ** Parsing *)

(** The object and the local variables of [processSdp]. *)
Record Scan := {
  info : SdpInfo;
  mtype : MediaType;
  mlineNum : Z;
  tmpFeedbackVector : list string
}.

#[export] Instance eta_Scan : Eta Scan := fun c =>
  {| info := info c; mtype := mtype c; mlineNum := mlineNum c; tmpFeedbackVector := tmpFeedbackVector c |}.

Module Tag.
Definition cand : string := "a=candidate:".
Definition crypto : string := "a=crypto:".
Definition group : string := "a=group:".
Definition video : string := "m=video".
Definition audio : string := "m=audio".
Definition mid : string := "a=mid".
Definition sendrecv : string := "a=sendrecv".
Definition recvonly : string := "a=recvonly".
Definition sendonly : string := "a=sendonly".
Definition ice_user : string := "a=ice-ufrag".
Definition ice_pass : string := "a=ice-pwd".
Definition ssrctag : string := "a=ssrc".
Definition ssrcgrouptag : string := "a=ssrc-group".
Definition savpf : string := "SAVPF".
Definition rtpmap : string := "a=rtpmap:".
Definition rtcpmux : string := "a=rtcp-mux".
Definition fp : string := "a=fingerprint".
Definition extmap : string := "a=extmap:".
Definition rtcpfb : string := "a=rtcp-fb:".
Definition fmtp : string := "a=fmtp:".
Definition bas : string := "b=AS:".
End Tag.

Definition host_type_of (s : string) : HostType :=
  if String.eqb s "relay" then RELAY
  else if String.eqb s "prflx" then PRFLX
  else if String.eqb s "srflx" then SRFLX
  else HOST.

(** The result is whether the candidate was accepted. *)
Definition processCandidate (mem : CandidateInfo) (pieces : list string) (mediaType : MediaType)
    (s : SdpInfo) : option (bool * SdpInfo) :=
  let cand := mem <| CandidateInfo.tag := 0 |> <| CandidateInfo.transProtocol := "" |>
                  <| CandidateInfo.username := "" |> <| CandidateInfo.password := "" |>
                  <| CandidateInfo.rAddress := "" |> <| CandidateInfo.mediaType := mediaType |> in
  foundation ← pieces !! 1%nat;
  componentId ← pieces !! 2%nat;
  netProtocol ← pieces !! 3%nat;
  let cand := cand <| CandidateInfo.foundation := foundation |>
                   <| CandidateInfo.componentId := strtoul componentId |>
                   <| CandidateInfo.netProtocol := netProtocol |> in
  if negb (String.eqb netProtocol "UDP") && negb (String.eqb netProtocol "udp") then Some (false, s) else
  priority ← pieces !! 4%nat;
  hostAddress ← pieces !! 5%nat;
  hostPort ← pieces !! 6%nat;
  typ ← pieces !! 7%nat;
  let cand := cand <| CandidateInfo.priority := strtoul priority |>
                   <| CandidateInfo.hostAddress := hostAddress |>
                   <| CandidateInfo.hostPort := int (strtoul hostPort) |> in
  if negb (String.eqb typ "typ") then Some (false, s) else
  type ← pieces !! 8%nat;
  let cand := cand <| CandidateInfo.hostType := host_type_of type |> in
  cand ← (match CandidateInfo.hostType cand with
          | SRFLX | RELAY =>
            rAddress ← pieces !! 10%nat;
            rPort ← pieces !! 12%nat;
            Some (cand <| CandidateInfo.rAddress := rAddress |>
                       <| CandidateInfo.rPort := int (strtoul rPort) |>)
          | _ => Some cand
          end);
  Some (true, s <| candidateVector_ ::= fun v => v ++ [cand] |>).

Definition on_info (f : SdpInfo -> SdpInfo) (c : Scan) : Scan := c <| info ::= f |>.

(** [if (line.find(tag) != npos) f]. *)
Definition when (tag : string) (f : string -> Scan -> option Scan) (line : string) (c : Scan) : option Scan :=
  if has tag line then f line c else Some c.

Definition step_rtcp_mux := when Tag.rtcpmux (fun _ c => Some (on_info (set_member isRtcpMux (fun _ => true)) c)).

Definition set_direction (d : StreamDirection) (c : Scan) : Scan :=
  match mtype c with
  | AUDIO_TYPE => on_info (set_member audioDirection (fun _ => d)) c
  | _ => on_info (set_member videoDirection (fun _ => d)) c
  end.

Definition step_direction (line : string) (c : Scan) : option Scan :=
  Some (if has Tag.recvonly line then set_direction RECVONLY c
        else if has Tag.sendonly line then set_direction SENDONLY c
        else if has Tag.sendrecv line then set_direction SENDRECV c
        else c).

Definition step_profile := when Tag.savpf (fun _ c => Some (on_info (set_member profile (fun _ => SAVPF)) c)).

Definition step_fingerprint := when Tag.fp (fun line c =>
  part ← splitOneOf line ":" 1 !! 1%nat;
  fp ← splitOneOf part " " 0 !! 1%nat;
  Some (on_info (fun s => s <| fingerprint := fp |> <| isFingerprint := true |>) c)).

Definition step_group := when Tag.group (fun line c =>
  let parts := splitOneOf line (":  " +:+ carriage_return +:+ newline) 10 in
  kind ← parts !! 1%nat;
  let c := if String.eqb kind "BUNDLE" then on_info (set_member isBundle (fun _ => true)) c else c in
  let tags := map (fun id => {| BundleTag.id := id; BundleTag.mediaType := OTHER |}) (drop 2 parts) in
  Some (on_info (set_member bundleTags (fun v => v ++ tags)) c)).

Definition step_video := when Tag.video (fun _ c =>
  let n := mlineNum c + 1 in
  Some (on_info (fun s => s <| videoSdpMLine := n |> <| hasVideo := true |>) c
        <| mlineNum := n |> <| mtype := VIDEO_TYPE |>)).

Definition step_audio := when Tag.audio (fun _ c =>
  let n := mlineNum c + 1 in
  Some (on_info (fun s => s <| audioSdpMLine := n |> <| hasAudio := true |>) c
        <| mlineNum := n |> <| mtype := AUDIO_TYPE |>)).

Definition step_candidate (mem : CandidateInfo) := when Tag.cand (fun line c =>
  '(_, s) ← processCandidate mem (splitOneOf line " :" 0) (mtype c) (info c);
  Some (c <| info := s |>)).

Definition step_crypto := when Tag.crypto (fun line c =>
  let cryptopiece := splitOneOf line " :" 0 in
  cipherSuite ← cryptopiece !! 2%nat;
  keyParams ← cryptopiece !! 4%nat;
  let crypinfo := {| CryptoInfo.tag := 0; CryptoInfo.cipherSuite := cipherSuite;
                     CryptoInfo.keyParams := keyParams; CryptoInfo.mediaType := mtype c |} in
  Some (on_info (addCrypto crypinfo) c)).

(** The value behind the first colon, up to a carriage return. *)
Definition credential (line : string) : option string :=
  part ← splitOneOf line ":" 1 !! 1%nat;
  splitOneOf part carriage_return 1 !! 0%nat.

Definition step_user := when Tag.ice_user (fun line c =>
  part ← credential line;
  Some (match mtype c with
        | AUDIO_TYPE => on_info (set_member iceAudioUsername_ (fun _ => part)) c
        | _ => on_info (set_member iceVideoUsername_ (fun _ => part)) c
        end)).

Definition step_pass := when Tag.ice_pass (fun line c =>
  part ← credential line;
  Some (match mtype c with
        | AUDIO_TYPE => on_info (set_member iceAudioPassword_ (fun _ => part)) c
        | _ => on_info (set_member iceVideoPassword_ (fun _ => part)) c
        end)).

Definition set_mid (thisId : string) (m : MediaType) (i : nat) (v : list BundleTag) : list BundleTag :=
  match v !! i with
  | Some b => if String.eqb (BundleTag.id b) thisId
              then <[i := {| BundleTag.id := BundleTag.id b; BundleTag.mediaType := m |}]> v else v
  | None => v
  end.

Definition step_mid := when Tag.mid (fun line c =>
  let parts := splitOneOf line (": " +:+ carriage_return +:+ newline) 4 in
  match parts !! 1%nat, isBundle (info c) with
  | Some thisId, true =>
    v ← u8_loop 256 0 (length (bundleTags (info c))) (set_mid thisId (mtype c)) (bundleTags (info c));
    Some (on_info (set_member bundleTags (fun _ => v)) c)
  | _, _ => Some c
  end).

Definition step_ssrc := when Tag.ssrctag (fun line c =>
  let parts := splitOneOf line " :" 2 in
  match mtype c with
  | VIDEO_TYPE =>
    if videoSsrc (info c) =? 0
    then n ← parts !! 1%nat; Some (on_info (set_member videoSsrc (fun _ => strtoul n)) c) else Some c
  | AUDIO_TYPE =>
    if audioSsrc (info c) =? 0
    then n ← parts !! 1%nat; Some (on_info (set_member audioSsrc (fun _ => strtoul n)) c) else Some c
  | OTHER => Some c
  end).

Definition step_ssrc_group := when Tag.ssrcgrouptag (fun line c =>
  match mtype c with
  | VIDEO_TYPE =>
    match splitOneOf line " :" 10 !! 3%nat with
    | Some n => Some (on_info (set_member videoRtxSsrc (fun _ => strtoul n)) c)
    | None => Some c
    end
  | _ => Some c
  end).

(** One round of the search in the internal codecs: [channels] is what the last match had. *)
Definition match_codec (codecname : string) (clock PT : Z) (a : option Z * SdpInfo) (rtp : RtpMap)
    : option Z * SdpInfo :=
  let (found, s) := a in
  if same_codec codecname clock rtp then
    (Some (RtpMap.channels rtp),
     s <| outInPTMap ::= insert (int PT) (int (RtpMap.payloadType rtp)) |>
       <| inOutPTMap ::= insert (int (RtpMap.payloadType rtp)) (int PT) |>)
  else (found, s).

Definition step_rtpmap := when Tag.rtpmap (fun line c =>
  let parts := splitOneOf line (" :/" +:+ newline) 4 in
  pt ← parts !! 1%nat;
  codecname ← parts !! 2%nat;
  rate ← parts !! 3%nat;
  let PT := strtoul pt in
  let clock := strtoul rate in
  let (found, s) := foldl (match_codec codecname clock PT) (None, info c) (internalPayloadVector_ (info c)) in
  match found with
  | Some channels =>
    let theMap := {| RtpMap.payloadType := PT; RtpMap.encodingName := codecname;
                     RtpMap.clockRate := clock; RtpMap.mediaType := mtype c;
                     RtpMap.channels := channels; RtpMap.feedbackTypes := [];
                     RtpMap.formatParameters := [] |} in
    let s := match mtype c with
             | VIDEO_TYPE => s <| videoCodecs ::= Z.succ |>
             | _ => s <| audioCodecs ::= Z.succ |>
             end in
    Some (c <| info := s <| payloadVector ::= fun v => v ++ [theMap] |> |>)
  | None => Some (c <| info := s |>)
  end).

(** [s.substr(0, s.size() - 1)]; of an empty string it is the string itself. *)
Definition drop_last (s : string) : string := String.substring 0 (String.length s - 1) s.

Definition step_extmap (mem : StreamDirection) := when Tag.extmap (fun line c =>
  let parts := splitOneOf line " :=" 3 in
  match parts !! 2%nat with
  | Some n =>
    uri ← parts !! 3%nat;
    let anExt := {| ExtMap.value := strtoul n; ExtMap.uri := drop_last uri; ExtMap.direction := mem;
                    ExtMap.parameters := ""; ExtMap.mediaType := mtype c |} in
    Some (on_info (set_member extMapVector (fun v => v ++ [anExt])) c)
  | None => Some c
  end).

Definition step_feedback := when Tag.rtcpfb (fun line c =>
  Some (c <| tmpFeedbackVector ::= fun v => v ++ [line] |>)).

(** [m[option] = value] in a map that is iterated in the order of its keys. *)
Fixpoint map_set (option value : string) (m : list (string * string)) : list (string * string) :=
  match m with
  | [] => [(option, value)]
  | (k, v) :: m' =>
    match String.compare option k with
    | Lt => (option, value) :: m
    | Eq => (option, value) :: m'
    | Gt => (k, v) :: map_set option value m'
    end
  end.

Definition for_payload_type (PT : Z) (f : RtpMap -> RtpMap) (v : list RtpMap) : list RtpMap :=
  map (fun rtp => if RtpMap.payloadType rtp =? PT then f rtp else rtp) v.

Definition step_fmtp := when Tag.fmtp (fun line c =>
  let parts := splitOneOf line " :=" 4 in
  match parts !! 2%nat, parts !! 3%nat with
  | Some pt, Some p3 =>
    let '(option, value) :=
      match parts !! 4%nat with Some p4 => (c_str p3, c_str p4) | None => ("none", c_str p3) end in
    Some (on_info (set_member payloadVector (for_payload_type (strtoul pt)
      (set_member RtpMap.formatParameters (map_set option value)))) c)
  | _, _ => Some c
  end).

Definition step_bandwidth := when Tag.bas (fun line c =>
  match mtype c, splitOneOf line ":" 2 !! 1%nat with
  | VIDEO_TYPE, Some n => Some (on_info (set_member videoBandwidth (fun _ => strtoul n)) c)
  | _, _ => Some c
  end).

(** The body of the loop, in its order. *)
Definition process_line (mem : uninitialised) (line : string) (c : Scan) : option Scan :=
  c ← step_rtcp_mux line c; c ← step_direction line c; c ← step_profile line c;
  c ← step_fingerprint line c; c ← step_group line c; c ← step_video line c;
  c ← step_audio line c; c ← step_candidate (cand_mem mem) line c; c ← step_crypto line c;
  c ← step_user line c; c ← step_pass line c; c ← step_mid line c; c ← step_ssrc line c;
  c ← step_ssrc_group line c; c ← step_rtpmap line c; c ← step_extmap (direction_mem mem) line c;
  c ← step_feedback line c; c ← step_fmtp line c; step_bandwidth line c.

Fixpoint process_lines (mem : uninitialised) (lines : list string) (c : Scan) : option Scan :=
  match lines with
  | [] => Some c
  | line :: lines => c ← process_line mem line c; process_lines mem lines c
  end.

(** [None] when there are no credentials at all. *)
Definition fill_credentials (s : SdpInfo) : option SdpInfo :=
  if String.eqb (iceVideoUsername_ s) "" && String.eqb (iceAudioUsername_ s) "" then None
  else if String.eqb (iceVideoUsername_ s) ""
  then Some (s <| iceVideoUsername_ := iceAudioUsername_ s |> <| iceVideoPassword_ := iceAudioPassword_ s |>)
  else if String.eqb (iceAudioUsername_ s) ""
  then Some (s <| iceAudioUsername_ := iceVideoUsername_ s |> <| iceAudioPassword_ := iceVideoPassword_ s |>)
  else Some s.

Definition fill_candidate (s : SdpInfo) (c : CandidateInfo) : CandidateInfo :=
  let c := c <| CandidateInfo.isBundle := isBundle s |> in
  match CandidateInfo.mediaType c with
  | VIDEO_TYPE => c <| CandidateInfo.username := iceVideoUsername_ s |>
                    <| CandidateInfo.password := iceVideoPassword_ s |>
  | _ => c <| CandidateInfo.username := iceAudioUsername_ s |>
           <| CandidateInfo.password := iceAudioPassword_ s |>
  end.

Definition process_feedback (line : string) (s : SdpInfo) : option SdpInfo :=
  let parts := splitOneOf line " :" 2 in
  pt ← parts !! 1%nat;
  feedback ← parts !! 2%nat;
  Some (s <| payloadVector ::= for_payload_type (strtoul pt)
             (set_member RtpMap.feedbackTypes (fun v => v ++ [feedback])) |>).

Fixpoint process_feedbacks (lines : list string) (s : SdpInfo) : option SdpInfo :=
  match lines with
  | [] => Some s
  | line :: lines => s ← process_feedback line s; process_feedbacks lines s
  end.

Definition media_of (media : string) : MediaType :=
  if String.eqb media "audio" then AUDIO_TYPE
  else if String.eqb media "video" then VIDEO_TYPE else OTHER.

Definition processSdp (mem : uninitialised) (sdp media : string) (s : SdpInfo) : option (bool * SdpInfo) :=
  c ← process_lines mem (getlines sdp)
        {| info := s; mtype := media_of media; mlineNum := -1; tmpFeedbackVector := [] |};
  match fill_credentials (info c) with
  | None => Some (false, info c)
  | Some s =>
    let s := s <| candidateVector_ ::= map (fill_candidate s) |> in
    s ← process_feedbacks (tmpFeedbackVector c) s;
    Some (true, s)
  end.

Definition initWithSdp := processSdp.

(** ** The loops with an 8-bit counter *)

Lemma u8_loop_spec {S} (body : nat -> S -> S) (size fuel i : nat) (s : S) :
  (size <= 255)%nat -> (i <= size)%nat -> (size - i < fuel)%nat ->
  u8_loop fuel (Z.of_nat i) size body s = Some (foldl (fun s i => body i s) s (seq i (size - i))).
Proof.
  intros Hs. revert i s. induction fuel as [|fuel IH]; intros i s Hi Hf; [lia|].
  cbn [u8_loop]. destruct (Z.ltb_spec (Z.of_nat i) (Z.of_nat size)) as [H|H].
  - rewrite wrap_small by (unfold in_width; lia).
    replace (Z.of_nat i + 1) with (Z.of_nat (Datatypes.S i)) by lia.
    rewrite Nat2Z.id, IH by lia.
    replace (size - i)%nat with (Datatypes.S (size - Datatypes.S i)) by lia. reflexivity.
  - replace (size - i)%nat with 0%nat by lia. reflexivity.
Qed.

(** From 256 elements on the counter never reaches the size. *)
Lemma u8_loop_diverges {S} (body : nat -> S -> S) (size fuel : nat) (i : Z) (s : S) :
  (256 <= size)%nat -> 0 <= i < 256 -> u8_loop fuel i size body s = None.
Proof.
  intros Hs. revert i s. induction fuel as [|fuel IH]; intros i s Hi; [reflexivity|].
  cbn [u8_loop]. destruct (Z.ltb_spec i (Z.of_nat size)); [|lia].
  apply IH. unfold wrap. apply Z.mod_pos_bound. reflexivity.
Qed.

Lemma string_length_app (a b : string) : String.length (a +:+ b) = (String.length a + String.length b)%nat.
Proof. induction a as [|c a IH]; [reflexivity | exact (f_equal Datatypes.S IH)]. Qed.

Lemma u8_print_spec {A} (line : A -> string) (v : list A) :
  (length v <= 255)%nat -> u8_print line v = Some (print_all line v).
Proof.
  intros Hv. unfold u8_print. change 0 with (Z.of_nat 0).
  rewrite u8_loop_spec by lia. rewrite Nat.sub_0_r. f_equal.
  assert (H : forall k s, (k <= length v)%nat ->
    foldl (fun s i => match v !! i with Some x => (s +:+ line x)%string | None => s end) s
      (seq k (length v - k)) = (s +:+ print_all line (drop k v))%string).
  { intros k. remember (length v - k)%nat as n eqn:En. revert k En.
    induction n as [|n IH]; intros k En s Hk.
    - rewrite drop_ge by lia. cbn. rewrite string_app_nil. reflexivity.
    - cbn [seq foldl]. destruct (v !! k) as [x|] eqn:E; [|apply lookup_ge_None in E; lia].
      rewrite IH by lia. rewrite (drop_S v x k E). cbn [print_all foldr].
      rewrite string_app_assoc. reflexivity. }
  specialize (H 0%nat "" ltac:(lia)). rewrite Nat.sub_0_r, drop_0 in H. exact H.
Qed.

(** ** Payload type support *)

(** The first payload in the vector that has a type whose entry is [pt], a missing entry
    counting as 0. *)
Definition maps_to (m : gmap Z Z) (pt : Z) (rtp : RtpMap) : Prop :=
  default 0 (m !! int (RtpMap.payloadType rtp)) = pt.

Lemma support_loop_spec pt v m :
  fst (support_loop pt v m) = true <-> Exists (maps_to m pt) v.
Proof.
  unfold maps_to. revert m. induction v as [|rtp v IH]; intros m; cbn [support_loop].
  { cbn. rewrite Exists_nil. split; [discriminate | tauto]. }
  rewrite Exists_cons. unfold at_or_insert.
  destruct (m !! int (RtpMap.payloadType rtp)) as [x|] eqn:E; cbn [default].
  - destruct (Z.eqb_spec x pt) as [->|Hne]; [cbn; tauto|]. rewrite IH. intuition.
  - destruct (Z.eqb_spec 0 pt) as [<-|Hne]; [cbn; tauto|]. rewrite IH. split.
    + intros H. right. eapply Exists_impl; [exact H|]. intros r Hr. cbv beta in Hr.
      destruct (decide (int (RtpMap.payloadType r) = int (RtpMap.payloadType rtp))) as [Er|Er].
      * rewrite Er, lookup_insert_eq in Hr. cbn [default from_option] in Hr. unfold id in *. congruence.
      * rewrite lookup_insert_ne in Hr by congruence. assumption.
    + intros [H|H]; [congruence|]. eapply Exists_impl; [exact H|]. intros r Hr. cbv beta in *.
      destruct (decide (int (RtpMap.payloadType r) = int (RtpMap.payloadType rtp))) as [Er|Er].
      * rewrite Er, E in Hr. cbn [default from_option] in Hr. unfold id in *. congruence.
      * rewrite lookup_insert_ne by congruence. assumption.
Qed.

(** [supportPayloadType] answers whether the internal type is mapped and some negotiated
    payload has an external type whose number, read as an internal type, maps to it. *)
Theorem support_spec s pt :
  fst (supportPayloadType pt s) = true <->
  is_Some (inOutPTMap s !! pt) /\ Exists (maps_to (inOutPTMap s) pt) (payloadVector s).
Proof.
  unfold supportPayloadType. destruct (inOutPTMap s !! pt) as [x|] eqn:E.
  - pose proof (support_loop_spec pt (payloadVector s) (inOutPTMap s)) as H.
    destruct (support_loop pt (payloadVector s) (inOutPTMap s)) as [b m]. cbn in *. rewrite H.
    split; [intros; split; [eauto | assumption] | tauto].
  - cbn. split; [discriminate | intros [[? H] _]; discriminate H].
Qed.

(** ** What the parser guarantees for every text *)

Definition internal_of (rtp : RtpMap) : option RtpMap :=
  List.find (same_codec (RtpMap.encodingName rtp) (RtpMap.clockRate rtp)) internal_codecs.

Definition map_codec (maps : gmap Z Z * gmap Z Z) (rtp : RtpMap) : gmap Z Z * gmap Z Z :=
  match internal_of rtp with
  | Some r => (<[int (RtpMap.payloadType rtp) := int (RtpMap.payloadType r)]> (fst maps),
               <[int (RtpMap.payloadType r) := int (RtpMap.payloadType rtp)]> (snd maps))
  | None => maps
  end.

(** The two payload type maps a list of negotiated codecs stands for. *)
Definition codec_maps (v : list RtpMap) : gmap Z Z * gmap Z Z := foldl map_codec (∅, ∅) v.

Definition known_codec (rtp : RtpMap) : Prop :=
  is_Some (internal_of rtp) /\ in_width 32 (RtpMap.payloadType rtp) /\ RtpMap.channels rtp = 1.

Record sdp_ok (s : SdpInfo) : Prop := {
  ok_internal : internalPayloadVector_ s = internal_codecs;
  ok_profile : profile s = SAVPF;
  ok_codecs : Forall known_codec (payloadVector s);
  ok_maps : (outInPTMap s, inOutPTMap s) = codec_maps (payloadVector s);
  ok_count : videoCodecs s + audioCodecs s = Z.of_nat (length (payloadVector s));
  ok_ssrcs : Forall (in_width 32) [audioSsrc s; videoSsrc s; videoRtxSsrc s; videoBandwidth s];
  ok_mlines : (hasVideo s = true -> 0 <= videoSdpMLine s) /\ (hasAudio s = true -> 0 <= audioSdpMLine s)
}.

Lemma ctor_ok mem : sdp_ok (SdpInfo_ctor mem).
Proof. split; try reflexivity; repeat constructor; unfold in_width; simpl; lia || discriminate. Qed.

Lemma strtoul_width s : in_width 32 (strtoul s).
Proof.
  unfold strtoul. destruct (match skip_spaces s with String "-" s => _ | String "+" s => _ | s => _ end) as [neg r].
  assert (H : forall s acc, 0 <= acc -> 0 <= digits acc s).
  { clear. induction s as [|c s IH]; intros acc Ha; cbn [digits]; [assumption|].
    destruct (digit c) as [d|] eqn:E; [|assumption]. apply IH.
    assert (48 <= Z.of_N (N_of_ascii c)) by (apply digit_range; congruence).
    unfold digit in E. destruct (_ && _); inversion E. lia. }
  specialize (H r 0 ltac:(lia)). cbv zeta.
  destruct (Z.leb_spec (2 ^ 32) (digits 0 r)); [unfold in_width; lia|].
  destruct neg; [apply wrap_bound; lia | unfold in_width; lia].
Qed.

Lemma same_codec_true name clock rtp :
  same_codec name clock rtp = true -> RtpMap.encodingName rtp = name /\ RtpMap.clockRate rtp = clock.
Proof.
  unfold same_codec. intros [H1 H2]%andb_true_iff. apply String.eqb_eq in H1. apply Z.eqb_eq in H2. auto.
Qed.

(** At most one internal codec matches. *)
Lemma match_codec_internal name clock PT s :
  foldl (match_codec name clock PT) (None, s) internal_codecs =
    match List.find (same_codec name clock) internal_codecs with
    | Some r => (Some 1, s <| outInPTMap ::= insert (int PT) (int (RtpMap.payloadType r)) |>
                           <| inOutPTMap ::= insert (int (RtpMap.payloadType r)) (int PT) |>)
    | None => (None, s)
    end.
Proof.
  unfold internal_codecs. cbn [foldl List.find]. unfold match_codec.
  repeat match goal with
  | |- context [same_codec name clock ?r] =>
    destruct (same_codec name clock r) eqn:E; [apply same_codec_true in E as [<- <-]; reflexivity | clear E]
  end.
  reflexivity.
Qed.

(** The members the invariant speaks of that most steps leave alone. *)
Definition codec_part (s : SdpInfo) :=
  (internalPayloadVector_ s, profile s, payloadVector s, outInPTMap s, inOutPTMap s,
   (videoCodecs s, audioCodecs s, audioSsrc s, videoSsrc s, videoRtxSsrc s, videoBandwidth s),
   (hasVideo s, hasAudio s, videoSdpMLine s, audioSdpMLine s)).

Lemma same_codec_part s s' : codec_part s' = codec_part s -> sdp_ok s -> sdp_ok s'.
Proof.
  unfold codec_part. intros E [H1 H2 H3 H4 H5 H6 H7].
  injection E as E1 E2 E3 E4 E5 E6 E7 E8 E9 E10 E11 E12 E13 E14 E15.
  split; [rewrite E1 | rewrite E2 | rewrite E3 | rewrite E3, E4, E5 | rewrite E3, E6, E7 |
          rewrite E8, E9, E10, E11 | rewrite E12, E13, E14, E15]; assumption.
Qed.

(** A step that leaves the codec part alone. *)
Definition keeps (f : string -> Scan -> option Scan) : Prop := forall line c c',
  f line c = Some c' -> codec_part (info c') = codec_part (info c) /\ mlineNum c' = mlineNum c.

Lemma keeps_when tag f : keeps f -> keeps (when tag f).
Proof. intros H line c c'. unfold when. destruct (has tag line); [apply H | intros [= <-]; auto]. Qed.

(** Opens the binds and the cases of a step that returned. *)
Ltac step_cases H :=
  repeat (first
    [ apply bind_Some in H as (? & ? & H)
    | progress cbv beta zeta in H
    | match type of H with
      | Some _ = Some _ => injection H as H
      | None = Some _ => discriminate H
      | (if ?b then _ else _) = Some _ => destruct b eqn:?
      | match ?x with _ => _ end = Some _ => destruct x eqn:?
      end ]).

Lemma keeps_direction : keeps step_direction.
Proof.
  intros line c c'. unfold step_direction, set_direction. intros [= <-].
  repeat match goal with |- context [has ?t ?l] => destruct (has t l) end; destruct (mtype c); auto.
Qed.

Lemma processCandidate_part mem v m s b s' :
  processCandidate mem v m s = Some (b, s') -> codec_part s' = codec_part s.
Proof.
  unfold processCandidate. intros H. step_cases H; subst; reflexivity.
Qed.

(** Steps that write only members outside of the codec part. *)
Ltac keeps_step :=
  apply keeps_when; intros line c c' H; unfold on_info in H; step_cases H; subst;
  repeat case_match; split; reflexivity.

Lemma keeps_rtcp_mux : keeps step_rtcp_mux.  Proof. keeps_step. Qed.
Lemma keeps_fingerprint : keeps step_fingerprint.  Proof. keeps_step. Qed.
Lemma keeps_group : keeps step_group.  Proof. keeps_step. Qed.
Lemma keeps_crypto : keeps step_crypto.  Proof. keeps_step. Qed.
Lemma keeps_mid : keeps step_mid.  Proof. keeps_step. Qed.
Lemma keeps_extmap mem : keeps (step_extmap mem).  Proof. keeps_step. Qed.
Lemma keeps_feedback : keeps step_feedback.  Proof. keeps_step. Qed.
Lemma keeps_user : keeps step_user.  Proof. keeps_step. Qed.
Lemma keeps_pass : keeps step_pass.  Proof. keeps_step. Qed.

Lemma keeps_candidate mem : keeps (step_candidate mem).
Proof.
  apply keeps_when. intros line c c' H. apply bind_Some in H as ([b s] & E & H).
  injection H as <-. apply processCandidate_part in E. auto.
Qed.

Definition scan_ok (c : Scan) : Prop := sdp_ok (info c) /\ -1 <= mlineNum c.

Definition preserves (f : string -> Scan -> option Scan) : Prop := forall line c c',
  f line c = Some c' -> scan_ok c -> scan_ok c'.

Lemma keeps_preserves f : keeps f -> preserves f.
Proof.
  intros H line c c' E [H1 H2]. apply H in E as [E1 E2]. split; [|lia].
  eapply same_codec_part; eassumption.
Qed.

Lemma preserves_when tag f : preserves f -> preserves (when tag f).
Proof. intros H line c c'. unfold when. destruct (has tag line); [apply H | intros [= <-]; auto]. Qed.

Lemma preserves_profile : preserves step_profile.
Proof.
  apply preserves_when. intros line c c' [= <-] [[] H]. split; [|assumption].
  split; try assumption. reflexivity.
Qed.

Lemma preserves_mline : preserves step_video /\ preserves step_audio.
Proof.
  split; apply preserves_when; intros line c c' [= <-] [[? ? ? ? ? ? [Hv Ha]] H];
    (split; [|simpl; lia]); split; try assumption; split; simpl; auto; lia.
Qed.

Lemma preserves_ssrc : preserves step_ssrc /\ preserves step_ssrc_group /\ preserves step_bandwidth.
Proof.
  split; [|split]; apply preserves_when; intros line c c' H [[? ? ? ? ? Hs Hm] Hn]; unfold on_info in H;
    step_cases H; subst; (split; [|assumption]); split; try assumption;
    repeat (apply Forall_cons in Hs as [? Hs]); repeat (constructor; [first [apply strtoul_width | assumption]|]);
    constructor.
Qed.

(** Changes to the parameters and feedback of codecs are not seen by the maps. *)
Definition same_keys (f : RtpMap -> RtpMap) : Prop := forall r,
  RtpMap.payloadType (f r) = RtpMap.payloadType r /\ RtpMap.encodingName (f r) = RtpMap.encodingName r /\
  RtpMap.clockRate (f r) = RtpMap.clockRate r /\ RtpMap.channels (f r) = RtpMap.channels r.

Lemma same_keys_known f r : same_keys f -> known_codec r -> known_codec (f r).
Proof.
  intros Hf. destruct (Hf r) as (H1 & H2 & H3 & H4). unfold known_codec, internal_of.
  rewrite H1, H2, H3, H4. auto.
Qed.

Lemma same_keys_maps f v maps : same_keys f -> foldl map_codec maps (map f v) = foldl map_codec maps v.
Proof.
  intros Hf. revert maps. induction v as [|r v IH]; intros maps; [reflexivity|]. cbn [map foldl].
  rewrite IH. f_equal. destruct (Hf r) as (H1 & H2 & H3 & _). unfold map_codec, internal_of.
  rewrite H1, H2, H3. reflexivity.
Qed.

Lemma for_payload_type_keys PT f : same_keys f -> same_keys (fun r => if RtpMap.payloadType r =? PT then f r else r).
Proof. intros Hf r. destruct (_ =? PT); [apply Hf | auto]. Qed.

Lemma for_payload_type_ok PT f s :
  same_keys f -> sdp_ok s -> sdp_ok (s <| payloadVector ::= for_payload_type PT f |>).
Proof.
  intros Hf%(for_payload_type_keys PT) [? ? Hk Hm Hc ? ?]. unfold for_payload_type. split; try assumption; simpl.
  - apply Forall_fmap. eapply Forall_impl; [exact Hk|]. intros r. apply same_keys_known. assumption.
  - unfold codec_maps. rewrite same_keys_maps by assumption. assumption.
  - rewrite length_map. assumption.
Qed.

Lemma preserves_fmtp : preserves step_fmtp.
Proof.
  apply preserves_when. intros line c c' H [Hs Hn]. step_cases H; subst; (split; [|assumption]); try assumption.
  apply for_payload_type_ok; [|assumption]. intros r. auto.
Qed.

Lemma preserves_rtpmap : preserves step_rtpmap.
Proof.
  apply preserves_when. intros line c c' H [Hs Hn].
  apply bind_Some in H as (pt & _ & H). apply bind_Some in H as (name & _ & H).
  apply bind_Some in H as (rate & _ & H). cbv zeta in H.
  rewrite (ok_internal _ Hs), match_codec_internal in H.
  destruct (List.find _ internal_codecs) as [r|] eqn:Er.
  2: { injection H as <-. split; assumption. }
  injection H as <-. split; [|assumption]. destruct Hs as [H1 H2 H3 H4 H5 H6 H7].
  assert (Hk : known_codec {| RtpMap.payloadType := strtoul pt; RtpMap.encodingName := name;
    RtpMap.clockRate := strtoul rate; RtpMap.mediaType := mtype c; RtpMap.channels := 1;
    RtpMap.feedbackTypes := []; RtpMap.formatParameters := [] |}).
  { split; [|split]; [exists r; exact Er | apply strtoul_width | reflexivity]. }
  split; try (destruct (mtype c); assumption); destruct (mtype c); simpl;
    lazymatch goal with
    | |- Forall _ _ => apply Forall_app_2; [exact H3 | apply Forall_singleton; exact Hk]
    | |- _ + _ = _ => rewrite length_app; simpl; lia
    | |- _ => unfold codec_maps in *; rewrite foldl_app, <- H4; cbn [foldl]; unfold map_codec, internal_of;
              cbn [RtpMap.encodingName RtpMap.clockRate]; rewrite Er; reflexivity
    end.
Qed.

Lemma process_line_ok mem line c c' : process_line mem line c = Some c' -> scan_ok c -> scan_ok c'.
Proof.
  unfold process_line. intros H Hc.
  pose proof preserves_mline as [Hv Ha]. pose proof preserves_ssrc as (Hs & Hg & Hb).
  pose proof (keeps_preserves _ keeps_rtcp_mux). pose proof (keeps_preserves _ keeps_direction).
  pose proof (keeps_preserves _ keeps_fingerprint). pose proof (keeps_preserves _ keeps_group).
  pose proof (keeps_preserves _ (keeps_candidate (cand_mem mem))). pose proof (keeps_preserves _ keeps_crypto).
  pose proof (keeps_preserves _ keeps_user). pose proof (keeps_preserves _ keeps_pass).
  pose proof (keeps_preserves _ keeps_mid). pose proof (keeps_preserves _ (keeps_extmap (direction_mem mem))).
  pose proof (keeps_preserves _ keeps_feedback).
  pose proof preserves_profile. pose proof preserves_rtpmap. pose proof preserves_fmtp.
  repeat match type of H with
  | mbind _ _ = Some _ => let c1 := fresh "c" in let E := fresh "E" in
    apply bind_Some in H as (c1 & E & H);
    match goal with P : preserves _ |- _ => pose proof (P _ _ _ E ltac:(assumption)); clear E end
  end.
  exact (Hb _ _ _ H ltac:(assumption)).
Qed.

Lemma process_lines_ok mem lines c c' : process_lines mem lines c = Some c' -> scan_ok c -> scan_ok c'.
Proof.
  revert c. induction lines as [|line lines IH]; intros c; cbn [process_lines]; [intros [= <-]; auto|].
  intros (c1 & E & H)%bind_Some Hc. eapply IH; [exact H|]. eapply process_line_ok; eassumption.
Qed.

Lemma fill_credentials_ok s s' :
  fill_credentials s = Some s' ->
  codec_part s' = codec_part s /\ iceVideoUsername_ s' <> "" /\ iceAudioUsername_ s' <> "".
Proof.
  unfold fill_credentials.
  destruct (String.eqb_spec (iceVideoUsername_ s) "") as [Ev|Ev], (String.eqb_spec (iceAudioUsername_ s) "") as [Ea|Ea];
    cbn [andb]; intros [= <-]; auto.
Qed.

Lemma process_feedbacks_ok lines s s' :
  process_feedbacks lines s = Some s' -> sdp_ok s ->
  sdp_ok s' /\ (iceVideoUsername_ s', iceAudioUsername_ s') = (iceVideoUsername_ s, iceAudioUsername_ s).
Proof.
  revert s. induction lines as [|line lines IH]; intros s; cbn [process_feedbacks]; [intros [= <-]; auto|].
  intros (s1 & E & H)%bind_Some Hs. unfold process_feedback in E. step_cases E. subst s1.
  apply IH in H as [Hok Hu]; [split; [assumption | rewrite Hu; reflexivity]|].
  apply for_payload_type_ok; [intros r; auto | assumption].
Qed.

Lemma processSdp_ok mem text media b t :
  processSdp mem text media (SdpInfo_ctor mem) = Some (b, t) ->
  sdp_ok t /\ (b = true -> iceVideoUsername_ t <> "" /\ iceAudioUsername_ t <> "").
Proof.
  unfold processSdp. intros (c & E & H)%bind_Some.
  apply process_lines_ok in E as [Hc _]; [|split; [apply ctor_ok | simpl; lia]].
  destruct (fill_credentials (info c)) as [s|] eqn:Ef.
  2: { injection H as <- <-. split; [assumption | discriminate]. }
  apply fill_credentials_ok in Ef as (Ef & Hv & Ha). cbv zeta in H.
  apply bind_Some in H as (s2 & E2 & H). injection H as <- <-.
  apply process_feedbacks_ok in E2 as [H1 H2].
  - split; [assumption|]. intros _. injection H2 as -> ->. auto.
  - eapply same_codec_part; [|exact Hc]. exact Ef.
Qed.

(** C9. Whatever text is parsed into a fresh object: when [processSdp] returns, the profile is
    SAVPF, every negotiated codec is one of the internal ones with one channel and a 32-bit
    payload type, the two payload type maps are those the negotiated codecs stand for, the
    codec counters add up to their number, the SSRCs fit 32 bits and a medium that is
    present has an m-line; when it returns true both media have a user name. *)
Theorem parsed_sdp_ok mem text media b t :
  processSdp mem text media (SdpInfo_ctor mem) = Some (b, t) ->
  sdp_ok t /\ (b = true -> iceVideoUsername_ t <> "" /\ iceAudioUsername_ t <> "").
Proof. apply processSdp_ok. Qed.

(** ** The payload type maps *)

Definition external_pt (rtp : RtpMap) : Z := int (RtpMap.payloadType rtp).
Definition internal_pt (rtp : RtpMap) : Z :=
  match internal_of rtp with Some r => int (RtpMap.payloadType r) | None => 0 end.

(** Different codecs under different payload types. *)
Definition distinct_codecs (v : list RtpMap) : Prop :=
  NoDup (map external_pt v) /\ NoDup (map internal_pt v).

Lemma codec_maps_lookup v rtp :
  Forall known_codec v -> distinct_codecs v -> rtp ∈ v ->
  fst (codec_maps v) !! external_pt rtp = Some (internal_pt rtp) /\
  snd (codec_maps v) !! internal_pt rtp = Some (external_pt rtp).
Proof.
  induction v as [|x v IH] using rev_ind; intros Hk [He Hi] Hin.
  { inversion Hin. }
  unfold codec_maps. rewrite foldl_app. fold (codec_maps v). cbn [foldl].
  apply Forall_app in Hk as [Hk Hx]. rewrite Forall_singleton in Hx. destruct Hx as [[r Hr] _].
  rewrite map_app in He, Hi.
  assert (Hne : forall f : RtpMap -> Z, NoDup (map f v ++ map f [x]) -> rtp ∈ v -> f x <> f rtp).
  { intros f (_ & Hd & _)%NoDup_app Hv E. apply (Hd (f rtp)).
    - apply (list_elem_of_fmap_2 f). assumption.
    - cbn [map]. rewrite E. apply list_elem_of_singleton. reflexivity. }
  unfold map_codec. rewrite Hr. cbn [fst snd].
  change (int (RtpMap.payloadType x)) with (external_pt x).
  assert (E : int (RtpMap.payloadType r) = internal_pt x) by (unfold internal_pt; rewrite Hr; reflexivity).
  rewrite E. apply elem_of_app in Hin as [Hv | ->%list_elem_of_singleton].
  - rewrite !lookup_insert_ne by (apply Hne; assumption).
    apply IH; [assumption | split | assumption].
    + apply NoDup_app in He. tauto.
    + apply NoDup_app in Hi. tauto.
  - rewrite !lookup_insert_eq. auto.
Qed.

Lemma codec_maps_none v pt :
  pt ∉ map external_pt v -> fst (codec_maps v) !! pt = None.
Proof.
  induction v as [|x v IH] using rev_ind; intros Hn; [reflexivity|].
  unfold codec_maps. rewrite foldl_app. fold (codec_maps v). cbn [foldl].
  rewrite map_app, elem_of_app in Hn. unfold map_codec.
  destruct (internal_of x); [|apply IH; tauto]. cbn [fst].
  rewrite lookup_insert_ne; [apply IH; tauto|].
  intros E. apply Hn. right. cbn [map]. rewrite <- E. apply list_elem_of_singleton. reflexivity.
Qed.

(** After a text with distinct codecs has been parsed the translations of payload types
    are inverse on the negotiated codecs, each goes to the type of the internal codec
    with its name and rate, and an external type that was not negotiated is passed on. *)
Theorem payload_types_translate mem text media b t :
  processSdp mem text media (SdpInfo_ctor mem) = Some (b, t) ->
  distinct_codecs (payloadVector t) ->
  (forall rtp, rtp ∈ payloadVector t ->
    getVideoInternalPT (external_pt rtp) t = internal_pt rtp /\
    getVideoExternalPT (internal_pt rtp) t = external_pt rtp) /\
  (forall pt, pt ∉ map external_pt (payloadVector t) -> getVideoInternalPT pt t = pt).
Proof.
  intros H [Hd Hi]. apply processSdp_ok in H as [[_ _ Hk Hm _ _ _] _].
  unfold getVideoInternalPT, getVideoExternalPT, getAudioInternalPT, getAudioExternalPT.
  replace (outInPTMap t) with (fst (codec_maps (payloadVector t))) by (rewrite <- Hm; reflexivity).
  replace (inOutPTMap t) with (snd (codec_maps (payloadVector t))) by (rewrite <- Hm; reflexivity).
  split.
  - intros rtp Hin. destruct (codec_maps_lookup _ _ Hk (conj Hd Hi) Hin) as [-> ->]. auto.
  - intros pt Hn. rewrite codec_maps_none by assumption. reflexivity.
Qed.

(** ** Bundle tags and the 8-bit counters *)

(** With 256 bundle tags or more the printer does not return, whatever the tags are, and
    neither does the loop over the tags that an a=mid line of a bundle starts. *)
Theorem bundle_tags_diverge s rnd :
  isBundle s = true -> (256 <= length (bundleTags s))%nat ->
  getSdp rnd s = None /\
  (forall fuel id m, u8_loop fuel 0 (length (bundleTags s)) (set_mid id m) (bundleTags s) = None).
Proof.
  intros Hb Hl. split.
  - unfold getSdp, print_session. rewrite Hb. unfold u8_print.
    rewrite (u8_loop_diverges _ _ 256 0) by lia. reflexivity.
  - intros fuel id m. apply u8_loop_diverges; lia.
Qed.

(** ** Concrete sessions *)

Definition sample_mem : uninitialised := {|
  cand_mem := {| CandidateInfo.isBundle := true; CandidateInfo.tag := 9; CandidateInfo.priority := 9;
    CandidateInfo.componentId := 9; CandidateInfo.foundation := ""; CandidateInfo.hostAddress := "";
    CandidateInfo.rAddress := ""; CandidateInfo.hostPort := 9; CandidateInfo.rPort := 9;
    CandidateInfo.netProtocol := ""; CandidateInfo.hostType := RELAY; CandidateInfo.transProtocol := "";
    CandidateInfo.username := ""; CandidateInfo.password := ""; CandidateInfo.mediaType := OTHER |};
  direction_mem := SENDONLY |}.

Definition lines_of (l : list string) : string := foldr (fun a s => a +:+ newline +:+ s) "" l.

Definition sample_text : string := lines_of
  ["m=audio 1 RTP/SAVPF 0"; "a=ice-ufrag:u"; "a=ice-pwd:p"; "a=rtpmap:0 PCMU/8000";
   "m=video 1 RTP/SAVPF 96"; "a=rtpmap:96 VP8/90000"; "a=rtpmap:97 H264/90000"].

Definition parsed (text : string) : SdpInfo :=
  match processSdp sample_mem text "" (SdpInfo_ctor sample_mem) with
  | Some (_, s) => s
  | None => SdpInfo_ctor sample_mem
  end.

Lemma parsed_sdp_ok_witness :
  processSdp sample_mem sample_text "" (SdpInfo_ctor sample_mem) = Some (true, parsed sample_text) /\
  iceVideoUsername_ (parsed sample_text) = "u" /\
  sdp_ok (parsed sample_text).
Proof.
  split; [vm_compute; reflexivity|]. split; [vm_compute; reflexivity|].
  apply (parsed_sdp_ok sample_mem sample_text "" true). vm_compute. reflexivity.
Defined.

(** VP8 was negotiated as 96: it is internally 100, and yet not "supported"; 97 is unknown. *)
Lemma payload_types_translate_witness :
  map RtpMap.payloadType (payloadVector (parsed sample_text)) = [0; 96] /\
  getVideoInternalPT 96 (parsed sample_text) = 100 /\ getVideoInternalPT 97 (parsed sample_text) = 97 /\
  fst (supportCodecByName "VP8" 90000 (parsed sample_text)) = false.
Proof.
  assert (H : processSdp sample_mem sample_text "" (SdpInfo_ctor sample_mem) = Some (true, parsed sample_text))
    by (vm_compute; reflexivity).
  assert (Hd : distinct_codecs (payloadVector (parsed sample_text))).
  { vm_compute. split; repeat (apply NoDup_cons_2; [intros Hin; repeat (apply elem_of_cons in Hin as [Hin|Hin]; [discriminate Hin|]); inversion Hin|]);
      apply NoDup_nil_2. }
  destruct (payload_types_translate _ _ _ _ _ H Hd) as [Hin Hout].
  split; [vm_compute; reflexivity|]. split; [|split; [|vm_compute; reflexivity]].
  - assert (Hv : exists x, x ∈ payloadVector (parsed sample_text) /\ external_pt x = 96 /\ internal_pt x = 100).
    { eexists. split; [|split; [|]].
      - vm_compute. right. left.
      - reflexivity.
      - reflexivity. }
    destruct Hv as (x & Hx & E1 & E2). destruct (Hin x Hx) as [E _]. rewrite E1, E2 in E. exact E.
  - apply Hout. vm_compute. intros Hi. repeat (apply elem_of_cons in Hi as [Hi|Hi]; [discriminate Hi|]). inversion Hi.
Defined.

(** Twenty-nine group lines of nine names are enough. *)
Definition many_tags : string := lines_of ("a=ice-ufrag:u" :: repeat "a=group:BUNDLE 1 2 3 4 5 6 7 8 9" 29).

Lemma bundle_tags_diverge_witness :
  length (bundleTags (parsed many_tags)) = 261%nat /\ getSdp [] (parsed many_tags) = None /\
  processSdp sample_mem (many_tags +:+ "a=mid:1") "" (SdpInfo_ctor sample_mem) = None.
Proof.
  split; [vm_compute; reflexivity|]. split; [|vm_compute; reflexivity].
  apply (bundle_tags_diverge (parsed many_tags) []); [vm_compute; reflexivity|].
  apply Nat.leb_le. vm_compute. reflexivity.
Defined.
