(* ===== verification/SdpRoundtrip.v ===== *)
(** * SdpRoundtrip: the parser of session descriptions reads what the printer writes

    The text [getSdp] writes is a list of lines, each a fixed part and some tokens.
    [process_line] is computed for each kind of line; the sections are put together from
    that, and the final object is compared with the printed one. *)

From Stdlib Require Import Ascii String.
From stdpp Require Import sorting pretty.
From S2P Require Import Prelude RtpHeaders Rtcp Text SdpInfo.
Import CryptoInfo (CryptoInfo).
Import CandidateInfo (CandidateInfo).
Import BundleTag (BundleTag).
Import RtpMap (RtpMap).
Import ExtMap (ExtMap).
#[local] Arguments set_member {R E} member {_} f r /.
Local Open Scope string_scope.
Local Open Scope list_scope.
Local Open Scope Z_scope.

(** ** Tokens *)

(** A word is not split by the parser; a plain text cannot hold a tag or end its line. *)
Definition word (s : string) : Prop :=
  s <> EmptyString /\ lacks (" :=/" +:+ carriage_return +:+ newline) s = true.
Definition plain (s : string) : Prop :=
  s <> EmptyString /\ lacks ("=" +:+ carriage_return +:+ newline) s = true.

Definition tags : list string :=
  [Tag.cand; Tag.crypto; Tag.group; Tag.video; Tag.audio; Tag.mid; Tag.sendrecv; Tag.recvonly;
   Tag.sendonly; Tag.ice_user; Tag.ice_pass; Tag.ssrctag; Tag.ssrcgrouptag; Tag.rtpmap; Tag.rtcpmux;
   Tag.fp; Tag.extmap; Tag.rtcpfb; Tag.fmtp; Tag.bas].

(** No tag but perhaps that of the profile occurs. *)
Definition quiet (s : string) : bool := forallb (fun tag => negb (has tag s)) tags.

Lemma quiet_lacks s : lacks "=" s = true -> quiet s = true.
Proof.
  intros H. apply forallb_forall. intros tag Ht. apply negb_true_iff.
  apply (has_lacks "="); [|assumption]. revert tag Ht. apply forallb_forall. reflexivity.
Qed.

Lemma has_tag tag lit tok :
  In tag tags -> clean tag lit = true -> quiet tok = true -> has tag (lit +:+ tok) = has tag lit.
Proof.
  intros Ht Hc Hq. apply has_app; [assumption|].
  unfold quiet in Hq. rewrite forallb_forall in Hq. apply negb_true_iff, Hq. assumption.
Qed.

Lemma word_plain s : word s -> plain s.
Proof. intros [Hne Hl]. split; [assumption|]. revert Hl. apply lacks_weaken. reflexivity. Qed.

Lemma plain_quiet s : plain s -> quiet s = true.
Proof. intros [_ Hl]. apply quiet_lacks. revert Hl. apply lacks_weaken. reflexivity. Qed.

Lemma plain_app a b : plain a -> plain b -> plain (a +:+ b).
Proof.
  intros [Ha La] [_ Lb]. split; [destruct a; [congruence | discriminate]|].
  rewrite lacks_app, La, Lb. reflexivity.
Qed.

Lemma word_pretty n : 0 <= n -> word (pretty n).
Proof.
  intros Hn. split; [apply pretty_nonempty; assumption|].
  apply all_digits_lacks; [reflexivity | apply all_digits_pretty; assumption].
Qed.

(** ** The effect of a line *)

(** What holds between the lines of a text the printer wrote. *)
Definition ready (c : Scan) : Prop :=
  profile (info c) = SAVPF /\ internalPayloadVector_ (info c) = internal_codecs.

Lemma step_profile_id line c : profile (info c) = SAVPF -> step_profile line c = Some c.
Proof.
  intros H. unfold step_profile, when. destruct (has Tag.savpf line); [|reflexivity].
  destruct c as [[] ? ? ?]. simpl in H. subst. reflexivity.
Qed.

(** Computes which steps a line of the form [lit ++ tok] takes. *)
Ltac find_tags lit tok :=
  repeat match goal with
  | |- context [has ?t (lit +:+ tok)] =>
    let b := eval vm_compute in (has t lit) in
    replace (has t (lit +:+ tok)) with b
      by (symmetry; apply (has_tag t lit tok); [cbn; tauto | reflexivity | assumption])
  end.

(** Runs the steps of such a line; [H] is what [ready] says of the profile. *)
Ltac run_line H lit tok :=
  unfold process_line, step_rtcp_mux, step_direction, when; find_tags lit tok; cbn [option_bind mbind];
  rewrite step_profile_id by exact H;
  unfold step_fingerprint, step_group, step_video, step_audio, step_candidate, step_crypto, step_user,
    step_pass, step_mid, step_ssrc, step_ssrc_group, step_rtpmap, step_extmap, step_feedback, step_fmtp,
    step_bandwidth, when;
  find_tags lit tok; cbn [option_bind mbind].

(** Splits a text at the next delimiter behind the piece [a]. *)
Lemma pieces_next max n delims a d b :
  lacks delims a = true -> among delims d = true -> ((max =? 0)%nat || (n <? max)%nat) = true ->
  pieces max n delims (a +:+ String d EmptyString +:+ b) = a :: pieces max (S n) delims b.
Proof. intros. apply pieces_cons; assumption. Qed.

(** [lacks] for the delimiters of a split, from what the token is. *)
Ltac token :=
  lazymatch goal with
  | |- lacks _ _ = true =>
    first [ reflexivity
          | match goal with H : word ?s |- lacks _ ?s = true =>
              destruct H as [_ H]; revert H; apply lacks_weaken; reflexivity end
          | match goal with H : plain ?s |- lacks _ ?s = true =>
              destruct H as [_ H]; revert H; apply lacks_weaken; reflexivity end
          | assumption ]
  | |- _ <> EmptyString =>
    first [ discriminate | assumption
          | match goal with H : word ?s |- ?s <> EmptyString => exact (proj1 H) end
          | match goal with H : plain ?s |- ?s <> EmptyString => exact (proj1 H) end ]
  | |- _ => reflexivity
  end.

Lemma credential_spec lit tok :
  lacks ":" lit = true -> plain tok -> credential (lit +:+ ":" +:+ tok) = Some tok.
Proof.
  intros Hl Ht. unfold credential. change (splitOneOf ?s ":" 1) with (pieces 1 0 ":" s).
  rewrite pieces_next, pieces_rest by token. cbn [lookup list_lookup option_bind mbind].
  change (splitOneOf tok carriage_return 1) with (pieces 1 0 carriage_return tok).
  rewrite pieces_last by token. reflexivity.
Qed.

Lemma user_line mem tok c :
  ready c -> plain tok ->
  process_line mem ("a=ice-ufrag:" +:+ tok) c =
    Some (match mtype c with
          | AUDIO_TYPE => on_info (set_member iceAudioUsername_ (fun _ => tok)) c
          | _ => on_info (set_member iceVideoUsername_ (fun _ => tok)) c
          end).
Proof.
  intros [Hp _] Ht. pose proof (plain_quiet _ Ht) as Hq. run_line Hp "a=ice-ufrag:" tok.
  change ("a=ice-ufrag:" +:+ tok) with ("a=ice-ufrag" +:+ ":" +:+ tok).
  rewrite credential_spec by token || assumption. reflexivity.
Qed.

Lemma pass_line mem tok c :
  ready c -> plain tok ->
  process_line mem ("a=ice-pwd:" +:+ tok) c =
    Some (match mtype c with
          | AUDIO_TYPE => on_info (set_member iceAudioPassword_ (fun _ => tok)) c
          | _ => on_info (set_member iceVideoPassword_ (fun _ => tok)) c
          end).
Proof.
  intros [Hp _] Ht. pose proof (plain_quiet _ Ht) as Hq. run_line Hp "a=ice-pwd:" tok.
  change ("a=ice-pwd:" +:+ tok) with ("a=ice-pwd" +:+ ":" +:+ tok).
  rewrite credential_spec by token || assumption. reflexivity.
Qed.

Lemma fingerprint_line mem tok c :
  ready c -> plain tok -> lacks " " tok = true ->
  process_line mem ("a=fingerprint:sha-256 " +:+ tok) c =
    Some (on_info (fun s => s <| fingerprint := tok |> <| isFingerprint := true |>) c).
Proof.
  intros [Hp _] Ht Hs. pose proof (plain_quiet _ Ht) as Hq. run_line Hp "a=fingerprint:sha-256 " tok.
  change ("a=fingerprint:sha-256 " +:+ tok) with ("a=fingerprint" +:+ ":" +:+ ("sha-256" +:+ " " +:+ tok)).
  change (splitOneOf ?s ":" 1) with (pieces 1 0 ":" s).
  rewrite pieces_next, pieces_rest by token. cbn [lookup list_lookup option_bind mbind].
  change (splitOneOf ?s " " 0) with (pieces 0 0 " " s).
  rewrite pieces_next, pieces_last by token. reflexivity.
Qed.

Ltac plain_text :=
  repeat apply plain_app;
  first [ assumption | apply word_plain; assumption | split; [discriminate | reflexivity] ].

(** Lines in which no tag occurs. *)
Lemma silent_line mem lit tok c :
  ready c -> quiet tok = true -> forallb (fun t => clean t lit && negb (has t lit)) tags = true ->
  process_line mem (lit +:+ tok) c = Some c.
Proof.
  intros [Hp _] Hq Hl.
  assert (H : forall t, In t tags -> has t (lit +:+ tok) = false).
  { intros t Ht. rewrite forallb_forall in Hl. specialize (Hl t Ht). apply andb_true_iff in Hl as [Hc Hn].
    rewrite has_tag by assumption. apply negb_true_iff. assumption. }
  unfold process_line, step_rtcp_mux, step_direction, when.
  rewrite !H by (cbn; tauto). cbn [option_bind mbind]. rewrite step_profile_id by exact Hp.
  unfold step_fingerprint, step_group, step_video, step_audio, step_candidate, step_crypto, step_user,
    step_pass, step_mid, step_ssrc, step_ssrc_group, step_rtpmap, step_extmap, step_feedback, step_fmtp,
    step_bandwidth, when.
  rewrite !H by (cbn; tauto). reflexivity.
Qed.

Definition set_ssrc (n : Z) (c : Scan) : Scan :=
  match mtype c with
  | VIDEO_TYPE => on_info (set_member videoSsrc (fun v => if v =? 0 then n else v)) c
  | AUDIO_TYPE => on_info (set_member audioSsrc (fun v => if v =? 0 then n else v)) c
  | OTHER => c
  end.

Lemma ssrc_line mem n rest c :
  ready c -> in_width 32 n -> plain rest ->
  process_line mem ("a=ssrc:" +:+ pretty n +:+ " " +:+ rest) c = Some (set_ssrc n c).
Proof.
  intros [Hp _] Hn Hr. pose proof (word_pretty n (proj1 Hn)) as Hw.
  assert (Hq : quiet (pretty n +:+ " " +:+ rest) = true) by (apply plain_quiet; plain_text).
  run_line Hp "a=ssrc:" (pretty n +:+ " " +:+ rest).
  change ("a=ssrc:" +:+ ?t) with ("a=ssrc" +:+ ":" +:+ t).
  change (splitOneOf ?s " :" 2) with (pieces 2 0 " :" s).
  rewrite !pieces_next, pieces_rest by token. cbn [lookup list_lookup option_bind mbind].
  rewrite strtoul_pretty by assumption. unfold set_ssrc, on_info. destruct c as [[] [] k f]; cbn -[Z.eqb];
    try reflexivity; destruct (_ =? 0); reflexivity.
Qed.

(** ** Bundle tags *)

Definition mark (thisId : string) (m : MediaType) (b : BundleTag) : BundleTag :=
  if String.eqb (BundleTag.id b) thisId then {| BundleTag.id := BundleTag.id b; BundleTag.mediaType := m |} else b.

Lemma set_mid_all thisId m v :
  foldl (fun v i => set_mid thisId m i v) v (seq 0 (length v)) = map (mark thisId m) v.
Proof.
  assert (H : forall pre post, foldl (fun v i => set_mid thisId m i v) (pre ++ post)
      (seq (length pre) (length post)) = pre ++ map (mark thisId m) post).
  { intros pre post. revert pre. induction post as [|b post IH]; intros pre; [reflexivity|].
    cbn [length seq foldl map].
    assert (E : set_mid thisId m (length pre) (pre ++ b :: post) = (pre ++ [mark thisId m b]) ++ post).
    { unfold set_mid, mark. rewrite list_lookup_middle by reflexivity.
      destruct (String.eqb (BundleTag.id b) thisId); rewrite <- app_assoc; [|reflexivity].
      rewrite <- (Nat.add_0_r (length pre)), insert_app_r. reflexivity. }
    rewrite E. replace (S (length pre)) with (length (pre ++ [mark thisId m b])) by (rewrite length_app; simpl; lia).
    rewrite IH, <- app_assoc. reflexivity. }
  exact (H [] v).
Qed.

Definition set_mids (thisId : string) (c : Scan) : Scan :=
  on_info (set_member bundleTags (fun v => if isBundle (info c) then map (mark thisId (mtype c)) v else v)) c.

Lemma mid_line mem tok c :
  ready c -> word tok -> (length (bundleTags (info c)) <= 255)%nat ->
  process_line mem ("a=mid:" +:+ tok) c = Some (set_mids tok c).
Proof.
  intros [Hp _] Ht Hl. pose proof (plain_quiet _ (word_plain _ Ht)) as Hq. run_line Hp "a=mid:" tok.
  change ("a=mid:" +:+ tok) with ("a=mid" +:+ ":" +:+ tok).
  change (splitOneOf ?s ?d 4) with (pieces 4 0 d s).
  rewrite pieces_next, pieces_last by token. cbn [lookup list_lookup option_bind mbind].
  unfold set_mids. destruct (isBundle (info c)) eqn:E.
  - change 0 with (Z.of_nat 0). rewrite u8_loop_spec by lia. rewrite Nat.sub_0_r, set_mid_all. reflexivity.
  - destruct c as [[] ? ? ?]. reflexivity.
Qed.

(** ** Extensions and keys *)

Lemma extmap_line mem n uri c :
  ready c -> in_width 32 n -> plain uri ->
  process_line mem ("a=extmap:" +:+ pretty n +:+ " " +:+ uri) c =
    Some (on_info (set_member extMapVector (fun v => v ++
      [{| ExtMap.value := n; ExtMap.uri := drop_last uri; ExtMap.direction := direction_mem mem;
          ExtMap.parameters := ""; ExtMap.mediaType := mtype c |}])) c).
Proof.
  intros [Hp _] Hn Hu. pose proof (word_pretty n (proj1 Hn)) as Hw.
  assert (Hq : quiet (pretty n +:+ " " +:+ uri) = true) by (apply plain_quiet; plain_text).
  run_line Hp "a=extmap:" (pretty n +:+ " " +:+ uri).
  change ("a=extmap:" +:+ ?t) with ("a" +:+ "=" +:+ ("extmap" +:+ ":" +:+ t)).
  change (splitOneOf ?s ?d 3) with (pieces 3 0 d s).
  rewrite !pieces_next, pieces_rest by token. cbn [lookup list_lookup option_bind mbind].
  rewrite strtoul_pretty by assumption. reflexivity.
Qed.

Lemma crypto_line mem n suite key c :
  ready c -> 0 <= n -> word suite -> word key ->
  process_line mem ("a=crypto:" +:+ pretty n +:+ " " +:+ suite +:+ " " +:+ "inline:" +:+ key) c =
    Some (on_info (addCrypto {| CryptoInfo.tag := 0; CryptoInfo.cipherSuite := suite;
                                CryptoInfo.keyParams := key; CryptoInfo.mediaType := mtype c |}) c).
Proof.
  intros [Hp _] Hn Hs Hk. pose proof (word_pretty n Hn) as Hw.
  assert (Hq : quiet (pretty n +:+ " " +:+ suite +:+ " " +:+ "inline:" +:+ key) = true)
    by (apply plain_quiet; plain_text).
  run_line Hp "a=crypto:" (pretty n +:+ " " +:+ suite +:+ " " +:+ "inline:" +:+ key).
  change ("a=crypto:" +:+ ?t) with ("a=crypto" +:+ ":" +:+ t).
  change ("inline:" +:+ key) with ("inline" +:+ ":" +:+ key).
  change (splitOneOf ?s ?d 0) with (pieces 0 0 d s).
  rewrite !pieces_next, pieces_last by token. reflexivity.
Qed.

(** ** Codecs *)

Definition fresh_codec (n : Z) (name : string) (clock : Z) (m : MediaType) : RtpMap :=
  {| RtpMap.payloadType := n; RtpMap.encodingName := name; RtpMap.clockRate := clock;
     RtpMap.mediaType := m; RtpMap.channels := 1; RtpMap.feedbackTypes := []; RtpMap.formatParameters := [] |}.

Definition count_media (m : MediaType) (s : SdpInfo) : SdpInfo :=
  match m with VIDEO_TYPE => s <| videoCodecs ::= Z.succ |> | _ => s <| audioCodecs ::= Z.succ |> end.

(** What an rtpmap line of a known codec does. *)
Definition add_codec (n : Z) (name : string) (clock : Z) (c : Scan) : Scan :=
  on_info (fun s =>
    let maps := map_codec (outInPTMap s, inOutPTMap s) (fresh_codec n name clock (mtype c)) in
    count_media (mtype c) (s <| outInPTMap := fst maps |> <| inOutPTMap := snd maps |>)
      <| payloadVector ::= fun v => v ++ [fresh_codec n name clock (mtype c)] |>) c.

Lemma rtpmap_line mem n name clock r c :
  ready c -> in_width 32 n -> in_width 32 clock -> word name ->
  List.find (same_codec name clock) internal_codecs = Some r ->
  process_line mem ("a=rtpmap:" +:+ pretty n +:+ " " +:+ name +:+ "/" +:+ pretty clock) c =
    Some (add_codec n name clock c).
Proof.
  intros [Hp Hi] Hn Hc Hm Hr.
  pose proof (word_pretty n (proj1 Hn)) as Hw. pose proof (word_pretty clock (proj1 Hc)) as Hw'.
  assert (Hq : quiet (pretty n +:+ " " +:+ name +:+ "/" +:+ pretty clock) = true)
    by (apply plain_quiet; plain_text).
  run_line Hp "a=rtpmap:" (pretty n +:+ " " +:+ name +:+ "/" +:+ pretty clock).
  change ("a=rtpmap:" +:+ ?t) with ("a=rtpmap" +:+ ":" +:+ t).
  change (splitOneOf ?s ?d 4) with (pieces 4 0 d s).
  rewrite !pieces_next, pieces_last by token. cbn [lookup list_lookup option_bind mbind].
  rewrite !strtoul_pretty by assumption. rewrite Hi, match_codec_internal, Hr.
  unfold add_codec, map_codec, internal_of, fresh_codec, count_media.
  cbn [RtpMap.encodingName RtpMap.clockRate]. rewrite Hr. destruct (mtype c); reflexivity.
Qed.

Lemma feedback_line mem tok c :
  ready c -> quiet tok = true ->
  process_line mem ("a=rtcp-fb:" +:+ tok) c =
    Some (c <| tmpFeedbackVector ::= fun v => v ++ ["a=rtcp-fb:" +:+ tok] |>).
Proof. intros [Hp _] Hq. run_line Hp "a=rtcp-fb:" tok. reflexivity. Qed.

Lemma process_feedback_line n fb s :
  in_width 32 n -> plain fb ->
  process_feedback ("a=rtcp-fb:" +:+ pretty n +:+ " " +:+ fb) s =
    Some (s <| payloadVector ::= for_payload_type n (set_member RtpMap.feedbackTypes (fun v => v ++ [fb])) |>).
Proof.
  intros Hn Hf. pose proof (word_pretty n (proj1 Hn)) as Hw. unfold process_feedback.
  change ("a=rtcp-fb:" +:+ ?t) with ("a=rtcp-fb" +:+ ":" +:+ t).
  change (splitOneOf ?s ?d 2) with (pieces 2 0 d s).
  rewrite !pieces_next, pieces_rest by token. cbn [lookup list_lookup option_bind mbind].
  rewrite strtoul_pretty by assumption. reflexivity.
Qed.

(** A format parameter the printer writes so that the parser finds it: no NUL (the parser
    goes through [c_str]), the name a word, the value of an unnamed parameter one too. *)
Definition parameter_ok (p : string * string) : Prop :=
  lacks (String "000" EmptyString) (fst p) = true /\ lacks (String "000" EmptyString) (snd p) = true /\
  word (fst p) /\ snd p <> EmptyString /\ lacks newline (snd p) = true /\
  (fst p = "none" -> word (snd p)) /\ quiet (fst p +:+ "=" +:+ snd p) = true.

Lemma c_str_id s : lacks (String "000" EmptyString) s = true -> c_str s = s.
Proof.
  induction s as [|c s IH]; [reflexivity|]. cbn [lacks among c_str]. rewrite orb_false_r.
  intros [Hc Hs]%andb_true_iff. apply negb_true_iff in Hc. rewrite Hc, (IH Hs). reflexivity.
Qed.

(** The line of a format parameter, without its end. *)
Definition fmtp_text (n : Z) (p : string * string) : string :=
  if String.eqb (fst p) "none" then "a=fmtp:" +:+ pretty n +:+ " " +:+ snd p
  else "a=fmtp:" +:+ pretty n +:+ " " +:+ fst p +:+ "=" +:+ snd p.

Lemma fmtp_line mem n p c :
  ready c -> in_width 32 n -> parameter_ok p ->
  process_line mem (fmtp_text n p) c =
    Some (on_info (set_member payloadVector (for_payload_type n
      (set_member RtpMap.formatParameters (map_set (fst p) (snd p))))) c).
Proof.
  intros [Hp _] Hn (H0 & H0' & Hw & Hne & _ & Hnone & Hq').
  pose proof (word_pretty n (proj1 Hn)) as Hwn. destruct p as [opt value]. cbn [fst snd] in *.
  unfold fmtp_text. cbn [fst snd]. destruct (String.eqb_spec opt "none") as [->|Hneq].
  - specialize (Hnone eq_refl).
    assert (Hq : quiet (pretty n +:+ " " +:+ value) = true) by (apply plain_quiet; plain_text).
    run_line Hp "a=fmtp:" (pretty n +:+ " " +:+ value).
    change ("a=fmtp:" +:+ ?t) with ("a" +:+ "=" +:+ ("fmtp" +:+ ":" +:+ t)).
    change (splitOneOf ?s ?d 4) with (pieces 4 0 d s).
    rewrite !pieces_next, pieces_last by token. cbn [lookup list_lookup option_bind mbind].
    rewrite strtoul_pretty, c_str_id by assumption. reflexivity.
  - assert (Hq : quiet (pretty n +:+ " " +:+ opt +:+ "=" +:+ value) = true).
    { clear -Hq' Hn. unfold quiet in *. rewrite forallb_forall in *. intros t Ht. specialize (Hq' t Ht).
      apply negb_true_iff. apply negb_true_iff in Hq'.
      assert (Hl : lacks "=" (pretty n +:+ " ") = true).
      { rewrite lacks_app, andb_true_r. apply all_digits_lacks; [reflexivity | apply all_digits_pretty, Hn]. }
      rewrite <- string_app_assoc. rewrite has_app; [apply (has_lacks "="); [|assumption] | | assumption].
      - clear Hq'. revert t Ht. apply forallb_forall. reflexivity.
      - apply clean_end. apply negb_true_iff. clear Hq'. revert t Ht. apply forallb_forall. reflexivity. }
    run_line Hp "a=fmtp:" (pretty n +:+ " " +:+ opt +:+ "=" +:+ value).
    change ("a=fmtp:" +:+ ?t) with ("a" +:+ "=" +:+ ("fmtp" +:+ ":" +:+ t)).
    change (splitOneOf ?s ?d 4) with (pieces 4 0 d s).
    rewrite !pieces_next, pieces_rest by token. cbn [lookup list_lookup option_bind mbind].
    rewrite strtoul_pretty, !c_str_id by assumption. reflexivity.
Qed.

(** ** Candidates *)

Record candidate_ok (c : CandidateInfo) : Prop := {
  cand_foundation : word (CandidateInfo.foundation c);
  cand_component : in_width 32 (CandidateInfo.componentId c);
  cand_protocol : CandidateInfo.netProtocol c = "udp" \/ CandidateInfo.netProtocol c = "UDP";
  cand_priority : in_width 32 (CandidateInfo.priority c);
  cand_host : word (CandidateInfo.hostAddress c);
  cand_port : in_width 31 (CandidateInfo.hostPort c);
  cand_related : match CandidateInfo.hostType c with
                 | SRFLX | RELAY => word (CandidateInfo.rAddress c) /\ in_width 31 (CandidateInfo.rPort c)
                 | _ => True
                 end
}.

(** A candidate as it is read back, before its credentials are filled in. *)
Definition read_candidate (mem : CandidateInfo) (m : MediaType) (c : CandidateInfo) : CandidateInfo :=
  let related := match CandidateInfo.hostType c with SRFLX | RELAY => true | _ => false end in
  {| CandidateInfo.isBundle := CandidateInfo.isBundle mem; CandidateInfo.tag := 0;
     CandidateInfo.priority := CandidateInfo.priority c; CandidateInfo.componentId := CandidateInfo.componentId c;
     CandidateInfo.foundation := CandidateInfo.foundation c;
     CandidateInfo.hostAddress := CandidateInfo.hostAddress c;
     CandidateInfo.rAddress := if related then CandidateInfo.rAddress c else "";
     CandidateInfo.hostPort := CandidateInfo.hostPort c;
     CandidateInfo.rPort := if related then CandidateInfo.rPort c else CandidateInfo.rPort mem;
     CandidateInfo.netProtocol := CandidateInfo.netProtocol c; CandidateInfo.hostType := CandidateInfo.hostType c;
     CandidateInfo.transProtocol := ""; CandidateInfo.username := ""; CandidateInfo.password := "";
     CandidateInfo.mediaType := m |}.

(** The pieces of the line behind the tag. *)
Definition candidate_words (c : CandidateInfo) : list string :=
  [CandidateInfo.foundation c; pretty (CandidateInfo.componentId c); CandidateInfo.netProtocol c;
   pretty (CandidateInfo.priority c); CandidateInfo.hostAddress c; pretty (CandidateInfo.hostPort c);
   "typ"; hostType_str (CandidateInfo.hostType c)] ++
  match CandidateInfo.hostType c with
  | SRFLX | RELAY => ["raddr"; CandidateInfo.rAddress c; "rport"; pretty (CandidateInfo.rPort c)]
  | _ => []
  end ++ ["generation"; "0"].

(** Words with spaces between them. *)
Fixpoint unwords (ws : list string) : string :=
  match ws with
  | [] => ""
  | w :: ws => w +:+ (match ws with [] => "" | _ => " " +:+ unwords ws end)
  end.

Lemma unwords_cons w v ws : unwords (w :: v :: ws) = w +:+ " " +:+ unwords (v :: ws).
Proof. reflexivity. Qed.

Lemma stringify_words c : stringifyCandidate c = "a=candidate:" +:+ unwords (candidate_words c).
Proof.
  unfold stringifyCandidate, candidate_words.
  destruct (CandidateInfo.hostType c); cbn [app]; rewrite !unwords_cons; cbn [unwords];
    rewrite ?string_app_assoc; reflexivity.
Qed.

Lemma candidate_words_ok c : candidate_ok c -> Forall word (candidate_words c).
Proof.
  intros []. unfold candidate_words, in_width in *.
  assert (Hp : word (CandidateInfo.netProtocol c))
    by (destruct cand_protocol0 as [-> | ->]; split; (discriminate || reflexivity)).
  assert (Ht : word (hostType_str (CandidateInfo.hostType c)))
    by (destruct (CandidateInfo.hostType c); split; (discriminate || reflexivity)).
  destruct (CandidateInfo.hostType c); cbn [app];
    repeat (constructor; [first [assumption | apply word_pretty; lia | split; (discriminate || reflexivity) |
      apply cand_related0 | apply word_pretty; apply cand_related0]|]); constructor.
Qed.

Lemma unwords_plain ws : ws <> [] -> Forall word ws -> plain (unwords ws).
Proof.
  intros Hne H. induction H as [|w ws Hw H IH]; [congruence|]. cbn [unwords].
  destruct ws as [|v ws]; [rewrite string_app_nil; apply word_plain; assumption|].
  apply plain_app; [apply word_plain; assumption|]. apply plain_app; [split; [discriminate | reflexivity]|].
  apply IH. discriminate.
Qed.

Lemma pieces_words n ws : Forall word ws -> pieces 0 n " :" (unwords ws) = ws.
Proof.
  intros H. revert n. induction H as [|w ws Hw H IH]; intros n; [reflexivity|]. cbn [unwords].
  destruct ws as [|v ws]; [rewrite string_app_nil, pieces_last by token; reflexivity|].
  rewrite pieces_next by token. f_equal. apply IH.
Qed.

Lemma int_small n : in_width 31 n -> int n = n.
Proof. intros H. apply to_signed_small; [lia | exact H]. Qed.

Lemma in_width_31_32 n : in_width 31 n -> in_width 32 n.
Proof. unfold in_width. lia. Qed.

Lemma process_candidate_words mem m c s :
  candidate_ok c ->
  processCandidate mem ("a=candidate" :: candidate_words c) m s =
    Some (true, s <| candidateVector_ ::= fun v => v ++ [read_candidate mem m c] |>).
Proof.
  intros []. unfold processCandidate, candidate_words.
  assert (Hp : negb (CandidateInfo.netProtocol c =? "UDP")%string && negb (CandidateInfo.netProtocol c =? "udp")%string = false)
    by (destruct cand_protocol0 as [-> | ->]; reflexivity).
  cbn [lookup list_lookup option_bind mbind app]. rewrite Hp.
  change (negb ("typ" =? "typ")%string) with false. cbv iota.
  rewrite !strtoul_pretty by (assumption || apply in_width_31_32; assumption).
  rewrite int_small by assumption. unfold read_candidate.
  destruct (CandidateInfo.hostType c) eqn:Eh; cbn [app lookup list_lookup]; try reflexivity;
    destruct cand_related0 as [Hr Hrp]; cbn [hostType_str]; unfold host_type_of; cbn;
    rewrite ?strtoul_pretty, ?int_small by (assumption || apply in_width_31_32; assumption); reflexivity.
Qed.

Lemma candidate_line mem x c :
  ready c -> candidate_ok x ->
  process_line mem (stringifyCandidate x) c =
    Some (on_info (set_member candidateVector_ (fun v => v ++ [read_candidate (cand_mem mem) (mtype c) x])) c).
Proof.
  intros [Hp _] Hx. pose proof (candidate_words_ok x Hx) as Hw.
  assert (Hne : candidate_words x <> []) by discriminate.
  pose proof (plain_quiet _ (unwords_plain _ Hne Hw)) as Hq. rewrite stringify_words.
  run_line Hp "a=candidate:" (unwords (candidate_words x)).
  change ("a=candidate:" +:+ ?t) with ("a=candidate" +:+ ":" +:+ t).
  change (splitOneOf ?s ?d 0) with (pieces 0 0 d s).
  rewrite pieces_next, pieces_words by (token || assumption). rewrite process_candidate_words by assumption.
  reflexivity.
Qed.

(** A candidate that was printed is accepted and read back, member by member. *)
Theorem candidate_roundtrip mem m c s :
  candidate_ok c ->
  processCandidate mem (splitOneOf (stringifyCandidate c) " :" 0) m s =
    Some (true, s <| candidateVector_ ::= fun v => v ++ [read_candidate mem m c] |>).
Proof.
  intros H. pose proof (candidate_words_ok c H) as Hw. rewrite stringify_words.
  change ("a=candidate:" +:+ ?t) with ("a=candidate" +:+ ":" +:+ t).
  change (splitOneOf ?s ?d 0) with (pieces 0 0 d s).
  rewrite pieces_next, pieces_words by (token || assumption). apply process_candidate_words. assumption.
Qed.

(** ** The other lines *)

Ltac run_fixed H line :=
  change line with (line +:+ "");
  let Hq := fresh "Hq" in assert (Hq : quiet "" = true) by reflexivity; run_line H line "".

Definition direction_text (d : StreamDirection) : string :=
  match d with SENDONLY => "a=sendonly" | SENDRECV => "a=sendrecv" | RECVONLY => "a=recvonly" end.

Lemma direction_line mem d c :
  ready c -> process_line mem (direction_text d) c = Some (set_direction d c).
Proof.
  intros [Hp _]. assert (Hp' : forall d, profile (info (set_direction d c)) = SAVPF)
    by (intros; unfold set_direction, on_info; destruct (mtype c); exact Hp).
  destruct d; cbn [direction_text].
  - run_fixed (Hp' SENDRECV) "a=sendrecv". reflexivity.
  - run_fixed (Hp' SENDONLY) "a=sendonly". reflexivity.
  - run_fixed (Hp' RECVONLY) "a=recvonly". reflexivity.
Qed.

Lemma rtcp_mux_line mem c :
  ready c -> process_line mem "a=rtcp-mux" c = Some (on_info (set_member isRtcpMux (fun _ => true)) c).
Proof. intros [Hp _]. run_fixed Hp "a=rtcp-mux". reflexivity. Qed.

Lemma video_line mem tok c :
  ready c -> quiet tok = true ->
  process_line mem ("m=video 1 UDP/TLS/RTP/SAVPF " +:+ tok) c =
    Some (on_info (fun s => s <| videoSdpMLine := mlineNum c + 1 |> <| hasVideo := true |>) c
          <| mlineNum := mlineNum c + 1 |> <| mtype := VIDEO_TYPE |>).
Proof. intros [Hp _] Hq. run_line Hp "m=video 1 UDP/TLS/RTP/SAVPF " tok. reflexivity. Qed.

Lemma audio_line mem tok c :
  ready c -> quiet tok = true ->
  process_line mem ("m=audio 1 UDP/TLS/RTP/SAVPF " +:+ tok) c =
    Some (on_info (fun s => s <| audioSdpMLine := mlineNum c + 1 |> <| hasAudio := true |>) c
          <| mlineNum := mlineNum c + 1 |> <| mtype := AUDIO_TYPE |>).
Proof. intros [Hp _] Hq. run_line Hp "m=audio 1 UDP/TLS/RTP/SAVPF " tok. reflexivity. Qed.

Lemma pieces_ids a ids n :
  word a -> Forall word ids -> (n + length ids <= 10)%nat ->
  pieces 10 n (":  " +:+ carriage_return +:+ newline) (a +:+ print_all (fun id => " " +:+ id) ids) = a :: ids.
Proof.
  intros Ha H. revert a n Ha. induction H as [|b ids Hb H IH]; intros a n Ha Hn; cbn [print_all foldr].
  - rewrite string_app_nil. apply pieces_last; token.
  - cbn [length] in Hn. rewrite string_app_assoc. rewrite pieces_next; [|token|token|].
    + f_equal. apply IH; [assumption | lia].
    + apply orb_true_iff. right. apply Nat.ltb_lt. lia.
Qed.

Lemma quiet_words ids :
  Forall word ids -> lacks ("=" +:+ newline) (print_all (fun id => " " +:+ id) ids) = true.
Proof.
  intros H. induction H as [|b ids [_ Hb] H IH]; [reflexivity|].
  cbn [print_all foldr]. rewrite !lacks_app. fold (print_all (fun id => " " +:+ id) ids). rewrite IH.
  rewrite andb_true_r. cbn [lacks among andb negb]. revert Hb. apply lacks_weaken. reflexivity.
Qed.

Lemma print_ids_quiet ids : Forall word ids -> quiet (print_all (fun id => " " +:+ id) ids) = true.
Proof. intros H. apply quiet_lacks. eapply lacks_weaken; [|apply (quiet_words _ H)]. reflexivity. Qed.

Lemma group_line mem ids c :
  ready c -> Forall word ids -> (length ids <= 9)%nat ->
  process_line mem ("a=group:BUNDLE" +:+ print_all (fun id => " " +:+ id) ids) c =
    Some (on_info (fun s => s <| isBundle := true |> <| bundleTags ::= fun v => v ++
      map (fun id => {| BundleTag.id := id; BundleTag.mediaType := OTHER |}) ids |>) c).
Proof.
  intros [Hp _] Hw Hl. pose proof (print_ids_quiet ids Hw) as Hq.
  run_line Hp "a=group:BUNDLE" (print_all (fun id => " " +:+ id) ids).
  change ("a=group:BUNDLE" +:+ ?t) with ("a=group" +:+ ":" +:+ ("BUNDLE" +:+ t)).
  change (splitOneOf ?s ?d 10) with (pieces 10 0 d s).
  rewrite pieces_next by token. rewrite pieces_ids; [| split; [discriminate | reflexivity] | assumption | lia].
  reflexivity.
Qed.

(** ** The printed text as lines *)

Lemma print_filter {A} (cond : A -> bool) (f : A -> string) (line : A -> string) v :
  (forall x, f x = if cond x then line x +:+ newline else "") ->
  print_all f v = unlines (map line (List.filter cond v)).
Proof.
  intros H. induction v as [|x v IH]; [reflexivity|]. cbn [print_all foldr List.filter].
  fold (print_all f v). rewrite IH, H. destruct (cond x); [|reflexivity].
  cbn [map unlines foldr]. apply string_app_assoc.
Qed.

Lemma print_map {A} (f : A -> string) (line : A -> string) v :
  (forall x, f x = line x +:+ newline) -> print_all f v = unlines (map line v).
Proof.
  intros H. rewrite (print_filter (fun _ => true) f line) by exact H. f_equal. f_equal.
  induction v as [|x v IH]; [reflexivity|]. cbn [List.filter]. f_equal. exact IH.
Qed.

Lemma print_concat {A} (f : A -> string) (g : A -> list string) v :
  (forall x, f x = unlines (g x)) -> print_all f v = unlines (concat (map g v)).
Proof.
  intros H. induction v as [|x v IH]; [reflexivity|]. cbn [print_all foldr map concat].
  fold (print_all f v). rewrite unlines_app, <- H, <- IH. reflexivity.
Qed.

Section Text.
Context (msid : string) (s : SdpInfo).

Definition session_lines : list string :=
  ["v=0"; "o=- 0 0 IN IP4 127.0.0.1"; "s=LicodeMCU"; "t=0 0"] ++
  if isBundle s
  then ["a=group:BUNDLE" +:+ print_all (fun id => " " +:+ id) (map BundleTag.id (bundleTags s));
        "a=msid-semantic: WMS " +:+ msid]
  else [].

Definition of_media (m : MediaType) : MediaType -> bool :=
  match m with AUDIO_TYPE => is_audio | _ => is_video end.

Definition mline_lines (m : MediaType) : list string :=
  [match m with AUDIO_TYPE => "m=audio 1 UDP/TLS/RTP/SAVPF " | _ => "m=video 1 UDP/TLS/RTP/SAVPF " end +:+
   print_payload_types (of_media m) (match m with AUDIO_TYPE => audioCodecs s | _ => videoCodecs s end) 0
     (payloadVector s);
   "c=IN IP4 0.0.0.0"] ++ if isRtcpMux s then ["a=rtcp:1 IN IP4 0.0.0.0"] else [].

Definition candidate_lines (m : MediaType) : list string :=
  map stringifyCandidate (List.filter (fun c => of_media m (CandidateInfo.mediaType c) ||
    (is_audio m && isBundle s)) (candidateVector_ s)).

Definition credential_lines (m : MediaType) : list string :=
  ["a=ice-ufrag:" +:+ getUsername m s; "a=ice-pwd:" +:+ getPassword m s].

Definition fingerprint_lines : list string :=
  if isFingerprint s then ["a=fingerprint:sha-256 " +:+ fingerprint s] else [].

Definition extmap_lines (m : MediaType) : list string :=
  map (fun e => "a=extmap:" +:+ pretty (ExtMap.value e) +:+ " " +:+ ExtMap.uri e)
    (List.filter (fun e => of_media m (ExtMap.mediaType e)) (extMapVector s)).

Definition mid_lines (m : MediaType) : list string :=
  map (fun b => "a=mid:" +:+ BundleTag.id b)
    (List.filter (fun b => of_media m (BundleTag.mediaType b)) (bundleTags s)).

Definition rtcp_mux_lines : list string := if isRtcpMux s then ["a=rtcp-mux"] else [].

Definition crypto_lines (m : MediaType) : list string :=
  map (fun c => "a=crypto:" +:+ pretty (CryptoInfo.tag c) +:+ " " +:+ CryptoInfo.cipherSuite c +:+ " " +:+
                "inline:" +:+ CryptoInfo.keyParams c)
    (List.filter (fun c => of_media m (CryptoInfo.mediaType c)) (cryptoVector_ s)).

Definition feedback_text (n : Z) (fb : string) : string := "a=rtcp-fb:" +:+ pretty n +:+ " " +:+ fb.

Definition codec_lines (rtp : RtpMap) : list string :=
  ["a=rtpmap:" +:+ pretty (RtpMap.payloadType rtp) +:+ " " +:+ RtpMap.encodingName rtp +:+ "/" +:+
   pretty (RtpMap.clockRate rtp)] ++
  (if is_video (RtpMap.mediaType rtp)
   then map (feedback_text (RtpMap.payloadType rtp)) (RtpMap.feedbackTypes rtp) else []) ++
  map (fmtp_text (RtpMap.payloadType rtp)) (RtpMap.formatParameters rtp).

Definition codecs_of (m : MediaType) : list RtpMap :=
  List.filter (fun rtp => of_media m (RtpMap.mediaType rtp)) (payloadVector s).

Definition ssrc_lines (n : Z) (label : string) : list string :=
  ["a=ssrc:" +:+ pretty n +:+ " " +:+ "cname:o/i14u9pJrxRKAsu";
   "a=ssrc:" +:+ pretty n +:+ " " +:+ ("msid:" +:+ msid +:+ " " +:+ label);
   "a=ssrc:" +:+ pretty n +:+ " " +:+ ("mslabel:" +:+ msid);
   "a=ssrc:" +:+ pretty n +:+ " " +:+ ("label:" +:+ msid +:+ label)].

Definition own_ssrc (m : MediaType) : Z :=
  match m with
  | AUDIO_TYPE => if audioSsrc s =? 0 then 44444 else audioSsrc s
  | _ => if videoSsrc s =? 0 then 55543 else videoSsrc s
  end.

Definition audio_lines : list string :=
  mline_lines AUDIO_TYPE ++ candidate_lines AUDIO_TYPE ++ credential_lines AUDIO_TYPE ++
  fingerprint_lines ++ [direction_text (audioDirection s)] ++ extmap_lines AUDIO_TYPE ++
  mid_lines AUDIO_TYPE ++ rtcp_mux_lines ++ crypto_lines AUDIO_TYPE ++
  concat (map codec_lines (codecs_of AUDIO_TYPE)) ++ ["a=maxptime:60"] ++
  ssrc_lines (own_ssrc AUDIO_TYPE) "a0".

Definition video_lines : list string :=
  mline_lines VIDEO_TYPE ++ candidate_lines VIDEO_TYPE ++ credential_lines VIDEO_TYPE ++
  extmap_lines VIDEO_TYPE ++ fingerprint_lines ++ [direction_text (videoDirection s)] ++
  mid_lines VIDEO_TYPE ++ rtcp_mux_lines ++ crypto_lines VIDEO_TYPE ++
  concat (map codec_lines (codecs_of VIDEO_TYPE)) ++ ssrc_lines (own_ssrc VIDEO_TYPE) "v0" ++
  (if videoRtxSsrc s =? 0 then [] else ssrc_lines (videoRtxSsrc s) "v0").

(** What the printed object has to be like to be read back. *)
Record codec_ok (rtp : RtpMap) : Prop := {
  codec_type : in_width 31 (RtpMap.payloadType rtp);
  codec_known : is_Some (internal_of rtp);
  codec_channels : RtpMap.channels rtp = 1;
  codec_media : RtpMap.mediaType rtp <> OTHER;
  codec_feedback : Forall plain (RtpMap.feedbackTypes rtp);
  codec_parameters : Forall parameter_ok (RtpMap.formatParameters rtp);
  codec_sorted : StronglySorted (fun p q => String.compare (fst p) (fst q) = Lt) (RtpMap.formatParameters rtp)
}.

Record printable : Prop := {
  print_msid : plain msid;
  print_savpf : profile s = SAVPF;
  print_tags : Forall word (map BundleTag.id (bundleTags s)) /\ (length (bundleTags s) <= 9)%nat /\
               NoDup (map BundleTag.id (bundleTags s));
  print_tag_media : Forall (fun b => match BundleTag.mediaType b with
    | AUDIO_TYPE => hasAudio s = true | VIDEO_TYPE => hasVideo s = true | OTHER => True end) (bundleTags s);
  print_users : Forall plain [iceVideoUsername_ s; iceAudioUsername_ s; iceVideoPassword_ s; iceAudioPassword_ s];
  print_fp : isFingerprint s = true -> plain (fingerprint s) /\ lacks " " (fingerprint s) = true;
  print_extmaps : (length (extMapVector s) <= 255)%nat /\
                  Forall (fun e => in_width 32 (ExtMap.value e) /\ plain (ExtMap.uri e)) (extMapVector s);
  print_cryptos : Forall (fun c => 0 <= CryptoInfo.tag c /\ word (CryptoInfo.cipherSuite c) /\
                                   word (CryptoInfo.keyParams c)) (cryptoVector_ s);
  print_candidates : Forall candidate_ok (candidateVector_ s);
  print_codecs : Forall codec_ok (payloadVector s);
  print_distinct : NoDup (map RtpMap.payloadType (payloadVector s));
  print_ssrcs : Forall (in_width 32) [audioSsrc s; videoSsrc s; videoRtxSsrc s]
}.

Hypothesis Hs : printable.

Lemma session_text : print_session msid s = Some (unlines session_lines).
Proof.
  unfold print_session, session_lines. destruct (isBundle s); [|reflexivity].
  rewrite u8_print_spec by (pose proof (print_tags Hs); lia). cbn [option_bind mbind]. f_equal.
  cbn [app unlines foldr].
  assert (E : print_all (fun b => " " +:+ BundleTag.id b) (bundleTags s) =
              print_all (fun id => " " +:+ id) (map BundleTag.id (bundleTags s))).
  { induction (bundleTags s) as [|b v IH]; [reflexivity|]. cbn [print_all foldr map].
    fold (print_all (fun b => " " +:+ BundleTag.id b) v). rewrite IH. reflexivity. }
  rewrite E, !string_app_assoc, ?string_app_nil. reflexivity.
Qed.

Lemma candidate_text m :
  print_all (fun c => if of_media m (CandidateInfo.mediaType c) || (is_audio m && isBundle s)
                      then stringifyCandidate c +:+ endl else "") (candidateVector_ s) =
  unlines (candidate_lines m).
Proof. apply print_filter. reflexivity. Qed.

Lemma extmap_text m : print_all (print_extmap (of_media m)) (extMapVector s) = unlines (extmap_lines m).
Proof.
  apply print_filter. intros e. unfold print_extmap, endl.
  destruct (of_media m _); [rewrite !string_app_assoc|]; reflexivity.
Qed.

Lemma mid_text m : print_all (print_mid (of_media m)) (bundleTags s) = unlines (mid_lines m).
Proof.
  apply print_filter. intros e. unfold print_mid, endl.
  destruct (of_media m _); [rewrite !string_app_assoc|]; reflexivity.
Qed.

Lemma crypto_text m : print_all (print_crypto (of_media m)) (cryptoVector_ s) = unlines (crypto_lines m).
Proof.
  apply print_filter. intros e. unfold print_crypto, endl.
  destruct (of_media m _); [rewrite !string_app_assoc|]; reflexivity.
Qed.

Lemma fmtp_print n ps : print_all (print_fmtp n) ps = unlines (map (fmtp_text n) ps).
Proof.
  apply print_map. intros p. unfold print_fmtp, fmtp_text, endl.
  destruct (String.eqb _ _); rewrite !string_app_assoc; reflexivity.
Qed.

Lemma codec_int rtp : codec_ok rtp -> int (RtpMap.payloadType rtp) = RtpMap.payloadType rtp.
Proof. intros []. apply int_small. assumption. Qed.

Lemma audio_codecs_text v :
  Forall codec_ok v ->
  print_all print_audio_codec v =
  unlines (concat (map codec_lines (List.filter (fun rtp => is_audio (RtpMap.mediaType rtp)) v))).
Proof.
  induction 1 as [|x v Hx H IH]; [reflexivity|]. cbn [print_all foldr List.filter].
  fold (print_all print_audio_codec v). rewrite IH. unfold print_audio_codec at 1.
  destruct (RtpMap.mediaType x) eqn:Em; cbn [is_audio]; try reflexivity.
  rewrite codec_int, (codec_channels _ Hx) by assumption. cbn [map concat]. rewrite unlines_app.
  unfold codec_lines. rewrite Em. cbn [is_video]. cbn [app]. rewrite fmtp_print. unfold endl.
  change (1 <? 1) with false. cbv iota. cbn [unlines foldr]. rewrite !string_app_assoc. reflexivity.
Qed.

Lemma video_codecs_text v :
  Forall codec_ok v ->
  print_all print_video_codec v =
  unlines (concat (map codec_lines (List.filter (fun rtp => is_video (RtpMap.mediaType rtp)) v))).
Proof.
  induction 1 as [|x v Hx H IH]; [reflexivity|]. cbn [print_all foldr List.filter].
  fold (print_all print_video_codec v). rewrite IH. unfold print_video_codec at 1.
  destruct (RtpMap.mediaType x) eqn:Em; cbn [is_video]; try reflexivity.
  rewrite codec_int by assumption. cbn [map concat]. rewrite unlines_app.
  unfold codec_lines. rewrite Em. cbn [is_video]. rewrite !unlines_app, fmtp_print.
  rewrite (print_map (fun fb => _) (feedback_text (RtpMap.payloadType x))).
  2: { intros fb. unfold feedback_text, endl. rewrite !string_app_assoc. reflexivity. }
  unfold endl. cbn [unlines foldr]. rewrite !string_app_assoc. reflexivity.
Qed.

Lemma ssrc_text n label : print_ssrc n msid label = unlines (ssrc_lines n label).
Proof. unfold print_ssrc, endl. cbn [unlines foldr ssrc_lines]. rewrite !string_app_assoc. reflexivity. Qed.

Lemma direction_print d : print_direction d = unlines [direction_text d].
Proof. destruct d; reflexivity. Qed.

Lemma fingerprint_print : print_fingerprint s = unlines fingerprint_lines.
Proof.
  unfold print_fingerprint, fingerprint_lines, endl. destruct (isFingerprint s); [|reflexivity].
  cbn [unlines foldr]. rewrite !string_app_assoc. reflexivity.
Qed.

Lemma audio_text :
  print_audio msid s = Some (unlines audio_lines, s <| audioSsrc := own_ssrc AUDIO_TYPE |>).
Proof.
  pose proof (print_tags Hs) as (_ & Ht & _). pose proof (print_extmaps Hs) as [He _].
  unfold print_audio. rewrite !u8_print_spec by lia. cbn [option_bind mbind].
  unfold audio_lines. rewrite (print_savpf Hs), !unlines_app, audio_codecs_text by apply Hs.
  rewrite <- (extmap_text AUDIO_TYPE), <- (mid_text AUDIO_TYPE), <- (crypto_text AUDIO_TYPE),
    <- (candidate_text AUDIO_TYPE), <- ssrc_text, <- direction_print, <- fingerprint_print.
  assert (Hu : (iceAudioUsername_ s =? "")%string = false).
  { apply String.eqb_neq. pose proof (print_users Hs) as Hp. inversion Hp as [|? ? _ Hp']. inversion Hp' as [|? ? Hu _].
    apply Hu. }
  rewrite Hu. unfold own_ssrc, endl. f_equal. f_equal.
  unfold mline_lines, credential_lines, rtcp_mux_lines, print_profile, endl.
  destruct (isRtcpMux s); cbn [app unlines foldr getUsername getPassword of_media]; rewrite !string_app_assoc;
    reflexivity.
Qed.

Lemma video_text :
  print_video msid s = Some (unlines video_lines, s <| videoSsrc := own_ssrc VIDEO_TYPE |>).
Proof.
  pose proof (print_tags Hs) as (_ & Ht & _). pose proof (print_extmaps Hs) as [He _].
  unfold print_video. rewrite !u8_print_spec by lia. cbn [option_bind mbind].
  unfold video_lines. rewrite (print_savpf Hs), !unlines_app, video_codecs_text by apply Hs.
  rewrite <- (extmap_text VIDEO_TYPE), <- (mid_text VIDEO_TYPE), <- (crypto_text VIDEO_TYPE),
    <- (candidate_text VIDEO_TYPE), <- direction_print, <- fingerprint_print.
  assert (Hc : print_all (fun c => if is_video (CandidateInfo.mediaType c)
      then stringifyCandidate c +:+ endl else "") (candidateVector_ s) =
    print_all (fun c => if of_media VIDEO_TYPE (CandidateInfo.mediaType c) || (is_audio VIDEO_TYPE && isBundle s)
      then stringifyCandidate c +:+ endl else "") (candidateVector_ s)).
  { induction (candidateVector_ s) as [|c v IH]; [reflexivity|]. cbn [print_all foldr of_media is_audio andb].
    rewrite orb_false_r. f_equal. exact IH. }
  rewrite Hc. unfold own_ssrc, endl. f_equal. f_equal.
  unfold mline_lines, credential_lines, rtcp_mux_lines, print_profile, endl.
  rewrite !ssrc_text.
  destruct (isRtcpMux s), (videoRtxSsrc s =? 0); cbn [app unlines foldr getUsername getPassword of_media];
    rewrite !string_app_assoc, ?string_app_nil; reflexivity.
Qed.

Definition sdp_lines : list string :=
  session_lines ++ (if hasAudio s then audio_lines else []) ++ (if hasVideo s then video_lines else []).

End Text.

(** The text of the printer is a list of lines. *)
Lemma sdp_text rnd s :
  printable (gen_random rnd) s ->
  exists s', getSdp rnd s = Some (unlines (sdp_lines (gen_random rnd) s), s').
Proof.
  intros Hs. unfold getSdp, sdp_lines. set (msid := gen_random rnd) in *.
  rewrite (session_text msid s Hs). cbn [option_bind mbind]. rewrite !unlines_app.
  destruct (hasAudio s) eqn:Ea.
  - rewrite (audio_text msid s Hs). cbn [option_bind mbind].
    change (hasVideo (s <| audioSsrc := own_ssrc s AUDIO_TYPE |>)) with (hasVideo s).
    destruct (hasVideo s).
    + rewrite (video_text msid (s <| audioSsrc := own_ssrc s AUDIO_TYPE |>)).
      * cbn [option_bind mbind]. eexists. reflexivity.
      * destruct Hs. split; try assumption. constructor; [|inversion print_ssrcs0; assumption].
        inversion print_ssrcs0. change (in_width 32 (own_ssrc s AUDIO_TYPE)). unfold own_ssrc.
        destruct (_ =? 0); [unfold in_width; lia | assumption].
    + cbn [option_bind mbind]. eexists. reflexivity.
  - cbn [option_bind mbind]. destruct (hasVideo s); cbn [option_bind mbind].
    + rewrite (video_text msid s Hs). cbn [option_bind mbind]. eexists. reflexivity.
    + eexists. reflexivity.
Qed.

(** ** Running the parser over parts of the text *)

Section Runs.
Context (mem : uninitialised).

(** What holds inside the section of a medium. *)
Record good (m : MediaType) (c : Scan) : Prop := {
  good_ready : ready c;
  good_media : mtype c = m;
  good_bundle : (length (bundleTags (info c)) <= 255)%nat;
  good_tags : isBundle (info c) = false -> bundleTags (info c) = []
}.

Definition one_line (s : string) : Prop := lacks newline s = true.

(** The lines lead from [c] to [c'], and can be told apart in the text. *)
Definition runs (lines : list string) (c c' : Scan) : Prop :=
  process_lines mem lines c = Some c' /\ Forall one_line lines.

Lemma process_lines_app l k c :
  process_lines mem (l ++ k) c = process_lines mem l c ≫= process_lines mem k.
Proof.
  revert c. induction l as [|line l IH]; intros c; [reflexivity|]. cbn [app process_lines].
  destruct (process_line mem line c); [apply IH | reflexivity].
Qed.

Lemma runs_app l k c c1 c2 : runs l c c1 -> runs k c1 c2 -> runs (l ++ k) c c2.
Proof.
  intros [H1 F1] [H2 F2]. split; [|apply Forall_app; auto].
  rewrite process_lines_app, H1. exact H2.
Qed.

Lemma runs_nil c : runs [] c c.
Proof. split; [reflexivity | constructor]. Qed.

Lemma runs_cons line l c c1 c2 :
  process_line mem line c = Some c1 -> one_line line -> runs l c1 c2 -> runs (line :: l) c c2.
Proof. intros H Hl [H2 F2]. split; [cbn [process_lines]; rewrite H; exact H2 | constructor; assumption]. Qed.

Lemma runs_each {A} (Q : A -> Prop) (line : A -> string) (eff : A -> Scan -> Scan) m xs c :
  (forall x c, Q x -> good m c -> process_line mem (line x) c = Some (eff x c) /\ good m (eff x c)) ->
  (forall x, Q x -> one_line (line x)) ->
  Forall Q xs -> good m c ->
  runs (map line xs) c (foldl (fun c x => eff x c) c xs) /\ good m (foldl (fun c x => eff x c) c xs).
Proof.
  intros Hl Ho H. revert c. induction H as [|x xs Hx H IH]; intros c Hc; [split; [apply runs_nil | assumption]|].
  cbn [map foldl]. destruct (Hl x c Hx Hc) as [E Hg]. destruct (IH _ Hg) as [Hr Hg']. split; [|assumption].
  eapply runs_cons; [exact E | apply Ho; assumption | exact Hr].
Qed.

(** Updates of members that [good] does not look at. *)
Ltac still_good := intros [[? ?] ? ? ?]; split; [split; assumption | assumption | assumption | assumption].

Lemma plain_line s : plain s -> one_line s.
Proof. intros [_ H]. revert H. apply lacks_weaken. reflexivity. Qed.

Lemma lit_line lit s : one_line lit -> one_line s -> one_line (lit +:+ s).
Proof. unfold one_line. intros H1 H2. rewrite lacks_app, H1, H2. reflexivity. Qed.

(** *** Vectors that the lines append to *)

Definition append_candidates (l : list CandidateInfo) := on_info (set_member candidateVector_ (fun v => v ++ l)).
Definition append_extmaps (l : list ExtMap) := on_info (set_member extMapVector (fun v => v ++ l)).
Definition append_cryptos (l : list CryptoInfo) := on_info (set_member cryptoVector_ (fun v => v ++ l)).

Lemma fold_append {A B} (app1 : list B -> Scan -> Scan) (f : A -> B) xs c :
  (forall c, app1 [] c = c) -> (forall l k c, app1 k (app1 l c) = app1 (l ++ k) c) ->
  foldl (fun c x => app1 [f x] c) c xs = app1 (map f xs) c.
Proof.
  intros H0 Ha. revert c. induction xs as [|x xs IH]; intros c; cbn [map foldl]; [rewrite H0; reflexivity|].
  rewrite IH, Ha. reflexivity.
Qed.

Ltac append_laws := apply fold_append; [intros [[] ? ? ?] | intros ? ? [[] ? ? ?]];
  unfold append_candidates, append_extmaps, append_cryptos, on_info; simpl;
  rewrite ?app_nil_r, <- ?app_assoc; reflexivity.

Definition read_extmap (m : MediaType) (e : ExtMap) : ExtMap :=
  {| ExtMap.value := ExtMap.value e; ExtMap.uri := drop_last (ExtMap.uri e);
     ExtMap.direction := direction_mem mem; ExtMap.parameters := ""; ExtMap.mediaType := m |}.

Definition read_crypto (m : MediaType) (c : CryptoInfo) : CryptoInfo :=
  {| CryptoInfo.tag := 0; CryptoInfo.cipherSuite := CryptoInfo.cipherSuite c;
     CryptoInfo.keyParams := CryptoInfo.keyParams c; CryptoInfo.mediaType := m |}.

Lemma runs_candidates m xs c :
  Forall candidate_ok xs -> good m c ->
  let c' := append_candidates (map (read_candidate (cand_mem mem) m) xs) c in
  runs (map stringifyCandidate xs) c c' /\ good m c'.
Proof.
  intros H Hc. cbv zeta.
  assert (E : foldl (fun c x => append_candidates [read_candidate (cand_mem mem) m x] c) c xs =
              append_candidates (map (read_candidate (cand_mem mem) m) xs) c) by append_laws.
  rewrite <- E. apply (runs_each candidate_ok); [| |assumption|assumption].
  - intros x c0 Hx Hg. split; [|revert Hg; still_good].
    rewrite candidate_line by (assumption || apply Hg). rewrite (good_media _ _ Hg). reflexivity.
  - intros x Hx. rewrite stringify_words. apply lit_line; [reflexivity|].
    apply plain_line, unwords_plain; [discriminate | apply candidate_words_ok; assumption].
Qed.

Lemma runs_extmaps m xs c :
  Forall (fun e => in_width 32 (ExtMap.value e) /\ plain (ExtMap.uri e)) xs -> good m c ->
  let c' := append_extmaps (map (read_extmap m) xs) c in
  runs (map (fun e => "a=extmap:" +:+ pretty (ExtMap.value e) +:+ " " +:+ ExtMap.uri e) xs) c c' /\ good m c'.
Proof.
  intros H Hc. cbv zeta.
  assert (E : foldl (fun c x => append_extmaps [read_extmap m x] c) c xs =
              append_extmaps (map (read_extmap m) xs) c) by append_laws.
  rewrite <- E. eapply runs_each; [| |exact H|assumption].
  - intros x c0 [Hv Hu] Hg. split; [|revert Hg; still_good].
    rewrite extmap_line by (assumption || apply Hg). rewrite (good_media _ _ Hg). reflexivity.
  - intros x [Hv Hu]. pose proof (word_pretty _ (proj1 Hv)). apply lit_line; [reflexivity|].
    apply plain_line. plain_text.
Qed.

Lemma runs_cryptos m xs c :
  Forall (fun c => 0 <= CryptoInfo.tag c /\ word (CryptoInfo.cipherSuite c) /\ word (CryptoInfo.keyParams c)) xs ->
  good m c ->
  let c' := append_cryptos (map (read_crypto m) xs) c in
  runs (map (fun c => "a=crypto:" +:+ pretty (CryptoInfo.tag c) +:+ " " +:+ CryptoInfo.cipherSuite c +:+ " " +:+
                      "inline:" +:+ CryptoInfo.keyParams c) xs) c c' /\ good m c'.
Proof.
  intros H Hc. cbv zeta.
  assert (E : foldl (fun c x => append_cryptos [read_crypto m x] c) c xs =
              append_cryptos (map (read_crypto m) xs) c) by append_laws.
  rewrite <- E. eapply runs_each; [| |exact H|assumption].
  - intros x c0 (Hv & Hu & Hk) Hg. split; [|revert Hg; still_good].
    rewrite crypto_line by (assumption || apply Hg). rewrite (good_media _ _ Hg). reflexivity.
  - intros x (Hv & Hu & Hk). pose proof (word_pretty _ Hv). apply lit_line; [reflexivity|].
    apply plain_line. plain_text.
Qed.

(** *** Bundle tags *)

Definition mark_tags (m : MediaType) (ids : list string) :=
  on_info (set_member bundleTags (fun v => foldl (fun v id => map (mark id m) v) v ids)).

Lemma runs_mids m bs c :
  Forall (fun b => word (BundleTag.id b)) bs -> good m c ->
  let c' := mark_tags m (map BundleTag.id bs) c in
  runs (map (fun b => "a=mid:" +:+ BundleTag.id b) bs) c c' /\ good m c'.
Proof.
  intros H Hc. cbv zeta.
  assert (E : foldl (fun c b => mark_tags m [BundleTag.id b] c) c bs = mark_tags m (map BundleTag.id bs) c).
  { clear. revert c. induction bs as [|b bs IH]; intros c; cbn [map foldl];
      [destruct c as [[] ? ? ?] | rewrite IH; destruct c as [[] ? ? ?]]; reflexivity. }
  rewrite <- E. eapply runs_each; [| |exact H|assumption].
  - intros b c0 Hb Hg. split.
    + rewrite mid_line by (assumption || apply Hg). f_equal. unfold set_mids, mark_tags.
      rewrite (good_media _ _ Hg). destruct (isBundle (info c0)) eqn:Eb; [reflexivity|].
      pose proof (good_tags _ _ Hg Eb) as Ht. destruct c0 as [[] ? ? ?]. simpl in Ht. subst. reflexivity.
    + destruct Hg as [[? ?] ? ? Ht]. split; [split; assumption | assumption | |]; simpl.
      * simpl. rewrite length_map. assumption.
      * intros Eb. rewrite (Ht Eb). reflexivity.
  - intros b Hb. apply lit_line; [reflexivity|]. apply plain_line, word_plain. assumption.
Qed.

(** *** Single lines *)

Lemma runs_one m line c c' :
  process_line mem line c = Some c' -> one_line line -> (good m c -> good m c') -> good m c ->
  runs [line] c c' /\ good m c'.
Proof. intros H Hl Hg Hc. split; [|auto]. eapply runs_cons; [exact H | exact Hl | apply runs_nil]. Qed.

Definition set_credentials (m : MediaType) (user pass : string) :=
  on_info (setCredentials user pass m).

Lemma runs_credentials m user pass c :
  m <> OTHER -> plain user -> plain pass -> good m c ->
  let c' := set_credentials m user pass c in
  runs ["a=ice-ufrag:" +:+ user; "a=ice-pwd:" +:+ pass] c c' /\ good m c'.
Proof.
  intros Hm Hu Hp Hg. cbv zeta. split.
  - eapply runs_cons; [apply user_line; [apply Hg | assumption] | apply lit_line; [reflexivity | apply plain_line; assumption]|].
    eapply runs_cons; [apply pass_line; [|assumption] | apply lit_line; [reflexivity | apply plain_line; assumption]|].
    + rewrite (good_media _ _ Hg). destruct m; apply Hg.
    + rewrite !(good_media _ _ Hg). destruct m; [| |congruence]; cbn; rewrite (good_media _ _ Hg); apply runs_nil.
  - revert Hg. destruct m; still_good.
Qed.

Definition set_fingerprint (present : bool) (f : string) :=
  on_info (fun s => s <| fingerprint ::= fun old => if present then f else old |>
                      <| isFingerprint ::= fun old => present || old |>).

Lemma runs_fingerprint m s c :
  (isFingerprint s = true -> plain (fingerprint s) /\ lacks " " (fingerprint s) = true) -> good m c ->
  let c' := set_fingerprint (isFingerprint s) (fingerprint s) c in
  runs (fingerprint_lines s) c c' /\ good m c'.
Proof.
  intros Hf Hg. cbv zeta. unfold fingerprint_lines. destruct (isFingerprint s).
  - destruct (Hf eq_refl) as [Hp Hl]. eapply runs_one; [| | |assumption].
    + apply fingerprint_line; [apply Hg | assumption | assumption].
    + apply lit_line; [reflexivity | apply plain_line; assumption].
    + still_good.
  - split; [|revert Hg; still_good]. destruct c as [[] ? ? ?]. apply runs_nil.
Qed.

Lemma runs_direction m d c :
  good m c -> runs [direction_text d] c (set_direction d c) /\ good m (set_direction d c).
Proof.
  intros Hg. eapply runs_one; [| | |exact Hg].
  - apply direction_line. apply Hg.
  - destruct d; reflexivity.
  - intros [[? ?] ? ? ?]. unfold set_direction.
    destruct (mtype c) eqn:Em; (split; [split; assumption | simpl; congruence | assumption | assumption]).
Qed.

Definition set_rtcp_mux (b : bool) := on_info (set_member isRtcpMux (fun old => b || old)).

Lemma runs_rtcp_mux m s c :
  good m c ->
  let c' := set_rtcp_mux (isRtcpMux s) c in runs (rtcp_mux_lines s) c c' /\ good m c'.
Proof.
  intros Hg. cbv zeta. unfold rtcp_mux_lines. destruct (isRtcpMux s).
  - eapply runs_one; [apply rtcp_mux_line, Hg | reflexivity | still_good | exact Hg].
  - split; [|revert Hg; still_good]. destruct c as [[] ? ? ?]. apply runs_nil.
Qed.

(** The first SSRC that is not zero counts. *)
Lemma set_ssrc_twice n k c : n <> 0 -> set_ssrc k (set_ssrc n c) = set_ssrc n c.
Proof.
  intros Hn.
  assert (P : forall v, (if (if v =? 0 then n else v) =? 0 then k else if v =? 0 then n else v) =
                        (if v =? 0 then n else v)).
  { intros v. destruct (Z.eqb_spec v 0); [destruct (Z.eqb_spec n 0); congruence|].
    destruct (Z.eqb_spec v 0); congruence. }
  destruct c as [[] [] ? ?]; unfold set_ssrc, on_info; simpl; rewrite ?P; reflexivity.
Qed.

Lemma runs_ssrc m msid n label c :
  in_width 32 n -> n <> 0 -> plain msid -> word label -> good m c ->
  runs (ssrc_lines msid n label) c (set_ssrc n c) /\ good m (set_ssrc n c).
Proof.
  intros Hn H0 Hm Hl Hg. pose proof (word_pretty n (proj1 Hn)) as Hw.
  assert (Hg' : good m (set_ssrc n c)).
  { revert Hg. unfold set_ssrc. destruct (mtype c) eqn:Em; [| |auto]; intros [[? ?] ? ? ?];
      (split; [split; assumption | simpl; congruence | assumption | assumption]). }
  assert (Ho : forall rest, plain rest -> one_line ("a=ssrc:" +:+ pretty n +:+ " " +:+ rest)).
  { intros rest Hr. apply lit_line; [reflexivity|]. apply plain_line. plain_text. }
  split; [|assumption]. unfold ssrc_lines.
  assert (H1 : plain "cname:o/i14u9pJrxRKAsu") by (split; [discriminate | reflexivity]).
  assert (H2 : plain ("msid:" +:+ msid +:+ " " +:+ label)) by plain_text.
  assert (H3 : plain ("mslabel:" +:+ msid)) by plain_text.
  assert (H4 : plain ("label:" +:+ msid +:+ label)) by plain_text.
  eapply runs_cons; [apply ssrc_line; [apply Hg | assumption | assumption] | apply Ho; assumption|].
  do 3 (eapply runs_cons;
    [rewrite ssrc_line by (apply Hg' || assumption); rewrite set_ssrc_twice by assumption; reflexivity
    | apply Ho; assumption |]).
  apply runs_nil.
Qed.

(** *** Codecs *)

(** A codec as the section of [m] leaves it; the feedback comes at the end. *)
Definition read_codec (m : MediaType) (x : RtpMap) : RtpMap :=
  (fresh_codec (RtpMap.payloadType x) (RtpMap.encodingName x) (RtpMap.clockRate x) m)
    <| RtpMap.formatParameters := RtpMap.formatParameters x |>.

Definition feedback_lines (x : RtpMap) : list string :=
  map (feedback_text (RtpMap.payloadType x)) (RtpMap.feedbackTypes x).

Definition append_codecs (m : MediaType) (xs : list RtpMap) (c : Scan) : Scan :=
  on_info (fun s =>
    let maps := foldl map_codec (outInPTMap s, inOutPTMap s) (map (read_codec m) xs) in
    s <| outInPTMap := fst maps |> <| inOutPTMap := snd maps |>
      <| videoCodecs ::= fun n => if is_video m then n + Z.of_nat (length xs) else n |>
      <| audioCodecs ::= fun n => if is_video m then n else n + Z.of_nat (length xs) |>
      <| payloadVector ::= fun v => v ++ map (read_codec m) xs |>) (c
  <| tmpFeedbackVector ::= fun v => v ++ (if is_video m then concat (map feedback_lines xs) else []) |>).

Lemma append_codecs_nil m c : append_codecs m [] c = c.
Proof.
  destruct c as [[] ? ? ?]. unfold append_codecs, on_info. simpl.
  rewrite !app_nil_r. destruct (is_video m); rewrite ?app_nil_r, ?Z.add_0_r; reflexivity.
Qed.

Lemma append_codecs_cons m x xs c : append_codecs m xs (append_codecs m [x] c) = append_codecs m (x :: xs) c.
Proof.
  destruct c as [[] ? ? ?]. unfold append_codecs, on_info. cbn -[Z.of_nat map_codec].
  rewrite <- !app_assoc, <- surjective_pairing.
  destruct (is_video m); cbn [app concat map]; rewrite ?app_nil_r, <- ?app_assoc, <- ?Z.add_assoc;
    repeat f_equal; lia.
Qed.

Lemma map_set_last l p :
  StronglySorted (fun p q => String.compare (fst p) (fst q) = Lt) (l ++ [p]) ->
  map_set (fst p) (snd p) l = l ++ [p].
Proof.
  induction l as [|[k v] l IH]; cbn [app map_set]; [destruct p; reflexivity|].
  intros H. apply StronglySorted_inv in H as [Hs Hf]. apply Forall_app in Hf as [_ Hf].
  rewrite Forall_singleton in Hf. cbn [fst] in Hf.
  rewrite String.compare_antisym, Hf. cbn [CompOpp]. rewrite IH by assumption. reflexivity.
Qed.

(** Changing the last codec, when no other has its payload type. *)
Lemma for_payload_type_last n f v x :
  n ∉ map RtpMap.payloadType v -> RtpMap.payloadType x = n ->
  for_payload_type n f (v ++ [x]) = v ++ [f x].
Proof.
  intros Hn Hx. unfold for_payload_type. rewrite map_app. cbn [map]. rewrite Hx, Z.eqb_refl. f_equal.
  induction v as [|y v IH]; [reflexivity|]. cbn [map] in *. rewrite elem_of_cons in Hn.
  destruct (Z.eqb_spec (RtpMap.payloadType y) n); [exfalso; apply Hn; left; congruence|].
  f_equal. apply IH. tauto.
Qed.

(** The codec line, the feedback lines and some of the parameter lines. *)
Definition partial_codec (m : MediaType) (x : RtpMap) (ps : list (string * string)) (c : Scan) : Scan :=
  append_codecs m [x <| RtpMap.formatParameters := ps |>] c.

Lemma runs_parameters m x done todo c :
  m <> OTHER -> codec_ok x -> good m c ->
  StronglySorted (fun p q => String.compare (fst p) (fst q) = Lt) (done ++ todo) ->
  Forall parameter_ok todo -> RtpMap.payloadType x ∉ map RtpMap.payloadType (payloadVector (info c)) ->
  runs (map (fmtp_text (RtpMap.payloadType x)) todo) (partial_codec m x done c)
       (partial_codec m x (done ++ todo) c).
Proof.
  intros Hm Hx Hg Hs Hp Hd. revert done Hs. induction Hp as [|p todo Hp Ht IH]; intros done Hs.
  - rewrite app_nil_r. apply runs_nil.
  - cbn [map]. assert (Hn : in_width 32 (RtpMap.payloadType x)) by apply in_width_31_32, Hx.
    replace (done ++ p :: todo) with ((done ++ [p]) ++ todo) in * by (rewrite <- app_assoc; reflexivity).
    eapply runs_cons; [| |apply IH; assumption].
    + rewrite fmtp_line; [apply (f_equal Some)|apply Hg|assumption|assumption].
      assert (E : for_payload_type (RtpMap.payloadType x) (set_member RtpMap.formatParameters (map_set (fst p) (snd p)))
          (payloadVector (info c) ++ [read_codec m (x <| RtpMap.formatParameters := done |>)]) =
        payloadVector (info c) ++ [read_codec m (x <| RtpMap.formatParameters := done ++ [p] |>)]).
      { rewrite for_payload_type_last by (assumption || reflexivity). f_equal. f_equal.
        unfold read_codec. simpl.
        rewrite map_set_last by (eapply StronglySorted_app_l; exact Hs). reflexivity. }
      revert E. clear. destruct c as [[] ? ? ?]. unfold partial_codec, append_codecs, on_info.
      simpl. intros ->. reflexivity.
    + destruct Hp as (_ & _ & Hw & _ & Hl & _). unfold fmtp_text.
      pose proof (plain_line _ (word_plain _ (word_pretty _ (proj1 Hn)))) as Hpl.
      pose proof (plain_line _ (word_plain _ Hw)) as Hwl.
      destruct (String.eqb _ _); repeat (apply lit_line; [(reflexivity || assumption)|]); exact Hl.
Qed.

Lemma good_append_codecs m xs c : good m c -> good m (append_codecs m xs c).
Proof. still_good. Qed.

Lemma internal_names : Forall (fun r => word (RtpMap.encodingName r) /\ in_width 32 (RtpMap.clockRate r)) internal_codecs.
Proof. repeat constructor; simpl; (discriminate || reflexivity || unfold in_width; lia). Qed.

Lemma known_name x :
  is_Some (internal_of x) -> word (RtpMap.encodingName x) /\ in_width 32 (RtpMap.clockRate x).
Proof.
  intros [r Hr]. apply List.find_some in Hr as [Hin He]. apply same_codec_true in He as [<- <-].
  pose proof internal_names as H. rewrite Forall_forall in H. apply H, list_elem_of_In. assumption.
Qed.

Lemma feedback_one_line n fb : 0 <= n -> plain fb -> one_line (feedback_text n fb).
Proof.
  intros Hn Hf. pose proof (word_pretty n Hn). unfold feedback_text. apply lit_line; [reflexivity|].
  apply plain_line. plain_text.
Qed.

Lemma runs_feedback m n fbs c :
  0 <= n -> Forall plain fbs -> good m c ->
  runs (map (feedback_text n) fbs) c (c <| tmpFeedbackVector ::= fun v => v ++ map (feedback_text n) fbs |>).
Proof.
  intros Hn H. revert c. induction H as [|fb fbs Hf H IH]; intros c Hg; cbn [map].
  - destruct c. simpl. rewrite app_nil_r. apply runs_nil.
  - pose proof (word_pretty n Hn) as Hw. eapply runs_cons.
    + unfold feedback_text at 1. rewrite feedback_line; [reflexivity | apply Hg |].
      apply plain_quiet. plain_text.
    + apply feedback_one_line; assumption.
    + assert (E : c <| tmpFeedbackVector ::= fun v => v ++ feedback_text n fb :: map (feedback_text n) fbs |> =
        (c <| tmpFeedbackVector ::= fun v => v ++ [feedback_text n fb] |>)
           <| tmpFeedbackVector ::= fun v => v ++ map (feedback_text n) fbs |>).
      { destruct c. simpl. rewrite <- app_assoc. reflexivity. }
      rewrite E. apply IH. revert Hg. still_good.
Qed.

Lemma runs_codec m x c :
  m <> OTHER -> codec_ok x -> RtpMap.mediaType x = m -> good m c ->
  RtpMap.payloadType x ∉ map RtpMap.payloadType (payloadVector (info c)) ->
  runs (codec_lines x) c (append_codecs m [x] c).
Proof.
  intros Hm Hx Ex Hg Hd. pose proof (codec_known _ Hx) as Hk.
  destruct (known_name _ Hk) as [Hname Hclock]. destruct Hk as [r Hr].
  assert (Hn : in_width 32 (RtpMap.payloadType x)) by apply in_width_31_32, Hx.
  pose proof (word_pretty _ (proj1 Hn)) as Hwn. pose proof (word_pretty _ (proj1 Hclock)) as Hwc.
  unfold codec_lines. cbn [app]. eapply runs_cons.
  - apply (rtpmap_line mem _ _ _ r); [apply Hg | assumption | assumption | assumption | exact Hr].
  - apply lit_line; [reflexivity|]. apply plain_line. plain_text.
  - rewrite Ex. eapply runs_app with (c1 := partial_codec m x [] c).
    + assert (E : partial_codec m x [] c =
          (add_codec (RtpMap.payloadType x) (RtpMap.encodingName x) (RtpMap.clockRate x) c)
            <| tmpFeedbackVector ::= fun v => v ++ (if is_video m then feedback_lines x else []) |>).
      { pose proof (good_media _ _ Hg) as Em.
        unfold partial_codec, append_codecs, add_codec, on_info. destruct c as [[] m' ? ?]. simpl in Em. subst m'.
        destruct m; [| |congruence]; cbn -[map_codec Z.of_nat Z.add Z.succ];
          rewrite <- ?surjective_pairing, ?app_nil_r; reflexivity. }
      rewrite E. destruct (is_video m).
      * apply (runs_feedback m); [apply Hn | apply Hx |].
        revert Hg. clear. intros [[? ?] ? ? ?]. unfold add_codec, count_media.
        destruct (mtype c) eqn:Em; (split; [split; assumption | simpl; congruence | assumption | assumption]).
      * destruct (add_codec _ _ _ c). simpl. rewrite app_nil_r. apply runs_nil.
    + assert (E : append_codecs m [x] c = partial_codec m x ([] ++ RtpMap.formatParameters x) c)
        by (unfold partial_codec; destruct x; reflexivity).
      rewrite E. apply runs_parameters; try assumption; apply Hx.
Qed.

Lemma runs_codecs m xs c :
  m <> OTHER -> Forall codec_ok xs -> Forall (fun x => RtpMap.mediaType x = m) xs -> good m c ->
  NoDup (map RtpMap.payloadType (payloadVector (info c) ++ xs)) ->
  let c' := append_codecs m xs c in runs (concat (map codec_lines xs)) c c' /\ good m c'.
Proof.
  intros Hm H. revert c. induction H as [|x xs Hx H IH]; intros c Hms Hg Hd; cbv zeta.
  - rewrite append_codecs_nil. split; [apply runs_nil | assumption].
  - apply Forall_cons in Hms as [Ex Hms]. split; [|apply good_append_codecs; assumption].
    cbn [map concat]. rewrite <- append_codecs_cons. eapply runs_app.
    + apply (runs_codec m x c); try assumption. rewrite map_app in Hd. apply NoDup_app in Hd as (_ & Hd & _).
      intros Hin. apply (Hd _ Hin). left.
    + apply IH; [assumption | apply good_append_codecs; assumption |].
      revert Hd. clear. destruct c as [[] ? ? ?]. unfold append_codecs, on_info. simpl.
      rewrite <- app_assoc. cbn [app]. rewrite !map_app. auto.
Qed.

(** *** The m-line and the session part *)

Definition start_section (m : MediaType) (c : Scan) : Scan :=
  let n := mlineNum c + 1 in
  on_info (fun s => match m with
    | AUDIO_TYPE => s <| audioSdpMLine := n |> <| hasAudio := true |>
    | _ => s <| videoSdpMLine := n |> <| hasVideo := true |> end) (c <| mlineNum := n |> <| mtype := m |>).

Lemma payload_types_plain f codecs k v :
  Forall codec_ok v -> lacks ("=" +:+ carriage_return +:+ newline) (print_payload_types f codecs k v) = true.
Proof.
  intros H. revert k. induction H as [|x v Hx H IH]; intros k; [reflexivity|]. cbn [print_payload_types].
  destruct (f _); [|apply IH]. rewrite !lacks_app, IH, andb_true_r. apply andb_true_iff. split.
  - apply (word_plain _ (word_pretty _ (proj1 (codec_type _ Hx)))).
  - destruct (_ <? _); reflexivity.
Qed.

Lemma runs_mline s m m' c :
  m <> OTHER -> Forall codec_ok (payloadVector s) -> good m' c ->
  let c' := start_section m c in runs (mline_lines s m) c c' /\ good m c'.
Proof.
  intros Hm Hc Hg. cbv zeta. assert (Hg' : good m (start_section m c)).
  { destruct Hg as [[? ?] ? ? ?]. unfold start_section.
    destruct m; (split; [split; assumption | reflexivity | assumption | assumption]). }
  split; [|assumption]. unfold mline_lines. cbn [app].
  assert (Hq : forall f k, quiet (print_payload_types f k 0 (payloadVector s)) = true).
  { intros. apply quiet_lacks. eapply lacks_weaken; [|apply payload_types_plain; assumption]. reflexivity. }
  assert (Ho : forall f k, one_line (print_payload_types f k 0 (payloadVector s))).
  { intros. eapply lacks_weaken; [|apply payload_types_plain; assumption]. reflexivity. }
  eapply runs_cons with (c1 := start_section m c).
  - destruct m; [rewrite video_line by (apply Hg || apply Hq) | rewrite audio_line by (apply Hg || apply Hq) | congruence];
      destruct c; reflexivity.
  - destruct m; (apply lit_line; [reflexivity | apply Ho]).
  - assert (Hsil : forall line, quiet "" = true -> forallb (fun t => clean t line && negb (has t line)) tags = true ->
      process_line mem line (start_section m c) = Some (start_section m c)).
    { intros line He Hl. rewrite <- (string_app_nil line). apply silent_line; [apply Hg' | assumption | assumption]. }
    eapply runs_cons; [apply Hsil; reflexivity | reflexivity |].
    destruct (isRtcpMux s); [|apply runs_nil].
    eapply runs_cons; [apply Hsil; reflexivity | reflexivity | apply runs_nil].
Qed.

(** *** The sections *)

Lemma Forall_list_filter {A} (P : A -> Prop) f l : Forall P l -> Forall P (List.filter f l).
Proof.
  induction 1 as [|x l Hx H IH]; cbn [List.filter]; [constructor|].
  destruct (f x); [constructor; assumption | assumption].
Qed.

Definition tags_of (m : MediaType) (s : SdpInfo) : list BundleTag :=
  List.filter (fun b => of_media m (BundleTag.mediaType b)) (bundleTags s).
Definition extmaps_of (m : MediaType) (s : SdpInfo) : list ExtMap :=
  List.filter (fun e => of_media m (ExtMap.mediaType e)) (extMapVector s).
Definition cryptos_of (m : MediaType) (s : SdpInfo) : list CryptoInfo :=
  List.filter (fun c => of_media m (CryptoInfo.mediaType c)) (cryptoVector_ s).
Definition candidates_of (m : MediaType) (s : SdpInfo) : list CandidateInfo :=
  List.filter (fun c => of_media m (CandidateInfo.mediaType c) || (is_audio m && isBundle s)) (candidateVector_ s).

Definition read_section (m : MediaType) (d : StreamDirection) (s : SdpInfo) (c : Scan) : Scan :=
  let c := start_section m c in
  let c := append_candidates (map (read_candidate (cand_mem mem) m) (candidates_of m s)) c in
  let c := set_credentials m (getUsername m s) (getPassword m s) c in
  let c := match m with
           | AUDIO_TYPE => append_extmaps (map (read_extmap m) (extmaps_of m s))
                             (set_direction d (set_fingerprint (isFingerprint s) (fingerprint s) c))
           | _ => set_direction d (set_fingerprint (isFingerprint s) (fingerprint s)
                             (append_extmaps (map (read_extmap m) (extmaps_of m s)) c))
           end in
  let c := mark_tags m (map BundleTag.id (tags_of m s)) c in
  let c := set_rtcp_mux (isRtcpMux s) c in
  let c := append_cryptos (map (read_crypto m) (cryptos_of m s)) c in
  set_ssrc (own_ssrc s m) (append_codecs m (codecs_of s m) c).

Lemma codecs_of_media m s : m <> OTHER -> Forall (fun x => RtpMap.mediaType x = m) (codecs_of s m).
Proof.
  intros Hm. unfold codecs_of. induction (payloadVector s) as [|x v IH]; cbn [List.filter]; [constructor|].
  destruct (of_media m (RtpMap.mediaType x)) eqn:E; [|assumption]. constructor; [|assumption].
  destruct m, (RtpMap.mediaType x); try reflexivity; try discriminate E; congruence.
Qed.

Lemma own_ssrc_ok m s msid : printable msid s -> in_width 32 (own_ssrc s m) /\ own_ssrc s m <> 0.
Proof.
  intros Hs. pose proof (print_ssrcs _ _ Hs) as H. inversion H as [|? ? Ha H']. inversion H' as [|? ? Hv _].
  unfold own_ssrc, in_width in *.
  destruct m; [destruct (Z.eqb_spec (videoSsrc s) 0) | destruct (Z.eqb_spec (audioSsrc s) 0) |
               destruct (Z.eqb_spec (videoSsrc s) 0)]; lia.
Qed.

Lemma tags_words m s msid : printable msid s -> Forall (fun b => word (BundleTag.id b)) (tags_of m s).
Proof.
  intros Hs. apply Forall_list_filter. pose proof (print_tags _ _ Hs) as [H _].
  induction (bundleTags s); [constructor|]. inversion H. constructor; auto.
Qed.

Lemma runs_audio msid s m' c :
  printable msid s -> good m' c -> NoDup (map RtpMap.payloadType (payloadVector (info c) ++ codecs_of s AUDIO_TYPE)) ->
  let c' := read_section AUDIO_TYPE (audioDirection s) s c in
  runs (audio_lines msid s) c c' /\ good AUDIO_TYPE c'.
Proof.
  intros Hs Hg Hd. assert (Hm : AUDIO_TYPE <> OTHER) by discriminate.
  pose proof (print_users _ _ Hs) as Hu. apply Forall_cons in Hu as (Huv & Hu).
  apply Forall_cons in Hu as (Hua & Hu). apply Forall_cons in Hu as (Hpv & Hu). apply Forall_cons in Hu as (Hpa & _).
  destruct (own_ssrc_ok AUDIO_TYPE s msid Hs) as [Hw H0].
  destruct (runs_mline s AUDIO_TYPE m' c Hm (print_codecs _ _ Hs) Hg) as [R1 G1].
  destruct (runs_candidates AUDIO_TYPE (candidates_of AUDIO_TYPE s) _
    (Forall_list_filter _ _ _ (print_candidates _ _ Hs)) G1) as [R2 G2].
  destruct (runs_credentials AUDIO_TYPE (getUsername AUDIO_TYPE s) (getPassword AUDIO_TYPE s) _ Hm Hua Hpa G2) as [R3 G3].
  destruct (runs_fingerprint AUDIO_TYPE s _ (print_fp _ _ Hs) G3) as [R4 G4].
  destruct (runs_direction AUDIO_TYPE (audioDirection s) _ G4) as [R5 G5].
  destruct (runs_extmaps AUDIO_TYPE (extmaps_of AUDIO_TYPE s) _
    (Forall_list_filter _ _ _ (proj2 (print_extmaps _ _ Hs))) G5) as [R6 G6].
  destruct (runs_mids AUDIO_TYPE (tags_of AUDIO_TYPE s) _ (tags_words _ _ _ Hs) G6) as [R7 G7].
  destruct (runs_rtcp_mux AUDIO_TYPE s _ G7) as [R8 G8].
  destruct (runs_cryptos AUDIO_TYPE (cryptos_of AUDIO_TYPE s) _
    (Forall_list_filter _ _ _ (print_cryptos _ _ Hs)) G8) as [R9 G9].
  destruct (runs_codecs AUDIO_TYPE (codecs_of s AUDIO_TYPE) _ Hm
    (Forall_list_filter _ _ _ (print_codecs _ _ Hs)) (codecs_of_media _ _ Hm) G9) as [R10 G10].
  { exact Hd. }
  assert (label : word "a0") by (split; [discriminate | reflexivity]).
  destruct (runs_ssrc AUDIO_TYPE msid (own_ssrc s AUDIO_TYPE) "a0" _ Hw H0 (print_msid _ _ Hs) label G10) as [R11 G11].
  split; [|exact G11]. unfold audio_lines, read_section. cbv beta zeta iota.
  eapply runs_app; [exact R1|]. eapply runs_app; [exact R2|]. eapply runs_app; [exact R3|].
  eapply runs_app; [exact R4|]. eapply runs_app; [exact R5|]. eapply runs_app; [exact R6|].
  eapply runs_app; [exact R7|]. eapply runs_app; [exact R8|]. eapply runs_app; [exact R9|].
  eapply runs_app; [exact R10|]. eapply runs_cons; [| reflexivity | exact R11].
  change "a=maxptime:60" with ("a=maxptime:60" +:+ "").
  apply silent_line; [apply G10 | reflexivity | reflexivity].
Qed.

Lemma runs_video msid s m' c :
  printable msid s -> good m' c -> NoDup (map RtpMap.payloadType (payloadVector (info c) ++ codecs_of s VIDEO_TYPE)) ->
  let c' := read_section VIDEO_TYPE (videoDirection s) s c in
  runs (video_lines msid s) c c' /\ good VIDEO_TYPE c'.
Proof.
  intros Hs Hg Hd. assert (Hm : VIDEO_TYPE <> OTHER) by discriminate.
  pose proof (print_users _ _ Hs) as Hu. apply Forall_cons in Hu as (Huv & Hu).
  apply Forall_cons in Hu as (Hua & Hu). apply Forall_cons in Hu as (Hpv & Hu). apply Forall_cons in Hu as (Hpa & _).
  destruct (own_ssrc_ok VIDEO_TYPE s msid Hs) as [Hw H0].
  destruct (runs_mline s VIDEO_TYPE m' c Hm (print_codecs _ _ Hs) Hg) as [R1 G1].
  destruct (runs_candidates VIDEO_TYPE (candidates_of VIDEO_TYPE s) _
    (Forall_list_filter _ _ _ (print_candidates _ _ Hs)) G1) as [R2 G2].
  destruct (runs_credentials VIDEO_TYPE (getUsername VIDEO_TYPE s) (getPassword VIDEO_TYPE s) _ Hm Huv Hpv G2) as [R3 G3].
  destruct (runs_extmaps VIDEO_TYPE (extmaps_of VIDEO_TYPE s) _
    (Forall_list_filter _ _ _ (proj2 (print_extmaps _ _ Hs))) G3) as [R6 G6].
  destruct (runs_fingerprint VIDEO_TYPE s _ (print_fp _ _ Hs) G6) as [R4 G4].
  destruct (runs_direction VIDEO_TYPE (videoDirection s) _ G4) as [R5 G5].
  destruct (runs_mids VIDEO_TYPE (tags_of VIDEO_TYPE s) _ (tags_words _ _ _ Hs) G5) as [R7 G7].
  destruct (runs_rtcp_mux VIDEO_TYPE s _ G7) as [R8 G8].
  destruct (runs_cryptos VIDEO_TYPE (cryptos_of VIDEO_TYPE s) _
    (Forall_list_filter _ _ _ (print_cryptos _ _ Hs)) G8) as [R9 G9].
  destruct (runs_codecs VIDEO_TYPE (codecs_of s VIDEO_TYPE) _ Hm
    (Forall_list_filter _ _ _ (print_codecs _ _ Hs)) (codecs_of_media _ _ Hm) G9) as [R10 G10].
  { exact Hd. }
  assert (label : word "v0") by (split; [discriminate | reflexivity]).
  destruct (runs_ssrc VIDEO_TYPE msid (own_ssrc s VIDEO_TYPE) "v0" _ Hw H0 (print_msid _ _ Hs) label G10) as [R11 G11].
  split; [|exact G11]. unfold video_lines, read_section. cbv beta zeta iota.
  eapply runs_app; [exact R1|]. eapply runs_app; [exact R2|]. eapply runs_app; [exact R3|].
  eapply runs_app; [exact R6|]. eapply runs_app; [exact R4|]. eapply runs_app; [exact R5|].
  eapply runs_app; [exact R7|]. eapply runs_app; [exact R8|]. eapply runs_app; [exact R9|].
  eapply runs_app; [exact R10|]. eapply runs_app; [exact R11|].
  destruct (Z.eqb_spec (videoRtxSsrc s) 0) as [|Hr]; [apply runs_nil|].
  assert (Hw' : in_width 32 (videoRtxSsrc s)).
  { pose proof (print_ssrcs _ _ Hs) as H. inversion H as [|? ? _ H']. inversion H' as [|? ? _ H''].
    inversion H''. assumption. }
  destruct (runs_ssrc VIDEO_TYPE msid (videoRtxSsrc s) "v0" _ Hw' Hr (print_msid _ _ Hs) label G11) as [R12 _].
  rewrite set_ssrc_twice in R12 by assumption. exact R12.
Qed.

(** *** The whole text *)

Definition start : Scan :=
  {| info := SdpInfo_ctor mem; mtype := OTHER; mlineNum := -1; tmpFeedbackVector := [] |}.

Definition read_session (s : SdpInfo) : Scan :=
  on_info (fun i => i <| isBundle := isBundle s |> <| bundleTags := if isBundle s
    then map (fun b => {| BundleTag.id := BundleTag.id b; BundleTag.mediaType := OTHER |}) (bundleTags s)
    else [] |>) start.

Lemma runs_session msid s :
  printable msid s -> runs (session_lines msid s) start (read_session s) /\ good OTHER (read_session s).
Proof.
  intros Hs. pose proof (print_tags _ _ Hs) as (Hw & Hl & _).
  assert (Hr : ready start) by (split; reflexivity).
  assert (Hsil : forall line c, ready c -> forallb (fun t => clean t line && negb (has t line)) tags = true ->
      process_line mem line c = Some c).
  { intros line c Hc Hline. rewrite <- (string_app_nil line).
    apply silent_line; [assumption | reflexivity | assumption]. }
  split.
  - unfold session_lines. eapply runs_app.
    { do 4 (eapply runs_cons; [apply Hsil; [exact Hr | reflexivity] | reflexivity |]). apply runs_nil. }
    unfold read_session. destruct (isBundle s); [|apply runs_nil].
    eapply runs_cons.
    + apply group_line; [exact Hr | assumption | rewrite length_map; assumption].
    + apply lit_line; [reflexivity|]. unfold one_line.
      eapply lacks_weaken; [|apply (quiet_words _ Hw)]. reflexivity.
    + eapply runs_cons.
      * apply silent_line; [split; reflexivity | apply plain_quiet, Hs | reflexivity].
      * apply lit_line; [reflexivity | apply plain_line, Hs].
      * rewrite map_map. apply runs_nil.
  - split; [split; reflexivity | reflexivity | |]; simpl.
    + destruct (isBundle s); [rewrite length_map; lia | simpl; lia].
    + intros ->. reflexivity.
Qed.

(** What the sections leave in the members. *)
Lemma section_vectors m d s c :
  let c' := read_section m d s c in
  payloadVector (info c') = payloadVector (info c) ++ map (read_codec m) (codecs_of s m) /\
  extMapVector (info c') = extMapVector (info c) ++ map (read_extmap m) (extmaps_of m s) /\
  cryptoVector_ (info c') = cryptoVector_ (info c) ++ map (read_crypto m) (cryptos_of m s) /\
  candidateVector_ (info c') = candidateVector_ (info c) ++ map (read_candidate (cand_mem mem) m) (candidates_of m s) /\
  bundleTags (info c') = foldl (fun v id => map (mark id m) v) (bundleTags (info c)) (map BundleTag.id (tags_of m s)) /\
  tmpFeedbackVector c' = tmpFeedbackVector c ++
    (if is_video m then concat (map feedback_lines (codecs_of s m)) else []) /\
  isBundle (info c') = isBundle (info c) /\ isRtcpMux (info c') = isRtcpMux s || isRtcpMux (info c) /\
  isFingerprint (info c') = isFingerprint s || isFingerprint (info c) /\
  fingerprint (info c') = (if isFingerprint s then fingerprint s else fingerprint (info c)).
Proof. destruct m; cbv zeta; repeat split. Qed.

(** The members of one medium; the section of the other leaves them alone. *)
Definition members (m : MediaType) (s : SdpInfo) :=
  match m with
  | AUDIO_TYPE => (hasAudio s, audioDirection s, audioSsrc s, (iceAudioUsername_ s, iceAudioPassword_ s))
  | _ => (hasVideo s, videoDirection s, videoSsrc s, (iceVideoUsername_ s, iceVideoPassword_ s))
  end.

Lemma audio_members d s c :
  let i := info (read_section AUDIO_TYPE d s c) in
  members AUDIO_TYPE i = (true, d, if audioSsrc (info c) =? 0 then own_ssrc s AUDIO_TYPE else audioSsrc (info c),
                          (iceAudioUsername_ s, iceAudioPassword_ s)) /\
  members VIDEO_TYPE i = members VIDEO_TYPE (info c).
Proof. split; reflexivity. Qed.

Lemma video_members d s c :
  let i := info (read_section VIDEO_TYPE d s c) in
  members VIDEO_TYPE i = (true, d, if videoSsrc (info c) =? 0 then own_ssrc s VIDEO_TYPE else videoSsrc (info c),
                          (iceVideoUsername_ s, iceVideoPassword_ s)) /\
  members AUDIO_TYPE i = members AUDIO_TYPE (info c).
Proof. split; reflexivity. Qed.

(** *** Bundle tags: marked again with their media *)

Lemma marks_spec m ids v :
  foldl (fun v id => map (mark id m) v) v ids =
  map (fun b => if decide (BundleTag.id b ∈ ids) then {| BundleTag.id := BundleTag.id b; BundleTag.mediaType := m |} else b) v.
Proof.
  revert v. induction ids as [|id ids IH]; intros v; cbn [foldl].
  - rewrite <- (map_id v) at 1. apply map_ext. intros b. destruct (decide _) as [H|]; [inversion H | reflexivity].
  - rewrite IH, map_map. apply map_ext. intros b. unfold mark.
    destruct (String.eqb_spec (BundleTag.id b) id) as [E|E]; cbn [BundleTag.id];
      destruct (decide (BundleTag.id b ∈ ids)) as [H1|H1], (decide (BundleTag.id b ∈ id :: ids)) as [H2|H2];
      try reflexivity; rewrite elem_of_cons in H2; tauto.
Qed.

Lemma tags_of_elem m s b :
  NoDup (map BundleTag.id (bundleTags s)) -> b ∈ bundleTags s ->
  BundleTag.id b ∈ map BundleTag.id (tags_of m s) <-> of_media m (BundleTag.mediaType b) = true.
Proof.
  intros Hd Hb. unfold tags_of. revert Hd Hb. induction (bundleTags s) as [|x v IH]; intros Hd Hb; [inversion Hb|].
  cbn [map] in Hd. apply NoDup_cons in Hd as [Hn Hd]. cbn [List.filter].
  assert (Hsub : BundleTag.id x ∉ map BundleTag.id (List.filter (fun b => of_media m (BundleTag.mediaType b)) v)).
  { intros H. apply Hn. revert H. clear. induction v as [|y v IH]; cbn [List.filter]; [intros H; inversion H|].
    destruct (of_media _ _); cbn [map]; rewrite !elem_of_cons; intuition. }
  apply elem_of_cons in Hb as [-> | Hb].
  - destruct (of_media m (BundleTag.mediaType x)) eqn:E; [|split; [contradiction | discriminate]].
    cbn [map]. rewrite elem_of_cons. intuition.
  - rewrite <- (IH Hd Hb). destruct (of_media m (BundleTag.mediaType x)); [|reflexivity].
    cbn [map]. rewrite elem_of_cons. split; [|tauto]. intros [E|]; [|assumption].
    exfalso. apply Hn. rewrite <- E. apply (list_elem_of_fmap_2 BundleTag.id). assumption.
Qed.

Lemma tags_restored (ids_a ids_v : list string) s :
  NoDup (map BundleTag.id (bundleTags s)) ->
  (forall b, b ∈ bundleTags s -> BundleTag.id b ∈ ids_a <-> BundleTag.mediaType b = AUDIO_TYPE) ->
  (forall b, b ∈ bundleTags s -> BundleTag.id b ∈ ids_v <-> BundleTag.mediaType b = VIDEO_TYPE) ->
  foldl (fun v id => map (mark id VIDEO_TYPE) v)
    (foldl (fun v id => map (mark id AUDIO_TYPE) v)
       (map (fun b => {| BundleTag.id := BundleTag.id b; BundleTag.mediaType := OTHER |}) (bundleTags s)) ids_a) ids_v =
  bundleTags s.
Proof.
  intros _ Ha Hv. rewrite !marks_spec, !map_map. rewrite <- (map_id (bundleTags s)) at 2.
  apply map_ext_in. intros b Hb%list_elem_of_In. specialize (Ha b Hb). specialize (Hv b Hb). cbn [BundleTag.id].
  destruct b as [id m]. cbn [BundleTag.id BundleTag.mediaType] in *.
  destruct (decide (id ∈ ids_a)) as [H1|H1]; cbn [BundleTag.id].
  - apply Ha in H1 as ->. destruct (decide (id ∈ ids_v)) as [H2|]; [apply Hv in H2; discriminate | reflexivity].
  - destruct (decide (id ∈ ids_v)) as [H2|H2]; [apply Hv in H2 as ->; reflexivity|].
    destruct m; [exfalso; apply H2, Hv; reflexivity | exfalso; apply H1, Ha; reflexivity | reflexivity].
Qed.

(** *** The feedback lines at the end *)

Definition add_feedback (fbs : list string) : RtpMap -> RtpMap := set_member RtpMap.feedbackTypes (fun v => v ++ fbs).

Lemma process_feedback_codec n fbs s :
  in_width 32 n -> Forall plain fbs ->
  process_feedbacks (map (feedback_text n) fbs) s =
    Some (s <| payloadVector ::= for_payload_type n (add_feedback fbs) |>).
Proof.
  intros Hn H. revert s. induction H as [|fb fbs Hf H IH]; intros s; cbn [map process_feedbacks].
  - f_equal. destruct s. simpl. f_equal. unfold for_payload_type.
    rewrite <- map_id at 1. apply map_ext. intros x. destruct (_ =? n); [|reflexivity].
    unfold add_feedback. destruct x. simpl. rewrite app_nil_r. reflexivity.
  - change (feedback_text n fb) with ("a=rtcp-fb:" +:+ pretty n +:+ " " +:+ fb).
    rewrite process_feedback_line by assumption. cbn [option_bind mbind].
    rewrite IH. f_equal. destruct s. simpl. f_equal. unfold for_payload_type.
    rewrite map_map. apply map_ext. intros x. destruct (RtpMap.payloadType x =? n) eqn:E.
    + unfold add_feedback. destruct x. simpl in *. rewrite E, <- app_assoc. reflexivity.
    + rewrite E. reflexivity.
Qed.

Lemma process_feedbacks_app l k s : process_feedbacks (l ++ k) s = process_feedbacks l s ≫= process_feedbacks k.
Proof.
  revert s. induction l as [|line l IH]; intros s; [reflexivity|]. cbn [app process_feedbacks].
  destruct (process_feedback line s); [apply IH | reflexivity].
Qed.

Lemma for_payload_type_at n f pre x post :
  NoDup (map RtpMap.payloadType (pre ++ x :: post)) -> RtpMap.payloadType x = n ->
  for_payload_type n f (pre ++ x :: post) = pre ++ f x :: post.
Proof.
  intros Hd Hx. unfold for_payload_type. rewrite map_app in *. cbn [map] in *. rewrite Hx, Z.eqb_refl in *.
  apply NoDup_app in Hd as (_ & Hpre & Hpost). apply NoDup_cons in Hpost as [Hpost _].
  assert (Hid : forall v, n ∉ map RtpMap.payloadType v ->
    map (fun rtp => if RtpMap.payloadType rtp =? n then f rtp else rtp) v = v).
  { clear. induction v as [|y v IH]; cbn [map]; [reflexivity|]. rewrite elem_of_cons. intros H.
    destruct (Z.eqb_spec (RtpMap.payloadType y) n); [exfalso; apply H; left; congruence|].
    rewrite IH by tauto. reflexivity. }
  rewrite !Hid; [reflexivity | assumption |]. intros H. apply (Hpre _ H). left.
Qed.

Lemma feedback_restored pre xs s :
  Forall codec_ok xs -> Forall (fun x => RtpMap.mediaType x = VIDEO_TYPE) xs ->
  payloadVector s = pre ++ map (read_codec VIDEO_TYPE) xs ->
  NoDup (map RtpMap.payloadType (pre ++ xs)) ->
  process_feedbacks (concat (map feedback_lines xs)) s = Some (s <| payloadVector := pre ++ xs |>).
Proof.
  intros H. revert pre s. induction H as [|x xs Hx H IH]; intros pre s Hm Hp Hd; cbn [map concat] in *.
  - f_equal. destruct s. simpl in Hp. subst. reflexivity.
  - apply Forall_cons in Hm as [Em Hm]. rewrite process_feedbacks_app.
    change (feedback_lines x) with (map (feedback_text (RtpMap.payloadType x)) (RtpMap.feedbackTypes x)).
    rewrite process_feedback_codec by (apply in_width_31_32, Hx || apply Hx). cbn [option_bind mbind].
    assert (Ex : add_feedback (RtpMap.feedbackTypes x) (read_codec VIDEO_TYPE x) = x).
    { pose proof (codec_channels _ Hx). unfold add_feedback, read_codec, fresh_codec. destruct x.
      simpl in *. subst. reflexivity. }
    rewrite (IH (pre ++ [x])); [| assumption | | rewrite <- app_assoc; assumption].
    + f_equal. destruct s. simpl. rewrite <- app_assoc. reflexivity.
    + simpl. rewrite Hp, for_payload_type_at; [rewrite Ex, <- app_assoc; reflexivity| |reflexivity].
      revert Hd. rewrite !map_app. cbn [map].
      assert (E : map RtpMap.payloadType (map (read_codec VIDEO_TYPE) xs) = map RtpMap.payloadType xs)
        by (rewrite map_map; reflexivity).
      rewrite E. auto.
Qed.

End Runs.

(** ** The round trip *)

Definition without_feedback (x : RtpMap) : RtpMap := x <| RtpMap.feedbackTypes := [] |>.

(** The part of a list that is printed for a medium. *)
Definition printed {A} (present : bool) (l : list A) : list A := if present then l else [].

(** What [t], read from the text of [s], has of [s]. *)
Record reads_back (mem : uninitialised) (s t : SdpInfo) : Prop := {
  back_media : (hasAudio t, hasVideo t) = (hasAudio s, hasVideo s);
  back_session : (isBundle t, isRtcpMux t, isFingerprint t) = (isBundle s, isRtcpMux s, isFingerprint s);
  back_fingerprint : isFingerprint s = true -> fingerprint t = fingerprint s;
  back_audio : hasAudio s = true ->
    (audioDirection t, audioSsrc t, iceAudioUsername_ t, iceAudioPassword_ t) =
    (audioDirection s, own_ssrc s AUDIO_TYPE, iceAudioUsername_ s, iceAudioPassword_ s);
  back_video : hasVideo s = true ->
    (videoDirection t, videoSsrc t, iceVideoUsername_ t, iceVideoPassword_ t) =
    (videoDirection s, own_ssrc s VIDEO_TYPE, iceVideoUsername_ s, iceVideoPassword_ s);
  back_codecs : payloadVector t =
    printed (hasAudio s) (map without_feedback (codecs_of s AUDIO_TYPE)) ++
    printed (hasVideo s) (codecs_of s VIDEO_TYPE);
  back_tags : bundleTags t = printed (isBundle s) (bundleTags s);
  back_extmaps : extMapVector t =
    printed (hasAudio s) (map (read_extmap mem AUDIO_TYPE) (extmaps_of AUDIO_TYPE s)) ++
    printed (hasVideo s) (map (read_extmap mem VIDEO_TYPE) (extmaps_of VIDEO_TYPE s));
  back_cryptos : cryptoVector_ t =
    printed (hasAudio s) (map (read_crypto AUDIO_TYPE) (cryptos_of AUDIO_TYPE s)) ++
    printed (hasVideo s) (map (read_crypto VIDEO_TYPE) (cryptos_of VIDEO_TYPE s));
  back_candidates : candidateVector_ t = map (fill_candidate t)
    (printed (hasAudio s) (map (read_candidate (cand_mem mem) AUDIO_TYPE) (candidates_of AUDIO_TYPE s)) ++
     printed (hasVideo s) (map (read_candidate (cand_mem mem) VIDEO_TYPE) (candidates_of VIDEO_TYPE s)))
}.

Lemma read_codec_audio s :
  Forall codec_ok (payloadVector s) -> map (read_codec AUDIO_TYPE) (codecs_of s AUDIO_TYPE) =
  map without_feedback (codecs_of s AUDIO_TYPE).
Proof.
  intros H. apply map_ext_in. intros x Hx%list_elem_of_In.
  assert (Hok : codec_ok x).
  { apply (Forall_list_filter _ (fun rtp => of_media AUDIO_TYPE (RtpMap.mediaType rtp))) in H.
    rewrite Forall_forall in H. apply H. assumption. }
  assert (Hm : RtpMap.mediaType x = AUDIO_TYPE).
  { pose proof (codecs_of_media AUDIO_TYPE s ltac:(discriminate)) as Hf. rewrite Forall_forall in Hf. auto. }
  pose proof (codec_channels _ Hok). unfold read_codec, fresh_codec, without_feedback. destruct x.
  simpl in *. subst. reflexivity.
Qed.

(** The parser after the lines: the credentials of a missing medium, the candidates'
    credentials, the feedback. *)
Lemma finish mem text c s' lines :
  getlines text = lines -> process_lines mem lines (start mem) = Some c ->
  fill_credentials (info c) = Some s' ->
  processSdp mem text "" (SdpInfo_ctor mem) =
    s ← process_feedbacks (tmpFeedbackVector c) (s' <| candidateVector_ ::= map (fill_candidate s') |>);
    Some (true, s).
Proof.
  intros Ht Hc Hf. unfold processSdp. rewrite Ht. change (media_of "") with OTHER.
  change ({| info := _ |}) with (start mem). rewrite Hc. cbn [option_bind mbind]. rewrite Hf. reflexivity.
Qed.

Lemma NoDup_codecs s pre m :
  NoDup (map RtpMap.payloadType (payloadVector s)) -> Forall codec_ok (payloadVector s) ->
  pre = [] \/ (m = VIDEO_TYPE /\ pre = codecs_of s AUDIO_TYPE) ->
  NoDup (map RtpMap.payloadType (pre ++ codecs_of s m)).
Proof.
  intros Hd Hok Hpre.
  assert (Hsub : forall (f : RtpMap -> bool) v n, n ∈ map RtpMap.payloadType (List.filter f v) ->
                   exists x, x ∈ v /\ f x = true /\ RtpMap.payloadType x = n).
  { intros f v n H. apply list_elem_of_fmap in H as (x & -> & Hx). apply list_elem_of_In, List.filter_In in Hx.
    exists x. rewrite list_elem_of_In. tauto. }
  assert (Hnd : forall (f : RtpMap -> bool) v, NoDup (map RtpMap.payloadType v) -> NoDup (map RtpMap.payloadType (List.filter f v))).
  { intros f v. induction v as [|x v IH]; cbn [map List.filter]; [auto|]. intros [Hn Hv]%NoDup_cons.
    destruct (f x); [|auto]. cbn [map]. apply NoDup_cons. split; [|auto]. intros H.
    apply Hsub in H as (y & Hy & _ & E). apply Hn. rewrite <- E. apply (list_elem_of_fmap_2 RtpMap.payloadType). assumption. }
  destruct Hpre as [-> | [-> ->]]; [apply Hnd; assumption|].
  rewrite map_app. apply NoDup_app. split; [apply Hnd; assumption|]. split; [|apply Hnd; assumption].
  intros n Ha Hv. apply Hsub in Ha as (x & Hx & Fx & Ex). apply Hsub in Hv as (y & Hy & Fy & Ey).
  assert (x = y) as ->.
  { clear - Hd Hx Hy Ex Ey. induction (payloadVector s) as [|z v IH]; [inversion Hx|].
    cbn [map] in Hd. apply NoDup_cons in Hd as [Hn Hd].
    apply elem_of_cons in Hx as [-> | Hx]; apply elem_of_cons in Hy as [-> | Hy]; [reflexivity | | | auto].
    - exfalso. apply Hn. rewrite Ex, <- Ey. apply (list_elem_of_fmap_2 RtpMap.payloadType). assumption.
    - exfalso. apply Hn. rewrite Ey, <- Ex. apply (list_elem_of_fmap_2 RtpMap.payloadType). assumption. }
  cbn [of_media] in *. destruct (RtpMap.mediaType y); discriminate.
Qed.

Definition read_all (mem : uninitialised) (s : SdpInfo) : Scan :=
  let c := read_session mem s in
  let c := if hasAudio s then read_section mem AUDIO_TYPE (audioDirection s) s c else c in
  if hasVideo s then read_section mem VIDEO_TYPE (videoDirection s) s c else c.

Lemma payload_read_codecs m v : map RtpMap.payloadType (map (read_codec m) v) = map RtpMap.payloadType v.
Proof. rewrite map_map. reflexivity. Qed.

Lemma runs_all mem msid s : printable msid s -> runs mem (sdp_lines msid s) (start mem) (read_all mem s).
Proof.
  intros Hs. destruct (runs_session mem msid s Hs) as [R0 G0]. unfold sdp_lines, read_all.
  eapply runs_app; [exact R0|]. pose proof (print_distinct _ _ Hs) as Hd. pose proof (print_codecs _ _ Hs) as Hok.
  destruct (hasAudio s).
  - destruct (runs_audio mem msid s _ _ Hs G0) as [R1 G1].
    { change (payloadVector (info (read_session mem s))) with (@nil RtpMap). apply NoDup_codecs; auto. }
    eapply runs_app; [exact R1|]. destruct (hasVideo s); [|apply runs_nil].
    apply (runs_video mem msid s _ _ Hs G1).
    destruct (section_vectors mem AUDIO_TYPE (audioDirection s) s (read_session mem s)) as (-> & _).
    change (payloadVector (info (read_session mem s))) with (@nil RtpMap). cbn [app].
    rewrite map_app, payload_read_codecs, <- map_app. apply NoDup_codecs; auto.
  - eapply runs_app; [apply runs_nil|]. destruct (hasVideo s); [|apply runs_nil].
    apply (runs_video mem msid s _ _ Hs G0).
    change (payloadVector (info (read_session mem s))) with (@nil RtpMap). apply NoDup_codecs; auto.
Qed.

(** The object before the candidates and the feedback are completed. *)
Definition with_credentials (s i : SdpInfo) : SdpInfo :=
  match hasAudio s, hasVideo s with
  | true, false => i <| iceVideoUsername_ := iceAudioUsername_ s |> <| iceVideoPassword_ := iceAudioPassword_ s |>
  | false, true => i <| iceAudioUsername_ := iceVideoUsername_ s |> <| iceAudioPassword_ := iceVideoPassword_ s |>
  | _, _ => i
  end.

Lemma credentials_filled mem msid s :
  printable msid s -> hasAudio s || hasVideo s = true ->
  fill_credentials (info (read_all mem s)) = Some (with_credentials s (info (read_all mem s))).
Proof.
  intros Hs Hm. pose proof (print_users _ _ Hs) as Hu. apply Forall_cons in Hu as ([Hv _] & Hu).
  apply Forall_cons in Hu as ([Ha _] & _). apply String.eqb_neq in Hv, Ha.
  unfold read_all, with_credentials, fill_credentials.
  destruct (hasAudio s), (hasVideo s); try discriminate Hm.
  - change (iceVideoUsername_ (info _)) with (iceVideoUsername_ s).
    change (iceAudioUsername_ (info _)) with (iceAudioUsername_ s). rewrite Hv, Ha. reflexivity.
  - change (iceVideoUsername_ (info _)) with "". change (iceAudioUsername_ (info _)) with (iceAudioUsername_ s).
    rewrite Ha. reflexivity.
  - change (iceVideoUsername_ (info _)) with (iceVideoUsername_ s). change (iceAudioUsername_ (info _)) with "".
    rewrite Hv. reflexivity.
Qed.

Definition read_back (mem : uninitialised) (s : SdpInfo) : SdpInfo :=
  let i := with_credentials s (info (read_all mem s)) in
  i <| candidateVector_ ::= map (fill_candidate i) |>
    <| payloadVector := printed (hasAudio s) (map without_feedback (codecs_of s AUDIO_TYPE)) ++
                        printed (hasVideo s) (codecs_of s VIDEO_TYPE) |>.

Lemma feedbacks_done mem msid s :
  printable msid s ->
  let i := with_credentials s (info (read_all mem s)) in
  process_feedbacks (tmpFeedbackVector (read_all mem s)) (i <| candidateVector_ ::= map (fill_candidate i) |>) =
  Some (read_back mem s).
Proof.
  intros Hs. cbv zeta. unfold read_back. cbv zeta.
  pose proof (print_distinct _ _ Hs) as Hd. pose proof (print_codecs _ _ Hs) as Hok.
  rewrite <- (read_codec_audio s Hok).
  set (i := with_credentials s (info (read_all mem s))). set (j := i <| candidateVector_ ::= map (fill_candidate i) |>).
  assert (Hj : payloadVector j = payloadVector (info (read_all mem s)))
    by (unfold j, i, with_credentials; destruct (hasAudio s), (hasVideo s); reflexivity).
  clearbody j. clear i. unfold read_all in *. destruct (hasVideo s).
  - assert (Hv : forall c, tmpFeedbackVector (read_section mem VIDEO_TYPE (videoDirection s) s c) =
        tmpFeedbackVector c ++ concat (map feedback_lines (codecs_of s VIDEO_TYPE)) /\
      payloadVector (info (read_section mem VIDEO_TYPE (videoDirection s) s c)) =
        payloadVector (info c) ++ map (read_codec VIDEO_TYPE) (codecs_of s VIDEO_TYPE)) by (split; reflexivity).
    destruct (hasAudio s); cbn [printed];
      (rewrite (proj1 (Hv _)); rewrite (proj2 (Hv _)) in Hj).
    + change (tmpFeedbackVector (read_section mem AUDIO_TYPE _ s _)) with (@nil string). cbn [app].
      change (payloadVector (info (read_section mem AUDIO_TYPE _ s _))) with
        ([] ++ map (read_codec AUDIO_TYPE) (codecs_of s AUDIO_TYPE)) in Hj.
      apply (feedback_restored _ _ _ (Forall_list_filter _ _ _ Hok) (codecs_of_media VIDEO_TYPE s ltac:(discriminate)) Hj).
      cbn [app]. rewrite map_app, payload_read_codecs, <- map_app. apply NoDup_codecs; auto.
    + change (tmpFeedbackVector (read_session mem s)) with (@nil string). cbn [app].
      change (payloadVector (info (read_session mem s))) with (@nil RtpMap) in Hj.
      apply (feedback_restored [] _ _ (Forall_list_filter _ _ _ Hok) (codecs_of_media VIDEO_TYPE s ltac:(discriminate)) Hj).
      apply NoDup_codecs; auto.
  - cbn [printed]. rewrite app_nil_r. destruct (hasAudio s); cbn [printed].
    + change (tmpFeedbackVector (read_section mem AUDIO_TYPE _ s _)) with (@nil string).
      change (payloadVector (info (read_section mem AUDIO_TYPE _ s _))) with
        ([] ++ map (read_codec AUDIO_TYPE) (codecs_of s AUDIO_TYPE)) in Hj.
      cbn [process_feedbacks app] in *. rewrite <- Hj. destruct j. reflexivity.
    + change (payloadVector (info (read_session mem s))) with (@nil RtpMap) in Hj.
      change (tmpFeedbackVector (read_session mem s)) with (@nil string).
      cbn [process_feedbacks]. rewrite <- Hj. destruct j. reflexivity.
Qed.

(** A tag is in the section of its medium, if the tag has one. *)
Lemma section_tags msid s m b :
  printable msid s -> b ∈ bundleTags s -> m <> OTHER ->
  let present := match m with AUDIO_TYPE => hasAudio s | _ => hasVideo s end in
  BundleTag.id b ∈ printed present (map BundleTag.id (tags_of m s)) <-> BundleTag.mediaType b = m.
Proof.
  intros Hs Hb Hm. cbv zeta. pose proof (print_tags _ _ Hs) as (_ & _ & Hd).
  pose proof (print_tag_media _ _ Hs) as Hp. rewrite Forall_forall in Hp. specialize (Hp b Hb).
  pose proof (tags_of_elem m s b Hd Hb) as He. split.
  - intros H. assert (H' : of_media m (BundleTag.mediaType b) = true).
    { apply He. destruct (match m with AUDIO_TYPE => _ | _ => _ end); [exact H | inversion H]. }
    destruct m, (BundleTag.mediaType b); try reflexivity; try discriminate H'; congruence.
  - intros E. rewrite E in Hp, He. destruct m; [| |congruence]; rewrite Hp; apply He; reflexivity.
Qed.

Lemma tags_back mem msid s :
  printable msid s -> bundleTags (info (read_all mem s)) = printed (isBundle s) (bundleTags s).
Proof.
  intros Hs. pose proof (print_tags _ _ Hs) as (_ & _ & Hd).
  assert (E : bundleTags (info (read_all mem s)) =
    foldl (fun v id => map (mark id VIDEO_TYPE) v)
      (foldl (fun v id => map (mark id AUDIO_TYPE) v) (bundleTags (info (read_session mem s)))
         (printed (hasAudio s) (map BundleTag.id (tags_of AUDIO_TYPE s))))
      (printed (hasVideo s) (map BundleTag.id (tags_of VIDEO_TYPE s)))).
  { unfold read_all. destruct (hasAudio s), (hasVideo s); reflexivity. }
  rewrite E. change (bundleTags (info (read_session mem s))) with (if isBundle s
    then map (fun b => {| BundleTag.id := BundleTag.id b; BundleTag.mediaType := OTHER |}) (bundleTags s) else []).
  destruct (isBundle s); cbn [printed].
  - apply tags_restored; [assumption | |]; intros b Hb.
    + apply (section_tags msid s AUDIO_TYPE b Hs Hb). discriminate.
    + apply (section_tags msid s VIDEO_TYPE b Hs Hb). discriminate.
  - rewrite !marks_spec. reflexivity.
Qed.

Lemma reads_back_all mem msid s :
  printable msid s -> hasAudio s || hasVideo s = true -> reads_back mem s (read_back mem s).
Proof.
  intros Hs Hm. pose proof (tags_back mem msid s Hs) as Ht.
  assert (Hc : forall i, candidateVector_ i = candidateVector_ (info (read_all mem s)) ->
    candidateVector_ (info (read_all mem s)) =
    printed (hasAudio s) (map (read_candidate (cand_mem mem) AUDIO_TYPE) (candidates_of AUDIO_TYPE s)) ++
    printed (hasVideo s) (map (read_candidate (cand_mem mem) VIDEO_TYPE) (candidates_of VIDEO_TYPE s))).
  { intros _ _. unfold read_all. destruct (hasAudio s), (hasVideo s); cbn [printed]; rewrite ?app_nil_r; reflexivity. }
  specialize (Hc _ eq_refl). split.
  - unfold read_back, with_credentials, read_all. destruct (hasAudio s), (hasVideo s); try discriminate Hm; reflexivity.
  - unfold read_back, with_credentials, read_all. destruct (hasAudio s), (hasVideo s); try discriminate Hm;
      simpl; destruct (isRtcpMux s), (isFingerprint s); reflexivity.
  - intros Hf. unfold read_back, with_credentials, read_all.
    destruct (hasAudio s), (hasVideo s); try discriminate Hm; simpl; rewrite Hf; reflexivity.
  - intros Ha. unfold read_back, with_credentials, read_all. rewrite Ha. destruct (hasVideo s); reflexivity.
  - intros Hv. unfold read_back, with_credentials, read_all. rewrite Hv. destruct (hasAudio s); reflexivity.
  - reflexivity.
  - rewrite <- Ht. unfold read_back, with_credentials. destruct (hasAudio s), (hasVideo s); reflexivity.
  - unfold read_back, with_credentials, read_all.
    destruct (hasAudio s), (hasVideo s); cbn [printed]; rewrite ?app_nil_r; reflexivity.
  - unfold read_back, with_credentials, read_all.
    destruct (hasAudio s), (hasVideo s); cbn [printed]; rewrite ?app_nil_r; reflexivity.
  - rewrite <- Hc. unfold read_back. set (i := with_credentials s (info (read_all mem s))).
    assert (Hi : candidateVector_ i = candidateVector_ (info (read_all mem s)))
      by (unfold i, with_credentials; destruct (hasAudio s), (hasVideo s); reflexivity).
    rewrite <- Hi. reflexivity.
Qed.

(** C5. What the printer writes of a session with audio or video, the parser accepts, and the
    object read into has the media, directions, SSRCs, credentials, fingerprint, codecs
    with their parameters (and, for video, their feedback), bundle tags, keys and
    candidates of the printed one; extension URIs come back without their last
    character, keys without their tag, audio codecs without their feedback. *)
Theorem sdp_roundtrip mem rnd s :
  printable (gen_random rnd) s -> hasAudio s || hasVideo s = true ->
  exists text s' t, getSdp rnd s = Some (text, s') /\
    processSdp mem text "" (SdpInfo_ctor mem) = Some (true, t) /\ reads_back mem s t.
Proof.
  intros Hs Hm. destruct (sdp_text rnd s Hs) as [s' Htext].
  destruct (runs_all mem _ s Hs) as [Hr Hl].
  exists (unlines (sdp_lines (gen_random rnd) s)), s', (read_back mem s).
  split; [exact Htext|]. split; [|eapply reads_back_all; eassumption].
  rewrite (finish mem _ _ _ _ (getlines_unlines _ Hl) Hr (credentials_filled mem _ s Hs Hm)).
  rewrite (feedbacks_done mem _ s Hs). reflexivity.
Qed.

(** ** A concrete session *)

Definition sample_codecs : list RtpMap :=
  [{| RtpMap.payloadType := 96; RtpMap.encodingName := "VP8"; RtpMap.clockRate := 90000;
      RtpMap.mediaType := VIDEO_TYPE; RtpMap.channels := 1; RtpMap.feedbackTypes := ["ccm fir"; "nack"];
      RtpMap.formatParameters := [("max-fs", "3600"); ("none", "x")] |};
   {| RtpMap.payloadType := 0; RtpMap.encodingName := "PCMU"; RtpMap.clockRate := 8000;
      RtpMap.mediaType := AUDIO_TYPE; RtpMap.channels := 1; RtpMap.feedbackTypes := [];
      RtpMap.formatParameters := [] |}].

Definition sample_candidate : CandidateInfo :=
  {| CandidateInfo.isBundle := true; CandidateInfo.tag := 0; CandidateInfo.priority := 2130706432;
     CandidateInfo.componentId := 1; CandidateInfo.foundation := "1367"; CandidateInfo.hostAddress := "138.4.4.1";
     CandidateInfo.rAddress := "10.0.0.1"; CandidateInfo.hostPort := 49462; CandidateInfo.rPort := 53531;
     CandidateInfo.netProtocol := "udp"; CandidateInfo.hostType := RELAY; CandidateInfo.transProtocol := "";
     CandidateInfo.username := "u"; CandidateInfo.password := "p"; CandidateInfo.mediaType := VIDEO_TYPE |}.

Definition sample_session : SdpInfo :=
  (setCredentials "user" "pass" OTHER (createOfferSdp true true (SdpInfo_ctor sample_mem)))
    <| payloadVector := sample_codecs |> <| candidateVector_ := [sample_candidate] |>
    <| isFingerprint := true |> <| fingerprint := "AB:CD:EF" |>
    <| extMapVector := [{| ExtMap.value := 1; ExtMap.uri := "urn:ietf:params:level"; ExtMap.direction := SENDRECV;
                           ExtMap.parameters := ""; ExtMap.mediaType := AUDIO_TYPE |}] |>
    <| bundleTags := [{| BundleTag.id := "audio"; BundleTag.mediaType := AUDIO_TYPE |};
                      {| BundleTag.id := "video"; BundleTag.mediaType := VIDEO_TYPE |}] |>.

Definition sample_rnd : list Z := [83; 14; 62; 7; 99; 41; 0; 61; 15; 3].

Ltac token_ok := split; [discriminate | reflexivity].

Lemma sample_printable : printable (gen_random sample_rnd) sample_session.
Proof.
  split.
  - split; [discriminate | reflexivity].
  - reflexivity.
  - split; [repeat constructor; discriminate|]. split; [simpl; lia|]. apply (bool_decide_unpack _). reflexivity.
  - repeat constructor.
  - repeat constructor; discriminate.
  - intros _. split; [token_ok | reflexivity].
  - split; [simpl; lia|]. repeat constructor; (discriminate || reflexivity || unfold in_width; simpl; lia).
  - constructor.
  - repeat constructor; (discriminate || reflexivity || unfold in_width; simpl; lia).
  - repeat constructor; simpl; try (discriminate || reflexivity || unfold in_width; simpl; lia);
      try (eexists; reflexivity).
  - apply (bool_decide_unpack _). reflexivity.
  - repeat constructor; unfold in_width; simpl; lia.
Qed.

Lemma sdp_roundtrip_witness :
  length (payloadVector sample_session) = 2%nat /\
  exists text s' t, getSdp sample_rnd sample_session = Some (text, s') /\
    processSdp sample_mem text "" (SdpInfo_ctor sample_mem) = Some (true, t) /\ reads_back sample_mem sample_session t.
Proof.
  split; [reflexivity|]. apply (sdp_roundtrip sample_mem sample_rnd sample_session sample_printable). reflexivity.
Defined.
