(* ===== verification/NiceConnection.v ===== *)
(** * NiceConnection: the ICE connection of a transport (src/Src/media/NiceConnection.cpp, .h)

    The object as a record; a pointer the code only compares with [NULL] is a [bool].
    libnice is not part of the repository: what the code asks of it is the list of
    [effect]s an operation returns, what it answers is an argument.  The listener is
    called through the same list ([Notify], [Deliver]), in the order of the source, where
    every call of [updateIceState] on the listener is the last action of its operation.
    [None] is an exception that is not caught or undefined behaviour: [close] joins a
    thread that is not joinable, [queueData] copies past the 1500 bytes of a packet.

    The theorems: the states told to the listener, the packets queued, the candidates
    delivered, and what becomes of an object that is closed twice. *)

From Stdlib Require Import Ascii String Sorting.Sorted.
From S2P Require Import Prelude Bytes MediaDefinitions Rtcp Text SdpInfo.
Local Open Scope string_scope.
Local Open Scope list_scope.
Local Open Scope Z_scope.

(** ** The object *)

Inductive IceState :=
  NICE_INITIAL | NICE_CANDIDATES_RECEIVED | NICE_READY | NICE_FINISHED | NICE_FAILED.

#[export] Instance IceState_eq_dec : EqDecision IceState.
Proof. solve_decision. Defined.

(** The value of the enumerator. *)
Definition ice_num (s : IceState) : Z :=
  match s with
  | NICE_INITIAL => 0 | NICE_CANDIDATES_RECEIVED => 1 | NICE_READY => 2
  | NICE_FINISHED => 3 | NICE_FAILED => 4
  end.

Record IceConfig := {
  turnServer : string; turnUsername : string; turnPass : string;
  stunServer : string;
  stunPort : Z; turnPort : Z; minPort : Z; maxPort : Z;
  shouldTrickle : bool
}.

Definition IceConfig_ctor : IceConfig :=
  {| turnServer := ""; turnUsername := ""; turnPass := ""; stunServer := "";
     stunPort := 0; turnPort := 0; minPort := 0; maxPort := 0; shouldTrickle := false |}.

Inductive NiceCandidateType :=
  | NICE_CANDIDATE_TYPE_HOST | NICE_CANDIDATE_TYPE_SERVER_REFLEXIVE
  | NICE_CANDIDATE_TYPE_PEER_REFLEXIVE | NICE_CANDIDATE_TYPE_RELAYED.

(** What the code reads and writes of libnice's candidates; an address is its text and port. *)
Record NiceCandidate := {
  cand_type : NiceCandidateType;
  addr : string * Z;
  base_addr : option (string * Z);
  priority : Z;
  stream_id : Z;
  component_id : Z;
  foundation : string;
  username : string;
  password : string
}.

(** The calls of libnice and its main loop. *)
Inductive nice_call :=
  | set_property_bool (name : string) (v : bool)
  | set_property_uint (name : string) (v : Z)
  | set_property_string (name : string) (v : string)
  | add_stream (n : Z)
  | set_remote_credentials (stream : Z) (ufrag pwd : string)
  | set_port_range (stream component min max : Z)
  | set_relay_info (stream component : Z) (server : string) (port : Z) (user pass : string)
  | attach_recv (stream component : Z)
  | gather_candidates (stream : Z)
  | set_remote_candidates (stream component : Z) (cands : list NiceCandidate)
  | send (stream component len : Z) (buf : list Z)
  | loop_quit | loop_unref | agent_unref | context_unref.

Inductive effect :=
  | Nice (c : nice_call)
  | Notify (s : IceState)
  | Deliver (cand : CandidateInfo.CandidateInfo).

Record NiceConnection := {
  mediaType : MediaType;
  transportName : string;
  agent_ : bool;
  context_ : bool;
  loop_ : bool;
  listener_ : bool;
  niceQueue_ : list dataPacket;
  candsDelivered_ : Z;
  iceState_ : IceState;
  m_Thread_ : bool;
  iceComponents_ : Z;
  comp_state_list_ : gmap Z IceState;
  ufrag_ : string; upass_ : string; username_ : string; password_ : string;
  iceConfig_ : IceConfig;
  receivedLastCandidate_ : bool
}.

#[export] Instance eta_NiceConnection : Eta NiceConnection := fun c =>
  {| mediaType := mediaType c; transportName := transportName c; agent_ := agent_ c;
     context_ := context_ c; loop_ := loop_ c; listener_ := listener_ c; niceQueue_ := niceQueue_ c;
     candsDelivered_ := candsDelivered_ c; iceState_ := iceState_ c; m_Thread_ := m_Thread_ c;
     iceComponents_ := iceComponents_ c; comp_state_list_ := comp_state_list_ c; ufrag_ := ufrag_ c;
     upass_ := upass_ c; username_ := username_ c; password_ := password_ c;
     iceConfig_ := iceConfig_ c; receivedLastCandidate_ := receivedLastCandidate_ c |}.

(** [for (unsigned int i = 1; i <= iceComponents_; i++)]. *)
Definition components (n : Z) : list Z := seqZ 1 n.

(** The constructor; it leaves [context_] as it was in [mem]. *)
Definition NiceConnection_ctor (mem : bool) (med : MediaType) (transport_name : string) (listener : bool)
    (iceComponents : Z) (iceConfig : IceConfig) (username password : string) : NiceConnection :=
  {| mediaType := med; transportName := transport_name; agent_ := false; context_ := mem;
     loop_ := false; listener_ := listener; niceQueue_ := []; candsDelivered_ := 0;
     iceState_ := NICE_INITIAL; m_Thread_ := false; iceComponents_ := iceComponents;
     comp_state_list_ := foldl (fun m i => <[i := NICE_INITIAL]> m) ∅ (components iceComponents);
     ufrag_ := ""; upass_ := ""; username_ := username; password_ := password;
     iceConfig_ := iceConfig; receivedLastCandidate_ := false |}.

(** ** The state of the connection *)

Definition checkIceState (c : NiceConnection) : IceState := iceState_ c.

Definition setNiceListener (listener : bool) (c : NiceConnection) : NiceConnection :=
  c <| listener_ := listener |>.

Definition updateIceState (state : IceState) (c : NiceConnection) : NiceConnection * list effect :=
  if ice_num state <=? ice_num (iceState_ c) then (c, []) else
  let c := c <| iceState_ := state |> in
  match state with
  | NICE_FINISHED => (c, [])
  | _ => (c, if listener_ c then [Notify state] else [])
  end.

(** Looks at [comp_state_list_[i]] for the given [i] until one is not [state]; reading a
    [std::map] inserts a missing key. *)
Fixpoint all_components (state : IceState) (ids : list Z) (m : gmap Z IceState) : bool * gmap Z IceState :=
  match ids with
  | [] => (true, m)
  | i :: ids =>
    let x := default NICE_INITIAL (m !! i) in
    let m := <[i := x]> m in
    if decide (x = state) then all_components state ids m else (false, m)
  end.

Definition updateComponentState (compId : Z) (state : IceState) (c : NiceConnection)
    : NiceConnection * list effect :=
  let c := c <| comp_state_list_ ::= <[compId := state]> |> in
  let when_all :=
    let '(all, m) := all_components state (components (iceComponents_ c)) (comp_state_list_ c) in
    let c := c <| comp_state_list_ := m |> in
    if all : bool then updateIceState state c else (c, []) in
  match state with
  | NICE_READY => when_all
  | NICE_FAILED => if receivedLastCandidate_ c then when_all else (c, [])
  | _ => updateIceState state c
  end.

Definition gatheringDone (c : NiceConnection) : NiceConnection * list effect :=
  updateIceState NICE_CANDIDATES_RECEIVED c.

Definition setReceivedLastCandidate (hasReceived : bool) (c : NiceConnection) : NiceConnection :=
  c <| receivedLastCandidate_ := hasReceived |>.

(** libnice's states of a component; the callbacks use two of them. *)
Inductive NiceComponentState :=
  | NICE_COMPONENT_STATE_CONNECTED | NICE_COMPONENT_STATE_FAILED | NICE_COMPONENT_STATE_OTHER.

Definition cb_component_state_changed (component_id : Z) (state : NiceComponentState) (c : NiceConnection)
    : NiceConnection * list effect :=
  match state with
  | NICE_COMPONENT_STATE_FAILED => updateComponentState component_id NICE_FAILED c
  | _ => (c, [])
  end.

Definition cb_new_selected_pair (component_id : Z) (c : NiceConnection) : NiceConnection * list effect :=
  updateComponentState component_id NICE_READY c.

(** ** Start and close *)

Definition setRemoteCredentials (username password : string) (c : NiceConnection)
    : NiceConnection * list effect :=
  (c, [Nice (set_remote_credentials 1 username password)]).

(** [creds] is what [nice_agent_get_local_credentials] answers. *)
Definition start (creds : string * string) (c : NiceConnection) : NiceConnection * list effect :=
  if decide (iceState_ c = NICE_INITIAL) then
    let cfg := iceConfig_ c in
    (c <| context_ := true |> <| agent_ := true |> <| loop_ := true |> <| m_Thread_ := true |>
       <| ufrag_ := creds.1 |> <| upass_ := creds.2 |>,
     map Nice (
       [set_property_bool "controlling-mode" false; set_property_uint "max-connectivity-checks" 100]
       ++ (if negb (String.eqb (stunServer cfg) "") && negb (stunPort cfg =? 0)
           then [set_property_string "stun-server" (stunServer cfg);
                 set_property_uint "stun-server-port" (stunPort cfg)] else [])
       ++ [add_stream (iceComponents_ c)]
       ++ (if negb (String.eqb (username_ c) "") && negb (String.eqb (password_ c) "")
           then [set_remote_credentials 1 (username_ c) (password_ c)] else [])
       ++ (if negb (minPort cfg =? 0) && negb (maxPort cfg =? 0)
           then [set_port_range 1 1 (minPort cfg) (maxPort cfg)] else [])
       ++ (if negb (String.eqb (turnServer cfg) "") && negb (turnPort cfg =? 0)
           then map (fun i => set_relay_info 1 i (turnServer cfg) (turnPort cfg)
                                (turnUsername cfg) (turnPass cfg)) (components (iceComponents_ c))
           else [])
       ++ map (attach_recv 1) (components (iceComponents_ c))
       ++ [gather_candidates 1]))
  else (c, []).

Definition close (c : NiceConnection) : option (NiceConnection * list effect) :=
  if decide (iceState_ c = NICE_FINISHED) then Some (c, []) else
  let '(c, out) := updateIceState NICE_FINISHED c in
  let quit := if loop_ c then [Nice loop_quit; Nice loop_unref] else [] in
  let c := c <| loop_ := false |> <| listener_ := false |> in
  if m_Thread_ c then
    let unref := (if agent_ c then [Nice agent_unref] else [])
                 ++ (if context_ c then [Nice context_unref] else []) in
    Some (c <| m_Thread_ := false |> <| agent_ := false |> <| context_ := false |>,
          out ++ quit ++ unref)
  else None.

(** The destructor. *)
Definition NiceConnection_dtor (c : NiceConnection) : option unit :=
  _ ← close c; Some tt.

(** ** Packets in and out *)

Definition queueData (component_id : Z) (buf : list Z) (len : Z) (c : NiceConnection)
    : option NiceConnection :=
  if decide (checkIceState c = NICE_READY) then
    if Z.of_nat (List.length (niceQueue_ c)) <? 1000 then
      p ← copy_in buf len new_dataPacket;
      Some (c <| niceQueue_ ::= fun q => q ++ [p <| comp := component_id |> <| length_ := len |>] |>)
    else Some c
  else Some c.

(** [connected] is [user_data != NULL]. *)
Definition cb_nice_recv (connected : bool) (component_id len : Z) (buf : list Z) (c : NiceConnection)
    : option NiceConnection :=
  if negb connected || (len =? 0) then Some c else queueData component_id buf (to_signed 32 len) c.

(** [getPacket] blocks on the event while the queue is empty: [wakeups] are the states of
    the object each time the wait returns, [None] is a call that still waits. *)
Fixpoint getPacket (c : NiceConnection) (wakeups : list NiceConnection)
    : option (dataPacket * NiceConnection) :=
  match niceQueue_ c with
  | p :: q => Some (p, c <| niceQueue_ := q |>)
  | [] =>
    match wakeups with
    | [] => None
    | c :: wakeups =>
      if ice_num NICE_FINISHED <=? ice_num (checkIceState c)
      then Some (new_dataPacket <| length_ := -1 |>, c)
      else getPacket c wakeups
    end
  end.

(** [sent] is the answer of [nice_agent_send]. *)
Definition sendData (sent : Z) (compId : Z) (buf : list Z) (len : Z) (c : NiceConnection)
    : Z * list effect :=
  if decide (checkIceState c = NICE_READY) then (sent, [Nice (send 1 compId len buf)]) else (-1, []).

(** ** Candidates *)

Definition nice_type (h : HostType) : NiceCandidateType :=
  match h with
  | HOST => NICE_CANDIDATE_TYPE_HOST
  | SRFLX => NICE_CANDIDATE_TYPE_SERVER_REFLEXIVE
  | PRFLX => NICE_CANDIDATE_TYPE_PEER_REFLEXIVE
  | RELAY => NICE_CANDIDATE_TYPE_RELAYED
  end.

(** The candidates of the loop that are not skipped. *)
Definition accepted (mediaType : MediaType) (isBundle : bool) (cinfo : CandidateInfo.CandidateInfo) : bool :=
  (CandidateInfo.componentId cinfo =? 1)
  && (isBundle || bool_decide (CandidateInfo.mediaType cinfo = mediaType))
  && negb (CandidateInfo.hostPort cinfo =? 0).

Definition remote_candidate (cinfo : CandidateInfo.CandidateInfo) : NiceCandidate :=
  {| cand_type := nice_type (CandidateInfo.hostType cinfo);
     addr := (CandidateInfo.hostAddress cinfo, CandidateInfo.hostPort cinfo);
     base_addr := match CandidateInfo.hostType cinfo with
                  | RELAY | SRFLX => Some (CandidateInfo.rAddress cinfo, CandidateInfo.rPort cinfo)
                  | _ => None
                  end;
     priority := CandidateInfo.priority cinfo;
     stream_id := 1;
     component_id := CandidateInfo.componentId cinfo;
     foundation := "";
     username := c_str (CandidateInfo.username cinfo);
     password := c_str (CandidateInfo.password cinfo) |}.

(** The loop prepends to [candList]. *)
Definition remote_list (mediaType : MediaType) (isBundle : bool) (candidates : list CandidateInfo.CandidateInfo)
    : list NiceCandidate :=
  foldl (fun candList cinfo =>
           if accepted mediaType isBundle cinfo then remote_candidate cinfo :: candList else candList)
        [] candidates.

Definition setRemoteCandidates (candidates : list CandidateInfo.CandidateInfo) (isBundle : bool)
    (c : NiceConnection) : option (bool * NiceConnection * list effect) :=
  if agent_ c then
    Some (true, c, [Nice (set_remote_candidates 1 1 (remote_list (mediaType c) isBundle candidates))])
  else
    '(c, out) ← close c;
    Some (false, c, out).

(** [mem] is what the constructor of [CandidateInfo] leaves uninitialised; a local
    candidate has a base address. *)
Definition local_candidate (mem : CandidateInfo.CandidateInfo) (c : NiceConnection) (cand : NiceCandidate)
    : CandidateInfo.CandidateInfo :=
  let base := default ("", 0) (base_addr cand) in
  let info :=
    mem <| CandidateInfo.tag := 0 |>
        <| CandidateInfo.rAddress := "" |>
        <| CandidateInfo.componentId := component_id cand |>
        <| CandidateInfo.foundation := foundation cand |>
        <| CandidateInfo.priority := priority cand |>
        <| CandidateInfo.hostAddress := (addr cand).1 |>
        <| CandidateInfo.hostPort := (addr cand).2 |>
        <| CandidateInfo.mediaType := mediaType c |> in
  let info :=
    match cand_type cand with
    | NICE_CANDIDATE_TYPE_HOST => info <| CandidateInfo.hostType := HOST |>
    | NICE_CANDIDATE_TYPE_SERVER_REFLEXIVE =>
      info <| CandidateInfo.hostType := SRFLX |>
           <| CandidateInfo.rAddress := base.1 |> <| CandidateInfo.rPort := base.2 |>
    | NICE_CANDIDATE_TYPE_PEER_REFLEXIVE => info <| CandidateInfo.hostType := PRFLX |>
    | NICE_CANDIDATE_TYPE_RELAYED =>
      info <| CandidateInfo.hostType := RELAY |>
           <| CandidateInfo.rAddress := base.1 |> <| CandidateInfo.rPort := base.2 |>
    end in
  info <| CandidateInfo.netProtocol := "udp" |>
       <| CandidateInfo.transProtocol := transportName c |>
       <| CandidateInfo.username := ufrag_ c |>
       <| CandidateInfo.password := upass_ c |>.

Definition is_ipv6 (cand : NiceCandidate) : bool := has ":" (addr cand).1.

(** The loop over the list: each candidate is counted, IPv6 ones are not delivered. *)
Definition deliver_one (mem : CandidateInfo.CandidateInfo) (s : NiceConnection * list effect)
    (cand : NiceCandidate) : NiceConnection * list effect :=
  let '(c, out) := s in
  let c := c <| candsDelivered_ ::= fun n => u32 (n + 1) |> in
  if is_ipv6 cand then (c, out)
  else if listener_ c then (c, out ++ [Deliver (local_candidate mem c cand)]) else (c, out).

(** [lcands] is the list [nice_agent_get_local_candidates] answers for the component. *)
Definition getCandidate (mem : CandidateInfo.CandidateInfo) (lcands : list NiceCandidate) (c : NiceConnection)
    : NiceConnection * list effect :=
  let lcands :=
    if candsDelivered_ c <=? Z.of_nat (List.length lcands)
    then drop (Z.to_nat (candsDelivered_ c)) lcands else lcands in
  foldl (deliver_one mem) (c, []) lcands.

(** ** Sequences of operations *)

(** What libnice's callbacks and the transport do to the object once it exists. *)
Inductive nice_op :=
  | op_start (creds : string * string)
  | op_gathering_done
  | op_candidates (lcands : list NiceCandidate)
  | op_component_state (component_id : Z) (state : NiceComponentState)
  | op_selected_pair (component_id : Z)
  | op_last_candidate (hasReceived : bool)
  | op_remote (candidates : list CandidateInfo.CandidateInfo) (isBundle : bool)
  | op_recv (component_id len : Z) (buf : list Z)
  | op_listener (listener : bool)
  | op_close.

Definition run_op (mem : CandidateInfo.CandidateInfo) (op : nice_op) (c : NiceConnection)
    : option (NiceConnection * list effect) :=
  match op with
  | op_start creds => Some (start creds c)
  | op_gathering_done => Some (gatheringDone c)
  | op_candidates lcands => Some (getCandidate mem lcands c)
  | op_component_state i s => Some (cb_component_state_changed i s c)
  | op_selected_pair i => Some (cb_new_selected_pair i c)
  | op_last_candidate b => Some (setReceivedLastCandidate b c, [])
  | op_remote candidates isBundle => '(_, c, out) ← setRemoteCandidates candidates isBundle c; Some (c, out)
  | op_recv i len buf => c ← cb_nice_recv true i len buf c; Some (c, [])
  | op_listener b => Some (setNiceListener b c, [])
  | op_close => close c
  end.

Fixpoint run_ops (mem : CandidateInfo.CandidateInfo) (ops : list nice_op) (c : NiceConnection)
    : option (NiceConnection * list effect) :=
  match ops with
  | [] => Some (c, [])
  | op :: ops =>
    '(c, out) ← run_op mem op c;
    '(c, out') ← run_ops mem ops c;
    Some (c, out ++ out')
  end.

(** The states told to the listener. *)
Definition notified (out : list effect) : list IceState :=
  omap (fun e => match e with Notify s => Some s | _ => None end) out.

Lemma notified_app a b : notified (a ++ b) = notified a ++ notified b.
Proof. apply omap_app. Qed.

(** [comp_state_list_[i]] as the code reads it. *)
Definition entry (m : gmap Z IceState) (i : Z) : IceState := default NICE_INITIAL (m !! i).

Lemma entry_insert m i s j : entry (<[i := s]> m) j = if decide (i = j) then s else entry m j.
Proof.
  unfold entry. destruct (decide (i = j)) as [->|H];
    [rewrite lookup_insert_eq | rewrite lookup_insert_ne by exact H]; reflexivity.
Qed.

Lemma all_components_spec state ids m all m' :
  all_components state ids m = (all, m') ->
  (forall i, entry m' i = entry m i) /\ (all = true -> Forall (fun i => entry m i = state) ids).
Proof.
  revert m. induction ids as [|i ids IH]; intros m E; simpl in E.
  - injection E as <- <-. split; [reflexivity | constructor].
  - assert (Hm : forall j, entry (<[i := entry m i]> m) j = entry m j).
    { intros j. rewrite entry_insert. destruct (decide (i = j)) as [->|]; reflexivity. }
    change (default NICE_INITIAL (m !! i)) with (entry m i) in E.
    destruct (decide (entry m i = state)) as [Hi|Hi].
    + apply IH in E as [E1 E2]. split; [intros j; rewrite E1; apply Hm|].
      intros Ha. constructor; [exact Hi|]. eapply Forall_impl; [exact (E2 Ha)|].
      intros j Hj. rewrite <- Hm. exact Hj.
    + injection E as <- <-. split; [exact Hm | discriminate].
Qed.

(** What every operation does to the state and tells of it: nothing new, or one higher
    state.  The components entries and the flag are explained by [ops], the operations so
    far. *)
Definition told (c c' : NiceConnection) (out : list effect) : Prop :=
  (iceState_ c' = iceState_ c /\ notified out = [])
  \/ (ice_num (iceState_ c) < ice_num (iceState_ c')
      /\ ((iceState_ c' = NICE_FINISHED /\ notified out = [])
          \/ (iceState_ c' <> NICE_FINISHED /\ (notified out = [] \/ notified out = [iceState_ c'])))).

Record explained (n : Z) (ops : list nice_op) (c : NiceConnection) : Prop := {
  exp_components : iceComponents_ c = n;
  exp_ready : forall i, entry (comp_state_list_ c) i = NICE_READY -> op_selected_pair i ∈ ops;
  exp_failed : forall i, entry (comp_state_list_ c) i = NICE_FAILED ->
    op_component_state i NICE_COMPONENT_STATE_FAILED ∈ ops;
  exp_last : receivedLastCandidate_ c = true -> op_last_candidate true ∈ ops
}.

(** Why a state may be told. *)
Definition justified (n : Z) (ops : list nice_op) (s : IceState) : Prop :=
  match s with
  | NICE_CANDIDATES_RECEIVED => op_gathering_done ∈ ops
  | NICE_READY => forall i, 1 <= i <= n -> op_selected_pair i ∈ ops
  | NICE_FAILED => op_last_candidate true ∈ ops
      /\ forall i, 1 <= i <= n -> op_component_state i NICE_COMPONENT_STATE_FAILED ∈ ops
  | _ => False
  end.

(** The members the explanation is about. *)
Definition core (c : NiceConnection) := (iceComponents_ c, comp_state_list_ c, receivedLastCandidate_ c).

Lemma explained_mono n ops ops' c c' :
  core c' = core c -> ops ⊆ ops' -> explained n ops c -> explained n ops' c'.
Proof.
  unfold core. intros E Hs []. injection E as E1 E2 E3.
  split; [congruence|rewrite E2|rewrite E2|rewrite E3]; eauto.
Qed.

Lemma explained_more n ops op c : explained n ops c -> explained n (ops ++ [op]) c.
Proof. apply explained_mono; [reflexivity | set_solver]. Qed.

Lemma updateIceState_told s c c' out :
  updateIceState s c = (c', out) ->
  core c' = core c /\ told c c' out /\ Forall (eq s) (notified out).
Proof.
  unfold updateIceState, told. intros E. destruct (Z.leb_spec (ice_num s) (ice_num (iceState_ c))).
  - injection E as <- <-. repeat split; [left; auto | constructor].
  - destruct s; injection E as <- <-; simpl;
      (split; [reflexivity|]; split; [right; split; [assumption|] |];
       [first [left; split; reflexivity | right; split; [discriminate|]; destruct (listener_ c); auto] |
        destruct (listener_ c); repeat constructor]).
Qed.

(** [updateComponentState] when the state asks for all components to agree. *)
Lemma when_all_told n ops s c c' out :
  explained n ops c ->
  (let '(all, m) := all_components s (components (iceComponents_ c)) (comp_state_list_ c) in
   let c := c <| comp_state_list_ := m |> in
   if all : bool then updateIceState s c else (c, [])) = (c', out) ->
  explained n ops c' /\ told c c' out /\ Forall (eq s) (notified out)
  /\ (notified out <> [] -> forall i, 1 <= i <= n -> entry (comp_state_list_ c) i = s).
Proof.
  intros Hc E. destruct (all_components _ _ _) as [all m] eqn:Ea.
  apply all_components_spec in Ea as [Em Hall]. cbv zeta in E.
  assert (Hc' : explained n ops (c <| comp_state_list_ := m |>)).
  { destruct Hc as [H1 H2 H3 H4]. split; simpl; [exact H1| | |exact H4];
      intros i Hi; rewrite Em in Hi; eauto. }
  destruct all.
  - apply updateIceState_told in E as (Hcore & Ht & Hs). split_and!; [|exact Ht|exact Hs|].
    + eapply explained_mono; [exact Hcore | reflexivity | exact Hc'].
    + intros _ i Hi. specialize (Hall eq_refl). rewrite Forall_forall in Hall. apply Hall.
      rewrite (exp_components _ _ _ Hc). apply elem_of_seqZ. lia.
  - injection E as <- <-. split_and!; [exact Hc' | left; split; reflexivity | constructor | ].
    intros H. contradiction (H eq_refl).
Qed.

Definition step_spec (n : Z) (ops : list nice_op) (op : nice_op) (c c' : NiceConnection)
    (out : list effect) : Prop :=
  explained n (ops ++ [op]) c' /\ told c c' out /\ Forall (justified n (ops ++ [op])) (notified out).

Lemma step_quiet n ops op c c' out :
  explained n ops c -> core c' = core c -> iceState_ c' = iceState_ c -> notified out = [] ->
  step_spec n ops op c c' out.
Proof.
  intros Hc Hcore Hs Hn. split_and!.
  - eapply explained_mono; [exact Hcore | | exact Hc]. set_solver.
  - left. auto.
  - rewrite Hn. constructor.
Qed.

Lemma step_updated n ops op c c' out s :
  explained n (ops ++ [op]) c' -> told c c' out -> Forall (eq s) (notified out) ->
  (notified out <> [] -> justified n (ops ++ [op]) s) -> step_spec n ops op c c' out.
Proof.
  intros Hc Ht Hs Hj. split_and!; [exact Hc | exact Ht |].
  destruct (notified out) as [|x l] eqn:E; [constructor|].
  eapply Forall_impl; [exact Hs|]. intros y <-. apply Hj. discriminate.
Qed.

Lemma told_change c1 c c' out : iceState_ c1 = iceState_ c -> told c1 c' out -> told c c' out.
Proof. unfold told. intros ->. auto. Qed.

Lemma step_pair n ops i c c' out :
  explained n ops c -> cb_new_selected_pair i c = (c', out) ->
  step_spec n ops (op_selected_pair i) c c' out.
Proof.
  intros Hc E. unfold cb_new_selected_pair, updateComponentState in E. cbv zeta in E.
  set (c1 := c <| comp_state_list_ ::= <[i := NICE_READY]> |>) in E.
  assert (Hc1 : explained n (ops ++ [op_selected_pair i]) c1).
  { destruct Hc as [H1 H2 H3 H4].
    split; simpl; [exact H1 | intros j Hj | intros j Hj | intros; apply elem_of_app; auto];
      rewrite entry_insert in Hj; apply elem_of_app;
      (destruct (decide (i = j)) as [->|]; [|auto]).
    - right. apply list_elem_of_singleton. reflexivity.
    - discriminate. }
  apply (when_all_told _ _ _ _ _ _ Hc1) in E as (Hc' & Ht & Hs & Hall).
  apply step_updated with NICE_READY; [exact Hc' | eapply told_change; [|exact Ht]; reflexivity | exact Hs |].
  intros Hn j Hj. apply (exp_ready _ _ _ Hc1), (Hall Hn j Hj).
Qed.

Lemma step_failed n ops i c c' out :
  explained n ops c -> updateComponentState i NICE_FAILED c = (c', out) ->
  step_spec n ops (op_component_state i NICE_COMPONENT_STATE_FAILED) c c' out.
Proof.
  intros Hc E. unfold updateComponentState in E. cbv zeta in E.
  set (c1 := c <| comp_state_list_ ::= <[i := NICE_FAILED]> |>) in E.
  assert (Hc1 : explained n (ops ++ [op_component_state i NICE_COMPONENT_STATE_FAILED]) c1).
  { destruct Hc as [H1 H2 H3 H4].
    split; simpl; [exact H1 | intros j Hj | intros j Hj | intros; apply elem_of_app; auto];
      rewrite entry_insert in Hj; apply elem_of_app;
      (destruct (decide (i = j)) as [->|]; [|auto]).
    - discriminate.
    - right. apply list_elem_of_singleton. reflexivity. }
  destruct (receivedLastCandidate_ c1) eqn:Hl.
  - apply (when_all_told _ _ _ _ _ _ Hc1) in E as (Hc' & Ht & Hs & Hall).
    apply step_updated with NICE_FAILED;
      [exact Hc' | eapply told_change; [|exact Ht]; reflexivity | exact Hs |].
    intros Hn. split; [exact (exp_last _ _ _ Hc1 Hl)|].
    intros j Hj. apply (exp_failed _ _ _ Hc1), (Hall Hn j Hj).
  - injection E as <- <-. split_and!; [exact Hc1 | left; split; reflexivity | constructor].
Qed.

Lemma deliver_quiet mem lcands s :
  let s' := foldl (deliver_one mem) s lcands in
  core s'.1 = core s.1 /\ iceState_ s'.1 = iceState_ s.1 /\ notified s'.2 = notified s.2.
Proof.
  cbv zeta. revert s. induction lcands as [|cand lcands IH]; intros [c out]; [auto|].
  cbn [foldl]. destruct (IH (deliver_one mem (c, out) cand)) as (-> & -> & ->).
  unfold deliver_one. destruct (is_ipv6 cand); [auto|]. simpl.
  destruct (listener_ c); [|auto]. simpl. rewrite notified_app, app_nil_r. auto.
Qed.

(** What the second half of [close] leaves. *)
Definition closed (c : NiceConnection) : Prop :=
  m_Thread_ c = false /\ agent_ c = false /\ context_ c = false /\ loop_ c = false /\ listener_ c = false.

Lemma close_spec c c' out :
  close c = Some (c', out) ->
  core c' = core c /\ notified out = []
  /\ iceState_ c' = (if decide (iceState_ c = NICE_FAILED) then NICE_FAILED else NICE_FINISHED)
  /\ (iceState_ c <> NICE_FINISHED -> closed c').
Proof.
  unfold close, updateIceState, closed. destruct (iceState_ c) eqn:Hs; simpl;
    try (destruct (m_Thread_ c); try discriminate); intros [= <- <-]; simpl;
    (split_and!; [reflexivity | try reflexivity | assumption || reflexivity | auto; congruence]);
    destruct (loop_ c), (agent_ c), (context_ c); reflexivity.
Qed.

Lemma step_close n ops op c c' out :
  explained n ops c -> close c = Some (c', out) -> step_spec n ops op c c' out.
Proof.
  intros Hc E. apply close_spec in E as (Hcore & Hn & Hs & _).
  split_and!.
  - eapply explained_mono; [exact Hcore | | exact Hc]. set_solver.
  - unfold told. rewrite Hs, Hn. destruct (iceState_ c); simpl;
      first [left; split; reflexivity | right; split; [lia | left; split; reflexivity]].
  - rewrite Hn. constructor.
Qed.

Lemma notified_Nice l : notified (map Nice l) = [].
Proof. induction l as [|x l IH]; [reflexivity | exact IH]. Qed.

Lemma step_gathering n ops c c' out :
  explained n ops c -> gatheringDone c = (c', out) -> step_spec n ops op_gathering_done c c' out.
Proof.
  intros Hc E. apply updateIceState_told in E as (Hcore & Ht & Hs).
  apply step_updated with NICE_CANDIDATES_RECEIVED; [|exact Ht|exact Hs|].
  - eapply explained_mono; [exact Hcore | | exact Hc]. set_solver.
  - intros _. simpl. set_solver.
Qed.

Lemma step_last n ops b c :
  explained n ops c -> step_spec n ops (op_last_candidate b) c (setReceivedLastCandidate b c) [].
Proof.
  intros [H1 H2 H3 H4]. split_and!; [|left; split; reflexivity|constructor].
  split; simpl; [exact H1|set_solver|set_solver|]. intros ->. set_solver.
Qed.

Lemma run_op_spec mem n ops op c c' out :
  explained n ops c -> run_op mem op c = Some (c', out) -> step_spec n ops op c c' out.
Proof.
  intros Hc E. destruct op as [creds| |lcands|i s|i|b|cs b|i len buf|b|]; simpl in E.
  - injection E as E. unfold start in E. destruct (decide _); injection E as <- <-;
      (apply step_quiet; [exact Hc | reflexivity | reflexivity |]); [apply notified_Nice | reflexivity].
  - injection E as E. exact (step_gathering _ _ _ _ _ Hc E).
  - injection E as E. pose proof (deliver_quiet mem
      (if candsDelivered_ c <=? Z.of_nat (List.length lcands)
       then drop (Z.to_nat (candsDelivered_ c)) lcands else lcands) (c, [])) as (E1 & E2 & E3).
    unfold getCandidate in E. rewrite E in E1, E2, E3. apply step_quiet; assumption.
  - destruct s; simpl in E; try (injection E as <- <-; apply step_quiet; auto; fail).
    injection E as E. exact (step_failed _ _ _ _ _ _ Hc E).
  - injection E as E. exact (step_pair _ _ _ _ _ _ Hc E).
  - injection E as <- <-. apply step_last, Hc.
  - unfold setRemoteCandidates in E. destruct (agent_ c).
    + injection E as <- <-. apply step_quiet; auto.
    + apply bind_Some in E as ([[b' c1] out1] & E & [= <- <-]).
      apply bind_Some in E as ([c2 out2] & E & [= <- <- <-]).
      apply step_close; assumption.
  - apply bind_Some in E as (c1 & E & [= <- <-]). unfold cb_nice_recv, queueData in E.
    destruct (_ || _); [injection E as <-; apply step_quiet; auto|].
    destruct (decide _); [|injection E as <-; apply step_quiet; auto].
    destruct (_ <? _); [|injection E as <-; apply step_quiet; auto].
    apply bind_Some in E as (p & _ & [= <-]). apply step_quiet; auto.
  - injection E as <- <-. apply step_quiet; auto.
  - apply step_close; assumption.
Qed.

(** The states told are above the state before and at most the state after, in increasing
    order. *)
Definition increasing (low high : Z) (l : list IceState) : Prop :=
  low <= high /\ StronglySorted Z.lt (map ice_num l) /\ Forall (fun s => low < ice_num s <= high) l.

Lemma told_increasing c c' out :
  told c c' out -> increasing (ice_num (iceState_ c)) (ice_num (iceState_ c')) (notified out).
Proof.
  unfold told, increasing. intros [[-> ->] | [H [[_ ->] | [_ [-> | ->]]]]];
    (split_and!; [lia | repeat constructor | repeat constructor; lia]).
Qed.

Lemma increasing_app a b c l k :
  increasing a b l -> increasing b c k -> increasing a c (l ++ k).
Proof.
  intros (H1 & S1 & F1) (H2 & S2 & F2). split_and!; [lia| |].
  - rewrite map_app. induction F1 as [|s l Hs F1 IH]; [exact S2|]. simpl in *.
    apply StronglySorted_inv in S1 as [S1 Hall]. constructor; [auto|].
    apply Forall_app. split; [exact Hall|]. apply Forall_map.
    eapply Forall_impl; [exact F2|]. simpl. lia.
  - apply Forall_app. split; (eapply Forall_impl; [eassumption|]); simpl; lia.
Qed.

Lemma run_ops_spec mem n ops ops0 c c' out :
  explained n ops0 c -> run_ops mem ops c = Some (c', out) ->
  explained n (ops0 ++ ops) c'
  /\ increasing (ice_num (iceState_ c)) (ice_num (iceState_ c')) (notified out)
  /\ Forall (justified n (ops0 ++ ops)) (notified out).
Proof.
  revert ops0 c out. induction ops as [|op ops IH]; intros ops0 c out Hc E; simpl in E.
  - injection E as <- <-. rewrite app_nil_r. split_and!; [exact Hc | | constructor].
    split_and!; [lia | constructor | constructor].
  - apply bind_Some in E as ([c1 out1] & E1 & E). apply bind_Some in E as ([c2 out2] & E2 & [= <- <-]).
    apply (run_op_spec _ _ _ _ _ _ _ Hc) in E1 as (Hc1 & Ht & Hj).
    apply (IH _ _ _ Hc1) in E2 as (Hc2 & Hi & Hj2).
    replace (ops0 ++ op :: ops) with ((ops0 ++ [op]) ++ ops) by (rewrite <- app_assoc; reflexivity).
    rewrite notified_app. split_and!; [exact Hc2 | |].
    + eapply increasing_app; [apply told_increasing, Ht | exact Hi].
    + apply Forall_app. split; [|exact Hj2]. eapply Forall_impl; [exact Hj|].
      intros s. destruct s; simpl; set_solver.
Qed.

Lemma ctor_explained mem med name listener n cfg user pass :
  explained n [] (NiceConnection_ctor mem med name listener n cfg user pass).
Proof.
  assert (H : forall l m i, (forall j, entry m j = NICE_INITIAL) ->
    entry (foldl (fun m i => <[i := NICE_INITIAL]> m) m l) i = NICE_INITIAL).
  { induction l as [|x l IH]; intros m i Hm; simpl; [apply Hm|]. apply IH. intros j.
    rewrite entry_insert. destruct (decide _); auto. }
  split; simpl; [reflexivity| | |discriminate];
    intros i Hi; rewrite H in Hi by (intros j; unfold entry; rewrite lookup_empty; reflexivity);
    discriminate.
Qed.

(** C8. Whatever libnice and the transport do to a new connection, in any order: the states
    told to the listener strictly increase, so each is told at most once and never after a
    failure; NICE_READY is told only after a pair was selected for every component,
    NICE_FAILED only after every component failed and the last remote candidate was
    announced, NICE_CANDIDATES_RECEIVED only after the gathering ended. *)
Theorem nice_states_told mem0 mem med name listener n cfg user pass ops c out :
  run_ops mem ops (NiceConnection_ctor mem0 med name listener n cfg user pass) = Some (c, out) ->
  StronglySorted Z.lt (map ice_num (notified out)) /\ Forall (justified n ops) (notified out).
Proof.
  intros E. apply (run_ops_spec _ _ _ _ _ _ _ (ctor_explained _ _ _ _ _ _ _ _)) in E as (_ & Hi & Hj).
  split; [apply Hi | exact Hj].
Qed.

Definition cand_zero : CandidateInfo.CandidateInfo :=
  {| CandidateInfo.isBundle := false; CandidateInfo.tag := 0; CandidateInfo.priority := 0;
     CandidateInfo.componentId := 0; CandidateInfo.foundation := ""; CandidateInfo.hostAddress := "";
     CandidateInfo.rAddress := ""; CandidateInfo.hostPort := 0; CandidateInfo.rPort := 0;
     CandidateInfo.netProtocol := ""; CandidateInfo.hostType := HOST; CandidateInfo.transProtocol := "";
     CandidateInfo.username := ""; CandidateInfo.password := ""; CandidateInfo.mediaType := VIDEO_TYPE |}.

(** A connection with two components; the second one fails first. *)
Definition sample_ops : list nice_op :=
  [op_start ("u", "p"); op_gathering_done; op_selected_pair 1;
   op_component_state 2 NICE_COMPONENT_STATE_FAILED; op_selected_pair 2; op_last_candidate true;
   op_component_state 1 NICE_COMPONENT_STATE_FAILED; op_component_state 2 NICE_COMPONENT_STATE_FAILED].

Definition sample_ice : NiceConnection :=
  NiceConnection_ctor false VIDEO_TYPE "video" true 2 IceConfig_ctor "" "".

Example nice_states_told_witness :
  exists c out, run_ops cand_zero sample_ops sample_ice = Some (c, out)
  /\ notified out = [NICE_CANDIDATES_RECEIVED; NICE_READY; NICE_FAILED]
  /\ StronglySorted Z.lt (map ice_num (notified out)) /\ Forall (justified 2 sample_ops) (notified out).
Proof.
  eexists _, _. split; [vm_compute; reflexivity|]. split; [reflexivity|].
  apply (nice_states_told false cand_zero VIDEO_TYPE "video" true 2 IceConfig_ctor "" "" sample_ops _ _
           ltac:(vm_compute; reflexivity)).
Defined.

(** ** The end of a connection *)

(** [close] on a running connection stops the loop, drops the listener and joins the
    thread; the destructor, which closes again, then does nothing, unless ICE had failed:
    the state stays NICE_FAILED, and the second [close] joins a thread that is no longer
    joinable, which throws out of the destructor. *)
Theorem nice_closed_twice c :
  m_Thread_ c = true -> iceState_ c <> NICE_FINISHED ->
  exists c' out, close c = Some (c', out) /\ closed c'
    /\ NiceConnection_dtor c' = (if decide (iceState_ c = NICE_FAILED) then None else Some tt).
Proof.
  intros Ht Hs. destruct (close c) as [[c' out]|] eqn:E.
  2:{ unfold close in E. rewrite decide_False in E by exact Hs.
      destruct (updateIceState NICE_FINISHED c) as [c1 o] eqn:E1. unfold updateIceState in E1.
      destruct (_ <=? _); injection E1 as <- <-; simpl in E; rewrite Ht in E; discriminate. }
  destruct (close_spec _ _ _ E) as (_ & _ & Hs' & Hc). specialize (Hc Hs).
  exists c', out. split_and!; [reflexivity | exact Hc |].
  destruct Hc as (Ht' & _). unfold NiceConnection_dtor, close, updateIceState. rewrite Hs'.
  destruct (decide (iceState_ c = NICE_FAILED)); simpl; [rewrite Ht'; reflexivity | reflexivity].
Qed.

Example nice_closed_twice_witness :
  exists c out c' out', run_ops cand_zero sample_ops sample_ice = Some (c, out)
  /\ close c = Some (c', out') /\ closed c' /\ NiceConnection_dtor c' = None.
Proof.
  destruct (run_ops cand_zero sample_ops sample_ice) as [[c out]|] eqn:E; [|vm_compute in E; discriminate].
  assert (Hc : m_Thread_ c = true /\ iceState_ c = NICE_FAILED)
    by (vm_compute in E; injection E as <- <-; split; reflexivity).
  destruct (nice_closed_twice c) as (c' & out' & Hc' & Hcl & Hd);
    [apply Hc | rewrite (proj2 Hc); discriminate |].
  rewrite (proj2 Hc) in Hd. eauto 10.
Defined.

(** ** Candidates delivered *)

Definition fresh (cands : list NiceCandidate) : list NiceCandidate := filter (fun c => is_ipv6 c = false) cands.

Lemma local_candidate_ext mem c c' cand :
  mediaType c = mediaType c' -> transportName c = transportName c' -> ufrag_ c = ufrag_ c' ->
  upass_ c = upass_ c' -> local_candidate mem c cand = local_candidate mem c' cand.
Proof. unfold local_candidate. intros -> -> -> ->. reflexivity. Qed.

Lemma deliver_all mem cands c out :
  listener_ c = true -> 0 <= candsDelivered_ c -> candsDelivered_ c + Z.of_nat (List.length cands) < 2 ^ 32 ->
  foldl (deliver_one mem) (c, out) cands
  = (c <| candsDelivered_ ::= Z.add (Z.of_nat (List.length cands)) |>,
     out ++ map (fun cand => Deliver (local_candidate mem c cand)) (fresh cands)).
Proof.
  revert c out. induction cands as [|cand cands IH]; intros c out Hl H0 Hlen.
  - simpl. rewrite app_nil_r. destruct c. reflexivity.
  - cbn [foldl]. cbn [List.length] in Hlen. rewrite Nat2Z.inj_succ in Hlen.
    assert (Hw : u32 (candsDelivered_ c + 1) = candsDelivered_ c + 1)
      by (apply wrap_small; unfold in_width; lia).
    set (c1 := c <| candsDelivered_ ::= fun n => u32 (n + 1) |>).
    assert (E : deliver_one mem (c, out) cand
                = (c1, if is_ipv6 cand then out else out ++ [Deliver (local_candidate mem c cand)])).
    { unfold deliver_one. fold c1. change (listener_ c1) with (listener_ c). rewrite Hl.
      destruct (is_ipv6 cand); reflexivity. }
    rewrite E, IH by (simpl; rewrite ?Hw; first [assumption | lia]).
    f_equal.
    + subst c1. destruct c. simpl in Hw. cbv [set_member candsDelivered_]. simpl. rewrite Hw. f_equal. lia.
    + unfold fresh. rewrite filter_cons. destruct (is_ipv6 cand) eqn:Ev.
      * rewrite decide_False by discriminate. reflexivity.
      * rewrite decide_True by reflexivity. rewrite <- app_assoc. reflexivity.
Qed.

(** The lists libnice answers for one component: each is the one before and a chunk more. *)
Fixpoint growing (l : list NiceCandidate) (chunks : list (list NiceCandidate)) : list (list NiceCandidate) :=
  match chunks with
  | [] => []
  | k :: chunks => (l ++ k) :: growing (l ++ k) chunks
  end.

Fixpoint getCandidates (mem : CandidateInfo.CandidateInfo) (ls : list (list NiceCandidate))
    (c : NiceConnection) : NiceConnection * list effect :=
  match ls with
  | [] => (c, [])
  | l :: ls =>
    let '(c, out) := getCandidate mem l c in
    let '(c, out') := getCandidates mem ls c in (c, out ++ out')
  end.

Lemma getCandidates_spec mem chunks l c :
  listener_ c = true -> candsDelivered_ c = Z.of_nat (List.length l) ->
  Z.of_nat (List.length (l ++ concat chunks)) < 2 ^ 32 ->
  (getCandidates mem (growing l chunks) c).2
  = map (fun cand => Deliver (local_candidate mem c cand)) (fresh (concat chunks)).
Proof.
  revert l c. induction chunks as [|k chunks IH]; intros l c Hl Hn Hlen; [reflexivity|].
  simpl concat in Hlen. rewrite app_assoc in Hlen.
  assert (Hk := Hlen). rewrite !length_app in Hk.
  cbn [growing getCandidates]. unfold getCandidate. rewrite Hn, Nat2Z.id, length_app.
  rewrite (proj2 (Z.leb_le _ _)) by lia. rewrite drop_app_length.
  rewrite deliver_all by (rewrite ?Hn; first [assumption | lia]).
  set (c1 := c <| candsDelivered_ ::= _ |>).
  specialize (IH (l ++ k) c1). destruct (getCandidates _ _ c1) as [c2 out2]. simpl in IH |- *.
  rewrite IH; [| exact Hl | rewrite Hn, length_app; lia | exact Hlen].
  unfold fresh. rewrite filter_app, map_app. reflexivity.
Qed.

(** However libnice discovers the candidates of a component, and however often it calls
    back, each of them that is not IPv6 is delivered to the listener exactly once, in the
    order of discovery and with the local credentials. *)
Theorem candidates_delivered_once mem chunks c :
  listener_ c = true -> candsDelivered_ c = 0 -> Z.of_nat (List.length (concat chunks)) < 2 ^ 32 ->
  (getCandidates mem (growing [] chunks) c).2
  = map (fun cand => Deliver (local_candidate mem c cand)) (fresh (concat chunks)).
Proof. intros Hl Hn Hlen. apply (getCandidates_spec mem chunks []); assumption. Qed.

Definition sample_candidate (a : string) (component : Z) : NiceCandidate :=
  {| cand_type := NICE_CANDIDATE_TYPE_HOST; addr := (a, 9); base_addr := None; priority := 1;
     stream_id := 1; component_id := component; foundation := "1"; username := ""; password := "" |}.

Definition address_of (e : effect) : option string :=
  match e with Deliver c => Some (CandidateInfo.hostAddress c) | _ => None end.

Example candidates_delivered_once_witness :
  omap address_of (getCandidates cand_zero
    (growing [] [[sample_candidate "10.0.0.1" 1]; [sample_candidate "::1" 1; sample_candidate "10.0.0.2" 1]])
    sample_ice).2 = ["10.0.0.1"; "10.0.0.2"].
Proof. rewrite candidates_delivered_once by reflexivity. vm_compute. reflexivity. Defined.

(** The counter is one for all components while libnice answers a list per component: with
    two of them a candidate of the second is taken for one already delivered. *)
Example second_component_skipped :
  omap address_of (getCandidates cand_zero
    [[sample_candidate "10.0.0.1" 1]; [sample_candidate "10.0.0.1" 2]] sample_ice).2 = ["10.0.0.1"].
Proof. vm_compute. reflexivity. Qed.

(** ** Packets queued *)

(** A datagram received while ICE is ready is appended to the queue with its bytes and
    component, unless 1000 packets wait, in which case it is dropped; one of more than 1500
    bytes is written past the end of the packet.  In any other state it is dropped. *)
Theorem nice_queue_data component_id buf c :
  queueData component_id buf (Z.of_nat (List.length buf)) c
  = if decide (iceState_ c = NICE_READY) then
      if (1000 <=? List.length (niceQueue_ c))%nat then Some c
      else if (List.length buf <=? 1500)%nat
      then Some (c <| niceQueue_ ::= fun q => q ++ [packet_of component_id buf] |>) else None
    else Some c.
Proof.
  unfold queueData, checkIceState. destruct (decide _); [|reflexivity].
  destruct (Nat.leb_spec 1000 (List.length (niceQueue_ c))), (Z.ltb_spec (Z.of_nat (List.length (niceQueue_ c))) 1000);
    try lia; [reflexivity|].
  rewrite copy_in_spec by reflexivity.
  destruct (Nat.leb_spec (List.length buf) 1500), (Z.leb_spec (Z.of_nat (List.length buf)) 1500); try lia;
    [|reflexivity].
  cbn [option_bind mbind]. unfold packet_of. rewrite <- drop_replicate. reflexivity.
Qed.
