(* ===== verification/Asio.v ===== *)
(** * Asio: what the resenders of a transport use of boost.asio

    Boost is not part of the repository.  An [io_service] with the one [deadline_timer] built
    on it is a value of an abstract type with the calls the code makes, the passing of time
    and the progress of the thread inside [run]; [AsioLaws] is what boost documents of them,
    in terms of what can be observed of the pair.  [Sample] is a pair that has the laws. *)

From S2P Require Import Prelude.

(** A wait that has been started and whose timer has not expired; the handlers queued, each
    with whether its wait was aborted; whether a thread is inside [run], and whether the
    service is stopped. *)
Record io_view := {
  io_waits : bool;
  io_ready : list bool;
  io_running : bool;
  io_stopped : bool
}.

#[export] Instance eta_io_view : Eta io_view := fun v =>
  {| io_waits := io_waits v; io_ready := io_ready v; io_running := io_running v; io_stopped := io_stopped v |}.

Class Asio := {
  asio : Type;
  io_state : asio -> io_view;
  io_service_new : asio;
  timer_cancel : asio -> asio;
  timer_async_wait : asio -> asio;               (* expires_from_now, async_wait(handler) *)
  timer_expires : asio -> asio;                  (* the time has come *)
  service_run : asio -> asio;                    (* a thread calls run *)
  service_next : asio -> option (bool * asio);   (* it calls the next handler *)
  service_returned : asio -> asio;               (* the handler has returned *)
}.

(** A service without work is stopped, and stays so: there is no call of [reset]. *)
Definition stop_idle (v : io_view) : io_view :=
  if io_waits v then v else
  match io_ready v with [] => v <| io_running := false |> <| io_stopped := true |> | _ :: _ => v end.

(** What boost documents: cancelling queues the handler of a pending wait with
    [operation_aborted], and does nothing about one that is queued already; starting a wait
    aborts the one before; a handler is called only by a thread inside [run], which returns
    when the service has no more work and returns at once when it is stopped. *)
Class AsioLaws (A : Asio) := {
  new_state : io_state io_service_new =
    {| io_waits := false; io_ready := []; io_running := false; io_stopped := false |};
  cancel_state s : io_state (timer_cancel s) =
    if io_waits (io_state s) then (io_state s) <| io_waits := false |> <| io_ready ::= fun q => q ++ [true] |>
    else io_state s;
  wait_state s : io_state (timer_async_wait s) = (io_state (timer_cancel s)) <| io_waits := true |>;
  expires_state s : io_state (timer_expires s) =
    if io_waits (io_state s) then (io_state s) <| io_waits := false |> <| io_ready ::= fun q => q ++ [false] |>
    else io_state s;
  run_state s : io_state (service_run s) =
    if io_stopped (io_state s) then io_state s else stop_idle ((io_state s) <| io_running := true |>);
  next_state s : if io_running (io_state s) then
      match io_ready (io_state s) with
      | [] => service_next s = None
      | aborted :: q => exists s', service_next s = Some (aborted, s') /\ io_state s' = (io_state s) <| io_ready := q |>
      end
    else service_next s = None;
  returned_state s : io_state (service_returned s) =
    if io_running (io_state s) then stop_idle (io_state s) else io_state s;
}.

(** ** A pair that has the laws *)

Module Sample.
Definition cancel (v : io_view) : io_view :=
  if io_waits v then v <| io_waits := false |> <| io_ready ::= fun q => q ++ [true] |> else v.

#[local] Instance lib : Asio := {|
  asio := io_view;
  io_state := fun v => v;
  io_service_new := {| io_waits := false; io_ready := []; io_running := false; io_stopped := false |};
  timer_cancel := cancel;
  timer_async_wait := fun v => (cancel v) <| io_waits := true |>;
  timer_expires := fun v =>
    if io_waits v then v <| io_waits := false |> <| io_ready ::= fun q => q ++ [false] |> else v;
  service_run := fun v => if io_stopped v then v else stop_idle (v <| io_running := true |>);
  service_next := fun v =>
    if io_running v then match io_ready v with [] => None | a :: q => Some (a, v <| io_ready := q |>) end else None;
  service_returned := fun v => if io_running v then stop_idle v else v
|}.

Definition laws : AsioLaws lib.
Proof.
  split; try reflexivity.
  intros s. simpl. destruct (io_running s); [|reflexivity]. destruct (io_ready s); [reflexivity|]. eauto.
Defined.
End Sample.
