(* ===== verification/Dtls.v ===== *)
(** * Dtls: the DTLS socket of a transport and its SRTP channel
    (src/Src/media/dtls/DtlsSocket.cpp, DtlsClient.cpp, src/Src/media/SrtpChannel.cpp)

    OpenSSL, libsrtp and glib's base64 are not part of the repository.  What OpenSSL
    answers during an iteration of the handshake is an argument ([ssl_answer]); libsrtp
    and base64 are the operations of the class [CryptoLib], and what the code relies on of
    them the laws of [CryptoLaws].  A session of libsrtp is a value of an abstract type that
    each call replaces.  [None] is undefined behaviour: a packet that does not fit its
    array, a NULL session or profile. *)

From Stdlib Require Import Ascii String.
From S2P Require Import Prelude Bytes RtpHeaders Asio.
Local Open Scope string_scope.
Local Open Scope list_scope.
Local Open Scope Z_scope.

Inductive TransmissionType := SENDING | RECEIVING.

(** A call of libsrtp on a packet: its result code, the session after it, the buffer and
    the length. *)
Class CryptoLib := {
  session : Type;
  base64_encode : list Z -> string;
  base64_decode : string -> list Z;
  srtp_create : list Z -> TransmissionType -> option session;
  srtp_protect : session -> list Z -> Z -> Z * session * list Z * Z;
  srtp_unprotect : session -> list Z -> Z -> Z * session * list Z * Z;
  srtp_protect_rtcp : session -> list Z -> Z -> Z * session * list Z * Z;
  srtp_unprotect_rtcp : session -> list Z -> Z -> Z * session * list Z * Z;
  crypto_asio :: Asio
}.

(** ** Telling packets apart *)

Inductive PacketType := rtp | dtls | stun | unknown.

(** [DtlsSocketContext::demuxPacket]; [None] is the failed assertion. *)
Definition demuxPacket (data : list Z) (len : Z) : option PacketType :=
  if len <? 1 then None else
  b ← data !! 0%nat;
  Some (if (b =? 0) || (b =? 1) then stun
        else if (128 <=? b) && (b <=? 191) then rtp
        else if (20 <=? b) && (b <=? 64) then dtls
        else unknown).

(** ** Fingerprints *)

Definition hex_digit (d : Z) : ascii :=
  ascii_of_nat (Z.to_nat (if d <? 10 then 48 + d else 55 + d)).

(** [sprintf(fingerprint, "%02X", b)]. *)
Definition hex_byte (b : Z) : string := String (hex_digit (Z.shiftr b 4)) (String (hex_digit (Z.land b 15)) "").

(** [computeFingerprint] on the digest [md]. *)
Fixpoint computeFingerprint (md : list Z) : string :=
  match md with
  | [] => ""
  | [b] => hex_byte b
  | b :: md => hex_byte b +:+ ":" +:+ computeFingerprint md
  end.

(** [getFingerprint] has room for 100 characters. *)
Definition getFingerprint (md : list Z) : option string :=
  if (List.length md * 3 <=? 100)%nat then Some (computeFingerprint md) else None.

(** ** Keys *)

Definition SRTP_MASTER_KEY_KEY_LEN : nat := 16.
Definition SRTP_MASTER_KEY_SALT_LEN : nat := 14.

Record SrtpSessionKeys := {
  clientMasterKey : list Z;
  serverMasterKey : list Z;
  clientMasterSalt : list Z;
  serverMasterSalt : list Z
}.

(** [material] is what [SSL_export_keying_material] wrote; without it the lengths stay 0. *)
Definition getSrtpSessionKeys (material : option (list Z)) : SrtpSessionKeys :=
  match material with
  | None => {| clientMasterKey := []; serverMasterKey := []; clientMasterSalt := []; serverMasterSalt := [] |}
  | Some m =>
    let k := SRTP_MASTER_KEY_KEY_LEN in
    let s := SRTP_MASTER_KEY_SALT_LEN in
    {| clientMasterKey := take k m;
       serverMasterKey := take k (drop k m);
       clientMasterSalt := take s (drop (k + k) m);
       serverMasterSalt := take s (drop (k + k + s) m) |}
  end.

(** ** The socket *)

Inductive ssl_error := SSL_ERROR_NONE | SSL_ERROR_WANT_READ | SSL_ERROR_other.

(** What OpenSSL does in one iteration: the error code, the bytes to send, and once the
    handshake is complete whether there is a peer certificate, the key material and
    whether an SRTP profile was chosen. *)
Record ssl_answer := {
  sslerr : ssl_error;
  outBio : list Z;
  peer_certificate : bool;
  material : option (list Z);
  srtp_profile : bool
}.

Inductive dtls_event :=
  | HandshakeCompleted (clientKey serverKey : string)
  | HandshakeFailed
  | DtlsPacket (data : list Z).

Record DtlsSocketContext := {
  started : bool;
  isServer : bool;
  mHandshakeCompleted : bool
}.

#[export] Instance eta_DtlsSocketContext : Eta DtlsSocketContext := fun c =>
  {| started := started c; isServer := isServer c; mHandshakeCompleted := mHandshakeCompleted c |}.

(** The context with the socket of [createClient] or [createServer]. *)
Definition DtlsSocketContext_create (server : bool) : DtlsSocketContext :=
  {| started := false; isServer := server; mHandshakeCompleted := false |}.

Section Socket.
Context `{CryptoLib}.

Definition clientKey_of (keys : SrtpSessionKeys) : string :=
  base64_encode (clientMasterKey keys ++ clientMasterSalt keys).
Definition serverKey_of (keys : SrtpSessionKeys) : string :=
  base64_encode (serverMasterKey keys ++ serverMasterSalt keys).

(** The check of the fingerprint compares the peer's with itself and its result is only
    logged. *)
Definition handshakeCompleted (a : ssl_answer) : option (list dtls_event) :=
  if peer_certificate a then
    let keys := getSrtpSessionKeys (material a) in
    if srtp_profile a then Some [HandshakeCompleted (clientKey_of keys) (serverKey_of keys)] else None
  else Some [].

Definition doHandshakeIteration (a : ssl_answer) (c : DtlsSocketContext)
    : option (DtlsSocketContext * list dtls_event) :=
  if mHandshakeCompleted c then Some (c, []) else
  '(c, events) ← (match sslerr a with
                  | SSL_ERROR_NONE =>
                    events ← handshakeCompleted a;
                    Some (c <| mHandshakeCompleted := true |>, events)
                  | SSL_ERROR_WANT_READ => Some (c, [])
                  | SSL_ERROR_other => Some (c, [HandshakeFailed])
                  end);
  Some (c, events ++ match outBio a with [] => [] | out => [DtlsPacket out] end).

(** [start]: only a client socket may start the handshake. *)
Definition dtls_start (a : ssl_answer) (c : DtlsSocketContext)
    : option (DtlsSocketContext * list dtls_event) :=
  if isServer c then None else doHandshakeIteration a (c <| started := true |>).

Definition dtls_read (a : ssl_answer) (data : list Z) (len : Z) (c : DtlsSocketContext)
    : option (DtlsSocketContext * list dtls_event) :=
  pType ← demuxPacket data len;
  match pType with
  | dtls => doHandshakeIteration a c
  | _ => Some (c, [])
  end.
End Socket.

(** ** The SRTP channel *)

Record SrtpChannel `{CryptoLib} := {
  active_ : bool;
  send_session_ : option session;
  receive_session_ : option session
}.

Section Srtp.
Context `{CryptoLib}.

Definition SrtpChannel_ctor : SrtpChannel :=
  {| active_ := false; send_session_ := None; receive_session_ := None |}.

(** The new session; [None] when libsrtp refuses the key. *)
Definition configureSrtpSession (key : string) (type : TransmissionType) : option session :=
  srtp_create (base64_decode key) type.

Definition setRtpParams (sendingKey receivingKey : string) (c : SrtpChannel) : bool * SrtpChannel :=
  match configureSrtpSession sendingKey SENDING with
  | None => (false, c)
  | Some s =>
    match configureSrtpSession receivingKey RECEIVING with
    | None => (false, {| active_ := active_ c; send_session_ := Some s;
                         receive_session_ := receive_session_ c |})
    | Some r => (true, {| active_ := true; send_session_ := Some s; receive_session_ := Some r |})
    end
  end.

Definition set_send (s : session) (c : SrtpChannel) : SrtpChannel :=
  {| active_ := active_ c; send_session_ := Some s; receive_session_ := receive_session_ c |}.
Definition set_receive (s : session) (c : SrtpChannel) : SrtpChannel :=
  {| active_ := active_ c; send_session_ := send_session_ c; receive_session_ := Some s |}.

(** The four operations return 0 or -1, the channel, the buffer and the length. *)
Definition protectRtp (buffer : list Z) (len : Z) (c : SrtpChannel)
    : option (Z * SrtpChannel * list Z * Z) :=
  if negb (active_ c) then Some (0, c, buffer, len) else
  s ← send_session_ c;
  let '(val, s, buffer, len) := srtp_protect s buffer len in
  Some (if val =? 0 then 0 else -1, set_send s c, buffer, len).

Definition unprotectRtp (buffer : list Z) (len : Z) (c : SrtpChannel)
    : option (Z * SrtpChannel * list Z * Z) :=
  if negb (active_ c) then Some (0, c, buffer, len) else
  s ← receive_session_ c;
  let '(val, s, buffer, len) := srtp_unprotect s buffer len in
  Some (if val =? 0 then 0 else -1, set_receive s c, buffer, len).

Definition protectRtcp (buffer : list Z) (len : Z) (c : SrtpChannel)
    : option (Z * SrtpChannel * list Z * Z) :=
  s ← send_session_ c;
  let '(val, s, buffer, len) := srtp_protect_rtcp s buffer len in
  Some (if val =? 0 then 0 else -1, set_send s c, buffer, len).

Definition unprotectRtcp (buffer : list Z) (len : Z) (c : SrtpChannel)
    : option (Z * SrtpChannel * list Z * Z) :=
  s ← receive_session_ c;
  let '(val, s, buffer, len) := srtp_unprotect_rtcp s buffer len in
  Some (if val =? 0 then 0 else -1, set_receive s c, buffer, len).
End Srtp.

(** ** What the code relies on *)

(** What [protect] makes of a packet of at least [min] bytes, [unprotect] with the session
    it is in sync with turns back into the packet, in whatever buffer it arrives; the
    packet grows by at most 14 bytes (tag and RTCP index) and its first 8 stay. *)
Definition protects `{CryptoLib} (in_sync : session -> session -> Prop)
    (sendable : session -> list Z -> Prop) (min : Z)
    (protect unprotect : session -> list Z -> Z -> Z * session * list Z * Z) : Prop :=
  forall s r buf len,
    in_sync s r -> sendable s (take (Z.to_nat len) buf) ->
    min <= len -> len + 14 <= Z.of_nat (List.length buf) ->
    exists s' buf' len' r',
      protect s buf len = (0, s', buf', len')
      /\ List.length buf' = List.length buf /\ len <= len' <= len + 14
      /\ take 8 buf' = take 8 buf /\ in_sync s' r'
      /\ forall b, take (Z.to_nat len') b = take (Z.to_nat len') buf' ->
           (Z.to_nat len' <= List.length b)%nat ->
           exists b', unprotect r b len' = (0, r', b', len)
             /\ List.length b' = List.length b
             /\ take (Z.to_nat len) b' = take (Z.to_nat len) buf.

Class CryptoLaws `{CryptoLib} := {
  base64_inverse : forall bs, bytes_ok bs -> base64_decode (base64_encode bs) = bs;
  (** The receiver's session follows the sender's. *)
  in_sync : session -> session -> Prop;
  (** The index of the packet is not refused as a replay. *)
  sendable : session -> list Z -> Prop;
  create_in_sync : forall key, List.length key = 30%nat -> exists s r,
    srtp_create key SENDING = Some s /\ srtp_create key RECEIVING = Some r /\ in_sync s r;
  protect_rtp : protects in_sync sendable 12 srtp_protect srtp_unprotect;
  protect_rtcp : protects in_sync sendable 8 srtp_protect_rtcp srtp_unprotect_rtcp
}.

(** ** A library that has the laws *)

Module Sample.
Definition encode (bs : list Z) : string := string_of_list_ascii (map (fun b => ascii_of_nat (Z.to_nat b)) bs).
Definition decode (s : string) : list Z := map (fun c => Z.of_nat (nat_of_ascii c)) (list_ascii_of_string s).

(** The first ten bytes of the key are appended as the tag, and compared by the receiver. *)
Definition tag (key : list Z) : list Z := take 10 key.

Definition protect (key buf : list Z) (len : Z) : Z * list Z * list Z * Z :=
match write_at buf len (tag key) with
| Some buf => (0, key, buf, len + Z.of_nat (List.length (tag key)))
| None => (1, key, buf, len)
end.

Definition unprotect (key buf : list Z) (len : Z) : Z * list Z * list Z * Z :=
let n := Z.of_nat (List.length (tag key)) in
if (n <=? len) && bool_decide (take (List.length (tag key)) (drop (Z.to_nat (len - n)) buf) = tag key)
then (0, key, buf, len - n) else (7, key, buf, len).

Definition lib : CryptoLib := {|
session := list Z;
base64_encode := encode;
base64_decode := decode;
srtp_create := fun key _ => if (List.length key =? 30)%nat then Some key else None;
srtp_protect := protect; srtp_unprotect := unprotect;
srtp_protect_rtcp := protect; srtp_unprotect_rtcp := unprotect;
crypto_asio := Asio.Sample.lib |}.

Lemma decode_encode bs : bytes_ok bs -> decode (encode bs) = bs.
Proof.
intros H. unfold decode, encode. rewrite list_ascii_of_string_of_list_ascii, map_map.
induction H as [|b bs Hb H IH]; [reflexivity|]. simpl. rewrite IH. f_equal.
unfold byte_ok in Hb. rewrite nat_ascii_embedding by lia. lia.
Qed.

Lemma protects_ok min : 8 <= min -> @protects lib (fun s r => s = r) (fun _ _ => True) min protect unprotect.
Proof.
intros Hmin s r buf len -> _ Hlen Hroom. unfold protect, unprotect.
set (n := List.length (tag r)).
assert (Hn : (n <= 10)%nat) by (unfold n, tag; rewrite length_take; lia).
rewrite write_at_Some by (unfold in_bounds; fold n; lia).
set (l := Z.to_nat len) in *.
assert (Hl : (l + 14 <= List.length buf)%nat) by lia.
eexists _, _, _, r. split; [reflexivity|].
assert (Hlt : List.length (take l buf) = l) by (rewrite length_take; lia).
split_and!; [rewrite !length_app, length_drop, Hlt; fold n; lia | lia | lia | | reflexivity |].
- rewrite take_app_le by lia. rewrite take_take. f_equal. lia.
- intros b Hb Hlb. exists b. fold n in Hb |- *.
  replace (Z.to_nat (len + Z.of_nat n)) with (l + n)%nat in Hb, Hlb by lia.
  rewrite app_assoc, take_app_le in Hb by (rewrite length_app, Hlt; fold n; lia).
  rewrite (take_ge (take l buf ++ tag r)) in Hb by (rewrite length_app, Hlt; fold n; lia).
  replace (len + Z.of_nat n - Z.of_nat n) with len by lia. fold l.
  rewrite (proj2 (Z.leb_le _ _)) by lia.
  rewrite bool_decide_eq_true_2.
  + split_and!; [reflexivity | reflexivity |].
    apply (f_equal (take l)) in Hb. rewrite take_take, take_app_le, take_take in Hb by lia.
    rewrite Nat.min_id, Nat.min_l in Hb by lia. exact Hb.
  + apply (f_equal (drop l)) in Hb. rewrite drop_app_length' in Hb by (symmetry; exact Hlt).
    rewrite skipn_firstn_comm in Hb. replace (l + n - l)%nat with n in Hb by lia. exact Hb.
Qed.

Definition laws : @CryptoLaws lib.
Proof.
refine (@Build_CryptoLaws lib decode_encode (fun s r => s = r) (fun _ _ => True) _ _ _).
- intros key Hk. simpl. rewrite Hk. eauto.
- apply protects_ok. lia.
- apply protects_ok. lia.
Defined.
End Sample.
