(* ===== verification/DtlsTransport.v ===== *)
(** * DtlsTransport: DTLS-SRTP over an ICE connection (src/Src/media/DtlsTransport.cpp, Transport.h)

    The transport owns a [NiceConnection], one DTLS socket per ICE component with the
    [Resender] of its last message, and the SRTP channels the handshakes create.  It is the
    listener of the first two; its own listener, the connection, is called through the list
    of [transport_effect]s an operation returns.  An answer of OpenSSL is an argument of the
    operations that may run a handshake.

    A [Resender] runs an io_service in a thread of its own; both are those of [Asio].  The
    expiry of its timer and the call of the handler by its thread are steps of their own, so
    an answer may come between the two.

    The theorems: keys and packets of two transports that completed a handshake, the
    retransmissions of a message, the states a transport goes through. *)

From Stdlib Require Import Ascii String Sorting.Sorted.
From S2P Require Import Prelude Bytes RtpHeaders MediaDefinitions Rtcp SdpInfo NiceConnection Asio Dtls.
Local Open Scope string_scope.
Local Open Scope list_scope.
Local Open Scope Z_scope.

Inductive TransportState :=
  | TRANSPORT_INITIAL | TRANSPORT_STARTED | TRANSPORT_GATHERED | TRANSPORT_READY
  | TRANSPORT_FINISHED | TRANSPORT_FAILED.

#[export] Instance TransportState_eq_dec : EqDecision TransportState.
Proof. solve_decision. Defined.

(** ** The resender *)

Record Resender `{CryptoLib} := {
  data_ : list Z;
  len_ : Z;
  max_resends_ : Z;
  thread_ : bool;
  service : asio
}.

#[export] Instance eta_Resender `{CryptoLib} : Eta Resender := fun r =>
  {| data_ := data_ r; len_ := len_ r; max_resends_ := max_resends_ r; thread_ := thread_ r;
     service := service r |}.

Definition kMaxResends : Z := 5.

(** The calls of the transport a resender makes: [writeDtlsPacket] and [onHandshakeFailed]. *)
Inductive resender_call := WriteDtls (packet : list Z) | DtlsTimeout.

Section Resender.
Context `{CryptoLib}.

(** The buffer of 1500 bytes and its length are as in [mem]. *)
Definition Resender_ctor (mem : list Z * Z) (max_resends : Z) : Resender :=
  {| data_ := mem.1; len_ := mem.2; max_resends_ := max_resends; thread_ := false; service := io_service_new |}.

Definition Cancel (r : Resender) : Resender := r <| service ::= timer_cancel |>.

Definition Resend (aborted : bool) (r : Resender) : Resender * list resender_call :=
  if aborted then (r, []) else
  let left := max_resends_ r in
  let r := r <| max_resends_ := u32 (left - 1) |> in
  if 0 <? left then
    (r <| service ::= timer_async_wait |>, [WriteDtls (take (Z.to_nat (len_ r)) (data_ r))])
  else (r, [DtlsTimeout]).

(** One handler called by the thread inside [Run], if there is one of each. *)
Definition Run_one (r : Resender) : option (Resender * list resender_call) :=
  '(aborted, s) ← service_next (service r);
  let '(r, out) := Resend aborted (r <| service := s |>) in
  Some (r <| service ::= service_returned |>, out).

(** [thread_->join()]: until the thread has left [Run], its handlers are called, and when
    there is none the timer expires. *)
Fixpoint join (fuel : nat) (r : Resender) : option (Resender * list resender_call) :=
  if negb (io_running (io_state (service r))) then Some (r, []) else
  match fuel with
  | O => None
  | S fuel =>
    match Run_one r with
    | Some (r, out) => '(r, out') ← join fuel r; Some (r, out ++ out')
    | None => join fuel (r <| service ::= timer_expires |>)
    end
  end.

(** Each timeout that is left is an expiry and a handler, and so is the one that fails. *)
Definition join_fuel (r : Resender) : nat :=
  if io_running (io_state (service r)) then 2 * Z.to_nat (max_resends_ r) + 4 else 0.

Definition ScheduleResend (data : list Z) (len : Z) (r : Resender) : option (Resender * list resender_call) :=
  let r := r <| service ::= timer_cancel |> in
  if len <? 0 then None else
  src ← read_at (Z.to_nat len) data 0;
  d ← write_at (data_ r) 0 src;
  let r := r <| data_ := d |> <| len_ := len |> in
  '(r, out) ← (if thread_ r then join (join_fuel r) r else Some (r, []));
  let r := r <| service ::= timer_async_wait |> in
  Some (r <| thread_ := true |> <| service ::= service_run |>, WriteDtls src :: out).
End Resender.

(** ** The transport *)

Inductive transport_effect :=
  | UpdateState (s : TransportState)
  | TransportData (buf : list Z) (len : Z)
  | NewCandidate (cand : CandidateInfo.CandidateInfo)
  | NiceCall (c : nice_call).

(** The calls of libnice among the effects, for the operations that tell the listener nothing. *)
Definition nice_calls (es : list effect) : list transport_effect :=
  omap (fun e => match e with Nice c => Some (NiceCall c) | _ => None end) es.

Record DtlsTransport `{CryptoLib} := {
  mediaType : MediaType;
  transport_name : string;
  rtcp_mux_ : bool;
  bundle_ : bool;
  transpListener_ : bool;
  state_ : TransportState;
  nice_ : NiceConnection.NiceConnection;
  protectBuf_ : list Z;
  unprotectBuf_ : list Z;
  dtlsRtp : DtlsSocketContext;
  dtlsRtcp : option DtlsSocketContext;
  srtp_ : option SrtpChannel;
  srtcp_ : option SrtpChannel;
  readyRtp : bool;
  readyRtcp : bool;
  running_ : bool;
  isServer_ : bool;
  rtp_resender_ : Resender;
  rtcp_resender_ : option Resender
}.

#[export] Instance eta_DtlsTransport `{CryptoLib} : Eta DtlsTransport := fun t =>
  {| mediaType := mediaType t; transport_name := transport_name t; rtcp_mux_ := rtcp_mux_ t;
     bundle_ := bundle_ t; transpListener_ := transpListener_ t; state_ := state_ t; nice_ := nice_ t;
     protectBuf_ := protectBuf_ t; unprotectBuf_ := unprotectBuf_ t; dtlsRtp := dtlsRtp t;
     dtlsRtcp := dtlsRtcp t; srtp_ := srtp_ t; srtcp_ := srtcp_ t; readyRtp := readyRtp t;
     readyRtcp := readyRtcp t; running_ := running_ t; isServer_ := isServer_ t;
     rtp_resender_ := rtp_resender_ t; rtcp_resender_ := rtcp_resender_ t |}.

(** What the constructors leave uninitialised: the arrays of 1500 and 5000 bytes. *)
Record transport_memory := {
  rtp_mem : list Z * Z;
  rtcp_mem : list Z * Z;
  protect_mem : list Z;
  unprotect_mem : list Z;
  context_mem : bool
}.

Section Transport.
Context `{CryptoLib}.

Definition DtlsTransport_ctor (mem : transport_memory) (med : MediaType) (transport_name : string)
    (bundle rtcp_mux listener : bool) (iceConfig : IceConfig) (username password : string)
    (isServer : bool) : DtlsTransport :=
  let comps := if rtcp_mux then 1 else 2 in
  {| mediaType := med; transport_name := transport_name; rtcp_mux_ := rtcp_mux; bundle_ := bundle;
     transpListener_ := listener; state_ := TRANSPORT_INITIAL;
     nice_ := NiceConnection_ctor (context_mem mem) med transport_name true comps iceConfig username password;
     protectBuf_ := protect_mem mem; unprotectBuf_ := unprotect_mem mem;
     dtlsRtp := DtlsSocketContext_create isServer;
     dtlsRtcp := if rtcp_mux then None else Some (DtlsSocketContext_create isServer);
     srtp_ := None; srtcp_ := None; readyRtp := false; readyRtcp := false; running_ := true;
     isServer_ := isServer;
     rtp_resender_ := Resender_ctor (rtp_mem mem) kMaxResends;
     rtcp_resender_ := if rtcp_mux then None else Some (Resender_ctor (rtcp_mem mem) kMaxResends) |}.

Definition getTransportState (t : DtlsTransport) : TransportState := state_ t.
Definition setTransportListener (listener : bool) (t : DtlsTransport) : DtlsTransport :=
  t <| transpListener_ := listener |>.

Definition updateTransportState (state : TransportState) (t : DtlsTransport)
    : DtlsTransport * list transport_effect :=
  if decide (state = state_ t) then (t, [])
  else (t <| state_ := state |>, if transpListener_ t then [UpdateState state] else []).

(** [nice_->sendData]; the number of bytes sent is not looked at. *)
Definition writeOnNice (comp : Z) (buf : list Z) (len : Z) (t : DtlsTransport) : list transport_effect :=
  nice_calls (sendData len comp (take (Z.to_nat len) buf) len (nice_ t)).2.

(** ** DTLS messages; [rtcp] tells the two sockets apart. *)

Definition component_of (rtcp : bool) : Z := if rtcp then 2 else 1.

Definition writeDtlsPacket (rtcp : bool) (data : list Z) (t : DtlsTransport) : list transport_effect :=
  writeOnNice (component_of rtcp) data (Z.of_nat (List.length data)) t.

Definition resender_of (rtcp : bool) (t : DtlsTransport) : option Resender :=
  if rtcp then rtcp_resender_ t else Some (rtp_resender_ t).
Definition set_resender (rtcp : bool) (r : Resender) (t : DtlsTransport) : DtlsTransport :=
  if rtcp then t <| rtcp_resender_ := Some r |> else t <| rtp_resender_ := r |>.

Definition onHandshakeCompleted (rtcp : bool) (clientKey serverKey : string) (t : DtlsTransport)
    : DtlsTransport * list transport_effect :=
  let '(clientKey, serverKey) := if isServer_ t then (serverKey, clientKey) else (clientKey, serverKey) in
  let '(ok, channel) := setRtpParams clientKey serverKey SrtpChannel_ctor in
  let '(t, out) :=
    if rtcp then
      let t := t <| srtcp_ := Some channel |> in
      if ok : bool then (t <| readyRtcp := true |>, []) else updateTransportState TRANSPORT_FAILED t
    else
      let t := t <| srtp_ := Some channel |> in
      let '(t, out) :=
        if ok : bool then (t <| readyRtp := true |>, []) else updateTransportState TRANSPORT_FAILED t in
      match dtlsRtcp t with
      | None => (t <| readyRtcp := true |>, out)
      | Some _ => (t, out)
      end in
  if readyRtp t && readyRtcp t then
    let '(t, out') := updateTransportState TRANSPORT_READY t in (t, out ++ out')
  else (t, out).

Definition onHandshakeFailed (t : DtlsTransport) : DtlsTransport * list transport_effect :=
  updateTransportState TRANSPORT_FAILED (t <| running_ := false |>).

(** What a resender calls, in order. *)
Fixpoint resender_calls (rtcp : bool) (calls : list resender_call) (t : DtlsTransport)
    : DtlsTransport * list transport_effect :=
  match calls with
  | [] => (t, [])
  | c :: calls =>
    let '(t, out) := match c with
                     | WriteDtls packet => (t, writeDtlsPacket rtcp packet t)
                     | DtlsTimeout => onHandshakeFailed t
                     end in
    let '(t, out') := resender_calls rtcp calls t in (t, out ++ out')
  end.

Definition onDtlsPacket (rtcp : bool) (data : list Z) (t : DtlsTransport)
    : option (DtlsTransport * list transport_effect) :=
  r ← resender_of rtcp t;
  '(r, calls) ← ScheduleResend data (Z.of_nat (List.length data)) r;
  Some (resender_calls rtcp calls (set_resender rtcp r t)).

Definition on_dtls_event (rtcp : bool) (t : DtlsTransport) (e : dtls_event)
    : option (DtlsTransport * list transport_effect) :=
  match e with
  | HandshakeCompleted clientKey serverKey => Some (onHandshakeCompleted rtcp clientKey serverKey t)
  | HandshakeFailed => Some (onHandshakeFailed t)
  | DtlsPacket data => onDtlsPacket rtcp data t
  end.

(** The callbacks of one call, in order. *)
Fixpoint each {E} (handle : DtlsTransport -> E -> option (DtlsTransport * list transport_effect))
    (es : list E) (t : DtlsTransport) : option (DtlsTransport * list transport_effect) :=
  match es with
  | [] => Some (t, [])
  | e :: es =>
    '(t, out) ← handle t e;
    '(t, out') ← each handle es t;
    Some (t, out ++ out')
  end.

Definition set_socket (rtcp : bool) (c : DtlsSocketContext) (t : DtlsTransport) : DtlsTransport :=
  if rtcp then t <| dtlsRtcp := Some c |> else t <| dtlsRtp := c |>.

(** [if (!isServer_ && socket != NULL && !socket->started) socket->start()]. *)
Definition start_dtls (rtcp : bool) (a : ssl_answer) (t : DtlsTransport)
    : option (DtlsTransport * list transport_effect) :=
  match (if rtcp then dtlsRtcp t else Some (dtlsRtp t)) with
  | Some c =>
    if negb (isServer_ t) && negb (started c) then
      '(c, events) ← dtls_start a c;
      each (on_dtls_event rtcp) events (set_socket rtcp c t)
    else Some (t, [])
  | None => Some (t, [])
  end.

(** The listener of ICE; [a] and [a'] are OpenSSL's answers for the two sockets. *)
Definition updateIceState (a a' : ssl_answer) (state : IceState) (t : DtlsTransport)
    : option (DtlsTransport * list transport_effect) :=
  match state with
  | NICE_INITIAL =>
    if decide (state_ t = TRANSPORT_STARTED) then Some (t, [])
    else Some (updateTransportState TRANSPORT_STARTED t)
  | NICE_CANDIDATES_RECEIVED =>
    if decide (state_ t = TRANSPORT_GATHERED) then Some (t, [])
    else Some (updateTransportState TRANSPORT_GATHERED t)
  | NICE_FAILED => Some (updateTransportState TRANSPORT_FAILED (t <| running_ := false |>))
  | NICE_READY =>
    '(t, out) ← start_dtls false a t;
    '(t, out') ← start_dtls true a' t;
    Some (t, out ++ out')
  | NICE_FINISHED => Some (t, [])
  end.

Definition onCandidate (cand : CandidateInfo.CandidateInfo) (t : DtlsTransport)
    : option (DtlsTransport * list transport_effect) :=
  if transpListener_ t then Some (t, [NewCandidate cand]) else None.

Definition on_nice_effect (a a' : ssl_answer) (t : DtlsTransport) (e : effect)
    : option (DtlsTransport * list transport_effect) :=
  match e with
  | Nice c => Some (t, [NiceCall c])
  | Notify s => updateIceState a a' s t
  | Deliver cand => onCandidate cand t
  end.

(** What a callback of libnice does to the transport. *)
Definition on_nice (mem : CandidateInfo.CandidateInfo) (a a' : ssl_answer) (op : nice_op)
    (t : DtlsTransport) : option (DtlsTransport * list transport_effect) :=
  '(n, effects) ← run_op mem op (nice_ t);
  each (on_nice_effect a a') effects (t <| nice_ := n |>).

Definition start (creds : string * string) (t : DtlsTransport) : DtlsTransport * list transport_effect :=
  let '(n, effects) := NiceConnection.start creds (nice_ t) in
  (t <| nice_ := n |>,
   nice_calls effects).

Definition close (t : DtlsTransport) : option (DtlsTransport * list transport_effect) :=
  let t := t <| running_ := false |> <| nice_ ::= setNiceListener false |> in
  '(n, effects) ← NiceConnection.close (nice_ t);
  Some (t <| nice_ := n |> <| state_ := TRANSPORT_FINISHED |>,
        nice_calls effects).

(** The destructor, and those of the members that can throw. *)
Definition DtlsTransport_dtor (t : DtlsTransport) : option unit :=
  t ← (if decide (state_ t = TRANSPORT_FINISHED) then Some t else '(t, _) ← close t; Some t);
  NiceConnection_dtor (nice_ t).

Definition setRemoteCandidates (candidates : list CandidateInfo.CandidateInfo) (isBundle : bool)
    (t : DtlsTransport) : option (bool * DtlsTransport * list transport_effect) :=
  '(res, n, effects) ← NiceConnection.setRemoteCandidates candidates isBundle (nice_ t);
  Some (res, t <| nice_ := n |>,
        nice_calls effects).

(** ** Media *)

Definition isDtlsPacket (buf : list Z) (len : Z) : option bool :=
  data ← demuxPacket buf len;
  Some (match data with dtls => true | _ => false end).

(** [memcpy] into one of the buffers of 5000 bytes. *)
Definition fill (buf src : list Z) (len : Z) : option (list Z) :=
  if len <? 0 then None else
  bytes ← read_at (Z.to_nat len) src 0; write_at buf 0 bytes.

(** [if (resender.get() != NULL) resender->...]. *)
Definition with_resender (f : Resender -> Resender) (rtcp : bool) (t : DtlsTransport) : DtlsTransport :=
  match resender_of rtcp t with
  | Some r => set_resender rtcp (f r) t
  | None => t
  end.

Definition read_dtls (rtcp : bool) (a : ssl_answer) (data : list Z) (len : Z) (t : DtlsTransport)
    : option (DtlsTransport * list transport_effect) :=
  let t := with_resender Cancel rtcp t in
  c ← (if rtcp then dtlsRtcp t else Some (dtlsRtp t));
  '(c, events) ← dtls_read a data len c;
  each (on_dtls_event rtcp) events (set_socket rtcp c t).

Definition onNiceData (a : ssl_answer) (component_id : Z) (data : list Z) (len : Z) (t : DtlsTransport)
    : option (DtlsTransport * list transport_effect) :=
  is_dtls ← isDtlsPacket data len;
  if is_dtls : bool then read_dtls (negb (component_id =? 1)) a data len t
  else if decide (state_ t = TRANSPORT_READY) then
    buf ← fill (unprotectBuf_ t) data len;
    let t := t <| unprotectBuf_ := buf |> in
    let second := bool_decide (is_Some (dtlsRtcp t)) && (component_id =? 2) in
    match (if second then srtcp_ t else srtp_ t) with
    | None => Some (t, [])
    | Some channel =>
      rtcp ← RtcpHeader.isRtcp buf 0;
      '(val, channel, buf, length) ←
        (if rtcp : bool then unprotectRtcp buf len channel else unprotectRtp buf len channel);
      let t := t <| unprotectBuf_ := buf |> in
      let t := if second then t <| srtcp_ := Some channel |> else t <| srtp_ := Some channel |> in
      if (val <? 0) || (length <=? 0) then Some (t, [])
      else if transpListener_ t then Some (t, [TransportData buf length]) else None
    end
  else Some (t, []).

Definition write (data : list Z) (len : Z) (t : DtlsTransport)
    : option (DtlsTransport * list transport_effect) :=
  if decide (state_ t = TRANSPORT_READY) then
    buf ← fill (protectBuf_ t) data len;
    let t := t <| protectBuf_ := buf |> in
    rtcp ← RtcpHeader.isRtcp buf 0;
    let second := rtcp && bool_decide (is_Some (dtlsRtcp t)) in
    let comp := if rtcp && negb (rtcp_mux_ t) then 2 else 1 in
    let ready := bool_decide (checkIceState (nice_ t) = NICE_READY) in
    '(val, t, length) ←
      (match (if second then srtcp_ t else srtp_ t) with
       | Some channel =>
         if ready : bool then
           '(val, channel, buf, length) ←
             (if rtcp : bool then protectRtcp buf len channel else protectRtp buf len channel);
           let t := t <| protectBuf_ := buf |> in
           Some (val, if second then t <| srtcp_ := Some channel |> else t <| srtp_ := Some channel |>, length)
         else Some (0, t, len)
       | None => Some (0, t, len)
       end);
    if (val <? 0) || (length <=? 10) then Some (t, [])
    else if ready then Some (t, writeOnNice comp (protectBuf_ t) length t)
    else Some (t, [])
  else Some (t, []).

(** One round of [getNiceDataLoop] with the packet [getPacket] returned. *)
Definition nice_data_round (a : ssl_answer) (p : dataPacket) (t : DtlsTransport)
    : option (DtlsTransport * list transport_effect) :=
  '(t, out) ← (if 0 <? length_ p then onNiceData a (comp p) (data p) (length_ p) t else Some (t, []));
  Some (if length_ p =? -1 then t <| running_ := false |> else t, out).

(** The timer of a resender expires. *)
Definition timer_fires (rtcp : bool) : DtlsTransport -> DtlsTransport :=
  with_resender (fun r => r <| service ::= timer_expires |>) rtcp.

(** The thread of a resender calls the next handler, if there is one. *)
Definition resender_thread (rtcp : bool) (t : DtlsTransport) : DtlsTransport * list transport_effect :=
  match resender_of rtcp t ≫= Run_one with
  | Some (r, calls) => resender_calls rtcp calls (set_resender rtcp r t)
  | None => (t, [])
  end.

(** ** The local description; [md] is the digest of the certificate. *)
Definition processLocalSdp (md : list Z) (t : DtlsTransport) (s : SdpInfo.SdpInfo) : option SdpInfo.SdpInfo :=
  fp ← getFingerprint md;
  let s := s <| isFingerprint := true |> <| fingerprint := fp |> in
  let username := ufrag_ (nice_ t) in
  let password := upass_ (nice_ t) in
  Some (if bundle_ t then
          setCredentials username password AUDIO_TYPE (setCredentials username password VIDEO_TYPE s)
        else setCredentials username password (mediaType t) s).
End Transport.

(** ** Retransmission *)

(** ** Retransmission *)

(** What happens to the resender of one socket: a message is to be sent, the peer's answer
    arrives (the [Cancel] of [read_dtls]), the timer expires, the thread calls a handler. *)
Inductive resender_event := Message (data : list Z) | Answer | Expiry | Handler.

Definition resender_step `{CryptoLib} (rtcp : bool) (t : DtlsTransport) (e : resender_event)
    : option (DtlsTransport * list transport_effect) :=
  match e with
  | Message data => onDtlsPacket rtcp data t
  | Answer => Some (with_resender Cancel rtcp t, [])
  | Expiry => Some (timer_fires rtcp t, [])
  | Handler => Some (resender_thread rtcp t)
  end.

Definition messages (es : list resender_event) : list (list Z) :=
  omap (fun e => match e with Message data => Some data | _ => None end) es.

Definition timeouts (k : nat) : list resender_event := concat (replicate k [Expiry; Handler]).

Section Retransmission.
Context `{CryptoLib} {Laws : AsioLaws crypto_asio}.
Implicit Types (r : Resender) (t : DtlsTransport).

Definition view r : io_view := io_state (service r).

(** The states of a resender: waiting for the timer, which expired, or was cancelled, the
    handler not yet called; and stopped, whatever is started afterwards. *)
Definition armed r : Prop :=
  thread_ r = true /\ view r = {| io_waits := true; io_ready := []; io_running := true; io_stopped := false |}.
Definition called r (aborted : bool) : Prop :=
  thread_ r = true /\ view r = {| io_waits := false; io_ready := [aborted]; io_running := true; io_stopped := false |}.
Definition ended r : Prop := io_running (view r) = false /\ io_stopped (view r) = true.

(** A message already in the buffer. *)
Definition holds r (data : list Z) : Prop :=
  List.length (data_ r) = 1500%nat /\ take (Z.to_nat (len_ r)) (data_ r) = data.

Lemma next_ready s aborted q :
  io_running (io_state s) = true -> io_ready (io_state s) = aborted :: q ->
  exists s', service_next s = Some (aborted, s') /\ io_state s' = (io_state s) <| io_ready := q |>.
Proof. intros E1 E2. pose proof (next_state s) as N. rewrite E1, E2 in N. exact N. Qed.

Lemma next_none s : io_running (io_state s) = false \/ io_ready (io_state s) = [] -> service_next s = None.
Proof.
  pose proof (next_state s) as N. intros [E|E]; rewrite E in N; [exact N|].
  destruct (io_running _); exact N.
Qed.

Lemma expires_armed r : armed r -> called (r <| service ::= timer_expires |>) false.
Proof. unfold armed, called, view. simpl. intros [T E]. rewrite expires_state, E. auto. Qed.

Lemma cancel_armed r : armed r -> called (Cancel r) true.
Proof. unfold armed, called, view. simpl. intros [T E]. rewrite cancel_state, E. auto. Qed.

(** A handler whose wait was aborted does nothing, and the thread leaves. *)
Lemma Run_aborted r : called r true -> exists r',
  Run_one r = Some (r', []) /\ ended r' /\ data_ r' = data_ r /\ len_ r' = len_ r /\ max_resends_ r' = max_resends_ r.
Proof.
  unfold called, view. intros [T E]. unfold Run_one.
  destruct (next_ready (service r) true []) as (s & -> & Es); [rewrite E; reflexivity..|].
  cbn. eexists. split; [reflexivity|]. split; [|auto].
  unfold ended, view. simpl. rewrite returned_state, Es, E. auto.
Qed.

(** A timeout that is left: the message again, and the timer once more. *)
Lemma Run_again r data n : called r false -> holds r data -> max_resends_ r = Z.of_nat (S n) ->
  Z.of_nat (S n) < 2 ^ 32 -> exists r',
  Run_one r = Some (r', [WriteDtls data]) /\ armed r' /\ holds r' data /\ max_resends_ r' = Z.of_nat n.
Proof.
  unfold called, view. intros [T E] [Hl Hd] Hm Hlt. unfold Run_one.
  destruct (next_ready (service r) false []) as (s & -> & Es); [rewrite E; reflexivity..|].
  cbn [option_bind mbind]. unfold Resend. simpl max_resends_. rewrite Hm.
  rewrite (proj2 (Z.ltb_lt _ _)) by lia. cbn.
  eexists. split; [apply (f_equal (fun d => Some (_, [WriteDtls d]))), Hd|]. split_and!.
  - split; [exact T|]. unfold view. simpl. rewrite returned_state, wait_state, cancel_state, Es, E. reflexivity.
  - split; assumption.
  - simpl. rewrite wrap_small by (unfold in_width; lia). lia.
Qed.

Lemma Run_timeout r : called r false -> max_resends_ r = 0 -> exists r',
  Run_one r = Some (r', [DtlsTimeout]) /\ ended r' /\ data_ r' = data_ r.
Proof.
  unfold called, view. intros [T E] Hm. unfold Run_one.
  destruct (next_ready (service r) false []) as (s & -> & Es); [rewrite E; reflexivity..|].
  cbn [option_bind mbind]. unfold Resend. simpl max_resends_. rewrite Hm. cbn.
  eexists. split; [reflexivity|]. split; [|reflexivity].
  unfold ended, view. simpl. rewrite returned_state, Es, E. auto.
Qed.

(** [ScheduleResend] up to the wait for the thread. *)
Definition loaded (data : list Z) r : Resender :=
  r <| service ::= timer_cancel |> <| data_ := data ++ drop (List.length data) (data_ r) |>
    <| len_ := Z.of_nat (List.length data) |>.

Definition rearmed r : Resender :=
  r <| service ::= timer_async_wait |> <| thread_ := true |> <| service ::= service_run |>.

Lemma Schedule_spec data r :
  List.length (data_ r) = 1500%nat -> (List.length data <= 1500)%nat ->
  holds (loaded data r) data
  /\ ScheduleResend data (Z.of_nat (List.length data)) r =
     ('(r, out) ← (if thread_ r then join (join_fuel (loaded data r)) (loaded data r) else Some (loaded data r, []));
      Some (rearmed r, WriteDtls data :: out)).
Proof.
  intros Hl Hd. split.
  - split; simpl; [rewrite length_app, length_drop; lia|].
    rewrite Nat2Z.id, take_app_le, take_ge by lia. reflexivity.
  - unfold ScheduleResend. cbv zeta. rewrite (proj2 (Z.ltb_ge _ _)) by lia. rewrite Nat2Z.id.
    rewrite read_at_Some by (unfold in_bounds; lia). rewrite drop_0, take_ge by lia.
    cbn [option_bind mbind]. rewrite write_at_Some by (unfold in_bounds; simpl; lia). reflexivity.
Qed.

Lemma join_left fuel r : io_running (view r) = false -> join fuel r = Some (r, []).
Proof. unfold view. intros E. destruct fuel; simpl; rewrite E; reflexivity. Qed.

Lemma join_aborted r fuel : called r true -> exists r',
  join (S fuel) r = Some (r', []) /\ ended r' /\ data_ r' = data_ r /\ len_ r' = len_ r.
Proof.
  intros C. destruct (Run_aborted r C) as (r' & E & [E1 E2] & Hd & Hl & _).
  exists r'. split_and!; auto; [|split; auto]. simpl. unfold called, view in C. rewrite (proj2 C). cbn [negb io_running].
  rewrite E. cbn [option_bind mbind]. rewrite join_left by exact E1. reflexivity.
Qed.

(** A timer that expired before the cancel: the wait for the thread lasts until every
    timeout that is left has passed, and the handshake has failed. *)
Lemma join_late n : forall r data fuel, called r false -> holds r data -> max_resends_ r = Z.of_nat n ->
  Z.of_nat n < 2 ^ 32 -> (2 * n + 2 <= fuel)%nat -> exists r',
  join fuel r = Some (r', replicate n (WriteDtls data) ++ [DtlsTimeout]) /\ ended r'.
Proof.
  induction n as [|n IH]; intros r data fuel C Hh Hm Hlt Hf;
    (destruct fuel as [|fuel]; [lia|]); simpl join; pose proof C as C';
    unfold called, view in C'; rewrite (proj2 C'); cbn [negb io_running].
  - destruct (Run_timeout r C Hm) as (r' & E & [E1 E2] & _). rewrite E. cbn [option_bind mbind].
    rewrite join_left by exact E1. exists r'. split; [reflexivity | split; auto].
  - destruct (Run_again r data n C Hh Hm Hlt) as (r' & E & A & Hh' & Hm'). rewrite E. cbn [option_bind mbind].
    destruct fuel as [|fuel]; [lia|].
    assert (Hx : join (S fuel) r' = join fuel (r' <| service ::= timer_expires |>)).
    { simpl join. destruct A as [_ A]. unfold view in A. rewrite A. cbn [negb io_running].
      unfold Run_one. rewrite next_none by (right; rewrite A; reflexivity). reflexivity. }
    rewrite Hx. destruct (IH _ data fuel (expires_armed _ A) Hh' Hm') as (r2 & -> & E2); [lia..|].
    exists r2. split; [reflexivity | exact E2].
Qed.

Lemma rearmed_ended r : ended r -> ended (rearmed r).
Proof.
  unfold ended, view. intros [E1 E2]. simpl. rewrite run_state, wait_state, cancel_state.
  destruct (io_waits _); simpl; rewrite E2; simpl; auto.
Qed.

(** A resender whose thread has left, or will when it next runs. *)
Definition quiet r : Prop := List.length (data_ r) = 1500%nat /\ (ended r \/ called r true).

Lemma quiet_message data r : quiet r -> (List.length data <= 1500)%nat -> exists r',
  ScheduleResend data (Z.of_nat (List.length data)) r = Some (r', [WriteDtls data]) /\ quiet r'.
Proof.
  intros [Hl Hq] Hd. destruct (Schedule_spec data r Hl Hd) as [[Hl' _] ->].
  destruct Hq as [[E1 E2]|[T C]].
  - assert (E : ended (loaded data r)).
    { unfold ended, view, loaded in *. simpl. rewrite cancel_state. destruct (io_waits _); simpl; auto. }
    rewrite join_left by apply E. exists (rearmed (loaded data r)). split; [destruct (thread_ r); reflexivity|].
    split; [exact Hl' | left; apply rearmed_ended, E].
  - assert (C' : called (loaded data r) true).
    { unfold called, view, loaded in *. simpl. rewrite cancel_state, C. auto. }
    rewrite T. unfold join_fuel. pose proof C' as [_ C2]. unfold view in C2. rewrite C2. cbn [io_running].
    destruct (join_aborted (loaded data r) (2 * Z.to_nat (max_resends_ (loaded data r)) + 3) C')
      as (r' & E & En & Hd' & _).
    replace (2 * Z.to_nat (max_resends_ (loaded data r)) + 4)%nat
      with (S (2 * Z.to_nat (max_resends_ (loaded data r)) + 3)) by lia.
    rewrite E. exists (rearmed r'). split; [reflexivity|].
    split; [simpl; rewrite Hd'; exact Hl' | left; apply rearmed_ended, En].
Qed.

Lemma quiet_cancel r : quiet r -> quiet (Cancel r).
Proof.
  intros [Hl Hq]. split; [exact Hl|]. unfold ended, called, view, Cancel in *. simpl. rewrite cancel_state.
  destruct Hq as [[E1 E2]|[T C]]; [left; destruct (io_waits _); simpl; auto | right; rewrite C; auto].
Qed.

Lemma quiet_expires r : quiet r -> quiet (r <| service ::= timer_expires |>).
Proof.
  intros [Hl Hq]. split; [exact Hl|]. unfold ended, called, view in *. simpl. rewrite expires_state.
  destruct Hq as [[E1 E2]|[T C]]; [left; destruct (io_waits _); simpl; auto | right; rewrite C; auto].
Qed.

Lemma quiet_thread r : quiet r -> Run_one r = None \/ exists r', Run_one r = Some (r', []) /\ quiet r'.
Proof.
  intros [Hl [[E1 E2]|C]].
  - left. unfold Run_one. rewrite next_none by (left; exact E1). reflexivity.
  - right. destruct (Run_aborted r C) as (r' & E & En & Hd & _). exists r'. split; [exact E|].
    split; [rewrite Hd; exact Hl | left; exact En].
Qed.

(** ** The transport of a resender *)

Lemma resender_of_set rtcp r t : resender_of rtcp (set_resender rtcp r t) = Some r.
Proof. destruct rtcp; reflexivity. Qed.

Lemma set_resender_twice rtcp r r' t : set_resender rtcp r' (set_resender rtcp r t) = set_resender rtcp r' t.
Proof. destruct rtcp; reflexivity. Qed.

Lemma each_app {E} (f : DtlsTransport -> E -> option (DtlsTransport * list transport_effect)) es es' : forall t t' out,
  each f es t = Some (t', out) ->
  each f (es ++ es') t = ('(t2, out') ← each f es' t'; Some (t2, out ++ out')).
Proof.
  induction es as [|e es IH]; intros t t' out; simpl.
  - intros [= <- <-]. destruct (each f es' t) as [[t2 out']|]; reflexivity.
  - intros E1. apply bind_Some in E1 as ([t1 o1] & -> & E1). apply bind_Some in E1 as ([t2 o2] & E2 & [= <- <-]).
    cbn [option_bind mbind]. rewrite (IH _ _ _ E2). destruct (each f es' t2) as [[t3 o3]|]; [|reflexivity].
    cbn [option_bind mbind]. rewrite app_assoc. reflexivity.
Qed.

Lemma write_calls rtcp ps r t :
  resender_calls rtcp (map WriteDtls ps) (set_resender rtcp r t)
  = (set_resender rtcp r t, concat (map (fun p => writeDtlsPacket rtcp p t) ps)).
Proof.
  induction ps as [|p ps IH]; [reflexivity|]. simpl. rewrite IH. destruct rtcp; reflexivity.
Qed.

Lemma timeouts_S k : timeouts (S k) = timeouts k ++ [Expiry; Handler].
Proof.
  unfold timeouts. rewrite <- Nat.add_1_r, replicate_add, concat_app. simpl. reflexivity.
Qed.

(** An answer that comes when the timer has expired but its handler has not been called: the
    next message is sent again at each timeout that is left, while the sender waits for the
    thread, and then the handshake fails. *)
Lemma late_answer r data n :
  called r false -> max_resends_ r = Z.of_nat n -> Z.of_nat n < 2 ^ 32 ->
  List.length (data_ r) = 1500%nat -> (List.length data <= 1500)%nat -> exists r',
  ScheduleResend data (Z.of_nat (List.length data)) (Cancel r)
  = Some (r', WriteDtls data :: replicate n (WriteDtls data) ++ [DtlsTimeout]).
Proof.
  intros [T C] Hm Hlt Hl Hd. destruct (Schedule_spec data (Cancel r) Hl Hd) as [Hh ->].
  assert (C' : called (loaded data (Cancel r)) false).
  { split; [exact T|]. unfold view, Cancel in *. simpl. rewrite !cancel_state, C. reflexivity. }
  change (thread_ (Cancel r)) with (thread_ r). rewrite T.
  destruct (join_late n (loaded data (Cancel r)) data (join_fuel (loaded data (Cancel r))) C' Hh Hm Hlt) as (r' & -> & _).
  - unfold join_fuel. destruct C' as [_ C']. unfold view in C'. rewrite C'. cbn [io_running].
    change (max_resends_ (loaded data (Cancel r))) with (max_resends_ r). rewrite Hm. lia.
  - eexists. reflexivity.
Qed.

Section OfTransport.
Context (rtcp : bool) (t : DtlsTransport).

Notation at_ r := (set_resender rtcp r t).
Notation run := (each (resender_step rtcp)).
Notation msg d := (writeDtlsPacket rtcp d t).

Lemma message_step r data ps r' :
  ScheduleResend data (Z.of_nat (List.length data)) r = Some (r', map WriteDtls ps) ->
  resender_step rtcp (at_ r) (Message data) = Some (at_ r', concat (map (fun p => msg p) ps)).
Proof.
  intros E. simpl. unfold onDtlsPacket. rewrite resender_of_set. cbn [option_bind mbind]. rewrite E.
  cbn [option_bind mbind]. rewrite set_resender_twice, write_calls. reflexivity.
Qed.

Lemma handler_step r ps r' :
  Run_one r = Some (r', map WriteDtls ps) ->
  resender_step rtcp (at_ r) Handler = Some (at_ r', concat (map (fun p => msg p) ps)).
Proof.
  intros E. simpl. unfold resender_thread. rewrite resender_of_set. cbn [option_bind mbind]. rewrite E.
  rewrite set_resender_twice, write_calls. reflexivity.
Qed.

Lemma with_step f r : with_resender f rtcp (at_ r) = at_ (f r).
Proof. unfold with_resender. rewrite resender_of_set, set_resender_twice. reflexivity. Qed.

Lemma expiry_step r : resender_step rtcp (at_ r) Expiry = Some (at_ (r <| service ::= timer_expires |>), []).
Proof. simpl. unfold timer_fires. rewrite with_step. reflexivity. Qed.

(** Nothing but the messages themselves is written, whatever happens to a quiet resender. *)
Lemma quiet_run es : forall r,
  quiet r -> Forall (fun d => List.length d <= 1500)%nat (messages es) ->
  exists r', run es (at_ r) = Some (at_ r', concat (map (fun d => msg d) (messages es))) /\ quiet r'.
Proof.
  induction es as [|e es IH]; intros r Q Hf; [exists r; auto|].
  assert (Step : exists r1, resender_step rtcp (at_ r) e
            = Some (at_ r1, concat (map (fun d => msg d) (messages [e]))) /\ quiet r1).
  { destruct e; simpl messages in *.
    - apply Forall_cons in Hf as [Hd _]. destruct (quiet_message data r Q Hd) as (r1 & E & Q1).
      exists r1. split; [apply (message_step r data [data] r1 E) | exact Q1].
    - exists (Cancel r). split; [simpl; rewrite with_step; reflexivity | apply quiet_cancel, Q].
    - exists (r <| service ::= timer_expires |>). split; [apply expiry_step | apply quiet_expires, Q].
    - destruct (quiet_thread r Q) as [E|(r1 & E & Q1)].
      + exists r. split; [|exact Q]. simpl. unfold resender_thread. rewrite resender_of_set. simpl. rewrite E. reflexivity.
      + exists r1. split; [apply (handler_step r [] r1 E) | exact Q1]. }
  destruct Step as (r1 & E & Q1).
  change (e :: es) with ([e] ++ es) in Hf |- *. unfold messages in Hf |- *. rewrite omap_app in Hf |- *.
  apply Forall_app in Hf as [_ Hf]. destruct (IH r1 Q1 Hf) as (r2 & E2 & Q2).
  exists r2. split; [|exact Q2].
  simpl. rewrite E. cbn [option_bind mbind]. unfold messages in E2. rewrite E2. cbn [option_bind mbind].
  rewrite map_app, concat_app. reflexivity.
Qed.

(** One timeout that is left. *)
Lemma timeout_step r data n :
  armed r -> holds r data -> max_resends_ r = Z.of_nat (S n) -> Z.of_nat (S n) < 2 ^ 32 ->
  exists r', run [Expiry; Handler] (at_ r) = Some (at_ r', msg data)
    /\ armed r' /\ holds r' data /\ max_resends_ r' = Z.of_nat n.
Proof.
  intros A Hh Hm Hlt.
  destruct (Run_again (r <| service ::= timer_expires |>) data n (expires_armed r A) Hh Hm Hlt) as (r' & E & Rest).
  exists r'. split; [|exact Rest]. cbn [each]. rewrite expiry_step. cbn [option_bind mbind].
  rewrite (handler_step _ [data] r' E). cbn. rewrite !app_nil_r. reflexivity.
Qed.

Lemma timeouts_run data n : forall r k,
  armed r -> holds r data -> max_resends_ r = Z.of_nat (k + n) -> Z.of_nat (k + n) < 2 ^ 32 ->
  exists r', run (timeouts k) (at_ r) = Some (at_ r', concat (replicate k (msg data)))
    /\ armed r' /\ holds r' data /\ max_resends_ r' = Z.of_nat n.
Proof.
  intros r k. revert r. induction k as [|k IH]; intros r A Hh Hm Hlt; [exists r; auto|].
  destruct (timeout_step r data (k + n) A Hh Hm Hlt) as (r1 & E1 & A1 & Hh1 & Hm1).
  destruct (IH r1 A1 Hh1 Hm1) as (r2 & E2 & Rest); [lia|]. exists r2. split; [|exact Rest].
  change (timeouts (S k)) with ([Expiry; Handler] ++ timeouts k). rewrite (each_app _ _ _ _ _ _ E1).
  rewrite E2. reflexivity.
Qed.

(** The first message of a new resender. *)
Lemma first_message mem data max :
  List.length mem.1 = 1500%nat -> (List.length data <= 1500)%nat -> exists r',
  resender_step rtcp (at_ (Resender_ctor mem (Z.of_nat max))) (Message data) = Some (at_ r', msg data)
    /\ armed r' /\ holds r' data /\ max_resends_ r' = Z.of_nat max.
Proof.
  intros Hl Hd. destruct (Schedule_spec data (Resender_ctor mem (Z.of_nat max)) Hl Hd) as [Hh E].
  exists (rearmed (loaded data (Resender_ctor mem (Z.of_nat max)))). split; [|split; [|split; [exact Hh | reflexivity]]].
  - rewrite (message_step _ data [data] _ E). simpl. rewrite app_nil_r. reflexivity.
  - split; [reflexivity|]. unfold view. simpl. rewrite run_state, wait_state, !cancel_state, new_state. reflexivity.
Qed.

(** The last timeout. *)
Lemma last_timeout r :
  state_ t <> TRANSPORT_FAILED -> transpListener_ t = true -> armed r -> max_resends_ r = 0 ->
  exists r', run [Expiry; Handler] (at_ r)
      = Some (set_resender rtcp r' (t <| running_ := false |> <| state_ := TRANSPORT_FAILED |>), [UpdateState TRANSPORT_FAILED])
    /\ ended r' /\ data_ r' = data_ r.
Proof.
  intros Hs Hlis A Hm. destruct (Run_timeout _ (expires_armed r A) Hm) as (r' & E & Rest).
  exists r'. split; [|exact Rest]. cbn [each]. rewrite expiry_step. cbn [option_bind mbind].
  simpl. unfold resender_thread. rewrite resender_of_set. cbn [option_bind mbind]. rewrite E.
  rewrite set_resender_twice. cbn [resender_calls]. unfold onHandshakeFailed, updateTransportState.
  rewrite decide_False by (destruct rtcp; simpl; congruence).
  destruct rtcp; simpl; rewrite Hlis; reflexivity.
Qed.
End OfTransport.

(** C26. A DTLS message of at most 1500 bytes on a socket whose resender is new is written at
    once and again at each of the first [max_resends_] timeouts.  At the next one the
    handshake fails: the transport stops, goes to [TRANSPORT_FAILED] and tells its listener.
    If the peer's answer comes while the resender waits for the timer, after any number of
    those timeouts, the message is not written again.  After the failure as after the
    answer, whatever happens to the resender, every later message is written exactly once,
    at once, and nothing is ever resent nor fails: the service is stopped, and nothing
    resets it. *)
Theorem resend_schedule rtcp t mem max data :
  List.length mem.1 = 1500%nat -> Z.of_nat max < 2 ^ 32 -> (List.length data <= 1500)%nat ->
  resender_of rtcp t = Some (Resender_ctor mem (Z.of_nat max)) ->
  let run es := each (resender_step rtcp) (Message data :: es) t in
  let msg d := writeDtlsPacket rtcp d t in
  (forall k, (k <= max)%nat -> exists r,
     run (timeouts k) = Some (set_resender rtcp r t, concat (replicate (S k) (msg data))))
  /\ (forall k later, (k <= max)%nat -> Forall (fun d => List.length d <= 1500)%nat (messages later) -> exists r,
     run (timeouts k ++ Answer :: later)
     = Some (set_resender rtcp r t, concat (replicate (S k) (msg data)) ++ concat (map msg (messages later))))
  /\ (forall later, state_ t <> TRANSPORT_FAILED -> transpListener_ t = true ->
     Forall (fun d => List.length d <= 1500)%nat (messages later) -> exists r,
     run (timeouts (S max) ++ later)
     = Some (set_resender rtcp r (t <| running_ := false |> <| state_ := TRANSPORT_FAILED |>),
             concat (replicate (S max) (msg data)) ++ [UpdateState TRANSPORT_FAILED]
             ++ concat (map msg (messages later)))).
Proof.
  intros Hl Hmax Hd Hr run msg.
  assert (Ht : t = set_resender rtcp (Resender_ctor mem (Z.of_nat max)) t).
  { destruct rtcp, t; simpl in Hr |- *; [rewrite Hr | injection Hr as ->]; reflexivity. }
  destruct (first_message rtcp t mem data max Hl Hd) as (r1 & E1 & A1 & H1 & M1). rewrite <- Ht in E1.
  assert (Upto : forall k, (k <= max)%nat -> exists r,
    run (timeouts k) = Some (set_resender rtcp r t, concat (replicate (S k) (msg data)))
    /\ armed r /\ holds r data /\ max_resends_ r = Z.of_nat (max - k)).
  { intros k Hk. replace max with (k + (max - k))%nat in M1 by lia.
    destruct (timeouts_run rtcp t data (max - k) r1 k A1 H1 M1) as (r2 & E2 & Rest); [lia|].
    exists r2. split; [|exact Rest]. unfold run. cbn [each]. rewrite E1. cbn [option_bind mbind]. rewrite E2. reflexivity. }
  split_and!.
  - intros k Hk. destruct (Upto k Hk) as (r & E & _). eauto.
  - intros k later Hk Hlater. destruct (Upto k Hk) as (r & E & A & [Hdl _] & _).
    destruct (quiet_run rtcp t later (Cancel r)) as (r2 & E2 & _);
      [split; [exact Hdl | right; apply cancel_armed, A] | exact Hlater |].
    exists r2. unfold run in *. rewrite app_comm_cons, (each_app _ _ _ _ _ _ E). cbn [each resender_step].
    cbn [option_bind mbind]. rewrite with_step, E2. reflexivity.
  - intros later Hs Hlis Hlater. destruct (Upto max (le_n _)) as (r & E & A & [Hdl _] & Hm).
    rewrite Nat.sub_diag in Hm. destruct (last_timeout rtcp t r Hs Hlis A Hm) as (r2 & E2 & En & Hd2).
    set (t' := t <| running_ := false |> <| state_ := TRANSPORT_FAILED |>) in *.
    destruct (quiet_run rtcp t' later r2) as (r3 & E3 & _);
      [split; [congruence | left; exact En] | exact Hlater |].
    exists r3. unfold run in *. rewrite timeouts_S, <- app_assoc, app_comm_cons, (each_app _ _ _ _ _ _ E).
    rewrite (each_app _ _ _ _ _ _ E2), E3. reflexivity.
Qed.

End Retransmission.

(** ** The keys of a handshake *)

Section Pair.
Context `{CryptoLaws}.

Definition channel_of (rtcp : bool) (t : DtlsTransport) : option SrtpChannel :=
  if rtcp then srtcp_ t else srtp_ t.

(** What the sender protects the receiver can unprotect. *)
Definition linked (sender receiver : SrtpChannel) : Prop :=
  active_ sender = true /\ active_ receiver = true
  /\ exists s r, send_session_ sender = Some s /\ receive_session_ receiver = Some r /\ in_sync s r.

Definition sockets (t : DtlsTransport) : list bool :=
  match dtlsRtcp t with None => [false] | Some _ => [false; true] end.

(** The callback of a socket whose handshake derived the key material [m]. *)
Definition handshake (rtcp : bool) (m : list Z) (t : DtlsTransport) : DtlsTransport * list transport_effect :=
  let keys := getSrtpSessionKeys (Some m) in
  onHandshakeCompleted rtcp (clientKey_of keys) (serverKey_of keys) t.

(** The sockets of a transport complete their handshakes in the given order, each with its
    own key material. *)
Fixpoint complete (m : bool -> list Z) (order : list bool) (t : DtlsTransport)
    : DtlsTransport * list transport_effect :=
  match order with
  | [] => (t, [])
  | rtcp :: order =>
    let '(t, out) := handshake rtcp (m rtcp) t in
    let '(t, out') := complete m order t in (t, out ++ out')
  end.

(** 60 bytes, as [SSL_export_keying_material] writes them. *)
Definition material_ok (m : list Z) : Prop := List.length m = 60%nat /\ bytes_ok m.

(** The keys the transport sends and receives with. *)
Definition own_keys (server : bool) (m : list Z) : string * string :=
  let keys := getSrtpSessionKeys (Some m) in
  if server then (serverKey_of keys, clientKey_of keys) else (clientKey_of keys, serverKey_of keys).

Definition keyed (server : bool) (m : list Z) : SrtpChannel :=
  (setRtpParams (own_keys server m).1 (own_keys server m).2 SrtpChannel_ctor).2.

Lemma key_lengths m :
  List.length m = 60%nat -> bytes_ok m ->
  let keys := getSrtpSessionKeys (Some m) in
  List.length (clientMasterKey keys ++ clientMasterSalt keys) = 30%nat
  /\ List.length (serverMasterKey keys ++ serverMasterSalt keys) = 30%nat
  /\ bytes_ok (clientMasterKey keys ++ clientMasterSalt keys)
  /\ bytes_ok (serverMasterKey keys ++ serverMasterSalt keys).
Proof.
  intros Hl Hok. cbv zeta. unfold getSrtpSessionKeys, SRTP_MASTER_KEY_KEY_LEN, SRTP_MASTER_KEY_SALT_LEN.
  cbn [clientMasterKey clientMasterSalt serverMasterKey serverMasterSalt].
  split_and!; try (rewrite length_app, !length_take, ?length_drop, Hl; reflexivity);
    (apply Forall_app; split; apply Forall_take; try apply Forall_drop; exact Hok).
Qed.

Lemma keyed_ok server m :
  List.length m = 60%nat -> bytes_ok m ->
  setRtpParams (own_keys server m).1 (own_keys server m).2 SrtpChannel_ctor = (true, keyed server m)
  /\ linked (keyed server m) (keyed (negb server) m).
Proof.
  intros Hl Hok. destruct (key_lengths m Hl Hok) as (Lc & Ls & Oc & Os).
  unfold keyed, setRtpParams, configureSrtpSession, linked, own_keys, clientKey_of, serverKey_of. cbv zeta.
  destruct (create_in_sync _ Lc) as (sc & rc & E1 & E2 & S1).
  destruct (create_in_sync _ Ls) as (ss & rs & E3 & E4 & S2).
  destruct server; cbn [fst snd negb]; rewrite !base64_inverse by assumption; rewrite E1, E2, E3, E4;
    (split; [reflexivity|]); simpl; eauto 10.
Qed.

(** The transport with the channel of one handshake. *)
Definition handshaken (rtcp : bool) (m : list Z) (t : DtlsTransport) : DtlsTransport :=
  if rtcp then t <| srtcp_ := Some (keyed (isServer_ t) m) |> <| readyRtcp := true |>
  else let t := t <| srtp_ := Some (keyed (isServer_ t) m) |> <| readyRtp := true |> in
       match dtlsRtcp t with None => t <| readyRtcp := true |> | Some _ => t end.

Definition announce (t : DtlsTransport) : DtlsTransport * list transport_effect :=
  if readyRtp t && readyRtcp t then updateTransportState TRANSPORT_READY t else (t, []).

Lemma handshake_step rtcp m t :
  material_ok m -> handshake rtcp m t = announce (handshaken rtcp m t).
Proof.
  intros [Hl Hok]. unfold handshake. cbv zeta. unfold onHandshakeCompleted, announce, handshaken.
  destruct (keyed_ok (isServer_ t) m Hl Hok) as [E _]. unfold own_keys in E. cbv zeta in E.
  destruct (isServer_ t) eqn:Hs; cbn [fst snd] in E; rewrite E; destruct rtcp;
    cbn -[updateTransportState]; try (destruct (dtlsRtcp t); cbn -[updateTransportState]);
    destruct (readyRtp t), (readyRtcp t); simpl; try reflexivity; destruct (updateTransportState _ _); reflexivity.
Qed.

(** A transport none of whose handshakes has completed. *)
Definition unready (t : DtlsTransport) : Prop :=
  readyRtp t = false /\ readyRtcp t = false /\ state_ t <> TRANSPORT_READY /\ transpListener_ t = true.

Lemma complete_spec m t order :
  (forall rtcp, material_ok (m rtcp)) -> unready t -> order ≡ₚ sockets t ->
  exists t', complete m order t = (t', [UpdateState TRANSPORT_READY])
    /\ state_ t' = TRANSPORT_READY /\ sockets t' = sockets t
    /\ forall rtcp, rtcp ∈ sockets t -> channel_of rtcp t' = Some (keyed (isServer_ t) (m rtcp)).
Proof.
  intros Hm (R1 & R2 & Hs & Hlis) Hp. unfold sockets in *.
  assert (Ho : match dtlsRtcp t with
               | None => order = [false]
               | Some _ => order = [false; true] \/ order = [true; false]
               end).
  { symmetry in Hp. destruct (dtlsRtcp t).
    - apply Permutation_length_2_inv in Hp as [->| ->]; auto.
    - apply Permutation_length_1_inv in Hp. exact Hp. }
  destruct t. simpl in R1, R2, Hs, Hlis, Ho. subst. simpl dtlsRtcp. clear Hp.
  destruct dtlsRtcp0; [destruct Ho as [->| ->] | subst order]; cbn [complete];
    rewrite handshake_step by apply Hm; unfold announce, handshaken; simpl;
    rewrite ?handshake_step by apply Hm; unfold announce, handshaken; simpl;
    unfold updateTransportState; simpl;
    (destruct (decide (TRANSPORT_READY = state_0)); [congruence|]);
    (eexists; split_and!; [reflexivity | reflexivity | reflexivity |]);
    intros [] Hin; try reflexivity; exfalso; set_solver.
Qed.

(** C7. When two transports, one client and one server with the same components, complete
    their handshakes in whatever order with the same key material, each becomes ready and
    tells its listener once; on every component what the one sends the other receives
    with the same key, in both directions. *)
Theorem handshake_mirrored m tc ts order order' :
  (forall rtcp, material_ok (m rtcp)) -> unready tc -> unready ts ->
  isServer_ tc = false -> isServer_ ts = true -> sockets tc = sockets ts ->
  order ≡ₚ sockets tc -> order' ≡ₚ sockets ts ->
  exists tc' ts',
    complete m order tc = (tc', [UpdateState TRANSPORT_READY])
    /\ complete m order' ts = (ts', [UpdateState TRANSPORT_READY])
    /\ state_ tc' = TRANSPORT_READY /\ state_ ts' = TRANSPORT_READY
    /\ forall rtcp, rtcp ∈ sockets tc -> exists c s,
         channel_of rtcp tc' = Some c /\ channel_of rtcp ts' = Some s /\ linked c s /\ linked s c.
Proof.
  intros Hm Uc Us Ic Is Hsock Pc Ps.
  destruct (complete_spec m tc order Hm Uc Pc) as (tc' & Ec & Sc & _ & Cc).
  destruct (complete_spec m ts order' Hm Us Ps) as (ts' & Es & Ss & _ & Cs).
  exists tc', ts'. split_and!; [exact Ec | exact Es | exact Sc | exact Ss |].
  intros rtcp Hin. destruct (Hm rtcp) as [Hl Hok].
  exists (keyed false (m rtcp)), (keyed true (m rtcp)). rewrite Ic in Cc. rewrite Is, <- Hsock in Cs.
  split_and!; [apply Cc, Hin | apply Cs, Hin | apply (keyed_ok false _ Hl Hok) | apply (keyed_ok true _ Hl Hok)].
Qed.
End Pair.

(** [n] is the size of the buffers: the handshake does not touch them. *)
Definition sample_memory (n : nat) : transport_memory :=
  {| rtp_mem := ([], 0); rtcp_mem := ([], 0);
     protect_mem := replicate n 0; unprotect_mem := replicate n 0; context_mem := false |}.

Definition sample_transport (n : nat) (server : bool) : @DtlsTransport Sample.lib :=
  DtlsTransport_ctor (H := Sample.lib) (sample_memory n) VIDEO_TYPE "video" true false true IceConfig_ctor "" "" server.

(** A ClientHello in short over a working ICE connection: five times again, the failure, and
    the next message once. *)
Example resend_schedule_witness :
  let t := set_resender false (Resender_ctor (replicate 1500 0, 0) kMaxResends)
             ((sample_transport 0 false) <| nice_ ::= fun n => n <| iceState_ := NICE_READY |> |>) in
  exists t', each (resender_step false) (Message [22; 1; 2] :: timeouts 6 ++ [Message [22; 3]; Expiry; Handler]) t
    = Some (t', replicate 6 (NiceCall (send 1 1 3 [22; 1; 2])) ++ [UpdateState TRANSPORT_FAILED]
                ++ [NiceCall (send 1 1 2 [22; 3])]).
Proof.
  destruct (resend_schedule (H := Sample.lib) (Laws := Asio.Sample.laws) false
     (set_resender false (Resender_ctor (replicate 1500 0, 0) kMaxResends)
        ((sample_transport 0 false) <| nice_ ::= fun n => n <| iceState_ := NICE_READY |> |>))
     (replicate 1500 0, 0) 5 [22; 1; 2]) as (_ & _ & Hf);
    [reflexivity | reflexivity | simpl; lia | reflexivity |].
  destruct (Hf [Message [22; 3]; Expiry; Handler]) as (r & E);
    [discriminate | reflexivity | repeat constructor |].
  eexists. exact E.
Defined.

(** Key material: the 60 bytes from [n] on. *)
Definition sample_material (n : nat) : list Z := map Z.of_nat (seq n 60).

Lemma sample_material_ok n : (n <= 196)%nat -> material_ok (sample_material n).
Proof.
  intros Hn. split; [unfold sample_material; rewrite length_map, length_seq; reflexivity|].
  apply Forall_forall. intros b Hb. apply list_elem_of_fmap in Hb as (k & -> & Hk).
  apply elem_of_seq in Hk. unfold byte_ok. lia.
Qed.

Definition sample_materials (rtcp : bool) : list Z := sample_material (if rtcp then 1 else 101).

Example handshake_mirrored_witness :
  exists tc' ts' c s,
    channel_of (H := Sample.lib) true tc' = Some c /\ channel_of true ts' = Some s
    /\ linked (H0 := Sample.laws) c s /\ linked (H0 := Sample.laws) s c
    /\ receive_session_ s = Some (map Z.of_nat (seq 1 16 ++ seq 33 14)).
Proof.
  destruct (handshake_mirrored (H0 := Sample.laws) sample_materials (sample_transport 0 false)
              (sample_transport 0 true) [true; false] [false; true])
    as (tc' & ts' & Ec & Es & _ & _ & Hch); try reflexivity.
  - intros []; apply sample_material_ok; lia.
  - repeat split; discriminate.
  - repeat split; discriminate.
  - apply perm_swap.
  - destruct (Hch true) as (c & s & Hc & Hs & L1 & L2); [right; left|].
    exists tc', ts', c, s. split_and!; [exact Hc | exact Hs | exact L1 | exact L2 |].
    apply (f_equal (fun r => channel_of true r.1 ≫= receive_session_)) in Es.
    cbn [fst] in Es. rewrite Hs in Es. exact (eq_sym Es).
Defined.

(** ** Packets between two transports *)

Section Media.
Context `{CryptoLaws}.

Lemma fill_spec buf src n :
  (n <= List.length src)%nat -> (n <= List.length buf)%nat ->
  fill buf src (Z.of_nat n) = Some (take n src ++ drop n buf).
Proof.
  intros Hs Hb. unfold fill. rewrite (proj2 (Z.ltb_ge _ _)) by lia. rewrite Nat2Z.id.
  rewrite read_at_Some by (unfold in_bounds; lia). rewrite drop_0. cbn [option_bind mbind].
  rewrite write_at_Some by (unfold in_bounds; rewrite length_take; lia).
  cbn [Z.to_nat take app]. rewrite length_take, Nat.min_l by lia. reflexivity.
Qed.

Lemma isRtcp_prefix a b :
  take 8 a = take 8 b -> (8 <= List.length a)%nat -> (8 <= List.length b)%nat ->
  RtcpHeader.isRtcp a 0 = RtcpHeader.isRtcp b 0.
Proof.
  intros E Ha Hb. unfold RtcpHeader.isRtcp, RtcpHeader.isFeedback, get_bf, load, read_at. simpl bf_off.
  rewrite !(proj2 (Z.leb_le _ _)) by lia. cbn [andb fmap option_fmap option_map Z.add Z.to_nat].
  rewrite !drop_0. apply (f_equal (take 4)) in E. rewrite !take_take in E. simpl Nat.min in E.
  rewrite E. reflexivity.
Qed.

Lemma isRtcp_defined a : (8 <= List.length a)%nat -> exists b, RtcpHeader.isRtcp a 0 = Some b.
Proof.
  intros Ha. unfold RtcpHeader.isRtcp, RtcpHeader.isFeedback.
  destruct (get_bf_is_Some RtcpHeader.packettype a 0) as [pt ->]; [unfold in_bounds; simpl; lia|].
  cbn [option_bind mbind]. eauto.
Qed.

(** The SRTP operations of the kind of packet. *)
Definition protect_kind (rtcp : bool) (buf : list Z) (len : Z) (c : SrtpChannel) :=
  if rtcp then protectRtcp buf len c else protectRtp buf len c.
Definition unprotect_kind (rtcp : bool) (buf : list Z) (len : Z) (c : SrtpChannel) :=
  if rtcp then unprotectRtcp buf len c else unprotectRtp buf len c.

(** A linked pair of channels carries a packet, and stays linked. *)
Lemma channel_carries rtcp c s buf n :
  linked c s -> (forall x, send_session_ c = Some x -> sendable x (take n buf)) ->
  (12 <= n)%nat -> (n + 14 <= List.length buf)%nat ->
  exists c' buf' n' s',
    protect_kind rtcp buf (Z.of_nat n) c = Some (0, c', buf', Z.of_nat n')
    /\ List.length buf' = List.length buf /\ (n <= n' <= n + 14)%nat
    /\ take 8 buf' = take 8 buf /\ linked c' s'
    /\ forall b, take n' b = take n' buf' -> (n' <= List.length b)%nat ->
         exists b', unprotect_kind rtcp b (Z.of_nat n') s = Some (0, s', b', Z.of_nat n)
           /\ take n b' = take n buf /\ List.length b' = List.length b.
Proof.
  intros (Ac & As & x & r & Ex & Er & Hsync) Hsend Hn Hroom.
  assert (Hs : sendable x (take (Z.to_nat (Z.of_nat n)) buf)) by (rewrite Nat2Z.id; exact (Hsend x Ex)).
  assert (P : exists x' buf' len' r',
    (if rtcp then srtp_protect_rtcp x buf (Z.of_nat n) else srtp_protect x buf (Z.of_nat n)) = (0, x', buf', len')
    /\ List.length buf' = List.length buf /\ Z.of_nat n <= len' <= Z.of_nat n + 14
    /\ take 8 buf' = take 8 buf /\ in_sync x' r'
    /\ forall b, take (Z.to_nat len') b = take (Z.to_nat len') buf' -> (Z.to_nat len' <= List.length b)%nat ->
         exists b', (if rtcp then srtp_unprotect_rtcp r b len' else srtp_unprotect r b len') = (0, r', b', Z.of_nat n)
           /\ List.length b' = List.length b
           /\ take (Z.to_nat (Z.of_nat n)) b' = take (Z.to_nat (Z.of_nat n)) buf).
  { destruct rtcp; [apply protect_rtcp | apply protect_rtp]; first [assumption | lia]. }
  destruct P as (x' & buf' & len' & r' & E & Hl & Hlen & H8 & Hsync' & Hback).
  exists (set_send x' c), buf', (Z.to_nat len'), (set_receive r' s).
  rewrite Z2Nat.id by lia. split_and!; [| exact Hl | lia | lia | exact H8 | |].
  - unfold protect_kind, protectRtcp, protectRtp. rewrite Ac, Ex. destruct rtcp; simpl; rewrite E; reflexivity.
  - split_and!; [exact Ac | exact As | exists x', r'; auto].
  - intros b Hb Hlb. destruct (Hback b Hb Hlb) as (b' & Eb & Hlb' & Hb'). exists b'. rewrite Nat2Z.id in Hb'.
    split_and!; [| exact Hb' | exact Hlb'].
    unfold unprotect_kind, unprotectRtcp, unprotectRtp. rewrite As, Er. destruct rtcp; simpl; rewrite Eb; reflexivity.
Qed.

(** Two transports after their handshakes, the first over a working ICE connection. *)
Record connected (t u : DtlsTransport) : Prop := {
  conn_state : state_ t = TRANSPORT_READY;
  conn_state' : state_ u = TRANSPORT_READY;
  conn_ice : iceState_ (nice_ t) = NICE_READY;
  conn_listener : transpListener_ u = true;
  conn_mux : rtcp_mux_ t = bool_decide (dtlsRtcp t = None);
  conn_sockets : sockets t = sockets u;
  conn_buffer : List.length (protectBuf_ t) = 5000%nat;
  conn_buffer' : List.length (unprotectBuf_ u) = 5000%nat;
  conn_linked : forall rtcp, rtcp ∈ sockets t -> exists c s,
    channel_of rtcp t = Some c /\ channel_of rtcp u = Some s /\ linked c s
}.

Definition set_channel (rtcp : bool) (c : SrtpChannel) (t : DtlsTransport) : DtlsTransport :=
  if rtcp then t <| srtcp_ := Some c |> else t <| srtp_ := Some c |>.

(** The socket, hence the component, a packet of the given kind goes over. *)
Definition second_socket (rtcp : bool) (t : DtlsTransport) : bool := rtcp && bool_decide (is_Some (dtlsRtcp t)).

Lemma second_in_sockets rtcp t : second_socket rtcp t ∈ sockets t.
Proof.
  unfold second_socket, sockets. destruct (dtlsRtcp t), rtcp; simpl; rewrite ?bool_decide_eq_true_2 by eauto;
    rewrite ?bool_decide_eq_false_2 by (intros [? ?]; discriminate); set_solver.
Qed.

Lemma component_spec rtcp t :
  rtcp_mux_ t = bool_decide (dtlsRtcp t = None) ->
  (if rtcp && negb (rtcp_mux_ t) then 2 else 1) = component_of (second_socket rtcp t).
Proof.
  intros ->. unfold second_socket. destruct (dtlsRtcp t), rtcp; simpl;
    rewrite ?bool_decide_eq_true_2 by eauto; rewrite ?bool_decide_eq_false_2 by discriminate; reflexivity.
Qed.

Lemma write_spec data n t c' buf' n' rtcp c :
  state_ t = TRANSPORT_READY -> iceState_ (nice_ t) = NICE_READY ->
  rtcp_mux_ t = bool_decide (dtlsRtcp t = None) ->
  List.length data = n -> (n <= List.length (protectBuf_ t))%nat -> (n' > 10)%nat ->
  let buf := data ++ drop n (protectBuf_ t) in
  RtcpHeader.isRtcp buf 0 = Some rtcp ->
  channel_of (second_socket rtcp t) t = Some c ->
  protect_kind rtcp buf (Z.of_nat n) c = Some (0, c', buf', Z.of_nat n') ->
  write data (Z.of_nat n) t
  = Some (set_channel (second_socket rtcp t) c' (t <| protectBuf_ := buf' |>),
          [NiceCall (send 1 (component_of (second_socket rtcp t)) (Z.of_nat n') (take n' buf'))]).
Proof.
  intros Hs Hice Hmux Hn Hb Hn' buf Hrtcp Hc Hp. unfold write. rewrite decide_True by exact Hs.
  rewrite fill_spec by lia. rewrite take_ge by lia. fold buf. cbn [option_bind mbind]. rewrite Hrtcp.
  cbn [option_bind mbind].
  change (rtcp && bool_decide (is_Some (dtlsRtcp (t <| protectBuf_ := buf |>)))) with (second_socket rtcp t).
  change (rtcp_mux_ (t <| protectBuf_ := buf |>)) with (rtcp_mux_ t). rewrite component_spec by exact Hmux.
  change (nice_ (t <| protectBuf_ := buf |>)) with (nice_ t). unfold checkIceState.
  rewrite (bool_decide_eq_true_2 _ Hice).
  unfold protect_kind, channel_of in *. destruct (second_socket rtcp t);
    (replace (srtp_ (t <| protectBuf_ := buf |>)) with (Some c) || replace (srtcp_ (t <| protectBuf_ := buf |>)) with (Some c));
    destruct rtcp; rewrite Hp; cbn [option_bind mbind];
    rewrite (proj2 (Z.leb_gt _ _)) by lia; cbn [orb Z.ltb Z.compare];
    unfold writeOnNice, sendData; simpl; unfold checkIceState; rewrite decide_True by exact Hice;
    rewrite Nat2Z.id; reflexivity.
Qed.

Lemma onNiceData_spec a data n t rtcp second s s' b' k x :
  state_ t = TRANSPORT_READY -> transpListener_ t = true ->
  data !! 0%nat = Some x -> 128 <= x <= 191 -> (1 <= n)%nat ->
  (n <= List.length data)%nat -> (n <= List.length (unprotectBuf_ t))%nat -> (0 < k)%nat ->
  let buf := take n data ++ drop n (unprotectBuf_ t) in
  RtcpHeader.isRtcp buf 0 = Some rtcp ->
  second ∈ sockets t -> channel_of second t = Some s ->
  unprotect_kind rtcp buf (Z.of_nat n) s = Some (0, s', b', Z.of_nat k) ->
  onNiceData a (component_of second) data (Z.of_nat n) t
  = Some (set_channel second s' (t <| unprotectBuf_ := b' |>), [TransportData b' (Z.of_nat k)]).
Proof.
  intros Hs Hl Hx Hrange Hn Hd Hb Hk buf Hrtcp Hsec Hc Hu. unfold onNiceData, isDtlsPacket, demuxPacket.
  rewrite (proj2 (Z.ltb_ge _ _)) by lia. rewrite Hx. cbn [option_bind mbind].
  rewrite (proj2 (Z.eqb_neq x 0)), (proj2 (Z.eqb_neq x 1)), !(proj2 (Z.leb_le _ _)) by lia.
  cbn [orb andb option_bind mbind]. rewrite decide_True by exact Hs. rewrite fill_spec by lia. fold buf.
  cbn [option_bind mbind].
  replace (bool_decide (is_Some (dtlsRtcp (t <| unprotectBuf_ := buf |>))) && (component_of second =? 2)) with second.
  2:{ change (dtlsRtcp (t <| unprotectBuf_ := buf |>)) with (dtlsRtcp t). unfold sockets in Hsec.
      destruct (dtlsRtcp t), second; simpl; rewrite ?bool_decide_eq_true_2 by eauto; try reflexivity.
      set_solver. }
  unfold unprotect_kind, channel_of in *. destruct second;
    (replace (srtp_ (t <| unprotectBuf_ := buf |>)) with (Some s) || replace (srtcp_ (t <| unprotectBuf_ := buf |>)) with (Some s));
    rewrite Hrtcp; cbn [option_bind mbind]; destruct rtcp; rewrite Hu; cbn [option_bind mbind];
    rewrite (proj2 (Z.leb_gt _ _)) by lia; cbn [orb Z.ltb Z.compare];
    match goal with |- context [transpListener_ ?y] => change (transpListener_ y) with (transpListener_ t) end;
    rewrite Hl; reflexivity.
Qed.

Lemma set_channel_same second c t :
  channel_of second (set_channel second c t) = Some c
  /\ (forall o, o <> second -> channel_of o (set_channel second c t) = channel_of o t).
Proof. split; [destruct second; reflexivity|]. intros [] Ho; destruct second; congruence || reflexivity. Qed.

Lemma connected_step second t u c s buf buf' :
  connected t u -> second ∈ sockets t -> linked c s ->
  List.length buf = 5000%nat -> List.length buf' = 5000%nat ->
  connected (set_channel second c (t <| protectBuf_ := buf |>))
            (set_channel second s (u <| unprotectBuf_ := buf' |>)).
Proof.
  intros [C1 C2 C3 C4 C5 C6 C7 C8 C9] Hsec Hl Hb Hb'.
  split; try (destruct second; assumption).
  intros o Ho. destruct (decide (o = second)) as [->|Hne].
  - exists c, s. split_and!; [apply set_channel_same | apply set_channel_same | exact Hl].
  - destruct (C9 o) as (c0 & s0 & E1 & E2 & L); [destruct second; exact Ho|].
    exists c0, s0. rewrite !(proj2 (set_channel_same second _ _)) by exact Hne. auto.
Qed.

(** C4. What a connected transport writes, an RTP or RTCP packet of 12 to 1486 bytes that
    libsrtp does not refuse as a repetition, leaves as one encrypted datagram of at most
    1500 bytes on the component of its kind; when its peer takes that datagram from the
    queue, its listener gets exactly the packet, whatever the buffers held before, and the
    two are still connected. *)
Theorem packet_delivered a data x t u :
  connected t u -> (12 <= List.length data <= 1486)%nat ->
  data !! 0%nat = Some x -> 128 <= x <= 191 ->
  (forall rtcp c k, channel_of rtcp t = Some c -> send_session_ c = Some k -> sendable k data) ->
  exists t' u' comp wire buf,
    write data (Z.of_nat (List.length data)) t
      = Some (t', [NiceCall (send 1 comp (Z.of_nat (List.length wire)) wire)])
    /\ (List.length wire <= 1500)%nat
    /\ nice_data_round a (packet_of comp wire) u
      = Some (u', [TransportData buf (Z.of_nat (List.length data))])
    /\ take (List.length data) buf = data /\ connected t' u'.
Proof.
  intros C Hlen Hx Hr Hsend. pose proof C as [C1 C2 C3 C4 C5 C6 C7 C8 C9].
  set (n := List.length data) in *. set (buf0 := data ++ drop n (protectBuf_ t)).
  assert (Hbuf0 : List.length buf0 = 5000%nat) by (unfold buf0; rewrite length_app, length_drop; fold n; lia).
  assert (Htake : take n buf0 = data) by (unfold buf0; rewrite take_app_le, take_ge; lia || reflexivity).
  destruct (isRtcp_defined buf0) as [rtcp Hrtcp]; [lia|].
  set (second := second_socket rtcp t). assert (Hsec := second_in_sockets rtcp t : second ∈ sockets t).
  destruct (C9 second Hsec) as (c & s & Ec & Es & L).
  destruct (channel_carries rtcp c s buf0 n L) as (c' & buf1 & n' & s' & Ep & Hl1 & Hn' & H8 & L' & Hback);
    [intros k Hk; rewrite Htake; exact (Hsend second c k Ec Hk) | lia | lia |].
  set (wire := take n' buf1).
  assert (Hwire : List.length wire = n') by (unfold wire; rewrite length_take; lia).
  set (rest := replicate (1500 - n') 0 : list Z).
  set (buf2 := take n' (wire ++ rest) ++ drop n' (unprotectBuf_ u)).
  assert (Hw : take n' (wire ++ rest) = wire) by (rewrite take_app_le, take_ge; lia || reflexivity).
  assert (Hbuf2 : List.length buf2 = 5000%nat)
    by (unfold buf2; rewrite Hw, length_app, length_drop, Hwire; lia).
  assert (Hpre : take n' buf2 = take n' buf1)
    by (unfold buf2; rewrite Hw, take_app_le, take_ge by lia; reflexivity).
  assert (H8' : take 8 buf2 = take 8 buf0).
  { rewrite <- H8. apply (f_equal (take 8)) in Hpre. rewrite !take_take, Nat.min_l in Hpre by lia. exact Hpre. }
  destruct (Hback buf2 Hpre) as (buf3 & Eu & H3 & Hl3); [lia|].
  exists (set_channel second c' (t <| protectBuf_ := buf1 |>)), (set_channel second s' (u <| unprotectBuf_ := buf3 |>)),
    (component_of second), wire, buf3.
  split_and!.
  - rewrite Hwire. apply (write_spec data n t c' buf1 n' rtcp c); try assumption; try reflexivity; lia.
  - lia.
  - unfold nice_data_round, packet_of. cbn [length_ comp MediaDefinitions.data]. rewrite Hwire. fold rest.
    rewrite (proj2 (Z.ltb_lt _ _)) by lia.
    rewrite (onNiceData_spec a (wire ++ rest) n' u rtcp second s s' buf3 n x);
      [cbn [option_bind mbind]; rewrite (proj2 (Z.eqb_neq _ _)) by lia; reflexivity
      | exact C2 | exact C4 | | exact Hr | lia | rewrite length_app, Hwire; lia | lia | lia | | |exact Es | exact Eu].
    + apply (f_equal (fun l => l !! 0%nat)) in H8. rewrite !lookup_take_lt in H8 by lia.
      rewrite lookup_app_l by lia. unfold wire. rewrite lookup_take_lt by lia. rewrite H8.
      unfold buf0. rewrite lookup_app_l by (fold n; lia). exact Hx.
    + rewrite <- Hrtcp. apply isRtcp_prefix; [exact H8' | fold buf2; lia | lia].
    + rewrite <- C6. exact Hsec.
  - rewrite H3. exact Htake.
  - apply connected_step; [exact C | exact Hsec | exact L' | lia | lia].
Qed.
End Media.

(** The two sample transports after a handshake, the client's ICE connection ready. *)
Definition sample_connected (server : bool) : @DtlsTransport Sample.lib :=
  (sample_transport 5000 server) <| state_ := TRANSPORT_READY |>
    <| nice_ ::= fun n => n <| iceState_ := NICE_READY |> |>
    <| srtp_ := Some (keyed server (sample_material 1)) |> <| srtcp_ := Some (keyed server (sample_material 1)) |>.

Lemma sample_connected_ok : connected (H0 := Sample.laws) (sample_connected false) (sample_connected true).
Proof.
  split; try reflexivity.
  intros rtcp _. exists (keyed false (sample_material 1)), (keyed true (sample_material 1)).
  split_and!; [destruct rtcp; reflexivity | destruct rtcp; reflexivity |].
  apply (keyed_ok (H0 := Sample.laws) false (sample_material 1) eq_refl (proj2 (sample_material_ok 1 ltac:(lia)))).
Qed.

Definition no_answer : ssl_answer :=
  {| sslerr := SSL_ERROR_WANT_READ; outBio := []; peer_certificate := false; material := None; srtp_profile := false |}.

(** A receiver report of 16 bytes. *)
Example packet_delivered_witness :
  exists t' u' comp wire buf,
    write (H := Sample.lib) ([128; 201; 0; 3] ++ replicate 12 7) 16 (sample_connected false)
      = Some (t', [NiceCall (send 1 comp (Z.of_nat (List.length wire)) wire)])
    /\ nice_data_round no_answer (packet_of comp wire) (sample_connected true) = Some (u', [TransportData buf 16])
    /\ take 16 buf = [128; 201; 0; 3] ++ replicate 12 7.
Proof.
  destruct (packet_delivered (H0 := Sample.laws) no_answer ([128; 201; 0; 3] ++ replicate 12 7) 128
              (sample_connected false) (sample_connected true) sample_connected_ok)
    as (t' & u' & comp & wire & buf & Ew & _ & Er & Hb & _);
    [simpl; lia | reflexivity | lia | intros; exact I |].
  exists t', u', comp, wire, buf. split_and!; [exact Ew | exact Er | exact Hb].
Defined.
