(* ===== verification/RtpExtensions.v ===== *)
(** * RtpExtensions: the header extensions of outgoing packets
    (src/Src/media/rtp/RtpExtensionProcessor.cpp, .h)

    The two arrays of ten [int]s are lists, the translation table is a function, a value
    of the clock is an argument.  [None] is undefined behaviour: an identifier beyond the
    arrays, an element that reaches past the packet's array.

    The theorem: in a packet with a well-formed one-byte-header extension exactly the
    three bytes of each negotiated absolute send time change, and they hold the time. *)

From Stdlib Require Import Ascii String.
From S2P Require Import Prelude Bytes MediaDefinitions RtpHeaders Doubles Rtcp SdpInfo.
Local Open Scope string_scope.
Local Open Scope list_scope.
Local Open Scope Z_scope.

(** The values of [RTPExtensions]. *)
Definition SSRC_AUDIO_LEVEL : Z := 0.
Definition ABS_SEND_TIME : Z := 1.
Definition TOFFSET : Z := 2.
Definition VIDEO_ORIENTATION : Z := 3.
Definition PLAYBACK_TIME : Z := 4.

Definition translationMap_ (uri : string) : option Z :=
  if String.eqb uri "urn:ietf:params:rtp-hdrext:ssrc-audio-level" then Some SSRC_AUDIO_LEVEL
  else if String.eqb uri "http://www.webrtc.org/experiments/rtp-hdrext/abs-send-time" then Some ABS_SEND_TIME
  else if String.eqb uri "urn:ietf:params:rtp-hdrext:toffset" then Some TOFFSET
  else if String.eqb uri "urn:3gpp:video-orientation" then Some VIDEO_ORIENTATION
  else if String.eqb uri "http://www.webrtc.org/experiments/rtp-hdrext/playout-delay" then Some PLAYBACK_TIME
  else None.

Record RtpExtensionProcessor := { extMapVideo_ : list Z; extMapAudio_ : list Z }.

#[export] Instance eta_RtpExtensionProcessor : Eta RtpExtensionProcessor := fun e =>
  {| extMapVideo_ := extMapVideo_ e; extMapAudio_ := extMapAudio_ e |}.

Definition RtpExtensionProcessor_ctor : RtpExtensionProcessor :=
  {| extMapVideo_ := replicate 10 0; extMapAudio_ := replicate 10 0 |}.

(** [extMap[i] = v] on an array of ten. *)
Definition assign (i v : Z) (m : list Z) : option (list Z) :=
  if (0 <=? i) && (i <? Z.of_nat (List.length m)) then Some (<[Z.to_nat i := v]> m) else None.

Definition add_extension (theMap : ExtMap.ExtMap) (e : RtpExtensionProcessor) : option RtpExtensionProcessor :=
  match ExtMap.mediaType theMap, translationMap_ (ExtMap.uri theMap) with
  | VIDEO_TYPE, Some v =>
    m ← assign (ExtMap.value theMap) v (extMapVideo_ e); Some (e <| extMapVideo_ := m |>)
  | AUDIO_TYPE, Some v =>
    m ← assign (ExtMap.value theMap) v (extMapAudio_ e); Some (e <| extMapAudio_ := m |>)
  | _, _ => Some e
  end.

Fixpoint add_extensions (v : list ExtMap.ExtMap) (e : RtpExtensionProcessor) : option RtpExtensionProcessor :=
  match v with
  | [] => Some e
  | theMap :: v => e ← add_extension theMap e; add_extensions v e
  end.

Definition setSdpInfo (theInfo : SdpInfo.SdpInfo) (e : RtpExtensionProcessor) : option RtpExtensionProcessor :=
  add_extensions (extMapVector theInfo) e.

(** [processAbsSendTime]: the time in 6.18 fixed point. *)
Definition abs_send_time (now : timeval) : option Z :=
  let seconds := Z.land (tv_sec now) 0x3F in
  absecs ← to_uint 32 (double_mul (double_of_Z (tv_usec now * (2 ^ 18 - 1))) (double_lit 1 1000000));
  Some (u32 (Z.shiftl seconds 18 + absecs)).

Definition processAbsSendTime (now : timeval) (data : list Z) (off : Z) : option (list Z) :=
  absecs ← abs_send_time now;
  AbsSendTimeExtension.setAbsSendTime absecs data off.

(** The loop over the elements; [off] is where [extBuffer] points to, and [clock] the time
    at each place.  It moves on by at least two bytes: the length of the array is enough
    fuel, since past the array reading the element is undefined. *)
Fixpoint ext_loop (fuel : nat) (clock : Z -> timeval) (extMap : list Z) (total : Z) (data : list Z)
    (off currentPlace : Z) : option (list Z) :=
  match fuel with
  | O => None
  | S fuel =>
    if currentPlace <? total * 4 then
      extByte ← data !! Z.to_nat off;
      let extId := Z.shiftr extByte 4 in
      let extLength := Z.land extByte 0x0F in
      data ← (if extId =? 0 then Some data else
              kind ← extMap !! Z.to_nat extId;
              if kind =? ABS_SEND_TIME then processAbsSendTime (clock currentPlace) data off else Some data);
      ext_loop fuel clock extMap total data (off + extLength + 2) (u16 (currentPlace + extLength + 2))
    else Some data
  end.

(** The result is the number returned and the packet. *)
Definition processRtpExtensions (clock : Z -> timeval) (p : dataPacket) (e : RtpExtensionProcessor)
    : option (Z * dataPacket) :=
  let len := u32 (length_ p) in
  x ← RtpHeader.getExtension (data p) 0;
  if x =? 0 then Some (len, p) else
  match (match type_ p with
         | VIDEO_PACKET => Some (extMapVideo_ e)
         | AUDIO_PACKET => Some (extMapAudio_ e)
         | OTHER_PACKET => None
         end) with
  | None => Some (0, p)
  | Some extMap =>
    totalExtLength ← RtpHeader.getExtLength (data p) 0;
    id ← RtpHeader.getExtId (data p) 0;
    if id =? 0xBEDE then
      d ← ext_loop (S (List.length (data p))) clock extMap totalExtLength (data p) RtpHeader.extensions 1;
      Some (len, p <| MediaDefinitions.data := d |>)
    else Some (len, p)
  end.

Definition stripExtension (len : Z) : Z := u32 len.

(** ** Well-formed extensions (RFC 5285, one-byte header) *)

Record element := { el_id : Z; el_data : list Z }.

Definition el_bytes (x : element) : list Z :=
  (el_id x * 16 + (Z.of_nat (List.length (el_data x)) - 1)) :: el_data x.

Definition el_ok (extMap : list Z) (x : element) : Prop :=
  1 <= el_id x < 10 /\ bytes_ok (el_data x) /\ (1 <= List.length (el_data x) <= 16)%nat
  /\ (extMap !! Z.to_nat (el_id x) = Some ABS_SEND_TIME -> List.length (el_data x) = 3%nat).

(** 24 bits in network order. *)
Definition be24 (x : Z) : list Z := rev (le_bytes 3 x).

(** The element after the processor has passed it at [place]. *)
Definition stamped (clock : Z -> timeval) (extMap : list Z) (place : Z) (x : element) : option element :=
  if bool_decide (extMap !! Z.to_nat (el_id x) = Some ABS_SEND_TIME) then
    t ← abs_send_time (clock place); Some {| el_id := el_id x; el_data := be24 t |}
  else Some x.

Fixpoint stamp_all (clock : Z -> timeval) (extMap : list Z) (place : Z) (xs : list element) : option (list element) :=
  match xs with
  | [] => Some []
  | x :: xs =>
    y ← stamped clock extMap place x;
    ys ← stamp_all clock extMap (place + Z.of_nat (List.length (el_bytes x))) xs;
    Some (y :: ys)
  end.

Definition ext_bytes (xs : list element) : list Z := concat (map el_bytes xs).

Lemma set_abs_send_time pre b0 b1 b2 b3 post t :
  byte_ok b0 -> byte_ok b1 -> byte_ok b2 -> byte_ok b3 ->
  AbsSendTimeExtension.setAbsSendTime t (pre ++ [b0; b1; b2; b3] ++ post) (Z.of_nat (List.length pre))
  = Some (pre ++ (b0 :: be24 t) ++ post).
Proof.
  intros H0 H1 H2 H3. unfold AbsSendTimeExtension.setAbsSendTime.
  rewrite set_bf_middle by (unfold in_bounds; simpl; lia).
  set (b := [b0; b1; b2; b3]).
  assert (Hb : bytes_ok b) by (repeat (apply Forall_cons; split; [assumption|]); apply Forall_nil; exact I).
  destruct (set_bf_is_Some AbsSendTimeExtension.abs_data (Z.shiftr (htonl t) 8) b 0) as [b' E];
    [unfold in_bounds; simpl; lia|].
  rewrite E. cbn [option_bind mbind]. do 2 f_equal.
  assert (Hok : bf_ok AbsSendTimeExtension.abs_data) by (unfold bf_ok; simpl; lia).
  assert (G1 := get_set_same _ _ _ _ _ Hok Hb E).
  assert (G0 := get_set_other AbsSendTimeExtension.abs_data AbsSendTimeExtension.ext_info _ b 0 b'
    Hok ltac:(unfold bf_ok; simpl; lia) Hb ltac:(unfold bf_disjoint; simpl; lia) E).
  assert (E0 : get_bf AbsSendTimeExtension.ext_info b 0 = Some b0).
  { unfold get_bf, load. rewrite read_at_all by reflexivity. cbn [fmap option_fmap option_map option_bind mbind].
    rewrite extract_div by (simpl; lia). cbn [bf_shift bf_width AbsSendTimeExtension.ext_info].
    rewrite Z.pow_0_r, Z.div_1_r. unfold b. cbn [le_val]. change (2 ^ 8) with 256. f_equal.
    symmetry. unfold byte_ok in *. apply Z.mod_unique with (b1 + 256 * (b2 + 256 * (b3 + 256 * 0))); lia. }
  rewrite E0 in G0.
  pose proof (two_fields_bytes AbsSendTimeExtension.ext_info AbsSendTimeExtension.abs_data b' 0 _ _ 8 (set_bf_ok _ _ _ _ _ Hb E) eq_refl eq_refl eq_refl eq_refl
    eq_refl ltac:(lia) G0 G1) as W.
  rewrite read_at_all in W by (rewrite (set_bf_length _ _ _ _ _ E); reflexivity).
  apply (inj Some) in W. rewrite W. change (bf_width AbsSendTimeExtension.abs_data) with 24.
  rewrite wrap_small by apply swap24_width. rewrite shiftr_bswap.
  pose proof (le_bytes_join 1 3 b0 (bswap 3 t) H0) as J.
  change (256 ^ Z.of_nat 1) with (2 ^ 8) in J. change (1 + 3)%nat with 4%nat in J. rewrite J, le_bytes_bswap.
  cbn [le_bytes app]. unfold byte_ok in H0. rewrite Z.mod_small by lia. reflexivity.
Qed.

(** The loop over trailing zeros. *)
Lemma ext_loop_padding clock extMap total k fuel pre post place :
  (k < fuel)%nat -> 1 <= place -> place = total * 4 - Z.of_nat k + 1 -> total * 4 < 65534 ->
  ext_loop fuel clock extMap total (pre ++ replicate k 0 ++ post) (Z.of_nat (List.length pre)) place
  = Some (pre ++ replicate k 0 ++ post).
Proof.
  revert fuel pre place. induction k as [k IH] using lt_wf_ind. intros fuel pre place Hf Hp E Ht.
  destruct fuel as [|fuel]; [lia|]. cbn [ext_loop]. destruct (Z.ltb_spec place (total * 4)); [|reflexivity].
  destruct k as [|[|k]]; [lia | lia |].
  rewrite Nat2Z.id, lookup_app_r, Nat.sub_diag by lia. cbn [replicate app lookup list_lookup option_bind mbind].
  change (Z.shiftr 0 4 =? 0) with true. change (Z.land 0 0x0F) with 0. cbv iota beta. cbn [option_bind mbind].
  replace (pre ++ 0 :: 0 :: replicate k 0 ++ post) with ((pre ++ [0; 0]) ++ replicate k 0 ++ post)
    by (rewrite <- app_assoc; reflexivity).
  replace (Z.of_nat (List.length pre) + 0 + 2) with (Z.of_nat (List.length (pre ++ [0; 0])))
    by (rewrite length_app; simpl; lia).
  rewrite wrap_small by (unfold in_width; lia). apply IH; lia.
Qed.

Lemma header_byte n k : 0 <= k < 16 -> Z.shiftr (n * 16 + k) 4 = n /\ Z.land (n * 16 + k) 0x0F = k.
Proof.
  intros H. split.
  - rewrite Z.shiftr_div_pow2 by lia. symmetry. apply Z.div_unique with k; lia.
  - change 0x0F with (Z.ones 4). rewrite Z.land_ones by lia. symmetry. apply Z.mod_unique with n; lia.
Qed.

Lemma ext_loop_elements clock extMap total xs k fuel pre post place :
  List.length extMap = 10%nat -> Forall (el_ok extMap) xs ->
  (List.length (ext_bytes xs) + k < fuel)%nat -> 1 <= place ->
  place = total * 4 - Z.of_nat (List.length (ext_bytes xs) + k) + 1 -> total * 4 < 65520 ->
  ext_loop fuel clock extMap total (pre ++ ext_bytes xs ++ replicate k 0 ++ post) (Z.of_nat (List.length pre)) place
  = (ys ← stamp_all clock extMap place xs; Some (pre ++ ext_bytes ys ++ replicate k 0 ++ post)).
Proof.
  intros Hmap Hall. revert fuel pre place. induction Hall as [|x xs Hx Hall IH]; intros fuel pre place Hf Hp E Ht.
  { apply ext_loop_padding; simpl in *; lia. }
  destruct Hx as (Hid & Hok & Hlen & Habs). destruct fuel as [|fuel]; [lia|].
  set (n := List.length (el_data x)) in *.
  assert (Hb : List.length (el_bytes x) = S n) by reflexivity.
  assert (Hxs : List.length (ext_bytes (x :: xs)) = (S n + List.length (ext_bytes xs))%nat)
    by (unfold ext_bytes; simpl; rewrite length_app; reflexivity).
  rewrite Hxs in E, Hf. cbn [ext_loop stamp_all]. rewrite (proj2 (Z.ltb_lt _ _)) by lia.
  change (ext_bytes (x :: xs)) with (el_bytes x ++ ext_bytes xs). rewrite Hb.
  set (D := pre ++ (el_bytes x ++ ext_bytes xs) ++ replicate k 0 ++ post).
  assert (HD : D !! Z.to_nat (Z.of_nat (List.length pre)) = Some (el_id x * 16 + (Z.of_nat n - 1)))
    by (unfold D; rewrite Nat2Z.id, lookup_app_r, Nat.sub_diag by lia; reflexivity).
  rewrite HD. cbn [option_bind mbind].
  destruct (header_byte (el_id x) (Z.of_nat n - 1)) as [-> ->]; [lia|].
  rewrite (proj2 (Z.eqb_neq (el_id x) 0)) by lia.
  destruct (lookup_lt_is_Some_2 extMap (Z.to_nat (el_id x))) as [kind Hkind]; [lia|].
  unfold stamped. rewrite Hkind in *. cbn [option_bind mbind].
  assert (Next : forall d', List.length d' = S n ->
    ext_loop fuel clock extMap total (pre ++ d' ++ ext_bytes xs ++ replicate k 0 ++ post)
      (Z.of_nat (List.length pre) + (Z.of_nat n - 1) + 2) (u16 (place + (Z.of_nat n - 1) + 2))
    = (ys ← stamp_all clock extMap (place + Z.of_nat (S n)) xs;
       Some (pre ++ d' ++ ext_bytes ys ++ replicate k 0 ++ post))).
  { intros d' Hd'. rewrite wrap_small by (unfold in_width; lia).
    replace (place + (Z.of_nat n - 1) + 2) with (place + Z.of_nat (S n)) by lia.
    replace (Z.of_nat (List.length pre) + (Z.of_nat n - 1) + 2) with (Z.of_nat (List.length (pre ++ d')))
      by (rewrite length_app, Hd'; lia).
    rewrite app_assoc. rewrite IH by lia. destruct (stamp_all _ _ _ xs); [|reflexivity].
    cbn [option_bind mbind]. rewrite <- !app_assoc. reflexivity. }
  destruct (Z.eqb_spec kind ABS_SEND_TIME) as [->|Hne].
  - rewrite bool_decide_eq_true_2 by reflexivity. specialize (Habs eq_refl).
    destruct (el_data x) as [|d1 [|d2 [|d3 [|]]]] eqn:Ed; try discriminate.
    unfold processAbsSendTime. destruct (abs_send_time (clock place)) as [t|]; [|reflexivity].
    cbn [option_bind mbind]. change n with 3%nat in *.
    assert (Hd : byte_ok d1 /\ byte_ok d2 /\ byte_ok d3).
    { rewrite !Forall_cons in Hok. tauto. }
    replace D with (pre ++ [el_id x * 16 + 2; d1; d2; d3] ++ (ext_bytes xs ++ replicate k 0 ++ post))
      by (unfold D, el_bytes; rewrite Ed; reflexivity).
    rewrite set_abs_send_time by (unfold byte_ok in *; lia). cbn [option_bind mbind].
    rewrite Next by (cbn [List.length]; unfold be24; rewrite length_rev; reflexivity).
    destruct (stamp_all _ _ _ xs); [|reflexivity]. cbn [option_bind mbind ext_bytes map concat].
    rewrite <- !app_assoc. reflexivity.
  - rewrite bool_decide_eq_false_2 by congruence. cbn [option_bind mbind].
    unfold D. rewrite <- !app_assoc, Next by reflexivity. destruct (stamp_all _ _ _ xs); [|reflexivity].
    cbn [option_bind mbind ext_bytes map concat]. rewrite <- !app_assoc. reflexivity.
Qed.

(** C28. In a packet without CSRCs whose extension has the one-byte-header format, zeros after
    its elements, identifiers below 10 and three bytes in each absolute send time, exactly
    the data of the elements negotiated as absolute send times for the kind of packet
    changes, to the clock's value when the element is met. *)
Theorem extensions_stamped clock e p extMap hdr xs k post total :
  extMap = match type_ p with AUDIO_PACKET => extMapAudio_ e | _ => extMapVideo_ e end ->
  type_ p <> OTHER_PACKET -> List.length extMap = 10%nat -> Forall (el_ok extMap) xs ->
  List.length hdr = 16%nat -> MediaDefinitions.data p = hdr ++ ext_bytes xs ++ replicate k 0 ++ post ->
  RtpHeader.getExtension hdr 0 = Some 1 -> RtpHeader.getExtId hdr 0 = Some 0xBEDE ->
  RtpHeader.getExtLength hdr 0 = Some total ->
  total * 4 = Z.of_nat (List.length (ext_bytes xs) + k) -> total * 4 < 65520 ->
  processRtpExtensions clock p e
  = (ys ← stamp_all clock extMap 1 xs;
     Some (u32 (length_ p), p <| MediaDefinitions.data := hdr ++ ext_bytes ys ++ replicate k 0 ++ post |>)).
Proof.
  intros Emap Htype Hmap Hall Hhdr Hd Hx Hid Hlen Htotal Hsmall. unfold processRtpExtensions. rewrite Hd.
  unfold RtpHeader.getExtension, RtpHeader.getExtId, RtpHeader.getExtLength in *.
  rewrite !get_bf_app_l, Hx by (unfold in_bounds; rewrite Hhdr; simpl; lia). cbn [option_bind mbind].
  change (1 =? 0) with false. cbv iota.
  assert (Em : match type_ p with VIDEO_PACKET => Some (extMapVideo_ e) | AUDIO_PACKET => Some (extMapAudio_ e)
               | OTHER_PACKET => None end = Some extMap) by (rewrite Emap; destruct (type_ p); congruence).
  rewrite Em, Hlen, Hid. cbn [option_bind mbind]. change (0xBEDE =? 0xBEDE) with true. cbv iota.
  change RtpHeader.extensions with (Z.of_nat 16). rewrite <- Hhdr.
  rewrite ext_loop_elements; [|exact Hmap|exact Hall| |lia|lia|exact Hsmall].
  - destruct (stamp_all _ _ _ xs); reflexivity.
  - rewrite !length_app, length_replicate. lia.
Qed.

Definition sample_ext : RtpExtensionProcessor :=
  {| extMapVideo_ := [0; 0; 0; 1; 0; 0; 0; 0; 0; 0]; extMapAudio_ := replicate 10 0 |}.

Definition sample_ext_packet : dataPacket :=
  {| comp := 0; length_ := 26; type_ := VIDEO_PACKET;
     MediaDefinitions.data :=
       [144; 100; 0; 1; 0; 0; 0; 2; 0; 0; 0; 3; 0xBE; 0xDE; 0; 2; 0x32; 9; 9; 9; 0x51; 7; 7; 0; 1; 2] |}.

Example extensions_stamped_witness :
  processRtpExtensions (fun _ => {| tv_sec := 65; tv_usec := 500000 |}) sample_ext_packet sample_ext
  = Some (26, sample_ext_packet <| MediaDefinitions.data :=
       [144; 100; 0; 1; 0; 0; 0; 2; 0; 0; 0; 3; 0xBE; 0xDE; 0; 2; 0x32; 5; 255; 255; 0x51; 7; 7; 0; 1; 2] |>).
Proof.
  rewrite (extensions_stamped _ sample_ext sample_ext_packet (extMapVideo_ sample_ext)
             [144; 100; 0; 1; 0; 0; 0; 2; 0; 0; 0; 3; 0xBE; 0xDE; 0; 2]
             [{| el_id := 3; el_data := [9; 9; 9] |}; {| el_id := 5; el_data := [7; 7] |}] 1 [1; 2] 2);
    try reflexivity; [discriminate|].
  repeat constructor; simpl; try lia; unfold byte_ok; try lia; discriminate.
Defined.
