(* ===== verification/Connection.v ===== *)
(** * Connection: a WebRTC connection (src/Src/media/WebRtcConnection.cpp, .h)

    The connection ties the other components together: it parses the remote description,
    creates one or two transports, follows their states, queues and renumbers outgoing
    media and hands incoming media and feedback to its sinks.  Calls that leave the
    component are the list of [conn_effect]s of an operation; callbacks of the transports
    come in as their [transport_effect]s.  [Env] holds what constructors leave
    uninitialised, the random numbers and the digest of the certificate.  The FEC
    receiver is vendored WebRTC code: the packets it recovers are an argument.  [None] is
    undefined behaviour or an exception that is not caught.

    The theorems about these definitions are in [ConnectionFacts]. *)

From Stdlib Require Import Ascii String.
From stdpp Require Import pretty.
From S2P Require Import Prelude Bytes MediaDefinitions RtpHeaders RtpVP8 Rtcp RtcpForwarder Stats SdpInfo NiceConnection Dtls DtlsTransport RtpExtensions.
Local Open Scope string_scope.
Local Open Scope list_scope.
Local Open Scope Z_scope.

#[export] Instance eta_ssrcs : Eta ssrcs := fun e =>
  {| videoSinkSSRC_ := videoSinkSSRC_ e; audioSinkSSRC_ := audioSinkSSRC_ e;
     videoSourceSSRC_ := videoSourceSSRC_ e; audioSourceSSRC_ := audioSourceSSRC_ e |}.

Inductive WebRTCEvent :=
  | CONN_INITIAL | CONN_STARTED | CONN_GATHERED | CONN_READY | CONN_FINISHED
  | CONN_CANDIDATE | CONN_SDP | CONN_FAILED.

#[export] Instance WebRTCEvent_eq_dec : EqDecision WebRTCEvent.
Proof. solve_decision. Defined.

(** The value of the enumerator. *)
Definition event_num (e : WebRTCEvent) : Z :=
  match e with
  | CONN_INITIAL => 101 | CONN_STARTED => 102 | CONN_GATHERED => 103 | CONN_READY => 104
  | CONN_FINISHED => 105 | CONN_CANDIDATE => 201 | CONN_SDP => 202 | CONN_FAILED => 500
  end.

Record WebRtcConnection `{CryptoLib} := {
  remoteSdp_ : SdpInfo.SdpInfo;
  localSdp_ : SdpInfo.SdpInfo;
  audioEnabled_ : bool; videoEnabled_ : bool; trickleEnabled_ : bool;
  shouldSendFeedback_ : bool; slideShowMode_ : bool; sending_ : bool;
  conn_bundle : bool;
  connEventListener_ : bool;
  conn_iceConfig : IceConfig;
  extProcessor_ : RtpExtensionProcessor;
  rateControl_ : Z;
  seqNo_ : Z; grace_ : Z; sendSeqNo_ : Z; seqNoOffset_ : Z;
  mark_ : timeval;
  rtcpProcessor_ : option RtcpForwarder;
  videoTransport_ : option DtlsTransport;
  audioTransport_ : option DtlsTransport;
  thisStats_ : Stats;
  globalState_ : WebRTCEvent;
  sendQueue_ : list dataPacket;
  ends_ : ssrcs;
  videoSink_ : bool; audioSink_ : bool; fbSink_ : bool
}.

#[export] Instance eta_WebRtcConnection `{CryptoLib} : Eta WebRtcConnection := fun c =>
  {| remoteSdp_ := remoteSdp_ c; localSdp_ := localSdp_ c; audioEnabled_ := audioEnabled_ c;
     videoEnabled_ := videoEnabled_ c; trickleEnabled_ := trickleEnabled_ c;
     shouldSendFeedback_ := shouldSendFeedback_ c; slideShowMode_ := slideShowMode_ c;
     sending_ := sending_ c; conn_bundle := conn_bundle c; connEventListener_ := connEventListener_ c;
     conn_iceConfig := conn_iceConfig c; extProcessor_ := extProcessor_ c; rateControl_ := rateControl_ c;
     seqNo_ := seqNo_ c; grace_ := grace_ c; sendSeqNo_ := sendSeqNo_ c; seqNoOffset_ := seqNoOffset_ c;
     mark_ := mark_ c; rtcpProcessor_ := rtcpProcessor_ c; videoTransport_ := videoTransport_ c;
     audioTransport_ := audioTransport_ c; thisStats_ := thisStats_ c; globalState_ := globalState_ c;
     sendQueue_ := sendQueue_ c; ends_ := ends_ c; videoSink_ := videoSink_ c; audioSink_ := audioSink_ c;
     fbSink_ := fbSink_ c |}.

(** The listeners, the sinks and the libraries behind the transports ([audio] tells them
    apart). *)
Inductive conn_effect :=
  | NotifyEvent (e : WebRTCEvent) (message : string)
  | NotifyStats (message : string)
  | DeliverVideo (buf : list Z) (len : Z)
  | DeliverAudio (buf : list Z) (len : Z)
  | DeliverFeedback (buf : list Z) (len : Z)
  | Net (audio : bool) (c : nice_call).

Record Env := {
  e_sdp : uninitialised;
  e_rtcp : RtcpData;
  e_forwarder : RtcpForwarder;
  e_packet : dataPacket;
  e_header : list Z;
  e_vp8 : RTPPayloadVP8;
  e_transport : transport_memory;
  e_ssrc : Z;
  e_videoSource : Z;
  e_audioSource : Z;
  e_stats : Stats;
  e_digest : list Z;
  e_rnd : list Z
}.

Section Connection.
Context `{CryptoLib} (env : Env).

Definition WebRtcConnection_ctor (now now2 : timeval) (audioEnabled videoEnabled : bool)
    (iceConfig : IceConfig) (listener : bool) : WebRtcConnection :=
  {| remoteSdp_ := SdpInfo_ctor (e_sdp env); localSdp_ := SdpInfo_ctor (e_sdp env);
     audioEnabled_ := audioEnabled; videoEnabled_ := videoEnabled; trickleEnabled_ := shouldTrickle iceConfig;
     shouldSendFeedback_ := true; slideShowMode_ := false; sending_ := true; conn_bundle := false;
     connEventListener_ := listener; conn_iceConfig := iceConfig; extProcessor_ := RtpExtensionProcessor_ctor;
     rateControl_ := 0; seqNo_ := 1000; grace_ := 0; sendSeqNo_ := 0; seqNoOffset_ := 0;
     mark_ := now; rtcpProcessor_ := None; videoTransport_ := None; audioTransport_ := None;
     thisStats_ := Stats_ctor (e_stats env) now2; globalState_ := CONN_INITIAL; sendQueue_ := [];
     ends_ := {| videoSinkSSRC_ := 55543; audioSinkSSRC_ := 44444;
                 videoSourceSSRC_ := e_videoSource env; audioSourceSSRC_ := e_audioSource env |};
     videoSink_ := false; audioSink_ := false; fbSink_ := false |}.

(** [connEventListener_->notifyEvent], if there is a listener. *)
Definition notify (e : WebRTCEvent) (msg : string) (c : WebRtcConnection) : list conn_effect :=
  if connEventListener_ c then [NotifyEvent e msg] else [].

Definition init (c : WebRtcConnection) : WebRtcConnection * list conn_effect :=
  (c <| rtcpProcessor_ := Some (RtcpForwarder_ctor (e_forwarder env) 300000) |>, notify (globalState_ c) "" c).

Definition setFeedbackReports (shouldSendFb : bool) (rateControl : Z) (c : WebRtcConnection) : WebRtcConnection :=
  let c := c <| shouldSendFeedback_ := shouldSendFb |> in
  let c := if rateControl_ c =? 1 then c <| videoEnabled_ := false |> else c in
  c <| rateControl_ := rateControl |>.

Definition getCurrentState (c : WebRtcConnection) : WebRTCEvent := globalState_ c.

Definition getJSONStats (c : WebRtcConnection) : string := getStats (thisStats_ c).

(** ** Local descriptions *)

Definition describe (t : option DtlsTransport) (s : SdpInfo.SdpInfo) : option SdpInfo.SdpInfo :=
  match t with
  | Some t => processLocalSdp (e_digest env) t s
  | None => Some s
  end.

Definition getLocalSdp (c : WebRtcConnection) : option (string * WebRtcConnection) :=
  s ← describe (videoTransport_ c) (localSdp_ c);
  s ← (if conn_bundle c then Some s else describe (audioTransport_ c) s);
  let s := s <| profile := profile (remoteSdp_ c) |> in
  '(text, s) ← getSdp (e_rnd env) s;
  Some (text, c <| localSdp_ := s |>).

(** The text of a [std::map] in the order of its keys. *)
Fixpoint print_object (object : list (string * string)) : string :=
  match object with
  | [] => ""
  | (k, v) :: object =>
    quote +:+ k +:+ quote +:+ ":" +:+ quote +:+ v +:+ quote +:+
    match object with [] => "" | _ => "," +:+ print_object object end
  end.

Definition getJSONCandidate (mid sdp : string) (c : WebRtcConnection) : string :=
  let line := if String.eqb mid "video" then videoSdpMLine (localSdp_ c) else audioSdpMLine (localSdp_ c) in
  "{" +:+ print_object [("candidate", sdp); ("sdpMLineIndex", pretty line); ("sdpMid", mid)] +:+ "}".

(** [transport_name] is the name of the transport the candidate came from. *)
Definition onCandidate (cand : CandidateInfo.CandidateInfo) (transport_name : string) (c : WebRtcConnection)
    : WebRtcConnection * list conn_effect :=
  let '(sdp, s) := addCandidate cand (localSdp_ c) in
  let c := c <| localSdp_ := s |> in
  (c,
   if trickleEnabled_ c then
     if connEventListener_ c then
       if negb (conn_bundle c) then [NotifyEvent CONN_CANDIDATE (getJSONCandidate transport_name sdp c)]
       else (if hasAudio (remoteSdp_ c)
             then [NotifyEvent CONN_CANDIDATE (getJSONCandidate "audio" sdp c)] else [])
            ++ (if hasVideo (remoteSdp_ c)
                then [NotifyEvent CONN_CANDIDATE (getJSONCandidate "video" sdp c)] else [])
     else []
   else []).

(** ** The transports *)

Definition transport_of (audio : bool) (c : WebRtcConnection) : option DtlsTransport :=
  if audio then audioTransport_ c else videoTransport_ c.
Definition set_transport (audio : bool) (t : DtlsTransport) (c : WebRtcConnection) : WebRtcConnection :=
  if audio then c <| audioTransport_ := Some t |> else c <| videoTransport_ := Some t |>.

(** The calls of libnice among the effects of an operation that has no others. *)
Definition net (audio : bool) (effects : list transport_effect) : list conn_effect :=
  omap (fun e => match e with NiceCall c => Some (Net audio c) | _ => None end) effects.

(** [transport->setRemoteCandidates(candidates, bundle_)] on a transport that must exist. *)
Definition give_candidates (audio : bool) (candidates : list CandidateInfo.CandidateInfo) (c : WebRtcConnection)
    : option (bool * WebRtcConnection * list conn_effect) :=
  t ← transport_of audio c;
  '(res, t, effects) ← DtlsTransport.setRemoteCandidates candidates (conn_bundle c) t;
  Some (res, set_transport audio t c, net audio effects).

(** The transport has the state. *)
Definition in_state (s : TransportState) (t : option DtlsTransport) : bool :=
  match t with Some t => bool_decide (getTransportState t = s) | None => false end.

(** Every medium of the description has a transport in the state. *)
Definition all_in_state (s : TransportState) (sdp : SdpInfo.SdpInfo) (c : WebRtcConnection) : bool :=
  (negb (hasAudio sdp) || in_state s (audioTransport_ c))
  && (negb (hasVideo sdp) || in_state s (videoTransport_ c)).

(** The candidates that could not be passed on before the gathering ended. *)
Definition pass_candidates (c : WebRtcConnection) : option (WebRtcConnection * list conn_effect) :=
  match getCandidateInfos (remoteSdp_ c) with
  | [] => Some (c, [])
  | candidates =>
    '(c, out) ← (if hasVideo (remoteSdp_ c) then
                   '(_, c, out) ← give_candidates false candidates c; Some (c, out)
                 else Some (c, []));
    '(c, out') ← (if negb (conn_bundle c) && hasAudio (remoteSdp_ c) then
                    '(_, c, out') ← give_candidates true candidates c; Some (c, out')
                  else Some (c, []));
    Some (c, out ++ out')
  end.

(** The [switch] of [updateState]: the new state and the message for the listener. *)
Definition next_state (state : TransportState) (c : WebRtcConnection)
    : option (WebRTCEvent * string * WebRtcConnection * list conn_effect) :=
  let stay := Some (globalState_ c, "", c, []) in
  match state with
  | TRANSPORT_STARTED =>
    if conn_bundle c || all_in_state TRANSPORT_STARTED (remoteSdp_ c) c
    then Some (CONN_STARTED, "", c, []) else stay
  | TRANSPORT_GATHERED =>
    '(c, out) ← (if conn_bundle c then pass_candidates c else Some (c, []));
    if (conn_bundle c || all_in_state TRANSPORT_GATHERED (localSdp_ c) c) && negb (trickleEnabled_ c) then
      '(msg, c) ← getLocalSdp c; Some (CONN_GATHERED, msg, c, out)
    else Some (globalState_ c, "", c, out)
  | TRANSPORT_READY =>
    if conn_bundle c || all_in_state TRANSPORT_READY (remoteSdp_ c) c
    then Some (CONN_READY, "", c, []) else stay
  | TRANSPORT_FAILED =>
    let c := c <| sending_ := false |> in
    '(msg, s) ← getSdp (e_rnd env) (remoteSdp_ c);
    Some (CONN_FAILED, msg, c <| remoteSdp_ := s |>, [])
  | _ => stay
  end.

Definition updateState (state : TransportState) (c : WebRtcConnection)
    : option (WebRtcConnection * list conn_effect) :=
  match videoTransport_ c, audioTransport_ c with
  | None, None => Some (c, [])
  | _, _ =>
    if decide (globalState_ c = CONN_FAILED) then Some (c, []) else
    '(temp, msg, c, out) ← next_state state c;
    if decide (globalState_ c = temp) then Some (c, out)
    else Some (c <| globalState_ := temp |>, out ++ notify temp msg c)
  end.

(** [reset(new DtlsTransport(...))], which destroys the transport that was there, and
    [start]; [creds] are the credentials libnice makes. *)
Definition create_transport (audio rtcp_mux : bool) (username password : string) (isServer : bool)
    (creds : string * string) (c : WebRtcConnection) : option (WebRtcConnection * list conn_effect) :=
  _ ← (match transport_of audio c with Some t => DtlsTransport_dtor t | None => Some tt end);
  let t := DtlsTransport_ctor (e_transport env) (if audio then AUDIO_TYPE else VIDEO_TYPE)
             (if audio then "audio" else "video") (conn_bundle c) rtcp_mux true (conn_iceConfig c)
             username password isServer in
  let '(t, effects) := DtlsTransport.start creds t in
  Some (set_transport audio t c, net audio effects).

(** [if (transport == NULL && enabled) create]. *)
Definition create_missing (audio enabled : bool) (creds : string * string) (c : WebRtcConnection)
    : option (WebRtcConnection * list conn_effect) :=
  match transport_of audio c with
  | None => if enabled then create_transport audio true "" "" true creds c else Some (c, [])
  | Some _ => Some (c, [])
  end.

Definition createOffer (creds : string * string) (c : WebRtcConnection)
    : option (WebRtcConnection * list conn_effect) :=
  let c := c <| conn_bundle := true |> <| videoEnabled_ := true |> <| audioEnabled_ := true |> in
  let s := createOfferSdp (videoEnabled_ c) (audioEnabled_ c) (localSdp_ c) in
  let s := if videoEnabled_ c then s <| videoSsrc := videoSinkSSRC_ (ends_ c) |> else s in
  let s := if audioEnabled_ c then s <| audioSsrc := audioSinkSSRC_ (ends_ c) |> else s in
  let c := c <| localSdp_ := s |> in
  '(c, out) ← (if conn_bundle c then create_transport false true "" "" true creds c
               else
                 '(c, out) ← create_missing false (videoEnabled_ c) creds c;
                 '(c, out') ← create_missing true (audioEnabled_ c) creds c;
                 Some (c, out ++ out'));
  if connEventListener_ c then
    '(msg, c) ← getLocalSdp c;
    Some (c, out ++ [NotifyEvent (globalState_ c) msg])
  else Some (c, out).

(** Creates the transport with the peer's credentials, or passes them to the one there is. *)
Definition connect_transport (audio : bool) (creds : string * string) (c : WebRtcConnection)
    : option (WebRtcConnection * list conn_effect) :=
  let media := if audio then AUDIO_TYPE else VIDEO_TYPE in
  let username := getUsername media (remoteSdp_ c) in
  let password := getPassword media (remoteSdp_ c) in
  match transport_of audio c with
  | None => create_transport audio (isRtcpMux (remoteSdp_ c)) username password false creds c
  | Some t =>
    let '(n, effects) := setRemoteCredentials username password (nice_ t) in
    Some (set_transport audio (t <| nice_ := n |>) c, net audio (nice_calls effects))
  end.

(** The SSRCs of a remote description, and who is told. *)
Definition learn_ssrcs (c : WebRtcConnection) : option WebRtcConnection :=
  let r := remoteSdp_ c in
  let c := c <| localSdp_ ::= fun s => s <| videoSsrc := videoSinkSSRC_ (ends_ c) |>
                                         <| audioSsrc := audioSinkSSRC_ (ends_ c) |> |>
             <| ends_ ::= fun e => e <| videoSourceSSRC_ := videoSsrc r |> <| audioSourceSSRC_ := audioSsrc r |> |>
             <| thisStats_ ::= fun s => setAudioSourceSSRC (audioSsrc r) (setVideoSourceSSRC (videoSsrc r) s) |>
             <| audioEnabled_ := hasAudio r |> <| videoEnabled_ := hasVideo r |> in
  p ← rtcpProcessor_ c;
  let p := forwarder_addSourceSsrc (ends_ c) (e_rtcp env) (audioSourceSSRC_ (ends_ c)) p in
  let p := forwarder_addSourceSsrc (ends_ c) (e_rtcp env) (videoSourceSSRC_ (ends_ c)) p in
  Some (c <| rtcpProcessor_ := Some p |>).

(** The transports of a remote description with fingerprint. *)
Definition connect_transports (vcreds acreds : string * string) (c : WebRtcConnection)
    : option (WebRtcConnection * list conn_effect) :=
  let r := remoteSdp_ c in
  match profile r with
  | SAVPF =>
    if isFingerprint r then
      '(c, out) ← (if hasVideo r || conn_bundle c then connect_transport false vcreds c else Some (c, []));
      '(c, out') ← (if negb (conn_bundle c) && hasAudio r then connect_transport true acreds c else Some (c, []));
      Some (c, out ++ out')
    else Some (c, [])
  | AVPF => Some (c, [])
  end.

Definition setRemoteSdp (vcreds acreds : string * string) (sdp : string) (c : WebRtcConnection)
    : option (WebRtcConnection * list conn_effect) :=
  '(_, r) ← initWithSdp (e_sdp env) sdp "" (remoteSdp_ c);
  let c := c <| remoteSdp_ := r |> <| conn_bundle := isBundle r |> <| localSdp_ ::= setOfferSdp r |> in
  x ← setSdpInfo (localSdp_ c) (extProcessor_ c);
  c ← learn_ssrcs (c <| extProcessor_ := x |>);
  '(c, out) ← connect_transports vcreds acreds c;
  '(c, out1) ← (if event_num CONN_GATHERED <=? event_num (getCurrentState c) then pass_candidates c
                else Some (c, []));
  '(c, out2) ← (if trickleEnabled_ c then
                  '(object, c) ← getLocalSdp c; Some (c, notify CONN_SDP object c)
                else Some (c, []));
  if videoBandwidth (remoteSdp_ c) =? 0 then Some (c, out ++ out1 ++ out2) else
  p ← rtcpProcessor_ c;
  Some (c <| rtcpProcessor_ := Some (setMaxVideoBW (u32 (videoBandwidth (remoteSdp_ c) * 1000)) p) |>,
        out ++ out1 ++ out2).

(** The loop that copies the candidates counts with a [uint8_t]. *)
Definition keep_candidates (candidates : list CandidateInfo.CandidateInfo) (s : SdpInfo.SdpInfo)
    : option SdpInfo.SdpInfo :=
  u8_loop 256 0 (List.length candidates)
    (fun i s => match candidates !! i with Some cand => (addCandidate cand s).2 | None => s end) s.

Definition addRemoteCandidate (mid : string) (mLineIndex : Z) (sdp : string) (c : WebRtcConnection)
    : option (bool * WebRtcConnection * list conn_effect) :=
  match videoTransport_ c with
  | None => Some (false, c, [])
  | Some t =>
    let c := if mLineIndex =? -1
             then set_transport false (t <| nice_ ::= setReceivedLastCandidate true |>) c else c in
    let video := String.eqb mid "video" || (mLineIndex =? videoSdpMLine (remoteSdp_ c)) in
    let theType := if video then VIDEO_TYPE else AUDIO_TYPE in
    let tempSdp := setCredentials (getUsername theType (remoteSdp_ c)) (getPassword theType (remoteSdp_ c)) OTHER
                     (SdpInfo_ctor (e_sdp env)) in
    '(ok, tempSdp) ← initWithSdp (e_sdp env) sdp (if video then "video" else "audio") tempSdp;
    '(res, c, out) ← (if ok : bool then
                        give_candidates (negb (video || conn_bundle c)) (getCandidateInfos tempSdp) c
                      else Some (false, c, []));
    r ← keep_candidates (getCandidateInfos tempSdp) (remoteSdp_ c);
    Some (res, c <| remoteSdp_ := r |>, out)
  end.

(** ** Payload types *)

Definition changeDeliverPayloadType (buf : list Z) (type : packetType) (c : WebRtcConnection) : option (list Z) :=
  rtcp ← RtcpHeader.isRtcp buf 0;
  if rtcp : bool then Some buf else
  internalPT ← RtpHeader.getPayloadType buf 0;
  let externalPT := match type with
                    | AUDIO_PACKET => getAudioExternalPT internalPT (remoteSdp_ c)
                    | VIDEO_PACKET => getVideoExternalPT internalPT (remoteSdp_ c)
                    | OTHER_PACKET => internalPT
                    end in
  if internalPT =? externalPT then Some buf else RtpHeader.setPayloadType externalPT buf 0.

Definition parseIncomingPayloadType (buf : list Z) (type : packetType) (c : WebRtcConnection) : option (list Z) :=
  rtcp ← RtcpHeader.isRtcp buf 0;
  if rtcp : bool then Some buf else
  externalPT ← RtpHeader.getPayloadType buf 0;
  let internalPT := match type with
                    | AUDIO_PACKET => getAudioInternalPT externalPT (remoteSdp_ c)
                    | VIDEO_PACKET => getVideoInternalPT externalPT (remoteSdp_ c)
                    | OTHER_PACKET => externalPT
                    end in
  if externalPT =? internalPT then Some buf else RtpHeader.setPayloadType internalPT buf 0.

(** ** The send queue *)

(** A queued packet; a sequence number of 0 means that the packet keeps its own. *)
Definition prepare (component : Z) (buf : list Z) (length : Z) (type : packetType) (seqNum : Z)
    (c : WebRtcConnection) : option dataPacket :=
  p ← copy_in buf length (e_packet env);
  let p := p <| comp := component |> <| type_ := type |> <| length_ := length |> in
  d ← changeDeliverPayloadType (data p) type c;
  d ← (if seqNum =? 0 then Some d else RtpHeader.setSeqNumber seqNum d 0);
  Some (p <| data := d |>).

Definition queueData (component : Z) (buf : list Z) (length : Z) (type : packetType) (seqNum : Z)
    (c : WebRtcConnection) : option WebRtcConnection :=
  if negb (sending_ c) then Some c
  else if component =? -1 then
    Some (c <| sending_ := false |> <| sendQueue_ := [(e_packet env) <| comp := -1 |>] |>)
  else if Z.of_nat (List.length (sendQueue_ c)) <? 1000 then
    p ← prepare component buf length type seqNum c;
    Some (c <| sendQueue_ ::= fun q => q ++ [p] |>)
  else Some c.

(** ** Media to the peer *)

Definition deliverAudioData_ (buf : list Z) (len : Z) (c : WebRtcConnection) : option (Z * WebRtcConnection) :=
  let present := if conn_bundle c then bool_decide (is_Some (videoTransport_ c))
                 else bool_decide (is_Some (audioTransport_ c)) in
  c ← (if present && audioEnabled_ c then queueData 0 buf len AUDIO_PACKET 0 c else Some c);
  Some (len, c).

(** During a slide show only key frames are sent, each up to its marker. *)
Definition deliver_slide (buf : list Z) (len : Z) (c : WebRtcConnection) : option WebRtcConnection :=
  headerLength ← RtpHeader.getHeaderLength buf 0;
  payload ← parseVP8 (e_vp8 env) (drop (Z.to_nat headerLength) buf) (len - headerLength);
  let c := if decide (frameType payload = kIFrame) then c <| grace_ := 1 |> else c in
  if grace_ c =? 0 then Some c else
  let seqNum := seqNo_ c in
  c ← queueData 0 buf len VIDEO_PACKET seqNum (c <| seqNo_ := u16 (seqNum + 1) |>);
  marker ← RtpHeader.getMarker buf 0;
  Some (if marker =? 0 then c else c <| grace_ := 0 |>).

(** A packet that is not RED. *)
Definition deliver_plain (buf : list Z) (len : Z) (c : WebRtcConnection) : option WebRtcConnection :=
  if slideShowMode_ c then deliver_slide buf len c
  else if 0 <? seqNoOffset_ c
  then queueData 0 buf len VIDEO_PACKET (u16 (sendSeqNo_ c - seqNoOffset_ c)) c
  else queueData 0 buf len VIDEO_PACKET 0 c.

(** [recover] is what the FEC receiver gives back for a RED packet ([None]: it refused
    it); recovered packets are delivered in turn, at most [depth] levels of RED deep. *)
Fixpoint deliverVideoData_ (depth : nat) (recover : list Z -> option (list (list Z))) (buf : list Z) (len : Z)
    (c : WebRtcConnection) : option (Z * WebRtcConnection) :=
  match depth with
  | O => None
  | S depth =>
    if bool_decide (is_Some (videoTransport_ c)) && videoEnabled_ c then
      rtcp ← RtcpHeader.isRtcp buf 0;
      if rtcp : bool then
        c ← queueData 0 buf len VIDEO_PACKET 0 c; Some (len, c)
      else
        seq ← RtpHeader.getSeqNumber buf 0;
        pt ← RtpHeader.getPayloadType buf 0;
        let c := c <| sendSeqNo_ := seq |> in
        let '(supported, r) := if pt =? RED_90000_PT then supportPayloadType RED_90000_PT (remoteSdp_ c)
                               else (true, remoteSdp_ c) in
        let c := c <| remoteSdp_ := r |> in
        c ← (if (pt =? RED_90000_PT) && (negb supported || slideShowMode_ c) then
               match recover buf with
               | None => Some c
               | Some packets =>
                 foldl (fun c packet =>
                          c ← c; '(_, c) ← deliverVideoData_ depth recover packet (Z.of_nat (List.length packet)) c;
                          Some c) (Some c) packets
               end
             else deliver_plain buf len c);
        Some (len, c)
    else Some (len, c)
  end.

Definition setSlideShowMode (state : bool) (c : WebRtcConnection) : WebRtcConnection :=
  if eqb (slideShowMode_ c) state then c
  else if state then
    c <| seqNo_ := u16 (sendSeqNo_ c - seqNoOffset_ c) |> <| grace_ := 0 |>
      <| slideShowMode_ := true |> <| shouldSendFeedback_ := false |>
  else
    c <| seqNoOffset_ := u16 (sendSeqNo_ c - seqNo_ c + 1) |>
      <| slideShowMode_ := false |> <| shouldSendFeedback_ := true |>.

(** ** Feedback to the peer *)

Definition deliverFeedback_ (buf : list Z) (len : Z) (c : WebRtcConnection) : option (Z * WebRtcConnection) :=
  p ← rtcpProcessor_ c;
  '(newLength, buf, p) ← analyzeFeedback (ends_ c) (e_rtcp env) buf len p;
  let c := c <| rtcpProcessor_ := Some p |> in
  if newLength =? 0 then Some (len, c) else
  recvSSRC ← RtcpHeader.getSourceSSRC buf 0;
  c ← (if recvSSRC =? videoSourceSSRC_ (ends_ c) then queueData 0 buf len VIDEO_PACKET 0 c
       else if recvSSRC =? audioSourceSSRC_ (ends_ c) then queueData 0 buf len AUDIO_PACKET 0 c
       else Some c);
  Some (newLength, c).

(** The header is built in [RtcpHeader::size] bytes of the stack. *)
Definition sendPLI (c : WebRtcConnection) : option (Z * WebRtcConnection) :=
  h ← RtcpHeader.RtcpHeader_ctor (e_header env) 0;
  h ← RtcpHeader.setPacketType RTCP_PS_Feedback_PT h 0;
  h ← RtcpHeader.setBlockCount 1 h 0;
  h ← RtcpHeader.setSSRC (videoSinkSSRC_ (ends_ c)) h 0;
  h ← RtcpHeader.setSourceSSRC (videoSourceSSRC_ (ends_ c)) h 0;
  h ← RtcpHeader.setLength 2 h 0;
  l ← RtcpHeader.getLength h 0;
  let len := (l + 1) * 4 in
  c ← queueData 0 h len VIDEO_PACKET 0 c;
  Some (len, c).

(** ** Media from the peer *)

(** One block of a feedback packet while a slide show's offset is in force. *)
Definition adjust_block (seqNoOffset : Z) (buf : list Z) (chead : Z) (u : unit) : option (list Z * unit) :=
  packettype ← RtcpHeader.getPacketType buf chead;
  if packettype =? RTCP_Receiver_PT then
    highest ← RtcpHeader.getHighestSeqnum buf chead;
    buf ← (if highest + seqNoOffset <? highest then
             cycles ← RtcpHeader.getSeqnumCycles buf chead;
             RtcpHeader.setSeqnumCycles (cycles + 1) buf chead
           else Some buf);
    highest ← RtcpHeader.getHighestSeqnum buf chead;
    buf ← RtcpHeader.setHighestSeqnum (highest + seqNoOffset) buf chead;
    Some (buf, u)
  else if packettype =? RTCP_RTP_Feedback_PT then
    pid ← RtcpHeader.getNackPid buf chead;
    buf ← RtcpHeader.setNackPid (pid + seqNoOffset) buf chead;
    Some (buf, u)
  else Some (buf, u).

Definition pass_feedback (buf : list Z) (len : Z) (c : WebRtcConnection)
    : option (WebRtcConnection * list conn_effect) :=
  if fbSink_ c && shouldSendFeedback_ c then
    '(buf, _) ← (if 0 <? seqNoOffset_ c then compound (adjust_block (seqNoOffset_ c)) buf len tt
                 else Some (buf, tt));
    Some (c, [DeliverFeedback buf len])
  else Some (c, []).

Definition pass_media (transport_media : MediaType) (recvSSRC : Z) (buf : list Z) (len : Z)
    (c : WebRtcConnection) : option (WebRtcConnection * list conn_effect) :=
  if conn_bundle c then
    if recvSSRC =? videoSourceSSRC_ (ends_ c) then
      buf ← parseIncomingPayloadType buf VIDEO_PACKET c;
      if videoSink_ c then Some (c, [DeliverVideo buf len]) else None
    else if recvSSRC =? audioSourceSSRC_ (ends_ c) then
      buf ← parseIncomingPayloadType buf AUDIO_PACKET c;
      if audioSink_ c then Some (c, [DeliverAudio buf len]) else None
    else Some (c, [])
  else
    match transport_media with
    | AUDIO_TYPE =>
      if audioSink_ c then
        buf ← parseIncomingPayloadType buf AUDIO_PACKET c;
        let c := if audioSourceSSRC_ (ends_ c) =? 0
                 then c <| ends_ ::= fun e => e <| audioSourceSSRC_ := recvSSRC |> |> else c in
        Some (c, [DeliverAudio buf len])
      else Some (c, [])
    | VIDEO_TYPE =>
      if videoSink_ c then
        buf ← parseIncomingPayloadType buf VIDEO_PACKET c;
        let c := if videoSourceSSRC_ (ends_ c) =? 0
                 then c <| ends_ ::= fun e => e <| videoSourceSSRC_ := recvSSRC |> |> else c in
        Some (c, [DeliverVideo buf len])
      else Some (c, [])
    | OTHER => Some (c, [])
    end.

(** The statistics and sender reports; the SSRC stays indeterminate for RTCP packets that
    do not start with a sender report. *)
Definition account_packet (now now2 : timeval) (buf : list Z) (len : Z) (c : WebRtcConnection)
    : option (Z * WebRtcConnection * list conn_effect) :=
  rtcp ← RtcpHeader.isRtcp buf 0;
  if rtcp : bool then
    '(s, told) ← processRtcpPacket buf len (thisStats_ c);
    let c := c <| thisStats_ := s |> in
    let out := match told with Some msg => [NotifyStats msg] | None => [] end in
    pt ← RtcpHeader.getPacketType buf 0;
    if pt =? RTCP_Sender_PT then
      p ← rtcpProcessor_ c;
      p ← forwarder_analyzeSr (ends_ c) (e_rtcp env) now buf 0 p;
      ssrc ← RtcpHeader.getSSRC buf 0;
      Some (ssrc, c <| rtcpProcessor_ := Some p |>, out)
    else Some (e_ssrc env, c, out)
  else
    let '(bitRate, s) := processRtpPacket len now now2 (thisStats_ c) in
    let c := c <| thisStats_ := s |> in
    c ← (if bitRate =? 0 then Some c
         else p ← rtcpProcessor_ c; Some (c <| rtcpProcessor_ := Some (setPublisherBW bitRate p) |>));
    ssrc ← RtpHeader.getSSRC buf 0;
    Some (ssrc, c, []).

Definition onTransportData (now now2 : timeval) (transport_media : MediaType) (buf : list Z) (len : Z)
    (c : WebRtcConnection) : option (WebRtcConnection * list conn_effect) :=
  if negb (audioSink_ c) && negb (videoSink_ c) && negb (fbSink_ c) then Some (c, []) else
  '(recvSSRC, c, out) ← account_packet now now2 buf len c;
  feedback ← RtcpHeader.isFeedback buf 0;
  '(c, out') ← (if feedback : bool then pass_feedback buf len c
                else pass_media transport_media recvSSRC buf len c);
  p ← rtcpProcessor_ c;
  Some (c <| rtcpProcessor_ := Some (checkRtcpFb p) |>, out ++ out').

(** ** The send thread *)

(** The locals of [sendLoop]. *)
Record SendLocals := { partial_bitrate : Z; sentVideoBytes : Z; lastSecondVideoBytes : Z }.

Definition SendLocals_init : SendLocals :=
  {| partial_bitrate := 0; sentVideoBytes := 0; lastSecondVideoBytes := 0 |}.

(** Whether a video packet may go under the rate limit; [rateControl_ = 1] stops all. *)
Definition rate_allows (now : timeval) (p : dataPacket) (l : SendLocals) (c : WebRtcConnection)
    : bool * SendLocals * WebRtcConnection :=
  if rateControl_ c =? 1 then (false, l, c) else
  let elapsed := 100 <=? u64 (to_ms now - to_ms (mark_ c)) in
  let last := if elapsed : bool then sentVideoBytes l else lastSecondVideoBytes l in
  let c := if elapsed then c <| mark_ := now |> else c in
  let bitrate := u32 (u64 (sentVideoBytes l - last) * 8 * 10) in
  if rateControl_ c <? bitrate then
    (false, {| partial_bitrate := bitrate; sentVideoBytes := sentVideoBytes l; lastSecondVideoBytes := last |}, c)
  else
    (true, {| partial_bitrate := bitrate; sentVideoBytes := u64 (sentVideoBytes l + length_ p);
              lastSecondVideoBytes := last |}, c).

(** Stamps the extensions and writes to the transport. *)
Definition send_packet (audio : bool) (clock : Z -> timeval) (p : dataPacket) (c : WebRtcConnection)
    : option (WebRtcConnection * list conn_effect) :=
  '(_, p) ← processRtpExtensions clock p (extProcessor_ c);
  t ← transport_of audio c;
  '(t, effects) ← write (data p) (length_ p) t;
  Some (set_transport audio t c, net audio effects).

(** How a round of the loop ends: the thread goes on, waits for a packet or is over. *)
Inductive round_end := Continue | Wait | Return.

Definition send_round (now : timeval) (clock : Z -> timeval) (l : SendLocals) (c : WebRtcConnection)
    : option (round_end * SendLocals * WebRtcConnection * list conn_effect) :=
  if negb (sending_ c) then Some (Return, l, c, []) else
  match sendQueue_ c with
  | [] => Some (Wait, l, c, [])
  | p :: q =>
    let c := c <| sendQueue_ := q |> in
    if comp p =? -1 then Some (Return, l, c <| sending_ := false |>, [])
    else if conn_bundle c || bool_decide (type_ p = VIDEO_PACKET) then
      let '(allowed, l, c) :=
        if negb (rateControl_ c =? 0) && negb (slideShowMode_ c) && bool_decide (type_ p = VIDEO_PACKET)
        then rate_allows now p l c else (true, l, c) in
      if allowed : bool then
        '(c, out) ← send_packet false clock p c; Some (Continue, l, c, out)
      else Some (Continue, l, c, [])
    else
      '(c, out) ← send_packet true clock p c; Some (Continue, l, c, out)
  end.

(** ** Events of a transport *)

Definition on_transport_effect (now now2 : timeval) (audio : bool) (c : WebRtcConnection) (e : transport_effect)
    : option (WebRtcConnection * list conn_effect) :=
  match e with
  | UpdateState s => updateState s c
  | TransportData buf len => onTransportData now now2 (if audio then AUDIO_TYPE else VIDEO_TYPE) buf len c
  | NewCandidate cand => Some (onCandidate cand (if audio then "audio" else "video") c)
  | NiceCall call => Some (c, [Net audio call])
  end.

Fixpoint on_transport_effects (now now2 : timeval) (audio : bool) (es : list transport_effect)
    (c : WebRtcConnection) : option (WebRtcConnection * list conn_effect) :=
  match es with
  | [] => Some (c, [])
  | e :: es =>
    '(c, out) ← on_transport_effect now now2 audio c e;
    '(c, out') ← on_transport_effects now now2 audio es c;
    Some (c, out ++ out')
  end.

(** Something happens to a transport of the connection. *)
Definition transport_event (now now2 : timeval) (audio : bool)
    (event : DtlsTransport -> option (DtlsTransport * list transport_effect)) (c : WebRtcConnection)
    : option (WebRtcConnection * list conn_effect) :=
  t ← transport_of audio c;
  '(t, effects) ← event t;
  on_transport_effects now now2 audio effects (set_transport audio t c).

(** The destructor, with those of the transports: [None] when one of them throws. *)
Definition WebRtcConnection_dtor (c : WebRtcConnection) : option unit :=
  let close_one t := match t with
                     | Some t => '(t, _) ← close t; Some (Some t)
                     | None => Some None
                     end in
  let destroy t := match t with Some t => DtlsTransport_dtor t | None => Some tt end in
  v ← close_one (videoTransport_ c);
  a ← close_one (audioTransport_ c);
  _ ← destroy a;
  destroy v.
End Connection.
