(* ===== verification/ConnectionFacts.v ===== *)
(** * ConnectionFacts: how a connection reaches its states, and what it sends

    Theorems about [Connection]: a failed connection stays failed and sends nothing; once
    every handshake is complete, in whatever order, the connection is ready and says so
    once; sequence numbers during and after a slide show, and the feedback that names
    them. *)

From Stdlib Require Import Ascii String.
From S2P Require Import Prelude Bytes MediaDefinitions RtpHeaders RtpVP8 Rtcp RtcpForwarder Stats SdpInfo NiceConnection Dtls DtlsTransport RtpExtensions Connection.
Local Open Scope string_scope.
Local Open Scope list_scope.
Local Open Scope Z_scope.

Section Frames.
Context `{CryptoLib} (env : Env).

(** ** Operations that leave state and queue alone *)

(** The events an operation may tell in global state [g] without changing it. *)
Definition quiet (g : WebRTCEvent) (e : conn_effect) : Prop :=
  match e with
  | NotifyEvent ev _ => ev = CONN_CANDIDATE \/ ev = CONN_SDP \/ ev = g
  | _ => True
  end.

Record stays (c c' : WebRtcConnection) (out : list conn_effect) : Prop := {
  stays_state : globalState_ c' = globalState_ c;
  stays_sending : sending_ c' = sending_ c;
  stays_queue : sendQueue_ c' = sendQueue_ c;
  stays_listener : connEventListener_ c' = connEventListener_ c;
  stays_quiet : Forall (quiet (globalState_ c)) out
}.

Lemma stays_refl c : stays c c [].
Proof. split; reflexivity || constructor. Qed.

Lemma stays_nil c c' :
  globalState_ c' = globalState_ c -> sending_ c' = sending_ c -> sendQueue_ c' = sendQueue_ c ->
  connEventListener_ c' = connEventListener_ c -> stays c c' [].
Proof. intros. split; try assumption. constructor. Qed.

Lemma stays_trans c1 c2 c3 out out' : stays c1 c2 out -> stays c2 c3 out' -> stays c1 c3 (out ++ out').
Proof.
  intros [A1 A2 A3 A4 A5] [B1 B2 B3 B4 B5]. rewrite A1 in B5. split; try congruence.
  apply Forall_app. auto.
Qed.

Lemma stays_after c1 c2 c3 out : stays c1 c2 [] -> stays c2 c3 out -> stays c1 c3 out.
Proof. intros A B. exact (stays_trans _ _ _ [] _ A B). Qed.

Lemma stays_then c1 c2 c3 out : stays c1 c2 out -> stays c2 c3 [] -> stays c1 c3 out.
Proof. intros A B. rewrite <- (app_nil_r out). exact (stays_trans _ _ _ _ _ A B). Qed.

Lemma stays_net c c' out : stays c c' [] -> Forall (quiet (globalState_ c)) out -> stays c c' out.
Proof. intros [A1 A2 A3 A4 _] B. split; assumption. Qed.

Lemma quiet_net g audio effects : Forall (quiet g) (net audio effects).
Proof.
  unfold net. induction effects as [|e effects IH]; [constructor|]. simpl.
  destruct e; simpl; try exact IH. constructor; [exact I | exact IH].
Qed.

Lemma stays_set_transport audio t c : stays c (set_transport audio t c) [].
Proof. destruct audio; split; reflexivity || constructor. Qed.

Lemma stays_transport audio t c effects : stays c (set_transport audio t c) (net audio effects).
Proof. apply stays_net; [apply stays_set_transport | apply quiet_net]. Qed.

Lemma getLocalSdp_stays c msg c' : getLocalSdp env c = Some (msg, c') -> stays c c' [].
Proof.
  unfold getLocalSdp. intros E. apply bind_Some in E as (s & _ & E). apply bind_Some in E as (s' & _ & E).
  cbv zeta in E. apply bind_Some in E as ([text s''] & _ & E). injection E as <- <-. apply stays_nil; reflexivity.
Qed.

Lemma give_candidates_stays audio cands c b c' out :
  give_candidates audio cands c = Some (b, c', out) -> stays c c' out.
Proof.
  unfold give_candidates. intros E. apply bind_Some in E as (t & _ & E).
  apply bind_Some in E as ([[r t'] effects] & _ & E). injection E as <- <- <-. apply stays_transport.
Qed.

(** An operation that may be skipped. *)
Lemma optional_stays (b : bool) (op : option (WebRtcConnection * list conn_effect)) c c' out :
  (forall c' out, op = Some (c', out) -> stays c c' out) ->
  (if b then op else Some (c, [])) = Some (c', out) -> stays c c' out.
Proof. intros Hop E. destruct b; [exact (Hop _ _ E)|]. injection E as <- <-. apply stays_refl. Qed.

Lemma pass_candidates_stays c c' out : pass_candidates c = Some (c', out) -> stays c c' out.
Proof.
  unfold pass_candidates. destruct (getCandidateInfos _) as [|cand cands].
  { intros [= <- <-]. apply stays_refl. }
  intros E. apply bind_Some in E as ([c1 o1] & E1 & E). apply bind_Some in E as ([c2 o2] & E2 & E).
  injection E as <- <-. apply stays_trans with c1.
  - apply optional_stays in E1; [exact E1|]. intros c0 o0 E0.
    apply bind_Some in E0 as ([[b' c''] o'] & E0 & [= <- <-]). exact (give_candidates_stays _ _ _ _ _ _ E0).
  - apply optional_stays in E2; [exact E2|]. intros c0 o0 E0.
    apply bind_Some in E0 as ([[b' c''] o'] & E0 & [= <- <-]). exact (give_candidates_stays _ _ _ _ _ _ E0).
Qed.

Lemma create_transport_stays audio mux u p server creds c c' out :
  create_transport env audio mux u p server creds c = Some (c', out) -> stays c c' out.
Proof.
  unfold create_transport. intros E. apply bind_Some in E as (x & _ & E). cbv zeta in E.
  destruct (DtlsTransport.start _ _) as [t effects]. injection E as <- <-. apply stays_transport.
Qed.

Lemma connect_transport_stays audio creds c c' out :
  connect_transport env audio creds c = Some (c', out) -> stays c c' out.
Proof.
  unfold connect_transport. cbv zeta. destruct (transport_of audio c) as [t|].
  - destruct (setRemoteCredentials _ _ _) as [n effects]. intros [= <- <-]. apply stays_transport.
  - apply create_transport_stays.
Qed.

Lemma connect_transports_stays v a c c' out :
  connect_transports env v a c = Some (c', out) -> stays c c' out.
Proof.
  unfold connect_transports. cbv zeta. intros E. destruct (profile _); [injection E as <- <-; apply stays_refl|].
  destruct (isFingerprint _); [|injection E as <- <-; apply stays_refl].
  apply bind_Some in E as ([c1 o1] & E1 & E). apply bind_Some in E as ([c2 o2] & E2 & [= <- <-]).
  apply stays_trans with c1.
  - apply optional_stays in E1; [exact E1|]. intros c0 o0. apply connect_transport_stays.
  - apply optional_stays in E2; [exact E2|]. intros c0 o0. apply connect_transport_stays.
Qed.

Lemma notify_quiet g e msg c : e = CONN_CANDIDATE \/ e = CONN_SDP \/ e = g -> Forall (quiet g) (notify e msg c).
Proof. intros He. unfold notify. destruct (connEventListener_ c); constructor; [exact He | constructor]. Qed.

Lemma createOffer_stays creds c c' out : createOffer env creds c = Some (c', out) -> stays c c' out.
Proof.
  unfold createOffer. cbv zeta. intros E. apply bind_Some in E as ([c1 o1] & E1 & E).
  cbn [conn_bundle set_member] in E1. simpl in E1.
  apply create_transport_stays in E1.
  assert (S1 : stays c c1 o1) by (eapply stays_after; [|exact E1]; apply stays_nil; reflexivity). clear E1.
  destruct (connEventListener_ c1); [|injection E as <- <-; exact S1].
  apply bind_Some in E as ([msg c2] & E2 & [= <- <-]). apply getLocalSdp_stays in E2.
  apply stays_trans with c1; [exact S1|]. apply stays_net; [exact E2|].
  constructor; [|constructor]. right. right. exact (stays_state _ _ _ E2).
Qed.

Lemma learn_ssrcs_stays c c' : learn_ssrcs env c = Some c' -> stays c c' [].
Proof.
  unfold learn_ssrcs. cbv zeta. intros E. apply bind_Some in E as (p & _ & [= <-]). apply stays_nil; reflexivity.
Qed.

Lemma setRemoteSdp_stays v a sdp c c' out : setRemoteSdp env v a sdp c = Some (c', out) -> stays c c' out.
Proof.
  unfold setRemoteSdp. intros E. apply bind_Some in E as ([ok r] & _ & E). cbv zeta in E.
  apply bind_Some in E as (x & _ & E). apply bind_Some in E as (c1 & E1 & E).
  apply bind_Some in E as ([c2 o2] & E2 & E). apply bind_Some in E as ([c3 o3] & E3 & E).
  apply bind_Some in E as ([c4 o4] & E4 & E).
  apply learn_ssrcs_stays in E1. apply connect_transports_stays in E2.
  apply optional_stays in E3; [|intros ? ?; apply pass_candidates_stays].
  apply optional_stays in E4.
  2:{ intros c0 o0 E0. apply bind_Some in E0 as ([msg c5] & E0 & [= <- <-]). apply getLocalSdp_stays in E0.
      apply stays_net; [exact E0|]. apply notify_quiet. auto. }
  assert (S : stays c c4 (o2 ++ o3 ++ o4)).
  { eapply stays_after; [eapply stays_after; [|exact E1]; apply stays_nil; reflexivity|].
    eapply stays_trans; [exact E2|]. eapply stays_trans; eassumption. }
  destruct (_ =? 0); [injection E as <- <-; exact S|].
  apply bind_Some in E as (p & _ & [= <- <-]). eapply stays_then; [exact S|]. apply stays_nil; reflexivity.
Qed.

Lemma addRemoteCandidate_stays mid line sdp c b c' out :
  addRemoteCandidate env mid line sdp c = Some (b, c', out) -> stays c c' out.
Proof.
  unfold addRemoteCandidate. destruct (videoTransport_ c) as [t|].
  2:{ intros [= <- <- <-]. apply stays_refl. }
  set (c1 := if line =? -1 then _ else c).
  assert (S1 : stays c c1 []) by (unfold c1; destruct (line =? -1); [apply stays_set_transport | apply stays_refl]).
  cbv zeta. intros E. apply bind_Some in E as ([ok tmp] & _ & E).
  apply bind_Some in E as ([[res c2] o2] & E2 & E). apply bind_Some in E as (r & _ & E).
  injection E as <- <- <-. eapply stays_after; [exact S1|].
  assert (S2 : stays c1 c2 o2).
  { destruct ok; [exact (give_candidates_stays _ _ _ _ _ _ E2)|]. injection E2 as <- <- <-. apply stays_refl. }
  eapply stays_then; [exact S2|]. apply stays_nil; reflexivity.
Qed.

Lemma onCandidate_stays cand name c c' out : Connection.onCandidate cand name c = (c', out) -> stays c c' out.
Proof.
  unfold Connection.onCandidate. destruct (addCandidate _ _) as [sdp s]. intros [= <- <-]. apply stays_net.
  - apply stays_nil; reflexivity.
  - simpl. destruct (trickleEnabled_ c); [|constructor]. destruct (connEventListener_ c); [|constructor].
    destruct (negb (conn_bundle c)); [repeat constructor; auto|].
    destruct (hasAudio _), (hasVideo _); repeat constructor; auto.
Qed.

(** ** A connection that does not send *)

Lemma queueData_stopped component buf len type seqNum c :
  sending_ c = false -> queueData env component buf len type seqNum c = Some c.
Proof. intros E. unfold queueData. rewrite E. reflexivity. Qed.

(** [c'] after an operation on a connection that does not send. *)
Definition still (c c' : WebRtcConnection) : Prop := sending_ c = false -> stays c c' [].

Lemma still_if (b : bool) component buf len type seqNum c c' :
  (if b then queueData env component buf len type seqNum c else Some c) = Some c' -> still c c'.
Proof.
  intros E Hs. destruct b; [rewrite queueData_stopped in E by exact Hs|]; injection E as <-; apply stays_refl.
Qed.

Lemma deliverAudioData_still buf len c n c' :
  deliverAudioData_ env buf len c = Some (n, c') -> still c c'.
Proof.
  unfold deliverAudioData_. cbv zeta. intros E. apply bind_Some in E as (c1 & E & [= <- <-]).
  exact (still_if _ _ _ _ _ _ _ _ E).
Qed.

Lemma deliver_slide_still buf len c c' : deliver_slide env buf len c = Some c' -> still c c'.
Proof.
  unfold deliver_slide. intros E Hs. apply bind_Some in E as (hl & _ & E). apply bind_Some in E as (v & _ & E).
  set (c1 := if decide _ then _ else c) in E.
  assert (S1 : stays c c1 []) by (unfold c1; destruct (decide _); apply stays_nil; reflexivity).
  cbv zeta in E. destruct (grace_ c1 =? 0); [injection E as <-; exact S1|].
  rewrite queueData_stopped in E by (rewrite <- Hs; exact (stays_sending _ _ _ S1)).
  cbn [option_bind mbind] in E. apply bind_Some in E as (m & _ & [= <-]).
  eapply stays_after; [exact S1|]. destruct (m =? 0); apply stays_nil; reflexivity.
Qed.

Lemma deliver_plain_still buf len c c' : deliver_plain env buf len c = Some c' -> still c c'.
Proof.
  unfold deliver_plain. intros E. destruct (slideShowMode_ c); [exact (deliver_slide_still _ _ _ _ E)|].
  intros Hs. rewrite !queueData_stopped in E by exact Hs. destruct (0 <? _); injection E as <-; apply stays_refl.
Qed.

Lemma fold_still {A} (f : A -> WebRtcConnection -> option WebRtcConnection) l c c' :
  (forall x c c', f x c = Some c' -> still c c') ->
  foldl (fun c x => c ← c; f x c) (Some c) l = Some c' -> still c c'.
Proof.
  intros Hf. revert c. induction l as [|x l IH]; intros c E Hs; simpl in E.
  - injection E as <-. apply stays_refl.
  - destruct (f x c) as [c1|] eqn:E1.
    + apply Hf in E1. specialize (E1 Hs). eapply stays_after; [exact E1|].
      apply (IH c1 E). rewrite <- Hs. exact (stays_sending _ _ _ E1).
    + exfalso. clear -E. induction l; [discriminate | exact (IHl E)].
Qed.

Lemma deliverVideoData_still depth recover buf len c n c' :
  deliverVideoData_ env depth recover buf len c = Some (n, c') -> still c c'.
Proof.
  revert buf len c n c'. induction depth as [|depth IH]; [discriminate|]. intros buf len c n c' E Hs.
  cbn [deliverVideoData_] in E. destruct (_ && _); [|injection E as <- <-; apply stays_refl].
  apply bind_Some in E as (rtcp & _ & E). destruct rtcp.
  { rewrite queueData_stopped in E by exact Hs. injection E as <- <-. apply stays_refl. }
  apply bind_Some in E as (seq & _ & E). apply bind_Some in E as (pt & _ & E). cbv zeta in E.
  destruct (if pt =? RED_90000_PT then _ else _) as [supported r] in E.
  set (c1 := c <| sendSeqNo_ := seq |> <| remoteSdp_ := r |>) in E.
  assert (S1 : stays c c1 []) by (apply stays_nil; reflexivity).
  apply bind_Some in E as (c2 & E2 & [= <- <-]). eapply stays_after; [exact S1|].
  assert (Hs1 : sending_ c1 = false) by exact Hs. clearbody c1.
  destruct (_ && _); [|exact (deliver_plain_still _ _ _ _ E2 Hs1)].
  destruct (recover buf) as [packets|]; [|injection E2 as <-; apply stays_refl].
  revert E2 Hs1. apply (fold_still (fun packet c => '(_, c) ← deliverVideoData_ env depth recover packet
    (Z.of_nat (List.length packet)) c; Some c)).
  intros x c3 c4 E. apply bind_Some in E as ([n4 c5] & E & [= <-]). exact (IH _ _ _ _ _ E).
Qed.

Lemma deliverFeedback_still buf len c n c' :
  deliverFeedback_ env buf len c = Some (n, c') -> still c c'.
Proof.
  unfold deliverFeedback_. intros E Hs. apply bind_Some in E as (p & _ & E).
  apply bind_Some in E as ([[newLength b] p'] & _ & E). cbv zeta in E.
  destruct (newLength =? 0); [injection E as <- <-; apply stays_nil; reflexivity|].
  apply bind_Some in E as (ssrc & _ & E). apply bind_Some in E as (c1 & E1 & [= <- <-]).
  rewrite !queueData_stopped in E1 by exact Hs.
  destruct (_ =? _); [injection E1 as <-|destruct (_ =? _); injection E1 as <-]; apply stays_nil; reflexivity.
Qed.

Lemma sendPLI_still c n c' : sendPLI env c = Some (n, c') -> still c c'.
Proof.
  unfold sendPLI. intros E Hs. do 7 (apply bind_Some in E as (? & _ & E)). cbv zeta in E.
  rewrite queueData_stopped in E by exact Hs. injection E as <- <-. apply stays_refl.
Qed.

Lemma setSlideShowMode_stays state c : stays c (setSlideShowMode state c) [].
Proof.
  unfold setSlideShowMode. destruct (eqb _ _); [apply stays_refl|].
  destruct state; apply stays_nil; reflexivity.
Qed.

Lemma setFeedbackReports_stays b rate c : stays c (setFeedbackReports b rate c) [].
Proof. unfold setFeedbackReports. simpl. destruct (_ =? 1); apply stays_nil; reflexivity. Qed.

Lemma account_packet_stays now now2 buf len c n c' out :
  account_packet env now now2 buf len c = Some (n, c', out) -> stays c c' out.
Proof.
  unfold account_packet. intros E. apply bind_Some in E as (rtcp & _ & E). destruct rtcp.
  - apply bind_Some in E as ([s told] & _ & E). cbv zeta in E. apply bind_Some in E as (pt & _ & E).
    assert (Q : forall g, Forall (quiet g) match told with Some msg => [NotifyStats msg] | None => [] end)
      by (intros g; destruct told; repeat constructor).
    destruct (pt =? _); [|injection E as <- <- <-; apply stays_net; [apply stays_nil; reflexivity | apply Q]].
    apply bind_Some in E as (p & _ & E). apply bind_Some in E as (p' & _ & E). apply bind_Some in E as (x & _ & E).
    injection E as <- <- <-. apply stays_net; [apply stays_nil; reflexivity | apply Q].
  - destruct (processRtpPacket _ _ _ _) as [rate s]. apply bind_Some in E as (c1 & E1 & E).
    apply bind_Some in E as (x & _ & [= <- <- <-]). destruct (rate =? 0); [injection E1 as <-; apply stays_nil; reflexivity|].
    apply bind_Some in E1 as (p & _ & [= <-]). apply stays_nil; reflexivity.
Qed.

Lemma pass_feedback_stays buf len c c' out : pass_feedback buf len c = Some (c', out) -> stays c c' out.
Proof.
  unfold pass_feedback. intros E. destruct (_ && _); [|injection E as <- <-; apply stays_refl].
  apply bind_Some in E as ([b u] & _ & [= <- <-]). apply stays_net; [apply stays_refl | repeat constructor].
Qed.

Lemma pass_media_stays media ssrc buf len c c' out :
  pass_media media ssrc buf len c = Some (c', out) -> stays c c' out.
Proof.
  unfold pass_media. intros E.
  repeat match type of E with
  | (if ?b then _ else _) = _ => destruct b
  | (match ?m with VIDEO_TYPE => _ | AUDIO_TYPE => _ | OTHER => _ end) = _ => destruct m
  | mbind _ _ = _ => apply bind_Some in E as (? & _ & E); cbv zeta in E
  | Some _ = _ => injection E as <- <-
  | None = _ => discriminate
  end; (apply stays_net; [try destruct (_ =? 0); apply stays_nil; reflexivity | repeat constructor]).
Qed.

Lemma onTransportData_stays now now2 media buf len c c' out :
  onTransportData env now now2 media buf len c = Some (c', out) -> stays c c' out.
Proof.
  unfold onTransportData. intros E. destruct (_ && _); [injection E as <- <-; apply stays_refl|].
  apply bind_Some in E as ([[ssrc c1] o1] & E1 & E). apply bind_Some in E as (fb & _ & E).
  apply bind_Some in E as ([c2 o2] & E2 & E). apply bind_Some in E as (p & _ & [= <- <-]).
  apply account_packet_stays in E1.
  assert (S2 : stays c1 c2 o2) by (destruct fb; [exact (pass_feedback_stays _ _ _ _ _ E2) | exact (pass_media_stays _ _ _ _ _ _ _ E2)]).
  eapply stays_then; [eapply stays_trans; eassumption|]. apply stays_nil; reflexivity.
Qed.

(** ** Every operation *)

(** What the application, the two transports and the send thread do to a connection; the
    event of a transport is any of its operations. *)
Inductive conn_op :=
  | do_offer (creds : string * string)
  | do_remote_sdp (vcreds acreds : string * string) (sdp : string)
  | do_candidate (mid : string) (mLineIndex : Z) (sdp : string)
  | do_transport (now now2 : timeval) (audio : bool)
      (event : DtlsTransport -> option (DtlsTransport * list transport_effect))
  | do_audio (buf : list Z) (len : Z)
  | do_video (depth : nat) (recover : list Z -> option (list (list Z))) (buf : list Z) (len : Z)
  | do_feedback (buf : list Z) (len : Z)
  | do_pli
  | do_slide_show (state : bool)
  | do_reports (shouldSendFb : bool) (rateControl : Z)
  | do_round (now : timeval) (clock : Z -> timeval) (l : SendLocals).

Definition run_conn_op (op : conn_op) (c : WebRtcConnection) : option (WebRtcConnection * list conn_effect) :=
  match op with
  | do_offer creds => createOffer env creds c
  | do_remote_sdp v a sdp => setRemoteSdp env v a sdp c
  | do_candidate mid line sdp => '(_, c, out) ← addRemoteCandidate env mid line sdp c; Some (c, out)
  | do_transport now now2 audio event => transport_event env now now2 audio event c
  | do_audio buf len => '(_, c) ← deliverAudioData_ env buf len c; Some (c, [])
  | do_video depth recover buf len => '(_, c) ← deliverVideoData_ env depth recover buf len c; Some (c, [])
  | do_feedback buf len => '(_, c) ← deliverFeedback_ env buf len c; Some (c, [])
  | do_pli => '(_, c) ← sendPLI env c; Some (c, [])
  | do_slide_show state => Some (setSlideShowMode state c, [])
  | do_reports b rate => Some (setFeedbackReports b rate c, [])
  | do_round now clock l => '(_, _, c, out) ← send_round now clock l c; Some (c, out)
  end.

Fixpoint run_conn (ops : list conn_op) (c : WebRtcConnection) : option (WebRtcConnection * list conn_effect) :=
  match ops with
  | [] => Some (c, [])
  | op :: ops =>
    '(c, out) ← run_conn_op op c;
    '(c, out') ← run_conn ops c;
    Some (c, out ++ out')
  end.

Definition failed (c : WebRtcConnection) : Prop := globalState_ c = CONN_FAILED /\ sending_ c = false.

Lemma stays_failed c c' out : stays c c' out -> failed c -> failed c'.
Proof. intros [A B _ _ _] [F1 F2]. split; congruence. Qed.

Lemma updateState_failed s c c' out : failed c -> updateState env s c = Some (c', out) -> stays c c' out.
Proof.
  intros [F _] E. unfold updateState in E.
  assert (X : Some (c, []) = Some (c', out)).
  { destruct (videoTransport_ c), (audioTransport_ c); try rewrite decide_True in E by exact F; exact E. }
  injection X as <- <-. apply stays_refl.
Qed.

Lemma transport_effects_failed now now2 audio es c c' out :
  failed c -> on_transport_effects env now now2 audio es c = Some (c', out) -> stays c c' out.
Proof.
  revert c out. induction es as [|e es IH]; intros c out F E; simpl in E.
  - injection E as <- <-. apply stays_refl.
  - apply bind_Some in E as ([c1 o1] & E1 & E). apply bind_Some in E as ([c2 o2] & E2 & [= <- <-]).
    assert (S1 : stays c c1 o1).
    { destruct e; cbn [on_transport_effect] in E1.
      - exact (updateState_failed _ _ _ _ F E1).
      - exact (onTransportData_stays _ _ _ _ _ _ _ _ E1).
      - apply (inj Some) in E1. exact (onCandidate_stays _ _ _ _ _ E1).
      - injection E1 as <- <-. apply stays_net; [apply stays_refl | repeat constructor]. }
    eapply stays_trans; [exact S1|]. exact (IH _ _ (stays_failed _ _ _ S1 F) E2).
Qed.

Lemma run_conn_op_failed op c c' out : failed c -> run_conn_op op c = Some (c', out) -> stays c c' out.
Proof.
  intros F E. pose proof (proj2 F) as Hs. destruct op; simpl in E.
  - exact (createOffer_stays _ _ _ _ E).
  - exact (setRemoteSdp_stays _ _ _ _ _ _ E).
  - apply bind_Some in E as ([[b c1] o1] & E & [= <- <-]). exact (addRemoteCandidate_stays _ _ _ _ _ _ _ E).
  - unfold transport_event in E. apply bind_Some in E as (t & _ & E). apply bind_Some in E as ([t' es] & _ & E).
    assert (S1 := stays_set_transport audio t' c). eapply stays_after; [exact S1|].
    exact (transport_effects_failed _ _ _ _ _ _ _ (stays_failed _ _ _ S1 F) E).
  - apply bind_Some in E as ([n c1] & E & [= <- <-]). exact (deliverAudioData_still _ _ _ _ _ E Hs).
  - apply bind_Some in E as ([n c1] & E & [= <- <-]). exact (deliverVideoData_still _ _ _ _ _ _ _ E Hs).
  - apply bind_Some in E as ([n c1] & E & [= <- <-]). exact (deliverFeedback_still _ _ _ _ _ E Hs).
  - apply bind_Some in E as ([n c1] & E & [= <- <-]). exact (sendPLI_still _ _ _ E Hs).
  - injection E as <- <-. apply setSlideShowMode_stays.
  - injection E as <- <-. apply setFeedbackReports_stays.
  - unfold send_round in E. rewrite Hs in E. injection E as <- <-. apply stays_refl.
Qed.

Lemma run_conn_failed ops c c' out : failed c -> run_conn ops c = Some (c', out) -> stays c c' out.
Proof.
  revert c out. induction ops as [|op ops IH]; intros c out F E; simpl in E.
  - injection E as <- <-. apply stays_refl.
  - apply bind_Some in E as ([c1 o1] & E1 & E). apply bind_Some in E as ([c2 o2] & E2 & [= <- <-]).
    apply (run_conn_op_failed _ _ _ _ F) in E1. eapply stays_trans; [exact E1|].
    exact (IH _ _ (stays_failed _ _ _ E1 F) E2).
Qed.

(** C6. When a transport of a connection fails the listener is told CONN_FAILED with the
    remote description, and whatever the application, the transports and the send thread
    do afterwards, in any order: the state stays CONN_FAILED, no other state is told, no
    packet is queued and none leaves the queue. *)
Theorem failure_final c c0 out0 ops c' out :
  (is_Some (videoTransport_ c) \/ is_Some (audioTransport_ c)) -> globalState_ c <> CONN_FAILED ->
  updateState env TRANSPORT_FAILED c = Some (c0, out0) -> run_conn ops c0 = Some (c', out) ->
  (exists msg, out0 = notify CONN_FAILED msg c) /\ globalState_ c' = CONN_FAILED
  /\ sendQueue_ c' = sendQueue_ c
  /\ Forall (fun e => match e with
                     | NotifyEvent ev _ => ev = CONN_CANDIDATE \/ ev = CONN_SDP \/ ev = CONN_FAILED
                     | _ => True end) out.
Proof.
  intros Ht Hg E0 E. unfold updateState in E0.
  assert (X : exists msg s, out0 = notify CONN_FAILED msg c
    /\ c0 = c <| sending_ := false |> <| remoteSdp_ := s |> <| globalState_ := CONN_FAILED |>).
  { destruct (videoTransport_ c), (audioTransport_ c);
      try (destruct Ht as [[? ?]|[? ?]]; discriminate);
      (rewrite decide_False in E0 by exact Hg; apply bind_Some in E0 as ([[[temp msg] c1] o1] & E1 & E0);
       cbn [next_state] in E1; cbv zeta in E1; apply bind_Some in E1 as ([m s] & _ & [= <- <- <- <-]);
       rewrite decide_False in E0 by exact Hg; injection E0 as <- <-; exists m, s; split; reflexivity). }
  destruct X as (msg & s & -> & ->).
  apply run_conn_failed in E; [|split; reflexivity]. destruct E as [S1 S2 S3 _ S5].
  split; [eauto|]. split_and!; [exact S1 | exact S3 | exact S5].
Qed.
End Frames.

(** ** Becoming ready *)

Section Liveness.
Context `{CryptoLaws} (env : Env).

(** The sockets of a transport whose handshake is not complete. *)
Definition missing (t : DtlsTransport) : list bool :=
  (if readyRtp t then [] else [false])
  ++ match dtlsRtcp t with None => [] | Some _ => if readyRtcp t then [] else [true] end.

(** A transport on its way: it is in the ready state when nothing is missing. *)
Record pending (t : DtlsTransport) : Prop := {
  pend_listener : transpListener_ t = true;
  pend_mux : dtlsRtcp t = None -> readyRtcp t = readyRtp t;
  pend_state : state_ t = TRANSPORT_READY <-> missing t = []
}.

(** One more socket completes its handshake: it is no longer missing, and the last one
    makes the transport tell that it is ready. *)
Lemma handshake_pending rtcp m t :
  material_ok m -> pending t -> rtcp ∈ missing t ->
  exists t', handshake rtcp m t = (t', match missing t' with [] => [UpdateState TRANSPORT_READY] | _ => [] end)
    /\ pending t' /\ missing t ≡ₚ rtcp :: missing t'.
Proof.
  intros Hm [Hl Hmux Hst] Hin. rewrite handshake_step by exact Hm. unfold announce, handshaken.
  destruct t as [? ? ? ? lis st ? ? ? ? mux ? ? rr rc ? ? ? ?].
  unfold missing, updateTransportState in *. simpl in *. subst lis.
  destruct mux as [d|]; [clear Hmux|specialize (Hmux eq_refl); subst rc];
    destruct rr; try destruct rc; simpl in Hin; destruct rtcp;
    try (exfalso; set_solver); simpl in *;
    try (destruct (decide (TRANSPORT_READY = st)) as [<-|Hne]; [exfalso; destruct Hst as [Hst _]; discriminate (Hst eq_refl)|]);
    (lazymatch goal with |- exists _, (?a, _) = _ /\ _ => exists a end; split; [reflexivity|]); simpl;
    (split; [split; simpl; [reflexivity | discriminate || reflexivity | split; intros E; first [reflexivity | discriminate E | exfalso; apply Hne; symmetry; exact E]] | reflexivity || apply perm_swap]).
Qed.

Definition missing_of (audio : bool) (c : WebRtcConnection) : list (bool * bool) :=
  match transport_of audio c with Some t => map (pair audio) (missing t) | None => [] end.

(** The sockets of both transports that are still missing. *)
Definition conn_missing (c : WebRtcConnection) : list (bool * bool) := missing_of false c ++ missing_of true c.

(** A negotiated connection that is neither ready nor failed: one transport for all media,
    or one for each medium of the remote description. *)
Record waiting (c : WebRtcConnection) : Prop := {
  w_failed : globalState_ c <> CONN_FAILED;
  w_ready : globalState_ c <> CONN_READY;
  w_listener : connEventListener_ c = true;
  w_pending : forall audio t, transport_of audio c = Some t -> pending t;
  w_media : if conn_bundle c then audioTransport_ c = None
            else hasVideo (remoteSdp_ c) = bool_decide (is_Some (videoTransport_ c))
                 /\ hasAudio (remoteSdp_ c) = bool_decide (is_Some (audioTransport_ c))
}.

Lemma set_transport_same audio t c :
  transport_of audio (set_transport audio t c) = Some t
  /\ transport_of (negb audio) (set_transport audio t c) = transport_of (negb audio) c.
Proof. destruct audio; split; reflexivity. Qed.

Lemma missing_in_state audio c :
  waiting c ->
  in_state TRANSPORT_READY (transport_of audio c)
  = bool_decide (is_Some (transport_of audio c) /\ missing_of audio c = []).
Proof.
  intros W. unfold missing_of. destruct (transport_of audio c) as [t|] eqn:E; simpl.
  - apply bool_decide_ext. rewrite (pend_state _ (w_pending _ W _ _ E)).
    destruct (missing t); simpl; split; intros; try split; eauto; try discriminate; destruct_and?; congruence.
  - reflexivity.
Qed.

(** With a transport for each medium: all of them are ready when nothing is missing. *)
Lemma all_ready c :
  waiting c -> conn_bundle c = false ->
  all_in_state TRANSPORT_READY (remoteSdp_ c) c = bool_decide (conn_missing c = []).
Proof.
  intros W Eb. pose proof (w_media _ W) as Hm. rewrite Eb in Hm. destruct Hm as [Hv Ha].
  unfold all_in_state. rewrite Hv, Ha.
  pose proof (missing_in_state false c W) as M1. pose proof (missing_in_state true c W) as M2.
  cbn [transport_of] in M1, M2. rewrite M1, M2. clear M1 M2.
  unfold conn_missing, missing_of. cbn [transport_of].
  destruct (videoTransport_ c) as [v|], (audioTransport_ c) as [a|]; simpl;
    rewrite ?(bool_decide_eq_true_2 (is_Some (Some _))) by eauto; simpl;
    try (destruct (map (pair false) (missing v)) eqn:E1); try (destruct (map (pair true) (missing a)) eqn:E2);
    simpl; rewrite ?andb_false_r; try reflexivity;
    repeat first [rewrite bool_decide_eq_true_2 by eauto | rewrite bool_decide_eq_false_2 by (intros [_ ?]; discriminate)];
    try reflexivity.
Qed.

Lemma waiting_set_transport audio t c :
  waiting c -> is_Some (transport_of audio c) -> pending t -> waiting (set_transport audio t c).
Proof.
  intros [W1 W2 W3 W4 W5] Hs Hp. split.
  - destruct audio; exact W1.
  - destruct audio; exact W2.
  - destruct audio; exact W3.
  - intros a u Hu. destruct (eqb_spec a audio) as [->|Hne].
    + rewrite (proj1 (set_transport_same audio t c)) in Hu. injection Hu as <-. exact Hp.
    + replace a with (negb audio) in * by (destruct a, audio; congruence || reflexivity).
      rewrite (proj2 (set_transport_same audio t c)) in Hu. exact (W4 _ _ Hu).
  - destruct audio; simpl in *; destruct (conn_bundle c); try exact W5.
    + rewrite W5 in Hs. destruct Hs as [? ?]. discriminate.
    + destruct W5 as [V A]. rewrite (bool_decide_eq_true_2 _ Hs) in A. auto.
    + destruct W5 as [V A]. rewrite (bool_decide_eq_true_2 _ Hs) in V. auto.
Qed.

(** A transport that is ready makes the connection ready if nothing else is missing. *)
Lemma update_ready audio t c :
  waiting c -> transport_of audio c = Some t -> missing t = [] ->
  updateState env TRANSPORT_READY c
  = if decide (conn_missing c = [])
    then Some (c <| globalState_ := CONN_READY |>, [NotifyEvent CONN_READY ""]) else Some (c, []).
Proof.
  intros W Et Em. assert (Hg := w_failed _ W). assert (Hr := w_ready _ W).
  assert (En : next_state env TRANSPORT_READY c
    = if decide (conn_missing c = []) then Some (CONN_READY, "", c, []) else Some (globalState_ c, "", c, [])).
  { cbn [next_state]. destruct (conn_bundle c) eqn:Eb.
    - rewrite decide_True; [reflexivity|]. pose proof (w_media _ W) as Ha. rewrite Eb in Ha.
      unfold conn_missing, missing_of. cbn [transport_of]. rewrite Ha, app_nil_r.
      destruct audio; cbn [transport_of] in Et; [congruence|]. rewrite Et, Em. reflexivity.
    - cbn [orb]. rewrite (all_ready _ W Eb). destruct (decide (conn_missing c = [])) as [e|e];
        [rewrite bool_decide_eq_true_2 by exact e | rewrite bool_decide_eq_false_2 by exact e]; reflexivity. }
  unfold updateState. rewrite En.
  destruct (videoTransport_ c) eqn:Ev, (audioTransport_ c) eqn:Ea;
    try (destruct audio; cbn [transport_of] in Et; congruence);
    rewrite decide_False by exact Hg; (destruct (decide (conn_missing c = [])); cbn [option_bind mbind];
      [rewrite decide_False by exact Hr; unfold notify; rewrite (w_listener _ W); reflexivity
      | rewrite decide_True by reflexivity; reflexivity]).
Qed.

(** A handshake of the connection, seen from the DTLS socket. *)
Definition handshake_event (now : timeval) (m : list Z) (x : bool * bool) (c : WebRtcConnection) :=
  transport_event env now now x.1 (fun t => Some (handshake x.2 m t)) c.

(** What is left after one handshake: nothing, and the connection has become ready, or
    the connection still waits and has told nothing. *)
Lemma handshake_event_spec now m x c :
  material_ok m -> waiting c -> x ∈ conn_missing c ->
  exists c', conn_missing c ≡ₚ x :: conn_missing c'
    /\ if decide (conn_missing c' = []) then
         handshake_event now m x c = Some (c', [NotifyEvent CONN_READY ""]) /\ globalState_ c' = CONN_READY
       else handshake_event now m x c = Some (c', []) /\ waiting c'.
Proof.
  intros Hm W Hx. destruct x as [audio rtcp].
  assert (Ht : exists t, transport_of audio c = Some t /\ rtcp ∈ missing t).
  { unfold conn_missing, missing_of in Hx. apply elem_of_app in Hx as [Hx|Hx];
      (destruct (transport_of _ c) as [t|] eqn:E; [|set_solver]); apply list_elem_of_fmap in Hx as (r & [= -> ->] & Hr);
      eauto. }
  destruct Ht as (t & Et & Hr). destruct (handshake_pending rtcp m t Hm (w_pending _ W _ _ Et) Hr) as (t' & Eh & Hp & Hperm).
  set (c1 := set_transport audio t' c).
  assert (W1 : waiting c1) by (apply waiting_set_transport; [exact W | eauto | exact Hp]).
  assert (Hmiss : conn_missing c ≡ₚ (audio, rtcp) :: conn_missing c1).
  { unfold conn_missing, missing_of, c1.
    destruct audio; cbn [transport_of set_transport] in *; rewrite Et; simpl;
      rewrite Hperm; simpl; [|reflexivity].
    rewrite <- Permutation_middle. reflexivity. }
  unfold handshake_event, transport_event. cbn [fst snd]. rewrite Et. cbn [option_bind mbind]. rewrite Eh.
  cbn [option_bind mbind]. fold c1.
  assert (E1 : transport_of audio c1 = Some t') by apply set_transport_same.
  destruct (missing t') as [|r rest] eqn:Emiss.
  2:{ exists c1. split; [exact Hmiss|]. rewrite decide_False; [split; [reflexivity | exact W1]|].
      unfold conn_missing, missing_of. destruct audio; cbn [transport_of] in *; rewrite E1, Emiss; simpl;
        [intros E; apply app_eq_nil in E as [_ E]; discriminate | discriminate]. }
  cbn [on_transport_effects on_transport_effect].
  rewrite (update_ready audio t' c1 W1 E1 Emiss). destruct (decide (conn_missing c1 = [])) as [E|E]; cbn [option_bind mbind].
  - exists (c1 <| globalState_ := CONN_READY |>).
    split; [exact Hmiss|]. change (conn_missing (c1 <| globalState_ := CONN_READY |>)) with (conn_missing c1).
    rewrite decide_True by exact E. split; reflexivity.
  - exists c1. split; [exact Hmiss|]. rewrite decide_False by exact E. split; [reflexivity | exact W1].
Qed.

(** The handshakes in the given order; [m] is the key material of each socket. *)
Fixpoint handshake_events (now : timeval) (m : bool * bool -> list Z) (order : list (bool * bool))
    (c : WebRtcConnection) : option (WebRtcConnection * list conn_effect) :=
  match order with
  | [] => Some (c, [])
  | x :: order =>
    '(c, out) ← handshake_event now (m x) x c;
    '(c, out') ← handshake_events now m order c;
    Some (c, out ++ out')
  end.

(** C3. A negotiated connection becomes ready: when the sockets of its transports (one
    transport for all media or one per medium, each with one or two sockets) complete
    their handshakes, in whatever order and interleaving, the listener is told CONN_READY
    exactly once, at the last of them, and that is the state. *)
Theorem connection_becomes_ready now m order c :
  (forall x, material_ok (m x)) -> waiting c -> conn_missing c <> [] -> order ≡ₚ conn_missing c ->
  exists c', handshake_events now m order c = Some (c', [NotifyEvent CONN_READY ""])
    /\ globalState_ c' = CONN_READY.
Proof.
  intros Hm. revert c. induction order as [|x order IH]; intros c W Hne Hp.
  { apply Permutation_nil_l in Hp. congruence. }
  destruct (handshake_event_spec now (m x) x c (Hm x) W) as (c1 & Hp1 & E1);
    [rewrite <- Hp; left|].
  assert (Hp' : order ≡ₚ conn_missing c1) by (apply (Permutation_cons_inv (a := x)); rewrite Hp; exact Hp1).
  destruct (decide (conn_missing c1 = [])) as [E|E]; destruct E1 as [E1 E2]; cbn [handshake_events]; rewrite E1;
    cbn [option_bind mbind].
  - rewrite E in Hp'. apply Permutation_nil_r in Hp'. subst order. exists c1. split; [reflexivity | exact E2].
  - destruct (IH c1 E2 E Hp') as (c' & -> & Hc'). exists c'. split; [reflexivity | exact Hc'].
Qed.
End Liveness.


(** ** A sample connection *)

#[local] Existing Instance Sample.lib.
#[local] Existing Instance Sample.laws.

Definition sample_env : Env := {|
  e_sdp := sample_mem;
  e_rtcp := RtcpData_zero;
  e_forwarder := {| rtcpData_ := ∅; maxVideoBw_ := 7; defaultVideoBw_ := 7; packet_ := replicate 128 7 |};
  e_packet := {| comp := 7; data := replicate 1500 7; length_ := 7; type_ := OTHER_PACKET |};
  e_header := replicate 32 7;
  e_vp8 := vp8_zero;
  e_transport := sample_memory 0;
  e_ssrc := 7; e_videoSource := 7; e_audioSource := 7;
  e_stats := {| rtpBytesReceived_ := 7; bitRateCalculationStart_ := {| tv_sec := 7; tv_usec := 7 |};
                statsPacket_ := ∅; theListener_ := false; videoSSRC_ := 7; audioSSRC_ := 7 |};
  e_digest := [171; 205];
  e_rnd := [83; 14; 62; 7; 99; 41; 0; 61; 15; 3]
|}.

Definition time0 : timeval := {| tv_sec := 0; tv_usec := 0 |}.

(** A description of both media without rtcp-mux: two transports of two sockets each. *)
Definition sample_sdp : string := lines_of
  ["a=fingerprint:sha-256 AB:CD"; "m=audio 1 RTP/SAVPF 0"; "a=ice-ufrag:u"; "a=ice-pwd:p";
   "a=rtpmap:0 PCMU/8000"; "m=video 1 RTP/SAVPF 100"; "a=ice-ufrag:v"; "a=ice-pwd:q"; "a=rtpmap:100 VP8/90000"].

(** The connection after the description has been received, and what it has asked for. *)
Definition sample_connection : WebRtcConnection :=
  let c := fst (init sample_env (WebRtcConnection_ctor sample_env time0 time0 true true IceConfig_ctor true)) in
  match setRemoteSdp sample_env ("vu", "vp") ("au", "ap") sample_sdp c with
  | Some (c, _) => c
  | None => c
  end.

Lemma sample_waiting : waiting sample_connection.
Proof.
  split; [vm_compute; discriminate | vm_compute; discriminate | vm_compute; reflexivity | | vm_compute; auto].
  intros audio t E. assert (X : forall t, Some t = transport_of audio sample_connection ->
    transpListener_ t = true /\ is_Some (dtlsRtcp t) /\ state_ t = TRANSPORT_INITIAL /\ missing t = [false; true]).
  { intros u. destruct audio; vm_compute; intros [= ->]; eauto. }
  destruct (X t (eq_sym E)) as (L & [d D] & S & M). split; [exact L | congruence |]. rewrite S, M. split; discriminate.
Qed.

Definition sample_order : list (bool * bool) := [(true, true); (false, false); (true, false); (false, true)].

Example connection_becomes_ready_witness :
  exists c', handshake_events sample_env time0 (fun x => sample_materials x.2) sample_order sample_connection
    = Some (c', [NotifyEvent CONN_READY ""]) /\ globalState_ c' = CONN_READY.
Proof.
  apply (connection_becomes_ready sample_env time0 (fun x => sample_materials x.2) sample_order sample_connection).
  - intros [? []]; cbn [snd]; apply sample_material_ok; lia.
  - exact sample_waiting.
  - vm_compute. discriminate.
  - replace (conn_missing sample_connection) with [(false, false); (false, true); (true, false); (true, true)]
      by (vm_compute; reflexivity).
    unfold sample_order. solve_Permutation.
Defined.

(** The audio transport fails; then the application sends, the video transport completes
    its handshakes and the send thread runs. *)
Definition sample_failed : WebRtcConnection :=
  match updateState sample_env TRANSPORT_FAILED sample_connection with Some (c, _) => c | None => sample_connection end.

Definition sample_conn_ops : list conn_op :=
  [do_pli; do_audio (128 :: 0 :: replicate 12 1) 14; do_slide_show true;
   do_transport time0 time0 false (fun t => Some (handshake false (sample_materials false) t));
   do_transport time0 time0 false (fun t => Some (handshake true (sample_materials true) t));
   do_round time0 (fun _ => time0) SendLocals_init].

Example failure_final_witness :
  exists c' out, run_conn sample_env sample_conn_ops sample_failed = Some (c', out)
    /\ globalState_ c' = CONN_FAILED /\ sendQueue_ c' = [].
Proof.
  destruct (run_conn sample_env sample_conn_ops sample_failed) as [[c' out]|] eqn:E; [|exfalso; vm_compute in E; discriminate E].
  exists c', out. split; [reflexivity|].
  destruct (updateState sample_env TRANSPORT_FAILED sample_connection) as [[c0 out0]|] eqn:E0;
    [|exfalso; vm_compute in E0; discriminate E0].
  assert (Ec : sample_failed = c0) by (unfold sample_failed; rewrite E0; reflexivity). rewrite Ec in E.
  destruct (failure_final sample_env sample_connection c0 out0 sample_conn_ops c' out) as (_ & Hg & Hq & _);
    [left; vm_compute; eauto | vm_compute; discriminate | exact E0 | exact E |].
  split; [exact Hg|]. rewrite Hq. vm_compute. reflexivity.
Defined.
