(* ===== verification/Ordered.v ===== *)
(** * Ordered: std::map, with the order of its iteration

    The server's maps are iterated over, and what is done for one element is seen by the
    clients before what is done for the next: they are lists in increasing order of their
    keys.  The lemmas give the usual algebra of lookups; [increasing] is what every
    operation keeps. *)

From S2P Require Import Prelude.

Section OrderedMap.
Context {K V : Type} `{EqDecision K} (ltb : K -> K -> bool).

Fixpoint om_find (k : K) (m : list (K * V)) : option V :=
  match m with
  | [] => None
  | (k', v) :: m => if decide (k = k') then Some v else om_find k m
  end.

(** At its place in the order. *)
Fixpoint om_place (k : K) (v : V) (m : list (K * V)) : list (K * V) :=
  match m with
  | [] => [(k, v)]
  | (k', v') :: m' => if ltb k k' then (k, v) :: m else (k', v') :: om_place k v m'
  end.

(** [insert] keeps the element there is. *)
Definition om_insert (k : K) (v : V) (m : list (K * V)) : list (K * V) :=
  match om_find k m with Some _ => m | None => om_place k v m end.

Definition om_erase (k : K) (m : list (K * V)) : list (K * V) := filter (fun kv => kv.1 <> k) m.

(** The element of a key that is there is replaced. *)
Definition om_update (k : K) (f : V -> V) (m : list (K * V)) : list (K * V) :=
  map (fun kv => if decide (kv.1 = k) then (kv.1, f kv.2) else kv) m.

(** [m[k] = v]. *)
Definition om_set (k : K) (v : V) (m : list (K * V)) : list (K * V) :=
  match om_find k m with Some _ => om_update k (fun _ => v) m | None => om_place k v m end.

Definition keys (m : list (K * V)) : list K := map fst m.

(** ** Lookups *)

Lemma find_place k v k' m : om_find k m = None ->
  om_find k' (om_place k v m) = if decide (k' = k) then Some v else om_find k' m.
Proof.
  induction m as [|[k1 v1] m IH]; cbn [om_place om_find]; [reflexivity|]. destruct (decide (k = k1)) as [|Hk]; [discriminate|].
  intros Hn. destruct (ltb k k1); cbn [om_find]; [reflexivity|]. rewrite IH by exact Hn.
  destruct (decide (k' = k1)), (decide (k' = k)); congruence.
Qed.

Lemma find_insert k v k' m : om_find k' (om_insert k v m) =
  if decide (k' = k) then Some (default v (om_find k m)) else om_find k' m.
Proof.
  unfold om_insert. destruct (om_find k m) as [v0|] eqn:E; cbn [default].
  - destruct (decide (k' = k)) as [->|]; [exact E | reflexivity].
  - apply find_place, E.
Qed.

Lemma find_erase k k' m : om_find k' (om_erase k m) = if decide (k' = k) then None else om_find k' m.
Proof.
  induction m as [|[k1 v1] m IH]; cbn [om_erase om_find]; [destruct (decide _); reflexivity|].
  unfold om_erase in *. rewrite filter_cons. cbn [fst]. destruct (decide (k1 <> k)) as [Hk|Hk]; cbn [om_find]; rewrite IH.
  - destruct (decide (k' = k1)), (decide (k' = k)); congruence.
  - destruct (decide (k' = k)), (decide (k' = k1)); try reflexivity. exfalso. apply Hk. congruence.
Qed.

Lemma find_update k f k' m : om_find k' (om_update k f m) =
  if decide (k' = k) then f <$> om_find k m else om_find k' m.
Proof.
  induction m as [|[k1 v1] m IH]; cbn [om_update map om_find]; [destruct (decide _); reflexivity|].
  cbn [fst snd]. fold (om_update k f m). destruct (decide (k1 = k)) as [->|Hk]; cbn [om_find]; rewrite IH.
  - destruct (decide (k' = k)) as [->|]; [|reflexivity]. destruct (decide (k = k)); [reflexivity | congruence].
  - destruct (decide (k' = k1)), (decide (k' = k)), (decide (k = k1)); congruence.
Qed.

Lemma find_set k v k' m : om_find k' (om_set k v m) = if decide (k' = k) then Some v else om_find k' m.
Proof.
  unfold om_set. destruct (om_find k m) as [v0|] eqn:E; [|apply find_place, E]. rewrite find_update, E. reflexivity.
Qed.

Lemma keys_find k m : k ∈ keys m <-> is_Some (om_find k m).
Proof.
  induction m as [|[k1 v1] m IH]; cbn [keys map om_find fst]; [rewrite elem_of_nil; split; [contradiction | intros [? [=]]]|].
  rewrite elem_of_cons. destruct (decide (k = k1)) as [->|Hk]; [split; eauto|]. rewrite <- IH. unfold keys. tauto.
Qed.

(** ** The order *)

(** Strictly increasing; every operation keeps it. *)
Inductive increasing : list (K * V) -> Prop :=
  | increasing_nil : increasing []
  | increasing_cons k v m : increasing m -> (forall k', k' ∈ keys m -> ltb k k' = true) -> increasing ((k, v) :: m).

Class KeyOrder : Prop := {
  ltb_irreflexive k : ltb k k = false;
  ltb_trans k1 k2 k3 : ltb k1 k2 = true -> ltb k2 k3 = true -> ltb k1 k3 = true;
  ltb_total k1 k2 : k1 <> k2 -> ltb k1 k2 = false -> ltb k2 k1 = true
}.
Context `{!KeyOrder}.

Lemma keys_place k v m k' : k' ∈ keys (om_place k v m) <-> k' = k \/ k' ∈ keys m.
Proof.
  induction m as [|[k1 v1] m IH]; cbn [om_place keys map fst]; [rewrite elem_of_cons; reflexivity|].
  destruct (ltb k k1); cbn [keys map fst]; rewrite !elem_of_cons; [reflexivity|]. unfold keys in *. rewrite IH. tauto.
Qed.

Lemma increasing_place k v m : om_find k m = None -> increasing m -> increasing (om_place k v m).
Proof.
  intros Hn Hm. revert Hn. induction Hm as [|k1 v1 m Hm IH Hk]; intros Hn; cbn [om_place].
  { constructor; [constructor|]. intros k' Hk'. inversion Hk'. }
  cbn [om_find] in Hn. destruct (decide (k = k1)) as [|Hne]; [discriminate|].
  destruct (ltb k k1) eqn:El.
  - constructor; [constructor; assumption|]. intros k' Hk'. apply elem_of_cons in Hk' as [->|Hk']; [exact El|].
    eapply ltb_trans; [exact El | apply Hk, Hk'].
  - constructor; [apply IH, Hn|]. intros k' Hk'. apply keys_place in Hk' as [->|Hk']; [|apply Hk, Hk'].
    apply ltb_total; assumption.
Qed.

Lemma increasing_erase k m : increasing m -> increasing (om_erase k m).
Proof.
  induction 1 as [|k1 v1 m Hm IH Hk]; [constructor|]. unfold om_erase in *. rewrite filter_cons. destruct (decide _); [|exact IH].
  constructor; [exact IH|]. intros k' Hk'. apply Hk. unfold keys in *. rewrite list_elem_of_fmap in *.
  destruct Hk' as (kv & -> & Hin). exists kv. split; [reflexivity|]. apply list_elem_of_filter in Hin. apply Hin.
Qed.

Lemma keys_update k f m : keys (om_update k f m) = keys m.
Proof.
  unfold keys, om_update. rewrite map_map. apply map_ext. intros [k1 v1]. cbn. destruct (decide _); reflexivity.
Qed.

Lemma increasing_keys m m' : keys m' = keys m -> increasing m -> increasing m'.
Proof.
  intros Hk Hm. revert m' Hk. induction Hm as [|k v m Hm IH Hlt]; intros m' Hk; destruct m' as [|[k' v'] m']; try discriminate; constructor.
  - apply IH. injection Hk. auto.
  - intros k1 Hk1. injection Hk as -> Hk. apply Hlt. unfold keys in *. congruence.
Qed.

Lemma increasing_insert k v m : increasing m -> increasing (om_insert k v m).
Proof.
  intros Hm. unfold om_insert. destruct (om_find k m) eqn:E; [exact Hm | apply increasing_place; assumption].
Qed.

Lemma increasing_set k v m : increasing m -> increasing (om_set k v m).
Proof.
  intros Hm. unfold om_set. destruct (om_find k m) eqn:E; [|apply increasing_place; assumption].
  eapply increasing_keys; [apply keys_update | exact Hm].
Qed.

Lemma increasing_NoDup m : increasing m -> NoDup (keys m).
Proof.
  induction 1 as [|k v m Hm IH Hk]; [constructor|]. cbn. constructor; [|exact IH]. intros Hin.
  specialize (Hk k Hin). rewrite ltb_irreflexive in Hk. discriminate.
Qed.

Lemma increasing_elem m k v : increasing m -> (k, v) ∈ m <-> om_find k m = Some v.
Proof.
  induction 1 as [|k1 v1 m Hm IH Hk]; cbn [om_find]; [rewrite elem_of_nil; split; [contradiction | discriminate]|].
  rewrite elem_of_cons. destruct (decide (k = k1)) as [->|Hne].
  - split; [|intros [= ->]; auto]. intros [[= ->]|Hin]; [reflexivity|]. apply IH in Hin.
    assert (Hkey : k1 ∈ keys m) by (apply keys_find; eauto). specialize (Hk k1 Hkey). rewrite ltb_irreflexive in Hk. discriminate.
  - rewrite <- IH. split; [intros [[= -> _]|Hin]; [contradiction | exact Hin] | auto].
Qed.
End OrderedMap.

Arguments increasing {K V} _ _.
Arguments KeyOrder {K} _.

#[export] Instance Z_order : KeyOrder Z.ltb.
Proof. split; intros; lia. Qed.

(** std::string keys: bytes, lexicographically. *)
Fixpoint bytes_ltb (a b : list Z) : bool :=
  match a, b with
  | _, [] => false
  | [], _ :: _ => true
  | x :: a, y :: b => (x <? y) || (x =? y) && bytes_ltb a b
  end.

#[export] Instance bytes_order : KeyOrder bytes_ltb.
Proof.
  split.
  - induction k as [|x k IH]; [reflexivity|]. cbn. rewrite Z.ltb_irrefl, Z.eqb_refl, IH. reflexivity.
  - induction k1 as [|x k1 IH]; intros [|y k2] [|z k3]; try discriminate; auto. cbn.
    intros [H1|[H1 T1]%andb_true_iff]%orb_true_iff [H2|[H2 T2]%andb_true_iff]%orb_true_iff;
      apply orb_true_iff; rewrite andb_true_iff; try (left; lia). right. split; [lia | eapply IH; eassumption].
  - induction k1 as [|x k1 IH]; intros [|y k2] Hne; try (cbn; congruence).
    cbn. intros [H1 H2]%orb_false_iff. apply orb_true_iff. rewrite andb_true_iff.
    destruct (Z.eqb_spec x y) as [->|Hxy]; [right|left; lia]. split; [apply Z.eqb_refl|]. apply IH; [congruence | exact H2].
Qed.
