(* ===== verification/OneToMany.v ===== *)
(** * OneToMany: one publisher, many subscribers (src/Src/media/OneToManyProcessor.cpp)

    The processor is the sink of the media of its publisher's connection and hands every
    packet to the connections of its subscribers; it is the sink of their feedback, which
    goes to the publisher.  Connections are shared objects: they live in a store and are
    known by their addresses.  The processor owns them through its shared pointers, so
    that removing one destroys it.  [None] is undefined behaviour: a call through a null
    pointer or on a destroyed connection, and what the connection's own definitions leave
    undefined. *)

From S2P Require Import Prelude Bytes MediaDefinitions RtpHeaders RtpVP8 Rtcp RtcpForwarder Stats SdpInfo NiceConnection Dtls DtlsTransport RtpExtensions Connection ConnectionFacts Ordered.

(** The addresses of connections. *)
Definition address : Type := Z.

Record OneToManyProcessor := {
  subscribers : list (list Z * address);     (* std::map by peer id *)
  publisher : option address;
  feedbackSink_ : option address
}.

#[export] Instance eta_OneToManyProcessor : Eta OneToManyProcessor := fun m =>
  {| subscribers := subscribers m; publisher := publisher m; feedbackSink_ := feedbackSink_ m |}.

Notation store := (gmap address WebRtcConnection).

Section OneToMany.
Context `{CryptoLib} (env : Env).

(** A call on the connection at an address. *)
Definition call {A} (p : address) (f : WebRtcConnection -> option (A * WebRtcConnection)) (s : store) : option (A * store) :=
  c ← s !! p; '(x, c) ← f c; Some (x, <[p := c]> s).

Definition release (p : address) (s : store) : option store :=
  c ← s !! p; _ ← WebRtcConnection_dtor c; Some (delete p s).

Definition OneToManyProcessor_ctor : OneToManyProcessor :=
  {| subscribers := []; publisher := None; feedbackSink_ := None |}.

(** The same call on every subscriber, in the order of the map. *)
Fixpoint each_subscriber {A B} (f : B -> WebRtcConnection -> option (A * WebRtcConnection)) (ps : list (B * address)) (s : store) : option store :=
  match ps with
  | [] => Some s
  | (id, p) :: ps => '(_, s) ← call p (f id) s; each_subscriber f ps s
  end.

Definition deliverAudioData_ (buf : list Z) (len : Z) (m : OneToManyProcessor) (s : store) : option (Z * store) :=
  if len <=? 0 then Some (0, s) else
  s ← each_subscriber (fun _ => Connection.deliverAudioData_ env buf len) (subscribers m) s;
  Some (0, s).

(** [recover]: what each connection's FEC receiver gives back, as in Connection.v. *)
Definition deliverVideoData_ (depth : nat) (recover : list Z -> list Z -> option (list (list Z))) (buf : list Z) (len : Z)
    (m : OneToManyProcessor) (s : store) : option (Z * store) :=
  if len <=? 0 then Some (0, s) else
  feedback ← RtcpHeader.isFeedback buf 0;
  if feedback : bool then
    match feedbackSink_ m with
    | None => Some (0, s)
    | Some sink =>
      p ← publisher m;
      c ← s !! p;
      buf ← RtcpHeader.setSSRC (videoSourceSSRC_ (ends_ c)) buf 0;
      '(_, s) ← call sink (Connection.deliverFeedback_ env buf len) s;
      Some (0, s)
    end
  else
    s ← each_subscriber (fun id => Connection.deliverVideoData_ env depth (recover id) buf len) (subscribers m) s;
    Some (0, s).

Definition deliverFeedback_ (buf : list Z) (len : Z) (m : OneToManyProcessor) (s : store) : option (Z * store) :=
  match feedbackSink_ m with
  | None => Some (0, s)
  | Some sink => '(_, s) ← call sink (Connection.deliverFeedback_ env buf len) s; Some (0, s)
  end.

(** [publisher.reset] destroys the publisher there was. *)
Definition setPublisher (p : address) (m : OneToManyProcessor) (s : store) : option (OneToManyProcessor * store) :=
  s ← match publisher m with Some old => release old s | None => Some s end;
  _ ← s !! p;
  Some (m <| publisher := Some p |> <| feedbackSink_ := Some p |>, s).

(** The connection takes the publisher's SSRCs for those of its sink, and the processor as
    the sink of its feedback. *)
Definition adopt (e : ssrcs) (c : WebRtcConnection) : option (unit * WebRtcConnection) :=
  Some (tt, c <| ends_ ::= fun ends => ends <| audioSinkSSRC_ := audioSourceSSRC_ e |> <| videoSinkSSRC_ := videoSourceSSRC_ e |> |>
              <| fbSink_ := true |>).

Definition addSubscriber (p : address) (peerId : list Z) (m : OneToManyProcessor) (s : store) : option (OneToManyProcessor * store) :=
  pub ← publisher m;
  c ← s !! pub;
  '(_, s) ← call p (adopt (ends_ c)) s;
  s ← match om_find peerId (subscribers m) with Some old => release old s | None => Some s end;
  Some (m <| subscribers ::= om_set bytes_ltb peerId p |>, s).

Definition removeSubscriber (peerId : list Z) (m : OneToManyProcessor) (s : store) : option (OneToManyProcessor * store) :=
  match om_find peerId (subscribers m) with
  | Some p => s ← release p s; Some (m <| subscribers ::= om_erase peerId |>, s)
  | None => Some (m, s)
  end.

(** A subscriber loses its feedback sink and is destroyed. *)
Fixpoint close_subscribers (ps : list (list Z * address)) (s : store) : option store :=
  match ps with
  | [] => Some s
  | (_, p) :: ps =>
    '(_, s) ← call p (fun c => Some (tt, c <| fbSink_ := false |>)) s;
    s ← release p s;
    close_subscribers ps s
  end.

(** The destructor. *)
Definition closeAll (m : OneToManyProcessor) (s : store) : option store :=
  s ← match publisher m with Some p => release p s | None => Some s end;
  close_subscribers (subscribers m) s.
End OneToMany.

(** ** The connections and the processor together *)

Section Relay.
Context `{CryptoLib} (env : Env).
Variables (depth : nat) (recover : list Z -> list Z -> option (list (list Z))).

(** What a connection says to its sinks: the processor is the sink of the media of its
    publisher and of the feedback of its subscribers. *)
Definition relay (e : conn_effect) (m : OneToManyProcessor) (s : store) : option store :=
  match e with
  | DeliverVideo buf len => '(_, s) ← deliverVideoData_ env depth recover buf len m s; Some s
  | DeliverAudio buf len => '(_, s) ← deliverAudioData_ env buf len m s; Some s
  | DeliverFeedback buf len => '(_, s) ← deliverFeedback_ env buf len m s; Some s
  | _ => Some s
  end.

Fixpoint relays (es : list conn_effect) (m : OneToManyProcessor) (s : store) : option store :=
  match es with
  | [] => Some s
  | e :: es => s ← relay e m s; relays es m s
  end.

(** Data arrive at the connection at [p], and go on from there. *)
Definition packet_arrives (now now2 : timeval) (media : MediaType) (buf : list Z) (len : Z) (p : address)
    (m : OneToManyProcessor) (s : store) : option store :=
  '(es, s) ← call p (fun c => '(c, es) ← onTransportData env now now2 media buf len c; Some (es, c)) s;
  relays es m s.
End Relay.

(** ** Calls on many connections *)

Section Calls.
Context `{CryptoLib}.

Lemma call_inv {A} p (f : WebRtcConnection -> option (A * WebRtcConnection)) s x s' : call p f s = Some (x, s') ->
  exists c c', s !! p = Some c /\ f c = Some (x, c') /\ s' = <[p := c']> s.
Proof.
  unfold call. destruct (s !! p) as [c|]; [|discriminate]. cbn [mbind option_bind].
  destruct (f c) as [[y c']|] eqn:E; [|discriminate]. intros [= <- <-]. eauto.
Qed.

Lemma call_here {A} p (f : WebRtcConnection -> option (A * WebRtcConnection)) s c x c' :
  s !! p = Some c -> f c = Some (x, c') -> call p f s = Some (x, <[p := c']> s).
Proof. intros E F. unfold call. rewrite E. cbn [mbind option_bind]. rewrite F. reflexivity. Qed.

Lemma destroy_inv p s s' : release p s = Some s' -> is_Some (s !! p) /\ s' = delete p s.
Proof.
  unfold release. destruct (s !! p) as [c|]; [|discriminate]. cbn [mbind option_bind].
  destruct (WebRtcConnection_dtor c); [|discriminate]. intros [= <-]. eauto.
Qed.

(** Every connection of the list is called once, on the state it was in; no other changes. *)
Lemma each_spec {A B} (f : B -> WebRtcConnection -> option (A * WebRtcConnection)) ps s s' : NoDup (map snd ps) ->
  each_subscriber f ps s = Some s' ->
  (forall id p, (id, p) ∈ ps -> exists c x c', s !! p = Some c /\ f id c = Some (x, c') /\ s' !! p = Some c')
  /\ (forall p, p ∉ map snd ps -> s' !! p = s !! p).
Proof.
  revert s. induction ps as [|[id p] ps IH]; intros s Hn; cbn [each_subscriber].
  { intros [= ->]. split; [intros id p Hin; inversion Hin | reflexivity]. }
  cbn [map snd] in Hn. apply NoDup_cons in Hn as [Hp Hn].
  destruct (call p (f id) s) as [[x s1]|] eqn:E; [|discriminate]. cbn [mbind option_bind]. intros E1.
  apply call_inv in E as (c & c' & Hc & Hf & ->). destruct (IH _ Hn E1) as [Hin Hout]. split.
  - intros id' p' [[= -> ->]|Hi]%elem_of_cons.
    { exists c, x, c'. rewrite (Hout _ Hp), lookup_insert_eq. auto. }
    destruct (Hin _ _ Hi) as (c1 & x1 & c1' & H1 & H2 & H3). exists c1, x1, c1'. split; [|auto].
    rewrite lookup_insert_ne in H1; [exact H1|]. intros <-. apply Hp. apply list_elem_of_fmap. exists (id', p). auto.
  - intros p'. cbn [map snd]. rewrite not_elem_of_cons. intros [Hne Hni]. rewrite (Hout _ Hni). apply lookup_insert_ne. auto.
Qed.

(** The calls are all defined when each of them is. *)
Lemma each_defined {A B} (f : B -> WebRtcConnection -> option (A * WebRtcConnection)) ps s : NoDup (map snd ps) ->
  (forall id p, (id, p) ∈ ps -> exists c, s !! p = Some c /\ is_Some (f id c)) -> is_Some (each_subscriber f ps s).
Proof.
  revert s. induction ps as [|[id p] ps IH]; intros s Hn Hd; cbn [each_subscriber]; [eauto|].
  cbn [map snd] in Hn. apply NoDup_cons in Hn as [Hp Hn].
  destruct (Hd id p) as (c & Hc & [[x c'] Hf]); [apply elem_of_cons; auto|].
  rewrite (call_here _ _ _ _ _ _ Hc Hf). cbn [mbind option_bind]. apply IH; [exact Hn|]. intros id' p' Hi.
  destruct (Hd id' p') as (c1 & H1 & H2); [apply elem_of_cons; auto|]. exists c1. split; [|exact H2].
  rewrite lookup_insert_ne; [exact H1|]. intros <-. apply Hp. apply list_elem_of_fmap. exists (id', p). auto.
Qed.
End Calls.

(** ** What the processor keeps *)

Section Wired.
Context `{CryptoLib} (env : Env).

(** The processor owns its connections: they are alive, no two of its pointers are equal,
    and those that send feedback send it to the processor. *)
Record wired (m : OneToManyProcessor) (s : store) : Prop := {
  wired_sorted : increasing bytes_ltb (subscribers m);
  wired_distinct id id' p : om_find id (subscribers m) = Some p -> om_find id' (subscribers m) = Some p -> id = id';
  wired_alive id p : om_find id (subscribers m) = Some p -> fbSink_ <$> s !! p = Some true;
  wired_publisher p : publisher m = Some p -> is_Some (s !! p);
  wired_apart id p : publisher m = Some p -> om_find id (subscribers m) <> Some p;
  wired_sink : feedbackSink_ m = publisher m
}.

(** A pointer the processor does not have. *)
Definition foreign (p : address) (m : OneToManyProcessor) : Prop :=
  publisher m <> Some p /\ forall id, om_find id (subscribers m) <> Some p.

(** *** The sink of the feedback stays *)

Lemma queueData_sink component buf len type seqNum c c' :
  queueData env component buf len type seqNum c = Some c' -> fbSink_ c' = fbSink_ c.
Proof.
  unfold queueData. intros E. destruct (negb _); [injection E as <-; reflexivity|].
  destruct (component =? -1); [injection E as <-; reflexivity|]. destruct (_ <? _); [|injection E as <-; reflexivity].
  apply bind_Some in E as (p & _ & [= <-]). reflexivity.
Qed.

Lemma deliverAudioData_sink buf len c n c' :
  Connection.deliverAudioData_ env buf len c = Some (n, c') -> fbSink_ c' = fbSink_ c.
Proof.
  unfold Connection.deliverAudioData_. cbv zeta. intros E. apply bind_Some in E as (c1 & E & [= <- <-]).
  destruct (_ && _); [exact (queueData_sink _ _ _ _ _ _ _ E) | injection E as <-; reflexivity].
Qed.

Lemma deliver_plain_sink buf len c c' : deliver_plain env buf len c = Some c' -> fbSink_ c' = fbSink_ c.
Proof.
  unfold deliver_plain. intros E. destruct (slideShowMode_ c);
    [|destruct (0 <? _); exact (queueData_sink _ _ _ _ _ _ _ E)].
  unfold deliver_slide in E. apply bind_Some in E as (hl & _ & E). apply bind_Some in E as (v & _ & E).
  set (c1 := if decide _ then _ else c) in E. cbv zeta in E.
  assert (S1 : fbSink_ c1 = fbSink_ c) by (unfold c1; destruct (decide _); reflexivity).
  destruct (grace_ c1 =? 0); [injection E as <-; exact S1|].
  apply bind_Some in E as (c2 & E2 & E). apply bind_Some in E as (b & _ & [= <-]).
  apply queueData_sink in E2. transitivity (fbSink_ c2); [destruct (b =? 0); reflexivity|].
  transitivity (fbSink_ c1); [exact E2 | exact S1].
Qed.

Lemma deliverVideoData_sink depth recover buf len c n c' :
  Connection.deliverVideoData_ env depth recover buf len c = Some (n, c') -> fbSink_ c' = fbSink_ c.
Proof.
  revert buf len c n c'. induction depth as [|depth IH]; [discriminate|]. intros buf len c n c' E.
  cbn [Connection.deliverVideoData_] in E. destruct (_ && _); [|injection E as <- <-; reflexivity].
  apply bind_Some in E as (rtcp & _ & E). destruct rtcp.
  { apply bind_Some in E as (c1 & E & [= <- <-]). exact (queueData_sink _ _ _ _ _ _ _ E). }
  apply bind_Some in E as (seq & _ & E). apply bind_Some in E as (pt & _ & E). cbv zeta in E.
  destruct (if pt =? RED_90000_PT then _ else _) as [supported r] in E.
  set (c1 := c <| sendSeqNo_ := seq |> <| remoteSdp_ := r |>) in E.
  apply bind_Some in E as (c2 & E2 & [= <- <-]). change (fbSink_ c) with (fbSink_ c1). clearbody c1.
  destruct (_ && _); [|exact (deliver_plain_sink _ _ _ _ E2)].
  destruct (recover buf) as [packets|]; [|injection E2 as <-; reflexivity].
  revert c1 E2. induction packets as [|x l IHl]; intros c1 E2; cbn [foldl] in E2; [injection E2 as <-; reflexivity|].
  cbn [mbind option_bind] in E2. destruct (Connection.deliverVideoData_ env depth recover x _ c1) as [[n3 c3]|] eqn:E3.
  - apply IH in E3. rewrite <- E3. exact (IHl c3 E2).
  - exfalso. clear -E2. induction l; [discriminate | exact (IHl E2)].
Qed.

Lemma deliverFeedback_sink buf len c n c' :
  Connection.deliverFeedback_ env buf len c = Some (n, c') -> fbSink_ c' = fbSink_ c.
Proof.
  unfold Connection.deliverFeedback_. intros E. apply bind_Some in E as (p & _ & E).
  apply bind_Some in E as ([[newLength b] p'] & _ & E). cbv zeta in E.
  destruct (newLength =? 0); [injection E as <- <-; reflexivity|].
  apply bind_Some in E as (ssrc & _ & E). apply bind_Some in E as (c1 & E1 & [= <- <-]).
  destruct (_ =? _); [|destruct (_ =? _)]; [apply queueData_sink in E1; exact E1..|injection E1 as <-; reflexivity].
Qed.
(** *** Stores that differ in nothing the processor relies on *)

Definition same_sinks (s s' : store) : Prop := forall p, fbSink_ <$> s' !! p = fbSink_ <$> s !! p.

#[local] Instance same_sinks_preorder : PreOrder same_sinks.
Proof. split; [intros s p; reflexivity | intros s1 s2 s3 H1 H2 p; rewrite (H2 p); apply H1]. Qed.

Lemma same_alive s s' p : same_sinks s s' -> is_Some (s !! p) -> is_Some (s' !! p).
Proof. intros Hs. rewrite <- !(fmap_is_Some fbSink_), Hs. auto. Qed.

Lemma wired_same m s s' : same_sinks s s' -> wired m s -> wired m s'.
Proof.
  intros Hs [? ? Ha Hp ? ?]. split; auto.
  - intros id p Hf. rewrite (Hs p). eapply Ha, Hf.
  - intros p Hf. exact (same_alive _ _ _ Hs (Hp p Hf)).
Qed.

Lemma insert_same p c c' (s : store) : s !! p = Some c -> fbSink_ c' = fbSink_ c -> same_sinks s (<[p := c']> s).
Proof.
  intros Hc Hf q. destruct (decide (p = q)) as [<-|Hne].
  - rewrite lookup_insert_eq, Hc. cbn. congruence.
  - rewrite lookup_insert_ne by exact Hne. reflexivity.
Qed.

Lemma call_same {A} p (f : WebRtcConnection -> option (A * WebRtcConnection)) s x s' :
  (forall c x c', f c = Some (x, c') -> fbSink_ c' = fbSink_ c) -> call p f s = Some (x, s') -> same_sinks s s'.
Proof. intros Hf E. apply call_inv in E as (c & c' & Hc & E & ->). exact (insert_same _ _ _ _ Hc (Hf _ _ _ E)). Qed.

Lemma each_same {A B} (f : B -> WebRtcConnection -> option (A * WebRtcConnection)) ps s s' :
  (forall id c x c', f id c = Some (x, c') -> fbSink_ c' = fbSink_ c) -> each_subscriber f ps s = Some s' -> same_sinks s s'.
Proof.
  intros Hf. revert s. induction ps as [|[id p] ps IH]; intros s; cbn [each_subscriber]; [intros [= ->]; reflexivity|].
  intros E. apply bind_Some in E as ([x s1] & E1 & E2). etransitivity; [|exact (IH _ E2)].
  eapply call_same; [|exact E1]. apply Hf.
Qed.

Lemma deliver_same depth recover buf len m s n s' :
  deliverAudioData_ env buf len m s = Some (n, s') \/ deliverVideoData_ env depth recover buf len m s = Some (n, s')
    \/ deliverFeedback_ env buf len m s = Some (n, s') -> same_sinks s s'.
Proof.
  assert (Hfb : forall b p s n s', call p (Connection.deliverFeedback_ env b len) s = Some (n, s') -> same_sinks s s').
  { intros b p s1 n1 s1' E. eapply call_same; [|exact E]. apply deliverFeedback_sink. }
  intros [E|[E|E]].
  - unfold deliverAudioData_ in E. destruct (len <=? 0); [injection E as <- <-; reflexivity|].
    apply bind_Some in E as (s1 & E & [= <- <-]). eapply each_same; [|exact E]. intros id. apply deliverAudioData_sink.
  - unfold deliverVideoData_ in E. destruct (len <=? 0); [injection E as <- <-; reflexivity|].
    apply bind_Some in E as (fb & _ & E). destruct fb.
    + destruct (feedbackSink_ m) as [sink|]; [|injection E as <- <-; reflexivity].
      apply bind_Some in E as (p & _ & E). apply bind_Some in E as (c & _ & E). apply bind_Some in E as (b & _ & E).
      apply bind_Some in E as ([n1 s1] & E & [= <- <-]). exact (Hfb _ _ _ _ _ E).
    + apply bind_Some in E as (s1 & E & [= <- <-]). eapply each_same; [|exact E]. intros id. apply deliverVideoData_sink.
  - unfold deliverFeedback_ in E. destruct (feedbackSink_ m) as [sink|]; [|injection E as <- <-; reflexivity].
    apply bind_Some in E as ([n1 s1] & E & [= <- <-]). exact (Hfb _ _ _ _ _ E).
Qed.
End Wired.

(** ** The invariant *)

(** What happens to the processor and the connections around it: its operations, called
    with connections it does not own yet, and anything else that leaves the sinks of the
    feedback alone. *)
Inductive otm_step `{CryptoLib} (env : Env) : OneToManyProcessor * store -> OneToManyProcessor * store -> Prop :=
  | step_publisher p m s m' s' : foreign p m -> setPublisher p m s = Some (m', s') -> otm_step env (m, s) (m', s')
  | step_subscribe p id m s m' s' : foreign p m -> addSubscriber p id m s = Some (m', s') -> otm_step env (m, s) (m', s')
  | step_unsubscribe id m s m' s' : removeSubscriber id m s = Some (m', s') -> otm_step env (m, s) (m', s')
  | step_audio buf len m s n s' : deliverAudioData_ env buf len m s = Some (n, s') -> otm_step env (m, s) (m, s')
  | step_video depth recover buf len m s n s' :
      deliverVideoData_ env depth recover buf len m s = Some (n, s') -> otm_step env (m, s) (m, s')
  | step_feedback buf len m s n s' : deliverFeedback_ env buf len m s = Some (n, s') -> otm_step env (m, s) (m, s')
  | step_connection p c c' m s : s !! p = Some c -> fbSink_ c' = fbSink_ c -> otm_step env (m, s) (m, <[p := c']> s)
  | step_create p c m s : s !! p = None -> otm_step env (m, s) (m, <[p := c]> s).

Section Invariant.
Context `{CryptoLib} (env : Env).

(** Destroying a connection that the processor does not own. *)
Lemma wired_delete m p s : foreign p m -> wired m s -> wired m (delete p s).
Proof.
  intros [Hp Hq] [? ? Ha Hpub ? ?]. split; auto.
  - intros id q Hf. rewrite lookup_delete_ne by (intros <-; exact (Hq id Hf)). eapply Ha, Hf.
  - intros q Hf. rewrite lookup_delete_ne by (intros <-; exact (Hp Hf)). apply Hpub, Hf.
Qed.

Lemma wired_destroy m p s s' : foreign p m -> wired m s -> release p s = Some s' -> wired m s'.
Proof. intros Hp Hw [_ ->]%destroy_inv. apply wired_delete; assumption. Qed.

Lemma subs_of f m : subscribers (m <| subscribers ::= f |>) = f (subscribers m).
Proof. reflexivity. Qed.

(** A pointer the processor gives up. *)
Lemma wired_erase id m s : wired m s -> wired (m <| subscribers ::= om_erase id |>) s.
Proof.
  intros [? Hd Ha ? Hap ?]. split; rewrite ?subs_of; auto.
  - apply increasing_erase. assumption.
  - intros id1 id2 p. rewrite !find_erase. destruct (decide _), (decide _); try discriminate. apply Hd.
  - intros id1 p. rewrite find_erase. destruct (decide _); [discriminate | apply Ha].
  - intros id1 p Hp. rewrite find_erase. destruct (decide _); [discriminate | apply Hap, Hp].
Qed.

Lemma foreign_erase id p m : (forall id', om_find id' (subscribers m) = Some p -> id' = id) -> publisher m <> Some p ->
  foreign p (m <| subscribers ::= om_erase id |>).
Proof.
  intros Hd Hp. split; [exact Hp|]. intros id'. rewrite subs_of, find_erase.
  destruct (decide (id' = id)) as [->|Hne]; [discriminate|]. intros Hf. exact (Hne (Hd id' Hf)).
Qed.

(** A replaced subscriber, or none. *)
Lemma wired_replace id p m s : foreign p m -> fbSink_ <$> s !! p = Some true ->
  wired (m <| subscribers ::= om_erase id |>) s -> increasing bytes_ltb (subscribers m) ->
  wired (m <| subscribers ::= om_set bytes_ltb id p |>) s.
Proof.
  intros [Hp Hq] Hal [_ Hd Ha Hpub Hap Hsk] Hs. split; rewrite ?subs_of; auto.
  - apply increasing_set; [typeclasses eauto | exact Hs].
  - intros id1 id2 q. rewrite !find_set. specialize (Hd id1 id2 q). rewrite subs_of, !find_erase in Hd.
    destruct (decide (id1 = id)), (decide (id2 = id)); [congruence | | | exact Hd].
    + intros [= <-] H2. destruct (Hq id2 H2).
    + intros H2 [= <-]. destruct (Hq id1 H2).
  - intros id1 q. rewrite find_set. specialize (Ha id1 q). rewrite subs_of, find_erase in Ha.
    destruct (decide _); [intros [= <-]; exact Hal | exact Ha].
  - intros id1 q Hp1. rewrite find_set. specialize (Hap id1 q Hp1). rewrite subs_of, find_erase in Hap.
    destruct (decide _); [intros [= <-]; exact (Hp Hp1) | exact Hap].
Qed.

Lemma wired_setPublisher p m s m' s' : foreign p m -> wired m s -> setPublisher p m s = Some (m', s') -> wired m' s'.
Proof.
  intros [Hp Hq] Hw E. unfold setPublisher in E. apply bind_Some in E as (s1 & E1 & E).
  apply bind_Some in E as (c & Hc & [= <- <-]). pose proof Hw as [? ? Ha ? Hap ?].
  split; cbn [subscribers publisher feedbackSink_]; auto; [| intros q [= <-]; eauto | intros id q [= <-]; apply Hq].
  intros id q Hf. destruct (publisher m) as [old|] eqn:Eo; [|injection E1 as <-; eapply Ha, Hf].
  apply destroy_inv in E1 as [_ ->]. rewrite lookup_delete_ne; [eapply Ha, Hf|]. intros <-. exact (Hap id old eq_refl Hf).
Qed.

Lemma wired_addSubscriber p id m s m' s' : foreign p m -> wired m s -> addSubscriber p id m s = Some (m', s') -> wired m' s'.
Proof.
  intros Hfor Hw E. unfold addSubscriber in E. apply bind_Some in E as (pub & Hpub & E).
  apply bind_Some in E as (c & _ & E). apply bind_Some in E as ([u s1] & E1 & E).
  apply bind_Some in E as (s2 & E2 & [= <- <-]). apply call_inv in E1 as (c0 & c1 & Hc0 & Ha & ->).
  injection Ha as _ <-. set (c1 := _ <| fbSink_ := true |>) in E2.
  assert (Hw1 : wired m (<[p := c1]> s)).
  { pose proof Hw as [? ? Hal Hp ? ?]. split; auto.
    - intros id' q Hf. rewrite lookup_insert_ne by (intros <-; exact (proj2 Hfor id' Hf)). eapply Hal, Hf.
    - intros q Hq. rewrite lookup_insert_ne by (intros <-; exact (proj1 Hfor Hq)). apply Hp, Hq. }
  assert (Hp1 : fbSink_ <$> (<[p := c1]> s) !! p = Some true) by (rewrite lookup_insert_eq; reflexivity).
  clearbody c1. apply wired_replace; [exact Hfor | | | apply Hw].
  - destruct (om_find id (subscribers m)) as [old|] eqn:Eo; [|injection E2 as <-; exact Hp1].
    apply destroy_inv in E2 as [_ ->]. rewrite lookup_delete_ne; [exact Hp1|]. intros <-. exact (proj2 Hfor id Eo).
  - destruct (om_find id (subscribers m)) as [old|] eqn:Eo; [|injection E2 as <-; apply wired_erase, Hw1].
    eapply wired_destroy; [|apply wired_erase, Hw1 | exact E2]. apply foreign_erase.
    + intros id' Hf. exact (wired_distinct _ _ Hw _ _ _ Hf Eo).
    + intros Hp. exact (wired_apart _ _ Hw id old Hp Eo).
Qed.

Lemma wired_removeSubscriber id m s m' s' : wired m s -> removeSubscriber id m s = Some (m', s') -> wired m' s'.
Proof.
  intros Hw E. unfold removeSubscriber in E. destruct (om_find id (subscribers m)) as [p|] eqn:Ep; [|injection E as <- <-; exact Hw].
  apply bind_Some in E as (s1 & E & [= <- <-]). eapply wired_destroy; [|apply wired_erase, Hw | exact E].
  apply foreign_erase; [|intros Hp; exact (wired_apart _ _ Hw id p Hp Ep)].
  intros id' Hf. exact (wired_distinct _ _ Hw _ _ _ Hf Ep).
Qed.

Lemma wired_step m s m' s' : wired m s -> otm_step env (m, s) (m', s') -> wired m' s'.
Proof.
  intros Hw Hst. inversion Hst; subst.
  - eapply wired_setPublisher; eassumption.
  - eapply wired_addSubscriber; eassumption.
  - eapply wired_removeSubscriber; eassumption.
  - eapply wired_same; [eapply (deliver_same env 0 (fun _ _ => None)); eauto | exact Hw].
  - eapply wired_same; [eapply deliver_same; eauto | exact Hw].
  - eapply wired_same; [eapply (deliver_same env 0 (fun _ _ => None)); eauto | exact Hw].
  - eapply wired_same; [eapply insert_same; eassumption | exact Hw].
  - pose proof Hw as [? ? Hal Hp ? ?]. split; auto.
    + intros id q Hf. rewrite lookup_insert_ne; [eapply Hal, Hf|]. intros <-. specialize (Hal _ _ Hf).
      match goal with N : _ !! p = None |- _ => rewrite N in Hal end. discriminate.
    + intros q Hq. rewrite lookup_insert_ne; [apply Hp, Hq|]. intros <-. destruct (Hp _ Hq) as [c1 Hc1]. congruence.
Qed.

Lemma wired_ctor s : wired OneToManyProcessor_ctor s.
Proof. split; try discriminate; [constructor | reflexivity]. Qed.

Lemma wired_rtc m s m' s' : wired m s -> rtc (otm_step env) (m, s) (m', s') -> wired m' s'.
Proof.
  intros Hw Hr. remember (m, s) as x eqn:Ex. remember (m', s') as y eqn:Ey.
  revert m s Hw Ex. induction Hr as [x|x [m1 s1] z Hst Hr IH]; intros m s Hw ->.
  - injection Ey as <- <-. exact Hw.
  - eapply IH; [exact Ey | eapply wired_step; eassumption | reflexivity].
Qed.
End Invariant.

(** ** The payload type of a packet *)

(** Whether the second byte of a packet is that of an RTCP packet. *)
Definition rtcp_type (b : Z) : bool := existsb (Z.eqb b) [200; 201; 204; 205; 206].

(** The payload type [pt] of an RTP packet replaced by [f pt], seven bits of the second byte;
    the marker and every other byte stay. *)
Definition translated (f : Z -> Z) (buf : list Z) : list Z :=
  match buf with
  | b0 :: b1 :: rest => b0 :: (if rtcp_type b1 then b1 else b1 / 128 * 128 + f (b1 mod 128) mod 128) :: rest
  | _ => buf
  end.

Lemma take_translated f n buf : take n (translated f buf) = translated f (take n buf).
Proof. destruct n as [|[|n]], buf as [|b0 [|b1 rest]]; reflexivity. Qed.

(** The second byte of a packet, the marker and the payload type. *)
Lemma set_payload_type_bytes v b0 b1 rest buf' :
  bytes_ok (take 4 (b0 :: b1 :: rest)) -> RtpHeader.setPayloadType v (b0 :: b1 :: rest) 0 = Some buf' ->
  buf' = b0 :: (b1 / 128 * 128 + v mod 128) :: rest.
Proof.
  intros Hok E. pose proof (set_bf_inv _ _ _ _ _ E) as [_ Hl]. simpl in Hl.
  destruct rest as [|b2 [|b3 rest]]; [simpl in Hl; lia..|].
  unfold RtpHeader.setPayloadType, set_bf in E. apply bind_Some in E as (w & Hw & E).
  unfold load, Bytes.store, read_at, write_at in *. simpl bf_off in *. simpl bf_shift in *. simpl bf_width in *.
  destruct (_ && _) in Hw; [|discriminate]. injection Hw as <-. destruct (_ && _) in E; [|discriminate]. injection E as <-.
  cbn [Z.add Z.to_nat take].
  pose proof Hok as Hok'. do 4 (apply Forall_cons in Hok' as [? Hok']). clear Hok'.
  remember (b0 + 256 * (b1 + 256 * (b2 + 256 * (b3 + 256 * 0)))) as w eqn:Ew.
  unfold byte_ok in *. set (x := insert_bits 8 7 v w).
  assert (Hx : in_width 32 x) by (apply insert_width; unfold in_width; lia).
  assert (X1 : extract 0 8 x = extract 0 8 w) by (apply extract_insert_other; lia).
  assert (X2 : extract 8 7 x = wrap 7 v) by (apply extract_insert_same; lia).
  assert (X3 : extract 15 17 x = extract 15 17 w) by (apply extract_insert_other; lia).
  rewrite (extract_div 0 8 x), (extract_div 0 8 w) in X1 by lia. rewrite (extract_div 8 7 x) in X2 by lia.
  rewrite (extract_div 15 17 x), (extract_div 15 17 w) in X3 by lia. unfold wrap, in_width in *. clearbody x.
  change (2 ^ 0) with 1 in *. change (2 ^ 8) with 256 in *. change (2 ^ 7) with 128 in *. change (2 ^ 15) with 32768 in *.
  change (2 ^ 17) with 131072 in *. change (2 ^ 32) with 4294967296 in *.
  pose proof (Z.div_mod b1 128 ltac:(lia)) as D. pose proof (Z.mod_pos_bound b1 128 ltac:(lia)) as Hm.
  set (q := b1 / 128) in *. set (r := b1 mod 128) in *. clearbody q r.
  assert (W : w / 32768 = q + 2 * b2 + 512 * b3) by (symmetry; apply (Z.div_unique _ _ _ (b0 + 256 * r)); lia).
  rewrite W in X3. rewrite !Z.div_1_r in X1.
  assert (W0 : w mod 256 = b0) by (symmetry; apply (Z.mod_unique _ _ (b1 + 256 * (b2 + 256 * b3))); lia).
  rewrite W0 in X1. rewrite (Z.mod_small (q + _ + _)) in X3 by lia.
  pose proof (Z.mod_pos_bound v 128 ltac:(lia)) as Hv. set (u := v mod 128) in *. clearbody u.
  assert (Ex : x = b0 + 256 * ((q * 128 + u) + 256 * (b2 + 256 * b3))).
  { rewrite (Z.mod_small (x / 32768)) in X3 by (split; [apply Z.div_pos | apply Z.div_lt_upper_bound]; lia).
    pose proof (Z.div_mod x 256 ltac:(lia)) as D1. pose proof (Z.div_mod (x / 256) 128 ltac:(lia)) as D2.
    rewrite Z.div_div in D2 by lia. change (256 * 128) with 32768 in D2. rewrite X3, X2 in D2. rewrite X1, D2 in D1. lia. }
  replace x with (le_val [b0; q * 128 + u; b2; b3]) by (simpl; lia).
  assert (Hb : bytes_ok [b0; q * 128 + u; b2; b3]) by (repeat constructor; lia).
  pose proof (le_bytes_le_val _ Hb) as L. remember (le_val [b0; q * 128 + u; b2; b3]) as y.
  cbn [length le_bytes] in L. injection L as -> -> -> ->. reflexivity.
Qed.

Lemma second_byte wd b0 b1 rest x :
  bytes_ok (take 4 (b0 :: b1 :: rest)) -> 0 <= wd <= 8 -> get_bf (BF 0 8 wd) (b0 :: b1 :: rest) 0 = Some x ->
  x = b1 mod 2 ^ wd.
Proof.
  intros Hok Hwd E. pose proof (get_bf_inv _ _ _ _ E) as [_ Hl]. simpl in Hl.
  destruct rest as [|b2 [|b3 rest]]; [simpl in Hl; lia..|].
  unfold get_bf in E. apply bind_Some in E as (w & Hw & [= <-]).
  unfold load, read_at in Hw. destruct (_ && _) in Hw; [|discriminate]. injection Hw as <-.
  cbn [take] in Hok. do 4 (apply Forall_cons in Hok as [? Hok]). clear Hok. unfold byte_ok in *.
  rewrite extract_div by lia. cbn [bf_shift bf_width bf_off Z.add Z.to_nat drop take le_val].
  change (2 ^ 8) with 256.
  replace ((b0 + _) / 256) with (b1 + 2 ^ wd * (2 ^ (8 - wd) * (b2 + 256 * b3))).
  - rewrite (Z.mul_comm (2 ^ wd)), Z.mod_add by (apply Z.pow_nonzero; lia). reflexivity.
  - rewrite Z.mul_assoc, <- Z.pow_add_r by lia. replace (wd + (8 - wd)) with 8 by lia.
    apply (Z.div_unique _ _ _ b0); lia.
Qed.

Lemma isRtcp_byte b0 b1 rest r :
  bytes_ok (take 4 (b0 :: b1 :: rest)) -> RtcpHeader.isRtcp (b0 :: b1 :: rest) 0 = Some r -> r = rtcp_type b1.
Proof.
  intros Hok. unfold RtcpHeader.isRtcp, RtcpHeader.isFeedback. intros E.
  apply bind_Some in E as (pt & E1 & E). rewrite E1 in E. cbn [mbind option_bind] in E. injection E as <-.
  apply (second_byte 8) in E1; [|exact Hok | lia]. change (2 ^ 8) with 256 in E1.
  assert (byte_ok b1) as Hb by (destruct rest; apply (Forall_lookup_1 _ _ 1%nat _ Hok eq_refl)).
  unfold byte_ok in Hb. rewrite Z.mod_small in E1 by lia. subst pt. unfold rtcp_type. cbn [existsb].
  change RTCP_Sender_PT with 200. change RTCP_APP with 204. change RTCP_Receiver_PT with 201.
  change RTCP_PS_Feedback_PT with 206. change RTCP_RTP_Feedback_PT with 205.
  destruct (b1 =? 200), (b1 =? 201), (b1 =? 204), (b1 =? 205), (b1 =? 206); reflexivity.
Qed.

(** What both translations of a payload type do to a packet. *)
Lemma translation f buf buf' : bytes_ok (take 4 buf) ->
  (rtcp ← RtcpHeader.isRtcp buf 0;
   if rtcp : bool then Some buf else
   pt ← RtpHeader.getPayloadType buf 0;
   if pt =? f pt then Some buf else RtpHeader.setPayloadType (f pt) buf 0) = Some buf' ->
  buf' = translated f buf.
Proof.
  intros Hok E. apply bind_Some in E as (rtcp & Er & E).
  destruct buf as [|b0 [|b1 rest]]; [vm_compute in Er; discriminate..|].
  apply isRtcp_byte in Er as ->; [|exact Hok]. cbn [translated].
  destruct (rtcp_type b1); [injection E as <-; reflexivity|].
  apply bind_Some in E as (pt & Ept & E). apply (second_byte 7) in Ept as ->; [|exact Hok | lia].
  change (2 ^ 7) with 128 in E. destruct (Z.eqb_spec (b1 mod 128) (f (b1 mod 128))) as [<-|_].
  - injection E as <-. rewrite Zmod_mod. repeat f_equal. pose proof (Z.div_mod b1 128). lia.
  - exact (set_payload_type_bytes _ _ _ _ _ Hok E).
Qed.

Section Translation.
Context `{CryptoLib} (env : Env).

Lemma incoming_translated buf c buf' : bytes_ok (take 4 buf) ->
  parseIncomingPayloadType buf AUDIO_PACKET c = Some buf' ->
  buf' = translated (fun pt => getAudioInternalPT pt (remoteSdp_ c)) buf.
Proof. intros Hok E. exact (translation _ _ _ Hok E). Qed.

(** A packet of audio in the queue: what was delivered, with the payload type translated. *)
Lemma prepare_audio buf len c p : bytes_ok buf -> 12 <= len ->
  prepare env 0 buf len AUDIO_PACKET 0 c = Some p ->
  take (Z.to_nat len) (data p) = translated (fun pt => getAudioExternalPT pt (remoteSdp_ c)) (take (Z.to_nat len) buf)
  /\ length_ p = len /\ comp p = 0 /\ type_ p = AUDIO_PACKET.
Proof.
  intros Hok Hlen E. unfold prepare in E. apply bind_Some in E as (q & Eq & E). cbv zeta in E.
  apply bind_Some in E as (d & Ed & [= <-]). simpl. split; [|auto].
  unfold copy_in in Eq. rewrite (proj2 (Z.ltb_ge _ _)) in Eq by lia.
  apply bind_Some in Eq as (src & Es & Eq). apply bind_Some in Eq as (b & Eb & [= <-]).
  unfold read_at in Es. destruct (_ && _) eqn:Hb in Es; [|discriminate]. injection Es as <-.
  apply andb_true_iff in Hb as [_ Hb%Z.leb_le]. rewrite drop_0 in Eb.
  assert (Hl : List.length (take (Z.to_nat len) buf) = Z.to_nat len) by (rewrite length_take; lia).
  unfold write_at in Eb. destruct (_ && _) in Eb; [|discriminate]. injection Eb as <-.
  simpl data in Ed. cbn [Z.to_nat take app Nat.add] in Ed.
  assert (Ht : take (Z.to_nat len) (take (Z.to_nat len) buf ++ drop (List.length (take (Z.to_nat len) buf)) (data (e_packet env)))
               = take (Z.to_nat len) buf) by (rewrite take_app_le, take_ge; lia || reflexivity).
  apply translation in Ed.
  - rewrite Ed, take_translated, Ht. reflexivity.
  - apply (f_equal (take 4)) in Ht. rewrite take_take, Nat.min_l in Ht by lia. rewrite Ht.
    apply Forall_take, Forall_take, Hok.
Qed.
End Translation.

(** ** From the publisher to the subscribers *)

Section FanOut.
Context `{CryptoLib} (env : Env).

Lemma wired_NoDup m s : wired m s -> NoDup (map snd (subscribers m)).
Proof.
  intros Hw. assert (Hin : forall id p, (id, p) ∈ subscribers m -> om_find id (subscribers m) = Some p).
  { intros id p. apply (increasing_elem bytes_ltb). apply Hw. }
  pose proof (wired_distinct _ _ Hw) as Hd. pose proof (increasing_NoDup bytes_ltb _ (wired_sorted _ _ Hw)) as Hn.
  assert (Hd' : forall id id' p, (id, p) ∈ subscribers m -> (id', p) ∈ subscribers m -> id = id') by eauto.
  clear Hd Hin. revert Hn Hd'. induction (subscribers m) as [|[id p] l IH]; intros Hn Hd; cbn; [constructor|].
  apply NoDup_cons in Hn as [Hid Hn]. constructor.
  - intros ([id' p'] & Ep & Hi)%list_elem_of_fmap. cbn in Ep. subst p'.
    assert (id = id') as <- by (eapply Hd; apply elem_of_cons; eauto).
    apply Hid. apply list_elem_of_fmap. exists (id, p). auto.
  - apply IH; [exact Hn|]. intros id1 id2 q H1 H2. eapply Hd; apply elem_of_cons; eauto.
Qed.

Lemma subscriber_addresses m s q : wired m s ->
  q ∈ map snd (subscribers m) <-> exists id, om_find id (subscribers m) = Some q.
Proof.
  intros Hw. pose proof (fun k v => increasing_elem bytes_ltb _ k v (wired_sorted _ _ Hw)) as Hel.
  split; [intros ([id p] & -> & Hi)%list_elem_of_fmap | intros [id Hi]; apply list_elem_of_fmap; exists (id, q); split; [reflexivity|]].
  - exists id. apply Hel, Hi.
  - apply Hel, Hi.
Qed.

(** What the fan-out does to a store, given what one call does. *)
Lemma fan_out {A} (f : list Z -> WebRtcConnection -> option (A * WebRtcConnection)) m s s' : wired m s ->
  each_subscriber f (subscribers m) s = Some s' ->
  (forall id q, om_find id (subscribers m) = Some q ->
     exists c x c', s !! q = Some c /\ f id c = Some (x, c') /\ s' !! q = Some c')
  /\ (forall q, (forall id, om_find id (subscribers m) <> Some q) -> s' !! q = s !! q).
Proof.
  intros Hw E. destruct (each_spec _ _ _ _ (wired_NoDup _ _ Hw) E) as [Hin Hout].
  pose proof (fun k v => increasing_elem bytes_ltb _ k v (wired_sorted _ _ Hw)) as Hel. split.
  - intros id q Hf. apply Hin, Hel, Hf.
  - intros q Hq. apply Hout. intros ([id p] & -> & Hi)%list_elem_of_fmap. exact (Hq id (proj1 (Hel _ _) Hi)).
Qed.

(** A media packet changes nothing of a connection that says what is passed on. *)
Lemma account_rtp now now2 buf len c x c' out : RtcpHeader.isRtcp buf 0 = Some false ->
  account_packet env now now2 buf len c = Some (x, c', out) ->
  out = [] /\ remoteSdp_ c' = remoteSdp_ c /\ conn_bundle c' = conn_bundle c /\ audioSink_ c' = audioSink_ c
    /\ videoSink_ c' = videoSink_ c /\ ends_ c' = ends_ c /\ fbSink_ c' = fbSink_ c
    /\ RtpHeader.getSSRC buf 0 = Some x.
Proof.
  intros Hr. unfold account_packet. rewrite Hr. cbn [mbind option_bind].
  destruct (processRtpPacket _ _ _ _) as [rate s]. intros E. apply bind_Some in E as (c1 & E1 & E).
  apply bind_Some in E as (y & Ey & [= <- <- <-]). destruct (rate =? 0); [injection E1 as <-; auto 10|].
  apply bind_Some in E1 as (p & _ & [= <-]). auto 10.
Qed.

(** The payload types of a packet depend on the remote description only. *)
Lemma parse_same buf type c c' : remoteSdp_ c' = remoteSdp_ c ->
  parseIncomingPayloadType buf type c' = parseIncomingPayloadType buf type c.
Proof. intros E. unfold parseIncomingPayloadType. rewrite E. reflexivity. Qed.

(** The media of a connection without bundle go to its sink, with the payload types the
    processor's other connections understand. *)
Lemma media_passed now now2 media buf len c c' out : RtcpHeader.isRtcp buf 0 = Some false ->
  RtcpHeader.isFeedback buf 0 = Some false -> conn_bundle c = false ->
  onTransportData env now now2 media buf len c = Some (c', out) ->
  match media with
  | AUDIO_TYPE => audioSink_ c = true -> exists buf', parseIncomingPayloadType buf AUDIO_PACKET c = Some buf' /\ out = [DeliverAudio buf' len]
  | VIDEO_TYPE => videoSink_ c = true -> exists buf', parseIncomingPayloadType buf VIDEO_PACKET c = Some buf' /\ out = [DeliverVideo buf' len]
  | OTHER => True
  end.
Proof.
  intros Hr Hf Hb E. unfold onTransportData in E. destruct (_ && _) eqn:Esinks.
  { apply andb_true_iff in Esinks as [[Ea Ev]%andb_true_iff _].
    destruct media; [| |exact I]; intros Hs; rewrite Hs in *; discriminate. }
  apply bind_Some in E as ([[ssrc c1] o1] & E1 & E). rewrite Hf in E. cbn [mbind option_bind] in E.
  apply bind_Some in E as ([c2 o2] & E2 & E). apply bind_Some in E as (p & _ & [= _ <-]).
  destruct (account_rtp _ _ _ _ _ _ _ _ Hr E1) as (-> & Hrs & Hbs & Has & Hvs & _). unfold pass_media in E2. rewrite Hbs, Hb in E2.
  destruct media; [| |exact I]; intros Hs; rewrite ?Has, ?Hvs, Hs in E2; apply bind_Some in E2 as (buf' & E3 & [= _ <-]);
    rewrite (parse_same _ _ _ _ Hrs) in E3; eauto.
Qed.

(** A connection that takes a packet: its transport exists, the medium is enabled, the send
    thread is running and the queue is not full. *)
Definition takes_audio (c : WebRtcConnection) : bool :=
  (if conn_bundle c then bool_decide (is_Some (videoTransport_ c)) else bool_decide (is_Some (audioTransport_ c)))
  && audioEnabled_ c && sending_ c && (Z.of_nat (List.length (sendQueue_ c)) <? 1000).

Lemma deliverAudioData_queued buf len c n c' : Connection.deliverAudioData_ env buf len c = Some (n, c') ->
  if takes_audio c
  then exists p, prepare env 0 buf len AUDIO_PACKET 0 c = Some p /\ c' = c <| sendQueue_ ::= fun q => q ++ [p] |>
  else c' = c.
Proof.
  unfold Connection.deliverAudioData_, takes_audio, queueData. cbv zeta.
  destruct (if conn_bundle c then _ else _), (audioEnabled_ c), (sending_ c), (_ <? 1000); cbn [andb negb]; intros E;
    try (injection E as <- <-; reflexivity).
  change (0 =? -1) with false in E. cbv iota in E. apply bind_Some in E as (c1 & E & [= <- <-]).
  apply bind_Some in E as (p & E & [= <-]). eauto.
Qed.

Lemma packet_arrives_inv depth recover now now2 media buf len p m s s' :
  packet_arrives env depth recover now now2 media buf len p m s = Some s' ->
  exists c c' es, s !! p = Some c /\ onTransportData env now now2 media buf len c = Some (c', es)
    /\ relays env depth recover es m (<[p := c']> s) = Some s'.
Proof.
  unfold packet_arrives. intros E. apply bind_Some in E as ([es s1] & E1 & E).
  apply call_inv in E1 as (c & c' & Hc & E1 & ->). apply bind_Some in E1 as ([c1 es1] & E1 & [= <- <-]). eauto 7.
Qed.

(** The publisher changes while it receives, the processor's pointers do not. *)
Lemma onTransportData_sink now now2 media buf len c c' es : RtcpHeader.isRtcp buf 0 = Some false ->
  RtcpHeader.isFeedback buf 0 = Some false -> conn_bundle c = false -> media <> OTHER ->
  onTransportData env now now2 media buf len c = Some (c', es) -> fbSink_ c' = fbSink_ c.
Proof.
  intros Hr Hf Hb Hm E. unfold onTransportData in E. destruct (_ && _); [injection E as <- <-; reflexivity|].
  apply bind_Some in E as ([[ssrc c1] o1] & E1 & E). rewrite Hf in E. cbn [mbind option_bind] in E.
  apply bind_Some in E as ([c2 o2] & E2 & E). apply bind_Some in E as (p & _ & [= <- <-]).
  transitivity (fbSink_ c1); [|].
  - transitivity (fbSink_ c2); [reflexivity|]. unfold pass_media in E2.
    destruct (account_rtp _ _ _ _ _ _ _ _ Hr E1) as (-> & _ & Hbs & _). rewrite Hbs, Hb in E2.
    destruct media; [| |contradiction]; destruct (_ : bool) in E2; try (injection E2 as <- _; reflexivity);
      apply bind_Some in E2 as (? & _ & [= <- _]); destruct (_ =? 0); reflexivity.
  - unfold account_packet in E1. rewrite Hr in E1. cbn [mbind option_bind] in E1.
    destruct (processRtpPacket _ _ _ _) as [rate s]. apply bind_Some in E1 as (c3 & E3 & E1).
    apply bind_Some in E1 as (y & _ & [= <- <- <-]). destruct (rate =? 0); [injection E3 as <-; reflexivity|].
    apply bind_Some in E3 as (q & _ & [= <-]). reflexivity.
Qed.
(** The packets the connection takes for audio: on a bundle those with the SSRC of its audio,
    otherwise those of its audio transport. *)
Definition is_audio (media : MediaType) (buf : list Z) (c : WebRtcConnection) : Prop :=
  if conn_bundle c
  then exists ssrc, RtpHeader.getSSRC buf 0 = Some ssrc
         /\ ssrc = audioSourceSSRC_ (ends_ c) /\ ssrc <> videoSourceSSRC_ (ends_ c)
  else media = AUDIO_TYPE.

Lemma rtp_no_feedback buf : RtcpHeader.isRtcp buf 0 = Some false -> RtcpHeader.isFeedback buf 0 = Some false.
Proof.
  unfold RtcpHeader.isRtcp. intros E. apply bind_Some in E as (pt & _ & E). apply bind_Some in E as (fb & Ef & [= E]).
  apply orb_false_iff in E as [_ ->]. exact Ef.
Qed.

Lemma audio_passed now now2 media buf len c c' out : RtcpHeader.isRtcp buf 0 = Some false ->
  is_audio media buf c -> audioSink_ c = true ->
  onTransportData env now now2 media buf len c = Some (c', out) ->
  fbSink_ c' = fbSink_ c
  /\ exists buf', parseIncomingPayloadType buf AUDIO_PACKET c = Some buf' /\ out = [DeliverAudio buf' len].
Proof.
  intros Hr Ha Hs E. pose proof (rtp_no_feedback _ Hr) as Hf. unfold onTransportData in E.
  rewrite Hs in E. cbn [negb andb] in E.
  apply bind_Some in E as ([[ssrc c1] o1] & E1 & E). rewrite Hf in E. cbn [mbind option_bind] in E.
  apply bind_Some in E as ([c2 o2] & E2 & E). apply bind_Some in E as (p & _ & [= <- <-]).
  destruct (account_rtp _ _ _ _ _ _ _ _ Hr E1) as (-> & Hrs & Hbs & Has & _ & Hes & Hfs & Hss).
  unfold pass_media in E2. unfold is_audio in Ha. rewrite Hbs, Hes, Has, Hs in E2. destruct (conn_bundle c).
  - destruct Ha as (x & Hx & Hxa & Hxv). assert (x = ssrc) as -> by congruence.
    rewrite (proj2 (Z.eqb_neq _ _) Hxv), (proj2 (Z.eqb_eq _ _) Hxa) in E2.
    apply bind_Some in E2 as (buf' & E3 & [= <- <-]). rewrite (parse_same _ _ _ _ Hrs) in E3. split; [exact Hfs | eauto].
  - subst media. apply bind_Some in E2 as (buf' & E3 & [= <- <-]). rewrite (parse_same _ _ _ _ Hrs) in E3.
    split; [destruct (_ =? 0); exact Hfs | eauto].
Qed.


(** The same for video: every subscriber's own [deliverVideoData_] runs once, in the state the
    subscriber was in, on the packet with the internal payload type. *)
Lemma video_reaches_subscribers depth recover now now2 buf len p c0 m s s' : wired m s ->
  publisher m = Some p -> s !! p = Some c0 -> conn_bundle c0 = false -> videoSink_ c0 = true ->
  RtcpHeader.isRtcp buf 0 = Some false -> RtcpHeader.isFeedback buf 0 = Some false -> 0 < len ->
  packet_arrives env depth recover now now2 VIDEO_TYPE buf len p m s = Some s' ->
  exists buf', parseIncomingPayloadType buf VIDEO_PACKET c0 = Some buf' /\
    (RtcpHeader.isFeedback buf' 0 = Some false ->
     (forall id q, om_find id (subscribers m) = Some q -> exists c n c', s !! q = Some c /\ s' !! q = Some c'
        /\ Connection.deliverVideoData_ env depth (recover id) buf' len c = Some (n, c'))
     /\ (forall q, q <> p -> (forall id, om_find id (subscribers m) <> Some q) -> s' !! q = s !! q)).
Proof.
  intros Hw Hp Hc0 Hb Hs Hr Hf Hlen E. apply packet_arrives_inv in E as (c & c1 & es & Hc & E1 & E2).
  assert (c = c0) as -> by congruence.
  destruct (media_passed _ _ _ _ _ _ _ _ Hr Hf Hb E1 Hs) as (buf' & Hbuf & ->). exists buf'. split; [exact Hbuf|]. intros Hf'.
  cbn [relays relay] in E2. apply bind_Some in E2 as (s1 & E2 & [= <-]). apply bind_Some in E2 as ([n s2] & E2 & [= <-]).
  unfold deliverVideoData_ in E2. destruct (Z.leb_spec len 0); [lia|]. rewrite Hf' in E2. cbn [mbind option_bind] in E2.
  apply bind_Some in E2 as (s3 & E2 & [= _ <-]).
  assert (Hw1 : wired m (<[p := c1]> s)).
  { eapply wired_same; [|exact Hw]. apply (insert_same _ _ _ _ Hc). refine (onTransportData_sink _ _ VIDEO_TYPE _ _ _ _ _ Hr Hf Hb _ E1). discriminate. }
  destruct (fan_out _ _ _ _ Hw1 E2) as [Hin Hout]. split.
  - intros id q Hq. destruct (Hin id q Hq) as (c & x & c' & H1 & H2 & H3).
    rewrite lookup_insert_ne in H1 by (intros <-; exact (wired_apart _ _ Hw _ _ Hp Hq)). eauto 8.
  - intros q Hne Hq. rewrite (Hout q Hq). apply lookup_insert_ne. auto.
Qed.

(** Feedback for the processor reaches the publisher and no other connection: the
    publisher's [deliverFeedback_] runs on it once. *)
Theorem feedback_reaches_publisher depth recover buf len m s s' : wired m s ->
  relay env depth recover (DeliverFeedback buf len) m s = Some s' ->
  match publisher m with
  | None => s' = s
  | Some p => exists c n c', s !! p = Some c /\ Connection.deliverFeedback_ env buf len c = Some (n, c') /\ s' = <[p := c']> s
  end.
Proof.
  intros Hw E. cbn [relay] in E. apply bind_Some in E as ([n s1] & E & [= <-]). unfold deliverFeedback_ in E.
  rewrite (wired_sink _ _ Hw) in E. destruct (publisher m) as [p|]; [|injection E as _ <-; reflexivity].
  apply bind_Some in E as ([n1 s2] & E & [= _ <-]). apply call_inv in E as (c & c' & Hc & Hd & ->). eauto 6.
Qed.

(** ** Closing *)

Lemma close_subscribers_spec ps s s' : close_subscribers ps s = Some s' -> forall q,
  s' !! q = if bool_decide (q ∈ map snd ps) then None else s !! q.
Proof.
  revert s. induction ps as [|[id p] ps IH]; intros s E q; cbn [close_subscribers] in E.
  { injection E as <-. rewrite bool_decide_eq_false_2; [reflexivity|]. intros Hn. inversion Hn. }
  apply bind_Some in E as ([u s1] & E1 & E). apply call_inv in E1 as (c & c' & Hc & _ & ->).
  apply bind_Some in E as (s2 & E2 & E). apply destroy_inv in E2 as [_ ->]. rewrite (IH _ E q). cbn [map snd].
  destruct (decide (q = p)) as [->|Hne].
  - rewrite lookup_delete_eq. rewrite (bool_decide_eq_true_2 (p ∈ p :: _)) by (apply elem_of_cons; auto). case_bool_decide; reflexivity.
  - rewrite lookup_delete_ne, lookup_insert_ne by congruence.
    rewrite (bool_decide_ext (q ∈ p :: map snd ps) (q ∈ map snd ps)); [reflexivity|]. rewrite elem_of_cons. tauto.
Qed.

Lemma close_subscribers_defined ps s : NoDup (map snd ps) ->
  (forall q, q ∈ map snd ps -> exists c, s !! q = Some c /\ WebRtcConnection_dtor (c <| fbSink_ := false |>) = Some tt) ->
  is_Some (close_subscribers ps s).
Proof.
  revert s. induction ps as [|[id p] ps IH]; intros s Hn Hd; cbn [close_subscribers]; [eauto|].
  cbn [map snd] in Hn, Hd. apply NoDup_cons in Hn as [Hp Hn]. destruct (Hd p) as (c & Hc & Hdt); [apply elem_of_cons; auto|].
  unfold call. rewrite Hc. cbn [mbind option_bind]. unfold release. rewrite lookup_insert_eq. cbn [mbind option_bind].
  rewrite Hdt. cbn [mbind option_bind]. apply IH; [exact Hn|]. intros q Hq. destruct (Hd q) as (c1 & H1 & H2); [apply elem_of_cons; auto|].
  exists c1. split; [|exact H2]. rewrite lookup_delete_ne, lookup_insert_ne by (intros <-; exact (Hp Hq)). exact H1.
Qed.

(** The connections the processor's shared pointers own. *)
Definition owned (q : address) (m : OneToManyProcessor) : bool :=
  bool_decide (publisher m = Some q) || bool_decide (q ∈ map snd (subscribers m)).

(** The destructor of a processor destroys the publisher and every subscriber, each of them
    once, and no other connection; it does so without undefined behaviour when the
    destructors of the connections themselves do. *)
Theorem closeAll_destroys m s : wired m s ->
  (forall p c, (publisher m = Some p \/ exists id, om_find id (subscribers m) = Some p) -> s !! p = Some c ->
     WebRtcConnection_dtor c = Some tt) ->
  exists s', closeAll m s = Some s' /\ forall q,
    s' !! q = if owned q m then None else s !! q.
Proof.
  intros Hw Hd. unfold closeAll.
  assert (E1 : exists s1, match publisher m with Some p => release p s | None => Some s end = Some s1
                 /\ forall q, s1 !! q = if decide (publisher m = Some q) then None else s !! q).
  { destruct (publisher m) as [p|] eqn:Ep; [|exists s; split; [reflexivity|]; intros q; destruct (decide _); [discriminate | reflexivity]].
    destruct (wired_publisher _ _ Hw p Ep) as [c Hc]. exists (delete p s). unfold release. rewrite Hc. cbn [mbind option_bind].
    rewrite (Hd p c) by auto. split; [reflexivity|]. intros q.
    destruct (decide (Some p = Some q)) as [[= <-]|Hne]; [apply lookup_delete_eq | apply lookup_delete_ne; congruence]. }
  destruct E1 as (s1 & E1 & Hs1). rewrite E1. cbn [mbind option_bind].
  destruct (close_subscribers_defined (subscribers m) s1) as [s' E'].
  - apply wired_NoDup with s, Hw.
  - intros q [id Hq]%(subscriber_addresses _ _ _ Hw). pose proof (wired_alive _ _ Hw _ _ Hq) as Ha.
    destruct (s !! q) as [c|] eqn:Ec; [|discriminate]. exists c. split; [|exact (Hd q c (or_intror (ex_intro _ id Hq)) Ec)].
    rewrite Hs1, Ec. destruct (decide _) as [Hp|]; [destruct (wired_apart _ _ Hw _ _ Hp Hq) | reflexivity].
  - exists s'. split; [exact E'|]. intros q. rewrite (close_subscribers_spec _ _ _ E' q), Hs1.
    unfold owned, bool_decide. repeat case_decide; reflexivity || contradiction.
Qed.
End FanOut.

(** ** A sample: a publisher, a subscriber that listens and one that does not *)

#[local] Existing Instance Sample.lib.
#[local] Existing Instance Sample.laws.

(** The publisher calls the payload type 0 by 111, the subscribers by 8. *)
Definition sample_publisher : WebRtcConnection :=
  sample_connection <| audioSink_ := true |> <| videoSink_ := true |>
    <| remoteSdp_ ::= fun r => r <| outInPTMap := {[111 := 0]} |> |>.

Definition sample_subscriber : WebRtcConnection :=
  sample_connection <| remoteSdp_ ::= fun r => r <| inOutPTMap := {[0 := 8]} |> |>.

Definition sample_store : store :=
  <[1 := sample_publisher]> (<[2 := sample_subscriber]> (<[3 := sample_subscriber <| audioEnabled_ := false |>]> ∅)).

Definition sample_run : option (OneToManyProcessor * store) :=
  '(m, s) ← setPublisher 1 OneToManyProcessor_ctor sample_store;
  '(m, s) ← addSubscriber 2 [97] m s;
  addSubscriber 3 [98] m s.

Definition sample_state : OneToManyProcessor * store := default (OneToManyProcessor_ctor, ∅) sample_run.

Lemma sample_reached : rtc (otm_step sample_env) (OneToManyProcessor_ctor, sample_store) sample_state.
Proof.
  assert (E : sample_run = Some sample_state) by (vm_compute; reflexivity). unfold sample_run in E.
  apply bind_Some in E as ([m1 s1] & E1 & E). apply bind_Some in E as ([m2 s2] & E2 & E). destruct sample_state as [m3 s3].
  assert (M1 : m1 = {| subscribers := []; publisher := Some 1; feedbackSink_ := Some 1 |}).
  { unfold setPublisher in E1. apply bind_Some in E1 as (s & _ & E1). apply bind_Some in E1 as (c & _ & [= <- _]). reflexivity. }
  assert (M2 : m2 = {| subscribers := [([97], 2)]; publisher := Some 1; feedbackSink_ := Some 1 |}).
  { unfold addSubscriber in E2. rewrite M1 in E2. apply bind_Some in E2 as (p & _ & E2). apply bind_Some in E2 as (c & _ & E2).
    apply bind_Some in E2 as ([u s] & _ & E2). apply bind_Some in E2 as (s' & _ & [= <- _]). reflexivity. }
  eapply rtc_l; [eapply step_publisher; [|exact E1]; split; [discriminate | intros id; discriminate]|].
  eapply rtc_l; [eapply step_subscribe; [|exact E2]; rewrite M1; split; [discriminate | intros id; discriminate]|].
  eapply rtc_l; [eapply step_subscribe; [|exact E]; rewrite M2; split; [discriminate|] | reflexivity].
  intros id. cbn [om_find subscribers]. destruct (decide _); discriminate.
Qed.

Lemma sample_wired : wired sample_state.1 sample_state.2.
Proof.
  eapply (wired_rtc sample_env); [apply (wired_ctor sample_store)|]. rewrite <- surjective_pairing. exact sample_reached.
Qed.

(** A packet of audio at the publisher. *)
Definition sample_audio : list Z := [128; 128 + 111; 0; 9; 0; 0; 0; 1; 0; 0; 0; 5; 42; 43].

Definition sample_arrival : option store :=
  packet_arrives sample_env 1 (fun _ _ => None) time0 time0 AUDIO_TYPE sample_audio 14 1 sample_state.1 sample_state.2.

Lemma sample_arrives : bool_decide (is_Some sample_arrival) = true.
Proof. vm_compute. reflexivity. Qed.

Lemma sample_listens : takes_audio <$> sample_state.2 !! (2 : address) = Some true
  /\ takes_audio <$> sample_state.2 !! (3 : address) = Some false.
Proof. split; vm_compute; reflexivity. Qed.

Lemma sample_knows : publisher sample_state.1 = Some 1 /\ sample_state.2 !! (1 : address) = Some sample_publisher
  /\ om_find [97] (subscribers sample_state.1) = Some 2 /\ om_find [98] (subscribers sample_state.1) = Some 3.
Proof. split_and!; vm_compute; reflexivity. Qed.

Lemma sample_is_audio : is_audio AUDIO_TYPE sample_audio sample_publisher.
Proof. unfold is_audio. assert (conn_bundle sample_publisher = false) as -> by (vm_compute; reflexivity). reflexivity. Qed.

Lemma sample_audio_ok : bytes_ok sample_audio.
Proof. repeat (apply Forall_cons; split; [unfold byte_ok; lia|]). constructor. Qed.

Lemma sample_rtp : RtcpHeader.isRtcp sample_audio 0 = Some false.
Proof. vm_compute. reflexivity. Qed.

Lemma sample_map : (fun c => getAudioExternalPT 0 (remoteSdp_ c)) <$> sample_state.2 !! (2 : address) = Some 8.
Proof. vm_compute. reflexivity. Qed.

