(* ===== verification/Peer.v ===== *)
(** * Peer: a member of a channel (src/Src/Server/Channel/Peer.cpp)

    A peer publishes over one connection and owns a one-to-many processor and a connection
    for everyone who subscribed to it.  Connections and event listeners live in a [world];
    a connection and the listener it tells are created together and carry the same
    address.  A connection's effects are what it tells its listener and its sinks while it
    runs: the listeners only send messages and set a flag of the peer, so handling them
    when the call returns is the same.  [None] is a call through a bad pointer, an exception
    nobody catches, or what the definitions of the connection leave undefined. *)

From Stdlib Require Import Ascii String.
From stdpp Require Import pretty.
From S2P Require Import Prelude Bytes MediaDefinitions ByteBuffer Packetizer ClientHandle RtpHeaders Rtcp Stats Text SdpInfo NiceConnection Dtls DtlsTransport Connection Ordered OneToMany.
Local Open Scope string_scope.
Local Open Scope Z_scope.
Local Open Scope list_scope.

(** JsonCpp: a parser, two accessors and a writer.  [asString] and [asInt] throw ([None]) on
    values that cannot be converted, and so does [operator\[\]] on what is no object. *)
Class JsonCpp := {
  Json_Value : Type;
  Reader_parse : list Z -> option Json_Value;
  member_asString : string -> Json_Value -> option string;
  member_asInt : string -> Json_Value -> option Z;
  StyledWriter_write : list (string * string) -> list Z
}.

(** The bytes of a string. *)
Definition bytes_of (s : string) : list Z :=
  map (fun c => Z.of_N (N_of_ascii c)) (list_ascii_of_string s).

(** [Printf("%d", id)]. *)
Definition key_of (id : Z) : list Z := bytes_of (pretty id).

(** ** Messages between the members of a channel *)

(** What the listeners of a peer's connections send. *)
Inductive signal :=
  | Description (answer : bool) (sdp : string)
  | Candidate (text : string).

Inductive notice :=
  | Online (clientID : Z)
  | Offline (clientID : Z)
  | Publisher (clientID : Z)
  | Signal (s : signal).

Definition id_notice (type : string) (clientID : Z) : list Z :=
  bytes_of ("{" +:+ quote +:+ "type" +:+ quote +:+ ":" +:+ quote +:+ type +:+ quote +:+ "," +:+
            quote +:+ "clientID" +:+ quote +:+ ":" +:+ pretty clientID +:+ "}").

Definition render `{JsonCpp} (m : notice) : list Z :=
  match m with
  | Online id => id_notice "online" id
  | Offline id => id_notice "offline" id
  | Publisher id => id_notice "publisher" id
  | Signal (Description answer sdp) => StyledWriter_write [("sdp", sdp); ("type", if answer then "answer" else "offer")]
  | Signal (Candidate text) => bytes_of text
  end.

(** What a peer asks of its room, and of the library behind its connections. *)
Inductive peer_out :=
  | SendMsgToPeer (a_TargetID : Z) (a_Msg : signal)
  | BroadcastJoinChannel
  | Library (p : address) (audio : bool) (c : nice_call).

Record WebRtcEventListener := { l_id : Z; l_state : WebRTCEvent }.

Record cPeer := {
  muxer : OneToManyProcessor;
  peer_publisher : option address;
  peer_subscribers : list (Z * address);      (* std::map *)
  eventListeners : list (Z * address);        (* std::map *)
  peer_id : Z;
  ready : bool
}.

#[export] Instance eta_cPeer : Eta cPeer := fun p =>
  {| muxer := muxer p; peer_publisher := peer_publisher p; peer_subscribers := peer_subscribers p;
     eventListeners := eventListeners p; peer_id := peer_id p; ready := ready p |}.

(** The connections and listeners there are, and the next address. *)
Record world `{CryptoLib} := {
  conns : gmap address WebRtcConnection;
  listeners : gmap address WebRtcEventListener;
  next_address : address
}.

#[export] Instance eta_world `{CryptoLib} : Eta world := fun w =>
  {| conns := conns w; listeners := listeners w; next_address := next_address w |}.

(** What the system gives during an event: the time, the credentials libnice makes up, and
    the memory a listener's state is made in. *)
Record Moment := {
  m_now : timeval; m_now2 : timeval;
  m_creds : string * string; m_vcreds : string * string; m_acreds : string * string;
  m_state : WebRTCEvent
}.

Definition peer_iceConfig : IceConfig :=
  {| turnServer := "admin.mice007.com"; turnUsername := "username1"; turnPass := "password1";
     stunServer := "admin.mice007.com"; stunPort := 3478; turnPort := 3478; minPort := 10000; maxPort := 59999;
     shouldTrickle := false |}.

Section Peer.
Context `{CryptoLib, JsonCpp} (env : Env).
(** What the FEC receivers of the subscribers' connections give back, as in OneToMany.v. *)
Variables (depth : nat) (recover : list Z -> list Z -> option (list (list Z))).

(** ** The event listener *)

(** [notifyEvent]: the listener afterwards, if it does not delete itself, and what it asks
    of the peer. *)
Definition notifyEvent (newEvent : WebRTCEvent) (message : string) (peer : Z) (l : WebRtcEventListener)
    : option WebRtcEventListener * list peer_out :=
  if event_num (l_state l) =? event_num newEvent then (Some l, []) else
  let l := {| l_id := l_id l; l_state := newEvent |} in
  match newEvent with
  | CONN_SDP | CONN_GATHERED => (Some l, [SendMsgToPeer (l_id l) (Description (peer =? l_id l) message)])
  | CONN_READY => (Some l, if peer =? l_id l then [BroadcastJoinChannel] else [])
  | CONN_FINISHED => (None, [])
  | CONN_CANDIDATE => (Some l, [SendMsgToPeer (l_id l) (Candidate message)])
  | _ => (Some l, [])
  end.

(** [onJoinedChannel] sets the flag before it broadcasts. *)
Definition onJoinedChannel (outs : list peer_out) (peer : cPeer) : cPeer :=
  match outs with [BroadcastJoinChannel] => peer <| ready := true |> | _ => peer end.

(** An effect of the connection at [p], which belongs to the peer. *)
Definition on_effect (p : address) (e : conn_effect) (peer : cPeer) (w : world) : option (cPeer * world * list peer_out) :=
  match e with
  | NotifyEvent newEvent message =>
    l ← listeners w !! p;
    let '(l, outs) := notifyEvent newEvent message (peer_id peer) l in
    Some (onJoinedChannel outs peer, w <| listeners ::= partial_alter (fun _ => l) p |>, outs)
  | DeliverVideo _ _ | DeliverAudio _ _ | DeliverFeedback _ _ =>
    s ← relay env depth recover e (muxer peer) (conns w);
    Some (peer, w <| conns := s |>, [])
  | Net audio c => Some (peer, w, [Library p audio c])
  | NotifyStats _ => Some (peer, w, [])
  end.

Fixpoint on_effects (p : address) (es : list conn_effect) (peer : cPeer) (w : world)
    : option (cPeer * world * list peer_out) :=
  match es with
  | [] => Some (peer, w, [])
  | e :: es =>
    '(peer, w, outs) ← on_effect p e peer w;
    '(peer, w, outs') ← on_effects p es peer w;
    Some (peer, w, outs ++ outs')
  end.

(** Something happens at the connection at [p]: a call of the peer, or an event of the
    library behind the connection. *)
Definition on_connection (p : address) (f : WebRtcConnection -> option (WebRtcConnection * list conn_effect))
    (peer : cPeer) (w : world) : option (cPeer * world * list peer_out) :=
  c ← conns w !! p;
  '(c, es) ← f c;
  on_effects p es peer (w <| conns ::= <[p := c]> |>).

(** ** The peer *)

Definition cPeer_ctor (id : Z) : cPeer :=
  {| muxer := OneToManyProcessor_ctor; peer_publisher := None; peer_subscribers := []; eventListeners := [];
     peer_id := id; ready := false |}.

(** A new listener for [id] and a new connection that tells it. *)
Definition new_connection (m : Moment) (id : Z) (w : world) : address * WebRtcConnection * world :=
  let p := next_address w in
  let c := WebRtcConnection_ctor env (m_now m) (m_now2 m) true true peer_iceConfig true in
  (p, c, w <| listeners ::= <[p := {| l_id := id; l_state := m_state m |}]> |> <| next_address := p + 1 |>).

Definition doJoin (m : Moment) (peer : cPeer) (w : world) : option (cPeer * world * list peer_out) :=
  let '(p, c, w) := new_connection m (peer_id peer) w in
  let c := c <| audioSink_ := true |> <| videoSink_ := true |> in
  let peer := peer <| peer_publisher := Some p |> in
  '(mux, s) ← setPublisher p (muxer peer) (<[p := c]> (conns w));
  on_connection p (fun c => Some (init env c)) (peer <| muxer := mux |>) (w <| conns := s |>).

(** The subscriber's local description is made from the publisher's. *)
Definition onSubscribed (m : Moment) (a_TargetID : Z) (peer : cPeer) (w : world) : option (cPeer * world * list peer_out) :=
  let '(p, c, w) := new_connection m a_TargetID w in
  pub ← peer_publisher peer;
  from ← conns w !! pub;
  let c := c <| localSdp_ ::= setOfferSdp (localSdp_ from) |> in
  let w := w <| conns ::= <[p := c]> |> in
  let peer := peer <| peer_subscribers ::= om_set Z.ltb a_TargetID p |> <| eventListeners ::= om_set Z.ltb a_TargetID p |> in
  '(peer, w, outs) ← on_connection p (fun c => Some (init env c)) peer w;
  '(mux, s) ← addSubscriber p (key_of a_TargetID) (muxer peer) (conns w);
  '(peer, w, outs') ← on_connection p (createOffer env (m_creds m)) (peer <| muxer := mux |>) (w <| conns := s |>);
  Some (peer, w, outs ++ outs').

(** [delete] of a listener. *)
Definition delete_listener (p : address) (w : world) : option world :=
  _ ← listeners w !! p; Some (w <| listeners ::= delete p |>).

Definition onUnSubscribed (a_TargetID : Z) (peer : cPeer) (w : world) : option (cPeer * world) :=
  '(mux, s) ← removeSubscriber (key_of a_TargetID) (muxer peer) (conns w);
  let peer := peer <| muxer := mux |> <| peer_subscribers ::= om_erase a_TargetID |> in
  let w := w <| conns := s |> in
  match om_find a_TargetID (eventListeners peer) with
  | Some p => w ← delete_listener p w; Some (peer <| eventListeners ::= om_erase a_TargetID |>, w)
  | None => Some (peer, w)
  end.

Definition getConnectionById (a_TargetID : Z) (peer : cPeer) : option address :=
  if a_TargetID =? peer_id peer then peer_publisher peer else om_find a_TargetID (peer_subscribers peer).

(** A call on the connection for [a_TargetID], if there is one. *)
Definition with_connection (a_TargetID : Z) (f : WebRtcConnection -> option (WebRtcConnection * list conn_effect))
    (peer : cPeer) (w : world) : option (cPeer * world * list peer_out) :=
  match getConnectionById a_TargetID peer with
  | Some p => on_connection p f peer w
  | None => Some (peer, w, [])
  end.

Definition onMsgFromPeer (m : Moment) (a_TargetID : Z) (msg : list Z) (peer : cPeer) (w : world)
    : option (cPeer * world * list peer_out) :=
  if bool_decide (msg = bytes_of "BYE") then Some (peer, w, []) else
  match Reader_parse msg with
  | None => Some (peer, w, [])
  | Some jmessage =>
    type ← member_asString "type" jmessage;
    if String.eqb type "subscribe" then
      clientID ← member_asInt "clientID" jmessage;
      onSubscribed m clientID peer w
    else if String.eqb type "offer" || String.eqb type "answer" then
      sdp ← member_asString "sdp" jmessage;
      if String.eqb sdp "" then Some (peer, w, []) else
      with_connection a_TargetID (setRemoteSdp env (m_vcreds m) (m_acreds m) sdp) peer w
    else
      sdp_mid ← member_asString "sdpMid" jmessage;
      sdp_mlineindex ← member_asInt "sdpMLineIndex" jmessage;
      sdp ← member_asString "candidate" jmessage;
      if String.eqb sdp_mid "" || String.eqb sdp "" then Some (peer, w, []) else
      with_connection a_TargetID (fun c => '(_, c, es) ← addRemoteCandidate env sdp_mid sdp_mlineindex sdp c; Some (c, es)) peer w
  end.

(** The subscribers of a peer that is destroyed; the listener of its own id is left. *)
Fixpoint drop_listeners (ls : list (Z * address)) (peer : cPeer) (w : world) : option (cPeer * world) :=
  match ls with
  | [] => Some (peer, w)
  | (id, p) :: ls =>
    if id =? peer_id peer then drop_listeners ls peer w else
    '(mux, s) ← removeSubscriber (key_of id) (muxer peer) (conns w);
    w ← delete_listener p (w <| conns := s |>);
    drop_listeners ls (peer <| muxer := mux |>) w
  end.

Definition cPeer_dtor (peer : cPeer) (w : world) : option world :=
  '(peer, w) ← drop_listeners (eventListeners peer) peer w;
  s ← closeAll (muxer peer) (conns w);
  Some (w <| conns := s |>).
End Peer.
