(* ===== verification/Channel.v ===== *)
(** * Channel: rooms and their manager (src/Src/Server/Channel/Room.cpp and Manager.cpp)

    The manager's thread takes events from a queue: a client joins a channel, leaves it or
    sends a message to a member.  Rooms are created by the first event that asks for them
    and deleted by the leave that empties them.  What the manager tells the server is a list
    of [server_call]s, in the order of the calls. *)

From S2P Require Import Prelude Bytes MediaDefinitions ByteBuffer Packetizer ClientHandle RtpHeaders Rtcp Stats Text SdpInfo NiceConnection Dtls DtlsTransport Connection Ordered OneToMany Peer.

(** The calls of cServer, and of the library behind the connections. *)
Inductive server_call :=
  | Server_onChannelMsg (a_Channel : AString) (a_FromID a_TargetID : Z) (a_Msg : notice)
  | Server_onJoinChannelResult (a_ClientID : Z) (a_Channel : AString) (a_Result : Z)
  | Server_onLeaveChannelResult (a_ClientID : Z) (a_Channel : AString) (a_Result : Z)
  | Media_Library (p : address) (audio : bool) (c : nice_call).

(** A null pointer in the map is [None]. *)
Record cRoom := { m_ChannelName : AString; m_Clients : list (Z * option cPeer) }.

#[export] Instance eta_cRoom : Eta cRoom := fun r => {| m_ChannelName := m_ChannelName r; m_Clients := m_Clients r |}.

Inductive event_type := NONE | JOIN | LEAVE | MEDIA.

Record cMediaEvent := {
  ev_ClientID : Z;
  ev_Channel : AString;
  m_Type : event_type;
  m_Msg : list Z;
  m_TargetID : Z
}.

Record cManager := { rooms : list (AString * cRoom); m_Queue : list cMediaEvent }.

#[export] Instance eta_cManager : Eta cManager := fun m => {| rooms := rooms m; m_Queue := m_Queue m |}.

(** ** What reaches the manager from outside *)

Definition cManager_ctor : cManager := {| rooms := []; m_Queue := [] |}.

Definition addEvent (event : cMediaEvent) (m : cManager) : cManager := m <| m_Queue ::= fun q => q ++ [event] |>.

Definition cMediaEvent_of (a_ClientID : Z) (a_Channel : AString) (type : event_type) : cMediaEvent :=
  {| ev_ClientID := a_ClientID; ev_Channel := a_Channel; m_Type := type; m_Msg := []; m_TargetID := 0 |}.

Definition doUserJoinChannel (a_ClientID : Z) (a_Channel : AString) : cManager -> cManager :=
  addEvent (cMediaEvent_of a_ClientID a_Channel JOIN).

Definition doUserLeftChannel (a_ClientID : Z) (a_Channel : AString) : cManager -> cManager :=
  addEvent (cMediaEvent_of a_ClientID a_Channel LEAVE).

(** A leave for every room there is at the time. *)
Definition doUserOffline (a_ClientID : Z) (m : cManager) : cManager :=
  foldl (fun m channel => addEvent (cMediaEvent_of a_ClientID (m_ChannelName channel.2) LEAVE) m) m (rooms m).

Definition OnMsgFromPeer (a_Channel : AString) (a_FromID a_TargetID : Z) (a_Msg : list Z) : cManager -> cManager :=
  addEvent {| ev_ClientID := a_FromID; ev_Channel := a_Channel; m_Type := MEDIA; m_Msg := a_Msg; m_TargetID := a_TargetID |}.

Section Channel.
Context `{CryptoLib, JsonCpp} (env : Env).
Variables (depth : nat) (recover : list Z -> list Z -> option (list (list Z))).

(** ** Rooms *)

Definition cRoom_ctor (name : AString) : cRoom := {| m_ChannelName := name; m_Clients := [] |}.

Definition room_getSize (room : cRoom) : Z := Z.of_nat (List.length (m_Clients room)).

(** [m_Clients\[id\]] makes a null pointer for an id that is not there. *)
Definition room_BroadcastJoinChannel (a_ClientID : Z) (room : cRoom) : cRoom * list server_call :=
  match om_find a_ClientID (m_Clients room) with
  | None => (room <| m_Clients ::= om_place Z.ltb a_ClientID None |>, [])
  | Some None => (room, [])
  | Some (Some _) =>
    (room, flat_map (fun client =>
       if client.1 =? a_ClientID then [] else
       [Server_onChannelMsg (m_ChannelName room) a_ClientID client.1 (Publisher a_ClientID);
        Server_onChannelMsg (m_ChannelName room) client.1 a_ClientID (Publisher client.1)]) (m_Clients room))
  end.

(** What the peer [id] asks of the room. *)
Definition on_peer_out (id : Z) (out : peer_out) (room : cRoom) : cRoom * list server_call :=
  match out with
  | SendMsgToPeer a_TargetID a_Msg => (room, [Server_onChannelMsg (m_ChannelName room) id a_TargetID (Signal a_Msg)])
  | BroadcastJoinChannel => room_BroadcastJoinChannel id room
  | Library p audio c => (room, [Media_Library p audio c])
  end.

Fixpoint on_peer_outs (id : Z) (outs : list peer_out) (room : cRoom) : cRoom * list server_call :=
  match outs with
  | [] => (room, [])
  | out :: outs =>
    let '(room, calls) := on_peer_out id out room in
    let '(room, calls') := on_peer_outs id outs room in
    (room, calls ++ calls')
  end.

(** The new peer is dropped when the map has one for the client already. *)
Definition onPeerJoined (m : Moment) (a_ClientID : Z) (room : cRoom) (w : world) : option (cRoom * world * list server_call) :=
  '(NewHandle, w, outs) ← doJoin env depth recover m (cPeer_ctor a_ClientID) w;
  let '(room, calls) := on_peer_outs a_ClientID outs room in
  let online := flat_map (fun client =>
    [Server_onChannelMsg (m_ChannelName room) a_ClientID client.1 (Online a_ClientID);
     Server_onChannelMsg (m_ChannelName room) client.1 a_ClientID (Online client.1)]) (m_Clients room) in
  w ← match om_find a_ClientID (m_Clients room) with
      | Some _ => cPeer_dtor NewHandle w
      | None => Some w
      end;
  Some (room <| m_Clients ::= om_insert Z.ltb a_ClientID (Some NewHandle) |>, w, calls ++ online).

Definition doLeave (peer : cPeer) : cPeer := peer <| ready := false |>.

(** The members that stay, each freed of the one that leaves. *)
Fixpoint unsubscribe_all (name : AString) (a_ClientID : Z) (clients : list (Z * option cPeer)) (NewHandle : cPeer) (w : world)
    : option (list (Z * option cPeer) * cPeer * world * list server_call) :=
  match clients with
  | [] => Some ([], NewHandle, w, [])
  | (id, client) :: clients =>
    '(NewHandle, w) ← onUnSubscribed id NewHandle w;
    peer ← client;
    '(peer, w) ← onUnSubscribed a_ClientID peer w;
    '(clients, NewHandle, w, calls) ← unsubscribe_all name a_ClientID clients NewHandle w;
    Some ((id, Some peer) :: clients, NewHandle, w, Server_onChannelMsg name a_ClientID id (Offline a_ClientID) :: calls)
  end.

Definition onPeerLeaved (a_ClientID : Z) (room : cRoom) (w : world) : option (cRoom * world * list server_call) :=
  let left := room <| m_Clients ::= om_erase a_ClientID |> in
  match om_find a_ClientID (m_Clients room) with
  | None => Some (room, w, [])
  | Some None => Some (left, w, [])
  | Some (Some NewHandle) =>
    '(clients, NewHandle, w, calls) ← unsubscribe_all (m_ChannelName room) a_ClientID (m_Clients left) (doLeave NewHandle) w;
    w ← cPeer_dtor NewHandle w;
    Some (room <| m_Clients := clients |>, w, calls)
  end.

(** Something happens to a member of the room. *)
Definition on_member (id : Z) (f : cPeer -> world -> option (cPeer * world * list peer_out)) (room : cRoom) (w : world)
    : option (cRoom * world * list server_call) :=
  match om_find id (m_Clients room) with
  | None => Some (room, w, [])
  | Some client =>
    peer ← client;
    '(peer, w, outs) ← f peer w;
    let room := room <| m_Clients ::= om_update id (fun _ => Some peer) |> in
    let '(room, calls) := on_peer_outs id outs room in
    Some (room, w, calls)
  end.

Definition room_onMsgFromPeer (m : Moment) (a_FromID a_TargetID : Z) (a_Msg : list Z) : cRoom -> world ->
    option (cRoom * world * list server_call) :=
  on_member a_TargetID (onMsgFromPeer env depth recover m a_FromID a_Msg).

(** ** The manager's thread *)

Definition doGetRoom (name : AString) (rs : list (AString * cRoom)) : option cRoom := om_find name rs.

Definition doGetRoomSet (name : AString) (rs : list (AString * cRoom)) : cRoom * list (AString * cRoom) :=
  match om_find name rs with
  | Some room => (room, rs)
  | None => (cRoom_ctor name, om_place bytes_ltb name (cRoom_ctor name) rs)
  end.

Definition doReleaseRoom (name : AString) (rs : list (AString * cRoom)) : list (AString * cRoom) := om_erase name rs.

(** The room is an object the map points to: its new state is what the map has. *)
Definition put (name : AString) (room : cRoom) (rs : list (AString * cRoom)) : list (AString * cRoom) :=
  om_update name (fun _ => room) rs.

Definition dealEvent (m : Moment) (event : cMediaEvent) (rs : list (AString * cRoom)) (w : world)
    : option (list (AString * cRoom) * world * list server_call) :=
  let name := ev_Channel event in
  match m_Type event with
  | JOIN =>
    let '(room, rs) := doGetRoomSet name rs in
    '(room, w, calls) ← onPeerJoined m (ev_ClientID event) room w;
    Some (put name room rs, w, calls ++ [Server_onJoinChannelResult (ev_ClientID event) name 1])
  | LEAVE =>
    let '(room, rs) := doGetRoomSet name rs in
    '(room, w, calls) ← onPeerLeaved (ev_ClientID event) room w;
    let rs := put name room rs in
    Some (if room_getSize room =? 0 then doReleaseRoom name rs else rs, w,
          calls ++ [Server_onLeaveChannelResult (ev_ClientID event) name 1])
  | MEDIA =>
    match doGetRoom name rs with
    | None => Some (rs, w, [])
    | Some room =>
      '(room, w, calls) ← room_onMsgFromPeer m (ev_ClientID event) (m_TargetID event) (m_Msg event) room w;
      Some (put name room rs, w, calls)
    end
  | NONE => Some (rs, w, [])
  end.

(** One round of the thread's loop; on an empty queue it waits. *)
Definition Execute_event (m : Moment) (mgr : cManager) (w : world) : option (cManager * world * list server_call) :=
  match m_Queue mgr with
  | [] => Some (mgr, w, [])
  | event :: queue =>
    '(rs, w, calls) ← dealEvent m event (rooms mgr) w;
    Some ({| rooms := rs; m_Queue := queue |}, w, calls)
  end.

(** The library behind a connection of a member has an event. *)
Definition media_event (name : AString) (id target : Z)
    (f : WebRtcConnection -> option (WebRtcConnection * list conn_effect)) (mgr : cManager) (w : world)
    : option (cManager * world * list server_call) :=
  match om_find name (rooms mgr) with
  | None => Some (mgr, w, [])
  | Some room =>
    '(room, w, calls) ← on_member id (with_connection env depth recover target f) room w;
    Some (mgr <| rooms ::= put name room |>, w, calls)
  end.
End Channel.
