(* ===== verification/ChannelFacts.v ===== *)
(** * ChannelFacts: who is in a channel, and who knows of it

    The server keeps no list of members that the clients could ask for: all a client knows
    of a channel is what the messages told it, in their order.  The theorems: what a member
    has been told is who is there ([roster]); rooms are neither left over nor shared
    ([tidy]); a client that goes offline leaves every room ([offline_leaves]), unless its
    last join was still in the queue ([offline_ghost]). *)

From S2P Require Import Prelude Bytes MediaDefinitions ByteBuffer Packetizer ClientHandle RtpHeaders Rtcp Stats Text SdpInfo NiceConnection Dtls DtlsTransport Connection ConnectionFacts Ordered OneToMany Peer Channel.

(** ** What a client makes of what it is told *)

(** The members of a channel a client knows of, after one more call of the manager: its own
    leave makes it forget. *)
Definition hear (name : AString) (x : Z) (known : gset Z) (call : server_call) : gset Z :=
  match call with
  | Server_onChannelMsg ch _ t (Online id) => if decide (ch = name /\ t = x) then {[id]} ∪ known else known
  | Server_onChannelMsg ch _ t (Offline id) => if decide (ch = name /\ t = x) then known ∖ {[id]} else known
  | Server_onLeaveChannelResult id ch _ => if decide (ch = name /\ id = x) then ∅ else known
  | _ => known
  end.

Definition hears (name : AString) (x : Z) : gset Z -> list server_call -> gset Z := foldl (hear name x).

Lemma hears_app name x known calls calls' :
  hears name x known (calls ++ calls') = hears name x (hears name x known calls) calls'.
Proof. apply foldl_app. Qed.

Definition clients_of (room : cRoom) : gset Z := list_to_set (keys (m_Clients room)).

Definition members (name : AString) (rs : list (AString * cRoom)) : gset Z :=
  match om_find name rs with Some room => clients_of room | None => ∅ end.

(** ** Rooms *)

(** A room that every operation leaves: named as it is called, with a peer for every member. *)
Record room_ok (name : AString) (room : cRoom) : Prop := {
  room_name : m_ChannelName room = name;
  room_sorted : increasing Z.ltb (m_Clients room);
  room_peers id c : om_find id (m_Clients room) = Some c -> is_Some c
}.

(** Of the rooms in the map none is empty. *)
Record tidy (rs : list (AString * cRoom)) : Prop := {
  tidy_sorted : increasing bytes_ltb rs;
  tidy_room name room : om_find name rs = Some room -> room_ok name room;
  tidy_full name room : om_find name rs = Some room -> m_Clients room <> []
}.

Lemma clients_find room id : id ∈ clients_of room <-> is_Some (om_find id (m_Clients room)).
Proof. unfold clients_of. rewrite elem_of_list_to_set. apply (keys_find Z.ltb). Qed.

Section Rooms.
Context `{CryptoLib, JsonCpp} (env : Env).
Variables (depth : nat) (recover : list Z -> list Z -> option (list (list Z))).

(** *** Calls that tell nobody who is there *)

Definition neutral (call : server_call) : Prop := forall name x known, hear name x known call = known.

Lemma hears_neutral name x known calls : Forall neutral calls -> hears name x known calls = known.
Proof. induction 1 as [|call calls Hc Hr IH]; [reflexivity|]. cbn. rewrite (Hc name x known). exact IH. Qed.

Lemma on_peer_out_ok id out room name : room_ok name room -> id ∈ clients_of room ->
  (on_peer_out id out room).1 = room /\ Forall neutral (on_peer_out id out room).2.
Proof.
  intros Hr Hin. destruct out as [t s| |p audio c]; cbn; [split; [reflexivity | repeat constructor] | | split; [reflexivity | repeat constructor]].
  unfold room_BroadcastJoinChannel. apply clients_find in Hin as [c Hc]. rewrite Hc.
  destruct (room_peers _ _ Hr _ _ Hc) as [peer ->]. cbn. split; [reflexivity|].
  clear Hc. induction (m_Clients room) as [|[cid cl] l IH]; cbn; [constructor|].
  destruct (cid =? id); [exact IH | repeat constructor; exact IH].
Qed.

Lemma on_peer_outs_ok id outs room name : room_ok name room -> id ∈ clients_of room ->
  (on_peer_outs id outs room).1 = room /\ Forall neutral (on_peer_outs id outs room).2.
Proof.
  intros Hr Hin. induction outs as [|out outs IH]; cbn; [split; [reflexivity | constructor]|].
  destruct (on_peer_out_ok id out room name Hr Hin) as [E F]. destruct (on_peer_out id out room) as [r calls]. cbn in E, F. subst r.
  destruct (on_peer_outs id outs room) as [r' calls']. cbn in IH |- *. destruct IH as [-> IH]. split; [reflexivity|].
  apply Forall_app. auto.
Qed.

Lemma clients_update id f room : clients_of (room <| m_Clients ::= om_update id f |>) = clients_of room.
Proof. unfold clients_of. f_equal. apply keys_update. Qed.

(** A member's peer does something: nobody comes or goes. *)
Lemma on_member_ok id f name room w room' w' calls : room_ok name room ->
  on_member id f room w = Some (room', w', calls) ->
  room_ok name room' /\ keys (m_Clients room') = keys (m_Clients room) /\ Forall neutral calls.
Proof.
  intros Hr. unfold on_member. destruct (om_find id (m_Clients room)) as [client|] eqn:Ef.
  2:{ intros [= <- <- <-]. split; [exact Hr | split; [reflexivity | constructor]]. }
  intros E. apply bind_Some in E as (peer & _ & E). apply bind_Some in E as ([[peer' w1] outs] & _ & E).
  set (room1 := room <| m_Clients ::= _ |>) in E.
  assert (H1 : room_ok name room1).
  { destruct Hr as [Hn Hs Hp]. split; [exact Hn | |].
    - eapply increasing_keys; [apply keys_update | exact Hs].
    - intros id' c. unfold room1. change (m_Clients _) with (om_update id (fun _ => Some peer') (m_Clients room)).
      rewrite find_update, Ef. destruct (decide (id' = id)); [intros [= <-]; eauto | apply Hp]. }
  assert (Hin : id ∈ clients_of room1) by (unfold room1; rewrite clients_update; apply clients_find; eauto).
  destruct (on_peer_outs_ok id outs room1 name H1 Hin) as [E1 F1]. destruct (on_peer_outs id outs room1) as [r c]. cbn in E1, F1.
  injection E as <- <- <-. subst r. split; [exact H1 | split; [|exact F1]]. apply keys_update.
Qed.

(** *** Joining *)

(** A peer that joins asks nothing of its room yet. *)
Lemma doJoin_outs m id w peer w' outs : doJoin env depth recover m (cPeer_ctor id) w = Some (peer, w', outs) -> outs = [].
Proof.
  unfold doJoin, new_connection. cbv zeta. intros E. apply bind_Some in E as ([mux s] & E1 & E).
  unfold setPublisher in E1. apply bind_Some in E1 as (s1 & E1 & E2). cbn in E1. injection E1 as <-.
  apply bind_Some in E2 as (c & Hc & [= <- <-]). rewrite lookup_insert_eq in Hc. injection Hc as <-.
  unfold on_connection in E. apply bind_Some in E as (c & Hc & E).
  change (<[next_address w := (WebRtcConnection_ctor env (m_now m) (m_now2 m) true true peer_iceConfig true)
    <| audioSink_ := true |> <| videoSink_ := true |>]> (conns w) !! next_address w = Some c) in Hc.
  rewrite lookup_insert_eq in Hc. injection Hc as <-. apply bind_Some in E as ([c es] & E1 & E). injection E1 as <- <-.
  cbn [notify globalState_ connEventListener_ on_effects] in E. apply bind_Some in E as ([[peer1 w1] o1] & E1 & E).
  apply bind_Some in E as ([[peer2 w2] o2] & E2 & [= <- <- <-]). injection E2 as <- <- <-.
  cbn [on_effect] in E1. apply bind_Some in E1 as (l & _ & E1). unfold notifyEvent in E1.
  destruct (_ =? _) in E1; injection E1 as <- <- <-; reflexivity.
Qed.

(** What the announcement of [id] to the members [clients] says. *)
Lemma hears_online name x known ch id clients :
  hears name x known (flat_map (fun client : Z * option cPeer =>
    [Server_onChannelMsg ch id client.1 (Online id); Server_onChannelMsg ch client.1 id (Online client.1)]) clients)
  = if decide (ch = name) then
      (if decide (x ∈ keys clients) then {[id]} else ∅) ∪ (if decide (x = id) then list_to_set (keys clients) else ∅) ∪ known
    else known.
Proof.
  revert known. induction clients as [|[cid c] l IH]; intros known.
  { cbn. destruct (decide (ch = name)); [|reflexivity]. rewrite decide_False by (intros Hn; inversion Hn).
    destruct (decide _); set_solver. }
  cbn [flat_map app hears foldl]. fold (hears name x). cbn [fst]. rewrite IH. cbn [hear].
  destruct (decide (ch = name)) as [->|Hne].
  2:{ rewrite !decide_False by tauto. reflexivity. }
  assert (Hk : x ∈ keys ((cid, c) :: l) <-> x = cid \/ x ∈ keys l) by apply elem_of_cons.
  change (list_to_set (keys ((cid, c) :: l)) : gset Z) with ({[cid]} ∪ list_to_set (keys l) : gset Z).
  rewrite (decide_ext (name = name /\ cid = x) (x = cid)), (decide_ext (name = name /\ id = x) (x = id)) by (split; intuition congruence).
  clear IH. destruct (decide (x = cid)), (decide (x = id)), (decide (x ∈ keys l)), (decide (x ∈ keys ((cid, c) :: l)));
    try (exfalso; tauto); clear Hk; generalize (list_to_set (keys l) : gset Z); intros k; set_solver.
Qed.

Lemma onPeerJoined_ok m id name room w room' w' calls : room_ok name room ->
  onPeerJoined env depth recover m id room w = Some (room', w', calls) ->
  room_ok name room' /\ clients_of room' = {[id]} ∪ clients_of room
    /\ (forall ch x known, hears ch x known calls = if decide (name = ch) then
          (if decide (x ∈ clients_of room) then {[id]} else ∅) ∪ (if decide (x = id) then clients_of room else ∅) ∪ known
        else known).
Proof.
  intros Hr E. unfold onPeerJoined in E. apply bind_Some in E as ([[peer w1] outs] & E1 & E).
  apply doJoin_outs in E1 as ->. cbn [on_peer_outs] in E. apply bind_Some in E as (w2 & _ & [= <- _ <-]). split; [|split].
  - destruct Hr as [Hn Hs Hp]. split; [exact Hn | apply increasing_insert; [typeclasses eauto | exact Hs] |].
    intros id' c. change (m_Clients _) with (om_insert Z.ltb id (Some peer) (m_Clients room)). rewrite find_insert.
    destruct (decide _); [|apply Hp]. intros [= <-]. destruct (om_find id (m_Clients room)) as [c|] eqn:Ec; [exact (Hp _ _ Ec) | eauto].
  - apply set_eq. intros x. rewrite elem_of_union, elem_of_singleton, !clients_find.
    change (m_Clients (room <| m_Clients ::= _ |>)) with (om_insert Z.ltb id (Some peer) (m_Clients room)). rewrite find_insert.
    destruct (decide (x = id)); [subst; split; eauto | tauto].
  - intros ch x known. cbn [app]. rewrite hears_online, (room_name _ _ Hr). destruct (decide (name = ch)); [|reflexivity].
    rewrite (decide_ext (x ∈ clients_of room) (x ∈ keys (m_Clients room))) by apply elem_of_list_to_set. reflexivity.
Qed.

(** *** Leaving *)

Lemma unsubscribe_all_ok ch id clients peer w clients' peer' w' calls :
  unsubscribe_all ch id clients peer w = Some (clients', peer', w', calls) ->
  keys clients' = keys clients /\ (forall id' c, om_find id' clients' = Some c -> is_Some c)
  /\ (forall name x known, hears name x known calls
        = if decide (ch = name /\ x ∈ keys clients) then known ∖ {[id]} else known).
Proof.
  revert peer w clients' peer' w' calls. induction clients as [|[cid c] l IH]; intros peer w clients' peer' w' calls; cbn [unsubscribe_all].
  { intros [= <- <- <- <-]. split; [reflexivity | split; [discriminate|]]. intros name x known. cbn.
    rewrite decide_False; [reflexivity|]. intros [_ Hn]. inversion Hn. }
  intros E. apply bind_Some in E as ([p1 w1] & _ & E). apply bind_Some in E as (p2 & _ & E).
  apply bind_Some in E as ([p3 w3] & _ & E). apply bind_Some in E as ([[[l' p4] w4] calls'] & E4 & [= <- <- <- <-]).
  destruct (IH _ _ _ _ _ _ E4) as (Hk & Hp & Hh). split; [cbn; f_equal; exact Hk | split].
  - intros id' c'. cbn [om_find]. destruct (decide _); [intros [= <-]; eauto | apply Hp].
  - intros name x known. cbn [hears foldl]. fold (hears name x). rewrite Hh. cbn [hear].
    assert (Hx : x ∈ keys ((cid, c) :: l) <-> x = cid \/ x ∈ keys l) by apply elem_of_cons.
    clear IH Hh E4. destruct (decide (ch = name)) as [->|Hne];
      [|rewrite !decide_False by tauto; reflexivity].
    rewrite (decide_ext (name = name /\ cid = x) (x = cid)) by (split; intuition congruence).
    destruct (decide (x = cid)), (decide (name = name /\ x ∈ keys l)), (decide (name = name /\ x ∈ keys ((cid, c) :: l)));
      try (exfalso; tauto); clear; set_solver.
Qed.

Lemma clients_erase id (m : list (Z * option cPeer)) : list_to_set (keys (om_erase id m)) = (list_to_set (keys m) ∖ {[id]} : gset Z).
Proof.
  apply set_eq. intros x. rewrite elem_of_difference, elem_of_singleton, !elem_of_list_to_set, !(keys_find Z.ltb), find_erase.
  destruct (decide (x = id)); [|tauto]. split; [intros [? [=]] | tauto].
Qed.

Lemma onPeerLeaved_ok id name room w room' w' calls : room_ok name room ->
  onPeerLeaved id room w = Some (room', w', calls) ->
  room_ok name room' /\ clients_of room' = clients_of room ∖ {[id]}
    /\ (forall ch x known, hears ch x known calls = if decide (name = ch /\ id ∈ clients_of room /\ x ∈ clients_of room ∖ {[id]})
        then known ∖ {[id]} else known).
Proof.
  intros Hr E. pose proof Hr as [Hn Hs Hp]. unfold onPeerLeaved in E. destruct (om_find id (m_Clients room)) as [client|] eqn:Ef.
  2:{ assert (Hid : id ∉ clients_of room) by (rewrite clients_find, Ef; intros [? [=]]).
      injection E as <- <- <-. split; [exact Hr | split; [set_solver|]]. intros ch x known. rewrite decide_False by tauto. reflexivity. }
  destruct (Hp _ _ Ef) as [peer ->]. apply bind_Some in E as ([[[l p1] w1] calls1] & E1 & E).
  apply bind_Some in E as (w2 & _ & [= <- _ <-]). destruct (unsubscribe_all_ok _ _ _ _ _ _ _ _ _ E1) as (Hk & Hp' & Hh).
  change (m_Clients (room <| m_Clients ::= om_erase id |>)) with (om_erase id (m_Clients room)) in *.
  assert (Hid : id ∈ clients_of room) by (apply clients_find; eauto). split; [|split].
  - split; [exact Hn | | exact Hp']. eapply increasing_keys; [exact Hk | apply increasing_erase, Hs].
  - unfold clients_of. rewrite <- clients_erase. f_equal. exact Hk.
  - intros ch x known. rewrite Hh, Hn.
    assert (Hx : x ∈ clients_of room ∖ {[id]} <-> x ∈ keys (om_erase id (m_Clients room)))
      by (unfold clients_of; rewrite <- clients_erase; apply elem_of_list_to_set).
    apply decide_ext. tauto.
Qed.

(** ** The manager *)

(** What a member knows of the others is who they are; what a stranger knows is nothing. *)
Definition informed (rs : list (AString * cRoom)) (name : AString) (x : Z) (known : gset Z) : Prop :=
  if decide (x ∈ members name rs) then known ∖ {[x]} = members name rs ∖ {[x]} else known = ∅.

Lemma get_set_ok name rs room rs1 : tidy rs -> doGetRoomSet name rs = (room, rs1) ->
  room_ok name room /\ clients_of room = members name rs /\ increasing bytes_ltb rs1
  /\ (forall n : AString, om_find n rs1 = if decide (n = name) then Some room else om_find n rs).
Proof.
  intros [Hs Hr _] E. unfold doGetRoomSet in E. unfold members. destruct (om_find name rs) as [r|] eqn:Ef; injection E as <- <-.
  - split; [exact (Hr _ _ Ef) | split; [reflexivity | split; [exact Hs|]]]. intros n. destruct (decide (n = name)); congruence.
  - split; [|split; [reflexivity | split]].
    + split; [reflexivity | constructor | discriminate].
    + apply increasing_place; [typeclasses eauto | exact Ef | exact Hs].
    + intros n. apply find_place, Ef.
Qed.

(** The room of the given name has become [room], or is gone. *)
Lemma tidy_put (name : AString) room room' (rs rs1 : list (AString * cRoom)) : tidy rs -> increasing bytes_ltb rs1 ->
  (forall n : AString, om_find n rs1 = if decide (n = name) then Some room else om_find n rs) -> room_ok name room' ->
  m_Clients room' <> [] ->
  tidy (put name room' rs1) /\ forall n, members n (put name room' rs1) = if decide (n = name) then clients_of room' else members n rs.
Proof.
  intros Ht Hs Hf Hr Hne. assert (Hp : forall n : AString, om_find n (put name room' rs1) = if decide (n = name) then Some room' else om_find n rs).
  { intros n. unfold put. rewrite find_update, (Hf n). destruct (decide (n = name)); [|reflexivity].
    rewrite (Hf name), decide_True by reflexivity. reflexivity. }
  split; [split|].
  - eapply increasing_keys; [apply keys_update | exact Hs].
  - intros n r. rewrite Hp. destruct (decide (n = name)) as [->|]; [intros [= <-]; exact Hr | apply Ht].
  - intros n r. rewrite Hp. destruct (decide (n = name)) as [->|]; [intros [= <-]; exact Hne | apply Ht].
  - intros n. unfold members. rewrite Hp. destruct (decide (n = name)); reflexivity.
Qed.

Lemma tidy_release (name : AString) room room' (rs rs1 : list (AString * cRoom)) : tidy rs -> increasing bytes_ltb rs1 ->
  (forall n : AString, om_find n rs1 = if decide (n = name) then Some room else om_find n rs) ->
  tidy (doReleaseRoom name (put name room' rs1))
  /\ forall n, members n (doReleaseRoom name (put name room' rs1)) = if decide (n = name) then ∅ else members n rs.
Proof.
  intros Ht Hs Hf. assert (Hp : forall n : AString, om_find n (doReleaseRoom name (put name room' rs1)) = if decide (n = name) then None else om_find n rs).
  { intros n. unfold doReleaseRoom, put. rewrite find_erase, find_update, (Hf n). destruct (decide (n = name)); reflexivity. }
  split; [split|].
  - apply increasing_erase. eapply increasing_keys; [apply keys_update | exact Hs].
  - intros n r. rewrite Hp. destruct (decide (n = name)) as [->|]; [discriminate | apply Ht].
  - intros n r. rewrite Hp. destruct (decide (n = name)) as [->|]; [discriminate | apply Ht].
  - intros n. unfold members. rewrite Hp. destruct (decide (n = name)); reflexivity.
Qed.

(** Who is in a channel afterwards. *)
Definition members_after (event : cMediaEvent) (name : AString) (rs : list (AString * cRoom)) : gset Z :=
  if decide (name = ev_Channel event) then
    match m_Type event with
    | JOIN => {[ev_ClientID event]} ∪ members name rs
    | LEAVE => members name rs ∖ {[ev_ClientID event]}
    | _ => members name rs
    end
  else members name rs.

Lemma members_other event name rs : m_Type event = MEDIA \/ m_Type event = NONE -> members_after event name rs = members name rs.
Proof. unfold members_after. intros [-> | ->]; destruct (decide _); reflexivity. Qed.

Lemma members_put name room room' rs : tidy rs -> om_find name rs = Some room -> room_ok name room' ->
  keys (m_Clients room') = keys (m_Clients room) ->
  tidy (put name room' rs) /\ forall n, members n (put name room' rs) = members n rs.
Proof.
  intros Ht Hf Hr Hk. destruct (tidy_put name room room' rs rs) as [T M]; [exact Ht | apply Ht | | exact Hr | |].
  - intros n. destruct (decide (n = name)); congruence.
  - intros E. rewrite E in Hk. destruct (m_Clients room) eqn:Er; [exact (tidy_full _ Ht _ _ Hf Er) | discriminate].
  - split; [exact T|]. intros n. rewrite M. destruct (decide (n = name)) as [->|]; [|reflexivity].
    unfold members, clients_of. rewrite Hf, Hk. reflexivity.
Qed.

(** The sets a join and a leave make of what a client knows. *)
Lemma join_known (M known : gset Z) x id :
  (if decide (x ∈ M) then known ∖ {[x]} = M ∖ {[x]} else known = ∅) ->
  let known' := (if decide (x ∈ M) then {[id]} else ∅) ∪ (if decide (x = id) then M else ∅) ∪ known in
  if decide (x ∈ ({[id]} ∪ M : gset Z)) then known' ∖ {[x]} = ({[id]} ∪ M) ∖ {[x]} else known' = ∅.
Proof.
  cbv zeta. destruct (decide (x ∈ M)) as [Hm|Hm].
  - intros Hk. rewrite decide_True by set_solver. rewrite !difference_union_distr_l_L, Hk. destruct (decide (x = id)); set_solver.
  - intros ->. destruct (decide (x = id)) as [->|Hne].
    + rewrite decide_True by set_solver. set_solver.
    + rewrite decide_False by set_solver. set_solver.
Qed.

Lemma leave_known (M known : gset Z) x id :
  (if decide (x ∈ M) then known ∖ {[x]} = M ∖ {[x]} else known = ∅) ->
  let known' := if decide (id ∈ M /\ x ∈ M ∖ {[id]}) then known ∖ {[id]} else known in
  if decide (x ∈ M ∖ {[id]}) then (if decide (id = x) then ∅ else known') ∖ {[x]} = M ∖ {[id]} ∖ {[x]}
  else (if decide (id = x) then ∅ else known') = ∅.
Proof.
  cbv zeta. intros Hk. destruct (decide (x ∈ M)) as [Hm|Hm].
  - destruct (decide (id = x)) as [->|Hne]; [rewrite decide_False by set_solver; reflexivity|].
    rewrite (decide_True (P := x ∈ M ∖ {[id]})) by set_solver. destruct (decide (id ∈ M /\ _)).
    + replace (known ∖ {[id]} ∖ {[x]}) with (known ∖ {[x]} ∖ {[id]}) by set_solver. rewrite Hk. set_solver.
    + rewrite Hk. set_solver.
  - subst known. rewrite (decide_False (P := x ∈ M ∖ {[id]})) by set_solver.
    rewrite (decide_False (P := id ∈ M /\ x ∈ M ∖ {[id]})) by set_solver. destruct (decide _); reflexivity.
Qed.

Lemma dealEvent_ok m event rs w rs' w' calls : tidy rs -> dealEvent env depth recover m event rs w = Some (rs', w', calls) ->
  tidy rs' /\ (forall name, members name rs' = members_after event name rs)
  /\ (forall name x known, informed rs name x known -> informed rs' name x (hears name x known calls)).
Proof.
  intros Ht E. assert (Hinf : forall rs1 ks, (forall n, members n rs1 = members n rs) -> Forall neutral ks ->
    forall name x known, informed rs name x known -> informed rs1 name x (hears name x known ks)).
  { intros rs1 ks Hm Hn name x known Hi. unfold informed. rewrite hears_neutral by exact Hn. rewrite Hm. exact Hi. }
  unfold dealEvent in E. destruct (m_Type event) eqn:Ety.
  - injection E as <- <- <-. split; [exact Ht | split; [|intros name x known Hi; exact Hi]].
    intros name. symmetry. apply members_other. auto.
  - destruct (doGetRoomSet (ev_Channel event) rs) as [room rs1] eqn:Eg. destruct (get_set_ok _ _ _ _ Ht Eg) as (Hr & Hc & Hs & Hf).
    apply bind_Some in E as ([[room' w1] calls1] & E1 & [= <- _ <-]).
    destruct (onPeerJoined_ok _ _ _ _ _ _ _ _ Hr E1) as (Hr' & Hc' & Hh).
    destruct (tidy_put (ev_Channel event) room room' rs rs1 Ht Hs Hf Hr') as [T M].
    { intros En. unfold clients_of in Hc' at 1. rewrite En in Hc'. cbn in Hc'. set_solver. }
    split; [exact T | split].
    + intros name. rewrite M, Hc', Hc. unfold members_after. rewrite Ety. destruct (decide (name = ev_Channel event)) as [->|]; reflexivity.
    + intros name x known Hi. unfold informed. rewrite hears_app, Hh, M, Hc'. cbn [hears foldl hear].
      destruct (decide (name = ev_Channel event)) as [->|Hne].
      * rewrite (decide_True (P := ev_Channel event = ev_Channel event)) by reflexivity. rewrite Hc. exact (join_known _ _ _ _ Hi).
      * rewrite (decide_False (P := ev_Channel event = name)) by congruence. exact Hi.
  - destruct (doGetRoomSet (ev_Channel event) rs) as [room rs1] eqn:Eg. destruct (get_set_ok _ _ _ _ Ht Eg) as (Hr & Hc & Hs & Hf).
    apply bind_Some in E as ([[room' w1] calls1] & E1 & [= <- _ <-]).
    destruct (onPeerLeaved_ok _ _ _ _ _ _ _ Hr E1) as (Hr' & Hc' & Hh).
    assert (TM : let rs2 := put (ev_Channel event) room' rs1 in
      let rs3 := if room_getSize room' =? 0 then doReleaseRoom (ev_Channel event) rs2 else rs2 in
      tidy rs3 /\ forall n, members n rs3 = if decide (n = ev_Channel event) then clients_of room' else members n rs).
    { cbv zeta. unfold room_getSize. destruct (m_Clients room') as [|kv l] eqn:El.
      - destruct (tidy_release (ev_Channel event) room room' rs rs1 Ht Hs Hf) as [T M]. split; [exact T|]. intros n. cbn.
        rewrite M. unfold clients_of. rewrite El. reflexivity.
      - apply (tidy_put (ev_Channel event) room room' rs rs1 Ht Hs Hf Hr'). rewrite El. discriminate. }
    cbv zeta in TM. destruct TM as [T M]. split; [exact T | split].
    + intros name. rewrite M, Hc', Hc. unfold members_after. rewrite Ety. destruct (decide (name = ev_Channel event)) as [->|]; reflexivity.
    + intros name x known Hi. unfold informed. rewrite hears_app, Hh, M, Hc'. cbn [hears foldl hear].
      destruct (decide (name = ev_Channel event)) as [->|Hne].
      * rewrite Hc. rewrite (decide_ext (ev_Channel event = ev_Channel event /\ ev_ClientID event = x) (ev_ClientID event = x)) by tauto.
        rewrite (decide_ext (ev_Channel event = ev_Channel event /\ ev_ClientID event ∈ members (ev_Channel event) rs /\ _)
          (ev_ClientID event ∈ members (ev_Channel event) rs /\ x ∈ members (ev_Channel event) rs ∖ {[ev_ClientID event]})) by tauto.
        exact (leave_known _ _ _ _ Hi).
      * rewrite !(decide_False (P := ev_Channel event = name /\ _)) by (intros [? _]; congruence). exact Hi.
  - unfold doGetRoom in E. destruct (om_find (ev_Channel event) rs) as [room|] eqn:Ef.
    2:{ injection E as <- <- <-. split; [exact Ht | split; [|intros name x known Hi; exact Hi]].
        intros name. symmetry. apply members_other. auto. }
    apply bind_Some in E as ([[room' w1] calls1] & E1 & [= <- _ <-]).
    destruct (on_member_ok _ _ _ _ _ _ _ _ (tidy_room _ Ht _ _ Ef) E1) as (Hr' & Hk & Hn).
    destruct (members_put _ _ _ _ Ht Ef Hr' Hk) as [T M]. split; [exact T | split].
    + intros name. rewrite M. symmetry. apply members_other. auto.
    + apply Hinf; assumption.
Qed.
End Rooms.

(** ** Runs of the manager *)

(** A step of the manager and of the threads around it, with what it tells the server:
    a round of the thread, an event of the library behind a member's connection, an event
    posted to the queue (one of [posts]), and anything the threads of the connections do by
    themselves. *)
Inductive mgr_step `{CryptoLib, JsonCpp} (env : Env) (depth : nat) (recover : list Z -> list Z -> option (list (list Z)))
    (posts : cMediaEvent -> Prop) : cManager * world -> list server_call -> cManager * world -> Prop :=
  | step_round m mgr w mgr' w' calls : Execute_event env depth recover m mgr w = Some (mgr', w', calls) ->
      mgr_step env depth recover posts (mgr, w) calls (mgr', w')
  | step_media name id target f mgr w mgr' w' calls :
      media_event env depth recover name id target f mgr w = Some (mgr', w', calls) ->
      mgr_step env depth recover posts (mgr, w) calls (mgr', w')
  | step_post event mgr w : posts event -> mgr_step env depth recover posts (mgr, w) [] (addEvent event mgr, w)
  | step_offline id mgr w : mgr_step env depth recover posts (mgr, w) [] (doUserOffline id mgr, w)
  | step_threads mgr w w' : mgr_step env depth recover posts (mgr, w) [] (mgr, w').

Inductive mgr_run `{CryptoLib, JsonCpp} (env : Env) (depth : nat) (recover : list Z -> list Z -> option (list (list Z)))
    (posts : cMediaEvent -> Prop) : cManager * world -> list server_call -> cManager * world -> Prop :=
  | run_done s : mgr_run env depth recover posts s [] s
  | run_step s calls s1 calls1 s' : mgr_step env depth recover posts s calls s1 -> mgr_run env depth recover posts s1 calls1 s' ->
      mgr_run env depth recover posts s (calls ++ calls1) s'.

Lemma mgr_run_app `{CryptoLib, JsonCpp} env depth recover posts s calls s1 calls1 s' :
  mgr_run env depth recover posts s calls s1 -> mgr_run env depth recover posts s1 calls1 s' ->
  mgr_run env depth recover posts s (calls ++ calls1) s'.
Proof. induction 1; [auto|]. intros Hr. rewrite <- app_assoc. eapply run_step; [eassumption | auto]. Qed.

Section Runs.
Context `{CryptoLib, JsonCpp} (env : Env).
Variables (depth : nat) (recover : list Z -> list Z -> option (list (list Z))) (posts : cMediaEvent -> Prop).

Lemma rooms_offline id mgr : rooms (doUserOffline id mgr) = rooms mgr.
Proof.
  unfold doUserOffline. generalize (rooms mgr) at 1. intros l. revert mgr.
  induction l as [|r l IH]; intros mgr; [reflexivity|]. cbn [foldl]. rewrite IH. reflexivity.
Qed.

Lemma queue_offline id mgr : m_Queue (doUserOffline id mgr)
  = m_Queue mgr ++ map (fun channel => cMediaEvent_of id (m_ChannelName channel.2) LEAVE) (rooms mgr).
Proof.
  unfold doUserOffline. generalize (rooms mgr). intros l. revert mgr.
  induction l as [|r l IH]; intros mgr; [symmetry; apply app_nil_r|]. cbn [foldl map]. rewrite IH.
  transitivity ((m_Queue mgr ++ [cMediaEvent_of id (m_ChannelName r.2) LEAVE])
    ++ map (fun channel => cMediaEvent_of id (m_ChannelName channel.2) LEAVE) l); [reflexivity|].
  rewrite <- app_assoc. reflexivity.
Qed.

Lemma media_event_ok name id target f mgr w mgr' w' calls : tidy (rooms mgr) ->
  media_event env depth recover name id target f mgr w = Some (mgr', w', calls) ->
  tidy (rooms mgr') /\ (forall n, members n (rooms mgr') = members n (rooms mgr)) /\ Forall neutral calls
    /\ m_Queue mgr' = m_Queue mgr.
Proof.
  intros Ht E. unfold media_event in E. destruct (om_find name (rooms mgr)) as [room|] eqn:Ef;
    [|injection E as <- <- <-; split; [exact Ht | split; [reflexivity | split; [constructor | reflexivity]]]].
  apply bind_Some in E as ([[room' w1] calls1] & E1 & [= <- _ <-]).
  destruct (on_member_ok _ _ _ _ _ _ _ _ (tidy_room _ Ht _ _ Ef) E1) as (Hr' & Hk & Hn).
  destruct (members_put _ _ _ _ Ht Ef Hr' Hk) as [T M]. auto.
Qed.

Lemma step_ok mgr w calls mgr' w' : tidy (rooms mgr) -> mgr_step env depth recover posts (mgr, w) calls (mgr', w') ->
  tidy (rooms mgr') /\ forall name x known, informed (rooms mgr) name x known -> informed (rooms mgr') name x (hears name x known calls).
Proof.
  intros Ht Hst. inversion Hst as [m ? ? ? ? ? E|name id target f ? ? ? ? ? E| | |]; subst.
  - unfold Execute_event in E. destruct (m_Queue mgr) as [|event queue]; [injection E as <- <- <-; split; [exact Ht | auto]|].
    apply bind_Some in E as ([[rs w1] calls1] & E & [= <- _ <-]).
    destruct (dealEvent_ok _ _ _ _ _ _ _ _ _ _ Ht E) as (T & _ & I). auto.
  - destruct (media_event_ok _ _ _ _ _ _ _ _ _ Ht E) as (T & M & N & _). split; [exact T|].
    intros n x known Hi. unfold informed. rewrite hears_neutral by exact N. rewrite M. exact Hi.
  - split; [exact Ht | auto].
  - rewrite rooms_offline. split; [exact Ht | auto].
  - split; [exact Ht | auto].
Qed.

Lemma run_informed s s' calls : mgr_run env depth recover posts s calls s' -> tidy (rooms s.1) ->
  forall name x known, informed (rooms s.1) name x known -> informed (rooms s'.1) name x (hears name x known calls).
Proof.
  induction 1 as [s|[mgr w] calls [mgr1 w1] calls1 s' Hst Hr IH]; intros Ht name x known Hi; [exact Hi|].
  destruct (step_ok _ _ _ _ _ Ht Hst) as [T I]. rewrite hears_app. apply IH; [exact T | apply I, Hi].
Qed.

Lemma run_tidy s s' calls : mgr_run env depth recover posts s calls s' -> tidy (rooms s.1) -> tidy (rooms s'.1).
Proof.
  induction 1 as [s|[mgr w] calls [mgr1 w1] calls1 s' Hst Hr IH]; intros Ht; [exact Ht|].
  apply IH. exact (proj1 (step_ok _ _ _ _ _ Ht Hst)).
Qed.

(** C12. Whatever happens - joins, leaves, messages, clients going offline, events of the media
    library, in any order - what a member of a channel has been told since it joined, applied
    in the order it was told, is exactly who else is in the channel; and a client that is not
    in a channel believes nobody is.  No client is ever told of a member that is not there. *)
Theorem roster w0 mgr w calls : mgr_run env depth recover posts (cManager_ctor, w0) calls (mgr, w) ->
  forall name x,
    if decide (x ∈ members name (rooms mgr))
    then hears name x ∅ calls ∖ {[x]} = members name (rooms mgr) ∖ {[x]}
    else hears name x ∅ calls = ∅.
Proof.
  intros Hr name x. apply (run_informed (cManager_ctor, w0) (mgr, w) calls); [exact Hr | |].
  - split; [constructor | discriminate | discriminate].
  - unfold informed, members. cbn. destruct (decide (x ∈ ∅)); reflexivity.
Qed.

(** ** Going offline *)

(** Every channel the client is still in has a leave of it in the queue, and no join of it
    is. *)
Record leaving (id : Z) (mgr : cManager) : Prop := {
  leaving_no_join e : e ∈ m_Queue mgr -> m_Type e = JOIN -> ev_ClientID e <> id;
  leaving_posted name : id ∈ members name (rooms mgr) ->
    exists e, e ∈ m_Queue mgr /\ m_Type e = LEAVE /\ ev_ClientID e = id /\ ev_Channel e = name
}.

Lemma offline_leaving id mgr : tidy (rooms mgr) ->
  (forall e, e ∈ m_Queue mgr -> m_Type e = JOIN -> ev_ClientID e <> id) -> leaving id (doUserOffline id mgr).
Proof.
  intros Ht Hj. split; rewrite queue_offline.
  - intros e [He|He]%elem_of_app; [exact (Hj e He)|]. apply list_elem_of_fmap in He as (r & -> & _). discriminate.
  - rewrite rooms_offline. intros name Hm. unfold members in Hm. destruct (om_find name (rooms mgr)) as [room|] eqn:Ef; [|set_solver].
    exists (cMediaEvent_of id name LEAVE). split; [|auto]. apply elem_of_app. right. apply list_elem_of_fmap.
    exists (name, room). split; [|apply (increasing_elem bytes_ltb); [apply Ht | exact Ef]].
    cbn. rewrite (room_name _ _ (tidy_room _ Ht _ _ Ef)). reflexivity.
Qed.

Lemma step_leaving id mgr w calls mgr' w' : (forall e, posts e -> m_Type e = JOIN -> ev_ClientID e <> id) ->
  tidy (rooms mgr) -> leaving id mgr -> mgr_step env depth recover posts (mgr, w) calls (mgr', w') -> leaving id mgr'.
Proof.
  intros Hp Ht [Hj Hl] Hst. inversion Hst as [m ? ? ? ? ? E|name target2 target f ? ? ? ? ? E|event ? ? He|id' ? ?|]; subst.
  - unfold Execute_event in E. destruct (m_Queue mgr) as [|event queue] eqn:Eq; [injection E as <- <- <-; split; rewrite Eq; assumption|].
    apply bind_Some in E as ([[rs w1] calls1] & E & [= <- _ <-]).
    destruct (dealEvent_ok _ _ _ _ _ _ _ _ _ _ Ht E) as (T & M & _). split; cbn [m_Queue rooms].
    + intros e He. apply Hj. apply elem_of_cons. auto.
    + intros name. rewrite M. unfold members_after. intros Hm.
      assert (Ho : id ∈ members name (rooms mgr) /\ ~ (m_Type event = LEAVE /\ ev_ClientID event = id /\ ev_Channel event = name)).
      { destruct (decide (name = ev_Channel event)) as [->|Hne]; [|split; [exact Hm | naive_solver]].
        destruct (m_Type event) eqn:Ety; (split; [|naive_solver || set_solver]); try exact Hm; [|set_solver].
        apply elem_of_union in Hm as [->%elem_of_singleton|Hm]; [|exact Hm].
        destruct (Hj event); [apply elem_of_cons; auto | exact Ety | reflexivity]. }
      destruct Ho as [Ho Hno]. destruct (Hl name Ho) as (e & [->|He]%elem_of_cons & H1); [tauto|]. eauto.
  - destruct (media_event_ok _ _ _ _ _ _ _ _ _ Ht E) as (_ & M & _ & Q). split; rewrite Q; [exact Hj|]. intros n. rewrite M. apply Hl.
  - split.
    + intros e [He'|He'%list_elem_of_singleton]%elem_of_app; [exact (Hj e He')|]. subst e. apply Hp, He.
    + intros n Hm. destruct (Hl n Hm) as (e & He' & H1). exists e. split; [apply elem_of_app; auto | exact H1].
  - split; rewrite queue_offline.
    + intros e [He|He]%elem_of_app; [exact (Hj e He)|]. apply list_elem_of_fmap in He as (r & -> & _). discriminate.
    + rewrite rooms_offline. intros n Hm. destruct (Hl n Hm) as (e & He' & H1). exists e. split; [apply elem_of_app; auto | exact H1].
  - split; assumption.
Qed.

Lemma run_leaving id s calls s' : mgr_run env depth recover posts s calls s' ->
  (forall e, posts e -> m_Type e = JOIN -> ev_ClientID e <> id) -> tidy (rooms s.1) -> leaving id s.1 -> leaving id s'.1.
Proof.
  intros Hr Hp. induction Hr as [s|[mgr w] calls [mgr1 w1] calls1 s' Hst Hr IH]; intros Ht Hl; [exact Hl|].
  apply IH; [exact (proj1 (step_ok _ _ _ _ _ Ht Hst)) | exact (step_leaving _ _ _ _ _ _ Hp Ht Hl Hst)].
Qed.

(** A client that goes offline while no join of it is waiting is out of every channel as
    soon as the queue has been worked off, whatever else the manager is asked meanwhile, as
    long as nobody asks it to let that client join again. *)
Theorem offline_leaves id mgr w mgr' w' calls : tidy (rooms mgr) ->
  (forall e, e ∈ m_Queue mgr -> m_Type e = JOIN -> ev_ClientID e <> id) ->
  (forall e, posts e -> m_Type e = JOIN -> ev_ClientID e <> id) ->
  mgr_run env depth recover posts (doUserOffline id mgr, w) calls (mgr', w') -> m_Queue mgr' = [] ->
  forall name, id ∉ members name (rooms mgr').
Proof.
  intros Ht Hj Hp Hr Hq name Hm. apply run_leaving with (id := id) in Hr; [|exact Hp | cbn; rewrite rooms_offline; exact Ht | apply offline_leaving; assumption].
  destruct (leaving_posted _ _ Hr name Hm) as (e & He & _). cbn in He. rewrite Hq in He. inversion He.
Qed.
End Runs.

(** ** A sample *)

#[local] Existing Instance Sample.lib.
#[local] Existing Instance Sample.laws.

(** A library that knows one kind of message, the subscription of the client after an [s]. *)
Definition toy_json : JsonCpp := {|
  Json_Value := Z;
  Reader_parse := fun msg => match msg with 115 :: id :: _ => Some id | _ => None end;
  member_asString := fun _ _ => Some "subscribe"%string;
  member_asInt := fun _ id => Some id;
  StyledWriter_write := fun members => flat_map (fun kv => bytes_of kv.1 ++ bytes_of kv.2) members
|}.
#[local] Existing Instance toy_json.

Definition sample_world : world := {| conns := ∅; listeners := ∅; next_address := 100 |}.
Definition sample_moment : Moment :=
  {| m_now := time0; m_now2 := time0; m_creds := ("u", "p")%string; m_vcreds := ("vu", "vp")%string;
     m_acreds := ("au", "ap")%string; m_state := CONN_FAILED |}.

(** A run of the thread until the queue is empty. *)
Fixpoint drain (fuel : nat) (mgr : cManager) (w : world) : option (cManager * world * list server_call) :=
  match fuel with
  | O => Some (mgr, w, [])
  | S fuel =>
    '(mgr, w, calls) ← Execute_event sample_env 1 (fun _ _ => None) sample_moment mgr w;
    '(mgr, w, calls') ← drain fuel mgr w;
    Some (mgr, w, calls ++ calls')
  end.

Lemma drain_run posts fuel mgr w mgr' w' calls : drain fuel mgr w = Some (mgr', w', calls) ->
  mgr_run sample_env 1 (fun _ _ => None) posts (mgr, w) calls (mgr', w').
Proof.
  revert mgr w calls. induction fuel as [|fuel IH]; intros mgr w calls; cbn [drain]; [intros [= <- <- <-]; constructor|].
  intros E. apply bind_Some in E as ([[mgr1 w1] calls1] & E1 & E). apply bind_Some in E as ([[mgr2 w2] calls2] & E2 & [= <- <- <-]).
  eapply run_step; [eapply step_round, E1 | apply IH, E2].
Qed.

(** Three clients join a channel, the second subscribes to the first and leaves, the third
    joins once more. *)
Definition channel : AString := [99; 104].
Definition sample_queue : cManager :=
  foldl (fun m f => f m) cManager_ctor
    [doUserJoinChannel 1 channel; doUserJoinChannel 2 channel; doUserJoinChannel 3 channel;
     OnMsgFromPeer channel 2 1 [115; 2]; doUserLeftChannel 2 channel; doUserJoinChannel 3 channel].

(** What is left of a run: the members, the events that wait, and what the three know. *)
Definition outcome (r : option (cManager * world * list server_call)) : option (list Z * nat * list (list Z)) :=
  '(mgr, _, calls) ← r;
  Some (elements (members channel (rooms mgr)), List.length (m_Queue mgr),
        map (fun x => elements (hears channel x ∅ calls)) [1; 2; 3]).

Example sample_outcome : outcome (drain 6 sample_queue sample_world) = Some ([3; 1], 0%nat, [[3]; []; [3; 1]]).
Proof. vm_compute. reflexivity. Qed.

(** The outcome is what [roster] says. *)
Example roster_witness : exists mgr w calls, drain 6 sample_queue sample_world = Some (mgr, w, calls)
  /\ forall x, if decide (x ∈ members channel (rooms mgr))
     then hears channel x ∅ calls ∖ {[x]} = members channel (rooms mgr) ∖ {[x]}
     else hears channel x ∅ calls = ∅.
Proof.
  destruct (drain 6 sample_queue sample_world) as [[[mgr w] calls]|] eqn:E; [|exfalso; pose proof sample_outcome as O; rewrite E in O; discriminate O].
  exists mgr, w, calls. split; [reflexivity|]. intros x.
  apply (roster sample_env 1 (fun _ _ => None) (fun _ => True) sample_world mgr w calls).
  do 6 (eapply (run_step _ _ _ _ _ []); [apply step_post; exact I|]). exact (drain_run _ _ _ _ _ _ _ E).
Defined.

(** The first client goes offline once the queue has been worked off, and a fourth joins
    while its leaves wait. *)
Definition sample_departure (r : option (cManager * world * list server_call)) : option (cManager * world * list server_call) :=
  '(mgr, w, _) ← r; drain 2 (doUserJoinChannel 4 channel (doUserOffline 1 mgr)) w.

Definition who_is_left (r : option (cManager * world * list server_call)) : option (list Z * nat) :=
  '(mgr, _, _) ← r; Some (elements (members channel (rooms mgr)), List.length (m_Queue mgr)).

Lemma sample_departed : who_is_left (sample_departure (drain 6 sample_queue sample_world)) = Some ([3; 4], 0%nat).
Proof. vm_compute. reflexivity. Qed.

Lemma start_tidy : tidy (rooms cManager_ctor).
Proof. split; [constructor | discriminate | discriminate]. Qed.

Example offline_leaves_witness : exists mgr w calls,
  sample_departure (drain 6 sample_queue sample_world) = Some (mgr, w, calls) /\ forall name, 1 ∉ members name (rooms mgr).
Proof.
  pose proof sample_departed as D. pose proof sample_outcome as O. unfold sample_departure in D |- *.
  destruct (drain 6 sample_queue sample_world) as [[[mgr w] calls]|] eqn:E; [|discriminate O].
  cbn [mbind option_bind] in D |- *. unfold outcome in O. cbn [mbind option_bind] in O.
  assert (Hq : List.length (m_Queue mgr) = 0%nat) by congruence. apply nil_length_inv in Hq.
  destruct (drain 2 (doUserJoinChannel 4 channel (doUserOffline 1 mgr)) w) as [[[mgr' w'] calls']|] eqn:E'; [|discriminate D].
  exists mgr', w', calls'. split; [reflexivity|]. cbn [who_is_left mbind option_bind] in D.
  assert (Hq' : List.length (m_Queue mgr') = 0%nat) by congruence. apply nil_length_inv in Hq'.
  apply (offline_leaves sample_env 1 (fun _ _ => None) (fun e => ev_ClientID e = 4) 1 mgr w mgr' w' calls').
  - assert (R : mgr_run sample_env 1 (fun _ _ => None) (fun _ => True) (sample_queue, sample_world) calls (mgr, w))
      by exact (drain_run _ _ _ _ _ _ _ E). apply (run_tidy _ _ _ _ _ _ _ R start_tidy).
  - rewrite Hq. intros e He. inversion He.
  - intros e -> _. discriminate.
  - eapply (run_step _ _ _ _ _ []); [apply (step_post _ _ _ _ (cMediaEvent_of 4 channel JOIN)); reflexivity | exact (drain_run _ _ _ _ _ _ _ E')].
  - exact Hq'.
Defined.

(** A client whose join is still in the queue when it goes offline: no room is there to post a
    leave for, and it stays in the channel for good. *)
Theorem offline_ghost :
  who_is_left (drain 1 (doUserOffline 7 (doUserJoinChannel 7 channel cManager_ctor)) sample_world) = Some ([7], 0%nat).
Proof. vm_compute. reflexivity. Qed.
