(* ===== verification/Conductor.v ===== *)
(** * Conductor: the client's peer connections
    (src/Src/Client/conductor.cpp, PCObserver.cpp)

    The observer of [ConnectionClient]: it makes a peer connection for itself when it has
    joined, one for every publisher it is told of, applies the descriptions and candidates
    that come for them, and closes them again.  libwebrtc, the window and the client's
    signalling are reached through calls that are reported; JSON and the parsing of
    descriptions are interfaces.  [None] is the use of a null pointer.

    Peer connections are objects with addresses: the map may hold a null pointer where the
    factory gave none. *)

From Stdlib Require Import Ascii String.
From S2P Require Import Prelude Bytes StringUtils ByteBuffer Cipher Framing Packetizer ConnectionClient Ordered.
#[local] Open Scope act_scope.

(** webrtc/base/json and JsonCpp's writer; an object is written from its members. *)
Class ClientJson := {
  Json_Value : Type;
  Reader_parse : AString -> option Json_Value;
  GetStringFromJsonObject : Json_Value -> string -> option AString;
  GetIntFromJsonObject : Json_Value -> string -> option Z;
  StyledWriter_write : list (string * (AString + Z)) -> AString;
}.

(** The parsers of libwebrtc. *)
Class SdpParsers := {
  SessionDescription : Type;
  CreateSessionDescription : AString -> AString -> option SessionDescription;
  is_offer : SessionDescription -> bool;
  IceCandidate : Type;
  CreateIceCandidate : AString -> Z -> AString -> option IceCandidate;
}.

Definition pc_address := nat.

(** A PCObserver: [renderer_] is whether a window was registered, [rendering] whether there
    is a VideoRenderer. *)
Record PCObserver := { m_nId : Z; m_bSelf : bool; renderer_ : bool; rendering : bool }.

#[export] Instance eta_PCObserver : Eta PCObserver := fun o =>
  {| m_nId := m_nId o; m_bSelf := m_bSelf o; renderer_ := renderer_ o; rendering := rendering o |}.

Record Conductor := {
  peer_connections_ : list (Z * option pc_address);   (* std::map *)
  pcObservers_ : list (Z * option PCObserver);        (* std::map *)
  active_stream_ : bool;
  next_pc : pc_address;
}.

#[export] Instance eta_Conductor : Eta Conductor := fun c =>
  {| peer_connections_ := peer_connections_ c; pcObservers_ := pcObservers_ c;
     active_stream_ := active_stream_ c; next_pc := next_pc c |}.

Definition Conductor_ctor : Conductor :=
  {| peer_connections_ := []; pcObservers_ := []; active_stream_ := false; next_pc := 0%nat |}.

Section Conductor.
Context `{ClientJson, SdpParsers}.

(** What the Conductor does to its connections, its window and the client.  [ASSERT_failed]
    is where a debug build ends; a release build goes on as modelled. *)
Inductive conductor_out :=
  | ASSERT_failed
  | Factory_CreatePeerConnection (id : Z) (dtls : bool)
  | CreateLocalMediaStream (video : bool)
  | Pc_AddStream (p : pc_address)
  | Pc_CreateOffer (p : pc_address)
  | Pc_CreateAnswer (p : pc_address)
  | Pc_SetLocalDescription (p : pc_address) (desc : SessionDescription)
  | Pc_SetRemoteDescription (p : pc_address) (desc : SessionDescription)
  | Pc_AddIceCandidate (p : pc_address) (candidate : IceCandidate)
  | Pc_Close (p : pc_address)
  | Wnd_OnSignedIn
  | Wnd_OnDisconnected
  | Wnd_OnJoinChannel (room : AString) (id : Z)
  | Wnd_OnLeftChannel (room : AString)
  | Wnd_OnUserJoinChannel (room : AString) (id : Z)
  | Wnd_OnUserLeftChannel (room : AString) (id : Z)
  | Wnd_SEND_MESSAGE_TO_PEER (msg : option (Z * AString))
  | Wnd_PEER_CONNECTION_ERROR
  | Client_SignOut
  | Client_JoinChannel (server room : AString)
  | Client_LeaveChannel (room : AString)
  | Client_SendToChannel (room : AString) (id : Z) (msg : AString).

#[local] Notation CAction := (Act Conductor conductor_out).

(** The client the Conductor asks for its id, its channel and whether it is connected. *)
Context (client : ConnectionClient.ConnectionClient).
Definition GetID : Z := m_ClientID client.
Definition GetChannel : AString := m_rChannel client.
Definition is_connected : bool := m_bConnect client.

(** The messages that wait for the window's thread. *)
Definition SendMessage (id : Z) (json_object : AString) : CAction := tell (Wnd_SEND_MESSAGE_TO_PEER (Some (id, json_object))).

(** [it->second->...] for an entry of the map, if there is one. *)
Definition on_pc (id : Z) (m : pc_address -> CAction) : CAction := on_state (fun c =>
  match om_find id (peer_connections_ c) with
  | None => skip
  | Some p => fun c => p ← p; m p c
  end).

Definition SetLocalDescription (id : Z) (desc : SessionDescription) : CAction :=
  on_pc id (fun p => tell (Pc_SetLocalDescription p desc)).

(** [camera]: a capture device was found. *)
Definition AddStreams (camera : bool) : CAction := on_state (fun c =>
  if active_stream_ c then skip
  else modify (fun c => c <| active_stream_ := true |>);; tell (CreateLocalMediaStream camera)).

(** [created]: the factory returned a connection.  The result is whether it did. *)
Definition CreatePeerConnection (id : Z) (dtls created camera : bool) (then_ : bool -> CAction) : CAction := on_state (fun c =>
  let bSelf := id =? GetID in
  let peer_connection := if created then Some (next_pc c) else None in
  match om_find id (peer_connections_ c) with Some (Some _) => tell ASSERT_failed | _ => skip end;;
  tell (Factory_CreatePeerConnection id dtls);;
  modify (fun c => c <| next_pc ::= S |>
    <| peer_connections_ ::= om_set Z.ltb id peer_connection |>
    <| pcObservers_ ::= om_set Z.ltb id (Some {| m_nId := id; m_bSelf := bSelf; renderer_ := false; rendering := false |}) |>);;
  (if bSelf then
     AddStreams camera;;
     fun c => p ← peer_connection; (tell (Pc_AddStream p);; tell (Pc_CreateOffer p)) c
   else skip);;
  then_ created).

Fixpoint close_all (pcs : list (Z * option pc_address)) : CAction :=
  match pcs with
  | [] => skip
  | (id, p) :: pcs =>
    tell (Wnd_OnUserLeftChannel GetChannel id);;
    (fun c => p ← p; tell (Pc_Close p) c);;
    close_all pcs
  end.

Definition DeletePeerConnection (id : Z) : CAction :=
  if id =? GetID then
    modify (fun c => c <| active_stream_ := false |>);;
    on_state (fun c => close_all (peer_connections_ c));;
    modify (fun c => c <| peer_connections_ := [] |> <| pcObservers_ := [] |>)
  else
    on_pc id (fun p => tell (Pc_Close p));;
    modify (fun c => c <| peer_connections_ ::= om_erase id |> <| pcObservers_ ::= om_erase id |>).

(** ** What the client tells *)

Definition OnSignedIn : CAction := tell Wnd_OnSignedIn.
Definition OnLoginError : CAction := tell Client_SignOut.
Definition OnDisconnected : CAction := tell Wnd_OnDisconnected.
Definition OnMessageSent : CAction := tell (Wnd_SEND_MESSAGE_TO_PEER None).

Definition OnJoinedChannel (room : AString) (created camera : bool) : CAction :=
  CreatePeerConnection GetID true created camera (fun ok =>
    if ok : bool then tell (Wnd_OnJoinChannel room GetID) else skip).

Definition OnLeaveChannel (room : AString) : CAction :=
  DeletePeerConnection GetID;; tell (Wnd_OnLeftChannel room);; tell Client_SignOut.

Definition subscribe_message : AString :=
  StyledWriter_write [("type"%string, inl (chars "subscribe")); ("clientID"%string, inr GetID)].

Definition OnMessageFromChannel (room : AString) (a_FromID : Z) (a_Msg : AString) (created camera : bool) : CAction :=
  if decide (a_Msg = chars "BYE") then skip else
  match Reader_parse a_Msg with
  | None => skip
  | Some jmessage =>
    let type := default [] (GetStringFromJsonObject jmessage "type") in
    if decide (type = chars "online") then skip
    else if decide (type = chars "publisher") then
      match GetIntFromJsonObject jmessage "clientID" with
      | None => skip
      | Some clientID =>
        CreatePeerConnection a_FromID true created camera (fun ok =>
          if ok : bool then tell (Wnd_OnUserJoinChannel room a_FromID);; SendMessage (u32 clientID) subscribe_message
          else skip)
      end
    else if decide (type = chars "offline" \/ type = chars "unpublisher") then
      tell (Wnd_OnUserLeftChannel room a_FromID);;
      match GetIntFromJsonObject jmessage "clientID" with
      | None => skip
      | Some clientID => DeletePeerConnection (u32 clientID)
      end
    else if decide (type = chars "offer" \/ type = chars "answer") then
      match GetStringFromJsonObject jmessage "sdp" with
      | None => skip
      | Some sdp =>
        match CreateSessionDescription type sdp with
        | None => skip
        | Some session_description => on_pc a_FromID (fun p =>
            tell (Pc_SetRemoteDescription p session_description);;
            if is_offer session_description then
              (* pcObservers_\[a_FromID\] *)
              modify (fun c => c <| pcObservers_ ::= om_insert Z.ltb a_FromID None |>);; tell (Pc_CreateAnswer p)
            else skip)
        end
      end
    else
      match GetStringFromJsonObject jmessage "sdpMid", GetIntFromJsonObject jmessage "sdpMLineIndex",
            GetStringFromJsonObject jmessage "candidate" with
      | Some sdp_mid, Some sdp_mlineindex, Some sdp =>
        match CreateIceCandidate sdp_mid sdp_mlineindex sdp with
        | None => skip
        | Some candidate => on_pc a_FromID (fun p => tell (Pc_AddIceCandidate p candidate))
        end
      | _, _, _ => skip
      end
  end.

(** ** What the window asks for *)

Definition DisconnectFromServer : CAction := if is_connected then tell Client_SignOut else skip.
Definition conductor_Close : CAction := tell Client_SignOut.
Definition JoinChannel (server room : AString) : CAction := tell (Client_JoinChannel server room).
Definition LeaveChannel (room : AString) : CAction := tell (Client_LeaveChannel room).

(** The window's thread handles SEND_MESSAGE_TO_PEER.  [sent]: what SendToChannel returned. *)
Definition UIThread_SEND_MESSAGE (msg : option (Z * AString)) (sent : bool) : CAction :=
  match msg with
  | None => skip
  | Some (id, text) =>
    if is_connected then
      tell (Client_SendToChannel GetChannel id text);; if sent then skip else DisconnectFromServer
    else skip
  end.

(** [pcObservers_\[id\]] makes a null entry for an id that is not there. *)
Definition on_observer (id : Z) (f : PCObserver -> PCObserver) : CAction :=
  modify (fun c => c <| pcObservers_ ::= fun m => om_update id (fmap f) (om_insert Z.ltb id None m) |>).

(** The window's thread handles NEW_STREAM_ADDED and STREAM_REMOVED. *)
Definition UIThread_NEW_STREAM (id : Z) (has_video : bool) : CAction :=
  if has_video then on_observer id (fun o => if negb (id =? GetID) then o <| rendering := true |> else o) else skip.
Definition UIThread_STREAM_REMOVED (id : Z) : CAction := on_observer id (fun o => o <| rendering := false |>).

(** [render]: the window given is no null pointer. *)
Definition SetRemoteRender (id : Z) (render : bool) : CAction := on_observer id (fun o => o <| renderer_ := render |>).
Definition SetLocalRender (render : bool) : CAction := SetRemoteRender GetID render.

(** ** PCObserver *)

Definition PCObserver_OnError : CAction := tell Wnd_PEER_CONNECTION_ERROR.

Definition OnAddStream (has_video : bool) (o : PCObserver) : PCObserver :=
  if m_bSelf o then o else if has_video then o <| rendering := true |> else o.
Definition OnRemoveStream (o : PCObserver) : PCObserver := o <| rendering := false |>.

(** [text]: what the candidate's ToString gave. *)
Definition OnIceCandidate (o : PCObserver) (sdp_mid : AString) (sdp_mline_index : Z) (text : option AString) : CAction :=
  match text with
  | None => skip
  | Some sdp =>
    SendMessage (m_nId o) (StyledWriter_write
      [("sdpMid"%string, inl sdp_mid); ("sdpMLineIndex"%string, inr sdp_mline_index); ("candidate"%string, inl (chars "a=" ++ sdp))])
  end.

Definition OnSuccess (o : PCObserver) (desc : SessionDescription) (type sdp : AString) : CAction :=
  SetLocalDescription (m_nId o) desc;;
  SendMessage (m_nId o) (StyledWriter_write [("type"%string, inl type); ("sdp"%string, inl sdp)]).

(** ** The observer of the client (ConnectionClientObserver)

    What the client tells of packets and error codes goes to the log or the window. *)
Definition observe (created camera : bool) (e : event) : CAction :=
  match e with
  | Observer_OnSignedIn => OnSignedIn
  | Observer_OnLoginError => OnLoginError
  | Observer_OnDisconnected => OnDisconnected
  | Observer_OnJoinedChannel room => OnJoinedChannel room created camera
  | Observer_OnLeaveChannel room => OnLeaveChannel room
  | Observer_OnMessageFromChannel room a_FromID a_Msg => OnMessageFromChannel room a_FromID a_Msg created camera
  | _ => skip
  end.

Fixpoint observe_all (created camera : bool) (es : list event) : CAction :=
  match es with
  | [] => skip
  | e :: es => observe created camera e;; observe_all created camera es
  end.
End Conductor.
