(* ===== verification/ConductorFacts.v ===== *)
(** * ConductorFacts: a client is connected to the members of its channel

    The notices of the channel manager ([Channel]) as the clients' Conductors read them
    ([Conductor]): in every run of the manager, the peer connections a client has are to
    members of the channel, whatever order the events come in, as long as the factory makes
    the connections; and when the assertion about them fails. *)

From Stdlib Require Import Ascii String.
From S2P Require Import Prelude Bytes StringUtils ByteBuffer Cipher Framing Packetizer ConnectionClient MediaDefinitions RtpHeaders Rtcp Stats Text SdpInfo NiceConnection Dtls DtlsTransport Connection ConnectionFacts Ordered OneToMany Peer Channel ChannelFacts Conductor.

(** ** When publishers are announced *)

(** At the time a client is told of a publisher, it knows it as a member; it is never told
    that it has left itself. *)
Definition timely_call (name : AString) (x : Z) (known : gset Z) (call : server_call) : Prop :=
  match call with
  | Server_onChannelMsg ch f t (Publisher id) => ch = name -> t = x -> f = id /\ id ∈ known /\ id <> x
  | Server_onChannelMsg ch f t (Offline id) => t = x -> id <> x
  | _ => True
  end.

Fixpoint timely (name : AString) (x : Z) (known : gset Z) (calls : list server_call) : Prop :=
  match calls with
  | [] => True
  | call :: calls => timely_call name x known call /\ timely name x (hear name x known call) calls
  end.

Lemma timely_app name x calls calls' : forall known,
  timely name x known (calls ++ calls') <-> timely name x known calls /\ timely name x (hears name x known calls) calls'.
Proof.
  induction calls as [|c calls IH]; intros known; cbn; [tauto|]. rewrite IH. fold (hears name x (hear name x known c) calls). tauto.
Qed.

(** A call that announces no publisher. *)
Definition no_publisher (call : server_call) : Prop :=
  match call with
  | Server_onChannelMsg _ _ _ (Publisher _) => False
  | Server_onChannelMsg _ _ t (Offline id) => id <> t
  | _ => True
  end.

Lemma no_publisher_timely name x calls : Forall no_publisher calls -> forall known, timely name x known calls.
Proof.
  induction 1 as [|c calls Hc _ IH]; intros known; cbn; [exact I|]. split; [|apply IH].
  destruct c as [ch f t [|id|id|]| | |]; cbn in *; try tauto. congruence.
Qed.

(** A publisher is announced by itself, to another member of its room. *)
Definition between (room : cRoom) (call : server_call) : Prop :=
  match call with
  | Server_onChannelMsg ch f t (Publisher id) =>
    ch = m_ChannelName room /\ f = id /\ id <> t /\ id ∈ clients_of room /\ t ∈ clients_of room
  | Server_onChannelMsg _ _ _ (Offline _) => False
  | _ => True
  end.

Lemma neutral_timely name x known room rs calls :
  Forall neutral calls -> Forall (between room) calls -> om_find name rs = Some room \/ m_ChannelName room <> name ->
  informed rs name x known -> timely name x known calls.
Proof.
  intros Hn Ha Hroom Hi. induction Hn as [|c calls Hc _ IH]; cbn; [exact I|]. apply Forall_cons in Ha as [Hac Ha].
  rewrite (Hc name x known). split; [|apply IH, Ha].
  destruct c as [ch f t [|id|id|]| | |]; cbn in *; auto. intros -> ->. destruct Hac as (Ech & -> & Hne & Hin & Hx).
  destruct Hroom as [Hf|Hd]; [|congruence]. split; [reflexivity|]. split; [|exact Hne].
  assert (Hm : members name rs = clients_of room) by (unfold members; rewrite Hf; reflexivity).
  unfold informed in Hi. rewrite Hm, decide_True in Hi by exact Hx. set_solver.
Qed.

Section Announced.
Context `{CryptoLib, JsonCpp} (env : Env).
Variables (depth : nat) (recover : list Z -> list Z -> option (list (list Z))).

Lemma on_peer_out_among id out room name : room_ok name room -> id ∈ clients_of room -> Forall (between room) (on_peer_out id out room).2.
Proof.
  intros Hr Hin. destruct out as [t s| |p audio c]; cbn; [repeat constructor | | repeat constructor].
  unfold room_BroadcastJoinChannel. pose proof Hin as [c Hc]%clients_find. rewrite Hc.
  destruct (room_peers _ _ Hr _ _ Hc) as [peer ->]. cbn.
  assert (Hall : forall cid, cid ∈ keys (m_Clients room) -> cid ∈ clients_of room) by (intros cid; unfold clients_of; set_solver).
  clear Hc. induction (m_Clients room) as [|[cid cl] l IH]; cbn; [constructor|].
  apply Forall_app. split; [|apply IH; intros cid' Hc; apply Hall; cbn; apply elem_of_cons; right; exact Hc].
  pose proof (Hall cid ltac:(cbn; apply elem_of_cons; left; reflexivity)) as Hcid.
  destruct (Z.eqb_spec cid id) as [->|Hne]; [constructor|]. repeat constructor; auto.
Qed.

Lemma on_peer_outs_among id outs room name : room_ok name room -> id ∈ clients_of room -> Forall (between room) (on_peer_outs id outs room).2.
Proof.
  intros Hr Hin. induction outs as [|out outs IH]; cbn; [constructor|].
  pose proof (on_peer_out_among id out room name Hr Hin) as Ho. pose proof (on_peer_out_ok id out room name Hr Hin) as [E _].
  destruct (on_peer_out id out room) as [r calls]. cbn in E, Ho. subst r.
  destruct (on_peer_outs id outs room) as [r' calls']. cbn in IH |- *. apply Forall_app. auto.
Qed.

(** What [between] says of a room depends on its name and its members only. *)
Lemma between_same room room' : m_ChannelName room' = m_ChannelName room -> clients_of room' = clients_of room ->
  forall call, between room' call -> between room call.
Proof. intros Hn Hc [ch f t [| |id|]| | |]; cbn; rewrite ?Hn, ?Hc; auto. Qed.

Lemma on_member_among id f name room w room' w' calls : room_ok name room ->
  on_member id f room w = Some (room', w', calls) -> Forall (between room) calls.
Proof.
  intros Hr E. destruct (on_member_ok _ _ _ _ _ _ _ _ Hr E) as (Hr' & _ & _). revert E. unfold on_member.
  destruct (om_find id (m_Clients room)) as [client|] eqn:Ef; [|intros [= <- <- <-]; constructor].
  intros E. apply bind_Some in E as (peer & _ & E). apply bind_Some in E as ([[peer' w1] outs] & _ & E).
  set (room1 := room <| m_Clients ::= _ |>) in E.
  assert (Hc1 : clients_of room1 = clients_of room) by apply clients_update.
  assert (H1 : room_ok name room1).
  { destruct Hr as [Hn Hs Hp]. split; [exact Hn | eapply increasing_keys; [apply keys_update | exact Hs] |].
    intros id' c. unfold room1. change (m_Clients _) with (om_update id (fun _ => Some peer') (m_Clients room)).
    rewrite find_update, Ef. destruct (decide (id' = id)); [intros [= <-]; eauto | apply Hp]. }
  assert (Hin : id ∈ clients_of room1) by (rewrite Hc1; apply clients_find; eauto).
  pose proof (on_peer_outs_among id outs room1 name H1 Hin) as Ha. destruct (on_peer_outs id outs room1) as [r c].
  injection E as <- <- <-. eapply Forall_impl; [exact Ha|]. apply between_same; [reflexivity | exact Hc1].
Qed.

Lemma joined_no_publisher m id room w room' w' calls :
  onPeerJoined env depth recover m id room w = Some (room', w', calls) -> Forall no_publisher calls.
Proof.
  unfold onPeerJoined. intros E. apply bind_Some in E as ([[peer w1] outs] & E1 & E).
  apply doJoin_outs in E1 as ->. cbn [on_peer_outs] in E. apply bind_Some in E as (w2 & _ & [= <- _ <-]).
  cbn [app]. induction (m_Clients room) as [|[cid c] l IH]; cbn; [constructor | repeat constructor; exact IH].
Qed.

Lemma unsubscribe_no_publisher ch id clients : id ∉ keys clients -> forall peer w clients' peer' w' calls,
  unsubscribe_all ch id clients peer w = Some (clients', peer', w', calls) -> Forall no_publisher calls.
Proof.
  induction clients as [|[cid c] l IH]; intros Hid peer w clients' peer' w' calls; cbn [unsubscribe_all]; [intros [= <- <- <- <-]; constructor|].
  cbn in Hid. apply not_elem_of_cons in Hid as [Hne Hid].
  intros E. apply bind_Some in E as ([p1 w1] & _ & E). apply bind_Some in E as (p2 & _ & E).
  apply bind_Some in E as ([p3 w3] & _ & E). apply bind_Some in E as ([[[l' p4] w4] calls'] & E4 & [= <- <- <- <-]).
  constructor; [exact Hne | eapply IH, E4; exact Hid].
Qed.

Lemma leaved_no_publisher id room w room' w' calls : onPeerLeaved id room w = Some (room', w', calls) -> Forall no_publisher calls.
Proof.
  unfold onPeerLeaved. destruct (om_find id (m_Clients room)) as [[peer|]|]; [|intros [= <- <- <-]; constructor|intros [= <- <- <-]; constructor].
  intros E. apply bind_Some in E as ([[[l p1] w1] calls1] & E1 & E). apply bind_Some in E as (w2 & _ & [= <- _ <-]).
  eapply unsubscribe_no_publisher, E1. intros Hk. apply (keys_find Z.ltb) in Hk as [v Hv].
  cbn in Hv. rewrite find_erase, decide_True in Hv by reflexivity. discriminate Hv.
Qed.

(** An event of a member's peer: what it announces is timely. *)
Lemma member_timely id f name rs room w room' w' calls : tidy rs -> om_find name rs = Some room ->
  on_member id f room w = Some (room', w', calls) ->
  forall n x known, informed rs n x known -> timely n x known calls.
Proof.
  intros Ht Hf E n x known Hi. pose proof (tidy_room _ Ht _ _ Hf) as Hr.
  destruct (on_member_ok _ _ _ _ _ _ _ _ Hr E) as (_ & _ & Hn).
  apply (neutral_timely n x known room rs); [exact Hn | eapply on_member_among; eassumption | | exact Hi].
  pose proof (room_name _ _ Hr) as Hname. destruct (decide (n = name)) as [->|]; [left; exact Hf | right; congruence].
Qed.

Lemma dealEvent_timely m event rs w rs' w' calls : tidy rs -> dealEvent env depth recover m event rs w = Some (rs', w', calls) ->
  forall n x known, informed rs n x known -> timely n x known calls.
Proof.
  intros Ht E n x known Hi. unfold dealEvent in E. destruct (m_Type event).
  - injection E as <- <- <-. exact I.
  - destruct (doGetRoomSet (ev_Channel event) rs) as [room rs1]. apply bind_Some in E as ([[room' w1] calls1] & E1 & [= <- _ <-]).
    apply no_publisher_timely, Forall_app. split; [eapply joined_no_publisher, E1 | repeat constructor].
  - destruct (doGetRoomSet (ev_Channel event) rs) as [room rs1]. apply bind_Some in E as ([[room' w1] calls1] & E1 & [= <- _ <-]).
    apply no_publisher_timely, Forall_app. split; [eapply leaved_no_publisher, E1 | repeat constructor].
  - unfold doGetRoom in E. destruct (om_find (ev_Channel event) rs) as [room|] eqn:Ef; [|injection E as <- <- <-; exact I].
    apply bind_Some in E as ([[room' w1] calls1] & E1 & [= <- _ <-]). eapply member_timely; eassumption.
Qed.

Variable posts : cMediaEvent -> Prop.

Lemma step_timely mgr w calls mgr' w' : tidy (rooms mgr) -> mgr_step env depth recover posts (mgr, w) calls (mgr', w') ->
  forall n x known, informed (rooms mgr) n x known -> timely n x known calls.
Proof.
  intros Ht Hst. inversion Hst as [m ? ? ? ? ? E|name id target f ? ? ? ? ? E| | |]; subst; try (intros; exact I).
  - unfold Execute_event in E. destruct (m_Queue mgr) as [|event queue]; [injection E as <- <- <-; intros; exact I|].
    apply bind_Some in E as ([[rs w1] calls1] & E & [= <- _ <-]). eapply dealEvent_timely; eassumption.
  - unfold media_event in E. destruct (om_find name (rooms mgr)) as [room|] eqn:Ef; [|injection E as <- <- <-; intros; exact I].
    apply bind_Some in E as ([[room' w1] calls1] & E1 & [= <- _ <-]). eapply member_timely; eassumption.
Qed.

Lemma run_timely s s' calls : mgr_run env depth recover posts s calls s' -> tidy (rooms s.1) ->
  forall n x known, informed (rooms s.1) n x known -> timely n x known calls.
Proof.
  induction 1 as [s|[mgr w] calls [mgr1 w1] calls1 s' Hst Hr IH]; intros Ht n x known Hi; [exact I|].
  destruct (step_ok _ _ _ _ _ _ _ _ _ Ht Hst) as [T Inf]. apply timely_app. split; [exact (step_timely _ _ _ _ _ Ht Hst _ _ _ Hi)|].
  apply IH; [exact T | apply Inf, Hi].
Qed.
End Announced.

(** ** The Conductor's calls *)

(** The clients there is a connection for. *)
Definition connected (c : Conductor) : gset Z := list_to_set (keys (peer_connections_ c)).

(** The map is one, and no null pointer is in it. *)
Record sound (c : Conductor) : Prop := {
  sound_sorted : increasing Z.ltb (peer_connections_ c);
  sound_live id p : om_find id (peer_connections_ c) = Some p -> is_Some p
}.

Lemma connected_find c id : id ∈ connected c <-> is_Some (om_find id (peer_connections_ c)).
Proof. unfold connected. rewrite elem_of_list_to_set. apply (keys_find Z.ltb). Qed.

Section Client.
Context `{ClientJson, SdpParsers} (client : ConnectionClient.ConnectionClient) (camera : bool).
#[local] Notation CAction := (Act Conductor conductor_out).
#[local] Notation x := (GetID client).

(** Whether an ASSERT has failed on the way. *)
Definition is_assert (o : conductor_out) : bool := match o with ASSERT_failed => true | _ => false end.
Definition asserts (out : list conductor_out) : bool := existsb is_assert out.

(** [m] succeeds from [c], [P] holds afterwards, and [b] is whether an ASSERT has failed. *)
Definition ends (b : bool) (m : CAction) (c : Conductor) (P : Conductor -> Prop) : Prop :=
  exists c' out, m c = Some (c', out) /\ asserts out = b /\ P c'.

Definition does : CAction -> Conductor -> (Conductor -> Prop) -> Prop := ends false.

Lemma asserts_app a b : asserts (a ++ b) = asserts a || asserts b.
Proof. apply existsb_app. Qed.

Lemma does_skip c (P : Conductor -> Prop) : P c -> does skip c P.
Proof. intros HP. exists c, []. auto. Qed.

Lemma does_tell o c (P : Conductor -> Prop) : P c -> ends (is_assert o) (tell o) c P.
Proof. intros HP. exists c, [o]. unfold asserts. cbn. rewrite orb_false_r. auto. Qed.

Lemma does_modify f c (P : Conductor -> Prop) : P (f c) -> does (modify f) c P.
Proof. intros HP. exists (f c), []. auto. Qed.

Lemma ends_andThen b b' (m k : CAction) c P Q :
  ends b m c P -> (forall c', P c' -> ends b' k c' Q) -> ends (b || b') (m;; k)%act c Q.
Proof.
  intros (c1 & out1 & E1 & A1 & H1) Hk. destruct (Hk c1 H1) as (c2 & out2 & E2 & A2 & H2). exists c2, (out1 ++ out2).
  split; [|rewrite asserts_app, A1, A2; auto]. unfold andThen. rewrite E1. cbn. rewrite E2. reflexivity.
Qed.

Lemma does_andThen (m k : CAction) c P Q : does m c P -> (forall c', P c' -> does k c' Q) -> does (m;; k)%act c Q.
Proof. apply (ends_andThen false false). Qed.

(** The ASSERT can only fail in the first part. *)
Lemma ends_first b (m k : CAction) c P Q : ends b m c P -> (forall c', P c' -> does k c' Q) -> ends b (m;; k)%act c Q.
Proof. rewrite <- (orb_false_r b) at 2. apply ends_andThen. Qed.

Lemma ends_weaken b m c (P Q : Conductor -> Prop) : ends b m c P -> (forall c', P c' -> Q c') -> ends b m c Q.
Proof. intros (c' & out & E & A & HP) HQ. exists c', out. auto. Qed.

Lemma does_weaken m c (P Q : Conductor -> Prop) : does m c P -> (forall c', P c' -> Q c') -> does m c Q.
Proof. apply ends_weaken. Qed.

Lemma does_on_state k c P : does (k c) c P -> does (on_state k) c P.
Proof. exact (fun Hk => Hk). Qed.

Lemma on_pc_does id m c P : sound c -> (forall p, does (m p) c P) -> P c -> does (on_pc id m) c P.
Proof.
  intros Hs Hm HP. apply does_on_state. destruct (om_find id (peer_connections_ c)) as [p|] eqn:E; [|apply does_skip, HP].
  destruct (sound_live _ Hs _ _ E) as [p' ->]. apply Hm.
Qed.

(** The ASSERT fails when there is a connection for the id already. *)
Lemma create_does id then_ c P : sound c ->
  (forall c', connected c' = {[id]} ∪ connected c -> sound c' -> does (then_ true) c' P) ->
  ends (bool_decide (id ∈ connected c)) (CreatePeerConnection client id true true camera then_) c P.
Proof.
  intros Hs Hk. set (Q c' := peer_connections_ c' = om_set Z.ltb id (Some (next_pc c)) (peer_connections_ c)).
  change (CreatePeerConnection client id true true camera then_ c) with
    (CreatePeerConnection client id true true camera then_ c).
  unfold CreatePeerConnection, on_state, ends. cbn zeta.
  eapply (ends_first _ _ _ c (fun c' => c' = c)).
  { destruct (om_find id (peer_connections_ c)) as [p|] eqn:E.
    - destruct (sound_live _ Hs _ _ E) as [p' ->]. rewrite bool_decide_eq_true_2 by (apply connected_find; rewrite E; eauto).
      exists c, [ASSERT_failed]. auto.
    - rewrite bool_decide_eq_false_2 by (rewrite connected_find, E; intros [? [=]]). apply does_skip. reflexivity. }
  intros ? ->.
  eapply does_andThen; [apply does_tell with (P := fun c' => c' = c); reflexivity|]. intros ? ->.
  eapply does_andThen; [apply does_modify with (P := Q); reflexivity|]. intros c1 H1.
  eapply does_andThen with (P := Q).
  - destruct (id =? x); [|apply does_skip, H1]. eapply does_andThen with (P := Q).
    + apply does_on_state. destruct (active_stream_ c1); [apply does_skip, H1|].
      eapply does_andThen; [apply does_modify with (P := Q), H1|]. intros c2 H2. apply does_tell, H2.
    + intros c2 H2. change (does (tell (Pc_AddStream (next_pc c));; tell (Pc_CreateOffer (next_pc c)))%act c2 Q).
      eapply does_andThen; [apply does_tell, H2|]. intros c3 H3. apply does_tell, H3.
  - intros c' E. apply Hk; [|destruct Hs as [Hs Hl]; split; rewrite E].
    + apply set_eq. intros j. rewrite elem_of_union, elem_of_singleton, !connected_find, E, (find_set Z.ltb).
      destruct (decide (j = id)); [split; eauto | tauto].
    + apply increasing_set; [exact _ | exact Hs].
    + intros j p. rewrite (find_set Z.ltb). destruct (decide (j = id)); [intros [= <-]; eauto | apply Hl].
Qed.

Lemma close_all_does pcs c P : (forall id p, (id, p) ∈ pcs -> is_Some p) -> P c -> does (close_all client pcs) c P.
Proof.
  intros Hpcs HP. induction pcs as [|[id p] pcs IH]; cbn [close_all]; [apply does_skip, HP|].
  eapply does_andThen; [apply does_tell with (P := fun c' => c' = c); reflexivity|]. intros ? ->.
  destruct (Hpcs id p ltac:(apply elem_of_cons; auto)) as [p' ->].
  eapply does_andThen; [apply (does_tell (Pc_Close p') c (fun c' => c' = c)); reflexivity|]. intros ? ->.
  apply IH. intros id' p1 Hp. eapply Hpcs, elem_of_cons. right. exact Hp.
Qed.

Lemma delete_does id c : sound c ->
  does (DeletePeerConnection client id) c (fun c' => sound c' /\ connected c' = if id =? x then ∅ else connected c ∖ {[id]}).
Proof.
  intros Hs. unfold DeletePeerConnection. destruct (id =? x).
  - eapply does_andThen; [apply (does_modify _ _ (fun c' => peer_connections_ c' = peer_connections_ c)); reflexivity|]. intros c1 E1.
    eapply does_andThen with (P := fun _ => True).
    + apply does_on_state, close_all_does; [|exact I]. intros j p. rewrite E1, (increasing_elem Z.ltb) by apply Hs. apply Hs.
    + intros c2 _. apply does_modify. split; [split; [constructor | discriminate] | reflexivity].
  - eapply does_andThen with (P := fun c' => c' = c); [apply on_pc_does; [exact Hs | intros p; apply does_tell; reflexivity | reflexivity]|].
    intros ? ->. apply does_modify. split; [split|].
    + apply increasing_erase, Hs.
    + intros j p. cbn. rewrite find_erase. destruct (decide (j = id)); [discriminate | apply Hs].
    + apply set_eq. intros j. rewrite elem_of_difference, elem_of_singleton, !connected_find. cbn. rewrite find_erase.
      destruct (decide (j = id)); [split; [intros [? [=]] | tauto] | tauto].
Qed.

(** *** Messages *)

Lemma publisher_does room f msg j id c P : sound c -> msg <> chars "BYE" -> Conductor.Reader_parse msg = Some j ->
  GetStringFromJsonObject j "type" = Some (chars "publisher") -> GetIntFromJsonObject j "clientID" = Some id ->
  (forall c', connected c' = {[f]} ∪ connected c -> sound c' -> P c') ->
  ends (bool_decide (f ∈ connected c)) (OnMessageFromChannel client room f msg true camera) c P.
Proof.
  intros Hs0 Hb Ep Et Ei HP. unfold OnMessageFromChannel. rewrite decide_False by exact Hb. rewrite Ep, Et, Ei. cbn -[CreatePeerConnection decide].
  rewrite decide_False by discriminate. rewrite decide_True by reflexivity. apply create_does; [exact Hs0|]. intros c' Hc Hs.
  eapply does_andThen; [apply does_tell with (P := fun c1 => c1 = c'); reflexivity|]. intros ? ->. apply does_tell, HP; assumption.
Qed.

Lemma offline_does room f msg j id c : sound c -> msg <> chars "BYE" -> Conductor.Reader_parse msg = Some j ->
  GetStringFromJsonObject j "type" = Some (chars "offline") -> GetIntFromJsonObject j "clientID" = Some id -> 0 <= id < 2 ^ 31 ->
  does (OnMessageFromChannel client room f msg true camera) c
    (fun c' => sound c' /\ connected c' = if id =? x then ∅ else connected c ∖ {[id]}).
Proof.
  intros Hs Hb Ep Et Ei Hr. unfold OnMessageFromChannel. rewrite decide_False by exact Hb. rewrite Ep, Et, Ei. cbn -[DeletePeerConnection decide].
  rewrite !decide_False by discriminate. rewrite decide_True by auto.
  eapply does_andThen; [apply does_tell with (P := fun c1 => c1 = c); reflexivity|]. intros ? ->.
  replace (u32 id) with id by (unfold u32; rewrite Z.mod_small; lia). apply delete_does, Hs.
Qed.

(** Messages that are no announcements leave the connections as they are. *)
Lemma other_does room f msg c : sound c ->
  (forall j type, Conductor.Reader_parse msg = Some j -> GetStringFromJsonObject j "type" = Some type ->
    type <> chars "publisher" /\ type <> chars "offline" /\ type <> chars "unpublisher") ->
  does (OnMessageFromChannel client room f msg true camera) c (fun c' => sound c' /\ connected c' = connected c).
Proof.
  intros Hs Hn. assert (Hc : sound c /\ connected c = connected c) by (split; [exact Hs | reflexivity]).
  unfold OnMessageFromChannel. destruct (decide (msg = _)); [apply does_skip, Hc|].
  destruct (Conductor.Reader_parse msg) as [j|]; [|apply does_skip, Hc].
  assert (Ht : let type := default [] (GetStringFromJsonObject j "type") in
    type <> chars "publisher" /\ ~ (type = chars "offline" \/ type = chars "unpublisher")).
  { cbn zeta. destruct (GetStringFromJsonObject j "type") as [type|] eqn:Et; cbn [default].
    - destruct (Hn j type eq_refl Et) as (? & ? & ?). tauto.
    - split; [discriminate | intros [|]; discriminate]. }
  revert Ht. generalize (default [] (GetStringFromJsonObject j "type")). intros type [Hp Ho].
  cbn zeta. destruct (decide (type = chars "online")); [apply does_skip, Hc|].
  rewrite (decide_False (P := type = chars "publisher")) by exact Hp. rewrite (decide_False (P := _ \/ _)) by exact Ho.
  destruct (decide _).
  - destruct (GetStringFromJsonObject j "sdp"); [|apply does_skip, Hc]. destruct (CreateSessionDescription _ _); [|apply does_skip, Hc].
    apply on_pc_does; [exact Hs | | exact Hc]. intros p.
    eapply does_andThen; [apply does_tell with (P := fun c1 => c1 = c); reflexivity|]. intros ? ->.
    destruct (is_offer _); [|apply does_skip, Hc].
    eapply does_andThen; [apply does_modify with (P := fun c1 => peer_connections_ c1 = peer_connections_ c); reflexivity|].
    intros c1 E. apply does_tell. unfold connected. rewrite E. destruct Hs. split; [split; rewrite E; assumption | reflexivity].
  - destruct (GetStringFromJsonObject j "sdpMid"), (GetIntFromJsonObject j "sdpMLineIndex"), (GetStringFromJsonObject j "candidate");
      try (apply does_skip, Hc).
    destruct (CreateIceCandidate _ _ _); [|apply does_skip, Hc].
    apply on_pc_does; [exact Hs | intros p; apply does_tell, Hc | exact Hc].
Qed.

(** ** What the manager's calls become *)

Context `{CryptoLib, JsonCpp}.

(** The client's observer is told what its packets say (as in [ClientSession]). *)
Definition told (call : server_call) : list event :=
  match call with
  | Server_onChannelMsg ch f t m => if t =? x then [Observer_OnMessageFromChannel ch (u32 f) (render m)] else []
  | Server_onJoinChannelResult id ch ret => if (id =? x) && negb (u32 ret =? 0) then [Observer_OnJoinedChannel ch] else []
  | Server_onLeaveChannelResult id ch ret => if (id =? x) && negb (u32 ret =? 0) then [Observer_OnLeaveChannel ch] else []
  | Media_Library _ _ _ => []
  end.

Definition plain_id (id : Z) : Prop := 0 <= id < 2 ^ 31.

(** What the two JSON libraries make of a notice: the client reads what the server wrote. *)
Definition reads (m : notice) : Prop :=
  render m <> chars "BYE" /\
  match m with
  | Publisher id | Offline id => exists j, Conductor.Reader_parse (render m) = Some j
      /\ GetStringFromJsonObject j "type" = Some (chars (match m with Publisher _ => "publisher" | _ => "offline" end))
      /\ GetIntFromJsonObject j "clientID" = Some id
  | Online _ | Signal _ => forall j type, Conductor.Reader_parse (render m) = Some j -> GetStringFromJsonObject j "type" = Some type ->
      type <> chars "publisher" /\ type <> chars "offline" /\ type <> chars "unpublisher"
  end.

(** A call is about small ids, and what it tells the client is in the one channel the
    client is in, readable and successful. *)
Definition fit (name : AString) (call : server_call) : Prop :=
  match call with
  | Server_onChannelMsg ch f t m => t = x -> ch = name /\ plain_id f /\ reads m
      /\ match m with Publisher id | Offline id => plain_id id | _ => True end
  | Server_onJoinChannelResult id ch ret | Server_onLeaveChannelResult id ch ret => id = x -> ch = name /\ u32 ret <> 0
  | Media_Library _ _ _ => True
  end.

(** Those a client should be connected to: itself from joining to leaving, and the
    publishers it has been told of that have not left since. *)
Definition announce (pubs : gset Z) (call : server_call) : gset Z :=
  match call with
  | Server_onChannelMsg _ f t (Publisher _) => if t =? x then {[f]} ∪ pubs else pubs
  | Server_onChannelMsg _ _ t (Offline id) => if t =? x then pubs ∖ {[id]} else pubs
  | Server_onJoinChannelResult id _ _ => if id =? x then {[x]} ∪ pubs else pubs
  | Server_onLeaveChannelResult id _ _ => if id =? x then ∅ else pubs
  | _ => pubs
  end.

Definition announced : list server_call -> gset Z := foldl announce ∅.

(** Whether the call announces one of them again. *)
Definition announces_again (pubs : gset Z) (call : server_call) : bool :=
  match call with
  | Server_onChannelMsg _ f t (Publisher _) => (t =? x) && bool_decide (f ∈ pubs)
  | Server_onJoinChannelResult id _ _ => (id =? x) && bool_decide (x ∈ pubs)
  | _ => false
  end.

Fixpoint announced_again (pubs : gset Z) (calls : list server_call) : bool :=
  match calls with
  | [] => false
  | call :: calls => announces_again pubs call || announced_again (announce pubs call) calls
  end.

(** The connections are those to them. *)
Definition serves (pubs : gset Z) (c : Conductor) : Prop := sound c /\ connected c = pubs.

Lemma call_does name known pubs call c : fit name call -> timely_call name x known call -> serves pubs c ->
  ends (announces_again pubs call) (observe_all client true camera (told call)) c (serves (announce pubs call)).
Proof.
  intros Hf Ht [Hs Hc].
  assert (Hone : forall b e Q, ends b (observe client true camera e) c Q -> ends b (observe_all client true camera [e]) c Q).
  { intros b e Q He. cbn [observe_all]. eapply ends_first; [exact He|]. intros c' Hc'. apply does_skip, Hc'. }
  destruct call as [ch f t m|id ch ret|id ch ret|p a k]; cbn [told announce announces_again fit timely_call] in *.
  - destruct (Z.eqb_spec t x) as [->|Hne]; [|destruct m; apply does_skip; split; assumption].
    destruct (Hf eq_refl) as (-> & Hpf & [Hb Hr] & Hid). apply Hone. cbn [observe].
    replace (u32 f) with f by (unfold u32, plain_id in *; rewrite Z.mod_small; lia).
    destruct m as [id|id|id|s].
    + eapply ends_weaken; [apply other_does; [exact Hs | exact Hr]|]. intros c' [Hs' E]. split; [exact Hs' | rewrite E; exact Hc].
    + destruct Hr as (j & Ej & Et & Ei). eapply ends_weaken; [eapply offline_does; eassumption|].
      intros c' [Hs' E]. specialize (Ht eq_refl). split; [exact Hs'|]. rewrite E.
      rewrite (proj2 (Z.eqb_neq id x)) by exact Ht. rewrite Hc. reflexivity.
    + destruct Hr as (j & Ej & Et & Ei). rewrite <- Hc. cbn [andb].
      eapply publisher_does; [eassumption..|]. intros c' E Hs'. split; [exact Hs' | exact E].
    + eapply ends_weaken; [apply other_does; [exact Hs | exact Hr]|]. intros c' [Hs' E]. split; [exact Hs' | rewrite E; exact Hc].
  - destruct (Z.eqb_spec id x) as [->|Hne]; [|apply does_skip; split; assumption]. destruct (Hf eq_refl) as [-> Hr].
    rewrite (proj2 (Z.eqb_neq _ _)) by exact Hr. rewrite <- Hc. cbn [andb negb]. apply Hone, create_does; [exact Hs|].
    intros c' E Hs'. apply does_tell. split; [exact Hs' | exact E].
  - destruct (Z.eqb_spec id x) as [->|Hne]; [|apply does_skip; split; assumption]. destruct (Hf eq_refl) as [-> Hr].
    rewrite (proj2 (Z.eqb_neq _ _)) by exact Hr. apply Hone. cbn [observe]. unfold OnLeaveChannel.
    eapply does_andThen; [apply delete_does, Hs|]. rewrite Z.eqb_refl. intros c1 [Hs1 E1].
    eapply does_andThen with (P := serves ∅); [apply does_tell; split; [exact Hs1 | exact E1]|].
    intros c2 Hc2. apply does_tell, Hc2.
  - apply does_skip. split; assumption.
Qed.
End Client.

Section Roster.
Context `{ClientJson, SdpParsers} (client : ConnectionClient.ConnectionClient) (camera : bool).
Context `{CryptoLib, JsonCpp} (env : Env).
Variables (depth : nat) (recover : list Z -> list Z -> option (list (list Z))) (posts : cMediaEvent -> Prop).
#[local] Notation x := (GetID client).

Lemma observe_app b b' es es' c P Q : ends b (observe_all client true camera es) c P ->
  (forall c', P c' -> ends b' (observe_all client true camera es') c' Q) -> ends (b || b') (observe_all client true camera (es ++ es')) c Q.
Proof.
  revert b c. induction es as [|e es IH]; intros b c He Hk.
  - destruct He as (c' & out & [= <- <-] & <- & HP). apply Hk, HP.
  - destruct He as (c' & out & E & A & HP). cbn [observe_all app] in *. unfold andThen in E.
    apply bind_Some in E as ([c1 o1] & E1 & E). apply bind_Some in E as ([c2 o2] & E2 & [= <- <-]).
    rewrite asserts_app in A. rewrite <- A, <- orb_assoc.
    eapply ends_andThen; [exists c1, o1; split; [exact E1 | split; [reflexivity | exact (eq_refl c1)]]|]. intros ? <-.
    apply IH; [|exact Hk]. exists c2, o2. auto.
Qed.

Lemma hear_covers name known pubs call : fit client name call -> timely_call name x known call ->
  pubs ∖ {[x]} ⊆ known ∖ {[x]} -> announce client pubs call ∖ {[x]} ⊆ hear name x known call ∖ {[x]}.
Proof.
  intros Hf Ht Hp. destruct call as [ch f t [id|id|id|s]|id ch ret|id ch ret|p a k]; cbn in *; try exact Hp.
  - destruct (decide _); set_solver.
  - destruct (Z.eqb_spec t x) as [E|Hne]; [destruct (Hf E) as [-> _]; rewrite decide_True by auto | rewrite decide_False by tauto]; set_solver.
  - destruct (Z.eqb_spec t x) as [E|Hne]; [|exact Hp]. destruct (Hf E) as [-> _]. destruct (Ht eq_refl E) as (-> & Hk & Hx). set_solver.
  - destruct (Z.eqb_spec id x) as [E|Hne]; set_solver.
  - destruct (Z.eqb_spec id x) as [E|Hne]; [set_solver | rewrite decide_False by tauto; exact Hp].
Qed.

Lemma calls_do name calls : Forall (fit client name) calls -> forall known pubs c, timely name x known calls ->
  pubs ∖ {[x]} ⊆ known ∖ {[x]} -> serves pubs c ->
  ends (announced_again client pubs calls) (observe_all client true camera (flat_map (told client) calls)) c
    (serves (foldl (announce client) pubs calls))
  /\ foldl (announce client) pubs calls ∖ {[x]} ⊆ hears name x known calls ∖ {[x]}.
Proof.
  induction 1 as [|call calls Hf _ IH]; intros known pubs c Ht Hp Hc; [split; [apply does_skip, Hc | exact Hp]|].
  destruct Ht as [Ht1 Ht]. cbn [flat_map foldl hears announced_again].
  pose proof (hear_covers name known pubs call Hf Ht1 Hp) as Hp1. split.
  - eapply observe_app; [eapply call_does; eassumption|]. intros c1 Hc1. exact (proj1 (IH _ _ c1 Ht Hp1 Hc1)).
  - pose proof (call_does client camera name known pubs call c Hf Ht1 Hc) as (c1 & out & _ & _ & Hc1).
    exact (proj2 (IH _ _ c1 Ht Hp1 Hc1)).
Qed.

(** C15. Whatever the manager does, in any order, and tells a client of the one channel it is
    in, the client's Conductor has a peer connection for exactly itself, while it is in the
    channel, and those it was told are publishers and not that they left; all of them are
    members of the channel.  The ASSERT in CreatePeerConnection fails exactly if somebody is
    announced who is connected already, which happens ([announced_twice]): there a debug
    build ends, and a release build goes on as stated.  This is for ids below 2^31, a JSON
    library of the client that reads what the server's writes ([fit]), and a factory that
    makes every connection it is asked for; where it does not, a null pointer is used
    ([null_connection_used]). *)
Theorem connections_to_members name w0 mgr w calls :
  mgr_run env depth recover posts (cManager_ctor, w0) calls (mgr, w) -> Forall (fit client name) calls ->
  exists c out, observe_all client true camera (flat_map (told client) calls) Conductor_ctor = Some (c, out)
    /\ sound c /\ connected c = announced client calls
    /\ announced client calls ∖ {[x]} ⊆ members name (rooms mgr)
    /\ asserts out = announced_again client ∅ calls.
Proof.
  intros Hr Hf.
  assert (Ht : tidy (rooms cManager_ctor)) by exact start_tidy.
  assert (Hi : informed (rooms cManager_ctor) name x ∅) by (unfold informed, members; cbn; destruct (decide _); reflexivity).
  pose proof (run_timely env depth recover posts _ _ _ Hr Ht _ _ _ Hi) as Htime.
  pose proof (run_informed env depth recover posts _ _ _ Hr Ht _ _ _ Hi) as Hend. cbn in Hend.
  destruct (calls_do name calls Hf ∅ ∅ Conductor_ctor Htime) as [(c & out & E & A & Hs & Hc) Hsub]; [set_solver | |].
  { split; [split; [exact (increasing_nil Z.ltb) | intros id p E; discriminate E] | reflexivity]. }
  exists c, out. split; [exact E|]. split; [exact Hs|]. split; [exact Hc|]. split; [|exact A]. unfold announced.
  unfold informed in Hend. destruct (decide _); set_solver.
Qed.
End Roster.

(** ** A sample *)

#[local] Existing Instance Sample.lib.
#[local] Existing Instance Sample.laws.
#[local] Existing Instance toy_json.

(** A reader of the announcements of three clients. *)
Definition sample_notices : list notice := flat_map (fun id => [Publisher id; Offline id]) [1; 2; 3].
Definition sample_client_json : ClientJson := {|
  Conductor.Json_Value := notice;
  Conductor.Reader_parse := fun msg => List.find (fun n => bool_decide (msg = render n)) sample_notices;
  GetStringFromJsonObject := fun n _ => Some (chars (match n with Publisher _ => "publisher" | _ => "offline" end));
  GetIntFromJsonObject := fun n _ => match n with Publisher id | Offline id => Some id | _ => None end;
  Conductor.StyledWriter_write := fun _ => []
|}.
#[local] Existing Instance sample_client_json.
Definition sample_parsers : SdpParsers := {|
  SessionDescription := unit; CreateSessionDescription := fun _ _ => Some tt; is_offer := fun _ => true;
  IceCandidate := unit; CreateIceCandidate := fun _ _ _ => Some tt
|}.
#[local] Existing Instance sample_parsers.

Definition sample_member (id : Z) : ConnectionClient.ConnectionClient :=
  (ConnectionClient_ctor (fun n => repeat 0 n)) <| m_ClientID := id |>.

(** Calls between the three that say who is there. *)
Definition among_three (call : server_call) : bool :=
  match call with
  | Server_onChannelMsg ch f t m => bool_decide (ch = channel) && bool_decide (f ∈ [1; 2; 3])
      && match m with Online id | Offline id | Publisher id => bool_decide (id ∈ [1; 2; 3]) | Signal _ => false end
  | Server_onJoinChannelResult _ ch ret | Server_onLeaveChannelResult _ ch ret => bool_decide (ch = channel) && (ret =? 1)
  | Media_Library _ _ _ => true
  end.

Lemma among_three_fit client calls : forallb among_three calls = true -> Forall (fit client channel) calls.
Proof.
  intros Hall. apply Forall_forall. intros call Hin. apply list_elem_of_In in Hin.
  rewrite forallb_forall in Hall. specialize (Hall call Hin). clear Hin.
  assert (Hid : forall id, id ∈ [1; 2; 3] -> id = 1 \/ id = 2 \/ id = 3) by (intros id; rewrite !elem_of_cons, elem_of_nil; tauto).
  destruct call as [ch f t m|id ch ret|id ch ret|]; cbn in Hall |- *; [|intros _..|exact I].
  - intros _. apply andb_prop in Hall as [[Hc%bool_decide_eq_true Hf%bool_decide_eq_true]%andb_prop Hm].
    assert (Hpf : plain_id f) by (destruct (Hid f Hf) as [->|[->| ->]]; split; reflexivity || discriminate).
    split; [exact Hc|]. split; [exact Hpf|].
    destruct m as [id|id|id|s]; [apply bool_decide_eq_true in Hm; destruct (Hid id Hm) as [->|[->| ->]]..|discriminate].
    all: split; [split; [discriminate|]|first [exact I | split; [discriminate | reflexivity]]].
    all: first [eexists; split; [vm_compute; reflexivity|]; split; reflexivity | intros j type E; vm_compute in E; discriminate E].
  - apply andb_prop in Hall as [->%bool_decide_eq_true ->%Z.eqb_eq]. split; [reflexivity | discriminate].
  - apply andb_prop in Hall as [->%bool_decide_eq_true ->%Z.eqb_eq]. split; [reflexivity | discriminate].
Qed.

Definition sample_outcome_t : Type := option (cManager * world * list server_call).

(** The connection of a member is ready. *)
Definition make_ready (id : Z) (r : sample_outcome_t) : sample_outcome_t :=
  '(mgr, w, calls) ← r;
  '(mgr, w, calls') ← media_event sample_env 1 (fun _ _ => None) channel id id
     (fun c => Some (c, [NotifyEvent CONN_READY ""])) mgr w;
  Some (mgr, w, calls ++ calls').

(** An event is posted and the queue worked off. *)
Definition post_and_drain (event : cMediaEvent) (r : sample_outcome_t) : sample_outcome_t :=
  '(mgr, w, calls) ← r;
  '(mgr, w, calls') ← drain 1 (addEvent event mgr) w;
  Some (mgr, w, calls ++ calls').

(** Three clients join, the first two become ready, the third leaves. *)
Definition sample_talk : sample_outcome_t :=
  post_and_drain (cMediaEvent_of 3 channel LEAVE) (make_ready 2 (make_ready 1
    (post_and_drain (cMediaEvent_of 3 channel JOIN) (post_and_drain (cMediaEvent_of 2 channel JOIN)
      (post_and_drain (cMediaEvent_of 1 channel JOIN) (Some (cManager_ctor, sample_world, []))))))).

Definition sample_run (r : sample_outcome_t) : Prop := forall mgr w calls, r = Some (mgr, w, calls) ->
  mgr_run sample_env 1 (fun _ _ => None) (fun _ => True) (cManager_ctor, sample_world) calls (mgr, w).

Lemma make_ready_run id r : sample_run r -> sample_run (make_ready id r).
Proof.
  intros Hr mgr w calls E. apply bind_Some in E as ([[mgr1 w1] calls1] & -> & E).
  apply bind_Some in E as ([[mgr2 w2] calls2] & E2 & [= <- <- <-]).
  eapply mgr_run_app; [apply Hr; reflexivity|]. rewrite <- (app_nil_r calls2). eapply run_step; [eapply step_media, E2 | constructor].
Qed.

Lemma post_and_drain_run event r : sample_run r -> sample_run (post_and_drain event r).
Proof.
  intros Hr mgr w calls E. apply bind_Some in E as ([[mgr1 w1] calls1] & -> & E).
  apply bind_Some in E as ([[mgr2 w2] calls2] & E2 & [= <- <- <-]).
  eapply mgr_run_app; [apply Hr; reflexivity|]. eapply (run_step _ _ _ _ _ []); [apply (step_post _ _ _ _ event); exact I|].
  exact (drain_run _ _ _ _ _ _ _ E2).
Qed.

Lemma sample_talk_run : sample_run sample_talk.
Proof.
  unfold sample_talk. do 1 apply post_and_drain_run. do 2 apply make_ready_run. do 3 apply post_and_drain_run.
  intros mgr w calls [= <- <- <-]. constructor.
Qed.

(** The members, and for each client those it has heard are publishers and its connections. *)
Definition sample_view (r : sample_outcome_t) : option (list Z * list (list Z * option (list Z))) :=
  '(mgr, _, calls) ← r;
  Some (elements (members channel (rooms mgr)), map (fun id =>
    let client := sample_member id in
    (elements (announced client calls ∖ {[id]}),
     '(c, _) ← observe_all client true true (flat_map (told client) calls) Conductor_ctor; Some (elements (connected c)))) [1; 2; 3]).

Lemma sample_viewed : sample_view sample_talk = Some ([2; 1], [([2], Some [2; 1]); ([1], Some [2; 1]); ([], Some [])]).
Proof. vm_compute. reflexivity. Qed.

Lemma sample_fits : match sample_talk with Some (_, _, calls) => forallb among_three calls = true | None => False end.
Proof. vm_compute. reflexivity. Qed.

Example connections_to_members_witness : exists mgr w calls c out, sample_talk = Some (mgr, w, calls)
  /\ observe_all (sample_member 1) true true (flat_map (told (sample_member 1)) calls) Conductor_ctor = Some (c, out)
  /\ connected c = announced (sample_member 1) calls /\ announced (sample_member 1) calls ∖ {[1]} ⊆ members channel (rooms mgr)
  /\ asserts out = announced_again (sample_member 1) ∅ calls.
Proof.
  pose proof sample_talk_run as R. pose proof sample_fits as F. destruct sample_talk as [[[mgr w] calls]|]; [|destruct F].
  destruct (connections_to_members (sample_member 1) true sample_env 1 (fun _ _ => None) (fun _ => True) channel sample_world mgr w calls)
    as (c & out & E & _ & Hc & Hm & Ha); [exact (R _ _ _ eq_refl) | exact (among_three_fit _ _ F) |].
  exists mgr, w, calls, c, out. split; [reflexivity|]. split; [exact E|]. split; [exact Hc|]. split; [exact Hm | exact Ha].
Defined.

(** ** What goes wrong *)

(** A factory that fails leaves a null pointer in the map, which the publisher's leave uses;
    the client's own connection is used at once. *)
Lemma null_connection_used (client : ConnectionClient.ConnectionClient) camera room c :
  OnJoinedChannel client room false camera c = None
  /\ forall id room' f, id <> GetID client -> plain_id id -> reads (Offline id) ->
       exists c' out, CreatePeerConnection client id true false camera (fun _ => skip) c = Some (c', out)
         /\ OnMessageFromChannel client room' f (render (Offline id)) true camera c' = None.
Proof.
  split.
  - unfold OnJoinedChannel, CreatePeerConnection, on_state. cbn zeta. rewrite Z.eqb_refl. unfold AddStreams, on_state, andThen.
    destruct (om_find (GetID client) (peer_connections_ c)) as [[]|]; cbn; destruct (active_stream_ c); reflexivity.
  - intros id room' f Hid Hp [Hb (j & Ej & Et & Ei)].
    eexists _, _. split.
    { unfold CreatePeerConnection, on_state. cbn zeta. rewrite (proj2 (Z.eqb_neq _ _)) by exact Hid.
      instantiate (1 := (if om_find id (peer_connections_ c) is Some (Some _) then [ASSERT_failed] else []) ++ _).
      unfold andThen. destruct (om_find id (peer_connections_ c)) as [[]|]; reflexivity. }
    unfold OnMessageFromChannel. rewrite decide_False by exact Hb. rewrite Ej, Et, Ei. cbn -[DeletePeerConnection decide om_set].
    rewrite !decide_False by discriminate. rewrite decide_True by auto.
    replace (u32 id) with id by (unfold u32, plain_id in *; rewrite Z.mod_small; lia).
    unfold DeletePeerConnection. rewrite (proj2 (Z.eqb_neq _ _)) by exact Hid. unfold andThen, on_pc, on_state. cbn -[om_set].
    rewrite (find_set Z.ltb), decide_True by reflexivity. reflexivity.
Qed.

(** Two members that become ready are announced to each other twice: the connection for the
    second announcement fails an ASSERT, and in a release build takes the place of the one that
    is there, which nobody closes. *)
Definition made_and_closed (id : Z) (outs : list conductor_out) : nat * nat :=
  (List.length (List.filter (fun o => match o with Factory_CreatePeerConnection i _ => i =? id | _ => false end) outs),
   List.length (List.filter (fun o => match o with Pc_Close _ => true | _ => false end) outs)).

Lemma announced_twice :
  ('(_, _, calls) ← make_ready 2 (make_ready 1 (post_and_drain (cMediaEvent_of 2 channel JOIN)
      (post_and_drain (cMediaEvent_of 1 channel JOIN) (Some (cManager_ctor, sample_world, [])))));
   '(c, out) ← observe_all (sample_member 1) true true (flat_map (told (sample_member 1)) calls) Conductor_ctor;
   Some (elements (connected c), made_and_closed 2 out, asserts out, announced_again (sample_member 1) ∅ calls))
  = Some ([2; 1], (2, 0)%nat, true, true).
Proof. vm_compute. reflexivity. Qed.
