(* ===== verification/HandleIdentity.v ===== *)
(** * HandleIdentity: a client speaks for itself only

    Every request of a handle names the handle's own id, whatever bytes the client sent and
    whatever state the handle is in: channel and authenticator are told who asks by the
    server, not by the packet. *)

From S2P Require Import Prelude Bytes StringUtils ByteBuffer Cipher Framing Packetizer Messages ClientHandle HandleFacts.
#[local] Open Scope act_scope.

(** The request is made in the name of [id]. *)
Definition from (id : Z) (r : request) : Prop :=
  match r with
  | Authenticator_Authenticate i _ _ | Manager_doUserJoinChannel i _ | Manager_doUserLeftChannel i _
  | Manager_doUserOffline i | Manager_OnMsgFromPeer _ i _ _ => i = id
  | Link_Send _ => True
  end.

Section Identity.
Context `{PolarSSL, ServerKeys} (fresh : nat -> list Z).
#[local] Notation Action := (Act cClientHandle request).
#[local] Notation Handle := (Handler cClientHandle request).

Section Requests.
(** What a handle with a given id may ask for. *)
Variable Q : Z -> request -> Prop.

(** What [m] does from [c] keeps the id and asks for nothing else. *)
Definition own (c : cClientHandle) (r : option (cClientHandle * list request)) : Prop :=
  forall c' out, r = Some (c', out) -> m_UniqueID c' = m_UniqueID c /\ Forall (Q (m_UniqueID c)) out.

Definition speaks (m : Action) : Prop := forall c, own c (m c).

Lemma own_later c c1 r : m_UniqueID c1 = m_UniqueID c -> own c1 r -> own c r.
Proof. intros E Hr c' out Er. rewrite <- E. exact (Hr c' out Er). Qed.

Lemma speaks_skip : speaks skip.
Proof. intros c c' out [= <- <-]. auto. Qed.

Lemma speaks_modify f : (forall c, m_UniqueID (f c) = m_UniqueID c) -> speaks (modify f).
Proof. intros Hf c c' out [= <- <-]. auto. Qed.

Lemma speaks_on_protocol f : speaks (modify (on_protocol f)).
Proof. apply speaks_modify. reflexivity. Qed.

Lemma speaks_request r : (forall id, Q id (r id)) -> speaks (request_id r).
Proof. intros Hr c c' out [= <- <-]. auto. Qed.

Lemma speaks_tell r : (forall id, Q id r) -> speaks (tell r).
Proof. intros Hr c c' out [= <- <-]. split; [reflexivity | repeat constructor; apply Hr]. Qed.

Lemma speaks_andThen m k : speaks m -> speaks k -> speaks (m ;; k).
Proof.
  intros Hm Hk c c' out (c1 & o1 & o2 & E1 & E2 & ->)%andThen_inv.
  destruct (Hm _ _ _ E1) as [I1 F1]. destruct (Hk _ _ _ E2) as [I2 F2]. rewrite I1 in *. split; [exact I2 | apply Forall_app; auto].
Qed.

Lemma speaks_on_state k : (forall c, speaks (k c)) -> speaks (on_state k).
Proof. intros Hk c. apply Hk. Qed.

Lemma speaks_chunks size process data : (forall x, speaks (process x)) -> speaks (in_chunks size process data).
Proof.
  intros Hp. unfold in_chunks. generalize (List.length data). intros fuel. revert data.
  induction fuel as [|fuel IH]; intros data; cbn [chunk_loop]; [apply speaks_skip|].
  destruct (_ =? _)%nat; [apply speaks_skip|]. apply speaks_andThen; [apply Hp | apply IH].
Qed.

Create HintDb speaks discriminated.
#[local] Hint Resolve speaks_skip speaks_on_protocol speaks_andThen : speaks.

(** *** Sending *)

Lemma speaks_SendData data : speaks (SendData data).
Proof.
  assert (Hs : forall x, speaks (cClientHandle_SendData x)).
  { intros x. apply speaks_modify. intros c. destruct (m_HasSentDC c); reflexivity. }
  intros c. unfold SendData. destruct (m_IsEncrypted _); [|apply Hs].
  apply speaks_chunks. clear c. intros x c c' out E. unfold send_chunk in E. apply bind_Some in E as ([x1 e] & _ & E).
  revert E. apply (speaks_andThen _ _ (speaks_on_protocol _) (Hs x1)).
Qed.

Lemma speaks_packet t fs : speaks (cPacketizer t fs).
Proof.
  intros c c' out E. unfold cPacketizer in E. apply bind_Some in E as (o1 & _ & E). apply bind_Some in E as (o2 & _ & E).
  revert E. apply (speaks_andThen _ SendPacket (speaks_on_protocol _)).
  clear. intros c c' out E. unfold SendPacket in E. cbv zeta in E. apply bind_Some in E as ([[data l] o] & _ & E).
  revert E. apply (speaks_andThen _ _ (speaks_on_protocol _) (speaks_SendData data)).
Qed.
#[local] Hint Resolve speaks_packet : speaks.

Lemma speaks_SendDisconnect r : speaks (SendDisconnect r).
Proof.
  intros c. unfold SendDisconnect. destruct (m_HasSentDC c); [apply speaks_skip|]. apply speaks_andThen; [|apply speaks_modify; reflexivity].
  intros c1. unfold protocol_SendDisconnect. destruct (p_State (m_Protocol c1)) as [|[[|[]|]|[|[]|]|]|];
    first [apply speaks_packet | apply speaks_skip].
Qed.
End Requests.

#[local] Hint Resolve speaks_skip speaks_on_protocol speaks_packet speaks_SendDisconnect : speaks.
#[local] Notation asks := (own from).
#[local] Notation true_to := (speaks from).

(** *** Handlers *)

Definition own_handler (c : cClientHandle) (r : option (cByteBuffer * cClientHandle * list request)) : Prop :=
  forall bb c' out, r = Some (bb, c', out) -> m_UniqueID c' = m_UniqueID c /\ Forall (from (m_UniqueID c)) out.

Definition speaks_handler (h : Handle) : Prop := forall bb c, own_handler c (h bb c).

Lemma handler_finish m : true_to m -> speaks_handler (finish m).
Proof. intros Hm bb c bb' c' out E. apply bind_Some in E as ([c1 o1] & E & [= _ <- <-]). exact (Hm _ _ _ E). Qed.

Lemma handler_READ {A} (Proc : BB A) k : (forall x, speaks_handler (k x)) -> speaks_handler (HANDLE_READ Proc k).
Proof.
  intros Hk bb c bb' c' out E. unfold HANDLE_READ in E. apply bind_Some in E as ([[x|] b] & _ & E); [exact (Hk x _ _ _ _ _ E)|].
  injection E as _ <- <-. auto.
Qed.

Ltac handler := repeat first [apply handler_READ; intros | apply handler_finish].

Lemma speaks_check_keys k n : true_to (check_keys k n).
Proof.
  intros c. unfold check_keys, Kick. repeat match goal with
  | |- asks _ (match ?x with _ => _ end) => destruct x
  | |- asks _ (if ?b then _ else _) => destruct b
  end; try apply speaks_SendDisconnect. apply speaks_andThen; [apply speaks_on_protocol | apply speaks_packet].
Qed.

Lemma speaks_HandleLogin a b : true_to (HandleLogin a b).
Proof. apply speaks_andThen; [apply speaks_modify; reflexivity | apply speaks_request; reflexivity]. Qed.

Lemma handlers_speak now : Forall speaks_handler
  [HandlePacketStatusRequest; HandlePacketStatusPing; HandlePacketLoginStart; HandlePacketLoginEncryptionResponse;
   HandlePacketLoginInfo; HandlePacketKeepAlive now; HandlePacketJoinRoom; HandlePacketMsgRoom; HandlePacketLeftRoom].
Proof.
  repeat (apply Forall_cons; split); [..|apply Forall_nil; exact I].
  - handler. destruct (_ || _); [apply speaks_SendDisconnect|]. apply speaks_andThen; [apply speaks_on_protocol|].
    apply speaks_on_state. auto with speaks.
  - handler. auto with speaks.
  - handler. apply speaks_on_state. auto with speaks.
  - apply handler_READ. intros x. destruct (_ <? x); [handler; apply speaks_SendDisconnect|].
    apply handler_READ. intros y. apply handler_READ. intros z. destruct (_ <? z); [handler; apply speaks_SendDisconnect|].
    handler. apply speaks_check_keys.
  - handler. apply speaks_HandleLogin.
  - handler. apply speaks_modify. intros c. destruct (_ =? _); reflexivity.
  - handler. apply speaks_request. reflexivity.
  - handler. apply speaks_request. reflexivity.
  - handler. apply speaks_request. reflexivity.
Qed.

(** *** Receiving *)

Definition own_result {R} (c : cClientHandle) (r : option (R * cClientHandle * list request)) : Prop :=
  forall x c' out, r = Some (x, c', out) -> m_UniqueID c' = m_UniqueID c /\ Forall (from (m_UniqueID c)) out.

Lemma own_understood h bb c : speaks_handler h -> own_result c (understood h bb c).
Proof. intros Hh x c' out E. apply bind_Some in E as ([[b c1] o1] & E & [= _ <- <-]). exact (Hh _ _ _ _ _ E). Qed.

Lemma own_rejected m bb c : true_to m -> own_result c (rejected m bb c).
Proof. intros Hm x c' out E. apply bind_Some in E as ([c1 o1] & E & [= _ <- <-]). exact (Hm _ _ _ E). Qed.

Lemma own_HandlePacket now bb t c : own_result c (HandlePacket now bb t c).
Proof.
  pose proof (handlers_speak now) as Hh. rewrite Forall_forall in Hh. unfold HandlePacket, PacketUnknown.
  repeat match goal with |- own_result _ (match ?x with _ => _ end) => destruct x end;
    first [apply own_rejected; first [apply speaks_SendDisconnect | apply speaks_skip | apply speaks_on_protocol]
          | apply own_understood; apply Hh; rewrite !elem_of_cons; tauto].
Qed.

Lemma own_buffer now bb c : own_result c (handle_buffer (HandlePacket now) PacketError bb c).
Proof.
  intros x c' out E. unfold handle_buffer in E. apply bind_Some in E as ([[t|] b1] & _ & E); [|injection E as _ <- <-; auto].
  apply bind_Some in E as ([w b2] & _ & E). apply bind_Some in E as ([[[h b3] c1] o1] & E1 & E).
  apply own_HandlePacket in E1 as [I1 F1]. destruct (negb h); [injection E as _ <- <-; auto|].
  destruct (_ =? 1)%nat; [injection E as _ <- <-; auto|]. apply bind_Some in E as ([c2 o2] & E2 & [= _ <- <-]).
  destruct (speaks_SendDisconnect from _ _ _ _ E2) as [I2 F2]. rewrite I1 in *. split; [exact I2 | apply Forall_app; auto].
Qed.

Lemma own_loop now cleared fuel rcv c : own_result c (packet_loop fresh (HandlePacket now) PacketError cleared fuel rcv c).
Proof.
  revert rcv c. induction fuel as [|fuel IH]; [discriminate|]. intros rcv c x c' out E. cbn [packet_loop] in E.
  apply bind_Some in E as ([[len|] b1] & _ & E); [|injection E as _ <- <-; auto]. cbv zeta in E.
  destruct (negb _); [injection E as _ <- <-; auto|]. apply bind_Some in E as ([[cp b2] b3] & _ & E).
  destruct (negb cp); [discriminate|]. apply bind_Some in E as ([[go c1] o1] & E1 & E).
  apply own_buffer in E1 as [I1 F1]. destruct go; [|injection E as _ <- <-; auto].
  apply bind_Some in E as ([[b4 c2] o2] & E2 & [= _ <- <-]). apply IH in E2 as [I2 F2]. rewrite I1 in *.
  split; [exact I2 | apply Forall_app; auto].
Qed.

Lemma speaks_DataReceived now data : true_to (DataReceived fresh now data).
Proof.
  assert (Ha : forall x, true_to (protocol_AddReceivedData fresh now x)).
  { intros x c c' out E. unfold protocol_AddReceivedData in E. apply bind_Some in E as ([[b c1] o1] & E & [= <- <-]).
    unfold AddReceivedData in E. apply bind_Some in E as ([[fits|] b1] & _ & E); [exact (own_loop _ _ _ _ _ _ _ _ E)|].
    apply bind_Some in E as ([c2 o2] & E & [= _ <- <-]). exact (speaks_SendDisconnect from _ _ _ _ E). }
  intros c. unfold DataReceived. destruct (m_IsEncrypted _); [|apply Ha]. apply speaks_chunks. clear c.
  intros x c c' out E. unfold receive_chunk in E. apply bind_Some in E as ([d e] & _ & E).
  revert E. apply (speaks_andThen from _ _ (speaks_on_protocol from _) (Ha d)).
Qed.

(** ** The operations of a handle *)

Lemma speaks_receive_queued now : true_to (receive_queued fresh now).
Proof.
  intros c. unfold receive_queued. cbv zeta. apply (own_later from _ (c <| m_IncomingData := [] |>)); [reflexivity|].
  destruct (_ =? _)%nat; [apply speaks_skip | apply speaks_DataReceived].
Qed.

Lemma speaks_send_queued : true_to send_queued.
Proof.
  intros c. unfold send_queued. cbv zeta. apply (own_later from _ (c <| m_OutgoingData := [] |>)); [reflexivity|].
  destruct (_ && _); [apply speaks_tell; intros; exact I | apply speaks_skip].
Qed.

Lemma speaks_send_ping now : true_to (send_ping now).
Proof.
  intros c. unfold send_ping. cbv zeta. destruct (_ && _); [|apply speaks_skip].
  apply (own_later from _ (c <| m_PingID ::= Z.succ |> <| m_PingStartTime := now |>)); [reflexivity|].
  intros c' out E. unfold SendKeepAlive in E. destruct (negb _); [exact (speaks_skip from _ _ _ E) | exact (speaks_packet from _ _ _ _ _ E)].
Qed.

Lemma speaks_count_tick : true_to count_tick.
Proof.
  intros c. unfold count_tick. cbv zeta. apply (own_later from _ (c <| m_TicksSinceLastPacket ::= Z.succ |>)); [reflexivity|].
  destruct (600 <? _); [apply speaks_SendDisconnect | apply speaks_skip].
Qed.

Lemma speaks_ServerTick now : true_to (ServerTick fresh now).
Proof.
  repeat apply speaks_andThen.
  - apply speaks_receive_queued.
  - apply speaks_send_queued.
  - apply speaks_modify. intros c. destruct (bool_decide _); reflexivity.
  - apply speaks_send_ping.
  - apply speaks_count_tick.
Qed.

Lemma speaks_Authenticate now name pw : true_to (Authenticate now name pw).
Proof.
  intros c. unfold Authenticate. destruct (bool_decide _); [apply speaks_skip|].
  apply speaks_andThen; [apply speaks_modify; reflexivity | apply speaks_andThen; [|apply speaks_modify; reflexivity]].
  intros c1. apply speaks_andThen; [apply speaks_packet | apply speaks_on_protocol].
Qed.

(** The destructor asks for one thing. *)
Lemma dtor_asks c c' out : cClientHandle_dtor c = Some (c', out) -> out = [Manager_doUserOffline (m_UniqueID c)].
Proof.
  unfold cClientHandle_dtor. intros (c1 & o1 & o2 & E1 & E2 & ->)%andThen_inv. injection E2 as <- <-.
  assert (Hq : speaks (fun _ _ => False) (on_state (fun c => if m_HasSentDC c then skip else SendDisconnect ERROR_CODE_SERVER_SHUTDOWN))).
  { apply speaks_on_state. intros x. destruct (m_HasSentDC x); [apply speaks_skip | apply speaks_SendDisconnect]. }
  destruct (Hq _ _ _ E1) as [-> Hf]. destruct o1 as [|r o1]; [reflexivity|]. apply Forall_cons in Hf as [[] _].
Qed.

(** C16. Everything a tick of a handle asks of the rest of the server is asked in the handle's
    asks name, for any bytes received in any state: no packet can make the server act for
    another client. *)
Theorem tick_speaks_for_itself now c c' out : ServerTick fresh now c = Some (c', out) ->
  m_UniqueID c' = m_UniqueID c /\ Forall (from (m_UniqueID c)) out.
Proof. apply speaks_ServerTick. Qed.
End Identity.

(** ** A sample: a client that names another one as the target of a message *)

Definition sample_speaker : cClientHandle :=
  (on_protocol (fun p => p <| p_State := 3 |>) Sample.handle)
    <| m_IncomingData := frame (JoinRoom_packet [99]) ++ frame (MsgRoom_packet [99] 7 [104; 105]) |>.

Lemma sample_spoken : snd <$> @ServerTick Toy.lib Sample.keys Sample.fresh 0 sample_speaker
  = Some [Manager_doUserJoinChannel 1 [99]; Manager_OnMsgFromPeer [99] 1 7 [104; 105]].
Proof. vm_compute. reflexivity. Qed.

Example tick_speaks_for_itself_witness : exists c' out,
  @ServerTick Toy.lib Sample.keys Sample.fresh 0 sample_speaker = Some (c', out) /\ List.length out = 2%nat
  /\ Forall (from 1) out.
Proof.
  pose proof sample_spoken as S. destruct (ServerTick Sample.fresh 0 sample_speaker) as [[c' out]|] eqn:E; [|discriminate S].
  exists c', out. split; [reflexivity|]. split; [injection S as ->; reflexivity|].
  destruct (tick_speaks_for_itself (H := Toy.lib) (H0 := Sample.keys) Sample.fresh 0 sample_speaker c' out E) as [_ F].
  change (m_UniqueID sample_speaker) with 1 in F. exact F.
Defined.
