(* ===== verification/Server.v ===== *)
(** * Server: clients, authenticator and channels together (src/Src/Server/Server.cpp)

    The server keeps the handles of its clients.  Its tick thread runs them, the thread of
    the authenticator and the manager's thread call back into it, and every call finds its
    handle by the client's id.  A handle that was taken out of the list lives on until the
    network drops its reference; only then does its protocol tell the manager that the user
    is offline.  [None] is the end of the process, or what the parts leave undefined. *)

From S2P Require Import Prelude Bytes MediaDefinitions StringUtils ByteBuffer Cipher Framing Packetizer ClientHandle HandleIdentity Authenticator RtpHeaders Rtcp Stats Text SdpInfo NiceConnection Dtls DtlsTransport Connection Ordered OneToMany Peer Channel.

(** What leaves the server: data for a client's link, and calls of the media library. *)
Inductive server_out :=
  | To_Link (a_ClientID : Z) (a_Data : list Z)
  | To_Library (p : address) (audio : bool) (c : nice_call).

(** [removed] are the handles taken out of [m_Clients] that others still refer to.  Nothing
    ever appends to m_ClientsToRemove. *)
Record cServer `{CryptoLib} := {
  m_Clients : list cClientHandle;
  removed : list cClientHandle;
  s_ClientCount : Z;
  m_PlayerCount : Z;
  m_PlayerCountDiff : Z;
  m_bIsConnected : bool;
  m_bRestarting : bool;
  m_Port : Z;
  m_ServerID : AString;
  authenticator : list cUser;
  manager : cManager;
  media : world
}.

#[export] Instance eta_cServer `{CryptoLib} : Eta cServer := fun s =>
  {| m_Clients := m_Clients s; removed := removed s; s_ClientCount := s_ClientCount s;
     m_PlayerCount := m_PlayerCount s; m_PlayerCountDiff := m_PlayerCountDiff s;
     m_bIsConnected := m_bIsConnected s; m_bRestarting := m_bRestarting s; m_Port := m_Port s;
     m_ServerID := m_ServerID s; authenticator := authenticator s; manager := manager s; media := media s |}.

Section Server.
Context `{PolarSSL, ServerKeys, CryptoLib, JsonCpp} (fresh : nat -> list Z) (env : Env).
Variables (depth : nat) (recover : list Z -> list Z -> option (list (list Z))).
#[local] Notation Action := (Act cClientHandle request).

Definition cServer_ctor (port : Z) : cServer :=
  {| m_Clients := []; removed := []; s_ClientCount := 0; m_PlayerCount := 0; m_PlayerCountDiff := 0;
     m_bIsConnected := false; m_bRestarting := false; m_Port := port; m_ServerID := [];
     authenticator := []; manager := cManager_ctor;
     media := {| conns := ∅; listeners := ∅; next_address := 0 |} |}.

(** [port] is what the settings say; the keys are the class [ServerKeys]. *)
Definition InitServer (port : Z) (s : cServer) : bool * cServer :=
  let s := s <| m_PlayerCount := 0 |> <| m_PlayerCountDiff := 0 |> in
  if m_bIsConnected s then (false, s)
  else (true, s <| m_Port := port |> <| m_bIsConnected := true |> <| m_ServerID := chars "-" |>).

Definition GetNumPlayers (s : cServer) : Z := m_PlayerCount s.
Definition PlayerCreated (s : cServer) : cServer := s <| m_PlayerCountDiff ::= Z.succ |>.
Definition PlayerDestroying (s : cServer) : cServer := s <| m_PlayerCountDiff ::= Z.pred |>.

Definition IsPlayerInQueue (a_Username : AString) (s : cServer) : bool :=
  existsb (fun client => bool_decide (ClientHandle.m_Username client = a_Username)) (m_Clients s).

(** ** What the handles ask for *)

Definition on_request (id : Z) (r : request) (s : cServer) : cServer * list server_out :=
  match r with
  | Authenticator_Authenticate i name pw => (s <| authenticator ::= cAuthenticator_Authenticate i name pw |>, [])
  | Manager_doUserJoinChannel i ch => (s <| manager ::= doUserJoinChannel i ch |>, [])
  | Manager_doUserLeftChannel i ch => (s <| manager ::= doUserLeftChannel i ch |>, [])
  | Manager_doUserOffline i => (s <| manager ::= doUserOffline i |>, [])
  | Manager_OnMsgFromPeer ch i t msg => (s <| manager ::= OnMsgFromPeer ch i t msg |>, [])
  | Link_Send data => (s, [To_Link id data])
  end.

Fixpoint on_requests (rs : list (Z * request)) (s : cServer) : cServer * list server_out :=
  match rs with
  | [] => (s, [])
  | (id, r) :: rs =>
    let '(s, out) := on_request id r s in
    let '(s, out') := on_requests rs s in
    (s, out ++ out')
  end.

Definition signed (c : cClientHandle) (rs : list request) : list (Z * request) := map (pair (m_UniqueID c)) rs.

(** The action on the handles for which [which] is true, in the order of the list. *)
Fixpoint for_clients (which : cClientHandle -> bool) (m : Action) (cs : list cClientHandle)
    : option (list cClientHandle * list (Z * request)) :=
  match cs with
  | [] => Some ([], [])
  | c :: cs =>
    '(c', rs) ← (if which c then m c else skip c);
    '(cs, rs') ← for_clients which m cs;
    Some (c' :: cs, signed c rs ++ rs')
  end.

Definition has_id (id : Z) (c : cClientHandle) : bool := m_UniqueID c =? id.

Definition each_client (id : Z) (m : Action) (s : cServer) : option (cServer * list server_out) :=
  '(cs, rs) ← for_clients (has_id id) m (m_Clients s);
  Some (on_requests rs (s <| m_Clients := cs |>)).

(** The first handle with the id only. *)
Fixpoint first_client (id : Z) (m : Action) (cs : list cClientHandle) : option (list cClientHandle * list (Z * request)) :=
  match cs with
  | [] => Some ([], [])
  | c :: cs =>
    if has_id id c then '(c', rs) ← m c; Some (c' :: cs, signed c rs)
    else '(cs, rs) ← first_client id m cs; Some (c :: cs, rs)
  end.

(** ** Calls from other threads *)

Definition server_KickUser (a_ClientID a_Reason : Z) : cServer -> option (cServer * list server_out) :=
  each_client a_ClientID (Kick a_Reason).

Definition server_AuthenticateUser (now a_ClientID : Z) (a_Name a_Password : AString) (s : cServer)
    : option (cServer * list server_out) :=
  '(cs, rs) ← first_client a_ClientID (Authenticate now a_Name a_Password) (m_Clients s);
  Some (on_requests rs (s <| m_Clients := cs |>)).

Definition server_onJoinChannelResult (a_ClientID : Z) (a_Channel : AString) (a_Result : Z) :=
  each_client a_ClientID (onJoinChannelResult a_Channel a_Result).
Definition server_onLeaveChannelResult (a_ClientID : Z) (a_Channel : AString) (a_Result : Z) :=
  each_client a_ClientID (onLeaveChannelResult a_Channel a_Result).
Definition server_onChannelMsg (a_Channel : AString) (a_FromID a_TargetID : Z) (a_Msg : AString) :=
  each_client a_TargetID (onChannelMsg a_FromID a_Channel a_Msg).

(** A round of the authenticator's thread. *)
Definition authenticator_round (now : Z) (s : cServer) : option (cServer * list server_out) :=
  match Execute_round (authenticator s) with
  | None => Some (s, [])
  | Some (v, queue) =>
    let s := s <| authenticator := queue |> in
    match v with
    | AuthenticateUser id name uuid => server_AuthenticateUser now id name uuid s
    | KickUser id reason => server_KickUser id reason s
    end
  end.

Definition on_call (call : server_call) (s : cServer) : option (cServer * list server_out) :=
  match call with
  | Server_onChannelMsg ch sender target msg => server_onChannelMsg ch sender target (render msg) s
  | Server_onJoinChannelResult id ch res => server_onJoinChannelResult id ch res s
  | Server_onLeaveChannelResult id ch res => server_onLeaveChannelResult id ch res s
  | Media_Library p audio c => Some (s, [To_Library p audio c])
  end.

Fixpoint on_calls (calls : list server_call) (s : cServer) : option (cServer * list server_out) :=
  match calls with
  | [] => Some (s, [])
  | call :: calls =>
    '(s, out) ← on_call call s;
    '(s, out') ← on_calls calls s;
    Some (s, out ++ out')
  end.

(** A round of the manager's thread; [calls] is what the manager told the server. *)
Definition manager_round (m : Moment) (s : cServer) : option (cServer * list server_call * list server_out) :=
  '(mgr, w, calls) ← Execute_event env depth recover m (manager s) (media s);
  '(s, out) ← on_calls calls (s <| manager := mgr |> <| media := w |>);
  Some (s, calls, out).

Definition connection_event (name : AString) (id target : Z)
    (f : WebRtcConnection -> option (WebRtcConnection * list conn_effect)) (s : cServer)
    : option (cServer * list server_call * list server_out) :=
  '(mgr, w, calls) ← media_event env depth recover name id target f (manager s) (media s);
  '(s, out) ← on_calls calls (s <| manager := mgr |> <| media := w |>);
  Some (s, calls, out).

(** ** The network *)

(** [address] is where the new handle lies, [mem] the memory its ciphers are made in. *)
Definition OnConnectionAccepted (a_RemoteIPAddress : AString) (now address : Z) (mem : cAesCfb128) (s : cServer) : option cServer :=
  if s_ClientCount s =? 2 ^ 31 - 1 then None else
  let s := s <| s_ClientCount ::= Z.succ |> in
  Some (s <| m_Clients ::= fun cs => cs ++ [cClientHandle_ctor fresh a_RemoteIPAddress now (s_ClientCount s) address mem] |>).

(** A callback of a link: it reaches its handle whether or not the server still lists it. *)
Definition link_event (id : Z) (m : Action) (s : cServer) : option (cServer * list server_out) :=
  '(cs, rs) ← for_clients (has_id id) m (m_Clients s);
  '(ds, rs') ← for_clients (has_id id) m (removed s);
  Some (on_requests (rs ++ rs') (s <| m_Clients := cs |> <| removed := ds |>)).

(** The callbacks there are. *)
Inductive link_callback :=
  | link_created | link_data (a_Data : list Z) | link_closed | link_error.

Definition run_callback (cb : link_callback) : Action :=
  match cb with
  | link_created => OnLinkCreated
  | link_data a_Data => OnReceivedData a_Data
  | link_closed => OnRemoteClosed
  | link_error => OnError
  end.

(** The last reference to a removed handle is dropped. *)
Definition release_handle (id : Z) (s : cServer) : option (cServer * list server_out) :=
  '(_, rs) ← for_clients (has_id id) cClientHandle_dtor (removed s);
  Some (on_requests rs (s <| removed ::= List.filter (fun c => negb (has_id id c)) |>)).

(** ** The tick thread *)

(** The handles that stay, those that were destroyed, and what the ticks ask for. *)
Fixpoint tick_clients (now : Z) (cs : list cClientHandle) : option (list cClientHandle * list cClientHandle * list (Z * request)) :=
  match cs with
  | [] => Some ([], [], [])
  | c :: cs =>
    if IsDestroyed c then
      '(kept, gone, rs) ← tick_clients now cs; Some (kept, c :: gone, rs)
    else
      '(c', rs) ← ServerTick fresh now c;
      '(kept, gone, rs') ← tick_clients now cs;
      Some (c' :: kept, gone, signed c rs ++ rs')
  end.

Definition TickClients (now : Z) (s : cServer) : option (cServer * list server_out) :=
  '(kept, gone, rs) ← tick_clients now (m_Clients s);
  Some (on_requests rs (s <| m_Clients := kept |> <| removed ::= fun l => l ++ gone |>)).

(** Whether the thread goes on.  The console's commands are left out. *)
Definition Tick (now : Z) (s : cServer) : option (bool * cServer * list server_out) :=
  let diff := m_PlayerCountDiff s in
  let s := s <| m_PlayerCountDiff := 0 |> <| m_PlayerCount ::= fun n => n + diff |> in
  '(s, out) ← TickClients now s;
  if negb (m_bRestarting s) then Some (true, s, out)
  else Some (false, s <| m_bRestarting := false |>, out).

(** [Shutdown] asks the tick thread to end, and once it has, destroys all clients. *)
Definition Shutdown_begin (s : cServer) : cServer := s <| m_bRestarting := true |>.

Definition Shutdown_end (s : cServer) : option (cServer * list server_out) :=
  '(cs, rs) ← for_clients (fun _ => true) Destroy (m_Clients s);
  Some (on_requests rs (s <| m_Clients := [] |> <| removed ::= fun l => l ++ cs |>)).
End Server.
