(* ===== verification/ServerFacts.v ===== *)
(** * ServerFacts: the server as a whole

    Every step of the server does to the channel manager what the manager's own steps do
    ([step_simulated]): the theorems about channels hold in the server.  The
    new facts are about who is who: ids are not shared ([ids_ok]), what the manager says
    reaches the client it names and nobody else ([calls_delivered]), a tick runs every
    handle once ([tick_spec]), and the client of a closed connection is out of its channels
    once its handle is gone ([gone_client_leaves]). *)

From S2P Require Import Prelude Bytes MediaDefinitions StringUtils ByteBuffer Cipher Framing Packetizer Messages ClientHandle HandleFacts HandleIdentity Authenticator RtpHeaders Rtcp Stats Text SdpInfo NiceConnection Dtls DtlsTransport Connection ConnectionFacts Ordered OneToMany Peer Channel ChannelFacts Server.

Section ServerFacts.
Context `{PolarSSL, ServerKeys, CryptoLib, JsonCpp} (fresh : nat -> list Z) (env : Env).
Variables (depth : nat) (recover : list Z -> list Z -> option (list (list Z))).
#[local] Notation Action := (Act cClientHandle request).
#[local] Notation faithful := (speaks from).

Definition ids (cs : list cClientHandle) : list Z := map m_UniqueID cs.

(** ** Actions on the handles *)

(** Requests made by some of the handles, each in its own name. *)
Definition from_clients (who : Z -> Prop) (rs : list (Z * request)) : Prop := Forall (fun p => who p.1 /\ from p.1 p.2) rs.

Lemma from_signed (who : Z -> Prop) c rs : who (m_UniqueID c) -> Forall (from (m_UniqueID c)) rs -> from_clients who (signed c rs).
Proof. intros Hw Hf. unfold from_clients, signed. apply Forall_map. eapply Forall_impl; [exact Hf|]. intros r Hr. auto. Qed.

Lemma from_weaken (who who' : Z -> Prop) rs : (forall i, who i -> who' i) -> from_clients who rs -> from_clients who' rs.
Proof. intros Hw Hf. eapply Forall_impl; [exact Hf|]. intros p [? ?]. auto. Qed.

Lemma from_later c cs rs : from_clients (fun i => i ∈ ids cs) rs -> from_clients (fun i => i ∈ ids (c :: cs)) rs.
Proof. apply from_weaken. intros i Hi. apply elem_of_cons. auto. Qed.

Lemma if_faithful (b : bool) (m : Action) : faithful m -> faithful (if b then m else skip).
Proof. destruct b; auto using speaks_skip. Qed.

Lemma for_clients_ok which m cs cs' rs : faithful m -> for_clients which m cs = Some (cs', rs) ->
  ids cs' = ids cs /\ from_clients (fun i => i ∈ ids cs) rs.
Proof.
  intros Hm. revert cs' rs. induction cs as [|c cs IH]; intros cs' rs; cbn [for_clients]; [intros [= <- <-]; split; constructor|].
  intros E. apply bind_Some in E as ([c1 o1] & E1 & E). apply bind_Some in E as ([cs1 o2] & E2 & [= <- <-]).
  destruct (IH _ _ E2) as [I2 F2]. assert (E1' : (if which c then m else skip) c = Some (c1, o1)) by (destruct (which c); exact E1).
  destruct (if_faithful _ _ Hm _ _ _ E1') as [I1 F1]. split; [unfold ids in *; cbn; congruence|]. apply Forall_app. split.
  - apply (from_signed (fun i => i ∈ ids (c :: cs))); [apply elem_of_cons; auto | exact F1].
  - exact (from_later _ _ _ F2).
Qed.

Lemma first_client_ok id m cs cs' rs : faithful m -> first_client id m cs = Some (cs', rs) ->
  ids cs' = ids cs /\ from_clients (fun i => i ∈ ids cs) rs.
Proof.
  intros Hm. revert cs' rs. induction cs as [|c cs IH]; intros cs' rs; cbn [first_client]; [intros [= <- <-]; split; constructor|].
  destruct (has_id id c); intros E; [apply bind_Some in E as ([c1 o1] & E1 & [= <- <-]) | apply bind_Some in E as ([cs1 o1] & E1 & [= <- <-])].
  - destruct (Hm _ _ _ E1) as [I1 F1]. split; [unfold ids in *; cbn; congruence|]. apply (from_signed (fun i => i ∈ ids (c :: cs))); [apply elem_of_cons; auto | exact F1].
  - destruct (IH _ _ E1) as [I1 F1]. split; [unfold ids in *; cbn; congruence|]. exact (from_later _ _ _ F1).
Qed.

Lemma tick_clients_ok now cs kept gone rs : tick_clients fresh now cs = Some (kept, gone, rs) ->
  ids (kept ++ gone) ≡ₚ ids cs /\ from_clients (fun i => i ∈ ids cs) rs.
Proof.
  revert kept gone rs. induction cs as [|c cs IH]; intros kept gone rs; cbn [tick_clients]; [intros [= <- <- <-]; split; constructor|].
  destruct (IsDestroyed c); intros E.
  - apply bind_Some in E as ([[k g] o] & E & [= <- <- <-]). destruct (IH _ _ _ E) as [I F]. split.
    + unfold ids in *. cbn [map]. rewrite <- I, !map_app. cbn [map]. symmetry. apply Permutation_middle.
    + exact (from_later _ _ _ F).
  - apply bind_Some in E as ([c1 o1] & E1 & E). apply bind_Some in E as ([[k g] o] & E & [= <- <- <-]).
    destruct (IH _ _ _ E) as [I F]. destruct (speaks_ServerTick fresh now _ _ _ E1) as [I1 F1]. split.
    + unfold ids in *. cbn [map app]. rewrite I1. constructor. exact I.
    + apply Forall_app. split; [apply (from_signed (fun i => i ∈ ids (c :: cs))); [apply elem_of_cons; auto | exact F1]|].
      exact (from_later _ _ _ F).
Qed.

(** A tick runs every handle that is not destroyed once, in the order of the list, and takes
    the others out. *)
Lemma tick_spec now cs kept gone rs : tick_clients fresh now cs = Some (kept, gone, rs) ->
  gone = List.filter IsDestroyed cs
  /\ Forall2 (fun c c' => exists out, ServerTick fresh now c = Some (c', out)) (List.filter (fun c => negb (IsDestroyed c)) cs) kept.
Proof.
  revert kept gone rs. induction cs as [|c cs IH]; intros kept gone rs; cbn [tick_clients List.filter]; [intros [= <- <- <-]; split; constructor|].
  destruct (IsDestroyed c); cbn [negb]; intros E.
  - apply bind_Some in E as ([[k g] o] & E & [= <- <- <-]). destruct (IH _ _ _ E) as [-> F]. auto.
  - apply bind_Some in E as ([c1 o1] & E1 & E). apply bind_Some in E as ([[k g] o] & E & [= <- <- <-]).
    destruct (IH _ _ _ E) as [-> F]. split; [reflexivity | constructor; eauto].
Qed.

(** ** What the requests do *)

(** The manager's clients and media, after any number of posts. *)
Definition posted (who : Z -> Prop) (s s' : cServer) : Prop :=
  mgr_run env depth recover (fun e => m_Type e = JOIN -> who (ev_ClientID e)) (manager s, media s) [] (manager s', media s').

Lemma run_one posts s calls s' : mgr_step env depth recover posts s calls s' -> mgr_run env depth recover posts s calls s'.
Proof. intros Hs. rewrite <- (app_nil_r calls). eapply run_step; [exact Hs | constructor]. Qed.

Lemma run_weaken (posts posts' : cMediaEvent -> Prop) s calls s' : (forall e, posts e -> posts' e) ->
  mgr_run env depth recover posts s calls s' -> mgr_run env depth recover posts' s calls s'.
Proof.
  intros Hp. induction 1 as [s|s calls s1 calls' s' Hst Hr IH]; [constructor|]. eapply run_step; [|exact IH].
  destruct Hst; [eapply step_round | eapply step_media | apply step_post | apply step_offline | apply step_threads]; eauto.
Qed.

(** The fields that requests leave alone. *)
Definition same_clients (s s' : cServer) : Prop :=
  Server.m_Clients s' = Server.m_Clients s /\ removed s' = removed s /\ s_ClientCount s' = s_ClientCount s.

Lemma on_request_ok (who : Z -> Prop) id r s s' out : who id -> from id r -> on_request id r s = (s', out) ->
  same_clients s s' /\ posted who s s'.
Proof.
  intros Hw Hf E. destruct r; cbn in Hf, E; try subst; injection E as <- <-; (split; [repeat split|]).
  - apply run_done.
  - apply run_one, step_post. auto.
  - apply run_one, step_post. discriminate.
  - apply run_one, step_offline.
  - apply run_one, step_post. discriminate.
  - apply run_done.
Qed.

Lemma on_requests_ok who rs s s' out : from_clients who rs -> on_requests rs s = (s', out) -> same_clients s s' /\ posted who s s'.
Proof.
  intros Hf. revert s s' out. induction Hf as [|[id r] rs [Hw Hr] Hf IH]; intros s s' out; cbn [on_requests].
  - intros [= <- <-]. split; [repeat split | apply run_done].
  - destruct (on_request id r s) as [s1 o1] eqn:E1. destruct (on_requests rs s1) as [s2 o2] eqn:E2. intros [= <- <-].
    destruct (on_request_ok who _ _ _ _ _ Hw Hr E1) as [(A1 & B1 & C1) P1]. destruct (IH _ _ _ E2) as [(A2 & B2 & C2) P2].
    split; [split_and!; congruence|]. exact (mgr_run_app _ _ _ _ _ _ _ _ _ P1 P2).
Qed.

(** ** What the manager says *)

(** What one of its calls does to the handle it names. *)
Definition deliver (call : server_call) : Action :=
  match call with
  | Server_onChannelMsg ch sender _ msg => onChannelMsg sender ch (render msg)
  | Server_onJoinChannelResult _ ch res => onJoinChannelResult ch res
  | Server_onLeaveChannelResult _ ch res => onLeaveChannelResult ch res
  | Media_Library _ _ _ => skip
  end.

Definition addressee (call : server_call) : option Z :=
  match call with
  | Server_onChannelMsg _ _ target _ => Some target
  | Server_onJoinChannelResult id _ _ | Server_onLeaveChannelResult id _ _ => Some id
  | Media_Library _ _ _ => None
  end.

Definition calls_for (id : Z) (calls : list server_call) : list server_call :=
  List.filter (fun call => bool_decide (addressee call = Some id)) calls.

Lemma deliver_faithful call : faithful (deliver call).
Proof. destruct call; [apply speaks_packet | apply speaks_packet | apply speaks_packet | apply speaks_skip]. Qed.

Lemma on_call_spec call s : on_call call s =
  match addressee call with
  | Some id => each_client id (deliver call) s
  | None => match call with Media_Library p audio c => Some (s, [To_Library p audio c]) | _ => None end
  end.
Proof. destruct call; reflexivity. Qed.

Lemma each_client_ok id m s s' out : faithful m -> each_client id m s = Some (s', out) ->
  ids (Server.m_Clients s') = ids (Server.m_Clients s) /\ removed s' = removed s /\ s_ClientCount s' = s_ClientCount s
  /\ posted (fun i => i ∈ ids (Server.m_Clients s)) s s'.
Proof.
  intros Hm E. unfold each_client in E. apply bind_Some in E as ([cs rs] & E & E1). destruct (for_clients_ok _ _ _ _ _ Hm E) as [I F].
  injection E1 as E1. destruct (on_requests_ok _ _ _ _ _ F E1) as [(A & B & C) P].
  split; [rewrite A; exact I | split; [exact B | split; [exact C | exact P]]].
Qed.

Lemma on_calls_ok calls : forall s s' out, on_calls calls s = Some (s', out) ->
  ids (Server.m_Clients s') = ids (Server.m_Clients s) /\ removed s' = removed s /\ s_ClientCount s' = s_ClientCount s
  /\ posted (fun i => i ∈ ids (Server.m_Clients s)) s s'.
Proof.
  induction calls as [|call calls IH]; intros s s' out; cbn [on_calls]; [intros [= <- <-]; split_and!; try reflexivity; apply run_done|].
  intros E. apply bind_Some in E as ([s1 o1] & E1 & E). apply bind_Some in E as ([s2 o2] & E2 & [= <- <-]).
  destruct (IH _ _ _ E2) as (A2 & B2 & C2 & P2).
  assert (X : ids (Server.m_Clients s1) = ids (Server.m_Clients s) /\ removed s1 = removed s /\ s_ClientCount s1 = s_ClientCount s
    /\ posted (fun i => i ∈ ids (Server.m_Clients s)) s s1).
  { rewrite on_call_spec in E1. destruct (addressee call) as [id|] eqn:Ea; [exact (each_client_ok _ _ _ _ _ (deliver_faithful call) E1)|].
    destruct call; try discriminate. injection E1 as <- <-. split_and!; try reflexivity; apply run_done. }
  destruct X as (A1 & B1 & C1 & P1). rewrite A1 in *. split; [congruence | split; [congruence | split; [congruence|]]].
  exact (mgr_run_app _ _ _ _ _ _ _ _ _ P1 P2).
Qed.

(** The action on one handle, when it is asked for it. *)
Lemma for_clients_each which m cs cs' rs : for_clients which m cs = Some (cs', rs) ->
  Forall2 (fun c c' => exists o, (if which c then m c else skip c) = Some (c', o)) cs cs'.
Proof.
  revert cs' rs. induction cs as [|c cs IH]; intros cs' rs; cbn [for_clients]; [intros [= <- <-]; constructor|].
  intros E. apply bind_Some in E as ([c1 o1] & E1 & E). apply bind_Some in E as ([cs1 o2] & E2 & [= <- <-]).
  constructor; [eauto | exact (IH _ _ E2)].
Qed.

Lemma delivered_ids call c c' o : (if has_id (m_UniqueID c) c then deliver call c else skip c) = Some (c', o) -> m_UniqueID c' = m_UniqueID c.
Proof. destruct (has_id _ _); intros E; [exact (proj1 (deliver_faithful call _ _ _ E)) | injection E as <- _; reflexivity]. Qed.

(** C14. What the manager says reaches the clients it names: every handle has done, in the order
    they were made, exactly the calls that name its id; a call that names nobody does
    nothing. *)
Theorem calls_delivered calls s s' out : on_calls calls s = Some (s', out) ->
  Forall2 (fun c c' => exists o, process_all deliver (calls_for (m_UniqueID c) calls) c = Some (c', o))
    (Server.m_Clients s) (Server.m_Clients s').
Proof.
  revert s s' out. induction calls as [|call calls IH]; intros s s' out; cbn [on_calls].
  { intros [= <- <-]. apply Forall2_same_length_lookup_2; [reflexivity|]. intros i c c' H3 H4.
    assert (c = c') as -> by congruence. cbn. eauto. }
  intros E. apply bind_Some in E as ([s1 o1] & E1 & E). apply bind_Some in E as ([s2 o2] & E2 & [= <- <-]).
  specialize (IH _ _ _ E2). rewrite on_call_spec in E1. unfold calls_for in *. cbn [List.filter].
  destruct (addressee call) as [id|] eqn:Ea.
  - unfold each_client in E1. apply bind_Some in E1 as ([cs rs] & E1 & Ec). injection Ec as Ec.
    destruct (for_clients_ok _ _ _ _ _ (deliver_faithful call) E1) as [I F].
    destruct (on_requests_ok _ _ _ _ _ F Ec) as [(A & _) _]. change (Server.m_Clients s1 = cs) in A. rewrite A in IH. clear A Ec.
    apply for_clients_each in E1. clear -E1 IH. revert IH. generalize (Server.m_Clients s2). induction E1 as [|c c1 cs0 cs1 Hc Hr IHr]; intros cs2 Hcs.
    + inversion Hcs. constructor.
    + inversion Hcs as [|? c2 ? cs3 [o2 Hc2] Hr2]; subst. constructor; [|exact (IHr _ Hr2)]. destruct Hc as [o1 Hc]. unfold has_id in Hc.
      rewrite (bool_decide_ext (Some id = Some (m_UniqueID c)) (m_UniqueID c = id)) by (split; congruence).
      destruct (Z.eqb_spec (m_UniqueID c) id) as [Hid|Hid].
      * rewrite bool_decide_eq_true_2 by exact Hid. cbn [process_all]. exists (o1 ++ o2). unfold andThen. rewrite Hc. cbn [mbind option_bind].
        rewrite <- (proj1 (deliver_faithful call _ _ _ Hc)). rewrite Hc2. reflexivity.
      * rewrite bool_decide_eq_false_2 by exact Hid. injection Hc as <- _. eauto.
  - destruct call; try discriminate. injection E1 as <- _. eapply Forall2_impl; [exact IH|]. intros h h' Hh. cbn [addressee].
    rewrite bool_decide_eq_false_2 by discriminate. exact Hh.
Qed.
End ServerFacts.

(** ** Steps of the server *)

(** Everything that can happen, with what the manager said: threads of the network, of the
    tick, of the authenticator, of the manager, of the media library and its connections,
    and the calls from the console. *)
Inductive server_step `{PolarSSL, ServerKeys, CryptoLib, JsonCpp} (fresh : nat -> list Z) (env : Env) (depth : nat)
    (recover : list Z -> list Z -> option (list (list Z))) : cServer -> list server_call -> cServer -> Prop :=
  | at_accept ip now address mem s s' : OnConnectionAccepted fresh ip now address mem s = Some s' ->
      server_step fresh env depth recover s [] s'
  | at_link id cb s s' out : link_event id (run_callback cb) s = Some (s', out) -> server_step fresh env depth recover s [] s'
  | at_release id s s' out : release_handle id s = Some (s', out) -> server_step fresh env depth recover s [] s'
  | at_tick now s go s' out : Tick fresh now s = Some (go, s', out) -> server_step fresh env depth recover s [] s'
  | at_authenticator now s s' out : authenticator_round now s = Some (s', out) -> server_step fresh env depth recover s [] s'
  | at_manager m s s' calls out : manager_round env depth recover m s = Some (s', calls, out) ->
      server_step fresh env depth recover s calls s'
  | at_connection name id target f s s' calls out : connection_event env depth recover name id target f s = Some (s', calls, out) ->
      server_step fresh env depth recover s calls s'
  | at_kick id reason s s' out : server_KickUser id reason s = Some (s', out) -> server_step fresh env depth recover s [] s'
  | at_threads w s : server_step fresh env depth recover s [] (s <| media := w |>)
  | at_players n s : server_step fresh env depth recover s [] (s <| m_PlayerCountDiff := n |>)
  | at_shutdown s : server_step fresh env depth recover s [] (Shutdown_begin s)
  | at_end s s' out : Shutdown_end s = Some (s', out) -> server_step fresh env depth recover s [] s'.

Inductive server_run `{PolarSSL, ServerKeys, CryptoLib, JsonCpp} (fresh : nat -> list Z) (env : Env) (depth : nat)
    (recover : list Z -> list Z -> option (list (list Z))) : cServer -> list server_call -> cServer -> Prop :=
  | server_done s : server_run fresh env depth recover s [] s
  | server_more s calls s1 calls1 s' : server_step fresh env depth recover s calls s1 ->
      server_run fresh env depth recover s1 calls1 s' -> server_run fresh env depth recover s (calls ++ calls1) s'.

Section ServerRuns.
Context `{PolarSSL, ServerKeys, CryptoLib, JsonCpp} (fresh : nat -> list Z) (env : Env).
Variables (depth : nat) (recover : list Z -> list Z -> option (list (list Z))).
#[local] Notation posted := (posted env depth recover).

Definition all_ids (s : cServer) : list Z := ids (Server.m_Clients s) ++ ids (removed s).

(** No two handles share an id, and a new one gets an id nobody had. *)
Record ids_ok (s : cServer) : Prop := {
  ids_distinct : NoDup (all_ids s);
  ids_counted i : i ∈ all_ids s -> 0 < i <= s_ClientCount s;
  count_positive : 0 <= s_ClientCount s
}.

(** What a step does besides what it does to the manager: handles keep their ids, a new one
    gets the next, removed ones may go. *)
Record id_step (s s' : cServer) : Prop := {
  id_count : s_ClientCount s <= s_ClientCount s';
  id_old i : i ∈ all_ids s' -> i ∈ all_ids s \/ s_ClientCount s < i <= s_ClientCount s';
  id_nodup : ids_ok s -> NoDup (all_ids s')
}.

Lemma id_step_perm s s' : all_ids s' ≡ₚ all_ids s -> s_ClientCount s' = s_ClientCount s -> id_step s s'.
Proof.
  intros P C. split; [lia | |].
  - intros i Hi. left. rewrite <- P. exact Hi.
  - intros [Hn _ _]. rewrite P. exact Hn.
Qed.

Lemma ids_ok_step s s' : ids_ok s -> id_step s s' -> ids_ok s'.
Proof.
  intros Hok [C O N]. split; [exact (N Hok) | | pose proof (count_positive _ Hok); lia].
  intros i Hi. destruct (O i Hi) as [Ho|Ho]; [pose proof (ids_counted _ Hok i Ho); lia | pose proof (count_positive _ Hok); lia].
Qed.

Lemma callback_faithful cb : speaks from (run_callback cb).
Proof.
  destruct cb; cbn [run_callback]; repeat apply speaks_andThen; apply speaks_modify; intros c; try reflexivity;
    cbv zeta; destruct (_ <=? _); reflexivity.
Qed.

Lemma Destroy_faithful : speaks from Destroy.
Proof. apply speaks_modify. intros c. cbv zeta. destruct (_ <=? _); reflexivity. Qed.

Lemma dtor_faithful : speaks from cClientHandle_dtor.
Proof.
  apply speaks_andThen; [|apply speaks_request; reflexivity].
  apply speaks_on_state. intros c. destruct (m_HasSentDC c); [apply speaks_skip | apply speaks_SendDisconnect].
Qed.

Lemma all_ids_same s s' : ids (Server.m_Clients s') = ids (Server.m_Clients s) -> removed s' = removed s -> all_ids s' = all_ids s.
Proof. intros A B. unfold all_ids. rewrite A, B. reflexivity. Qed.

Lemma posted_sub (who who' : Z -> Prop) s s' : (forall i, who i -> who' i) -> posted who s s' -> posted who' s s'.
Proof. intros Hw. apply run_weaken. auto. Qed.

(** A step of the server, as steps of the manager and of the ids. *)
Definition simulated (s : cServer) (calls : list server_call) (s' : cServer) : Prop :=
  id_step s s' /\ mgr_run env depth recover (fun e => m_Type e = JOIN -> ev_ClientID e ∈ all_ids s)
                   (manager s, media s) calls (manager s', media s').

Lemma simulated_quiet s s' (who : Z -> Prop) : all_ids s' ≡ₚ all_ids s -> s_ClientCount s' = s_ClientCount s ->
  (forall i, who i -> i ∈ all_ids s) -> posted who s s' -> simulated s [] s'.
Proof. intros P C Hw R. split; [apply id_step_perm; assumption | exact (posted_sub _ _ _ _ Hw R)]. Qed.

Lemma in_clients s i : i ∈ ids (Server.m_Clients s) -> i ∈ all_ids s.
Proof. intros Hi. apply elem_of_app. auto. Qed.

Lemma in_removed s i : i ∈ ids (removed s) -> i ∈ all_ids s.
Proof. intros Hi. apply elem_of_app. auto. Qed.

Lemma simulated_each id m s s' out : speaks from m -> each_client id m s = Some (s', out) -> simulated s [] s'.
Proof.
  intros Hm E. destruct (each_client_ok env depth recover _ _ _ _ _ Hm E) as (A & B & C & P).
  eapply simulated_quiet; [rewrite (all_ids_same _ _ A B); reflexivity | exact C | apply in_clients | exact P].
Qed.

(** The manager has taken a step, and the server does what it was told. *)
Lemma simulated_calls mgr w calls0 s s' out :
  mgr_step env depth recover (fun e => m_Type e = JOIN -> ev_ClientID e ∈ all_ids s) (manager s, media s) calls0 (mgr, w) ->
  on_calls calls0 (s <| manager := mgr |> <| media := w |>) = Some (s', out) -> simulated s calls0 s'.
Proof.
  intros Hst E. destruct (on_calls_ok env depth recover _ _ _ _ E) as (A & B & C & P).
  split; [apply id_step_perm; [rewrite (all_ids_same s s' A B); reflexivity | exact C]|].
  rewrite <- (app_nil_r calls0). eapply run_step; [exact Hst|]. exact (posted_sub _ _ _ _ (in_clients s) P).
Qed.

(** Requests of handles of the server, made while its lists were [cs] and [ds]. *)
Lemma simulated_requests rs cs ds s s' out : from_clients (fun i => i ∈ all_ids s) rs ->
  ids cs ++ ids ds ≡ₚ all_ids s ->
  on_requests rs (s <| Server.m_Clients := cs |> <| removed := ds |>) = (s', out) -> simulated s [] s'.
Proof.
  intros F P E. destruct (on_requests_ok env depth recover _ _ _ _ _ F E) as [(A & B & C) R].
  eapply simulated_quiet; [|exact C | intros i Hi; exact Hi | exact R]. unfold all_ids at 1. rewrite A, B. exact P.
Qed.

Lemma link_event_simulated id cb s s' out : link_event id (run_callback cb) s = Some (s', out) -> simulated s [] s'.
Proof.
  intros E. unfold link_event in E. apply bind_Some in E as ([cs rs] & E1 & E). apply bind_Some in E as ([ds rs'] & E2 & E). injection E as E.
  destruct (for_clients_ok _ _ _ _ _ (callback_faithful cb) E1) as [I1 F1]. destruct (for_clients_ok _ _ _ _ _ (callback_faithful cb) E2) as [I2 F2].
  eapply simulated_requests; [| |exact E].
  - apply Forall_app. split; [exact (from_weaken _ _ _ (in_clients s) F1) | exact (from_weaken _ _ _ (in_removed s) F2)].
  - rewrite I1, I2. reflexivity.
Qed.

Lemma ids_filter id cs : ids (List.filter (fun c => negb (has_id id c)) cs) = List.filter (fun i => negb (i =? id)) (ids cs).
Proof.
  unfold ids, has_id. induction cs as [|c cs IH]; [reflexivity|]. cbn. destruct (m_UniqueID c =? id); cbn; congruence.
Qed.

Lemma filtered (f : Z -> bool) l : sublist (List.filter f l) l.
Proof. induction l as [|x l IH]; cbn; [constructor|]. destruct (f x); constructor; exact IH. Qed.

Lemma release_simulated id s s' out : release_handle id s = Some (s', out) -> simulated s [] s'.
Proof.
  intros E. unfold release_handle in E. apply bind_Some in E as ([ds rs] & E1 & E). injection E as E.
  destruct (for_clients_ok _ _ _ _ _ dtor_faithful E1) as [I1 F1].
  destruct (on_requests_ok env depth recover _ _ _ _ _ F1 E) as [(A & B & C) R].
  change (s_ClientCount s' = s_ClientCount s) in C. change (Server.m_Clients s' = Server.m_Clients s) in A.
  change (removed s' = List.filter (fun c => negb (has_id id c)) (removed s)) in B.
  assert (Hsub : sublist (all_ids s') (all_ids s)).
  { unfold all_ids. rewrite A, B, ids_filter. apply sublist_app; [reflexivity | apply filtered]. }
  split; [split; [lia | |] |].
  - intros i Hi. left. eapply sublist_submseteq, elem_of_submseteq in Hsub; eauto.
  - intros [Hn _ _]. exact (sublist_NoDup _ _ Hn Hsub).
  - exact (posted_sub _ _ _ _ (in_removed s) R).
Qed.

Lemma accept_simulated ip now address mem s s' : OnConnectionAccepted fresh ip now address mem s = Some s' -> simulated s [] s'.
Proof.
  unfold OnConnectionAccepted. destruct (_ =? _); [discriminate|]. cbv zeta. intros [= <-].
  assert (A : all_ids (s <| s_ClientCount ::= Z.succ |> <| Server.m_Clients ::= fun cs => cs ++
      [cClientHandle_ctor fresh ip now (s_ClientCount (s <| s_ClientCount ::= Z.succ |>)) address mem] |>)
    ≡ₚ Z.succ (s_ClientCount s) :: all_ids s).
  { transitivity ((ids (Server.m_Clients s) ++ [Z.succ (s_ClientCount s)]) ++ ids (removed s)).
    - unfold all_ids. apply Permutation_app_tail.
      change (map m_UniqueID (Server.m_Clients s ++ [cClientHandle_ctor fresh ip now (Z.succ (s_ClientCount s)) address mem])
        ≡ₚ ids (Server.m_Clients s) ++ [Z.succ (s_ClientCount s)]).
      rewrite map_app. reflexivity.
    - rewrite <- app_assoc. symmetry. apply Permutation_middle. }
  match goal with |- simulated s [] ?x => assert (C : s_ClientCount x = Z.succ (s_ClientCount s)) by reflexivity end.
  split; [split; rewrite ?C |].
  - lia.
  - intros i Hi. rewrite A in Hi. apply elem_of_cons in Hi as [->|Hi]; [right; lia | auto].
  - intros [Hn Hc Hp]. rewrite A. constructor; [|exact Hn]. intros Hi. specialize (Hc _ Hi). lia.
  - apply run_done.
Qed.

(** A change of the flags. *)
Lemma simulated_flags s calls s1 (f : cServer -> cServer) :
  (forall s, all_ids (f s) = all_ids s /\ s_ClientCount (f s) = s_ClientCount s /\ manager (f s) = manager s /\ media (f s) = media s) ->
  simulated s calls s1 -> simulated s calls (f s1).
Proof.
  intros Hf [[C O N] R]. destruct (Hf s1) as (A & C1 & M & W). split; [split|].
  - rewrite C1. exact C.
  - rewrite A, C1. exact O.
  - rewrite A. exact N.
  - rewrite M, W. exact R.
Qed.

Lemma tick_simulated now s go s' out : Tick fresh now s = Some (go, s', out) -> simulated s [] s'.
Proof.
  intros E. unfold Tick in E. cbv zeta in E. apply bind_Some in E as ([s1 o1] & E1 & E).
  set (s0 := s <| m_PlayerCountDiff := 0 |> <| m_PlayerCount ::= fun n => n + m_PlayerCountDiff s |>) in E1.
  assert (S1 : simulated s [] s1).
  { unfold TickClients in E1. apply bind_Some in E1 as ([[kept gone] rs] & E1 & E2). injection E2 as E2.
    destruct (tick_clients_ok _ _ _ _ _ _ E1) as [P F].
    destruct (on_requests_ok env depth recover _ _ _ _ _ F E2) as [(A & B & C) R].
    eapply simulated_quiet; [|exact C | apply (in_clients s) | exact R].
    change (Server.m_Clients s1 = kept) in A. change (removed s1 = removed s ++ gone) in B.
    unfold all_ids. rewrite A, B. unfold ids in *. rewrite map_app in *. change (Server.m_Clients s0) with (Server.m_Clients s) in P.
    rewrite <- P, <- !app_assoc. apply Permutation_app_head, Permutation_app_comm. }
  destruct (negb (m_bRestarting s1)); injection E as _ <- _; [exact S1|]. 
  apply (simulated_flags _ _ s1 (fun s2 : cServer => s2 <| m_bRestarting := false |>)); [|exact S1]. intros s2. repeat split.
Qed.

Lemma authenticator_simulated now s s' out : authenticator_round now s = Some (s', out) -> simulated s [] s'.
Proof.
  intros E. unfold authenticator_round in E. destruct (Execute_round (authenticator s)) as [[v queue]|].
  2:{ injection E as <- _. eapply (simulated_quiet _ _ (fun _ => False)); [reflexivity | reflexivity | intros i [] | apply run_done]. }
  cbv zeta in E. destruct v as [id name uuid|id reason].
  - unfold server_AuthenticateUser in E. apply bind_Some in E as ([cs rs] & E1 & E). injection E as E.
    destruct (first_client_ok _ _ _ _ _ (speaks_Authenticate now name uuid) E1) as [I F].
    destruct (on_requests_ok env depth recover _ _ _ _ _ F E) as [(A & B & C) R].
    eapply simulated_quiet; [|exact C | apply (in_clients s) | exact R].
    change (Server.m_Clients s' = cs) in A. change (removed s' = removed s) in B. unfold all_ids. rewrite A, B, I. reflexivity.
  - destruct (each_client_ok env depth recover _ _ _ _ _ (speaks_SendDisconnect from reason) E) as (A & B & C & P).
    eapply simulated_quiet; [unfold all_ids; rewrite A, B; reflexivity | exact C | apply (in_clients s) | exact P].
Qed.

Lemma step_simulated s calls s' : server_step fresh env depth recover s calls s' -> simulated s calls s'.
Proof.
  intros Hst. inversion Hst as [? ? ? ? ? ? E|? ? ? ? ? E|? ? ? ? E|? ? ? ? ? E|? ? ? ? E|? ? ? ? ? E|? ? ? ? ? ? ? ? E|? ? ? ? ? E| | | |? ? ? E]; subst.
  - exact (accept_simulated _ _ _ _ _ _ E).
  - exact (link_event_simulated _ _ _ _ _ E).
  - exact (release_simulated _ _ _ _ E).
  - exact (tick_simulated _ _ _ _ _ E).
  - exact (authenticator_simulated _ _ _ _ E).
  - unfold manager_round in E. apply bind_Some in E as ([[mgr w] calls0] & E1 & E). apply bind_Some in E as ([s1 o1] & E2 & [= <- <- _]).
    eapply simulated_calls; [eapply step_round, E1 | exact E2].
  - unfold connection_event in E. apply bind_Some in E as ([[mgr w] calls0] & E1 & E). apply bind_Some in E as ([s1 o1] & E2 & [= <- <- _]).
    eapply simulated_calls; [eapply step_media, E1 | exact E2].
  - exact (simulated_each _ _ _ _ _ (speaks_SendDisconnect from _) E).
  - split; [apply id_step_perm; reflexivity | apply run_one, step_threads].
  - split; [apply id_step_perm; reflexivity | apply run_done].
  - split; [apply id_step_perm; reflexivity | apply run_done].
  - unfold Shutdown_end in E. apply bind_Some in E as ([cs rs] & E1 & E). injection E as E.
    destruct (for_clients_ok _ _ _ _ _ Destroy_faithful E1) as [I F].
    destruct (on_requests_ok env depth recover _ _ _ _ _ F E) as [(A & B & C) R].
    eapply simulated_quiet; [|exact C | apply (in_clients s) | exact R].
    change (Server.m_Clients s' = []) in A. change (removed s' = removed s ++ cs) in B. unfold all_ids, ids in *. rewrite A, B, map_app, I. cbn [map app].
    apply Permutation_app_comm.
Qed.

Lemma run_simulated s calls s' : server_run fresh env depth recover s calls s' -> 
  mgr_run env depth recover (fun _ => True) (manager s, media s) calls (manager s', media s').
Proof.
  induction 1 as [s|s calls s1 calls1 s' Hst Hr IH]; [constructor|].
  eapply mgr_run_app; [|exact IH]. eapply run_weaken; [|exact (proj2 (step_simulated _ _ _ Hst))]. auto.
Qed.

Lemma run_ids s calls s' : server_run fresh env depth recover s calls s' -> ids_ok s -> ids_ok s'.
Proof.
  induction 1 as [s|s calls s1 calls1 s' Hst Hr IH]; intros Hok; [exact Hok|].
  exact (IH (ids_ok_step _ _ Hok (proj1 (step_simulated _ _ _ Hst)))).
Qed.

(** In every state the server can be in no two handles, listed or still referred to, have
    the same id. *)
Theorem ids_never_shared port calls s : server_run fresh env depth recover (cServer_ctor port) calls s ->
  NoDup (all_ids s) /\ forall i, i ∈ all_ids s -> 0 < i <= s_ClientCount s.
Proof.
  intros Hr. assert (Hok : ids_ok s).
  { eapply run_ids; [exact Hr|]. split; [constructor | intros i Hi; inversion Hi | cbn; lia]. }
  split; [apply Hok | intros i; apply (ids_counted _ Hok)].
Qed.

(** An id nobody has any more stays unused. *)
Lemma run_gone id s calls s' : server_run fresh env depth recover s calls s' -> id <= s_ClientCount s -> id ∉ all_ids s ->
  mgr_run env depth recover (fun e => m_Type e = JOIN -> ev_ClientID e <> id) (manager s, media s) calls (manager s', media s').
Proof.
  induction 1 as [s|s calls s1 calls1 s' Hst Hr IH]; intros Hc Hn; [constructor|].
  destruct (step_simulated _ _ _ Hst) as [[C O _] R]. eapply mgr_run_app.
  - eapply run_weaken; [|exact R]. intros e He Hj Hid. apply Hn. rewrite <- Hid. exact (He Hj).
  - apply IH; [lia|]. intros Hi. destruct (O _ Hi); [contradiction | lia].
Qed.

(** The requests of the destructors of the handles with the id: they are all of its going
    offline, and there is one if there is such a handle. *)
Lemma dtor_requests id cs cs' rs : for_clients (has_id id) cClientHandle_dtor cs = Some (cs', rs) ->
  Forall (fun r => r = (id, Manager_doUserOffline id)) rs /\ (id ∈ ids cs -> rs <> []).
Proof.
  revert cs' rs. induction cs as [|c cs IH]; intros cs' rs; cbn [for_clients].
  { intros [= <- <-]. split; [constructor | intros Hi; inversion Hi]. }
  intros E. apply bind_Some in E as ([c1 o1] & E1 & E). apply bind_Some in E as ([cs1 o2] & E2 & [= <- <-]).
  destruct (IH _ _ E2) as [F N]. unfold has_id in E1. destruct (Z.eqb_spec (m_UniqueID c) id) as [Hid|Hid].
  - apply dtor_asks in E1 as ->. cbn [signed map app]. rewrite Hid. split; [constructor; [reflexivity | exact F] | discriminate].
  - injection E1 as <- <-. split; [exact F|]. intros [->|Hi]%elem_of_cons; [destruct (Hid eq_refl) | exact (N Hi)].
Qed.

Lemma offline_posts id rs s s' out : Forall (fun r => r = (id, Manager_doUserOffline id)) rs -> rs <> [] ->
  on_requests rs s = (s', out) -> tidy (rooms (manager s)) ->
  (forall e, e ∈ m_Queue (manager s) -> m_Type e = JOIN -> ev_ClientID e <> id) -> leaving id (manager s').
Proof.
  intros Hf Hne. destruct rs as [|r rs]; [contradiction|]. apply Forall_cons in Hf as [-> Hf]. cbn [on_requests on_request].
  set (s1 := s <| manager ::= doUserOffline id |>). intros E Ht Hj.
  assert (L1 : leaving id (manager s1)) by (apply offline_leaving; assumption).
  assert (T1 : tidy (rooms (manager s1))) by (change (tidy (rooms (doUserOffline id (manager s)))); rewrite rooms_offline; exact Ht).
  destruct (on_requests rs s1) as [s2 o2] eqn:E2. injection E as <- <-. clearbody s1. clear Hne Hj Ht. revert s1 L1 T1 E2.
  induction Hf as [|r rs -> Hf IH]; intros s1 L1 T1; cbn [on_requests on_request]; [intros [= <- <-]; exact L1|].
  destruct (on_requests rs _) as [s3 o3] eqn:E3. intros [= <- <-]. eapply IH; [| |exact E3].
  - apply (step_leaving env depth recover (fun _ => False) id (manager s1) (media s1) [] _ (media s1)); [intros e [] | exact T1 | exact L1 | apply step_offline].
  - change (tidy (rooms (doUserOffline id (manager s1)))). rewrite rooms_offline. exact T1.
Qed.

Lemma from_release id r : r = (id, Manager_doUserOffline id) -> r.1 = id /\ from r.1 r.2.
Proof. intros ->. split; reflexivity. Qed.

(** C11. Once the handle of a client whose connection was closed is gone, and no join of it was
    waiting, the client is out of every channel as soon as the manager's queue has been
    worked off - whatever the server does meanwhile, for good: nobody else can join in its
    name, since ids are not used again and every request is made in the name of the handle
    that makes it. *)
Theorem gone_client_leaves id s s1 out calls s' : ids_ok s -> tidy (rooms (manager s)) ->
  id ∈ ids (removed s) ->
  (forall e, e ∈ m_Queue (manager s) -> m_Type e = JOIN -> ev_ClientID e <> id) ->
  release_handle id s = Some (s1, out) ->
  server_run fresh env depth recover s1 calls s' -> m_Queue (manager s') = [] ->
  forall name, id ∉ members name (rooms (manager s')).
Proof.
  intros Hok Ht Hid Hj E Hr Hq name Hm. pose proof (release_simulated _ _ _ _ E) as [I R].
  unfold release_handle in E. apply bind_Some in E as ([ds rs] & E1 & E). injection E as E.
  destruct (dtor_requests _ _ _ _ E1) as [F N].
  assert (L : leaving id (manager s1)) by (eapply offline_posts; [exact F | exact (N Hid) | exact E | exact Ht | exact Hj]).
  assert (T1 : tidy (rooms (manager s1))) by exact (run_tidy _ _ _ _ _ _ _ R Ht).
  assert (Hgone : id ∉ all_ids s1).
  { destruct (on_requests_ok env depth recover (fun i => i = id) _ _ _ _ (Forall_impl _ _ _ F (fun r Hr => from_release id r Hr)) E) as [(A & B & _) _].
    unfold all_ids. rewrite A, B.
    change (removed (s <| removed ::= _ |>)) with (List.filter (fun c => negb (has_id id c)) (removed s)). rewrite ids_filter.
    pose proof (ids_distinct _ Hok) as Hn. unfold all_ids in Hn. apply NoDup_app in Hn as (_ & Hd & _).
    intros [Hi|Hi]%elem_of_app; [exact (Hd _ Hi Hid)|]. apply list_elem_of_In, filter_In in Hi as [_ Hi]. rewrite Z.eqb_refl in Hi. discriminate. }
  assert (Hc : id <= s_ClientCount s1).
  { pose proof (ids_counted _ Hok id ltac:(apply elem_of_app; auto)). pose proof (id_count _ _ I). lia. }
  pose proof (run_gone id _ _ _ Hr Hc Hgone) as Rm.
  assert (Lf : leaving id (manager s')) by exact (run_leaving _ _ _ _ id _ _ _ Rm (fun e He => He) T1 L).
  destruct (leaving_posted _ _ Lf name Hm) as (e & He & _). rewrite Hq in He. inversion He.
Qed.
End ServerRuns.

(** ** A sample: two clients log in and join a channel, the first one's connection is closed *)

#[local] Existing Instance Toy.lib.
#[local] Existing Instance HandleFacts.Sample.keys.
#[local] Existing Instance Dtls.Sample.lib.
#[local] Existing Instance toy_json.

Inductive sample_op :=
  | op_accept | op_receive (id : Z) (packet : list Z) | op_close (id : Z) | op_release (id : Z)
  | op_tick | op_authenticator | op_manager.

Definition sample_step (op : sample_op) (s : cServer) : option (cServer * list server_call) :=
  match op with
  | op_accept => s ← OnConnectionAccepted HandleFacts.Sample.fresh (chars "10.0.0.7") 0 77 HandleFacts.Sample.cipher s; Some (s, [])
  | op_receive id packet => '(s, _) ← link_event id (run_callback (link_data (frame packet))) s; Some (s, [])
  | op_close id => '(s, _) ← link_event id (run_callback link_closed) s; Some (s, [])
  | op_release id => '(s, _) ← release_handle id s; Some (s, [])
  | op_tick => '(_, s, _) ← Tick HandleFacts.Sample.fresh 0 s; Some (s, [])
  | op_authenticator => '(s, _) ← authenticator_round 0 s; Some (s, [])
  | op_manager => '(s, calls, _) ← manager_round sample_env 1 (fun _ _ => None) sample_moment s; Some (s, calls)
  end.

Fixpoint sample_steps (ops : list sample_op) (s : cServer) : option (cServer * list server_call) :=
  match ops with
  | [] => Some (s, [])
  | op :: ops => '(s, calls) ← sample_step op s; '(s, calls') ← sample_steps ops s; Some (s, calls ++ calls')
  end.

Lemma sample_steps_run ops : forall s s' calls, sample_steps ops s = Some (s', calls) ->
  server_run HandleFacts.Sample.fresh sample_env 1 (fun _ _ => None) s calls s'.
Proof.
  induction ops as [|op ops IH]; intros s s' calls; cbn [sample_steps]; [intros [= <- <-]; constructor|].
  intros E. apply bind_Some in E as ([s1 c1] & E1 & E). apply bind_Some in E as ([s2 c2] & E2 & [= <- <-]).
  eapply server_more; [|exact (IH _ _ _ E2)]. destruct op; cbn [sample_step] in E1.
  - apply bind_Some in E1 as (s3 & E1 & [= <- <-]). eapply at_accept, E1.
  - apply bind_Some in E1 as ([s3 o] & E1 & [= <- <-]). eapply at_link, E1.
  - apply bind_Some in E1 as ([s3 o] & E1 & [= <- <-]). eapply at_link, E1.
  - apply bind_Some in E1 as ([s3 o] & E1 & [= <- <-]). eapply at_release, E1.
  - apply bind_Some in E1 as ([[b s3] o] & E1 & [= <- <-]). eapply at_tick, E1.
  - apply bind_Some in E1 as ([s3 o] & E1 & [= <- <-]). eapply at_authenticator, E1.
  - apply bind_Some in E1 as ([[s3 cs] o] & E1 & [= <- <-]). eapply at_manager, E1.
Qed.

(** A client asks for the login state and logs in without encryption; once it is working it
    joins the channel. *)
Definition sample_login : list sample_op :=
  flat_map (fun id => [op_receive id (StatusRequest_packet (chars "server") 6666 2); op_tick;
                       op_receive id (LoginInfo_packet (chars "name")); op_tick; op_authenticator; op_tick;
                       op_receive id (JoinRoom_packet channel); op_tick; op_manager]) [1; 2].

Definition sample_session : option (cServer * list server_call) :=
  sample_steps ([op_accept; op_accept] ++ sample_login) (cServer_ctor 6666).

Lemma sample_session_outcome :
  (fun r : cServer * list server_call => (elements (members channel (rooms (manager r.1))), List.length (m_Queue (manager r.1)),
     map (fun x => elements (hears channel x ∅ r.2)) [1; 2], all_ids r.1)) <$> sample_session
  = Some ([2; 1], 0%nat, [[2]; [1]], [1; 2]).
Proof. vm_compute. reflexivity. Qed.

Lemma sample_session_eq : sample_session = sample_steps ([op_accept; op_accept] ++ sample_login) (cServer_ctor 6666).
Proof. reflexivity. Qed.

Lemma sample_session_runs : exists s calls, sample_session = Some (s, calls).
Proof.
  pose proof sample_session_outcome as O. destruct sample_session as [[s calls]|]; [eauto | discriminate O].
Qed.

Lemma sample_session_run s calls : sample_session = Some (s, calls) ->
  server_run HandleFacts.Sample.fresh sample_env 1 (fun _ _ => None) (cServer_ctor 6666) calls s.
Proof. rewrite sample_session_eq. apply sample_steps_run. Qed.

Example ids_never_shared_witness : exists s calls, sample_session = Some (s, calls) /\ NoDup (all_ids s).
Proof.
  destruct sample_session_runs as (s & calls & E). exists s, calls. split; [exact E|].
  apply (ids_never_shared HandleFacts.Sample.fresh sample_env 1 (fun _ _ => None) 6666 calls s).
  exact (sample_session_run _ _ E).
Defined.

(** The first client's connection is closed; the tick takes its handle out. *)
Definition sample_closed : option (cServer * list server_call) :=
  '(s, _) ← sample_session; sample_steps [op_close 1; op_tick] s.

Definition sample_released (r : option (cServer * list server_call)) : option (cServer * list server_call) :=
  '(s, _) ← r; '(s, _) ← release_handle 1 s; sample_steps [op_manager] s.

Lemma sample_closed_outcome :
  (fun r : cServer * list server_call => (ids (removed r.1), m_Queue (manager r.1))) <$> sample_closed = Some ([1], []).
Proof. vm_compute. reflexivity. Qed.

Lemma sample_released_outcome :
  (fun r : cServer * list server_call => (m_Queue (manager r.1), elements (members channel (rooms (manager r.1)))))
    <$> sample_released sample_closed = Some ([], [2]).
Proof. vm_compute. reflexivity. Qed.

Lemma sample_start_ok : ids_ok (cServer_ctor 6666).
Proof. split; [constructor | intros i Hi; inversion Hi | cbn; lia]. Qed.

Lemma sample_closed_eq : sample_closed = ('(s, _) ← sample_session; sample_steps [op_close 1; op_tick] s).
Proof. reflexivity. Qed.

Lemma sample_released_eq r : sample_released r = ('(s, _) ← r; '(s, _) ← release_handle 1 s; sample_steps [op_manager] s).
Proof. reflexivity. Qed.

Lemma sample_closed_ok s calls : sample_closed = Some (s, calls) ->
  ids_ok s /\ tidy (rooms (manager s)) /\ ids (removed s) = [1] /\ m_Queue (manager s) = [].
Proof.
  intros E. pose proof sample_closed_outcome as O. rewrite E in O. injection O as O1 O2.
  rewrite sample_closed_eq in E. destruct sample_session as [[s0 calls0]|] eqn:E0; [|discriminate E]. cbn [mbind option_bind] in E.
  pose proof (sample_session_run _ _ E0) as R0. pose proof (sample_steps_run _ _ _ _ E) as R. split_and!; [| |exact O1 | exact O2].
  - exact (run_ids _ _ _ _ _ _ _ R (run_ids _ _ _ _ _ _ _ R0 sample_start_ok)).
  - apply (run_tidy _ _ _ _ _ _ _ (run_simulated _ _ _ _ _ _ _ R)). apply (run_tidy _ _ _ _ _ _ _ (run_simulated _ _ _ _ _ _ _ R0)).
    exact start_tidy.
Qed.

Example gone_client_leaves_witness : exists s calls, sample_released sample_closed = Some (s, calls)
  /\ forall name, 1 ∉ members name (rooms (manager s)).
Proof.
  pose proof sample_released_outcome as O. destruct (sample_released sample_closed) as [[s' calls]|] eqn:E; [|discriminate O].
  exists s', calls. split; [reflexivity|]. rewrite sample_released_eq in E. destruct sample_closed as [[s calls0]|] eqn:Ec; [|discriminate E]. cbn [mbind option_bind] in E.
  apply bind_Some in E as ([s1 out] & Er & E). destruct (sample_closed_ok _ _ Ec) as (Hok & Ht & Hid & Hq).
  injection O as O1 _.
  apply (gone_client_leaves HandleFacts.Sample.fresh sample_env 1 (fun _ _ => None) 1 s s1 out calls s' Hok Ht).
  - rewrite Hid. apply elem_of_cons. auto.
  - rewrite Hq. intros e He. inversion He.
  - exact Er.
  - exact (sample_steps_run _ _ _ _ E).
  - exact O1.
Defined.

(** The messages of the sample's last round, delivered to a list of handles. *)
Definition sample_calls : list server_call :=
  [Server_onChannelMsg channel 2 1 (Online 2); Server_onJoinChannelResult 2 channel 1; Server_onChannelMsg channel 1 7 (Online 1)].

Definition sample_two : cServer :=
  (cServer_ctor 0) <| Server.m_Clients := map (fun id => HandleFacts.Sample.login <| m_UniqueID := id |>) [1; 2] |>.

Lemma sample_two_called : bool_decide (is_Some (on_calls sample_calls sample_two)) = true.
Proof. vm_compute. reflexivity. Qed.

Example calls_delivered_witness : exists s out, on_calls sample_calls sample_two = Some (s, out)
  /\ Forall2 (fun c c' => exists o, process_all deliver (calls_for (m_UniqueID c) sample_calls) c = Some (c', o))
       (Server.m_Clients sample_two) (Server.m_Clients s)
  /\ map (fun id => List.length (calls_for id sample_calls)) [1; 2] = [1%nat; 1%nat].
Proof.
  destruct (proj1 (bool_decide_eq_true _) sample_two_called) as [[s out] E]. exists s, out. split; [exact E|]. split; [|reflexivity].
  apply (calls_delivered sample_env 1 (fun _ _ => None) sample_calls sample_two s out E).
Defined.
