(* ===== verification/Hub.v ===== *)
(** * Hub: the server as a switchboard between its parts

    What the server promises to the parts it joins: every handle lives by its id, acts when
    its link, the tick, the authenticator or the manager has something for it, and what it
    asks for is with the authenticator or in the manager's queue at once, in its own name;
    what the manager says to a client is done by that client's handle at once and in order.
    [hub_step] says so as a function, without the lists, loops and deferred requests of
    Server.v; [server_refines_hub] proves that the server never does anything else. *)

From S2P Require Import Prelude Bytes MediaDefinitions StringUtils ByteBuffer Cipher Framing Packetizer Messages ClientHandle HandleFacts HandleIdentity Authenticator RtpHeaders Rtcp Stats Text SdpInfo NiceConnection Dtls DtlsTransport Connection ConnectionFacts Ordered OneToMany Peer Channel ChannelFacts Server ServerFacts.

(** ** What the server promises *)

(** What a handle is made to do. *)
Inductive handle_act :=
  | act_link (cb : link_callback)
  | act_tick (now : Z)
  | act_authenticate (now : Z) (a_Name a_UUID : AString)
  | act_kick (a_Reason : Z)
  | act_told (call : server_call)
  | act_destroy
  | act_dtor.

(** What can happen. *)
Inductive cause `{CryptoLib} :=
  | c_accepted (ip : AString) (now address : Z) (mem : cAesCfb128)
  | c_link (id : Z) (cb : link_callback)
  | c_released (id : Z)
  | c_tick (now : Z)
  | c_authenticator (now : Z)
  | c_manager (m : Moment)
  | c_connection (name : AString) (id target : Z) (f : WebRtcConnection -> option (WebRtcConnection * list conn_effect))
  | c_kick (id a_Reason : Z)
  | c_media (w : world)
  | c_players (n : Z)
  | c_shutdown
  | c_end.

(** The handles by their ids, the ids of those the server lists, in order, and the parts. *)
Record hub `{CryptoLib} := {
  handles : gmap Z cClientHandle;
  listed : list Z;
  last_id : Z;
  asked : list cUser;
  board : cManager;
  hub_media : world
}.

#[export] Instance eta_hub `{CryptoLib} : Eta hub := fun h =>
  {| handles := handles h; listed := listed h; last_id := last_id h; asked := asked h; board := board h; hub_media := hub_media h |}.

Section Hub.
Context `{PolarSSL, ServerKeys, CryptoLib, JsonCpp} (fresh : nat -> list Z) (env : Env).
Variables (depth : nat) (recover : list Z -> list Z -> option (list (list Z))).
#[local] Notation Action := (Act cClientHandle request).

Definition perform (a : handle_act) : Action :=
  match a with
  | act_link cb => run_callback cb
  | act_tick now => ServerTick fresh now
  | act_authenticate now name uuid => Authenticate now name uuid
  | act_kick reason => Kick reason
  | act_told call => deliver call
  | act_destroy => Destroy
  | act_dtor => cClientHandle_dtor
  end.

(** The events a request of the handle [id] puts into the manager's queue: going offline is
    leaving every room there is. *)
Definition events_of (id : Z) (r : request) (rs : list (AString * cRoom)) : list cMediaEvent :=
  let event ch type msg target :=
    {| ev_ClientID := id; ev_Channel := ch; m_Type := type; m_Msg := msg; m_TargetID := target |} in
  match r with
  | Manager_doUserJoinChannel _ ch => [event ch JOIN [] 0]
  | Manager_doUserLeftChannel _ ch => [event ch LEAVE [] 0]
  | Manager_doUserOffline _ => map (fun room => event (m_ChannelName room.2) LEAVE [] 0) rs
  | Manager_OnMsgFromPeer ch _ target msg => [event ch MEDIA msg target]
  | Authenticator_Authenticate _ _ _ | Link_Send _ => []
  end.

Definition users_of (id : Z) (r : request) : list cUser :=
  match r with
  | Authenticator_Authenticate _ name pw => [{| m_ClientID := id; Authenticator.m_Username := name; m_Password := pw |}]
  | _ => []
  end.

Definition post (p : Z * request) (h : hub) : hub :=
  h <| asked ::= fun us => us ++ users_of p.1 p.2 |>
    <| board ::= fun b => b <| m_Queue ::= fun q => q ++ events_of p.1 p.2 (rooms b) |> |>.

Definition post_all (rs : list (Z * request)) (h : hub) : hub := foldl (fun h p => post p h) h rs.

(** A handle acts, and what it asks for is posted; nobody acts for an id without a handle. *)
Definition act (id : Z) (a : handle_act) (h : hub) : option hub :=
  match handles h !! id with
  | None => Some h
  | Some c => '(c, rs) ← perform a c; Some (post_all (map (pair id) rs) (h <| handles ::= <[id := c]> |>))
  end.

Fixpoint acts (l : list (Z * handle_act)) (h : hub) : option hub :=
  match l with [] => Some h | (id, a) :: l => h ← act id a h; acts l h end.

(** For a client that the server lists. *)
Definition if_listed (h : hub) (id : Z) (a : handle_act) : list (Z * handle_act) :=
  if decide (id ∈ listed h) then [(id, a)] else [].

Definition stays (h : hub) (id : Z) : bool :=
  match handles h !! id with Some c => negb (IsDestroyed c) | None => false end.

(** The calls the manager has made are done by the handles they name. *)
Definition told (h : hub) (calls : list server_call) : list (Z * handle_act) :=
  flat_map (fun call => match addressee call with Some id => if_listed h id (act_told call) | None => [] end) calls.

Definition dealt (r : option (cManager * world * list server_call)) (h : hub) : option (hub * list server_call) :=
  '(mgr, w, calls) ← r;
  h ← acts (told h calls) (h <| board := mgr |> <| hub_media := w |>);
  Some (h, calls).

Definition quietly (h : option hub) : option (hub * list server_call) := h ← h; Some (h, []).

Definition hub_step (cause : cause) (h : hub) : option (hub * list server_call) :=
  match cause with
  | c_accepted ip now address mem =>
    if last_id h =? 2 ^ 31 - 1 then None else
    let id := last_id h + 1 in
    Some (h <| last_id := id |> <| handles ::= <[id := cClientHandle_ctor fresh ip now id address mem]> |> <| listed ::= fun ids => ids ++ [id] |>, [])
  | c_link id cb => quietly (act id (act_link cb) h)
  | c_released id =>
    if decide (id ∈ listed h) then Some (h, []) else
    h ← act id act_dtor h; Some (h <| handles ::= delete id |>, [])
  | c_tick now =>
    let ids := List.filter (stays h) (listed h) in
    quietly (acts (map (fun id => (id, act_tick now)) ids) (h <| listed := ids |>))
  | c_authenticator now =>
    match asked h with
    | [] => Some (h, [])
    | user :: users =>
      let h := h <| asked := users |> in
      quietly (acts match judge user with
                    | AuthenticateUser id name uuid => if_listed h id (act_authenticate now name uuid)
                    | KickUser id reason => if_listed h id (act_kick reason)
                    end h)
    end
  | c_manager m => dealt (Execute_event env depth recover m (board h) (hub_media h)) h
  | c_connection name id target f => dealt (media_event env depth recover name id target f (board h) (hub_media h)) h
  | c_kick id reason => quietly (acts (if_listed h id (act_kick reason)) h)
  | c_media w => Some (h <| hub_media := w |>, [])
  | c_end => quietly (acts (map (fun id => (id, act_destroy)) (listed h)) (h <| listed := [] |>))
  | c_players _ | c_shutdown => Some (h, [])
  end.

Fixpoint hub_run (causes : list cause) (h : hub) : option (hub * list server_call) :=
  match causes with
  | [] => Some (h, [])
  | c :: causes => '(h, calls) ← hub_step c h; '(h, calls') ← hub_run causes h; Some (h, calls ++ calls')
  end.

(** At the start there is nothing. *)
Definition hub_start : hub :=
  {| handles := ∅; listed := []; last_id := 0; asked := []; board := {| rooms := []; m_Queue := [] |};
     hub_media := {| conns := ∅; listeners := ∅; next_address := 0 |} |}.

(** ** The server as a hub *)

Definition by_id (cs : list cClientHandle) : gmap Z cClientHandle := list_to_map (map (fun c => (m_UniqueID c, c)) cs).

Definition hub_of (s : cServer) : hub :=
  {| handles := by_id (Server.m_Clients s ++ removed s); listed := ids (Server.m_Clients s); last_id := s_ClientCount s;
     asked := authenticator s; board := manager s; hub_media := media s |}.

Lemma keys_by_id cs : (map (fun c => (m_UniqueID c, c)) cs).*1 = ids cs.
Proof. unfold ids. rewrite map_map. reflexivity. Qed.

Lemma ids_app a b : ids (a ++ b) = ids a ++ ids b.
Proof. apply map_app. Qed.

Lemma nodup_perm (l l' : list Z) : l ≡ₚ l' -> NoDup l -> NoDup l'.
Proof. intros P Hn. rewrite <- P. exact Hn. Qed.

Lemma by_id_perm cs cs' : NoDup (ids cs) -> cs ≡ₚ cs' -> by_id cs = by_id cs'.
Proof.
  intros Hn P. apply list_to_map_proper; [rewrite keys_by_id; exact Hn|]. apply Permutation_map, P.
Qed.

Lemma by_id_cons c cs : by_id (c :: cs) = <[m_UniqueID c := c]> (by_id cs).
Proof. reflexivity. Qed.

Lemma by_id_lookup cs id : by_id cs !! id = None <-> id ∉ ids cs.
Proof. unfold by_id. rewrite <- keys_by_id. symmetry. apply not_elem_of_list_to_map. Qed.

(** ** Acting without posting *)

(** The handles after some of them have acted, and all they have asked for. *)
Fixpoint run_acts (l : list (Z * handle_act)) (hs : gmap Z cClientHandle) : option (gmap Z cClientHandle * list (Z * request)) :=
  match l with
  | [] => Some (hs, [])
  | (id, a) :: l =>
    match hs !! id with
    | None => run_acts l hs
    | Some c => '(c, rs) ← perform a c; '(hs, rs') ← run_acts l (<[id := c]> hs); Some (hs, map (pair id) rs ++ rs')
    end
  end.

Lemma post_handles p h hs : (post p h) <| handles := hs |> = post p (h <| handles := hs |>).
Proof. reflexivity. Qed.

Lemma post_all_handles rs : forall h hs, (post_all rs h) <| handles := hs |> = post_all rs (h <| handles := hs |>).
Proof. induction rs as [|p rs IH]; intros h hs; [reflexivity|]. cbn [post_all foldl]. rewrite (IH (post p h)). reflexivity. Qed.

Lemma post_all_same rs : forall h, handles (post_all rs h) = handles h /\ listed (post_all rs h) = listed h.
Proof. induction rs as [|p rs IH]; intros h; [auto|]. exact (IH (post p h)). Qed.

Lemma post_all_app a b h : post_all (a ++ b) h = post_all b (post_all a h).
Proof. apply foldl_app. Qed.

Lemma handles_twice h a b : h <| handles := a |> <| handles := b |> = h <| handles := b |>.
Proof. reflexivity. Qed.

(** It makes no difference that the server passes the requests on after the loop. *)
Lemma acts_run l : forall h, acts l h = ('(hs, rs) ← run_acts l (handles h); Some (post_all rs (h <| handles := hs |>))).
Proof.
  induction l as [|[id a] l IH]; intros h; cbn [acts run_acts]; [destruct h; reflexivity|].
  unfold act. destruct (handles h !! id) as [c|]; [|apply IH].
  destruct (perform a c) as [[c' rs]|]; [|reflexivity]. cbn [mbind option_bind]. rewrite IH.
  rewrite (proj1 (post_all_same _ _)). change (handles (h <| handles ::= <[id:=c']> |>)) with (<[id:=c']> (handles h)).
  destruct (run_acts l _) as [[hs rs']|]; [|reflexivity]. cbn [mbind option_bind].
  rewrite post_all_app, post_all_handles. reflexivity.
Qed.

Lemma run_acts_app a b : forall hs, run_acts (a ++ b) hs
  = ('(hs, rs) ← run_acts a hs; '(hs, rs') ← run_acts b hs; Some (hs, rs ++ rs')).
Proof.
  induction a as [|[id x] a IH]; intros hs; cbn [run_acts app].
  { cbn. destruct (run_acts b hs) as [[? ?]|]; reflexivity. }
  destruct (hs !! id) as [c|]; [|apply IH]. destruct (perform x c) as [[c' rs]|]; [|reflexivity]. cbn [mbind option_bind].
  rewrite IH. destruct (run_acts a _) as [[hs1 rs1]|]; [|reflexivity]. cbn [mbind option_bind].
  destruct (run_acts b hs1) as [[hs2 rs2]|]; [|reflexivity]. cbn. rewrite app_assoc. reflexivity.
Qed.

(** ** The loops of the server *)

#[local] Notation faithful := (speaks from).

Lemma perform_faithful a : faithful (perform a).
Proof.
  destruct a; cbn [perform]; [apply callback_faithful | apply speaks_ServerTick | apply speaks_Authenticate
    | apply speaks_SendDisconnect | apply deliver_faithful | apply Destroy_faithful | apply dtor_faithful].
Qed.

(** A loop that makes some handles act. *)
Lemma for_clients_acts which a cs : forall ds, NoDup (ids (cs ++ ds)) ->
  run_acts (map (fun c => (m_UniqueID c, a)) (List.filter which cs)) (by_id (cs ++ ds))
  = ('(cs', rs) ← for_clients which (perform a) cs; Some (by_id (cs' ++ ds), rs)).
Proof.
  induction cs as [|c cs IH]; intros ds Hn; cbn [for_clients]; [reflexivity|].
  assert (Hrest : forall c1, m_UniqueID c1 = m_UniqueID c ->
    run_acts (map (fun c => (m_UniqueID c, a)) (List.filter which cs)) (by_id (c1 :: cs ++ ds))
    = ('(cs', rs) ← for_clients which (perform a) cs; Some (by_id (c1 :: cs' ++ ds), rs))).
  { intros c1 Hc1. assert (Hn1 : NoDup (ids (cs ++ c1 :: ds))).
    { eapply nodup_perm; [|exact Hn]. unfold ids. rewrite !map_app. cbn [map app]. rewrite Hc1. apply Permutation_middle. }
    rewrite (by_id_perm (c1 :: cs ++ ds) (cs ++ c1 :: ds)), IH;
      [| exact Hn1 | eapply nodup_perm; [apply (Permutation_map m_UniqueID); symmetry; apply Permutation_middle | exact Hn1] | apply Permutation_middle].
    destruct (for_clients which (perform a) cs) as [[cs1 rs]|] eqn:E; [|reflexivity]. cbn [mbind option_bind].
    rewrite (by_id_perm (cs1 ++ c1 :: ds) (c1 :: cs1 ++ ds)); [reflexivity | | symmetry; apply Permutation_middle].
    rewrite ids_app, (proj1 (for_clients_ok _ _ _ _ _ (perform_faithful a) E)), <- ids_app. exact Hn1. }
  cbn [List.filter app]. destruct (which c).
  - cbn [map run_acts]. rewrite by_id_cons at 1. rewrite lookup_insert_eq.
    destruct (perform a c) as [[c1 o1]|] eqn:E1; [|reflexivity]. cbn [mbind option_bind].
    pose proof (proj1 (perform_faithful a _ _ _ E1)) as Hc1.
    rewrite by_id_cons, insert_insert_eq, <- Hc1, <- by_id_cons, Hrest by exact Hc1.
    destruct (for_clients which (perform a) cs) as [[cs1 rs]|]; [|reflexivity]. cbn. unfold signed. rewrite Hc1. reflexivity.
  - cbn [skip mbind option_bind]. rewrite (Hrest c eq_refl).
    destruct (for_clients which (perform a) cs) as [[cs1 rs]|]; reflexivity.
Qed.

(** The loop of the tick. *)
Lemma tick_clients_acts now cs : forall ds, NoDup (ids (cs ++ ds)) ->
  run_acts (map (fun c => (m_UniqueID c, act_tick now)) (List.filter (fun c => negb (IsDestroyed c)) cs)) (by_id (cs ++ ds))
  = ('(kept, gone, rs) ← tick_clients fresh now cs; Some (by_id (kept ++ gone ++ ds), rs)).
Proof.
  induction cs as [|c cs IH]; intros ds Hn; cbn [tick_clients]; [reflexivity|].
  assert (Hrest : forall c1, m_UniqueID c1 = m_UniqueID c ->
    run_acts (map (fun c => (m_UniqueID c, act_tick now)) (List.filter (fun c => negb (IsDestroyed c)) cs)) (by_id (c1 :: cs ++ ds))
    = ('(kept, gone, rs) ← tick_clients fresh now cs; Some (by_id (c1 :: kept ++ gone ++ ds), rs))).
  { intros c1 Hc1. assert (Hn1 : NoDup (ids (cs ++ c1 :: ds))).
    { eapply nodup_perm; [|exact Hn]. unfold ids. rewrite !map_app. cbn [map app]. rewrite Hc1. apply Permutation_middle. }
    rewrite (by_id_perm (c1 :: cs ++ ds) (cs ++ c1 :: ds)), IH;
      [| exact Hn1 | eapply nodup_perm; [apply (Permutation_map m_UniqueID); symmetry; apply Permutation_middle | exact Hn1] | apply Permutation_middle].
    destruct (tick_clients fresh now cs) as [[[kept gone] rs]|] eqn:E; [|reflexivity]. cbn [mbind option_bind].
    rewrite (by_id_perm (kept ++ gone ++ c1 :: ds) (c1 :: kept ++ gone ++ ds)); [reflexivity | | rewrite !app_assoc; symmetry; apply Permutation_middle].
    eapply nodup_perm; [|exact Hn1]. rewrite app_assoc, !(ids_app _ (c1 :: ds)).
    apply Permutation_app_tail. symmetry. exact (proj1 (tick_clients_ok _ _ _ _ _ _ E)). }
  cbn [List.filter app]. destruct (IsDestroyed c); cbn [negb].
  - rewrite (Hrest c eq_refl). destruct (tick_clients fresh now cs) as [[[kept gone] rs]|] eqn:E; [|reflexivity]. cbn [mbind option_bind app].
    rewrite (by_id_perm (c :: kept ++ gone ++ ds) (kept ++ c :: gone ++ ds)); [reflexivity | | apply Permutation_middle].
    eapply nodup_perm; [|exact Hn]. cbn [ids map app]. constructor. rewrite app_assoc. change (ids (cs ++ ds) ≡ₚ ids ((kept ++ gone) ++ ds)). rewrite !(ids_app _ ds).
    apply Permutation_app_tail. symmetry. exact (proj1 (tick_clients_ok _ _ _ _ _ _ E)).
  - cbn [map run_acts]. rewrite by_id_cons at 1. rewrite lookup_insert_eq. cbn [perform].
    destruct (ServerTick fresh now c) as [[c1 o1]|] eqn:E1; [|reflexivity]. cbn [mbind option_bind].
    pose proof (proj1 (speaks_ServerTick fresh now _ _ _ E1)) as Hc1.
    rewrite by_id_cons, insert_insert_eq, <- Hc1, <- by_id_cons, Hrest by exact Hc1.
    destruct (tick_clients fresh now cs) as [[[kept gone] rs]|]; [|reflexivity]. cbn. unfold signed. rewrite Hc1. reflexivity.
Qed.

Lemma filter_has_id a id cs : NoDup (ids cs) ->
  map (fun c => (m_UniqueID c, a)) (List.filter (has_id id) cs) = (if decide (id ∈ ids cs) then [(id, a)] else [] : list (Z * handle_act)).
Proof.
  induction cs as [|c cs IH]; intros Hn; [reflexivity|]. apply NoDup_cons in Hn as [Hc Hn]. cbn [List.filter]. unfold has_id at 1.
  specialize (IH Hn). destruct (Z.eqb_spec (m_UniqueID c) id) as [Hid|Hid].
  - cbn [map]. rewrite IH, Hid. rewrite decide_False by (rewrite <- Hid; exact Hc). rewrite decide_True; [reflexivity|]. subst. apply elem_of_cons. auto.
  - rewrite IH. destruct (decide (id ∈ ids cs)).
    + rewrite decide_True; [reflexivity|]. apply elem_of_cons. auto.
    + rewrite decide_False; [reflexivity|]. intros [Hx|Hx]%elem_of_cons; [exact (Hid (eq_sym Hx)) | contradiction].
Qed.

Lemma first_client_for id m cs : NoDup (ids cs) -> first_client id m cs = for_clients (has_id id) m cs.
Proof.
  assert (Hskip : forall cs, id ∉ ids cs -> for_clients (has_id id) m cs = Some (cs, [])).
  { clear cs. induction cs as [|c cs IH]; intros Hn; [reflexivity|]. apply not_elem_of_cons in Hn as [Hc Hn]. cbn [for_clients].
    change (has_id id c) with (m_UniqueID c =? id). rewrite (proj2 (Z.eqb_neq _ _)) by congruence. cbn [skip mbind option_bind]. rewrite IH by exact Hn. reflexivity. }
  induction cs as [|c cs IH]; intros Hn; [reflexivity|]. apply NoDup_cons in Hn as [Hc Hn]. cbn [first_client for_clients].
  destruct (has_id id c) eqn:E.
  - apply Z.eqb_eq in E. rewrite Hskip by (rewrite <- E; exact Hc). destruct (m c) as [[c' rs]|]; [|reflexivity].
    cbn. rewrite app_nil_r. reflexivity.
  - rewrite (IH Hn). reflexivity.
Qed.

Lemma for_clients_app which m cs ds : for_clients which m (cs ++ ds)
  = ('(cs, rs) ← for_clients which m cs; '(ds, rs') ← for_clients which m ds; Some (cs ++ ds, rs ++ rs')).
Proof.
  induction cs as [|c cs IH]; cbn [for_clients app].
  { cbn. destruct (for_clients which m ds) as [[? ?]|]; reflexivity. }
  destruct (if which c then m c else skip c) as [[c1 o1]|]; [|reflexivity]. cbn [mbind option_bind]. rewrite IH.
  destruct (for_clients which m cs) as [[cs1 rs1]|]; [|reflexivity]. cbn [mbind option_bind].
  destruct (for_clients which m ds) as [[ds1 rs2]|]; [|reflexivity]. cbn. rewrite app_assoc. reflexivity.
Qed.

(** ** The requests *)

Definition own_requests : list (Z * request) -> Prop := Forall (fun p => from p.1 p.2).

Lemma own_from who rs : from_clients who rs -> own_requests rs.
Proof. intros Hf. eapply Forall_impl; [exact Hf|]. intros p [_ Hp]. exact Hp. Qed.

Lemma offline_events id rs : forall m,
  foldl (fun m channel => addEvent (cMediaEvent_of id (m_ChannelName channel.2) LEAVE) m) m rs
  = m <| m_Queue ::= fun q => q ++ events_of id (Manager_doUserOffline id) rs |>.
Proof.
  induction rs as [|room rs IH]; intros [r q]; cbn [foldl].
  - change ({| rooms := r; m_Queue := q |} = {| rooms := r; m_Queue := q ++ [] |}). rewrite app_nil_r. reflexivity.
  - rewrite IH. change (events_of id (Manager_doUserOffline id) (room :: rs)) with
      ([cMediaEvent_of id (m_ChannelName room.2) LEAVE] ++ events_of id (Manager_doUserOffline id) rs).
    unfold addEvent, set_member. cbn. rewrite <- app_assoc. reflexivity.
Qed.

Lemma on_request_post id r s : from id r -> hub_of (on_request id r s).1 = post (id, r) (hub_of s).
Proof.
  destruct s as [cs ds n pc pd b1 b2 po sid us [rs q] w].
  destruct r; cbn [from]; intros Hf; subst; unfold post, hub_of, set_member; cbn; rewrite ?app_nil_r; try reflexivity.
  unfold doUserOffline. rewrite offline_events. reflexivity.
Qed.

Lemma on_requests_post rs s : own_requests rs -> hub_of (on_requests rs s).1 = post_all rs (hub_of s).
Proof.
  intros Hf. revert s. induction Hf as [|[id r] rs Hr _ IH]; intros s; [reflexivity|]. cbn [on_requests post_all foldl].
  pose proof (on_request_post id r s Hr) as E. destruct (on_request id r s) as [s1 o1]. cbn in E. rewrite <- E.
  specialize (IH s1). destruct (on_requests rs s1) as [s2 o2]. exact IH.
Qed.

(** ** The operations of the server *)

(** What an operation of the server leaves, as a hub. *)
Definition seen {O} (r : option (cServer * O)) : option hub := '(s, _) ← r; Some (hub_of s).

(** A loop over lists that are one list of handles. *)
Lemma loop_acts which a cs ds (k : list cClientHandle -> cServer) h :
  handles h = by_id (cs ++ ds) -> NoDup (ids (cs ++ ds)) ->
  (forall cs', ids cs' = ids cs -> hub_of (k cs') = h <| handles := by_id (cs' ++ ds) |>) ->
  seen ('(cs', rs) ← for_clients which (perform a) cs; Some (on_requests rs (k cs')))
  = acts (map (fun c => (m_UniqueID c, a)) (List.filter which cs)) h.
Proof.
  intros Eh Hn Hk. rewrite acts_run, Eh, for_clients_acts by exact Hn. unfold seen.
  destruct (for_clients which (perform a) cs) as [[cs' rs]|] eqn:E; [|reflexivity]. cbn [mbind option_bind].
  destruct (for_clients_ok _ _ _ _ _ (perform_faithful a) E) as [I F]. rewrite <- (Hk cs' I).
  pose proof (on_requests_post rs (k cs') (own_from _ _ F)) as Ep. destruct (on_requests rs (k cs')) as [s' o']. cbn in Ep |- *. congruence.
Qed.

Lemma each_client_acts id a s : NoDup (all_ids s) -> seen (each_client id (perform a) s) = acts (if_listed (hub_of s) id a) (hub_of s).
Proof.
  intros Hn. unfold each_client, if_listed. change (listed (hub_of s)) with (ids (Server.m_Clients s)).
  rewrite <- (filter_has_id a id (Server.m_Clients s)) by (apply NoDup_app in Hn; apply Hn).
  unfold all_ids in Hn. rewrite <- ids_app in Hn.
  apply (loop_acts (has_id id) a (Server.m_Clients s) (removed s) (fun cs => s <| Server.m_Clients := cs |>)); [reflexivity | exact Hn|].
  intros cs' I. unfold hub_of, set_member. cbn -[ids by_id]. rewrite I. reflexivity.
Qed.

Lemma authenticate_acts now id name uuid s : NoDup (all_ids s) ->
  seen (server_AuthenticateUser now id name uuid s) = acts (if_listed (hub_of s) id (act_authenticate now name uuid)) (hub_of s).
Proof.
  intros Hn. rewrite <- each_client_acts by exact Hn. unfold server_AuthenticateUser, each_client.
  rewrite first_client_for by (apply NoDup_app in Hn; apply Hn). reflexivity.
Qed.

Lemma authenticator_acts now s : NoDup (all_ids s) ->
  seen (authenticator_round now s) = (fun r => r.1) <$> hub_step (c_authenticator now) (hub_of s).
Proof.
  intros Hn. unfold authenticator_round, Execute_round. cbn [hub_step]. change (asked (hub_of s)) with (authenticator s).
  destruct (authenticator s) as [|user users]; [reflexivity|].
  assert (Hq : forall r, (fun r : hub * list server_call => r.1) <$> quietly r = r) by (intros [|]; reflexivity). rewrite Hq.
  change ((hub_of s) <| asked := users |>) with (hub_of (s <| authenticator := users |>)).
  destruct (judge user) as [id name uuid|id reason]; [apply authenticate_acts, Hn | apply (each_client_acts id (act_kick reason)), Hn].
Qed.

Lemma link_event_acts id cb s : NoDup (all_ids s) -> seen (link_event id (run_callback cb) s) = act id (act_link cb) (hub_of s).
Proof.
  intros Hn. assert (Hn' : NoDup (ids ((Server.m_Clients s ++ removed s) ++ []))) by (rewrite app_nil_r, ids_app; exact Hn).
  assert (Ea : act id (act_link cb) (hub_of s) = acts (map (fun c => (m_UniqueID c, act_link cb)) (List.filter (has_id id) (Server.m_Clients s ++ removed s))) (hub_of s)).
  { rewrite filter_has_id by (rewrite ids_app; exact Hn). destruct (decide _) as [Hi|Hi].
    - cbn [acts]. destruct (act _ _ _); reflexivity.
    - unfold act. change (handles (hub_of s)) with (by_id (Server.m_Clients s ++ removed s)).
      rewrite (proj2 (by_id_lookup _ _) Hi). reflexivity. }
  rewrite Ea. set (n := List.length (Server.m_Clients s)).
  rewrite <- (loop_acts (has_id id) (act_link cb) (Server.m_Clients s ++ removed s) []
    (fun cs => s <| Server.m_Clients := take n cs |> <| removed := drop n cs |>)); [|cbn; rewrite app_nil_r; reflexivity | exact Hn'|].
  - unfold link_event. rewrite for_clients_app. cbn [perform].
    destruct (for_clients (has_id id) (run_callback cb) (Server.m_Clients s)) as [[cs rs]|] eqn:E1; [|reflexivity].
    cbn [mbind option_bind]. destruct (for_clients (has_id id) (run_callback cb) (removed s)) as [[ds rs']|] eqn:E2; [|reflexivity].
    cbn [mbind option_bind]. assert (El : n = List.length cs).
    { unfold n. destruct (for_clients_ok _ _ _ _ _ (callback_faithful cb) E1) as [I _]. apply (f_equal List.length) in I.
      unfold ids in I. rewrite !length_map in I. symmetry. exact I. }
    rewrite El, take_app_length, drop_app_length. reflexivity.
  - intros cs' I. unfold hub_of, set_member. cbn -[ids by_id take drop]. rewrite take_drop, app_nil_r. f_equal.
    unfold ids in *. rewrite <- firstn_map, I, map_app, firstn_app. unfold n. rewrite length_map, Nat.sub_diag, firstn_O, app_nil_r.
    rewrite firstn_all2 by (rewrite length_map; lia). reflexivity.
Qed.

(** *** The manager's calls *)

Lemma acts_app a b : forall h, acts (a ++ b) h = (h ← acts a h; acts b h).
Proof. induction a as [|[id x] a IH]; intros h; [reflexivity|]. cbn [acts app]. destruct (act id x h); [apply IH | reflexivity]. Qed.

Lemma told_listed h h' calls : listed h = listed h' -> told h calls = told h' calls.
Proof. intros E. unfold told, if_listed. rewrite E. reflexivity. Qed.

Lemma on_calls_acts calls : forall s, NoDup (all_ids s) -> seen (on_calls calls s) = acts (told (hub_of s) calls) (hub_of s).
Proof.
  induction calls as [|call calls IH]; intros s Hn; [reflexivity|]. cbn [on_calls told flat_map]. fold (told (hub_of s) calls). rewrite acts_app.
  assert (E1 : seen (on_call call s) = acts (match addressee call with Some id => if_listed (hub_of s) id (act_told call) | None => [] end) (hub_of s)).
  { rewrite on_call_spec. destruct (addressee call) as [id|] eqn:Ea; [apply (each_client_acts id (act_told call)), Hn|].
    destruct call; try discriminate. reflexivity. }
  rewrite <- E1. destruct (on_call call s) as [[s1 o1]|] eqn:Ec; [|reflexivity]. cbn [seen mbind option_bind].
  assert (Es : on_calls [call] s = Some (s1, o1 ++ [])) by (cbn [on_calls]; rewrite Ec; reflexivity).
  destruct (on_calls_ok env depth recover _ _ _ _ Es) as (A & B & _).
  rewrite (told_listed (hub_of s) (hub_of s1)) by (symmetry; exact A). rewrite <- IH by (rewrite (all_ids_same s s1 A B); exact Hn).
  destruct (on_calls calls s1) as [[s2 o2]|]; reflexivity.
Qed.

(** What a round of the manager leaves, with what it said. *)
Definition seen_calls {O} (r : option (cServer * list server_call * O)) : option (hub * list server_call) :=
  '(s, calls, _) ← r; Some (hub_of s, calls).

Lemma dealt_acts r s : NoDup (all_ids s) ->
  seen_calls ('(mgr, w, calls) ← r; '(s, out) ← on_calls calls (s <| manager := mgr |> <| media := w |>); Some (s, calls, out))
  = dealt r (hub_of s).
Proof.
  intros Hn. unfold dealt. destruct r as [[[mgr w] calls]|]; [|reflexivity]. cbn [mbind option_bind].
  change ((hub_of s) <| board := mgr |> <| hub_media := w |>) with (hub_of (s <| manager := mgr |> <| media := w |>)).
  rewrite (told_listed (hub_of s) (hub_of (s <| manager := mgr |> <| media := w |>))), <- on_calls_acts by (reflexivity || exact Hn).
  destruct (on_calls calls _) as [[s1 o1]|]; reflexivity.
Qed.

(** *** Handles that go *)

Lemma for_clients_none id m cs : id ∉ ids cs -> for_clients (has_id id) m cs = Some (cs, []).
Proof.
  induction cs as [|c cs IH]; intros Hn; [reflexivity|]. apply not_elem_of_cons in Hn as [Hc Hn]. cbn [for_clients].
  change (has_id id c) with (m_UniqueID c =? id). rewrite (proj2 (Z.eqb_neq _ _)) by congruence. cbn [skip mbind option_bind].
  rewrite IH by exact Hn. reflexivity.
Qed.

Lemma filter_none id cs : id ∉ ids cs -> List.filter (fun c => negb (has_id id c)) cs = cs.
Proof.
  induction cs as [|c cs IH]; intros Hn; [reflexivity|]. apply not_elem_of_cons in Hn as [Hc Hn]. cbn [List.filter].
  change (has_id id c) with (m_UniqueID c =? id). rewrite (proj2 (Z.eqb_neq _ _)) by congruence. cbn. rewrite IH by exact Hn. reflexivity.
Qed.

Lemma for_clients_others id m cs cs' rs : speaks from m -> for_clients (has_id id) m cs = Some (cs', rs) ->
  List.filter (fun c => negb (has_id id c)) cs' = List.filter (fun c => negb (has_id id c)) cs.
Proof.
  intros Hm. revert cs' rs. induction cs as [|c cs IH]; intros cs' rs; cbn [for_clients]; [intros [= <- <-]; reflexivity|].
  intros E. apply bind_Some in E as ([c1 o1] & E1 & E). apply bind_Some in E as ([cs1 o2] & E2 & [= <- <-]).
  cbn [List.filter]. rewrite (IH _ _ E2). unfold has_id in *. destruct (m_UniqueID c =? id) eqn:Eid.
  - rewrite (proj1 (Hm _ _ _ E1)), Eid. reflexivity.
  - injection E1 as <- _. rewrite Eid. reflexivity.
Qed.

Lemma by_id_delete id cs : delete id (by_id cs) = by_id (List.filter (fun c => negb (has_id id c)) cs).
Proof.
  induction cs as [|c cs IH]; [apply delete_empty|]. rewrite by_id_cons. cbn [List.filter].
  destruct (has_id id c) eqn:E; cbn [negb]; [apply Z.eqb_eq in E | apply Z.eqb_neq in E].
  - rewrite E, delete_insert_eq. exact IH.
  - rewrite delete_insert_ne by congruence. rewrite IH, by_id_cons. reflexivity.
Qed.

Lemma quiet_first (r : option hub) : (fun p : hub * list server_call => p.1) <$> quietly r = r.
Proof. destruct r; reflexivity. Qed.

Lemma nodup_swap a b : NoDup (ids (a ++ b)) -> NoDup (ids (b ++ a)).
Proof. apply nodup_perm, Permutation_map, Permutation_app_comm. Qed.

Lemma release_acts id s : NoDup (all_ids s) ->
  seen (release_handle id s) = (fun r => r.1) <$> hub_step (c_released id) (hub_of s).
Proof.
  intros Hn. assert (Hn1 : NoDup (ids (removed s ++ Server.m_Clients s))) by (apply nodup_swap; rewrite ids_app; exact Hn).
  unfold release_handle. cbn [hub_step]. change (listed (hub_of s)) with (ids (Server.m_Clients s)).
  destruct (decide (id ∈ ids (Server.m_Clients s))) as [Hi|Hi].
  - assert (Hr : id ∉ ids (removed s)) by (apply NoDup_app in Hn as (_ & Hd & _); exact (Hd _ Hi)).
    rewrite for_clients_none by exact Hr. cbn. unfold hub_of, set_member. cbn -[by_id ids]. rewrite filter_none by exact Hr. reflexivity.
  - assert (Ea : act id act_dtor (hub_of s) = acts (map (fun c => (m_UniqueID c, act_dtor)) (List.filter (has_id id) (removed s))) (hub_of s)).
    { rewrite filter_has_id by (apply NoDup_app in Hn; apply Hn). destruct (decide _) as [Hr|Hr].
      - cbn [acts]. destruct (act _ _ _); reflexivity.
      - unfold act. change (handles (hub_of s)) with (by_id (Server.m_Clients s ++ removed s)).
        rewrite (proj2 (by_id_lookup _ _)); [reflexivity|]. rewrite ids_app. intros [?|?]%elem_of_app; contradiction. }
    rewrite Ea, acts_run. change (handles (hub_of s)) with (by_id (Server.m_Clients s ++ removed s)).
    rewrite (by_id_perm _ (removed s ++ Server.m_Clients s)) by (first [apply nodup_swap; exact Hn1 | apply Permutation_app_comm]).
    rewrite for_clients_acts by exact Hn1. cbn [perform].
    destruct (for_clients (has_id id) cClientHandle_dtor (removed s)) as [[ds rs]|] eqn:E; [|reflexivity]. cbn [mbind option_bind seen].
    destruct (for_clients_ok _ _ _ _ _ dtor_faithful E) as [I F].
    pose proof (on_requests_post rs (s <| removed ::= List.filter (fun c => negb (has_id id c)) |>) (own_from _ _ F)) as Ep.
    destruct (on_requests rs _) as [s' o']. cbn [fst] in Ep. cbn. rewrite Ep. f_equal.
    change (?h <| handles ::= ?f |>) with (h <| handles := f (handles h) |>).
    rewrite (proj1 (post_all_same _ _)), post_all_handles. f_equal. unfold hub_of, set_member. cbn -[by_id ids].
    rewrite by_id_delete, List.filter_app, (for_clients_others id _ _ _ _ dtor_faithful E), (filter_none id (Server.m_Clients s)) by exact Hi.
    f_equal. apply by_id_perm; [|apply Permutation_app_comm].
    apply (sublist_NoDup _ (all_ids s)); [exact Hn|].
    rewrite ids_app, ids_filter. apply sublist_app; [reflexivity | apply filtered].
Qed.

(** *** The tick, the end, and new handles *)

Lemma by_id_in cs c : NoDup (ids cs) -> c ∈ cs -> by_id cs !! m_UniqueID c = Some c.
Proof.
  intros Hn Hc. apply elem_of_list_to_map_1; [rewrite keys_by_id; exact Hn|]. apply list_elem_of_fmap. exists c. auto.
Qed.

Lemma stays_ids s : NoDup (all_ids s) ->
  List.filter (stays (hub_of s)) (ids (Server.m_Clients s)) = ids (List.filter (fun c => negb (IsDestroyed c)) (Server.m_Clients s)).
Proof.
  intros Hn. assert (Hs : forall c, c ∈ Server.m_Clients s -> stays (hub_of s) (m_UniqueID c) = negb (IsDestroyed c)).
  { intros c Hc. unfold stays. change (handles (hub_of s)) with (by_id (Server.m_Clients s ++ removed s)).
    rewrite by_id_in; [reflexivity | rewrite ids_app; exact Hn | apply elem_of_app; auto]. }
  revert Hs. generalize (stays (hub_of s)). intros f. induction (Server.m_Clients s) as [|c cs IH]; intros Hs; [reflexivity|].
  cbn [ids map List.filter]. rewrite Hs by (apply elem_of_cons; auto). specialize (IH (fun c Hc => Hs c ltac:(apply elem_of_cons; auto))).
  unfold ids in IH. rewrite IH. destruct (negb (IsDestroyed c)); reflexivity.
Qed.

Lemma tick_kept now cs kept gone rs : tick_clients fresh now cs = Some (kept, gone, rs) ->
  ids kept = ids (List.filter (fun c => negb (IsDestroyed c)) cs).
Proof.
  intros E. destruct (tick_spec _ _ _ _ _ _ E) as [_ F]. clear E. induction F as [|c c' l l' [out Ec] _ IH]; [reflexivity|].
  unfold ids in *. cbn [map]. rewrite IH, (proj1 (speaks_ServerTick fresh now _ _ _ Ec)). reflexivity.
Qed.

(** What the tick leaves; whether its thread goes on is a third component. *)
Definition seen_tick {O} (r : option (bool * cServer * O)) : option hub := '(_, s, _) ← r; Some (hub_of s).

Lemma tick_acts now s : NoDup (all_ids s) ->
  seen_tick (Tick fresh now s) = (fun r => r.1) <$> hub_step (c_tick now) (hub_of s).
Proof.
  intros Hn. cbn [hub_step]. rewrite quiet_first. change (listed (hub_of s)) with (ids (Server.m_Clients s)).
  rewrite stays_ids by exact Hn. unfold ids at 1. rewrite map_map, acts_run.
  change (handles ((hub_of s) <| listed := ids (List.filter (fun c => negb (IsDestroyed c)) (Server.m_Clients s)) |>)) with (by_id (Server.m_Clients s ++ removed s)).
  rewrite tick_clients_acts by (rewrite ids_app; exact Hn).
  unfold Tick. cbv zeta. set (s0 := s <| m_PlayerCountDiff := 0 |> <| m_PlayerCount ::= _ |>). unfold TickClients.
  change (Server.m_Clients s0) with (Server.m_Clients s).
  destruct (tick_clients fresh now (Server.m_Clients s)) as [[[kept gone] rs]|] eqn:E; [|reflexivity]. cbn [mbind option_bind].
  destruct (tick_clients_ok _ _ _ _ _ _ E) as [P F].
  pose proof (on_requests_post rs (s0 <| Server.m_Clients := kept |> <| removed ::= fun l => l ++ gone |>) (own_from _ _ F)) as Ep.
  destruct (on_requests rs _) as [s1 o1]. cbn [fst] in Ep.
  transitivity (Some (hub_of s1)).
  { unfold seen_tick. cbn [mbind option_bind]. destruct (negb _); cbn [mbind option_bind]; [reflexivity|]. destruct s1. reflexivity. }
  rewrite Ep. f_equal. f_equal. unfold hub_of, set_member. cbn -[by_id ids]. rewrite (tick_kept _ _ _ _ _ E). f_equal.
  apply by_id_perm; [|apply Permutation_app_head, Permutation_app_comm].
  eapply nodup_perm; [|exact Hn]. unfold all_ids. rewrite !ids_app, <- P, ids_app, <- app_assoc.
  apply Permutation_app_head, Permutation_app_comm.
Qed.

Lemma filter_all {A} (l : list A) : List.filter (fun _ => true) l = l.
Proof. induction l as [|x l IH]; cbn; congruence. Qed.

Lemma end_acts s : NoDup (all_ids s) -> seen (Shutdown_end s) = (fun r => r.1) <$> hub_step c_end (hub_of s).
Proof.
  intros Hn. cbn [hub_step]. rewrite quiet_first. change (listed (hub_of s)) with (ids (Server.m_Clients s)).
  unfold ids at 1. rewrite map_map, <- (filter_all (Server.m_Clients s)) at 1.
  assert (Hn1 : NoDup (ids (Server.m_Clients s ++ removed s))) by (rewrite ids_app; exact Hn).
  rewrite <- (loop_acts (fun _ => true) act_destroy (Server.m_Clients s) (removed s)
    (fun cs => s <| Server.m_Clients := [] |> <| removed ::= fun l => l ++ cs |>)); [reflexivity | reflexivity | exact Hn1 |].
  intros cs I. unfold hub_of, set_member. cbn -[by_id]. f_equal. apply by_id_perm; [|apply Permutation_app_comm].
  apply nodup_swap. rewrite ids_app, I, <- ids_app. exact Hn1.
Qed.

Lemma accept_acts ip now address mem s : ids_ok s ->
  (s ← OnConnectionAccepted fresh ip now address mem s; Some (hub_of s, [])) = hub_step (c_accepted ip now address mem) (hub_of s).
Proof.
  intros [Hn Hc Hp]. unfold OnConnectionAccepted. cbn [hub_step]. change (last_id (hub_of s)) with (s_ClientCount s).
  destruct (_ =? _); [reflexivity|]. cbv zeta. cbn [mbind option_bind]. f_equal. f_equal.
  set (c := cClientHandle_ctor fresh ip now (s_ClientCount s + 1) address mem).
  change (s_ClientCount (s <| s_ClientCount ::= Z.succ |>)) with (s_ClientCount s + 1). fold c.
  assert (Em : by_id ((Server.m_Clients s ++ [c]) ++ removed s) = <[s_ClientCount s + 1 := c]> (by_id (Server.m_Clients s ++ removed s))).
  { change (<[s_ClientCount s + 1 := c]> (by_id (Server.m_Clients s ++ removed s))) with (by_id (c :: Server.m_Clients s ++ removed s)).
    symmetry. apply by_id_perm.
    - cbn. constructor; [|fold (ids (Server.m_Clients s ++ removed s)); rewrite ids_app; exact Hn].
      fold (ids (Server.m_Clients s ++ removed s)). rewrite ids_app. intros Hi. specialize (Hc _ Hi). lia.
    - rewrite <- app_assoc. apply Permutation_middle. }
  unfold hub_of, set_member. cbn -[by_id ids c]. rewrite Em, ids_app. reflexivity.
Qed.

(** ** The refinement *)

(** What the server does when something happens. *)
Definition server_does (cause : cause) (s : cServer) : option (cServer * list server_call) :=
  match cause with
  | c_accepted ip now address mem => s ← OnConnectionAccepted fresh ip now address mem s; Some (s, [])
  | c_link id cb => '(s, _) ← link_event id (run_callback cb) s; Some (s, [])
  | c_released id => '(s, _) ← release_handle id s; Some (s, [])
  | c_tick now => '(_, s, _) ← Tick fresh now s; Some (s, [])
  | c_authenticator now => '(s, _) ← authenticator_round now s; Some (s, [])
  | c_manager m => '(s, calls, _) ← manager_round env depth recover m s; Some (s, calls)
  | c_connection name id target f => '(s, calls, _) ← connection_event env depth recover name id target f s; Some (s, calls)
  | c_kick id reason => '(s, _) ← server_KickUser id reason s; Some (s, [])
  | c_media w => Some (s <| media := w |>, [])
  | c_players n => Some (s <| m_PlayerCountDiff := n |>, [])
  | c_shutdown => Some (Shutdown_begin s, [])
  | c_end => '(s, _) ← Shutdown_end s; Some (s, [])
  end.

Fixpoint server_runs (causes : list cause) (s : cServer) : option (cServer * list server_call) :=
  match causes with
  | [] => Some (s, [])
  | c :: causes => '(s, calls) ← server_does c s; '(s, calls') ← server_runs causes s; Some (s, calls ++ calls')
  end.

(** These are the steps of the server ([server_step]). *)
Lemma server_does_step s calls s' :
  server_step fresh env depth recover s calls s' <-> exists c, server_does c s = Some (s', calls).
Proof.
  split.
  - intros Hst. inversion Hst as [ip now address mem ? ? E|id cb ? ? ? E|id ? ? ? E|now ? ? ? ? E|now ? ? ? E|m ? ? ? ? E|name id target f ? ? ? ? E
      |id reason ? ? ? E|w|n| |? ? ? E]; subst.
    + exists (c_accepted ip now address mem). cbn [server_does]. rewrite E. reflexivity.
    + exists (c_link id cb). cbn [server_does]. rewrite E. reflexivity.
    + exists (c_released id). cbn [server_does]. rewrite E. reflexivity.
    + exists (c_tick now). cbn [server_does]. rewrite E. reflexivity.
    + exists (c_authenticator now). cbn [server_does]. rewrite E. reflexivity.
    + exists (c_manager m). cbn [server_does]. rewrite E. reflexivity.
    + exists (c_connection name id target f). cbn [server_does]. rewrite E. reflexivity.
    + exists (c_kick id reason). cbn [server_does]. rewrite E. reflexivity.
    + exists (c_media w). reflexivity.
    + exists (c_players n). reflexivity.
    + exists c_shutdown. reflexivity.
    + exists c_end. cbn [server_does]. rewrite E. reflexivity.
  - intros [[ip now address mem|id cb|id|now|now|m|name id target f|id reason|w|n| |] E]; cbn [server_does] in E.
    + apply bind_Some in E as (s1 & E & [= <- <-]). eapply at_accept, E.
    + apply bind_Some in E as ([s1 o] & E & [= <- <-]). eapply at_link, E.
    + apply bind_Some in E as ([s1 o] & E & [= <- <-]). eapply at_release, E.
    + apply bind_Some in E as ([[b s1] o] & E & [= <- <-]). eapply at_tick, E.
    + apply bind_Some in E as ([s1 o] & E & [= <- <-]). eapply at_authenticator, E.
    + apply bind_Some in E as ([[s1 cs] o] & E & [= <- <-]). eapply at_manager, E.
    + apply bind_Some in E as ([[s1 cs] o] & E & [= <- <-]). eapply at_connection, E.
    + apply bind_Some in E as ([s1 o] & E & [= <- <-]). eapply at_kick, E.
    + injection E as <- <-. constructor.
    + injection E as <- <-. constructor.
    + injection E as <- <-. constructor.
    + apply bind_Some in E as ([s1 o] & E & [= <- <-]). eapply at_end, E.
Qed.

(** A server and its calls, as a hub. *)
Definition as_hub (r : cServer * list server_call) : hub * list server_call := (hub_of r.1, r.2).

Lemma quiet_seen {O} (r : option (cServer * O)) h :
  seen r = h -> as_hub <$> ('(s, _) ← r; Some (s, [])) = quietly h.
Proof. intros <-. destruct r as [[s o]|]; reflexivity. Qed.

Lemma quiet_again (h : option (hub * list server_call)) : (forall x, h = Some x -> x.2 = []) -> quietly ((fun p => p.1) <$> h) = h.
Proof. intros Hq. destruct h as [[h calls]|]; [|reflexivity]. specialize (Hq _ eq_refl). cbn in *. subst. reflexivity. Qed.

Lemma quietly_quiet (h : option hub) x : quietly h = Some x -> x.2 = [].
Proof. destruct h; [intros [= <-]; reflexivity | discriminate]. Qed.

Lemma server_does_hub c s : ids_ok s -> as_hub <$> server_does c s = hub_step c (hub_of s).
Proof.
  intros Hok. pose proof (ids_distinct _ Hok) as Hn.
  destruct c as [ip now address mem|id cb|id|now|now|m|name id target f|id reason|w|n| |]; cbn [server_does].
  - rewrite <- accept_acts by exact Hok. destruct (OnConnectionAccepted _ _ _ _ _ s); reflexivity.
  - apply quiet_seen, link_event_acts, Hn.
  - erewrite quiet_seen; [|apply release_acts, Hn]. apply quiet_again. intros x. cbn [hub_step].
    destruct (decide _); [intros [= <-]; reflexivity|]. destruct (act _ _ _); [intros [= <-]; reflexivity | discriminate].
  - rewrite <- (quiet_again (hub_step (c_tick now) (hub_of s))) by (intros x; apply quietly_quiet).
    rewrite <- tick_acts by exact Hn. destruct (Tick fresh now s) as [[[b s1] o]|]; reflexivity.
  - erewrite quiet_seen; [|apply authenticator_acts, Hn]. apply quiet_again. intros x. cbn [hub_step].
    destruct (asked _); [intros [= <-]; reflexivity | apply quietly_quiet].
  - cbn [hub_step]. change (board (hub_of s)) with (manager s). change (hub_media (hub_of s)) with (media s).
    rewrite <- dealt_acts by exact Hn. unfold manager_round. destruct (Execute_event _ _ _ _ _ _) as [[[mgr w] calls]|]; [|reflexivity].
    cbn [mbind option_bind]. destruct (on_calls _ _) as [[s1 o1]|]; reflexivity.
  - cbn [hub_step]. change (board (hub_of s)) with (manager s). change (hub_media (hub_of s)) with (media s).
    rewrite <- dealt_acts by exact Hn. unfold connection_event. destruct (media_event _ _ _ _ _ _ _ _ _) as [[[mgr w] calls]|]; [|reflexivity].
    cbn [mbind option_bind]. destruct (on_calls _ _) as [[s1 o1]|]; reflexivity.
  - apply quiet_seen, (each_client_acts id (act_kick reason)), Hn.
  - reflexivity.
  - reflexivity.
  - reflexivity.
  - erewrite quiet_seen; [|apply end_acts, Hn]. apply quiet_again. intros x. apply quietly_quiet.
Qed.

Lemma server_runs_hub causes : forall s, ids_ok s -> as_hub <$> server_runs causes s = hub_run causes (hub_of s).
Proof.
  induction causes as [|c causes IH]; intros s Hok; [reflexivity|]. cbn [server_runs hub_run]. rewrite <- server_does_hub by exact Hok.
  destruct (server_does c s) as [[s1 calls]|] eqn:E; [|reflexivity]. cbn [mbind option_bind fmap option_fmap option_map as_hub fst snd].
  assert (Hst : server_step fresh env depth recover s calls s1) by (apply server_does_step; eauto).
  rewrite <- (IH s1) by exact (ids_ok_step _ _ Hok (proj1 (step_simulated fresh env depth recover _ _ _ Hst))).
  destruct (server_runs causes s1) as [[s2 calls']|]; reflexivity.
Qed.

(** C2. The server refines the hub: whatever happens, in any order, from its start, the server
    ends with the handles, the queues of the authenticator and of the manager, the rooms and
    the media that the hub ends with, the manager has said the same, and the server fails
    exactly where the hub does.  So every request of a handle is posted at once, in its own
    name, as the event it is for (a join, a leave, a message, or the leaves of every room of
    a client that is gone), and nothing else is posted; every call of the manager is done by
    the listed handle it names and by no other, in order, before anything else happens; a
    verdict of the authenticator reaches the handle it is about; a tick runs each live
    handle once and takes the destroyed ones out; a handle goes when it is released. *)
Theorem server_refines_hub port causes :
  as_hub <$> server_runs causes (cServer_ctor port) = hub_run causes hub_start.
Proof. apply server_runs_hub. split; [constructor | intros i Hi; inversion Hi | cbn; lia]. Qed.
End Hub.

(** ** A sample: the session of two clients in [ServerFacts], as causes *)

#[local] Existing Instance Toy.lib.
#[local] Existing Instance HandleFacts.Sample.keys.
#[local] Existing Instance Dtls.Sample.lib.
#[local] Existing Instance toy_json.

Definition sample_cause (op : sample_op) : cause :=
  match op with
  | op_accept => c_accepted (chars "10.0.0.7") 0 77 HandleFacts.Sample.cipher
  | op_receive id packet => c_link id (link_data (frame packet))
  | op_close id => c_link id link_closed
  | op_release id => c_released id
  | op_tick => c_tick 0
  | op_authenticator => c_authenticator 0
  | op_manager => c_manager sample_moment
  end.

(** The first client's connection is closed and its handle goes; the other one stays. *)
Definition sample_causes : list cause :=
  map sample_cause ([op_accept; op_accept] ++ sample_login ++ [op_close 1; op_tick; op_release 1; op_manager]).

Example sample_hub :
  (fun r : hub * list server_call => (listed r.1, elements (dom (handles r.1)), elements (members channel (rooms (board r.1))), m_Queue (board r.1)))
    <$> hub_run HandleFacts.Sample.fresh sample_env 1 (fun _ _ => None) sample_causes hub_start
  = Some ([2], [2], [2], []).
Proof. vm_compute. reflexivity. Qed.
