(* ===== verification/WorkerQueue.v ===== *)
(** * WorkerQueue: a thread that works off a queue

    Three classes of the server share one loop: cAuthenticator::Execute
    (src/Src/Server/Protocol/Authenticator.cpp), cManager::Execute
    (src/Src/Server/Channel/Manager.cpp) and cWorkerThread::Execute
    (src/Src/Common/ThreadPool.cpp).  The thread takes a lock, waits on an event while the
    queue is empty, takes the first request and handles it without the lock; other threads
    append requests under the lock and set the event; [Stop] sets a flag and the event and
    joins the thread.

    A state has the shared objects and where each thread stands; a step of a thread runs to
    the next point where another thread can be observed.  [m_ShouldTerminate] is a
    std::atomic.  The other files treat a round of such a thread as one operation; the
    theorems say why they can: requests are handled once each, in order, none is left
    waiting, and the thread stops. *)

From S2P Require Import Prelude Peer Channel ClientHandle Authenticator.

(** ** The shared objects *)

(** cCriticalSection: the thread that holds it.  No thread takes one twice here. *)
Inductive thread := Worker | Producer (i : nat).
#[global] Instance thread_eq_dec : EqDecision thread.
Proof. solve_decision. Defined.

(** [Lock] waits for the section to be free. *)
Definition cs_Lock (t : thread) (owner : option thread) : option (option thread) :=
  match owner with None => Some (Some t) | Some _ => None end.
Definition cs_Unlock (t : thread) (owner : option thread) : option (option thread) :=
  if decide (owner = Some t) then Some None else None.

(** cEvent: [Wait] waits for [m_ShouldContinue] and resets it, in one step under the mutex of
    the event. *)
Definition event_Wait (m_ShouldContinue : bool) : option bool := if m_ShouldContinue then Some false else None.
Definition event_Set (m_ShouldContinue : bool) : bool := true.

Section Queue.
Context {A : Type}.

(** Where the thread stands in [Execute]. *)
Inductive worker_pc :=
  | WLock          (** at the construction of the lock *)
  | WWhile         (** at the condition of the inner loop *)
  | WWait          (** waiting for the event, without the lock *)
  | WRelock        (** at the end of the scope of the cCSUnlock *)
  | WTest          (** at the test of [m_ShouldTerminate] *)
  | WPop           (** before the first request is taken *)
  | WRun (x : A)   (** handling a request *)
  | WExit.

(** A thread in [PushTask], [Authenticate] or [addEvent]. *)
Inductive producer_pc :=
  | QLock (x : A)
  | QPush (x : A)
  | QSet
  | QUnlock
  | QDone.

(** The thread that calls [Stop] or the destructor. *)
Inductive stopper_pc := SIdle | SSet | SJoin | SDone.

Record state := {
  owner : option thread;
  m_Queue : list A;
  m_QueueNonempty : bool;
  m_ShouldTerminate : bool;
  worker : worker_pc;
  producers : list producer_pc;
  stopper : stopper_pc;
  (** What was appended and what was handled, in order. *)
  pushed : list A;
  handled : list A;
}.
#[global] Instance eta_state : Eta state := fun r =>
  Build_state (owner r) (m_Queue r) (m_QueueNonempty r) (m_ShouldTerminate r) (worker r) (producers r)
    (stopper r) (pushed r) (handled r).

Definition started : state := {|
  owner := None; m_Queue := []; m_QueueNonempty := false; m_ShouldTerminate := false;
  worker := WLock; producers := []; stopper := SIdle; pushed := []; handled := [] |}.

(** ** Steps *)

(** [Execute]. *)
Definition worker_step (s : state) : option state :=
  match worker s with
  | WLock => o ← cs_Lock Worker (owner s); Some (s <| owner := o |> <| worker := WWhile |>)
  | WWhile =>
      if negb (m_ShouldTerminate s) && (length (m_Queue s) =? 0)%nat then
        o ← cs_Unlock Worker (owner s); Some (s <| owner := o |> <| worker := WWait |>)
      else Some (s <| worker := WTest |>)
  | WWait => e ← event_Wait (m_QueueNonempty s); Some (s <| m_QueueNonempty := e |> <| worker := WRelock |>)
  | WRelock => o ← cs_Lock Worker (owner s); Some (s <| owner := o |> <| worker := WWhile |>)
  | WTest =>
      if m_ShouldTerminate s then
        o ← cs_Unlock Worker (owner s); Some (s <| owner := o |> <| worker := WExit |>)
      else Some (s <| worker := WPop |>)
  | WPop =>
      match m_Queue s with
      | [] => None
      | x :: queue =>
          o ← cs_Unlock Worker (owner s); Some (s <| m_Queue := queue |> <| owner := o |> <| worker := WRun x |>)
      end
  | WRun x => Some (s <| handled := handled s ++ [x] |> <| worker := WLock |>)
  | WExit => None
  end.

(** [PushTask] by the producer [i]. *)
Definition producer_step (i : nat) (s : state) : option state :=
  p ← producers s !! i;
  match p with
  | QLock x => o ← cs_Lock (Producer i) (owner s); Some (s <| owner := o |> <| producers := <[i := QPush x]> (producers s) |>)
  | QPush x => Some (s <| m_Queue := m_Queue s ++ [x] |> <| pushed := pushed s ++ [x] |> <| producers := <[i := QSet]> (producers s) |>)
  | QSet => Some (s <| m_QueueNonempty := event_Set (m_QueueNonempty s) |> <| producers := <[i := QUnlock]> (producers s) |>)
  | QUnlock => o ← cs_Unlock (Producer i) (owner s); Some (s <| owner := o |> <| producers := <[i := QDone]> (producers s) |>)
  | QDone => None
  end.

(** [Stop] after it has set the flag; [Wait] joins the thread. *)
Definition stopper_step (s : state) : option state :=
  match stopper s with
  | SSet => Some (s <| m_QueueNonempty := event_Set (m_QueueNonempty s) |> <| stopper := SJoin |>)
  | SJoin => match worker s with WExit => Some (s <| stopper := SDone |>) | _ => None end
  | SIdle | SDone => None
  end.

(** The scheduler's choices, and the two things the rest of the program may do. *)
Inductive action :=
  | AWorker
  | AProducer (i : nat)
  | AStopper
  | ARequest (x : A)
  | AStop.

Definition fire (a : action) (s : state) : option state :=
  match a with
  | AWorker => worker_step s
  | AProducer i => producer_step i s
  | AStopper => stopper_step s
  | ARequest x => Some (s <| producers := producers s ++ [QLock x] |>)
  | AStop => match stopper s with
             | SIdle => Some (s <| m_ShouldTerminate := true |> <| stopper := SSet |>)
             | _ => None
             end
  end.

Fixpoint run (acts : list action) (s : state) : option state :=
  match acts with
  | [] => Some s
  | a :: acts => s ← fire a s; run acts s
  end.

(** A step of a thread that has begun. *)
Definition internal (a : action) : Prop :=
  match a with AWorker | AProducer _ | AStopper => True | ARequest _ | AStop => False end.

Definition reachable (s : state) : Prop := exists acts, run acts started = Some s.

Lemma reachable_invariant (I : state -> Prop) :
  I started -> (forall a s s', I s -> fire a s = Some s' -> I s') -> forall s, reachable s -> I s.
Proof.
  intros H0 Hstep s [acts Hrun]. revert H0 Hrun. generalize started as s0.
  induction acts as [|a acts IH]; intros s0 H0 Hrun; cbn [run] in Hrun; [congruence|].
  apply bind_Some in Hrun as (s1 & Hf & Hrun). eauto.
Qed.

(** ** The invariant *)

Definition in_hand (s : state) : list A := match worker s with WRun x => [x] | _ => [] end.

Definition worker_locks (p : worker_pc) : bool := match p with WWhile | WTest | WPop => true | _ => false end.
Definition producer_locks (p : producer_pc) : bool := match p with QPush _ | QSet | QUnlock => true | _ => false end.

Record queue_ok (s : state) : Prop := {
  (** Nothing is lost, doubled or overtaken. *)
  q_order : pushed s = handled s ++ in_hand s ++ m_Queue s;
  (** The lock is held by the thread that stands in a locked region, and by no other. *)
  q_worker : worker_locks (worker s) = bool_decide (owner s = Some Worker);
  q_producer i p : producers s !! i = Some p -> producer_locks p = bool_decide (owner s = Some (Producer i));
  q_owner i : owner s = Some (Producer i) -> is_Some (producers s !! i);
  (** What the inner loop found out stays true. *)
  q_test : worker s = WTest -> m_Queue s <> [] \/ m_ShouldTerminate s = true;
  q_pop : worker s = WPop -> m_Queue s <> [];
  (** No wake-up is lost. *)
  q_wake : worker s = WWait -> m_Queue s <> [] \/ m_ShouldTerminate s = true ->
    m_QueueNonempty s = true \/ QSet ∈ producers s \/ stopper s = SSet;
  q_stop : m_ShouldTerminate s = false <-> stopper s = SIdle;
  q_exit : worker s = WExit -> m_ShouldTerminate s = true;
}.

Lemma started_ok : queue_ok started.
Proof. split; cbn; try reflexivity; try (intros; discriminate). split; reflexivity. Qed.

(** The fields a step of the worker leaves to simple reasoning. *)
Ltac queue_fields Hp :=
  split; cbn;
  try solve [ assumption | congruence | intros; congruence | intros; discriminate
            | symmetry; apply bool_decide_true; reflexivity | symmetry; apply bool_decide_false; congruence
            | let i := fresh in let p := fresh in let Hi := fresh in
              intros i p Hi; rewrite (Hp i p Hi); apply bool_decide_ext; split; congruence ].

Lemma worker_step_ok s s' : queue_ok s -> worker_step s = Some s' -> queue_ok s'.
Proof.
  intros [Ho Hw Hp Hn Ht Hpop Hk Hs He] E. unfold worker_step in E. destruct s as [ow q ev term w ps st pu ha].
  cbn in *. destruct w; cbn in *; unfold cs_Lock, cs_Unlock, event_Wait in E;
    try (symmetry in Hw; apply bool_decide_eq_true in Hw; subst ow).
  - destruct ow; [discriminate|]. injection E as <-. queue_fields Hp.
  - destruct (negb term && (length q =? 0)%nat) eqn:Ec.
    + rewrite decide_True in E by reflexivity. injection E as <-.
      apply andb_true_iff in Ec as [Et Eq]. apply negb_true_iff in Et. apply Nat.eqb_eq, length_zero_iff_nil in Eq.
      queue_fields Hp. intros _ [H|H]; congruence.
    + injection E as <-. queue_fields Hp. intros _. apply andb_false_iff in Ec as [Et|Eq].
      * right. destruct term; [reflexivity | discriminate].
      * left. intros ->. discriminate.
  - destruct ev; [|discriminate]. injection E as <-. queue_fields Hp.
  - destruct ow; [discriminate|]. injection E as <-. queue_fields Hp.
  - destruct term.
    + rewrite decide_True in E by reflexivity. injection E as <-. queue_fields Hp.
    + injection E as <-. queue_fields Hp. intros _. destruct (Ht eq_refl) as [H|H]; [exact H | discriminate].
  - destruct q as [|x q]; [discriminate|]. rewrite decide_True in E by reflexivity. injection E as <-. queue_fields Hp.
  - injection E as <-. queue_fields Hp. rewrite Ho, <- app_assoc. reflexivity.
  - discriminate.
Qed.

(** The lock of the other producers does not change when one of them steps. *)
Lemma producers_insert (ps : list producer_pc) i p' (ow ow' : option thread) :
  (forall j p, ps !! j = Some p -> producer_locks p = bool_decide (ow = Some (Producer j))) ->
  producer_locks p' = bool_decide (ow' = Some (Producer i)) ->
  (forall j, j <> i -> (ow = Some (Producer j) <-> ow' = Some (Producer j))) ->
  forall j p, <[i := p']> ps !! j = Some p -> producer_locks p = bool_decide (ow' = Some (Producer j)).
Proof.
  intros Hp Hi Hother j p Hj. apply list_lookup_insert_Some in Hj as [(<- & <- & _)|[Hne Hj]]; [exact Hi|].
  rewrite (Hp j p Hj). apply bool_decide_ext, Hother. congruence.
Qed.

(** A producer that appended or set the event keeps the promise of a wake-up. *)
Lemma wake_insert (ps : list producer_pc) i p : ps !! i = Some p -> p <> QSet ->
  forall p', QSet ∈ ps -> QSet ∈ <[i := p']> ps.
Proof.
  intros Hi Hne p' Hin. apply list_elem_of_lookup in Hin as [j Hj]. apply list_elem_of_lookup. exists j.
  rewrite list_lookup_insert_ne by congruence. exact Hj.
Qed.

Lemma producer_step_ok i s s' : queue_ok s -> producer_step i s = Some s' -> queue_ok s'.
Proof.
  intros [Ho Hw Hp Hn Ht Hpop Hk Hs He] E. unfold producer_step in E. destruct s as [ow q ev term w ps st pu ha].
  cbn in *. apply bind_Some in E as (p & Hi & E). pose proof (lookup_lt_Some _ _ _ Hi) as Hlt.
  pose proof (Hp i p Hi) as Hpi.
  destruct p; cbn in *; unfold cs_Lock, cs_Unlock in E;
    try (symmetry in Hpi; apply bool_decide_eq_true in Hpi; subst ow).
  - destruct ow; [discriminate|]. injection E as <-. split; cbn; try assumption.
    + eapply producers_insert; [exact Hp | | intros; split; congruence].
      symmetry. apply bool_decide_true. reflexivity.
    + intros j Hj. injection Hj as <-. rewrite list_lookup_insert_eq by exact Hlt. eauto.
    + intros Hww Hq. destruct (Hk Hww Hq) as [H|[H|H]]; auto. right. left. eapply wake_insert; [exact Hi | discriminate | exact H].
  - injection E as <-. split; cbn; try assumption.
    + rewrite Ho, <- !app_assoc. reflexivity.
    + eapply producers_insert; [exact Hp | | intros; reflexivity]. symmetry. apply bool_decide_true. reflexivity.
    + intros j Hj. injection Hj as <-. rewrite list_lookup_insert_eq by exact Hlt. eauto.
    + intros Hww. left. destruct q; discriminate.
    + intros Hww. destruct q; discriminate.
    + intros _ _. right. left. apply list_elem_of_lookup. exists i. apply list_lookup_insert_eq, Hlt.
  - injection E as <-. split; cbn; try assumption.
    + eapply producers_insert; [exact Hp | | intros; reflexivity]. symmetry. apply bool_decide_true. reflexivity.
    + intros j Hj. injection Hj as <-. rewrite list_lookup_insert_eq by exact Hlt. eauto.
    + intros _ _. left. reflexivity.
  - rewrite decide_True in E by reflexivity. injection E as <-. split; cbn; try assumption.
    + eapply producers_insert; [exact Hp | | intros; split; congruence]. symmetry. apply bool_decide_false. discriminate.
    + discriminate.
    + intros Hww Hq. destruct (Hk Hww Hq) as [H|[H|H]]; auto. right. left. eapply wake_insert; [exact Hi | discriminate | exact H].
  - discriminate.
Qed.

Lemma fire_ok a s s' : queue_ok s -> fire a s = Some s' -> queue_ok s'.
Proof.
  intros Hok E. destruct a as [|i| |x|]; cbn [fire] in E.
  - exact (worker_step_ok _ _ Hok E).
  - exact (producer_step_ok _ _ _ Hok E).
  - destruct Hok as [Ho Hw Hp Hn Ht Hpop Hk Hs He]. unfold stopper_step in E. destruct s as [ow q ev term w ps st pu ha]. cbn in *.
    destruct st; try discriminate.
    + injection E as <-. split; cbn; try assumption.
      * intros _ _. left. reflexivity.
      * rewrite Hs. split; discriminate.
    + destruct w; try discriminate. injection E as <-. split; cbn; try assumption; try discriminate.
      rewrite Hs. split; discriminate.
  - destruct Hok as [Ho Hw Hp Hn Ht Hpop Hk Hs He]. injection E as <-. destruct s as [ow q ev term w ps st pu ha]. cbn in *.
    split; cbn; try assumption.
    + intros i p Hi. apply lookup_app_Some in Hi as [Hi|[Hlen Hi]]; [exact (Hp i p Hi)|].
      apply list_lookup_singleton_Some in Hi as [Hi0 <-]. symmetry. apply bool_decide_false. intros ->.
      destruct (Hn i eq_refl) as [p Hpi]. apply lookup_lt_Some in Hpi. lia.
    + intros i Hi. destruct (Hn i Hi) as [p Hpi]. exists p. apply lookup_app_l_Some, Hpi.
    + intros Hww Hq. destruct (Hk Hww Hq) as [H|[H|H]]; auto. right. left. apply elem_of_app. auto.
  - destruct Hok as [Ho Hw Hp Hn Ht Hpop Hk Hs He]. destruct s as [ow q ev term w ps st pu ha]. cbn in *.
    destruct st; try discriminate. injection E as <-. split; cbn; try assumption; auto.
    split; discriminate.
Qed.

Lemma reachable_ok s : reachable s -> queue_ok s.
Proof. apply (reachable_invariant queue_ok started_ok). exact (fun a s s' Hok E => fire_ok a s s' Hok E). Qed.

(** ** Every schedule ends *)

Definition worker_weight (p : worker_pc) : nat :=
  match p with
  | WLock => 5 | WWhile => 4 | WWait => 0 | WRelock => 5 | WTest => 3 | WPop => 2 | WRun _ => 6 | WExit => 0
  end.
Definition producer_weight (p : producer_pc) : nat :=
  match p with QLock _ => 16 | QPush _ => 15 | QSet => 8 | QUnlock => 1 | QDone => 0 end.
Fixpoint producers_weight (ps : list producer_pc) : nat :=
  match ps with [] => 0 | p :: ps => producer_weight p + producers_weight ps end.
Definition stopper_weight (p : stopper_pc) : nat :=
  match p with SIdle => 0 | SSet => 8 | SJoin => 1 | SDone => 0 end.

Definition weight (s : state) : nat :=
  worker_weight (worker s) + producers_weight (producers s) + stopper_weight (stopper s) +
  6 * length (m_Queue s) + (if m_QueueNonempty s then 6 else 0).

Lemma weight_insert (ps : list producer_pc) i p p' : ps !! i = Some p ->
  (producers_weight (<[i := p']> ps) + producer_weight p = producers_weight ps + producer_weight p')%nat.
Proof.
  revert i. induction ps as [|q ps IH]; intros [|i] Hi; try discriminate; cbn [producers_weight insert list_insert].
  - injection Hi as ->. lia.
  - specialize (IH i Hi). unfold insert in *. lia.
Qed.

Lemma internal_decreases a s s' : internal a -> fire a s = Some s' -> (weight s' < weight s)%nat.
Proof.
  destruct s as [ow q ev term w ps st pu ha]. unfold weight. destruct a as [|i| |x|]; cbn [fire internal]; intros Hint E; try contradiction.
  - unfold worker_step in E. cbn in *.
    destruct w; cbn in E; unfold cs_Lock, cs_Unlock, event_Wait in E.
    + destruct ow; [discriminate|]. injection E as <-. cbn. lia.
    + destruct (_ && _); [destruct (decide _); [|discriminate]|]; injection E as <-; cbn; lia.
    + destruct ev; [|discriminate]. injection E as <-. cbn. lia.
    + destruct ow; [discriminate|]. injection E as <-. cbn. lia.
    + destruct term; [destruct (decide _); [|discriminate]|]; injection E as <-; cbn; lia.
    + destruct q; [discriminate|]. destruct (decide _); [|discriminate]. injection E as <-. cbn. lia.
    + injection E as <-. cbn. lia.
    + discriminate.
  - unfold producer_step in E. cbn in *. apply bind_Some in E as (p & Hi & E).
    pose proof (fun p' => weight_insert ps i p p' Hi) as Hsum.
    destruct p; cbn in E; unfold cs_Lock, cs_Unlock in E.
    + destruct ow; [discriminate|]. injection E as <-. specialize (Hsum (QPush x)). cbn in *. lia.
    + injection E as <-. specialize (Hsum QSet). cbn in *. rewrite length_app. cbn. lia.
    + injection E as <-. specialize (Hsum QUnlock). cbn in *. destruct ev; lia.
    + destruct (decide _); [|discriminate]. injection E as <-. specialize (Hsum QDone). cbn in *. lia.
    + discriminate.
  - unfold stopper_step in E. cbn in *. destruct st; try discriminate.
    + injection E as <-. cbn. destruct ev; lia.
    + destruct w; try discriminate. injection E as <-. cbn. lia.
Qed.

Lemma internal_bound acts : forall s s', Forall internal acts -> run acts s = Some s' -> (length acts + weight s' <= weight s)%nat.
Proof.
  induction acts as [|a acts IH]; intros s s' Hint E; cbn [run] in E; [injection E as <-; cbn; lia|].
  apply Forall_cons in Hint as [Ha Hint]. apply bind_Some in E as (s1 & Hf & E).
  pose proof (internal_decreases _ _ _ Ha Hf). specialize (IH _ _ Hint E). cbn [length]. lia.
Qed.

(** No thread that has begun can take a step. *)
Definition stuck (s : state) : Prop := forall a, internal a -> fire a s = None.

(** Someone who holds the lock can go on. *)
Lemma stuck_free s : queue_ok s -> stuck s -> owner s = None.
Proof.
  intros Hok Hst. destruct (owner s) as [[|i]|] eqn:Eo; [| |reflexivity]; exfalso.
  - pose proof (q_worker _ Hok) as Hw. rewrite Eo, bool_decide_true in Hw by reflexivity.
    pose proof (Hst AWorker I) as E. cbn [fire] in E. unfold worker_step, cs_Unlock in E. rewrite Eo in E.
    rewrite decide_True in E by reflexivity.
    destruct (worker s) eqn:Ew; try discriminate Hw.
    + destruct (_ && _); discriminate E.
    + destruct (m_ShouldTerminate s); discriminate E.
    + destruct (m_Queue s) eqn:Eq; [exact (q_pop _ Hok Ew Eq) | discriminate E].
  - destruct (q_owner _ Hok i Eo) as [p Hp]. pose proof (q_producer _ Hok i p Hp) as Hl.
    rewrite Eo, bool_decide_true in Hl by reflexivity.
    pose proof (Hst (AProducer i) I) as E. cbn [fire] in E. unfold producer_step, cs_Unlock in E. rewrite Hp, Eo in E.
    cbn [mbind option_bind] in E. rewrite decide_True in E by reflexivity. destruct p; discriminate.
Qed.

(** What is left when nothing moves: every request was appended; the worker has exited if it
    was told to, and waits for an empty queue otherwise. *)
Lemma stuck_done s : queue_ok s -> stuck s ->
  Forall (fun p => p = QDone) (producers s) /\
  (if m_ShouldTerminate s then worker s = WExit /\ stopper s = SDone
   else worker s = WWait /\ m_Queue s = [] /\ handled s = pushed s).
Proof.
  intros Hok Hst. pose proof (stuck_free s Hok Hst) as Hfree.
  assert (Hps : Forall (fun p => p = QDone) (producers s)).
  { apply Forall_lookup. intros i p Hp. pose proof (Hst (AProducer i) I) as E. cbn [fire] in E.
    unfold producer_step in E. rewrite Hp, Hfree in E. cbn [mbind option_bind cs_Lock] in E.
    pose proof (q_producer _ Hok i p Hp) as Hl. rewrite Hfree in Hl. destruct p; try discriminate; reflexivity. }
  split; [exact Hps|].
  assert (HnoSet : QSet ∉ producers s) by (intros Hin; rewrite Forall_forall in Hps; discriminate (Hps _ Hin)).
  pose proof (Hst AWorker I) as Ew. pose proof (Hst AStopper I) as Es. cbn [fire] in Ew, Es.
  pose proof (q_worker _ Hok) as Hl. rewrite Hfree in Hl.
  assert (Hwk : worker s = WWait /\ m_QueueNonempty s = false \/ worker s = WExit).
  { unfold worker_step in Ew. rewrite Hfree in Ew. destruct (worker s); try discriminate Hl; try discriminate Ew; auto.
    unfold event_Wait in Ew. destruct (m_QueueNonempty s); [discriminate Ew | auto]. }
  unfold stopper_step in Es.
  destruct Hwk as [[Hww Hev]|Hwx].
  - destruct (m_ShouldTerminate s) eqn:Et.
    + destruct (q_wake _ Hok Hww (or_intror Et)) as [H|[H|H]]; [congruence | contradiction | rewrite H in Es; discriminate].
    + split; [exact Hww|]. assert (Hq : m_Queue s = []).
      { destruct (m_Queue s) eqn:Eq; [reflexivity|]. exfalso.
        destruct (q_wake _ Hok Hww) as [H|[H|H]]; [left; rewrite Eq; discriminate | congruence | contradiction | rewrite H in Es; discriminate]. }
      split; [exact Hq|]. pose proof (q_order _ Hok) as Ho. unfold in_hand in Ho. rewrite Hww, Hq in Ho. cbn in Ho.
      rewrite app_nil_r in Ho. symmetry. exact Ho.
  - rewrite (q_exit _ Hok Hwx). split; [exact Hwx|]. rewrite Hwx in Es.
    destruct (stopper s) eqn:Esp; try discriminate Es; [|reflexivity].
    pose proof (proj2 (q_stop _ Hok) Esp) as Hf. rewrite (q_exit _ Hok Hwx) in Hf. discriminate.
Qed.

(** From every state some schedule goes on until nothing moves. *)
Lemma schedule_ends n : forall s, (weight s < n)%nat -> exists acts s', Forall internal acts /\ run acts s = Some s' /\ stuck s'.
Proof.
  induction n as [|n IH]; intros s Hn; [lia|].
  assert (Hdec : (exists a s', internal a /\ fire a s = Some s') \/ stuck s).
  { destruct (fire AWorker s) as [s'|] eqn:E1; [left; exists AWorker, s'; split; [exact I | exact E1]|].
    destruct (fire AStopper s) as [s'|] eqn:E2; [left; exists AStopper, s'; split; [exact I | exact E2]|].
    destruct (list_find (fun i => is_Some (fire (AProducer i) s)) (seq 0 (length (producers s)))) as [[j i]|] eqn:E3.
    - apply list_find_Some in E3 as (_ & [s' E3] & _). left. exists (AProducer i), s'. split; [exact I | exact E3].
    - right. apply list_find_None in E3. intros [|i| |x|] Ha; try contradiction; [exact E1 | | exact E2].
      destruct (decide (i < length (producers s))%nat) as [Hi|Hi].
      + rewrite Forall_forall in E3. specialize (E3 i ltac:(apply elem_of_seq; lia)).
        destruct (fire (AProducer i) s); [exfalso; apply E3; eauto | reflexivity].
      + cbn [fire]. unfold producer_step. rewrite lookup_ge_None_2 by lia. reflexivity. }
  destruct Hdec as [(a & s1 & Ha & E)|Hst]; [|exists [], s; split; [constructor|]; split; [reflexivity | exact Hst]].
  pose proof (internal_decreases _ _ _ Ha E) as Hlt.
  destruct (IH s1 ltac:(lia)) as (acts & s' & Hint & Hrun & Hst). exists (a :: acts), s'.
  split; [constructor; assumption|]. cbn [run]. rewrite E. auto.
Qed.

Lemma run_app_acts a b s s' : run a s = Some s' -> run (a ++ b) s = run b s'.
Proof.
  revert s. induction a as [|x a IH]; intros s E; cbn [run app] in *; [congruence|].
  apply bind_Some in E as (s1 & -> & E). cbn [mbind option_bind]. exact (IH _ E).
Qed.

Lemma reachable_run s acts s' : reachable s -> run acts s = Some s' -> reachable s'.
Proof. intros [a Ha] E. exists (a ++ acts). rewrite (run_app_acts _ _ _ _ Ha). exact E. Qed.

(** ** After the stop *)

(** The requests the worker will still handle once the flag is set. *)
Definition committed (s : state) : nat := match worker s with WPop | WRun _ => 1 | _ => 0 end.

Lemma stopping_step a s s' : m_ShouldTerminate s = true -> fire a s = Some s' ->
  m_ShouldTerminate s' = true /\ (length (handled s') + committed s' <= length (handled s) + committed s)%nat.
Proof.
  destruct s as [ow q ev term w ps st pu ha]. unfold committed. destruct a as [|i| |x|]; cbn; intros -> E.
  - unfold worker_step in E. cbn in *. destruct w; cbn in E; unfold cs_Lock, cs_Unlock, event_Wait in E.
    + destruct ow; [discriminate|]. injection E as <-. cbn. lia.
    + injection E as <-. cbn. lia.
    + destruct ev; [|discriminate]. injection E as <-. cbn. lia.
    + destruct ow; [discriminate|]. injection E as <-. cbn. lia.
    + destruct (decide _); [|discriminate]. injection E as <-. cbn. lia.
    + destruct q; [discriminate|]. destruct (decide _); [|discriminate]. injection E as <-. cbn. lia.
    + injection E as <-. cbn. rewrite length_app. cbn. lia.
    + discriminate.
  - unfold producer_step in E. cbn in *. apply bind_Some in E as (p & Hi & E). destruct p; cbn in E; unfold cs_Lock, cs_Unlock in E.
    + destruct ow; [discriminate|]. injection E as <-. cbn. lia.
    + injection E as <-. cbn. lia.
    + injection E as <-. cbn. lia.
    + destruct (decide _); [|discriminate]. injection E as <-. cbn. lia.
    + discriminate.
  - unfold stopper_step in E. cbn in *. destruct st; try discriminate; [|destruct w; try discriminate]; injection E as <-; cbn; lia.
  - injection E as <-. cbn. lia.
  - destruct st; try discriminate. injection E as <-. cbn. lia.
Qed.

Lemma stopping_run acts : forall s s', m_ShouldTerminate s = true -> run acts s = Some s' ->
  (length (handled s') + committed s' <= length (handled s) + committed s)%nat.
Proof.
  induction acts as [|a acts IH]; intros s s' Ht E; cbn [run] in E; [injection E as <-; lia|].
  apply bind_Some in E as (s1 & Hf & E). destruct (stopping_step _ _ _ Ht Hf) as [Ht1 Hle]. specialize (IH _ _ Ht1 E). lia.
Qed.

(** ** Theorems *)

(** C29. In every interleaving of the thread, the callers that append requests and the one that
    stops it: the requests are handled in the order they were appended, each once; and once
    they are left alone the threads that have begun come to rest after a bounded number of
    steps, whatever the schedule, with everything appended and handled and the thread
    waiting, or, when it was stopped, with the thread gone and the caller of [Stop] free. *)
Theorem queue_served (s : state) :
  reachable s ->
  pushed s = handled s ++ in_hand s ++ m_Queue s /\
  (forall acts s', Forall internal acts -> run acts s = Some s' -> (length acts <= weight s)%nat) /\
  (exists acts s', Forall internal acts /\ run acts s = Some s' /\ stuck s') /\
  (forall acts s', Forall internal acts -> run acts s = Some s' -> stuck s' ->
     Forall (fun p => p = QDone) (producers s') /\
     if m_ShouldTerminate s' then worker s' = WExit /\ stopper s' = SDone
     else worker s' = WWait /\ handled s' = pushed s').
Proof.
  intros Hr. pose proof (reachable_ok s Hr) as Hok. split; [exact (q_order _ Hok)|]. split; [|split].
  - intros acts s' Hint E. pose proof (internal_bound acts s s' Hint E). lia.
  - apply (schedule_ends (S (weight s))). lia.
  - intros acts s' Hint E Hst. destruct (stuck_done s' (reachable_ok s' (reachable_run s acts s' Hr E)) Hst) as [Hp Hd].
    split; [exact Hp|]. destruct (m_ShouldTerminate s'); [exact Hd|]. destruct Hd as (H1 & _ & H2). auto.
Qed.

(** Once the flag is set at most one more request is handled, whatever is appended. *)
Theorem stopped_soon (s s' : state) (acts : list action) :
  m_ShouldTerminate s = true -> run acts s = Some s' -> (length (handled s') <= length (handled s) + 1)%nat.
Proof.
  intros Ht E. pose proof (stopping_run acts s s' Ht E) as Hle.
  assert (committed s <= 1)%nat by (unfold committed; destruct (worker s); lia). lia.
Qed.
End Queue.

(** ** The threads of the program *)

(** cAuthenticator, cManager, cWorkerThread with its tasks. *)
Definition authenticator_thread : Type := state (A := cUser).
Definition manager_thread : Type := state (A := cMediaEvent).
Definition worker_thread (cTask : Type) : Type := state (A := cTask).

(** cThreadPool: [AddTask] gives the task to a worker chosen by [rand()]; without workers the
    remainder is undefined. *)
Record cThreadPool (cTask : Type) := { m_worker_list : list (worker_thread cTask) }.
Arguments Build_cThreadPool {cTask} _.
Arguments m_worker_list {cTask} _.

Definition ThreadPool_Init (cTask : Type) (worker_size : nat) : cThreadPool cTask :=
  {| m_worker_list := replicate worker_size started |}.

Definition AddTask {cTask : Type} (rand : Z) (pTask : cTask) (p : cThreadPool cTask) : option (cThreadPool cTask) :=
  let m_worker_size := Z.of_nat (length (m_worker_list p)) in
  if m_worker_size =? 0 then None else
  let thread_idx := Z.to_nat (u32 rand mod m_worker_size) in
  w ← m_worker_list p !! thread_idx;
  w ← fire (ARequest pTask) w;
  Some {| m_worker_list := <[thread_idx := w]> (m_worker_list p) |}.

(** ** A schedule *)

(** Two requests, the second one while the first is handled, and a stop. *)
Definition sample_schedule : list (action (A := Z)) :=
  [AWorker; AWorker; ARequest 7; AProducer 0; AProducer 0; AProducer 0; AProducer 0; AWorker; AWorker; AWorker; AWorker;
   AWorker; ARequest 8; AProducer 1; AProducer 1; AWorker; AStop].

Definition sample_state : state (A := Z) := default started (run sample_schedule started).

Lemma sample_reachable : reachable sample_state.
Proof. exists sample_schedule. vm_compute. reflexivity. Qed.

Lemma queue_served_witness :
  pushed sample_state = handled sample_state ++ in_hand sample_state ++ m_Queue sample_state /\
  pushed sample_state = [7; 8] /\ handled sample_state = [7].
Proof.
  split; [exact (proj1 (queue_served sample_state sample_reachable)) | vm_compute; split; reflexivity].
Defined.

Lemma stopped_soon_witness : exists s,
  run [AProducer 1; AProducer 1; AWorker; AWorker; AWorker] sample_state = Some s /\
  worker s = WExit /\ m_Queue s = [8] /\ (length (handled s) <= length (handled sample_state) + 1)%nat.
Proof.
  eexists. split; [vm_compute; reflexivity|]. split; [reflexivity|]. split; [reflexivity|].
  apply (stopped_soon sample_state _ [AProducer 1; AProducer 1; AWorker; AWorker; AWorker]); vm_compute; reflexivity.
Defined.
