(* ===== verification/Md5.v ===== *)
(** * Md5: the message digest of src/Src/Server/md5.cpp

    The class [MD5] with its buffered [update], the padding of [final] and the hexadecimal
    [toString].  [None] is an access outside [_buffer].  [size_t] has 32 bits, as in the
    project's Win32 builds; a [Byte] is a number in 0..255.

    First the class as it is written, then a reference that digests a whole message at once
    ([md5_reference]), and the theorems: any way of cutting a message into updates gives the
    reference digest, and what is left of the object after [digest]. *)

From S2P Require Import Prelude Bytes Packetizer.

(** ** The compression function *)

Definition S11 : Z := 7.
Definition S12 : Z := 12.
Definition S13 : Z := 17.
Definition S14 : Z := 22.
Definition S21 : Z := 5.
Definition S22 : Z := 9.
Definition S23 : Z := 14.
Definition S24 : Z := 20.
Definition S31 : Z := 4.
Definition S32 : Z := 11.
Definition S33 : Z := 16.
Definition S34 : Z := 23.
Definition S41 : Z := 6.
Definition S42 : Z := 10.
Definition S43 : Z := 15.
Definition S44 : Z := 21.

(** [~x] on [UInt32]. *)
Definition not32 (x : Z) : Z := Z.lxor x 0xffffffff.

Definition md5_F (x y z : Z) : Z := Z.lor (Z.land x y) (Z.land (not32 x) z).
Definition md5_G (x y z : Z) : Z := Z.lor (Z.land x z) (Z.land y (not32 z)).
Definition md5_H (x y z : Z) : Z := Z.lxor (Z.lxor x y) z.
Definition md5_I (x y z : Z) : Z := Z.lxor y (Z.lor x (not32 z)).

Definition ROTATE_LEFT (x n : Z) : Z := Z.lor (u32 (Z.shiftl x n)) (Z.shiftr x (32 - n)).

(** The three assignments of [FF] .. [II], with the function of the round. *)
Definition md5_op (f : Z -> Z -> Z -> Z) (a b c d x s ac : Z) : Z :=
  let a := u32 (a + u32 (f b c d + x + ac)) in
  let a := ROTATE_LEFT a s in
  u32 (a + b).

Definition FF := md5_op md5_F.
Definition GG := md5_op md5_G.
Definition HH := md5_op md5_H.
Definition II := md5_op md5_I.

(** The registers [a], [b], [c], [d]. *)
Definition registers : Type := Z * Z * Z * Z.

(** The operations of a round: the index into [x], the shift and the constant.  Each call
    names the registers one place further round: (a,b,c,d), (d,a,b,c), (c,d,a,b), ... *)
Definition round1 : list (nat * Z * Z) :=
  [(0%nat, S11, 0xd76aa478); (1%nat, S12, 0xe8c7b756); (2%nat, S13, 0x242070db); (3%nat, S14, 0xc1bdceee);
   (4%nat, S11, 0xf57c0faf); (5%nat, S12, 0x4787c62a); (6%nat, S13, 0xa8304613); (7%nat, S14, 0xfd469501);
   (8%nat, S11, 0x698098d8); (9%nat, S12, 0x8b44f7af); (10%nat, S13, 0xffff5bb1); (11%nat, S14, 0x895cd7be);
   (12%nat, S11, 0x6b901122); (13%nat, S12, 0xfd987193); (14%nat, S13, 0xa679438e); (15%nat, S14, 0x49b40821)].
Definition round2 : list (nat * Z * Z) :=
  [(1%nat, S21, 0xf61e2562); (6%nat, S22, 0xc040b340); (11%nat, S23, 0x265e5a51); (0%nat, S24, 0xe9b6c7aa);
   (5%nat, S21, 0xd62f105d); (10%nat, S22, 0x2441453); (15%nat, S23, 0xd8a1e681); (4%nat, S24, 0xe7d3fbc8);
   (9%nat, S21, 0x21e1cde6); (14%nat, S22, 0xc33707d6); (3%nat, S23, 0xf4d50d87); (8%nat, S24, 0x455a14ed);
   (13%nat, S21, 0xa9e3e905); (2%nat, S22, 0xfcefa3f8); (7%nat, S23, 0x676f02d9); (12%nat, S24, 0x8d2a4c8a)].
Definition round3 : list (nat * Z * Z) :=
  [(5%nat, S31, 0xfffa3942); (8%nat, S32, 0x8771f681); (11%nat, S33, 0x6d9d6122); (14%nat, S34, 0xfde5380c);
   (1%nat, S31, 0xa4beea44); (4%nat, S32, 0x4bdecfa9); (7%nat, S33, 0xf6bb4b60); (10%nat, S34, 0xbebfbc70);
   (13%nat, S31, 0x289b7ec6); (0%nat, S32, 0xeaa127fa); (3%nat, S33, 0xd4ef3085); (6%nat, S34, 0x4881d05);
   (9%nat, S31, 0xd9d4d039); (12%nat, S32, 0xe6db99e5); (15%nat, S33, 0x1fa27cf8); (2%nat, S34, 0xc4ac5665)].
Definition round4 : list (nat * Z * Z) :=
  [(0%nat, S41, 0xf4292244); (7%nat, S42, 0x432aff97); (14%nat, S43, 0xab9423a7); (5%nat, S44, 0xfc93a039);
   (12%nat, S41, 0x655b59c3); (3%nat, S42, 0x8f0ccc92); (10%nat, S43, 0xffeff47d); (1%nat, S44, 0x85845dd1);
   (8%nat, S41, 0x6fa87e4f); (15%nat, S42, 0xfe2ce6e0); (6%nat, S43, 0xa3014314); (13%nat, S44, 0x4e0811a1);
   (4%nat, S41, 0xf7537e82); (11%nat, S42, 0xbd3af235); (2%nat, S43, 0x2ad7d2bb); (9%nat, S44, 0xeb86d391)].

Definition run_op (op : Z -> Z -> Z -> Z -> Z -> Z -> Z -> Z) (x : list Z) (r : registers)
    (entry : nat * Z * Z) : registers :=
  let '(a, b, c, d) := r in
  let '(k, s, ac) := entry in
  (d, op a b c d (default 0 (x !! k)) s ac, b, c).

Definition run_round (op : Z -> Z -> Z -> Z -> Z -> Z -> Z -> Z) (table : list (nat * Z * Z))
    (x : list Z) (r : registers) : registers := fold_left (run_op op x) table r.

(** [decode]: the words of a block, low byte first. *)
Fixpoint decode (input : list Z) : list Z :=
  match input with
  | b0 :: b1 :: b2 :: b3 :: input =>
      Z.lor (Z.lor (Z.lor b0 (u32 (Z.shiftl b1 8))) (u32 (Z.shiftl b2 16))) (u32 (Z.shiftl b3 24))
        :: decode input
  | _ => []
  end.

Definition encode (input : list Z) : list Z :=
  concat (map (fun w => [u8 (Z.land w 0xff); u8 (Z.land (Z.shiftr w 8) 0xff);
                         u8 (Z.land (Z.shiftr w 16) 0xff); u8 (Z.land (Z.shiftr w 24) 0xff)]) input).

(** [transform] on the 64 bytes of a block. *)
Definition compress (state : registers) (block : list Z) : registers :=
  let x := decode block in
  let '(a, b, c, d) :=
    run_round II round4 x (run_round HH round3 x (run_round GG round2 x (run_round FF round1 x state))) in
  let '(s0, s1, s2, s3) := state in
  (u32 (s0 + a), u32 (s1 + b), u32 (s2 + c), u32 (s3 + d)).

(** ** The object *)

Record MD5 := {
  _state : registers;
  _count : Z * Z;
  _buffer : list Z;
  _digest : list Z;
  _finished : bool;
}.
#[global] Instance eta_MD5 : Eta MD5 := fun r =>
  Build_MD5 (_state r) (_count r) (_buffer r) (_digest r) (_finished r).

Definition PADDING : list Z := 0x80 :: replicate 63 0.

Definition init_state : registers := (0x67452301, 0xefcdab89, 0x98badcfe, 0x10325476).

(** [reset]; the two byte arrays keep what they hold. *)
Definition reset (m : MD5) : MD5 :=
  m <| _finished := false |> <| _count := (0, 0) |> <| _state := init_state |>.

(** The constructor, with what the memory of the arrays holds. *)
Definition MD5_ctor (buffer digest : list Z) : MD5 :=
  reset {| _state := (0, 0, 0, 0); _count := (0, 0); _buffer := buffer; _digest := digest; _finished := false |}.

(** [transform(&input[i])]. *)
Definition transform (input : list Z) (i : Z) (state : registers) : option registers :=
  compress state <$> read_at 64 input i.

(** [for (i = partLen; i + 63 < length; i += 64) transform(&input[i])], with the last [i]. *)
Fixpoint update_loop (fuel : nat) (input : list Z) (i : Z) (state : registers) : option (registers * Z) :=
  match fuel with
  | O => None
  | S fuel =>
    if u32 (i + 63) <? Z.of_nat (length input) then
      state ← transform input i state;
      update_loop fuel input (u32 (i + 64)) state
    else Some (state, i)
  end.

(** [_count[0] += length << 3] with the carry, [_count[1] += length >> 29]. *)
Definition add_count (count : Z * Z) (len : Z) : Z * Z :=
  let c0 := u32 (fst count + u32 (Z.shiftl len 3)) in
  let c1 := if c0 <? u32 (Z.shiftl len 3) then u32 (snd count + 1) else snd count in
  (c0, u32 (c1 + u32 (Z.shiftr len 29))).

Definition buffer_index (count : Z * Z) : Z := Z.land (Z.shiftr (fst count) 3) 0x3f.

(** Every round of the loop consumes 64 bytes. *)
Definition update (input : list Z) (m : MD5) : option MD5 :=
  let len := Z.of_nat (length input) in
  let index := buffer_index (_count m) in
  let m := m <| _finished := false |> <| _count := add_count (_count m) len |> in
  let partLen := 64 - index in
  if partLen <=? len then
    buffer ← write_at (_buffer m) index (take (Z.to_nat partLen) input);
    state ← transform buffer 0 (_state m);
    '(state, i) ← update_loop (S (length input)) input partLen state;
    buffer ← write_at buffer 0 (drop (Z.to_nat i) input);
    Some (m <| _buffer := buffer |> <| _state := state |>)
  else
    buffer ← write_at (_buffer m) index input;
    Some (m <| _buffer := buffer |>).

Definition words_of (state : registers) : list Z :=
  let '(a, b, c, d) := state in [a; b; c; d].

(** [final]: [update] is called twice and the state and the count are put back. *)
Definition final (m : MD5) : option MD5 :=
  let oldState := _state m in
  let oldCount := _count m in
  let bits := encode [fst (_count m); snd (_count m)] in
  let index := buffer_index (_count m) in
  let padLen := if index <? 56 then 56 - index else 120 - index in
  m ← update (take (Z.to_nat padLen) PADDING) m;
  m ← update bits m;
  let m := m <| _digest := encode (words_of (_state m)) |> in
  Some (m <| _state := oldState |> <| _count := oldCount |>).

(** [digest]: the object afterwards; the result is its [_digest]. *)
Definition digest (m : MD5) : option MD5 :=
  if _finished m then Some m else final (m <| _finished := true |>).

Definition HEX : list Z := chars "0123456789abcdef".

Definition bytesToHexString (input : list Z) : list Z :=
  concat (map (fun t => [default 0 (HEX !! Z.to_nat (t / 16)); default 0 (HEX !! Z.to_nat (t mod 16))]) input).

Definition toString (m : MD5) : option (MD5 * list Z) :=
  m ← digest m; Some (m, bytesToHexString (_digest m)).

(** [update(ifstream &)]: what [read] delivers, at most 1024 bytes a time; the empty last
    read is skipped. *)
Fixpoint update_file (reads : list (list Z)) (m : MD5) : option MD5 :=
  match reads with
  | [] => Some m
  | buffer :: reads =>
      m ← (if 0 <? Z.of_nat (length buffer) then update buffer m else Some m);
      update_file reads m
  end.
(** ** The reference: a whole message at once *)

Fixpoint compress_blocks (n : nat) (state : registers) (bytes : list Z) : registers :=
  match n with
  | O => state
  | S n => compress_blocks n (compress state (take 64 bytes)) (drop 64 bytes)
  end.

(** The message, a byte 0x80, zeros up to eight bytes before the end of a block, and the
    number of bits. *)
Definition md5_padded (msg : list Z) : list Z :=
  msg ++ (0x80 :: replicate (Z.to_nat ((55 - Z.of_nat (length msg)) mod 64)) 0) ++
  le_bytes 8 (8 * Z.of_nat (length msg)).

Definition md5_reference (msg : list Z) : list Z :=
  let p := md5_padded msg in
  encode (words_of (compress_blocks (length p / 64) init_state p)).

(** ** What the object holds after a message *)

Definition bit_count (len : Z) : Z * Z := (u32 (8 * len), u32 (8 * len / 2 ^ 32)).

(** The complete blocks are in the state, the rest at the start of the buffer. *)
Record absorbed (m : MD5) (msg : list Z) : Prop := {
  abs_state : _state m = compress_blocks (length msg / 64) init_state msg;
  abs_count : _count m = bit_count (Z.of_nat (length msg));
  abs_size : length (_buffer m) = 64%nat;
  abs_buffer : take (length msg mod 64) (_buffer m) = drop (64 * (length msg / 64)) msg;
}.

(** ** Arithmetic of the counters *)

Lemma buffer_index_count len : 0 <= len -> buffer_index (bit_count len) = len mod 64.
Proof.
  intros Hl. unfold buffer_index, bit_count. cbn [fst].
  change 0x3f with (Z.ones 6). rewrite Z.land_ones by lia. rewrite Z.shiftr_div_pow2 by lia.
  unfold wrap. change (2 ^ 3) with 8. change (2 ^ 6) with 64.
  replace (2 ^ 32) with (8 * (64 * 2 ^ 23)) by reflexivity.
  rewrite Z.mul_mod_distr_l by lia. rewrite (Z.mul_comm 8 (len mod _)), Z.div_mul by lia.
  rewrite Z.rem_mul_r by lia. rewrite (Z.mul_comm 64), Z.mod_add by lia.
  apply Z.mod_mod. lia.
Qed.

Lemma add_count_spec len n :
  0 <= len -> 0 <= n < 2 ^ 32 -> add_count (bit_count len) n = bit_count (len + n).
Proof.
  intros Hl Hn. unfold add_count, bit_count. cbn [fst snd].
  rewrite Z.shiftl_mul_pow2, Z.shiftr_div_pow2 by lia. unfold wrap.
  set (B := 2 ^ 32) in *.
  pose proof (Z.div_mod (8 * len) B ltac:(lia)) as E1.
  pose proof (Z.mod_pos_bound (8 * len) B ltac:(lia)) as B1.
  pose proof (Z.div_mod (n * 2 ^ 3) B ltac:(lia)) as E2.
  pose proof (Z.mod_pos_bound (n * 2 ^ 3) B ltac:(lia)) as B2.
  assert (E3 : n / 2 ^ 29 = n * 2 ^ 3 / B)
    by (unfold B; change (2 ^ 32) with (2 ^ 29 * 2 ^ 3); rewrite Z.div_mul_cancel_r by lia; reflexivity).
  rewrite E3.
  set (q1 := 8 * len / B) in *. set (r1 := 8 * len mod B) in *.
  set (q2 := n * 2 ^ 3 / B) in *. set (r2 := n * 2 ^ 3 mod B) in *.
  assert (Et : 8 * (len + n) = (r1 + r2) + (q1 + q2) * B) by lia.
  rewrite Et, Z.mod_add, Z.div_add by lia.
  destruct (Z.ltb_spec ((r1 + r2) mod B) r2) as [Hc|Hc].
  - assert (Hw : B <= r1 + r2).
    { destruct (Z_lt_le_dec (r1 + r2) B); [|assumption]. rewrite Z.mod_small in Hc by lia. lia. }
    assert (Hd : (r1 + r2) / B = 1) by (symmetry; apply (Z.div_unique _ _ _ (r1 + r2 - B)); lia).
    rewrite Hd. f_equal. rewrite (Zplus_mod_idemp_l q1 1), Zplus_mod_idemp_l, Zplus_mod_idemp_r.
    f_equal. lia.
  - assert (Hw : r1 + r2 < B).
    { destruct (Z_lt_le_dec (r1 + r2) B); [assumption|].
      assert ((r1 + r2) mod B = r1 + r2 - B)
        by (symmetry; apply (Z.mod_unique _ _ 1); lia). lia. }
    rewrite (Z.div_small (r1 + r2)) by lia. f_equal.
    rewrite Zplus_mod_idemp_l, Zplus_mod_idemp_r. reflexivity.
Qed.

(** ** Blocks *)

Lemma compress_blocks_app n k state a b :
  length a = (64 * n)%nat ->
  compress_blocks (n + k) state (a ++ b) = compress_blocks k (compress_blocks n state a) b.
Proof.
  revert state a. induction n as [|n IH]; intros state a Ha.
  - destruct a; [reflexivity | simpl in Ha; lia].
  - cbn [Nat.add compress_blocks]. rewrite take_app_le, drop_app_le by lia.
    apply IH. rewrite length_drop. lia.
Qed.

Lemma compress_blocks_prefix n : forall state a b,
  (64 * n <= length a)%nat -> compress_blocks n state (a ++ b) = compress_blocks n state a.
Proof.
  induction n as [|n IH]; intros state a b Ha; [reflexivity|]. cbn [compress_blocks].
  rewrite take_app_le, drop_app_le by lia. apply IH. rewrite length_drop. lia.
Qed.

(** The loop of [update] compresses every complete block from [i] on. *)
Lemma update_loop_spec n : forall fuel input i state,
  (n < fuel)%nat -> 0 <= i -> Z.of_nat (length input) < 2 ^ 32 - 64 ->
  i + 64 * Z.of_nat n <= Z.of_nat (length input) < i + 64 * Z.of_nat n + 64 ->
  update_loop fuel input i state =
    Some (compress_blocks n state (drop (Z.to_nat i) input), i + 64 * Z.of_nat n).
Proof.
  induction n as [|n IH]; intros [|fuel] input i state Hf Hi Hmax Hn; try lia;
    cbn [update_loop]; rewrite wrap_small by (unfold in_width; lia).
  - destruct (Z.ltb_spec (i + 63) (Z.of_nat (length input))); [lia|].
    cbn [compress_blocks]. do 2 f_equal. lia.
  - destruct (Z.ltb_spec (i + 63) (Z.of_nat (length input))); [|lia].
    unfold transform. rewrite read_at_Some by (split; lia). cbn [fmap option_fmap option_map mbind option_bind].
    rewrite wrap_small by (unfold in_width; lia). rewrite IH by lia.
    cbn [compress_blocks]. rewrite drop_drop. do 2 f_equal; [|lia].
    f_equal. f_equal. lia.
Qed.

Lemma split_length (msg : list Z) :
  length msg = (64 * (length msg / 64) + length msg mod 64)%nat /\ (length msg mod 64 < 64)%nat.
Proof. split; [apply Nat.div_mod_eq | apply Nat.mod_upper_bound; lia]. Qed.

Lemma absorbed_index m msg :
  absorbed m msg -> buffer_index (_count m) = Z.of_nat (length msg mod 64).
Proof.
  intros A. rewrite (abs_count _ _ A), buffer_index_count by lia.
  rewrite Nat2Z.inj_mod. reflexivity.
Qed.

Lemma div_mod_of (n q r : nat) : (r < 64)%nat -> n = (64 * q + r)%nat -> (n / 64 = q /\ n mod 64 = r)%nat.
Proof. intros Hr ->. split; [symmetry; apply (Nat.div_unique _ _ _ r); lia | symmetry; apply (Nat.mod_unique _ _ q); lia]. Qed.

(** A short input stays in the buffer. *)
Lemma update_short m msg input :
  absorbed m msg -> (length msg mod 64 + length input < 64)%nat ->
  exists m', update input m = Some m' /\ absorbed m' (msg ++ input).
Proof.
  intros A Hs. destruct (split_length msg) as [Hl Hr]. pose proof (absorbed_index _ _ A) as Hi.
  set (q := (length msg / 64)%nat) in *. set (r := (length msg mod 64)%nat) in *.
  destruct (div_mod_of (length (msg ++ input)) q (r + length input)) as [Hq Hm];
    [lia | rewrite length_app; lia|].
  assert (Hc : add_count (_count m) (Z.of_nat (length input)) = bit_count (Z.of_nat (length (msg ++ input)))).
  { rewrite (abs_count _ _ A), add_count_spec by lia. f_equal. rewrite length_app. lia. }
  unfold update. rewrite Hi, Hc.
  destruct (Z.leb_spec (64 - Z.of_nat r) (Z.of_nat (length input))); [lia|].
  change (_buffer (_ <| _count := _ |>)) with (_buffer m).
  pose proof (abs_size _ _ A) as Hz.
  rewrite write_at_Some by (split; lia). cbn [mbind option_bind]. rewrite Nat2Z.id.
  eexists. split; [reflexivity|]. split.
  - change (_state m = compress_blocks (length (msg ++ input) / 64) init_state (msg ++ input)).
    rewrite Hq, (abs_state _ _ A), compress_blocks_prefix by lia. reflexivity.
  - reflexivity.
  - change (length (take r (_buffer m) ++ input ++ drop (r + length input) (_buffer m)) = 64%nat).
    rewrite !length_app, length_take, length_drop. lia.
  - change (take (length (msg ++ input) mod 64) (take r (_buffer m) ++ input ++ drop (r + length input) (_buffer m))
            = drop (64 * (length (msg ++ input) / 64)) (msg ++ input)).
    pose proof (abs_buffer _ _ A) as Hb. fold q r in Hb. rewrite Hq, Hm, Hb, drop_app_le by lia.
    rewrite app_assoc, take_app_le by (rewrite length_app, length_drop; lia).
    rewrite take_ge by (rewrite length_app, length_drop; lia). reflexivity.
Qed.

(** An input that completes the block in the buffer: the block and the complete blocks after
    it go into the state, the rest of the input to the start of the buffer. *)
Lemma update_long m msg input :
  absorbed m msg -> Z.of_nat (length input) < 2 ^ 32 - 64 ->
  (64 <= length msg mod 64 + length input)%nat ->
  exists m', update input m = Some m' /\ absorbed m' (msg ++ input) /\
    ((length msg mod 64 + length input)%nat = 64%nat ->
     take (length msg mod 64) (_buffer m') = take (length msg mod 64) (_buffer m)).
Proof.
  intros A Hmax Hs. destruct (split_length msg) as [Hl Hr]. pose proof (absorbed_index _ _ A) as Hi.
  pose proof (abs_buffer _ _ A) as Hb. pose proof (abs_size _ _ A) as Hz.
  pose proof (abs_state _ _ A) as Hst.
  set (q := (length msg / 64)%nat) in *. set (r := (length msg mod 64)%nat) in *.
  set (part := (64 - r)%nat).
  destruct (split_length (drop part input)) as [Hn Hrest].
  set (n := (length (drop part input) / 64)%nat) in *. set (rest := (length (drop part input) mod 64)%nat) in *.
  rewrite length_drop in Hn.
  assert (Hlen : length (msg ++ input) = (64 * (q + 1 + n) + rest)%nat) by (rewrite length_app; lia).
  destruct (div_mod_of _ _ _ Hrest Hlen) as [Hq Hm].
  assert (Hc : add_count (_count m) (Z.of_nat (length input)) = bit_count (Z.of_nat (length (msg ++ input)))).
  { rewrite (abs_count _ _ A), add_count_spec by lia. f_equal. rewrite length_app. lia. }
  set (block := take r (_buffer m) ++ take part input).
  assert (Hblock : length block = 64%nat) by (unfold block; rewrite length_app, !length_take; lia).
  unfold update. rewrite Hi, Hc.
  replace (64 - Z.of_nat r) with (Z.of_nat part) by lia. rewrite !Nat2Z.id.
  destruct (Z.leb_spec (Z.of_nat part) (Z.of_nat (length input))); [|lia].
  change (_buffer (_ <| _count := _ |>)) with (_buffer m).
  rewrite write_at_Some by (split; rewrite ?length_take; lia). rewrite Nat2Z.id.
  rewrite length_take_le by lia. rewrite (drop_ge (_buffer m)) by lia. rewrite app_nil_r. fold block.
  cbn [mbind option_bind]. unfold transform at 1. rewrite read_at_all by lia.
  cbn [fmap option_fmap option_map mbind option_bind].
  change (_state (_ <| _count := _ |>)) with (_state m).
  rewrite (update_loop_spec n) by lia. cbn [mbind option_bind]. rewrite Nat2Z.id.
  set (tail := drop (Z.to_nat (Z.of_nat part + 64 * Z.of_nat n)) input).
  assert (Htail : tail = drop (64 * n) (drop part input)) by (unfold tail; rewrite drop_drop; f_equal; lia).
  assert (Hlt : length tail = rest) by (rewrite Htail, !length_drop; lia).
  rewrite write_at_Some by (split; lia). change (Z.to_nat 0) with 0%nat. cbn [take app Nat.add mbind option_bind].
  assert (Hcut : msg ++ input = (take (64 * q) msg ++ block) ++ drop part input).
  { unfold block. rewrite Hb, <- !app_assoc, take_drop, (app_assoc (take _ msg)), take_drop. reflexivity. }
  assert (Hc64 : length (take (64 * q) msg ++ block) = (64 * (q + 1))%nat)
    by (rewrite length_app, length_take; lia).
  eexists. split; [reflexivity|]. split; [split|].
  - change (compress_blocks n (compress (_state m) block) (drop part input)
            = compress_blocks (length (msg ++ input) / 64) init_state (msg ++ input)).
    rewrite Hq, Hcut, compress_blocks_app by exact Hc64. f_equal.
    rewrite compress_blocks_app by (rewrite length_take; lia).
    cbn [compress_blocks]. rewrite (take_ge block) by lia. f_equal. rewrite Hst.
    rewrite <- (take_drop (64 * q) msg) at 1. apply compress_blocks_prefix. rewrite length_take. lia.
  - reflexivity.
  - change (length (tail ++ drop (length tail) block) = 64%nat). rewrite length_app, length_drop. lia.
  - change (take (length (msg ++ input) mod 64) (tail ++ drop (length tail) block)
            = drop (64 * (length (msg ++ input) / 64)) (msg ++ input)).
    rewrite Hq, Hm, <- Hlt, take_app_le, take_ge by lia. rewrite Hcut.
    replace (64 * (q + 1 + n))%nat with (64 * (q + 1) + 64 * n)%nat by lia.
    rewrite <- drop_drop, drop_app_le, (drop_ge (take _ msg ++ block)) by lia. exact Htail.
  - intros Hex. change (take r (tail ++ drop (length tail) block) = take r (_buffer m)).
    assert (H0 : length tail = 0%nat) by lia. apply nil_length_inv in H0. rewrite H0. cbn [app length].
    rewrite drop_0. unfold block. rewrite take_app_le, take_take by (rewrite length_take; lia).
    f_equal. lia.
Qed.

Lemma update_absorbed m msg input :
  absorbed m msg -> Z.of_nat (length input) < 2 ^ 32 - 64 ->
  exists m', update input m = Some m' /\ absorbed m' (msg ++ input).
Proof.
  intros A Hmax. destruct (decide (length msg mod 64 + length input < 64)%nat) as [Hs|Hs].
  - exact (update_short _ _ _ A Hs).
  - destruct (update_long _ _ _ A Hmax) as (m' & Hu & A' & _); [lia|]. eauto.
Qed.

(** ** The padding *)

Lemma encode_cons w ws : encode (w :: ws) = le_bytes 4 w ++ encode ws.
Proof.
  unfold encode. cbn [map concat]. f_equal. cbn [le_bytes].
  change 0xff with (Z.ones 8). rewrite !Z.land_ones, !Z.shiftr_div_pow2 by lia.
  unfold wrap. rewrite !Z.mod_mod by lia. rewrite !Z.div_div by lia. reflexivity.
Qed.

Lemma length_encode ws : length (encode ws) = (4 * length ws)%nat.
Proof. induction ws as [|w ws IH]; [reflexivity|]. rewrite encode_cons, length_app, length_le_bytes, IH. cbn [length]. lia. Qed.

Lemma encode_bits len : encode [fst (bit_count len); snd (bit_count len)] = le_bytes 8 (8 * len).
Proof.
  rewrite !encode_cons. unfold bit_count. cbn [fst snd]. change (encode []) with (@nil Z). rewrite app_nil_r.
  unfold wrap. change (2 ^ 32) with (256 ^ Z.of_nat 4). rewrite !le_bytes_mod.
  rewrite <- (le_bytes_mod 4 (8 * len)). rewrite <- le_bytes_join by (apply Z.mod_pos_bound; reflexivity).
  change (4 + 4)%nat with 8%nat. f_equal. rewrite (Z.mul_comm _ (256 ^ _)), Z.add_comm.
  symmetry. apply Z.div_mod. discriminate.
Qed.

Definition pad_length (r : nat) : nat := if (r <? 56)%nat then 56 - r else 120 - r.

Lemma pad_length_spec r : (r < 64)%nat ->
  (1 <= pad_length r <= 64)%nat /\ (r + pad_length r = 56 \/ r + pad_length r = 120)%nat.
Proof. intros Hr. unfold pad_length. destruct (Nat.ltb_spec r 56); lia. Qed.

Lemma padding_bytes len :
  take (pad_length (len mod 64)) PADDING =
  0x80 :: replicate (Z.to_nat ((55 - Z.of_nat len) mod 64)) 0.
Proof.
  assert (Hr : (len mod 64 < 64)%nat) by (apply Nat.mod_upper_bound; lia).
  assert (Hd := Nat.div_mod_eq len 64).
  destruct (pad_length_spec _ Hr) as [Hp Hs]. set (r := (len mod 64)%nat) in *.
  destruct (pad_length r) as [|p] eqn:Ep; [lia|]. unfold PADDING. cbn [take]. f_equal.
  rewrite take_replicate. f_equal.
  assert (Hv : (55 - Z.of_nat len) mod 64 = Z.of_nat p).
  { symmetry. destruct Hs as [Hs|Hs].
    - apply (Z.mod_unique _ _ (- Z.of_nat (len / 64))); lia.
    - apply (Z.mod_unique _ _ (- Z.of_nat (len / 64) - 1)); lia. }
  rewrite Hv, Nat2Z.id. lia.
Qed.

Lemma md5_padded_blocks msg :
  (length (md5_padded msg) mod 64 = 0)%nat.
Proof.
  unfold md5_padded. rewrite <- padding_bytes, !length_app, length_le_bytes, length_take.
  destruct (split_length msg) as [Hl Hr]. destruct (pad_length_spec _ Hr) as [Hp Hs].
  set (r := (length msg mod 64)%nat) in *. set (q := (length msg / 64)%nat) in *.
  change (length PADDING) with 64%nat. rewrite Nat.min_l by lia.
  destruct Hs as [Hs|Hs].
  - apply (div_mod_of _ (q + 1) 0); lia.
  - apply (div_mod_of _ (q + 2) 0); lia.
Qed.

(** ** The digest *)

Lemma update_unfinished input m m' : update input m = Some m' -> _finished m' = false.
Proof.
  unfold update. destruct (_ <=? _); intros Hu; apply bind_Some in Hu as (buffer & _ & Hu).
  - apply bind_Some in Hu as (state & _ & Hu). apply bind_Some in Hu as ([state' i] & _ & Hu).
    apply bind_Some in Hu as (buffer' & _ & Hu). simplify_eq. reflexivity.
  - simplify_eq. reflexivity.
Qed.

(** [final] leaves the digest of the message; the message itself is still in the object when
    the padding did not need a block of its own. *)
Lemma final_absorbed m msg :
  absorbed m msg ->
  exists m', final m = Some m' /\ _digest m' = md5_reference msg /\ _finished m' = false /\
    ((length msg mod 64 < 56)%nat -> absorbed m' msg).
Proof.
  intros A. destruct (split_length msg) as [Hl Hr]. pose proof (absorbed_index _ _ A) as Hi.
  destruct (pad_length_spec _ Hr) as [Hp Hs].
  assert (Hpad : (if buffer_index (_count m) <? 56 then 56 - buffer_index (_count m) else 120 - buffer_index (_count m))
                 = Z.of_nat (pad_length (length msg mod 64))).
  { rewrite Hi. unfold pad_length.
    destruct (Nat.ltb_spec (length msg mod 64) 56), (Z.ltb_spec (Z.of_nat (length msg mod 64)) 56); lia. }
  unfold final. rewrite Hpad, Nat2Z.id.
  assert (Hbits : encode [fst (_count m); snd (_count m)] = le_bytes 8 (8 * Z.of_nat (length msg)))
    by (rewrite (abs_count _ _ A); apply encode_bits).
  rewrite Hbits. set (pad := take (pad_length (length msg mod 64)) PADDING).
  assert (Hlp : length pad = pad_length (length msg mod 64))
    by (unfold pad; rewrite length_take; change (length PADDING) with 64%nat; lia).
  assert (exists m1, update pad m = Some m1 /\ absorbed m1 (msg ++ pad) /\
            ((length msg mod 64 < 56)%nat ->
             take (length msg mod 64) (_buffer m1) = take (length msg mod 64) (_buffer m)))
    as (m1 & Hu1 & A1 & Hk1).
  { destruct (decide (length msg mod 64 < 56)%nat) as [Hlt|Hlt].
    - destruct (update_short _ _ pad A) as (m1 & Hu1 & A1); [lia|]. exists m1. split; [exact Hu1|]. split; [exact A1|].
      intros _. pose proof (abs_buffer _ _ A1) as Hb1.
      destruct (div_mod_of (length (msg ++ pad)) (length msg / 64) 56) as [Hq1 Hm1];
        [lia | rewrite length_app; lia|].
      rewrite Hq1, Hm1, drop_app_le in Hb1 by lia. rewrite (abs_buffer _ _ A).
      rewrite <- (take_app_length' (drop (64 * (length msg / 64)) msg) pad (length msg mod 64))
        by (rewrite length_drop; lia).
      rewrite <- Hb1, take_take. f_equal. lia.
    - destruct (update_absorbed _ _ pad A) as (m1 & Hu1 & A1); [lia|]. exists m1. repeat (split; [eassumption|]). lia. }
  assert (Hm56 : (length (msg ++ pad) mod 64 = 56)%nat).
  { destruct Hs as [Hs|Hs].
    - apply (div_mod_of _ (length msg / 64) 56); rewrite ?length_app; lia.
    - apply (div_mod_of _ (length msg / 64 + 1) 56); rewrite ?length_app; lia. }
  destruct (update_long _ _ (le_bytes 8 (8 * Z.of_nat (length msg))) A1) as (m2 & Hu2 & A2 & Hk2);
    [rewrite length_le_bytes; lia | rewrite length_le_bytes; lia |].
  rewrite length_le_bytes in Hk2. rewrite Hu1. cbn [mbind option_bind]. rewrite Hu2. cbn [mbind option_bind].
  eexists. split; [reflexivity|]. split; [|split].
  - change (encode (words_of (_state m2)) = md5_reference msg).
    unfold md5_reference, md5_padded. rewrite (abs_state _ _ A2). unfold pad.
    rewrite padding_bytes, <- app_assoc. reflexivity.
  - exact (update_unfinished _ _ _ Hu2).
  - intros Hlt. split; [exact (abs_state _ _ A) | exact (abs_count _ _ A) | exact (abs_size _ _ A2) |].
    change (take (length msg mod 64) (_buffer m2) = drop (64 * (length msg / 64)) msg).
    rewrite <- (abs_buffer _ _ A), <- (Hk1 Hlt).
    specialize (Hk2 ltac:(lia)). rewrite Hm56 in Hk2.
    apply (f_equal (take (length msg mod 64))) in Hk2. rewrite !take_take in Hk2.
    rewrite Nat.min_l in Hk2 by lia. exact Hk2.
Qed.

(** A message delivered in parts. *)
Fixpoint updates (chunks : list (list Z)) (m : MD5) : option MD5 :=
  match chunks with
  | [] => Some m
  | c :: chunks => m ← update c m; updates chunks m
  end.

Definition chunks_ok (chunks : list (list Z)) : Prop :=
  Forall (fun c => Z.of_nat (length c) < 2 ^ 32 - 64) chunks.

Lemma update_file_updates reads : forall m,
  update_file reads m = updates (filter (fun c => 0 < Z.of_nat (length c)) reads) m.
Proof.
  induction reads as [|c reads IH]; intros m; [reflexivity|]. cbn [update_file].
  rewrite filter_cons. destruct (Z.ltb_spec 0 (Z.of_nat (length c))).
  - rewrite decide_True by assumption. cbn [updates]. destruct (update c m); [apply IH | reflexivity].
  - rewrite decide_False by lia. apply IH.
Qed.

Lemma ctor_absorbed buffer dg : length buffer = 64%nat -> absorbed (MD5_ctor buffer dg) [].
Proof. intros Hb. split; [reflexivity | reflexivity | exact Hb | reflexivity]. Qed.

Lemma updates_absorbed chunks : forall m msg,
  absorbed m msg -> _finished m = false -> chunks_ok chunks ->
  exists m', updates chunks m = Some m' /\ absorbed m' (msg ++ concat chunks) /\ _finished m' = false.
Proof.
  induction chunks as [|c chunks IH]; intros m msg A Hf Hc.
  - exists m. cbn [concat]. rewrite app_nil_r. auto.
  - apply Forall_cons in Hc as [Hc Hcs]. destruct (update_absorbed _ _ c A Hc) as (m1 & Hu & A1).
    destruct (IH m1 _ A1 (update_unfinished _ _ _ Hu) Hcs) as (m' & Hus & A' & Hf').
    exists m'. cbn [updates concat]. rewrite Hu, app_assoc. auto.
Qed.

Lemma digest_absorbed m msg :
  absorbed m msg -> _finished m = false ->
  exists m', digest m = Some m' /\ _digest m' = md5_reference msg /\ _finished m' = false /\
    ((length msg mod 64 < 56)%nat -> absorbed m' msg).
Proof.
  intros A Hf. unfold digest. rewrite Hf. apply final_absorbed. destruct A. split; assumption.
Qed.

(** ** Theorems *)

(** C35. However a message is cut into calls of [update] (each shorter than the address space),
    and whatever the arrays hold when the object is made, no access leaves the buffer and
    [digest] is the digest of the whole message. *)
Theorem md5_streaming (buffer dg : list Z) (chunks : list (list Z)) :
  length buffer = 64%nat -> chunks_ok chunks ->
  exists m m', updates chunks (MD5_ctor buffer dg) = Some m /\ digest m = Some m' /\
    _digest m' = md5_reference (concat chunks).
Proof.
  intros Hb Hc. destruct (updates_absorbed _ _ _ (ctor_absorbed _ dg Hb) eq_refl Hc) as (m & Hu & A & Hf).
  destruct (digest_absorbed _ _ A Hf) as (m' & Hd & Hv & _). eauto.
Qed.

Lemma md5_streaming_witness : exists m m',
  updates [chars "mess"; []; chars "age digest"] (MD5_ctor (replicate 64 170) []) = Some m /\
  digest m = Some m' /\ _digest m' = md5_reference (concat [chars "mess"; []; chars "age digest"]).
Proof. apply (md5_streaming (replicate 64 170) []); [reflexivity | repeat constructor]. Defined.

(** The test suite of RFC 1321. *)
Example md5_suite :
  map (fun text => bytesToHexString (md5_reference (chars text)))
    [""; "a"; "abc"; "message digest"; "abcdefghijklmnopqrstuvwxyz";
     "12345678901234567890123456789012345678901234567890123456789012345678901234567890"]%string =
  map chars ["d41d8cd98f00b204e9800998ecf8427e"; "0cc175b9c0f1b6a831c399e269772661";
     "900150983cd24fb0d6963f7d28e17f72"; "f96b697d7cb7938d525a2f31aaf161d0";
     "c3fcd3d76192e4007dfb496cca67e13b"; "57edf4a22be3c955ac49da2e2107b67a"]%string.
Proof. vm_compute. reflexivity. Qed.

(** An object that has given its digest can be continued: when the padding fitted into the
    block the message ended in, further updates and a second [digest] give the digest of the
    longer message (of the same message, when there are none). *)
Theorem md5_resumes (buffer dg : list Z) (chunks more : list (list Z)) :
  length buffer = 64%nat -> chunks_ok chunks -> chunks_ok more ->
  (length (concat chunks) mod 64 < 56)%nat ->
  exists m m1 m2 m3, updates chunks (MD5_ctor buffer dg) = Some m /\ digest m = Some m1 /\
    updates more m1 = Some m2 /\ digest m2 = Some m3 /\
    _digest m3 = md5_reference (concat chunks ++ concat more).
Proof.
  intros Hb Hc Hmore Hlt. destruct (updates_absorbed _ _ _ (ctor_absorbed _ dg Hb) eq_refl Hc) as (m & Hu & A & Hf).
  destruct (digest_absorbed _ _ A Hf) as (m1 & Hd & _ & Hf1 & A1).
  destruct (updates_absorbed more _ _ (A1 Hlt) Hf1 Hmore) as (m2 & Hu2 & A2 & Hf2).
  destruct (digest_absorbed _ _ A2 Hf2) as (m3 & Hd3 & Hv & _). exists m, m1, m2, m3. auto.
Qed.

Lemma md5_resumes_witness : exists m m1 m2 m3,
  updates [chars "message"] (MD5_ctor (replicate 64 170) []) = Some m /\ digest m = Some m1 /\
  updates [chars " digest"] m1 = Some m2 /\ digest m2 = Some m3 /\
  _digest m3 = md5_reference (concat [chars "message"] ++ concat [chars " digest"]).
Proof. apply (md5_resumes (replicate 64 170) []); [reflexivity | repeat constructor | repeat constructor | vm_compute; lia]. Defined.

(** Otherwise the padding overwrites the part of the message in the buffer, which [final] does
    not put back; and since [update] clears [_finished], [digest] always computes again.  The
    second [toString] of a message of 56 bytes is wrong. *)
Lemma md5_second_digest :
  exists m m1 m2 first second,
    update (replicate 56 97) (MD5_ctor (replicate 64 0) []) = Some m /\
    toString m = Some (m1, first) /\ toString m1 = Some (m2, second) /\
    first = bytesToHexString (md5_reference (replicate 56 97)) /\ second <> first.
Proof.
  destruct (update (replicate 56 97) (MD5_ctor (replicate 64 0) [])) as [m|] eqn:Eu; [|vm_compute in Eu; discriminate].
  vm_compute in Eu. injection Eu as <-.
  do 5 eexists. split; [reflexivity|]. split; [vm_compute; reflexivity|]. split; [vm_compute; reflexivity|].
  split; [vm_compute; reflexivity | vm_compute; discriminate].
Qed.
