(* ===== verification/Sha1.v ===== *)
(** * Sha1: the checksum object and the Java form of a digest

    [cSha1Checksum] (src/Src/Server/PolarSSL++/Sha1Checksum.cpp) around PolarSSL's functions,
    which are arguments, and [DigestToJava], which prints the 160 bits of a digest the way
    Java prints a signed number.  [None] is a failed assertion. *)

From S2P Require Import Prelude Bytes Packetizer.

Section Checksum.
Context {sha1_context : Type} (sha1_starts : sha1_context) (sha1_update : list Z -> sha1_context -> sha1_context)
  (sha1_finish : sha1_context -> list Z).

Record cSha1Checksum := { m_DoesAcceptInput : bool; m_Sha1 : sha1_context }.

(** The constructor and [Restart]. *)
Definition Restart : cSha1Checksum := {| m_DoesAcceptInput := true; m_Sha1 := sha1_starts |}.

Definition Sha1_Update (a_Data : list Z) (c : cSha1Checksum) : option cSha1Checksum :=
  if m_DoesAcceptInput c then Some {| m_DoesAcceptInput := true; m_Sha1 := sha1_update a_Data (m_Sha1 c) |} else None.

Definition Finalize (c : cSha1Checksum) : option (cSha1Checksum * list Z) :=
  if m_DoesAcceptInput c then
    Some ({| m_DoesAcceptInput := false; m_Sha1 := m_Sha1 c |}, sha1_finish (m_Sha1 c))
  else None.
End Checksum.

(** The loop from the last byte to the first: [~] of every byte, and one added. *)
Fixpoint complement (last_first : list Z) (carry : bool) : list Z :=
  match last_first with
  | [] => []
  | b :: rest =>
      let b := 255 - b in
      if carry then u8 (b + 1) :: complement rest (b =? 255) else b :: complement rest false
  end.

Definition hex_digit (d : Z) : Z := if d <? 10 then 48 + d else 87 + d.
(** [AppendPrintf(a_Out, "%02x", b)]. *)
Definition hex_byte (b : Z) : list Z := [hex_digit (b / 16); hex_digit (b mod 16)].

Fixpoint strip_zeros (s : AString) : AString :=
  match s with
  | c :: s' => if c =? 48 then strip_zeros s' else s
  | [] => []
  end.

Definition DigestToJava (a_Digest : list Z) : option AString :=
  first ← head a_Digest;
  let IsNegative := 0x80 <=? first in
  let Digest := if IsNegative then rev (complement (rev a_Digest) true) else a_Digest in
  let a_Out := strip_zeros (concat (map hex_byte Digest)) in
  Some (if IsNegative then 45 :: a_Out else a_Out).

(** ** What the digits say *)

Definition hex_value_of (c : Z) : Z := if c <? 58 then c - 48 else c - 87.
Definition hex_value (s : AString) : Z := fold_left (fun acc c => 16 * acc + hex_value_of c) s 0.

(** The number a text with an optional minus sign stands for. *)
Definition java_value (s : AString) : Z :=
  match s with 45 :: s => - hex_value s | _ => hex_value s end.

Definition be_val (bs : list Z) : Z := le_val (rev bs).

Lemma hex_value_digit d : 0 <= d < 16 -> hex_value_of (hex_digit d) = d.
Proof.
  intros Hd. unfold hex_value_of, hex_digit. destruct (Z.ltb_spec d 10).
  - destruct (Z.ltb_spec (48 + d) 58); lia.
  - destruct (Z.ltb_spec (87 + d) 58); lia.
Qed.

Lemma be_val_cons b bs : be_val (b :: bs) = b * 256 ^ Z.of_nat (length bs) + be_val bs.
Proof. unfold be_val. cbn [rev]. rewrite le_val_app, length_rev. cbn [le_val]. lia. Qed.

Lemma hex_value_bytes bs : bytes_ok bs -> forall acc,
  fold_left (fun acc c => 16 * acc + hex_value_of c) (concat (map hex_byte bs)) acc =
  acc * 256 ^ Z.of_nat (length bs) + be_val bs.
Proof.
  induction 1 as [|b bs Hb _ IH]; intros acc; [cbn; lia|].
  cbn [map concat app hex_byte fold_left]. rewrite IH, be_val_cons. unfold byte_ok in Hb.
  rewrite !hex_value_digit by (split; [apply Z.div_pos; lia | apply Z.div_lt_upper_bound; lia] || (apply Z.mod_pos_bound; lia)).
  cbn [length]. rewrite pow256_S.
  pose proof (Z.div_mod b 16 ltac:(lia)). nia.
Qed.

Lemma strip_zeros_value s : hex_value (strip_zeros s) = hex_value s.
Proof.
  unfold hex_value. induction s as [|c s IH]; [reflexivity|]. cbn [strip_zeros fold_left].
  destruct (Z.eqb_spec c 48) as [->|]; [exact IH | reflexivity].
Qed.

Lemma strip_zeros_head s : head (strip_zeros s) <> Some 48.
Proof. induction s as [|c s IH]; [discriminate|]. cbn [strip_zeros]. destruct (Z.eqb_spec c 48); [exact IH | cbn; congruence]. Qed.

Lemma hex_digit_not_minus d : 0 <= d -> hex_digit d <> 45.
Proof. intros Hd. unfold hex_digit. destruct (d <? 10); lia. Qed.

(** The digits never start with a minus sign. *)
Lemma strip_zeros_unsigned ds : bytes_ok ds -> head (strip_zeros (concat (map hex_byte ds))) <> Some 45.
Proof.
  intros Hds. assert (Hchars : Forall (fun c => c <> 45) (concat (map hex_byte ds))).
  { apply Forall_concat, Forall_map. eapply Forall_impl; [exact Hds|]. intros b Hb. unfold byte_ok in Hb.
    repeat constructor; apply hex_digit_not_minus; [apply Z.div_pos | apply Z.mod_pos_bound]; lia. }
  induction Hchars as [|c s Hc _ IHc]; [discriminate|]. cbn [strip_zeros].
  destruct (c =? 48); [exact IHc | cbn; congruence].
Qed.

Lemma java_value_unsigned s : head s <> Some 45 -> java_value s = hex_value s.
Proof.
  destruct s as [|c s]; [reflexivity|]. unfold java_value. cbn. intros Hh.
  destruct c as [|c|c]; try reflexivity. do 6 (destruct c as [c|c|]; try reflexivity). congruence.
Qed.

Lemma complement_value bs : bytes_ok bs -> forall carry,
  bytes_ok (complement bs carry) /\
  le_val (complement bs carry) =
    (if carry then (if le_val bs =? 0 then 0 else 256 ^ Z.of_nat (length bs) - le_val bs)
     else 256 ^ Z.of_nat (length bs) - 1 - le_val bs).
Proof.
  induction 1 as [|b bs Hb Hbs IH]; intros carry; [split; [constructor | destruct carry; reflexivity]|].
  unfold byte_ok in Hb. pose proof (le_val_bound bs Hbs) as Hv. cbn [complement].
  destruct carry; cbn [le_val length]; rewrite pow256_S.
  - destruct (Z.eqb_spec (255 - b) 255) as [E|E].
    + destruct (IH true) as [Ho Hval]. split; [constructor; [unfold byte_ok, wrap; apply Z.mod_pos_bound; lia | exact Ho]|].
      rewrite Hval. replace (255 - b + 1) with 256 by lia. unfold wrap. change (256 mod 2 ^ 8) with 0.
      destruct (Z.eqb_spec (le_val bs) 0), (Z.eqb_spec (b + 256 * le_val bs) 0); lia.
    + destruct (IH false) as [Ho Hval]. split; [constructor; [unfold byte_ok, wrap; apply Z.mod_pos_bound; lia | exact Ho]|].
      rewrite Hval. unfold wrap. rewrite Z.mod_small by lia.
      destruct (Z.eqb_spec (b + 256 * le_val bs) 0); lia.
  - destruct (IH false) as [Ho Hval]. split; [constructor; [unfold byte_ok; lia | exact Ho]|]. rewrite Hval. lia.
Qed.

Lemma complement_length bs : forall carry, length (complement bs carry) = length bs.
Proof. induction bs as [|b bs IH]; intros carry; [reflexivity|]. cbn [complement]. destruct carry; cbn [length]; rewrite IH; reflexivity. Qed.

(** ** Theorem *)

(** The text of a digest stands for its 160 bits read as a signed number, has no leading zero,
    and a minus sign exactly when the number is negative.  Zero is the empty text. *)
Theorem digest_to_java (a_Digest : list Z) :
  bytes_ok a_Digest -> length a_Digest = 20%nat ->
  exists s, DigestToJava a_Digest = Some s /\
    java_value s = to_signed 160 (be_val a_Digest) /\
    head s <> Some 48 /\ (head s = Some 45 <-> to_signed 160 (be_val a_Digest) < 0).
Proof.
  intros Hok Hlen. destruct a_Digest as [|first rest] eqn:Ed; [discriminate|]. rewrite <- Ed in *.
  assert (Hhead : head a_Digest = Some first) by (rewrite Ed; reflexivity).
  unfold DigestToJava. rewrite Hhead. cbn [mbind option_bind].
  pose proof (be_val_cons first rest) as Hbe. rewrite <- Ed in Hbe.
  assert (Hrest : length rest = 19%nat) by (rewrite Ed in Hlen; cbn in Hlen; lia).
  assert (Hb : bytes_ok (first :: rest)) by (rewrite <- Ed; exact Hok).
  apply Forall_cons in Hb as [Hf Hr]. unfold byte_ok in Hf.
  pose proof (le_val_bound (rev rest) (bytes_ok_rev _ Hr)) as Hrv. rewrite length_rev, Hrest in Hrv. fold (be_val rest) in Hrv.
  rewrite Hrest in Hbe. change (256 ^ Z.of_nat 19) with (2 ^ 152) in *.
  assert (Hv : 0 <= be_val a_Digest < 2 ^ 160) by (rewrite Hbe; lia).
  assert (Hsigned : to_signed 160 (be_val a_Digest) =
            if 0x80 <=? first then be_val a_Digest - 2 ^ 160 else be_val a_Digest).
  { unfold to_signed, wrap. rewrite Z.mod_small by exact Hv. change (160 - 1) with 159.
    destruct (Z.leb_spec 128 first), (Z.ltb_spec (be_val a_Digest) (2 ^ 159)); rewrite ?Hbe in *; lia. }
  eexists. split; [reflexivity|]. rewrite Hsigned. destruct (Z.leb_spec 128 first) as [Hneg|Hpos].
  - set (ds := rev (complement (rev a_Digest) true)).
    destruct (complement_value (rev a_Digest) (bytes_ok_rev _ Hok) true) as [Hco Hcv].
    assert (Hval : hex_value (concat (map hex_byte ds)) = 2 ^ 160 - be_val a_Digest).
    { unfold hex_value. rewrite hex_value_bytes by (apply bytes_ok_rev, Hco). unfold ds at 2, be_val at 1.
      rewrite rev_involutive, Hcv. fold (be_val a_Digest). rewrite length_rev, Hlen.
      destruct (Z.eqb_spec (be_val a_Digest) 0); [rewrite Hbe in *; lia|]. change (256 ^ Z.of_nat 20) with (2 ^ 160). lia. }
    split; [cbn [java_value]; rewrite strip_zeros_value, Hval; lia|]. split; [discriminate|]. cbn. split; [lia | reflexivity].
  - assert (Hval : hex_value (concat (map hex_byte a_Digest)) = be_val a_Digest)
      by (unfold hex_value; rewrite hex_value_bytes by exact Hok; lia).
    split; [rewrite java_value_unsigned by (apply strip_zeros_unsigned, Hok); rewrite strip_zeros_value; exact Hval|].
    split; [apply strip_zeros_head|]. split; [intros Hh; destruct (strip_zeros_unsigned _ Hok Hh) | lia].
Qed.

(** The three names the comment of the source gives, with their digests. *)
Example digest_samples :
  DigestToJava [0x4e;0xd1;0xf4;0x6b;0xbe;0x04;0xbc;0x75;0x6b;0xcb;0x17;0xc0;0xc7;0xce;0x3e;0x46;0x32;0xf0;0x6a;0x48] =
    Some (chars "4ed1f46bbe04bc756bcb17c0c7ce3e4632f06a48") /\
  DigestToJava [0x83;0x62;0xa4;0xff;0xbb;0x3e;0xcf;0xef;0x65;0xa2;0x84;0xa0;0x4a;0x3c;0xe8;0x3f;0xd4;0xb1;0xd7;0x3f] =
    Some (chars "-7c9d5b0044c130109a5d7b5fb5c317c02b4e28c1") /\
  DigestToJava [0x08;0x8e;0x16;0xa1;0x01;0x92;0x77;0xb1;0x5d;0x58;0xfa;0xf0;0x54;0x1e;0x11;0x91;0x0e;0xb7;0x56;0xf6] =
    Some (chars "88e16a1019277b15d58faf0541e11910eb756f6").
Proof. vm_compute. auto. Qed.
