(* ===== verification/Settings.v ===== *)
(** * Settings: the interface cSettingsRepositoryInterface and what it promises

    [SettingsRepository] has the virtual functions of
    src/Src/Server/SettingsRepositoryInterface.h that the repositories implement; a function
    that changes the repository returns it.  [None] is undefined behaviour or a failed
    assertion.

    [SettingsView] is the abstract state of a repository: the values stored under a key and
    a name, the one lookups find first, each of them readable as a text, a number or a
    boolean, and the values below them that come to light when the last one is deleted.  [SettingsLaws] says what every operation does to it.  The repositories
    discharge the laws (IniFile, MemorySettings); the settings the server reads when it
    starts are proved against them. *)

From Stdlib Require Import Ascii String.
From stdpp Require Import pretty.
From S2P Require Import Prelude Bytes StringUtils Packetizer Text.

(** ** Numbers in strings *)

(** [Printf("%d", x)], [Printf("%lld", x)]. *)
Definition Printf_d (x : Z) : AString := chars (pretty x).

Definition char_space (c : Z) : bool := (c =? 32) || ((9 <=? c) && (c <=? 13)).

Fixpoint skip_white (s : AString) : AString :=
  match s with
  | c :: s' => if char_space c then skip_white s' else s
  | [] => []
  end.

Fixpoint decimal (acc : Z) (s : AString) : Z :=
  match s with
  | c :: s => if (48 <=? c) && (c <=? 57) then decimal (10 * acc + (c - 48)) s else acc
  | [] => acc
  end.

(** The sign and what follows it. *)
Definition sign_of (s : AString) : bool * AString :=
  match s with
  | c :: s' => if c =? 45 then (true, s') else if c =? 43 then (false, s') else (false, s)
  | [] => (false, [])
  end.

Definition in_int (x : Z) : Prop := - 2 ^ 31 <= x < 2 ^ 31.
Definition in_int64 (x : Z) : Prop := - 2 ^ 63 <= x < 2 ^ 63.
#[global] Instance in_int_dec x : Decision (in_int x).
Proof. unfold in_int. apply _. Defined.
#[global] Instance in_int64_dec x : Decision (in_int64 x).
Proof. unfold in_int64. apply _. Defined.

(** [atoi]: undefined when the number is not an [int]. *)
Definition atoi (s : AString) : option Z :=
  let '(negative, digits) := sign_of (skip_white s) in
  let x := if negative : bool then - decimal 0 digits else decimal 0 digits in
  if decide (in_int x) then Some x else None.

(** [sscanf(s, "%lld", &result)], with what [result] holds before: it keeps it when there is
    no number. *)
Definition sscanf_lld (s : AString) (result : Z) : option Z :=
  let '(negative, digits) := sign_of (skip_white s) in
  match digits with
  | c :: _ =>
      if (48 <=? c) && (c <=? 57) then
        let x := if negative : bool then - decimal 0 digits else decimal 0 digits in
        if decide (in_int64 x) then Some x else None
      else Some result
  | [] => Some result
  end.

Lemma decimal_chars (s : string) : forall acc, decimal acc (chars s) = digits acc s.
Proof.
  induction s as [|c s IH]; intros acc; [reflexivity|].
  change (decimal acc (chars (String c s))) with
    (let x := Z.of_nat (nat_of_ascii c) in
     if (48 <=? x) && (x <=? 57) then decimal (10 * acc + (x - 48)) (chars s) else acc).
  cbn [digits]. unfold digit, nat_of_ascii. rewrite N_nat_Z.
  destruct (_ && _); [apply IH | reflexivity].
Qed.

(** A printed number starts with a digit. *)
Lemma pretty_head (n : Z) : 0 <= n -> exists c s, chars (pretty n) = c :: s /\ 48 <= c <= 57.
Proof.
  intros Hn. destruct (pretty n) as [|a s] eqn:E; [destruct (pretty_nonempty n Hn E)|].
  pose proof (all_digits_pretty n Hn) as Hd. rewrite E in Hd. cbn [all_digits] in Hd.
  apply andb_true_iff in Hd as [Hd _].
  exists (Z.of_nat (nat_of_ascii a)), (chars s). split; [reflexivity|].
  unfold nat_of_ascii. rewrite N_nat_Z. apply digit_range. destruct (digit a); congruence.
Qed.

Lemma sign_of_pretty (x : Z) :
  sign_of (skip_white (Printf_d x)) = (bool_decide (x < 0), chars (pretty (Z.abs x))).
Proof.
  unfold Printf_d. destruct (decide (x < 0)) as [Hx|Hx].
  - rewrite bool_decide_true by assumption. destruct x as [|p|p]; try lia.
    change (chars (pretty (Z.neg p))) with (45 :: chars (pretty (Z.pos p))). reflexivity.
  - rewrite bool_decide_false by assumption. rewrite Z.abs_eq by lia.
    destruct (pretty_head x ltac:(lia)) as (c & s & E & Hc). rewrite E. cbn [skip_white].
    unfold char_space. destruct (Z.eqb_spec c 32), (Z.leb_spec 9 c), (Z.leb_spec c 13); cbn [orb andb]; try lia.
    cbn [sign_of]. destruct (Z.eqb_spec c 45); [lia|]. destruct (Z.eqb_spec c 43); [lia|]. reflexivity.
Qed.

Lemma decimal_abs (x : Z) :
  (if bool_decide (x < 0) then - decimal 0 (chars (pretty (Z.abs x))) else decimal 0 (chars (pretty (Z.abs x)))) = x.
Proof. rewrite decimal_chars, digits_pretty by lia. case_bool_decide; lia. Qed.

Lemma atoi_Printf (x : Z) : in_int x -> atoi (Printf_d x) = Some x.
Proof. intros Hx. unfold atoi. rewrite sign_of_pretty, decimal_abs, decide_True by assumption. reflexivity. Qed.

Lemma sscanf_Printf (x result : Z) : in_int64 x -> sscanf_lld (Printf_d x) result = Some x.
Proof.
  intros Hx. unfold sscanf_lld. rewrite sign_of_pretty.
  destruct (pretty_head (Z.abs x) ltac:(lia)) as (c & s & E & Hc).
  pose proof (decimal_abs x) as Hd. rewrite E in *.
  destruct (Z.leb_spec 48 c); [|lia]. destruct (Z.leb_spec c 57); [|lia]. cbn [andb].
  rewrite Hd, decide_True by assumption. reflexivity.
Qed.

(** ** Files *)

(** The texts the streams deliver (the end of a line is one character) and which files can
    be opened for writing. *)
Record Files := { contents : gmap AString AString; can_write : AString -> bool }.
#[global] Instance eta_Files : Eta Files := fun r => Build_Files (contents r) (can_write r).

(** ** The interface *)

Definition noID : Z := -1.

Class SettingsRepository (R : Type) := {
  KeyExists : AString -> R -> option bool;
  HasValue : AString -> AString -> R -> option bool;
  AddKeyName : AString -> R -> option (R * Z);
  AddKeyComment : AString -> AString -> R -> option (R * bool);
  GetKeyComment : AString -> Z -> R -> option AString;
  DeleteKeyComment : AString -> Z -> R -> option (R * bool);
  AddValue : AString -> AString -> AString -> R -> option R;
  GetValues : AString -> R -> option (R * list (AString * AString));
  GetValue : AString -> AString -> AString -> R -> option AString;
  GetValueSet : AString -> AString -> AString -> R -> option (R * AString);
  GetValueSetI : AString -> AString -> Z -> R -> option (R * Z);
  GetValueSetI64 : AString -> AString -> Z -> R -> option (R * Z);
  GetValueSetB : AString -> AString -> bool -> R -> option (R * bool);
  SetValue : AString -> AString -> AString -> bool -> R -> option (R * bool);
  SetValueI : AString -> AString -> Z -> bool -> R -> option (R * bool);
  DeleteValue : AString -> AString -> R -> option (R * bool);
  Flush : R -> Files -> option (Files * bool);
}.

(** ** Its abstract state *)

Class SettingsView (R : Type) := {
  (** A stored value, and how the getters read it. *)
  raw : Type;
  as_text : raw -> option AString;
  as_int : raw -> option Z;
  as_int64 : Z -> raw -> option Z;
  as_bool : raw -> option bool;
  (** The values under a key and a name, the one found first at the head. *)
  stored : R -> AString -> AString -> list raw;
  (** The values that are found when the last of those is deleted. *)
  beneath : R -> AString -> AString -> list raw;
  (** The repository can be asked for this key and this name. *)
  admissible : R -> AString -> AString -> Prop;
  (** An operation on the first pair may change what is found at the second. *)
  clash : R -> AString * AString -> AString * AString -> bool;
  writable : R -> AString -> AString -> bool;
}.

(** [r'] is [r] with the values [xs] under the key and the name. *)
Record becomes {R : Type} `{SettingsView R} (r r' : R) (k n : AString) (xs : list raw) : Prop := {
  bc_here : stored r' k n = xs;
  bc_elsewhere k' n' : clash r (k, n) (k', n') = false -> stored r' k' n' = stored r k' n';
  bc_beneath k' n' : clash r (k, n) (k', n') = false -> beneath r' k' n' = beneath r k' n';
  bc_admissible k' n' : admissible r k' n' -> admissible r' k' n';
}.

(** What a getter with a default does: [read] is the reading of a stored value, [d] the
    default, which is stored when there is nothing. *)
Definition gets_or_sets {R A : Type} `{SettingsView R} (r : R) (k n : AString) (read : raw -> option A)
    (d : A) (res : option (R * A)) : Prop :=
  match stored r k n with
  | x :: _ => res = (v ← read x; Some (r, v))
  | [] => exists r', res = Some (r', d) /\
      (if writable r k n then exists x, read x = Some d /\ becomes r r' k n [x]
       else becomes r r' k n [])
  end.

(** What a setter does. *)
Definition sets {R A : Type} `{SettingsView R} (r : R) (k n : AString) (read : raw -> option A)
    (v : A) (create : bool) (res : option (R * bool)) : Prop :=
  exists r' b, res = Some (r', b) /\
    b = writable r k n && (create || negb (bool_decide (stored r k n = []))) /\
    (if b then exists x, read x = Some v /\ becomes r r' k n (x :: tail (stored r k n))
     else becomes r r' k n (stored r k n)).

Class SettingsLaws (R : Type) `{SettingsRepository R} `{SettingsView R} : Prop := {
  law_has r k n : admissible r k n ->
    HasValue k n r = Some (negb (bool_decide (stored r k n = [])));
  law_get r k n d : admissible r k n ->
    GetValue k n d r = match stored r k n with [] => Some d | x :: _ => as_text x end;
  law_get_set r k n d : admissible r k n ->
    gets_or_sets r k n as_text d (GetValueSet k n d r);
  law_get_set_int r k n d : admissible r k n -> in_int d ->
    gets_or_sets r k n as_int d (GetValueSetI k n d r);
  law_get_set_int64 r k n d : admissible r k n -> in_int64 d ->
    gets_or_sets r k n (as_int64 d) d (GetValueSetI64 k n d r);
  law_get_set_bool r k n d : admissible r k n ->
    gets_or_sets r k n as_bool d (GetValueSetB k n d r);
  law_set r k n v create : admissible r k n ->
    sets r k n as_text v create (SetValue k n v create r);
  law_set_int r k n v create : admissible r k n -> in_int v ->
    sets r k n as_int v create (SetValueI k n v create r);
  law_add r k n v : admissible r k n -> exists r',
    AddValue k n v r = Some r' /\
    (if writable r k n then exists x xs, as_text x = Some v /\ xs ≡ₚ x :: stored r k n /\ becomes r r' k n xs
     else becomes r r' k n (stored r k n));
  (** The value found first goes; what was behind it is found next. *)
  law_delete r k n : admissible r k n -> exists r',
    DeleteValue k n r = Some (r', writable r k n && negb (bool_decide (stored r k n = []))) /\
    becomes r r' k n
      (if writable r k n then
         match stored r k n with
         | [] => []
         | [_] => beneath r k n
         | _ :: xs => xs
         end
       else stored r k n);
}.

Lemma becomes_same {R : Type} `{SettingsView R} (r : R) k n : becomes r r k n (stored r k n).
Proof. split; auto. Qed.

(** ** The settings read at the start *)

(** ReadSettings of the authenticator: the table and the names of its columns. *)
Definition ReadSettings {R : Type} `{SettingsRepository R} (r : R) : option (R * (AString * AString * AString * AString)) :=
  '(r, m_Table) ← GetValueSet (chars "Authentication") (chars "Table") (chars "tb_users") r;
  '(r, m_Username) ← GetValueSet (chars "Authentication") (chars "sername") (chars "username") r;
  '(r, m_Password) ← GetValueSet (chars "Authentication") (chars "Password") (chars "password") r;
  '(r, m_Salt) ← GetValueSet (chars "Authentication") (chars "Salt") (chars "salt") r;
  Some (r, (m_Table, m_Username, m_Password, m_Salt)).

(** What cRoot::Start and cServer::InitServer ask first. *)
Definition ShouldAuthenticate {R : Type} `{SettingsRepository R} (r : R) : option (R * bool) :=
  GetValueSetB (chars "Authentication") (chars "Authenticate") true r.
Definition Port {R : Type} `{SettingsRepository R} (r : R) : option (R * Z) :=
  GetValueSetI (chars "Server") (chars "Port") 6666 r.

(** ** Ports from older settings *)

(** The ports of the entries with exactly this name. *)
Fixpoint configured_ports (a_PortsValueName : AString) (values : list (AString * AString)) (Ports : list AString)
    : option (list AString) :=
  match values with
  | [] => Some Ports
  | (name, value) :: values =>
      if decide (name <> a_PortsValueName) then configured_ports a_PortsValueName values Ports else
      temp ← StringSplitAndTrim value (chars ";,");
      configured_ports a_PortsValueName values (Ports ++ temp)
  end.

Definition ReadUpgradeIniPorts {R : Type} `{SettingsRepository R}
    (a_KeyName a_PortsValueName a_OldIPv4ValueName a_OldIPv6ValueName a_DefaultValue : AString) (a_Settings : R)
    : option (R * list AString) :=
  '(r, values) ← GetValues a_KeyName a_Settings;
  Ports ← configured_ports a_PortsValueName values [];
  if decide (Ports <> []) then Some (r, Ports) else
  Ports4 ← GetValue a_KeyName a_OldIPv4ValueName a_DefaultValue r;
  Ports6 ← GetValue a_KeyName a_OldIPv6ValueName [] r;
  s4 ← StringSplitAndTrim Ports4 (chars ";,");
  s6 ← StringSplitAndTrim Ports6 (chars ";,");
  '(r, _) ← DeleteValue a_KeyName a_OldIPv4ValueName r;
  '(r, _) ← DeleteValue a_KeyName a_OldIPv6ValueName r;
  Ports ← (if decide (MergeStringVectors s4 s6 = []) then StringSplitAndTrim a_DefaultValue (chars ";,")
           else Some (MergeStringVectors s4 s6));
  '(r, _) ← SetValue a_KeyName a_PortsValueName (StringsConcat Ports 44) true r;
  Some (r, Ports).
