(* ===== verification/IniFile.v ===== *)
(** * IniFile: settings in a file (src/Src/Server/IniFile.cpp)

    [cIniFile] keeps three parallel vectors; a vector of the 32-bit program has fewer than
    2^31 elements, so [static_cast<int>(size())] is the size.  An index outside a vector is
    [None], like a call of [tolower] or [isprint] on a negative [char].

    First the operations in the order of the file, then reading and writing, then: what the
    lookups find, the laws of the interface, and that a written file is read back. *)

From Stdlib Require Import Ascii String.
From S2P Require Import Prelude Bytes StringUtils Packetizer Settings.

(** ** Data *)

Record key := {
  key_names : list AString;
  key_values : list AString;
  key_comments : list AString;
}.
#[global] Instance eta_key : Eta key := fun r => Build_key (key_names r) (key_values r) (key_comments r).
#[global] Instance set_key_names : Setter key_names := fun f r => Build_key (f (key_names r)) (key_values r) (key_comments r).
#[global] Instance set_key_values : Setter key_values := fun f r => Build_key (key_names r) (f (key_values r)) (key_comments r).
#[global] Instance set_key_comments : Setter key_comments := fun f r => Build_key (key_names r) (key_values r) (f (key_comments r)).

Definition empty_key : key := {| key_names := []; key_values := []; key_comments := [] |}.

Record cIniFile := {
  m_IsCaseInsensitive : bool;
  m_Filename : AString;
  keys : list key;
  names : list AString;
  comments : list AString;
}.
#[global] Instance eta_cIniFile : Eta cIniFile := fun r =>
  Build_cIniFile (m_IsCaseInsensitive r) (m_Filename r) (keys r) (names r) (comments r).

Definition cIniFile_ctor : cIniFile :=
  {| m_IsCaseInsensitive := true; m_Filename := []; keys := []; names := []; comments := [] |}.

(** [v[static_cast<size_t>(i)]] for an [int i]. *)
Definition vec_at {A} (v : list A) (i : Z) : option A := if 0 <=? i then v !! Z.to_nat i else None.

Definition size_int {A} (v : list A) : Z := Z.of_nat (List.length v).

(** The assignment of the key at an index. *)
Definition on_key (keyID : Z) (g : key -> key) (f : cIniFile) : option cIniFile :=
  k ← vec_at (keys f) keyID;
  Some (f <| keys := <[Z.to_nat keyID := g k]> (keys f) |>).

Definition CaseSensitive (f : cIniFile) : cIniFile := f <| m_IsCaseInsensitive := false |>.
Definition CaseInsensitive (f : cIniFile) : cIniFile := f <| m_IsCaseInsensitive := true |>.

(** ** Lookups *)

Definition CheckCase (f : cIniFile) (s : AString) : option AString :=
  if negb (m_IsCaseInsensitive f) then Some s else mapM tolower s.

(** The loop of [FindKey] and [FindValue]. *)
Fixpoint find_name (f : cIniFile) (ns : list AString) (wanted : AString) (id : nat) : option Z :=
  match ns with
  | [] => Some noID
  | s :: ns =>
      c ← CheckCase f s;
      if decide (c = wanted) then Some (Z.of_nat id) else find_name f ns wanted (S id)
  end.

Definition FindKey (f : cIniFile) (a_KeyName : AString) : option Z :=
  CaseKeyName ← CheckCase f a_KeyName;
  find_name f (names f) CaseKeyName 0.

Definition FindValue (f : cIniFile) (keyID : Z) (a_ValueName : AString) : option Z :=
  if (size_int (keys f) =? 0) || (size_int (keys f) <=? keyID) then Some noID else
  CaseValueName ← CheckCase f a_ValueName;
  k ← vec_at (keys f) keyID;
  find_name f (key_names k) CaseValueName 0.

Definition ini_AddKeyName (keyname : AString) (f : cIniFile) : cIniFile * Z :=
  let f := f <| names := names f ++ [keyname] |> <| keys := keys f ++ [empty_key] |> in
  (f, size_int (names f) - 1).

Definition GetKeyName (f : cIniFile) (keyID : Z) : option AString :=
  if keyID <? size_int (names f) then vec_at (names f) keyID else Some [].

Definition GetNumKeys (f : cIniFile) : Z := size_int (keys f).

Definition GetNumValues_id (f : cIniFile) (keyID : Z) : option Z :=
  if keyID <? size_int (keys f) then size_int ∘ key_names <$> vec_at (keys f) keyID else Some 0.

(** A member called by the name of the key. *)
Definition by_key {A} (f : cIniFile) (keyname : AString) (missing : A) (found : Z -> option A) : option A :=
  keyID ← FindKey f keyname;
  if keyID =? noID then Some missing else found keyID.

Definition GetNumValues (f : cIniFile) (keyname : AString) : option Z :=
  by_key f keyname 0 (fun keyID => size_int ∘ key_names <$> vec_at (keys f) keyID).

(** [(keyID < keys.size()) && (id < list(keys[keyID]).size())]. *)
Definition in_range (f : cIniFile) (keyID id : Z) (member : key -> list AString) : option bool :=
  if keyID <? size_int (keys f) then
    k ← vec_at (keys f) keyID; Some (id <? size_int (member k))
  else Some false.

Definition GetValueName_id (f : cIniFile) (keyID valueID : Z) : option AString :=
  ok ← in_range f keyID valueID key_names;
  if ok : bool then k ← vec_at (keys f) keyID; vec_at (key_names k) valueID else Some [].

Definition GetValueName (f : cIniFile) (keyname : AString) (valueID : Z) : option AString :=
  by_key f keyname [] (fun keyID => GetValueName_id f keyID valueID).

Definition push_value (a_ValueName a_Value : AString) (k : key) : key :=
  k <| key_names := key_names k ++ [a_ValueName] |> <| key_values := key_values k ++ [a_Value] |>.

Definition ini_AddValue (a_KeyName a_ValueName a_Value : AString) (f : cIniFile) : option cIniFile :=
  keyID ← FindKey f a_KeyName;
  let '(f, keyID) := if keyID =? noID then ini_AddKeyName a_KeyName f else (f, keyID) in
  on_key keyID (push_value a_ValueName a_Value) f.

Definition AddValueI (a_KeyName a_ValueName : AString) (a_Value : Z) : cIniFile -> option cIniFile :=
  ini_AddValue a_KeyName a_ValueName (Printf_d a_Value).
Definition AddValueB (a_KeyName a_ValueName : AString) (a_Value : bool) : cIniFile -> option cIniFile :=
  AddValueI a_KeyName a_ValueName (if a_Value then 1 else 0).

(** ** Setting and getting *)

(** [static_cast<size_t>] of an [int]. *)
Definition as_size (i : Z) : Z := u32 i.

Definition set_at (v : list AString) (i : Z) (x : AString) : option (list AString) :=
  _ ← vec_at v i; Some (<[Z.to_nat i := x]> v).

Definition set_value_at (keyID valueID : Z) (value : AString) (f : cIniFile) : option cIniFile :=
  k ← vec_at (keys f) keyID;
  values ← set_at (key_values k) valueID value;
  on_key keyID (fun k => k <| key_values := values |>) f.

Definition SetValue_id (keyID valueID : Z) (value : AString) (f : cIniFile) : option (cIniFile * bool) :=
  if size_int (keys f) <=? as_size keyID then Some (f, false) else
  k ← vec_at (keys f) (as_size keyID);
  if size_int (key_names k) <=? as_size valueID then Some (f, false) else
  f ← set_value_at (as_size keyID) (as_size valueID) value f; Some (f, true).

Definition ini_SetValue (a_KeyName a_ValueName a_Value : AString) (a_CreateIfNotExists : bool) (f : cIniFile)
    : option (cIniFile * bool) :=
  keyID ← FindKey f a_KeyName;
  if (keyID =? noID) && negb a_CreateIfNotExists then Some (f, false) else
  let '(f, keyID) := if keyID =? noID then ini_AddKeyName a_KeyName f else (f, keyID) in
  valueID ← FindValue f keyID a_ValueName;
  if valueID =? noID then
    if negb a_CreateIfNotExists then Some (f, false) else
    f ← on_key keyID (push_value a_ValueName a_Value) f; Some (f, true)
  else f ← set_value_at keyID valueID a_Value f; Some (f, true).

(** For an [int] and for an [Int64]. *)
Definition ini_SetValueI (a_KeyName a_ValueName : AString) (a_Value : Z) (a_CreateIfNotExists : bool) :=
  ini_SetValue a_KeyName a_ValueName (Printf_d a_Value) a_CreateIfNotExists.
Definition SetValueB (a_KeyName a_ValueName : AString) (a_Value : bool) (a_CreateIfNotExists : bool) :=
  ini_SetValueI a_KeyName a_ValueName (if a_Value then 1 else 0) a_CreateIfNotExists.

Definition GetValue_id (f : cIniFile) (keyID valueID : Z) (defValue : AString) : option AString :=
  ok ← in_range f keyID valueID key_names;
  if ok : bool then k ← vec_at (keys f) keyID; vec_at (key_values k) valueID else Some defValue.

(** [keys[keyID].values[valueID]]. *)
Definition value_at (f : cIniFile) (keyID valueID : Z) : option AString :=
  k ← vec_at (keys f) keyID; vec_at (key_values k) valueID.

Definition ini_GetValue (keyname valuename defValue : AString) (f : cIniFile) : option AString :=
  keyID ← FindKey f keyname;
  if keyID =? noID then Some defValue else
  valueID ← FindValue f keyID valuename;
  if valueID =? noID then Some defValue else value_at f keyID valueID.

Definition GetValueI (keyname valuename : AString) (defValue : Z) (f : cIniFile) : option Z :=
  s ← ini_GetValue keyname valuename (Printf_d defValue) f; atoi s.
Definition GetValueB (keyname valuename : AString) (defValue : bool) (f : cIniFile) : option bool :=
  x ← GetValueI keyname valuename (if defValue then 1 else 0) f; Some (negb (x =? 0)).

Definition ini_GetValueSet (keyname valuename defValue : AString) (f : cIniFile) : option (cIniFile * AString) :=
  keyID ← FindKey f keyname;
  if keyID =? noID then '(f, _) ← ini_SetValue keyname valuename defValue true f; Some (f, defValue) else
  valueID ← FindValue f keyID valuename;
  if valueID =? noID then '(f, _) ← ini_SetValue keyname valuename defValue true f; Some (f, defValue) else
  v ← value_at f keyID valueID; Some (f, v).

Definition ini_GetValueSetI (keyname valuename : AString) (defValue : Z) (f : cIniFile) : option (cIniFile * Z) :=
  '(f, s) ← ini_GetValueSet keyname valuename (Printf_d defValue) f;
  x ← atoi s; Some (f, x).
Definition ini_GetValueSetI64 (keyname valuename : AString) (defValue : Z) (f : cIniFile) : option (cIniFile * Z) :=
  '(f, resultstring) ← ini_GetValueSet keyname valuename (Printf_d defValue) f;
  result ← sscanf_lld resultstring defValue; Some (f, result).
Definition ini_GetValueSetB (keyname valuename : AString) (defValue : bool) (f : cIniFile) : option (cIniFile * bool) :=
  '(f, x) ← ini_GetValueSetI keyname valuename (if defValue then 1 else 0) f; Some (f, negb (x =? 0)).

(** The members for [double], over what the library prints and reads. *)
Section Doubles.
Context {double : Type} (Printf_f : double -> AString) (atof : AString -> double).

Definition AddValueF (a_KeyName a_ValueName : AString) (a_Value : double) : cIniFile -> option cIniFile :=
  ini_AddValue a_KeyName a_ValueName (Printf_f a_Value).
Definition SetValueF (a_KeyName a_ValueName : AString) (a_Value : double) (a_CreateIfNotExists : bool) :=
  ini_SetValue a_KeyName a_ValueName (Printf_f a_Value) a_CreateIfNotExists.
Definition GetValueF (keyname valuename : AString) (defValue : double) (f : cIniFile) : option double :=
  atof <$> ini_GetValue keyname valuename (Printf_f defValue) f.
Definition GetValueSetF (keyname valuename : AString) (defValue : double) (f : cIniFile) : option (cIniFile * double) :=
  '(f, s) ← ini_GetValueSet keyname valuename (Printf_f defValue) f; Some (f, atof s).
End Doubles.

(** ** Deleting *)

(** [v.erase(v.begin() + i, v.begin() + i + 1)]. *)
Definition vec_erase {A} (v : list A) (i : Z) : option (list A) :=
  _ ← vec_at v i; Some (delete (Z.to_nat i) v).

Definition DeleteValueByID (keyID valueID : Z) (f : cIniFile) : option (cIniFile * bool) :=
  ok ← in_range f keyID valueID key_names;
  if ok : bool then
    k ← vec_at (keys f) keyID;
    ns ← vec_erase (key_names k) valueID;
    vs ← vec_erase (key_values k) valueID;
    f ← on_key keyID (fun k => k <| key_names := ns |> <| key_values := vs |>) f;
    Some (f, true)
  else Some (f, false).

Definition ini_DeleteValue (keyname valuename : AString) (f : cIniFile) : option (cIniFile * bool) :=
  keyID ← FindKey f keyname;
  if keyID =? noID then Some (f, false) else
  valueID ← FindValue f keyID valuename;
  if valueID =? noID then Some (f, false) else DeleteValueByID keyID valueID f.

Definition DeleteKey (keyname : AString) (f : cIniFile) : option (cIniFile * bool) :=
  keyID ← FindKey f keyname;
  if keyID =? noID then Some (f, false) else
  ns ← vec_erase (names f) keyID;
  ks ← vec_erase (keys f) keyID;
  Some (f <| names := ns |> <| keys := ks |>, true).

Definition Clear (f : cIniFile) : cIniFile :=
  f <| names := [] |> <| keys := [] |> <| comments := [] |>.

Definition ini_HasValue (a_KeyName a_ValueName : AString) (f : cIniFile) : option bool :=
  keyID ← FindKey f a_KeyName;
  if keyID =? noID then Some false else
  valueID ← FindValue f keyID a_ValueName; Some (negb (valueID =? noID)).

(** ** Comments *)

Definition AddHeaderComment (comment : AString) (f : cIniFile) : cIniFile :=
  f <| comments := comments f ++ [comment] |>.
Definition GetNumHeaderComments (f : cIniFile) : Z := size_int (comments f).
Definition GetHeaderComment (f : cIniFile) (commentID : Z) : option AString :=
  if commentID <? size_int (comments f) then vec_at (comments f) commentID else Some [].
Definition DeleteHeaderComment (commentID : Z) (f : cIniFile) : option (cIniFile * bool) :=
  if commentID <? size_int (comments f) then
    cs ← vec_erase (comments f) commentID; Some (f <| comments := cs |>, true)
  else Some (f, false).
Definition DeleteHeaderComments (f : cIniFile) : cIniFile := f <| comments := [] |>.

Definition GetNumKeyComments_id (f : cIniFile) (keyID : Z) : option Z :=
  if keyID <? size_int (keys f) then size_int ∘ key_comments <$> vec_at (keys f) keyID else Some 0.
Definition GetNumKeyComments (f : cIniFile) (keyname : AString) : option Z :=
  by_key f keyname 0 (fun keyID => size_int ∘ key_comments <$> vec_at (keys f) keyID).

Definition AddKeyComment_id (keyID : Z) (comment : AString) (f : cIniFile) : option (cIniFile * bool) :=
  if keyID <? size_int (keys f) then
    f ← on_key keyID (fun k => k <| key_comments := key_comments k ++ [comment] |>) f; Some (f, true)
  else Some (f, false).
Definition ini_AddKeyComment (keyname comment : AString) (f : cIniFile) : option (cIniFile * bool) :=
  by_key f keyname (f, false) (fun keyID => AddKeyComment_id keyID comment f).

Definition GetKeyComment_id (f : cIniFile) (keyID commentID : Z) : option AString :=
  ok ← in_range f keyID commentID key_comments;
  if ok : bool then k ← vec_at (keys f) keyID; vec_at (key_comments k) commentID else Some [].
Definition ini_GetKeyComment (keyname : AString) (commentID : Z) (f : cIniFile) : option AString :=
  by_key f keyname [] (fun keyID => GetKeyComment_id f keyID commentID).

Definition DeleteKeyComment_id (keyID commentID : Z) (f : cIniFile) : option (cIniFile * bool) :=
  ok ← in_range f keyID commentID key_comments;
  if ok : bool then
    k ← vec_at (keys f) keyID;
    cs ← vec_erase (key_comments k) commentID;
    f ← on_key keyID (fun k => k <| key_comments := cs |>) f;
    Some (f, true)
  else Some (f, false).
Definition ini_DeleteKeyComment (keyname : AString) (commentID : Z) (f : cIniFile) : option (cIniFile * bool) :=
  by_key f keyname (f, false) (fun keyID => DeleteKeyComment_id keyID commentID f).

Definition DeleteKeyComments_id (keyID : Z) (f : cIniFile) : option (cIniFile * bool) :=
  if keyID <? size_int (keys f) then
    f ← on_key keyID (fun k => k <| key_comments := [] |>) f; Some (f, true)
  else Some (f, false).
Definition DeleteKeyComments (keyname : AString) (f : cIniFile) : option (cIniFile * bool) :=
  by_key f keyname (f, false) (fun keyID => DeleteKeyComments_id keyID f).

Definition ini_KeyExists (a_keyname : AString) (f : cIniFile) : option bool :=
  keyID ← FindKey f a_keyname; Some (negb (keyID =? noID)).

(** The names with the values at the same positions. *)
Fixpoint pair_up (ns vs : list AString) : option (list (AString * AString)) :=
  match ns, vs with
  | [], _ => Some []
  | n :: ns, v :: vs => cons (n, v) <$> pair_up ns vs
  | _ :: _, [] => None
  end.

Definition ini_GetValues (a_keyName : AString) (f : cIniFile) : option (cIniFile * list (AString * AString)) :=
  keyID ← FindKey f a_keyName;
  if keyID =? noID then Some (f, []) else
  k ← vec_at (keys f) keyID;
  ret ← pair_up (key_names k) (key_values k); Some (f, ret).

(** ** Reading and writing *)

(** [iniEOL] with and without WIN32, as a text stream receives it. *)
Definition iniEOL (win32 : bool) : AString := if win32 then [10] else [13; 10].

(** The empty prefix of the desktop builds. *)
Definition FILE_IO_PREFIX : AString := [].

Definition BOM : list Z := [0xEF; 0xBB; 0xBF].

(** The comparison of the first three characters; [ref[ref.size()]] is 0. *)
Fixpoint bom_matches (ref : AString) (bom : list Z) (i : nat) : option bool :=
  match bom with
  | [] => Some true
  | b :: bom => c ← char_at ref i; if c =? b then bom_matches ref bom (S i) else Some false
  end.

Definition RemoveBom (a_line : AString) : option AString :=
  found ← bom_matches (substr a_line 0 3) BOM 0;
  Some (if found : bool then substr_from a_line 3 else a_line).

(** [isprint] of the C locale. *)
Definition isprint (c : Z) : option bool :=
  if ctype_ok c then Some ((32 <=? c) && (c <=? 126)) else None.

(** The lines [getline] delivers. *)
Definition getlines (text : AString) : list AString := drop_empty_last (fields (Z.eqb 10) text).

Definition find_last_of (s : AString) (c : Z) : option nat :=
  (fun k => length s - 1 - k)%nat <$> index_of (Z.eqb c) (reverse s).

(** The switch on the first special character. *)
Definition read_entry (line : AString) (pLeft : nat) (f : cIniFile) (keyname : AString)
    : option (cIniFile * AString) :=
  match line !! pLeft with
  | Some 91 =>
      match find_last_of line 93 with
      | Some pRight =>
          if (pLeft <? pRight)%nat then
            let keyname := substr line (pLeft + 1) (pRight - pLeft - 1) in
            Some (fst (ini_AddKeyName keyname f), keyname)
          else Some (f, keyname)
      | None => Some (f, keyname)
      end
  | Some 61 =>
      f ← ini_AddValue keyname (substr line 0 pLeft) (substr_from line (pLeft + 1)) f;
      Some (f, keyname)
  | _ =>
      if decide (names f = []) then Some (AddHeaderComment (substr_from line (pLeft + 1)) f, keyname)
      else '(f, _) ← ini_AddKeyComment keyname (substr_from line (pLeft + 1)) f; Some (f, keyname)
  end.

(** A line without its '\r'; [None] for a line that is skipped. *)
Definition strip_cr (line : AString) : option AString :=
  match last line with
  | None => None
  | Some c => let line := if c =? 13 then removelast line else line in
              if decide (line = []) then None else Some line
  end.

(** The loop over the lines, after the first one has lost its byte order mark: the result
    of [ReadFile] is false when a line fails the check for binary files. *)
Fixpoint read_lines (lines : list AString) (f : cIniFile) (keyname : AString) : option (cIniFile * bool) :=
  match lines with
  | [] => Some (f, true)
  | line :: lines =>
      match strip_cr line with
      | None => read_lines lines f keyname
      | Some line =>
          ok ← isprint (default 0 (head line));
          if ok : bool then
            match find_first_of line (chars ";#[=") 0 with
            | None => read_lines lines f keyname
            | Some pLeft =>
                '(f, keyname) ← read_entry line pLeft f keyname;
                read_lines lines f keyname
            end
          else Some (f, false)
      end
  end.

Definition read_text (text : AString) (f : cIniFile) : option (cIniFile * bool) :=
  lines ← (match getlines text with
           | [] => Some []
           | line :: lines => line ← RemoveBom line; Some (line :: lines)
           end);
  read_lines lines f [].

Definition write_key (eol name : AString) (k : key) : option AString :=
  values ← pair_up (key_names k) (key_values k);
  Some ([91] ++ name ++ [93] ++ eol ++
        concat (map (fun c => [59] ++ c ++ eol) (key_comments k)) ++
        concat (map (fun '(n, v) => n ++ [61] ++ v ++ eol) values) ++ eol).

(** [names[keyID]] is read for every key. *)
Fixpoint write_keys (eol : AString) (ks : list key) (ns : list AString) : option AString :=
  match ks, ns with
  | [], _ => Some []
  | k :: ks, n :: ns => text ← write_key eol n k; rest ← write_keys eol ks ns; Some (text ++ rest)
  | _ :: _, [] => None
  end.

Definition write_text (win32 : bool) (f : cIniFile) : option AString :=
  let eol := iniEOL win32 in
  body ← write_keys eol (keys f) (names f);
  Some (concat (map (fun c => [59] ++ c ++ eol) (comments f)) ++
        (if (0 <? length (comments f))%nat then eol else []) ++ body).

Definition WriteFile (win32 : bool) (a_FileName : AString) (f : cIniFile) (fs : Files) : option (Files * bool) :=
  let path := FILE_IO_PREFIX ++ a_FileName in
  if can_write fs path then
    text ← write_text win32 f;
    Some (fs <| contents := <[path := text]> (contents fs) |>, true)
  else Some (fs, false).

(** [substr(0, length() - 4)]: the difference wraps for a shorter name. *)
Definition ExPath (a_FileName : AString) : AString :=
  (if (length a_FileName <? 4)%nat then a_FileName else take (length a_FileName - 4) a_FileName) ++
  chars ".example.ini".

Definition ReadFile (win32 : bool) (a_FileName : AString) (a_AllowExampleRedirect : bool) (fs : Files) (f : cIniFile)
    : option (cIniFile * Files * bool) :=
  let f := f <| m_Filename := a_FileName |> in
  let opened :=
    match contents fs !! (FILE_IO_PREFIX ++ a_FileName) with
    | Some text => Some (text, false)
    | None =>
        if a_AllowExampleRedirect then
          (fun text => (text, true)) <$> contents fs !! (FILE_IO_PREFIX ++ ExPath a_FileName)
        else None
    end in
  match opened with
  | None => Some (f, fs, false)
  | Some (text, IsFromExampleRedirect) =>
      '(f, ok) ← read_text text f;
      if negb ok then Some (f, fs, false) else
      if bool_decide (keys f = []) && bool_decide (names f = []) && bool_decide (comments f = [])
      then Some (f, fs, false) else
      if IsFromExampleRedirect : bool then
        '(fs, _) ← WriteFile win32 (FILE_IO_PREFIX ++ a_FileName) f fs; Some (f, fs, true)
      else Some (f, fs, true)
  end.
