(* ===== verification/IniFacts.v ===== *)
(** * IniFacts: what the lookups of cIniFile find

    The invariant of the three vectors ([ini_ok]), the abstract contents ([stored]: the
    values under a key and a name in the order of the file) and the laws of the interface. *)

From Stdlib Require Import Ascii String.
From S2P Require Import Prelude Bytes StringUtils Packetizer Settings IniFile.

(** ** Names *)

Definition lower (c : Z) : Z := if (65 <=? c) && (c <=? 90) then c + 32 else c.

(** What [CheckCase] makes of a string of characters [tolower] is defined on. *)
Definition canon (ci : bool) (s : AString) : AString := if ci then map lower s else s.

Definition name_ok (s : AString) : Prop := Forall (fun c => ctype_ok c = true) s.

Fixpoint position (ci : bool) (ns : list AString) (w : AString) : option nat :=
  match ns with
  | [] => None
  | s :: ns => if decide (canon ci s = w) then Some O else S <$> position ci ns w
  end.

Definition id_of (i : option nat) : Z := match i with Some i => Z.of_nat i | None => noID end.

Lemma mapM_tolower s : name_ok s -> mapM tolower s = Some (map lower s).
Proof.
  induction 1 as [|c s Hc _ IH]; [reflexivity|].
  change (mapM tolower (c :: s)) with (y ← tolower c; ys ← mapM tolower s; Some (y :: ys)).
  rewrite IH. unfold tolower. rewrite Hc. reflexivity.
Qed.

Lemma CheckCase_spec f s : name_ok s -> CheckCase f s = Some (canon (m_IsCaseInsensitive f) s).
Proof. intros Hs. unfold CheckCase, canon. destruct (m_IsCaseInsensitive f); [apply mapM_tolower, Hs | reflexivity]. Qed.

Lemma find_name_spec f ns w : Forall name_ok ns -> forall id,
  find_name f ns w id = Some (id_of (Nat.add id <$> position (m_IsCaseInsensitive f) ns w)).
Proof.
  induction 1 as [|s ns Hs _ IH]; intros id; [reflexivity|]. cbn [find_name position].
  rewrite CheckCase_spec by assumption. cbn [mbind option_bind].
  destruct (decide _); [cbn; do 2 f_equal; lia|]. rewrite IH.
  destruct (position _ ns w); [|reflexivity]. cbn. do 2 f_equal. lia.
Qed.

Lemma id_of_noID i : (id_of i =? noID) = match i with Some _ => false | None => true end.
Proof. destruct i; [|reflexivity]. apply Z.eqb_neq. unfold id_of, noID. lia. Qed.

Lemma position_lt ci ns w i : position ci ns w = Some i -> (i < length ns)%nat.
Proof.
  revert i. induction ns as [|s ns IH]; intros i Hi; [discriminate|]. cbn [position] in Hi.
  destruct (decide _); [injection Hi as <-; cbn [length]; lia|].
  destruct (position ci ns w) as [j|]; [|discriminate]. injection Hi as <-. specialize (IH _ eq_refl). cbn [length]. lia.
Qed.

Lemma position_at ci ns w i : position ci ns w = Some i -> canon ci <$> ns !! i = Some w.
Proof.
  revert i. induction ns as [|s ns IH]; intros i Hi; [discriminate|]. cbn [position] in Hi.
  destruct (decide _) as [Hc|]; [injection Hi as <-; cbn; f_equal; exact Hc|].
  destruct (position ci ns w) as [j|]; [|discriminate]. injection Hi as <-. exact (IH _ eq_refl).
Qed.

Lemma position_inj ci ns w w' i : position ci ns w = Some i -> position ci ns w' = Some i -> w = w'.
Proof. intros H1%position_at H2%position_at. congruence. Qed.

Lemma position_app ci ns ms w :
  position ci (ns ++ ms) w =
  match position ci ns w with Some i => Some i | None => Nat.add (length ns) <$> position ci ms w end.
Proof.
  induction ns as [|s ns IH]; cbn [position app length].
  - destruct (position ci ms w); reflexivity.
  - destruct (decide _); [reflexivity|]. rewrite IH. destruct (position ci ns w); [reflexivity|].
    destruct (position ci ms w); reflexivity.
Qed.

(** ** The values under a name *)

Fixpoint named (ci : bool) (ns vs : list AString) (w : AString) : list AString :=
  match ns, vs with
  | n :: ns, v :: vs => (if decide (canon ci n = w) then [v] else []) ++ named ci ns vs w
  | _, _ => []
  end.

Lemma named_none ci ns : forall vs w, position ci ns w = None -> named ci ns vs w = [].
Proof.
  induction ns as [|n ns IH]; intros [|v vs] w Hp; try reflexivity. cbn [position named] in *.
  destruct (decide _); [discriminate|]. apply IH. destruct (position ci ns w); [discriminate | reflexivity].
Qed.

(** The first value of a name. *)
Lemma named_some ci ns : forall vs w i, length ns = length vs -> position ci ns w = Some i ->
  exists v vs', vs !! i = Some v /\ named ci ns vs w = v :: vs'.
Proof.
  induction ns as [|n ns IH]; intros [|v vs] w i Hl Hp; try discriminate. cbn [position named] in *.
  destruct (decide _).
  - injection Hp as <-. eexists v, _. split; reflexivity.
  - destruct (position ci ns w) as [j|] eqn:Ej; [|discriminate]. injection Hp as <-.
    destruct (IH vs w j) as (x & xs & Hx & Hn); [cbn in Hl; lia | assumption|]. exists x, xs. auto.
Qed.

Lemma named_insert ci ns : forall vs w i v, length ns = length vs -> position ci ns w = Some i ->
  named ci ns (<[i := v]> vs) w = v :: tail (named ci ns vs w).
Proof.
  induction ns as [|n ns IH]; intros [|x vs] w i v Hl Hp; try discriminate. cbn [position named] in *.
  destruct (decide (canon ci n = w)) as [Hc|Hc].
  - injection Hp as <-. cbn [insert list_insert named]. reflexivity.
  - destruct (position ci ns w) as [j|] eqn:Ej; [|discriminate]. injection Hp as <-.
    cbn [insert list_insert named app]. apply IH; [cbn in Hl; lia | assumption].
Qed.

Lemma named_insert_other ci ns : forall vs w w' i v, w <> w' -> position ci ns w = Some i ->
  named ci ns (<[i := v]> vs) w' = named ci ns vs w'.
Proof.
  induction ns as [|n ns IH]; intros [|x vs] w w' i v Hw Hp; try reflexivity; try discriminate.
  cbn [position] in Hp. destruct (decide (canon ci n = w)) as [Hc|Hc].
  - injection Hp as <-. cbn [insert list_insert delete list_delete named]. rewrite ?decide_False by congruence. reflexivity.
  - destruct (position ci ns w) as [j|] eqn:Ej; [|discriminate]. injection Hp as <-.
    cbn [insert list_insert delete list_delete named]. f_equal. eapply IH; eassumption.
Qed.

Lemma named_delete_other ci ns : forall vs w w' i, w <> w' -> position ci ns w = Some i ->
  named ci (delete i ns) (delete i vs) w' = named ci ns vs w'.
Proof.
  induction ns as [|n ns IH]; intros [|x vs] w w' i Hw Hp; try reflexivity; try discriminate.
  { destruct i; [destruct ns|]; reflexivity. }
  cbn [position] in Hp. destruct (decide (canon ci n = w)) as [Hc|Hc].
  - injection Hp as <-. cbn [insert list_insert delete list_delete named]. rewrite ?decide_False by congruence. reflexivity.
  - destruct (position ci ns w) as [j|] eqn:Ej; [|discriminate]. injection Hp as <-.
    cbn [insert list_insert delete list_delete named]. f_equal. eapply IH; eassumption.
Qed.

(** Deleting the first value of a name. *)
Lemma named_delete ci ns : forall vs w i, length ns = length vs -> position ci ns w = Some i ->
  named ci (delete i ns) (delete i vs) w = tail (named ci ns vs w).
Proof.
  induction ns as [|n ns IH]; intros [|x vs] w i Hl Hp; try discriminate. cbn [position named] in *.
  destruct (decide (canon ci n = w)) as [Hc|Hc].
  - injection Hp as <-. reflexivity.
  - destruct (position ci ns w) as [j|] eqn:Ej; [|discriminate]. injection Hp as <-.
    cbn [delete list_delete named app]. rewrite decide_False by exact Hc. apply IH; [cbn in Hl; lia | assumption].
Qed.

Lemma named_push ci ns : forall vs n v w, length ns = length vs ->
  named ci (ns ++ [n]) (vs ++ [v]) w = named ci ns vs w ++ (if decide (canon ci n = w) then [v] else []).
Proof.
  induction ns as [|m ns IH]; intros [|x vs] n v w Hl; try discriminate; cbn [named app].
  - rewrite app_nil_r. reflexivity.
  - rewrite IH by (cbn in Hl; lia). apply app_assoc.
Qed.

(** ** The invariant and the contents *)

Definition key_ok (k : key) : Prop :=
  Forall name_ok (key_names k) /\ length (key_names k) = length (key_values k).

Record ini_ok (f : cIniFile) : Prop := {
  ok_names : Forall name_ok (names f);
  ok_length : length (keys f) = length (names f);
  ok_keys : Forall key_ok (keys f);
}.

Definition ini_stored (f : cIniFile) (k n : AString) : list AString :=
  let ci := m_IsCaseInsensitive f in
  match position ci (names f) (canon ci k) ≫= (keys f !!.) with
  | Some kk => named ci (key_names kk) (key_values kk) (canon ci n)
  | None => []
  end.

#[global] Instance ini_view : SettingsView cIniFile := {
  raw := AString;
  as_text := Some;
  as_int := atoi;
  as_int64 d s := sscanf_lld s d;
  as_bool s := x ← atoi s; Some (negb (x =? 0));
  stored := ini_stored;
  beneath _ _ _ := [];
  admissible f k n := ini_ok f /\ name_ok k /\ name_ok n;
  clash f a b :=
    let ci := m_IsCaseInsensitive f in
    bool_decide (canon ci (fst a) = canon ci (fst b)) && bool_decide (canon ci (snd a) = canon ci (snd b));
  writable _ _ _ := true;
}.

(** The key a name leads to. *)
Definition at_key (f : cIniFile) (k : AString) (i : nat) (kk : key) : Prop :=
  position (m_IsCaseInsensitive f) (names f) (canon (m_IsCaseInsensitive f) k) = Some i /\ keys f !! i = Some kk.

Lemma at_key_stored f k n i kk : at_key f k i kk ->
  ini_stored f k n = named (m_IsCaseInsensitive f) (key_names kk) (key_values kk) (canon (m_IsCaseInsensitive f) n).
Proof. intros [Hp Hk]. unfold ini_stored. rewrite Hp. cbn. rewrite Hk. reflexivity. Qed.

Lemma FindKey_spec f k : ini_ok f -> name_ok k ->
  (FindKey f k = Some noID /\ position (m_IsCaseInsensitive f) (names f) (canon (m_IsCaseInsensitive f) k) = None) \/
  (exists i kk, FindKey f k = Some (Z.of_nat i) /\ (Z.of_nat i =? noID) = false /\ at_key f k i kk /\ key_ok kk).
Proof.
  intros Hf Hk. unfold FindKey. rewrite CheckCase_spec by assumption. cbn [mbind option_bind].
  rewrite find_name_spec by apply Hf.
  destruct (position _ _ _) as [i|] eqn:Ep; [right | left; split; reflexivity].
  pose proof (position_lt _ _ _ _ Ep) as Hi. rewrite <- (ok_length _ Hf) in Hi.
  destruct (lookup_lt_is_Some_2 _ _ Hi) as [kk Hkk]. exists i, kk.
  split; [reflexivity|]. split; [apply Z.eqb_neq; unfold noID; lia|].
  split; [split; assumption | exact (proj1 (Forall_lookup _ _) (ok_keys _ Hf) _ _ Hkk)].
Qed.

Lemma vec_at_nat {A} (v : list A) (i : nat) : vec_at v (Z.of_nat i) = v !! i.
Proof. unfold vec_at. destruct (Z.leb_spec 0 (Z.of_nat i)); [|lia]. rewrite Nat2Z.id. reflexivity. Qed.

Lemma FindValue_spec f i kk n : keys f !! i = Some kk -> key_ok kk -> name_ok n ->
  FindValue f (Z.of_nat i) n =
  Some (id_of (position (m_IsCaseInsensitive f) (key_names kk) (canon (m_IsCaseInsensitive f) n))).
Proof.
  intros Hk Hkk Hn. pose proof (lookup_lt_Some _ _ _ Hk) as Hi. unfold FindValue, size_int.
  destruct (Z.eqb_spec (Z.of_nat (length (keys f))) 0); [lia|].
  destruct (Z.leb_spec (Z.of_nat (length (keys f))) (Z.of_nat i)); [lia|]. cbn [orb].
  rewrite CheckCase_spec by assumption. cbn [mbind option_bind]. rewrite vec_at_nat, Hk. cbn [mbind option_bind].
  rewrite find_name_spec by apply Hkk. do 2 f_equal. destruct (position _ _ _); reflexivity.
Qed.

(** ** What the updates do to the contents *)

Lemma vec_at_keys f i kk : keys f !! i = Some kk -> vec_at (keys f) (Z.of_nat i) = Some kk.
Proof. intros Hk. rewrite vec_at_nat. exact Hk. Qed.

Definition replace_key (f : cIniFile) (i : nat) (kk : key) : cIniFile := f <| keys := <[i := kk]> (keys f) |>.

Lemma on_key_spec f i kk g : keys f !! i = Some kk -> on_key (Z.of_nat i) g f = Some (replace_key f i (g kk)).
Proof. intros Hk. unfold on_key. rewrite (vec_at_keys _ _ _ Hk), Nat2Z.id. reflexivity. Qed.

Lemma replace_key_ok f i kk : ini_ok f -> key_ok kk -> ini_ok (replace_key f i kk).
Proof.
  intros [Hn Hl Hk] Hkk. split; [exact Hn | |].
  - change (length (<[i := kk]> (keys f)) = length (names f)). rewrite length_insert. exact Hl.
  - apply Forall_insert; assumption.
Qed.

(** A key with other values. *)
Lemma replace_key_becomes f k n i kk kk' :
  ini_ok f -> at_key f k i kk -> key_ok kk' ->
  (forall w, canon (m_IsCaseInsensitive f) n <> w ->
     named (m_IsCaseInsensitive f) (key_names kk') (key_values kk') w =
     named (m_IsCaseInsensitive f) (key_names kk) (key_values kk) w) ->
  becomes f (replace_key f i kk') k n
    (named (m_IsCaseInsensitive f) (key_names kk') (key_values kk') (canon (m_IsCaseInsensitive f) n)).
Proof.
  intros Hf [Hp Hk] Hkk' Hother. set (ci := m_IsCaseInsensitive f) in *.
  assert (Hst : forall k' n', ini_stored (replace_key f i kk') k' n' =
    match position ci (names f) (canon ci k') with
    | Some j => if decide (i = j) then named ci (key_names kk') (key_values kk') (canon ci n')
                else ini_stored f k' n'
    | None => [] end).
  { intros k' n'. unfold ini_stored at 1.
    change (match position ci (names f) (canon ci k') ≫= (<[i := kk']> (keys f) !!.) with
            | Some kk0 => named ci (key_names kk0) (key_values kk0) (canon ci n') | None => [] end = 
            match position ci (names f) (canon ci k') with
            | Some j => if decide (i = j) then named ci (key_names kk') (key_values kk') (canon ci n')
                        else ini_stored f k' n' | None => [] end).
    destruct (position ci (names f) (canon ci k')) as [j|] eqn:Ej; [|reflexivity]. cbn [mbind option_bind].
    destruct (decide (i = j)) as [<-|Hij].
    - rewrite list_lookup_insert_eq by (eapply lookup_lt_Some; exact Hk). reflexivity.
    - rewrite list_lookup_insert_ne by assumption. unfold ini_stored. fold ci. rewrite Ej. reflexivity. }
  split.
  - cbn [stored ini_view]. rewrite Hst, Hp, decide_True by reflexivity. reflexivity.
  - intros k' n' Hc. cbn [stored ini_view clash] in *. fold ci in Hc. cbn [fst snd] in Hc.
    rewrite Hst. destruct (position ci (names f) (canon ci k')) as [j|] eqn:Ej.
    + destruct (decide (i = j)) as [<-|]; [|reflexivity].
      rewrite (at_key_stored f k' n' i kk) by (split; assumption). fold ci.
      destruct (decide (canon ci n = canon ci n')) as [Hnn|Hnn]; [|exact (Hother _ Hnn)].
      destruct (decide (canon ci k = canon ci k')) as [Hkk0|Hkk0];
        [rewrite !bool_decide_true in Hc by assumption; discriminate|].
      destruct (Hkk0 (position_inj _ _ _ _ _ Hp Ej)).
    + unfold ini_stored. fold ci. rewrite Ej. reflexivity.
  - reflexivity.
  - intros k' n' (_ & H1 & H2). split; [apply replace_key_ok; assumption | auto].
Qed.

Lemma becomes_trans f f1 f2 k n xs ys :
  m_IsCaseInsensitive f1 = m_IsCaseInsensitive f ->
  becomes f f1 k n xs -> becomes f1 f2 k n ys -> becomes f f2 k n ys.
Proof.
  intros Hci [_ He1 _ Ha1] [Hh2 He2 _ Ha2]. split; [exact Hh2 | | reflexivity | auto].
  intros k' n' Hc. rewrite He2; [apply He1, Hc|]. cbn [clash ini_view] in *. rewrite Hci. exact Hc.
Qed.

(** A new key has no values yet. *)
Lemma AddKeyName_spec f k n :
  ini_ok f -> name_ok k -> position (m_IsCaseInsensitive f) (names f) (canon (m_IsCaseInsensitive f) k) = None ->
  exists f', ini_AddKeyName k f = (f', Z.of_nat (length (names f))) /\ ini_ok f' /\
    at_key f' k (length (names f)) empty_key /\ m_IsCaseInsensitive f' = m_IsCaseInsensitive f /\
    becomes f f' k n [].
Proof.
  intros Hf Hk Hp. pose proof (ok_length _ Hf) as Hl. set (ci := m_IsCaseInsensitive f) in *.
  unfold ini_AddKeyName. set (f' := _ <| keys := _ |>). exists f'.
  assert (Hn' : names f' = names f ++ [k]) by reflexivity.
  assert (Hk' : keys f' = keys f ++ [empty_key]) by reflexivity.
  assert (Hok : ini_ok f').
  { split; rewrite ?Hn', ?Hk'.
    - apply Forall_app. split; [apply Hf | auto].
    - rewrite !length_app, Hl. reflexivity.
    - apply Forall_app. split; [apply Hf | repeat constructor]. }
  split; [unfold size_int; rewrite Hn', length_app; cbn [length]; f_equal; lia|].
  split; [exact Hok|]. split; [|split; [reflexivity|]].
  { split; [change (m_IsCaseInsensitive f') with ci|]; rewrite ?Hn', ?Hk'.
    - rewrite position_app, Hp. cbn [position]. rewrite decide_True by reflexivity. cbn. f_equal. lia.
    - rewrite <- Hl, lookup_app_r, Nat.sub_diag by lia. reflexivity. }
  assert (Hst : forall k0 n0, ini_stored f' k0 n0 = ini_stored f k0 n0).
  { intros k0 n0. unfold ini_stored. change (m_IsCaseInsensitive f') with ci. fold ci. rewrite Hn', Hk', position_app.
    destruct (position ci (names f) (canon ci k0)) as [j|] eqn:Ej; cbn [mbind option_bind].
    - apply position_lt in Ej. rewrite lookup_app_l by lia. reflexivity.
    - cbn [position]. destruct (decide (canon ci k = canon ci k0)); [|reflexivity]. cbn.
      rewrite lookup_app_r by lia. replace (length (names f) + 0 - length (keys f))%nat with 0%nat by lia. reflexivity. }
  split.
  - cbn [stored ini_view]. rewrite Hst. unfold ini_stored. fold ci. rewrite Hp. reflexivity.
  - intros k0 n0 _. apply Hst.
  - reflexivity.
  - intros k0 n0 (_ & H1 & H2). split; [exact Hok | auto].
Qed.

Lemma push_key_ok n v kk : name_ok n -> key_ok kk -> key_ok (push_value n v kk).
Proof.
  intros Hn [H1 H2]. split.
  - apply (proj2 (Forall_app _ _ _)). auto.
  - change (length (key_names kk ++ [n]) = length (key_values kk ++ [v])). rewrite !length_app. cbn. lia.
Qed.

Lemma push_becomes f k n v i kk :
  ini_ok f -> name_ok n -> at_key f k i kk -> key_ok kk ->
  becomes f (replace_key f i (push_value n v kk)) k n (ini_stored f k n ++ [v]).
Proof.
  intros Hf Hn Ha Hkk. rewrite (at_key_stored f k n i kk Ha). destruct Hkk as [H1 H2].
  set (ci := m_IsCaseInsensitive f).
  assert (Hpush : forall w, named ci (key_names (push_value n v kk)) (key_values (push_value n v kk)) w =
     named ci (key_names kk) (key_values kk) w ++ (if decide (canon ci n = w) then [v] else []))
    by (intros w; apply (named_push ci (key_names kk) (key_values kk) n v w H2)).
  pose proof (Hpush (canon ci n)) as Hp. rewrite decide_True in Hp by reflexivity. rewrite <- Hp.
  apply (replace_key_becomes f k n i kk); [exact Hf | exact Ha | apply push_key_ok; [exact Hn | split; assumption] |].
  intros w Hw. fold ci in Hw |- *. rewrite Hpush, decide_False by exact Hw. apply app_nil_r.
Qed.

Definition with_value (j : nat) (v : AString) (kk : key) : key := kk <| key_values := <[j := v]> (key_values kk) |>.

Lemma set_value_at_spec f i kk j n v :
  keys f !! i = Some kk -> key_ok kk -> position (m_IsCaseInsensitive f) (key_names kk) n = Some j ->
  set_value_at (Z.of_nat i) (Z.of_nat j) v f = Some (replace_key f i (with_value j v kk)).
Proof.
  intros Hk [_ Hl] Hj. apply position_lt in Hj. unfold set_value_at. rewrite (vec_at_keys _ _ _ Hk). cbn [mbind option_bind].
  unfold set_at. rewrite vec_at_nat. destruct (lookup_lt_is_Some_2 (key_values kk) j) as [x Hx]; [lia|].
  rewrite Hx, Nat2Z.id. cbn [mbind option_bind]. rewrite (on_key_spec _ _ kk) by exact Hk. reflexivity.
Qed.

Lemma with_value_becomes f k n v i kk j :
  ini_ok f -> at_key f k i kk -> key_ok kk ->
  position (m_IsCaseInsensitive f) (key_names kk) (canon (m_IsCaseInsensitive f) n) = Some j ->
  becomes f (replace_key f i (with_value j v kk)) k n (v :: tail (ini_stored f k n)).
Proof.
  intros Hf Ha Hkk Hj. rewrite (at_key_stored f k n i kk Ha). set (ci := m_IsCaseInsensitive f) in *.
  rewrite <- (named_insert ci (key_names kk) (key_values kk) _ j v (proj2 Hkk) Hj).
  apply (replace_key_becomes f k n i kk); [exact Hf | exact Ha | |].
  - destruct Hkk as [H1 H2]. split; [exact H1|].
    change (length (key_names kk) = length (<[j := v]> (key_values kk))). rewrite length_insert. exact H2.
  - intros w Hw. exact (named_insert_other ci (key_names kk) (key_values kk) _ w j v Hw Hj).
Qed.

(** Nothing is stored when the key or the name is missing. *)
Lemma stored_missing f k n :
  position (m_IsCaseInsensitive f) (names f) (canon (m_IsCaseInsensitive f) k) = None -> ini_stored f k n = [].
Proof. intros Hp. unfold ini_stored. rewrite Hp. reflexivity. Qed.

(** The three cases of a lookup by key and name. *)
Inductive lookup_case (f : cIniFile) (k n : AString) : Prop :=
  | NoKey : FindKey f k = Some noID ->
      position (m_IsCaseInsensitive f) (names f) (canon (m_IsCaseInsensitive f) k) = None ->
      ini_stored f k n = [] -> lookup_case f k n
  | NoValue i kk : FindKey f k = Some (Z.of_nat i) -> (Z.of_nat i =? noID) = false ->
      at_key f k i kk -> key_ok kk -> FindValue f (Z.of_nat i) n = Some noID ->
      ini_stored f k n = [] -> lookup_case f k n
  | Found i kk j v vs : FindKey f k = Some (Z.of_nat i) -> (Z.of_nat i =? noID) = false ->
      at_key f k i kk -> key_ok kk -> FindValue f (Z.of_nat i) n = Some (Z.of_nat j) -> (Z.of_nat j =? noID) = false ->
      position (m_IsCaseInsensitive f) (key_names kk) (canon (m_IsCaseInsensitive f) n) = Some j ->
      key_values kk !! j = Some v -> ini_stored f k n = v :: vs -> lookup_case f k n.

Lemma lookup_cases f k n : ini_ok f -> name_ok k -> name_ok n -> lookup_case f k n.
Proof.
  intros Hf Hk Hn. destruct (FindKey_spec f k Hf Hk) as [[HF Hp]|(i & kk & HF & Hid & Ha & Hkk)].
  - apply NoKey; [exact HF | exact Hp | apply stored_missing, Hp].
  - pose proof (FindValue_spec f i kk n (proj2 Ha) Hkk Hn) as HV.
    pose proof (at_key_stored f k n i kk Ha) as Hs.
    destruct (position _ (key_names kk) _) as [j|] eqn:Ej; cbn [id_of] in HV.
    + destruct (named_some _ _ (key_values kk) _ _ (proj2 Hkk) Ej) as (v & vs & Hv & Hnv). rewrite Hnv in Hs.
      eapply Found; [exact HF | exact Hid | exact Ha | exact Hkk | exact HV | | exact Ej | exact Hv | exact Hs].
      apply Z.eqb_neq. unfold noID. lia.
    + rewrite named_none in Hs by exact Ej. eapply NoValue; eassumption.
Qed.

Lemma value_at_spec f k i kk j v : at_key f k i kk -> key_values kk !! j = Some v ->
  value_at f (Z.of_nat i) (Z.of_nat j) = Some v.
Proof. intros [_ Hk] Hv. unfold value_at. rewrite (vec_at_keys _ _ _ Hk). cbn [mbind option_bind]. rewrite vec_at_nat. exact Hv. Qed.

(** ** The laws of the interface *)

#[global] Instance ini_repository : SettingsRepository cIniFile := {
  KeyExists := ini_KeyExists;
  HasValue := ini_HasValue;
  AddKeyName k f := Some (ini_AddKeyName k f);
  AddKeyComment := ini_AddKeyComment;
  GetKeyComment := ini_GetKeyComment;
  DeleteKeyComment := ini_DeleteKeyComment;
  AddValue := ini_AddValue;
  GetValues := ini_GetValues;
  GetValue := ini_GetValue;
  GetValueSet := ini_GetValueSet;
  GetValueSetI := ini_GetValueSetI;
  GetValueSetI64 := ini_GetValueSetI64;
  GetValueSetB := ini_GetValueSetB;
  SetValue := ini_SetValue;
  SetValueI := ini_SetValueI;
  DeleteValue := ini_DeleteValue;
  Flush f := WriteFile true (m_Filename f) f;
}.

Lemma ini_set_sets {A} (read : AString -> option A) (x : A) f k n v create :
  admissible f k n -> read v = Some x -> sets f k n read x create (ini_SetValue k n v create f).
Proof.
  intros (Hf & Hk & Hn) Hread. unfold sets. cbn [stored writable ini_view andb].
  destruct (lookup_cases f k n Hf Hk Hn) as [HF Hp Hs | i kk HF Hid Ha Hkk HV Hs | i kk j w vs HF Hid Ha Hkk HV Hjd Hj Hw Hs];
    rewrite Hs; unfold ini_SetValue; rewrite HF; cbn [mbind option_bind tail].
  - rewrite (bool_decide_true ([] = [])) by reflexivity. rewrite orb_false_r. change (noID =? noID) with true. cbn [andb].
    destruct create; cbn [negb].
    + destruct (AddKeyName_spec f k n Hf Hk Hp) as (f1 & -> & Hf1 & Ha1 & Hci & B1).
      rewrite (FindValue_spec f1 _ _ n (proj2 Ha1)) by (repeat constructor || exact Hn). cbn [position empty_key key_names id_of mbind option_bind].
      change (noID =? noID) with true. cbn [negb].
      rewrite (on_key_spec _ _ _ _ (proj2 Ha1)). cbn [mbind option_bind].
      eexists _, true. split; [reflexivity|]. split; [reflexivity|]. exists v. split; [exact Hread|].
      pose proof (push_becomes f1 k n v _ _ Hf1 Hn Ha1 ltac:(repeat constructor)) as B2.
      pose proof (bc_here _ _ _ _ _ B1) as Hs1. cbn [stored ini_view] in Hs1. rewrite Hs1 in B2.
      exact (becomes_trans _ _ _ _ _ _ _ Hci B1 B2).
    + exists f, false. split; [reflexivity|]. split; [reflexivity|]. rewrite <- Hs. exact (becomes_same f k n).
  - rewrite (bool_decide_true ([] = [])) by reflexivity. rewrite orb_false_r, Hid. cbn [andb]. rewrite HV. cbn [mbind option_bind].
    change (noID =? noID) with true. destruct create; cbn [negb].
    + rewrite (on_key_spec _ _ _ _ (proj2 Ha)). cbn [mbind option_bind].
      eexists _, true. split; [reflexivity|]. split; [reflexivity|]. exists v. split; [exact Hread|].
      pose proof (push_becomes f k n v _ _ Hf Hn Ha Hkk) as B. rewrite Hs in B. exact B.
    + exists f, false. split; [reflexivity|]. split; [reflexivity|]. rewrite <- Hs. exact (becomes_same f k n).
  - rewrite (bool_decide_false (w :: vs = [])) by discriminate. rewrite orb_true_r, Hid. cbn [andb]. rewrite HV. cbn [mbind option_bind].
    rewrite Hjd, (set_value_at_spec _ _ _ _ _ _ (proj2 Ha) Hkk Hj). cbn [mbind option_bind].
    eexists _, true. split; [reflexivity|]. split; [reflexivity|]. exists v. split; [exact Hread|].
    pose proof (with_value_becomes f k n v i kk j Hf Ha Hkk Hj) as B. rewrite Hs in B. exact B.
Qed.

Lemma ini_get_or_set f k n d : admissible f k n ->
  match ini_stored f k n with
  | x :: _ => ini_GetValueSet k n d f = Some (f, x)
  | [] => exists f', ini_GetValueSet k n d f = Some (f', d) /\ becomes f f' k n [d]
  end.
Proof.
  intros Hadm. pose proof (ini_set_sets Some d f k n d true Hadm eq_refl) as (f' & b & Hset & Hb & Hbec).
  cbn [stored writable ini_view andb orb] in Hb, Hbec. subst b. destruct Hbec as (x & Hx & Hbec). injection Hx as ->.
  destruct Hadm as (Hf & Hk & Hn).
  destruct (lookup_cases f k n Hf Hk Hn) as [HF Hp Hs | i kk HF Hid Ha Hkk HV Hs | i kk j w vs HF Hid Ha Hkk HV Hjd Hj Hw Hs];
    rewrite Hs in Hbec |- *; unfold ini_GetValueSet; rewrite HF; cbn [mbind option_bind].
  - change (noID =? noID) with true. cbn [mbind option_bind]. rewrite Hset. exists f'. split; [reflexivity | exact Hbec].
  - rewrite Hid, HV. cbn [mbind option_bind]. change (noID =? noID) with true. cbn [mbind option_bind]. rewrite Hset.
    exists f'. split; [reflexivity | exact Hbec].
  - rewrite Hid, HV. cbn [mbind option_bind]. rewrite Hjd, (value_at_spec f k i kk j w Ha Hw). reflexivity.
Qed.

(** A getter that reads the text [GetValueSet] gives, with a default that is printed. *)
Lemma ini_typed_get_set {A} (read : AString -> option A) (x : A) f k n d res :
  admissible f k n -> read d = Some x ->
  res = ('(f, s) ← ini_GetValueSet k n d f; v ← read s; Some (f, v)) ->
  gets_or_sets f k n read x res.
Proof.
  intros Hadm Hread ->. pose proof (ini_get_or_set f k n d Hadm) as Hg. unfold gets_or_sets.
  cbn [stored writable ini_view]. destruct (ini_stored f k n) as [|w vs] eqn:Es.
  - destruct Hg as (f' & -> & Hbec). exists f'. cbn [mbind option_bind]. rewrite Hread. split; [reflexivity|].
    exists d. split; [exact Hread | exact Hbec].
  - rewrite Hg. reflexivity.
Qed.

Lemma ini_delete_spec f k n : admissible f k n -> exists f',
  ini_DeleteValue k n f = Some (f', negb (bool_decide (ini_stored f k n = []))) /\
  becomes f f' k n (tail (ini_stored f k n)).
Proof.
  intros (Hf & Hk & Hn).
  destruct (lookup_cases f k n Hf Hk Hn) as [HF Hp Hs | i kk HF Hid Ha Hkk HV Hs | i kk j w vs HF Hid Ha Hkk HV Hjd Hj Hw Hs];
    unfold ini_DeleteValue; rewrite HF; cbn [mbind option_bind].
  - exists f. rewrite Hs. split; [reflexivity|]. cbn [tail]. rewrite <- Hs. exact (becomes_same f k n).
  - exists f. rewrite Hid, HV, Hs. split; [reflexivity|]. cbn [tail]. rewrite <- Hs. exact (becomes_same f k n).
  - rewrite Hid, HV, Hs. cbn [mbind option_bind]. rewrite Hjd. rewrite (bool_decide_false (w :: vs = [])) by discriminate.
    pose proof (position_lt _ _ _ _ Hj) as Hlt. destruct Hkk as [Hkn Hkl].
    destruct (lookup_lt_is_Some_2 (key_names kk) j Hlt) as [m Hm].
    unfold DeleteValueByID, in_range. pose proof (lookup_lt_Some _ _ _ (proj2 Ha)) as Hi. unfold size_int.
    destruct (Z.ltb_spec (Z.of_nat i) (Z.of_nat (length (keys f)))); [|lia].
    rewrite (vec_at_keys _ _ _ (proj2 Ha)). cbn [mbind option_bind].
    destruct (Z.ltb_spec (Z.of_nat j) (Z.of_nat (length (key_names kk)))); [|lia].
    unfold vec_erase. rewrite !vec_at_nat, Hm, Hw, Nat2Z.id. cbn [mbind option_bind].
    rewrite (on_key_spec _ _ _ _ (proj2 Ha)). cbn [mbind option_bind].
    set (kk' := kk <| key_names := _ |> <| key_values := _ |>).
    exists (replace_key f i kk'). split; [reflexivity|].
    assert (Hkk' : key_ok kk').
    { split.
      - apply (Forall_delete name_ok (key_names kk) j Hkn).
      - change (length (delete j (key_names kk)) = length (delete j (key_values kk))). rewrite !length_delete by eauto. lia. }
    assert (Hbec := replace_key_becomes f k n i kk kk' Hf Ha Hkk'
      (fun w' Hw' => named_delete_other _ (key_names kk) (key_values kk) _ w' j Hw' Hj)).
    pose proof (named_delete _ _ _ _ _ Hkl Hj) as Hd. rewrite <- (at_key_stored f k n i kk Ha), Hs in Hd.
    rewrite <- Hd. exact Hbec.
Qed.

#[global] Instance ini_laws : SettingsLaws cIniFile.
Proof.
  split; cbn [HasValue GetValue GetValueSet GetValueSetI GetValueSetI64 GetValueSetB SetValue SetValueI AddValue DeleteValue
              ini_repository].
  - intros f k n (Hf & Hk & Hn). unfold ini_HasValue. cbn [stored ini_view].
    destruct (lookup_cases f k n Hf Hk Hn) as [HF Hp Hs | i kk HF Hid Ha Hkk HV Hs | i kk j w vs HF Hid Ha Hkk HV Hjd Hj Hw Hs];
      rewrite Hs, HF; cbn [mbind option_bind]; [reflexivity | |]; rewrite Hid, HV; cbn [mbind option_bind]; [reflexivity|].
    rewrite Hjd. reflexivity.
  - intros f k n d (Hf & Hk & Hn). unfold ini_GetValue. cbn [stored ini_view as_text].
    destruct (lookup_cases f k n Hf Hk Hn) as [HF Hp Hs | i kk HF Hid Ha Hkk HV Hs | i kk j w vs HF Hid Ha Hkk HV Hjd Hj Hw Hs];
      rewrite Hs, HF; cbn [mbind option_bind]; [reflexivity | |]; rewrite Hid, HV; cbn [mbind option_bind]; [reflexivity|].
    rewrite Hjd, (value_at_spec f k i kk j w Ha Hw). reflexivity.
  - intros f k n d Hadm. apply (ini_typed_get_set Some d f k n d _ Hadm eq_refl).
    destruct (ini_GetValueSet k n d f) as [[f' s]|]; reflexivity.
  - intros f k n d Hadm Hd. apply (ini_typed_get_set atoi d f k n (Printf_d d) _ Hadm (atoi_Printf d Hd)). reflexivity.
  - intros f k n d Hadm Hd.
    apply (ini_typed_get_set (fun s => sscanf_lld s d) d f k n (Printf_d d) _ Hadm (sscanf_Printf d d Hd)). reflexivity.
  - intros f k n d Hadm.
    apply (ini_typed_get_set (fun s => x ← atoi s; Some (negb (x =? 0))) d f k n (Printf_d (if d then 1 else 0)) _ Hadm).
    + rewrite atoi_Printf by (destruct d; split; lia). destruct d; reflexivity.
    + unfold ini_GetValueSetB, ini_GetValueSetI. destruct (ini_GetValueSet _ _ _ _) as [[f' s]|]; [|reflexivity].
      cbn [mbind option_bind]. destruct (atoi s); reflexivity.
  - intros f k n v create Hadm. exact (ini_set_sets Some v f k n v create Hadm eq_refl).
  - intros f k n v create Hadm Hv. exact (ini_set_sets atoi v f k n (Printf_d v) create Hadm (atoi_Printf v Hv)).
  - intros f k n v (Hf & Hk & Hn). cbn [stored writable as_text ini_view]. unfold ini_AddValue.
    destruct (FindKey_spec f k Hf Hk) as [[HF Hp]|(i & kk & HF & Hid & Ha & Hkk)]; rewrite HF; cbn [mbind option_bind].
    + change (noID =? noID) with true. cbn iota.
      destruct (AddKeyName_spec f k n Hf Hk Hp) as (f1 & -> & Hf1 & Ha1 & Hci & B1).
      rewrite (on_key_spec _ _ _ _ (proj2 Ha1)). eexists. split; [reflexivity|].
      exists v, [v]. rewrite (stored_missing f k n Hp). split; [reflexivity|]. split; [reflexivity|].
      pose proof (push_becomes f1 k n v _ _ Hf1 Hn Ha1 ltac:(repeat constructor)) as B2.
      pose proof (bc_here _ _ _ _ _ B1) as Hs1. cbn [stored ini_view] in Hs1. rewrite Hs1 in B2.
      exact (becomes_trans _ _ _ _ _ _ _ Hci B1 B2).
    + rewrite Hid, (on_key_spec _ _ _ _ (proj2 Ha)). eexists. split; [reflexivity|].
      exists v, (ini_stored f k n ++ [v]). split; [reflexivity|]. split; [symmetry; apply Permutation_cons_append|].
      exact (push_becomes f k n v _ _ Hf Hn Ha Hkk).
  - intros f k n Hadm. destruct (ini_delete_spec f k n Hadm) as (f' & E & B). exists f'. split; [exact E|].
    cbn [stored writable beneath ini_view] in *. destruct (ini_stored f k n) as [|? [|? ?]]; exact B.
Qed.
