(* ===== verification/IniRoundtrip.v ===== *)
(** * IniRoundtrip: a written file is read back

    [printable] is what a file can hold: names and values without line ends and delimiters,
    key names that differ.  The lines [WriteFile] produces, what each of them does to the
    object that reads it, and the round trip. *)

From Stdlib Require Import Ascii String.
From S2P Require Import Prelude Bytes StringUtils Packetizer Settings IniFile IniFacts.

(** ** What a file can hold *)

Definition line_ok (s : AString) : Prop := 10 ∉ s /\ last s <> Some 13.

Definition value_name_ok (s : AString) : Prop :=
  Forall (fun c => c <> 10 /\ char_in (chars ";#[=") c = false) s /\
  match s with [] => True | c :: _ => 32 <= c <= 126 end.

Record key_printable (k : key) : Prop := {
  kp_names : Forall value_name_ok (key_names k);
  kp_values : Forall line_ok (key_values k);
  kp_comments : Forall line_ok (key_comments k);
}.

Record printable (f : cIniFile) : Prop := {
  pr_ok : ini_ok f;
  pr_names : Forall (fun s => 10 ∉ s) (names f);
  pr_distinct : NoDup (canon (m_IsCaseInsensitive f) <$> names f);
  pr_comments : Forall line_ok (comments f);
  pr_keys : Forall key_printable (keys f);
}.

(** ** The lines of a file *)

Definition comment_line (c : AString) : AString := 59 :: c.
Definition key_line (n : AString) : AString := 91 :: n ++ [93].
Definition value_line (nv : AString * AString) : AString := fst nv ++ 61 :: snd nv.

Definition key_lines (n : AString) (k : key) : list AString :=
  key_line n :: map comment_line (key_comments k) ++
  map value_line (zip (key_names k) (key_values k)) ++ [[]].

Definition header_lines (cs : list AString) : list AString :=
  map comment_line cs ++ match cs with [] => [] | _ => [[]] end.

Definition keys_lines (ns : list AString) (ks : list key) : list AString :=
  concat (zip_with key_lines ns ks).

Definition ini_lines (f : cIniFile) : list AString :=
  header_lines (comments f) ++ keys_lines (names f) (keys f).

(** Lines with their ends. *)
Definition with_ends (eol : AString) (ls : list AString) : AString := concat (map (fun l => l ++ eol) ls).

Lemma with_ends_app eol a b : with_ends eol (a ++ b) = with_ends eol a ++ with_ends eol b.
Proof. unfold with_ends. rewrite map_app. apply concat_app. Qed.

Lemma with_ends_map {A} eol (g : A -> AString) (l : list A) :
  with_ends eol (map g l) = concat (map (fun x => g x ++ eol) l).
Proof. unfold with_ends. rewrite map_map. reflexivity. Qed.

Lemma pair_up_zip ns : forall vs, length ns = length vs -> pair_up ns vs = Some (zip ns vs).
Proof.
  induction ns as [|n ns IH]; intros [|v vs] Hl; try discriminate; [reflexivity|].
  cbn [pair_up]. rewrite IH by (cbn in Hl; lia). reflexivity.
Qed.

Lemma write_key_lines eol n k : key_ok k -> write_key eol n k = Some (with_ends eol (key_lines n k)).
Proof.
  intros [_ Hl]. unfold write_key, key_lines. rewrite pair_up_zip by exact Hl. cbn [mbind option_bind].
  f_equal. set (vals := map value_line _). set (cs := map comment_line _).
  change (with_ends eol (key_line n :: cs ++ vals ++ [[]])) with ((key_line n ++ eol) ++ with_ends eol (cs ++ vals ++ [[]])).
  rewrite !with_ends_app. unfold cs, vals. rewrite !with_ends_map.
  replace (with_ends eol [[]]) with eol by (unfold with_ends; cbn [map concat app]; rewrite app_nil_r; reflexivity).
  unfold key_line. cbn [app]. rewrite <- !app_assoc. cbn [app]. do 4 f_equal. f_equal. f_equal. f_equal.
  apply map_ext. intros [a b]. unfold value_line. cbn [fst snd]. rewrite <- app_assoc. reflexivity.
Qed.

Lemma write_keys_lines eol ks : forall ns, length ks = length ns -> Forall key_ok ks ->
  write_keys eol ks ns = Some (with_ends eol (keys_lines ns ks)).
Proof.
  unfold keys_lines. induction ks as [|k ks IH]; intros [|n ns] Hl Hk; try discriminate; [reflexivity|].
  apply Forall_cons in Hk as [Hk Hks]. cbn [write_keys zip_with concat].
  rewrite write_key_lines, IH, with_ends_app by (assumption || (cbn in Hl; lia)). reflexivity.
Qed.

Lemma write_text_lines win32 f : ini_ok f -> write_text win32 f = Some (with_ends (iniEOL win32) (ini_lines f)).
Proof.
  intros Hf. unfold write_text, ini_lines. rewrite write_keys_lines by apply Hf. cbn [mbind option_bind].
  rewrite with_ends_app. unfold header_lines. rewrite with_ends_app, with_ends_map, <- app_assoc.
  f_equal. f_equal. f_equal. destruct (comments f); [reflexivity|]. unfold with_ends. cbn [map concat app]. rewrite app_nil_r. reflexivity.
Qed.

(** ** Reading a line *)

Definition carriage (win32 : bool) : AString := if win32 then [] else [13].

Lemma fields_line l rest : 10 ∉ l -> fields (Z.eqb 10) (l ++ 10 :: rest) = l :: fields (Z.eqb 10) rest.
Proof.
  induction l as [|c l IH]; intros Hl; [reflexivity|]. apply not_elem_of_cons in Hl as [Hc Hl].
  cbn [app fields]. destruct (Z.eqb_spec 10 c); [congruence|]. rewrite IH by exact Hl. reflexivity.
Qed.

Lemma getlines_with_ends win32 ls : Forall (fun l => 10 ∉ l) ls ->
  getlines (with_ends (iniEOL win32) ls) = map (fun l => l ++ carriage win32) ls.
Proof.
  induction 1 as [|l ls Hl _ IH]; [reflexivity|]. unfold with_ends. cbn [map concat]. fold (with_ends (iniEOL win32) ls).
  unfold getlines in *. rewrite <- IH.
  replace ((l ++ iniEOL win32) ++ with_ends (iniEOL win32) ls)
    with ((l ++ carriage win32) ++ 10 :: with_ends (iniEOL win32) ls)
    by (destruct win32; cbn [iniEOL carriage]; rewrite <- ?app_assoc, ?app_nil_r; reflexivity).
  rewrite fields_line.
  - apply drop_empty_last_cons, fields_nonempty.
  - apply not_elem_of_app. split; [exact Hl|]. destruct win32; cbn [carriage]; set_solver by lia.
Qed.

Lemma strip_cr_line win32 l : last l <> Some 13 ->
  strip_cr (l ++ carriage win32) = if decide (l = []) then None else Some l.
Proof.
  intros Hl. unfold strip_cr. destruct win32; cbn [carriage].
  - rewrite app_nil_r. destruct (last l) as [c|] eqn:E.
    + destruct (Z.eqb_spec c 13); [congruence | reflexivity].
    + apply last_None in E. subst l. reflexivity.
  - rewrite last_snoc, removelast_last. reflexivity.
Qed.

Section Read.
Context (win32 : bool).
Notation cr := (carriage win32).

Lemma read_empty_line ls f kn : read_lines (([] ++ cr) :: ls) f kn = read_lines ls f kn.
Proof. cbn [read_lines]. rewrite strip_cr_line by discriminate. reflexivity. Qed.

(** A line with a special character at [pLeft]. *)
Lemma read_line c l pLeft ls f kn :
  last (c :: l) <> Some 13 -> 32 <= c <= 126 -> find_first_of (c :: l) (chars ";#[=") 0 = Some pLeft ->
  read_lines (((c :: l) ++ cr) :: ls) f kn =
  ('(f, kn) ← read_entry (c :: l) pLeft f kn; read_lines ls f kn).
Proof.
  intros Hl Hc Hp. cbn [read_lines]. rewrite strip_cr_line by exact Hl. rewrite decide_False by discriminate.
  change (default 0 (head (c :: l))) with c. unfold isprint, ctype_ok.
  destruct (Z.ltb_spec c 128); [|lia]. cbn [orb from_option mbind option_bind].
  destruct (Z.leb_spec 32 c); [|lia]. destruct (Z.leb_spec c 126); [|lia]. cbn [andb]. rewrite Hp. reflexivity.
Qed.

Lemma last_cons_line c s : c <> 13 -> last s <> Some 13 -> last (c :: s) <> Some 13.
Proof. intros Hc Hs. rewrite last_cons. destruct (last s); congruence. Qed.

(** Comments before the first key. *)
Lemma read_header cs : forall ls f kn, names f = [] -> Forall line_ok cs ->
  read_lines (map (fun c => comment_line c ++ cr) cs ++ ls) f kn =
  read_lines ls (f <| comments := comments f ++ cs |>) kn.
Proof.
  induction cs as [|c cs IH]; intros ls f kn Hn Hcs.
  - cbn [map app]. rewrite app_nil_r. destruct f; reflexivity.
  - apply Forall_cons in Hcs as [[_ Hc] Hcs]. cbn [map app].
    rewrite (read_line 59 c 0) by (try apply last_cons_line; (assumption || lia || reflexivity)).
    unfold read_entry. cbn [lookup list_lookup]. rewrite decide_True by exact Hn. cbn [mbind option_bind].
    rewrite IH by assumption. f_equal. unfold AddHeaderComment.
    change (comments (f <| comments := ?x |>)) with x. rewrite <- app_assoc. reflexivity.
Qed.

(** The reader in a key: the last one, whose name is new. *)
Definition in_key (f : cIniFile) (ns : list AString) (ks : list key) (n : AString) (kk : key) : cIniFile :=
  f <| names := ns ++ [n] |> <| keys := ks ++ [kk] |>.

Context (f : cIniFile) (ns : list AString) (ks : list key) (n : AString).
Context (Hlen : length ks = length ns) (Hok : Forall name_ok (ns ++ [n]))
  (Hnew : canon (m_IsCaseInsensitive f) n ∉ (canon (m_IsCaseInsensitive f) <$> ns)).

Lemma position_new : position (m_IsCaseInsensitive f) (ns ++ [n]) (canon (m_IsCaseInsensitive f) n) = Some (length ns).
Proof.
  rewrite position_app. replace (position _ ns _) with (@None nat).
  - cbn [position]. rewrite decide_True by reflexivity. cbn. f_equal. lia.
  - clear - Hnew. induction ns as [|s l IH]; [reflexivity|]. rewrite fmap_cons in Hnew.
    apply not_elem_of_cons in Hnew as [Hs Hl]. cbn [position]. rewrite decide_False by congruence.
    rewrite <- IH by exact Hl. reflexivity.
Qed.

Lemma FindKey_new kk : FindKey (in_key f ns ks n kk) n = Some (Z.of_nat (length ns)).
Proof.
  pose proof (proj1 (Forall_app _ _ _) Hok) as [_ Hn]. apply Forall_inv in Hn.
  unfold FindKey. rewrite CheckCase_spec by exact Hn. cbn [mbind option_bind].
  change (names (in_key f ns ks n kk)) with (ns ++ [n]). rewrite find_name_spec by exact Hok.
  change (m_IsCaseInsensitive (in_key f ns ks n kk)) with (m_IsCaseInsensitive f). rewrite position_new. reflexivity.
Qed.

Lemma on_new_key kk g : on_key (Z.of_nat (length ns)) g (in_key f ns ks n kk) = Some (in_key f ns ks n (g kk)).
Proof.
  unfold on_key. change (keys (in_key f ns ks n kk)) with (ks ++ [kk]).
  rewrite vec_at_nat, <- Hlen, lookup_app_r, Nat.sub_diag by lia. cbn [lookup list_lookup mbind option_bind].
  rewrite Nat2Z.id, insert_app_r_alt, Nat.sub_diag by lia. reflexivity.
Qed.

Lemma read_comments cs : forall ls kk, Forall line_ok cs ->
  read_lines (map (fun c => comment_line c ++ cr) cs ++ ls) (in_key f ns ks n kk) n =
  read_lines ls (in_key f ns ks n (kk <| key_comments := key_comments kk ++ cs |>)) n.
Proof.
  induction cs as [|c cs IH]; intros ls kk Hcs.
  - cbn [map app]. rewrite app_nil_r. destruct kk; reflexivity.
  - apply Forall_cons in Hcs as [[_ Hc] Hcs]. cbn [map app].
    rewrite (read_line 59 c 0) by (try apply last_cons_line; (assumption || lia || reflexivity)).
    unfold read_entry. cbn [lookup list_lookup].
    rewrite decide_False by (change (names (in_key f ns ks n kk)) with (ns ++ [n]); destruct ns; discriminate).
    unfold ini_AddKeyComment, by_key. rewrite FindKey_new. cbn [mbind option_bind].
    destruct (Z.eqb_spec (Z.of_nat (length ns)) noID); [unfold noID in *; lia|].
    unfold AddKeyComment_id, size_int. change (keys (in_key f ns ks n kk)) with (ks ++ [kk]).
    rewrite length_app, Hlen. cbn [length].
    destruct (Z.ltb_spec (Z.of_nat (length ns)) (Z.of_nat (length ns + 1))); [|lia].
    rewrite on_new_key. cbn [mbind option_bind]. rewrite IH by exact Hcs. do 2 f_equal.
    change (kk <| key_comments := (key_comments kk ++ [substr_from (59 :: c) (0 + 1)]) ++ cs |> =
            kk <| key_comments := key_comments kk ++ c :: cs |>).
    rewrite <- app_assoc. reflexivity.
Qed.

(** A name has no special character: the first one is the '='. *)
Lemma value_line_special name v :
  Forall (fun c => c <> 10 /\ char_in (chars ";#[=") c = false) name ->
  find_first_of (name ++ 61 :: v) (chars ";#[=") 0 = Some (length name).
Proof.
  intros Hn. unfold find_first_of. rewrite drop_0.
  assert (Hi : index_of (char_in (chars ";#[=")) (name ++ 61 :: v) = Some (length name)).
  { induction Hn as [|c name [_ Hc] _ IH]; [reflexivity|]. cbn [app index_of length]. rewrite Hc, IH. reflexivity. }
  rewrite Hi. reflexivity.
Qed.

Lemma read_values vs : forall names0 ls kk, Forall value_name_ok names0 -> Forall line_ok vs ->
  length names0 = length vs ->
  read_lines (map (fun nv => value_line nv ++ cr) (zip names0 vs) ++ ls) (in_key f ns ks n kk) n =
  read_lines ls (in_key f ns ks n
    (kk <| key_names := key_names kk ++ names0 |> <| key_values := key_values kk ++ vs |>)) n.
Proof.
  induction vs as [|v vs IH]; intros [|m names0] ls kk Hns Hvs Hl; try discriminate.
  - cbn [zip zip_with map app]. rewrite !app_nil_r. destruct kk; reflexivity.
  - apply Forall_cons in Hns as [[Hm Hm0] Hns]. apply Forall_cons in Hvs as [[_ Hv] Hvs].
    cbn [zip zip_with map app]. unfold value_line at 1. cbn [fst snd].
    assert (Hsp := value_line_special m v Hm).
    assert (Hlast : last (m ++ 61 :: v) <> Some 13).
    { rewrite last_app. rewrite last_cons. destruct (last v); congruence. }
    assert (Hhd : exists c l, m ++ 61 :: v = c :: l /\ 32 <= c <= 126)
      by (destruct m as [|c m]; [exists 61, v | exists c, (m ++ 61 :: v)]; split; (reflexivity || lia || exact Hm0)).
    destruct Hhd as (c & l & El & Hc). rewrite El in Hsp, Hlast |- *.
    rewrite (read_line c l (length m)) by assumption. rewrite <- El. unfold read_entry.
    assert (H61 : @lookup nat Z AString list_lookup (length m) (m ++ 61 :: v) = Some 61) by (apply list_lookup_middle; reflexivity).
    rewrite H61.
    assert (Hs1 : substr (m ++ 61 :: v) 0 (length m) = m) by (unfold substr; rewrite drop_0; apply take_app_length).
    assert (Hs2 : substr_from (m ++ 61 :: v) (length m + 1) = v).
    { unfold substr_from. rewrite drop_app_ge by lia. replace (length m + 1 - length m)%nat with 1%nat by lia. reflexivity. }
    rewrite Hs1, Hs2. unfold ini_AddValue. rewrite FindKey_new. cbn [mbind option_bind].
    destruct (Z.eqb_spec (Z.of_nat (length ns)) noID); [unfold noID in *; lia|].
    rewrite on_new_key. cbn [mbind option_bind]. fold (zip names0 vs).
    rewrite IH by (assumption || (cbn in Hl; lia)). do 2 f_equal.
    change (kk <| key_names := (key_names kk ++ [m]) ++ names0 |> <| key_values := (key_values kk ++ [v]) ++ vs |> =
            kk <| key_names := key_names kk ++ m :: names0 |> <| key_values := key_values kk ++ v :: vs |>).
    rewrite <- !app_assoc. reflexivity.
Qed.
End Read.

(** ** Reading the whole file *)

Lemma find_last_close n : find_last_of (key_line n) 93 = Some (length n + 1)%nat.
Proof.
  unfold find_last_of, key_line. rewrite app_comm_cons, reverse_snoc. cbn [index_of].
  rewrite Z.eqb_refl. cbn [fmap option_fmap option_map]. f_equal. rewrite length_app. cbn [length]. lia.
Qed.

Lemma read_key win32 f n k ls kn :
  length (keys f) = length (names f) -> Forall name_ok (names f ++ [n]) -> key_ok k ->
  canon (m_IsCaseInsensitive f) n ∉ (canon (m_IsCaseInsensitive f) <$> names f) -> key_printable k ->
  read_lines (map (fun l => l ++ carriage win32) (key_lines n k) ++ ls) f kn =
  read_lines ls (in_key f (names f) (keys f) n k) n.
Proof.
  intros Hl Hok [_ Hkl] Hnew [Hns Hvs Hcs]. unfold key_lines. cbn [map app].
  unfold key_line at 1. rewrite (read_line win32 91 (n ++ [93]) 0) by
    (rewrite ?last_cons, ?last_snoc; (congruence || lia || reflexivity)).
  fold (key_line n). unfold read_entry. change (@lookup nat Z AString list_lookup 0%nat (key_line n)) with (Some 91).
  cbn iota. rewrite find_last_close. destruct (Nat.ltb_spec 0 (length n + 1)); [|lia].
  replace (substr (key_line n) (0 + 1) (length n + 1 - 0 - 1)) with n
    by (unfold substr, key_line; cbn [drop]; replace (length n + 1 - 0 - 1)%nat with (length n) by lia;
        symmetry; apply take_app_length).
  cbn [mbind option_bind]. change (fst (ini_AddKeyName n f)) with (in_key f (names f) (keys f) n empty_key).
  rewrite !map_app, !map_map, <- !app_assoc.
  rewrite read_comments by assumption. rewrite read_values by assumption.
  cbn [map app]. change (carriage win32) with ([] ++ carriage win32). rewrite read_empty_line.
  destruct k; reflexivity.
Qed.

Lemma in_key_all f n k ns ks :
  (in_key f (names f) (keys f) n k) <| names := names (in_key f (names f) (keys f) n k) ++ ns |>
    <| keys := keys (in_key f (names f) (keys f) n k) ++ ks |> =
  f <| names := names f ++ n :: ns |> <| keys := keys f ++ k :: ks |>.
Proof.
  change (f <| names := (names f ++ [n]) ++ ns |> <| keys := (keys f ++ [k]) ++ ks |> =
          f <| names := names f ++ n :: ns |> <| keys := keys f ++ k :: ks |>).
  rewrite <- !app_assoc. reflexivity.
Qed.

Lemma read_keys win32 ns : forall ks f kn,
  length (keys f) = length (names f) -> length ks = length ns -> Forall name_ok (names f ++ ns) ->
  NoDup (canon (m_IsCaseInsensitive f) <$> (names f ++ ns)) -> Forall key_ok ks -> Forall key_printable ks ->
  read_lines (map (fun l => l ++ carriage win32) (keys_lines ns ks)) f kn =
  Some (f <| names := names f ++ ns |> <| keys := keys f ++ ks |>, true).
Proof.
  induction ns as [|n ns IH]; intros [|k ks] f kn Hl Hll Hok Hnd Hk Hp; try discriminate.
  - rewrite !app_nil_r. destruct f; reflexivity.
  - unfold keys_lines. cbn [zip_with concat]. fold (keys_lines ns ks). rewrite map_app.
    apply Forall_cons in Hk as [Hk Hks]. apply Forall_cons in Hp as [Hp Hps].
    rewrite cons_middle, app_assoc in Hok, Hnd.
    rewrite read_key; [| exact Hl | exact (proj1 (proj1 (Forall_app _ _ _) Hok)) | exact Hk | | exact Hp].
    + rewrite IH; [rewrite in_key_all; reflexivity | | | exact Hok | exact Hnd | exact Hks | exact Hps].
      * change (length (keys f ++ [k]) = length (names f ++ [n])). rewrite !length_app, Hl. reflexivity.
      * cbn in Hll. lia.
    + rewrite !fmap_app in Hnd. apply NoDup_app in Hnd as [Hnd _]. apply NoDup_app in Hnd as [_ [Hd _]].
      intros Hin. apply (Hd _ Hin). cbn. apply list_elem_of_here.
Qed.

Lemma ini_lines_no_newline f : printable f -> Forall (fun l => 10 ∉ l) (ini_lines f).
Proof.
  intros [_ Hn _ Hc Hk].
  assert (Hcs : forall cs, Forall line_ok cs -> Forall (fun l => 10 ∉ l) (map comment_line cs)).
  { intros cs H0. apply Forall_map. eapply Forall_impl; [exact H0|]. intros c [H1 _].
    unfold comment_line. rewrite elem_of_cons. intros [?|?]; [lia | auto]. }
  unfold ini_lines, header_lines, keys_lines. rewrite !Forall_app. repeat split.
  - apply Hcs, Hc.
  - destruct (comments f); repeat constructor; apply not_elem_of_nil.
  - apply Forall_concat. revert Hk. generalize (keys f). induction Hn as [|n ns Hn _ IH]; intros ks Hk; [constructor|].
    destruct Hk as [|k ks [Kn Kv Kc] Hks]; [constructor|]. cbn [zip_with]. constructor; [|apply IH; exact Hks].
    unfold key_lines. apply Forall_cons. split; [|rewrite !Forall_app; repeat split].
    + unfold key_line. rewrite elem_of_cons, elem_of_app, list_elem_of_singleton. intros [?|[?|?]]; (lia || auto).
    + apply Hcs, Kc.
    + apply Forall_map. revert Kv. generalize (key_values k).
      induction Kn as [|m ms [Hm _] _ IHm]; intros vs Hv; [constructor|]. destruct Hv as [|v vs [Hv _] Hvs]; [constructor|].
      cbn [zip zip_with]. constructor; [|apply IHm; exact Hvs]. unfold value_line. cbn [fst snd].
      rewrite elem_of_app, elem_of_cons. intros [Hin|[?|?]]; [|lia|auto].
      rewrite Forall_forall in Hm. destruct (Hm _ Hin) as [H1 _]. congruence.
    + repeat constructor. apply not_elem_of_nil.
Qed.

(** The first line starts with ';' or '[': it has no byte order mark. *)
Lemma ini_lines_bom win32 f :
  (match map (fun l => l ++ carriage win32) (ini_lines f) with
   | [] => Some []
   | line :: lines => line ← RemoveBom line; Some (line :: lines)
   end) = Some (map (fun l => l ++ carriage win32) (ini_lines f)).
Proof.
  unfold ini_lines, header_lines, keys_lines. destruct (comments f) as [|c cs].
  - destruct (names f) as [|n ns], (keys f) as [|k ks]; try reflexivity.
  - reflexivity.
Qed.

Lemma read_text_lines win32 f filename :
  printable f ->
  read_text (with_ends (iniEOL win32) (ini_lines f))
    {| m_IsCaseInsensitive := m_IsCaseInsensitive f; m_Filename := filename; keys := []; names := []; comments := [] |} =
  Some (f <| m_Filename := filename |>, true).
Proof.
  intros Hp. unfold read_text. rewrite getlines_with_ends by (apply ini_lines_no_newline, Hp).
  rewrite ini_lines_bom. cbn [mbind option_bind]. set (f0 := {| m_IsCaseInsensitive := _ |}).
  destruct Hp as [[Hno Hl Hko] Hn Hnd Hc Hk]. unfold ini_lines, header_lines. rewrite !map_app, map_map, <- app_assoc.
  rewrite read_header by (reflexivity || exact Hc).
  assert (Hskip : forall ls g, read_lines (map (fun l => l ++ carriage win32) (match comments f with [] => [] | _ => [[]] end) ++ ls) g []
                  = read_lines ls g []).
  { intros ls g. destruct (comments f); [reflexivity|]. cbn [map app]. change (carriage win32) with ([] ++ carriage win32).
    apply read_empty_line. }
  rewrite Hskip, read_keys; [| reflexivity | exact Hl | exact Hno | exact Hnd | exact Hko | exact Hk].
  destruct f; reflexivity.
Qed.

(** What a file with the lines of an object gives. *)
Lemma ReadFile_written win32 redirect f name filename fs :
  printable f -> keys f <> [] \/ comments f <> [] ->
  contents fs !! (FILE_IO_PREFIX ++ name) = Some (with_ends (iniEOL win32) (ini_lines f)) ->
  ReadFile win32 name redirect fs
    {| m_IsCaseInsensitive := m_IsCaseInsensitive f; m_Filename := filename; keys := []; names := []; comments := [] |} =
  Some (f <| m_Filename := name |>, fs, true).
Proof.
  intros Hp Hne Hc. unfold ReadFile. rewrite Hc. set (f0 := _ <| m_Filename := name |>).
  pose proof (read_text_lines win32 f name Hp) as Hr.
  change f0 with ({| m_IsCaseInsensitive := m_IsCaseInsensitive f; m_Filename := name; keys := []; names := []; comments := [] |}).
  rewrite Hr. cbn [mbind option_bind negb].
  change (keys (f <| m_Filename := name |>)) with (keys f). change (comments (f <| m_Filename := name |>)) with (comments f).
  destruct Hne as [Hne|Hne]; rewrite (bool_decide_false _ Hne); cbn [andb]; rewrite ?andb_false_r; reflexivity.
Qed.

(** ** Theorems *)

(** C34. What [WriteFile] writes, [ReadFile] reads: an object with the same case rule and no
    data gets the keys, names, values and comments of a printable object back, with the line
    ends of Windows and of the other systems; the result is true when there is anything. *)
Theorem ini_roundtrip (win32 redirect : bool) (f : cIniFile) (name filename : AString) (fs : Files) :
  printable f -> can_write fs (FILE_IO_PREFIX ++ name) = true -> keys f <> [] \/ comments f <> [] ->
  exists fs', WriteFile win32 name f fs = Some (fs', true) /\
    ReadFile win32 name redirect fs'
      {| m_IsCaseInsensitive := m_IsCaseInsensitive f; m_Filename := filename; keys := []; names := []; comments := [] |} =
    Some (f <| m_Filename := name |>, fs', true).
Proof.
  intros Hp Hw Hne. unfold WriteFile. rewrite Hw, write_text_lines by apply Hp. cbn [mbind option_bind].
  eexists. split; [reflexivity|]. apply ReadFile_written; [exact Hp | exact Hne | apply lookup_insert_eq].
Qed.

Definition sample_ini : cIniFile := {|
  m_IsCaseInsensitive := true;
  m_Filename := [];
  keys := [{| key_names := [chars "Port"; chars "Motd"]; key_values := [chars "6666"; chars "a = [b]; c"]; key_comments := [chars " listens"] |};
           empty_key];
  names := [chars "Server"; chars "x]y"];
  comments := [chars " This is the main server configuration"];
|}.

Lemma sample_ini_printable : printable sample_ini.
Proof.
  assert (Hlist : forall (s : AString), bool_decide (10 ∉ s) = true -> 10 ∉ s) by (intros s; apply bool_decide_eq_true).
  split.
  - split; [repeat constructor | reflexivity | repeat constructor].
  - repeat constructor; apply Hlist; vm_compute; reflexivity.
  - apply (bool_decide_unpack _). vm_compute. exact I.
  - repeat constructor; [apply Hlist; vm_compute; reflexivity | vm_compute; discriminate].
  - repeat constructor; try (apply Hlist; vm_compute; reflexivity); try (vm_compute; discriminate).
Qed.

Lemma ini_roundtrip_witness : exists fs',
  WriteFile true (chars "settings.ini") sample_ini {| contents := ∅; can_write _ := true |} = Some (fs', true) /\
  ReadFile true (chars "settings.ini") true fs' cIniFile_ctor =
    Some (sample_ini <| m_Filename := chars "settings.ini" |>, fs', true).
Proof.
  apply (ini_roundtrip true true sample_ini (chars "settings.ini") [] {| contents := ∅; can_write _ := true |} sample_ini_printable);
    [reflexivity | left; discriminate].
Defined.
