(* ===== verification/OverridesSettings.v ===== *)
(** * OverridesSettings: a repository over another one, and the start of the server

    [cOverridesSettingsRepository] (src/Src/Server/OverridesSettingsRepository.cpp) holds two
    repositories and asks [m_Overrides] first.  It is built over the interface and satisfies
    the laws when both repositories do.  At the end, what its list of values loses. *)

From Stdlib Require Import Ascii String.
From S2P Require Import Prelude Bytes StringUtils Packetizer Settings.

Record cOverrides (R1 R2 : Type) := { m_Main : R1; m_Overrides : R2 }.
Arguments Build_cOverrides {R1 R2} _ _.
Arguments m_Main {R1 R2} _.
Arguments m_Overrides {R1 R2} _.

(** ** The list of values of a key *)

(** [operator<] of strings (of bytes) and of pairs. *)
Fixpoint lex_lt (a b : AString) : bool :=
  match a, b with
  | _, [] => false
  | [], _ :: _ => true
  | x :: a, y :: b => (x <? y) || ((x =? y) && lex_lt a b)
  end.

Definition pair_lt (p q : AString * AString) : bool :=
  lex_lt (fst p) (fst q) || (negb (lex_lt (fst q) (fst p)) && lex_lt (snd p) (snd q)).

(** [std::sort]: pairs neither of which is less are equal, so the result is determined. *)
Fixpoint insert_pair (p : AString * AString) (l : list (AString * AString)) : list (AString * AString) :=
  match l with
  | [] => [p]
  | q :: l' => if pair_lt q p then q :: insert_pair p l' else p :: l
  end.
Definition sort_pairs (l : list (AString * AString)) : list (AString * AString) := foldr insert_pair [] l.

(** [while (pair.first > overrides[overridesIndex].first)]: what is pushed and what is left of
    the overrides; [None] when the index leaves the vector. *)
Fixpoint push_smaller (name : AString) (overrides : list (AString * AString))
    : option (list (AString * AString) * list (AString * AString)) :=
  match overrides with
  | [] => None
  | q :: rest =>
      if lex_lt (fst q) name then '(pushed, rest) ← push_smaller name rest; Some (q :: pushed, rest)
      else Some ([], overrides)
  end.

Fixpoint merge_values (main overrides : list (AString * AString)) : option (list (AString * AString)) :=
  match main with
  | [] => Some []
  | pr :: main =>
      match overrides with
      | [] => cons pr <$> merge_values main overrides
      | q :: _ =>
          if decide (fst pr = fst q) then merge_values main overrides else
          '(pushed, rest) ← push_smaller (fst pr) overrides;
          ret ← merge_values main rest;
          Some (pushed ++ pr :: ret)
      end
  end.

Section Overrides.
Context {R1 R2 : Type} `{SettingsLaws R1} `{SettingsLaws R2}.

Definition on_main {A} (o : cOverrides R1 R2) (r : option (R1 * A)) : option (cOverrides R1 R2 * A) :=
  '(r, x) ← r; Some (Build_cOverrides r (m_Overrides o), x).
Definition on_overrides {A} (o : cOverrides R1 R2) (r : option (R2 * A)) : option (cOverrides R1 R2 * A) :=
  '(r, x) ← r; Some (Build_cOverrides (m_Main o) r, x).

(** [if (m_Overrides->HasValue(k, n)) m_Overrides->f() else m_Main->f()]. *)
Definition by_value {A} (k n : AString) (f : R1 -> option (R1 * A)) (g : R2 -> option (R2 * A))
    (o : cOverrides R1 R2) : option (cOverrides R1 R2 * A) :=
  has ← HasValue k n (m_Overrides o);
  if has : bool then on_overrides o (g (m_Overrides o)) else on_main o (f (m_Main o)).

(** The same for a key. *)
Definition by_name {A} (k : AString) (f : R1 -> option (R1 * A)) (g : R2 -> option (R2 * A))
    (o : cOverrides R1 R2) : option (cOverrides R1 R2 * A) :=
  has ← KeyExists k (m_Overrides o);
  if has : bool then on_overrides o (g (m_Overrides o)) else on_main o (f (m_Main o)).

Definition either (a b : option bool) : option bool := x ← a; if x : bool then Some true else b.

Definition ov_AddKeyName (k : AString) (o : cOverrides R1 R2) : option (cOverrides R1 R2 * Z) :=
  by_name k (AddKeyName k) (fun r => '(r, _) ← AddKeyName k r; Some (r, 0)) o.

Definition ov_GetKeyComment (k : AString) (id : Z) (o : cOverrides R1 R2) : option AString :=
  has ← KeyExists k (m_Overrides o);
  if has : bool then GetKeyComment k id (m_Overrides o) else GetKeyComment k id (m_Main o).

Definition ov_AddValue (k n v : AString) (o : cOverrides R1 R2) : option (cOverrides R1 R2) :=
  fst <$> by_value k n (fun r => r ← AddValue k n v r; Some (r, tt)) (fun r => r ← AddValue k n v r; Some (r, tt)) o.

Definition ov_GetValues (k : AString) (o : cOverrides R1 R2)
    : option (cOverrides R1 R2 * list (AString * AString)) :=
  '(r2, overrides) ← GetValues k (m_Overrides o);
  '(r1, main) ← GetValues k (m_Main o);
  ret ← merge_values (sort_pairs main) (sort_pairs overrides);
  Some (Build_cOverrides r1 r2, ret).

Definition ov_GetValue (k n d : AString) (o : cOverrides R1 R2) : option AString :=
  has ← HasValue k n (m_Overrides o);
  if has : bool then GetValue k n d (m_Overrides o) else GetValue k n d (m_Main o).

Definition ov_Flush (o : cOverrides R1 R2) (fs : Files) : option (Files * bool) :=
  '(fs, ok) ← Flush (m_Overrides o) fs;
  if ok : bool then Flush (m_Main o) fs else Some (fs, false).

#[global] Instance overrides_repository : SettingsRepository (cOverrides R1 R2) := {
  KeyExists k o := either (KeyExists k (m_Overrides o)) (KeyExists k (m_Main o));
  HasValue k n o := either (HasValue k n (m_Overrides o)) (HasValue k n (m_Main o));
  AddKeyName := ov_AddKeyName;
  AddKeyComment k c := by_name k (AddKeyComment k c) (AddKeyComment k c);
  GetKeyComment := ov_GetKeyComment;
  DeleteKeyComment k id := by_name k (DeleteKeyComment k id) (DeleteKeyComment k id);
  AddValue := ov_AddValue;
  GetValues := ov_GetValues;
  GetValue := ov_GetValue;
  GetValueSet k n d := by_value k n (GetValueSet k n d) (GetValueSet k n d);
  GetValueSetI k n d := by_value k n (GetValueSetI k n d) (GetValueSetI k n d);
  GetValueSetI64 k n d := by_value k n (GetValueSetI64 k n d) (GetValueSetI64 k n d);
  GetValueSetB k n d := by_value k n (GetValueSetB k n d) (GetValueSetB k n d);
  SetValue k n v create := by_value k n (SetValue k n v create) (SetValue k n v create);
  SetValueI k n v create := by_value k n (SetValueI k n v create) (SetValueI k n v create);
  DeleteValue k n := by_value k n (DeleteValue k n) (DeleteValue k n);
  Flush := ov_Flush;
}.

(** ** The laws *)

Definition both {A} (f : raw (R := R1) -> option A) (g : raw (R := R2) -> option A)
    (x : raw (R := R1) + raw (R := R2)) : option A :=
  match x with inl x => f x | inr x => g x end.

Definition ov_stored (o : cOverrides R1 R2) (k n : AString) : list (raw (R := R1) + raw (R := R2)) :=
  match stored (m_Overrides o) k n with
  | [] => inl <$> stored (m_Main o) k n
  | vs => inr <$> vs
  end.

(** Below the last override are the values it hides. *)
Definition ov_beneath (o : cOverrides R1 R2) (k n : AString) : list (raw (R := R1) + raw (R := R2)) :=
  match stored (m_Overrides o) k n with
  | [] => inl <$> beneath (m_Main o) k n
  | _ => match beneath (m_Overrides o) k n with
         | [] => inl <$> stored (m_Main o) k n
         | vs => inr <$> vs
         end
  end.

#[global] Instance overrides_view : SettingsView (cOverrides R1 R2) := {
  raw := raw (R := R1) + raw (R := R2);
  as_text := both as_text as_text;
  as_int := both as_int as_int;
  as_int64 d := both (as_int64 d) (as_int64 d);
  as_bool := both as_bool as_bool;
  stored := ov_stored;
  beneath := ov_beneath;
  admissible o k n := admissible (m_Main o) k n /\ admissible (m_Overrides o) k n;
  clash o a b := clash (m_Main o) a b || clash (m_Overrides o) a b;
  writable o k n :=
    match stored (m_Overrides o) k n with
    | [] => writable (m_Main o) k n
    | _ => writable (m_Overrides o) k n
    end;
}.

Lemma main_becomes o r k n xs :
  stored (m_Overrides o) k n = [] -> becomes (m_Main o) r k n xs ->
  becomes o (Build_cOverrides r (m_Overrides o)) k n (inl <$> xs).
Proof.
  intros Hs [Hh He Hb Ha]. split; cbn [stored beneath admissible clash overrides_view].
  - unfold ov_stored. cbn [m_Main m_Overrides]. rewrite Hs, Hh. reflexivity.
  - intros k' n' [Hc _]%orb_false_iff. unfold ov_stored. cbn [m_Main m_Overrides]. rewrite (He _ _ Hc). reflexivity.
  - intros k' n' [Hc _]%orb_false_iff. unfold ov_beneath. cbn [m_Main m_Overrides]. rewrite (He _ _ Hc), (Hb _ _ Hc). reflexivity.
  - intros k' n' [H1' H2']. auto.
Qed.

(** Values that stay, and values that may uncover the ones below. *)
Lemma overrides_becomes o r k n xs :
  becomes (m_Overrides o) r k n xs ->
  becomes o (Build_cOverrides (m_Main o) r) k n
    (match xs with [] => inl <$> stored (m_Main o) k n | _ => inr <$> xs end).
Proof.
  intros [Hh He Hb Ha]. split; cbn [stored beneath admissible clash overrides_view].
  - unfold ov_stored. cbn [m_Main m_Overrides]. rewrite Hh. destruct xs; reflexivity.
  - intros k' n' [_ Hc]%orb_false_iff. unfold ov_stored. cbn [m_Main m_Overrides]. rewrite (He _ _ Hc). reflexivity.
  - intros k' n' [_ Hc]%orb_false_iff. unfold ov_beneath. cbn [m_Main m_Overrides]. rewrite (He _ _ Hc), (Hb _ _ Hc). reflexivity.
  - intros k' n' [H1' H2']. auto.
Qed.

(** Which repository is asked. *)
Lemma by_value_cases {A} k n (f : R1 -> option (R1 * A)) (g : R2 -> option (R2 * A)) o :
  admissible (m_Overrides o) k n ->
  (stored (m_Overrides o) k n = [] /\ by_value k n f g o = on_main o (f (m_Main o))) \/
  (exists x xs, stored (m_Overrides o) k n = x :: xs /\ by_value k n f g o = on_overrides o (g (m_Overrides o))).
Proof.
  intros Ha. unfold by_value. rewrite law_has by exact Ha. cbn [mbind option_bind].
  destruct (stored (m_Overrides o) k n) as [|x xs] eqn:Es; [left; split; reflexivity|right].
  exists x, xs. split; reflexivity.
Qed.

Lemma layered_get_set {A} (read1 : raw (R := R1) -> option A) (read2 : raw (R := R2) -> option A) (d : A) f g o k n :
  admissible o k n ->
  gets_or_sets (m_Main o) k n read1 d (f (m_Main o)) ->
  gets_or_sets (m_Overrides o) k n read2 d (g (m_Overrides o)) ->
  gets_or_sets o k n (both read1 read2) d (by_value k n f g o).
Proof.
  intros [_ Ha] Hf Hg.
  destruct (by_value_cases k n f g o Ha) as [[Hs ->]|(x & xs & Hs & ->)].
  - unfold gets_or_sets in Hf |- *. cbn [stored writable overrides_view]. unfold ov_stored. rewrite Hs.
    destruct (stored (m_Main o) k n) as [|y ys] eqn:Em; cbn [fmap list_fmap].
    + destruct Hf as (r & -> & Hw). unfold on_main. cbn [mbind option_bind]. eexists. split; [reflexivity|].
      destruct (writable (m_Main o) k n).
      * destruct Hw as (y & Hy & B). exists (inl y). split; [exact Hy|]. exact (main_becomes o r k n [y] Hs B).
      * exact (main_becomes o r k n [] Hs Hw).
    + rewrite Hf. unfold on_main. cbn [both]. destruct (read1 y); [|reflexivity]. cbn [mbind option_bind]. destruct o; reflexivity.
  - unfold gets_or_sets in Hg |- *. cbn [stored overrides_view]. unfold ov_stored. rewrite Hs in *. cbn [fmap list_fmap].
    rewrite Hg. unfold on_overrides. cbn [both]. destruct (read2 x); [|reflexivity]. cbn [mbind option_bind]. destruct o; reflexivity.
Qed.

Lemma layered_set {A} (read1 : raw (R := R1) -> option A) (read2 : raw (R := R2) -> option A) (v : A) create f g o k n :
  admissible o k n ->
  sets (m_Main o) k n read1 v create (f (m_Main o)) ->
  sets (m_Overrides o) k n read2 v create (g (m_Overrides o)) ->
  sets o k n (both read1 read2) v create (by_value k n f g o).
Proof.
  intros [_ Ha] Hf Hg.
  destruct (by_value_cases k n f g o Ha) as [[Hs ->]|(x & xs & Hs & ->)].
  - destruct Hf as (r & b & -> & Hb & Hw). unfold sets. cbn [stored writable overrides_view]. unfold ov_stored. rewrite Hs.
    unfold on_main. cbn [mbind option_bind]. exists (Build_cOverrides r (m_Overrides o)), b. split; [reflexivity|]. split.
    + rewrite Hb. destruct (stored (m_Main o) k n); reflexivity.
    + destruct b.
      * destruct Hw as (y & Hy & B). exists (inl y). split; [exact Hy|].
        pose proof (main_becomes o r k n _ Hs B) as B'. cbn [fmap list_fmap] in B'.
        destruct (stored (m_Main o) k n); exact B'.
      * exact (main_becomes o r k n _ Hs Hw).
  - destruct Hg as (r & b & -> & Hb & Hw). unfold sets. cbn [stored writable overrides_view]. unfold ov_stored. rewrite Hs in *.
    unfold on_overrides. cbn [mbind option_bind]. exists (Build_cOverrides (m_Main o) r), b. split; [reflexivity|]. split.
    + rewrite Hb. reflexivity.
    + destruct b.
      * destruct Hw as (y & Hy & B). exists (inr y). split; [exact Hy|]. exact (overrides_becomes o r k n _ B).
      * exact (overrides_becomes o r k n _ Hw).
Qed.

#[global] Instance overrides_laws : SettingsLaws (cOverrides R1 R2).
Proof.
  split; intros o k n; intros;
    match goal with Ha : admissible o k n |- _ => pose proof Ha as [Ha1 Ha2]; rename Ha into Hadm end;
    cbn [HasValue GetValue GetValueSet GetValueSetI GetValueSetI64 GetValueSetB SetValue SetValueI AddValue DeleteValue
         overrides_repository].
  - rewrite !law_has by assumption. cbn [stored overrides_view either mbind option_bind]. unfold either, ov_stored.
    destruct (stored (m_Overrides o) k n); cbn [mbind option_bind]; [|reflexivity].
    destruct (stored (m_Main o) k n); reflexivity.
  - unfold ov_GetValue. rewrite law_has by assumption. cbn [stored as_text overrides_view mbind option_bind]. unfold ov_stored.
    destruct (stored (m_Overrides o) k n) as [|x xs] eqn:Es; cbn [mbind option_bind].
    + rewrite bool_decide_true by reflexivity. cbn [negb]. rewrite law_get by assumption.
      destruct (stored (m_Main o) k n); reflexivity.
    + rewrite bool_decide_false by discriminate. cbn [negb]. rewrite law_get, Es by assumption. reflexivity.
  - apply layered_get_set; [exact Hadm | apply law_get_set; assumption ..].
  - apply layered_get_set; [exact Hadm | apply law_get_set_int; assumption ..].
  - apply layered_get_set; [exact Hadm | apply law_get_set_int64; assumption ..].
  - apply layered_get_set; [exact Hadm | apply law_get_set_bool; assumption ..].
  - apply layered_set; [exact Hadm | apply law_set; assumption ..].
  - apply layered_set; [exact Hadm | apply law_set_int; assumption ..].
  - unfold ov_AddValue. set (f := fun r : R1 => _). set (g := fun r : R2 => _).
    destruct (by_value_cases k n f g o Ha2) as [[Hs ->]|(x & xs & Hs & ->)]; unfold f, g.
    + destruct (law_add (m_Main o) k n v Ha1) as (r & -> & Hw). unfold on_main. cbn [mbind option_bind fmap option_fmap option_map fst].
      eexists. split; [reflexivity|]. cbn [stored writable as_text overrides_view]. unfold ov_stored. rewrite Hs.
      destruct (writable (m_Main o) k n); [|exact (main_becomes o r k n _ Hs Hw)].
      destruct Hw as (y & ys & Hy & Hp & B). exists (inl y), (inl <$> ys). split; [exact Hy|].
      split; [rewrite Hp; reflexivity | exact (main_becomes o r k n _ Hs B)].
    + destruct (law_add (m_Overrides o) k n v Ha2) as (r & -> & Hw). unfold on_overrides.
      cbn [mbind option_bind fmap option_fmap option_map fst].
      eexists. split; [reflexivity|]. cbn [stored writable as_text overrides_view]. unfold ov_stored. rewrite Hs in *.
      destruct (writable (m_Overrides o) k n); [|exact (overrides_becomes o r k n _ Hw)].
      destruct Hw as (y & ys & Hy & Hp & B). exists (inr y), (inr <$> ys). split; [exact Hy|].
      split; [rewrite Hp; reflexivity|]. pose proof (overrides_becomes o r k n _ B) as B'.
      destruct ys; [apply Permutation_nil_cons in Hp; contradiction | exact B'].
  - destruct (by_value_cases k n (DeleteValue k n) (DeleteValue k n) o Ha2) as [[Hs ->]|(x & xs & Hs & ->)].
    + destruct (law_delete (m_Main o) k n Ha1) as (r & -> & B). unfold on_main. cbn [mbind option_bind].
      eexists. split; [cbn [stored writable overrides_view]; unfold ov_stored; rewrite Hs;
                       destruct (stored (m_Main o) k n); reflexivity|].
      pose proof (main_becomes o r k n _ Hs B) as B'. cbn [stored writable beneath overrides_view].
      unfold ov_stored, ov_beneath. rewrite Hs. destruct (writable (m_Main o) k n), (stored (m_Main o) k n) as [|? [|? ?]]; exact B'.
    + destruct (law_delete (m_Overrides o) k n Ha2) as (r & -> & B). unfold on_overrides. cbn [mbind option_bind].
      eexists. split; [cbn [stored writable overrides_view]; unfold ov_stored; rewrite Hs; reflexivity|].
      pose proof (overrides_becomes o r k n _ B) as B'. cbn [stored writable beneath overrides_view].
      unfold ov_stored, ov_beneath. rewrite Hs in *. destruct (writable (m_Overrides o) k n), xs; try exact B'.
      cbn [fmap list_fmap]. destruct (beneath (m_Overrides o) k n); exact B'.
Qed.
End Overrides.

(** ** What the merged list loses *)

Lemma lex_lt_irrefl a : lex_lt a a = false.
Proof. induction a as [|x a IH]; [reflexivity|]. cbn [lex_lt]. rewrite Z.ltb_irrefl, Z.eqb_refl, IH. reflexivity. Qed.

Lemma push_smaller_overrun name ov :
  Forall (fun q => lex_lt (fst q) name = true) ov -> push_smaller name ov = None.
Proof. induction 1 as [|q ov Hq _ IH]; [reflexivity|]. cbn [push_smaller]. rewrite Hq, IH. reflexivity. Qed.

(** The first name of the main repository is behind every override: the index runs off the
    end of the vector. *)
Lemma merge_overrun pr main q ov :
  Forall (fun q => lex_lt (fst q) (fst pr) = true) (q :: ov) -> merge_values (pr :: main) (q :: ov) = None.
Proof.
  intros Hall. cbn [merge_values]. destruct (decide (fst pr = fst q)) as [He|_].
  - apply Forall_inv in Hall. rewrite He, lex_lt_irrefl in Hall. discriminate.
  - rewrite push_smaller_overrun by exact Hall. reflexivity.
Qed.

(** No name is behind the first override: the overrides are not in the list, and neither are
    the values of the main repository the first one overrides. *)
Lemma merge_loses q ov main :
  Forall (fun pr => lex_lt (fst q) (fst pr) = false) main ->
  merge_values main (q :: ov) = Some (filter (fun pr => fst pr <> fst q) main).
Proof.
  induction 1 as [|pr main Hp _ IH]; [reflexivity|]. cbn [merge_values]. rewrite filter_cons.
  destruct (decide (fst pr = fst q)) as [He|He].
  - rewrite decide_False by (intros []; exact He). exact IH.
  - rewrite decide_True by exact He. cbn [push_smaller]. rewrite Hp. cbn [mbind option_bind]. rewrite IH. reflexivity.
Qed.
