(* ===== verification/Startup.v ===== *)
(** * Startup: the settings of a server that starts

    cRoot::Start (src/Src/Server/Root.cpp) reads settings.ini, lays the options of the command
    line over it (parseArguments, src/Src/Server/main.cpp; the parsing itself is a library's),
    asks for what the server and the authenticator need and writes the file back.  Which port
    it gets, and that the next start gets the same settings. *)

From Stdlib Require Import Ascii String.
From S2P Require Import Prelude Bytes StringUtils Packetizer Settings IniFile IniFacts IniRoundtrip MemorySettings OverridesSettings.

Section Startup.
Context `{UnorderedMultimap}.

(** The options [max-players] and [port]. *)
Definition parseArguments (slots : option Z) (ports : list Z) : cMemory :=
  let repo := cMemory_ctor in
  let repo := match slots with
              | Some x => mem_Add (chars "Server") (chars "MaxPlayers") (VInt x) repo
              | None => repo
              end in
  let repo := fold_left (fun repo port => mem_Add (chars "Server") (chars "Port") (VInt port) repo) ports repo in
  SetReadOnly repo.

Definition settings_name : AString := chars "settings.ini".

Definition load_settings (fs : Files) : option (cIniFile * Files) :=
  '(f, fs, ok) ← ReadFile true settings_name true fs cIniFile_ctor;
  Some (if ok : bool then f else AddHeaderComment (chars " This is the main server configuration") f, fs).

(** What the server starts with: whether to authenticate, the port, the database names. *)
Definition settings : Type := bool * Z * (AString * AString * AString * AString).

Definition ask_settings (o : cOverrides cIniFile cMemory) : option (cOverrides cIniFile cMemory * settings) :=
  '(o, auth) ← ShouldAuthenticate o;
  '(o, port) ← Port o;
  '(o, db) ← ReadSettings o;
  Some (o, (auth, port, db)).

Definition start_settings (args : cMemory) (fs : Files) : option (cOverrides cIniFile cMemory * Files * settings) :=
  '(f, fs) ← load_settings fs;
  '(o, asked) ← ask_settings {| m_Main := f; m_Overrides := args |};
  '(fs, _) ← Flush o fs;
  Some (o, fs, asked).

(** ** The command line *)

Lemma add_ports_find ports : forall m k n, m_Writable m = true ->
  (k, n) <> (chars "Server", chars "Port") ->
  mem_find (fold_left (fun repo port => mem_Add (chars "Server") (chars "Port") (VInt port) repo) ports m) k n = mem_find m k n.
Proof.
  induction ports as [|p ports IH]; intros m k n Hw Hkn; [reflexivity|]. cbn [fold_left].
  assert (Hadd : mem_find (mem_Add (chars "Server") (chars "Port") (VInt p) m) k n = mem_find m k n).
  { unfold mem_Add. rewrite Hw, mem_find_put, decide_False by congruence. reflexivity. }
  rewrite <- Hadd. apply IH; [unfold mem_Add; rewrite Hw; exact Hw | exact Hkn].
Qed.

Lemma add_ports_port ports : forall m, m_Writable m = true ->
  mem_find (fold_left (fun repo port => mem_Add (chars "Server") (chars "Port") (VInt port) repo) ports m)
    (chars "Server") (chars "Port") ≡ₚ map VInt ports ++ mem_find m (chars "Server") (chars "Port").
Proof.
  induction ports as [|p ports IH]; intros m Hw; [reflexivity|]. cbn [fold_left map app].
  rewrite IH by (unfold mem_Add; rewrite Hw; exact Hw).
  unfold mem_Add. rewrite Hw, mem_find_put, decide_True by reflexivity. rewrite place_perm.
  symmetry. apply Permutation_middle.
Qed.

Lemma parse_find slots ports k n :
  (k, n) <> (chars "Server", chars "Port") -> k <> chars "Server" \/ n <> chars "MaxPlayers" ->
  mem_find (parseArguments slots ports) k n = [].
Proof.
  intros Hp Hm. unfold parseArguments, SetReadOnly. change (mem_find (?m <| m_Writable := ?x |>)) with (mem_find m).
  assert (He : mem_find cMemory_ctor k n = []) by (unfold mem_find, cMemory_ctor; cbn; rewrite lookup_empty; reflexivity).
  rewrite add_ports_find; [|destruct slots; reflexivity | exact Hp].
  destruct slots; [|exact He]. unfold mem_Add. cbn [m_Writable cMemory_ctor].
  rewrite mem_find_put, decide_False; [exact He|]. intros E. injection E as <- <-. destruct Hm as [Hm|Hm]; apply Hm; reflexivity.
Qed.

Lemma parse_ports slots ports :
  mem_find (parseArguments slots ports) (chars "Server") (chars "Port") ≡ₚ map VInt ports.
Proof.
  unfold parseArguments, SetReadOnly. change (mem_find (?m <| m_Writable := ?x |>)) with (mem_find m).
  rewrite add_ports_port by (destruct slots; reflexivity).
  replace (mem_find _ (chars "Server") (chars "Port")) with (@nil sValue); [rewrite app_nil_r; reflexivity|].
  symmetry. destruct slots; [|reflexivity]. unfold mem_Add. cbn [m_Writable cMemory_ctor]. rewrite mem_find_put.
  rewrite decide_False by (intros E; vm_compute in E; discriminate E). reflexivity.
Qed.

(** ** What a file may hold stays so *)

Definition setting_ok (k n d : AString) : Prop :=
  (name_ok k /\ 10 ∉ k) /\ (name_ok n /\ value_name_ok n) /\ line_ok d.

Lemma position_none ci ns w : position ci ns w = None -> w ∉ (canon ci <$> ns).
Proof.
  induction ns as [|s ns IH]; intros Hp; [apply not_elem_of_nil|]. cbn [position] in Hp.
  destruct (decide (canon ci s = w)) as [|Hne]; [discriminate|]. rewrite fmap_cons.
  apply not_elem_of_cons. split; [congruence|]. apply IH. destruct (position ci ns w); [discriminate | reflexivity].
Qed.

Lemma push_printable n v kk : value_name_ok n -> line_ok v -> key_printable kk -> key_printable (push_value n v kk).
Proof.
  intros Hn Hv [H1 H2 H3]. split; [| |exact H3].
  - apply (proj2 (Forall_app _ _ _)). auto.
  - apply (proj2 (Forall_app _ _ _)). auto.
Qed.

Lemma replace_printable f i kk : printable f -> key_ok kk -> key_printable kk -> printable (replace_key f i kk).
Proof.
  intros [Hok Hn Hd Hc Hk] H1 H2. split; [apply replace_key_ok; assumption | exact Hn | exact Hd | exact Hc |].
  apply Forall_insert; assumption.
Qed.

(** The getters add a default under a name that is not there. *)
Lemma get_set_printable k n d f f' v :
  setting_ok k n d -> printable f -> ini_GetValueSet k n d f = Some (f', v) ->
  printable f' /\ m_Filename f' = m_Filename f /\ m_IsCaseInsensitive f' = m_IsCaseInsensitive f.
Proof.
  intros ([Hk Hk10] & [Hn Hn'] & Hd) Hp. pose proof (pr_ok _ Hp) as Hf.
  unfold ini_GetValueSet, ini_SetValue.
  destruct (lookup_cases f k n Hf Hk Hn) as [HF Hpos Hs | i kk HF Hid Ha Hkk HV Hs | i kk j w vs HF Hid Ha Hkk HV Hjd Hj Hw Hs];
    rewrite HF; cbn [mbind option_bind].
  - change (noID =? noID) with true. cbn [mbind option_bind negb andb].
    destruct (AddKeyName_spec f k n Hf Hk Hpos) as (f1 & E1 & Hf1 & Ha1 & Hci & _). rewrite E1.
    rewrite (FindValue_spec f1 _ _ n (proj2 Ha1)) by (repeat constructor || exact Hn).
    cbn [position empty_key key_names id_of mbind option_bind]. change (noID =? noID) with true.
    rewrite (on_key_spec _ _ _ _ (proj2 Ha1)). cbn [mbind option_bind]. intros E. injection E as <- <-.
    unfold ini_AddKeyName in E1. injection E1 as <-. split; [|split; reflexivity].
    apply replace_printable; [|apply push_key_ok; [exact Hn | repeat constructor] | apply push_printable; [exact Hn' | exact Hd | repeat constructor]].
    destruct Hp as [_ Pn Pd Pc Pk]. split; [exact Hf1 | | | exact Pc |].
    + apply (proj2 (Forall_app _ _ _)). auto.
    + change (NoDup (canon (m_IsCaseInsensitive f) <$> (names f ++ [k]))). rewrite fmap_app.
      apply NoDup_app. split; [exact Pd|]. split; [|apply NoDup_singleton].
      intros x Hx Hx1. cbn in Hx1. apply list_elem_of_singleton in Hx1 as ->. exact (position_none _ _ _ Hpos Hx).
    + apply (proj2 (Forall_app _ _ _)). repeat constructor; assumption.
  - rewrite Hid, HV. cbn [mbind option_bind]. change (noID =? noID) with true. cbn [mbind option_bind negb andb].
    rewrite ?Hid, ?HV. cbn [mbind option_bind andb]. change (noID =? noID) with true. rewrite (on_key_spec _ _ _ _ (proj2 Ha)). cbn [mbind option_bind]. intros E. injection E as <- <-.
    split; [|split; reflexivity]. apply replace_printable; [exact Hp | apply push_key_ok; assumption | apply push_printable; [exact Hn' | exact Hd |]].
    exact (proj1 (Forall_lookup _ _) (pr_keys _ Hp) _ _ (proj2 Ha)).
  - rewrite Hid, HV. cbn [mbind option_bind]. rewrite Hjd, (value_at_spec f k i kk j w Ha Hw). cbn [mbind option_bind].
    intros E. injection E as <- <-. auto.
Qed.

(** ** What has been asked is answered the same way again *)

Definition answers {R A : Type} `{SettingsView R} (r : R) (k n : AString) (read : raw -> option A) (v : A) : Prop :=
  exists x xs, stored r k n = x :: xs /\ read x = Some v.

Lemma answers_again {R A : Type} `{SettingsView R} (r : R) k n (read : raw -> option A) v d res :
  answers r k n read v -> gets_or_sets r k n read d res -> res = Some (r, v).
Proof. intros (x & xs & Hs & Hr). unfold gets_or_sets. rewrite Hs, Hr. intros ->. reflexivity. Qed.

(** The repository while the server starts. *)
Definition starting (args : cMemory) (o : cOverrides cIniFile cMemory) : Prop :=
  printable (m_Main o) /\ m_Filename (m_Main o) = settings_name /\ m_IsCaseInsensitive (m_Main o) = true /\
  m_Overrides o = args.

(** The pair is another name under the case rule of the file. *)
Definition apart (k n k' n' : AString) : bool :=
  negb (bool_decide (canon true k = canon true k') && bool_decide (canon true n = canon true n')) &&
  negb (bool_decide ((k, n) = (k', n'))).

Lemma apart_clash args o k n k' n' : starting args o -> apart k n k' n' = true -> clash o (k, n) (k', n') = false.
Proof.
  intros (_ & _ & Hci & _) Hap. unfold apart in Hap. apply andb_true_iff in Hap as [H1 H2].
  apply negb_true_iff in H1, H2. cbn [clash overrides_view ini_view memory_view fst snd]. rewrite Hci.
  apply orb_false_iff. split; assumption.
Qed.

Lemma starting_admissible args o k n : starting args o -> name_ok k -> name_ok n -> admissible o k n.
Proof. intros (Hp & _) Hk Hn. split; [split; [exact (pr_ok _ Hp) | auto] | exact I]. Qed.

(** One of the getters: [fini] and [fmem] are the members of the two repositories. *)
Lemma ask_step {A} (read1 : AString -> option A) (read2 : sValue -> option A) (d : A) dstr k n fini fmem args (o o' : cOverrides cIniFile cMemory) (v : A) :
  starting args o -> setting_ok k n dstr ->
  fini (m_Main o) = ('(f, s) ← ini_GetValueSet k n dstr (m_Main o); x ← read1 s; Some (f, x)) ->
  gets_or_sets (m_Overrides o) k n read2 d (fmem (m_Overrides o)) ->
  gets_or_sets o k n (both (R1 := cIniFile) (R2 := cMemory) read1 read2) d (by_value k n fini fmem o) ->
  by_value k n fini fmem o = Some (o', v) ->
  starting args o' /\ answers o' k n (both (R1 := cIniFile) (R2 := cMemory) read1 read2) v /\
  (forall B (read' : _ -> option B) k' n' v', apart k n k' n' = true -> answers o k' n' read' v' -> answers o' k' n' read' v').
Proof.
  intros Hst Hset Hini Hmem Hlaw Hres. pose proof Hst as (Hp & Hfn & Hci & Hov).
  assert (Hadm : admissible (m_Overrides o) k n) by exact I.
  assert (Hst' : starting args o').
  { destruct (by_value_cases k n fini fmem o Hadm) as [[Hs E]|(x & xs & Hs & E)]; rewrite E in Hres.
    - rewrite Hini in Hres. unfold on_main in Hres.
      destruct (ini_GetValueSet k n dstr (m_Main o)) as [[f s]|] eqn:Eg; [|discriminate]. cbn [mbind option_bind] in Hres.
      destruct (read1 s) as [y|]; [|discriminate]. cbn [mbind option_bind] in Hres. injection Hres as <- _.
      destruct (get_set_printable k n dstr _ _ _ Hset Hp Eg) as (P1 & P2 & P3).
      split; [exact P1|]. split; [exact (eq_trans P2 Hfn)|]. split; [exact (eq_trans P3 Hci) | exact Hov].
    - unfold gets_or_sets in Hmem. rewrite Hs in Hmem. rewrite Hmem in Hres. unfold on_overrides in Hres.
      destruct (read2 x) as [y|]; [|discriminate]. cbn [mbind option_bind] in Hres. injection Hres as <- _.
      destruct o; exact Hst. }
  split; [exact Hst'|]. rewrite Hres in Hlaw. unfold gets_or_sets in Hlaw.
  assert (Hw : writable o k n = true \/ stored o k n <> []).
  { cbn [writable stored overrides_view]. unfold ov_stored. destruct (stored (m_Overrides o) k n); [left; reflexivity | right; discriminate]. }
  destruct (stored o k n) as [|x xs] eqn:Es.
  - destruct Hw as [Hw|Hw]; [|contradiction]. rewrite Hw in Hlaw. destruct Hlaw as (r' & E & y & Hy & [Bh Be _]).
    injection E as <- <-. split; [exists y, []; auto|].
    intros B read' k' n' v' Hap (z & zs & Hz & Hr). exists z, zs. split; [|exact Hr].
    rewrite Be; [exact Hz | exact (apart_clash _ _ _ _ _ _ Hst Hap)].
  - symmetry in Hlaw. apply bind_Some in Hlaw as (y & Ey & Hlaw). injection Hlaw as <- <-.
    split; [exists x, xs; auto | auto].
Qed.

Definition keeps (o o' : cOverrides cIniFile cMemory) (k n : AString) : Prop :=
  forall B (read' : raw (R := cOverrides cIniFile cMemory) -> option B) k' n' v',
    apart k n k' n' = true -> answers o k' n' read' v' -> answers o' k' n' read' v'.

Lemma ask_text args (o o' : cOverrides cIniFile cMemory) k n d v :
  starting args o -> setting_ok k n d -> GetValueSet k n d o = Some (o', v) ->
  starting args o' /\ answers o' k n as_text v /\ keeps o o' k n.
Proof.
  intros Hst Hs Hres. pose proof Hs as ([Hk _] & [Hn _] & _).
  apply (ask_step Some getStringValue d d k n (ini_GetValueSet k n d) (mem_GetValueSet k n d) args o o' v Hst Hs).
  - destruct (ini_GetValueSet k n d (m_Main o)) as [[f s]|]; reflexivity.
  - exact (law_get_set (R := cMemory) (m_Overrides o) k n d I).
  - exact (law_get_set o k n d (starting_admissible _ _ _ _ Hst Hk Hn)).
  - exact Hres.
Qed.

Lemma ask_int args (o o' : cOverrides cIniFile cMemory) k n d v :
  starting args o -> setting_ok k n (Printf_d d) -> in_int d -> GetValueSetI k n d o = Some (o', v) ->
  starting args o' /\ answers o' k n as_int v /\ keeps o o' k n.
Proof.
  intros Hst Hs Hd Hres. pose proof Hs as ([Hk _] & [Hn _] & _).
  apply (ask_step atoi (fun x => to_signed 32 <$> getIntValue x) d (Printf_d d) k n
           (ini_GetValueSetI k n d) (mem_GetValueSetI k n d) args o o' v Hst Hs).
  - reflexivity.
  - exact (law_get_set_int (R := cMemory) (m_Overrides o) k n d I Hd).
  - exact (law_get_set_int o k n d (starting_admissible _ _ _ _ Hst Hk Hn) Hd).
  - exact Hres.
Qed.

Lemma ask_bool args (o o' : cOverrides cIniFile cMemory) k n (d v : bool) :
  starting args o -> setting_ok k n (Printf_d (if d then 1 else 0)) -> GetValueSetB k n d o = Some (o', v) ->
  starting args o' /\ answers o' k n as_bool v /\ keeps o o' k n.
Proof.
  intros Hst Hs Hres. pose proof Hs as ([Hk _] & [Hn _] & _).
  apply (ask_step (fun s => x ← atoi s; Some (negb (x =? 0))) getBoolValue d (Printf_d (if d then 1 else 0)) k n
           (ini_GetValueSetB k n d) (mem_GetValueSetB k n d) args o o' v Hst Hs).
  - unfold ini_GetValueSetB, ini_GetValueSetI. destruct (ini_GetValueSet _ _ _ _) as [[f s]|]; [|reflexivity].
    cbn [mbind option_bind]. destruct (atoi s); reflexivity.
  - exact (law_get_set_bool (R := cMemory) (m_Overrides o) k n d I).
  - exact (law_get_set_bool o k n d (starting_admissible _ _ _ _ Hst Hk Hn)).
  - exact Hres.
Qed.

Lemma forallb_Forall {A} (p : A -> bool) l : forallb p l = true -> Forall (fun x => p x = true) l.
Proof. induction l as [|x l IH]; [constructor|]. cbn [forallb]. intros [H1 H2]%andb_true_iff. auto. Qed.

Lemma setting_ok_dec k n d :
  forallb ctype_ok k && forallb ctype_ok n && bool_decide (10 ∉ k) &&
  forallb (fun c => negb (c =? 10) && negb (char_in (chars ";#[=") c)) n &&
  match n with [] => true | c :: _ => (32 <=? c) && (c <=? 126) end &&
  bool_decide (10 ∉ d) && negb (bool_decide (last d = Some 13)) = true -> setting_ok k n d.
Proof.
  rewrite !andb_true_iff. intros ((((((Hk & Hn) & Hk10) & Hnc) & Hh) & Hd) & Hl).
  apply forallb_Forall in Hk, Hn, Hnc. apply bool_decide_eq_true in Hk10, Hd.
  apply negb_true_iff, bool_decide_eq_false in Hl.
  split; [split; assumption|]. split; [split; [assumption|]; split | split; assumption].
  - eapply Forall_impl; [exact Hnc|]. cbv beta. intros c Hc. apply andb_true_iff in Hc as [H1 H2].
    apply negb_true_iff in H1, H2. apply Z.eqb_neq in H1. auto.
  - destruct n as [|c n]; [exact I|]. lia.
Qed.

Lemma setting_1 : setting_ok (chars "Authentication") (chars "Authenticate") (Printf_d 1).
Proof. apply setting_ok_dec. vm_compute. reflexivity. Qed.
Lemma setting_2 : setting_ok (chars "Server") (chars "Port") (Printf_d 6666).
Proof. apply setting_ok_dec. vm_compute. reflexivity. Qed.
Lemma setting_3 : setting_ok (chars "Authentication") (chars "Table") (chars "tb_users").
Proof. apply setting_ok_dec. vm_compute. reflexivity. Qed.
Lemma setting_4 : setting_ok (chars "Authentication") (chars "sername") (chars "username").
Proof. apply setting_ok_dec. vm_compute. reflexivity. Qed.
Lemma setting_5 : setting_ok (chars "Authentication") (chars "Password") (chars "password").
Proof. apply setting_ok_dec. vm_compute. reflexivity. Qed.
Lemma setting_6 : setting_ok (chars "Authentication") (chars "Salt") (chars "salt").
Proof. apply setting_ok_dec. vm_compute. reflexivity. Qed.

(** The six questions, in their order, and the same answers afterwards. *)
Lemma ask_again args (o o' : cOverrides cIniFile cMemory) asked :
  starting args o -> ask_settings o = Some (o', asked) ->
  starting args o' /\ ask_settings o' = Some (o', asked) /\
  exists v, answers o' (chars "Authentication") (chars "Table") as_text v.
Proof.
  intros S0. unfold ask_settings, ShouldAuthenticate, Port, ReadSettings. intros E.
  apply bind_Some in E as ([o1 auth] & E1 & E). apply bind_Some in E as ([o2 port] & E2 & E).
  apply bind_Some in E as ([o6 db] & E6 & E). injection E as <- <-.
  apply bind_Some in E6 as ([o3 table] & E3 & E). apply bind_Some in E as ([o4 user] & E4 & E).
  apply bind_Some in E as ([o5 pass] & E5 & E). apply bind_Some in E as ([o7 salt] & E6 & E). injection E as <- <-.
  destruct (ask_bool _ _ _ _ _ true _ S0 setting_1 E1) as (S1 & A1 & _).
  destruct (ask_int _ _ _ _ _ 6666 _ S1 setting_2 ltac:(split; lia) E2) as (S2 & A2 & K2).
  destruct (ask_text _ _ _ _ _ _ _ S2 setting_3 E3) as (S3 & A3 & K3).
  destruct (ask_text _ _ _ _ _ _ _ S3 setting_4 E4) as (S4 & A4 & K4).
  destruct (ask_text _ _ _ _ _ _ _ S4 setting_5 E5) as (S5 & A5 & K5).
  destruct (ask_text _ _ _ _ _ _ _ S5 setting_6 E6) as (S6 & A6 & K6).
  assert (K : forall B (read : raw (R := cOverrides cIniFile cMemory) -> option B) k n (v : B), answers o1 k n read v ->
    apart (chars "Server") (chars "Port") k n && apart (chars "Authentication") (chars "Table") k n &&
    apart (chars "Authentication") (chars "sername") k n && apart (chars "Authentication") (chars "Password") k n &&
    apart (chars "Authentication") (chars "Salt") k n = true -> answers o7 k n read v).
  { intros B read k n v HA Hap. rewrite !andb_true_iff in Hap. destruct Hap as ((((H1 & H2) & H3) & H4) & H5).
    apply K6, K5, K4, K3, K2; assumption. }
  apply K in A1; [|vm_compute; reflexivity].
  apply K3 in A2; [|vm_compute; reflexivity]. apply K4 in A2; [|vm_compute; reflexivity].
  apply K5 in A2; [|vm_compute; reflexivity]. apply K6 in A2; [|vm_compute; reflexivity].
  apply K4 in A3; [|vm_compute; reflexivity]. apply K5 in A3; [|vm_compute; reflexivity]. apply K6 in A3; [|vm_compute; reflexivity].
  apply K5 in A4; [|vm_compute; reflexivity]. apply K6 in A4; [|vm_compute; reflexivity].
  apply K6 in A5; [|vm_compute; reflexivity].
  assert (Hadm : forall k n d, setting_ok k n d -> admissible o7 k n).
  { intros k n d ([Hk _] & [Hn _] & _). exact (starting_admissible args o7 k n S6 Hk Hn). }
  split; [exact S6|]. split; [|exists table; exact A3].
  rewrite (answers_again _ _ _ _ _ _ _ A1 (law_get_set_bool o7 _ _ true (Hadm _ _ _ setting_1))).
  cbn [mbind option_bind].
  rewrite (answers_again _ _ _ _ _ _ _ A2 (law_get_set_int o7 _ _ 6666 (Hadm _ _ _ setting_2) ltac:(split; lia))).
  cbn [mbind option_bind].
  rewrite (answers_again _ _ _ _ _ _ _ A3 (law_get_set o7 _ _ (chars "tb_users") (Hadm _ _ _ setting_3))).
  cbn [mbind option_bind].
  rewrite (answers_again _ _ _ _ _ _ _ A4 (law_get_set o7 _ _ (chars "username") (Hadm _ _ _ setting_4))).
  cbn [mbind option_bind].
  rewrite (answers_again _ _ _ _ _ _ _ A5 (law_get_set o7 _ _ (chars "password") (Hadm _ _ _ setting_5))).
  cbn [mbind option_bind].
  rewrite (answers_again _ _ _ _ _ _ _ A6 (law_get_set o7 _ _ (chars "salt") (Hadm _ _ _ setting_6))).
  reflexivity.
Qed.

(** ** Reading keeps the name of the file and the case rule *)

Definition same_file (f f' : cIniFile) : Prop :=
  m_Filename f' = m_Filename f /\ m_IsCaseInsensitive f' = m_IsCaseInsensitive f.

Lemma same_file_trans f g h : same_file f g -> same_file g h -> same_file f h.
Proof. intros [? ?] [? ?]. split; congruence. Qed.

Lemma on_key_same i g f f' : on_key i g f = Some f' -> same_file f f'.
Proof. unfold on_key. intros E. apply bind_Some in E as (k & _ & E). injection E as <-. split; reflexivity. Qed.

Lemma read_entry_same line p f kn f' kn' : read_entry line p f kn = Some (f', kn') -> same_file f f'.
Proof.
  assert (Hadd : forall k n v g, ini_AddValue k n v f = Some g -> same_file f g).
  { intros k n v g E. unfold ini_AddValue in E. apply bind_Some in E as (i & _ & E).
    destruct (i =? noID); [|exact (on_key_same _ _ _ _ E)].
    eapply same_file_trans; [|exact (on_key_same _ _ _ _ E)]. split; reflexivity. }
  assert (Hcom : forall k c g b, ini_AddKeyComment k c f = Some (g, b) -> same_file f g).
  { intros k c g b E. unfold ini_AddKeyComment, by_key in E. apply bind_Some in E as (i & _ & E).
    destruct (i =? noID); [injection E as <- _; split; reflexivity|]. unfold AddKeyComment_id in E.
    destruct (i <? _); [|injection E as <- _; split; reflexivity].
    apply bind_Some in E as (h & E & E'). injection E' as <- _. exact (on_key_same _ _ _ _ E). }
  assert (Hdefault : forall g, (if decide (names f = []) then Some (AddHeaderComment (substr_from line (p + 1)) f, kn)
            else '(f, _) ← ini_AddKeyComment kn (substr_from line (p + 1)) f; Some (f, kn)) = Some (g, kn') -> same_file f g).
  { intros g E. destruct (decide _); [injection E as <- _; split; reflexivity|].
    apply bind_Some in E as ([h b] & E & E'). injection E' as <- _. exact (Hcom _ _ _ _ E). }
  assert (Hvalue : forall g, (f ← ini_AddValue kn (substr line 0 p) (substr_from line (p + 1)) f; Some (f, kn)) = Some (g, kn')
            -> same_file f g).
  { intros g E. apply bind_Some in E as (h & E & E'). injection E' as <- _. exact (Hadd _ _ _ _ E). }
  unfold read_entry. destruct (line !! p) as [c|]; [|apply Hdefault].
  destruct (decide (c = 91)) as [->|H91].
  { destruct (find_last_of line 93) as [q|]; [destruct (p <? q)%nat|]; intros E; injection E as <- _; split; reflexivity. }
  destruct (decide (c = 61)) as [->|H61]; [apply Hvalue|].
  replace (match c with 91 => _ | 61 => _ | _ => _ end) with
    (if decide (names f = []) then Some (AddHeaderComment (substr_from line (p + 1)) f, kn)
     else '(f, _) ← ini_AddKeyComment kn (substr_from line (p + 1)) f; Some (f, kn)); [apply Hdefault|].
  clear - H91 H61. destruct c as [|c|c]; [reflexivity| |reflexivity].
  do 7 (destruct c as [c|c|]; try reflexivity; try congruence).
Qed.

Lemma read_lines_same lines : forall f kn f' b, read_lines lines f kn = Some (f', b) -> same_file f f'.
Proof.
  induction lines as [|line lines IH]; intros f kn f' b E; cbn [read_lines] in E.
  - injection E as <- _. split; reflexivity.
  - destruct (strip_cr line) as [l|]; [|exact (IH _ _ _ _ E)].
    apply bind_Some in E as (ok & _ & E). destruct ok; [|injection E as <- _; split; reflexivity].
    destruct (find_first_of _ _ _) as [p|]; [|exact (IH _ _ _ _ E)].
    apply bind_Some in E as ([g kn'] & Eg & E).
    exact (same_file_trans _ _ _ (read_entry_same _ _ _ _ _ _ Eg) (IH _ _ _ _ E)).
Qed.

Lemma ReadFile_same win32 name redirect fs f f' fs' b :
  ReadFile win32 name redirect fs f = Some (f', fs', b) ->
  m_Filename f' = name /\ m_IsCaseInsensitive f' = m_IsCaseInsensitive f /\ can_write fs' = can_write fs.
Proof.
  unfold ReadFile. intros E. set (f0 := f <| m_Filename := name |>) in E.
  assert (H0 : same_file f0 f' -> m_Filename f' = name /\ m_IsCaseInsensitive f' = m_IsCaseInsensitive f) by auto.
  destruct (match contents fs !! _ with Some _ => _ | None => _ end) as [[text ex]|]; [|injection E as <- <- _; auto].
  apply bind_Some in E as ([g ok] & Eg & E).
  assert (Hg : same_file f0 g).
  { unfold read_text in Eg. apply bind_Some in Eg as (ls & _ & Eg). exact (read_lines_same _ _ _ _ _ Eg). }
  destruct (negb ok); [injection E as <- <- _; destruct (H0 Hg); auto|].
  destruct (_ && _); [injection E as <- <- _; destruct (H0 Hg); auto|].
  destruct ex; [|injection E as <- <- _; destruct (H0 Hg); auto].
  apply bind_Some in E as ([fs1 b1] & Ew & E). injection E as <- <- _. destruct (H0 Hg). split; [assumption|]. split; [assumption|].
  unfold WriteFile in Ew. destruct (can_write fs _); [|injection Ew as <- _; reflexivity].
  apply bind_Some in Ew as (t & _ & Ew). injection Ew as <- _. reflexivity.
Qed.

(** Writing the same text twice. *)
Lemma write_again (fs : Files) (path text : AString) :
  fs <| contents := <[path := text]> (contents fs) |>
     <| contents := <[path := text]> (contents (fs <| contents := <[path := text]> (contents fs) |>)) |> =
  fs <| contents := <[path := text]> (contents fs) |>.
Proof.
  change ({| contents := <[path := text]> (<[path := text]> (contents fs)); can_write := can_write fs |} =
          {| contents := <[path := text]> (contents fs); can_write := can_write fs |}).
  f_equal. apply insert_insert_eq.
Qed.

(** ** Theorems *)

(** Which port the server gets: one given on the command line, else the first one of the
    file (undefined when it is not an [int]), else 6666, which is added to the file. *)
Theorem port_choice (slots : option Z) (ports : list Z) (f : cIniFile) :
  ini_ok f -> Forall in_int ports ->
  let o := {| m_Main := f; m_Overrides := parseArguments slots ports |} in
  (ports <> [] -> exists p, p ∈ ports /\ Port o = Some (o, p)) /\
  (ports = [] -> match ini_stored f (chars "Server") (chars "Port") with
                 | x :: _ => Port o = (p ← atoi x; Some (o, p))
                 | [] => exists f' x, Port o = Some ({| m_Main := f'; m_Overrides := parseArguments slots ports |}, 6666) /\
                                      atoi x = Some 6666 /\ becomes f f' (chars "Server") (chars "Port") [x]
                 end).
Proof.
  intros Hf Hports o. pose proof (parse_ports slots ports) as Hperm.
  set (args := parseArguments slots ports) in *.
  pose proof setting_2 as ([Hk _] & [Hn _] & _).
  assert (Hadm : admissible (m_Overrides o) (chars "Server") (chars "Port")) by exact I.
  destruct (by_value_cases (chars "Server") (chars "Port") (ini_GetValueSetI (chars "Server") (chars "Port") 6666)
    (mem_GetValueSetI (chars "Server") (chars "Port") 6666) o Hadm) as [[Hs E]|(x & xs & Hs & E)];
    cbn [stored memory_view m_Overrides o] in Hs; rewrite Hs in Hperm; split; intros Hp.
  - apply Permutation_nil_l in Hperm. destruct ports; [contradiction | discriminate].
  - change (Port o) with (by_value (chars "Server") (chars "Port") (ini_GetValueSetI (chars "Server") (chars "Port") 6666)
      (mem_GetValueSetI (chars "Server") (chars "Port") 6666) o). rewrite E. unfold on_main. cbn [m_Main m_Overrides o].
    pose proof (law_get_set_int f _ _ 6666 (conj Hf (conj Hk Hn)) ltac:(split; lia)) as Hlaw.
    unfold gets_or_sets in Hlaw. cbn [stored writable ini_view] in Hlaw.
    change (GetValueSetI (R := cIniFile)) with ini_GetValueSetI in Hlaw.
    destruct (ini_stored f (chars "Server") (chars "Port")) as [|y ys].
    + destruct Hlaw as (f' & -> & y & Hy & B). exists f', y. auto.
    + rewrite Hlaw. cbn [as_int ini_view]. destruct (atoi y); reflexivity.
  - assert (Hx : x ∈ map VInt ports) by (rewrite <- Hperm; apply list_elem_of_here).
    apply list_elem_of_In, in_map_iff in Hx as (p & <- & Hin). apply list_elem_of_In in Hin.
    exists p. split; [exact Hin|].
    change (Port o) with (by_value (chars "Server") (chars "Port") (ini_GetValueSetI (chars "Server") (chars "Port") 6666)
      (mem_GetValueSetI (chars "Server") (chars "Port") 6666) o). rewrite E. unfold on_overrides. cbn [m_Main m_Overrides o].
    unfold mem_GetValueSetI, mem_GetSet. rewrite Hs. cbn [getIntValue fmap option_fmap option_map mbind option_bind].
    rewrite to_signed_int by (rewrite Forall_forall in Hports; auto). reflexivity.
  - subst ports. symmetry in Hperm. apply Permutation_nil_l in Hperm. discriminate Hperm.
Qed.

(** C32. The settings survive a restart: started again with the same options, on the file it
    wrote, the server gets the same repository and the same settings and leaves the file as
    it is.  The file read first must be one that can be written ([printable]). *)
Theorem restart_keeps_settings (slots : option Z) (ports : list Z) (fs fs1 fs2 : Files) (f : cIniFile)
    (o : cOverrides cIniFile cMemory) (asked : settings) :
  (forall path, can_write fs path = true) ->
  load_settings fs = Some (f, fs1) -> printable f ->
  start_settings (parseArguments slots ports) fs = Some (o, fs2, asked) ->
  start_settings (parseArguments slots ports) fs2 = Some (o, fs2, asked).
Proof.
  intros Hw Hload Hp. set (args := parseArguments slots ports) in *. unfold start_settings.
  rewrite Hload. cbn [mbind option_bind]. intros E.
  apply bind_Some in E as ([o' asked'] & Eask & E). apply bind_Some in E as ([fs' b] & Eflush & E).
  injection E as -> -> ->.
  assert (Hst : starting args {| m_Main := f; m_Overrides := args |} /\ can_write fs1 = can_write fs).
  { unfold load_settings in Hload. apply bind_Some in Hload as ([[g fs3] ok] & Er & Hload).
    destruct (ReadFile_same _ _ _ _ _ _ _ _ Er) as (H1 & H2 & H3). injection Hload as <- <-.
    split; [|exact H3]. split; [exact Hp|]. destruct ok; auto. }
  destruct Hst as [Hst Hcw]. destruct (ask_again args _ o asked Hst Eask) as (So & Eagain & v & x & xs & Hx & _).
  pose proof So as (Po & Hfn & Hci & Hov).
  assert (Hkeys : keys (m_Main o) <> []).
  { intros Hk. cbn [stored overrides_view memory_view] in Hx. unfold ov_stored in Hx.
    cbn [stored memory_view ini_view] in Hx. rewrite Hov in Hx. unfold args in Hx.
    rewrite parse_find in Hx by (first [intros E; vm_compute in E; discriminate E | left; intros E; vm_compute in E; discriminate E]).
    unfold ini_stored in Hx. rewrite Hk in Hx. destruct (position _ _ _); discriminate Hx. }
  change (Flush o fs1) with (WriteFile true (m_Filename (m_Main o)) (m_Main o) fs1) in Eflush.
  rewrite Hfn in Eflush. unfold WriteFile in Eflush. rewrite Hcw, Hw in Eflush.
  rewrite write_text_lines in Eflush by apply Po. cbn [mbind option_bind] in Eflush. injection Eflush as <- <-.
  set (fs2 := fs1 <| contents := _ |>).
  assert (Hc2 : contents fs2 !! (FILE_IO_PREFIX ++ settings_name) = Some (with_ends (iniEOL true) (ini_lines (m_Main o))))
    by apply lookup_insert_eq.
  assert (Hmain : (m_Main o) <| m_Filename := settings_name |> = m_Main o)
    by (rewrite <- Hfn; destruct (m_Main o); reflexivity).
  assert (Hl2 : load_settings fs2 = Some (m_Main o, fs2)).
  { unfold load_settings. pose proof (ReadFile_written true true (m_Main o) settings_name [] fs2 Po (or_introl Hkeys) Hc2) as Hr.
    rewrite Hci, Hmain in Hr. change cIniFile_ctor with
      {| m_IsCaseInsensitive := true; m_Filename := []; keys := []; names := []; comments := [] |}. rewrite Hr. reflexivity. }
  rewrite Hl2. cbn [mbind option_bind].
  replace {| m_Main := m_Main o; m_Overrides := args |} with o by (rewrite <- Hov; destruct o; reflexivity).
  rewrite Eagain. cbn [mbind option_bind].
  change (Flush o fs2) with (WriteFile true (m_Filename (m_Main o)) (m_Main o) fs2).
  rewrite Hfn. unfold WriteFile. change (can_write fs2) with (can_write fs1). rewrite Hcw, Hw.
  rewrite write_text_lines by apply Po. cbn [mbind option_bind].
  unfold fs2. rewrite write_again. reflexivity.
Qed.
End Startup.

(** ** A concrete library *)

(** [emplace] puts a value first; a multimap is walked in the order of the map. *)
Definition walk_in_order (m : gmap AString (list sValue)) : list (AString * sValue) :=
  concat (map (fun '(n, vs) => map (pair n) vs) (map_to_list m)).
#[global] Instance simple_multimap : UnorderedMultimap := {
  place := cons;
  place_perm v l := reflexivity (v :: l);
  walk := walk_in_order;
  walk_perm m := reflexivity (walk_in_order m);
}.

Definition no_files : Files := {| contents := ∅; can_write _ := true |}.

Definition fresh_ini : cIniFile :=
  AddHeaderComment (chars " This is the main server configuration") (cIniFile_ctor <| m_Filename := settings_name |>).

Lemma fresh_printable : printable fresh_ini.
Proof.
  split; [split; [constructor | reflexivity | constructor] | constructor | constructor | | constructor].
  repeat constructor; [apply (proj1 (bool_decide_eq_true _)); vm_compute; reflexivity | vm_compute; discriminate].
Qed.

Lemma port_choice_witness :
  exists p, p ∈ [7000; 7001] /\
    Port {| m_Main := sample_ini; m_Overrides := parseArguments None [7000; 7001] |} =
    Some ({| m_Main := sample_ini; m_Overrides := parseArguments None [7000; 7001] |}, p).
Proof.
  refine (proj1 (port_choice None [7000; 7001] sample_ini (pr_ok _ sample_ini_printable) _) _).
  - repeat constructor; discriminate.
  - discriminate.
Defined.

Lemma restart_keeps_settings_witness : exists o fs2 asked,
  start_settings (parseArguments (Some 20) [7000]) no_files = Some (o, fs2, asked) /\
  snd (fst asked) = 7000 /\
  start_settings (parseArguments (Some 20) [7000]) fs2 = Some (o, fs2, asked).
Proof.
  destruct (start_settings (parseArguments (Some 20) [7000]) no_files) as [[[o fs2] asked]|] eqn:E.
  - exists o, fs2, asked. split; [reflexivity|]. split.
    + assert (Hp : (fun r => snd (fst (snd r))) <$> start_settings (parseArguments (Some 20) [7000]) no_files = Some 7000)
        by (vm_compute; reflexivity).
      rewrite E in Hp. injection Hp as Hp. exact Hp.
    + exact (restart_keeps_settings (Some 20) [7000] no_files no_files fs2 fresh_ini o asked
               (fun _ => eq_refl) eq_refl fresh_printable E).
  - exfalso. assert (Hs : bool_decide (is_Some (start_settings (parseArguments (Some 20) [7000]) no_files)) = true)
      by (vm_compute; reflexivity). rewrite E in Hs. discriminate.
Defined.

(** The repository the server asks satisfies the interface. *)

(** The pairs of a name and a value the file has under a key, in the order of the file. *)
Definition ini_pairs (f : cIniFile) (k : AString) : list (AString * AString) :=
  match position (m_IsCaseInsensitive f) (names f) (canon (m_IsCaseInsensitive f) k) ≫= (keys f !!.) with
  | Some kk => zip (key_names kk) (key_values kk)
  | None => []
  end.

Lemma ini_values f k : ini_ok f -> name_ok k -> GetValues k f = Some (f, ini_pairs f k).
Proof.
  intros Hf Hk. cbn [GetValues ini_repository]. unfold ini_GetValues, ini_pairs.
  destruct (FindKey_spec f k Hf Hk) as [[-> ->]|(i & kk & -> & Hid & [Hp Hi] & Hkk)]; [reflexivity|].
  cbn [mbind option_bind]. rewrite Hid, (vec_at_keys _ _ _ Hi), Hp. cbn [mbind option_bind].
  rewrite Hi, pair_up_zip by apply Hkk. reflexivity.
Qed.

Lemma insert_pair_perm p l : insert_pair p l ≡ₚ p :: l.
Proof.
  induction l as [|q l IH]; [reflexivity|]. cbn [insert_pair]. destruct (pair_lt q p); [|reflexivity].
  rewrite IH. apply perm_swap.
Qed.

Lemma sort_pairs_perm l : sort_pairs l ≡ₚ l.
Proof. induction l as [|p l IH]; [reflexivity|]. cbn [sort_pairs foldr]. rewrite insert_pair_perm. constructor. exact IH. Qed.

Section Values.
Context `{UnorderedMultimap}.

Lemma walk_nothing (inner : gmap AString (list sValue)) :
  (forall n vs, inner !! n = Some vs -> vs = []) -> walk inner = [].
Proof.
  intros Hn. apply Permutation_nil_r. rewrite walk_perm.
  assert (Hl : Forall (fun p => snd p = []) (map_to_list inner)).
  { apply Forall_forall. intros [n vs] Hin. apply (Hn n). apply elem_of_map_to_list, Hin. }
  induction Hl as [|[n vs] l E _ IH]; [reflexivity|]. cbn in E. subst vs. exact IH.
Qed.

Lemma walk_one n v : walk {[n := [v]]} = [(n, v)].
Proof. apply Permutation_singleton_r. rewrite walk_perm, map_to_list_singleton. reflexivity. Qed.

Lemma merge_nothing main : merge_values main [] = Some main.
Proof. induction main as [|p main IH]; [reflexivity|]. cbn [merge_values]. rewrite IH. reflexivity. Qed.

(** Without an override under the key, the list is that of the file, sorted. *)
Lemma values_of_file (o : cOverrides cIniFile cMemory) k :
  ini_ok (m_Main o) -> name_ok k -> (forall n, stored (m_Overrides o) k n = []) ->
  exists o' l, GetValues k o = Some (o', l) /\ l ≡ₚ ini_pairs (m_Main o) k.
Proof.
  intros Hf Hk Hn. cbn [GetValues overrides_repository]. unfold ov_GetValues.
  cbn [GetValues memory_repository]. unfold mem_GetValues. rewrite walk_nothing.
  - cbn [mapM mbind option_bind]. pose proof (ini_values _ k Hf Hk) as E. cbn [GetValues ini_repository] in E |- *.
    rewrite E. cbn [mret option_ret mbind option_bind].
    change (sort_pairs []) with (@nil (AString * AString)). rewrite merge_nothing.
    eexists _, _. split; [reflexivity | apply sort_pairs_perm].
  - intros n vs Hvs. specialize (Hn n). cbn [stored memory_view] in Hn. unfold mem_find in Hn.
    destruct (m_Map (m_Overrides o) !! k) as [inner|]; [|cbn in Hvs; rewrite lookup_empty in Hvs; discriminate].
    change (inner !! n = Some vs) in Hvs. change (default [] (inner !! n) = []) in Hn. rewrite Hvs in Hn. exact Hn.
Qed.

(** A file with one value, and one option over it. *)
Definition one_value (k n v : AString) : cIniFile :=
  cIniFile_ctor <| names := [k] |> <| keys := [ {| key_names := [n]; key_values := [v]; key_comments := [] |} ] |>.
Definition one_option (k n v : AString) : cMemory := {| m_Writable := false; m_Map := {[k := {[n := [VText v]]}]} |}.

Lemma one_over_one k n v n' v' :
  GetValues k {| m_Main := one_value k n v; m_Overrides := one_option k n' v' |} =
  ('(f, main) ← ini_GetValues k (one_value k n v);
   ret ← merge_values (sort_pairs main) [(n', v')];
   Some ({| m_Main := f; m_Overrides := one_option k n' v' |}, ret)).
Proof.
  cbn [GetValues overrides_repository]. unfold ov_GetValues. cbn [GetValues memory_repository m_Main m_Overrides].
  unfold mem_GetValues, one_option. cbn [m_Map]. rewrite lookup_singleton_eq. change (default ∅ (Some ?x)) with x.
  rewrite walk_one. cbn [mapM mbind option_bind getStringValue]. rewrite insert_singleton_eq. reflexivity.
Qed.
End Values.



(** [ReadUpgradeIniPorts] compares the names of [GetValues] exactly, the other members without
    regard to case: a value spelled differently is overlooked and then overwritten. *)
Lemma ports_overwritten :
  exists f, ini_SetValue (chars "Server") (chars "ports") (chars "8080") true cIniFile_ctor = Some (f, true) /\
    ('(f, ports) ← ReadUpgradeIniPorts (chars "Server") (chars "Ports") (chars "Port") (chars "PortsIPv6") (chars "6666") f;
     v ← ini_GetValue (chars "Server") (chars "ports") [] f; Some (ports, v)) =
    Some ([chars "6666"], chars "6666").
Proof. eexists. split; vm_compute; reflexivity. Qed.

(** A file that fails the check for binary data half way leaves what was read so far. *)
Lemma rejected_file_kept :
  (fun r => (keys (fst (fst r)), snd r)) <$>
    ReadFile true settings_name false {| contents := {[settings_name := chars "[a]" ++ [10] ++ chars "b=c" ++ [10; 1; 10]]}; can_write _ := true |}
      cIniFile_ctor =
  Some ([{| key_names := [chars "b"]; key_values := [chars "c"]; key_comments := [] |}], false).
Proof. vm_compute. reflexivity. Qed.
