(* ===== verification/TcpLinks.v ===== *)
(** * TcpLinks: TCP connections over libevent

    [cTCPLinkImpl], [cServerHandleImpl] and [cNetworkSingleton]
    (src/Src/Server/OSSupport/TCPLinkImpl.cpp, ServerHandleImpl.cpp, NetworkSingleton.cpp).
    The objects are owned by shared pointers: of each other, of themselves while events may
    come, and of those who use them.  The state says who points to what, and an object
    without an owner is destroyed.

    libevent and the sockets are an interface: what its functions do to the view of a
    bufferevent is what the library documents.  What it reports (errors, addresses, whether a
    connection could be queued) are arguments.  [None] is the use of an object that was
    destroyed, a null pointer or a failed assertion. *)

From S2P Require Import Prelude Bytes Packetizer ByteBuffer StringUtils Settings Server.

(** ** libevent *)

(** A bufferevent: the bytes queued for the socket, those read from it and not yet taken,
    those the operating system was given, whether reading and writing are enabled, and whether
    the sending side was shut down. *)
Record bev_view := {
  v_output : list Z;
  v_input : list Z;
  v_given : list Z;
  v_read : bool;
  v_write : bool;
  v_fin : bool;
}.

#[global] Instance eta_bev_view : Eta bev_view := fun v =>
  {| v_output := v_output v; v_input := v_input v; v_given := v_given v;
     v_read := v_read v; v_write := v_write v; v_fin := v_fin v |}.

(** Addresses as bytes in network order, with the port as it lies in memory. *)
Inductive sockaddr :=
  | sockaddr_in (sin_addr : list Z) (sin_port : Z)
  | sockaddr_in6 (sin6_addr : list Z) (sin6_port : Z)
  | sockaddr_other (sa_family : Z).

Class LibEvent := {
  bufferevent : Type;
  bev : bufferevent -> bev_view;
  bufferevent_socket_new : bufferevent;
  bufferevent_write : list Z -> bufferevent -> option bufferevent;
  bufferevent_read : nat -> bufferevent -> list Z * bufferevent;
  bufferevent_enable : bool -> bool -> bufferevent -> bufferevent;   (* EV_READ, EV_WRITE *)
  bufferevent_disable : bool -> bool -> bufferevent -> bufferevent;
  shutdown_send : bufferevent -> bufferevent;                       (* shutdown(fd, SD_SEND) *)
  socket_takes : nat -> bufferevent -> bufferevent;
  socket_brings : list Z -> bufferevent -> bufferevent;
  evutil_inet_ntop : list Z -> AString;
  evutil_parse_sockaddr_port : AString -> option sockaddr;
  evutil_socket_error_to_string : Z -> AString;
}.

(** What the documentation of bufferevents says: writing appends to the output or fails and
    does nothing; reading takes at most what is asked for and nothing only if there is nothing;
    the socket takes from the front of the output while writing is enabled. *)
Class LibEventLaws (L : LibEvent) := {
  new_view : bev bufferevent_socket_new =
    {| v_output := []; v_input := []; v_given := []; v_read := false; v_write := false; v_fin := false |};
  write_view d b b' : bufferevent_write d b = Some b' -> bev b' = (bev b) <| v_output ::= fun o => o ++ d |>;
  read_data n b : fst (bufferevent_read n b) = take n (v_input (bev b));
  read_view n b : bev (snd (bufferevent_read n b)) = (bev b) <| v_input ::= drop n |>;
  enable_view r w b : bev (bufferevent_enable r w b) = (bev b) <| v_read ::= orb r |> <| v_write ::= orb w |>;
  disable_view r w b : bev (bufferevent_disable r w b) = (bev b) <| v_read ::= andb (negb r) |> <| v_write ::= andb (negb w) |>;
  shutdown_view b : bev (shutdown_send b) = (bev b) <| v_fin := true |>;
  takes_view n b : bev (socket_takes n b) =
    if v_write (bev b) then
      (bev b) <| v_given ::= fun g => g ++ take n (v_output (bev b)) |> <| v_output ::= drop n |>
    else bev b;
  brings_view d b : bev (socket_brings d b) = if v_read (bev b) then (bev b) <| v_input ::= fun i => i ++ d |> else bev b;
}.

Definition BEV_EVENT_EOF := 0x10.
Definition BEV_EVENT_ERROR := 0x20.
Definition BEV_EVENT_CONNECTED := 0x80.
Definition has_flag (a_What flag : Z) : bool := negb (Z.land a_What flag =? 0).

Section TcpLinks.
Context {L : LibEvent}.

(** ** The objects *)

(** [m_Server] is the address of the server, [m_Self] whether the link holds itself. *)
Record cTCPLinkImpl := {
  m_ConnectCallbacks : bool;
  m_BufferEvent : bufferevent;
  m_Server : option nat;
  m_LocalIP : AString;
  m_LocalPort : Z;
  m_RemoteIP : AString;
  m_RemotePort : Z;
  m_Self : bool;
  m_ShouldShutdown : bool;
}.

#[global] Instance eta_cTCPLinkImpl : Eta cTCPLinkImpl := fun l =>
  {| m_ConnectCallbacks := m_ConnectCallbacks l; m_BufferEvent := m_BufferEvent l; m_Server := m_Server l;
     m_LocalIP := m_LocalIP l; m_LocalPort := m_LocalPort l; m_RemoteIP := m_RemoteIP l;
     m_RemotePort := m_RemotePort l; m_Self := m_Self l; m_ShouldShutdown := m_ShouldShutdown l |}.

(** [m_ConnListener]: there is a listener, and it is enabled.  The second one is never made. *)
Record cServerHandleImpl := {
  m_ConnListener : option bool;
  m_IsListening : bool;
  m_Connections : list nat;
  m_ErrorCode : Z;
  m_ErrorMsg : AString;
  m_SelfPtr : bool;
}.

#[global] Instance eta_cServerHandleImpl : Eta cServerHandleImpl := fun v =>
  {| m_ConnListener := m_ConnListener v; m_IsListening := m_IsListening v; m_Connections := m_Connections v;
     m_ErrorCode := m_ErrorCode v; m_ErrorMsg := m_ErrorMsg v; m_SelfPtr := m_SelfPtr v |}.

(** All objects, the lists of the cNetworkSingleton, and who else holds objects: [users] are
    the links the callbacks of the link hold, [handles] the servers the program holds. *)
Record network := {
  links : gmap nat cTCPLinkImpl;
  servers : gmap nat cServerHandleImpl;
  outgoing_links : list nat;           (* cNetworkSingleton::m_Connections *)
  m_Servers : list nat;
  m_HasTerminated : bool;
  users : gset nat;
  handles : gset nat;
  next_object : nat;
}.

#[global] Instance eta_network : Eta network := fun s =>
  {| links := links s; servers := servers s; outgoing_links := outgoing_links s; m_Servers := m_Servers s;
     m_HasTerminated := m_HasTerminated s; users := users s; handles := handles s; next_object := next_object s |}.

Definition no_network : network :=
  {| links := ∅; servers := ∅; outgoing_links := []; m_Servers := []; m_HasTerminated := false;
     users := ∅; handles := ∅; next_object := 0 |}.

(** What is told to the callbacks, and what [Send] returned. *)
Inductive net_out :=
  | To_Link (i : nat) (cb : link_callback)
  | Sent (i : nat) (a_Data : list Z) (ok : bool)
  | Connecting (i : nat) (a : sockaddr + AString * Z)
  | OnConnected (i : nat)
  | OnConnectError (i : nat) (err : Z)
  | OnIncomingConnection (k : nat) (a_RemoteIPAddress : AString) (a_RemotePort : Z)
  | OnAccepted (k i : nat)
  | OnListenError (a_ErrorCode : Z) (a_ErrorMsg : AString).

Definition NetAction : Type := network -> option (network * list net_out).

Definition on_link (i : nat) (f : cTCPLinkImpl -> cTCPLinkImpl) (s : network) : network := s <| links ::= alter f i |>.

(** The callbacks of a link hold it from OnLinkCreated until they are told of its end, as
    Network.h asks and [ClientHandle.OnRemoteClosed] does. *)
Definition tell_link (i : nat) (cb : link_callback) (s : network) : network :=
  match cb with
  | link_created => s <| users ::= union {[i]} |>
  | link_data _ => s
  | link_closed | link_error => s <| users ::= fun u => u ∖ {[i]} |>
  end.

(** Erasing the first entry from a vector of shared pointers. *)
Fixpoint erase_first (i : nat) (l : list nat) : list nat :=
  match l with
  | [] => []
  | j :: l => if decide (j = i) then l else j :: erase_first i l
  end.

(** ** cNetworkSingleton *)

Definition AddLink (i : nat) (s : network) : option network :=
  if m_HasTerminated s then None else Some (s <| outgoing_links ::= fun l => l ++ [i] |>).
Definition Singleton_RemoveLink (i : nat) (s : network) : option network :=
  if m_HasTerminated s then None else Some (s <| outgoing_links ::= erase_first i |>).
Definition AddServer (k : nat) (s : network) : option network :=
  if m_HasTerminated s then None else Some (s <| m_Servers ::= fun l => l ++ [k] |>).
Definition RemoveServer (k : nat) (s : network) : option network :=
  if m_HasTerminated s then None else Some (s <| m_Servers ::= erase_first k |>).

Definition Terminate : NetAction := fun s =>
  if m_HasTerminated s then None
  else Some (s <| outgoing_links := [] |> <| m_Servers := [] |> <| m_HasTerminated := true |>, []).

(** ** cServerHandleImpl *)

Definition Server_RemoveLink (k i : nat) (s : network) : network :=
  s <| servers ::= alter (fun v => v <| m_Connections ::= erase_first i |>) k |>.

(** The end of a link's registration with whoever made it. *)
Definition forget_link (i : nat) (l : cTCPLinkImpl) (s : network) : option network :=
  match m_Server l with
  | None => Singleton_RemoveLink i s
  | Some k => Some (Server_RemoveLink k i s)
  end.

(** ** cTCPLinkImpl *)

Definition cTCPLinkImpl_ctor (a_Server : option nat) : cTCPLinkImpl :=
  {| m_ConnectCallbacks := false; m_BufferEvent := bufferevent_socket_new; m_Server := a_Server;
     m_LocalIP := []; m_LocalPort := 0; m_RemoteIP := []; m_RemotePort := 0;
     m_Self := false; m_ShouldShutdown := false |}.

Definition UpdateAddress (a_Address : sockaddr) : option (AString * Z) :=
  match a_Address with
  | sockaddr_in addr port | sockaddr_in6 addr port => Some (evutil_inet_ntop addr, ntohs port)
  | sockaddr_other _ => None
  end.

Definition UpdateLocalAddress (sockname : sockaddr) (l : cTCPLinkImpl) : option cTCPLinkImpl :=
  '(ip, port) ← UpdateAddress sockname; Some (l <| m_LocalIP := ip |> <| m_LocalPort := port |>).
Definition UpdateRemoteAddress (peername : sockaddr) (l : cTCPLinkImpl) : option cTCPLinkImpl :=
  '(ip, port) ← UpdateAddress peername; Some (l <| m_RemoteIP := ip |> <| m_RemotePort := port |>).

Definition Enable (l : cTCPLinkImpl) : cTCPLinkImpl :=
  l <| m_Self := true |> <| m_BufferEvent ::= bufferevent_enable true true |>.

Definition DoActualShutdown (l : cTCPLinkImpl) : cTCPLinkImpl :=
  l <| m_BufferEvent ::= fun b => bufferevent_disable false true (shutdown_send b) |>.

Definition output_empty (l : cTCPLinkImpl) : bool := (length (v_output (bev (m_BufferEvent l))) =? 0)%nat.

Definition link_Shutdown (l : cTCPLinkImpl) : cTCPLinkImpl :=
  if output_empty l then DoActualShutdown l else l <| m_ShouldShutdown := true |>.

Definition WriteCallback (l : cTCPLinkImpl) : cTCPLinkImpl :=
  if output_empty l && m_ShouldShutdown l then DoActualShutdown l else l.

Definition link_Send (a_Data : list Z) (l : cTCPLinkImpl) : cTCPLinkImpl * bool :=
  if m_ShouldShutdown l then (l, false) else
  match bufferevent_write a_Data (m_BufferEvent l) with
  | Some b => (l <| m_BufferEvent := b |>, true)
  | None => (l, false)
  end.

Definition Send (i : nat) (a_Data : list Z) : NetAction := fun s =>
  l ← links s !! i;
  let '(l, ok) := link_Send a_Data l in
  Some (s <| links ::= <[i := l]> |>, [Sent i a_Data ok]).

Definition Shutdown (i : nat) : NetAction := fun s =>
  l ← links s !! i; Some (s <| links ::= <[i := link_Shutdown l]> |>, []).

Definition Close (i : nat) : NetAction := fun s =>
  l ← links s !! i;
  let s := on_link i (fun l => l <| m_BufferEvent ::= bufferevent_disable true true |>) s in
  s ← forget_link i l s;
  Some (on_link i (fun l => l <| m_Self := false |>) s, []).

(** One round of the loop of [ReadCallback]: at most 1024 bytes are handed over. *)
Definition read_chunk (l : cTCPLinkImpl) : option (list Z * cTCPLinkImpl) :=
  let '(data, b) := bufferevent_read 1024 (m_BufferEvent l) in
  match data with [] => None | _ => Some (data, l <| m_BufferEvent := b |>) end.

Fixpoint ReadCallback (fuel : nat) (l : cTCPLinkImpl) : option (list (list Z) * cTCPLinkImpl) :=
  match fuel with
  | O => None
  | S fuel =>
    match read_chunk l with
    | None => Some ([], l)
    | Some (data, l) => '(chunks, l) ← ReadCallback fuel l; Some (data :: chunks, l)
    end
  end.

(** [err] is the socket's error, [dns_error] the one of the name's resolution. *)
Definition EventCallback (i : nat) (a_What err dns_error : Z) (sockname peername : sockaddr) : NetAction := fun s =>
  l ← links s !! i;
  if negb (m_Self l) then None else
  if has_flag a_What BEV_EVENT_ERROR then
    if m_ConnectCallbacks l then
      let err := if err =? 0 then dns_error else err in
      Some (on_link i (fun l => l <| m_Self := false |>) s, [OnConnectError i err])
    else
      s ← forget_link i l (tell_link i link_error s);
      Some (on_link i (fun l => l <| m_Self := false |>) s, [To_Link i link_error])
  else
    l ← (if has_flag a_What BEV_EVENT_CONNECTED then
           l ← UpdateLocalAddress sockname l; UpdateRemoteAddress peername l
         else Some l);
    let s := s <| links ::= <[i := l]> |> in
    if has_flag a_What BEV_EVENT_CONNECTED && m_ConnectCallbacks l then
      Some (on_link i (fun l => l <| m_ConnectCallbacks := false |>) s, [OnConnected i])
    else if has_flag a_What BEV_EVENT_EOF then
      s ← forget_link i l (tell_link i link_closed s);
      Some (on_link i (fun l => l <| m_Self := false |>) s, [To_Link i link_closed])
    else None.

(** [queued]: the result of bufferevent_socket_connect or of its namesake for names. *)
Definition Connect (a_Host : AString) (a_Port : Z) (queued : bool) : NetAction := fun s =>
  let i := next_object s in
  let l := (cTCPLinkImpl_ctor None) <| m_ConnectCallbacks := true |> in
  let s := s <| next_object ::= S |> <| links ::= <[i := l]> |> in
  s ← AddLink i s;
  let s := on_link i Enable (tell_link i link_created s) in
  let request :=
    match evutil_parse_sockaddr_port a_Host with
    | Some (sockaddr_in addr _) => inl (sockaddr_in addr (htons a_Port))
    | Some (sockaddr_in6 addr _) => inl (sockaddr_in6 addr (htons a_Port))
    | Some other => inl other
    | None => inr (a_Host, a_Port)
    end in
  s ← (if queued then Some s else Singleton_RemoveLink i s);
  Some (s, [To_Link i link_created; Connecting i request]).

(** ** Servers *)

Definition cServerHandleImpl_ctor : cServerHandleImpl :=
  {| m_ConnListener := None; m_IsListening := false; m_Connections := [];
     m_ErrorCode := 0; m_ErrorMsg := []; m_SelfPtr := false |}.

(** The error of each call of [Listen] that fails. *)
Record listen_errors := {
  e_socket : option Z;
  e_reuseable : option Z;
  e_bind : option Z;
  e_nonblocking : option Z;
  e_listen : option Z;
}.

Definition port_text (before : string) (a_Port : Z) (between : string) : AString :=
  chars before ++ Printf_d a_Port ++ chars between.

Definition server_Listen (a_Port : Z) (e : listen_errors) (v : cServerHandleImpl) : bool * cServerHandleImpl :=
  let failed err msg v := v <| m_ErrorCode := err |> <| m_ErrorMsg := msg |> in
  match e_socket e with
  | Some err =>
    (false, failed err (port_text "Cannot create socket for port " a_Port ": " ++ evutil_socket_error_to_string err) v)
  | None =>
    let v := match e_reuseable e with
      | Some err =>
        failed err (port_text "Port " a_Port " cannot be made reusable: " ++ Printf_d err ++ chars " (" ++
                    evutil_socket_error_to_string err ++ chars "). Restarting the server might not work.") v
      | None => v
      end in
    match e_bind e, e_nonblocking e, e_listen e with
    | Some err, _, _ =>
      (false, failed err (port_text "Cannot bind IPv4 socket to port " a_Port ": " ++ evutil_socket_error_to_string err) v)
    | None, Some err, _ =>
      (false, failed err (port_text "Cannot make socket on port " a_Port " non-blocking: " ++ Printf_d err ++ chars " (" ++
                          evutil_socket_error_to_string err ++ chars ")") v)
    | None, None, Some err =>
      (false, failed err (port_text "Cannot listen on port " a_Port ": " ++ Printf_d err ++ chars " (" ++
                          evutil_socket_error_to_string err ++ chars ")") v)
    | None, None, None => (true, v <| m_ConnListener := Some true |> <| m_IsListening := true |>)
    end
  end.

Definition Listen (a_Port : Z) (e : listen_errors) : NetAction := fun s =>
  let k := next_object s in
  let '(ok, v) := server_Listen a_Port e (cServerHandleImpl_ctor <| m_SelfPtr := true |>) in
  let s := s <| next_object ::= S |> <| handles ::= union {[k]} |> in
  if ok then
    s ← AddServer k (s <| servers ::= <[k := v]> |>);
    Some (s, [])
  else
    Some (s <| servers ::= <[k := v <| m_SelfPtr := false |>]> |>, [OnListenError (m_ErrorCode v) (m_ErrorMsg v)]).

(** A connection comes in.  [wanted]: the callbacks of the listener returned callbacks for it. *)
Definition Callback (k : nat) (a_Addr sockname : sockaddr) (wanted : bool) : NetAction := fun s =>
  v ← servers s !! k;
  if negb (m_SelfPtr v) then None else
  '(ip, port) ← UpdateAddress a_Addr;
  if negb wanted then Some (s, [OnIncomingConnection k ip port]) else
  let i := next_object s in
  l ← UpdateLocalAddress sockname (cTCPLinkImpl_ctor (Some k));
  l ← UpdateRemoteAddress a_Addr l;
  let s := s <| next_object ::= S |> <| links ::= <[i := l]> |> in
  let s := s <| servers ::= alter (fun v => v <| m_Connections ::= fun c => c ++ [i] |>) k |> in
  let s := on_link i Enable (tell_link i link_created s) in
  Some (s, [OnIncomingConnection k ip port; To_Link i link_created; OnAccepted k i]).

Definition Server_Close (k : nat) : NetAction := fun s =>
  v ← servers s !! k;
  match m_ConnListener v with
  | None => None
  | Some _ =>
    let Conns := m_Connections v in
    let v := v <| m_ConnListener := Some false |> <| m_IsListening := false |> <| m_Connections := [] |> in
    let s := s <| servers ::= <[k := v <| m_SelfPtr := false |>]> |> in
    let s := s <| links ::= fun m => foldl (fun m i => alter link_Shutdown i m) m Conns |> in
    s ← RemoveServer k s;
    Some (s, [])
  end.

(** ** Owners *)

Definition link_owned (s : network) (i : nat) (l : cTCPLinkImpl) : bool :=
  m_Self l || bool_decide (i ∈ users s) || bool_decide (i ∈ outgoing_links s) ||
  existsb (fun '(_, v) => bool_decide (i ∈ m_Connections v)) (map_to_list (servers s)).

Definition server_owned (s : network) (k : nat) (v : cServerHandleImpl) : bool :=
  m_SelfPtr v || bool_decide (k ∈ m_Servers s) || bool_decide (k ∈ handles s) ||
  existsb (fun '(_, l) => bool_decide (m_Server l = Some k)) (map_to_list (links s)).

(** Objects that nothing points to are destroyed: links first, which point to servers.  The
    destructor frees the bufferevent or the listener, and no event comes any more. *)
Definition release (s : network) : network :=
  let s := s <| links ::= map_imap (fun i l => if link_owned s i l then Some l else None) |> in
  s <| servers ::= map_imap (fun k v => if server_owned s k v then Some v else None) |>.

(** ** What can happen *)

(** What the users of the links, libevent and the network do.  [Brings] and [Takes] are the
    socket's transfers; libevent calls [ReadCallback] after the first, whose rounds are the
    actions [Chunk], and [WriteCallback] after the second. *)
Inductive net_action :=
  | Do_Send (i : nat) (a_Data : list Z)
  | Do_Shutdown (i : nat)
  | Do_Close (i : nat)
  | Drop (i : nat)
  | Drop_Server (k : nat)
  | Brings (i : nat) (a_Data : list Z)
  | Chunk (i : nat)
  | Takes (i n : nat)
  | Event (i : nat) (a_What err dns_error : Z) (sockname peername : sockaddr)
  | Do_Connect (a_Host : AString) (a_Port : Z) (queued : bool)
  | Do_Listen (a_Port : Z) (e : listen_errors)
  | Incoming (k : nat) (a_Addr sockname : sockaddr) (wanted : bool)
  | Do_Server_Close (k : nat)
  | Do_Terminate.

Definition do_action (a : net_action) : NetAction :=
  match a with
  | Do_Send i a_Data => Send i a_Data
  | Do_Shutdown i => Shutdown i
  | Do_Close i => Close i
  | Drop i => fun s => Some (s <| users ::= fun u => u ∖ {[i]} |>, [])
  | Drop_Server k => fun s => Some (s <| handles ::= fun h => h ∖ {[k]} |>, [])
  | Brings i a_Data => fun s =>
    l ← links s !! i; Some (s <| links ::= <[i := l <| m_BufferEvent ::= socket_brings a_Data |>]> |>, [])
  | Chunk i => fun s =>
    l ← links s !! i;
    match read_chunk l with
    | None => Some (s, [])
    | Some (data, l) => Some (s <| links ::= <[i := l]> |>, [To_Link i (link_data data)])
    end
  | Takes i n => fun s =>
    l ← links s !! i; Some (s <| links ::= <[i := WriteCallback (l <| m_BufferEvent ::= socket_takes n |>)]> |>, [])
  | Event i a_What err dns_error sockname peername => EventCallback i a_What err dns_error sockname peername
  | Do_Connect a_Host a_Port queued => Connect a_Host a_Port queued
  | Do_Listen a_Port e => Listen a_Port e
  | Incoming k a_Addr sockname wanted => Callback k a_Addr sockname wanted
  | Do_Server_Close k => Server_Close k
  | Do_Terminate => Terminate
  end.

Definition net_step (a : net_action) : NetAction := fun s => '(s, o) ← do_action a s; Some (release s, o).

Fixpoint net_run (acts : list net_action) : NetAction := fun s =>
  match acts with
  | [] => Some (s, [])
  | a :: acts => '(s, o) ← net_step a s; '(s, o') ← net_run acts s; Some (s, o ++ o')
  end.

(** ** What a run shows *)

Definition told_link (i : nat) (o : net_out) : option link_callback :=
  match o with To_Link j cb => if decide (i = j) then Some cb else None | _ => None end.
Definition told (i : nat) (o : list net_out) : list link_callback := omap (told_link i) o.

(** The order Network.h describes: created, then data, then the end. *)
Inductive phase := Unborn | Live | Over.

Definition next_phase (p : phase) (cb : link_callback) : option phase :=
  match p, cb with
  | Unborn, link_created => Some Live
  | Live, link_data _ => Some Live
  | Live, link_closed | Live, link_error => Some Over
  | _, _ => None
  end.

Definition phase_after (cbs : list link_callback) (p : phase) : option phase :=
  foldl (fun p cb => p ≫= fun p => next_phase p cb) (Some p) cbs.

Definition view (l : cTCPLinkImpl) : bev_view := bev (m_BufferEvent l).

(** The bytes [Send] accepted. *)
Definition accepted_by (i : nat) (o : net_out) : list Z :=
  match o with Sent j a_Data true => if decide (i = j) then a_Data else [] | _ => [] end.
Definition accepted (i : nat) (o : list net_out) : list Z := concat (map (accepted_by i) o).
End TcpLinks.

(** ** An instance *)

(** Bufferevents that are their view, never fail to write, and print addresses as they are. *)
Definition plain_libevent : LibEvent := {|
  bufferevent := bev_view;
  bev := fun v => v;
  bufferevent_socket_new := {| v_output := []; v_input := []; v_given := []; v_read := false; v_write := false; v_fin := false |};
  bufferevent_write := fun d b => Some (b <| v_output ::= fun o => o ++ d |>);
  bufferevent_read := fun n b => (take n (v_input b), b <| v_input ::= drop n |>);
  bufferevent_enable := fun r w b => b <| v_read ::= orb r |> <| v_write ::= orb w |>;
  bufferevent_disable := fun r w b => b <| v_read ::= andb (negb r) |> <| v_write ::= andb (negb w) |>;
  shutdown_send := fun b => b <| v_fin := true |>;
  socket_takes := fun n b =>
    if v_write b then b <| v_given ::= fun g => g ++ take n (v_output b) |> <| v_output ::= drop n |> else b;
  socket_brings := fun d b => if v_read b then b <| v_input ::= fun i => i ++ d |> else b;
  evutil_inet_ntop := fun a => a;
  evutil_parse_sockaddr_port := fun _ => None;
  evutil_socket_error_to_string := Printf_d;
|}.

Definition no_errors : listen_errors :=
  {| e_socket := None; e_reuseable := None; e_bind := None; e_nonblocking := None; e_listen := None |}.

Definition peer_address : sockaddr := sockaddr_in [127; 0; 0; 1] 80.

