(* ===== verification/TcpFacts.v ===== *)
(** * TcpFacts: the life of a connection

    What holds of the links of [TcpLinks] whatever libevent, the peers and the program do, in
    any order: the registrations of links are in order, their callbacks are told a creation,
    data and one end, bytes leave in the order they were accepted, and a graceful shutdown
    waits for them. *)

From S2P Require Import Prelude Bytes Packetizer ByteBuffer StringUtils Settings Server TcpLinks.

Section TcpFacts.
Context {L : LibEvent}.

(** ** Owners: lemmas *)

Lemma release_link s i :
  links (release s) !! i = links s !! i ≫= fun l => if link_owned s i l then Some l else None.
Proof. unfold release. cbn. apply map_lookup_imap. Qed.

Lemma release_server_sub s k v : servers (release s) !! k = Some v -> servers s !! k = Some v.
Proof.
  unfold release. cbn. rewrite map_lookup_imap. destruct (servers s !! k) as [v'|]; cbn; [|discriminate].
  destruct (server_owned _ _ _); congruence.
Qed.

Lemma release_link_sub s i l : links (release s) !! i = Some l -> links s !! i = Some l.
Proof. rewrite release_link. destruct (links s !! i) as [l'|]; cbn; [|discriminate]. destruct (link_owned _ _ _); congruence. Qed.

Lemma link_owned_spec s i l :
  link_owned s i l = true <->
  m_Self l = true \/ i ∈ users s \/ i ∈ outgoing_links s \/ exists k v, servers s !! k = Some v /\ i ∈ m_Connections v.
Proof.
  unfold link_owned. rewrite !orb_true_iff, !bool_decide_eq_true, existsb_exists. split.
  - intros [[[?|?]|?]|[[k v] [Hin Hv]]]; auto. do 3 right. exists k, v.
    rewrite bool_decide_eq_true in Hv. split; [apply elem_of_map_to_list, list_elem_of_In, Hin | exact Hv].
  - intros [?|[?|[?|(k & v & Hk & Hv)]]]; auto. right. exists (k, v). split.
    + apply list_elem_of_In, elem_of_map_to_list, Hk.
    + apply bool_decide_eq_true. exact Hv.
Qed.

Lemma release_keeps s i l : links s !! i = Some l -> link_owned s i l = true -> links (release s) !! i = Some l.
Proof. intros Hl Ho. rewrite release_link, Hl. cbn. rewrite Ho. reflexivity. Qed.

Lemma elem_of_erase_first i j l : i ∈ erase_first j l -> i ∈ l.
Proof.
  induction l as [|x l IH]; [auto|]. cbn [erase_first]. destruct (decide (x = j)); rewrite ?elem_of_cons; [auto|].
  intros [?|?]; auto.
Qed.

Lemma NoDup_erase_first j l : NoDup l -> NoDup (erase_first j l) /\ j ∉ erase_first j l.
Proof.
  induction 1 as [|x l Hx _ IH]; [split; [constructor | apply not_elem_of_nil]|]. cbn [erase_first].
  destruct IH as [IH1 IH2]. destruct (decide (x = j)) as [->|Hne].
  - split; [|exact Hx]. clear IH2. revert IH1. revert Hx. clear. intros Hx.
    assert (E : erase_first j l = l).
    { induction l as [|y l IH]; [reflexivity|]. apply not_elem_of_cons in Hx as [Hy Hl]. cbn [erase_first].
      destruct (decide (y = j)); [congruence|]. f_equal. apply IH, Hl. }
    rewrite E. auto.
  - split; [constructor; [intros Hin; apply Hx, (elem_of_erase_first _ j), Hin | exact IH1]|].
    rewrite not_elem_of_cons. auto.
Qed.

(** ** The registrations are in order *)

Record wf (s : network) : Prop := {
  wf_out_nodup : NoDup (outgoing_links s);
  wf_out : forall i, i ∈ outgoing_links s -> exists l, links s !! i = Some l /\ m_Server l = None;
  wf_conn_nodup : forall k v, servers s !! k = Some v -> NoDup (m_Connections v);
  wf_conn : forall k v i, servers s !! k = Some v -> i ∈ m_Connections v ->
    exists l, links s !! i = Some l /\ m_Server l = Some k;
  wf_users : forall i, i ∈ users s -> is_Some (links s !! i);
  wf_links_fresh : forall i, (next_object s <= i)%nat -> links s !! i = None;
  wf_servers_fresh : forall k, (next_object s <= k)%nat -> servers s !! k = None;
}.

Lemma wf_release s : wf s -> wf (release s).
Proof.
  intros [H1 H2 H3 H4 H5 H6 H7]. constructor.
  - exact H1.
  - intros i Hi. destruct (H2 i Hi) as (l & Hl & Hs). exists l. split; [|exact Hs].
    apply release_keeps; [exact Hl|]. apply link_owned_spec. auto.
  - intros k v Hk. apply (H3 k v), release_server_sub, Hk.
  - intros k v i Hk Hi. apply release_server_sub in Hk. destruct (H4 k v i Hk Hi) as (l & Hl & Hs). exists l.
    split; [|exact Hs]. apply release_keeps; [exact Hl|]. apply link_owned_spec. eauto 8.
  - intros i Hi. destruct (H5 i Hi) as [l Hl]. exists l. apply release_keeps; [exact Hl|]. apply link_owned_spec. auto.
  - intros i Hi. rewrite release_link, (H6 i Hi). reflexivity.
  - intros k Hk. destruct (servers (release s) !! k) as [v|] eqn:E; [|reflexivity].
    apply release_server_sub in E. rewrite (H7 k Hk) in E. discriminate.
Qed.

(** Changing a link but not whose it is. *)
Lemma wf_set_links s m :
  wf s -> (forall i l, links s !! i = Some l -> exists l', m !! i = Some l' /\ m_Server l' = m_Server l) ->
  (forall i, links s !! i = None -> m !! i = None) -> wf (s <| links := m |>).
Proof.
  intros [H1 H2 H3 H4 H5 H6 H7] Hm Hn. constructor; cbn; auto.
  - intros i Hi. destruct (H2 i Hi) as (l & Hl & Hs). destruct (Hm i l Hl) as (l' & Hl' & E). exists l'. rewrite E. auto.
  - intros k v i Hk Hi. destruct (H4 k v i Hk Hi) as (l & Hl & Hs). destruct (Hm i l Hl) as (l' & Hl' & E). exists l'. rewrite E. auto.
  - intros i Hi. destruct (H5 i Hi) as [l Hl]. destruct (Hm i l Hl) as (l' & Hl' & _). eauto.
Qed.

Lemma wf_insert s i l l' : wf s -> links s !! i = Some l -> m_Server l' = m_Server l -> wf (s <| links ::= <[i := l']> |>).
Proof.
  intros Hwf Hl Hs. apply (wf_set_links s (<[i := l']> (links s))); [exact Hwf| |].
  - intros j lj Hj. destruct (decide (i = j)) as [<-|Hne].
    + exists l'. rewrite lookup_insert_eq. split; congruence.
    + exists lj. rewrite lookup_insert_ne by exact Hne. auto.
  - intros j Hj. rewrite lookup_insert_ne; [exact Hj | congruence].
Qed.

Lemma wf_on_link s i f : wf s -> (forall l, m_Server (f l) = m_Server l) -> wf (on_link i f s).
Proof.
  intros Hwf Hf. apply (wf_set_links s (alter f i (links s))); [exact Hwf| |].
  - intros j lj Hj. destruct (decide (i = j)) as [<-|Hne].
    + exists (f lj). rewrite lookup_alter_eq, Hj. auto.
    + exists lj. rewrite lookup_alter_ne by exact Hne. auto.
  - intros j Hj. destruct (decide (i = j)) as [<-|Hne]; [rewrite lookup_alter_eq, Hj; reflexivity|].
    rewrite lookup_alter_ne by exact Hne. exact Hj.
Qed.

Lemma wf_users_sub s u : wf s -> (forall i, i ∈ u -> is_Some (links s !! i)) -> wf (s <| users := u |>).
Proof. intros [H1 H2 H3 H4 H5 H6 H7] Hu. constructor; cbn; auto. Qed.

(** The last registration of a link is the one [forget_link] ends. *)
Lemma forget_link_facts s i l s' :
  wf s -> links s !! i = Some l -> forget_link i l s = Some s' ->
  wf s' /\ links s' = links s /\ users s' = users s /\ next_object s' = next_object s /\
  i ∉ outgoing_links s' /\ (forall k v, servers s' !! k = Some v -> i ∉ m_Connections v).
Proof.
  intros Hwf Hl. pose proof Hwf as [H1 H2 H3 H4 H5 H6 H7]. unfold forget_link.
  destruct (m_Server l) as [k|] eqn:Hk.
  - intros E. injection E as <-. unfold Server_RemoveLink.
    assert (Hlook : forall k' v', alter (fun v => v <| m_Connections ::= erase_first i |>) k (servers s) !! k' = Some v' ->
              exists v, servers s !! k' = Some v /\ m_Connections v' = (if decide (k = k') then erase_first i (m_Connections v) else m_Connections v)).
    { intros k' v'. destruct (decide (k = k')) as [<-|Hne].
      - rewrite lookup_alter_eq. destruct (servers s !! k) as [v|]; cbn; [|discriminate]. intros E. injection E as <-. eauto.
      - rewrite lookup_alter_ne by exact Hne. eauto. }
    split; [constructor; cbn; auto|cbn; do 3 (split; [reflexivity|]); split].
    + intros k' v' Hv. destruct (Hlook k' v' Hv) as (v & Hv' & ->). destruct (decide (k = k')); [apply NoDup_erase_first|]; eauto.
    + intros k' v' j Hv Hj. destruct (Hlook k' v' Hv) as (v & Hv' & E). rewrite E in Hj.
      apply (H4 k' v j Hv'). destruct (decide (k = k')); [apply (elem_of_erase_first _ i), Hj | exact Hj].
    + intros k' Hk'. rewrite lookup_alter_None. auto.
    + intros Hi. destruct (H2 i Hi) as (l' & Hl' & Hs). congruence.
    + intros k' v' Hv. destruct (Hlook k' v' Hv) as (v & Hv' & ->). destruct (decide (k = k')) as [<-|Hne].
      * apply NoDup_erase_first. eauto.
      * intros Hi. destruct (H4 k' v i Hv' Hi) as (l' & Hl' & Hs). congruence.
  - unfold Singleton_RemoveLink. destruct (m_HasTerminated s); [discriminate|]. intros E. injection E as <-.
    destruct (NoDup_erase_first i (outgoing_links s) H1) as [Hn Hi].
    split; [constructor; cbn; auto|cbn; do 3 (split; [reflexivity|]); split].
    + intros j Hj. apply H2, (elem_of_erase_first _ i), Hj.
    + exact Hi.
    + intros k v Hv Hin. destruct (H4 k v i Hv Hin) as (l' & Hl' & Hs). congruence.
Qed.

(** A link that was closed by its peer or failed is destroyed when the event is over. *)
Lemma ended_link_destroyed s i l s' cb :
  wf s -> links s !! i = Some l -> cb = link_closed \/ cb = link_error ->
  forget_link i l (tell_link i cb s) = Some s' ->
  let s1 := on_link i (fun l => l <| m_Self := false |>) s' in
  wf s1 /\ links (release s1) !! i = None /\ next_object s1 = next_object s /\
  (forall j, j <> i -> links s1 !! j = links s !! j).
Proof.
  intros Hwf Hl Hcb Hf s1.
  assert (Ht : wf (tell_link i cb s) /\ links (tell_link i cb s) = links s /\ i ∉ users (tell_link i cb s) /\
               next_object (tell_link i cb s) = next_object s).
  { assert (E : tell_link i cb s = s <| users := users s ∖ {[i]} |>) by (destruct Hcb as [-> | ->]; reflexivity).
    rewrite E. split; [apply wf_users_sub; [exact Hwf|]; intros j Hj; apply (wf_users _ Hwf); set_solver|]. cbn. set_solver. }
  destruct Ht as (Hw & Hl1 & Hu & Hn). rewrite <- Hl1 in Hl.
  destruct (forget_link_facts _ _ _ _ Hw Hl Hf) as (Hw' & Hl' & Hu' & Hn' & Ho & Hc).
  split; [apply wf_on_link; [exact Hw' | reflexivity]|]. split; [|split].
  - rewrite release_link. unfold s1, on_link. cbn. rewrite lookup_alter_eq, Hl', Hl. cbn.
    destruct (link_owned _ _ _) eqn:E; [|reflexivity]. exfalso. apply link_owned_spec in E. cbn in E.
    rewrite Hu' in E. destruct E as [E|[E|[E|(k & v & Hk & Hv)]]]; [discriminate | auto | auto | apply (Hc k v Hk Hv)].
  - unfold s1. cbn. congruence.
  - intros j Hj. unfold s1, on_link. cbn. rewrite lookup_alter_ne by congruence. congruence.
Qed.

(** ** What a link's callbacks are told *)

(** What an action may tell a link, by what becomes of the link. *)
Inductive told_step (s s' : network) (i : nat) : list link_callback -> Prop :=
  | told_nothing : (is_Some (links s' !! i) -> is_Some (links s !! i)) ->
      told_step s s' i []
  | told_created : (next_object s <= i < next_object s')%nat -> told_step s s' i [link_created]
  | told_data d : is_Some (links s !! i) -> told_step s s' i [link_data d]
  | told_end cb : cb = link_closed \/ cb = link_error -> is_Some (links s !! i) -> links (release s') !! i = None ->
      told_step s s' i [cb].

(** Actions that change a link in place. *)
Lemma insert_step s i l l' o :
  wf s -> links s !! i = Some l -> m_Server l' = m_Server l ->
  (forall j, told j o = [] \/ exists d, j = i /\ told j o = [link_data d]) ->
  let s' := s <| links ::= <[i := l']> |> in
  wf s' /\ (next_object s <= next_object s')%nat /\ forall j, told_step s s' j (told j o).
Proof.
  intros Hwf Hl Hs Ho s'. split; [apply (wf_insert s i l l' Hwf Hl Hs)|]. split; [reflexivity|]. intros j.
  destruct (Ho j) as [E | (d & -> & E)]; rewrite E.
  - apply told_nothing. unfold s'. cbn. rewrite lookup_insert_is_Some. intros [<-|[_ ?]]; eauto.
  - apply told_data. eauto.
Qed.

Lemma told_nil i : told i [] = [].
Proof. reflexivity. Qed.

Lemma told_one i j cb : told i [To_Link j cb] = if decide (i = j) then [cb] else [].
Proof. unfold told. cbn. destruct (decide (i = j)); reflexivity. Qed.

Lemma WriteCallback_server l : m_Server (WriteCallback l) = m_Server l.
Proof. unfold WriteCallback. destruct (_ && _); reflexivity. Qed.
Lemma link_Shutdown_server l : m_Server (link_Shutdown l) = m_Server l.
Proof. unfold link_Shutdown. destruct (output_empty l); reflexivity. Qed.
Lemma link_Send_server d l : m_Server (link_Send d l).1 = m_Server l.
Proof. unfold link_Send. destruct (m_ShouldShutdown l); [reflexivity|]. destruct (bufferevent_write _ _); reflexivity. Qed.
Lemma read_chunk_server l d l' : read_chunk l = Some (d, l') -> m_Server l' = m_Server l.
Proof. unfold read_chunk. destruct (bufferevent_read _ _) as [[|x xs] b]; [discriminate|]. intros E. injection E as _ <-. reflexivity. Qed.

Definition action_ok (s s' : network) (o : list net_out) : Prop :=
  wf s' /\ (next_object s <= next_object s')%nat /\ forall i, told_step s s' i (told i o).


Lemma wf_fresh_link s l :
  wf s -> m_Server l = None ->
  wf (s <| next_object ::= S |> <| links ::= <[next_object s := l]> |> <| outgoing_links ::= fun o => o ++ [next_object s] |>
        <| users ::= union {[next_object s]} |>).
Proof.
  intros [H1 H2 H3 H4 H5 H6 H7] Hl. pose proof (H6 (next_object s) (le_n _)) as Hn.
  assert (Hk : forall i l', links s !! i = Some l' -> <[next_object s := l]> (links s) !! i = Some l').
  { intros i l' Hi. rewrite lookup_insert_ne; [exact Hi | congruence]. }
  constructor; cbn.
  - apply NoDup_app. split; [exact H1|]. split; [|apply NoDup_singleton]. intros i Hi. rewrite list_elem_of_singleton.
    intros ->. destruct (H2 _ Hi) as (l' & E & _). congruence.
  - intros i. rewrite elem_of_app, list_elem_of_singleton. intros [Hi| ->].
    + destruct (H2 i Hi) as (l' & E & Hs). eauto.
    + exists l. rewrite lookup_insert_eq. auto.
  - exact H3.
  - intros k v i Hv Hi. destruct (H4 k v i Hv Hi) as (l' & E & Hs). eauto.
  - intros i. rewrite elem_of_union, elem_of_singleton, lookup_insert_is_Some. intros [->|Hi]; [auto|].
    destruct (decide (next_object s = i)); [auto | right; auto].
  - intros i Hi. rewrite lookup_insert_ne by lia. apply H6. lia.
  - intros k Hk'. apply H7. lia.
Qed.

Lemma wf_accepted_link s k v l :
  wf s -> servers s !! k = Some v -> m_Server l = Some k ->
  wf (s <| next_object ::= S |> <| links ::= <[next_object s := l]> |>
        <| servers ::= alter (fun v => v <| m_Connections ::= fun c => c ++ [next_object s] |>) k |>
        <| users ::= union {[next_object s]} |>).
Proof.
  intros [H1 H2 H3 H4 H5 H6 H7] Hv Hl. pose proof (H6 (next_object s) (le_n _)) as Hn.
  assert (Hk : forall i l', links s !! i = Some l' -> <[next_object s := l]> (links s) !! i = Some l').
  { intros i l' Hi. rewrite lookup_insert_ne; [exact Hi | congruence]. }
  assert (Hlook : forall k' v', alter (fun v => v <| m_Connections ::= fun c => c ++ [next_object s] |>) k (servers s) !! k' = Some v' ->
            exists w, servers s !! k' = Some w /\ m_Connections v' = m_Connections w ++ (if decide (k = k') then [next_object s] else [])).
  { intros k' v'. destruct (decide (k = k')) as [<-|Hne].
    - rewrite lookup_alter_eq, Hv. cbn. intros E. injection E as <-. eauto.
    - rewrite lookup_alter_ne by exact Hne. intros E. exists v'. rewrite app_nil_r. auto. }
  constructor; cbn.
  - exact H1.
  - intros i Hi. destruct (H2 i Hi) as (l' & E & Hs). eauto.
  - intros k' v' Hv'. destruct (Hlook k' v' Hv') as (w & Hw & ->). destruct (decide (k = k')); [|rewrite app_nil_r; eauto].
    apply NoDup_app. split; [eauto|]. split; [|apply NoDup_singleton]. intros i Hi. rewrite list_elem_of_singleton.
    intros ->. destruct (H4 k' w _ Hw Hi) as (l' & E & _). congruence.
  - intros k' v' i Hv' Hi. destruct (Hlook k' v' Hv') as (w & Hw & E). rewrite E, elem_of_app in Hi.
    destruct Hi as [Hi|Hi].
    + destruct (H4 k' w i Hw Hi) as (l' & El & Hs). eauto.
    + destruct (decide (k = k')) as [<-|]; [|apply not_elem_of_nil in Hi; contradiction].
      apply list_elem_of_singleton in Hi as ->. exists l. rewrite lookup_insert_eq. auto.
  - intros i. rewrite elem_of_union, elem_of_singleton, lookup_insert_is_Some. intros [->|Hi]; [auto|].
    destruct (decide (next_object s = i)); [auto | right; auto].
  - intros i Hi. rewrite lookup_insert_ne by lia. apply H6. lia.
  - intros k' Hk'. rewrite lookup_alter_None. apply H7. lia.
Qed.

Lemma Send_ok i d s s' o : wf s -> Send i d s = Some (s', o) -> action_ok s s' o.
Proof.
  intros Hwf. unfold Send. destruct (links s !! i) as [l|] eqn:Hl; cbn; [|discriminate].
  destruct (link_Send d l) as [l' ok] eqn:El. intros E. injection E as <- <-.
  apply (insert_step s i l l'); auto.
  pose proof (link_Send_server d l) as Hs. rewrite El in Hs. exact Hs.
Qed.

Lemma quiet_ok s s' o :
  wf s' -> (next_object s <= next_object s')%nat -> (forall i, told i o = []) ->
  (forall i, is_Some (links s' !! i) -> is_Some (links s !! i)) -> action_ok s s' o.
Proof. intros Hw Hn Ho Hl. split; [exact Hw|]. split; [exact Hn|]. intros i. rewrite Ho. apply told_nothing, Hl. Qed.

Lemma on_link_is_Some j i f s : is_Some (links (on_link i f s) !! j) <-> is_Some (links s !! j).
Proof.
  unfold on_link. cbn. destruct (decide (i = j)) as [<-|Hne]; [rewrite lookup_alter_eq, fmap_is_Some | rewrite lookup_alter_ne by exact Hne]; reflexivity.
Qed.

Lemma Close_ok i s s' o : wf s -> Close i s = Some (s', o) -> action_ok s s' o.
Proof.
  intros Hwf. unfold Close. destruct (links s !! i) as [l|] eqn:Hl; cbn; [|discriminate].
  set (s1 := on_link i _ s). destruct (forget_link i l s1) as [s2|] eqn:Hf; cbn; [|discriminate].
  intros E. injection E as <- <-.
  set (l1 := l <| m_BufferEvent ::= bufferevent_disable true true |>).
  assert (Hw1 : wf s1) by (apply wf_on_link; [exact Hwf | reflexivity]).
  assert (Hl1 : links s1 !! i = Some l1) by (unfold s1, on_link; cbn; rewrite lookup_alter_eq, Hl; reflexivity).
  assert (Hf1 : forget_link i l1 s1 = Some s2) by exact Hf.
  destruct (forget_link_facts _ _ _ _ Hw1 Hl1 Hf1) as (Hw2 & Hl2 & _ & Hn2 & _).
  apply quiet_ok; [apply wf_on_link; [exact Hw2 | reflexivity] | cbn; rewrite Hn2; reflexivity | reflexivity |].
  intros j. rewrite on_link_is_Some, Hl2. unfold s1. rewrite on_link_is_Some. auto.
Qed.
Lemma UpdateLocal_server a l l' : UpdateLocalAddress a l = Some l' -> m_Server l' = m_Server l.
Proof. unfold UpdateLocalAddress. destruct (UpdateAddress a) as [[ip port]|]; cbn; [|discriminate]. intros E. injection E as <-. reflexivity. Qed.
Lemma UpdateRemote_server a l l' : UpdateRemoteAddress a l = Some l' -> m_Server l' = m_Server l.
Proof. unfold UpdateRemoteAddress. destruct (UpdateAddress a) as [[ip port]|]; cbn; [|discriminate]. intros E. injection E as <-. reflexivity. Qed.

Lemma told_step_before s1 s s' i cbs :
  (is_Some (links s1 !! i) -> is_Some (links s !! i)) -> next_object s1 = next_object s ->
  told_step s1 s' i cbs -> told_step s s' i cbs.
Proof. intros Hl Hn [H|H|d H|cb Hcb H Hg]; [apply told_nothing | apply told_created | apply told_data | apply told_end]; rewrite <- ?Hn; auto. Qed.

(** The event that ends a link. *)
Lemma ended_ok s i l s2 s' cb :
  wf s -> links s !! i = Some l -> cb = link_closed \/ cb = link_error ->
  forget_link i l (tell_link i cb s) = Some s2 -> s' = on_link i (fun l => l <| m_Self := false |>) s2 ->
  action_ok s s' [To_Link i cb].
Proof.
  intros Hwf Hl Hcb Hf ->. destruct (ended_link_destroyed s i l s2 cb Hwf Hl Hcb Hf) as (Hw & Hgone & Hn & Hj).
  split; [exact Hw|]. split; [rewrite Hn; reflexivity|]. intros j. rewrite told_one.
  destruct (decide (j = i)) as [->|Hne].
  - apply told_end; [exact Hcb | eauto | exact Hgone].
  - apply told_nothing. rewrite (Hj j Hne). auto.
Qed.

Lemma EventCallback_ok i w e d sn pn s s' o : wf s -> EventCallback i w e d sn pn s = Some (s', o) -> action_ok s s' o.
Proof.
  intros Hwf. unfold EventCallback. destruct (links s !! i) as [l|] eqn:Hl; cbn -[has_flag]; [|discriminate].
  destruct (m_Self l); cbn -[has_flag]; [|discriminate].
  destruct (has_flag w BEV_EVENT_ERROR).
  { destruct (m_ConnectCallbacks l).
    - intros E. injection E as <- <-. apply quiet_ok; [apply wf_on_link; [exact Hwf | reflexivity] | reflexivity | reflexivity |].
      intros j. rewrite on_link_is_Some. auto.
    - destruct (forget_link i l _) as [s2|] eqn:Hf; cbn; [|discriminate]. intros E. injection E as <- <-.
      eapply ended_ok; eauto. }
  assert (Hup : forall l1, (if has_flag w BEV_EVENT_CONNECTED then l ← UpdateLocalAddress sn l; UpdateRemoteAddress pn l else Some l) = Some l1 ->
                  m_Server l1 = m_Server l).
  { intros l1. destruct (has_flag _ _); [|congruence]. destruct (UpdateLocalAddress sn l) as [l2|] eqn:E2; cbn; [|discriminate].
    intros E1. rewrite (UpdateRemote_server _ _ _ E1). apply (UpdateLocal_server _ _ _ E2). }
  destruct (if has_flag w BEV_EVENT_CONNECTED then _ else _) as [l1|]; cbn -[has_flag]; [|discriminate].
  specialize (Hup l1 eq_refl).
  set (s1 := set_member links _ s). assert (Hw1 : wf s1) by apply (wf_insert s i l l1 Hwf Hl Hup).
  assert (Hl1 : links s1 !! i = Some l1) by apply lookup_insert_eq.
  assert (Hold : forall j, is_Some (links s1 !! j) -> is_Some (links s !! j)).
  { intros j. unfold s1. cbn. rewrite lookup_insert_is_Some. intros [<-|[_ ?]]; eauto. }
  destruct (has_flag w BEV_EVENT_CONNECTED && m_ConnectCallbacks l1).
  { intros E. injection E as <- <-. apply quiet_ok; [apply wf_on_link; [exact Hw1 | reflexivity] | reflexivity | reflexivity |].
    intros j. rewrite on_link_is_Some. apply Hold. }
  destruct (has_flag w BEV_EVENT_EOF); [|discriminate].
  destruct (forget_link i l1 _) as [s2|] eqn:Hf; cbn; [|discriminate]. intros E. injection E as <- <-.
  destruct (ended_ok s1 i l1 s2 _ link_closed Hw1 Hl1 (or_introl eq_refl) Hf eq_refl) as (Ha & Hb & Hc).
  split; [exact Ha|]. split; [exact Hb|]. intros j. apply (told_step_before s1); auto.
Qed.

Lemma next_object_new s l : (next_object s <= next_object s < next_object (s <| next_object ::= S |> <| links ::= <[next_object s := l]> |>))%nat.
Proof. cbn. lia. Qed.

(** A new link is told that it was created, and nobody else anything. *)
Lemma created_ok s s' l o :
  wf s' -> next_object s' = S (next_object s) ->
  (forall i, told i o = if decide (i = next_object s) then [link_created] else []) ->
  (forall i, i <> next_object s -> links s' !! i = <[next_object s := l]> (links s) !! i) -> action_ok s s' o.
Proof.
  intros Hw Hn Ho Hl. split; [exact Hw|]. split; [lia|]. intros i. rewrite Ho.
  destruct (decide (i = next_object s)) as [->|Hne]; [apply told_created; lia|]. apply told_nothing.
  rewrite Hl by exact Hne. rewrite lookup_insert_ne by congruence. auto.
Qed.

Lemma Connect_ok h p q s s' o : wf s -> Connect h p q s = Some (s', o) -> action_ok s s' o.
Proof.
  intros Hwf. unfold Connect, AddLink. set (l := set_member m_ConnectCallbacks _ _). cbn -[on_link tell_link].
  destruct (m_HasTerminated s) eqn:Ht; cbn -[on_link tell_link]; [discriminate|].
  set (s0 := _ <| outgoing_links ::= _ |>). set (s1 := on_link _ Enable (tell_link _ _ s0)).
  assert (Hw1 : wf s1) by (apply wf_on_link; [exact (wf_fresh_link s l Hwf eq_refl) | reflexivity]).
  assert (Hl1 : links s1 !! next_object s = Some (Enable l)).
  { unfold s1, on_link. cbn. rewrite lookup_alter_eq, lookup_insert_eq. reflexivity. }
  assert (Hothers : forall i, i <> next_object s -> links s1 !! i = <[next_object s := l]> (links s) !! i).
  { intros i Hi. unfold s1, on_link. cbn. rewrite lookup_alter_ne by congruence. reflexivity. }
  assert (Htold : forall a i, told i [To_Link (next_object s) link_created; Connecting (next_object s) a] =
                    if decide (i = next_object s) then [link_created] else []).
  { intros a i. unfold told. cbn. destruct (decide _); reflexivity. }
  destruct q; cbn -[on_link tell_link].
  - intros E. injection E as <- <-. apply (created_ok s s1 l); auto.
  - unfold Singleton_RemoveLink. destruct (m_HasTerminated s1) eqn:Ht1; cbn -[on_link tell_link]; [discriminate|].
    intros E. injection E as <- <-.
    assert (Hf : forget_link (next_object s) (Enable l) s1 = Some (s1 <| outgoing_links ::= erase_first (next_object s) |>))
      by (unfold forget_link, Singleton_RemoveLink; cbn -[s1]; rewrite Ht1; reflexivity).
    destruct (forget_link_facts _ _ _ _ Hw1 Hl1 Hf) as (Hw2 & Hl2 & _ & Hn2 & _).
    apply (created_ok s _ l); auto.
Qed.

Lemma Callback_ok k a sn w s s' o : wf s -> Callback k a sn w s = Some (s', o) -> action_ok s s' o.
Proof.
  intros Hwf. unfold Callback. destruct (servers s !! k) as [v|] eqn:Hv; cbn -[on_link tell_link]; [|discriminate].
  destruct (m_SelfPtr v); cbn -[on_link tell_link]; [|discriminate].
  destruct (UpdateAddress a) as [[ip port]|]; cbn -[on_link tell_link]; [|discriminate].
  destruct w; cbn -[on_link tell_link].
  2: { intros E. injection E as <- <-. apply quiet_ok; auto. }
  destruct (UpdateLocalAddress sn _) as [l0|] eqn:E0; cbn -[on_link tell_link]; [|discriminate].
  destruct (UpdateRemoteAddress a l0) as [l|] eqn:E1; cbn -[on_link tell_link]; [|discriminate].
  intros E. injection E as <- <-.
  assert (Hs : m_Server l = Some k) by (rewrite (UpdateRemote_server _ _ _ E1), (UpdateLocal_server _ _ _ E0); reflexivity).
  apply (created_ok s _ l).
  - apply wf_on_link; [exact (wf_accepted_link s k v l Hwf Hv Hs) | reflexivity].
  - reflexivity.
  - intros i. unfold told. cbn. destruct (decide _); reflexivity.
  - intros i Hi. unfold on_link. cbn. rewrite lookup_alter_ne by congruence. reflexivity.
Qed.

Lemma Listen_ok p e s s' o : wf s -> Listen p e s = Some (s', o) -> action_ok s s' o.
Proof.
  intros Hwf. unfold Listen, AddServer. destruct (server_Listen p e _) as [ok v] eqn:Ev.
  assert (Hc : m_Connections v = []).
  { revert Ev. unfold server_Listen. destruct (e_socket e), (e_reuseable e), (e_bind e), (e_nonblocking e), (e_listen e);
      intros E; injection E as <- <-; reflexivity. }
  assert (Hw : forall w ss, m_Connections w = [] ->
    wf {| links := links s; servers := <[next_object s := w]> (servers s); outgoing_links := outgoing_links s; m_Servers := ss;
          m_HasTerminated := m_HasTerminated s; users := users s; handles := {[next_object s]} ∪ handles s; next_object := S (next_object s) |}).
  { intros w ss Hcw. destruct Hwf as [H1 H2 H3 H4 H5 H6 H7]. constructor; cbn; auto.
    - intros k v'. rewrite lookup_insert_Some. intros [[<- <-]|[_ Hk]]; [rewrite Hcw; constructor | eauto].
    - intros k v' i. rewrite lookup_insert_Some. intros [[<- <-]|[_ Hk]]; [rewrite Hcw; intros Hi; apply not_elem_of_nil in Hi; contradiction | eauto].
    - intros i Hi. apply H6. lia.
    - intros k Hk. rewrite lookup_insert_ne by lia. apply H7. lia. }
  destruct ok; cbn.
  - destruct (m_HasTerminated s) eqn:Ht; cbn; [discriminate|]. intros E. injection E as <- <-.
    apply quiet_ok; [|cbn; lia | reflexivity | auto]. specialize (Hw v (m_Servers s ++ [next_object s]) Hc). rewrite <- Ht in Hw. exact Hw.
  - intros E. injection E as <- <-. apply quiet_ok; [|cbn; lia | reflexivity | auto]. refine (Hw (v <| m_SelfPtr := false |>) (m_Servers s) _). exact Hc.
Qed.

Lemma shutdown_all_lookup Conns : forall (m : gmap nat cTCPLinkImpl) i l, m !! i = Some l ->
  exists l', foldl (fun m i => alter link_Shutdown i m) m Conns !! i = Some l' /\ m_Server l' = m_Server l.
Proof.
  induction Conns as [|j Conns IH]; intros m i l Hl; [eauto|]. cbn.
  assert (H : exists l1, alter link_Shutdown j m !! i = Some l1 /\ m_Server l1 = m_Server l).
  { destruct (decide (j = i)) as [->|Hne].
    - rewrite lookup_alter_eq, Hl. cbn. eexists. split; [reflexivity | apply link_Shutdown_server].
    - rewrite lookup_alter_ne by exact Hne. eauto. }
  destruct H as (l1 & H1 & E1). destruct (IH _ _ _ H1) as (l2 & H2 & E2). exists l2. split; [exact H2 | congruence].
Qed.

Lemma shutdown_all_None Conns : forall (m : gmap nat cTCPLinkImpl) i, m !! i = None ->
  foldl (fun m i => alter link_Shutdown i m) m Conns !! i = None.
Proof.
  induction Conns as [|j Conns IH]; intros m i Hl; [exact Hl|]. cbn. apply IH. apply lookup_alter_None, Hl.
Qed.

Lemma Server_Close_ok k s s' o : wf s -> Server_Close k s = Some (s', o) -> action_ok s s' o.
Proof.
  intros Hwf. unfold Server_Close, RemoveServer. destruct (servers s !! k) as [v|] eqn:Hv; cbn; [|discriminate].
  destruct (m_ConnListener v); [|discriminate]. cbn. destruct (m_HasTerminated s) eqn:Ht; cbn; [discriminate|].
  intros E. injection E as <- <-.
  set (f := foldl (fun m i => alter link_Shutdown i m) (links s) (m_Connections v)).
  assert (Hf : forall i, is_Some (f !! i) -> is_Some (links s !! i)).
  { intros i Hi. destruct (links s !! i) eqn:E; [eauto|]. unfold f in Hi. rewrite shutdown_all_None in Hi by exact E. destruct Hi; discriminate. }
  apply quiet_ok; [|reflexivity | reflexivity | exact Hf].
  assert (Hw : wf (s <| links := f |>)).
  { apply wf_set_links; [exact Hwf | intros i l; apply shutdown_all_lookup | intros i; apply shutdown_all_None]. }
  destruct Hw as [H1 H2 H3 H4 H5 H6 H7]. cbn in *. constructor; cbn; auto.
  - intros k' v'. rewrite lookup_insert_Some. intros [[<- <-]|[_ Hk]]; [constructor | eauto].
  - intros k' v' i. rewrite lookup_insert_Some. intros [[<- <-]|[_ Hk]]; [intros Hi; apply not_elem_of_nil in Hi; contradiction | eauto].
  - intros k' Hk'. rewrite lookup_insert_ne; [auto|]. intros ->. rewrite (H7 _ Hk') in Hv. discriminate.
Qed.

Lemma Terminate_ok s s' o : wf s -> Terminate s = Some (s', o) -> action_ok s s' o.
Proof.
  intros Hwf. unfold Terminate. destruct (m_HasTerminated s); [discriminate|]. intros E. injection E as <- <-.
  apply quiet_ok; auto. destruct Hwf as [H1 H2 H3 H4 H5 H6 H7]. constructor; cbn; auto.
  - constructor.
  - intros i Hi. apply not_elem_of_nil in Hi. contradiction.
Qed.

Lemma do_action_ok a s s' o : wf s -> do_action a s = Some (s', o) -> action_ok s s' o.
Proof.
  intros Hwf. destruct a as [i d|i|i|i|k|i d|i|i n|i w e d sn pn|h p q|p e|k a sn w|k|]; cbn [do_action].
  - apply Send_ok, Hwf.
  - unfold Shutdown. destruct (links s !! i) as [l|] eqn:Hl; cbn; [|discriminate]. intros E. injection E as <- <-.
    apply (insert_step s i l _ []); auto. apply link_Shutdown_server.
  - apply Close_ok, Hwf.
  - intros E. injection E as <- <-. apply quiet_ok; auto. apply wf_users_sub; [exact Hwf|].
    intros j Hj. apply (wf_users _ Hwf). set_solver.
  - intros E. injection E as <- <-. apply quiet_ok; auto. destruct Hwf. constructor; auto.
  - destruct (links s !! i) as [l|] eqn:Hl; cbn; [|discriminate]. intros E. injection E as <- <-.
    apply (insert_step s i l _ []); auto.
  - destruct (links s !! i) as [l|] eqn:Hl; cbn; [|discriminate]. destruct (read_chunk l) as [[d l']|] eqn:Hr.
    + intros E. injection E as <- <-. apply (insert_step s i l l'); auto.
      * apply (read_chunk_server _ _ _ Hr).
      * intros j. rewrite told_one. destruct (decide (j = i)); eauto.
    + intros E. injection E as <- <-. apply quiet_ok; auto.
  - destruct (links s !! i) as [l|] eqn:Hl; cbn; [|discriminate]. intros E. injection E as <- <-.
    apply (insert_step s i l _ []); auto. rewrite WriteCallback_server. reflexivity.
  - apply EventCallback_ok, Hwf.
  - apply Connect_ok, Hwf.
  - apply Listen_ok, Hwf.
  - apply Callback_ok, Hwf.
  - apply Server_Close_ok, Hwf.
  - apply Terminate_ok, Hwf.
Qed.

(** ** Theorems *)

Lemma net_step_ok a s s' o : wf s -> net_step a s = Some (s', o) ->
  exists s1, s' = release s1 /\ action_ok s s1 o.
Proof.
  intros Hwf. unfold net_step. destruct (do_action a s) as [[s1 o1]|] eqn:E; cbn; [|discriminate].
  intros Eq. injection Eq as <- <-. exists s1. split; [reflexivity|]. apply (do_action_ok a); assumption.
Qed.

Lemma told_app i o o' : told i (o ++ o') = told i o ++ told i o'.
Proof. apply omap_app. Qed.

Lemma phase_after_app cbs cbs' p : phase_after (cbs ++ cbs') p = phase_after cbs p ≫= phase_after cbs'.
Proof.
  unfold phase_after. rewrite foldl_app. destruct (foldl _ (Some p) cbs) as [q|]; [reflexivity|].
  induction cbs' as [|cb cbs' IH]; [reflexivity | exact IH].
Qed.

(** Where a link's callbacks are, by the state. *)
Definition in_phase (s : network) (i : nat) (p : phase) : Prop :=
  match p with
  | Unborn => True
  | Live => (i < next_object s)%nat
  | Over => (i < next_object s)%nat /\ links s !! i = None
  end /\ (is_Some (links s !! i) -> p = Live).

Lemma told_step_phase s s1 i cbs p :
  wf s -> wf s1 -> (next_object s <= next_object s1)%nat -> told_step s s1 i cbs -> in_phase s i p ->
  exists p', phase_after cbs p = Some p' /\ in_phase (release s1) i p'.
Proof.
  intros Hwf Hw1 Hn Hstep [Hp Hlive].
  assert (Hrel : is_Some (links (release s1) !! i) -> is_Some (links s1 !! i)).
  { intros [l Hl]. apply release_link_sub in Hl. eauto. }
  destruct Hstep as [H|H|d H|cb Hcb H Hgone].
  - exists p. split; [reflexivity|]. split; [|auto]. destruct p; cbn; [exact I | cbn in Hp; lia|].
    destruct Hp as [Hi Hl]. split; [lia|]. apply eq_None_not_Some. intros Hx.
    destruct (H (Hrel Hx)) as [l El]. rewrite Hl in El. discriminate.
  - destruct p; cbn in Hp; [|lia|destruct Hp; lia]. exists Live. split; [reflexivity|]. split; [cbn; lia | auto].
  - rewrite (Hlive H) in *. exists Live. split; [reflexivity|]. split; [cbn; cbn in Hp; lia | auto].
  - rewrite (Hlive H) in *. exists Over. split; [destruct Hcb as [-> | ->]; reflexivity|]. cbn in Hp.
    split; [cbn; split; [lia | exact Hgone]|]. rewrite Hgone. intros [? ?]. discriminate.
Qed.

Lemma net_run_ok acts : forall s s' o, wf s -> net_run acts s = Some (s', o) ->
  wf s' /\ forall i p, in_phase s i p -> exists p', phase_after (told i o) p = Some p' /\ in_phase s' i p'.
Proof.
  induction acts as [|a acts IH]; intros s s' o Hwf; cbn [net_run].
  - intros E. injection E as <- <-. split; [exact Hwf|]. intros i p Hp. exists p. auto.
  - destruct (net_step a s) as [[s1 o1]|] eqn:E1; cbn; [|discriminate].
    destruct (net_run acts s1) as [[s2 o2]|] eqn:E2; cbn; [|discriminate]. intros E. injection E as <- <-.
    destruct (net_step_ok _ _ _ _ Hwf E1) as (s0 & -> & Hw0 & Hn & Ht).
    destruct (IH _ _ _ (wf_release _ Hw0) E2) as [Hw2 Hrest]. split; [exact Hw2|]. intros i p Hp.
    destruct (told_step_phase s s0 i _ p Hwf Hw0 Hn (Ht i) Hp) as (p1 & H1 & Hp1).
    destruct (Hrest i p1 Hp1) as (p2 & H2 & Hp2). exists p2. split; [|exact Hp2].
    rewrite told_app, phase_after_app, H1. exact H2.
Qed.

Lemma wf_no_network : wf no_network.
Proof. constructor; cbn; intros; try constructor; try set_solver. Qed.

(** C30. Whatever libevent, the peers and the users of the links do, in any order, the callbacks
    of every link are told what Network.h promises: once that it was created, then data, and at
    most one end, by the peer or by an error, after which the link is destroyed and nothing
    more is told. *)
Theorem link_life (acts : list net_action) (s : network) (o : list net_out) (i : nat) :
  net_run acts no_network = Some (s, o) ->
  exists p, phase_after (told i o) Unborn = Some p /\
    (is_Some (links s !! i) -> p = Live) /\ (p = Over -> links s !! i = None).
Proof.
  intros H. destruct (net_run_ok acts _ _ _ wf_no_network H) as [_ Hp].
  destruct (Hp i Unborn) as (p & Hafter & Hin & Hlive); [split; [exact I | intros [? ?]; discriminate]|].
  exists p. split; [exact Hafter|]. split; [exact Hlive|]. intros ->. apply Hin.
Qed.
(** ** What is sent *)

Context {Laws : LibEventLaws L}.

(** What one action does to the sending side of a link that it leaves alive. *)
Record moved (l l' : cTCPLinkImpl) (acc : list Z) : Prop := {
  mv_bytes : v_given (view l') ++ v_output (view l') = v_given (view l) ++ v_output (view l) ++ acc;
  mv_given : v_given (view l) `prefix_of` v_given (view l');
  mv_fin : v_fin (view l') = true -> v_fin (view l) = true \/ v_output (view l') = [];
  mv_should : m_ShouldShutdown l = true -> m_ShouldShutdown l' = true /\ acc = [];
  mv_stuck : v_write (view l) = false -> v_write (view l') = false /\ v_given (view l') = v_given (view l);
}.

(** The sending side is untouched. *)
Definition same_sending (l l' : cTCPLinkImpl) : Prop :=
  v_given (view l') = v_given (view l) /\ v_output (view l') = v_output (view l) /\
  v_fin (view l') = v_fin (view l) /\ m_ShouldShutdown l' = m_ShouldShutdown l /\
  (v_write (view l) = false -> v_write (view l') = false).

#[local] Instance same_sending_preorder : PreOrder same_sending.
Proof.
  split; [repeat split; auto|]. intros l1 l2 l3 (A1 & A2 & A3 & A4 & A5) (B1 & B2 & B3 & B4 & B5).
  repeat split; auto; etransitivity; eassumption.
Qed.

Lemma moved_same l l' : same_sending l l' -> moved l l' [].
Proof. intros (H1 & H2 & H3 & H4 & H5). constructor; rewrite ?H1, ?H2, ?H3, ?H4, ?app_nil_r; auto. Qed.

Lemma moved_refl l : moved l l [].
Proof. apply moved_same. reflexivity. Qed.

Lemma output_empty_spec l : output_empty l = true <-> v_output (view l) = [].
Proof. unfold output_empty. rewrite Nat.eqb_eq. apply length_zero_iff_nil. Qed.

Lemma moved_DoActualShutdown l : v_output (view l) = [] -> moved l (DoActualShutdown l) [].
Proof.
  intros Ho. assert (E : view (DoActualShutdown l) = (view l) <| v_fin := true |> <| v_write := false |>).
  { unfold view, DoActualShutdown. cbn. rewrite disable_view, shutdown_view. destruct (bev (m_BufferEvent l)); reflexivity. }
  constructor; rewrite ?E; cbn; rewrite ?app_nil_r; auto.
Qed.

Lemma moved_link_Shutdown l : moved l (link_Shutdown l) [].
Proof.
  unfold link_Shutdown. destruct (output_empty l) eqn:E.
  - apply moved_DoActualShutdown, output_empty_spec, E.
  - constructor; cbn; rewrite ?app_nil_r; auto.
Qed.

Lemma moved_takes l n : moved l (WriteCallback (l <| m_BufferEvent ::= socket_takes n |>)) [].
Proof.
  set (l1 := l <| m_BufferEvent ::= socket_takes n |>).
  assert (H1 : v_given (view l1) ++ v_output (view l1) = v_given (view l) ++ v_output (view l) /\
               v_given (view l) `prefix_of` v_given (view l1) /\ v_fin (view l1) = v_fin (view l) /\
               (v_write (view l) = false -> v_write (view l1) = false /\ v_given (view l1) = v_given (view l))).
  { unfold view, l1. cbn. rewrite takes_view. destruct (v_write _) eqn:Ew; cbn; [|auto].
    rewrite <- app_assoc, take_drop. split; [reflexivity|]. split; [apply prefix_app_r; reflexivity|].
    split; [reflexivity | congruence]. }
  destruct H1 as (H1 & H2 & H3 & H4).
  assert (Hm : v_output (view l1) = [] -> moved l (DoActualShutdown l1) []).
  { intros Ho. destruct (moved_DoActualShutdown l1 Ho) as [B1 B2 B3 B4 B5]. constructor.
    - rewrite B1, !app_nil_r. exact H1.
    - etransitivity; eauto.
    - rewrite <- H3. exact B3.
    - exact B4.
    - intros Hw. destruct (H4 Hw) as [Hw1 <-]. apply B5, Hw1. }
  unfold WriteCallback. destruct (output_empty l1) eqn:E; cbn [andb].
  - destruct (m_ShouldShutdown l1); [apply Hm, output_empty_spec, E|].
    constructor; rewrite ?H3, ?H1, ?app_nil_r; auto.
  - constructor; rewrite ?H3, ?H1, ?app_nil_r; auto.
Qed.

Lemma moved_Send d l : moved l (link_Send d l).1 (if (link_Send d l).2 then d else []).
Proof.
  unfold link_Send. destruct (m_ShouldShutdown l) eqn:Es; [apply moved_refl|].
  destruct (bufferevent_write d (m_BufferEvent l)) as [b|] eqn:Eb; [|apply moved_refl].
  cbn. apply write_view in Eb.
  assert (E : view (l <| m_BufferEvent := b |>) = (view l) <| v_output ::= fun o => o ++ d |>) by exact Eb.
  constructor; rewrite ?E; cbn; auto; congruence.
Qed.

Lemma moved_insert (m : gmap nat cTCPLinkImpl) i l l' j lj acc :
  m !! i = Some l -> <[i := l']> m !! j = Some lj -> moved l l' acc ->
  exists l0, m !! j = Some l0 /\ moved l0 lj (if decide (j = i) then acc else []).
Proof.
  intros Hl Hj Hm. destruct (decide (j = i)) as [->|Hne].
  - rewrite lookup_insert_eq in Hj. injection Hj as <-. eauto.
  - rewrite lookup_insert_ne in Hj by congruence. exists lj. split; [exact Hj | apply moved_refl].
Qed.

Lemma same_on_link f s i j lj :
  (forall l, same_sending l (f l)) -> links (on_link i f s) !! j = Some lj ->
  exists l0, links s !! j = Some l0 /\ same_sending l0 lj.
Proof.
  intros Hf. unfold on_link. cbn. destruct (decide (i = j)) as [<-|Hne].
  - rewrite lookup_alter_eq. destruct (links s !! i) as [l|]; cbn; [|discriminate]. intros E. injection E as <-. eauto.
  - rewrite lookup_alter_ne by exact Hne. intros E. exists lj. split; [exact E | reflexivity].
Qed.

Lemma forget_link_links i l s s' : forget_link i l s = Some s' -> links s' = links s.
Proof.
  unfold forget_link, Singleton_RemoveLink. destruct (m_Server l); [intros E; injection E as <-; reflexivity|].
  destruct (m_HasTerminated s); [discriminate|]. intros E; injection E as <-; reflexivity.
Qed.

Definition fresh_link (l : cTCPLinkImpl) : Prop := v_given (view l) = [] /\ v_output (view l) = [].

(** An action leaves a link's sending side as [moved] says, or made the link; what does not
    live accepts nothing. *)
Definition links_moved (s s' : network) (o : list net_out) : Prop :=
  (forall i l', links s' !! i = Some l' ->
    (exists l, links s !! i = Some l /\ moved l l' (accepted i o)) \/
    (i = next_object s /\ fresh_link l' /\ accepted i o = [])) /\
  forall i, links s !! i = None -> accepted i o = [].

Lemma links_moved_same s s' o :
  (forall j, accepted j o = []) ->
  (forall j lj, links s' !! j = Some lj -> exists l, links s !! j = Some l /\ same_sending l lj) -> links_moved s s' o.
Proof.
  intros Ho H. split; [|auto]. intros j lj Hj. left. destruct (H j lj Hj) as (l & Hl & Hs). exists l. rewrite Ho. split; [exact Hl | apply moved_same, Hs].
Qed.

Lemma same_insert (m : gmap nat cTCPLinkImpl) i l l' j lj :
  m !! i = Some l -> same_sending l l' -> <[i := l']> m !! j = Some lj -> exists l0, m !! j = Some l0 /\ same_sending l0 lj.
Proof.
  intros Hl Hs. destruct (decide (i = j)) as [<-|Hne].
  - rewrite lookup_insert_eq. intros E. injection E as <-. eauto.
  - rewrite lookup_insert_ne by exact Hne. intros E. exists lj. split; [exact E | reflexivity].
Qed.

Lemma same_Update a b l l1 :
  (l ← UpdateLocalAddress a l; UpdateRemoteAddress b l) = Some l1 -> same_sending l l1.
Proof.
  unfold UpdateLocalAddress, UpdateRemoteAddress.
  destruct (UpdateAddress a) as [[ip1 port1]|]; cbn; [|discriminate].
  destruct (UpdateAddress b) as [[ip2 port2]|]; cbn; [|discriminate].
  intros E. injection E as <-. repeat split; auto.
Qed.

Lemma same_Self l b : same_sending l (l <| m_Self := b |>).
Proof. repeat split; auto. Qed.

Lemma EventCallback_moved i w e d sn pn s s' o :
  EventCallback i w e d sn pn s = Some (s', o) -> links_moved s s' o.
Proof.
  unfold EventCallback. destruct (links s !! i) as [l|] eqn:Hl; cbn -[has_flag tell_link on_link]; [|discriminate].
  destruct (m_Self l); cbn -[has_flag tell_link on_link]; [|discriminate].
  destruct (has_flag w BEV_EVENT_ERROR).
  { destruct (m_ConnectCallbacks l).
    - intros E. injection E as <- <-. apply links_moved_same; [reflexivity|]. intros j lj. apply same_on_link. intros l'. apply same_Self.
    - destruct (forget_link i l _) as [s2|] eqn:Hf; cbn -[on_link]; [|discriminate]. intros E. injection E as <- <-.
      apply links_moved_same; [reflexivity|]. intros j lj Hj.
      apply same_on_link in Hj; [|intros l'; apply same_Self]. rewrite (forget_link_links _ _ _ _ Hf) in Hj. exact Hj. }
  destruct (if has_flag w BEV_EVENT_CONNECTED then _ else _) as [l1|] eqn:Hup; cbn -[has_flag tell_link on_link]; [|discriminate].
  assert (Hs : same_sending l l1).
  { destruct (has_flag w BEV_EVENT_CONNECTED); [apply (same_Update _ _ _ _ Hup)|]. injection Hup as <-. reflexivity. }
  assert (Hq : forall s1 f, links s1 = <[i := l1]> (links s) -> (forall l, same_sending l (f l)) ->
            forall j lj, links (on_link i f s1) !! j = Some lj -> exists l, links s !! j = Some l /\ same_sending l lj).
  { intros s1 f E Hf j lj Hj. destruct (same_on_link f s1 i j lj Hf Hj) as (l2 & H2 & S2). rewrite E in H2.
    destruct (same_insert _ _ _ _ _ _ Hl Hs H2) as (l3 & H3 & S3). exists l3. split; [exact H3|]. etransitivity; eassumption. }
  destruct (has_flag w BEV_EVENT_CONNECTED && m_ConnectCallbacks l1).
  { intros E. injection E as <- <-. apply links_moved_same; [reflexivity|]. apply Hq; [reflexivity | repeat split; auto]. }
  destruct (has_flag w BEV_EVENT_EOF); [|discriminate].
  destruct (forget_link i l1 _) as [s2|] eqn:Hf; cbn -[on_link]; [|discriminate]. intros E. injection E as <- <-.
  apply links_moved_same; [reflexivity|]. apply Hq; [rewrite (forget_link_links _ _ _ _ Hf); reflexivity | repeat split; auto].
Qed.

Lemma fresh_Enable l : fresh_link l -> fresh_link (Enable l).
Proof. unfold fresh_link, view, Enable. cbn. rewrite enable_view. cbn. auto. Qed.

Lemma fresh_ctor k : fresh_link (cTCPLinkImpl_ctor k).
Proof. unfold fresh_link, view. cbn. rewrite new_view. auto. Qed.

Lemma links_moved_new s s' l o :
  links s' = <[next_object s := l]> (links s) -> fresh_link l -> (forall j, accepted j o = []) -> links_moved s s' o.
Proof.
  intros E Hl Ho. split; [|auto]. intros j lj. rewrite E, lookup_insert_Some, Ho. intros [[<- <-]|[_ Hj]]; [auto|].
  left. exists lj. split; [exact Hj | apply moved_refl].
Qed.

Lemma Connect_moved h p q s s' o : Connect h p q s = Some (s', o) -> links_moved s s' o.
Proof.
  unfold Connect, AddLink, Singleton_RemoveLink. set (l := set_member m_ConnectCallbacks _ _). cbn -[on_link].
  destruct (m_HasTerminated s) eqn:Ht; cbn -[on_link]; [discriminate|].
  assert (Hf : fresh_link (Enable l)) by (apply fresh_Enable; exact (fresh_ctor None)).
  destruct q; cbn; rewrite ?Ht; cbn; intros E; injection E as <- <-; apply (links_moved_new s _ (Enable l)); auto;
    cbn; apply alter_insert_eq.
Qed.

Lemma Callback_moved k a sn w s s' o : Callback k a sn w s = Some (s', o) -> links_moved s s' o.
Proof.
  unfold Callback. destruct (servers s !! k) as [v|]; cbn -[on_link tell_link]; [|discriminate].
  destruct (m_SelfPtr v); cbn -[on_link tell_link]; [|discriminate].
  destruct (UpdateAddress a) as [[ip port]|]; cbn -[on_link tell_link]; [|discriminate].
  destruct w; cbn -[on_link tell_link].
  2: { intros E. injection E as <- <-. apply links_moved_same; [reflexivity|]. intros j lj Hj. exists lj. split; [exact Hj | reflexivity]. }
  destruct (UpdateLocalAddress sn _) as [l0|] eqn:E0; cbn -[on_link tell_link]; [|discriminate].
  destruct (UpdateRemoteAddress a l0) as [l|] eqn:E1; cbn -[on_link tell_link]; [|discriminate].
  intros E. injection E as <- <-.
  assert (Hs : same_sending (cTCPLinkImpl_ctor (Some k)) l) by (apply (same_Update sn a); rewrite E0; exact E1).
  apply (links_moved_new s _ (Enable l)); [cbn; apply alter_insert_eq | | reflexivity].
  apply fresh_Enable. destruct Hs as (H1 & H2 & _). destruct (fresh_ctor (Some k)) as [F1 F2].
  split; [rewrite H1 | rewrite H2]; assumption.
Qed.

Lemma moved_read_chunk l d l' : read_chunk l = Some (d, l') -> same_sending l l'.
Proof.
  unfold read_chunk. pose proof (read_view 1024 (m_BufferEvent l)) as Hv. destruct (bufferevent_read _ _) as [[|x xs] b]; [discriminate|].
  intros E. injection E as _ <-. cbn in Hv. unfold same_sending, view. cbn. rewrite Hv. repeat split; auto.
Qed.

Lemma links_moved_insert s i l l' o :
  links s !! i = Some l -> moved l l' (accepted i o) -> (forall j, j <> i -> accepted j o = []) ->
  links_moved s (s <| links ::= <[i := l']> |>) o.
Proof.
  intros Hl Hm Ho. split; [|intros j Hj; apply Ho; congruence]. intros j lj Hj. left. destruct (moved_insert _ _ _ _ _ _ _ Hl Hj Hm) as (l0 & H0 & H1). exists l0.
  split; [exact H0|]. destruct (decide (j = i)) as [->|Hne]; [exact H1 | rewrite (Ho j Hne); exact H1].
Qed.

Lemma shutdown_all_moved Conns : forall (m : gmap nat cTCPLinkImpl) i l', NoDup Conns ->
  foldl (fun m i => alter link_Shutdown i m) m Conns !! i = Some l' -> exists l, m !! i = Some l /\ moved l l' [].
Proof.
  intros m i l' Hnd. revert m. induction Hnd as [|j Conns Hj _ IH]; intros m Hl; [exists l'; split; [exact Hl | apply moved_refl]|].
  cbn in Hl. destruct (decide (j = i)) as [->|Hne].
  - assert (E : forall m : gmap nat cTCPLinkImpl, foldl (fun m i => alter link_Shutdown i m) m Conns !! i = m !! i).
    { clear -Hj. induction Conns as [|x Conns IH]; intros m; [reflexivity|]. cbn. apply not_elem_of_cons in Hj as [Hx Hc].
      rewrite IH by exact Hc. apply lookup_alter_ne. congruence. }
    rewrite E, lookup_alter_eq in Hl. destruct (m !! i) as [l|]; cbn in Hl; [|discriminate]. injection Hl as <-.
    exists l. split; [reflexivity | apply moved_link_Shutdown].
  - destruct (IH _ Hl) as (l & Hm & Hmv). rewrite lookup_alter_ne in Hm by exact Hne. eauto.
Qed.

Lemma do_action_moved a s s' o : wf s -> do_action a s = Some (s', o) -> links_moved s s' o.
Proof.
  intros Hwf. destruct a as [i d|i|i|i|k|i d|i|i n|i w e d sn pn|h p q|p e|k a sn w|k|]; cbn [do_action].
  - unfold Send. destruct (links s !! i) as [l|] eqn:Hl; cbn; [|discriminate].
    pose proof (moved_Send d l) as Hm. destruct (link_Send d l) as [l' ok]. intros E. injection E as <- <-.
    apply (links_moved_insert s i l l'); [exact Hl | |].
    + unfold accepted. cbn. destruct ok; cbn in Hm |- *; [rewrite decide_True, app_nil_r by reflexivity|]; exact Hm.
    + intros j Hj. unfold accepted. cbn. destruct ok; [rewrite decide_False by exact Hj|]; reflexivity.
  - unfold Shutdown. destruct (links s !! i) as [l|] eqn:Hl; cbn; [|discriminate]. intros E. injection E as <- <-.
    apply (links_moved_insert s i l); auto. apply moved_link_Shutdown.
  - unfold Close. destruct (links s !! i) as [l|] eqn:Hl; cbn; [|discriminate].
    destruct (forget_link i l _) as [s2|] eqn:Hf; cbn; [|discriminate]. intros E. injection E as <- <-.
    apply links_moved_same; [reflexivity|]. intros j lj Hj. apply same_on_link in Hj as (l1 & H1 & S1); [|intros l'; apply same_Self].
    rewrite (forget_link_links _ _ _ _ Hf) in H1. apply same_on_link in H1 as (l0 & H0 & S0).
    + exists l0. split; [exact H0|]. etransitivity; eassumption.
    + intros l'. unfold same_sending, view. cbn. rewrite disable_view. repeat split.
  - intros E. injection E as <- <-. apply links_moved_same; [reflexivity|]. intros j lj Hj. exists lj. split; [exact Hj | reflexivity].
  - intros E. injection E as <- <-. apply links_moved_same; [reflexivity|]. intros j lj Hj. exists lj. split; [exact Hj | reflexivity].
  - destruct (links s !! i) as [l|] eqn:Hl; cbn; [|discriminate]. intros E. injection E as <- <-.
    apply links_moved_same; [reflexivity|]. intros j lj. apply (same_insert _ _ _ _ _ _ Hl).
    unfold same_sending, view. cbn. rewrite brings_view. destruct (v_read _); repeat split; auto.
  - destruct (links s !! i) as [l|] eqn:Hl; cbn; [|discriminate]. destruct (read_chunk l) as [[d l']|] eqn:Hr; intros E; injection E as <- <-.
    + apply links_moved_same; [reflexivity|]. intros j lj. apply (same_insert _ _ _ _ _ _ Hl), (moved_read_chunk _ _ _ Hr).
    + apply links_moved_same; [reflexivity|]. intros j lj Hj. exists lj. split; [exact Hj | reflexivity].
  - destruct (links s !! i) as [l|] eqn:Hl; cbn; [|discriminate]. intros E. injection E as <- <-.
    apply (links_moved_insert s i l); auto. apply moved_takes.
  - apply EventCallback_moved.
  - apply Connect_moved.
  - unfold Listen, AddServer. destruct (server_Listen p e _) as [[|] v]; cbn; [destruct (m_HasTerminated s); cbn; [discriminate|]|];
      intros E; injection E as <- <-; (apply links_moved_same; [reflexivity|]; intros j lj Hj; exists lj; split; [exact Hj | reflexivity]).
  - apply Callback_moved.
  - unfold Server_Close, RemoveServer. destruct (servers s !! k) as [v|] eqn:Hv; cbn; [|discriminate].
    destruct (m_ConnListener v); [|discriminate]. cbn. destruct (m_HasTerminated s) eqn:Ht; cbn; [discriminate|].
    intros E. injection E as <- <-. split; [|reflexivity]. intros j lj Hj. left. cbn in Hj.
    apply (shutdown_all_moved _ _ _ _ (wf_conn_nodup _ Hwf _ _ Hv) Hj).
  - unfold Terminate. destruct (m_HasTerminated s); [discriminate|]. intros E. injection E as <- <-.
    apply links_moved_same; [reflexivity|]. intros j lj Hj. exists lj. split; [exact Hj | reflexivity].
Qed.

Lemma net_step_moved a s s' o : wf s -> net_step a s = Some (s', o) -> wf s' /\ links_moved s s' o /\ (next_object s <= next_object s')%nat.
Proof.
  intros Hwf. unfold net_step. destruct (do_action a s) as [[s1 o1]|] eqn:E; cbn; [|discriminate].
  intros Eq. injection Eq as <- <-. destruct (do_action_ok _ _ _ _ Hwf E) as (Hw & Hn & _).
  split; [apply wf_release, Hw|]. split; [|exact Hn]. destruct (do_action_moved a s s1 o1 Hwf E) as [Hm Ha].
  split; [|exact Ha]. intros i l Hl. apply Hm, release_link_sub, Hl.
Qed.

Lemma accepted_app i o o' : accepted i (o ++ o') = accepted i o ++ accepted i o'.
Proof. unfold accepted. rewrite map_app, concat_app. reflexivity. Qed.

(** What holds of the sending side of a link, and of the bytes accepted for it, as it lives. *)
Lemma net_run_sending (P : cTCPLinkImpl -> list Z -> Prop) i :
  (forall l l' A acc, P l A -> moved l l' acc -> P l' (A ++ acc)) ->
  forall acts s s' o A, wf s -> net_run acts s = Some (s', o) ->
  ((next_object s <= i)%nat -> A = [] /\ forall l, fresh_link l -> P l []) ->
  (forall l, links s !! i = Some l -> P l A) ->
  forall l', links s' !! i = Some l' -> P l' (A ++ accepted i o).
Proof.
  intros Hstep. induction acts as [|a acts IH]; intros s s' o A Hwf; cbn [net_run].
  - intros E. injection E as <- <-. intros Hnew Hl l' Hl'. rewrite app_nil_r. auto.
  - destruct (net_step a s) as [[s1 o1]|] eqn:E1; cbn; [|discriminate].
    destruct (net_run acts s1) as [[s2 o2]|] eqn:E2; cbn; [|discriminate]. intros E. injection E as <- <-.
    destruct (net_step_moved _ _ _ _ Hwf E1) as (Hw1 & [Hm Ha] & Hn). intros Hnew Hl l' Hl'.
    rewrite accepted_app, app_assoc. revert l' Hl'. apply (IH s1); [exact Hw1 | exact E2 | |].
    + intros Hi. destruct (Hnew ltac:(lia)) as [-> Hfresh]. split; [|exact Hfresh].
      rewrite (Ha i); [reflexivity|]. apply (wf_links_fresh _ Hwf). lia.
    + intros l1 H1. destruct (Hm i l1 H1) as [(l & H0 & Hmv) | (-> & Hfr & Hacc)].
      * apply (Hstep l); auto.
      * destruct (Hnew (le_n _)) as [-> Hfresh]. rewrite Hacc. apply Hfresh, Hfr.
Qed.

(** In any run, what [Send] accepted is what the socket was given and what waits, in order. *)
Lemma accepted_given_or_waits acts s o i l :
  net_run acts no_network = Some (s, o) -> links s !! i = Some l ->
  accepted i o = v_given (view l) ++ v_output (view l).
Proof.
  intros H Hl.
  refine (net_run_sending (fun l A => A = v_given (view l) ++ v_output (view l)) i _ acts _ _ _ [] wf_no_network H _ _ l Hl).
  - intros l0 l1 A acc -> [Hb _ _ _]. rewrite Hb, <- app_assoc. reflexivity.
  - intros _. split; [reflexivity|]. intros l0 [-> ->]. reflexivity.
  - intros l0 Hl0. discriminate.
Qed.

(** After [Shutdown] of a link whose socket still sends. *)
Definition shutting_down (A : list Z) (l : cTCPLinkImpl) : Prop :=
  A `prefix_of` v_given (view l) \/
  (v_fin (view l) = false /\ m_ShouldShutdown l = true /\ v_given (view l) ++ v_output (view l) = A).

Lemma shutting_down_moved A l l' acc : shutting_down A l -> moved l l' acc -> shutting_down A l'.
Proof.
  intros [Hp|(Hfin & Hs & HA)] [B1 B2 B3 B4].
  - left. etransitivity; eassumption.
  - destruct (B4 Hs) as [Hs' ->]. rewrite app_nil_r, HA in B1. destruct (v_fin (view l')) eqn:Ef; [|right; auto].
    left. destruct (B3 eq_refl) as [E|E]; [congruence|]. rewrite E, app_nil_r in B1. rewrite B1. reflexivity.
Qed.

Lemma Shutdown_starts l : v_fin (view l) = false -> shutting_down (v_given (view l) ++ v_output (view l)) (link_Shutdown l).
Proof.
  intros Hfin. unfold link_Shutdown. destruct (output_empty l) eqn:E; [|right; auto].
  apply output_empty_spec in E. left. destruct (moved_DoActualShutdown l E) as [_ B2 _ _].
  rewrite E, app_nil_r. exact B2.
Qed.

(** C31. A graceful shutdown loses nothing: once the sending side of the socket is shut down,
    the system was given every byte that [Send] accepted before [Shutdown] was called, in
    order, whatever else happened to the network in between. *)
Theorem shutdown_after_data (before after : list net_action) (i : nat) (s s' : network) (o o' : list net_out) (l l' : cTCPLinkImpl) :
  net_run before no_network = Some (s, o) -> links s !! i = Some l -> v_fin (view l) = false ->
  net_run (Do_Shutdown i :: after) s = Some (s', o') -> links s' !! i = Some l' -> v_fin (view l') = true ->
  accepted i o `prefix_of` v_given (view l').
Proof.
  intros H Hl Hfin H' Hl' Hfin'. rewrite (accepted_given_or_waits _ _ _ _ _ H Hl).
  set (A := v_given (view l) ++ v_output (view l)).
  destruct (net_run_ok before _ _ _ wf_no_network H) as [Hwf _].
  cbn [net_run] in H'. destruct (net_step (Do_Shutdown i) s) as [[s1 o1]|] eqn:E1; cbn in H'; [|discriminate].
  destruct (net_run after s1) as [[s2 o2]|] eqn:E2; cbn in H'; [|discriminate]. injection H' as <- <-.
  destruct (net_step_moved _ _ _ _ Hwf E1) as (Hw1 & _ & Hn).
  assert (Hlive : (i < next_object s)%nat).
  { destruct (decide (i < next_object s)%nat) as [|Hge]; [assumption|]. rewrite (wf_links_fresh _ Hwf i) in Hl by lia. discriminate. }
  assert (H1 : forall l1, links s1 !! i = Some l1 -> shutting_down A l1).
  { intros l1 Hl1. unfold net_step in E1. cbn in E1. unfold Shutdown in E1. rewrite Hl in E1. cbn in E1. injection E1 as <- <-.
    apply release_link_sub in Hl1. cbn in Hl1. rewrite lookup_insert_eq in Hl1. injection Hl1 as <-. apply Shutdown_starts, Hfin. }
  assert (Hend : shutting_down A l').
  { refine (net_run_sending (fun l _ => shutting_down A l) i _ after _ _ _ [] Hw1 E2 _ H1 l' Hl').
    - intros l0 l1 _ acc. apply shutting_down_moved.
    - intros Hi. lia. }
  destruct Hend as [Hp|(Hf & _)]; [exact Hp | congruence].
Qed.

(** A scheduled shutdown happens when the output has been taken. *)
Lemma shutdown_completes (l : cTCPLinkImpl) (n : nat) :
  v_write (view l) = true -> v_output (view l) <> [] -> (length (v_output (view l)) <= n)%nat ->
  let l' := WriteCallback ((link_Shutdown l) <| m_BufferEvent ::= socket_takes n |>) in
  v_fin (view l') = true /\ v_given (view l') = v_given (view l) ++ v_output (view l).
Proof.
  intros Hw Ho Hn l'. unfold l', link_Shutdown. destruct (output_empty l) eqn:Ee; [apply output_empty_spec in Ee; contradiction|].
  set (l1 := _ <| m_BufferEvent ::= _ |>).
  assert (E1 : view l1 = (view l) <| v_given ::= fun g => g ++ v_output (view l) |> <| v_output := [] |>).
  { unfold view, l1. cbn. rewrite takes_view. unfold view in Hw. rewrite Hw. unfold view in Hn.
    destruct (bev (m_BufferEvent l)) as [out inp giv r w f]. cbn in Hn.
    change ({| v_output := drop n out; v_input := inp; v_given := giv ++ take n out; v_read := r; v_write := w; v_fin := f |} =
            {| v_output := []; v_input := inp; v_given := giv ++ out; v_read := r; v_write := w; v_fin := f |}).
    rewrite take_ge, drop_ge by exact Hn. reflexivity. }
  unfold WriteCallback. assert (He : output_empty l1 = true) by (apply output_empty_spec; rewrite E1; reflexivity).
  rewrite He. cbn [andb m_ShouldShutdown]. change (m_ShouldShutdown l1) with true. cbn iota.
  unfold view, DoActualShutdown. cbn -[l1]. rewrite disable_view, shutdown_view. cbn -[l1]. split; [reflexivity|].
  change (bev (m_BufferEvent l1)) with (view l1). rewrite E1. reflexivity.
Qed.

(** What is sent after a shutdown that happened at once is accepted and never given to the
    socket: [m_ShouldShutdown] is only set by a shutdown that has to wait. *)
Lemma late_send_lost (s s' : network) (o : list net_out) (i : nat) (l l' : cTCPLinkImpl) (acts : list net_action) :
  wf s -> links s !! i = Some l -> v_output (view l) = [] ->
  net_run (Do_Shutdown i :: acts) s = Some (s', o) -> links s' !! i = Some l' ->
  v_given (view l') = v_given (view l) /\ v_output (view l') = accepted i o.
Proof.
  intros Hwf Hl Hout H Hl'. cbn [net_run] in H.
  destruct (net_step (Do_Shutdown i) s) as [[s1 o1]|] eqn:E1; cbn in H; [|discriminate].
  destruct (net_run acts s1) as [[s2 o2]|] eqn:E2; cbn in H; [|discriminate]. injection H as <- <-.
  destruct (net_step_moved _ _ _ _ Hwf E1) as (Hw1 & _ & Hn).
  assert (Hlive : (i < next_object s)%nat).
  { destruct (decide (i < next_object s)%nat) as [|Hge]; [assumption|]. rewrite (wf_links_fresh _ Hwf i) in Hl by lia. discriminate. }
  set (P := fun l' A => v_write (view l') = false /\ v_given (view l') = v_given (view l) /\ v_output (view l') = A).
  unfold net_step in E1. cbn in E1. unfold Shutdown in E1. rewrite Hl in E1. cbn in E1. injection E1 as <- <-.
  assert (HP : P l' ([] ++ accepted i o2)).
  { refine (net_run_sending P i _ acts _ _ _ [] Hw1 E2 _ _ l' Hl').
    - intros l0 l1 A acc (HW & HG & HO) [B1 _ _ _ B5]. destruct (B5 HW) as [HW' HG'].
      split; [exact HW'|]. split; [congruence|]. rewrite HG', HO in B1. apply app_inv_head in B1. exact B1.
    - intros Hi. lia.
    - intros l1 Hl1. apply release_link_sub in Hl1. cbn in Hl1. rewrite lookup_insert_eq in Hl1. injection Hl1 as <-.
      unfold P, link_Shutdown. rewrite (proj2 (output_empty_spec l) Hout). unfold view, DoActualShutdown. cbn.
      rewrite disable_view, shutdown_view. cbn. auto. }
  destruct HP as (_ & HG & HO). split; [exact HG | exact HO].
Qed.

(** ** Receiving *)

(** [ReadCallback] hands over everything that was read, in order, in pieces of 1 to 1024
    bytes, and ends. *)
Lemma ReadCallback_all fuel : forall l, (length (v_input (view l)) < fuel)%nat ->
  exists chunks l', ReadCallback fuel l = Some (chunks, l') /\ concat chunks = v_input (view l) /\ v_input (view l') = [] /\
    Forall (fun c => (1 <= length c <= 1024)%nat) chunks.
Proof.
  induction fuel as [|fuel IH]; intros l Hf; [lia|]. cbn [ReadCallback]. unfold read_chunk.
  pose proof (read_data 1024 (m_BufferEvent l)) as Hd. pose proof (read_view 1024 (m_BufferEvent l)) as Hv.
  destruct (bufferevent_read 1024 (m_BufferEvent l)) as [data b]. cbn [fst snd] in Hd, Hv. fold (view l) in Hd, Hv.
  destruct data as [|x xs].
  - exists [], l. assert (E : v_input (view l) = []) by (destruct (v_input (view l)); [reflexivity | discriminate]).
    rewrite E. auto.
  - set (l1 := l <| m_BufferEvent := b |>).
    assert (Hi : v_input (view l1) = drop 1024 (v_input (view l))) by (change (view l1) with (bev b); rewrite Hv; reflexivity).
    assert (Hlen : (1 <= length (x :: xs) <= 1024)%nat) by (split; [cbn; lia | rewrite Hd; rewrite length_take; lia]).
    assert (Hin : (1 <= length (v_input (view l)))%nat) by (destruct (v_input (view l)); [discriminate | cbn; lia]).
    destruct (IH l1) as (chunks & l' & E & Hc & He & Hall); [rewrite Hi, length_drop; lia|].
    rewrite E. cbn [mbind option_bind]. exists ((x :: xs) :: chunks), l'. split; [reflexivity|].
    split; [cbn [concat]; rewrite Hc, Hi, Hd, take_drop; reflexivity|]. split; [exact He|]. constructor; assumption.
Qed.
End TcpFacts.

(** ** Examples *)

Lemma plain_laws : LibEventLaws plain_libevent.
Proof. constructor; try reflexivity. cbn. intros d b b' E. injection E as <-. reflexivity. Qed.

(** A server, one connection, two bytes in, and the end of the connection. *)
Definition one_connection : list net_action :=
  [Do_Listen 1234 no_errors; Incoming 0 peer_address peer_address true; Brings 1 [7; 8]; Chunk 1;
   Event 1 0x11 0 0 peer_address peer_address].

Lemma link_life_witness :
  exists s o, @net_run plain_libevent one_connection no_network = Some (s, o) /\
    told 1 o = [link_created; link_data [7; 8]; link_closed] /\
    exists p, phase_after (told 1 o) Unborn = Some p /\ (is_Some (links s !! 1%nat) -> p = Live) /\ (p = Over -> links s !! 1%nat = None).
Proof.
  destruct (@net_run plain_libevent one_connection no_network) as [[s o]|] eqn:E; [|vm_compute in E; discriminate].
  exists s, o. split; [reflexivity|]. split; [vm_compute in E; injection E as _ <-; reflexivity|].
  exact (link_life one_connection s o 1 E).
Defined.

Lemma shutdown_after_data_witness :
  exists s o s' o' l l', let before := [Do_Listen 1234 no_errors; Incoming 0 peer_address peer_address true; Do_Send 1 [1; 2; 3]] in
    let after := [Do_Send 1 [9]; Takes 1 2; Takes 1 2] in
    @net_run plain_libevent before no_network = Some (s, o) /\ links s !! 1%nat = Some l /\ v_fin (view l) = false /\
    net_run (Do_Shutdown 1 :: after) s = Some (s', o') /\ links s' !! 1%nat = Some l' /\ v_fin (view l') = true /\
    accepted 1 o = [1; 2; 3] /\ accepted 1 o `prefix_of` v_given (view l').
Proof.
  set (before := [Do_Listen 1234 no_errors; Incoming 0 peer_address peer_address true; Do_Send 1 [1; 2; 3]]).
  set (after := [Do_Send 1 [9]; Takes 1 2; Takes 1 2]).
  assert (H : exists s o s' o' l l',
    @net_run plain_libevent before no_network = Some (s, o) /\ links s !! 1%nat = Some l /\ v_fin (view l) = false /\
    net_run (Do_Shutdown 1 :: after) s = Some (s', o') /\ links s' !! 1%nat = Some l' /\ v_fin (view l') = true /\
    accepted 1 o = [1; 2; 3]).
  { do 6 eexists. split; [vm_compute; reflexivity|]. split; [vm_compute; reflexivity|]. split; [reflexivity|].
    split; [vm_compute; reflexivity|]. split; [vm_compute; reflexivity|]. split; reflexivity. }
  destruct H as (s & o & s' & o' & l & l' & H1 & H2 & H3 & H4 & H5 & H6 & H7).
  exists s, o, s', o', l, l'. cbn zeta. do 7 (split; [assumption|]).
  refine (@shutdown_after_data plain_libevent plain_laws before after 1 s s' o o' l l' H1 H2 H3 H4 H5 H6).
Defined.

(** A connection that fails, and one that cannot be queued, are never destroyed: of the first
    the singleton keeps its pointer, the second keeps itself. *)
Example failed_connection_kept :
  (exists s o, @net_run plain_libevent [Do_Connect [104] 80 true; Event 0 0x20 1 0 peer_address peer_address; Drop 0] no_network = Some (s, o) /\
    told 0 o = [link_created] /\ is_Some (links s !! 0%nat)) /\
  (exists s o, @net_run plain_libevent [Do_Connect [104] 80 false; Drop 0] no_network = Some (s, o) /\
    outgoing_links s = [] /\ is_Some (links s !! 0%nat)).
Proof.
  split; do 2 eexists; (split; [vm_compute; reflexivity|]; split; [reflexivity|]; vm_compute; eauto).
Qed.

(** [Close] ends the registrations of a link, but its user's pointer keeps it until it is dropped. *)
Example closed_link_destroyed :
  exists s o, @net_run plain_libevent [Do_Listen 1234 no_errors; Incoming 0 peer_address peer_address true; Do_Close 1; Drop 1] no_network = Some (s, o) /\
    links s = ∅.
Proof. do 2 eexists. split; vm_compute; reflexivity. Qed.
