(* ===== verification/NameLookups.v ===== *)
(** * NameLookups: host names and addresses

    [cHostnameLookup] and [cIPLookup] (src/Src/Server/OSSupport/HostnameLookup.cpp,
    IPLookup.cpp): the answers of libevent's resolver are arguments, the callbacks' replies a
    parameter, and the lists of the cNetworkSingleton say which lookups are in progress. *)

From S2P Require Import Prelude Bytes Packetizer ByteBuffer StringUtils Settings Server TcpLinks.

Section NameLookups.
Context {L : LibEvent}.

(** What the callbacks are told. *)
Inductive resolve_out :=
  | OnNameResolvedV4 (a_Name : AString) (sin_addr : list Z)
  | OnNameResolvedV6 (a_Name : AString) (sin6_addr : list Z)
  | OnNameResolved (a_Name a_IP : AString)
  | OnFinished
  | OnError (a_ErrorCode : Z) (a_ErrorMsg : AString).

(** [m_HostnameLookups] and [m_IPLookups] of the cNetworkSingleton: the lookups by address,
    with [m_Hostname] and [m_IP]. *)
Record lookups := {
  m_HostnameLookups : list (nat * AString);
  m_IPLookups : list (nat * AString);
}.

#[global] Instance eta_lookups : Eta lookups := fun s =>
  {| m_HostnameLookups := m_HostnameLookups s; m_IPLookups := m_IPLookups s |}.

Fixpoint remove_lookup (a_Lookup : nat) (l : list (nat * AString)) : list (nat * AString) :=
  match l with
  | [] => []
  | (i, name) :: l => if decide (i = a_Lookup) then l else (i, name) :: remove_lookup a_Lookup l
  end.
Definition RemoveHostnameLookup (i : nat) (s : lookups) : lookups := s <| m_HostnameLookups ::= remove_lookup i |>.
Definition RemoveIPLookup (i : nat) (s : lookups) : lookups := s <| m_IPLookups ::= remove_lookup i |>.

Definition DNS_ERR_NODATA := 70.

(** The replies of OnNameResolvedV4 and OnNameResolvedV6. *)
Variable wants_text : sockaddr -> bool.

(** The loop over the addresses: what is told, and [HasResolved]. *)
Fixpoint resolve_loop (m_Hostname : AString) (a_Addr : list sockaddr) (HasResolved : bool) : list resolve_out * bool :=
  match a_Addr with
  | [] => ([], HasResolved)
  | sockaddr_in addr port :: a_Addr =>
    let '(o, r) := resolve_loop m_Hostname a_Addr true in
    (OnNameResolvedV4 m_Hostname addr ::
      (if wants_text (sockaddr_in addr port) then [OnNameResolved m_Hostname (evutil_inet_ntop addr)] else []) ++ o, r)
  | sockaddr_in6 addr port :: a_Addr =>
    let '(o, r) := resolve_loop m_Hostname a_Addr true in
    (OnNameResolvedV6 m_Hostname addr ::
      (if wants_text (sockaddr_in6 addr port) then [OnNameResolved m_Hostname (evutil_inet_ntop addr)] else []) ++ o, r)
  | sockaddr_other _ :: a_Addr => resolve_loop m_Hostname a_Addr HasResolved
  end.

(** The answer of the resolver for the lookup at address [i]. *)
Definition HostnameLookup_Callback (i : nat) (m_Hostname : AString) (a_ErrCode : Z) (a_Addr : list sockaddr) (s : lookups)
    : lookups * list resolve_out :=
  if negb (a_ErrCode =? 0) then (RemoveHostnameLookup i s, [OnError a_ErrCode (evutil_socket_error_to_string a_ErrCode)])
  else
    let '(o, HasResolved) := resolve_loop m_Hostname a_Addr false in
    (RemoveHostnameLookup i s,
     o ++ [if HasResolved then OnFinished
           else OnError DNS_ERR_NODATA (chars "The name does not resolve to any known address.")]).

Definition HostnameToIP (i : nat) (a_Hostname : AString) (s : lookups) : lookups :=
  s <| m_HostnameLookups ::= fun l => l ++ [(i, a_Hostname)] |>.

(** [a_Addresses]: the first name of the answer. *)
Definition IPLookup_Callback (i : nat) (m_IP : AString) (a_Result : Z) (a_Addresses : option AString) (s : lookups)
    : lookups * list resolve_out :=
  (RemoveIPLookup i s,
   match a_Addresses with
   | Some name => if a_Result =? 0 then [OnNameResolved name m_IP; OnFinished]
                  else [OnError a_Result (evutil_socket_error_to_string a_Result)]
   | None => [OnError a_Result (evutil_socket_error_to_string a_Result)]
   end).

(** Whether the resolver was asked. *)
Definition IPLookup_Lookup (a_IP : AString) : bool :=
  match evutil_parse_sockaddr_port a_IP with
  | Some (sockaddr_in _ _) | Some (sockaddr_in6 _ _) => true
  | _ => false
  end.

Definition IPToHostName (i : nat) (a_IP : AString) (s : lookups) : bool * lookups :=
  (IPLookup_Lookup a_IP, s <| m_IPLookups ::= fun l => l ++ [(i, a_IP)] |>).

(** ** Theorems *)

(** The last thing told. *)
Definition concluding (o : resolve_out) : bool :=
  match o with OnFinished | OnError _ _ => true | _ => false end.

Definition known_family (a : sockaddr) : bool := match a with sockaddr_other _ => false | _ => true end.

Definition resolved_name (a : sockaddr) : list AString :=
  match a with
  | sockaddr_in addr _ | sockaddr_in6 addr _ => if wants_text a then [evutil_inet_ntop addr] else []
  | sockaddr_other _ => []
  end.

(** The addresses told as text. *)
Definition told_names (o : list resolve_out) : list AString :=
  omap (fun x => match x with OnNameResolved _ ip => Some ip | _ => None end) o.

Lemma told_names_app o o' : told_names (o ++ o') = told_names o ++ told_names o'.
Proof. apply omap_app. Qed.

Lemma resolve_loop_facts name addrs : forall r,
  let '(o, r') := resolve_loop name addrs r in
  r' = r || existsb known_family addrs /\ told_names o = flat_map resolved_name addrs /\
  Forall (fun x => concluding x = false) o.
Proof.
  induction addrs as [|a addrs IH]; intros r; [cbn; rewrite orb_false_r; auto|].
  destruct a as [addr port|addr port|f]; cbn [resolve_loop].
  - specialize (IH true). destruct (resolve_loop name addrs true) as [o r']. destruct IH as (-> & Hn & Hc).
    split; [cbn; rewrite orb_true_r; reflexivity|]. cbn [flat_map resolved_name]. rewrite <- Hn.
    destruct (wants_text _); split; [reflexivity | repeat constructor; exact Hc | reflexivity | repeat constructor; exact Hc].
  - specialize (IH true). destruct (resolve_loop name addrs true) as [o r']. destruct IH as (-> & Hn & Hc).
    split; [cbn; rewrite orb_true_r; reflexivity|]. cbn [flat_map resolved_name]. rewrite <- Hn.
    destruct (wants_text _); split; [reflexivity | repeat constructor; exact Hc | reflexivity | repeat constructor; exact Hc].
  - exact (IH r).
Qed.

Lemma remove_lookup_gone i l : NoDup (map fst l) -> i ∉ map fst (remove_lookup i l).
Proof.
  induction l as [|[j name] l IH]; [intros _; apply not_elem_of_nil|]. cbn [map fst]. intros Hnd.
  apply NoDup_cons in Hnd as [Hj Hnd]. cbn [remove_lookup]. destruct (decide (j = i)) as [->|Hne]; [exact Hj|].
  cbn [map fst]. rewrite not_elem_of_cons. auto.
Qed.

(** A name lookup is concluded once, at the end: by OnFinished if the resolver gave an address
    of a known family, by OnError otherwise; the addresses the callbacks want as text are told
    in order before, and the lookup is forgotten. *)
Theorem hostname_lookup_concludes (i : nat) (name : AString) (err : Z) (addrs : list sockaddr) (s s' : lookups) (o : list resolve_out) :
  NoDup (map fst (m_HostnameLookups s)) ->
  HostnameLookup_Callback i name err addrs s = (s', o) ->
  i ∉ map fst (m_HostnameLookups s') /\
  exists told_before conclusion, o = told_before ++ [conclusion] /\
    concluding conclusion = true /\ Forall (fun x => concluding x = false) told_before /\
    (conclusion = OnFinished <-> err = 0 /\ existsb known_family addrs = true) /\
    told_names told_before = (if err =? 0 then flat_map resolved_name addrs else []).
Proof.
  intros Hnd. unfold HostnameLookup_Callback. destruct (Z.eqb_spec err 0) as [->|Hne]; cbn [negb].
  - pose proof (resolve_loop_facts name addrs false) as Hf. destruct (resolve_loop name addrs false) as [o1 r].
    destruct Hf as (-> & Hn & Hc). intros E. injection E as <- <-. split; [apply remove_lookup_gone, Hnd|].
    eexists o1, _. split; [reflexivity|]. cbn [orb]. destruct (existsb known_family addrs).
    + repeat split; auto.
    + repeat split; auto; [discriminate | intros [_ ?]; discriminate].
  - intros E. injection E as <- <-. split; [apply remove_lookup_gone, Hnd|]. eexists [], _. split; [reflexivity|].
    repeat split; auto; [discriminate | discriminate | intros [? _]; contradiction].
Qed.

(** An address that is not one is refused, and its lookup stays registered for ever: only the
    resolver's answer removes it, and the resolver was not asked. *)
Lemma refused_lookup_stays i ip s :
  IPLookup_Lookup ip = false -> IPToHostName i ip s = (false, s <| m_IPLookups ::= fun l => l ++ [(i, ip)] |>).
Proof. intros H. unfold IPToHostName. rewrite H. reflexivity. Qed.
End NameLookups.
