(* ===== verification/Ssl.v ===== *)
(** * Ssl: the TLS contexts and the blocking TLS socket

    [cSslContext], [cCallbackSslContext], [cBufferedSslContext] and [cBlockingSslClientSocket]
    (src/Src/Server/PolarSSL++).  PolarSSL's functions are an interface; they reach the peer
    through the callbacks ReceiveEncrypted and SendEncrypted, on a transport of any type.
    [None] is a failed assertion, or a thread that waits for ever. *)

From S2P Require Import Prelude Bytes Packetizer ByteBuffer StringUtils Sha1 Settings.

(** The error codes of PolarSSL the wrappers return. *)
Definition POLARSSL_ERR_SSL_BAD_INPUT_DATA := - 0x7100.
Definition POLARSSL_ERR_NET_RECV_FAILED := - 0x004C.
Definition POLARSSL_ERR_NET_SEND_FAILED := - 0x004E.
Definition POLARSSL_ERR_NET_WANT_READ := - 0x0052.
Definition POLARSSL_ERR_NET_WANT_WRITE := - 0x0054.

(** [Printf("%x", x)] of an int. *)
Fixpoint hex_digits (fuel : nat) (x : Z) (rest : AString) : AString :=
  match fuel with
  | O => rest
  | S fuel => let s := hex_digit (x mod 16) :: rest in if x / 16 =? 0 then s else hex_digits fuel (x / 16) s
  end.
Definition Printf_x (x : Z) : AString := hex_digits 8 (u32 x) [].

(** ** cSslContext *)

(** The callbacks PolarSSL uses to reach the peer: an int, and the bytes received. *)
Record ssl_bio (T : Type) := {
  f_recv : nat -> T -> option (Z * list Z * T);
  f_send : list Z -> T -> option (Z * T);
}.
Arguments f_recv {T}.
Arguments f_send {T}.

Inductive authmode := SSL_VERIFY_NONE | SSL_VERIFY_OPTIONAL | SSL_VERIFY_REQUIRED.

Class PolarSslTls := {
  ssl_context : Type;
  ssl_zero : ssl_context;
  ssl_init : ssl_context -> Z * ssl_context;
  ssl_set_endpoint : bool -> ssl_context -> ssl_context;
  ssl_set_authmode : authmode -> ssl_context -> ssl_context;
  ssl_set_ca_chain : AString -> option AString -> ssl_context -> ssl_context;
  ssl_set_own_cert : AString -> AString -> ssl_context -> ssl_context;
  ssl_handshake : forall {T}, ssl_bio T -> ssl_context -> T -> option (Z * ssl_context * T);
  ssl_read : forall {T}, ssl_bio T -> nat -> ssl_context -> T -> option (Z * list Z * ssl_context * T);
  ssl_write : forall {T}, ssl_bio T -> list Z -> ssl_context -> T -> option (Z * ssl_context * T);
  ssl_close_notify : forall {T}, ssl_bio T -> ssl_context -> T -> option (Z * ssl_context * T);
}.

Section SslContext.
Context `{PolarSslTls}.

(** Certificates and keys by their text. *)
Record cSslContext := {
  m_IsValid : bool;
  m_HasHandshaken : bool;
  m_Ssl : ssl_context;
  m_OwnCert : option (AString * AString);
  ssl_CACerts : option AString;
  ssl_ExpectedPeerName : AString;
}.

#[global] Instance eta_cSslContext : Eta cSslContext := fun c =>
  {| m_IsValid := m_IsValid c; m_HasHandshaken := m_HasHandshaken c; m_Ssl := m_Ssl c; m_OwnCert := m_OwnCert c;
     ssl_CACerts := ssl_CACerts c; ssl_ExpectedPeerName := ssl_ExpectedPeerName c |}.

Definition cSslContext_ctor : cSslContext :=
  {| m_IsValid := false; m_HasHandshaken := false; m_Ssl := ssl_zero; m_OwnCert := None;
     ssl_CACerts := None; ssl_ExpectedPeerName := [] |}.

Definition Initialize (a_IsClient : bool) (c : cSslContext) : Z * cSslContext :=
  if m_IsValid c then (POLARSSL_ERR_SSL_BAD_INPUT_DATA, c) else
  let '(res, ssl) := ssl_init ssl_zero in
  let c := c <| m_Ssl := ssl |> in
  if negb (res =? 0) then (res, c) else
  let ssl := ssl_set_authmode (if a_IsClient then SSL_VERIFY_OPTIONAL else SSL_VERIFY_NONE) (ssl_set_endpoint a_IsClient ssl) in
  (0, c <| m_Ssl := ssl |> <| m_IsValid := true |>).

Definition SetOwnCert (a_OwnCert a_OwnCertPrivKey : option AString) (c : cSslContext) : option cSslContext :=
  if negb (m_IsValid c) then None else
  match a_OwnCert, a_OwnCertPrivKey with
  | Some cert, Some key => Some (c <| m_OwnCert := Some (cert, key) |> <| m_Ssl ::= ssl_set_own_cert cert key |>)
  | _, _ => Some c
  end.

Definition SetCACerts (a_CACert a_ExpectedPeerName : AString) (c : cSslContext) : option cSslContext :=
  if negb (m_IsValid c) then None else
  let c := c <| ssl_ExpectedPeerName := a_ExpectedPeerName |> <| ssl_CACerts := Some a_CACert |> in
  let c := c <| m_Ssl ::= ssl_set_authmode SSL_VERIFY_REQUIRED |> in
  Some (c <| m_Ssl ::= ssl_set_ca_chain a_CACert (match a_ExpectedPeerName with [] => None | _ => Some a_ExpectedPeerName end) |>).

Section Transport.
Context {T : Type} (bio : ssl_bio T).

Definition Handshake (c : cSslContext) (t : T) : option (Z * cSslContext * T) :=
  if negb (m_IsValid c) || m_HasHandshaken c then None else
  '(res, ssl, t) ← ssl_handshake bio (m_Ssl c) t;
  let c := c <| m_Ssl := ssl |> in
  Some (res, if res =? 0 then c <| m_HasHandshaken := true |> else c, t).

(** The handshake that [WritePlain] and [ReadPlain] start with. *)
Definition ensure_handshake (c : cSslContext) (t : T) : option (Z * cSslContext * T) :=
  if negb (m_HasHandshaken c) then Handshake c t else Some (0, c, t).

Definition WritePlain (a_Data : list Z) (c : cSslContext) (t : T) : option (Z * cSslContext * T) :=
  if negb (m_IsValid c) then None else
  '(res, c, t) ← ensure_handshake c t;
  if negb (res =? 0) then Some (res, c, t) else
  '(res, ssl, t) ← ssl_write bio a_Data (m_Ssl c) t;
  Some (res, c <| m_Ssl := ssl |>, t).

Definition ReadPlain (a_MaxBytes : nat) (c : cSslContext) (t : T) : option (Z * list Z * cSslContext * T) :=
  if negb (m_IsValid c) then None else
  '(res, c, t) ← ensure_handshake c t;
  if negb (res =? 0) then Some (res, [], c, t) else
  '(res, data, ssl, t) ← ssl_read bio a_MaxBytes (m_Ssl c) t;
  Some (res, data, c <| m_Ssl := ssl |>, t).

Definition NotifyClose (c : cSslContext) (t : T) : option (Z * cSslContext * T) :=
  '(res, ssl, t) ← ssl_close_notify bio (m_Ssl c) t; Some (res, c <| m_Ssl := ssl |>, t).
End Transport.

(** ** cCallbackSslContext *)

(** [m_Callbacks] may be null. *)
Definition callback_bio {T} (m_Callbacks : option (ssl_bio T)) : ssl_bio T := {|
  f_recv := fun a_NumBytes t =>
    match m_Callbacks with None => Some (POLARSSL_ERR_NET_RECV_FAILED, [], t) | Some cb => f_recv cb a_NumBytes t end;
  f_send := fun a_Buffer t =>
    match m_Callbacks with None => Some (POLARSSL_ERR_NET_SEND_FAILED, t) | Some cb => f_send cb a_Buffer t end;
|}.

(** ** cBlockingSslClientSocket *)

(** [m_Event] is whether the event is set; [m_Socket] whether there is a link. *)
Record cBlockingSslClientSocket := {
  m_SslContext : cSslContext;
  m_Socket : bool;
  m_Event : bool;
  m_CACerts : option AString;
  m_ExpectedPeerName : AString;
  m_ServerName : AString;
  m_LastErrorText : AString;
  m_IsConnected : bool;
  m_IncomingData : list Z;
}.

#[global] Instance eta_cBlockingSslClientSocket : Eta cBlockingSslClientSocket := fun s =>
  {| m_SslContext := m_SslContext s; m_Socket := m_Socket s; m_Event := m_Event s; m_CACerts := m_CACerts s;
     m_ExpectedPeerName := m_ExpectedPeerName s; m_ServerName := m_ServerName s; m_LastErrorText := m_LastErrorText s;
     m_IsConnected := m_IsConnected s; m_IncomingData := m_IncomingData s |}.

Definition cBlockingSslClientSocket_ctor : cBlockingSslClientSocket :=
  {| m_SslContext := cSslContext_ctor; m_Socket := false; m_Event := false; m_CACerts := None; m_ExpectedPeerName := [];
     m_ServerName := []; m_LastErrorText := []; m_IsConnected := false; m_IncomingData := [] |}.

(** What the link tells the socket. *)
Definition OnConnected (s : cBlockingSslClientSocket) : cBlockingSslClientSocket := s <| m_IsConnected := true |> <| m_Event := true |>.
Definition OnConnectError (s : cBlockingSslClientSocket) : cBlockingSslClientSocket := s <| m_Event := true |>.
Definition OnReceivedData (a_Data : list Z) (s : cBlockingSslClientSocket) : cBlockingSslClientSocket :=
  s <| m_IncomingData ::= fun d => d ++ a_Data |> <| m_Event := true |>.
Definition SetLink (s : cBlockingSslClientSocket) : cBlockingSslClientSocket := s <| m_Socket := true |>.
Definition OnDisconnected (s : cBlockingSslClientSocket) : cBlockingSslClientSocket :=
  s <| m_Socket := false |> <| m_IsConnected := false |> <| m_Event := true |>.

(** [ReceiveEncrypted] where it does not wait: [None] while it does. *)
Definition ReceiveEncrypted (a_NumBytes : nat) (s : cBlockingSslClientSocket) : option (Z * list Z * cBlockingSslClientSocket) :=
  match m_IncomingData s with
  | [] => if m_IsConnected s then None else Some (POLARSSL_ERR_NET_RECV_FAILED, [], s)
  | d =>
    let NumToCopy := Nat.min a_NumBytes (length d) in
    Some (Z.of_nat NumToCopy, take NumToCopy d, s <| m_IncomingData ::= drop NumToCopy |>)
  end.

(** [link_Send]: what the link's [Send] returns. *)
Definition SendEncrypted (link_Send : bool) (a_Buffer : list Z) (s : cBlockingSslClientSocket) : Z :=
  if negb (m_Socket s) then POLARSSL_ERR_NET_SEND_FAILED
  else if negb link_Send then POLARSSL_ERR_NET_SEND_FAILED
  else Z.of_nat (length a_Buffer).

(** [Connect] until it waits for the event; [inl] is a result returned at once.  [queued]:
    what cNetwork::Connect returned, which has told the link before. *)
Definition Connect_begin (a_ServerName : AString) (queued : bool) (s : cBlockingSslClientSocket) : (bool * cBlockingSslClientSocket) + cBlockingSslClientSocket :=
  if m_IsConnected s then inl (false, s <| m_LastErrorText := chars "Already connected" |>) else
  let s := SetLink (s <| m_ServerName := a_ServerName |>) in
  if negb queued then inl (false, s) else inr s.

(** The rest of [Connect], once the event is set.  The handshake works on the context with a
    transport of its own. *)
Definition Connect_end {T} (bio : ssl_bio T) (t : T) (s : cBlockingSslClientSocket) : option (bool * cBlockingSslClientSocket * T) :=
  let s := s <| m_Event := false |> in
  if negb (m_IsConnected s) then Some (false, s, t) else
  let '(ret, c) := Initialize true (m_SslContext s) in
  let s := s <| m_SslContext := c |> in
  if negb (ret =? 0) then
    Some (false, s <| m_LastErrorText := chars "SSL initialization failed: -0x" ++ Printf_x (- ret) |>, t) else
  c ← (match m_CACerts s with Some certs => SetCACerts certs (m_ExpectedPeerName s) c | None => Some c end);
  '(ret, c, t) ← Handshake bio c t;
  let s := s <| m_SslContext := c |> in
  if negb (ret =? 0) then
    Some (false, s <| m_LastErrorText := chars "SSL handshake failed: -0x" ++ Printf_x (- ret) |>, t) else
  Some (true, s <| m_IsConnected := true |>, t).

(** [parsed]: what parsing the certificates returned. *)
Definition SetTrustedRootCertsFromString (a_CACerts a_ExpectedPeerName : AString) (parsed : Z) (s : cBlockingSslClientSocket) : bool * cBlockingSslClientSocket :=
  let s := s <| m_CACerts := Some a_CACerts |> in
  if parsed <? 0 then (false, s <| m_LastErrorText := chars "CA cert parsing failed: -0x" ++ Printf_x (- parsed) |>)
  else (true, s <| m_ExpectedPeerName := a_ExpectedPeerName |>).

(** [Disconnect]: [notified] is the context after [NotifyClose]; the link is closed. *)
Definition Disconnect (notified : cSslContext) (s : cBlockingSslClientSocket) : option cBlockingSslClientSocket :=
  if negb (m_IsConnected s) then Some s else
  if negb (m_Socket s) then None else
  Some (s <| m_SslContext := notified |> <| m_Socket := false |> <| m_IsConnected := false |>).
End SslContext.

(** The loop of [cBlockingSslClientSocket::Send] over any [WritePlain]; size_t has [bits]
    bits.  The text of the last error is left out. *)
Fixpoint Send_loop {W} (WritePlain : list Z -> W -> option (Z * W)) (bits : Z) (fuel : nat) (a_Data : list Z) (NumBytes : Z) (w : W)
    : option (bool * W) :=
  match fuel with
  | O => None
  | S fuel =>
    '(res, w) ← WritePlain a_Data w;
    if res <? 0 then Some (false, w) else
    let NumBytes := wrap bits (NumBytes - res) in
    if NumBytes =? 0 then Some (true, w) else Send_loop WritePlain bits fuel a_Data NumBytes w
  end.

Definition Send {W} (WritePlain : list Z -> W -> option (Z * W)) (bits : Z) (fuel : nat) (a_Data : list Z) (w : W) : option (bool * W) :=
  Send_loop WritePlain bits fuel a_Data (Z.of_nat (length a_Data)) w.

(** ** cBufferedSslContext *)

Record cBufferedSslContext := { m_OutgoingData : cByteBuffer; m_BufferedIncoming : cByteBuffer }.

Definition cBufferedSslContext_ctor (a_BufferSize : nat) (mem_out mem_in : list Z) : cBufferedSslContext :=
  {| m_OutgoingData := cByteBuffer_ctor a_BufferSize mem_out; m_BufferedIncoming := cByteBuffer_ctor a_BufferSize mem_in |}.

Definition WriteIncoming (a_Data : list Z) (c : cBufferedSslContext) : option (nat * cBufferedSslContext) :=
  let NumBytes := Nat.min (GetFreeSpace (m_BufferedIncoming c)) (length a_Data) in
  if (0 <? NumBytes)%nat then
    '(_, b) ← Write (take NumBytes a_Data) (m_BufferedIncoming c);
    Some (NumBytes, {| m_OutgoingData := m_OutgoingData c; m_BufferedIncoming := b |})
  else Some (0%nat, c).

(** The bytes stored at [a_Data]; a read that fails would leave it as it is. *)
Definition ReadOutgoing (a_DataMaxSize : nat) (c : cBufferedSslContext) : option (list Z * cBufferedSslContext) :=
  let NumBytes := Nat.min (GetReadableSpace (m_OutgoingData c)) a_DataMaxSize in
  if (0 <? NumBytes)%nat then
    '(r, b) ← ReadBuf NumBytes (m_OutgoingData c);
    Some (default [] r, {| m_OutgoingData := CommitRead b; m_BufferedIncoming := m_BufferedIncoming c |})
  else Some ([], c).

Definition Buffered_ReceiveEncrypted (a_NumBytes : nat) (c : cBufferedSslContext) : option (Z * list Z * cBufferedSslContext) :=
  let NumBytes := Nat.min a_NumBytes (GetReadableSpace (m_BufferedIncoming c)) in
  if (NumBytes =? 0)%nat then Some (POLARSSL_ERR_NET_WANT_READ, [], c) else
  '(r, b) ← ReadBuf NumBytes (m_BufferedIncoming c);
  match r with
  | None => Some (POLARSSL_ERR_NET_RECV_FAILED, [], {| m_OutgoingData := m_OutgoingData c; m_BufferedIncoming := ResetRead b |})
  | Some d => Some (Z.of_nat NumBytes, d, {| m_OutgoingData := m_OutgoingData c; m_BufferedIncoming := CommitRead b |})
  end.

Definition Buffered_SendEncrypted (a_Buffer : list Z) (c : cBufferedSslContext) : option (Z * cBufferedSslContext) :=
  if negb (CanWriteBytes (m_OutgoingData c) (length a_Buffer)) then Some (POLARSSL_ERR_NET_WANT_WRITE, c) else
  '(r, b) ← Write a_Buffer (m_OutgoingData c);
  let c := {| m_OutgoingData := b; m_BufferedIncoming := m_BufferedIncoming c |} in
  match r with
  | None => Some (POLARSSL_ERR_NET_SEND_FAILED, c)
  | Some _ => Some (Z.of_nat (length a_Buffer), c)
  end.

(** The callbacks a cBufferedSslContext gives to PolarSSL. *)
Definition buffered_bio : ssl_bio cBufferedSslContext :=
  {| f_recv := Buffered_ReceiveEncrypted; f_send := Buffered_SendEncrypted |}.

(** What the owner and PolarSSL do with the buffers. *)
Inductive pipe_op :=
  | P_WriteIncoming (a_Data : list Z)
  | P_Receive (a_NumBytes : nat)
  | P_Send (a_Buffer : list Z)
  | P_ReadOutgoing (a_DataMaxSize : nat).

(** What went in and came out at each end, and what PolarSSL was answered. *)
Record pipe_log := { in_accepted : list Z; in_taken : list Z; out_accepted : list Z; out_taken : list Z; answers : list Z }.

Definition pipe_step (op : pipe_op) (s : cBufferedSslContext * pipe_log) : option (cBufferedSslContext * pipe_log) :=
  let '(c, g) := s in
  match op with
  | P_WriteIncoming d =>
    '(n, c) ← WriteIncoming d c;
    Some (c, {| in_accepted := in_accepted g ++ take n d; in_taken := in_taken g; out_accepted := out_accepted g; out_taken := out_taken g; answers := answers g |})
  | P_Receive n =>
    '(res, d, c) ← Buffered_ReceiveEncrypted n c;
    Some (c, {| in_accepted := in_accepted g; in_taken := in_taken g ++ d; out_accepted := out_accepted g; out_taken := out_taken g; answers := answers g ++ [res] |})
  | P_Send d =>
    '(res, c) ← Buffered_SendEncrypted d c;
    Some (c, {| in_accepted := in_accepted g; in_taken := in_taken g; out_accepted := out_accepted g ++ (if res <? 0 then [] else d);
                out_taken := out_taken g; answers := answers g ++ [res] |})
  | P_ReadOutgoing n =>
    '(d, c) ← ReadOutgoing n c;
    Some (c, {| in_accepted := in_accepted g; in_taken := in_taken g; out_accepted := out_accepted g; out_taken := out_taken g ++ d; answers := answers g |})
  end.

Fixpoint pipe_run (ops : list pipe_op) (s : cBufferedSslContext * pipe_log) : option (cBufferedSslContext * pipe_log) :=
  match ops with
  | [] => Some s
  | op :: ops => s ← pipe_step op s; pipe_run ops s
  end.

Definition no_log : pipe_log := {| in_accepted := []; in_taken := []; out_accepted := []; out_taken := []; answers := [] |}.

(** ** The buffers are pipes *)

(** Both buffers hold what waits, and nothing that was read and not committed. *)
Record pipe_inv (n : nat) (c : cBufferedSslContext) (g : pipe_log) (waiting_in waiting_out : list Z) : Prop := {
  pi_in : represents (m_BufferedIncoming c) {| consumed := []; pending := waiting_in; capacity := n |};
  pi_out : represents (m_OutgoingData c) {| consumed := []; pending := waiting_out; capacity := n |};
  pi_in_order : in_accepted g = in_taken g ++ waiting_in;
  pi_out_order : out_accepted g = out_taken g ++ waiting_out;
  pi_answers : Forall (fun r => 0 <= r \/ r = POLARSSL_ERR_NET_WANT_READ \/ r = POLARSSL_ERR_NET_WANT_WRITE) (answers g);
}.

(** Reading what is there and committing takes it off the front. *)
Lemma read_commit b waiting n k :
  represents b {| consumed := []; pending := waiting; capacity := n |} -> (k <= length waiting)%nat ->
  exists b', ReadBuf k b = Some (Some (take k waiting), b') /\
    represents (CommitRead b') {| consumed := []; pending := drop k waiting; capacity := n |}.
Proof.
  intros R Hk. pose proof (sim_ReadBuf k _ _ R) as H. unfold q_read in H. cbn [pending] in H.
  rewrite (proj2 (Nat.leb_le _ _) Hk) in H. destruct H as (b' & E & R'). exists b'. split; [exact E|].
  exact (rep_commit _ _ R').
Qed.

Lemma write_room b waiting n d :
  represents b {| consumed := []; pending := waiting; capacity := n |} -> bytes_ok d -> (length d <= n - length waiting)%nat ->
  exists b', Write d b = Some (Some tt, b') /\ represents b' {| consumed := []; pending := waiting ++ d; capacity := n |}.
Proof.
  intros R Hok Hd. pose proof (rep_used _ _ R) as Hu. unfold used in Hu. cbn in Hu.
  pose proof (sim_Write d Hok _ _ R) as H. unfold q_write, used in H. cbn in H.
  rewrite (proj2 (Nat.leb_le _ _)) in H by lia. exact H.
Qed.

Definition pipe_op_ok (op : pipe_op) : Prop :=
  match op with P_WriteIncoming d | P_Send d => bytes_ok d | _ => True end.

Lemma pipe_step_inv n op c g wi wo :
  pipe_op_ok op -> pipe_inv n c g wi wo ->
  exists c' g' wi' wo', pipe_step op (c, g) = Some (c', g') /\ pipe_inv n c' g' wi' wo'.
Proof.
  intros Hop [Ri Ro Hi Ho Ha]. destruct op as [d|k|d|k]; cbn [pipe_step pipe_op_ok] in *.
  - unfold WriteIncoming. rewrite (rep_free_space _ _ Ri). unfold used. cbn [capacity consumed pending length].
    set (k := Nat.min _ _). destruct (Nat.ltb_spec 0 k); cbn [mbind option_bind].
    + destruct (write_room _ _ _ (take k d) Ri) as (b & E & Rb); [apply Forall_take, Hop | rewrite length_take; lia|].
      rewrite E. cbn [mbind option_bind]. do 4 eexists. split; [reflexivity|]. constructor; cbn; try eassumption.
      rewrite Hi, app_assoc. reflexivity.
    + do 4 eexists. split; [reflexivity|]. constructor; cbn; try eassumption. rewrite app_nil_r. exact Hi.
  - unfold Buffered_ReceiveEncrypted. rewrite (rep_readable _ _ Ri). cbn [pending]. set (m := Nat.min _ _).
    destruct (Nat.eqb_spec m 0); cbn [mbind option_bind].
    + do 4 eexists. split; [reflexivity|]. constructor; cbn; try eassumption; rewrite ?app_nil_r; auto.
      apply Forall_app. auto.
    + destruct (read_commit _ _ _ m Ri ltac:(lia)) as (b & E & Rb). rewrite E. cbn [mbind option_bind].
      do 4 eexists. split; [reflexivity|]. constructor; cbn; try eassumption.
      * rewrite <- app_assoc, take_drop. exact Hi.
      * apply Forall_app. split; [exact Ha|]. constructor; [left; lia | constructor].
  - unfold Buffered_SendEncrypted, CanWriteBytes. rewrite (rep_free_space _ _ Ro). unfold used. cbn [capacity consumed pending length].
    destruct (Nat.leb_spec (length d) (n - (0 + length wo))); cbn [negb mbind option_bind].
    + destruct (write_room _ _ _ d Ro Hop ltac:(lia)) as (b & E & Rb). rewrite E. cbn [mbind option_bind].
      rewrite (proj2 (Z.ltb_ge _ _)) by lia. do 4 eexists. split; [reflexivity|]. constructor; cbn; try eassumption.
      * rewrite Ho, app_assoc. reflexivity.
      * apply Forall_app. split; [exact Ha|]. constructor; [left; lia | constructor].
    + do 4 eexists. split; [reflexivity|]. constructor; cbn; try eassumption; rewrite ?app_nil_r; auto.
      apply Forall_app. auto.
  - unfold ReadOutgoing. rewrite (rep_readable _ _ Ro). cbn [pending]. set (m := Nat.min _ _).
    destruct (Nat.ltb_spec 0 m); cbn [mbind option_bind].
    + destruct (read_commit _ _ _ m Ro ltac:(lia)) as (b & E & Rb). rewrite E. cbn [mbind option_bind default].
      do 4 eexists. split; [reflexivity|]. constructor; cbn; try eassumption.
      rewrite <- app_assoc, take_drop. exact Ho.
    + do 4 eexists. split; [reflexivity|]. constructor; cbn; try eassumption; rewrite ?app_nil_r; auto.
Qed.

(** However the owner and PolarSSL use the buffers of a context, each direction is a pipe of
    the given size: the bytes come out as they went in, nothing is lost, no access leaves a
    buffer, and PolarSSL is answered a number of bytes or asked to wait, never a failure. *)
Theorem ssl_buffers_are_pipes (n : nat) (mem_out mem_in : list Z) (ops : list pipe_op) :
  length mem_out = S n -> length mem_in = S n -> Forall pipe_op_ok ops ->
  exists c g waiting_in waiting_out,
    pipe_run ops (cBufferedSslContext_ctor n mem_out mem_in, no_log) = Some (c, g) /\
    in_accepted g = in_taken g ++ waiting_in /\ (length waiting_in <= n)%nat /\
    out_accepted g = out_taken g ++ waiting_out /\ (length waiting_out <= n)%nat /\
    Forall (fun r => 0 <= r \/ r = POLARSSL_ERR_NET_WANT_READ \/ r = POLARSSL_ERR_NET_WANT_WRITE) (answers g).
Proof.
  intros Hout Hin Hops.
  assert (H0 : pipe_inv n (cBufferedSslContext_ctor n mem_out mem_in) no_log [] []).
  { constructor; try reflexivity; [apply rep_ctor, Hin | apply rep_ctor, Hout | constructor]. }
  assert (Hrun : forall c g wi wo, pipe_inv n c g wi wo ->
    exists c' g' wi' wo', pipe_run ops (c, g) = Some (c', g') /\ pipe_inv n c' g' wi' wo').
  { clear H0. induction Hops as [|op ops Hop _ IH]; intros c g wi wo Hinv; [do 4 eexists; split; [reflexivity | exact Hinv]|].
    destruct (pipe_step_inv n op c g wi wo Hop Hinv) as (c1 & g1 & wi1 & wo1 & E & Hinv1). cbn [pipe_run]. rewrite E.
    exact (IH c1 g1 wi1 wo1 Hinv1). }
  destruct (Hrun _ _ _ _ H0) as (c & g & wi & wo & E & [Ri Ro Hi Ho Ha]). exists c, g, wi, wo.
  pose proof (rep_used _ _ Ri) as Ui. pose proof (rep_used _ _ Ro) as Uo. unfold used in Ui, Uo. cbn in Ui, Uo. auto 8.
Qed.

(** ** Sending over the blocking socket *)

Section Sending.
(** PolarSSL takes at most 16384 bytes at once (SSL_MAX_CONTENT_LEN); [written] is what it took. *)
Context {W : Type} (WritePlain : list Z -> W -> option (Z * W)) (written : W -> list Z).
Definition content_len : nat := 16384.
Hypothesis takes : forall d w, exists w',
  WritePlain d w = Some (Z.of_nat (Nat.min (length d) content_len), w') /\ written w' = written w ++ take content_len d.
Context (bits : Z) (bits_ok : 14 < bits).

Lemma wrap_block N : wrap bits (N - 16384) mod 16384 = N mod 16384.
Proof using bits_ok.
  unfold wrap. replace (2 ^ bits) with (2 ^ (bits - 14) * 16384) by (change 16384 with (2 ^ 14); rewrite <- Z.pow_add_r by lia; f_equal; lia).
  assert (0 < 2 ^ (bits - 14)) by (apply Z.pow_pos_nonneg; lia).
  rewrite (Z.mul_comm (2 ^ (bits - 14))), Z.rem_mul_r by lia.
  rewrite (Z.mul_comm 16384 (_ mod _)), Z.mod_add by lia. rewrite Z.mod_mod by lia.
  rewrite <- (Z.mod_add (N - 16384) 1) by lia. f_equal. lia.
Qed.

(** What fits one record is written once. *)
Lemma send_short fuel d w : (length d <= content_len)%nat ->
  exists w', Send WritePlain bits (S fuel) d w = Some (true, w') /\ written w' = written w ++ d.
Proof using takes bits_ok.
  intros Hd. destruct (takes d w) as (w' & E & Hw). exists w'. unfold Send. cbn [Send_loop]. rewrite E. cbn [mbind option_bind].
  rewrite Nat.min_l by exact Hd. rewrite (proj2 (Z.ltb_ge _ _)) by lia. rewrite Z.sub_diag. unfold wrap. rewrite Z.mod_0_l by (apply Z.pow_nonzero; lia).
  rewrite Z.eqb_refl. rewrite take_ge in Hw by exact Hd. auto.
Qed.

(** Longer data whose length is not a multiple of a record is sent for ever. *)
Lemma send_never_ends d : (content_len < length d)%nat ->
  forall fuel N w, N mod 16384 <> 0 -> Send_loop WritePlain bits fuel d N w = None.
Proof using takes bits_ok.
  intros Hd. induction fuel as [|fuel IH]; intros N w HN; [reflexivity|]. cbn [Send_loop].
  destruct (takes d w) as (w' & -> & _). cbn [mbind option_bind]. rewrite Nat.min_r by lia.
  change (Z.of_nat content_len) with 16384. cbn [Z.ltb Z.compare].
  pose proof (wrap_block N) as Hmod. destruct (Z.eqb_spec (wrap bits (N - 16384)) 0) as [E|_].
  - rewrite E in Hmod. rewrite Z.mod_0_l in Hmod by lia. congruence.
  - apply IH. rewrite Hmod. exact HN.
Qed.

(** Of a multiple of a record only the first record is sent, that many times. *)
Lemma send_repeats d : (content_len < length d)%nat -> forall k fuel w, (k < fuel)%nat -> Z.of_nat (S k) * 16384 < 2 ^ bits ->
  exists w', Send_loop WritePlain bits fuel d (Z.of_nat (S k) * 16384) w = Some (true, w') /\
    written w' = written w ++ concat (replicate (S k) (take content_len d)).
Proof using takes bits_ok.
  intros Hd. induction k as [|k IH]; intros fuel w Hf Hk; (destruct fuel as [|fuel]; [lia|]); cbn [Send_loop];
    destruct (takes d w) as (w1 & -> & Hw1); cbn [mbind option_bind]; rewrite Nat.min_r by lia;
    change (Z.of_nat content_len) with 16384; cbn [Z.ltb Z.compare].
  - exists w1. change (Z.of_nat 1 * 16384 - 16384) with 0. unfold wrap. rewrite Z.mod_0_l by (apply Z.pow_nonzero; lia).
    split; [reflexivity|]. cbn [replicate concat]. rewrite app_nil_r. exact Hw1.
  - replace (Z.of_nat (S (S k)) * 16384 - 16384) with (Z.of_nat (S k) * 16384) by lia.
    rewrite wrap_small by (unfold in_width; lia). rewrite (proj2 (Z.eqb_neq _ _)) by lia.
    destruct (IH fuel w1 ltac:(lia) ltac:(lia)) as (w' & E & Hw'). exists w'. split; [exact E|].
    rewrite Hw', Hw1, <- app_assoc. reflexivity.
Qed.

(** [Send] hands over its data as it is only if they fit one record: every round writes from
    the start of the data again, whole records are sent as copies of the first one, and
    anything else is sent without end. *)
Theorem send_restarts (d : list Z) (w : W) :
  Z.of_nat (length d) < 2 ^ bits ->
  ((length d <= content_len)%nat -> exists w', Send WritePlain bits 1 d w = Some (true, w') /\ written w' = written w ++ d) /\
  ((content_len < length d)%nat -> Z.of_nat (length d) mod 16384 <> 0 -> forall fuel, Send WritePlain bits fuel d w = None) /\
  (forall k, length d = (S (S k) * content_len)%nat ->
    exists w', Send WritePlain bits (S (S k)) d w = Some (true, w') /\
      written w' = written w ++ concat (replicate (S (S k)) (take content_len d))).
Proof using takes bits_ok.
  intros Hd. split; [apply send_short|]. split.
  - intros Hlen Hmod fuel. apply send_never_ends; assumption.
  - intros k Hk. unfold Send. assert (Hz : Z.of_nat (length d) = Z.of_nat (S (S k)) * 16384).
    { rewrite Hk, Nat2Z.inj_mul. reflexivity. }
    rewrite Hz in *. apply send_repeats; [|lia | exact Hd]. apply Nat2Z.inj_lt. rewrite Hz. change (Z.of_nat content_len) with 16384. lia.
Qed.
End Sending.

(** 16385 bytes are never sent, on a transport that keeps what it is given. *)
Example send_16385 (fuel : nat) :
  Send (fun d w => Some (Z.of_nat (Nat.min (length d) content_len), w ++ take content_len d)) 32 fuel (replicate (S content_len) 7) [] = None.
Proof.
  refine (proj1 (proj2 (send_restarts _ (fun w => w) _ 32 eq_refl (replicate (S content_len) 7) [] _)) _ _ fuel).
  - intros d w. eexists. split; reflexivity.
  - rewrite length_replicate. vm_compute. reflexivity.
  - rewrite length_replicate. lia.
  - rewrite length_replicate. vm_compute. discriminate.
Qed.

(** ** Receiving over the blocking socket *)

Section Receiving.
Context `{PolarSslTls}.

Inductive socket_op :=
  | K_Data (a_Data : list Z)
  | K_Disconnected
  | K_Receive (a_NumBytes : nat).

(** The state, the bytes that came and those PolarSSL took. *)
Definition socket_step (op : socket_op) (x : cBlockingSslClientSocket * list Z * list Z) : option (cBlockingSslClientSocket * list Z * list Z) :=
  let '(s, came, taken) := x in
  match op with
  | K_Data d => Some (OnReceivedData d s, came ++ d, taken)
  | K_Disconnected => Some (OnDisconnected s, came, taken)
  | K_Receive n => '(res, d, s) ← ReceiveEncrypted n s; Some (s, came, taken ++ d)
  end.

Fixpoint socket_run (ops : list socket_op) (x : cBlockingSslClientSocket * list Z * list Z) :=
  match ops with [] => Some x | op :: ops => x ← socket_step op x; socket_run ops x end.

(** PolarSSL gets the bytes that came, in order; it is told of the end of the connection only
    when it has them all. *)
Theorem tls_bytes_in_order (ops : list socket_op) (s : cBlockingSslClientSocket) (came taken : list Z) (n : nat) :
  socket_run ops (cBlockingSslClientSocket_ctor, [], []) = Some (s, came, taken) ->
  came = taken ++ m_IncomingData s /\
  (forall d s', ReceiveEncrypted n s = Some (POLARSSL_ERR_NET_RECV_FAILED, d, s') -> taken = came /\ m_IsConnected s = false).
Proof.
  intros Hrun.
  assert (Hinv : forall ops s0 c0 t0, c0 = t0 ++ m_IncomingData s0 -> socket_run ops (s0, c0, t0) = Some (s, came, taken) ->
            came = taken ++ m_IncomingData s).
  { clear. induction ops as [|op ops IH]; intros s0 c0 t0 H0; cbn [socket_run]; [intros E; injection E as <- <- <-; exact H0|].
    destruct op as [d| |k]; cbn [socket_step mbind option_bind].
    - apply IH. cbn. rewrite H0, app_assoc. reflexivity.
    - apply IH. exact H0.
    - unfold ReceiveEncrypted. destruct (m_IncomingData s0) as [|x xs] eqn:Ed.
      + destruct (m_IsConnected s0); [discriminate|]. cbn [mbind option_bind]. apply IH. rewrite Ed, !app_nil_r in *. exact H0.
      + cbn [mbind option_bind]. apply IH. set (m := Nat.min k _).
        change (c0 = (t0 ++ take m (x :: xs)) ++ drop m (m_IncomingData s0)). rewrite Ed, <- app_assoc, take_drop. exact H0. }
  specialize (Hinv ops cBlockingSslClientSocket_ctor [] [] eq_refl Hrun). split; [exact Hinv|]. intros d s'. unfold ReceiveEncrypted.
  destruct (m_IncomingData s) as [|x xs].
  - destruct (m_IsConnected s); [discriminate|]. intros _. rewrite app_nil_r in Hinv. auto.
  - intros E. injection E as E _ _. unfold POLARSSL_ERR_NET_RECV_FAILED in E. lia.
Qed.

(** A failed handshake leaves the socket marked as connected, so the next [Connect] is refused. *)
Lemma failed_handshake_refuses {T} (bio : ssl_bio T) (t t' : T) (s s' : cBlockingSslClientSocket) name :
  m_IsConnected s = true -> Connect_end bio t s = Some (false, s', t') ->
  exists s'', Connect_begin name true s' = inl (false, s'') /\ m_LastErrorText s'' = chars "Already connected".
Proof.
  intros Hc. unfold Connect_end.
  change (m_IsConnected (s <| m_Event := false |>)) with (m_IsConnected s). rewrite Hc. cbn [negb].
  destruct (Initialize true _) as [ret c].
  assert (Hk : forall s1 : cBlockingSslClientSocket, m_IsConnected s1 = true ->
            exists s'', Connect_begin name true s1 = inl (false, s'') /\ m_LastErrorText s'' = chars "Already connected").
  { intros s1 H1. unfold Connect_begin. rewrite H1. eexists. split; reflexivity. }
  destruct (negb (ret =? 0)).
  - intros E. injection E as <- _. apply Hk. exact Hc.
  - destruct (match m_CACerts _ with Some _ => _ | None => _ end) as [c1|]; [|discriminate]. cbn [mbind option_bind].
    destruct (Handshake bio c1 t) as [[[ret1 c2] t1]|]; [|discriminate]. cbn [mbind option_bind].
    destruct (negb (ret1 =? 0)); [|discriminate]. intros E. injection E as <- _. apply Hk. exact Hc.
Qed.
End Receiving.
