(* ===== verification/SlideShow.v ===== *)
(** * SlideShow: sequence numbers during and after a slide show

    [setSlideShowMode] leaves a connection sending key frames only, so the numbers it
    sends lag behind the numbers it is given.  The theorems follow [Connection] through
    the mode: the numbers of the packets at its beginning and its end, and the way back,
    the numbers in the peer's feedback. *)

From Stdlib Require Import Ascii String.
From S2P Require Import Prelude Bytes MediaDefinitions RtpHeaders RtpVP8 Rtcp RtcpForwarder Stats SdpInfo NiceConnection Dtls DtlsTransport RtpExtensions Connection ConnectionFacts.
Local Open Scope string_scope.
Local Open Scope list_scope.
Local Open Scope Z_scope.

(** ** The peer's feedback *)

(** The members the handler reads are inside the block. *)
Definition adjust_ok (b : list Z) : Prop :=
  (4 <= List.length b)%nat
  /\ (RtcpHeader.getPacketType b 0 = Some RTCP_Receiver_PT -> 20 <= List.length b)%nat
  /\ (RtcpHeader.getPacketType b 0 = Some RTCP_RTP_Feedback_PT -> 16 <= List.length b)%nat.

(** What the offset does to a block: the highest number a receiver report says was
    received and the first number of a NACK move by it, the other blocks stay. *)
Inductive shifted (off : Z) (b b' : list Z) : Prop :=
  | shift_report highest :
      RtcpHeader.getPacketType b 0 = Some RTCP_Receiver_PT ->
      RtcpHeader.getHighestSeqnum b 0 = Some highest ->
      RtcpHeader.setHighestSeqnum (highest + off) b 0 = Some b' -> shifted off b b'
  | shift_nack pid :
      RtcpHeader.getPacketType b 0 = Some RTCP_RTP_Feedback_PT ->
      RtcpHeader.getNackPid b 0 = Some pid ->
      RtcpHeader.setNackPid (pid + off) b 0 = Some b' -> shifted off b b'
  | shift_none :
      RtcpHeader.getPacketType b 0 <> Some RTCP_Receiver_PT ->
      RtcpHeader.getPacketType b 0 <> Some RTCP_RTP_Feedback_PT ->
      b' = b -> shifted off b b'.

(** The comparison in front of [setSeqnumCycles] is one of [int]s: it never holds. *)
Lemma no_cycle highest off : 0 <= off -> (highest + off <? highest) = false.
Proof. intros. apply Z.ltb_ge. lia. Qed.

Lemma adjust_block_middle off pre b post u :
  0 <= off -> adjust_ok b ->
  adjust_block off (pre ++ b ++ post) (Z.of_nat (List.length pre)) u =
    '(b', u') ← adjust_block off b 0 u; Some (pre ++ b' ++ post, u').
Proof.
  intros Ho (H4 & Hrr & Hfb). unfold adjust_block, RtcpHeader.getPacketType in *.
  in_block. destruct (get_bf RtcpHeader.packettype b 0) as [pt|]; [|reflexivity]. cbn [option_bind mbind].
  destruct (Z.eqb_spec pt RTCP_Receiver_PT) as [->|_].
  { specialize (Hrr eq_refl). unfold RtcpHeader.getHighestSeqnum, RtcpHeader.setHighestSeqnum. in_block.
    destruct (get_bf RtcpHeader.highestseqnum b 0) as [h|]; [|reflexivity].
    cbn [fmap option_fmap option_map option_bind mbind]. rewrite (no_cycle _ _ Ho). cbn [option_bind mbind]. in_block.
    destruct (get_bf RtcpHeader.highestseqnum b 0); [|reflexivity].
    cbn [fmap option_fmap option_map option_bind mbind]. in_block.
    destruct (set_bf RtcpHeader.highestseqnum _ b 0); reflexivity. }
  destruct (Z.eqb_spec pt RTCP_RTP_Feedback_PT) as [->|_]; [|reflexivity].
  specialize (Hfb eq_refl). unfold RtcpHeader.getNackPid, RtcpHeader.setNackPid. in_block.
  destruct (get_bf RtcpHeader.pid b 0) as [p|]; [|reflexivity].
  cbn [fmap option_fmap option_map option_bind mbind]. in_block.
  destruct (set_bf RtcpHeader.pid _ b 0); reflexivity.
Qed.

Lemma adjust_block_spec off b u :
  0 <= off -> adjust_ok b ->
  exists b', adjust_block off b 0 u = Some (b', u) /\ shifted off b b' /\ List.length b' = List.length b.
Proof.
  intros Ho (H4 & Hrr & Hfb). unfold adjust_block.
  destruct (RtcpHeader.getPacketType b 0) as [pt|] eqn:Ept.
  2:{ exfalso. unfold RtcpHeader.getPacketType in Ept.
      destruct (get_bf_is_Some RtcpHeader.packettype b 0) as [? E]; [unfold in_bounds; simpl; lia | congruence]. }
  cbn [option_bind mbind]. destruct (Z.eqb_spec pt RTCP_Receiver_PT) as [->|Hr].
  { specialize (Hrr eq_refl). destruct (RtcpHeader.getHighestSeqnum b 0) as [h|] eqn:Eh.
    2:{ exfalso. unfold RtcpHeader.getHighestSeqnum in Eh.
        destruct (get_bf_is_Some RtcpHeader.highestseqnum b 0) as [? E]; [unfold in_bounds; simpl; lia | rewrite E in Eh; discriminate]. }
    cbn [option_bind mbind]. rewrite (no_cycle _ _ Ho). cbn [option_bind mbind]. rewrite Eh. cbn [option_bind mbind].
    unfold RtcpHeader.setHighestSeqnum.
    destruct (set_bf_is_Some RtcpHeader.highestseqnum (htons (h + off)) b 0) as [b' E]; [unfold in_bounds; simpl; lia|].
    rewrite E. exists b'. split; [reflexivity|]. split; [eapply shift_report; eassumption | eauto using set_bf_length]. }
  destruct (Z.eqb_spec pt RTCP_RTP_Feedback_PT) as [->|Hf].
  2:{ exists b. split; [reflexivity|]. split; [apply shift_none; congruence | reflexivity]. }
  specialize (Hfb eq_refl). destruct (RtcpHeader.getNackPid b 0) as [p|] eqn:Ep.
  2:{ exfalso. unfold RtcpHeader.getNackPid in Ep.
      destruct (get_bf_is_Some RtcpHeader.pid b 0) as [? E]; [unfold in_bounds; simpl; lia | rewrite E in Ep; discriminate]. }
  cbn [option_bind mbind]. unfold RtcpHeader.setNackPid.
  destruct (set_bf_is_Some RtcpHeader.pid (htons (p + off)) b 0) as [b' E]; [unfold in_bounds; simpl; lia|].
  rewrite E. exists b'. split; [reflexivity|]. split; [eapply shift_nack; eassumption | eauto using set_bf_length].
Qed.

#[export] Instance adjust_block_local off : 0 <= off -> block_local (adjust_block off) adjust_ok.
Proof.
  intros Ho. split.
  - intros. apply adjust_block_middle; assumption.
  - intros b u b' u' Hb E. destruct (adjust_block_spec off b u Ho Hb) as (b1 & E1 & _ & Hl). congruence.
Qed.

Lemma run_adjust off bs :
  0 <= off -> Forall adjust_ok bs ->
  exists bs', run_blocks (adjust_block off) bs tt = Some (bs', tt) /\ Forall2 (shifted off) bs bs'.
Proof.
  intros Ho. induction 1 as [|b bs Hb _ (bs' & E & HF)]; [exists []; split; [reflexivity | constructor]|].
  destruct (adjust_block_spec off b tt Ho Hb) as (b' & Eb & Hs & _).
  exists (b' :: bs'). cbn [run_blocks]. rewrite Eb. cbn [option_bind mbind]. rewrite E.
  split; [reflexivity | constructor; assumption].
Qed.

(** A number moved by the offset, modulo 2^16. *)
Lemma set_net16_get f v buf base buf' :
  bf_ok f -> bf_width f = 16 -> bytes_ok buf -> set_bf f (htons v) buf base = Some buf' ->
  ntohs <$> get_bf f buf' base = Some (u16 v).
Proof.
  intros Hf Hw Hok E. rewrite (get_set_same _ _ _ _ _ Hf Hok E), Hw. simpl.
  rewrite wrap_small by exact (htons_width v). rewrite bswap_bswap. reflexivity.
Qed.

Section SlideShow.
Context `{CryptoLib} (env : Env).

(** While numbers are moved, the application gets the peer's feedback with every number
    moved back: the highest number of receiver reports, whose cycle count stays what it
    was even when the sum wraps around, and the first number of NACKs.  Every other byte
    is passed on as it came. *)
Theorem feedback_shifted (bs : list (list Z)) (c : WebRtcConnection) :
  fbSink_ c = true -> shouldSendFeedback_ c = true -> 0 < seqNoOffset_ c -> bs <> [] ->
  Forall (fun b => framed b /\ adjust_ok b) bs ->
  let len := Z.of_nat (List.length (concat bs)) in
  exists bs', pass_feedback (concat bs) len c = Some (c, [DeliverFeedback (concat bs') len])
    /\ Forall2 (shifted (seqNoOffset_ c)) bs bs'.
Proof.
  intros Hs Hf Ho Hne Hall len. unfold pass_feedback. rewrite Hs, Hf, (proj2 (Z.ltb_lt _ _) Ho). cbn [andb].
  assert (Ho' : 0 <= seqNoOffset_ c) by lia.
  destruct (run_adjust (seqNoOffset_ c) bs Ho') as (bs' & E & HF);
    [eapply Forall_impl; [exact Hall | intros b Hb; exact (proj2 Hb)]|].
  unfold len. rewrite (compound_blocks _ adjust_ok (block_local0 := adjust_block_local _ Ho')) by assumption.
  rewrite E. exists bs'. split; [reflexivity | exact HF].
Qed.

(** ** Queueing a packet *)

(** A media packet that fits a [dataPacket], with the number [seq]. *)
Record media_packet (buf : list Z) (seq : Z) : Prop := {
  mp_ok : bytes_ok buf;
  mp_size : (12 <= List.length buf <= 1500)%nat;
  mp_rtp : RtcpHeader.isRtcp buf 0 = Some false;
  mp_seq : RtpHeader.getSeqNumber buf 0 = Some seq;
  mp_red : RtpHeader.getPayloadType buf 0 <> Some RED_90000_PT
}.

(** A connection that takes video. *)
Record takes_video (c : WebRtcConnection) : Prop := {
  tv_transport : is_Some (videoTransport_ c);
  tv_enabled : videoEnabled_ c = true;
  tv_sending : sending_ c = true
}.

Context (Hmem : bytes_ok (data (e_packet env))) (Hmem1500 : List.length (data (e_packet env)) = 1500%nat).

Definition number_of (p : dataPacket) : option Z := RtpHeader.getSeqNumber (data p) 0.

Lemma set_payload_type_number v buf buf' :
  bytes_ok buf -> RtpHeader.setPayloadType v buf 0 = Some buf' ->
  bytes_ok buf' /\ RtpHeader.getSeqNumber buf' 0 = RtpHeader.getSeqNumber buf 0
  /\ List.length buf' = List.length buf.
Proof.
  intros Hok E. unfold RtpHeader.setPayloadType in E. split_and!.
  - exact (set_bf_ok _ _ _ _ _ Hok E).
  - unfold RtpHeader.getSeqNumber. f_equal. refine (get_set_other _ _ _ _ _ _ _ _ Hok _ E);
      [unfold bf_ok; simpl; lia | unfold bf_ok; simpl; lia | unfold bf_disjoint; simpl; lia].
  - exact (set_bf_length _ _ _ _ _ E).
Qed.

Lemma changeDeliverPayloadType_number c buf :
  bytes_ok buf -> (12 <= List.length buf)%nat -> RtcpHeader.isRtcp buf 0 = Some false ->
  exists buf', changeDeliverPayloadType buf VIDEO_PACKET c = Some buf' /\ bytes_ok buf'
    /\ RtpHeader.getSeqNumber buf' 0 = RtpHeader.getSeqNumber buf 0 /\ List.length buf' = List.length buf.
Proof.
  intros Hok Hl Hr. unfold changeDeliverPayloadType. rewrite Hr. cbn [option_bind mbind].
  destruct (get_bf_is_Some RtpHeader.payloadtype buf 0) as [pt Ept]; [unfold in_bounds; simpl; lia|].
  unfold RtpHeader.getPayloadType. rewrite Ept. cbn [option_bind mbind]. cbv zeta.
  destruct (pt =? _); [exists buf; auto|].
  destruct (set_bf_is_Some RtpHeader.payloadtype (getVideoExternalPT pt (remoteSdp_ c)) buf 0) as [buf' E];
    [unfold in_bounds; simpl; lia|].
  exists buf'. split; [exact E|]. exact (set_payload_type_number _ _ _ Hok E).
Qed.

(** The packet is queued under the number asked for, 0 standing for its own. *)
Lemma queueData_number buf seq n c :
  media_packet buf seq -> in_width 16 n -> sending_ c = true -> (List.length (sendQueue_ c) < 1000)%nat ->
  exists p, queueData env 0 buf (Z.of_nat (List.length buf)) VIDEO_PACKET n c
            = Some (c <| sendQueue_ ::= fun q => q ++ [p] |>)
    /\ number_of p = Some (if n =? 0 then seq else n).
Proof.
  intros [Hok [H12 H15] Hr Hseq _] Hn Hs Hroom. unfold queueData. rewrite Hs. cbn [negb].
  rewrite (proj2 (Z.eqb_neq 0 (-1))) by lia. rewrite (proj2 (Z.ltb_lt _ _)) by lia.
  unfold prepare. rewrite copy_in_spec by (exact Hmem1500 || reflexivity).
  rewrite (proj2 (Z.leb_le _ _)) by lia. cbn [option_bind mbind]. cbv zeta.
  set (d := buf ++ drop (List.length buf) (data (e_packet env))).
  assert (Hd : bytes_ok d) by (apply Forall_app; split; [exact Hok | apply Forall_drop; exact Hmem]).
  assert (Hld : (12 <= List.length d)%nat) by (unfold d; rewrite length_app; lia).
  assert (Hrd : RtcpHeader.isRtcp d 0 = Some false).
  { rewrite <- Hr. apply isRtcp_prefix; [unfold d; rewrite take_app_le by lia; reflexivity | lia | lia]. }
  assert (Hsd : RtpHeader.getSeqNumber d 0 = Some seq).
  { rewrite <- Hseq. unfold RtpHeader.getSeqNumber, d. rewrite get_bf_app_l; [reflexivity|]. unfold in_bounds; simpl; lia. }
  destruct (changeDeliverPayloadType_number c d Hd Hld Hrd) as (d1 & E1 & Hok1 & Hs1 & Hl1).
  match goal with |- context [changeDeliverPayloadType ?x _ _] => change x with d end.
  rewrite E1. cbn [option_bind mbind].
  destruct (n =? 0).
  - eexists. split; [reflexivity|]. unfold number_of. simpl. congruence.
  - unfold RtpHeader.setSeqNumber.
    destruct (set_bf_is_Some RtpHeader.seqnum (htons n) d1 0) as [d2 E2]; [unfold in_bounds; simpl; lia|].
    rewrite E2. cbn [option_bind mbind]. eexists. split; [reflexivity|]. unfold number_of, RtpHeader.getSeqNumber. simpl.
    rewrite (set_net16_get RtpHeader.seqnum n d1 0 d2); [|unfold bf_ok; simpl; lia|reflexivity|exact Hok1|exact E2].
    f_equal. apply wrap_small. exact Hn.
Qed.

Lemma media_seq_width buf seq : media_packet buf seq -> in_width 16 seq.
Proof.
  intros Hp. pose proof (mp_seq _ _ Hp) as E. unfold RtpHeader.getSeqNumber in E.
  apply fmap_Some in E as (x & _ & ->). exact (bswap_bound 2 x).
Qed.

(** A packet that is not RED is delivered as it is, and its number remembered. *)
Lemma deliverVideoData_plain depth recover buf seq c :
  media_packet buf seq -> is_Some (videoTransport_ c) -> videoEnabled_ c = true ->
  let len := Z.of_nat (List.length buf) in
  deliverVideoData_ env (S depth) recover buf len c
  = (c' ← deliver_plain env buf len (c <| sendSeqNo_ := seq |>); Some (len, c')).
Proof.
  intros Hp Ht He len. cbn [deliverVideoData_].
  rewrite bool_decide_eq_true_2 by exact Ht. rewrite He. cbn [andb].
  rewrite (mp_rtp _ _ Hp). cbn [option_bind mbind]. rewrite (mp_seq _ _ Hp). cbn [option_bind mbind].
  pose proof (mp_red _ _ Hp) as Hred. destruct (RtpHeader.getPayloadType buf 0) as [pt|] eqn:Ept.
  2:{ exfalso. destruct (mp_size _ _ Hp). unfold RtpHeader.getPayloadType in Ept.
      destruct (get_bf_is_Some RtpHeader.payloadtype buf 0) as [? E]; [unfold in_bounds; simpl; lia | congruence]. }
  cbn [option_bind mbind]. cbv zeta. rewrite (proj2 (Z.eqb_neq pt RED_90000_PT)) by congruence. cbn [andb].
  reflexivity.
Qed.

(** Outside a slide show the number is the packet's own less the offset; a difference of 0
    leaves the packet its own number. *)
Lemma deliver_number depth recover buf seq c :
  media_packet buf seq -> takes_video c -> (List.length (sendQueue_ c) < 1000)%nat ->
  slideShowMode_ c = false -> in_width 16 (seqNoOffset_ c) ->
  let n := u16 (seq - seqNoOffset_ c) in let len := Z.of_nat (List.length buf) in
  exists p, deliverVideoData_ env (S depth) recover buf len c
      = Some (len, c <| sendSeqNo_ := seq |> <| sendQueue_ ::= fun q => q ++ [p] |>)
    /\ number_of p = Some (if n =? 0 then seq else n).
Proof.
  intros Hp Hv Hroom Hm Ho n len. rewrite (deliverVideoData_plain _ _ _ _ _ Hp (tv_transport _ Hv) (tv_enabled _ Hv)).
  unfold deliver_plain. cbn [slideShowMode_]. simpl slideShowMode_. rewrite Hm. simpl seqNoOffset_. simpl sendSeqNo_.
  pose proof (media_seq_width _ _ Hp) as Hw.
  set (c1 := c <| sendSeqNo_ := seq |>).
  assert (Hr : (List.length (sendQueue_ c1) < 1000)%nat) by exact Hroom.
  assert (Hs : sending_ c1 = true) by exact (tv_sending _ Hv).
  destruct (Z.ltb_spec 0 (seqNoOffset_ c)) as [H0|H0].
  - destruct (queueData_number buf seq n c1 Hp ltac:(apply wrap_bound; lia) Hs Hr) as (p & E & En).
    fold n. rewrite E. exists p. split; [reflexivity | exact En].
  - destruct (queueData_number buf seq 0 c1 Hp ltac:(unfold in_width; lia) Hs Hr) as (p & E & En).
    rewrite E. exists p. split; [reflexivity|]. rewrite En.
    assert (Eo : seqNoOffset_ c = 0) by (unfold in_width in Ho; lia).
    unfold n. rewrite Eo, Z.sub_0_r, wrap_small by exact Hw. destruct (seq =? 0); reflexivity.
Qed.

(** During a slide show the packets of a key frame are numbered by the counter. *)
Lemma deliver_slide_number buf seq hl v c :
  media_packet buf seq -> sending_ c = true -> (List.length (sendQueue_ c) < 1000)%nat -> in_width 16 (seqNo_ c) ->
  RtpHeader.getHeaderLength buf 0 = Some hl ->
  parseVP8 (e_vp8 env) (drop (Z.to_nat hl) buf) (Z.of_nat (List.length buf) - hl) = Some v -> frameType v = kIFrame ->
  exists p c', deliver_slide env buf (Z.of_nat (List.length buf)) c = Some c'
    /\ sendQueue_ c' = sendQueue_ c ++ [p] /\ seqNo_ c' = u16 (seqNo_ c + 1)
    /\ number_of p = Some (if seqNo_ c =? 0 then seq else seqNo_ c).
Proof.
  intros Hp Hs Hr Hw Eh Ev Ek. unfold deliver_slide. rewrite Eh. cbn [option_bind mbind]. rewrite Ev. cbn [option_bind mbind].
  rewrite decide_True by exact Ek. cbv zeta.
  change (grace_ (c <| grace_ := 1 |>) =? 0) with false. cbv iota.
  change (seqNo_ (c <| grace_ := 1 |>)) with (seqNo_ c).
  set (c1 := c <| grace_ := 1 |> <| seqNo_ := u16 (seqNo_ c + 1) |>).
  destruct (queueData_number buf seq (seqNo_ c) c1 Hp Hw Hs Hr) as (p & E & En). rewrite E. cbn [option_bind mbind].
  destruct (mp_size _ _ Hp).
  destruct (get_bf_is_Some RtpHeader.marker buf 0) as [m Em]; [unfold in_bounds; simpl; lia|].
  unfold RtpHeader.getMarker. rewrite Em. cbn [option_bind mbind].
  exists p. eexists. split; [reflexivity|]. destruct (m =? 0); split_and!; reflexivity || exact En.
Qed.

(** The first packet of a slide show repeats the number of the last packet before it,
    whatever number it had itself. *)
Theorem slide_show_entry_repeats depth recover buf1 seq1 buf2 seq2 hl v c :
  slideShowMode_ c = false -> in_width 16 (seqNoOffset_ c) -> takes_video c -> (List.length (sendQueue_ c) < 999)%nat ->
  media_packet buf1 seq1 -> media_packet buf2 seq2 ->
  RtpHeader.getHeaderLength buf2 0 = Some hl ->
  parseVP8 (e_vp8 env) (drop (Z.to_nat hl) buf2) (Z.of_nat (List.length buf2) - hl) = Some v -> frameType v = kIFrame ->
  let n := u16 (seq1 - seqNoOffset_ c) in n <> 0 ->
  exists c1 c2 p1 p2,
    deliverVideoData_ env (S depth) recover buf1 (Z.of_nat (List.length buf1)) c = Some (Z.of_nat (List.length buf1), c1)
    /\ deliverVideoData_ env (S depth) recover buf2 (Z.of_nat (List.length buf2)) (setSlideShowMode true c1)
       = Some (Z.of_nat (List.length buf2), c2)
    /\ sendQueue_ c2 = sendQueue_ c ++ [p1; p2] /\ number_of p1 = Some n /\ number_of p2 = Some n.
Proof.
  intros Hm Ho Hv Hroom Hp1 Hp2 Eh Ev Ek n Hn.
  destruct (deliver_number depth recover buf1 seq1 c Hp1 Hv ltac:(lia) Hm Ho) as (p1 & E1 & En1).
  fold n in En1. rewrite (proj2 (Z.eqb_neq _ _) Hn) in En1.
  set (c1 := c <| sendSeqNo_ := seq1 |> <| sendQueue_ ::= fun q => q ++ [p1] |>) in E1.
  assert (Hlen : (List.length (sendQueue_ c1) < 1000)%nat)
    by (unfold c1; simpl; rewrite length_app; simpl; lia).
  set (c2 := setSlideShowMode true c1).
  assert (Ec2 : c2 = c1 <| seqNo_ := n |> <| grace_ := 0 |> <| slideShowMode_ := true |> <| shouldSendFeedback_ := false |>).
  { unfold c2, setSlideShowMode. change (slideShowMode_ c1) with (slideShowMode_ c). rewrite Hm. reflexivity. }
  destruct (deliver_slide_number buf2 seq2 hl v (c2 <| sendSeqNo_ := seq2 |>) Hp2) as (p2 & c' & E2 & Eq & _ & En2).
  { rewrite Ec2. exact (tv_sending _ Hv). }
  { rewrite Ec2. exact Hlen. }
  { rewrite Ec2. apply wrap_bound. lia. }
  1-3: assumption.
  exists c1, c', p1, p2. split; [exact E1|].
  assert (Ht : is_Some (videoTransport_ c2) /\ videoEnabled_ c2 = true)
    by (rewrite Ec2; split; [exact (tv_transport _ Hv) | exact (tv_enabled _ Hv)]).
  rewrite (deliverVideoData_plain _ _ _ _ _ Hp2 (proj1 Ht) (proj2 Ht)). unfold deliver_plain.
  replace (slideShowMode_ (c2 <| sendSeqNo_ := seq2 |>)) with true by (rewrite Ec2; reflexivity).
  rewrite E2. cbn [option_bind mbind]. split; [reflexivity|].
  rewrite Eq, Ec2 in *. simpl in *. rewrite (proj2 (Z.eqb_neq _ _) Hn) in En2.
  split_and!; [rewrite <- app_assoc; reflexivity | exact En1 | exact En2].
Qed.

Lemma exit_number a b seq : u16 (seq - u16 (a - b + 1)) = u16 (b + (seq - a - 1)).
Proof. unfold wrap. rewrite Zminus_mod_idemp_r. f_equal. lia. Qed.

(** The packets the application delivers one after the other. *)
Fixpoint deliver_all (depth : nat) (recover : list Z -> option (list (list Z))) (bufs : list (list Z))
    (c : WebRtcConnection) : option WebRtcConnection :=
  match bufs with
  | [] => Some c
  | buf :: bufs =>
    '(_, c) ← deliverVideoData_ env depth recover buf (Z.of_nat (List.length buf)) c;
    deliver_all depth recover bufs c
  end.

(** The number under which the packet [seq] leaves while numbers are moved by [off]. *)
Definition sent (off seq : Z) : Z := let n := u16 (seq - off) in if n =? 0 then seq else n.

Lemma deliver_all_numbers depth recover bufs seqs : forall c,
  Forall2 media_packet bufs seqs -> takes_video c -> slideShowMode_ c = false -> in_width 16 (seqNoOffset_ c) ->
  (List.length (sendQueue_ c) + List.length bufs < 1000)%nat ->
  exists c' ps, deliver_all (S depth) recover bufs c = Some c' /\ sendQueue_ c' = sendQueue_ c ++ ps
    /\ Forall2 (fun p seq => number_of p = Some (sent (seqNoOffset_ c) seq)) ps seqs
    /\ seqNoOffset_ c' = seqNoOffset_ c /\ fbSink_ c' = fbSink_ c /\ shouldSendFeedback_ c' = shouldSendFeedback_ c.
Proof.
  intros c HF. revert c. induction HF as [|buf seq bufs seqs Hp HF IH]; intros c Hv Hm Ho Hroom.
  { exists c, []. rewrite app_nil_r. auto 10. }
  simpl List.length in Hroom.
  assert (Hr : (List.length (sendQueue_ c) < 1000)%nat) by lia.
  destruct (deliver_number depth recover buf seq c Hp Hv Hr Hm Ho) as (p & E & En).
  set (c1 := c <| sendSeqNo_ := seq |> <| sendQueue_ ::= fun q => q ++ [p] |>) in E.
  destruct (IH c1) as (c' & ps & E' & Eq & Hps & Hoff & Hfb & Hsh).
  - destruct Hv. split; assumption.
  - exact Hm.
  - exact Ho.
  - unfold c1. simpl. rewrite length_app. simpl. lia.
  - exists c', (p :: ps). cbn [deliver_all]. rewrite E. cbn [option_bind mbind].
    split_and!; [exact E' | rewrite Eq; unfold c1; simpl; rewrite <- app_assoc; reflexivity | | exact Hoff | exact Hfb | exact Hsh].
    constructor; [exact En | exact Hps].
Qed.

(** A NACK, and nothing else, from the peer. *)
Record nack_for (pid : Z) (b : list Z) : Prop := {
  nk_ok : bytes_ok b;
  nk_framed : framed b;
  nk_size : (16 <= List.length b)%nat;
  nk_type : RtcpHeader.getPacketType b 0 = Some RTCP_RTP_Feedback_PT;
  nk_pid : RtcpHeader.getNackPid b 0 = Some pid
}.

Lemma htons_u16 x : htons (u16 x) = htons x.
Proof. unfold bswap, wrap. change (2 ^ 16) with (256 ^ Z.of_nat 2). rewrite le_bytes_mod. reflexivity. Qed.

(** The application gets a NACK with its number moved back by the offset. *)
Lemma nack_passed b pid c :
  nack_for pid b -> fbSink_ c = true -> shouldSendFeedback_ c = true -> in_width 16 (seqNoOffset_ c) ->
  exists b', pass_feedback b (Z.of_nat (List.length b)) c = Some (c, [DeliverFeedback b' (Z.of_nat (List.length b))])
    /\ RtcpHeader.getNackPid b' 0 = Some (u16 (pid + seqNoOffset_ c))
    /\ (b' = b \/ RtcpHeader.setNackPid (u16 (pid + seqNoOffset_ c)) b 0 = Some b').
Proof.
  intros [Hok Hfr Hl Ht Hpid] Hs Hf Ho. destruct (Z.ltb_spec 0 (seqNoOffset_ c)) as [H0|H0].
  - destruct (feedback_shifted [b] c Hs Hf H0) as (bs' & E & HF); [discriminate | |].
    { constructor; [|constructor]. split; [exact Hfr|]. split; [lia|]. split; intros Hx; [rewrite Ht in Hx; discriminate|exact Hl]. }
    apply Forall2_cons_inv_l in HF as (b' & bs & Hb & HF & ->). apply Forall2_nil_inv_l in HF as ->.
    cbn [concat] in E. rewrite !app_nil_r in E. exists b'. split; [exact E|].
    destruct Hb as [h Er|pid' _ Ep Es|_ Hno _]; [rewrite Ht in Er; discriminate | | contradiction].
    rewrite Hpid in Ep. injection Ep as <-. unfold RtcpHeader.setNackPid in *. split.
    + unfold RtcpHeader.getNackPid. apply (set_net16_get RtcpHeader.pid _ b 0); [unfold bf_ok; simpl; lia|reflexivity|exact Hok|exact Es].
    + right. rewrite htons_u16. exact Es.
  - exists b. unfold pass_feedback. rewrite Hs, Hf. cbn [andb]. rewrite (proj2 (Z.ltb_ge _ _)) by lia.
    split; [reflexivity|]. split; [|auto]. rewrite Hpid. f_equal.
    assert (Eo : seqNoOffset_ c = 0) by (unfold in_width in Ho; lia). rewrite Eo, Z.add_0_r.
    symmetry. apply wrap_small. unfold RtcpHeader.getNackPid in Hpid. apply fmap_Some in Hpid as (x & _ & ->). exact (bswap_bound 2 x).
Qed.

(** C19. When a slide show ends, the counter's next number is [seqNo_], the application's next
    packet [sendSeqNo_ + 1].  The packets that follow, as many as the queue has room for,
    are queued in order; one that is [k] past [sendSeqNo_ + 1] gets the number [k] past
    [seqNo_], modulo 2^16, so there is no gap - except where that number is 0, which the
    queue takes for "no number": that packet keeps its own, and 0 is skipped.  A NACK of the
    peer for the number a packet was sent under reaches the application as a NACK for the
    packet's own number, with nothing else changed; for the exceptional packet it reaches it
    with the offset added to the packet's own number, which names another packet. *)
Theorem slide_show_exit_continues depth recover bufs seqs c :
  slideShowMode_ c = true -> fbSink_ c = true -> takes_video c -> Forall2 media_packet bufs seqs ->
  (List.length (sendQueue_ c) + List.length bufs < 1000)%nat ->
  let number seq := u16 (seqNo_ c + (seq - (sendSeqNo_ c + 1))) in
  let sent_as seq := if number seq =? 0 then seq else number seq in
  let off := u16 (sendSeqNo_ c - seqNo_ c + 1) in
  exists c' ps, deliver_all (S depth) recover bufs (setSlideShowMode false c) = Some c'
    /\ sendQueue_ c' = sendQueue_ c ++ ps
    /\ Forall2 (fun p seq => number_of p = Some (sent_as seq)) ps seqs
    /\ (forall seq b, seq ∈ seqs -> nack_for (sent_as seq) b ->
         let asked := if number seq =? 0 then u16 (seq + off) else seq in
         exists b', pass_feedback b (Z.of_nat (List.length b)) c'
             = Some (c', [DeliverFeedback b' (Z.of_nat (List.length b))])
           /\ RtcpHeader.getNackPid b' 0 = Some asked
           /\ (b' = b \/ RtcpHeader.setNackPid asked b 0 = Some b')).
Proof.
  intros Hm Hs Hv HF Hroom number sent_as off. set (c1 := setSlideShowMode false c).
  assert (Ec1 : c1 = c <| seqNoOffset_ := off |> <| slideShowMode_ := false |> <| shouldSendFeedback_ := true |>)
    by (unfold c1, setSlideShowMode; rewrite Hm; reflexivity).
  assert (Ho : in_width 16 off) by (apply wrap_bound; lia).
  assert (Hn : forall seq, u16 (seq - off) = number seq).
  { intros seq. unfold off, number. rewrite exit_number. f_equal. lia. }
  destruct (deliver_all_numbers depth recover bufs seqs c1 HF) as (c' & ps & E & Eq & Hps & Eo & Efb & Esh);
    [rewrite Ec1; destruct Hv; split; assumption | rewrite Ec1; reflexivity | rewrite Ec1; exact Ho | rewrite Ec1; exact Hroom |].
  assert (Eo1 : seqNoOffset_ c' = off) by (rewrite Eo, Ec1; reflexivity).
  exists c', ps. split; [exact E|]. split; [rewrite Eq, Ec1; reflexivity|]. split.
  - eapply Forall2_impl; [exact Hps|]. intros p seq ->. unfold sent, sent_as. rewrite Ec1. simpl seqNoOffset_.
    rewrite Hn. reflexivity.
  - intros seq b Hin Hb asked.
    destruct (nack_passed b _ c' Hb) as (b' & E' & Ep & Eb);
      [rewrite Efb, Ec1; exact Hs | rewrite Esh, Ec1; reflexivity | rewrite Eo1; exact Ho |].
    assert (Ea : u16 (sent_as seq + seqNoOffset_ c') = asked).
    { rewrite Eo1. unfold asked, sent_as. destruct (number seq =? 0); [reflexivity|]. rewrite <- Hn.
      transitivity (u16 seq); [unfold wrap; rewrite Zplus_mod_idemp_l; f_equal; lia|].
      apply list_elem_of_lookup in Hin as (i & Hi). destruct (Forall2_lookup_r _ _ _ _ _ HF Hi) as (buf & _ & Hp).
      exact (wrap_small 16 seq (media_seq_width _ _ Hp)). }
    rewrite Ea in Ep, Eb. eauto.
Qed.
End SlideShow.

(** ** Concrete packets *)

#[local] Existing Instance Sample.lib.

(** VP8 packets (payload type 100) with the given number: a key frame, as its payload
    descriptor and frame header say. *)
Definition sample_vp8 (seq : Z) : list Z :=
  [128; 100; seq / 256; seq mod 256] ++ replicate 8 1 ++ [16; 0; 0; 0; 157; 1; 42; 0; 0; 0; 0].

Lemma sample_vp8_media : media_packet (sample_vp8 700) 700 /\ media_packet (sample_vp8 900) 900.
Proof. split; (split; [repeat constructor; vm_compute; congruence | simpl; lia | reflexivity | reflexivity | discriminate]). Qed.

(** A connection with a video transport. *)
Definition sample_video : WebRtcConnection :=
  (WebRtcConnection_ctor sample_env time0 time0 true true IceConfig_ctor true)
    <| videoTransport_ := Some (sample_transport 0 false) |>.

Lemma sample_takes : takes_video sample_video.
Proof. split; [eexists; reflexivity | reflexivity | reflexivity]. Qed.

Example slide_show_entry_repeats_witness :
  exists c1 c2 p1 p2,
    deliverVideoData_ sample_env 1 (fun _ => None) (sample_vp8 700) 23 sample_video = Some (23, c1)
    /\ deliverVideoData_ sample_env 1 (fun _ => None) (sample_vp8 900) 23 (setSlideShowMode true c1) = Some (23, c2)
    /\ sendQueue_ c2 = sendQueue_ sample_video ++ [p1; p2] /\ number_of p1 = Some 700 /\ number_of p2 = Some 700.
Proof.
  destruct (parseVP8 (e_vp8 sample_env) (drop 12 (sample_vp8 900)) 11) as [v|] eqn:E; [|vm_compute in E; discriminate].
  apply (slide_show_entry_repeats sample_env ltac:(apply Forall_replicate; vm_compute; split; congruence) eq_refl 0
           (fun _ => None) (sample_vp8 700) 700 (sample_vp8 900) 900 12 v sample_video).
  - vm_compute. reflexivity.
  - vm_compute. split; congruence.
  - exact sample_takes.
  - simpl. lia.
  - apply sample_vp8_media.
  - apply sample_vp8_media.
  - reflexivity.
  - exact E.
  - vm_compute in E. injection E as <-. reflexivity.
  - discriminate.
Defined.

(** The end of a slide show that has sent the numbers up to 704 while the application was
    at 949; the peer then asks for packet 705. *)
Definition sample_show : @WebRtcConnection Sample.lib :=
  sample_video <| slideShowMode_ := true |> <| sendSeqNo_ := 949 |> <| seqNo_ := 705 |>
    <| fbSink_ := true |> <| shouldSendFeedback_ := false |>.

Definition sample_nack (pid : Z) : list Z := [129; 205; 0; 3; 0; 0; 0; 1; 0; 0; 0; 2; pid / 256; pid mod 256; 0; 0].

Example slide_show_exit_continues_witness :
  exists c' ps b', deliver_all sample_env 1 (fun _ => None) [sample_vp8 950; sample_vp8 951] (setSlideShowMode false sample_show) = Some c'
    /\ sendQueue_ c' = ps /\ map number_of ps = [Some 705; Some 706]
    /\ pass_feedback (sample_nack 706) 16 c' = Some (c', [DeliverFeedback b' 16]) /\ RtcpHeader.getNackPid b' 0 = Some 951.
Proof.
  destruct (slide_show_exit_continues sample_env ltac:(apply Forall_replicate; vm_compute; split; congruence) eq_refl 0
           (fun _ => None) [sample_vp8 950; sample_vp8 951] [950; 951] sample_show) as (c' & ps & E & Eq & En & Hn).
  - reflexivity.
  - reflexivity.
  - destruct sample_takes. split; assumption.
  - repeat constructor; first [vm_compute; congruence | simpl; lia | reflexivity | discriminate].
  - simpl. lia.
  - destruct (Hn 951 (sample_nack 706)) as (b' & Ef & Ep & _).
    + right. left.
    + split; [repeat constructor; vm_compute; congruence | eexists; split; reflexivity | simpl; lia | reflexivity | reflexivity].
    + exists c', ps, b'. split; [exact E|]. split; [rewrite Eq; vm_compute; reflexivity|].
      split; [|split; [exact Ef | exact Ep]].
      apply Forall2_cons_inv_r in En as (p1 & ps1 & E1 & En & ->). apply Forall2_cons_inv_r in En as (p2 & ps2 & E2 & En & ->).
      apply Forall2_nil_inv_r in En as ->. cbn [map]. rewrite E1, E2. vm_compute. reflexivity.
Defined.

Example feedback_shifted_witness :
  exists b', pass_feedback (sample_nack 705) 16 (setSlideShowMode false sample_show)
             = Some (setSlideShowMode false sample_show, [DeliverFeedback b' 16])
    /\ shifted (seqNoOffset_ (setSlideShowMode false sample_show)) (sample_nack 705) b'.
Proof.
  destruct (feedback_shifted [sample_nack 705] (setSlideShowMode false sample_show)) as (bs' & E & HF).
  1-2: reflexivity.
  - vm_compute. reflexivity.
  - discriminate.
  - constructor; [|constructor]. split; [eexists; split; reflexivity|]. unfold adjust_ok. change (List.length (sample_nack 705)) with 16%nat. split; [lia|]. split; [discriminate|]. lia.
  - apply Forall2_cons_inv_l in HF as (b' & bs & Hb & HF & ->). apply Forall2_nil_inv_l in HF as ->.
    exists b'. split; [cbn [concat] in E; rewrite !app_nil_r in E; exact E | exact Hb].
Defined.
